(* ===== verification/_CoqProject ===== *)
-Q . S2P
Prelude.v
Abi.v
Ipc.v
Ramfs.v
Persist.v
Paths.v
Quota.v
Tenant.v
Namespace.v
AuditLog.v
Session.v
Policy.v
Mem.v
AgentDef.v
Vm.v
VmTree.v
VmProps.v
Kernel.v
Uaccess.v
Sched.v
Agent.v
Tool.v
Trap.v
Ota.v
Catalog.v
ElfLoad.v
NetWire.v
Net.v
NetProps.v
NetTcp.v
Board.v
Http.v
Fleet.v
Llm.v
Services.v
NetFrame.v
Virtio.v
VirtioBlk.v
VirtioNet.v
VirtioCon.v
VirtioGpu.v
VirtioInput.v
LibAgent.v
AgentSvc.v
ServiceAgents.v
ConsoleSvc.v
Pipelines.v
Effects.v
BootImages.v
X86Vm.v
X86VmProps.v
X86Trap.v
Boot.v
SvcProtocol.v
UserWorld.v
SvcCalls.v
GateTools.v
SvcFiles.v
UserKernel.v
SvcBackends.v
SvcProd.v
Pci.v
PciBlk.v
PciNet.v
NetCard.v
TlsClient.v
TlsProps.v
Doh.v
Klib.v
Smp.v
Demos.v
DemoFiles.v
DemoProps.v
DemoEnds.v
