(* ===== verification/Prelude.v ===== *)
(** * OpenAgentOS: a Rocq verification development

    OpenAgentOS is a small operating system whose processes are agents.  The
    kernel (src/kernel) gives each agent an address space, a mailbox and a set
    of capabilities; every other service is reached through system calls and a
    tool gateway that applies quotas, a policy and an audit log.  On top of it run
    service agents (src/user) that own one resource each and answer the requests that
    other agents send them as messages.  This library models the kernel in its RISC-V
    build, the parts that the x86 build replaces, the drivers, the boot images, the
    service agents and the demonstrations as executable definitions, one per C function
    with the same name, and proves theorems about them.

    ** Parts, files and correspondence

    - Prelude.v: machine integers, bytes and C strings, decimal printing and
      scanning, the kernel monad, tactics and generic lemmas.
    - Abi.v: constants of include/agentos.h and the enumerations of agent.h.
    - Ipc.v: kernel/ipc.c, mailboxes as two ring buffers ([msgbox]) and their
      refinement to a pair of queues ([mailbox], [abs]).
    - Ramfs.v: kernel/ramfs.c, the table of 64 files; [fs_get] is the abstract
      map from paths to contents.
    - Persist.v: kernel/persist.c over the interface [BlockDevice] with its laws
      (instance [memdisk]).
    - Paths.v: the path building and scanning that quota.c, tenant.c,
      namespace.c, audit.c and session.c repeat.
    - Quota.v, Tenant.v, Namespace.v, AuditLog.v (audit.c), Session.v, Policy.v: the
      files of those names.  They run on the ramfs; quota and policy have their own
      state records.
    - Mem.v: kernel/mem.c, the bump allocator.
    - AgentDef.v: [struct agent] and [struct trapframe] of kernel/agent.h.
    - Vm.v: kernel/vm.c.  Tables are lists of 512 words at their addresses
      ([pt_mem]), user memory is a map of bytes ([pmem]).  VmTree.v describes the
      tables under a root as a tree, with the entries of the kernel table that all
      tables share, and the updates of it; VmProps.v has the theorems, among them a
      run of [vm_init] with the addresses of linker.ld ([virt_layout]).
    - Kernel.v: the record [kstate] of everything above and of the static data
      of agent.c and sched.c, and the functions on the current agent.
    - Uaccess.v: kernel/uaccess.c, through the translation of the hart.
    - Sched.v: kernel/sched.c.
    - Agent.v: kernel/agent.c, the message functions of quota.c, and
      arch/riscv/agent_arch.c.
    - Tool.v: kernel/tool.c; the class [Devices] stands for the tools that need
      devices or packages, which the later files define and Services.v collects.
    - Trap.v: kernel/sched_syscall.c and arch/riscv/trap_handler.c.
    - Ota.v, Catalog.v, ElfLoad.v: kernel/ota.c (over a parameter for SHA-256),
      catalog.c and elfload.c, with the tools that call them.
    - NetWire.v: the packet formats, checksums and text parsers of
      kernel/netstack.c; Net.v: its state and handlers over the card interface
      [Nic]; NetProps.v and NetTcp.v have the theorems.
    - Board.v: the devices of the machine as one record ([board], in the place of
      the disk in [kstate]) and the serial console (kernel/uart.c).
    - Http.v: kernel/http.c; Fleet.v: fleet.c, remote.c and mesh.c; Llm.v: llm.c and
      llm_deepseek.c; Services.v: the display and input tools and the instance of
      [Devices]; NetFrame.v: which system calls reach the network.
    - Virtio.v: the virtqueues and the bus that the drivers share; VirtioBlk.v:
      kernel/virtio_blk.c; VirtioNet.v: virtio_net.c, an instance of [Nic];
      VirtioCon.v: virtio.c, the channel to the host.  The device at the other side
      is a class in each of them ([BlkHost], [NetHost], [ConHost]) with laws that say
      what a virtio device does with the buffers it is given.
    - VirtioGpu.v: kernel/virtio_gpu.c, the screen with its font; VirtioInput.v:
      virtio_input.c, the keyboard, and the instance of [Peripherals] made of the host
      channel, the screen and the keyboard.
    - LibAgent.v: user/libagent.h.  A user program is an interaction tree over the
      system calls ([prog]), run in any instance of the class [World]; the static
      variables that all agents share are a record ([user_bss]).  AgentSvc.v:
      user/agent_svc.c, the client side of the services; ServiceAgents.v: the six
      services (storage_svc.c, router_svc.c, network_svc.c, network_prod_svc.c,
      display_svc.c, input_svc.c); ConsoleSvc.v: console_svc.c; Pipelines.v:
      shell_svc.c and orch_pipeline.c.
    - Effects.v: which system calls a program can make ([only]), for every one of them.
    - BootImages.v: the function kmain of each of the 52 files kernel/kernel*.c as a
      list of its calls; Boot.v runs them on the state of the kernel, with the parts that
      a build replaces as a class ([Port]) that has an instance for RISC-V and one for the
      PC.
    - SvcProtocol.v: the texts of requests and replies; UserWorld.v: agents with their
      mailboxes and quotas as a [World], and two of them under every schedule;
      SvcCalls.v: a call of a service; GateTools.v: the file tools with the checks of the
      gateway; SvcFiles.v (storage), SvcBackends.v (router, network, display, input),
      SvcProd.v (the network service with cache and quota): the theorems.
    - UserKernel.v: the world of user programs against the system calls of Trap.v.
    - X86Vm.v: arch/x86/vm.c, two-level tables with the control registers of the
      processor; X86VmProps.v has the theorems.  X86Trap.v: arch/x86/trap_init.c,
      trap_handler.c, timer.c and agent_arch.c, with port accesses as a trace.
    - Pci.v: the search for virtio devices on the bus, which
      arch/x86/virtio_pci_blk.c and virtio_pci_net.c both contain; PciBlk.v and PciNet.v:
      the two drivers against the devices of VirtioBlk.v and VirtioNet.v.
    - NetCard.v: the network calls reach the card only through [Nic].  TlsClient.v:
      kernel/tls_client.c over a class for the TLS library ([Mbedtls]), with the calls
      that the library makes back as trees; TlsProps.v: the exchange of a request and its
      reply; Doh.v: the name lookup over HTTPS.
    - Klib.v: kernel/string.c, printf.c and mbedtls_port.c.
    - Smp.v: kernel/spinlock.c and smp.c as transition systems of several harts.
    - Demos.v and DemoFiles.v: the first agents of the images and the agents that they
      start (user/demo_*.c, worker_*.c); DemoProps.v: which calls they make, against the
      images of BootImages.v; DemoEnds.v: how they end.

    ** How the model reads the code

    An operation is a function of the state in the monad [M] (or a plain
    function where it cannot fail): [Ret] gives a value and a new state, [Undef]
    stands for undefined behaviour of C such as an access outside an array (the
    buffers of the network stack and the frame buffer among them: [fits] of Net.v,
    [fb_store] and [fb_fill] of VirtioGpu.v), or a fault in kernel mode, and [Halt] for [kernel_halt] and, in the TLS client, for a
    loop that has waited for the library more often than a given patience.  C integers are numbers
    [Z]; the width is applied where a computation can leave it ([u32], [i32],
    [u64], ...), also for the signed sums of digit loops, which are taken to
    wrap.  A C string is the list of its bytes before the NUL.  A pointer to an
    agent is the index of the agent, an option where the code tests it for null;
    pointers to kernel buffers are passed as values, so the tests of such
    pointers for null do not appear.  The hart that runs a function is an
    argument.  A section under a spin lock is one step, which is what the mutual exclusion
    of Smp.v is for.  Loops are structural
    recursions over the data they scan; where the bound is a number the fuel is
    the number of iterations that the C condition allows, so running out of fuel
    coincides with the end of the loop.  The exception is the waiting loop of the
    scheduler, whose fuel is the number of waits and which gives [None] while the
    hart has not been given work; the theorems about it need one iteration.  The loops
    of user programs that may run for ever (a service, a client that waits for a reply)
    are [ITree.iter]; a result of such a program is proved to be the only one and to be
    reachable from every state in which the agents can be.

    ** What the theorems show

    - Memory: mapping a page changes exactly one translation, and in every state
      reachable from [vm_init] a page mapped for one agent is not seen in another
      agent's table unless its address lies under an entry of the kernel table, where
      it is seen in all of them; the access check accepts
      exactly the accessible ranges, copies to and from user memory do exactly
      that or fail without effect, heap aliases share until the first write and
      then separate, kernel allocations are disjoint.
    - Messages: mailboxes refine two queues with priority, compaction keeps the
      newest messages, the send and receive calls as a whole are characterised
      with every refusal.
    - Scheduling: no agent is current on two harts, the choice is
      work-conserving, agents without mail take turns in queue order, an agent
      with mail goes first, a fault ends only the faulting agent.
    - Files: reads after writes and puts, overlay of partial writes, the disk
      round trip, detection of any changed byte by the checksum.
    - Gateway: every tool call is mediated by quota, policy and capability, a
      refusal changes only the caller's audit log, the file tools refuse other
      agents' files, logs, homes and audit records are isolated and bounded, and
      the policy tables stay within their limits.
    - Packages and programs: a changed package is refused, an accepted one is
      installed as it is, a rollback restores the replaced version, versions are
      compared as numbers, a loaded segment is the file's bytes and zeros.
    - Network: every call of the stack ends in a sound state whatever arrives,
      no write leaves a buffer, checksums verify, data sent by one stack arrives at
      another unchanged; of all traps only the calls of four tools and of the model
      query, each with its capability, reach the network, and the fleet and model
      queries ask the network policy.
    - Drivers: the block driver and a virtio disk are a disk, the network driver and
      a virtio card a queue of frames, the host channel carries a prompt and its
      answer unchanged within its limits; line editing gives the edited line.
    - Screen and keyboard: the driver stays within the block it allocated for the
      frame buffer, which has the size of the screen, a text
      changes exactly the pixels of its characters, the keyboard is a queue of events.
    - Services: under every schedule of the two agents a client that writes a file
      through the storage service and reads it back gets its data, and a call of the
      router, the network, the display or the input service gives what the tool behind
      it gives; the network service falls back to its cache and counts its quota.  The
      kernel implements the world in which this is proved: sending, receiving, reading and
      writing files give the same results and data there and as system calls.
    - Booting: in every image, each capability is held only by the slots that own it and
      a service may make all the calls that its program contains; every initialisation
      comes before its uses and is not repeated after them, and the agents of the booted
      kernel have the identifiers of their slots.
    - Harts: the spin lock admits one hart at a time under every interleaving; while
      the harts start, the count and the states they report are right in every order,
      and an interrupt reaches the running ones when only one other is woken.
    - x86: tables of different agents are separate, but the kernel never turns paging
      on, so no table protects anything there; the descriptor tables decode to the
      intended segments, task state and four gates, and a fault ends only the faulting
      agent, with another one's frame returned.  The bus search finds
      the first matching function, and the PCI drivers are a disk and a queue of frames
      as the others are.
    - HTTPS: a completed exchange has sent the whole request and gives the bytes of the
      reply that fit, every object of the library is freed on every path, and it is
      stated what the name lookup reads in any answer: the last address when only
      records of type A hold one.
    - Demonstrations: in every image the first agent and all that it starts make only
      calls for which they have the capability, and end the services of the image before
      they end with success; the benchmark of messages cannot complete.
    - Kernel library: the memory functions do what C says also for overlapping ranges, and
      the console prints the conversions it knows with the values of their arguments.
    - Some theorems record where the code departs from its intent: session paths
      owned by nobody, old bytes after a compaction, a load that fails on an
      empty file, writes that escape the file quota, lengths that wrap around,
      buffers, replies and wake-ups that are lost or come too late, a client that waits for ever,
      a service that falls silent.

    ** Not modelled

    The TLS library and SHA-256, which are not part of the repository's own code, are
    parameters.  The assembly files (boot, trap entry and context switch), the programming
    of the RISC-V timer and the flushing of translation caches have no model; nor do the
    stub modules of small configurations, whose functions are empty or give a constant, and
    the demonstration of the memory (demo_vm3.c), which is about single loads and stores
    of a program.
    The model is sequential within one system call: a second hart that changes a
    user buffer between a check and its use is not represented, and a device acts
    only when a driver looks at the memory they share. *)

From stdpp Require Export base tactics numbers list list_numbers gmap strings.
From Stdlib Require Export ZArith Lia.

#[global] Open Scope Z_scope.

(** ** Machine integers

    A C integer is a [Z]; the width is applied where the code can leave the
    range of its type. *)

Definition u8 (x : Z) : Z := x mod 256.
Definition u16 (x : Z) : Z := x mod 65536.
Definition u32 (x : Z) : Z := x mod 4294967296.
Definition u64 (x : Z) : Z := x mod 18446744073709551616.

Definition i32 (x : Z) : Z := (x + 2147483648) mod 4294967296 - 2147483648.

Lemma u32_small x : 0 ≤ x < 4294967296 → u32 x = x.
Proof. apply Z.mod_small. Qed.

Lemma u32_range x : 0 ≤ u32 x < 4294967296.
Proof. apply Z.mod_pos_bound; lia. Qed.

Lemma u64_small x : 0 ≤ x < 18446744073709551616 → u64 x = x.
Proof. apply Z.mod_small. Qed.

Lemma u64_range x : 0 ≤ u64 x < 18446744073709551616.
Proof. apply Z.mod_pos_bound; lia. Qed.

Lemma i32_small x : -2147483648 ≤ x < 2147483648 → i32 x = x.
Proof. intros. unfold i32. rewrite Z.mod_small; lia. Qed.

Lemma i32_range x : -2147483648 ≤ i32 x < 2147483648.
Proof.
  unfold i32. pose proof (Z.mod_pos_bound (x + 2147483648) 4294967296). lia.
Qed.

(** ** Bytes, characters and C strings

    A byte is a [Z] between 0 and 255.  A NUL-terminated C string is the list
    of its bytes before the terminator; [cget] reads a character and gives the
    terminator 0 at the end.  The code reads characters left to right and
    stops at the first mismatch, so on a non-empty string it reads nothing
    after the terminator. *)

Definition byte_ok (b : Z) : Prop := 0 ≤ b < 256.
Definition bytes_ok (l : list Z) : Prop := Forall byte_ok l.

Definition cstr_ok (s : list Z) : Prop := Forall (λ b, 0 < b < 256) s.

Definition zlen {A} (l : list A) : Z := Z.of_nat (length l).

Definition chr (s : string) : Z :=
  match s with
  | String c _ => Z.of_N (Ascii.N_of_ascii c)
  | EmptyString => 0
  end.

Fixpoint str (s : string) : list Z :=
  match s with
  | EmptyString => []
  | String c s' => Z.of_N (Ascii.N_of_ascii c) :: str s'
  end.

Definition cget (s : list Z) (i : Z) : Z := nth (Z.to_nat i) s 0.

(** [cmatch s i lit] is the chain [s[i] == lit[0] && s[i+1] == lit[1] && ...]. *)
Fixpoint cmatch (s : list Z) (i : Z) (lit : list Z) : bool :=
  match lit with
  | [] => true
  | c :: lit' => (cget s i =? c) && cmatch s (i + 1) lit'
  end.

(** The string held by a character buffer: its bytes up to the first NUL, and
    nothing when the buffer has no NUL (a reader would run off its end). *)
Fixpoint cstr_of (buf : list Z) : option (list Z) :=
  match buf with
  | [] => None
  | c :: buf' => if c =? 0 then Some [] else (λ s, c :: s) <$> cstr_of buf'
  end.

(** ** Arrays

    [splice l off d] is the array [l] after writing [d] at offset [off]. *)

Definition splice {A} (l : list A) (off : Z) (d : list A) : list A :=
  take (Z.to_nat off) l ++ d ++ drop (Z.to_nat off + length d) l.

Definition sub {A} (l : list A) (off len : Z) : list A :=
  take (Z.to_nat len) (drop (Z.to_nat off) l).

(** The index of the first element that satisfies a test, the shape of every
    linear scan of a table in the code. *)
Fixpoint findi {A} (p : A → bool) (l : list A) : option nat :=
  match l with
  | [] => None
  | x :: l' => if p x then Some 0%nat else S <$> findi p l'
  end.

(** How many entries of a table satisfy a test. *)
Definition countb {A} (p : A → bool) (l : list A) : Z := zlen (filter (λ x, p x = true) l).

(** ** Decimal numbers

    [digits_rev fuel n] lists the digits of [n], least significant first, the
    way the code's [while (n > 0)] loops fill their scratch arrays.  Twenty
    steps are enough for any 64-bit value. *)

Fixpoint digits_rev (fuel : nat) (n : Z) : list Z :=
  match fuel with
  | O => []
  | S f => if n <=? 0 then [] else (48 + n mod 10) :: digits_rev f (n / 10)
  end.

Definition dec_fuel : nat := 20.

(** The decimal text of [n]: a single 0 for 0, nothing for a negative [n]
    (the loops run only while the number is positive). *)
Definition dec (n : Z) : list Z :=
  if n =? 0 then [48] else rev (digits_rev dec_fuel n).

(** A printing loop with a scratch array of [cap] entries: writing more than
    [cap] digits runs past the array. *)
Definition dec_cap (cap : Z) (n : Z) : option (list Z) :=
  if zlen (digits_rev dec_fuel n) <=? cap then Some (dec n) else None.

Definition is_digit (c : Z) : bool := (48 <=? c) && (c <=? 57).

(** [while (s[i] is a digit) { id = id * 10 + (s[i] - '0'); i++; }] on the rest
    of a string: the value (an [int]) and the rest after the digits. *)
Fixpoint scan_int (acc : Z) (s : list Z) : Z * list Z :=
  match s with
  | c :: s' => if is_digit c then scan_int (i32 (acc * 10 + (c - 48))) s' else (acc, s)
  | [] => (acc, [])
  end.

(** ** The kernel monad

    A kernel operation takes a state and gives a value and a new state
    ([Ret]), runs into undefined behaviour of C such as a write outside an
    array ([Undef]), or stops the machine with [kernel_halt] ([Halt]). *)

Inductive outcome (A : Type) : Type :=
  | Ret (a : A)
  | Undef
  | Halt.
Arguments Ret {A} a.
Arguments Undef {A}.
Arguments Halt {A}.

Definition M (S A : Type) : Type := S → outcome (A * S).

Definition ret {S A} (a : A) : M S A := λ s, Ret (a, s).
Definition undef {S A} : M S A := λ _, Undef.
Definition halt {S A} : M S A := λ _, Halt.

Definition bind {S A B} (m : M S A) (k : A → M S B) : M S B :=
  λ s, match m s with
       | Ret (a, s') => k a s'
       | Undef => Undef
       | Halt => Halt
       end.

Definition gets {S A} (f : S → A) : M S A := λ s, Ret (f s, s).
Definition modify {S} (f : S → S) : M S unit := λ s, Ret (tt, f s).

(** A pure operation that gives a value and a new state. *)
Definition act {S A} (f : S → A * S) : M S A := λ s, Ret (f s).

(** [None] stands for a C operation that runs outside its buffer. *)
Definition orundef {S A} (o : option A) : M S A :=
  match o with Some a => ret a | None => undef end.

(** Running an operation of a component inside a larger state. *)
Definition zoom {S T A} (g : T → S) (p : S → T → T) (m : M S A) : M T A :=
  λ t, match m (g t) with
       | Ret (a, s') => Ret (a, p s' t)
       | Undef => Undef
       | Halt => Halt
       end.

Lemma bind_ret {S A B} (m : M S A) (k : A → M S B) s x s' : m s = Ret (x, s') → bind m k s = k x s'.
Proof. intros E. unfold bind. by rewrite E. Qed.

Lemma bind_gets {S A B} (f : S → A) (k : A → M S B) s : bind (gets f) k s = k (f s) s.
Proof. done. Qed.

Lemma bind_modify {S B} (f : S → S) (k : unit → M S B) s : bind (modify f) k s = k tt (f s).
Proof. done. Qed.

Declare Scope kernel_scope.
Delimit Scope kernel_scope with K.
Notation "'let!' x ':=' m 'in' k" := (bind m (λ x, k))
  (at level 10, x binder, m at level 200, k at level 200) : kernel_scope.
Notation "m ';;' k" := (bind m (λ _, k))
  (at level 100, k at level 200, right associativity) : kernel_scope.
#[global] Open Scope kernel_scope.

(** ** Results of the kernel's calls (include/agentos.h) *)

Definition EPERM : Z := -1.
Definition EINVAL : Z := -2.
Definition ENOENT : Z := -3.
Definition ENOSPC : Z := -4.
Definition EAGAIN : Z := -5.
Definition ENODEV : Z := -6.
Definition EIO : Z := -7.
Definition ETIMEDOUT : Z := -8.
Definition EFAULT : Z := -9.

Create HintDb errno.
#[global] Hint Unfold EPERM EINVAL ENOENT ENOSPC EAGAIN ENODEV EIO ETIMEDOUT EFAULT : errno.

(** ** Tactics and hints *)

Create HintDb kernel.
Create Rewrite HintDb len.

(** Arithmetic side conditions over lengths, error codes and widths. *)
Ltac klia := unfold zlen, EPERM, EINVAL, ENOENT, ENOSPC, EAGAIN, ENODEV, EIO,
  ETIMEDOUT, EFAULT in *; lia.

(** Rewrites the lengths of list expressions, then arithmetic. *)
Ltac len := autorewrite with len; try klia.

#[export] Hint Rewrite @length_app @length_take @length_drop @length_insert
  @length_replicate @length_fmap @length_rev @length_cons @length_nil : len.

(** Case analysis on the boolean tests of the code. *)
Ltac case_test :=
  match goal with
  | |- context [if ?b then _ else _] => destruct b eqn:?
  | H : context [if ?b then _ else _] |- _ => destruct b eqn:?
  end.

(** Turns the boolean comparisons among the hypotheses into propositions. *)
Ltac bprop :=
  repeat match goal with
  | H : (_ =? _) = true |- _ => apply Z.eqb_eq in H
  | H : (_ =? _) = false |- _ => apply Z.eqb_neq in H
  | H : (_ <? _) = true |- _ => apply Z.ltb_lt in H
  | H : (_ <? _) = false |- _ => apply Z.ltb_ge in H
  | H : (_ <=? _) = true |- _ => apply Z.leb_le in H
  | H : (_ <=? _) = false |- _ => apply Z.leb_gt in H
  | H : (_ && _)%bool = true |- _ => apply andb_true_iff in H; destruct H
  | H : (_ || _)%bool = false |- _ => apply orb_false_iff in H; destruct H
  | H : negb _ = true |- _ => apply negb_true_iff in H
  | H : negb _ = false |- _ => apply negb_false_iff in H
  end.

(** Evaluates a boolean test whose value follows by arithmetic. *)
Ltac test_true b := replace b with true by (symmetry; (apply Z.eqb_eq || apply Z.ltb_lt || apply Z.leb_le); klia).
Ltac test_false b := replace b with false by (symmetry; (apply Z.eqb_neq || apply Z.ltb_ge || apply Z.leb_gt); klia).

Ltac test_true_in b H := replace b with true in H by (symmetry; (apply Z.eqb_eq || apply Z.ltb_lt || apply Z.leb_le); klia).
Ltac test_false_in b H := replace b with false in H by (symmetry; (apply Z.eqb_neq || apply Z.ltb_ge || apply Z.leb_gt); klia).

(** Ranges of the bytes of a literal. *)
Ltac solve_bytes := unfold cstr_ok, bytes_ok, byte_ok; repeat constructor; try lia; try done.

(** ** Lemmas on arrays *)

Lemma length_splice {A} (l : list A) off d :
  0 ≤ off → off + zlen d ≤ zlen l → length (splice l off d) = length l.
Proof. intros. unfold splice. len. Qed.

Lemma splice_nil {A} (l : list A) off : splice l off [] = l.
Proof. unfold splice; simpl. rewrite Nat.add_0_r. apply take_drop. Qed.

Lemma splice_0_sub {A} (l d : list A) : sub (splice l 0 d) 0 (zlen d) = d.
Proof.
  unfold splice, sub, zlen. simpl. rewrite drop_0, Nat2Z.id, take_app_le by lia.
  apply take_ge. lia.
Qed.

Lemma splice_0_sub_prefix {A} (l d e : list A) : sub (splice l 0 (d ++ e)) 0 (zlen d) = d.
Proof.
  unfold splice, sub, zlen. simpl. rewrite drop_0, Nat2Z.id, <- app_assoc. apply take_app_length.
Qed.

Lemma sub_splice {A} (l d : list A) off :
  0 ≤ off → off + zlen d ≤ zlen l → sub (splice l off d) off (zlen d) = d.
Proof.
  intros. unfold splice, sub, zlen in *. rewrite Nat2Z.id, drop_app_length'.
  - rewrite take_app_le by lia. apply take_ge. lia.
  - len.
Qed.

(** The first bytes of an array after an overlapping write. *)
Lemma sub_splice_overlay {A} (l d : list A) n off :
  0 ≤ off ≤ n → n ≤ zlen l → off + zlen d ≤ zlen l →
  sub (splice l off d) 0 (Z.max n (off + zlen d)) = splice (sub l 0 n) off d.
Proof.
  intros Ho Hn Hd. unfold sub, splice, zlen in *. rewrite !drop_0.
  rewrite !take_app, !length_take, !take_take. f_equal; [f_equal; lia|].
  rewrite (take_ge d) by lia. f_equal. rewrite skipn_firstn_comm. f_equal. lia.
Qed.

(** A write beside one element of the array. *)
Lemma splice_app_l {A} (l r d : list A) off :
  0 ≤ off → off + zlen d ≤ zlen l → splice (l ++ r) off d = splice l off d ++ r.
Proof.
  intros. unfold splice, zlen in *. rewrite take_app_le, drop_app_le by lia. by rewrite <- !app_assoc.
Qed.

Lemma splice_app_r {A} (l r d : list A) off :
  zlen l ≤ off → splice (l ++ r) off d = l ++ splice r (off - zlen l) d.
Proof.
  intros. unfold splice, zlen in *. rewrite take_app_ge, drop_app_ge, <- app_assoc by lia.
  do 2 f_equal; [f_equal; lia|]. do 2 f_equal. lia.
Qed.

Lemma splice_bytes l off d : bytes_ok l → bytes_ok d → bytes_ok (splice l off d).
Proof. intros. unfold splice, bytes_ok. repeat apply Forall_app_2; [by apply Forall_take|done|by apply Forall_drop]. Qed.

Lemma zlen_sub {A} (l : list A) off len :
  0 ≤ off → 0 ≤ len → off + len ≤ zlen l → zlen (sub l off len) = len.
Proof. intros. unfold sub, zlen in *. len. Qed.

Lemma zlen_nonneg {A} (l : list A) : 0 ≤ zlen l.
Proof. unfold zlen; lia. Qed.

Lemma zlen_app {A} (l1 l2 : list A) : zlen (l1 ++ l2) = zlen l1 + zlen l2.
Proof. unfold zlen. rewrite length_app. lia. Qed.

Lemma findi_Some {A} (p : A → bool) l i :
  findi p l = Some i →
  ∃ x, l !! i = Some x ∧ p x = true ∧ ∀ j y, (j < i)%nat → l !! j = Some y → p y = false.
Proof.
  revert i; induction l as [|x l IH]; intros i; simpl; [done|].
  destruct (p x) eqn:Hx.
  - intros [= <-]. exists x. repeat split; auto. intros; lia.
  - destruct (findi p l) as [k|] eqn:E; simpl; [|done]. intros [= <-].
    destruct (IH k eq_refl) as (y & Hy & Hp & Hlt).
    exists y. repeat split; auto. intros [|j] z Hj Hz; simpl in *; [congruence|].
    apply (Hlt j); auto; lia.
Qed.

Lemma findi_None {A} (p : A → bool) l :
  findi p l = None ↔ ∀ x, x ∈ l → p x = false.
Proof.
  induction l as [|x l IH]; simpl.
  - split; [intros _ y Hy; inversion Hy | done].
  - destruct (p x) eqn:Hx.
    + split; [done|]. intros H. rewrite (H x) in Hx; [done|]. apply list_elem_of_here.
    + destruct (findi p l); simpl; split; try done.
      * intros H. destruct IH as [_ IH].
        assert (Some n = None) as [=]. apply IH. intros y Hy. apply H. by apply list_elem_of_further.
      * intros _ y Hy. apply elem_of_cons in Hy as [->|Hy]; [done|]. by apply IH.
Qed.

Lemma findi_lt {A} (p : A → bool) l i : findi p l = Some i → (i < length l)%nat.
Proof. intros H. apply findi_Some in H as (x & H & _). by eapply lookup_lt_Some. Qed.

Lemma list_alter_eq_insert {A} (f : A → A) (l : list A) i x :
  l !! i = Some x → alter f i l = <[i := f x]> l.
Proof.
  revert i; induction l as [|y l IH]; intros [|i] H; simplify_eq/=; try done.
  f_equal. by apply IH.
Qed.

Lemma list_alter_insert_same {A} (f : A → A) (l : list A) i x :
  alter f i (<[i := x]> l) = <[i := f x]> l.
Proof. revert i; induction l as [|y l IH]; intros [|i]; simpl; try done. f_equal. apply IH. Qed.

(** ** Lemmas on C strings *)

Lemma cstr_of_app s t : cstr_ok s → cstr_of (s ++ 0 :: t) = Some s.
Proof.
  induction 1 as [|c s Hc Hs IH]; simpl; [done|].
  test_false (c =? 0). by rewrite IH.
Qed.

Lemma cstr_of_length buf s : cstr_of buf = Some s → (length s < length buf)%nat.
Proof.
  revert s; induction buf as [|c buf IH]; intros s; simpl; [done|].
  case_test; [intros [= <-]; simpl; lia|].
  destruct (cstr_of buf) as [s'|]; simpl; [|done].
  intros [= <-]. specialize (IH s' eq_refl). simpl. lia.
Qed.

Lemma cstr_of_prefix buf s : cstr_of buf = Some s → ∃ t, buf = s ++ 0 :: t ∧ Forall (λ c, c ≠ 0) s.
Proof.
  revert s; induction buf as [|c buf IH]; intros s; simpl; [done|].
  case_test; bprop.
  - intros [= <-]. subst. exists buf. split; [done|constructor].
  - destruct (cstr_of buf) as [s'|]; simpl; [|done]. intros [= <-].
    destruct (IH s' eq_refl) as (t & -> & Hs). exists t. split; [done|]. by constructor.
Qed.

Lemma cget_cons c s i : 0 < i → cget (c :: s) i = cget s (i - 1).
Proof.
  intros. unfold cget. replace (Z.to_nat i) with (S (Z.to_nat (i - 1))) by lia. done.
Qed.

Lemma cget_app_l s t i : 0 ≤ i < zlen s → cget (s ++ t) i = cget s i.
Proof. intros. unfold cget. apply app_nth1. klia. Qed.

Lemma cget_app_r s t i : zlen s ≤ i → cget (s ++ t) i = cget t (i - zlen s).
Proof.
  intros. unfold cget. rewrite app_nth2 by klia. f_equal. klia.
Qed.

Lemma cmatch_app s t i lit : i = zlen s → cmatch (s ++ t) i lit = cmatch t 0 lit.
Proof.
  intros ->. assert (∀ k, 0 ≤ k → cmatch (s ++ t) (zlen s + k) lit = cmatch t k lit) as H.
  { induction lit as [|c lit IH]; intros k Hk; simpl; [done|].
    rewrite cget_app_r by lia. replace (zlen s + k - zlen s) with k by lia.
    rewrite <- Z.add_assoc, IH by lia. done. }
  rewrite <- (H 0) by lia. f_equal. lia.
Qed.

Lemma cmatch_self lit t : cmatch (lit ++ t) 0 lit = true.
Proof.
  assert (∀ pre, cmatch (pre ++ lit ++ t) (zlen pre) lit = true) as H.
  { induction lit as [|c lit IH]; intros pre; simpl; [done|].
    rewrite cget_app_r by lia. replace (zlen pre - zlen pre) with 0 by lia.
    change (cget (c :: lit ++ t) 0) with c. rewrite Z.eqb_refl. simpl.
    specialize (IH (pre ++ [c])). rewrite <- app_assoc in IH. simpl in IH.
    rewrite zlen_app in IH. exact IH. }
  apply (H []).
Qed.

(** ** Lemmas on decimal numbers *)

Lemma digits_rev_digits f n : Forall (λ c, is_digit c = true) (digits_rev f n).
Proof.
  revert n; induction f as [|f IH]; intros n; simpl; [constructor|].
  case_test; constructor; auto. unfold is_digit.
  pose proof (Z.mod_pos_bound n 10). apply andb_true_iff; rewrite !Z.leb_le; lia.
Qed.

Lemma digits_rev_S n :
  digits_rev dec_fuel n = if n <=? 0 then [] else (48 + n mod 10) :: digits_rev 19 (n / 10).
Proof. done. Qed.

Lemma dec_digits n : Forall (λ c, is_digit c = true) (dec n).
Proof.
  unfold dec. case_test; [repeat constructor|]. apply Forall_rev, digits_rev_digits.
Qed.

Lemma is_digit_cstr c : is_digit c = true → 0 < c < 256.
Proof. unfold is_digit. intros; bprop. lia. Qed.

Lemma dec_cstr n : cstr_ok (dec n).
Proof.
  eapply Forall_impl; [apply dec_digits|]. apply is_digit_cstr.
Qed.

Lemma dec_nonempty n : 0 ≤ n → dec n ≠ [].
Proof.
  intros. unfold dec. case_test; [done|]. bprop. rewrite digits_rev_S.
  test_false (n <=? 0). intros E. by apply app_nil in E as [_ ?].
Qed.

Lemma scan_digits_rev f n rest :
  0 ≤ n < 10 ^ Z.of_nat f → n < 2147483648 →
  scan_int 0 (rev (digits_rev f n) ++ rest) = scan_int n rest.
Proof.
  revert n rest; induction f as [|f IH]; intros n rest Hn Hb; simpl.
  - replace n with 0 by lia. done.
  - case_test; bprop; [by replace n with 0 by lia|].
    simpl. rewrite <- app_assoc, IH.
    + simpl. pose proof (Z.mod_pos_bound n 10).
      replace (is_digit (48 + n mod 10)) with true
        by (symmetry; apply andb_true_iff; rewrite !Z.leb_le; lia).
      replace (n / 10 * 10 + (48 + n mod 10 - 48)) with n by (rewrite (Z.div_mod n 10) at 1; lia).
      by rewrite i32_small by lia.
    + rewrite Nat2Z.inj_succ, Z.pow_succ_r in Hn by lia.
      split; [apply Z.div_pos; lia|]. apply Z.div_lt_upper_bound; lia.
    + apply Z.div_lt_upper_bound; lia.
Qed.

(** Printing then scanning a number gives it back, whatever follows it. *)
Lemma scan_dec n rest :
  0 ≤ n < 2147483648 → scan_int 0 (dec n ++ rest) = scan_int n rest.
Proof.
  intros. unfold dec. case_test; bprop; [by subst|]. apply scan_digits_rev.
  - unfold dec_fuel. split; [lia|]. eapply Z.lt_trans; [apply H|]. done.
  - lia.
Qed.

Lemma scan_int_stop n c rest : is_digit c = false → scan_int n (c :: rest) = (n, c :: rest).
Proof. intros H. simpl. by rewrite H. Qed.

Lemma dec_inj n m : 0 ≤ n < 2147483648 → 0 ≤ m < 2147483648 → dec n = dec m → n = m.
Proof.
  intros Hn Hm E. pose proof (scan_dec n [] Hn) as Sn. pose proof (scan_dec m [] Hm) as Sm.
  rewrite E, Sm in Sn. simpl in Sn. congruence.
Qed.

Lemma digits_rev_length f n k :
  (k ≤ f)%nat → n < 10 ^ Z.of_nat k → (length (digits_rev f n) ≤ k)%nat.
Proof.
  revert n k; induction f as [|f IH]; intros n k Hk Hn; simpl; [lia|].
  case_test; bprop; simpl; [lia|]. destruct k as [|k].
  - change (10 ^ Z.of_nat 0) with 1 in Hn. lia.
  - apply le_n_S, IH; [lia|]. rewrite Nat2Z.inj_succ, Z.pow_succ_r in Hn by lia.
    apply Z.div_lt_upper_bound; lia.
Qed.

Lemma digits_rev_length_ge f n k :
  (k < f)%nat → 10 ^ Z.of_nat k ≤ n → (k < length (digits_rev f n))%nat.
Proof.
  revert n k; induction f as [|f IH]; intros n k Hk Hn; simpl; [lia|].
  assert (0 < 10 ^ Z.of_nat k) by (apply Z.pow_pos_nonneg; lia).
  test_false (n <=? 0). simpl. destruct k as [|k]; [lia|].
  apply -> Nat.succ_lt_mono. apply IH; [lia|].
  rewrite Nat2Z.inj_succ, Z.pow_succ_r in Hn by lia. apply Z.div_le_lower_bound; lia.
Qed.

(** A printing loop with an eight-entry scratch array is in bounds exactly
    below one hundred million. *)
Lemma dec_cap_8 n : dec_cap 8 n = if n <? 100000000 then Some (dec n) else None.
Proof.
  unfold dec_cap, zlen. destruct (Z.ltb_spec n 100000000).
  - pose proof (digits_rev_length dec_fuel n 8 ltac:(unfold dec_fuel; lia) ltac:(lia)).
    by test_true (Z.of_nat (length (digits_rev dec_fuel n)) <=? 8).
  - pose proof (digits_rev_length_ge dec_fuel n 8 ltac:(unfold dec_fuel; lia) ltac:(lia)).
    by test_false (Z.of_nat (length (digits_rev dec_fuel n)) <=? 8).
Qed.

Lemma zlen_dec_le n : n < 100000000 → zlen (dec n) ≤ 8.
Proof.
  intros. unfold dec, zlen. case_test; [simpl; lia|]. rewrite length_rev.
  pose proof (digits_rev_length dec_fuel n 8 ltac:(unfold dec_fuel; lia) ltac:(lia)). lia.
Qed.

Lemma digits_rev_last f n :
  0 < n < 10 ^ Z.of_nat f → ∃ l c, digits_rev f n = l ++ [c] ∧ c ≠ 48.
Proof.
  revert n; induction f as [|f IH]; intros n Hn; [simpl in Hn; lia|].
  rewrite Nat2Z.inj_succ, Z.pow_succ_r in Hn by lia. cbn [digits_rev]. test_false (n <=? 0).
  destruct (Z.eq_dec (n / 10) 0) as [E|E].
  - exists [], (48 + n mod 10). rewrite E. split; [by destruct f|].
    pose proof (Z.div_mod n 10). lia.
  - destruct (IH (n / 10)) as (l & c & -> & Hc); [|by exists ((48 + n mod 10) :: l), c].
    pose proof (Z.div_pos n 10). split; [lia|]. apply Z.div_lt_upper_bound; lia.
Qed.

Lemma dec_first_nonzero n : 0 < n < 2147483648 → ∃ c l, dec n = c :: l ∧ c ≠ 48.
Proof.
  intros Hn. unfold dec. test_false (n =? 0).
  destruct (digits_rev_last dec_fuel n) as (l & c & -> & Hc).
  - split; [lia|]. eapply Z.lt_trans; [apply Hn|]. done.
  - exists c, (rev l). split; [|done]. by rewrite rev_app_distr.
Qed.

(** ** Total triples

    [triple P m Q]: from a state of [P] the operation returns, with a value and a
    state of [Q]; it neither runs into undefined behaviour nor halts. *)

Definition triple {S A} (P : S → Prop) (m : M S A) (Q : A → S → Prop) : Prop :=
  ∀ s, P s → ∃ x s', m s = Ret (x, s') ∧ Q x s'.

Section triples.
Context {S A B : Type}.
Implicit Types (P : S → Prop).

Lemma triple_bind P (m : M S A) Q (k : A → M S B) R :
  triple P m Q → (∀ x, triple (Q x) (k x) R) → triple P (bind m k) R.
Proof.
  intros Hm Hk s Hs. destruct (Hm s Hs) as (x & s1 & E & Hq). destruct (Hk x s1 Hq) as (y & s2 & E2 & Hr).
  exists y, s2. split; [|done]. by rewrite (bind_ret _ _ _ _ _ E).
Qed.

Lemma triple_ret P (x : A) (Q : A → S → Prop) : (∀ s, P s → Q x s) → triple P (ret x) Q.
Proof. intros H s Hs. exists x, s. auto. Qed.

Lemma triple_gets P (f : S → A) (Q : A → S → Prop) : (∀ s, P s → Q (f s) s) → triple P (gets f) Q.
Proof. intros H s Hs. exists (f s), s. auto. Qed.

Lemma triple_modify P (f : S → S) (Q : unit → S → Prop) : (∀ s, P s → Q tt (f s)) → triple P (modify f) Q.
Proof. intros H s Hs. exists tt, (f s). auto. Qed.

Lemma triple_act P (f : S → A * S) (Q : A → S → Prop) : (∀ s, P s → Q (f s).1 (f s).2) → triple P (act f) Q.
Proof. intros H s Hs. exists (f s).1, (f s).2. split; [|auto]. unfold act. by destruct (f s). Qed.

Lemma triple_weaken P P' (m : M S A) (Q Q' : A → S → Prop) :
  triple P m Q → (∀ s, P' s → P s) → (∀ x s, Q x s → Q' x s) → triple P' m Q'.
Proof. intros H HP HQ s Hs. destruct (H s (HP s Hs)) as (x & s' & E & Hq). exists x, s'. auto. Qed.

Lemma triple_if P (b : bool) (m1 m2 : M S A) Q :
  (b = true → triple P m1 Q) → (b = false → triple P m2 Q) → triple P (if b then m1 else m2) Q.
Proof. destruct b; auto. Qed.

(** A fact that does not depend on the state. *)
Lemma triple_pure P (X : Prop) (m : M S A) Q : (X → triple P m Q) → triple (λ s, X ∧ P s) m Q.
Proof. intros H s [HX Hs]. by apply H. Qed.

End triples.

(** ** Bounded loops

    [ploop p f a] runs the step [f] at most [p] times, until it gives a result
    ([inr]); the number of steps is binary, so that a loop with a large bound is
    executable.  [nloop] is the same loop with a unary bound. *)

Section loops.
Context {S A B : Type} (f : A → M S (A + B)).

Fixpoint ploop (p : positive) (a : A) : M S (A + B) :=
  let again (q : positive) (r : A + B) := match r with inl a' => ploop q a' | inr b => ret (inr b) end in
  match p with
  | xH => f a
  | xO q => let! r := ploop q a in again q r
  | xI q => let! r := f a in let! r := again q r in again q r
  end.

Fixpoint nloop (n : nat) (a : A) : M S (A + B) :=
  match n with
  | O => ret (inl a)
  | Datatypes.S n' => let! r := f a in match r with inl a' => nloop n' a' | inr b => ret (inr b) end
  end.

Lemma nloop_add n m a s :
  nloop (n + m) a s = bind (nloop n a) (λ r, match r with inl a' => nloop m a' | inr b => ret (inr b) end) s.
Proof.
  revert a s. induction n as [|n IH]; intros a s; cbn [Nat.add nloop]; [done|].
  unfold bind at 1 2 3. destruct (f a s) as [[[a'|b] s']| |]; [|done..]. apply IH.
Qed.

Lemma ploop_nloop p a s : ploop p a s = nloop (Pos.to_nat p) a s.
Proof.
  revert a s. induction p as [p IH|p IH|]; intros a s; cbn [ploop].
  - rewrite Pos2Nat.inj_xI. replace (Datatypes.S (2 * Pos.to_nat p)) with (1 + (Pos.to_nat p + Pos.to_nat p))%nat by lia.
    cbn [Nat.add nloop]. unfold bind at 1 3. destruct (f a s) as [[[a'|b] s']| |]; [|done..].
    rewrite nloop_add. unfold bind. rewrite IH. destruct (nloop _ a' s') as [[[a2|b] s2]| |]; [apply IH|done..].
  - rewrite Pos2Nat.inj_xO. replace (2 * Pos.to_nat p)%nat with (Pos.to_nat p + Pos.to_nat p)%nat by lia.
    rewrite nloop_add. unfold bind. rewrite IH. destruct (nloop _ a s) as [[[a2|b] s2]| |]; [apply IH|done..].
  - change (Pos.to_nat 1) with 1%nat. cbn [nloop]. unfold bind. by destruct (f a s) as [[[a'|b] s']| |].
Qed.

End loops.
