(* ===== verification/Abi.v ===== *)
(** * Constants and enumerations shared by kernel and agents

    The numbers of include/agentos.h and the enumerations of kernel/agent.h:
    limits, message types, capabilities, tools, system calls, agent states
    and phases. *)

From S2P Require Import Prelude.

Module limits.

Definition MAX_AGENTS : Z := 12.
Definition AGENT_STACK_SIZE : Z := 8192.
Definition USER_STACK_BASE : Z := 0x40000000.
Definition USER_HEAP_BASE : Z := 0x60000000.
Definition USER_STACK_SLOT : Z := AGENT_STACK_SIZE + 4096.
Definition MSG_CAPACITY : Z := 16.
Definition MSG_STEER_CAPACITY : Z := 4.
Definition MSG_PAYLOAD_SIZE : Z := 224.

End limits.
Export limits.

Module messages.

Definition MSG_RESULT : Z := 2.
Definition MSG_STEER : Z := 0x8001.
Definition MSG_FOLLOWUP : Z := 0x8002.
Definition MSG_SUMMARY : Z := 0x8003.
Definition MSG_PIPELINE_DONE : Z := 0x8004.
Definition MSG_FS_READ : Z := 0x8010.
Definition MSG_FS_WRITE : Z := 0x8011.
Definition MSG_FS_RSP : Z := 0x8012.

End messages.
Export messages.

Module caps.

Definition CAP_LOG : Z := Z.shiftl 1 0.
Definition CAP_MATH : Z := Z.shiftl 1 1.
Definition CAP_SPAWN : Z := Z.shiftl 1 2.
Definition CAP_SEND : Z := Z.shiftl 1 3.
Definition CAP_RECV : Z := Z.shiftl 1 4.
Definition CAP_LLM : Z := Z.shiftl 1 5.
Definition CAP_FS : Z := Z.shiftl 1 6.
Definition CAP_TIME : Z := Z.shiftl 1 7.
Definition CAP_SVC_STORAGE : Z := Z.shiftl 1 8.
Definition CAP_NET : Z := Z.shiftl 1 9.
Definition CAP_GPIO : Z := Z.shiftl 1 10.
Definition CAP_SVC_LLM : Z := Z.shiftl 1 11.
Definition CAP_SVC_NET : Z := Z.shiftl 1 12.
Definition CAP_DISPLAY : Z := Z.shiftl 1 13.
Definition CAP_INPUT : Z := Z.shiftl 1 14.
Definition CAP_SVC_DISPLAY : Z := Z.shiftl 1 15.
Definition CAP_SVC_INPUT : Z := Z.shiftl 1 16.
Definition CAP_SVC_CONSOLE : Z := Z.shiftl 1 17.
Definition CAP_SVC_SHELL : Z := Z.shiftl 1 18.

End caps.
Export caps.

Module syscalls.

Definition SYS_AGENT_CREATE : Z := 1.
Definition SYS_AGENT_DESTROY : Z := 2.
Definition SYS_AGENT_SEND : Z := 3.
Definition SYS_AGENT_RECV : Z := 4.
Definition SYS_AGENT_YIELD : Z := 5.
Definition SYS_AGENT_SELF : Z := 6.
Definition SYS_AGENT_WRITE : Z := 7.
Definition SYS_AGENT_TOOL : Z := 8.
Definition SYS_AGENT_EXIT : Z := 9.
Definition SYS_AGENT_LLM : Z := 10.
Definition SYS_AGENT_COMPACT : Z := 11.
Definition SYS_AGENT_GET_PHASE : Z := 12.
Definition SYS_AGENT_SYNC : Z := 13.
Definition SYS_AGENT_HEAP_BASE : Z := 14.
Definition SYS_AGENT_HEAP_MAP : Z := 15.
Definition SYS_AGENT_HEAP_COW : Z := 16.
Definition SYS_AGENT_LOAD : Z := 17.

End syscalls.
Export syscalls.

Module tools.

Definition TOOL_LOG : Z := 0.
Definition TOOL_ADD : Z := 1.
Definition TOOL_TIME : Z := 2.
Definition TOOL_READ : Z := 3.
Definition TOOL_WRITE : Z := 4.
Definition TOOL_LLM : Z := 5.
Definition TOOL_SESSION_APPEND : Z := 6.
Definition TOOL_SESSION_TAIL : Z := 7.
Definition TOOL_SESSION_READ : Z := 8.
Definition TOOL_SESSION_COMPACT : Z := 9.
Definition TOOL_GPIO : Z := 10.
Definition TOOL_HTTP : Z := 11.
Definition TOOL_SMP : Z := 12.
Definition TOOL_OTA : Z := 13.
Definition TOOL_DISPLAY : Z := 14.
Definition TOOL_INPUT : Z := 15.
Definition TOOL_CONSOLE : Z := 16.
Definition TOOL_CATALOG : Z := 17.
Definition TOOL_TENANT : Z := 18.
Definition TOOL_AUDIT : Z := 19.
Definition TOOL_NAMESPACE : Z := 20.
Definition TOOL_QUOTA : Z := 21.
Definition TOOL_FLEET : Z := 22.
Definition TOOL_POLICY : Z := 23.
Definition TOOL_REMOTE : Z := 24.
Definition TOOL_MESH : Z := 25.

End tools.
Export tools.

(** The command numbers of the tools that take a command word. *)
Module cmds.

Definition POLICY_CMD_STATUS : Z := 0.
Definition POLICY_CMD_LOAD : Z := 1.
Definition POLICY_CMD_PROBE : Z := 2.
Definition POLICY_CMD_DENY : Z := 3.
Definition POLICY_CMD_ALLOW : Z := 4.
Definition POLICY_CMD_NET_ALLOW : Z := 5.
Definition POLICY_CMD_NET_STATUS : Z := 6.
Definition POLICY_CMD_NET_RESTRICT : Z := 7.
Definition CONSOLE_CMD_GETLINE : Z := 0.
Definition CONSOLE_CMD_PUTS : Z := 1.
Definition CONSOLE_CMD_PROMPT : Z := 2.
Definition CONSOLE_CMD_READ_CHAR : Z := 3.
Definition TENANT_CMD_STATUS : Z := 0.
Definition TENANT_CMD_PROBE : Z := 1.
Definition AUDIT_CMD_STATUS : Z := 0.
Definition AUDIT_CMD_TAIL : Z := 1.
Definition AUDIT_CMD_PROBE : Z := 2.
Definition AUDIT_CMD_COMPACT : Z := 3.
Definition AUDIT_TAIL_MAX : Z := 128.
Definition NS_CMD_STATUS : Z := 0.
Definition NS_CMD_PROBE : Z := 1.
Definition NS_CMD_WRITE : Z := 2.
Definition FLEET_CMD_STATUS : Z := 0.
Definition FLEET_CMD_PUSH : Z := 1.
Definition FLEET_CMD_PROBE : Z := 2.
Definition FLEET_CMD_INGEST : Z := 3.
Definition REMOTE_CMD_STATUS : Z := 0.
Definition REMOTE_CMD_ENABLE : Z := 1.
Definition REMOTE_CMD_DISABLE : Z := 2.
Definition REMOTE_CMD_PING : Z := 3.
Definition REMOTE_CMD_CONNECT : Z := 4.
Definition MESH_CMD_STATUS : Z := 0.
Definition MESH_CMD_BEACON : Z := 1.
Definition MESH_CMD_PROBE : Z := 2.
Definition OTA_CMD_APPLY : Z := 0.
Definition OTA_CMD_VERIFY : Z := 1.
Definition OTA_CMD_CHANNEL_GET : Z := 2.
Definition OTA_CMD_CHANNEL_SET : Z := 3.
Definition OTA_CMD_KERNEL_GEN : Z := 4.
Definition CATALOG_CMD_LIST : Z := 0.
Definition CATALOG_CMD_INSTALL : Z := 1.
Definition CATALOG_CMD_ROLLBACK : Z := 2.
Definition QUOTA_CMD_STATUS : Z := 0.
Definition QUOTA_CMD_BURN : Z := 1.
Definition QUOTA_CMD_PROBE : Z := 2.
Definition QUOTA_CMD_NOTIFY : Z := 3.
Definition DISPLAY_AGENT_ID : Z := 8.

End cmds.
Export cmds.

Inductive agent_phase : Type :=
  | AGENT_PHASE_IDLE
  | AGENT_PHASE_TURN
  | AGENT_PHASE_TOOL
  | AGENT_PHASE_LLM_WAIT
  | AGENT_PHASE_WAIT_IPC.

Inductive agent_state : Type :=
  | AGENT_UNUSED
  | AGENT_CREATED
  | AGENT_RUNNABLE
  | AGENT_RUNNING
  | AGENT_WAITING
  | AGENT_ZOMBIE.

#[export] Instance agent_phase_eq_dec : EqDecision agent_phase.
Proof. solve_decision. Defined.

#[export] Instance agent_state_eq_dec : EqDecision agent_state.
Proof. solve_decision. Defined.

(** The value of a phase as the integer the system call gives. *)
Definition phase_num (p : agent_phase) : Z :=
  match p with
  | AGENT_PHASE_IDLE => 0
  | AGENT_PHASE_TURN => 1
  | AGENT_PHASE_TOOL => 2
  | AGENT_PHASE_LLM_WAIT => 3
  | AGENT_PHASE_WAIT_IPC => 4
  end.
