(* ===== verification/Ipc.v ===== *)
(** * Agent mailboxes (kernel/ipc.c, kernel/ipc.h)

    A mailbox is two ring buffers: sixteen ordinary messages and four
    priority ([MSG_STEER]) messages.  The spin lock around every operation
    makes it atomic; the operations are functions of the mailbox.

    The abstract mailbox is a pair of queues; [abs] reads it off the rings,
    and the refinement lemmas say that push appends to a queue, pop takes the
    oldest priority message first, and compaction replaces the oldest
    ordinary messages by one summary. *)

From S2P Require Import Prelude Abi.

Record agent_msg := mk_msg {
  sender_id : Z;
  mtype : Z;
  payload : list Z
}.

Record msgbox := mk_box {
  normal : list agent_msg;
  normal_head : Z;
  normal_tail : Z;
  normal_count : Z;
  steer : list agent_msg;
  steer_head : Z;
  steer_tail : Z;
  steer_count : Z
}.

Definition zero_msg : agent_msg := mk_msg 0 0 (replicate (Z.to_nat MSG_PAYLOAD_SIZE) 0).

(** A mailbox of zero-initialised static storage. *)
Definition zero_box : msgbox :=
  mk_box (replicate (Z.to_nat MSG_CAPACITY) zero_msg) 0 0 0
         (replicate (Z.to_nat MSG_STEER_CAPACITY) zero_msg) 0 0 0.

Definition msg_copy (src : agent_msg) : agent_msg :=
  mk_msg (sender_id src) (mtype src) (take (Z.to_nat MSG_PAYLOAD_SIZE) (payload src)).

(** A payload under construction: the buffer and the write position. *)
Definition pbuf : Type := list Z * Z.

Definition payload_putc (cap : Z) (b : pbuf) (c : Z) : pbuf :=
  let '(dst, pos) := b in
  if pos <? cap - 1 then (<[Z.to_nat pos := c]> dst, pos + 1) else b.

Fixpoint payload_puts (cap : Z) (b : pbuf) (s : list Z) : pbuf :=
  match s with
  | [] => b
  | c :: s' => if b.2 <? cap - 1 then payload_puts cap (payload_putc cap b c) s' else b
  end.

Definition payload_put_uint (cap : Z) (b : pbuf) (n : Z) : pbuf :=
  if n =? 0 then payload_putc cap b (chr "0")
  else foldl (payload_putc cap) b (rev (digits_rev dec_fuel n)).

Definition msgbox_init (box : msgbox) : msgbox :=
  mk_box (normal box) 0 0 0 (steer box) 0 0 0.

Definition msgbox_is_priority_type (type : Z) : bool := type =? MSG_STEER.

Definition msgbox_empty (box : msgbox) : bool :=
  (normal_count box =? 0) && (steer_count box =? 0).

Definition msgbox_push (box : msgbox) (msg : agent_msg) : Z * msgbox :=
  if msgbox_is_priority_type (mtype msg) then
    if MSG_STEER_CAPACITY <=? steer_count box then (ENOSPC, box)
    else (0, mk_box (normal box) (normal_head box) (normal_tail box) (normal_count box)
               (<[Z.to_nat (steer_tail box) := msg_copy msg]> (steer box))
               (steer_head box)
               ((steer_tail box + 1) mod MSG_STEER_CAPACITY)
               (steer_count box + 1))
  else if MSG_CAPACITY <=? normal_count box then (ENOSPC, box)
  else (0, mk_box (<[Z.to_nat (normal_tail box) := msg_copy msg]> (normal box))
             (normal_head box)
             ((normal_tail box + 1) mod MSG_CAPACITY)
             (normal_count box + 1)
             (steer box) (steer_head box) (steer_tail box) (steer_count box)).

(** The message is written only when the result is 0. *)
Definition msgbox_pop (box : msgbox) : Z * option agent_msg * msgbox :=
  if 0 <? steer_count box then
    (0, Some (msg_copy (nth (Z.to_nat (steer_head box)) (steer box) zero_msg)),
     mk_box (normal box) (normal_head box) (normal_tail box) (normal_count box)
       (steer box) ((steer_head box + 1) mod MSG_STEER_CAPACITY) (steer_tail box)
       (steer_count box - 1))
  else if normal_count box =? 0 then (EAGAIN, None, box)
  else
    (0, Some (msg_copy (nth (Z.to_nat (normal_head box)) (normal box) zero_msg)),
     mk_box (normal box) ((normal_head box + 1) mod MSG_CAPACITY) (normal_tail box)
       (normal_count box - 1)
       (steer box) (steer_head box) (steer_tail box) (steer_count box)).

(** The ring of a queue, oldest message first: the [ordered] array. *)
Definition ring (cap : Z) (arr : list agent_msg) (head count : Z) : list agent_msg :=
  (λ i, nth (Z.to_nat ((head + Z.of_nat i) mod cap)) arr zero_msg)
    <$> seq 0 (Z.to_nat count).

(** The loop that lists the types of the dropped messages in the summary. *)
Fixpoint summary_types (first : bool) (b : pbuf) (dropped : list agent_msg) : pbuf :=
  match dropped with
  | [] => b
  | m :: rest =>
      if b.2 <? MSG_PAYLOAD_SIZE - 8 then
        let b1 := if first then b else payload_putc MSG_PAYLOAD_SIZE b (chr ",") in
        let b2 := payload_putc MSG_PAYLOAD_SIZE b1 (chr "t") in
        let b3 := payload_put_uint MSG_PAYLOAD_SIZE b2 (u32 (mtype m)) in
        summary_types false b3 rest
      else b
  end.

(** The summary message that stands for [drop] removed messages. *)
Definition summary_msg (drop : Z) (dropped : list agent_msg) : agent_msg :=
  let b0 := (replicate (Z.to_nat MSG_PAYLOAD_SIZE) 0, 0) in
  let b1 := payload_puts MSG_PAYLOAD_SIZE b0 (str "compact:") in
  let b2 := payload_put_uint MSG_PAYLOAD_SIZE b1 (u32 drop) in
  let b3 := payload_puts MSG_PAYLOAD_SIZE b2 (str ";") in
  mk_msg 0 MSG_SUMMARY (summary_types true b3 dropped).1.

Definition msgbox_compact (box : msgbox) (keep0 : Z) : Z * msgbox :=
  let total := normal_count box in
  let keep1 := if keep0 <? 0 then 0 else keep0 in
  let keep := if MSG_CAPACITY <? keep1 then MSG_CAPACITY else keep1 in
  if total <=? keep then (0, box)
  else
    let dropn := total - keep in
    let ordered := msg_copy <$> ring MSG_CAPACITY (normal box) (normal_head box) total in
    let rebuilt :=
      summary_msg dropn (take (Z.to_nat dropn) ordered)
        :: (msg_copy <$> drop (Z.to_nat dropn) ordered) in
    let out := zlen rebuilt in
    (0, mk_box (splice (normal box) 0 (msg_copy <$> rebuilt)) 0 (out mod MSG_CAPACITY) out
          (steer box) (steer_head box) (steer_tail box) (steer_count box)).

(** ** Invariant and abstract mailbox *)

Definition msg_wf (m : agent_msg) : Prop := zlen (payload m) = MSG_PAYLOAD_SIZE.

Record ring_wf (cap : Z) (arr : list agent_msg) (head tail count : Z) : Prop := {
  rw_len : zlen arr = cap;
  rw_msgs : Forall msg_wf arr;
  rw_head : 0 ≤ head < cap;
  rw_count : 0 ≤ count ≤ cap;
  rw_tail : tail = (head + count) mod cap
}.

Record box_wf (b : msgbox) : Prop := {
  bw_normal : ring_wf MSG_CAPACITY (normal b) (normal_head b) (normal_tail b) (normal_count b);
  bw_steer : ring_wf MSG_STEER_CAPACITY (steer b) (steer_head b) (steer_tail b) (steer_count b)
}.

(** The abstract mailbox: pending priority messages and pending ordinary
    messages, oldest first. *)
Record mailbox := mk_mailbox { mb_steer : list agent_msg; mb_normal : list agent_msg }.

Definition abs (b : msgbox) : mailbox :=
  mk_mailbox (ring MSG_STEER_CAPACITY (steer b) (steer_head b) (steer_count b))
             (ring MSG_CAPACITY (normal b) (normal_head b) (normal_count b)).

Definition mb_push (q : mailbox) (m : agent_msg) : Z * mailbox :=
  if mtype m =? MSG_STEER then
    if MSG_STEER_CAPACITY <=? zlen (mb_steer q) then (ENOSPC, q)
    else (0, mk_mailbox (mb_steer q ++ [m]) (mb_normal q))
  else if MSG_CAPACITY <=? zlen (mb_normal q) then (ENOSPC, q)
  else (0, mk_mailbox (mb_steer q) (mb_normal q ++ [m])).

Definition mb_pop (q : mailbox) : Z * option agent_msg * mailbox :=
  match mb_steer q, mb_normal q with
  | m :: s, n => (0, Some m, mk_mailbox s n)
  | [], m :: n => (0, Some m, mk_mailbox [] n)
  | [], [] => (EAGAIN, None, q)
  end.

Definition mb_compact (q : mailbox) (keep : Z) : mailbox :=
  let k := Z.max 0 (Z.min keep MSG_CAPACITY) in
  let n := zlen (mb_normal q) in
  if n <=? k then q
  else mk_mailbox (mb_steer q)
         (summary_msg (n - k) (take (Z.to_nat (n - k)) (mb_normal q))
            :: drop (Z.to_nat (n - k)) (mb_normal q)).

(** ** Ring lemmas *)

Section ring.
Context (cap : Z) (Hcap : 0 < cap).

Lemma length_ring arr head count : length (ring cap arr head count) = Z.to_nat count.
Proof. unfold ring. by rewrite length_fmap, length_seq. Qed.

Lemma zlen_ring arr head count : 0 ≤ count → zlen (ring cap arr head count) = count.
Proof. intros. unfold zlen. rewrite length_ring. lia. Qed.

Lemma ring_0 arr head : ring cap arr head 0 = [].
Proof. done. Qed.

Lemma ring_snoc arr head count :
  0 ≤ count →
  ring cap arr head (count + 1)
  = ring cap arr head count ++ [nth (Z.to_nat ((head + count) mod cap)) arr zero_msg].
Proof.
  intros. unfold ring. replace (Z.to_nat (count + 1)) with (S (Z.to_nat count)) by lia.
  rewrite seq_S, fmap_app. simpl. by rewrite Z2Nat.id by lia.
Qed.

Lemma ring_cons arr head count :
  0 < count →
  ring cap arr head count
  = nth (Z.to_nat (head mod cap)) arr zero_msg
      :: ring cap arr ((head + 1) mod cap) (count - 1).
Proof.
  intros. unfold ring. replace (Z.to_nat count) with (S (Z.to_nat (count - 1))) by lia.
  rewrite <- cons_seq, fmap_cons. f_equal; [by rewrite Z.add_0_r|].
  rewrite <- fmap_S_seq, <- list_fmap_compose. apply list_fmap_ext. intros i x _. simpl.
  rewrite Z.add_mod_idemp_l by lia. do 3 f_equal. lia.
Qed.

Lemma ring_insert arr head count k m :
  0 ≤ head < cap → 0 ≤ count ≤ k → k < cap → zlen arr = cap →
  ring cap (<[Z.to_nat ((head + k) mod cap) := m]> arr) head count = ring cap arr head count.
Proof.
  intros Hh Hc Hk Hl. unfold ring. apply list_fmap_ext. intros i x Hi.
  apply lookup_seq in Hi as [-> Hi]. simpl.
  pose proof (Z.mod_pos_bound (head + Z.of_nat i) cap Hcap).
  pose proof (Z.mod_pos_bound (head + k) cap Hcap).
  assert ((head + Z.of_nat i) mod cap ≠ (head + k) mod cap).
  { intros E. assert ((head + k - (head + Z.of_nat i)) mod cap = 0) as E2.
    { rewrite Zminus_mod, E, Z.sub_diag. apply Z.mod_0_l. lia. }
    replace (head + k - (head + Z.of_nat i)) with (k - Z.of_nat i) in E2 by lia.
    rewrite Z.mod_small in E2 by lia. lia. }
  rewrite !nth_lookup, list_lookup_insert_ne by lia. done.
Qed.

Lemma ring_wf_push arr head tail count m :
  ring_wf cap arr head tail count → msg_wf m → count < cap →
  ring_wf cap (<[Z.to_nat tail := m]> arr) head ((tail + 1) mod cap) (count + 1)
  ∧ ring cap (<[Z.to_nat tail := m]> arr) head (count + 1) = ring cap arr head count ++ [m].
Proof.
  intros [Hl Hm Hh Hc ->] Hmw Hlt. split.
  - split; try done; try lia.
    + unfold zlen in *. by rewrite length_insert.
    + by apply Forall_insert.
    + rewrite Z.add_mod_idemp_l by lia. f_equal. lia.
  - pose proof (Z.mod_pos_bound (head + count) cap Hcap).
    rewrite ring_snoc by lia. rewrite (ring_insert arr head count count m) by lia.
    do 2 f_equal. rewrite nth_lookup, list_lookup_insert_eq by klia. done.
Qed.

Lemma ring_wf_pop arr head tail count :
  ring_wf cap arr head tail count → 0 < count →
  ring_wf cap arr ((head + 1) mod cap) tail (count - 1)
  ∧ ring cap arr head count
    = nth (Z.to_nat head) arr zero_msg :: ring cap arr ((head + 1) mod cap) (count - 1).
Proof.
  intros [Hl Hm Hh Hc Ht] Hpos. split.
  - split; try done; try lia.
    + by apply Z.mod_pos_bound.
    + rewrite Z.add_mod_idemp_l by lia. rewrite Ht. f_equal. lia.
  - rewrite ring_cons by lia. by rewrite (Z.mod_small head) by lia.
Qed.

Lemma ring_fst arr count :
  0 ≤ count ≤ cap → zlen arr = cap → ring cap arr 0 count = take (Z.to_nat count) arr.
Proof.
  intros Hc Hl. apply list_eq_same_length with (n := Z.to_nat count).
  - rewrite length_take. klia.
  - apply length_ring.
  - intros i x y Hi Hx Hy. unfold ring in Hx. rewrite list_lookup_fmap in Hx.
    apply fmap_Some in Hx as (j & Hj & ->). apply lookup_seq in Hj as [-> _].
    rewrite lookup_take_lt in Hy by lia. rewrite Z.mod_small, nth_lookup by lia.
    replace (Z.to_nat (0 + Z.of_nat (0 + i))) with i by lia. by rewrite Hy.
Qed.
End ring.

Lemma msg_copy_wf m : msg_wf m → msg_copy m = m.
Proof.
  intros H. destruct m as [s t p]. unfold msg_copy, msg_wf, zlen in *. simpl in *. f_equal.
  apply take_ge. lia.
Qed.

Lemma msg_copy_fmap l : Forall msg_wf l → msg_copy <$> l = l.
Proof.
  induction 1 as [|m l Hm Hl IH]; [done|].
  rewrite fmap_cons, IH, msg_copy_wf; done.
Qed.

Lemma nth_wf arr i : Forall msg_wf arr → (i < length arr)%nat → msg_wf (nth i arr zero_msg).
Proof.
  intros H Hi. rewrite Forall_lookup in H. rewrite nth_lookup.
  destruct (lookup_lt_is_Some_2 arr i Hi) as [x Hx]. rewrite Hx. simpl. eauto.
Qed.

Lemma ring_msgs cap arr head tail count :
  0 < cap → ring_wf cap arr head tail count → Forall msg_wf (ring cap arr head count).
Proof.
  intros Hcap [Hl Hm _ _ _]. unfold ring. apply Forall_fmap, Forall_forall. intros i _. simpl.
  apply nth_wf; [done|]. pose proof (Z.mod_pos_bound (head + Z.of_nat i) cap Hcap). klia.
Qed.

(** ** The payload writers *)

(** A payload buffer in use: the position never passes the last byte, and the
    bytes from the position on are still zero. *)
Record pbuf_ok (cap : Z) (b : pbuf) : Prop := {
  pb_len : zlen b.1 = cap;
  pb_pos : 0 ≤ b.2 ≤ cap - 1;
  pb_zero : drop (Z.to_nat b.2) b.1 = replicate (Z.to_nat (cap - b.2)) 0
}.

Definition ptext (b : pbuf) : list Z := take (Z.to_nat b.2) b.1.

(** Appending to the text of a bounded buffer. *)
Definition papp (cap : Z) (t s : list Z) : list Z := t ++ take (Z.to_nat (cap - 1 - zlen t)) s.

Lemma zlen_ptext cap b : pbuf_ok cap b → zlen (ptext b) = b.2.
Proof. intros [Hl Hp _]. unfold ptext, zlen in *. rewrite length_take. lia. Qed.

Lemma payload_putc_ok cap b c :
  pbuf_ok cap b → pbuf_ok cap (payload_putc cap b c)
                  ∧ ptext (payload_putc cap b c) = papp cap (ptext b) [c].
Proof.
  intros Hb. pose proof (zlen_ptext _ _ Hb) as Ht. destruct Hb as [Hl Hp Hz].
  unfold papp. rewrite Ht. destruct b as [dst pos]; simpl in *.
  destruct (Z.ltb_spec pos (cap - 1)).
  - assert (<[Z.to_nat pos:=c]> dst
            = (take (Z.to_nat pos) dst ++ [c]) ++ replicate (Z.to_nat (cap - (pos + 1))) 0) as E.
    { rewrite insert_take_drop by klia. rewrite <- app_assoc. simpl. do 2 f_equal.
      replace (S (Z.to_nat pos)) with (Z.to_nat pos + 1)%nat by lia.
      rewrite <- drop_drop, Hz, drop_replicate. f_equal. lia. }
    assert (length (take (Z.to_nat pos) dst ++ [c]) = Z.to_nat (pos + 1)) as El by (len; simpl; klia).
    split; [split; simpl|].
    + unfold zlen in *. by rewrite length_insert.
    + lia.
    + rewrite E, <- El, drop_app_length. done.
    + unfold ptext; simpl. rewrite E, <- El, take_app_length.
      by rewrite (take_ge [c]) by (simpl; lia).
  - replace (Z.to_nat (cap - 1 - pos)) with 0%nat by lia. rewrite app_nil_r. done.
Qed.

Lemma papp_assoc cap t s1 s2 : papp cap (papp cap t s1) s2 = papp cap t (s1 ++ s2).
Proof.
  unfold papp, zlen. rewrite <- app_assoc, take_app, length_app, length_take. do 3 f_equal. lia.
Qed.

Lemma papp_nil cap t : papp cap t [] = t.
Proof. unfold papp. by rewrite take_nil, app_nil_r. Qed.

Lemma payload_foldl_ok cap b s :
  pbuf_ok cap b → pbuf_ok cap (foldl (payload_putc cap) b s)
                  ∧ ptext (foldl (payload_putc cap) b s) = papp cap (ptext b) s.
Proof.
  revert b; induction s as [|c s IH]; intros b Hb; simpl; [by rewrite papp_nil|].
  destruct (payload_putc_ok cap b c Hb) as [Hb1 Ht1]. destruct (IH _ Hb1) as [Hb2 Ht2].
  split; [done|]. by rewrite Ht2, Ht1, papp_assoc.
Qed.

Lemma payload_puts_foldl cap b s : payload_puts cap b s = foldl (payload_putc cap) b s.
Proof.
  revert b; induction s as [|c s IH]; intros [dst pos]; simpl; [done|].
  destruct (Z.ltb_spec pos (cap - 1)); [by rewrite IH|].
  clear IH. induction s as [|d s IH]; simpl; [done|].
  by test_false (pos <? cap - 1).
Qed.

Lemma payload_puts_ok cap b s :
  pbuf_ok cap b → pbuf_ok cap (payload_puts cap b s)
                  ∧ ptext (payload_puts cap b s) = papp cap (ptext b) s.
Proof. rewrite payload_puts_foldl. apply payload_foldl_ok. Qed.

Lemma payload_put_uint_ok cap b n :
  pbuf_ok cap b → pbuf_ok cap (payload_put_uint cap b n)
                  ∧ ptext (payload_put_uint cap b n) = papp cap (ptext b) (dec n).
Proof.
  intros Hb. unfold payload_put_uint, dec. case_test.
  - by apply payload_putc_ok.
  - by apply payload_foldl_ok.
Qed.

Lemma summary_types_ok first b l :
  pbuf_ok MSG_PAYLOAD_SIZE b →
  pbuf_ok MSG_PAYLOAD_SIZE (summary_types first b l)
  ∧ ptext b `prefix_of` ptext (summary_types first b l).
Proof.
  revert first b; induction l as [|m l IH]; intros first b Hb; cbn [summary_types]; [done|].
  case_test; [|done]. cbn zeta.
  set (b1 := if first then b else _).
  assert (pbuf_ok MSG_PAYLOAD_SIZE b1 ∧ ptext b `prefix_of` ptext b1) as [H1 P1].
  { unfold b1. destruct first; [done|]. cbn iota.
    destruct (payload_putc_ok _ b (chr ",") Hb) as [? E].
    split; [done|]. rewrite E. by apply prefix_app_r. }
  destruct (payload_putc_ok _ b1 (chr "t") H1) as [H2 E2].
  destruct (payload_put_uint_ok _ _ (u32 (mtype m)) H2) as [H3 E3].
  destruct (IH false _ H3) as [H4 P4]. split; [done|].
  etrans; [exact P1|]. etrans; [|exact P4]. rewrite E3, E2. unfold papp.
  rewrite <- app_assoc. by apply prefix_app_r.
Qed.

Lemma pbuf_ok_start :
  pbuf_ok MSG_PAYLOAD_SIZE (replicate (Z.to_nat MSG_PAYLOAD_SIZE) 0, 0).
Proof. split; simpl; [done| |done]. unfold MSG_PAYLOAD_SIZE. lia. Qed.

(** The summary's text starts with the number of messages it stands for, and
    the buffer is terminated. *)
Lemma summary_msg_text n l :
  0 ≤ n < 4294967296 → n < 100000000 →
  ∃ b, pbuf_ok MSG_PAYLOAD_SIZE b ∧ payload (summary_msg n l) = b.1
       ∧ (str "compact:" ++ dec n ++ str ";") `prefix_of` ptext b.
Proof.
  intros Hn Hn8. unfold summary_msg. cbn zeta.
  destruct (payload_puts_ok _ _ (str "compact:") pbuf_ok_start) as [H1 E1].
  destruct (payload_put_uint_ok _ _ (u32 n) H1) as [H2 E2].
  destruct (payload_puts_ok _ _ (str ";") H2) as [H3 E3].
  destruct (summary_types_ok true _ l H3) as [H4 P4].
  eexists. split; [exact H4|]. split; [done|]. etrans; [|exact P4].
  rewrite E3, E2, E1, !papp_assoc, u32_small by lia. unfold papp, ptext, fst, snd.
  change (take (Z.to_nat 0) _) with (@nil Z). simpl app at 3.
  rewrite take_ge; [by rewrite !app_assoc|].
  pose proof (zlen_dec_le n Hn8). rewrite !length_app. unfold zlen, MSG_PAYLOAD_SIZE in *.
  simpl length. lia.
Qed.

Lemma summary_msg_wf n l : msg_wf (summary_msg n l).
Proof.
  unfold msg_wf, summary_msg. cbn zeta.
  destruct (payload_puts_ok _ _ (str "compact:") pbuf_ok_start) as [H1 E1].
  destruct (payload_put_uint_ok _ _ (u32 n) H1) as [H2 E2].
  destruct (payload_puts_ok _ _ (str ";") H2) as [H3 E3].
  destruct (summary_types_ok true _ l H3) as [[? _ _] _]. done.
Qed.

Lemma cstr_of_has_nul buf : 0 ∈ buf → is_Some (cstr_of buf).
Proof.
  induction buf as [|c buf IH]; intros H; [by inversion H|]. simpl. case_test; [eauto|].
  apply elem_of_cons in H as [<-|H]; [done|]. destruct (IH H) as [s ->]. simpl. eauto.
Qed.

Lemma cstr_of_prefix_of p buf :
  cstr_ok p → p `prefix_of` buf → 0 ∈ buf → ∃ t, cstr_of buf = Some t ∧ p `prefix_of` t.
Proof.
  intros Hp [k ->] Hz.
  assert (0 ∈ k) as Hk.
  { apply elem_of_app in Hz as [Hz|]; [|done]. unfold cstr_ok in Hp. rewrite Forall_forall in Hp.
    apply Hp in Hz. lia. }
  clear Hz. destruct (cstr_of_has_nul k Hk) as [t Ht]. exists (p ++ t). split.
  - induction Hp as [|c p Hc Hp IH]; simpl; [done|]. test_false (c =? 0). by rewrite IH.
  - by apply prefix_app_r.
Qed.

Lemma summary_cstr cap b p :
  pbuf_ok cap b → cstr_ok p → p `prefix_of` ptext b →
  ∃ t, cstr_of b.1 = Some t ∧ p `prefix_of` t.
Proof.
  intros [Hl Hp Hz] Hc Hpre. apply cstr_of_prefix_of; [done| |].
  - etrans; [exact Hpre|]. apply prefix_take.
  - rewrite <- (take_drop (Z.to_nat b.2) b.1), Hz. apply elem_of_app. right.
    replace (Z.to_nat (cap - b.2)) with (S (Z.to_nat (cap - b.2 - 1))) by lia.
    apply list_elem_of_here.
Qed.

Lemma summary_prefix_cstr n : cstr_ok (str "compact:" ++ dec n ++ str ";").
Proof.
  repeat apply Forall_app_2; [repeat constructor| apply dec_cstr | repeat constructor].
Qed.

(** ** Refinement of the abstract mailbox *)

Lemma box_wf_init b : box_wf b → box_wf (msgbox_init b) ∧ abs (msgbox_init b) = mk_mailbox [] [].
Proof.
  intros [[Hl Hm _ _ _] [Hl' Hm' _ _ _]]. split; [|done].
  split; split; try done; simpl; unfold MSG_CAPACITY, MSG_STEER_CAPACITY; lia.
Qed.

Lemma zero_box_wf : box_wf zero_box.
Proof.
  split; split; try done; try (unfold MSG_CAPACITY, MSG_STEER_CAPACITY; simpl; lia);
    apply Forall_replicate; done.
Qed.

Lemma msgbox_push_abs b m :
  box_wf b → msg_wf m →
  box_wf (msgbox_push b m).2
  ∧ ((msgbox_push b m).1, abs (msgbox_push b m).2) = mb_push (abs b) m.
Proof.
  intros Hb Hm. pose proof Hb as [Hn Hs]. pose proof (rw_count _ _ _ _ _ Hn) as Hcn. pose proof (rw_count _ _ _ _ _ Hs) as Hcs.
  unfold msgbox_push, mb_push, msgbox_is_priority_type, abs; cbn [mb_steer mb_normal].
  rewrite !zlen_ring, (msg_copy_wf m Hm) by lia. case_test; case_test; bprop; try done.
  - destruct (ring_wf_push MSG_STEER_CAPACITY ltac:(done) _ _ _ _ m Hs Hm) as [Hw E]; [lia|].
    split; [by split|]. simpl. by rewrite E.
  - destruct (ring_wf_push MSG_CAPACITY ltac:(done) _ _ _ _ m Hn Hm) as [Hw E]; [lia|].
    split; [by split|]. simpl. by rewrite E.
Qed.

Lemma ring_head_wf cap arr head tail count :
  ring_wf cap arr head tail count → msg_wf (nth (Z.to_nat head) arr zero_msg).
Proof. intros [Hl Hm Hh _ _]. apply nth_wf; [done|klia]. Qed.

Lemma msgbox_pop_abs b :
  box_wf b →
  box_wf (msgbox_pop b).2
  ∧ ((msgbox_pop b).1, abs (msgbox_pop b).2) = mb_pop (abs b).
Proof.
  intros Hb. pose proof Hb as [Hn Hs]. pose proof (rw_count _ _ _ _ _ Hn) as Hcn. pose proof (rw_count _ _ _ _ _ Hs) as Hcs.
  unfold msgbox_pop, mb_pop, abs; cbn [mb_steer mb_normal].
  destruct (Z.ltb_spec 0 (steer_count b)).
  - destruct (ring_wf_pop MSG_STEER_CAPACITY ltac:(done) _ _ _ _ Hs) as [Hw E]; [lia|].
    rewrite E, (msg_copy_wf _ (ring_head_wf _ _ _ _ _ Hs)). split; [by split|done].
  - assert (steer_count b = 0) as Z0 by lia.
    destruct (Z.eqb_spec (normal_count b) 0) as [E0|].
    + cbn [fst snd]. rewrite Z0, E0. split; done.
    + destruct (ring_wf_pop MSG_CAPACITY ltac:(done) _ _ _ _ Hn) as [Hw E]; [lia|].
      rewrite E, (msg_copy_wf _ (ring_head_wf _ _ _ _ _ Hn)).
      split; [by split|]. cbn. by rewrite Z0.
Qed.

Lemma msgbox_compact_abs b keep :
  box_wf b →
  box_wf (msgbox_compact b keep).2
  ∧ (msgbox_compact b keep).1 = 0
  ∧ abs (msgbox_compact b keep).2 = mb_compact (abs b) keep.
Proof.
  intros Hb. pose proof Hb as [Hn Hs]. pose proof (rw_count _ _ _ _ _ Hn) as Hcn. pose proof (rw_len _ _ _ _ _ Hn) as Hln.
  unfold msgbox_compact, mb_compact; cbn zeta; cbn [mb_normal mb_steer abs].
  rewrite zlen_ring by lia.
  set (k := if MSG_CAPACITY <? _ then _ else _).
  assert (k = Z.max 0 (Z.min keep MSG_CAPACITY) ∧ 0 ≤ k ≤ MSG_CAPACITY) as [Ek Hk].
  { unfold k, MSG_CAPACITY. repeat case_test; bprop; lia. }
  rewrite <- Ek. clearbody k. case_test; [done|]. bprop. cbn [fst snd].
  pose proof (ring_msgs MSG_CAPACITY _ _ _ _ ltac:(done) Hn) as Hr.
  set (q := ring MSG_CAPACITY _ _ _) in *. rewrite (msg_copy_fmap q Hr).
  set (d := Z.to_nat (normal_count b - k)).
  rewrite (msg_copy_fmap (drop d q)) by (by apply Forall_drop).
  set (new := summary_msg _ _ :: drop d q).
  assert (Forall msg_wf new) as Hnew.
  { constructor; [apply summary_msg_wf|by apply Forall_drop]. }
  rewrite (msg_copy_fmap new Hnew).
  assert (zlen new = k + 1) as Hnl.
  { unfold new, zlen, q, d. simpl length. rewrite length_drop, length_ring. lia. }
  assert (zlen (splice (normal b) 0 new) = MSG_CAPACITY) as Hsl.
  { unfold zlen in *. rewrite length_splice; klia. }
  assert (ring MSG_CAPACITY (splice (normal b) 0 new) 0 (zlen new) = new) as Er.
  { rewrite ring_fst by lia. rewrite <- (splice_0_sub (normal b) new) at 3.
    done. }
  split; [|split; [done|]].
  - split; [|done]. split; cbn [normal normal_head normal_tail normal_count]; try done; try lia.
    unfold splice. apply Forall_app_2; [constructor|]. apply Forall_app_2; [done|].
    apply Forall_drop. by destruct Hn.
  - unfold abs; simpl. by rewrite Er.
Qed.

(** Traces of mailbox operations, run on the rings and on the queues. *)
Inductive box_op : Type :=
  | Push (m : agent_msg)
  | Pop
  | Compact (keep : Z).

Definition op_wf (o : box_op) : Prop := match o with Push m => msg_wf m | _ => True end.

Definition box_step (b : msgbox) (o : box_op) : Z * option agent_msg * msgbox :=
  match o with
  | Push m => let '(rc, b') := msgbox_push b m in (rc, None, b')
  | Pop => msgbox_pop b
  | Compact k => let '(rc, b') := msgbox_compact b k in (rc, None, b')
  end.

Definition mb_step (q : mailbox) (o : box_op) : Z * option agent_msg * mailbox :=
  match o with
  | Push m => let '(rc, q') := mb_push q m in (rc, None, q')
  | Pop => mb_pop q
  | Compact k => (0, None, mb_compact q k)
  end.

Fixpoint trace {S} (step : S → box_op → Z * option agent_msg * S) (s : S) (ops : list box_op)
  : list (Z * option agent_msg) :=
  match ops with
  | [] => []
  | o :: ops' => (step s o).1 :: trace step (step s o).2 ops'
  end.

Lemma box_step_abs b o :
  box_wf b → op_wf o →
  box_wf (box_step b o).2
  ∧ (mb_step (abs b) o) = ((box_step b o).1, abs (box_step b o).2).
Proof.
  intros Hb Ho. destruct o as [m| |k]; simpl in *.
  - destruct (msgbox_push_abs b m Hb Ho) as [Hw E].
    destruct (msgbox_push b m), (mb_push (abs b) m). simpl in *. split; [done|]. congruence.
  - destruct (msgbox_pop_abs b Hb) as [Hw E]. split; done.
  - destruct (msgbox_compact_abs b k Hb) as (Hw & E & A).
    destruct (msgbox_compact b k). simpl in *. split; [done|]. congruence.
Qed.

Lemma box_trace_abs b ops :
  box_wf b → Forall op_wf ops → trace box_step b ops = trace mb_step (abs b) ops.
Proof.
  intros Hb Hops. revert b Hb. induction Hops as [|o ops Ho _ IH]; intros b Hb; simpl; [done|].
  destruct (box_step_abs b o Hb Ho) as [Hw E]. rewrite E. simpl. by rewrite IH.
Qed.

(** [C6] The mailbox is a pair of bounded FIFO queues: starting from an
    initialised mailbox, any sequence of pushes, pops and compactions gives
    exactly the results of the abstract mailbox, in which a push appends (or
    fails with ENOSPC when its queue is full), a pop takes the oldest priority
    message before any ordinary one (or fails with EAGAIN when both queues are
    empty) and a compaction keeps the newest messages behind a summary. *)
Theorem mailbox_refines b ops :
  box_wf b → Forall op_wf ops →
  trace box_step (msgbox_init b) ops = trace mb_step (mk_mailbox [] []) ops.
Proof.
  intros Hb Hops. destruct (box_wf_init b Hb) as [Hw E].
  rewrite (box_trace_abs _ _ Hw Hops). by rewrite E.
Qed.

Definition demo_msg (t : Z) : agent_msg := mk_msg 3 t (replicate (Z.to_nat MSG_PAYLOAD_SIZE) 7).

Lemma mailbox_refines_witness :
  trace box_step (msgbox_init zero_box)
    [Push (demo_msg 5); Push (demo_msg MSG_STEER); Pop; Pop; Pop]
  = [(0, None); (0, None); (0, Some (demo_msg MSG_STEER)); (0, Some (demo_msg 5)); (EAGAIN, None)].
Proof.
  rewrite (mailbox_refines zero_box _ zero_box_wf); [vm_compute; reflexivity|].
  repeat constructor.
Defined.

(** Compaction keeps every invariant of the mailbox, never touches the
    priority queue, and leaves the newest [keep] ordinary messages (clamped to
    0..16), in order and unchanged, behind one MSG_SUMMARY message whose
    terminated payload starts with the number of messages it replaces; a
    mailbox with no more than [keep] ordinary messages is left as it is. *)
Theorem compact_keeps_newest b keep :
  box_wf b →
  let k := Z.max 0 (Z.min keep MSG_CAPACITY) in
  let n := normal_count b in
  let b' := (msgbox_compact b keep).2 in
  (msgbox_compact b keep).1 = 0 ∧ box_wf b' ∧ mb_steer (abs b') = mb_steer (abs b)
  ∧ (n ≤ k → b' = b)
  ∧ (k < n → ∃ s, mb_normal (abs b') = s :: drop (Z.to_nat (n - k)) (mb_normal (abs b))
       ∧ mtype s = MSG_SUMMARY ∧ sender_id s = 0
       ∧ ∃ text, cstr_of (payload s) = Some text
         ∧ (str "compact:" ++ dec (n - k) ++ str ";") `prefix_of` text).
Proof.
  intros Hb k n b'. destruct (msgbox_compact_abs b keep Hb) as (Hw & Hrc & E).
  fold b' in Hw, E. split; [done|]. split; [done|]. split; [|split].
  - rewrite E. unfold mb_compact. by case_test.
  - intros Hle. unfold b', msgbox_compact. cbn zeta.
    match goal with |- context [if ?t then _ else _] => replace t with true; [done|] end.
    symmetry. apply Z.leb_le. unfold k, n, MSG_CAPACITY in *. repeat case_test; bprop; lia.
  - intros Hlt. pose proof (rw_count _ _ _ _ _ (bw_normal b Hb)) as Hc. fold n in Hc.
    assert (zlen (mb_normal (abs b)) = n) as Hn by (simpl; apply zlen_ring; lia).
    rewrite E. unfold mb_compact. fold k. rewrite Hn. test_false (n <=? k). cbn [mb_normal].
    eexists. split; [done|]. split; [done|]. split; [done|].
    destruct (summary_msg_text (n - k) (take (Z.to_nat (n - k)) (mb_normal (abs b))))
      as (pb & Hpb & -> & Hpre); [unfold MSG_CAPACITY in *; lia..|].
    by apply (summary_cstr MSG_PAYLOAD_SIZE); [|apply summary_prefix_cstr|].
Qed.

Lemma compact_keeps_newest_witness :
  let b := (msgbox_push (msgbox_push zero_box (demo_msg 5)).2 (demo_msg 6)).2 in
  box_wf b ∧ normal_count b = 2 ∧ mb_normal (abs (msgbox_compact b 1).2) !! 1%nat = Some (demo_msg 6).
Proof.
  intros b. assert (box_wf b) as Hb.
  { apply msgbox_push_abs; [apply msgbox_push_abs; [apply zero_box_wf|done]|done]. }
  split; [done|]. split; [done|].
  destruct (compact_keeps_newest b 1 Hb) as (_ & _ & _ & _ & H).
  destruct H as (s & -> & _); [done|]. vm_compute. reflexivity.
Defined.
