(* ===== verification/Ramfs.v ===== *)
(** * The in-memory file system (kernel/ramfs.c, kernel/ramfs.h)

    A fixed table of 64 files, each with a 64-byte path and an 8 KiB buffer.
    The operations scan the table; [ramfs_wf] is the invariant they keep.

    The abstract file system is a partial map from paths to contents,
    [fs_get]; the lemmas of the last part say that [ramfs_put] is insertion
    into that map, [ramfs_read] a slice of a lookup, [ramfs_write] at offset 0
    an overlay of the old contents, and [ramfs_clear_user] a restriction. *)

From S2P Require Import Prelude.

Definition RAMFS_PATH_MAX : Z := 64.
Definition RAMFS_FILE_SIZE : Z := 8192.
Definition RAMFS_MAX_FILES : Z := 64.

Record ramfs_file := mk_file {
  f_path : list Z;
  f_data : list Z;
  f_size : Z;
  f_used : bool
}.

Abbreviation ramfs := (list ramfs_file).

(** The table of zero-initialised static storage. *)
Definition zero_file : ramfs_file :=
  mk_file [] (replicate (Z.to_nat RAMFS_FILE_SIZE) 0) 0 false.
Definition zero_fs : ramfs := replicate (Z.to_nat RAMFS_MAX_FILES) zero_file.

Fixpoint str_eq (a b : list Z) : bool :=
  match a, b with
  | x :: a', y :: b' => if x =? y then str_eq a' b' else false
  | [], [] => true
  | _, _ => false
  end.

(** The string left in a buffer of [cap] bytes. *)
Definition str_copy (src : list Z) (cap : Z) : list Z := take (Z.to_nat (cap - 1)) src.

Definition set_data (d : list Z) (f : ramfs_file) : ramfs_file :=
  mk_file (f_path f) d (f_size f) (f_used f).
Definition set_size (n : Z) (f : ramfs_file) : ramfs_file :=
  mk_file (f_path f) (f_data f) n (f_used f).

(** The slot of a path: the one that holds it, or, with [create], a free slot
    claimed for it (its buffer keeps the old bytes). *)
Definition lookup (fs : ramfs) (path : list Z) (create : bool) : option nat * ramfs :=
  match findi (λ f, f_used f && str_eq (f_path f) path) fs with
  | Some i => (Some i, fs)
  | None =>
      if negb create then (None, fs)
      else match findi (λ f, negb (f_used f)) fs with
           | Some i =>
               (Some i, alter (λ f, mk_file (str_copy path RAMFS_PATH_MAX) (f_data f) 0 true) i fs)
           | None => (None, fs)
           end
  end.

Definition ramfs_seed (path content : list Z) (fs : ramfs) : ramfs :=
  match lookup fs path true with
  | (None, fs1) => fs1
  | (Some i, fs1) =>
      let c := take (Z.to_nat (RAMFS_FILE_SIZE - 1)) content in
      alter (λ f, set_size (zlen c) (set_data (splice (f_data f) 0 (c ++ [0])) f)) i fs1
  end.

Definition ramfs_init (fs : ramfs) : ramfs :=
  let fs1 := (λ f, mk_file (f_path f) (f_data f) (f_size f) false) <$> fs in
  ramfs_seed (str "/sys/tick_hz") (str "10000000")
    (ramfs_seed (str "/sys/version") (str "OpenAgentOS v1.0") fs1).

(** The result and the bytes copied out. *)
Definition ramfs_read (fs : ramfs) (path : list Z) (offset len : Z) : Z * list Z :=
  if len <=? 0 then (EINVAL, [])
  else match lookup fs path false with
       | (None, _) => (ENOENT, [])
       | (Some i, _) =>
           let f := nth i fs zero_file in
           if f_size f <=? offset then (0, [])
           else let len' := if f_size f <? u64 (offset + len) then f_size f - offset else len in
                (len', sub (f_data f) offset len')
       end.

(** The bound is checked on the wrapped sum, so an offset near 2^64 passes it
    and the copy would leave the buffer. *)
Definition ramfs_write (path : list Z) (offset : Z) (data : list Z) (len : Z) : M ramfs Z :=
  λ fs,
  if len <=? 0 then Ret (EINVAL, fs)
  else match lookup fs path true with
       | (None, fs1) => Ret (ENOSPC, fs1)
       | (Some i, fs1) =>
           if RAMFS_FILE_SIZE <=? u64 (offset + len) then Ret (EINVAL, fs1)
           else if RAMFS_FILE_SIZE <=? offset then Undef
           else
             Ret (len,
               alter (λ f,
                 let f1 := set_data (splice (f_data f) offset (take (Z.to_nat len) data)) f in
                 if f_size f1 <? offset + len then set_size (offset + len) f1 else f1) i fs1)
       end.

Definition is_sys_path (path : list Z) : bool := cmatch path 1 (str "sys").

Definition ramfs_put (fs : ramfs) (path data : list Z) (size : Z) : Z * ramfs :=
  if (size <=? 0) || (RAMFS_FILE_SIZE <=? size) then (EINVAL, fs)
  else match lookup fs path true with
       | (None, fs1) => (ENOSPC, fs1)
       | (Some i, fs1) =>
           (0, alter (λ f, set_size size
                 (set_data (splice (f_data f) 0 (take (Z.to_nat size) data ++ [0])) f)) i fs1)
       end.

Definition ramfs_path_exists (fs : ramfs) (path : list Z) : bool :=
  match (lookup fs path false).1 with Some _ => true | None => false end.

(** The prefix comparison stops at the first difference. *)
Fixpoint has_prefix (p s : list Z) : bool :=
  match p, s with
  | [], _ => true
  | c :: p', d :: s' => (c =? d) && has_prefix p' s'
  | _ :: _, [] => false
  end.

Definition ramfs_count_agent_files (agent_id : Z) : M ramfs Z :=
  let! ds := orundef (dec_cap 8 agent_id) in
  let prefix := str "/agent/" ++ ds ++ str "/" in
  gets (countb (λ f, f_used f && negb (is_sys_path (f_path f)) && has_prefix prefix (f_path f))).

Definition ramfs_clear_user (fs : ramfs) : ramfs :=
  (λ f, if f_used f && negb (is_sys_path (f_path f))
        then mk_file (f_path f) (f_data f) (f_size f) false else f) <$> fs.

Definition ramfs_user_count (fs : ramfs) : Z :=
  countb (λ f, f_used f && negb (is_sys_path (f_path f))) fs.

(** The result, the path and the bytes copied out; [skip] files are passed
    over ([seen] counts up to [idx]). *)
Fixpoint user_get_from (fs : ramfs) (skip : Z) (cap : Z) : Z * list Z * list Z :=
  match fs with
  | [] => (ENOENT, [], [])
  | f :: fs' =>
      if negb (f_used f) || is_sys_path (f_path f) then user_get_from fs' skip cap
      else if skip =? 0 then
        let p := str_copy (f_path f) RAMFS_PATH_MAX in
        if cap <=? f_size f then (EINVAL, p, [])
        else (f_size f, p, sub (f_data f) 0 (f_size f))
      else user_get_from fs' (skip - 1) cap
  end.

Definition ramfs_user_get (fs : ramfs) (idx cap : Z) : Z * list Z * list Z :=
  if cap <=? 0 then (EINVAL, [], []) else user_get_from fs idx cap.

(** ** Invariant and abstract file system *)

Definition path_ok (p : list Z) : Prop := cstr_ok p ∧ zlen p < RAMFS_PATH_MAX.

Record file_wf (f : ramfs_file) : Prop := {
  fw_len : zlen (f_data f) = RAMFS_FILE_SIZE;
  fw_bytes : bytes_ok (f_data f);
  fw_size : f_used f = true → 0 ≤ f_size f < RAMFS_FILE_SIZE;
  fw_path : f_used f = true → path_ok (f_path f)
}.

Record ramfs_wf (fs : ramfs) : Prop := {
  rfw_len : zlen fs = RAMFS_MAX_FILES;
  rfw_files : Forall file_wf fs;
  rfw_unique : ∀ i j f g, fs !! i = Some f → fs !! j = Some g →
    f_used f = true → f_used g = true → f_path f = f_path g → i = j
}.

Definition contents (f : ramfs_file) : list Z := sub (f_data f) 0 (f_size f).

Definition slot (fs : ramfs) (p : list Z) : option nat :=
  findi (λ f, f_used f && str_eq (f_path f) p) fs.

(** The contents of the file at a path: the abstract file system. *)
Definition fs_get (fs : ramfs) (p : list Z) : option (list Z) :=
  i ← slot fs p; contents <$> fs !! i.

Definition fs_full (fs : ramfs) : Prop := Forall (λ f, f_used f = true) fs.

Lemma str_eq_spec a b : str_eq a b = true ↔ a = b.
Proof.
  revert b; induction a as [|x a IH]; intros [|y b]; simpl; try done.
  destruct (Z.eqb_spec x y) as [->|]; [rewrite IH; split; [by intros ->|by intros [= ->]]|].
  split; [done|]. by intros [= ? ?].
Qed.

Lemma str_copy_id p : path_ok p → str_copy p RAMFS_PATH_MAX = p.
Proof. intros [_ H]. unfold str_copy. apply take_ge. unfold RAMFS_PATH_MAX in *. klia. Qed.

Lemma file_test f p :
  f_used f && str_eq (f_path f) p = true ↔ f_used f = true ∧ f_path f = p.
Proof. by rewrite andb_true_iff, str_eq_spec. Qed.

Lemma slot_Some fs p i :
  slot fs p = Some i → ∃ f, fs !! i = Some f ∧ f_used f = true ∧ f_path f = p.
Proof.
  intros H. apply findi_Some in H as (f & Hf & Ht & _). apply file_test in Ht. eauto.
Qed.

Lemma slot_None fs p :
  slot fs p = None → ∀ i f, fs !! i = Some f → f_used f = true → f_path f ≠ p.
Proof.
  intros H i f Hf Hu Hp. unfold slot in H. rewrite findi_None in H.
  specialize (H f (list_elem_of_lookup_2 _ _ _ Hf)).
  assert (f_used f && str_eq (f_path f) p = true) as E by (by apply file_test). congruence.
Qed.

Lemma slot_lookup fs p i f :
  ramfs_wf fs → fs !! i = Some f → f_used f = true → f_path f = p → slot fs p = Some i.
Proof.
  intros Hw Hf Hu Hp. destruct (slot fs p) as [j|] eqn:E.
  - apply slot_Some in E as (g & Hg & Hgu & Hgp). f_equal.
    eapply (rfw_unique fs Hw); eauto. congruence.
  - exfalso. eapply slot_None; eauto.
Qed.

Lemma fs_get_lookup fs p i f :
  ramfs_wf fs → fs !! i = Some f → f_used f = true → f_path f = p →
  fs_get fs p = Some (contents f).
Proof. intros. unfold fs_get. erewrite slot_lookup by eauto. simpl. by rewrite H0. Qed.

Lemma fs_get_None fs p : fs_get fs p = None ↔ slot fs p = None.
Proof.
  unfold fs_get. destruct (slot fs p) as [i|] eqn:E; simpl; [|done].
  apply slot_Some in E as (f & -> & _). done.
Qed.

Lemma fs_get_Some fs p c :
  fs_get fs p = Some c →
  ∃ i f, slot fs p = Some i ∧ fs !! i = Some f ∧ f_used f = true ∧ f_path f = p ∧ c = contents f.
Proof.
  unfold fs_get. destruct (slot fs p) as [i|] eqn:E; simpl; [|done].
  destruct (slot_Some _ _ _ E) as (f & Hf & Hu & Hp). rewrite Hf. intros [= <-]. eauto 10.
Qed.

(** Writing one slot: the path it is claimed for gets the new contents and
    every other path keeps its own. *)
Lemma update_slot fs i f f' :
  ramfs_wf fs → fs !! i = Some f → file_wf f' → f_used f' = true →
  (f_used f = true → f_path f = f_path f') →
  (∀ j g, j ≠ i → fs !! j = Some g → f_used g = true → f_path g ≠ f_path f') →
  ramfs_wf (<[i := f']> fs)
  ∧ fs_get (<[i := f']> fs) (f_path f') = Some (contents f')
  ∧ ∀ q, q ≠ f_path f' → fs_get (<[i := f']> fs) q = fs_get fs q.
Proof.
  intros Hw Hf Hf' Hu Hsame Hfresh. pose proof (lookup_lt_Some _ _ _ Hf) as Hi.
  assert (ramfs_wf (<[i := f']> fs)) as Hw'.
  { split.
    - unfold zlen. rewrite length_insert. apply (rfw_len fs Hw).
    - apply Forall_insert; [apply (rfw_files fs Hw)|done].
    - intros j k g h Hj Hk Hgu Hhu E.
      destruct (decide (j = i)) as [->|Hji], (decide (k = i)) as [->|Hki]; [done|..];
        rewrite ?list_lookup_insert_eq, ?list_lookup_insert_ne in * by done;
        simplify_eq; try (exfalso; eapply Hfresh; eauto; fail).
      by eapply (rfw_unique fs Hw). }
  split; [done|]. split.
  - eapply fs_get_lookup; eauto. by apply list_lookup_insert_eq.
  - intros q Hq. destruct (fs_get fs q) as [c|] eqn:E.
    + apply fs_get_Some in E as (j & g & _ & Hg & Hgu & Hgp & ->).
      assert (j ≠ i) by (intros ->; simplify_eq; naive_solver).
      eapply fs_get_lookup; eauto. by rewrite list_lookup_insert_ne.
    + apply fs_get_None. apply fs_get_None in E.
      destruct (slot (<[i:=f']> fs) q) as [j|] eqn:E'; [|done]. exfalso.
      apply slot_Some in E' as (g & Hg & Hgu & Hgp).
      destruct (decide (j = i)) as [->|Hji].
      * rewrite list_lookup_insert_eq in Hg by done. congruence.
      * rewrite list_lookup_insert_ne in Hg by done. eapply slot_None; eauto.
Qed.

(** What claiming a slot gives. *)
Lemma lookup_create fs p i fs1 :
  ramfs_wf fs → path_ok p → lookup fs p true = (Some i, fs1) →
  ∃ f f1, fs !! i = Some f ∧ fs1 = <[i := f1]> fs ∧ file_wf f1 ∧ f_used f1 = true ∧ f_path f1 = p
    ∧ (f_used f = true → f_path f = p)
    ∧ (∀ j g, j ≠ i → fs !! j = Some g → f_used g = true → f_path g ≠ p)
    ∧ ((f1 = f ∧ fs_get fs p = Some (contents f)) ∨ (f_size f1 = 0 ∧ fs_get fs p = None)).
Proof.
  intros Hw Hp. unfold lookup. fold (slot fs p). destruct (slot fs p) as [k|] eqn:E.
  - intros [= <- <-]. destruct (slot_Some _ _ _ E) as (f & Hf & Hu & Hfp).
    exists f, f. split_and!; try done.
    + by rewrite list_insert_id.
    + eapply Forall_lookup_1; [apply (rfw_files fs Hw)|done].
    + intros j g Hj Hg Hgu Hgp. apply Hj. eapply (rfw_unique fs Hw); eauto. congruence.
    + left. split; [done|]. by eapply fs_get_lookup.
  - cbn [negb]. destruct (findi _ fs) as [k|] eqn:F; [|done]. intros [= <- <-].
    apply findi_Some in F as (f & Hf & Hu & _). apply negb_true_iff in Hu.
    pose proof (Forall_lookup_1 _ _ _ _ (rfw_files fs Hw) Hf) as Hfw.
    exists f, (mk_file p (f_data f) 0 true). split_and!; try done.
    + rewrite str_copy_id by done. by rewrite (list_alter_eq_insert _ _ _ f).
    + by destruct Hfw; split.
    + congruence.
    + intros j g _ Hg Hgu. by eapply slot_None.
    + right. split; [done|]. by apply fs_get_None.
Qed.

Lemma lookup_create_None fs p fs1 :
  lookup fs p true = (None, fs1) → fs1 = fs ∧ fs_full fs ∧ fs_get fs p = None.
Proof.
  unfold lookup. fold (slot fs p). destruct (slot fs p) as [k|] eqn:E; [done|]. cbn [negb].
  destruct (findi _ fs) as [k|] eqn:F; [done|]. intros [= <-]. split; [done|].
  split; [|by apply fs_get_None]. rewrite findi_None in F. apply Forall_forall. intros f Hf.
  specialize (F f Hf). by apply negb_false_iff in F.
Qed.

Lemma lookup_create_full fs p :
  fs_full fs → fs_get fs p = None → lookup fs p true = (None, fs).
Proof.
  intros Hfull Hp. apply fs_get_None in Hp. unfold lookup. fold (slot fs p). rewrite Hp.
  cbn [negb]. replace (findi (λ f, negb (f_used f)) fs) with (@None nat); [done|].
  symmetry. apply findi_None. intros f Hf. unfold fs_full in Hfull. rewrite Forall_forall in Hfull.
  by rewrite Hfull.
Qed.

(** The written file, whatever slot it is in. *)
Lemma write_slot fs p i fs1 g :
  ramfs_wf fs → path_ok p → lookup fs p true = (Some i, fs1) →
  (∀ f, file_wf f → f_used f = true → file_wf (g f) ∧ f_used (g f) = true ∧ f_path (g f) = f_path f) →
  ∃ f1, file_wf f1 ∧ f_used f1 = true
    ∧ match fs_get fs p with Some c => c = contents f1 | None => f_size f1 = 0 end
    ∧ ramfs_wf (alter g i fs1)
    ∧ fs_get (alter g i fs1) p = Some (contents (g f1))
    ∧ ∀ q, q ≠ p → fs_get (alter g i fs1) q = fs_get fs q.
Proof.
  intros Hw Hp Hl Hg.
  destruct (lookup_create fs p i fs1 Hw Hp Hl) as (f & f1 & Hf & -> & Hw1 & Hu & Hfp & Hsame & Hfresh & Hold).
  destruct (Hg f1 Hw1 Hu) as (Hgw & Hgu & Hgp). rewrite list_alter_insert_same.
  exists f1. split; [done|]. split; [done|]. split.
  { destruct Hold as [[-> ->]|[? ->]]; done. }
  rewrite Hfp in Hgp. rewrite <- Hgp in Hsame, Hfresh.
  destruct (update_slot fs i f (g f1) Hw Hf Hgw Hgu Hsame Hfresh) as (? & Hget & Hoth).
  rewrite Hgp in Hget, Hoth. done.
Qed.

Lemma bytes_ok_splice l off d : bytes_ok l → bytes_ok d → bytes_ok (splice l off d).
Proof.
  intros. unfold splice, bytes_ok.
  apply Forall_app_2; [by apply Forall_take|]. apply Forall_app_2; [done|]. by apply Forall_drop.
Qed.

Lemma contents_wf f : file_wf f → f_used f = true → zlen (contents f) = f_size f.
Proof.
  intros [Hl _ Hs _] Hu. apply zlen_sub; try lia; specialize (Hs Hu); lia.
Qed.

(** ** The operations on the abstract file system *)

(** What [ramfs_put] does: an insertion, or ENOSPC in a full table. *)
Lemma ramfs_put_spec fs p d :
  ramfs_wf fs → path_ok p → bytes_ok d → 0 < zlen d < RAMFS_FILE_SIZE →
  let '(rc, fs') := ramfs_put fs p d (zlen d) in
  (rc = 0 ∧ ramfs_wf fs' ∧ fs_get fs' p = Some d ∧ (∀ q, q ≠ p → fs_get fs' q = fs_get fs q))
  ∨ (rc = ENOSPC ∧ fs' = fs ∧ fs_full fs ∧ fs_get fs p = None).
Proof.
  intros Hw Hp Hd Hlen. unfold ramfs_put.
  test_false (zlen d <=? 0). test_false (RAMFS_FILE_SIZE <=? zlen d). cbn [orb].
  destruct (lookup fs p true) as [[i|] fs1] eqn:E.
  2: { right. by destruct (lookup_create_None _ _ _ E) as (-> & ? & ?). }
  left. set (g := λ f, set_size _ _).
  assert (Z.to_nat (zlen d) = length d) as Ed by klia.
  destruct (write_slot fs p i fs1 g Hw Hp E) as (f1 & Hf1 & _ & _ & Hw' & Hget & Hoth).
  { intros f [Hl Hb Hs Hfp] Hu. split; [|done]. unfold g.
    rewrite Ed, firstn_all. split; cbn; try done.
    - unfold zlen in *. rewrite length_splice; unfold zlen in *; rewrite ?length_app; simpl; lia.
    - apply bytes_ok_splice; [done|]. apply Forall_app_2; [done|]. by repeat constructor.
    - lia. }
  split; [done|]. split; [done|]. split; [|done]. rewrite Hget. f_equal.
  unfold g, contents; cbn [set_size set_data f_data f_size].
  rewrite Ed, firstn_all. apply splice_0_sub_prefix.
Qed.

Lemma ramfs_put_inval fs p d n : n ≤ 0 ∨ RAMFS_FILE_SIZE ≤ n → ramfs_put fs p d n = (EINVAL, fs).
Proof.
  intros H. unfold ramfs_put.
  replace ((n <=? 0) || (RAMFS_FILE_SIZE <=? n)) with true; [done|].
  symmetry. apply orb_true_iff. rewrite !Z.leb_le. lia.
Qed.

(** What [ramfs_read] gives: a slice of the contents. *)
Lemma ramfs_read_spec fs p off len :
  ramfs_wf fs → 0 ≤ off → 0 < len < 2147483648 → off < 9223372036854775808 →
  ramfs_read fs p off len =
  match fs_get fs p with
  | None => (ENOENT, [])
  | Some c => let n := Z.max 0 (Z.min len (zlen c - off)) in (n, sub c off n)
  end.
Proof.
  intros Hw Ho Hl Hob. unfold ramfs_read. test_false (len <=? 0).
  unfold lookup. fold (slot fs p). destruct (slot fs p) as [i|] eqn:E.
  - destruct (slot_Some _ _ _ E) as (f & Hf & Hu & Hp).
    rewrite (fs_get_lookup fs p i f) by done.
    pose proof (Forall_lookup_1 _ _ _ _ (rfw_files fs Hw) Hf) as Hfw.
    rewrite (nth_lookup_Some _ _ _ _ Hf), (contents_wf f Hfw Hu).
    pose proof (fw_size f Hfw Hu) as Hs. rewrite u64_small by (unfold RAMFS_FILE_SIZE in Hs; lia).
    destruct (Z.leb_spec (f_size f) off).
    + cbn zeta. by replace (Z.max 0 _) with 0 by lia.
    + set (n := if f_size f <? off + len then _ else _).
      replace (Z.max 0 (Z.min len (f_size f - off))) with n
        by (unfold n; case_test; bprop; lia).
      assert (n ≤ f_size f - off) by (unfold n; case_test; bprop; lia).
      cbn zeta. f_equal. unfold contents, sub. simpl. rewrite drop_0, skipn_firstn_comm, take_take.
      f_equal. lia.
  - cbn [negb]. apply fs_get_None in E. by rewrite E.
Qed.

(** What [ramfs_write] does inside the buffer: an overlay of the old contents
    (never a truncation). *)
Lemma ramfs_write_spec fs p off d :
  let old := default [] (fs_get fs p) in
  ramfs_wf fs → path_ok p → bytes_ok d → 0 < zlen d → 0 ≤ off ≤ zlen old →
  off + zlen d < RAMFS_FILE_SIZE →
  ∃ rc fs', ramfs_write p off d (zlen d) fs = Ret (rc, fs') ∧
  ((rc = zlen d ∧ ramfs_wf fs' ∧ fs_get fs' p = Some (splice old off d)
    ∧ (∀ q, q ≠ p → fs_get fs' q = fs_get fs q))
   ∨ (rc = ENOSPC ∧ fs' = fs ∧ fs_full fs ∧ fs_get fs p = None)).
Proof.
  intros old Hw Hp Hd Hd0 Ho Hsz. unfold ramfs_write. test_false (zlen d <=? 0).
  rewrite u64_small by (unfold RAMFS_FILE_SIZE in *; lia).
  destruct (lookup fs p true) as [[i|] fs1] eqn:E.
  2: { destruct (lookup_create_None _ _ _ E) as (-> & ? & ?). eexists _, _. split; [done|]. by right. }
  test_false (RAMFS_FILE_SIZE <=? off + zlen d). test_false (RAMFS_FILE_SIZE <=? off).
  eexists _, _. split; [done|]. left. split; [done|].
  replace (take (Z.to_nat (zlen d)) d) with d by (symmetry; apply take_ge; klia).
  set (g := λ f : ramfs_file, _).
  destruct (write_slot fs p i fs1 g Hw Hp E) as (f1 & Hf1 & Hu1 & Hold & Hw' & Hget & Hoth).
  { intros f [Hl Hb Hs Hfp] Hu. specialize (Hs Hu). unfold g. cbn.
    assert (zlen (splice (f_data f) off d) = RAMFS_FILE_SIZE) as El
      by (unfold zlen in *; rewrite length_splice; unfold zlen in *; lia).
    case_test; bprop; (split; [|done]); split; cbn; try done; try (by apply bytes_ok_splice); lia. }
  split; [done|]. split; [|done]. rewrite Hget. f_equal.
  pose proof (contents_wf f1 Hf1 Hu1) as Hc1. pose proof (fw_size f1 Hf1 Hu1) as Hs1.
  pose proof (fw_len f1 Hf1) as Hl1.
  assert (old = contents f1) as Eold.
  { unfold old. destruct (fs_get fs p) as [c|]; simpl; [done|].
    symmetry. apply nil_length_inv. unfold zlen in *. lia. }
  rewrite Eold in *. unfold contents in *. rewrite <- sub_splice_overlay by lia.
  unfold g. cbn. case_test; bprop; cbn; f_equal; lia.
Qed.

(** A write that does not fit fails with EINVAL, but only after the slot was
    claimed: an absent file now exists, empty. *)
Lemma ramfs_write_toobig fs p off d len :
  ramfs_wf fs → path_ok p → 0 < len → 0 ≤ off → off + len < 18446744073709551616 →
  RAMFS_FILE_SIZE ≤ off + len →
  ∃ rc fs', ramfs_write p off d len fs = Ret (rc, fs') ∧
  ((rc = EINVAL ∧ ramfs_wf fs' ∧ fs_get fs' p = Some (default [] (fs_get fs p))
    ∧ (∀ q, q ≠ p → fs_get fs' q = fs_get fs q))
   ∨ (rc = ENOSPC ∧ fs' = fs ∧ fs_full fs ∧ fs_get fs p = None)).
Proof.
  intros Hw Hp Hl Ho Hb Hsz. unfold ramfs_write. test_false (len <=? 0).
  rewrite u64_small by lia.
  destruct (lookup fs p true) as [[i|] fs1] eqn:E.
  2: { destruct (lookup_create_None _ _ _ E) as (-> & ? & ?). eexists _, _. split; [done|]. by right. }
  test_true (RAMFS_FILE_SIZE <=? off + len). eexists _, _. split; [done|]. left. split; [done|].
  destruct (write_slot fs p i fs1 id Hw Hp E) as (f1 & Hf1 & Hu1 & Hold & Hw' & Hget & Hoth).
  { done. }
  assert (alter id i fs1 = fs1) as Eid.
  { apply list_eq. intros j. rewrite list_lookup_alter. case_decide; [|done].
    subst. by destruct (fs1 !! j). }
  rewrite Eid in *. split; [done|]. split; [|done]. rewrite Hget. f_equal.
  destruct (fs_get fs p) as [c|]; simpl; [done|].
  pose proof (contents_wf f1 Hf1 Hu1) as Hc. rewrite Hold in Hc.
  apply nil_length_inv. unfold zlen in Hc. unfold id. lia.
Qed.

(** ** User files *)

Definition is_user (f : ramfs_file) : bool := f_used f && negb (is_sys_path (f_path f)).

(** The user files in slot order: what the persistence layer saves. *)
Definition user_files (fs : ramfs) : list (list Z * list Z) :=
  (λ f, (f_path f, contents f)) <$> filter (λ f, is_user f = true) fs.

Lemma ramfs_user_count_files fs : ramfs_user_count fs = zlen (user_files fs).
Proof. unfold ramfs_user_count, countb, user_files, zlen. by rewrite length_fmap. Qed.

Lemma user_files_cons f fs :
  user_files (f :: fs)
  = if is_user f then (f_path f, contents f) :: user_files fs else user_files fs.
Proof.
  unfold user_files. rewrite filter_cons. destruct (is_user f); [rewrite decide_True|rewrite decide_False]; done.
Qed.

Lemma user_get_from_spec fs k cap :
  Forall file_wf fs → (k < length (user_files fs))%nat → RAMFS_FILE_SIZE ≤ cap →
  ∃ p c, user_files fs !! k = Some (p, c)
    ∧ user_get_from fs (Z.of_nat k) cap = (zlen c, p, c).
Proof.
  intros Hw. revert k. induction Hw as [|f fs Hf Hw IH]; intros k Hk Hcap; [by simpl in Hk; lia|].
  rewrite user_files_cons in Hk |- *. cbn [user_get_from].
  replace (negb (f_used f) || is_sys_path (f_path f)) with (negb (is_user f))
    by (unfold is_user; by destruct (f_used f), (is_sys_path (f_path f))).
  destruct (is_user f) eqn:Hu; cbn [negb]; [|by apply IH].
  apply andb_true_iff in Hu as [Hu _]. destruct k as [|k].
  - cbn [Z.of_nat Z.eqb]. pose proof (contents_wf f Hf Hu) as Hc. pose proof (fw_size f Hf Hu).
    test_false (cap <=? f_size f). rewrite (str_copy_id _ (fw_path f Hf Hu)).
    eexists _, _. split; [done|]. by rewrite Hc.
  - simpl in Hk. destruct (IH k) as (p & c & E1 & E2); [lia|done|].
    exists p, c. split; [done|]. test_false (Z.of_nat (S k) =? 0).
    by replace (Z.of_nat (S k) - 1) with (Z.of_nat k) by lia.
Qed.

Lemma ramfs_user_get_spec fs k :
  ramfs_wf fs → (k < length (user_files fs))%nat →
  ∃ p c, user_files fs !! k = Some (p, c)
    ∧ ramfs_user_get fs (Z.of_nat k) RAMFS_FILE_SIZE = (zlen c, p, c).
Proof. intros Hw Hk. apply user_get_from_spec; try done. by destruct Hw. Qed.

Lemma user_files_get fs p c :
  ramfs_wf fs → (p, c) ∈ user_files fs ↔ fs_get fs p = Some c ∧ is_sys_path p = false.
Proof.
  intros Hw. unfold user_files. rewrite list_elem_of_fmap. split.
  - intros (f & [= -> ->] & Hf). apply list_elem_of_filter in Hf as [Hu Hf].
    apply andb_true_iff in Hu as [Hu Hs]. apply negb_true_iff in Hs.
    apply list_elem_of_lookup in Hf as [i Hi]. split; [|done]. by eapply fs_get_lookup.
  - intros [Hg Hs]. apply fs_get_Some in Hg as (i & f & _ & Hi & Hu & <- & ->).
    exists f. split; [done|]. apply list_elem_of_filter. split.
    + unfold is_user. by rewrite Hu, Hs.
    + by apply list_elem_of_lookup_2 in Hi.
Qed.

Lemma user_files_path fs p c : ramfs_wf fs → (p, c) ∈ user_files fs → path_ok p ∧ bytes_ok c ∧ zlen c < RAMFS_FILE_SIZE.
Proof.
  intros Hw H. apply user_files_get in H as [Hg _]; [|done].
  apply fs_get_Some in Hg as (i & f & _ & Hi & Hu & <- & ->).
  pose proof (Forall_lookup_1 _ _ _ _ (rfw_files fs Hw) Hi) as Hf. split; [by apply fw_path|].
  split; [apply Forall_take, Forall_drop, (fw_bytes f Hf)|].
  rewrite contents_wf by done. by apply fw_size.
Qed.

Lemma user_files_NoDup fs : ramfs_wf fs → NoDup (user_files fs).*1.
Proof.
  intros [_ _ Hu]. unfold user_files. rewrite <- list_fmap_compose.
  assert (∀ l, (∀ i j f g, l !! i = Some f → l !! j = Some g → f_used f = true →
    f_used g = true → f_path f = f_path g → i = j) →
    NoDup ((fst ∘ (λ f, (f_path f, contents f))) <$> filter (λ f, is_user f = true) l)) as H; [|by apply H].
  clear fs Hu. induction l as [|f l IH]; intros Hl; [constructor|].
  assert (∀ i j f0 g, l !! i = Some f0 → l !! j = Some g → f_used f0 = true →
    f_used g = true → f_path f0 = f_path g → i = j) as Hl'.
  { intros i j f0 g Hi Hj Hfu Hgu E. enough (S i = S j) by lia. by eapply (Hl (S i) (S j)). }
  rewrite filter_cons. case_decide as Hf; [|by apply IH]. simpl. constructor; [|by apply IH].
  intros Hin. apply list_elem_of_fmap in Hin as (g & Hp & Hg). simpl in Hp.
  apply list_elem_of_filter in Hg as [Hgu Hg]. apply list_elem_of_lookup in Hg as [j Hj].
  unfold is_user in *. apply andb_true_iff in Hf as [Hf _]. apply andb_true_iff in Hgu as [Hgu _].
  pose proof (Hl 0%nat (S j) f g eq_refl Hj Hf Hgu Hp). lia.
Qed.

(** Clearing the user files keeps exactly the files under /sys. *)
Lemma ramfs_clear_user_spec fs :
  ramfs_wf fs →
  ramfs_wf (ramfs_clear_user fs)
  ∧ ∀ p, fs_get (ramfs_clear_user fs) p = if is_sys_path p then fs_get fs p else None.
Proof.
  intros Hw. pose proof Hw as [Hl Hf Hu]. set (fs' := ramfs_clear_user fs).
  assert (∀ i g, fs' !! i = Some g → f_used g = true →
    fs !! i = Some g ∧ is_sys_path (f_path g) = true) as Hback.
  { intros i g Hg Hgu. unfold fs', ramfs_clear_user in Hg. rewrite list_lookup_fmap in Hg.
    apply fmap_Some in Hg as (f & Hi & ->). case_test; [done|].
    rewrite Hgu in Heqb. simpl in Heqb. by apply negb_false_iff in Heqb. }
  assert (ramfs_wf fs') as Hw'.
  { split.
    - unfold fs', ramfs_clear_user, zlen. by rewrite length_fmap.
    - apply Forall_fmap. eapply Forall_impl; [exact Hf|]. intros f Hfw. simpl.
      case_test; [|done]. destruct Hfw. by split.
    - intros i j f g Hi Hj Hfu Hgu. apply Hback in Hi as [Hi _]; [|done].
      apply Hback in Hj as [Hj _]; [|done]. by eapply Hu. }
  split; [done|]. intros p. destruct (fs_get fs' p) as [c|] eqn:E.
  - apply fs_get_Some in E as (i & g & _ & Hg & Hgu & <- & ->).
    apply Hback in Hg as [Hi Hs]; [|done]. rewrite Hs. symmetry. by eapply fs_get_lookup.
  - case_test; [|done]. destruct (fs_get fs p) as [c|] eqn:E2; [|done].
    apply fs_get_Some in E2 as (i & f & _ & Hi & Hfu & <- & ->).
    assert (fs' !! i = Some f) as Hi'.
    { unfold fs', ramfs_clear_user. rewrite list_lookup_fmap, Hi. simpl. by rewrite Hfu, Heqb. }
    rewrite (fs_get_lookup fs' (f_path f) i f) in E by done. done.
Qed.

Lemma zero_fs_wf : ramfs_wf zero_fs.
Proof.
  split; [done| |].
  - apply Forall_replicate. split; try done. unfold bytes_ok. by apply Forall_replicate.
  - intros i j f g Hi Hj Hu. apply lookup_replicate in Hi as [-> _]. done.
Qed.

(** ** Free slots *)

Definition used_count (fs : ramfs) : Z := countb f_used fs.

Lemma countb_insert_le {A} (p : A → bool) l i x : countb p (<[i := x]> l) ≤ countb p l + 1.
Proof.
  unfold countb. revert i; induction l as [|y l IH]; intros [|i]; [simpl; lia..| |].
  - change (<[0%nat := x]> (y :: l)) with (x :: l). rewrite !filter_cons. unfold zlen.
    repeat case_decide; simpl; lia.
  - change (<[S i := x]> (y :: l)) with (y :: <[i := x]> l). rewrite !filter_cons. specialize (IH i).
    unfold zlen in *. case_decide; simpl; lia.
Qed.

Lemma lookup_insert_or fs p c :
  (lookup fs p c).2 = fs ∨ ∃ i f', (lookup fs p c).1 = Some i ∧ (lookup fs p c).2 = <[i := f']> fs.
Proof.
  unfold lookup. fold (slot fs p). destruct (slot fs p); [by left|]. destruct c; [|by left]. cbn [negb].
  destruct (findi _ fs) as [i|] eqn:F; [|by left]. right.
  apply findi_Some in F as (f & Hf & _). simpl. eexists _, _. split; [done|].
  by apply list_alter_eq_insert.
Qed.

Lemma ramfs_put_insert fs p d n :
  (ramfs_put fs p d n).2 = fs ∨ ∃ i f', (ramfs_put fs p d n).2 = <[i := f']> fs.
Proof.
  unfold ramfs_put. case_test; [by left|]. pose proof (lookup_insert_or fs p true) as H.
  destruct (lookup fs p true) as [[i|] fs1] eqn:E; simpl in *.
  - destruct H as [->|(k & f' & [= <-] & ->)].
    + destruct (fs !! i) as [f|] eqn:Hf.
      * right. eexists _, _. by apply list_alter_eq_insert.
      * left. apply list_eq. intros j. rewrite list_lookup_alter. case_decide; [|done]. subst. by rewrite Hf.
    + right. eexists _, _. apply list_alter_insert_same.
  - left. by destruct H as [->|(? & ? & ? & _)].
Qed.

Lemma ramfs_put_used fs p d n : used_count (ramfs_put fs p d n).2 ≤ used_count fs + 1.
Proof.
  unfold used_count. destruct (ramfs_put_insert fs p d n) as [->|(i & f' & ->)]; [lia|].
  apply countb_insert_le.
Qed.

Lemma countb_all {A} (p : A → bool) l : Forall (λ x, p x = true) l → countb p l = zlen l.
Proof.
  unfold countb, zlen. induction 1 as [|x l Hx Hl IH]; [done|].
  rewrite filter_cons. rewrite decide_True by by rewrite Hx. simpl. lia.
Qed.

Lemma used_not_full fs : ramfs_wf fs → used_count fs < RAMFS_MAX_FILES → ¬ fs_full fs.
Proof.
  intros Hw Hu Hf. pose proof (rfw_len fs Hw) as Hl. unfold used_count in Hu.
  rewrite countb_all in Hu by done. lia.
Qed.

(** The files under /sys in use. *)
Definition sys_count (fs : ramfs) : Z := countb (λ f, f_used f && is_sys_path (f_path f)) fs.

Lemma used_count_clear fs : used_count (ramfs_clear_user fs) = sys_count fs.
Proof.
  unfold used_count, sys_count, countb, ramfs_clear_user, zlen.
  induction fs as [|f fs IH]; [done|]. rewrite fmap_cons, !filter_cons.
  destruct (f_used f) eqn:Hu, (is_sys_path (f_path f)) eqn:Hs; simpl; rewrite ?Hu; simpl; lia.
Qed.

(** ** Properties *)

Lemma zero_fs_not_full : ¬ fs_full zero_fs.
Proof. intros H. inversion H. done. Qed.

Lemma zero_fs_get p : fs_get zero_fs p = None.
Proof.
  apply fs_get_None. unfold slot. apply findi_None. intros f Hf.
  apply list_elem_of_lookup in Hf as [i Hi]. apply lookup_replicate in Hi as [-> _]. done.
Qed.

(** Storing a file and reading it back: on a well-formed table, putting
    1..8191 bytes at a path either succeeds, keeps the table well formed, makes
    every read of that path the corresponding slice of the new bytes and
    leaves every read of every other path as it was, or fails with ENOSPC,
    which happens only when the path is new and all 64 slots are taken, and
    then changes nothing. *)
Theorem ramfs_put_read fs p d :
  ramfs_wf fs → path_ok p → bytes_ok d → 0 < zlen d < RAMFS_FILE_SIZE →
  let '(rc, fs') := ramfs_put fs p d (zlen d) in
  (rc = 0 ∧ ramfs_wf fs'
   ∧ ∀ q off len, 0 ≤ off < 9223372036854775808 → 0 < len < 2147483648 →
       ramfs_read fs' q off len =
       if decide (q = p)
       then let n := Z.max 0 (Z.min len (zlen d - off)) in (n, sub d off n)
       else ramfs_read fs q off len)
  ∨ (rc = ENOSPC ∧ fs' = fs ∧ fs_full fs ∧ fs_get fs p = None).
Proof.
  intros Hw Hp Hd Hlen. pose proof (ramfs_put_spec fs p d Hw Hp Hd Hlen) as H.
  destruct (ramfs_put fs p d (zlen d)) as [rc fs'].
  destruct H as [(-> & Hw' & Hget & Hoth)|H]; [left|by right].
  split; [done|]. split; [done|]. intros q off len Ho Hl. rewrite !ramfs_read_spec by (done || lia).
  case_decide as E; [subst; by rewrite Hget|by rewrite Hoth].
Qed.

Definition demo_path : list Z := str "/agent/1/notes".
Definition demo_data : list Z := str "hello".

Lemma demo_path_ok : path_ok demo_path.
Proof. split; [solve_bytes|done]. Qed.

Lemma demo_data_ok : bytes_ok demo_data.
Proof. solve_bytes. Qed.

Lemma ramfs_put_read_witness :
  ∃ fs', ramfs_put zero_fs demo_path demo_data 5 = (0, fs')
    ∧ ramfs_read fs' demo_path 1 3 = (3, str "ell").
Proof.
  pose proof (ramfs_put_read zero_fs demo_path demo_data zero_fs_wf demo_path_ok demo_data_ok
    ltac:(done)) as H.
  change (zlen demo_data) with 5 in H.
  destruct (ramfs_put zero_fs demo_path demo_data 5) as [rc fs']. exists fs'.
  destruct H as [(-> & _ & H)|(_ & _ & F & _)]; [|by destruct (zero_fs_not_full F)].
  split; [done|]. rewrite H by lia. rewrite decide_True by done. reflexivity.
Defined.

(** A write never truncates: writing [d] at an offset inside the file
    overlays the old contents (which keep their tail), leaves all other files
    alone and keeps the table well formed.  A write that would reach the end
    of the 8 KiB buffer fails with EINVAL without touching any contents, but
    leaves an empty file behind when the path was new. *)
Theorem ramfs_write_overlay fs p off d :
  let old := default [] (fs_get fs p) in
  ramfs_wf fs → path_ok p → bytes_ok d → 0 < zlen d < 2147483648 → 0 ≤ off ≤ zlen old →
  ¬ (fs_full fs ∧ fs_get fs p = None) →
  ∃ rc fs', ramfs_write p off d (zlen d) fs = Ret (rc, fs') ∧ ramfs_wf fs'
    ∧ (∀ q, q ≠ p → fs_get fs' q = fs_get fs q)
    ∧ if decide (off + zlen d < RAMFS_FILE_SIZE)
      then rc = zlen d ∧ fs_get fs' p = Some (take (Z.to_nat off) old ++ d ++ drop (Z.to_nat off + length d) old)
      else rc = EINVAL ∧ fs_get fs' p = Some old.
Proof.
  intros old Hw Hp Hd Hlen Ho Hroom. assert (zlen old < RAMFS_FILE_SIZE) as Hold.
  { unfold old. destruct (fs_get fs p) as [c|] eqn:E; [|done]. simpl.
    apply fs_get_Some in E as (i & f & _ & Hi & Hu & _ & ->).
    pose proof (Forall_lookup_1 _ _ _ _ (rfw_files fs Hw) Hi) as Hf.
    rewrite contents_wf by done. by apply fw_size. }
  case_decide as Hsz.
  - destruct (ramfs_write_spec fs p off d Hw Hp Hd) as (rc & fs' & E & H); [lia|done|done|].
    exists rc, fs'. destruct H as [(-> & Hw' & Hget & Hoth)|(_ & _ & ? & ?)]; [done|by destruct Hroom].
  - destruct (ramfs_write_toobig fs p off d (zlen d) Hw Hp) as (rc & fs' & E & H);
      [unfold RAMFS_FILE_SIZE in *; lia..|].
    exists rc, fs'. destruct H as [(-> & Hw' & Hget & Hoth)|(_ & _ & ? & ?)]; [done|by destruct Hroom].
Qed.

Lemma ramfs_write_overlay_witness :
  ∃ rc fs', ramfs_write demo_path 0 demo_data 5 zero_fs = Ret (rc, fs')
    ∧ rc = 5 ∧ fs_get fs' demo_path = Some demo_data.
Proof.
  destruct (ramfs_write_overlay zero_fs demo_path 0 demo_data zero_fs_wf demo_path_ok demo_data_ok)
    as (rc & fs' & E & _ & _ & H).
  - done.
  - rewrite zero_fs_get. done.
  - intros [F _]. by apply zero_fs_not_full.
  - rewrite decide_True in H by done. rewrite zero_fs_get in H. destruct H as [-> H].
    exists 5, fs'. split; [exact E|]. split; [done|]. exact H.
Defined.
