(* ===== verification/Persist.v ===== *)
(** * Persistence of the file system on a block device (kernel/persist.c)

    [persist_sync] writes every user file of the ramfs to the device in the
    AOS2 format (a super block in sector 0, then for each file a meta sector
    and its data sectors); [persist_load] restores them, checking a CRC per
    file and a rolling checksum, and migrates the older AOS1 format.

    The block device is an interface, the class [BlockDevice]: sector reads
    and writes that can fail, with the laws that a written sector reads back
    and that other sectors keep their contents.  [MemDisk] is an instance.
    The state of an operation is the ramfs and the device. *)

From S2P Require Import Prelude Ramfs.

Definition VIRTIO_SECTOR_SIZE : Z := 512.
Definition PERSIST_MAGIC : Z := 0x31495641.
Definition PERSIST_VERSION_AOS1 : Z := 1.
Definition PERSIST_VERSION_AOS2 : Z := 2.

Record persist_super := mk_super {
  su_magic : Z;
  su_version : Z;
  su_file_count : Z;
  su_checksum : Z
}.

(** The path field is the whole 64-byte buffer. *)
Record persist_meta := mk_meta {
  me_path : list Z;
  me_size : Z;
  me_crc32 : Z
}.

(** ** Little-endian words: the memory image of the structures *)

Definition le32 (n : Z) : list Z :=
  [u8 n; u8 (n / 256); u8 (n / 65536); u8 (n / 16777216)].

Definition get_le32 (l : list Z) (off : Z) : Z :=
  cget l off + 256 * cget l (off + 1) + 65536 * cget l (off + 2) + 16777216 * cget l (off + 3).

Definition super_bytes (s : persist_super) : list Z :=
  le32 (su_magic s) ++ le32 (su_version s) ++ le32 (su_file_count s) ++ le32 (su_checksum s).

Definition super_of_bytes (l : list Z) : persist_super :=
  mk_super (get_le32 l 0) (get_le32 l 4) (get_le32 l 8) (get_le32 l 12).

Definition meta_bytes (m : persist_meta) : list Z :=
  me_path m ++ le32 (me_size m) ++ le32 (me_crc32 m).

Definition meta_of_bytes (l : list Z) : persist_meta :=
  mk_meta (take (Z.to_nat RAMFS_PATH_MAX) l) (get_le32 l 64) (get_le32 l 68).

(** ** The checksum *)

Definition crc_bit (crc : Z) : Z :=
  if Z.land crc 1 =? 0 then Z.shiftr crc 1 else Z.lxor (Z.shiftr crc 1) 0xedb88320.

Definition crc_byte (crc b : Z) : Z := Nat.iter 8 crc_bit (Z.lxor crc b).

Definition persist_crc32 (data : list Z) : Z :=
  Z.lxor (foldl crc_byte 0xffffffff data) 0xffffffff.

Definition persist_file_sectors (size : Z) : Z :=
  (size + VIRTIO_SECTOR_SIZE - 1) / VIRTIO_SECTOR_SIZE.

(** A sector image: [l] followed by zeros. *)
Definition sector_image (l : list Z) : list Z :=
  splice (replicate (Z.to_nat VIRTIO_SECTOR_SIZE) 0) 0 l.

(** ** The device *)

Class BlockDevice (D : Type) := {
  blk_read : D → Z → option (list Z);
  blk_write : D → Z → list Z → option D;
  blk_sectors : D → Z
}.

Class BlockDeviceLaws (D : Type) `{BlockDevice D} := {
  blk_read_len : ∀ d s buf, blk_read d s = Some buf → zlen buf = VIRTIO_SECTOR_SIZE;
  blk_write_ok : ∀ d s buf, 0 ≤ s < blk_sectors d → zlen buf = VIRTIO_SECTOR_SIZE →
    ∃ d', blk_write d s buf = Some d' ∧ blk_sectors d' = blk_sectors d
      ∧ blk_read d' s = Some buf
      ∧ ∀ t, t ≠ s → blk_read d' t = blk_read d t
}.

Section persist.
Context {D : Type} `{BlockDevice D}.

(** The bytes read, or nothing on an I/O error.  The fuel bounds the number of
    sectors; a size needs at most one more than its bytes. *)
Fixpoint read_file_loop (fuel : nat) (d : D) (data_sector size : Z) : option (list Z) :=
  match fuel with
  | O => None
  | S fuel' =>
      if size <=? 0 then Some []
      else
        buf ← blk_read d data_sector;
        let chunk := if VIRTIO_SECTOR_SIZE <? size then VIRTIO_SECTOR_SIZE else size in
        rest ← read_file_loop fuel' d (data_sector + 1) (size - chunk);
        Some (take (Z.to_nat chunk) buf ++ rest)
  end.

Definition persist_read_file_data (d : D) (data_sector size : Z) : option (list Z) :=
  read_file_loop (S (Z.to_nat size)) d data_sector size.

(** The device after the write and whether every sector was written. *)
Fixpoint write_file_loop (fuel : nat) (d : D) (data_sector : Z) (data : list Z) (size : Z) : bool * D :=
  match fuel with
  | O => (false, d)
  | S fuel' =>
      if size <=? 0 then (true, d)
      else
        let chunk := if VIRTIO_SECTOR_SIZE <? size then VIRTIO_SECTOR_SIZE else size in
        match blk_write d data_sector (sector_image (take (Z.to_nat chunk) data)) with
        | None => (false, d)
        | Some d' =>
            write_file_loop fuel' d' (data_sector + 1) (drop (Z.to_nat chunk) data) (size - chunk)
        end
  end.

Definition persist_write_file_data (d : D) (data_sector : Z) (data : list Z) (size : Z) : bool * D :=
  write_file_loop (S (Z.to_nat size)) d data_sector data size.

Definition persist_read_super (d : D) : option persist_super :=
  super_of_bytes <$> blk_read d 0.

Definition persist_write_super (d : D) (s : persist_super) : option D :=
  blk_write d 0 (sector_image (super_bytes s)).

Definition persist_read_meta (d : D) (sector : Z) : option persist_meta :=
  meta_of_bytes <$> blk_read d sector.

Definition persist_write_meta (d : D) (sector : Z) (m : persist_meta) : option D :=
  blk_write d sector (sector_image (meta_bytes m)).

(** One file of either format: read the meta sector and the data, terminate
    the buffer (out of bounds for a file of exactly 8192 bytes), check the CRC
    in AOS2, and store the file.  The result is the meta data, the sector after
    the file and the ramfs, or EIO. *)
Definition load_one (crc_check : bool) (d : D) (sector : Z) (fs : ramfs)
  : outcome (option (persist_meta * Z) * ramfs) :=
  match persist_read_meta d sector with
  | None => Ret (None, fs)
  | Some meta =>
      if (me_size meta <=? 0) || (RAMFS_FILE_SIZE <? me_size meta) then Ret (None, fs)
      else
        let data_sector := sector + 1 in
        let next := data_sector + persist_file_sectors (me_size meta) in
        match persist_read_file_data d data_sector (me_size meta) with
        | None => Ret (None, fs)
        | Some data =>
            if RAMFS_FILE_SIZE <=? me_size meta then Undef
            else if crc_check && negb (persist_crc32 data =? me_crc32 meta) then Ret (None, fs)
            else match cstr_of (me_path meta) with
                 | None => Undef
                 | Some path =>
                     let '(rc, fs') := ramfs_put fs path data (me_size meta) in
                     if rc =? 0 then Ret (Some (meta, next), fs') else Ret (None, fs')
                 end
        end
  end.

Fixpoint load_v1_loop (n : nat) (d : D) (sector : Z) (fs : ramfs) : outcome (Z * ramfs) :=
  match n with
  | O => Ret (0, fs)
  | S n' =>
      match load_one false d sector fs with
      | Ret (None, fs') => Ret (EIO, fs')
      | Ret (Some (_, next), fs') => load_v1_loop n' d next fs'
      | Undef => Undef
      | Halt => Halt
      end
  end.

Definition persist_load_v1 (d : D) (file_count : Z) (fs : ramfs) : outcome (Z * ramfs) :=
  load_v1_loop (Z.to_nat (i32 file_count)) d 1 fs.

Fixpoint load_v2_loop (n : nat) (d : D) (sector rolling super_crc : Z) (fs : ramfs)
  : outcome (Z * ramfs) :=
  match n with
  | O => Ret (if negb (rolling =? super_crc) then EIO else 0, fs)
  | S n' =>
      match load_one true d sector fs with
      | Ret (None, fs') => Ret (EIO, fs')
      | Ret (Some (meta, next), fs') =>
          load_v2_loop n' d next (Z.lxor (Z.lxor rolling (me_crc32 meta)) (me_size meta)) super_crc fs'
      | Undef => Undef
      | Halt => Halt
      end
  end.

Definition persist_load_v2 (d : D) (file_count super_crc : Z) (fs : ramfs) : outcome (Z * ramfs) :=
  load_v2_loop (Z.to_nat (i32 file_count)) d 1 0 super_crc fs.

(** The meta data's path buffer is a stack array that [str_copy] fills up to
    its terminator; [junk] is what was in it before. *)
Definition path_buf (junk path : list Z) : list Z := splice junk 0 (path ++ [0]).

(** Writes the files [idx], [idx+1], ... and gives the sector after them and
    the rolling checksum, or nothing after an I/O error. *)
Fixpoint sync_loop (n : nat) (idx : Z) (junk : list Z) (fs : ramfs) (d : D) (sector rolling : Z)
  : option (Z * Z) * D :=
  match n with
  | O => (Some (sector, rolling), d)
  | S n' =>
      let '(size, path, data) := ramfs_user_get fs idx RAMFS_FILE_SIZE in
      if size <? 0 then (None, d)
      else
        let meta := mk_meta (path_buf junk path) (u32 size) (persist_crc32 data) in
        let rolling' := Z.lxor (Z.lxor rolling (me_crc32 meta)) (me_size meta) in
        match persist_write_meta d sector meta with
        | None => (None, d)
        | Some d1 =>
            let data_sector := sector + 1 in
            let next := data_sector + persist_file_sectors size in
            match persist_write_file_data d1 data_sector data size with
            | (false, d2) => (None, d2)
            | (true, d2) => sync_loop n' (idx + 1) junk fs d2 next rolling'
            end
        end
  end.

Definition persist_sync (blk_ok : bool) (junk : list Z) : M (ramfs * D) Z :=
  λ '(fs, d),
  let count := ramfs_user_count fs in
  if negb blk_ok then Ret (ENODEV, (fs, d))
  else match sync_loop (Z.to_nat count) 0 junk fs d 1 0 with
       | (None, d') => Ret (EIO, (fs, d'))
       | (Some (_, rolling), d') =>
           let sup := mk_super PERSIST_MAGIC PERSIST_VERSION_AOS2 (u32 count) rolling in
           match persist_write_super d' sup with
           | None => Ret (EIO, (fs, d'))
           | Some d2 => Ret (0, (fs, d2))
           end
       end.

Definition persist_migrate (blk_ok : bool) (junk : list Z) : M (ramfs * D) Z :=
  if negb blk_ok then ret ENODEV else persist_sync blk_ok junk.

Definition persist_load (blk_ok : bool) (junk : list Z) : M (ramfs * D) Z :=
  λ '(fs, d),
  if negb blk_ok then Ret (0, (fs, d))
  else match persist_read_super d with
       | None => Ret (EIO, (fs, d))
       | Some sup =>
           if negb (su_magic sup =? PERSIST_MAGIC) then Ret (0, (fs, d))
           else if su_version sup =? PERSIST_VERSION_AOS1 then
             match persist_load_v1 d (su_file_count sup) (ramfs_clear_user fs) with
             | Ret (rc, fs') =>
                 if negb (rc =? 0) then Ret (rc, (fs', d)) else persist_migrate blk_ok junk (fs', d)
             | Undef => Undef
             | Halt => Halt
             end
           else if su_version sup =? PERSIST_VERSION_AOS2 then
             match persist_load_v2 d (su_file_count sup) (su_checksum sup) (ramfs_clear_user fs) with
             | Ret (rc, fs') => Ret (rc, (fs', d))
             | Undef => Undef
             | Halt => Halt
             end
           else Ret (EIO, (fs, d))
       end.

End persist.

(** ** The checksum detects a changed byte *)

Lemma lxor_range n a b : 0 ≤ n → 0 ≤ a < 2 ^ n → 0 ≤ b < 2 ^ n → 0 ≤ Z.lxor a b < 2 ^ n.
Proof.
  intros Hn Ha Hb. assert (0 ≤ Z.lxor a b) as H0 by (apply Z.lxor_nonneg; lia).
  split; [done|]. destruct (Z.eq_dec (Z.lxor a b) 0) as [->|Hne]; [lia|].
  destruct (Z.eq_dec n 0) as [->|Hn0].
  { exfalso. apply Hne. by replace a with 0 by lia; replace b with 0 by lia. }
  apply Z.log2_lt_pow2; [lia|]. pose proof (Z.log2_lxor a b ltac:(lia) ltac:(lia)).
  assert (∀ x, 0 ≤ x < 2 ^ n → Z.log2 x < n) as L.
  { intros x Hx. destruct (Z.eq_dec x 0) as [->|]; [simpl; lia|]. apply Z.log2_lt_pow2; lia. }
  pose proof (L a Ha). pose proof (L b Hb). lia.
Qed.

Definition word32 (x : Z) : Prop := 0 ≤ x < 4294967296.

Lemma word32_lxor a b : word32 a → word32 b → word32 (Z.lxor a b).
Proof. apply (lxor_range 32); lia. Qed.

Lemma shiftr_1_range c : word32 c → 0 ≤ Z.shiftr c 1 < 2147483648.
Proof.
  unfold word32. intros. rewrite Z.shiftr_div_pow2 by lia. change (2 ^ 1) with 2.
  split; [apply Z.div_pos; lia|apply Z.div_lt_upper_bound; lia].
Qed.

Lemma crc_bit_range c : word32 c → word32 (crc_bit c).
Proof.
  intros H. pose proof (shiftr_1_range c H). unfold crc_bit. case_test.
  - unfold word32. lia.
  - apply word32_lxor; unfold word32; lia.
Qed.

(** The top bit of the result tells which branch was taken. *)
Lemma crc_bit_top c : word32 c → Z.testbit (crc_bit c) 31 = negb (Z.land c 1 =? 0).
Proof.
  intros H. pose proof (shiftr_1_range c H) as Hs.
  assert (Z.testbit (Z.shiftr c 1) 31 = false) as T.
  { apply Z.bits_above_log2; [lia|]. destruct (Z.eq_dec (Z.shiftr c 1) 0) as [->|]; [simpl; lia|].
    apply Z.log2_lt_pow2; lia. }
  unfold crc_bit. case_test; [by rewrite T|]. rewrite Z.lxor_spec, T. done.
Qed.

Lemma crc_bit_inj a b : word32 a → word32 b → crc_bit a = crc_bit b → a = b.
Proof.
  intros Ha Hb E. pose proof (crc_bit_top a Ha) as Ta. pose proof (crc_bit_top b Hb) as Tb.
  rewrite E, Tb in Ta. apply (f_equal negb) in Ta. rewrite !negb_involutive in Ta.
  assert (Z.shiftr a 1 = Z.shiftr b 1) as Es.
  { unfold crc_bit in E. rewrite Ta in E. case_test; [done|].
    apply (f_equal (λ x, Z.lxor x 0xedb88320)) in E.
    by rewrite !Z.lxor_assoc, Z.lxor_nilpotent, !Z.lxor_0_r in E. }
  change 1 with (Z.ones 1) in Ta. rewrite !Z.land_ones in Ta by lia. change (2 ^ 1) with 2 in Ta.
  rewrite !Z.shiftr_div_pow2 in Es by lia. change (2 ^ 1) with 2 in Es.
  pose proof (Z.mod_pos_bound a 2). pose proof (Z.mod_pos_bound b 2).
  pose proof (Z.div_mod a 2). pose proof (Z.div_mod b 2).
  destruct (Z.eqb_spec (a mod 2) 0), (Z.eqb_spec (b mod 2) 0); try done; lia.
Qed.

Lemma crc_iter_range k c : word32 c → word32 (Nat.iter k crc_bit c).
Proof. intros. induction k; simpl; [done|]. by apply crc_bit_range. Qed.

Lemma crc_iter_inj k a b :
  word32 a → word32 b → Nat.iter k crc_bit a = Nat.iter k crc_bit b → a = b.
Proof.
  intros Ha Hb. induction k; simpl; [done|]. intros E. apply IHk.
  apply crc_bit_inj; [by apply crc_iter_range..|done].
Qed.

Lemma byte_word32 b : byte_ok b → word32 b.
Proof. unfold byte_ok, word32. lia. Qed.

Lemma crc_byte_range c b : word32 c → byte_ok b → word32 (crc_byte c b).
Proof. intros. apply crc_iter_range, word32_lxor; [done|]. by apply byte_word32. Qed.

Lemma lxor_cancel_r a b c : Z.lxor a c = Z.lxor b c → a = b.
Proof.
  intros E. apply (f_equal (λ x, Z.lxor x c)) in E.
  by rewrite !Z.lxor_assoc, Z.lxor_nilpotent, !Z.lxor_0_r in E.
Qed.

Lemma lxor_cancel_l a b c : Z.lxor c a = Z.lxor c b → a = b.
Proof. rewrite !(Z.lxor_comm c). apply lxor_cancel_r. Qed.

Lemma crc_fold_range c l : word32 c → bytes_ok l → word32 (foldl crc_byte c l).
Proof. intros Hc Hl. revert c Hc. induction Hl; intros; simpl; [done|]. by apply IHHl, crc_byte_range. Qed.

Lemma crc_fold_inj c c' l :
  word32 c → word32 c' → bytes_ok l → foldl crc_byte c l = foldl crc_byte c' l → c = c'.
Proof.
  intros Hc Hc' Hl. revert c c' Hc Hc'. induction Hl as [|b l Hb Hl IH]; intros c c' Hc Hc' E; simpl in *; [done|].
  apply IH in E; [|by apply crc_byte_range..]. apply crc_iter_inj in E.
  - by apply lxor_cancel_r in E.
  - apply word32_lxor; [done|by apply byte_word32].
  - apply word32_lxor; [done|by apply byte_word32].
Qed.

Lemma persist_crc32_range l : bytes_ok l → word32 (persist_crc32 l).
Proof. intros. apply word32_lxor; [by apply crc_fold_range|done]. Qed.

(** One changed byte changes the checksum. *)
Lemma crc32_change x a b y :
  bytes_ok (x ++ a :: y) → bytes_ok (x ++ b :: y) → a ≠ b →
  persist_crc32 (x ++ a :: y) ≠ persist_crc32 (x ++ b :: y).
Proof.
  intros Ha Hb Hne E. apply lxor_cancel_r in E. rewrite !foldl_app in E. simpl in E.
  apply Forall_app in Ha as [Hx Ha], Hb as [_ Hb]. inversion Ha; inversion Hb; subst.
  assert (word32 (foldl crc_byte 0xffffffff x)) as Hw by (by apply crc_fold_range).
  apply crc_fold_inj in E; [|by apply crc_byte_range|by apply crc_byte_range|done].
  apply crc_iter_inj in E; [|apply word32_lxor; [done|by apply byte_word32]..].
  by apply lxor_cancel_l in E.
Qed.

(** The file checksum detects any single corrupted byte: two byte strings
    that differ in exactly one byte have different CRCs (and every CRC is a
    32-bit value). *)
Theorem crc_detects_byte x a b y :
  bytes_ok (x ++ a :: y) → bytes_ok (x ++ b :: y) → a ≠ b →
  persist_crc32 (x ++ a :: y) ≠ persist_crc32 (x ++ b :: y).
Proof. apply crc32_change. Qed.

Lemma crc_detects_byte_witness :
  persist_crc32 (str "a" ++ 98 :: str "c") ≠ persist_crc32 (str "a" ++ 99 :: str "c").
Proof. apply crc_detects_byte; [solve_bytes|solve_bytes|done]. Defined.

(** ** Memory images *)

Lemma le32_word n : word32 n →
  u8 n + 256 * u8 (n / 256) + 65536 * u8 (n / 65536) + 16777216 * u8 (n / 16777216) = n.
Proof. unfold word32, u8. intros. Z.to_euclidean_division_equations. lia. Qed.

Lemma get_le32_app pre n post k :
  word32 n → k = zlen pre → get_le32 (pre ++ le32 n ++ post) k = n.
Proof.
  intros Hn ->. unfold get_le32. rewrite !(cget_app_r pre) by lia.
  replace (zlen pre - zlen pre) with 0 by lia. replace (zlen pre + 1 - zlen pre) with 1 by lia.
  replace (zlen pre + 2 - zlen pre) with 2 by lia. replace (zlen pre + 3 - zlen pre) with 3 by lia.
  unfold cget, le32. simpl. by apply le32_word.
Qed.

Lemma bytes_ok_le32 n : bytes_ok (le32 n).
Proof. unfold le32, u8. repeat constructor; apply Z.mod_pos_bound; lia. Qed.

Lemma sector_image_app l :
  zlen l ≤ VIRTIO_SECTOR_SIZE → ∃ t, sector_image l = l ++ t ∧ zlen (l ++ t) = VIRTIO_SECTOR_SIZE.
Proof.
  intros Hl. unfold sector_image, splice. simpl take. cbn [app]. eexists. split; [done|].
  unfold zlen, VIRTIO_SECTOR_SIZE in *. rewrite length_app, length_drop, length_replicate. lia.
Qed.

Lemma zlen_sector_image l : zlen l ≤ VIRTIO_SECTOR_SIZE → zlen (sector_image l) = VIRTIO_SECTOR_SIZE.
Proof. intros H. by destruct (sector_image_app l H) as (t & -> & ?). Qed.

Lemma super_image s :
  word32 (su_magic s) → word32 (su_version s) → word32 (su_file_count s) → word32 (su_checksum s) →
  super_of_bytes (sector_image (super_bytes s)) = s.
Proof.
  intros H1 H2 H3 H4. destruct (sector_image_app (super_bytes s)) as (t & -> & _); [done|].
  destruct s as [m v c k]. unfold super_of_bytes, super_bytes in *. cbn [su_magic su_version su_file_count su_checksum] in *.
  f_equal.
  - rewrite <- !app_assoc. by apply (get_le32_app []).
  - rewrite <- !app_assoc. by apply (get_le32_app (le32 m)).
  - rewrite <- !app_assoc, app_assoc. by apply (get_le32_app (le32 m ++ le32 v)).
  - rewrite <- !app_assoc, app_assoc, app_assoc. by apply (get_le32_app ((le32 m ++ le32 v) ++ le32 c)).
Qed.

Lemma meta_image m :
  zlen (me_path m) = RAMFS_PATH_MAX → word32 (me_size m) → word32 (me_crc32 m) →
  meta_of_bytes (sector_image (meta_bytes m)) = m.
Proof.
  intros Hp Hs Hc.
  assert (zlen (meta_bytes m) ≤ VIRTIO_SECTOR_SIZE) as Hl.
  { unfold meta_bytes. rewrite !zlen_app, Hp. done. }
  destruct (sector_image_app _ Hl) as (t & -> & _).
  destruct m as [p s c]. unfold meta_of_bytes, meta_bytes in *. cbn [me_path me_size me_crc32] in *.
  rewrite <- !app_assoc. f_equal.
  - apply take_app_length'. unfold zlen, RAMFS_PATH_MAX in *. lia.
  - by apply (get_le32_app p).
  - rewrite app_assoc. apply (get_le32_app (p ++ le32 s)); [done|]. rewrite zlen_app, Hp. done.
Qed.

Lemma path_buf_cstr junk p :
  zlen junk = RAMFS_PATH_MAX → path_ok p →
  zlen (path_buf junk p) = RAMFS_PATH_MAX ∧ cstr_of (path_buf junk p) = Some p.
Proof.
  intros Hj [Hp Hl]. unfold path_buf. split.
  - rewrite <- Hj. unfold zlen. rewrite length_splice; [done|lia|].
    rewrite zlen_app. change (zlen [0]) with 1. lia.
  - unfold splice. simpl take. cbn [app]. rewrite <- app_assoc. by apply cstr_of_app.
Qed.

(** ** Sector counts *)

Definition chunk_of (size : Z) : Z :=
  if VIRTIO_SECTOR_SIZE <? size then VIRTIO_SECTOR_SIZE else size.

Lemma file_sectors_step size :
  0 < size → persist_file_sectors size = 1 + persist_file_sectors (size - chunk_of size)
             ∧ 0 < chunk_of size ≤ VIRTIO_SECTOR_SIZE ∧ chunk_of size ≤ size.
Proof.
  intros H. unfold persist_file_sectors, chunk_of, VIRTIO_SECTOR_SIZE.
  destruct (Z.ltb_spec 512 size); Z.to_euclidean_division_equations; lia.
Qed.

Lemma file_sectors_nonneg size : 0 ≤ size → 0 ≤ persist_file_sectors size.
Proof. intros. unfold persist_file_sectors, VIRTIO_SECTOR_SIZE. apply Z.div_pos; lia. Qed.

Section device.
Context {D : Type} `{BlockDeviceLaws D}.

(** Reading depends only on the sectors read. *)
Lemma read_file_loop_ext fuel (d d' : D) s size :
  (∀ t, s ≤ t < s + persist_file_sectors size → blk_read d' t = blk_read d t) → 0 ≤ size →
  read_file_loop fuel d' s size = read_file_loop fuel d s size.
Proof.
  revert s size; induction fuel as [|fuel IH]; intros s size Hext Hs; simpl; [done|].
  destruct (Z.leb_spec size 0); [done|]. fold (chunk_of size).
  destruct (file_sectors_step size) as (E & Hc & Hc2); [done|].
  pose proof (file_sectors_nonneg (size - chunk_of size) ltac:(lia)).
  rewrite (Hext s) by lia. destruct (blk_read d s); simpl; [|done].
  rewrite IH; [done| |lia]. intros t Ht. apply Hext. lia.
Qed.

(** More fuel changes nothing once there is enough. *)
Lemma read_file_loop_fuel f1 f2 (d : D) s size :
  (Z.to_nat size < f1)%nat → (Z.to_nat size < f2)%nat →
  read_file_loop f1 d s size = read_file_loop f2 d s size.
Proof.
  revert f2 s size; induction f1 as [|f1 IH]; intros [|f2] s size H1 H2; try lia. simpl.
  destruct (Z.leb_spec size 0); [done|]. fold (chunk_of size).
  destruct (file_sectors_step size) as (_ & Hc & Hc2); [done|].
  destruct (blk_read d s); simpl; [|done]. by rewrite (IH f2) by lia.
Qed.

Lemma write_file_loop_spec fuel (d : D) s data :
  (length data < fuel)%nat → 0 ≤ s → s + persist_file_sectors (zlen data) ≤ blk_sectors d →
  ∃ d', write_file_loop fuel d s data (zlen data) = (true, d') ∧ blk_sectors d' = blk_sectors d
    ∧ (∀ t, t < s ∨ s + persist_file_sectors (zlen data) ≤ t → blk_read d' t = blk_read d t)
    ∧ read_file_loop fuel d' s (zlen data) = Some data.
Proof.
  revert d s data; induction fuel as [|fuel IH]; intros d s data Hf Hs Hb; [lia|].
  cbn [write_file_loop read_file_loop]. destruct (Z.leb_spec (zlen data) 0) as [Hz|Hz].
  { exists d. split_and!; try done. destruct data; [done|]. unfold zlen in Hz. simpl in Hz. lia. }
  fold (chunk_of (zlen data)). destruct (file_sectors_step (zlen data)) as (E & Hc & Hc2); [done|].
  set (c := chunk_of (zlen data)) in *. set (rest := drop (Z.to_nat c) data).
  assert (zlen (take (Z.to_nat c) data) = c) as Ht by (unfold zlen in *; rewrite length_take; lia).
  assert (zlen data - c = zlen rest) as Er by (unfold rest, zlen in *; rewrite length_drop; lia).
  rewrite Er in *. pose proof (file_sectors_nonneg (zlen rest) (zlen_nonneg _)).
  destruct (blk_write_ok d s (sector_image (take (Z.to_nat c) data))) as (d1 & Hw & Hd1 & Hr1 & Ho1);
    [lia|apply zlen_sector_image; lia|].
  rewrite Hw. destruct (IH d1 (s + 1) rest) as (d2 & Hl & Hd2 & Ho2 & Hr2); [unfold zlen in *; lia|lia|rewrite Hd1; lia|].
  exists d2. split_and!; [done|congruence| |].
  - intros t Ht'. rewrite Ho2, Ho1 by lia. done.
  - rewrite Ho2, Hr1 by lia. cbn. rewrite Hr2. cbn. f_equal.
    destruct (sector_image_app (take (Z.to_nat c) data)) as (z & -> & _); [lia|].
    rewrite take_app_length' by (unfold zlen in *; lia). apply take_drop.
Qed.

(** ** The layout on the device *)

(** The files stored from a sector on: a meta sector and the data each. *)
Fixpoint stored (d : D) (s : Z) (files : list (list Z * list Z)) : Prop :=
  match files with
  | [] => True
  | (p, c) :: rest =>
      (∃ m, persist_read_meta d s = Some m ∧ cstr_of (me_path m) = Some p
            ∧ me_size m = zlen c ∧ me_crc32 m = persist_crc32 c)
      ∧ persist_read_file_data d (s + 1) (zlen c) = Some c
      ∧ stored d (s + 1 + persist_file_sectors (zlen c)) rest
  end.

Fixpoint end_sector (s : Z) (files : list (list Z * list Z)) : Z :=
  match files with
  | [] => s
  | (_, c) :: rest => end_sector (s + 1 + persist_file_sectors (zlen c)) rest
  end.

Definition roll (r : Z) (files : list (list Z * list Z)) : Z :=
  foldl (λ r '(_, c), Z.lxor (Z.lxor r (persist_crc32 c)) (zlen c)) r files.

Lemma end_sector_ge s files : s ≤ end_sector s files.
Proof.
  revert s; induction files as [|[p c] files IH]; intros s; simpl; [lia|].
  etrans; [|apply IH]. pose proof (file_sectors_nonneg (zlen c) (zlen_nonneg _)). lia.
Qed.

(** Writing elsewhere keeps the stored files. *)
Lemma stored_ext (d d' : D) s files :
  (∀ t, s ≤ t < end_sector s files → blk_read d' t = blk_read d t) →
  stored d s files → stored d' s files.
Proof.
  revert s; induction files as [|[p c] files IH]; intros s Hext; simpl; [done|].
  simpl in Hext. pose proof (file_sectors_nonneg (zlen c) (zlen_nonneg _)).
  pose proof (end_sector_ge (s + 1 + persist_file_sectors (zlen c)) files).
  intros (Hm & Hc & Hr). split_and!.
  - unfold persist_read_meta in *. rewrite Hext by lia. done.
  - unfold persist_read_file_data in *. rewrite (read_file_loop_ext _ d); [done| |apply zlen_nonneg].
    intros t Ht. apply Hext. lia.
  - apply IH; [|done]. intros t Ht. apply Hext. lia.
Qed.

Definition file_ok (f : list Z * list Z) : Prop :=
  path_ok f.1 ∧ bytes_ok f.2 ∧ zlen f.2 < RAMFS_FILE_SIZE.

Lemma sync_loop_spec fs junk (d : D) k s r :
  ramfs_wf fs → zlen junk = RAMFS_PATH_MAX →
  let rest := drop k (user_files fs) in
  0 < s → end_sector s rest ≤ blk_sectors d →
  ∃ d', sync_loop (length rest) (Z.of_nat k) junk fs d s r = (Some (end_sector s rest, roll r rest), d')
    ∧ blk_sectors d' = blk_sectors d
    ∧ (∀ t, t < s → blk_read d' t = blk_read d t)
    ∧ stored d' s rest.
Proof.
  intros Hw Hj rest. remember (length rest) as n eqn:En. subst rest.
  revert d k s r En; induction n as [|n IH]; intros d k s r En Hs Hb.
  { symmetry in En. apply nil_length_inv in En. rewrite En. by exists d. }
  assert (k < length (user_files fs))%nat as Hk by (rewrite length_drop in En; lia).
  destruct (ramfs_user_get_spec fs k Hw Hk) as (p & c & Hlk & Hget).
  rewrite (drop_S _ _ _ Hlk) in *. simpl in En. cbn [end_sector roll foldl stored] in *.
  destruct (user_files_path fs p c Hw) as (Hp & Hc & Hcl); [by eapply list_elem_of_lookup_2|].
  cbn [sync_loop]. rewrite Hget. pose proof (zlen_nonneg c) as Hc0.
  test_false (zlen c <? 0). cbn [me_crc32 me_size].
  rewrite u32_small by (unfold RAMFS_FILE_SIZE in Hcl; lia).
  set (m := mk_meta _ _ _). pose proof (file_sectors_nonneg (zlen c) Hc0) as Hfs.
  set (s' := s + 1 + persist_file_sectors (zlen c)) in *.
  pose proof (end_sector_ge s' (drop (S k) (user_files fs))) as Hge.
  destruct (path_buf_cstr junk p Hj Hp) as [Hpl Hpc].
  assert (meta_of_bytes (sector_image (meta_bytes m)) = m) as Him.
  { apply meta_image; [done| |by apply persist_crc32_range].
    unfold m, word32, RAMFS_FILE_SIZE in *; simpl; lia. }
  unfold persist_write_meta.
  destruct (blk_write_ok d s (sector_image (meta_bytes m))) as (d1 & Hw1 & Hd1 & Hr1 & Ho1);
    [lia|apply zlen_sector_image; unfold meta_bytes; rewrite !zlen_app; simpl; rewrite Hpl; done|].
  rewrite Hw1. unfold persist_write_file_data.
  destruct (write_file_loop_spec (S (Z.to_nat (zlen c))) d1 (s + 1) c) as (d2 & Hw2 & Hd2 & Ho2 & Hr2);
    [unfold zlen; lia|lia|rewrite Hd1; unfold s' in *; lia|].
  rewrite Hw2. replace (Z.of_nat k + 1) with (Z.of_nat (S k)) by lia.
  destruct (IH d2 (S k) s' (Z.lxor (Z.lxor r (persist_crc32 c)) (zlen c))) as (d3 & E3 & Hd3 & Ho3 & Hst);
    [lia|lia|rewrite Hd2, Hd1; done|].
  exists d3. split; [exact E3|]. split; [congruence|]. split.
  { intros t Ht. rewrite Ho3, Ho2, Ho1 by lia. done. }
  split; [|split; [|done]].
  - exists m. split; [|done]. unfold persist_read_meta. rewrite Ho3, Ho2, Hr1 by lia.
    simpl. by rewrite Him.
  - unfold persist_read_file_data. rewrite (read_file_loop_ext _ d2); [done| |done].
    intros t Ht. apply Ho3. unfold s'. lia.
Qed.


(** ** Restoring *)

Lemma load_one_stored (d : D) s p c files fs chk :
  stored d s ((p, c) :: files) → ramfs_wf fs → file_ok (p, c) → c ≠ [] →
  used_count fs < RAMFS_MAX_FILES →
  ∃ m fs', load_one chk d s fs = Ret (Some (m, s + 1 + persist_file_sectors (zlen c)), fs')
    ∧ me_crc32 m = persist_crc32 c ∧ me_size m = zlen c
    ∧ ramfs_wf fs' ∧ fs_get fs' p = Some c ∧ (∀ q, q ≠ p → fs_get fs' q = fs_get fs q)
    ∧ used_count fs' ≤ used_count fs + 1.
Proof.
  intros ((m & Hm & Hp & Hs & Hcrc) & Hd & _) Hw (Hpo & Hb & Hl) Hne Hu. simpl in Hpo, Hb, Hl.
  assert (0 < zlen c) as Hc0 by (destruct c; [done|unfold zlen; simpl; lia]).
  unfold load_one. rewrite Hm, Hs. test_false (zlen c <=? 0). test_false (RAMFS_FILE_SIZE <? zlen c).
  cbn [orb]. rewrite Hd. test_false (RAMFS_FILE_SIZE <=? zlen c). rewrite Hcrc, Z.eqb_refl.
  cbn [negb]. rewrite andb_false_r, Hp.
  pose proof (ramfs_put_spec fs p c Hw Hpo Hb ltac:(lia)) as Hput.
  pose proof (ramfs_put_used fs p c (zlen c)) as Hcount.
  destruct (ramfs_put fs p c (zlen c)) as [rc fs']. simpl in Hcount.
  destruct Hput as [(-> & Hw' & Hg & Ho)|(_ & _ & Hf & _)]; [|by destruct (used_not_full fs Hw Hu)].
  cbn [Z.eqb]. exists m, fs'. done.
Qed.

Lemma load_v2_stored (d : D) s files fs r crc :
  stored d s files → ramfs_wf fs → Forall file_ok files → Forall (λ f, f.2 ≠ []) files →
  NoDup files.*1 → used_count fs + zlen files ≤ RAMFS_MAX_FILES →
  ∃ fs', load_v2_loop (length files) d s r crc fs
         = Ret (if negb (roll r files =? crc) then EIO else 0, fs')
    ∧ ramfs_wf fs' ∧ (∀ p c, (p, c) ∈ files → fs_get fs' p = Some c)
    ∧ (∀ q, q ∉ files.*1 → fs_get fs' q = fs_get fs q).
Proof.
  intros Hst Hw Hok Hne Hnd Hu. revert s fs r Hst Hw Hu.
  induction files as [|[p c] files IH]; intros s fs r Hst Hw Hu; simpl.
  { exists fs. split_and!; try done. intros p c Hpc. by inversion Hpc. }
  inversion Hok as [|? ? Hok1 Hok2]; inversion Hne as [|? ? Hne1 Hne2]; simpl in Hne1; subst.
  simpl in Hnd. inversion Hnd as [|? ? Hnin Hnd2]; subst.
  unfold zlen in Hu. simpl in Hu.
  destruct (load_one_stored d s p c files fs true Hst Hw Hok1 Hne1 ltac:(lia))
    as (m & fs1 & E & Hcrc & Hsz & Hw1 & Hg1 & Ho1 & Hu1).
  rewrite E, Hcrc, Hsz. destruct Hst as (_ & _ & Hst).
  destruct (IH Hok2 Hne2 Hnd2 _ fs1 (Z.lxor (Z.lxor r (persist_crc32 c)) (zlen c)) Hst Hw1)
    as (fs2 & E2 & Hw2 & Hin & Hout); [unfold zlen; lia|].
  exists fs2. split; [done|]. split; [done|]. split.
  - intros q x Hq. apply elem_of_cons in Hq as [[= -> ->]|Hq]; [|by apply Hin].
    by rewrite Hout.
  - intros q Hq. apply not_elem_of_cons in Hq as [Hqp Hq]. rewrite Hout by done. by apply Ho1.
Qed.

Lemma roll_range r files : word32 r → Forall file_ok files → word32 (roll r files).
Proof.
  intros Hr Hf. revert r Hr. induction Hf as [|[p c] files (_ & Hb & Hl) _ IH]; intros r Hr; [done|].
  simpl in *. apply IH. apply word32_lxor; [apply word32_lxor; [done|by apply persist_crc32_range]|].
  unfold word32, RAMFS_FILE_SIZE, zlen in *. lia.
Qed.

Lemma user_files_ok fs : ramfs_wf fs → Forall file_ok (user_files fs).
Proof. intros Hw. apply Forall_forall. intros [p c] H2. by apply (user_files_path fs). Qed.

Lemma user_count_bound fs : ramfs_wf fs → zlen (user_files fs) ≤ RAMFS_MAX_FILES.
Proof.
  intros Hw. rewrite <- (rfw_len fs Hw). unfold user_files, zlen. rewrite length_fmap.
  pose proof (length_filter (λ f, is_user f = true) fs). lia.
Qed.

(** A save succeeds on a device with room, keeps the ramfs, and leaves the
    files on the device behind a valid super block. *)
Lemma persist_sync_spec fs junk (d : D) :
  ramfs_wf fs → zlen junk = RAMFS_PATH_MAX → end_sector 1 (user_files fs) ≤ blk_sectors d →
  ∃ d', persist_sync true junk (fs, d) = Ret (0, (fs, d'))
    ∧ stored d' 1 (user_files fs)
    ∧ persist_read_super d' = Some (mk_super PERSIST_MAGIC PERSIST_VERSION_AOS2
         (zlen (user_files fs)) (roll 0 (user_files fs))).
Proof.
  intros Hw Hj Hroom. unfold persist_sync. cbn [negb]. rewrite ramfs_user_count_files.
  pose proof (user_count_bound fs Hw) as Hcnt. pose proof (zlen_nonneg (user_files fs)).
  pose proof (end_sector_ge 1 (user_files fs)) as Hge.
  replace (Z.to_nat (zlen (user_files fs))) with (length (drop 0 (user_files fs)))
    by (rewrite drop_0; unfold zlen; lia).
  destruct (sync_loop_spec fs junk d 0 1 0 Hw Hj ltac:(lia)) as (d1 & E & Hd1 & _ & Hst);
    [by rewrite drop_0|].
  change (Z.of_nat 0) with 0 in E. rewrite E. rewrite drop_0 in *.
  rewrite u32_small by (unfold RAMFS_MAX_FILES in Hcnt; lia).
  set (sup := mk_super _ _ _ _). unfold persist_write_super.
  destruct (blk_write_ok d1 0 (sector_image (super_bytes sup))) as (d2 & Hw2 & _ & Hr2 & Ho2);
    [rewrite Hd1; lia|by apply zlen_sector_image|].
  rewrite Hw2. exists d2. split; [done|]. split.
  - eapply stored_ext; [|exact Hst]. intros t Ht. apply Ho2. lia.
  - unfold persist_read_super. rewrite Hr2. simpl. rewrite super_image; [done|done|done| |].
    + unfold sup, word32; simpl. unfold RAMFS_MAX_FILES in Hcnt. lia.
    + apply roll_range; [done|by apply user_files_ok].
Qed.

(** A load of a saved image clears the user files and reads the saved ones. *)
Lemma persist_load_v2_start fs (d : D) fs2 junk :
  ramfs_wf fs →
  persist_read_super d = Some (mk_super PERSIST_MAGIC PERSIST_VERSION_AOS2
    (zlen (user_files fs)) (roll 0 (user_files fs))) →
  persist_load true junk (fs2, d) =
  match load_v2_loop (length (user_files fs)) d 1 0 (roll 0 (user_files fs)) (ramfs_clear_user fs2) with
  | Ret (rc, fs') => Ret (rc, (fs', d))
  | Undef => Undef
  | Halt => Halt
  end.
Proof.
  intros Hw Hsup. unfold persist_load. cbn [negb]. rewrite Hsup. cbn. unfold persist_load_v2.
  pose proof (user_count_bound fs Hw). pose proof (zlen_nonneg (user_files fs)).
  rewrite i32_small by (unfold RAMFS_MAX_FILES in *; lia).
  by replace (Z.to_nat (zlen (user_files fs))) with (length (user_files fs)) by (unfold zlen; lia).
Qed.

(** [C7] Saving and restoring is the identity on user files: when every user
    file is non-empty and the device has room, [persist_sync] succeeds, and a
    later [persist_load] (into a ramfs with enough free slots, as after a
    reboot) succeeds and brings back exactly the saved user files, while the
    files under /sys stay those of the running system. *)
Theorem persist_roundtrip fs fs2 junk junk2 (d : D) :
  ramfs_wf fs → ramfs_wf fs2 → zlen junk = RAMFS_PATH_MAX →
  Forall (λ f, f.2 ≠ []) (user_files fs) →
  end_sector 1 (user_files fs) ≤ blk_sectors d →
  sys_count fs2 + zlen (user_files fs) ≤ RAMFS_MAX_FILES →
  ∃ d' fs3, persist_sync true junk (fs, d) = Ret (0, (fs, d'))
    ∧ persist_load true junk2 (fs2, d') = Ret (0, (fs3, d'))
    ∧ ramfs_wf fs3
    ∧ ∀ p, fs_get fs3 p = if is_sys_path p then fs_get fs2 p else fs_get fs p.
Proof.
  intros Hw Hw2 Hj Hne Hroom Hslots.
  destruct (persist_sync_spec fs junk d Hw Hj Hroom) as (d' & Es & Hst & Hsup).
  destruct (ramfs_clear_user_spec fs2 Hw2) as [Hwc Hgc].
  destruct (load_v2_stored d' 1 (user_files fs) (ramfs_clear_user fs2) 0 (roll 0 (user_files fs)))
    as (fs3 & El & Hw3 & Hin & Hout);
    [done|done|by apply user_files_ok|done|by apply user_files_NoDup|by rewrite used_count_clear|].
  exists d', fs3. split; [done|]. split; [|split; [done|]].
  - rewrite (persist_load_v2_start fs d' fs2 junk2 Hw Hsup), El, Z.eqb_refl. done.
  - intros p. destruct (decide (p ∈ (user_files fs).*1)) as [Hp|Hp].
    + apply list_elem_of_fmap in Hp as ([q c] & -> & Hq). simpl. rewrite (Hin q c Hq).
      apply user_files_get in Hq as [Hg Hs]; [|done]. by rewrite Hs.
    + rewrite (Hout p Hp), Hgc. destruct (is_sys_path p) eqn:Hs; [done|].
      destruct (fs_get fs p) as [c|] eqn:Hg; [|done]. exfalso. apply Hp.
      apply list_elem_of_fmap. exists (p, c). split; [done|]. by apply user_files_get.
Qed.

(** A stored empty file is refused by the load, at any position. *)
Lemma load_v2_empty (d : D) s files fs r crc :
  stored d s files → ramfs_wf fs → Forall file_ok files → Exists (λ f, f.2 = []) files →
  used_count fs + zlen files ≤ RAMFS_MAX_FILES →
  ∃ fs', load_v2_loop (length files) d s r crc fs = Ret (EIO, fs').
Proof.
  intros Hst Hw Hok Hex Hu. revert s fs r Hst Hw Hu.
  induction files as [|[p c] files IH]; intros s fs r Hst Hw Hu; [by inversion Hex|].
  apply Forall_cons in Hok as [Hok1 Hok2]. unfold zlen in Hu. simpl in Hu.
  destruct (decide (c = [])) as [->|Hc].
  - destruct Hst as ((m & Hm & _ & Hsz & _) & _). simpl. unfold load_one. rewrite Hm, Hsz. by exists fs.
  - inversion Hex as [? ? He|? ? Hex']; simplify_eq/=.
    destruct (load_one_stored d s p c files fs true Hst Hw Hok1 Hc ltac:(lia))
      as (m & fs1 & E & _ & _ & Hw1 & _ & _ & Hu1).
    rewrite E. destruct Hst as (_ & _ & Hst). apply IH; try done. unfold zlen. lia.
Qed.

(** An empty user file makes the whole saved image unloadable: the save
    still reports success, and the load after it wipes the running user files
    and fails with EIO. *)
Theorem persist_empty_file fs fs2 junk junk2 (d : D) :
  ramfs_wf fs → ramfs_wf fs2 → zlen junk = RAMFS_PATH_MAX →
  Exists (λ f, f.2 = []) (user_files fs) →
  end_sector 1 (user_files fs) ≤ blk_sectors d →
  sys_count fs2 + zlen (user_files fs) ≤ RAMFS_MAX_FILES →
  ∃ d' fs3, persist_sync true junk (fs, d) = Ret (0, (fs, d'))
    ∧ persist_load true junk2 (fs2, d') = Ret (EIO, (fs3, d')).
Proof.
  intros Hw Hw2 Hj Hex Hroom Hslots.
  destruct (persist_sync_spec fs junk d Hw Hj Hroom) as (d' & Es & Hst & Hsup).
  destruct (ramfs_clear_user_spec fs2 Hw2) as [Hwc _].
  destruct (load_v2_empty d' 1 (user_files fs) (ramfs_clear_user fs2) 0 (roll 0 (user_files fs)))
    as (fs3 & El); [done|done|by apply user_files_ok|done|by rewrite used_count_clear|].
  exists d', fs3. split; [done|]. rewrite (persist_load_v2_start fs d' fs2 junk2 Hw Hsup).
  by rewrite El.
Qed.

(** A meta sector that gives a file the full 8192 bytes passes the load's
    size check, and the terminator is then written outside the 8192-byte
    buffer. *)
Theorem load_size_limit (d : D) s fs m data chk :
  persist_read_meta d s = Some m → me_size m = RAMFS_FILE_SIZE →
  persist_read_file_data d (s + 1) RAMFS_FILE_SIZE = Some data →
  load_one chk d s fs = Undef.
Proof. intros Hm Hs Hd. unfold load_one. by rewrite Hm, Hs, Hd. Qed.

End device.

(** ** A concrete device *)

(** A disk of [n] sectors kept as a finite map; unwritten sectors read as
    zeros and sectors past the end fail. *)
Record memdisk := MemDisk { md_sectors : Z; md_data : gmap Z (list Z) }.

Definition memdisk_ok (n s : Z) : bool := (0 <=? s) && (s <? n).

#[export] Instance memdisk_device : BlockDevice memdisk := {
  blk_read d s :=
    if memdisk_ok (md_sectors d) s
    then let buf := default (replicate (Z.to_nat VIRTIO_SECTOR_SIZE) 0) (md_data d !! s) in
         if zlen buf =? VIRTIO_SECTOR_SIZE then Some buf else None
    else None;
  blk_write d s buf :=
    if memdisk_ok (md_sectors d) s && (zlen buf =? VIRTIO_SECTOR_SIZE)
    then Some (MemDisk (md_sectors d) (<[s := buf]> (md_data d))) else None;
  blk_sectors := md_sectors
}.

#[export] Instance memdisk_laws : BlockDeviceLaws memdisk.
Proof.
  split.
  - intros d s buf. cbn. repeat case_test; intros; simplify_eq; by bprop.
  - intros d s buf Hs Hl. cbn in *. unfold memdisk_ok. rewrite Hl.
    test_true (0 <=? s). test_true (s <? md_sectors d). cbn.
    eexists. split; [done|]. split; [done|]. simpl. split.
    + test_true (0 <=? s). test_true (s <? md_sectors d). rewrite lookup_insert_eq. cbn [default from_option]. unfold id. by rewrite Hl.
    + intros t Ht. by rewrite lookup_insert_ne by done.
Qed.

Definition demo_disk : memdisk := MemDisk 64 ∅.
Definition demo_fs : ramfs := (ramfs_put zero_fs demo_path demo_data 5).2.

Lemma demo_fs_spec :
  ramfs_wf demo_fs ∧ fs_get demo_fs demo_path = Some demo_data
  ∧ ∀ q, q ≠ demo_path → fs_get demo_fs q = None.
Proof.
  pose proof (ramfs_put_spec zero_fs demo_path demo_data zero_fs_wf demo_path_ok demo_data_ok
    ltac:(done)) as H. change (zlen demo_data) with 5 in H. unfold demo_fs.
  destruct (ramfs_put zero_fs demo_path demo_data 5) as [rc fs'].
  destruct H as [(_ & Hw & Hg & Ho)|(_ & _ & F & _)]; [|by destruct (zero_fs_not_full F)].
  split; [done|]. split; [done|]. intros q Hq. simpl. by rewrite Ho, zero_fs_get.
Qed.

Lemma single_file fs p c :
  ramfs_wf fs → fs_get fs p = Some c → (∀ q, q ≠ p → fs_get fs q = None) → is_sys_path p = false →
  user_files fs = [(p, c)].
Proof.
  intros Hw Hg Ho Hs. pose proof (user_files_NoDup fs Hw) as Hnd.
  assert (∀ q e, (q, e) ∈ user_files fs ↔ q = p ∧ e = c) as Hin.
  { intros q e. rewrite user_files_get by done. split.
    - intros [Hp _]. destruct (decide (q = p)) as [->|Hne]; [|by rewrite Ho in Hp].
      rewrite Hg in Hp. by simplify_eq.
    - intros [-> ->]. done. }
  destruct (user_files fs) as [|[q e] [|[q' e'] l]] eqn:E.
  - exfalso. assert ((p, c) ∈ ([] : list (list Z * list Z))) as HF by by apply Hin. inversion HF.
  - destruct (proj1 (Hin q e) (list_elem_of_here _ _)) as [-> ->]. done.
  - exfalso. destruct (proj1 (Hin q e) (list_elem_of_here _ _)) as [-> _].
    destruct (proj1 (Hin q' e')) as [-> _]; [by apply list_elem_of_further, list_elem_of_here|].
    inversion Hnd as [|? ? Hni _]; subst. apply Hni. apply list_elem_of_here.
Qed.

Lemma demo_fs_files : user_files demo_fs = [(demo_path, demo_data)].
Proof. destruct demo_fs_spec as (Hw & Hg & Ho). by apply single_file. Qed.

Lemma persist_roundtrip_witness :
  ∃ d' fs3, persist_sync true (replicate 64 0) (demo_fs, demo_disk) = Ret (0, (demo_fs, d'))
    ∧ persist_load true [] (zero_fs, d') = Ret (0, (fs3, d'))
    ∧ fs_get fs3 demo_path = Some demo_data.
Proof.
  destruct demo_fs_spec as (Hw & Hg & _).
  destruct (persist_roundtrip demo_fs zero_fs (replicate 64 0) [] demo_disk) as (d' & fs3 & E1 & E2 & _ & H).
  - exact Hw.
  - exact zero_fs_wf.
  - reflexivity.
  - rewrite demo_fs_files. by repeat constructor.
  - rewrite demo_fs_files. vm_compute. discriminate.
  - rewrite demo_fs_files. vm_compute. discriminate.
  - exists d', fs3. split; [exact E1|]. split; [exact E2|]. rewrite H. exact Hg.
Defined.

(** A write past the end of a new file fails and leaves an empty file, which a
    save then accepts and a load refuses. *)
Lemma persist_empty_file_witness :
  ∃ fs d' fs3, ramfs_write demo_path 0 demo_data 8192 zero_fs = Ret (EINVAL, fs)
    ∧ persist_sync true (replicate 64 0) (fs, demo_disk) = Ret (0, (fs, d'))
    ∧ persist_load true [] (zero_fs, d') = Ret (EIO, (fs3, d')).
Proof.
  destruct (ramfs_write_toobig zero_fs demo_path 0 demo_data 8192 zero_fs_wf demo_path_ok)
    as (rc & fs & E & [(-> & Hw & Hg & Ho)|(_ & _ & F & _)]);
    [lia|lia|lia|unfold RAMFS_FILE_SIZE; lia| |by destruct (zero_fs_not_full F)].
  rewrite zero_fs_get in Hg. simpl in Hg.
  assert (user_files fs = [(demo_path, [])]) as Hfiles.
  { apply single_file; [done|done| |done]. intros q Hq. by rewrite Ho, zero_fs_get. }
  destruct (persist_empty_file fs zero_fs (replicate 64 0) [] demo_disk) as (d' & fs3 & E1 & E2).
  - exact Hw.
  - exact zero_fs_wf.
  - reflexivity.
  - rewrite Hfiles. by constructor.
  - rewrite Hfiles. vm_compute. discriminate.
  - rewrite Hfiles. vm_compute. discriminate.
  - by exists fs, d', fs3.
Defined.

(** A disk whose first file claims 8192 bytes. *)
Definition big_meta : persist_meta := mk_meta (str "/x" ++ replicate 62 0) 8192 0.
Definition big_disk : memdisk := MemDisk 64 {[ 1 := sector_image (meta_bytes big_meta) ]}.

Lemma load_size_limit_witness : load_one false big_disk 1 zero_fs = Undef.
Proof.
  apply (load_size_limit big_disk 1 zero_fs big_meta (replicate (Z.to_nat 8192) 0));
    vm_compute; reflexivity.
Defined.
