(* ===== verification/Paths.v ===== *)
(** * Paths that carry an agent number

    Several components keep one file per agent, under a path that contains the
    agent's number: /session/agent/<id>/log (session.c, tenant.c),
    /audit/agent/<id>/tool.log (audit.c), /ns/agent/<id>/home/... (namespace.c)
    and /agent/<id>/... (quota.c, policy of the file tools).  Each builds the
    path with the same digit loop, recognises it with the same scan, and
    measures the file with the same one-byte read loop.  These shared pieces
    and their lemmas are here. *)

From S2P Require Import Prelude Ramfs.

(** A path with a number, printed through an eight-digit scratch array. *)
Definition agent_path (pre post : list Z) (id : Z) : option (list Z) :=
  ds ← dec_cap 8 id; Some (pre ++ ds ++ post).

(** The number at index [i] of a path and what follows it. *)
Definition parse_id (path : list Z) (i : Z) : option (Z * list Z) :=
  if is_digit (cget path i) then Some (scan_int 0 (drop (Z.to_nat i) path)) else None.

(** The size of a file, found by reading one byte at increasing offsets. *)
Fixpoint usage_loop (fuel : nat) (fs : ramfs) (path : list Z) (off : Z) : Z :=
  match fuel with
  | O => RAMFS_FILE_SIZE
  | S f => if (ramfs_read fs path off 1).1 <=? 0 then off else usage_loop f fs path (off + 1)
  end.

Definition file_usage (fs : ramfs) (path : list Z) : Z :=
  if (ramfs_read fs path 0 1).1 <? 0 then 0
  else usage_loop (Z.to_nat (RAMFS_FILE_SIZE - 1)) fs path 1.

(** ** Lemmas *)

Lemma agent_path_small pre post id :
  id < 100000000 → agent_path pre post id = Some (pre ++ dec id ++ post).
Proof. intros. unfold agent_path. rewrite dec_cap_8. by test_true (id <? 100000000). Qed.

Lemma agent_path_large pre post id : 100000000 ≤ id → agent_path pre post id = None.
Proof. intros. unfold agent_path. rewrite dec_cap_8. by test_false (id <? 100000000). Qed.

Lemma is_digit_dec_app id t : 0 ≤ id → is_digit (cget (dec id ++ t) 0) = true.
Proof.
  intros Hid. pose proof (dec_nonempty id Hid). pose proof (dec_digits id) as Hd.
  destruct (dec id) as [|c l]; [done|]. by inversion Hd.
Qed.

Lemma parse_id_dec pre id c post :
  0 ≤ id < 2147483648 → is_digit c = false →
  parse_id (pre ++ dec id ++ c :: post) (zlen pre) = Some (id, c :: post).
Proof.
  intros Hid Hc. unfold parse_id. rewrite cget_app_r by lia.
  replace (zlen pre - zlen pre) with 0 by lia. rewrite is_digit_dec_app by lia.
  unfold zlen. rewrite Nat2Z.id, drop_app_length, scan_dec by done. by rewrite scan_int_stop.
Qed.

Lemma cmatch_cons s i c lit : cmatch s i (c :: lit) = (cget s i =? c) && cmatch s (i + 1) lit.
Proof. done. Qed.

Lemma cmatch_lit_app s i l1 l2 :
  cmatch s i (l1 ++ l2) = cmatch s i l1 && cmatch s (i + zlen l1) l2.
Proof.
  revert i; induction l1 as [|c l1 IH]; intros i; cbn [app].
  - cbn. f_equal. unfold zlen; simpl. lia.
  - rewrite !cmatch_cons, IH, andb_assoc. do 2 f_equal. unfold zlen; simpl. lia.
Qed.

(** A match of a literal without NUL pins down that part of the string. *)
Lemma cmatch_spec s lit :
  Forall (λ c, c ≠ 0) lit → cmatch s 0 lit = true ↔ ∃ t, s = lit ++ t.
Proof.
  intros Hl. split; [|by intros [t ->]; apply cmatch_self].
  revert s; induction Hl as [|c lit Hc Hl IH]; intros s; [by exists s|].
  rewrite cmatch_cons. intros H; bprop. destruct s as [|d s]; [by simpl in *; subst|].
  change (cget (d :: s) 0) with d in H. subst.
  destruct (IH s) as [t ->]; [|by exists t].
  change (c :: s) with ([c] ++ s) in H0. by rewrite cmatch_app in H0 by done.
Qed.

Lemma scan_int_rest acc s : ∃ ds, s = ds ++ (scan_int acc s).2 ∧ Forall (λ c, is_digit c = true) ds.
Proof.
  revert acc; induction s as [|c s IH]; intros acc; [by exists []|]. simpl.
  destruct (is_digit c) eqn:Hc; [|by exists []].
  destruct (IH (i32 (acc * 10 + (c - 48)))) as (ds & E & Hd). exists (c :: ds).
  split; [by rewrite E at 1|]. by constructor.
Qed.

Lemma usage_loop_spec fs p c f off :
  ramfs_wf fs → fs_get fs p = Some c → zlen c < RAMFS_FILE_SIZE →
  1 ≤ off ≤ Z.max 1 (zlen c) → off + Z.of_nat f = RAMFS_FILE_SIZE →
  usage_loop f fs p off = Z.max 1 (zlen c).
Proof.
  intros Hw Hg Hc. unfold RAMFS_FILE_SIZE in Hc.
  revert off; induction f as [|f IH]; intros off Ho Hf; unfold RAMFS_FILE_SIZE in *; simpl.
  - unfold RAMFS_FILE_SIZE. lia.
  - rewrite ramfs_read_spec by (done || lia). rewrite Hg. cbn [fst].
    destruct (Z.leb_spec (Z.max 0 (Z.min 1 (zlen c - off))) 0); [lia|]. apply IH; lia.
Qed.

Lemma fs_get_size fs p c : ramfs_wf fs → fs_get fs p = Some c → zlen c < RAMFS_FILE_SIZE ∧ bytes_ok c.
Proof.
  intros Hw H. apply fs_get_Some in H as (i & f & _ & Hi & Hu & _ & ->).
  pose proof (Forall_lookup_1 _ _ _ _ (rfw_files fs Hw) Hi) as Hf.
  rewrite contents_wf by done. split; [by apply fw_size|].
  apply Forall_take, Forall_drop. by apply fw_bytes.
Qed.

(** What the usage functions report for a file. *)
Definition usage_of (o : option (list Z)) : Z :=
  match o with None => 0 | Some c => Z.max 1 (zlen c) end.

(** The measured size is the size, except that an existing empty file counts
    as one byte. *)
Lemma file_usage_spec fs p : ramfs_wf fs → file_usage fs p = usage_of (fs_get fs p).
Proof.
  intros Hw. unfold file_usage. rewrite ramfs_read_spec by (done || lia).
  destruct (fs_get fs p) as [c|] eqn:Hg; cbn [fst usage_of]; [|done].
  destruct (fs_get_size fs p c Hw Hg) as [Hc _].
  replace (Z.max 0 (Z.min 1 (zlen c - 0)) <? 0) with false by (symmetry; apply Z.ltb_ge; lia).
  apply usage_loop_spec; (done || unfold RAMFS_FILE_SIZE; lia).
Qed.

(** Reading a whole file. *)
Lemma ramfs_read_all fs p c len :
  ramfs_wf fs → fs_get fs p = Some c → 0 < len < 2147483648 → zlen c ≤ len →
  ramfs_read fs p 0 len = (zlen c, c).
Proof.
  intros Hw Hg Hl Hc. rewrite ramfs_read_spec by (done || lia). rewrite Hg.
  pose proof (zlen_nonneg c). replace (Z.max 0 (Z.min len (zlen c - 0))) with (zlen c) by lia.
  cbn zeta. f_equal. unfold sub, zlen. rewrite Nat2Z.id. cbn. apply take_ge. lia.
Qed.

Lemma zlen_cons {A} (x : A) l : zlen (x :: l) = 1 + zlen l.
Proof. unfold zlen. simpl. lia. Qed.

Lemma cstr_ok_app s t : cstr_ok s → cstr_ok t → cstr_ok (s ++ t).
Proof. apply Forall_app_2. Qed.

(** The built paths are valid ramfs paths. *)
Lemma agent_path_ok pre post id :
  cstr_ok pre → cstr_ok post → id < 100000000 → zlen pre + zlen post < RAMFS_PATH_MAX - 8 →
  path_ok (pre ++ dec id ++ post).
Proof.
  intros Hpre Hpost Hid Hl. split.
  - apply cstr_ok_app; [done|]. apply cstr_ok_app; [apply dec_cstr|done].
  - rewrite !zlen_app. pose proof (zlen_dec_le id Hid). lia.
Qed.
