(* ===== verification/Quota.v ===== *)
(** * Per-agent quotas (kernel/quota.c)

    Two counters per agent slot, of messages sent and of tools run, and a
    limit on the number of files under /agent/<id>/.  [quota_burn_ipc] and
    [quota_notify], which send messages, are in Agent.v.  An agent pointer is
    the number of its slot, [None] for a null pointer. *)

From S2P Require Import Prelude Abi Ramfs Paths.

Definition QUOTA_IPC_MAX : Z := 16.
Definition QUOTA_TOOL_MAX : Z := 128.
Definition QUOTA_FS_FILES : Z := 32.

Record quota := mk_quota {
  quota_ipc_count : list Z;
  quota_tool_count : list Z
}.

Definition quota_init (q : quota) : quota :=
  mk_quota (replicate (Z.to_nat MAX_AGENTS) 0) (replicate (Z.to_nat MAX_AGENTS) 0).

(** The counters before any initialisation. *)
Definition zero_quota : quota :=
  mk_quota (replicate (Z.to_nat MAX_AGENTS) 0) (replicate (Z.to_nat MAX_AGENTS) 0).

Definition parse_agent_path_id (path : list Z) : option Z :=
  if negb (cget path 0 =? chr "/") then None
  else if negb (cmatch path 1 (str "agent/")) then None
  else match parse_id path 7 with
       | None => None
       | Some (id, rest) => if negb (cget rest 0 =? chr "/") then None else Some id
       end.

(** The test [!a || a->id < 0 || a->id >= MAX_AGENTS]. *)
Definition quota_slot (a : option Z) : option nat :=
  match a with
  | None => None
  | Some id => if (id <? 0) || (MAX_AGENTS <=? id) then None else Some (Z.to_nat id)
  end.

Definition quota_ipc_used (q : quota) (a : option Z) : Z :=
  match quota_slot a with None => 0 | Some i => nth i (quota_ipc_count q) 0 end.

Definition quota_ipc_max (a : option Z) : Z := QUOTA_IPC_MAX.

Definition quota_ipc_allow (q : quota) (a : option Z) : Z :=
  match a with
  | None => EINVAL
  | Some _ => if quota_ipc_max a <=? quota_ipc_used q a then ENOSPC else 0
  end.

Definition quota_ipc_charge (a : option Z) (q : quota) : quota :=
  match quota_slot a with
  | None => q
  | Some i => mk_quota (alter (λ n, i32 (n + 1)) i (quota_ipc_count q)) (quota_tool_count q)
  end.

Definition quota_tool_used (q : quota) (a : option Z) : Z :=
  match quota_slot a with None => 0 | Some i => nth i (quota_tool_count q) 0 end.

Definition quota_tool_max (a : option Z) : Z := QUOTA_TOOL_MAX.

Definition quota_tool_allow (q : quota) (a : option Z) : Z :=
  match a with
  | None => EINVAL
  | Some _ => if quota_tool_max a <=? quota_tool_used q a then ENOSPC else 0
  end.

Definition quota_tool_charge (a : option Z) (q : quota) : quota :=
  match quota_slot a with
  | None => q
  | Some i => mk_quota (quota_ipc_count q) (alter (λ n, i32 (n + 1)) i (quota_tool_count q))
  end.

Definition quota_fs_used (a : option Z) : M ramfs Z :=
  match a with None => ret 0 | Some id => ramfs_count_agent_files id end.

Definition quota_fs_max (a : option Z) : Z := QUOTA_FS_FILES.

Definition quota_fs_allow_new (a : option Z) (path : list Z) : M ramfs Z :=
  match a with
  | None => ret EINVAL
  | Some aid =>
      match parse_agent_path_id path with
      | None => ret 0
      | Some id =>
          if negb (id =? aid) then ret 0
          else
            let! ex := gets (λ fs, ramfs_path_exists fs path) in
            if ex : bool then ret 0
            else
              let! used := quota_fs_used a in
              if quota_fs_max a <=? used then ret ENOSPC else ret 0
      end
  end.

(** The values printed are not modelled, but [quota_fs_used] runs to print
    them. *)
Definition quota_status (q : quota) (a : option Z) : M ramfs Z :=
  match a with
  | None => ret EINVAL
  | Some _ => quota_fs_used a ;; ret (quota_ipc_used q a)
  end.

Definition quota_probe_ipc (q : quota) (a : option Z) : Z :=
  match a with None => EINVAL | Some _ => quota_ipc_allow q a end.

(** ** Counters *)

(** Both tables have a counter per slot, within the limits. *)
Record quota_wf (q : quota) : Prop := {
  qw_ipc_len : zlen (quota_ipc_count q) = MAX_AGENTS;
  qw_tool_len : zlen (quota_tool_count q) = MAX_AGENTS;
  qw_ipc : Forall (λ n, 0 ≤ n ≤ QUOTA_IPC_MAX) (quota_ipc_count q);
  qw_tool : Forall (λ n, 0 ≤ n ≤ QUOTA_TOOL_MAX) (quota_tool_count q)
}.

Lemma quota_init_wf q : quota_wf (quota_init q).
Proof. by split; [done|done|repeat constructor; unfold QUOTA_IPC_MAX|repeat constructor; unfold QUOTA_TOOL_MAX]. Qed.

Lemma quota_slot_Some a i : quota_slot a = Some i ↔ a = Some (Z.of_nat i) ∧ Z.of_nat i < MAX_AGENTS.
Proof.
  unfold quota_slot. destruct a as [id|]; [|split; [done|by intros []]].
  destruct (Z.ltb_spec id 0), (Z.leb_spec MAX_AGENTS id); simpl; split; intros H'; simplify_eq;
    try (destruct H'; simplify_eq; lia); [split; [f_equal|]; lia|].
  destruct H'; simplify_eq. f_equal. lia.
Qed.

Lemma nth_alter_eq (l : list Z) f i : (i < length l)%nat → nth i (alter f i l) 0 = f (nth i l 0).
Proof.
  revert i; induction l as [|x l IH]; intros [|i]; simpl; intros; try lia. apply IH. lia.
Qed.

Lemma nth_alter_ne (l : list Z) f i j : i ≠ j → nth j (alter f i l) 0 = nth j l 0.
Proof.
  revert i j; induction l as [|x l IH]; intros [|i] [|j] H; simpl; try done. apply IH. lia.
Qed.

Lemma Forall_nth_le (P : Z → Prop) l i : Forall P l → P 0 → P (nth i l 0).
Proof. intros Hl H0. revert i. induction Hl; intros [|i]; simpl; auto. Qed.

Lemma Forall_alter_at (P : Z → Prop) l f i :
  Forall P l → P (f (nth i l 0)) → Forall P (alter f i l).
Proof.
  intros Hl. revert i; induction Hl as [|x l Hx Hl IH]; intros [|i] H; simpl in *; constructor; auto.
  by apply IH.
Qed.

(** Charging after a passed check keeps the counters within the limits. *)
Lemma quota_ipc_charge_wf q a :
  quota_wf q → quota_ipc_allow q a = 0 → quota_wf (quota_ipc_charge a q).
Proof.
  intros [Hl1 Hl2 Hi Ht] Ha. unfold quota_ipc_charge, quota_ipc_allow, quota_ipc_used in *.
  destruct (quota_slot a) as [i|] eqn:E; [|by split].
  destruct a; [|done]. case_test; [done|]. bprop.
  split; simpl; [unfold zlen; by rewrite length_alter|done| |done].
  pose proof (Forall_nth_le _ _ i Hi) as Hn. unfold quota_ipc_max, QUOTA_IPC_MAX in *.
  apply Forall_alter_at; [done|]. rewrite i32_small; lia.
Qed.

Lemma quota_tool_charge_wf q a :
  quota_wf q → quota_tool_allow q a = 0 → quota_wf (quota_tool_charge a q).
Proof.
  intros [Hl1 Hl2 Hi Ht] Ha. unfold quota_tool_charge, quota_tool_allow, quota_tool_used in *.
  destruct (quota_slot a) as [i|] eqn:E; [|by split].
  destruct a; [|done]. case_test; [done|]. bprop.
  split; simpl; [done|unfold zlen; by rewrite length_alter|done|].
  pose proof (Forall_nth_le _ _ i Ht) as Hn. unfold quota_tool_max, QUOTA_TOOL_MAX in *.
  apply Forall_alter_at; [done|]. rewrite i32_small; lia.
Qed.

(** Charging adds one to the agent's own counter only. *)
Lemma quota_ipc_charge_used q a b :
  quota_wf q → 0 ≤ a < MAX_AGENTS → quota_ipc_used q (Some a) < 2147483647 →
  quota_ipc_used (quota_ipc_charge (Some a) q) (Some b) =
  quota_ipc_used q (Some b) + if decide (a = b) then 1 else 0.
Proof.
  intros Hw Ha Hs. assert (quota_slot (Some a) = Some (Z.to_nat a)) as Ea.
  { apply quota_slot_Some. split; [f_equal|]; lia. }
  pose proof (qw_ipc_len q Hw) as Hl. unfold zlen in Hl.
  unfold quota_ipc_used, quota_ipc_charge in *. rewrite Ea in *.
  destruct (quota_slot (Some b)) as [j|] eqn:Eb.
  - apply quota_slot_Some in Eb as [[= ->] Hb]. simpl. case_decide as E.
    + subst. rewrite Nat2Z.id in *. rewrite nth_alter_eq by lia. apply i32_small.
      pose proof (Forall_nth_le _ _ j (qw_ipc q Hw)) as Hn. unfold QUOTA_IPC_MAX in Hn. lia.
    + rewrite nth_alter_ne by lia. lia.
  - case_decide; [congruence|done].
Qed.

Lemma quota_tool_charge_used q a b :
  quota_wf q → 0 ≤ a < MAX_AGENTS → quota_tool_used q (Some a) < 2147483647 →
  quota_tool_used (quota_tool_charge (Some a) q) (Some b) =
  quota_tool_used q (Some b) + if decide (a = b) then 1 else 0.
Proof.
  intros Hw Ha Hs. assert (quota_slot (Some a) = Some (Z.to_nat a)) as Ea.
  { apply quota_slot_Some. split; [f_equal|]; lia. }
  pose proof (qw_tool_len q Hw) as Hl. unfold zlen in Hl.
  unfold quota_tool_used, quota_tool_charge in *. rewrite Ea in *.
  destruct (quota_slot (Some b)) as [j|] eqn:Eb.
  - apply quota_slot_Some in Eb as [[= ->] Hb]. simpl. case_decide as E.
    + subst. rewrite Nat2Z.id in *. rewrite nth_alter_eq by lia. apply i32_small.
      pose proof (Forall_nth_le _ _ j (qw_tool q Hw)) as Hn. unfold QUOTA_TOOL_MAX in Hn. lia.
    + rewrite nth_alter_ne by lia. lia.
  - case_decide; [congruence|done].
Qed.

(** ** The file limit *)

(** The agent number that [parse_agent_path_id] finds in a path built from
    a number. *)
Lemma parse_agent_path_dec id rest :
  0 ≤ id < 2147483648 →
  parse_agent_path_id (str "/agent/" ++ dec id ++ chr "/" :: rest) = Some id.
Proof.
  intros Hid. unfold parse_agent_path_id. rewrite cget_app_l by done.
  replace (cmatch _ 1 (str "agent/")) with true by done.
  rewrite (parse_id_dec (str "/agent/")) by done. done.
Qed.

Lemma ramfs_count_own id fs :
  0 ≤ id < 100000000 →
  ramfs_count_agent_files id fs
  = Ret (countb (λ f, f_used f && negb (is_sys_path (f_path f))
           && has_prefix (str "/agent/" ++ dec id ++ str "/") (f_path f)) fs, fs).
Proof. intros. unfold ramfs_count_agent_files, bind. rewrite dec_cap_8. by test_true (id <? 100000000). Qed.

(** The file quota: a new file directly under an agent's own directory
    is refused exactly when the agent already has 32 files there, and the check
    changes nothing. *)
Theorem quota_fs_limit fs id rest :
  0 ≤ id < 100000000 →
  let path := str "/agent/" ++ dec id ++ chr "/" :: rest in
  let own := countb (λ f, f_used f && negb (is_sys_path (f_path f))
               && has_prefix (str "/agent/" ++ dec id ++ str "/") (f_path f)) fs in
  quota_fs_allow_new (Some id) path fs =
  Ret (if negb (ramfs_path_exists fs path) && (QUOTA_FS_FILES <=? own) then ENOSPC else 0, fs).
Proof.
  intros Hid path own. unfold quota_fs_allow_new. unfold path. rewrite parse_agent_path_dec by lia.
  rewrite Z.eqb_refl. cbn [negb]. unfold bind, gets. fold path.
  destruct (ramfs_path_exists fs path); [done|]. cbn [negb andb quota_fs_used].
  rewrite ramfs_count_own by done. fold own. unfold quota_fs_max. by case_test.
Qed.

Lemma quota_fs_limit_witness :
  quota_fs_allow_new (Some 1) (str "/agent/1/a") zero_fs = Ret (0, zero_fs).
Proof.
  pose proof (quota_fs_limit zero_fs 1 (str "a") ltac:(lia)) as H.
  exact H.
Defined.

(** The file quota can be avoided: a path that spells the agent's own
    directory with a leading zero is recognised as the agent's own, but a file
    there never counts, so a new one is allowed however many there are while
    fewer than 32 files use the plain spelling. *)
Theorem quota_fs_leading_zero fs id rest :
  0 < id < 100000000 →
  let prefix := str "/agent/" ++ dec id ++ str "/" in
  let path := str "/agent/0" ++ dec id ++ chr "/" :: rest in
  countb (λ f, f_used f && negb (is_sys_path (f_path f)) && has_prefix prefix (f_path f)) fs
    < QUOTA_FS_FILES →
  parse_agent_path_id path = Some id
  ∧ has_prefix prefix path = false
  ∧ quota_fs_allow_new (Some id) path fs = Ret (0, fs).
Proof.
  intros Hid prefix path Hown.
  assert (parse_agent_path_id path = Some id) as Hparse.
  { unfold path, parse_agent_path_id. rewrite cget_app_l by done.
    replace (cmatch _ 1 (str "agent/")) with true by done. cbn [negb].
    change (str "/agent/0" ++ dec id ++ chr "/" :: rest)
      with (str "/agent/" ++ 48 :: dec id ++ chr "/" :: rest).
    unfold parse_id. rewrite cget_app_r by done. change (zlen (str "/agent/")) with 7.
    change (drop (Z.to_nat 7) _) with (48 :: dec id ++ chr "/" :: rest). cbn.
    change (i32 0) with 0. rewrite scan_dec by lia. rewrite scan_int_stop by done. done. }
  split; [done|]. split.
  - unfold prefix, path. destruct (dec_first_nonzero id) as (c & l & -> & Hc); [lia|].
    change (((c =? 48) && has_prefix (l ++ str "/") ((c :: l) ++ chr "/" :: rest)) = false).
    by test_false (c =? 48).
  - unfold quota_fs_allow_new. rewrite Hparse, Z.eqb_refl. cbn [negb]. unfold bind, gets.
    case_test; [done|]. cbn [quota_fs_used]. rewrite ramfs_count_own by lia.
    apply Z.leb_gt in Hown. change (quota_fs_max (Some id)) with QUOTA_FS_FILES. unfold prefix in Hown. by rewrite Hown.
Qed.

Lemma quota_fs_leading_zero_witness :
  quota_fs_allow_new (Some 1) (str "/agent/01/a") zero_fs = Ret (0, zero_fs).
Proof. apply (quota_fs_leading_zero zero_fs 1 (str "a")); [lia|reflexivity]. Defined.
