(* ===== verification/Tenant.v ===== *)
(** * Session ownership and quota (kernel/tenant.c)

    The quota on an agent's session log and the test that a session path
    belongs to an agent.  Everything reads the ramfs and changes nothing. *)

From S2P Require Import Prelude Ramfs Paths.

Definition TENANT_SESSION_QUOTA : Z := 640.

(** The agent number of a session path, or -1.  The text compared before the
    number is /sessio/agent/. *)
Definition parse_session_agent_id (path : list Z) : Z :=
  if negb (cmatch path 1 (str "sessio/")) then -1
  else if negb (cmatch path 8 (str "agent/")) then -1
  else match parse_id path 14 with
       | None => -1
       | Some (id, rest) =>
           if negb (cget rest 0 =? chr "/") then -1
           else if negb (cmatch rest 1 (str "log" ++ [0])) then -1
           else id
       end.

(** The session log of an agent, as [tenant_session_usage] and
    [tenant_probe_cross_read] build it. *)
Definition session_path (id : Z) : option (list Z) :=
  agent_path (str "/session/agent/") (str "/log") id.

Definition tenant_session_usage (a : option Z) : M ramfs Z :=
  match a with
  | None => ret 0
  | Some id =>
      let! path := orundef (session_path id) in
      gets (λ fs, file_usage fs path)
  end.

Definition tenant_session_quota (a : option Z) : Z := TENANT_SESSION_QUOTA.

Definition tenant_session_allow (a : option Z) (add_bytes : Z) : M ramfs Z :=
  match a with
  | None => ret EINVAL
  | Some _ =>
      if add_bytes <? 0 then ret EINVAL
      else
        let! used := tenant_session_usage a in
        let quota := tenant_session_quota a in
        if quota <? used + add_bytes then ret ENOSPC else ret 0
  end.

Definition tenant_session_path_ok (a : option Z) (path : list Z) : bool :=
  match a with
  | None => false
  | Some aid => let id := parse_session_agent_id path in if id <? 0 then false else id =? aid
  end.

Definition tenant_probe_cross_read (a : option Z) (target_id : Z) : M ramfs Z :=
  match a with
  | None => ret EINVAL
  | Some aid =>
      if target_id =? aid then ret 0
      else
        let! path := orundef (session_path target_id) in
        if negb (tenant_session_path_ok a path) then ret EPERM
        else
          let! r := gets (λ fs, ramfs_read fs path 0 15) in
          if r.1 <? 0 then ret r.1 else ret 0
  end.

(** ** Properties *)

Lemma session_path_small id :
  id < 100000000 → session_path id = Some (str "/session/agent/" ++ dec id ++ str "/log").
Proof. apply agent_path_small. Qed.

Lemma session_path_ok id :
  id < 100000000 → path_ok (str "/session/agent/" ++ dec id ++ str "/log").
Proof. intros. apply agent_path_ok; [solve_bytes|solve_bytes|done|done]. Qed.

Lemma tenant_usage_spec fs id :
  ramfs_wf fs → id < 100000000 →
  tenant_session_usage (Some id) fs
  = Ret (usage_of (fs_get fs (str "/session/agent/" ++ dec id ++ str "/log")), fs).
Proof.
  intros Hw Hid. unfold tenant_session_usage, bind. rewrite session_path_small by done. simpl.
  unfold gets. by rewrite file_usage_spec.
Qed.

Lemma tenant_allow_spec fs id n :
  ramfs_wf fs → id < 100000000 → 0 ≤ n →
  tenant_session_allow (Some id) n fs
  = Ret (if TENANT_SESSION_QUOTA <?
            usage_of (fs_get fs (str "/session/agent/" ++ dec id ++ str "/log")) + n
         then ENOSPC else 0, fs).
Proof.
  intros Hw Hid Hn. unfold tenant_session_allow. test_false (n <? 0). unfold bind.
  rewrite tenant_usage_spec by done. unfold tenant_session_quota. by destruct (TENANT_SESSION_QUOTA <? _).
Qed.

(** The ownership test looks for /sessio/, so it fails on every path that
    starts with /session. *)
Lemma session_path_rejected a rest : tenant_session_path_ok a (str "/session" ++ rest) = false.
Proof. destruct a; done. Qed.

(** No agent owns any session path: the ownership test compares with
    /sessio/ and rejects every path under /session, an agent's own log
    included; the probe that is meant to tell an agent's own log from another
    agent's therefore answers EPERM for every other agent without looking at
    any file, and it has no effect. *)
Theorem tenant_session_unowned aid target fs :
  0 ≤ target < 100000000 →
  tenant_session_path_ok (Some aid) (str "/session/agent/" ++ dec aid ++ str "/log") = false
  ∧ tenant_probe_cross_read (Some aid) target fs
    = Ret (if target =? aid then 0 else EPERM, fs).
Proof.
  intros Ht. split; [apply session_path_rejected|].
  unfold tenant_probe_cross_read. case_test; [done|]. unfold bind.
  rewrite session_path_small by lia. cbn [orundef ret].
  pose proof (session_path_rejected (Some aid) (str "/agent/" ++ dec target ++ str "/log")) as H.
  change (str "/session" ++ _) with (str "/session/agent/" ++ dec target ++ str "/log") in H.
  by rewrite H.
Qed.

Lemma tenant_session_unowned_witness :
  tenant_session_path_ok (Some 3) (str "/session/agent/3/log") = false
  ∧ tenant_probe_cross_read (Some 3) 4 zero_fs = Ret (EPERM, zero_fs).
Proof. apply (tenant_session_unowned 3 4 zero_fs). lia. Defined.
