(* ===== verification/Namespace.v ===== *)
(** * Per-agent home directories (kernel/namespace.c)

    Paths /ns/agent/<id>/home/... belong to one agent; the home quota applies
    to the file named secret.  The theorems characterise ownership: the path
    test accepts exactly the paths whose number is the agent's, so a path built
    for one agent is accepted for that agent alone. *)

From S2P Require Import Prelude Ramfs Paths.

Definition NAMESPACE_HOME_QUOTA : Z := 256.
Definition NAMESPACE_SECRET : list Z := str "secret".

Definition parse_namespace_agent_id (path : list Z) : Z :=
  if negb (cmatch path 1 (str "ns/")) then -1
  else if negb (cmatch path 4 (str "agent/")) then -1
  else match parse_id path 10 with
       | None => -1
       | Some (id, rest) =>
           if negb (cget rest 0 =? chr "/") then -1
           else if negb (cmatch rest 1 (str "home/")) then -1
           else id
       end.

Definition namespace_is_path (path : list Z) : bool :=
  if negb (cget path 0 =? chr "/") then false else cmatch path 1 (str "ns/").

Definition namespace_root_for (agent_id : Z) : option (list Z) :=
  agent_path (str "/ns/agent/") (str "/home") agent_id.

(** The name is cut to what fits in the path buffer. *)
Definition namespace_file_for (agent_id : Z) (name : list Z) : option (list Z) :=
  root ← namespace_root_for agent_id;
  let base := root ++ str "/" in
  Some (base ++ take (Z.to_nat (RAMFS_PATH_MAX - 1 - zlen base)) name).

Definition namespace_home_usage (a : option Z) : M ramfs Z :=
  match a with
  | None => ret 0
  | Some id =>
      let! path := orundef (namespace_file_for id NAMESPACE_SECRET) in
      gets (λ fs, file_usage fs path)
  end.

Definition namespace_home_quota (a : option Z) : Z := NAMESPACE_HOME_QUOTA.

Definition namespace_path_ok (a : option Z) (path : list Z) : bool :=
  match a with
  | None => false
  | Some aid =>
      if negb (namespace_is_path path) then false
      else let id := parse_namespace_agent_id path in if id <? 0 then false else id =? aid
  end.

Definition namespace_write_secret (a : option Z) (data : list Z) (len : Z) : M ramfs Z :=
  match a with
  | None => ret EINVAL
  | Some id =>
      if len <=? 0 then ret EINVAL
      else
        let! used := namespace_home_usage a in
        let quota := namespace_home_quota a in
        if quota <? used + len then ret ENOSPC
        else
          let! path := orundef (namespace_file_for id NAMESPACE_SECRET) in
          act (λ fs, ramfs_put fs path data len)
  end.

Definition namespace_probe_cross_read (a : option Z) (target_id : Z) : M ramfs Z :=
  match a with
  | None => ret EINVAL
  | Some aid =>
      if target_id =? aid then ret 0
      else
        let! path := orundef (namespace_file_for target_id NAMESPACE_SECRET) in
        if negb (namespace_path_ok a path) then ret EPERM
        else
          let! r := gets (λ fs, ramfs_read fs path 0 31) in
          if r.1 <? 0 then ret r.1 else ret 0
  end.

Definition namespace_status (a : option Z) : M ramfs Z :=
  match a with
  | None => ret EINVAL
  | Some id =>
      let! _ := orundef (namespace_root_for id) in
      namespace_home_usage a
  end.

(** ** Ownership *)

(** The file [name] in the home of an agent. *)
Definition home_path (id : Z) (name : list Z) : list Z :=
  str "/ns/agent/" ++ dec id ++ str "/home/" ++ name.

Lemma parse_home id name :
  0 ≤ id < 2147483648 → parse_namespace_agent_id (home_path id name) = id.
Proof.
  intros Hid. unfold parse_namespace_agent_id, home_path.
  replace (cmatch _ 1 (str "ns/")) with true by done.
  replace (cmatch _ 4 (str "agent/")) with true by done. cbn [negb].
  change (dec id ++ str "/home/" ++ name) with (dec id ++ chr "/" :: str "home/" ++ name).
  rewrite (parse_id_dec (str "/ns/agent/")) by done. done.
Qed.

Lemma home_path_ok a id name :
  0 ≤ id < 2147483648 → namespace_path_ok (Some a) (home_path id name) = (id =? a).
Proof.
  intros Hid. unfold namespace_path_ok. rewrite parse_home by done.
  replace (namespace_is_path _) with true by done. cbn [negb]. by test_false (id <? 0).
Qed.

Lemma namespace_file_for_secret id :
  id < 100000000 → namespace_file_for id NAMESPACE_SECRET = Some (home_path id NAMESPACE_SECRET).
Proof.
  intros Hid. unfold namespace_file_for, namespace_root_for. rewrite agent_path_small by done. simpl.
  f_equal. unfold home_path. rewrite take_ge.
  - rewrite <- !app_assoc. done.
  - pose proof (zlen_dec_le id Hid). rewrite !zlen_cons, !zlen_app in *.
    unfold RAMFS_PATH_MAX. change (length NAMESPACE_SECRET) with 6%nat.
    repeat (rewrite zlen_cons || rewrite zlen_app). change (zlen (str "/home")) with 5.
    unfold zlen in *; simpl; lia.
Qed.

(** The digits and the rest of an accepted path, for the converse. *)
Lemma namespace_path_shape a path :
  namespace_path_ok (Some a) path = true →
  ∃ ds rest, path = str "/ns/agent/" ++ ds ++ str "/home/" ++ rest
    ∧ ds ≠ [] ∧ Forall (λ c, is_digit c = true) ds.
Proof.
  unfold namespace_path_ok, parse_namespace_agent_id, namespace_is_path.
  destruct (cget path 0 =? chr "/") eqn:E0; [|done]. cbn [negb].
  destruct (cmatch path 1 (str "ns/")) eqn:E1; [|done]. cbn [negb].
  destruct (cmatch path 4 (str "agent/")) eqn:E2; [|done]. cbn [negb].
  assert (cmatch path 0 (str "/ns/agent/") = true) as Em.
  { change (str "/ns/agent/") with (str "/" ++ str "ns/" ++ str "agent/").
    rewrite !cmatch_lit_app. change (0 + zlen (str "/")) with 1. change (1 + zlen (str "ns/")) with 4.
    rewrite E1, E2. change (str "/") with [chr "/"]. rewrite cmatch_cons, E0. done. }
  apply cmatch_spec in Em as [t ->]; [|by repeat constructor].
  unfold parse_id. destruct (is_digit _) eqn:Ed; [|done].
  change (drop (Z.to_nat 10) (str "/ns/agent/" ++ t)) with t.
  rewrite cget_app_r in Ed by done. change (10 - zlen (str "/ns/agent/")) with 0 in Ed.
  pose proof (scan_int_rest 0 t) as (ds & Et & Hds). destruct (scan_int 0 t) as [id rest]. simpl in Et.
  destruct (cget rest 0 =? chr "/") eqn:Er; [|done]. cbn [negb].
  destruct (cmatch rest 1 (str "home/")) eqn:Eh; [|done]. intros _.
  assert (cmatch rest 0 (str "/home/") = true) as Em.
  { change (str "/home/") with (chr "/" :: str "home/"). by rewrite cmatch_cons, Er. }
  apply cmatch_spec in Em as [rest' ->]; [|by repeat constructor].
  exists ds, rest'. split; [by rewrite Et|]. split; [|done].
  intros ->. subst t. by vm_compute in Ed.
Qed.

(** Home directories are isolated: a path in the home of an agent is
    accepted for exactly that agent, every accepted path lies in some home
    directory, and the probe answers 0 for the agent itself and EPERM for every
    other agent, reading nothing. *)
Theorem namespace_isolated a target name fs :
  0 ≤ target < 100000000 →
  namespace_path_ok (Some a) (home_path target name) = (target =? a)
  ∧ (∀ path, namespace_path_ok (Some a) path = true →
       ∃ ds rest, path = str "/ns/agent/" ++ ds ++ str "/home/" ++ rest
         ∧ ds ≠ [] ∧ Forall (λ c, is_digit c = true) ds)
  ∧ namespace_probe_cross_read (Some a) target fs = Ret (if target =? a then 0 else EPERM, fs).
Proof.
  intros Ht. split; [apply home_path_ok; lia|]. split; [intros path; apply namespace_path_shape|].
  unfold namespace_probe_cross_read. destruct (target =? a) eqn:E; [done|]. unfold bind.
  rewrite namespace_file_for_secret by lia. cbn [orundef ret].
  rewrite home_path_ok by lia. by rewrite E.
Qed.

Lemma namespace_isolated_witness :
  namespace_path_ok (Some 2) (home_path 2 (str "secret")) = true
  ∧ namespace_probe_cross_read (Some 2) 3 zero_fs = Ret (EPERM, zero_fs).
Proof.
  destruct (namespace_isolated 2 2 (str "secret") zero_fs) as (H & _ & _); [lia|].
  destruct (namespace_isolated 2 3 [] zero_fs) as (_ & _ & H2); [lia|]. by split.
Defined.

Lemma home_secret_ok id : id < 100000000 → path_ok (home_path id NAMESPACE_SECRET).
Proof.
  intros. unfold home_path. apply agent_path_ok; [solve_bytes|solve_bytes|done|done].
Qed.

Lemma namespace_usage_spec fs id :
  ramfs_wf fs → id < 100000000 →
  namespace_home_usage (Some id) fs
  = Ret (usage_of (fs_get fs (home_path id NAMESPACE_SECRET)), fs).
Proof.
  intros Hw Hid. unfold namespace_home_usage, bind. rewrite namespace_file_for_secret by done.
  cbn [orundef ret]. unfold gets. by rewrite file_usage_spec.
Qed.

(** Writing the secret replaces the agent's own secret file and touches
    no other file, within the home quota of 256 bytes; the quota test counts
    the old secret as well as the new one, although the old one is replaced.
    When it fails the file system is unchanged. *)
Theorem namespace_write_quota fs id d :
  ramfs_wf fs → 0 ≤ id < 100000000 → bytes_ok d → 0 < zlen d < 2147483648 →
  let secret := home_path id NAMESPACE_SECRET in
  let used := usage_of (fs_get fs secret) in
  ∃ rc fs', namespace_write_secret (Some id) d (zlen d) fs = Ret (rc, fs')
    ∧ ramfs_wf fs' ∧ (∀ q, q ≠ secret → fs_get fs' q = fs_get fs q)
    ∧ ((rc = 0 ∧ fs_get fs' secret = Some d ∧ used + zlen d ≤ NAMESPACE_HOME_QUOTA)
       ∨ (rc = ENOSPC ∧ fs' = fs
          ∧ (NAMESPACE_HOME_QUOTA < used + zlen d ∨ (fs_full fs ∧ fs_get fs secret = None)))).
Proof.
  intros Hw Hid Hd Hl secret used. unfold namespace_write_secret. test_false (zlen d <=? 0).
  unfold bind at 1. rewrite namespace_usage_spec by (done || lia). fold secret used.
  unfold namespace_home_quota. destruct (Z.ltb_spec NAMESPACE_HOME_QUOTA (used + zlen d)) as [Hq|Hq].
  { exists ENOSPC, fs. split_and!; try done. right. auto. }
  unfold bind. rewrite namespace_file_for_secret by lia. cbn [orundef ret]. unfold act. fold secret.
  assert (0 ≤ used) as Hu by (unfold used, usage_of; destruct (fs_get fs secret); lia).
  pose proof (ramfs_put_spec fs secret d Hw (home_secret_ok id ltac:(lia)) Hd) as Hput.
  destruct (ramfs_put fs secret d (zlen d)) as [rc fs'].
  destruct Hput as [(-> & ? & ? & ?)|(-> & -> & ? & ?)].
  - unfold RAMFS_FILE_SIZE, NAMESPACE_HOME_QUOTA in *. lia.
  - exists 0, fs'. split_and!; try done. by left.
  - exists ENOSPC, fs. split_and!; try done. right. auto.
Qed.

Lemma namespace_write_quota_witness :
  ∃ fs', namespace_write_secret (Some 2) (str "key") 3 zero_fs = Ret (0, fs')
    ∧ fs_get fs' (home_path 2 NAMESPACE_SECRET) = Some (str "key").
Proof.
  destruct (namespace_write_quota zero_fs 2 (str "key") zero_fs_wf) as (rc & fs' & E & _ & _ & H);
    [lia|solve_bytes|done|].
  rewrite zero_fs_get in H. destruct H as [(-> & H & _)|(_ & _ & [H|[F _]])].
  - exists fs'. split; [exact E|exact H].
  - done.
  - by destruct (zero_fs_not_full F).
Defined.
