(* ===== verification/AuditLog.v ===== *)
(** * Per-agent audit logs (kernel/audit.c)

    Every agent has a log /audit/agent/<id>/tool.log of at most 512 bytes.
    [audit_write] appends a record, [audit_compact] keeps the last lines,
    [audit_tail] and [audit_probe_cross_read] read.  Theorems: an append is
    exact and bounded, compaction keeps the last lines verbatim, and paths are
    owned by one agent. *)

From S2P Require Import Prelude Abi Ramfs Paths.

Definition AUDIT_QUOTA_BYTES : Z := 512.
Definition AUDIT_COMPACT_MAX_LINES : Z := 256.

Definition parse_audit_agent_id (path : list Z) : Z :=
  if negb (cmatch path 1 (str "audit/")) then -1
  else if negb (cmatch path 7 (str "agent/")) then -1
  else match parse_id path 13 with
       | None => -1
       | Some (id, rest) =>
           if negb (cget rest 0 =? chr "/") then -1
           else if negb (cmatch rest 1 (str "tool.log" ++ [0])) then -1
           else id
       end.

Definition audit_path_for (agent_id : Z) : option (list Z) :=
  agent_path (str "/audit/agent/") (str "/tool.log") agent_id.

Definition audit_usage (a : option Z) : M ramfs Z :=
  match a with
  | None => ret 0
  | Some id =>
      let! path := orundef (audit_path_for id) in
      gets (λ fs, file_usage fs path)
  end.

Definition audit_quota (a : option Z) : Z := AUDIT_QUOTA_BYTES.

Definition audit_allow_append (a : option Z) (add_bytes : Z) : M ramfs Z :=
  match a with
  | None => ret EINVAL
  | Some _ =>
      if add_bytes <? 0 then ret EINVAL
      else
        let! used := audit_usage a in
        let quota := audit_quota a in
        if quota <? used + add_bytes then ret ENOSPC else ret 0
  end.

Definition audit_path_ok (a : option Z) (path : list Z) : bool :=
  match a with
  | None => false
  | Some aid => let id := parse_audit_agent_id path in if id <? 0 then false else id =? aid
  end.

Definition audit_probe_cross_read (a : option Z) (target_id : Z) : M ramfs Z :=
  match a with
  | None => ret EINVAL
  | Some aid =>
      if target_id =? aid then ret 0
      else
        let! path := orundef (audit_path_for target_id) in
        if negb (audit_path_ok a path) then ret EPERM
        else
          let! r := gets (λ fs, ramfs_read fs path 0 15) in
          if r.1 <? 0 then ret r.1 else ret 0
  end.

Definition audit_write (a : option Z) (data : list Z) (len : Z) : M ramfs Z :=
  match a with
  | None => ret EINVAL
  | Some id =>
      if len <=? 0 then ret EINVAL
      else
        let! rc := audit_allow_append a len in
        if negb (rc =? 0) then ret rc
        else
          let! path := orundef (audit_path_for id) in
          let! used := audit_usage a in
          if used <=? 0 then act (λ fs, ramfs_put fs path data len)
          else if RAMFS_FILE_SIZE <=? used + len then ret ENOSPC
          else
            let! r := gets (λ fs, ramfs_read fs path 0 used) in
            if r.1 <? 0 then ret r.1
            else act (λ fs, ramfs_put fs path (r.2 ++ take (Z.to_nat len) data) (r.1 + len))
  end.

(** The starts of lines after the first: the positions after a newline that is
    not the last byte. *)
Fixpoint line_starts_from (i : Z) (buf : list Z) : list Z :=
  match buf with
  | [] => []
  | c :: buf' =>
      if (c =? 10) && negb (zlen buf' =? 0)
      then (i + 1) :: line_starts_from (i + 1) buf' else line_starts_from (i + 1) buf'
  end.

(** The table of starts holds at most 255 of them. *)
Definition line_starts (buf : list Z) : list Z :=
  take (Z.to_nat (AUDIT_COMPACT_MAX_LINES - 1)) (0 :: line_starts_from 0 buf).

Definition audit_compact (a : option Z) (keep_lines : Z) : M ramfs Z :=
  match a with
  | None => ret EINVAL
  | Some id =>
      let k1 := if keep_lines <? 1 then 1 else keep_lines in
      let keep := if 32 <? k1 then 32 else k1 in
      let! path := orundef (audit_path_for id) in
      let! r := gets (λ fs, ramfs_read fs path 0 RAMFS_FILE_SIZE) in
      let '(n, buf) := r in
      if n <=? 0 then ret 0
      else
        let starts := line_starts buf in
        let line_count := zlen starts in
        if line_count <=? keep then audit_usage a
        else
          let start := nth (Z.to_nat (line_count - keep)) starts 0 in
          let head := str "compact: "
            ++ (if 10 <=? keep then [48 + keep / 10] else []) ++ [48 + keep mod 10] ++ [10] in
          let out := head
            ++ take (Z.to_nat (RAMFS_FILE_SIZE - 1 - zlen head)) (drop (Z.to_nat start) buf) in
          let pos := zlen out in
          act (λ fs, ramfs_put fs path out pos) ;;
          ret pos
  end.

Definition audit_tail (a : option Z) (max_bytes : Z) : M ramfs Z :=
  match a with
  | None => ret EINVAL
  | Some id =>
      let max := if (max_bytes <=? 0) || (AUDIT_TAIL_MAX <? max_bytes) then AUDIT_TAIL_MAX else max_bytes in
      let! path := orundef (audit_path_for id) in
      let! used := audit_usage a in
      if used <=? 0 then ret 0
      else
        let s0 := used - max in
        let start := if s0 <? 0 then 0 else s0 in
        let! r := gets (λ fs, ramfs_read fs path start max) in
        if r.1 <=? 0 then ret (if r.1 <? 0 then r.1 else EIO) else ret r.1
  end.

(** ** Lemmas *)

Definition log_path (id : Z) : list Z := str "/audit/agent/" ++ dec id ++ str "/tool.log".

Lemma audit_path_small id : id < 100000000 → audit_path_for id = Some (log_path id).
Proof. apply agent_path_small. Qed.

Lemma log_path_ok id : id < 100000000 → path_ok (log_path id).
Proof. intros. apply agent_path_ok; [solve_bytes|solve_bytes|done|done]. Qed.

Lemma parse_log id : 0 ≤ id < 2147483648 → parse_audit_agent_id (log_path id) = id.
Proof.
  intros Hid. unfold parse_audit_agent_id, log_path.
  replace (cmatch _ 1 (str "audit/")) with true by done.
  replace (cmatch _ 7 (str "agent/")) with true by done. cbn [negb].
  change (dec id ++ str "/tool.log") with (dec id ++ chr "/" :: str "tool.log").
  rewrite (parse_id_dec (str "/audit/agent/")) by done. done.
Qed.

Lemma audit_path_ok_log a id : 0 ≤ id < 2147483648 → audit_path_ok (Some a) (log_path id) = (id =? a).
Proof. intros Hid. unfold audit_path_ok. rewrite parse_log by done. by test_false (id <? 0). Qed.

Lemma audit_usage_spec fs id :
  ramfs_wf fs → id < 100000000 → audit_usage (Some id) fs = Ret (usage_of (fs_get fs (log_path id)), fs).
Proof.
  intros Hw Hid. unfold audit_usage, bind. rewrite audit_path_small by done. cbn [orundef ret].
  unfold gets. by rewrite file_usage_spec.
Qed.

Lemma audit_allow_spec fs id n :
  ramfs_wf fs → id < 100000000 → 0 ≤ n →
  audit_allow_append (Some id) n fs
  = Ret (if AUDIT_QUOTA_BYTES <? usage_of (fs_get fs (log_path id)) + n then ENOSPC else 0, fs).
Proof.
  intros Hw Hid Hn. unfold audit_allow_append. test_false (n <? 0). unfold bind.
  rewrite audit_usage_spec by done. unfold audit_quota. by destruct (AUDIT_QUOTA_BYTES <? _).
Qed.

(** [audit_write] in one formula: within the quota the record is appended to
    the log; otherwise nothing changes. *)
Lemma audit_write_spec fs id d :
  ramfs_wf fs → 0 ≤ id < 100000000 → bytes_ok d → 0 < zlen d < 2147483648 →
  let log := log_path id in
  let old := default [] (fs_get fs log) in
  ∃ rc fs', audit_write (Some id) d (zlen d) fs = Ret (rc, fs')
    ∧ ramfs_wf fs' ∧ (∀ q, q ≠ log → fs_get fs' q = fs_get fs q)
    ∧ ((rc = 0 ∧ fs_get fs' log = Some (old ++ d)
        ∧ usage_of (fs_get fs log) + zlen d ≤ AUDIT_QUOTA_BYTES)
       ∨ (rc = ENOSPC ∧ fs' = fs
          ∧ (AUDIT_QUOTA_BYTES < usage_of (fs_get fs log) + zlen d
             ∨ (fs_full fs ∧ fs_get fs log = None)))).
Proof.
  intros Hw Hid Hd Hl log old. unfold audit_write. test_false (zlen d <=? 0).
  unfold bind at 1. rewrite audit_allow_spec by (done || lia). fold log.
  destruct (Z.ltb_spec AUDIT_QUOTA_BYTES (usage_of (fs_get fs log) + zlen d)) as [Hq|Hq].
  { exists ENOSPC, fs. split_and!; try done. right. auto. }
  cbn [negb Z.eqb]. unfold bind at 1. rewrite audit_path_small by lia. cbn [orundef ret]. fold log.
  unfold bind at 1. rewrite audit_usage_spec by (done || lia). fold log.
  pose proof (ramfs_put_spec fs log (old ++ d) Hw (log_path_ok id ltac:(lia))) as Hput.
  rewrite zlen_app in Hput. unfold AUDIT_QUOTA_BYTES in *.
  destruct (fs_get fs log) as [c|] eqn:Hg; cbn [usage_of default] in *.
  - unfold Datatypes.id in *. destruct (fs_get_size fs log c Hw Hg) as [Hcl Hcb].
    pose proof (zlen_nonneg c).
    test_false (Z.max 1 (zlen c) <=? 0). unfold RAMFS_FILE_SIZE in *.
    test_false (8192 <=? Z.max 1 (zlen c) + zlen d). unfold bind, gets.
    rewrite (ramfs_read_all fs log c) by (done || lia). cbn [fst snd]. test_false (zlen c <? 0).
    unfold act. replace (Z.to_nat (zlen d)) with (length d) by (unfold zlen; lia). rewrite firstn_all.
    subst old. destruct (ramfs_put fs log (c ++ d) (zlen c + zlen d)) as [rc fs'].
    destruct Hput as [(-> & ? & ? & ?)|(-> & -> & ? & ?)]; [by apply Forall_app_2|lia| |done].
    exists 0, fs'. split_and!; try done. by left.
  - change (0 <=? 0) with true. cbn iota. unfold act. subst old. cbn [app] in Hput. change (zlen (@nil Z)) with 0 in Hput. rewrite Z.add_0_l in Hput.
    destruct (ramfs_put fs log d (zlen d)) as [rc fs'].
    destruct Hput as [(-> & ? & ? & ?)|(-> & -> & ? & ?)]; [done|unfold RAMFS_FILE_SIZE; lia| |].
    + exists 0, fs'. split_and!; try done. by left.
    + exists ENOSPC, fs. split_and!; try done. right. auto.
Qed.

(** Appending to the audit log: the record is added after the existing
    log exactly when the result stays within the 512-byte quota and there is a
    slot for it, no other file is touched, and otherwise the call reports
    ENOSPC and nothing at all changes.  A log within its quota stays within. *)
Theorem audit_append_exact fs id d :
  ramfs_wf fs → 0 ≤ id < 100000000 → bytes_ok d → 0 < zlen d < 2147483648 →
  let log := log_path id in
  let old := default [] (fs_get fs log) in
  ∃ rc fs', audit_write (Some id) d (zlen d) fs = Ret (rc, fs')
    ∧ ramfs_wf fs' ∧ (∀ q, q ≠ log → fs_get fs' q = fs_get fs q)
    ∧ ((rc = 0 ∧ fs_get fs' log = Some (old ++ d) ∧ zlen (old ++ d) ≤ AUDIT_QUOTA_BYTES)
       ∨ (rc = ENOSPC ∧ fs' = fs)).
Proof.
  intros Hw Hid Hd Hl log old.
  destruct (audit_write_spec fs id d Hw Hid Hd Hl) as (rc & fs' & E & Hw' & Ho & H).
  exists rc, fs'. split_and!; try done. fold log in H. fold old in H.
  destruct H as [(-> & Hg & Hq)|(-> & -> & _)]; [left|by right].
  split_and!; try done. rewrite zlen_app. unfold old.
  destruct (fs_get fs log); unfold usage_of in Hq; simpl in *; unfold zlen in *; simpl; lia.
Qed.

Lemma audit_append_exact_witness :
  ∃ fs', audit_write (Some 1) (str "tool=3 rc=0") 11 zero_fs = Ret (0, fs')
    ∧ fs_get fs' (log_path 1) = Some (str "tool=3 rc=0").
Proof.
  destruct (audit_append_exact zero_fs 1 (str "tool=3 rc=0") zero_fs_wf)
    as (rc & fs' & E & _ & _ & H); [lia|solve_bytes|done|].
  destruct H as [(-> & H & _)|(-> & ->)].
  - rewrite zero_fs_get in H. exists fs'. by split.
  - exfalso. destruct (audit_write_spec zero_fs 1 (str "tool=3 rc=0") zero_fs_wf)
      as (rc & fs' & E' & _ & _ & H); [lia|solve_bytes|done|].
    change (zlen (str "tool=3 rc=0")) with 11 in *. rewrite E in E'. injection E' as <- <-.
    rewrite zero_fs_get in H. destruct H as [(? & _)|(_ & _ & [?|[F _]])]; try done.
Defined.

(** Audit logs are isolated: the path of an agent's log is accepted for
    that agent alone, and a probe of another agent's log gets EPERM with no
    effect. *)
Theorem audit_isolated a target fs :
  0 ≤ target < 100000000 →
  audit_path_ok (Some a) (log_path target) = (target =? a)
  ∧ audit_probe_cross_read (Some a) target fs = Ret (if target =? a then 0 else EPERM, fs).
Proof.
  intros Ht. split; [apply audit_path_ok_log; lia|].
  unfold audit_probe_cross_read. destruct (target =? a) eqn:E; [done|]. unfold bind.
  rewrite audit_path_small by lia. cbn [orundef ret]. rewrite audit_path_ok_log by lia. by rewrite E.
Qed.

Lemma audit_isolated_witness : audit_probe_cross_read (Some 2) 3 zero_fs = Ret (EPERM, zero_fs).
Proof. apply (audit_isolated 2 3 zero_fs). lia. Defined.

(** Probing with an agent number of nine digits or more (the number comes
    from the caller of the tool) writes past the eight-entry digit array. *)
Theorem audit_probe_overflow a target fs :
  100000000 ≤ target → target ≠ a → audit_probe_cross_read (Some a) target fs = Undef.
Proof.
  intros Ht Hne. unfold audit_probe_cross_read. test_false (target =? a). unfold bind.
  unfold audit_path_for. by rewrite agent_path_large.
Qed.

Lemma audit_probe_overflow_witness : audit_probe_cross_read (Some 2) 123456789 zero_fs = Undef.
Proof. apply audit_probe_overflow; [lia|done]. Defined.

(** ** Compaction *)

(** The number of lines of a log: a newline at its very end starts no line. *)
Definition line_count (buf : list Z) : Z := 1 + zlen (line_starts_from 0 buf).

Lemma line_starts_shift i j buf :
  length (line_starts_from i buf) = length (line_starts_from j buf).
Proof.
  revert i j; induction buf as [|c buf IH]; intros i j; [done|]. cbn [line_starts_from].
  case_test; simpl; erewrite IH; done.
Qed.

(** The start with index [k] splits the log after a newline, and the lines
    after it are the ones from that start on. *)
Lemma line_starts_nth i buf k :
  (k < length (line_starts_from i buf))%nat →
  ∃ pre suf, buf = pre ++ 10 :: suf ∧ suf ≠ []
    ∧ nth k (line_starts_from i buf) 0 = i + zlen pre + 1
    ∧ (length (line_starts_from 0 suf) + k + 1 = length (line_starts_from i buf))%nat.
Proof.
  revert i k; induction buf as [|c buf IH]; intros i k Hk; [simpl in Hk; lia|].
  cbn [line_starts_from] in *. destruct (_ && _) eqn:E; simpl in Hk.
  - bprop. subst. destruct k as [|k].
    + exists [], buf. split; [done|]. split; [by intros ->|]. split; [simpl; unfold zlen; simpl; lia|].
      rewrite (line_starts_shift 0 (i + 1)). simpl. lia.
    + destruct (IH (i + 1) k) as (pre & suf & -> & Hs & Hn & Hl); [lia|].
      exists (10 :: pre), suf. split_and!; try done.
      * simpl nth. rewrite Hn, zlen_cons. lia.
      * simpl length. lia.
  - destruct (IH (i + 1) k) as (pre & suf & -> & Hs & Hn & Hl); [lia|].
    exists (c :: pre), suf. split_and!; try done. rewrite Hn, zlen_cons. lia.
Qed.

(** The heading of a compacted log. *)
Definition compact_head (keep : Z) : list Z :=
  str "compact: " ++ (if 10 <=? keep then [48 + keep / 10] else []) ++ [48 + keep mod 10] ++ [10].

Lemma zlen_compact_head keep : 11 ≤ zlen (compact_head keep) ≤ 12.
Proof. unfold compact_head. case_test; unfold zlen; simpl; lia. Qed.

Lemma compact_head_bytes keep : 1 ≤ keep ≤ 32 → bytes_ok (compact_head keep).
Proof.
  intros Hk. unfold compact_head. apply Forall_app_2; [solve_bytes|]. apply Forall_app_2.
  - case_test; [|constructor]. repeat constructor; unfold byte_ok; Z.to_euclidean_division_equations; lia.
  - repeat constructor; unfold byte_ok; Z.to_euclidean_division_equations; lia.
Qed.

Lemma compact_split buf keep :
  1 ≤ keep < line_count buf → line_count buf < AUDIT_COMPACT_MAX_LINES →
  ∃ pre suf, buf = pre ++ 10 :: suf ∧ line_count suf = keep
    ∧ line_starts buf = 0 :: line_starts_from 0 buf
    ∧ nth (Z.to_nat (zlen (line_starts buf) - keep)) (line_starts buf) 0 = zlen pre + 1.
Proof.
  unfold line_count, AUDIT_COMPACT_MAX_LINES. intros Hk Hm. unfold zlen in Hk, Hm.
  assert (line_starts buf = 0 :: line_starts_from 0 buf) as El.
  { unfold line_starts. apply take_ge. unfold AUDIT_COMPACT_MAX_LINES. simpl length. lia. }
  rewrite El, zlen_cons. unfold zlen.
  replace (Z.to_nat (1 + Z.of_nat (length (line_starts_from 0 buf)) - keep))
    with (S (Z.to_nat (Z.of_nat (length (line_starts_from 0 buf)) - keep))) by lia.
  destruct (line_starts_nth 0 buf (Z.to_nat (Z.of_nat (length (line_starts_from 0 buf)) - keep)))
    as (pre & suf & E & _ & Hn & Hl); [lia|].
  exists pre, suf. split; [done|]. split; [lia|]. split; [done|]. cbn [nth]. rewrite Hn. unfold zlen. lia.
Qed.

(** Whatever the log holds, compaction terminates and touches no other file. *)
Lemma audit_compact_frame fs id keep :
  ramfs_wf fs → 0 ≤ id < 100000000 →
  ∃ rc fs', audit_compact (Some id) keep fs = Ret (rc, fs') ∧ ramfs_wf fs'
    ∧ ∀ q, q ≠ log_path id → fs_get fs' q = fs_get fs q.
Proof.
  intros Hw Hid. unfold audit_compact. set (k := if 32 <? _ then 32 else _).
  assert (1 ≤ k ≤ 32) as Hk by (unfold k; repeat case_test; bprop; lia).
  unfold bind at 1. rewrite audit_path_small by lia. cbn [orundef ret]. unfold bind at 1, gets.
  rewrite ramfs_read_spec by (done || unfold RAMFS_FILE_SIZE; lia).
  destruct (fs_get fs (log_path id)) as [c|] eqn:Hg; [|by exists 0, fs]. cbv zeta.
  destruct (fs_get_size fs _ _ Hw Hg) as [_ Hb]. set (n := Z.max 0 _).
  destruct (n <=? 0); [by exists 0, fs|].
  destruct (zlen (line_starts (sub c 0 n)) <=? k).
  { rewrite audit_usage_spec by (done || lia). by eexists _, fs. }
  fold (compact_head k). set (out := compact_head k ++ _). pose proof (zlen_compact_head k).
  pose proof (ramfs_put_spec fs (log_path id) out Hw (log_path_ok id ltac:(lia))) as Hput.
  unfold bind, act, ret. destruct (ramfs_put fs (log_path id) out (zlen out)) as [rc fs'].
  exists (zlen out), fs'. split; [done|]. destruct Hput as [(_ & ? & _ & ?)|(_ & -> & _)]; [| |done|done].
  - apply Forall_app_2; [by apply compact_head_bytes|]. apply Forall_take, Forall_drop, Forall_take, Forall_drop, Hb.
  - unfold out. rewrite zlen_app. match goal with |- context [take ?m ?l] => pose proof (length_take l m) end.
    unfold zlen, RAMFS_FILE_SIZE in *. lia.
Qed.

(** Compaction keeps the last lines: a log with more lines than asked for
    (and fewer than 256) is replaced by a heading followed by exactly its last
    [keep] lines, byte for byte; the size of the new log is the result and no
    other file changes. *)
Theorem audit_compact_keeps fs id buf keep :
  ramfs_wf fs → 0 ≤ id < 100000000 → fs_get fs (log_path id) = Some buf →
  1 ≤ keep ≤ 32 → keep < line_count buf < AUDIT_COMPACT_MAX_LINES →
  zlen buf + 12 < RAMFS_FILE_SIZE →
  ∃ pre suf fs', buf = pre ++ 10 :: suf ∧ line_count suf = keep
    ∧ audit_compact (Some id) keep fs = Ret (zlen (compact_head keep ++ suf), fs')
    ∧ fs_get fs' (log_path id) = Some (compact_head keep ++ suf)
    ∧ ramfs_wf fs' ∧ ∀ q, q ≠ log_path id → fs_get fs' q = fs_get fs q.
Proof.
  intros Hw Hid Hg Hk Hl Hsz.
  destruct (compact_split buf keep) as (pre & suf & E & Hc & Els & Hn); [lia|lia|].
  exists pre, suf. destruct (fs_get_size fs _ _ Hw Hg) as [_ Hb]. rewrite E in Hb.
  apply Forall_app in Hb as [_ Hb]. apply Forall_cons in Hb as [_ Hsuf]. subst buf.
  pose proof (zlen_compact_head keep) as Hh. pose proof (zlen_nonneg suf). pose proof (zlen_nonneg pre).
  rewrite zlen_app, zlen_cons in Hsz. unfold RAMFS_FILE_SIZE in Hsz.
  assert (1 < zlen (line_starts (pre ++ 10 :: suf))) as Hcnt.
  { rewrite Els, zlen_cons. unfold line_count in Hl at 1. lia. }
  unfold audit_compact. test_false (keep <? 1). test_false (32 <? keep). unfold bind at 1.
  rewrite audit_path_small by lia. cbn [orundef ret]. unfold bind at 1, gets.
  rewrite (ramfs_read_all fs _ _ RAMFS_FILE_SIZE Hw Hg)
    by (rewrite ?zlen_app, ?zlen_cons; unfold RAMFS_FILE_SIZE; lia).
  replace (zlen (pre ++ 10 :: suf) <=? 0) with false
    by (symmetry; apply Z.leb_gt; rewrite zlen_app, zlen_cons; lia).
  replace (zlen (line_starts (pre ++ 10 :: suf)) <=? keep) with false
    by (symmetry; apply Z.leb_gt; rewrite Els, zlen_cons; unfold line_count in Hl; lia).
  rewrite Hn. fold (compact_head keep).
  replace (drop (Z.to_nat (zlen pre + 1)) (pre ++ 10 :: suf)) with suf.
  2: { replace (Z.to_nat (zlen pre + 1)) with (S (length pre)) by (unfold zlen; lia).
       rewrite drop_app_ge by lia. by replace (S (length pre) - length pre)%nat with 1%nat by lia. }
  rewrite take_ge by (unfold RAMFS_FILE_SIZE, zlen in *; lia).
  pose proof (ramfs_put_spec fs (log_path id) (compact_head keep ++ suf) Hw (log_path_ok id ltac:(lia))) as Hput.
  unfold bind, act, ret. destruct (ramfs_put fs (log_path id) _ _) as [rc fs'].
  destruct Hput as [(-> & ? & ? & ?)|(_ & _ & _ & ?)]; [| |by exists fs'|congruence].
  - apply Forall_app_2; [by apply compact_head_bytes|done].
  - rewrite zlen_app. unfold RAMFS_FILE_SIZE. lia.
Qed.

(** A log of three records. *)
Definition demo_log : list Z := str "a" ++ [10] ++ str "b" ++ [10] ++ str "c" ++ [10].

Lemma audit_compact_keeps_witness :
  ∃ fs fs', audit_write (Some 1) demo_log 6 zero_fs = Ret (0, fs)
    ∧ audit_compact (Some 1) 2 fs = Ret (15, fs')
    ∧ fs_get fs' (log_path 1) = Some (str "compact: 2" ++ [10] ++ str "b" ++ [10] ++ str "c" ++ [10]).
Proof.
  destruct (audit_write_spec zero_fs 1 demo_log zero_fs_wf) as (rc & fs & E & Hw & _ & H);
    [lia|solve_bytes|done|].
  rewrite zero_fs_get in H. destruct H as [(-> & Hg & _)|(_ & _ & [?|[F _]])]; [|done|by destruct (zero_fs_not_full F)].
  destruct (audit_compact_keeps fs 1 demo_log 2 Hw) as (pre & suf & fs' & Es & Hs & Ec & Hc & _);
    [lia|exact Hg|lia|done|done|].
  exists fs, fs'. split; [exact E|].
  assert (suf = str "b" ++ [10] ++ str "c" ++ [10]) as ->.
  { unfold demo_log in Es. cbn in Es.
    destruct pre as [|a [|b [|c [|d [|e [|f pre]]]]]]; cbn in Es; simplify_eq; try done; first [by destruct pre | by vm_compute in Hs]. }
  split; [exact Ec|exact Hc].
Defined.
