(* ===== verification/Session.v ===== *)
(** * Session logs (kernel/session.c)

    Every agent has a log /session/agent/<id>/log of text lines.
    [session_append] adds a line, [session_tail] and [session_read] give the
    last line or the last lines, [session_compact] replaces the oldest lines by
    a summary line and also sends the summary to the agent's inbox.

    Compaction works on the ramfs and the agent's mailbox; the other operations
    on the ramfs alone.  A file's bytes are the list [data]; the terminator the
    code puts after them is the end of the list. *)

From S2P Require Import Prelude Abi Ipc Ramfs Paths Tenant.

Definition SESSION_LINE_MAX : Z := 192.

Definition build_session_path (id : Z) : option (list Z) :=
  agent_path (str "/session/agent/") (str "/log") id.

Definition str_len_local (s : list Z) (max : Z) : Z := Z.min max (zlen s).

(** Copies characters while they satisfy a test, at most [n]. *)
Fixpoint copy_while (p : Z → bool) (n : nat) (l : list Z) : list Z :=
  match n, l with
  | S n', c :: l' => if p c then c :: copy_while p n' l' else []
  | _, _ => []
  end.

Definition session_append (a : option Z) (text : list Z) : M ramfs Z :=
  match a with
  | None => ret EINVAL
  | Some id =>
      let! path := orundef (build_session_path id) in
      let text_len := str_len_local text (SESSION_LINE_MAX - 4) in
      if text_len <=? 0 then ret EINVAL
      else
        let! r := gets (λ fs, ramfs_read fs path 0 (RAMFS_FILE_SIZE - 2)) in
        if (r.1 <? 0) && negb (r.1 =? ENOENT) then ret r.1
        else
          let old_len := if r.1 <? 0 then 0 else r.1 in
          let line := take (Z.to_nat text_len) text ++ [10] in
          let line_len := zlen line in
          let! rc := tenant_session_allow a (old_len + line_len) in
          if negb (rc =? 0) then ret ENOSPC
          else if RAMFS_FILE_SIZE <=? old_len + line_len then ret ENOSPC
          else
            let! w := ramfs_write path 0 (r.2 ++ line) (old_len + line_len) in
            if w <? 0 then ret EIO else ret line_len
  end.

(** Moves back to the character after the previous newline. *)
Fixpoint tail_start (data : list Z) (start : nat) : nat :=
  match start with
  | O => O
  | S s => if negb (cget data (Z.of_nat s) =? 10) then tail_start data s else S s
  end.

(** The result and the string left in the caller's buffer. *)
Definition session_tail (a : option Z) (buflen : Z) : M ramfs (Z * list Z) :=
  match a with
  | None => ret (EINVAL, [])
  | Some id =>
      if buflen <=? 0 then ret (EINVAL, [])
      else
        let! path := orundef (build_session_path id) in
        let! r := gets (λ fs, ramfs_read fs path 0 (RAMFS_FILE_SIZE - 1)) in
        let '(len, data) := r in
        if len <? 0 then (if len =? ENOENT then ret (0, []) else ret (len, []))
        else if len =? 0 then ret (0, [])
        else
          let start := tail_start data (Z.to_nat (len - 1)) in
          let out := copy_while (λ c, negb (c =? 0) && negb (c =? 10)) (Z.to_nat (buflen - 1))
                       (drop start data) in
          ret (zlen out, out)
  end.

Definition count_lines (data : list Z) : Z :=
  if zlen data <=? 0 then 0
  else countb (λ c, c =? 10) data + (if negb (cget data (zlen data - 1) =? 10) then 1 else 0).

(** What follows the first newline. *)
Fixpoint skip_line (data : list Z) : list Z :=
  match data with
  | [] => []
  | c :: data' => if c =? 10 then data' else skip_line data'
  end.

Definition line_start_at (data : list Z) (line_idx : Z) : Z :=
  if line_idx <=? 0 then 0 else zlen data - zlen (Nat.iter (Z.to_nat line_idx) skip_line data).

Definition session_read (a : option Z) (buflen max_lines : Z) : M ramfs (Z * list Z) :=
  match a with
  | None => ret (EINVAL, [])
  | Some id =>
      if buflen <=? 0 then ret (EINVAL, [])
      else
        let! path := orundef (build_session_path id) in
        let! r := gets (λ fs, ramfs_read fs path 0 (RAMFS_FILE_SIZE - 1)) in
        let '(len, data) := r in
        if len <? 0 then (if len =? ENOENT then ret (0, []) else ret (len, []))
        else if len =? 0 then ret (0, [])
        else
          let start :=
            if 0 <? max_lines then
              let total := count_lines data in
              if max_lines <? total then line_start_at data (total - max_lines) else 0
            else 0 in
          let out := copy_while (λ c, negb (c =? 0)) (Z.to_nat (buflen - 1))
                       (drop (Z.to_nat start) data) in
          ret (zlen out, out)
  end.

(** The summary text of the dropped bytes, cut to the payload size and at the
    first NUL. *)
Definition summary_text (dropped : list Z) : list Z :=
  let text := str "summary: "
    ++ take (Z.to_nat (MSG_PAYLOAD_SIZE - 2 - 9)) ((λ c, if c =? 10 then chr ";" else c) <$> dropped) in
  copy_while (λ c, negb (c =? 0)) (length text) text.

Definition session_compact (a : option Z) (keep : Z) : M (ramfs * msgbox) Z :=
  match a with
  | None => ret EINVAL
  | Some id =>
      if keep <? 0 then ret EINVAL
      else
        let! path := orundef (build_session_path id) in
        let! r := gets (λ s, ramfs_read s.1 path 0 (RAMFS_FILE_SIZE - 1)) in
        let '(len, data) := r in
        if len <? 0 then (if len =? ENOENT then ret 0 else ret len)
        else if len =? 0 then ret 0
        else
          let total := count_lines data in
          if total <=? keep then ret 0
          else
            let dropn := total - keep in
            let start := line_start_at data dropn in
            let summary := summary_text (take (Z.to_nat start) data) in
            let head := take (Z.to_nat (RAMFS_FILE_SIZE - 2)) summary ++ [10] in
            let newbuf := head
              ++ take (Z.to_nat (RAMFS_FILE_SIZE - 1 - zlen head)) (drop (Z.to_nat start) data) in
            let! w := zoom fst (λ fs s, (fs, s.2)) (ramfs_write path 0 newbuf (zlen newbuf)) in
            if w <? 0 then ret EIO
            else
              let msg := mk_msg 0 MSG_SUMMARY
                (splice (replicate (Z.to_nat MSG_PAYLOAD_SIZE) 0) 0
                   (take (Z.to_nat (MSG_PAYLOAD_SIZE - 1)) summary)) in
              let! rc := zoom snd (λ b s, (s.1, b)) (act (λ b, msgbox_push b msg)) in
              if negb (rc =? 0) then ret ENOSPC else ret dropn
  end.

(** ** Lemmas *)

(** The log of an agent. *)
Definition log_of (id : Z) : list Z := str "/session/agent/" ++ dec id ++ str "/log".

Lemma build_session_path_small id : id < 100000000 → build_session_path id = Some (log_of id).
Proof. apply agent_path_small. Qed.

Lemma log_of_ok id : id < 100000000 → path_ok (log_of id).
Proof. intros. apply agent_path_ok; [solve_bytes|solve_bytes|done|done]. Qed.

Lemma copy_while_all p n l : Forall (λ c, p c = true) l → (length l ≤ n)%nat → copy_while p n l = l.
Proof.
  intros Hl. revert n; induction Hl as [|c l Hc Hl IH]; intros [|n] Hn; simpl in *; try done; [lia|].
  rewrite Hc, IH by lia. done.
Qed.

Lemma copy_while_stop p n l c t :
  Forall (λ c, p c = true) l → p c = false → (length l ≤ n)%nat → copy_while p n (l ++ c :: t) = l.
Proof.
  intros Hl Hc. revert n; induction Hl as [|x l Hx Hl IH]; intros [|n] Hn; simpl in *; try done; [by rewrite Hc|lia|].
  rewrite Hx, IH by lia. done.
Qed.

Lemma ramfs_read_none fs p len :
  ramfs_wf fs → fs_get fs p = None → 0 < len < 2147483648 → ramfs_read fs p 0 len = (ENOENT, []).
Proof. intros Hw Hg Hl. rewrite ramfs_read_spec by (done || lia). by rewrite Hg. Qed.

(** The line that an append adds: the text, cut to 188 characters, and a
    newline. *)
Definition line_of (text : list Z) : list Z := take (Z.to_nat (SESSION_LINE_MAX - 4)) text ++ [10].

Lemma line_of_len text : zlen (line_of text) = str_len_local text (SESSION_LINE_MAX - 4) + 1.
Proof. unfold line_of, str_len_local, SESSION_LINE_MAX, zlen. rewrite length_app, length_take. cbn [length]. lia. Qed.

Lemma line_of_bytes text : cstr_ok text → bytes_ok (line_of text).
Proof.
  intros H. apply Forall_app_2; [|repeat constructor; done]. apply Forall_take.
  eapply Forall_impl; [exact H|]. unfold byte_ok. intros; simpl in *; lia.
Qed.

Lemma take_str_len text :
  take (Z.to_nat (str_len_local text (SESSION_LINE_MAX - 4))) text ++ [10] = line_of text.
Proof.
  unfold line_of, str_len_local, SESSION_LINE_MAX. f_equal.
  destruct (Z.le_gt_cases (192 - 4) (zlen text)).
  - by rewrite Z.min_l by lia.
  - rewrite Z.min_r by lia. unfold zlen in *. rewrite !take_ge by lia. done.
Qed.

(** Writing a whole file over its old contents. *)
Lemma ramfs_write_0 fs p d :
  let old := default [] (fs_get fs p) in
  ramfs_wf fs → path_ok p → bytes_ok d → 0 < zlen d < RAMFS_FILE_SIZE →
  ¬ (fs_full fs ∧ fs_get fs p = None) →
  ∃ fs', ramfs_write p 0 d (zlen d) fs = Ret (zlen d, fs')
    ∧ ramfs_wf fs' ∧ fs_get fs' p = Some (d ++ drop (length d) old)
    ∧ (∀ q, q ≠ p → fs_get fs' q = fs_get fs q).
Proof.
  intros old Hw Hp Hd Hl Hroom. pose proof (zlen_nonneg old).
  destruct (ramfs_write_spec fs p 0 d Hw Hp Hd) as (rc & fs' & E & H'); [lia|fold old; lia|lia|].
  fold old in H'. destruct H' as [(-> & ? & ? & ?)|(_ & _ & ? & ?)]; [by exists fs'|by destruct Hroom].
Qed.

(** The checks of an append in one test. *)
Lemma session_append_eq fs id text :
  ramfs_wf fs → 0 ≤ id < 100000000 → text ≠ [] →
  let log := log_of id in
  let old := default [] (fs_get fs log) in
  fs_get fs log ≠ Some [] →
  session_append (Some id) text fs =
  if decide (2 * zlen old + zlen (line_of text) ≤ TENANT_SESSION_QUOTA)
  then (let! w := ramfs_write log 0 (old ++ line_of text) (zlen old + zlen (line_of text)) in
        if w <? 0 then ret EIO else ret (zlen (line_of text))) fs
  else Ret (ENOSPC, fs).
Proof.
  intros Hw Hid Hne log old Hempty. unfold session_append. unfold bind at 1.
  rewrite build_session_path_small by lia. cbn [orundef ret]. fold log. rewrite take_str_len.
  pose proof (line_of_len text) as Hll. assert (0 < str_len_local text (SESSION_LINE_MAX - 4)) as Hpos.
  { unfold str_len_local, SESSION_LINE_MAX. destruct text; [done|]. unfold zlen; simpl; lia. }
  test_false (str_len_local text (SESSION_LINE_MAX - 4) <=? 0).
  unfold str_len_local, SESSION_LINE_MAX in Hll, Hpos.
  (* the old log, read whole or cut to 8190 bytes when it is far over quota *)
  assert (∃ n c, ramfs_read fs log 0 (RAMFS_FILE_SIZE - 2) = (n, c)
    ∧ (n <? 0) && negb (n =? ENOENT) = false
    ∧ (if n <? 0 then 0 else n) = Z.min 8190 (zlen old)
    ∧ (zlen old ≤ 8190 → c = old) ∧ usage_of (fs_get fs log) = zlen old) as (n & c & Er & Et & En & Ec & Eu).
  { unfold old. destruct (fs_get fs log) as [o|] eqn:Hg; cbn [default from_option usage_of].
    - assert (0 < zlen o) by (destruct o; [done|unfold zlen; simpl; lia]). unfold Datatypes.id.
      rewrite ramfs_read_spec by (done || unfold RAMFS_FILE_SIZE; lia). rewrite Hg. cbn zeta.
      eexists _, _. split; [done|]. unfold RAMFS_FILE_SIZE.
      replace (Z.max 0 (Z.min (8192 - 2) (zlen o - 0))) with (Z.min 8190 (zlen o)) by lia.
      test_false (Z.min 8190 (zlen o) <? 0). split_and!; try done; [|lia].
      intros Hs. rewrite Z.min_r by lia. unfold sub, zlen. rewrite Nat2Z.id. cbn. apply take_ge. lia.
    - rewrite ramfs_read_none by (done || unfold RAMFS_FILE_SIZE; lia). by exists ENOENT, []. }
  unfold bind at 1, gets. rewrite Er. cbn [fst snd]. rewrite Et, En.
  pose proof (zlen_nonneg old). unfold bind at 1.
  rewrite tenant_allow_spec by (done || lia). fold (log_of id). fold log. rewrite Eu.
  unfold TENANT_SESSION_QUOTA in *. case_decide as Hq.
  - rewrite Z.min_r by lia. test_false (640 <? zlen old + (zlen old + zlen (line_of text))).
    change (negb (0 =? 0)) with false. cbn iota. unfold RAMFS_FILE_SIZE.
    test_false (8192 <=? zlen old + zlen (line_of text)). by rewrite Ec by lia.
  - replace (640 <? zlen old + (Z.min 8190 (zlen old) + zlen (line_of text))) with true
      by (symmetry; apply Z.ltb_lt; lia). done.
Qed.

(** Appending to the session log: with [old] the log before, the line is
    added after it and nothing else changes, exactly when TWICE the old size
    plus the line fits in the 640-byte quota; otherwise the call fails with
    ENOSPC and nothing changes.  The old log counts twice because the caller
    passes old size plus line to a check that adds the old size itself, so a
    log can never grow past about half of its quota. *)
Theorem session_append_exact fs id text :
  ramfs_wf fs → 0 ≤ id < 100000000 → cstr_ok text → text ≠ [] →
  let log := log_of id in
  let old := default [] (fs_get fs log) in
  ¬ (fs_full fs ∧ fs_get fs log = None) → fs_get fs log ≠ Some [] →
  if decide (2 * zlen old + zlen (line_of text) ≤ TENANT_SESSION_QUOTA)
  then ∃ fs', session_append (Some id) text fs = Ret (zlen (line_of text), fs')
         ∧ ramfs_wf fs' ∧ fs_get fs' log = Some (old ++ line_of text)
         ∧ ∀ q, q ≠ log → fs_get fs' q = fs_get fs q
  else session_append (Some id) text fs = Ret (ENOSPC, fs).
Proof.
  intros Hw Hid Ht Hne log old Hroom Hempty. rewrite session_append_eq by done. fold log old.
  pose proof (line_of_len text). pose proof (zlen_nonneg old). pose proof (zlen_nonneg text).
  unfold str_len_local, SESSION_LINE_MAX, TENANT_SESSION_QUOTA in *. case_decide as Hq; [|done].
  destruct (ramfs_write_0 fs log (old ++ line_of text)) as (fs' & Ew & Hw' & Hg' & Ho');
    [done|by apply log_of_ok; lia| |rewrite zlen_app; unfold RAMFS_FILE_SIZE; lia|done|].
  { apply Forall_app_2; [|by apply line_of_bytes]. unfold old.
    destruct (fs_get fs log) as [o|] eqn:Hg; [by apply (fs_get_size fs log)|constructor]. }
  rewrite zlen_app in Ew. unfold bind. rewrite Ew. test_false (zlen old + zlen (line_of text) <? 0).
  exists fs'. split; [done|]. split; [done|]. split; [|done]. rewrite Hg'. fold old.
  rewrite length_app, drop_ge by lia. by rewrite app_nil_r.
Qed.

Lemma session_append_exact_witness :
  ∃ fs', session_append (Some 1) (str "hi") zero_fs = Ret (3, fs')
    ∧ fs_get fs' (log_of 1) = Some (str "hi" ++ [10]).
Proof.
  assert (fs_get zero_fs (log_of 1) = None) as Hn by apply zero_fs_get.
  pose proof (session_append_exact zero_fs 1 (str "hi") zero_fs_wf ltac:(lia) ltac:(solve_bytes) ltac:(done)) as H.
  cbn zeta in H. rewrite Hn in H. rewrite decide_True in H by done.
  destruct H as (fs' & E & _ & Hg & _); [by intros [F _]; apply zero_fs_not_full|done|].
  exists fs'. by split.
Defined.

(** ** Reading *)

Lemma tail_start_spec pre l t k :
  pre = [] ∨ last pre = Some 10 → Forall (λ c, c ≠ 10) l → (k ≤ length l)%nat →
  tail_start (pre ++ l ++ t) (length pre + k) = length pre.
Proof.
  intros Hpre Hl. induction k as [|k IH]; intros Hk.
  - rewrite Nat.add_0_r. destruct Hpre as [->|Hp]; [done|].
    apply last_Some in Hp as [p ->]. rewrite length_app, Nat.add_1_r. cbn [tail_start].
    rewrite <- app_assoc. rewrite cget_app_r by (unfold zlen; lia).
    replace (Z.of_nat (length p) - zlen p) with 0 by (unfold zlen; lia). done.
  - rewrite Nat.add_succ_r. cbn [tail_start].
    destruct (lookup_lt_is_Some_2 l k) as [c Hc]; [lia|].
    assert (cget (pre ++ l ++ t) (Z.of_nat (length pre + k)) = c) as ->.
    { rewrite cget_app_r by (unfold zlen; lia). rewrite cget_app_l by (unfold zlen; lia).
      unfold cget, zlen. rewrite nth_lookup.
      replace (Z.to_nat (Z.of_nat (length pre + k) - Z.of_nat (length pre))) with k by lia. by rewrite Hc. }
    pose proof (Forall_lookup_1 _ _ _ _ Hl Hc) as Hne. simpl in Hne. test_false (c =? 10). cbn [negb].
    apply IH. lia.
Qed.

(** The last line of a log is what [session_tail] gives. *)
Lemma session_tail_last fs id pre l buflen :
  ramfs_wf fs → 0 ≤ id < 100000000 → fs_get fs (log_of id) = Some (pre ++ l ++ [10]) →
  pre = [] ∨ last pre = Some 10 → Forall (λ c, c ≠ 10 ∧ c ≠ 0) l → zlen l < buflen →
  session_tail (Some id) buflen fs = Ret ((zlen l, l), fs).
Proof.
  intros Hw Hid Hg Hpre Hl Hb. pose proof (zlen_nonneg l). unfold session_tail.
  test_false (buflen <=? 0). unfold bind at 1. rewrite build_session_path_small by lia. cbn [orundef ret].
  destruct (fs_get_size fs _ _ Hw Hg) as [Hsz _]. unfold RAMFS_FILE_SIZE in *.
  unfold bind, gets. rewrite (ramfs_read_all fs _ _ (8192 - 1) Hw Hg) by lia.
  assert (zlen (pre ++ l ++ [10]) = zlen pre + zlen l + 1) as El
    by (rewrite !zlen_app; change (zlen [10]) with 1; lia).
  rewrite El. pose proof (zlen_nonneg pre).
  test_false (zlen pre + zlen l + 1 <? 0). test_false (zlen pre + zlen l + 1 =? 0).
  replace (Z.to_nat (zlen pre + zlen l + 1 - 1)) with (length pre + length l)%nat by (unfold zlen; lia).
  rewrite tail_start_spec;
    [|done|eapply Forall_impl; [exact Hl|by intros ? []]|lia].
  rewrite drop_app_length. rewrite copy_while_stop; [done| |done|unfold zlen in *; lia].
  eapply Forall_impl; [exact Hl|]. intros c [H1 H2]. simpl.
  by test_false (c =? 0); test_false (c =? 10).
Qed.

(** The last line reads back: after a successful append of a one-line
    text to a log made of whole lines, [session_tail] with a large enough buffer
    gives exactly that text (cut to 188 characters), and the log is again made
    of whole lines. *)
Theorem session_append_tail fs id text buflen rc fs' :
  let log := log_of id in
  let old := default [] (fs_get fs log) in
  ramfs_wf fs → 0 ≤ id < 100000000 → cstr_ok text → Forall (λ c, c ≠ 10) text → text ≠ [] →
  fs_get fs log ≠ Some [] → old = [] ∨ last old = Some 10 →
  session_append (Some id) text fs = Ret (rc, fs') → 0 < rc → SESSION_LINE_MAX ≤ buflen →
  let shown := take (Z.to_nat (SESSION_LINE_MAX - 4)) text in
  session_tail (Some id) buflen fs' = Ret ((zlen shown, shown), fs')
  ∧ rc = zlen shown + 1 ∧ last (default [] (fs_get fs' log)) = Some 10.
Proof.
  intros log old Hw Hid Ht Hnl Hne Hempty Hold E Hrc Hb shown.
  rewrite session_append_eq in E by done. fold log old in E.
  case_decide as Hq; [|injection E as <- _; unfold ENOSPC in Hrc; lia].
  pose proof (line_of_len text) as Hll. pose proof (zlen_nonneg old). pose proof (zlen_nonneg text).
  unfold str_len_local, SESSION_LINE_MAX, TENANT_SESSION_QUOTA in *. unfold bind in E.
  destruct (decide (fs_full fs ∧ fs_get fs log = None)) as [[F N]|Hroom].
  { unfold ramfs_write in E. test_false_in (zlen old + zlen (line_of text) <=? 0) E.
    rewrite lookup_create_full in E by done. simpl in E. injection E as <- _. unfold EIO in Hrc. lia. }
  destruct (ramfs_write_0 fs log (old ++ line_of text)) as (fs1 & Ew & Hw1 & Hg1 & _);
    [done|by apply log_of_ok; lia| |rewrite zlen_app; unfold RAMFS_FILE_SIZE; lia|done|].
  { apply Forall_app_2; [|by apply line_of_bytes]. unfold old.
    destruct (fs_get fs log) as [o|] eqn:Hg; [by apply (fs_get_size fs log)|constructor]. }
  rewrite zlen_app in Ew. rewrite Ew in E. test_false_in (zlen old + zlen (line_of text) <? 0) E.
  injection E as <- <-. fold old in Hg1. rewrite length_app, drop_ge, app_nil_r in Hg1 by lia.
  change (line_of text) with (shown ++ [10]) in *. split; [|split].
  - apply (session_tail_last fs1 id old shown); try done.
    + unfold shown. apply Forall_take. apply Forall_forall. intros c Hc.
      split; [by eapply Forall_forall in Hnl|]. eapply Forall_forall in Ht; [|done]. simpl in Ht. lia.
    + unfold shown, zlen. rewrite length_take. lia.
  - rewrite zlen_app. done.
  - rewrite Hg1. cbn [default from_option]. unfold Datatypes.id. by rewrite app_assoc, last_snoc.
Qed.

Lemma session_append_tail_witness :
  ∃ fs', session_append (Some 1) (str "hi") zero_fs = Ret (3, fs')
    ∧ session_tail (Some 1) 192 fs' = Ret ((2, str "hi"), fs').
Proof.
  assert (fs_get zero_fs (log_of 1) = None) as Hn by apply zero_fs_get.
  assert (∃ fs', session_append (Some 1) (str "hi") zero_fs = Ret (3, fs')) as [fs' E].
  { rewrite session_append_eq by (done || lia || apply zero_fs_wf || by rewrite Hn).
    rewrite Hn. rewrite decide_True by done. unfold bind.
    destruct (ramfs_write_0 zero_fs (log_of 1) (line_of (str "hi"))) as (fs1 & Ew & _);
      [apply zero_fs_wf|by apply log_of_ok|solve_bytes|done|by intros [F _]; apply zero_fs_not_full|].
    exists fs1. change (zlen (default [] None) + zlen (line_of (str "hi"))) with (zlen (line_of (str "hi"))).
    change (default [] None ++ line_of (str "hi")) with (line_of (str "hi")). by rewrite Ew. }
  exists fs'. split; [exact E|].
  refine (proj1 (session_append_tail zero_fs 1 (str "hi") 192 3 fs' zero_fs_wf _ _ _ _ _ _ E _ _));
    [lia|solve_bytes|by repeat constructor|done|by rewrite Hn|left; by rewrite Hn|lia|done].
Defined.

(** ** Compaction *)

Lemma skip_line_suffix data : ∃ pre, data = pre ++ skip_line data.
Proof.
  induction data as [|c data [pre IH]]; [by exists []|]. simpl. case_test; [by exists [c]|].
  exists (c :: pre). simpl. by rewrite <- IH.
Qed.

Lemma skip_lines_suffix n data : ∃ pre, data = pre ++ Nat.iter n skip_line data.
Proof.
  induction n as [|n [pre IH]]; [by exists []|]. simpl.
  destruct (skip_line_suffix (Nat.iter n skip_line data)) as [p Hp]. exists (pre ++ p).
  by rewrite <- app_assoc, <- Hp.
Qed.

(** The bytes from the start of a line on are what skipping lines leaves. *)
Lemma line_start_drop data i :
  0 < i → drop (Z.to_nat (line_start_at data i)) data = Nat.iter (Z.to_nat i) skip_line data.
Proof.
  intros Hi. unfold line_start_at. test_false (i <=? 0).
  destruct (skip_lines_suffix (Z.to_nat i) data) as [pre E]. set (r := Nat.iter _ _ _) in *.
  rewrite E at 2. replace (Z.to_nat (zlen data - zlen r)) with (length pre).
  - by rewrite drop_app_length.
  - rewrite E. rewrite zlen_app. unfold zlen. lia.
Qed.

Lemma line_start_range data i : 0 ≤ line_start_at data i ≤ zlen data.
Proof.
  unfold line_start_at. pose proof (zlen_nonneg data). case_test; [lia|].
  destruct (skip_lines_suffix (Z.to_nat i) data) as [pre E]. set (r := Nat.iter _ _ _) in *.
  rewrite E, zlen_app. pose proof (zlen_nonneg pre). pose proof (zlen_nonneg r). lia.
Qed.

Lemma copy_while_len p n l : (length (copy_while p n l) ≤ n)%nat.
Proof. revert l; induction n as [|n IH]; intros [|c l]; simpl; try lia. case_test; simpl; [|lia]. specialize (IH l). lia. Qed.

Lemma copy_while_bytes p n l : bytes_ok l → bytes_ok (copy_while p n l).
Proof.
  intros Hl. revert n; induction Hl as [|c l Hc Hl IH]; intros [|n]; simpl; try constructor.
  case_test; constructor; auto. apply IH.
Qed.

Lemma summary_text_len d : zlen (summary_text d) ≤ MSG_PAYLOAD_SIZE - 2.
Proof.
  unfold summary_text. set (t := _ ++ _). pose proof (copy_while_len (λ c, negb (c =? 0)) (length t) t).
  assert (length t ≤ 222)%nat; [|unfold zlen, MSG_PAYLOAD_SIZE; lia].
  unfold t. rewrite length_app, length_take. change (length (str "summary: ")) with 9%nat.
  change (Z.to_nat (MSG_PAYLOAD_SIZE - 2 - 9)) with 213%nat. lia.
Qed.

Lemma summary_text_bytes d : bytes_ok d → bytes_ok (summary_text d).
Proof.
  intros Hd. unfold summary_text. apply copy_while_bytes, Forall_app_2; [solve_bytes|].
  apply Forall_take, Forall_fmap. eapply Forall_impl; [exact Hd|]. intros c Hc. simpl. by case_test.
Qed.

(** The message that carries a summary. *)
Definition session_summary (summary : list Z) : agent_msg :=
  mk_msg 0 MSG_SUMMARY
    (splice (replicate (Z.to_nat MSG_PAYLOAD_SIZE) 0) 0 (take (Z.to_nat (MSG_PAYLOAD_SIZE - 1)) summary)).

Lemma session_summary_wf s : msg_wf (session_summary s).
Proof.
  unfold msg_wf, session_summary, payload, zlen. rewrite length_splice.
  - by rewrite length_replicate.
  - lia.
  - unfold zlen. rewrite length_take, length_replicate. unfold MSG_PAYLOAD_SIZE. lia.
Qed.

(** What compaction of [data] to [keep] lines computes: the dropped bytes and
    the new text of the log. *)
Definition compact_start (data : list Z) (keep : Z) : Z := line_start_at data (count_lines data - keep).
Definition compact_text (data : list Z) (keep : Z) : list Z :=
  summary_text (take (Z.to_nat (compact_start data keep)) data) ++ [10]
    ++ drop (Z.to_nat (compact_start data keep)) data.

Lemma compact_text_ok data keep :
  bytes_ok data → bytes_ok (compact_text data keep)
  ∧ 0 < zlen (compact_text data keep) ≤ 223 + zlen data.
Proof.
  intros Hb. unfold compact_text. set (st := compact_start data keep). split.
  - apply Forall_app_2; [by apply summary_text_bytes, Forall_take|].
    apply Forall_app_2; [solve_bytes|by apply Forall_drop].
  - pose proof (summary_text_len (take (Z.to_nat st) data)). rewrite !zlen_app.
    change (zlen [10]) with 1. pose proof (zlen_nonneg (summary_text (take (Z.to_nat st) data))).
    pose proof (zlen_nonneg (drop (Z.to_nat st) data)). unfold MSG_PAYLOAD_SIZE in *.
    assert (zlen (drop (Z.to_nat st) data) ≤ zlen data); [|lia].
    unfold zlen. rewrite length_drop. lia.
Qed.

(** Compaction of a session log: the summary of the dropped lines and the
    kept lines are written over the start of the log WITHOUT truncating it, so
    when they are shorter than the old log its last bytes stay behind (the new
    contents are [new ++ drop (length new) data]); no other file changes.  The
    summary is then sent to the agent's inbox, and when that is full the result
    is ENOSPC although the log has been rewritten. *)
Theorem session_compact_overlay fs box id data keep :
  ramfs_wf fs → box_wf box → 0 ≤ id < 100000000 → fs_get fs (log_of id) = Some data →
  0 ≤ keep < count_lines data → zlen data < 7000 →
  let new := compact_text data keep in
  let msg := session_summary (summary_text (take (Z.to_nat (compact_start data keep)) data)) in
  ∃ rc fs' box', session_compact (Some id) keep (fs, box) = Ret (rc, (fs', box'))
    ∧ ramfs_wf fs' ∧ box_wf box'
    ∧ fs_get fs' (log_of id) = Some (new ++ drop (length new) data)
    ∧ (∀ q, q ≠ log_of id → fs_get fs' q = fs_get fs q)
    ∧ rc = (if MSG_CAPACITY <=? zlen (mb_normal (abs box)) then ENOSPC else count_lines data - keep)
    ∧ abs box' = (mb_push (abs box) msg).2.
Proof.
  intros Hw Hbox Hid Hg Hk Hsz new msg. unfold session_compact. test_false (keep <? 0).
  assert (0 < zlen data) as Hpos.
  { destruct data; [unfold count_lines in Hk; simpl in Hk; lia|unfold zlen; simpl; lia]. }
  unfold bind at 1. rewrite build_session_path_small by lia. cbn [orundef ret].
  unfold bind at 1, gets. cbn [fst]. unfold RAMFS_FILE_SIZE.
  rewrite (ramfs_read_all fs _ _ (8192 - 1) Hw Hg) by lia.
  test_false (zlen data <? 0). test_false (zlen data =? 0). test_false (count_lines data <=? keep).
  fold (compact_start data keep). set (st := compact_start data keep).
  set (sm := summary_text (take (Z.to_nat st) data)).
  pose proof (summary_text_len (take (Z.to_nat st) data)) as Hsm. fold sm in Hsm.
  rewrite (take_ge sm) by (unfold zlen, MSG_PAYLOAD_SIZE in *; lia).
  assert (zlen (sm ++ [10]) ≤ 223) as Hhead
    by (rewrite zlen_app; change (zlen [10]) with 1; unfold MSG_PAYLOAD_SIZE in *; lia).
  rewrite (take_ge (drop (Z.to_nat st) data)) by (unfold zlen in *; rewrite length_drop; lia).
  rewrite <- app_assoc. fold sm. change (sm ++ [10] ++ drop (Z.to_nat st) data) with new.
  destruct (fs_get_size fs _ _ Hw Hg) as [_ Hb]. destruct (compact_text_ok data keep Hb) as [Hnb Hnl].
  destruct (ramfs_write_0 fs (log_of id) new) as (fs' & Ew & Hw' & Hg' & Ho');
    [done|by apply log_of_ok; lia|done|unfold RAMFS_FILE_SIZE; unfold new; lia|by intros [_ ?]; congruence|].
  unfold bind at 1, zoom at 1. cbn [fst snd]. rewrite Ew. fold new in Hnl. test_false (zlen new <? 0).
  fold (session_summary sm). change (session_summary sm) with msg.
  destruct (msgbox_push_abs box msg Hbox (session_summary_wf _)) as [Hbw Habs].
  unfold bind, zoom, act. cbn [fst snd]. destruct (msgbox_push box msg) as [rc box']. cbn [fst snd] in *.
  rewrite Hg in Hg'. cbn [default from_option] in Hg'. unfold Datatypes.id in Hg'.
  assert (rc = if MSG_CAPACITY <=? zlen (mb_normal (abs box)) then ENOSPC else 0) as Hrc.
  { assert (rc = (mb_push (abs box) msg).1) as -> by (rewrite <- Habs; done).
    unfold mb_push. change (mtype msg =? MSG_STEER) with false. cbn iota. by case_test. }
  exists (if MSG_CAPACITY <=? zlen (mb_normal (abs box)) then ENOSPC else count_lines data - keep), fs', box'.
  split_and!; try done; [|by rewrite <- Habs]. subst rc. by destruct (MSG_CAPACITY <=? zlen (mb_normal (abs box))).
Qed.

(** A log of four lines of 80 bytes, compacted to one: the summary holds only
    222 bytes of the dropped text, so 17 bytes of the old log stay behind. *)
Definition demo_line : list Z := replicate 79 120 ++ [10].
Definition demo_session : list Z := demo_line ++ demo_line ++ demo_line ++ replicate 79 121 ++ [10].
Definition demo_session_fs : ramfs := (ramfs_put zero_fs (log_of 1) demo_session 320).2.

Lemma demo_session_spec :
  ramfs_wf demo_session_fs ∧ fs_get demo_session_fs (log_of 1) = Some demo_session.
Proof.
  pose proof (ramfs_put_spec zero_fs (log_of 1) demo_session zero_fs_wf) as H.
  change (zlen demo_session) with 320 in H. unfold demo_session_fs.
  destruct (ramfs_put zero_fs (log_of 1) demo_session 320) as [rc fs].
  destruct H as [(_ & ? & ? & _)|(_ & _ & F & _)]; [| | |by split|by destruct (zero_fs_not_full F)].
  - by apply log_of_ok.
  - unfold demo_session, demo_line.
    repeat (apply Forall_app_2 || apply Forall_replicate || constructor); unfold byte_ok; lia.
  - done.
Qed.

Lemma session_compact_overlay_witness :
  ∃ fs' box', session_compact (Some 1) 1 (demo_session_fs, zero_box) = Ret (3, (fs', box'))
    ∧ fs_get fs' (log_of 1)
      = Some (compact_text demo_session 1 ++ replicate 16 121 ++ [10])
    ∧ zlen (compact_text demo_session 1) = 303.
Proof.
  destruct demo_session_spec as [Hw Hg].
  destruct (session_compact_overlay demo_session_fs zero_box 1 demo_session 1 Hw zero_box_wf)
    as (rc & fs' & box' & E & _ & _ & Hnew & _ & Hrc & _); [lia|exact Hg|vm_compute; split; congruence|done|].
  exists fs', box'. subst rc. split; [exact E|]. split; [|vm_compute; reflexivity].
  rewrite Hnew. do 2 f_equal.
Defined.

(** ** Reading the last lines *)

(** The log made of the lines [ls]. *)
Definition unlines (ls : list (list Z)) : list Z := concat ((λ l, l ++ [10]) <$> ls).

Definition line_ok (l : list Z) : Prop := Forall (λ c, c ≠ 10 ∧ c ≠ 0) l.

Lemma unlines_cons l ls : unlines (l :: ls) = l ++ 10 :: unlines ls.
Proof. unfold unlines. simpl. by rewrite <- app_assoc. Qed.

Lemma skip_line_app l t : line_ok l → skip_line (l ++ 10 :: t) = t.
Proof. induction 1 as [|c l [Hc _] Hl IH]; simpl; [done|]. by test_false (c =? 10). Qed.

Lemma skip_lines_unlines ls n :
  Forall line_ok ls → Nat.iter n skip_line (unlines ls) = unlines (drop n ls).
Proof.
  intros Hls. revert n. assert (∀ k, Nat.iter k skip_line [] = []) as Hnil.
  { induction k as [|k IH]; [done|]. simpl. by rewrite IH. }
  induction Hls as [|l ls Hl Hls IH]; intros n; [by rewrite drop_nil, Hnil|].
  destruct n as [|n]; [done|]. rewrite Nat.iter_succ_r, unlines_cons, skip_line_app by done. apply IH.
Qed.

Lemma count_newlines_line l t : line_ok l → countb (λ c, c =? 10) (l ++ t) = countb (λ c, c =? 10) t.
Proof.
  intros Hl. unfold countb. rewrite filter_app. replace (filter _ l) with (@nil Z); [done|].
  symmetry. induction Hl as [|c l [Hc _] Hl IH]; [done|]. rewrite filter_cons, decide_False; [done|].
  intros H. by apply Z.eqb_eq in H.
Qed.

Lemma countb_newlines ls : Forall line_ok ls → countb (λ c, c =? 10) (unlines ls) = zlen ls.
Proof.
  induction 1 as [|l ls Hl Hls IH]; [done|]. rewrite unlines_cons, count_newlines_line, zlen_cons by done.
  rewrite <- IH. unfold countb, zlen. rewrite filter_cons, decide_True by done. simpl. lia.
Qed.

Lemma unlines_last l ls : ∃ t, unlines (l :: ls) = t ++ [10].
Proof.
  revert l; induction ls as [|l' ls IH]; intros l.
  - exists l. by rewrite unlines_cons.
  - destruct (IH l') as [t Ht]. exists (l ++ 10 :: t). rewrite unlines_cons, Ht. by rewrite <- app_assoc.
Qed.

Lemma count_lines_unlines ls : Forall line_ok ls → count_lines (unlines ls) = zlen ls.
Proof.
  intros Hls. destruct ls as [|l ls]; [done|]. unfold count_lines. rewrite countb_newlines by done.
  destruct (unlines_last l ls) as [t Ht]. rewrite Ht, zlen_app. change (zlen [10]) with 1.
  pose proof (zlen_nonneg t). test_false (zlen t + 1 <=? 0). rewrite cget_app_r by lia.
  replace (zlen t + 1 - 1 - zlen t) with 0 by lia. change (negb (cget [10] 0 =? 10)) with false.
  cbn iota. lia.
Qed.

Lemma unlines_no_nul ls : Forall line_ok ls → Forall (λ c, c ≠ 0) (unlines ls).
Proof.
  induction 1 as [|l ls Hl Hls IH]; [constructor|]. rewrite unlines_cons. apply Forall_app_2.
  - eapply Forall_impl; [exact Hl|]. by intros c [].
  - by constructor.
Qed.

Lemma zlen_drop_le {A} (l : list A) n : zlen (drop n l) ≤ zlen l.
Proof. unfold zlen. rewrite length_drop. lia. Qed.

(** Reading a log of whole lines gives its last [max_lines] lines, in
    order and complete (all of them when [max_lines] is not positive or covers
    the log), when the buffer is larger than the log. *)
Theorem session_read_last fs id ls buflen max_lines :
  ramfs_wf fs → 0 ≤ id < 100000000 → Forall line_ok ls →
  fs_get fs (log_of id) = Some (unlines ls) → zlen (unlines ls) < buflen →
  let out := unlines (if 0 <? max_lines then drop (Z.to_nat (zlen ls - max_lines)) ls else ls) in
  session_read (Some id) buflen max_lines fs = Ret ((zlen out, out), fs).
Proof.
  intros Hw Hid Hls Hg Hb out. pose proof (zlen_nonneg (unlines ls)). unfold session_read.
  test_false (buflen <=? 0). unfold bind at 1. rewrite build_session_path_small by lia. cbn [orundef ret].
  destruct (fs_get_size fs _ _ Hw Hg) as [Hsz _]. unfold RAMFS_FILE_SIZE in *.
  unfold bind, gets. rewrite (ramfs_read_all fs _ _ (8192 - 1) Hw Hg) by lia.
  test_false (zlen (unlines ls) <? 0). case_test; bprop.
  { destruct ls as [|l ls]; [|rewrite unlines_cons, zlen_app, zlen_cons in *; unfold zlen in *; lia].
    unfold out. rewrite drop_nil. by case_test. }
  rewrite count_lines_unlines by done. set (st := if 0 <? max_lines then _ else 0).
  assert (drop (Z.to_nat st) (unlines ls) = out) as ->.
  { unfold st, out. case_test; [|done]. case_test; bprop.
    - rewrite line_start_drop by lia. by apply skip_lines_unlines.
    - by replace (Z.to_nat (zlen ls - max_lines)) with 0%nat by lia. }
  assert (Forall line_ok (if 0 <? max_lines then drop (Z.to_nat (zlen ls - max_lines)) ls else ls)) as Ho
    by (case_test; [by apply Forall_drop|done]).
  rewrite copy_while_all; [done| |].
  - eapply Forall_impl; [by apply unlines_no_nul|]. intros c Hc. simpl in *. by test_false (c =? 0).
  - assert (zlen out ≤ zlen (unlines ls)) as Hle; [|unfold zlen in *; lia].
    unfold out. case_test; [|lia]. rewrite <- skip_lines_unlines by done.
    destruct (skip_lines_suffix (Z.to_nat (zlen ls - max_lines)) (unlines ls)) as [pre E].
    rewrite E at 2. rewrite zlen_app. pose proof (zlen_nonneg pre). lia.
Qed.

Lemma session_read_last_witness :
  session_read (Some 1) 400 1 demo_session_fs = Ret ((80, replicate 79 121 ++ [10]), demo_session_fs).
Proof.
  destruct demo_session_spec as [Hw Hg].
  apply (session_read_last demo_session_fs 1
    [replicate 79 120; replicate 79 120; replicate 79 120; replicate 79 121] 400 1 Hw);
    [lia| |exact Hg|done].
  repeat constructor; done.
Defined.
