(* ===== verification/Policy.v ===== *)
(** * The tool and network policy (kernel/policy.c)

    A deny list of tools, and an allow list of hosts that applies when network
    restriction is on; both can be changed by calls and loaded from a policy
    file.  The deny list is the array [deny_tools] up to [deny_count] (entries
    after it are never read), the allow list likewise. *)

From S2P Require Import Prelude Abi Ramfs Paths.

Definition POLICY_DENY_MAX : Z := 16.
Definition POLICY_NET_ALLOW_MAX : Z := 8.
Definition POLICY_ACTIVE : list Z := str "/sys/policy/active".

Record policy := mk_policy {
  deny_tools : list Z;
  net_allow : list (list Z * Z);
  net_restrict : bool
}.

Definition set_deny (l : list Z) (p : policy) : policy := mk_policy l (net_allow p) (net_restrict p).
Definition set_net_allow (l : list (list Z * Z)) (p : policy) : policy :=
  mk_policy (deny_tools p) l (net_restrict p).
Definition set_restrict (b : bool) (p : policy) : policy := mk_policy (deny_tools p) (net_allow p) b.

(** State of the operations that also read files. *)
Definition pstate : Type := policy * ramfs.

Definition host_eq (a b : list Z) : bool := bool_decide (a = b).

Definition deny_has (p : policy) (tool : Z) : bool := existsb (λ t, t =? tool) (deny_tools p).

Definition policy_exempt (tool : Z) : bool :=
  (tool =? TOOL_POLICY) || (tool =? TOOL_FLEET) || (tool =? TOOL_REMOTE)
  || (tool =? TOOL_MESH) || (tool =? TOOL_QUOTA).

Definition seed_policy : list Z := str "deny 10" ++ [10].

Definition policy_init (s : pstate) : pstate :=
  let '(_, fs) := s in
  (mk_policy [] [] false,
   if negb (ramfs_path_exists fs POLICY_ACTIVE)
   then (ramfs_put fs POLICY_ACTIVE seed_policy (zlen seed_policy)).2 else fs).

Definition policy_net_set_restrict (on : Z) (p : policy) : Z * policy :=
  if negb (on =? 0) then (1, set_restrict true p) else (0, set_restrict false p).

(** The test that an entry of the allow list is for a host and a port. *)
Definition net_entry (host : list Z) (port : Z) (e : list Z * Z) : bool :=
  (e.2 =? port) && host_eq e.1 host.

Definition policy_net_add_allow (host : list Z) (port : Z) (p : policy) : Z * policy :=
  if (cget host 0 =? 0) || (port =? 0) then (EINVAL, p)
  else if existsb (net_entry host port) (net_allow p) then (0, p)
  else if POLICY_NET_ALLOW_MAX <=? zlen (net_allow p) then (ENOSPC, p)
  else (0, set_net_allow (net_allow p ++ [(take 47 host, port)]) p).

Definition policy_net_status (p : policy) : Z := zlen (net_allow p).

Definition policy_net_allow (host : list Z) (port : Z) (p : policy) : Z :=
  if cget host 0 =? 0 then EINVAL
  else if negb (net_restrict p) || (zlen (net_allow p) =? 0) then 0
  else if existsb (net_entry host port) (net_allow p) then 0
  else EPERM.

Definition policy_status (p : policy) : Z := zlen (deny_tools p).

Definition policy_deny_tool (tool : Z) (p : policy) : Z * policy :=
  if (tool <? 0) || (31 <? tool) then (EINVAL, p)
  else if policy_exempt tool then (EINVAL, p)
  else if deny_has p tool then (0, p)
  else if POLICY_DENY_MAX <=? zlen (deny_tools p) then (ENOSPC, p)
  else (0, set_deny (deny_tools p ++ [tool]) p).

(** Removes the first entry for a tool. *)
Fixpoint remove_first (tool : Z) (l : list Z) : list Z :=
  match l with
  | [] => []
  | t :: l' => if negb (t =? tool) then t :: remove_first tool l' else l'
  end.

Definition policy_allow_tool (tool : Z) (p : policy) : Z * policy :=
  (0, set_deny (remove_first tool (deny_tools p)) p).

Definition policy_tool_allow (tool : Z) (p : policy) : Z :=
  if policy_exempt tool then 0 else if deny_has p tool then EPERM else 0.

Definition policy_probe_tool (tool : Z) (p : policy) : Z := policy_tool_allow tool p.

(** ** The policy file *)

Fixpoint skip_blanks (s : list Z) : list Z :=
  match s with
  | c :: s' => if (c =? 32) || (c =? 9) then skip_blanks s' else s
  | [] => []
  end.

(** The host of an allow rule: up to a colon, a space or 47 characters. *)
Fixpoint take_host (n : nat) (s : list Z) : list Z * list Z :=
  match n, s with
  | S n', c :: s' =>
      if negb (c =? chr ":") && negb (c =? 32)
      then let '(h, rest) := take_host n' s' in (c :: h, rest) else ([], s)
  | _, _ => ([], s)
  end.

(** The port: [None] when a prefix of the digits exceeds 65535. *)
Fixpoint scan_port (port : Z) (s : list Z) : option Z :=
  match s with
  | c :: s' =>
      if is_digit c then
        let port' := port * 10 + (c - 48) in
        if 65535 <? port' then None else scan_port port' s'
      else Some port
  | [] => Some port
  end.

Definition policy_parse_net_allow (line : list Z) (p : policy) : Z * policy :=
  let walk := skip_blanks line in
  if negb (cmatch walk 0 (str "net")) then (0, p)
  else
    let walk := skip_blanks (drop 3 walk) in
    if cmatch walk 0 (str "rest") then
      let walk := skip_blanks (drop 4 walk) in
      if cmatch walk 0 (str "rict") then policy_net_set_restrict 1 p
      else if cmatch walk 0 (str "open") then policy_net_set_restrict 0 p
      else (0, p)
    else if negb (cmatch walk 0 (str "allow")) then (0, p)
    else
      let '(host, rest) := take_host 47 (skip_blanks (drop 5 walk)) in
      if zlen host =? 0 then (-1, p)
      else
        match (if cget rest 0 =? chr ":" then scan_port 0 (drop 1 rest) else Some 0) with
        | None => (-1, p)
        | Some port =>
            let port := if port =? 0 then 443 else port in
            policy_net_add_allow host (u16 port) p
        end.

Definition policy_parse_line (line : list Z) (p : policy) : Z * policy :=
  let walk := skip_blanks line in
  if cmatch walk 0 (str "net") then policy_parse_net_allow line p
  else if cmatch walk 0 (str "deny") then
    let walk := skip_blanks (drop 4 walk) in
    if negb (is_digit (cget walk 0)) then (-1, p)
    else policy_deny_tool (scan_int 0 walk).1 p
  else (0, p).

(** The loop over the bytes of the file: [line] is the text since the last
    separator, and a newline or NUL ends it (a line that starts with NUL, the
    empty line, is not parsed). *)
Fixpoint load_lines (line buf : list Z) (p : policy) : policy :=
  match buf with
  | [] => p
  | c :: buf' =>
      if (c =? 10) || (c =? 0)
      then load_lines [] buf'
             (if negb (cget line 0 =? 0) then (policy_parse_line line p).2 else p)
      else load_lines (line ++ [c]) buf' p
  end.

(** The path is empty for a null or empty string. *)
Definition policy_load (path : list Z) : M pstate Z :=
  λ '(p, fs),
  let path := if cget path 0 =? 0 then POLICY_ACTIVE else path in
  let '(len, buf) := ramfs_read fs path 0 (RAMFS_FILE_SIZE - 1) in
  if len <? 0 then Ret (len, (p, fs))
  else
    let p' := load_lines [] (buf ++ [0]) (set_deny [] p) in
    Ret (zlen (deny_tools p'), (p', fs)).

(** ** Invariant *)

Record policy_wf (p : policy) : Prop := {
  pw_deny_len : zlen (deny_tools p) ≤ POLICY_DENY_MAX;
  pw_deny : Forall (λ t, 0 ≤ t ≤ 31 ∧ policy_exempt t = false) (deny_tools p);
  pw_deny_nodup : NoDup (deny_tools p);
  pw_net_len : zlen (net_allow p) ≤ POLICY_NET_ALLOW_MAX;
  pw_net : Forall (λ e, e.1 ≠ [] ∧ zlen e.1 < 48 ∧ e.2 ≠ 0) (net_allow p)
}.

Lemma deny_has_spec p tool : deny_has p tool = true ↔ tool ∈ deny_tools p.
Proof.
  unfold deny_has. rewrite existsb_exists. split.
  - intros (x & Hx & E). apply Z.eqb_eq in E as <-. by apply list_elem_of_In.
  - intros H. exists tool. split; [by apply list_elem_of_In|apply Z.eqb_refl].
Qed.

Lemma policy_deny_wf tool p : policy_wf p → policy_wf (policy_deny_tool tool p).2.
Proof.
  intros [H1 H2 H3 H4 H5]. unfold policy_deny_tool.
  destruct ((tool <? 0) || (31 <? tool)) eqn:Er; [done|].
  destruct (policy_exempt tool) eqn:Ee; [done|].
  destruct (deny_has p tool) eqn:Ed; [done|].
  destruct (POLICY_DENY_MAX <=? zlen (deny_tools p)) eqn:El; [done|]. bprop.
  split; simpl; try done.
  - rewrite zlen_app. change (zlen [tool]) with 1. lia.
  - apply Forall_app_2; [done|]. repeat constructor; done || lia.
  - apply NoDup_app. split; [done|]. split; [|apply NoDup_singleton].
    intros x Hx Hs. apply list_elem_of_singleton in Hs as ->. apply deny_has_spec in Hx. congruence.
Qed.

Lemma cget_0_nonempty s : cget s 0 ≠ 0 → s ≠ [].
Proof. by intros H ->. Qed.

Lemma policy_net_add_wf host port p : policy_wf p → policy_wf (policy_net_add_allow host port p).2.
Proof.
  intros [H1 H2 H3 H4 H5]. unfold policy_net_add_allow.
  destruct ((cget host 0 =? 0) || (port =? 0)) eqn:Er; [done|].
  destruct (existsb _ _); [done|]. destruct (POLICY_NET_ALLOW_MAX <=? _) eqn:El; [done|]. bprop.
  split; simpl; try done.
  - rewrite zlen_app. change (zlen [(take 47 host, port)]) with 1. lia.
  - apply Forall_app_2; [done|]. repeat constructor; simpl; [| |done].
    + destruct host; [|done]. by destruct (cget_0_nonempty [] H).
    + unfold zlen. rewrite length_take. lia.
Qed.

Lemma remove_first_sub tool l x : x ∈ remove_first tool l → x ∈ l.
Proof.
  induction l as [|t l IH]; simpl; [done|]. destruct (t =? tool); simpl.
  - intros. by apply list_elem_of_further.
  - intros [->|?]%elem_of_cons; [apply list_elem_of_here|]. apply list_elem_of_further. auto.
Qed.

Lemma remove_first_nodup tool l : NoDup l → NoDup (remove_first tool l) ∧ tool ∉ remove_first tool l.
Proof.
  induction 1 as [|t l Hn Hl [IH1 IH2]]; simpl; [split; [constructor|by intros ?%elem_of_nil]|].
  destruct (Z.eqb_spec t tool); simpl; [by subst|]. split.
  - constructor; [|done]. intros H. by apply remove_first_sub in H.
  - by intros [?|?]%elem_of_cons.
Qed.

Lemma remove_first_other tool l x : x ≠ tool → x ∈ l → x ∈ remove_first tool l.
Proof.
  intros Hne. induction l as [|t l IH]; simpl; [done|]. destruct (Z.eqb_spec t tool); simpl.
  - by intros [?|?]%elem_of_cons; simplify_eq.
  - intros [->|?]%elem_of_cons; [apply list_elem_of_here|]. apply list_elem_of_further. auto.
Qed.

Lemma remove_first_len tool l : zlen (remove_first tool l) ≤ zlen l.
Proof. induction l as [|t l IH]; simpl; [done|]. case_test; rewrite !zlen_cons; lia. Qed.

Lemma policy_allow_wf tool p : policy_wf p → policy_wf (policy_allow_tool tool p).2.
Proof.
  intros [H1 H2 H3 H4 H5]. split; simpl; try done.
  - pose proof (remove_first_len tool (deny_tools p)). lia.
  - apply Forall_forall. intros x Hx%remove_first_sub. by eapply Forall_forall in H2.
  - by apply remove_first_nodup.
Qed.

Lemma policy_restrict_wf on p : policy_wf p → policy_wf (policy_net_set_restrict on p).2.
Proof. intros []. unfold policy_net_set_restrict. by case_test; split. Qed.

Lemma policy_parse_net_wf line p : policy_wf p → policy_wf (policy_parse_net_allow line p).2.
Proof.
  intros Hw. unfold policy_parse_net_allow.
  repeat (case_test; [try done; try by apply policy_restrict_wf|]); try done.
  all: destruct (take_host _ _) as [host rest]; case_test; [done|];
    destruct (if cget rest 0 =? chr ":" then _ else _); [|done]; by apply policy_net_add_wf.
Qed.

Lemma policy_parse_line_wf line p : policy_wf p → policy_wf (policy_parse_line line p).2.
Proof.
  intros Hw. unfold policy_parse_line. case_test; [by apply policy_parse_net_wf|].
  case_test; [|done]. case_test; [done|]. by apply policy_deny_wf.
Qed.

Lemma load_lines_wf line buf p : policy_wf p → policy_wf (load_lines line buf p).
Proof.
  revert line p; induction buf as [|c buf IH]; intros line p Hw; simpl; [done|].
  case_test; [|by apply IH]. apply IH. case_test; [|done]. by apply policy_parse_line_wf.
Qed.

(** ** Reachable policies *)

(** One call that can change the policy. *)
Inductive policy_step : pstate → pstate → Prop :=
  | step_init s : policy_step s (policy_init s)
  | step_deny p fs tool : policy_step (p, fs) ((policy_deny_tool tool p).2, fs)
  | step_allow p fs tool : policy_step (p, fs) ((policy_allow_tool tool p).2, fs)
  | step_net_add p fs host port : policy_step (p, fs) ((policy_net_add_allow host port p).2, fs)
  | step_net_restrict p fs on : policy_step (p, fs) ((policy_net_set_restrict on p).2, fs)
  | step_load p fs path rc s : policy_load path (p, fs) = Ret (rc, s) → policy_step (p, fs) s
  | step_files p fs fs' : policy_step (p, fs) (p, fs').

Definition zero_policy : policy := mk_policy [] [] false.

Lemma zero_policy_wf : policy_wf zero_policy.
Proof. split; simpl; try done; constructor. Qed.

Lemma set_deny_nil_wf p : policy_wf p → policy_wf (set_deny [] p).
Proof. intros []. split; simpl; try done; constructor. Qed.

Lemma policy_step_wf s s' : policy_step s s' → policy_wf s.1 → policy_wf s'.1.
Proof.
  destruct 1 as [[p fs]|p fs tool|p fs tool|p fs host port|p fs on|p fs path rc s E|p fs fs'];
    simpl; intros Hw; auto using zero_policy_wf, policy_deny_wf, policy_allow_wf, policy_net_add_wf, policy_restrict_wf.
  { by apply (policy_allow_wf tool p). }
  unfold policy_load in E. destruct (ramfs_read _ _ _ _) as [len buf]. case_test; simplify_eq; [done|].
  simpl. by apply load_lines_wf, set_deny_nil_wf.
Qed.

(** Whatever policy calls, policy files and file changes happen, the deny
    list never overflows its 16 entries, has no duplicates and never contains a
    tool that is exempt, so the policy, fleet, remote, mesh and quota tools stay
    usable; the network list stays within its 8 entries. *)
Theorem policy_reachable s :
  rtc policy_step (zero_policy, zero_fs) s →
  policy_wf s.1 ∧ ∀ tool, policy_exempt tool = true → policy_tool_allow tool s.1 = 0 ∧ deny_has s.1 tool = false.
Proof.
  intros Hr. assert (policy_wf s.1) as Hw.
  { remember (zero_policy, zero_fs) as s0 eqn:E0. assert (policy_wf s0.1) as H0 by (subst; apply zero_policy_wf).
    clear E0. induction Hr; [done|]. eauto using policy_step_wf. }
  split; [done|]. intros tool He. unfold policy_tool_allow. rewrite He. split; [done|].
  destruct (deny_has s.1 tool) eqn:Ed; [|done]. apply deny_has_spec in Ed.
  destruct (proj1 (Forall_forall _ _) (pw_deny _ Hw) _ Ed) as [_ E]. congruence.
Qed.

Lemma policy_reachable_witness :
  policy_wf (policy_deny_tool 3 zero_policy).2
  ∧ policy_tool_allow TOOL_QUOTA (policy_deny_tool 3 zero_policy).2 = 0.
Proof.
  destruct (policy_reachable ((policy_deny_tool 3 zero_policy).2, zero_fs)) as [Hw H].
  - apply rtc_once. apply step_deny.
  - split; [exact Hw|]. by apply H.
Defined.

(** Denying and allowing tools: a deny that reports success makes that
    tool fail with EPERM and changes the answer for no other tool; an allow
    makes it succeed again, and again changes no other answer. *)
Theorem policy_deny_allow p tool other :
  policy_wf p → other ≠ tool →
  ((policy_deny_tool tool p).1 = 0 → policy_tool_allow tool (policy_deny_tool tool p).2 = EPERM)
  ∧ policy_tool_allow other (policy_deny_tool tool p).2 = policy_tool_allow other p
  ∧ policy_tool_allow tool (policy_allow_tool tool p).2 = 0
  ∧ policy_tool_allow other (policy_allow_tool tool p).2 = policy_tool_allow other p.
Proof.
  intros Hw Hne.
  assert (∀ q, (other ∈ deny_tools q ↔ other ∈ deny_tools p) →
            policy_tool_allow other q = policy_tool_allow other p) as Hsame.
  { intros q Hq. unfold policy_tool_allow. rewrite <- !deny_has_spec in Hq.
    destruct (deny_has q other), (deny_has p other); try done; exfalso.
    - by assert (false = true) by by apply Hq.
    - by assert (false = true) by by apply Hq. }
  split_and!.
  - unfold policy_deny_tool. case_test; [done|]. case_test; [done|]. case_test.
    { intros _. unfold policy_tool_allow. simpl. by rewrite Heqb0, Heqb1. }
    case_test; [done|]. intros _. unfold policy_tool_allow. rewrite Heqb0.
    replace (deny_has _ tool) with true; [done|]. symmetry. apply deny_has_spec. simpl.
    apply elem_of_app. right. by apply list_elem_of_singleton.
  - apply Hsame. unfold policy_deny_tool. repeat (case_test; [done|]). simpl.
    rewrite elem_of_app, list_elem_of_singleton. split; [intros [?|?]; [done|congruence]|auto].
  - unfold policy_tool_allow. case_test; [done|]. case_test; [|done].
    apply deny_has_spec in Heqb0. simpl in Heqb0. exfalso.
    by apply (remove_first_nodup tool (deny_tools p) (pw_deny_nodup p Hw)).
  - apply Hsame. simpl. split; [apply remove_first_sub|by apply remove_first_other].
Qed.

Lemma policy_deny_allow_witness :
  policy_tool_allow 3 (policy_deny_tool 3 zero_policy).2 = EPERM
  ∧ policy_tool_allow 4 (policy_deny_tool 3 zero_policy).2 = 0.
Proof.
  destruct (policy_deny_allow zero_policy 3 4 zero_policy_wf) as (H1 & H2 & _); [done|].
  split; [by apply H1|exact H2].
Defined.

(** ** Policy files *)

(** A file of deny rules. *)
Definition deny_rule (tool : Z) : list Z := str "deny " ++ dec tool.
Definition deny_file (tools : list Z) : list Z := concat ((λ t, deny_rule t ++ [10]) <$> tools).

Lemma load_lines_text line text c rest p :
  Forall (λ c, c ≠ 10 ∧ c ≠ 0) text → c = 10 ∨ c = 0 →
  load_lines line (text ++ c :: rest) p =
  load_lines [] rest (if negb (cget (line ++ text) 0 =? 0) then (policy_parse_line (line ++ text) p).2 else p).
Proof.
  intros Ht Hc. revert line; induction Ht as [|x text [H1 H2] Ht IH]; intros line; simpl.
  - rewrite app_nil_r. destruct Hc as [->| ->]; done.
  - test_false (x =? 10). test_false (x =? 0). simpl. rewrite IH, <- app_assoc. done.
Qed.

Lemma dec_no_blank n : 0 ≤ n → skip_blanks (dec n) = dec n ∧ is_digit (cget (dec n) 0) = true.
Proof.
  intros Hn. pose proof (dec_nonempty n Hn). pose proof (dec_digits n) as Hd.
  destruct (dec n) as [|c l]; [done|]. inversion Hd as [|? ? Hc _]; subst. split; [|done].
  apply is_digit_cstr in Hc as Hr. unfold is_digit in Hc. bprop. simpl.
  by test_false (c =? 32); test_false (c =? 9).
Qed.

Lemma parse_deny_rule tool p :
  0 ≤ tool ≤ 31 → policy_parse_line (deny_rule tool) p = policy_deny_tool tool p.
Proof.
  intros Ht. unfold policy_parse_line, deny_rule.
  change (skip_blanks (str "deny " ++ dec tool)) with (str "deny " ++ dec tool).
  replace (cmatch _ 0 (str "net")) with false by done.
  replace (cmatch (str "deny " ++ dec tool) 0 (str "deny")) with true by done.
  change (skip_blanks (drop 4 (str "deny " ++ dec tool))) with (skip_blanks (dec tool)).
  destruct (dec_no_blank tool) as [-> ->]; [lia|]. cbn [negb].
  rewrite <- (app_nil_r (dec tool)), scan_dec by lia. done.
Qed.

Lemma deny_rule_text tool : Forall (λ c, c ≠ 10 ∧ c ≠ 0) (deny_rule tool).
Proof.
  unfold deny_rule. apply Forall_app_2; [by repeat constructor|].
  eapply Forall_impl; [apply dec_digits|]. intros c Hc. unfold is_digit in Hc. bprop. lia.
Qed.

Lemma deny_file_cons t ts rest :
  deny_file (t :: ts) ++ rest = deny_rule t ++ 10 :: deny_file ts ++ rest.
Proof. unfold deny_file. rewrite fmap_cons. cbn [concat]. by rewrite <- !app_assoc. Qed.

Lemma load_deny_file tools p :
  Forall (λ t, 0 ≤ t ≤ 31 ∧ policy_exempt t = false) tools → NoDup (deny_tools p ++ tools) →
  zlen (deny_tools p ++ tools) ≤ POLICY_DENY_MAX →
  load_lines [] (deny_file tools ++ [0]) p = set_deny (deny_tools p ++ tools) p.
Proof.
  revert p; induction tools as [|t tools IH]; intros p Ht Hn Hl.
  - rewrite app_nil_r. by destruct p.
  - apply Forall_cons in Ht as [[Ht He] Hts]. rewrite deny_file_cons.
    rewrite (load_lines_text [] (deny_rule t) 10) by (apply deny_rule_text || by left). cbn [app].
    replace (negb (cget (deny_rule t) 0 =? 0)) with true by done.
    rewrite parse_deny_rule by done. rewrite zlen_app, zlen_cons in Hl. pose proof (zlen_nonneg tools).
    assert (policy_deny_tool t p = (0, set_deny (deny_tools p ++ [t]) p)) as ->.
    { unfold policy_deny_tool. test_false (t <? 0). test_false (31 <? t). cbn [orb]. rewrite He.
      replace (deny_has p t) with false.
      - by test_false (POLICY_DENY_MAX <=? zlen (deny_tools p)).
      - symmetry. destruct (deny_has p t) eqn:E; [|done]. apply deny_has_spec in E.
        apply NoDup_app in Hn as (_ & Hn & _). destruct (Hn t E). apply list_elem_of_here. }
    cbn [snd]. rewrite IH; cbn [deny_tools set_deny]; rewrite <- ?app_assoc; [done|done|done|].
    rewrite zlen_app. cbn [app]. by rewrite zlen_cons.
Qed.

(** Loading a policy file: a file that lists valid tools, one deny rule a
    line, replaces the deny list by exactly those tools in order and reports
    their number; the network rules and the files are unchanged. *)
Theorem policy_load_denies p fs path tools :
  ramfs_wf fs → path ≠ [] → cstr_ok path → fs_get fs path = Some (deny_file tools) →
  Forall (λ t, 0 ≤ t ≤ 31 ∧ policy_exempt t = false) tools → NoDup tools →
  zlen tools ≤ POLICY_DENY_MAX →
  policy_load path (p, fs) = Ret (zlen tools, (set_deny tools p, fs)).
Proof.
  intros Hw Hne Hc Hg Ht Hn Hl. unfold policy_load.
  assert (cget path 0 ≠ 0) as H0 by (destruct path as [|c s]; [done|]; apply Forall_cons in Hc as [Hc _]; unfold cget; simpl; lia).
  test_false (cget path 0 =? 0). destruct (fs_get_size fs path _ Hw Hg) as [Hsz _].
  unfold RAMFS_FILE_SIZE in *. rewrite (ramfs_read_all fs path _ (8192 - 1) Hw Hg) by lia.
  pose proof (zlen_nonneg (deny_file tools)). test_false (zlen (deny_file tools) <? 0).
  rewrite load_deny_file by done. cbn [deny_tools set_deny app]. done.
Qed.

Lemma policy_load_denies_witness :
  ∃ fs, policy_load POLICY_ACTIVE (zero_policy, fs) = Ret (1, (mk_policy [10] [] false, fs)).
Proof.
  pose proof (ramfs_put_spec zero_fs POLICY_ACTIVE seed_policy zero_fs_wf) as Hput.
  destruct (ramfs_put zero_fs POLICY_ACTIVE seed_policy (zlen seed_policy)) as [rc fs]. exists fs.
  destruct Hput as [(_ & Hw & Hg & _)|(_ & _ & F & _)];
    [split; [solve_bytes|done]|solve_bytes|done| |by destruct (zero_fs_not_full F)].
  apply (policy_load_denies zero_policy fs POLICY_ACTIVE [10] Hw); try done.
  - solve_bytes.
  - by repeat constructor.
  - apply NoDup_singleton.
Defined.

(** ** Network rules *)

Lemma net_entry_spec h q l : existsb (net_entry h q) l = true ↔ (h, q) ∈ l.
Proof.
  rewrite existsb_exists. split.
  - intros ([h' q'] & Hx & E). unfold net_entry, host_eq in E. bprop. apply bool_decide_eq_true in H0.
    simpl in *. subst. by apply list_elem_of_In.
  - intros H. exists (h, q). split; [by apply list_elem_of_In|]. unfold net_entry, host_eq. simpl.
    rewrite Z.eqb_refl. by apply bool_decide_eq_true.
Qed.

(** The decision under restriction. *)
Lemma policy_net_allow_spec h q p :
  cget h 0 ≠ 0 → net_restrict p = true → net_allow p ≠ [] →
  policy_net_allow h q p = if decide ((h, q) ∈ net_allow p) then 0 else EPERM.
Proof.
  intros H0 Hr Hn. unfold policy_net_allow. test_false (cget h 0 =? 0). rewrite Hr. cbn [negb orb].
  replace (zlen (net_allow p) =? 0) with false
    by (symmetry; apply Z.eqb_neq; destruct (net_allow p); [done|rewrite zlen_cons; unfold zlen; lia]).
  case_decide as E.
  - apply net_entry_spec in E. by rewrite E.
  - destruct (existsb _ _) eqn:Ex; [by apply net_entry_spec in Ex|done].
Qed.

(** Network rules under restriction: a rule that is accepted opens its
    host and port when the host name has at most 47 characters; a longer name is
    accepted too but stays blocked, since the rule is stored cut; and once the
    list is not empty the answer for every other host and port is unchanged. *)
Theorem policy_net_rules p host port :
  policy_wf p → net_restrict p = true → cget host 0 ≠ 0 → (policy_net_add_allow host port p).1 = 0 →
  let p' := (policy_net_add_allow host port p).2 in
  policy_net_allow host port p' = (if zlen host <? 48 then 0 else EPERM)
  ∧ ∀ h q, net_allow p ≠ [] → cget h 0 ≠ 0 → (h, q) ≠ (take 47 host, port) →
      policy_net_allow h q p' = policy_net_allow h q p.
Proof.
  intros Hw Hr H0 Hrc p'. unfold p' in *. unfold policy_net_add_allow in *.
  destruct ((cget host 0 =? 0) || (port =? 0)) eqn:Er; [done|].
  destruct (existsb (net_entry host port) (net_allow p)) eqn:Ex.
  - apply net_entry_spec in Ex as Hin. cbn [snd]. split; [|done].
    rewrite policy_net_allow_spec by (done || by intros E; rewrite E in Hin; apply elem_of_nil in Hin).
    rewrite decide_True by done. destruct (proj1 (Forall_forall _ _) (pw_net p Hw) _ Hin) as (_ & Hl & _).
    simpl in Hl. by test_true (zlen host <? 48).
  - destruct (POLICY_NET_ALLOW_MAX <=? zlen (net_allow p)) eqn:El; [done|]. cbn [snd].
    set (q' := set_net_allow _ p). assert (net_allow q' ≠ []) as Hne by (simpl; by destruct (net_allow p)).
    split.
    + rewrite policy_net_allow_spec by done. simpl net_allow. destruct (Z.ltb_spec (zlen host) 48) as [Hl|Hl].
      * rewrite decide_True; [done|]. apply elem_of_app. right. apply list_elem_of_singleton.
        rewrite take_ge; [done|]. unfold zlen in *. lia.
      * rewrite decide_False; [done|]. rewrite elem_of_app, list_elem_of_singleton. intros [Hi|E].
        -- apply net_entry_spec in Hi. congruence.
        -- injection E as E. apply (f_equal length) in E. rewrite length_take in E. unfold zlen in *. lia.
    + intros h q Hn Hh Hd. rewrite !policy_net_allow_spec by done. simpl net_allow.
      assert ((h, q) ∈ net_allow p ++ [(take 47 host, port)] ↔ (h, q) ∈ net_allow p) as Hiff
        by (rewrite elem_of_app, list_elem_of_singleton; tauto).
      case_decide as H1; case_decide as H2; tauto.
Qed.

Lemma policy_net_rules_witness :
  policy_net_allow (str "a.b") 443 (policy_net_add_allow (str "a.b") 443 (mk_policy [] [] true)).2 = 0.
Proof.
  refine (proj1 (policy_net_rules (mk_policy [] [] true) (str "a.b") 443 _ _ _ _)); [|done|done|done].
  split; simpl; try done; constructor.
Defined.
