(* ===== verification/Mem.v ===== *)
(** * The kernel heap (kernel/mem.c)

    A bump allocator over a 2 MiB region; [kfree] does nothing.  The spin lock
    makes each allocation atomic.  The null pointer is 0. *)

From S2P Require Import Prelude.

Definition HEAP_SIZE : Z := 2 * 1024 * 1024.

Record heap := mk_heap { heap_ptr : Z; heap_end : Z }.

Definition mem_init (heap_start : Z) : heap := mk_heap heap_start (heap_start + HEAP_SIZE).

(** [x & ~(2^k - 1)] *)
Definition align_down (k x : Z) : Z := Z.shiftl (Z.shiftr x k) k.

(** The sum [heap_ptr + size] wraps at 64 bits. *)
Definition kalloc (size : Z) (h : heap) : Z * heap :=
  let size := align_down 4 (u64 (size + 15)) in
  if heap_end h <? u64 (heap_ptr h + size) then (0, h)
  else (heap_ptr h, mk_heap (u64 (heap_ptr h + size)) (heap_end h)).

Definition kalloc_page (h : heap) : Z * heap :=
  let p := align_down 12 (u64 (heap_ptr h + 4096 - 1)) in
  if heap_end h <? u64 (p + 4096) then (0, h)
  else (p, mk_heap (u64 (p + 4096)) (heap_end h)).

Definition kfree (ptr : Z) (h : heap) : heap := h.

(** ** Lemmas *)

Lemma align_down_spec k x : 0 ≤ k → align_down k x = x / 2 ^ k * 2 ^ k.
Proof. intros. unfold align_down. by rewrite Z.shiftl_mul_pow2, Z.shiftr_div_pow2. Qed.

Lemma align_down_12 x : align_down 12 x = x / 4096 * 4096.
Proof. by rewrite align_down_spec. Qed.

Lemma align_down_4 x : align_down 4 x = x / 16 * 16.
Proof. by rewrite align_down_spec. Qed.

(** The pointer is inside the region and aligned to 16 bytes, and the region is
    within the 56 bits of a physical address. *)
Record heap_wf (start : Z) (h : heap) : Prop := {
  hw_start : 0 < start;
  hw_ptr : start ≤ heap_ptr h ≤ heap_end h;
  hw_end : heap_end h = start + HEAP_SIZE;
  hw_top : start + HEAP_SIZE < 72057594037927936;
  hw_align : heap_ptr h mod 16 = 0
}.

Lemma kalloc_spec start h size :
  heap_wf start h → 0 ≤ size < 4294967296 →
  ∃ n, n = (size + 15) / 16 * 16 ∧ size ≤ n ∧
  ((heap_ptr h + n ≤ heap_end h ∧ kalloc size h = (heap_ptr h, mk_heap (heap_ptr h + n) (heap_end h))
    ∧ heap_wf start (mk_heap (heap_ptr h + n) (heap_end h)))
   ∨ (heap_end h < heap_ptr h + n ∧ kalloc size h = (0, h))).
Proof.
  intros [H1 H2 H3 H4 H5] Hs. unfold kalloc, HEAP_SIZE in *. rewrite (u64_small (size + 15)), align_down_4 by lia.
  set (n := (size + 15) / 16 * 16). exists n. split; [done|].
  assert (size ≤ n ≤ size + 15 ∧ n mod 16 = 0) as [Hn Hm].
  { unfold n. split; [Z.to_euclidean_division_equations; lia|]. by apply Z_mod_mult. }
  split; [lia|]. rewrite u64_small by lia. destruct (Z.ltb_spec (heap_end h) (heap_ptr h + n)); [by right|].
  left. split; [done|]. split; [done|]. split; simpl; try done; try lia.
  rewrite Z.add_mod, H5, Hm by lia. done.
Qed.

Lemma kalloc_page_spec start h :
  heap_wf start h →
  ∃ p, heap_ptr h ≤ p < heap_ptr h + 4096 ∧ p mod 4096 = 0 ∧
  ((p + 4096 ≤ heap_end h ∧ kalloc_page h = (p, mk_heap (p + 4096) (heap_end h))
    ∧ heap_wf start (mk_heap (p + 4096) (heap_end h)))
   ∨ (heap_end h < p + 4096 ∧ kalloc_page h = (0, h))).
Proof.
  intros [H1 H2 H3 H4 H5]. unfold kalloc_page, HEAP_SIZE in *. rewrite (u64_small (heap_ptr h + 4096 - 1)), align_down_12 by lia.
  set (p := (heap_ptr h + 4096 - 1) / 4096 * 4096). exists p.
  assert (heap_ptr h ≤ p < heap_ptr h + 4096 ∧ p mod 4096 = 0) as [Hp Hm].
  { unfold p. split; [Z.to_euclidean_division_equations; lia|]. by apply Z_mod_mult. }
  split; [done|]. split; [done|]. rewrite u64_small by lia.
  destruct (Z.ltb_spec (heap_end h) (p + 4096)); [by right|].
  left. split; [done|]. split; [done|]. split; simpl; try done; try lia.
  Z.to_euclidean_division_equations; lia.
Qed.

(** ** Allocation histories *)

(** A run of allocations of blocks below 4 GiB and pages; a region is a start
    and a length. *)
Inductive alloc_step : heap * list (Z * Z) → heap * list (Z * Z) → Prop :=
  | alloc_block h rs size p h' :
      0 ≤ size < 4294967296 → kalloc size h = (p, h') → p ≠ 0 →
      alloc_step (h, rs) (h', (p, size) :: rs)
  | alloc_page h rs p h' :
      kalloc_page h = (p, h') → p ≠ 0 → alloc_step (h, rs) (h', (p, 4096) :: rs)
  | alloc_fail h rs size h' : kalloc size h = (0, h') → 0 ≤ size < 4294967296 → alloc_step (h, rs) (h', rs)
  | alloc_free h rs p : alloc_step (h, rs) (kfree p h, rs).

Definition region_below (top : Z) (start : Z) (r : Z * Z) : Prop :=
  start ≤ r.1 ∧ r.1 + r.2 ≤ top ∧ r.1 mod 16 = 0.

Definition disjoint_regions (r s : Z * Z) : Prop := r.1 + r.2 ≤ s.1 ∨ s.1 + s.2 ≤ r.1.

Record alloc_inv (start : Z) (s : heap * list (Z * Z)) : Prop := {
  ai_heap : heap_wf start s.1;
  ai_below : Forall (region_below (heap_ptr s.1) start) s.2;
  ai_disjoint : ForallOrdPairs disjoint_regions s.2
}.

Lemma alloc_inv_grow start h h' rs p n :
  alloc_inv start (h, rs) → heap_wf start h' → heap_ptr h ≤ p → p + n ≤ heap_ptr h' → p mod 16 = 0 →
  0 ≤ n → alloc_inv start (h', (p, n) :: rs).
Proof.
  intros [Hw Hb Hd] Hw' Hp Hn Hm H0. simpl in *. split; simpl; [done| |].
  - constructor; [by split; simpl; [destruct Hw; lia|]|]. eapply Forall_impl; [exact Hb|].
    intros r (H1 & H2 & H3). split_and!; [done|lia|done].
  - constructor; [|done]. apply List.Forall_forall. intros r Hr. right. simpl.
    rewrite List.Forall_forall in Hb. destruct (Hb r Hr) as (_ & ? & _). lia.
Qed.

Lemma alloc_step_inv start s s' : alloc_step s s' → alloc_inv start s → alloc_inv start s'.
Proof.
  intros Hst Hi. destruct Hst as [h rs size p h' Hs E Hp|h rs p h' E Hp|h rs size h' E Hs|h rs p].
  - destruct (kalloc_spec start h size (ai_heap _ _ Hi) Hs) as (n & En & Hn & [(? & E' & Hw)|(? & E')]);
      rewrite E in E'; simplify_eq.
    eapply alloc_inv_grow; try done; simpl; try lia. apply (hw_align _ _ (ai_heap _ _ Hi)).
  - destruct (kalloc_page_spec start h (ai_heap _ _ Hi)) as (q & Hq & Hm & [(? & E' & Hw)|(? & E')]);
      rewrite E in E'; simplify_eq.
    eapply alloc_inv_grow; try done; simpl; try lia.
    Z.to_euclidean_division_equations; lia.
  - destruct (kalloc_spec start h size (ai_heap _ _ Hi) Hs) as (n & En & Hn & [(? & E' & Hw)|(? & E')]);
      rewrite E in E'; simplify_eq; [|done].
    destruct Hi as [[? ? ? ? ?] _ _]. simpl in *. lia.
  - done.
Qed.

(** The allocator hands out disjoint memory: after any sequence of
    allocations and frees starting from an initialised heap, all blocks ever
    returned lie inside the heap region, are aligned to 16 bytes, and no two of
    them overlap. *)
Theorem alloc_disjoint start h rs :
  0 < start < 36028797018963968 → start mod 16 = 0 →
  rtc alloc_step (mem_init start, []) (h, rs) →
  Forall (λ r, start ≤ r.1 ∧ r.1 + r.2 ≤ start + HEAP_SIZE ∧ r.1 mod 16 = 0) rs
  ∧ ForallOrdPairs disjoint_regions rs.
Proof.
  intros Hs Hm Hr. assert (alloc_inv start (h, rs)) as [Hw Hb Hd].
  { remember (mem_init start, []) as s0 eqn:E0. remember (h, rs) as s1 eqn:E1. clear E1.
    assert (alloc_inv start s0) as H0.
    { subst. split; simpl; [|constructor|constructor].
      split; simpl; unfold HEAP_SIZE; try done; lia. }
    clear E0. induction Hr; eauto using alloc_step_inv. }
  split; [|done]. simpl in *. eapply Forall_impl; [exact Hb|]. intros r (? & ? & ?).
  destruct Hw. split_and!; [done|lia|done].
Qed.

Lemma alloc_disjoint_witness :
  ForallOrdPairs disjoint_regions [(0x80601000, 4096); (0x80600000, 100)].
Proof.
  apply (alloc_disjoint 0x80600000 (mk_heap 0x80602000 0x80800000)); [lia|done|].
  eapply rtc_l; [apply (alloc_block _ _ 100); [lia|reflexivity|done]|].
  eapply rtc_l; [apply alloc_page; [reflexivity|done]|]. apply rtc_refl.
Defined.
