(* ===== verification/AgentDef.v ===== *)
(** * The agent structure (kernel/agent.h)

    [struct agent] and [struct trapframe].  A trapframe is 33 machine words; it
    is kept as the list of them, with the fields by their index in the
    structure.  The kernel allocates one trapframe per agent and reaches it only
    through the agent, so the field [tf] holds its contents, [None] for a null
    pointer.  Page tables, code and stacks are addresses, 0 for null. *)

From S2P Require Import Prelude Abi Ipc.

Abbreviation trapframe := (list Z).

Module tf.

Definition RA : nat := 0.
Definition SP : nat := 1.
Definition GP : nat := 2.
Definition A0 : nat := 9.
Definition A1 : nat := 10.
Definition A2 : nat := 11.
Definition A3 : nat := 12.
Definition A7 : nat := 16.
Definition SEPC : nat := 31.
Definition SSTATUS : nat := 32.
Definition WORDS : nat := 33.

Definition get (i : nat) (t : trapframe) : Z := nth i t 0.
Definition set (i : nat) (v : Z) (t : trapframe) : trapframe := <[i := v]> t.
Definition zero : trapframe := replicate WORDS 0.

End tf.

Record agent := mk_agent {
  id : Z;
  name : list Z;
  state : agent_state;
  phase : agent_phase;
  stack_base : Z;
  atf : option trapframe;
  caps : Z;
  inbox : msgbox;
  exit_code : Z;
  entry : Z;
  pagetable : Z;
  heap_base : Z;
  heap_max_pages : Z;
  heap_mapped : Z;
  home_cpu : Z;
  running_cpu : Z
}.

(** An agent of zero-initialised static storage. *)
Definition zero_agent : agent :=
  mk_agent 0 [] AGENT_UNUSED AGENT_PHASE_IDLE 0 None 0 zero_box 0 0 0 0 0 0 0 0.

(** Field updates. *)
Module upd.

Definition id (v : Z) (a : agent) : agent :=
  mk_agent v (name a) (state a) (phase a) (stack_base a) (atf a) (caps a) (inbox a) (exit_code a)
    (entry a) (pagetable a) (heap_base a) (heap_max_pages a) (heap_mapped a) (home_cpu a) (running_cpu a).
Definition name (v : list Z) (a : agent) : agent :=
  mk_agent (AgentDef.id a) v (state a) (phase a) (stack_base a) (atf a) (caps a) (inbox a) (exit_code a)
    (entry a) (pagetable a) (heap_base a) (heap_max_pages a) (heap_mapped a) (home_cpu a) (running_cpu a).
Definition state (v : agent_state) (a : agent) : agent :=
  mk_agent (AgentDef.id a) (AgentDef.name a) v (phase a) (stack_base a) (atf a) (caps a) (inbox a) (exit_code a)
    (entry a) (pagetable a) (heap_base a) (heap_max_pages a) (heap_mapped a) (home_cpu a) (running_cpu a).
Definition phase (v : agent_phase) (a : agent) : agent :=
  mk_agent (AgentDef.id a) (AgentDef.name a) (AgentDef.state a) v (stack_base a) (atf a) (caps a) (inbox a) (exit_code a)
    (entry a) (pagetable a) (heap_base a) (heap_max_pages a) (heap_mapped a) (home_cpu a) (running_cpu a).
Definition atf (v : option trapframe) (a : agent) : agent :=
  mk_agent (AgentDef.id a) (AgentDef.name a) (AgentDef.state a) (AgentDef.phase a) (stack_base a) v (caps a)
    (inbox a) (exit_code a) (entry a) (pagetable a) (heap_base a) (heap_max_pages a) (heap_mapped a)
    (home_cpu a) (running_cpu a).
Definition caps (v : Z) (a : agent) : agent :=
  mk_agent (AgentDef.id a) (AgentDef.name a) (AgentDef.state a) (AgentDef.phase a) (stack_base a) (AgentDef.atf a) v
    (inbox a) (exit_code a) (entry a) (pagetable a) (heap_base a) (heap_max_pages a) (heap_mapped a)
    (home_cpu a) (running_cpu a).
Definition inbox (v : msgbox) (a : agent) : agent :=
  mk_agent (AgentDef.id a) (AgentDef.name a) (AgentDef.state a) (AgentDef.phase a) (stack_base a) (AgentDef.atf a)
    (AgentDef.caps a) v (exit_code a) (entry a) (pagetable a) (heap_base a) (heap_max_pages a) (heap_mapped a)
    (home_cpu a) (running_cpu a).
Definition exit_code (v : Z) (a : agent) : agent :=
  mk_agent (AgentDef.id a) (AgentDef.name a) (AgentDef.state a) (AgentDef.phase a) (stack_base a) (AgentDef.atf a)
    (AgentDef.caps a) (AgentDef.inbox a) v (entry a) (pagetable a) (heap_base a) (heap_max_pages a) (heap_mapped a)
    (home_cpu a) (running_cpu a).
Definition pagetable (v : Z) (a : agent) : agent :=
  mk_agent (AgentDef.id a) (AgentDef.name a) (AgentDef.state a) (AgentDef.phase a) (stack_base a) (AgentDef.atf a)
    (AgentDef.caps a) (AgentDef.inbox a) (AgentDef.exit_code a) (entry a) v (heap_base a) (heap_max_pages a)
    (heap_mapped a) (home_cpu a) (running_cpu a).
Definition heap_mapped (v : Z) (a : agent) : agent :=
  mk_agent (AgentDef.id a) (AgentDef.name a) (AgentDef.state a) (AgentDef.phase a) (stack_base a) (AgentDef.atf a)
    (AgentDef.caps a) (AgentDef.inbox a) (AgentDef.exit_code a) (entry a) (AgentDef.pagetable a) (heap_base a)
    (heap_max_pages a) v (home_cpu a) (running_cpu a).
Definition home_cpu (v : Z) (a : agent) : agent :=
  mk_agent (AgentDef.id a) (AgentDef.name a) (AgentDef.state a) (AgentDef.phase a) (stack_base a) (AgentDef.atf a)
    (AgentDef.caps a) (AgentDef.inbox a) (AgentDef.exit_code a) (entry a) (AgentDef.pagetable a) (heap_base a)
    (heap_max_pages a) (AgentDef.heap_mapped a) v (running_cpu a).
Definition running_cpu (v : Z) (a : agent) : agent :=
  mk_agent (AgentDef.id a) (AgentDef.name a) (AgentDef.state a) (AgentDef.phase a) (stack_base a) (AgentDef.atf a)
    (AgentDef.caps a) (AgentDef.inbox a) (AgentDef.exit_code a) (entry a) (AgentDef.pagetable a) (heap_base a)
    (heap_max_pages a) (AgentDef.heap_mapped a) (AgentDef.home_cpu a) v.
(** The fields that a successful [agent_setup_stack] fills in. *)
Definition stack (base : Z) (t : trapframe) (ent hbase hmax : Z) (a : agent) : agent :=
  mk_agent (AgentDef.id a) (AgentDef.name a) (AgentDef.state a) (AgentDef.phase a) base (Some t)
    (AgentDef.caps a) (AgentDef.inbox a) (AgentDef.exit_code a) ent (AgentDef.pagetable a) hbase hmax 0
    (AgentDef.home_cpu a) (AgentDef.running_cpu a).

End upd.
