(* ===== verification/Vm.v ===== *)
(** * SV39 page tables and the agent heaps (kernel/vm.c, kernel/vm.h)

    Page tables live in a static root table and a static pool of 64 tables;
    [pt_mem] maps the physical address of a table to its 512 entries, and
    [pt_next] counts the pool tables handed out.  [pmem] is the rest of physical
    memory, byte by byte (unwritten bytes are 0), and [kheap] the kernel heap the
    agents' pages come from.  A pointer to a page-table entry is the table's
    address and the index.  Addresses the linker and the platform fix are the
    class [Layout].

    [xlate mem r va] is the entry the hardware finds for an address in the table
    rooted at [r].  The theorems: mapping a page changes the translation of that
    page alone; a page mapped in one agent's private half is invisible in every
    other agent's table; the access check accepts a range exactly when all its
    pages are accessible; a copy-on-write alias shares contents until the first
    write, and the write fault gives the writer a private copy. *)

From S2P Require Import Prelude Abi AgentDef Mem.

Definition PAGE_SHIFT : Z := 12.
Definition PAGE_SIZE : Z := 4096.
Definition PTE_V : Z := 0x001.
Definition PTE_R : Z := 0x002.
Definition PTE_W : Z := 0x004.
Definition PTE_X : Z := 0x008.
Definition PTE_U : Z := 0x010.
Definition PTE_A : Z := 0x040.
Definition PTE_D : Z := 0x080.
Definition PTE_STD : Z := Z.lor PTE_A PTE_D.
Definition AGENT_HEAP_SIZE : Z := 16 * PAGE_SIZE.
Definition HEAP_MAP_SIZE : Z := 2 * 1024 * 1024.
Definition PT_PAGES : Z := 64.
Definition ACLINT_MSWI_BASE : Z := 0x02000000.

(** Addresses fixed by the linker script and the platform description. *)
Class Layout := {
  root_table : Z;
  pt_storage : Z;
  sym_start : Z; sym_erodata : Z; sym_end : Z;
  sym_ptpool_start : Z; sym_ptpool_end : Z;
  sym_user_text_start : Z; sym_user_bss_start : Z; sym_user_end : Z;
  platform_heap_start : Z;
  platform_uart_mmio : Z;
  platform_virtio_mmio_base : Z; platform_virtio_mmio_count : Z; platform_virtio_mmio_stride : Z
}.

Record vm := mk_vm {
  pt_mem : gmap Z (list Z);
  pt_next : Z;
  kernel_pt : Z;
  pmem : gmap Z Z;
  kheap : heap
}.

(** A cleared table. *)
Definition zero_table : list Z := replicate 512 0.

Definition with_pt (m : gmap Z (list Z)) (v : vm) : vm :=
  mk_vm m (pt_next v) (kernel_pt v) (pmem v) (kheap v).
Definition with_pmem (m : gmap Z Z) (v : vm) : vm :=
  mk_vm (pt_mem v) (pt_next v) (kernel_pt v) m (kheap v).
Definition with_heap (h : heap) (v : vm) : vm :=
  mk_vm (pt_mem v) (pt_next v) (kernel_pt v) (pmem v) h.

(** ** Entries *)

Definition has (flag e : Z) : bool := negb (Z.land e flag =? 0).

Definition pa_round_down (x : Z) : Z := align_down 12 x.
Definition pa_round_up (x : Z) : Z := align_down 12 (u64 (x + PAGE_SIZE - 1)).

Definition vm_pte_pa (pte : Z) : Z := u64 (Z.shiftl (Z.shiftr pte 10) PAGE_SHIFT).

(** [((pa >> PAGE_SHIFT) << 10) | flags] *)
Definition pte_make (pa flags : Z) : Z := Z.lor (Z.shiftl (Z.shiftr pa PAGE_SHIFT) 10) flags.

(** [(va >> (12 + 9 * level)) & 0x1ff] *)
Definition pt_index (level va : Z) : nat := Z.to_nat (Z.land (Z.shiftr va (12 + 9 * level)) 0x1ff).

Definition ent (m : gmap Z (list Z)) (t : Z) (i : nat) : option Z := tbl ← m !! t; tbl !! i.

Definition set_ent (m : gmap Z (list Z)) (t : Z) (i : nat) (e : Z) : gmap Z (list Z) :=
  alter (λ tbl, <[i := e]> tbl) t m.

(** Access through a pointer to an entry; a pointer outside the tables is not
    something the kernel can use safely. *)
Definition get_pte (p : Z * nat) : M vm Z :=
  λ v, match ent (pt_mem v) p.1 p.2 with Some e => Ret (e, v) | None => Undef end.

Definition set_pte (p : Z * nat) (e : Z) : M vm unit :=
  λ v, match ent (pt_mem v) p.1 p.2 with
       | Some _ => Ret (tt, with_pt (set_ent (pt_mem v) p.1 p.2 e) v)
       | None => Undef
       end.

Section vm.
Context {L : Layout}.

Definition pool_table (k : Z) : Z := pt_storage + 4096 * k.

Definition pt_alloc : M vm Z :=
  λ v,
  if PT_PAGES <=? pt_next v then Ret (0, v)
  else
    let pt := pool_table (pt_next v) in
    Ret (pt, mk_vm (<[pt := zero_table]> (pt_mem v)) (pt_next v + 1)
               (kernel_pt v) (pmem v) (kheap v)).

Fixpoint walk_levels (levels : list Z) (pt va : Z) (alloc : bool) : M vm (option Z) :=
  match levels with
  | [] => ret (Some pt)
  | level :: levels' =>
      let p := (pt, pt_index level va) in
      let! pte := get_pte p in
      if has PTE_V pte then walk_levels levels' (vm_pte_pa pte) va alloc
      else if negb alloc then ret None
      else
        let! child := pt_alloc in
        if child =? 0 then ret None
        else set_pte p (pte_make child PTE_V) ;; walk_levels levels' child va alloc
  end.

(** The pointer to the leaf entry of an address. *)
Definition vm_walk (pt va : Z) (alloc : bool) : M vm (option (Z * nat)) :=
  let! t := walk_levels [2; 1] pt va alloc in
  ret ((λ t, (t, pt_index 0 va)) <$> t).

Definition vm_map_page (pt va pa perm : Z) : M vm Z :=
  if negb (va mod PAGE_SIZE =? 0) || negb (pa mod PAGE_SIZE =? 0) then ret (-1)
  else
    let! pte := vm_walk pt va true in
    match pte with
    | None => ret (-1)
    | Some p =>
        let! e := get_pte p in
        if has PTE_V e then ret (-1)
        else set_pte p (pte_make pa (Z.lor (Z.lor perm PTE_V) PTE_STD)) ;; ret 0
    end.

Definition vm_map_user_page (pt va pa perm : Z) : M vm Z := vm_map_page pt va pa perm.

Definition vm_page_mapped (pt va : Z) : M vm bool :=
  let! pte := vm_walk pt (align_down 12 va) false in
  match pte with
  | None => ret false
  | Some p => let! e := get_pte p in ret (has PTE_V e)
  end.

(** The loop over the pages of a range.  The fuel is the number of pages; when
    the last page is the last of the address space the counter wraps to 0. *)
Fixpoint check_pages (fuel : nat) (pt a end_ : Z) (write : bool) : M vm Z :=
  if negb (a <? end_) then ret 0
  else match fuel with
       | O => undef
       | S fuel' =>
           let! pte := vm_walk pt a false in
           match pte with
           | None => ret (-1)
           | Some p =>
               let! e := get_pte p in
               if negb (has PTE_V e) then ret (-1)
               else if negb (has PTE_U e) then ret (-1)
               else if (if write then negb (has PTE_W e)
                        else negb (has PTE_R e) && negb (has PTE_X e)) then ret (-1)
               else check_pages fuel' pt (u64 (a + PAGE_SIZE)) end_ write
           end
       end.

Definition vm_user_check (pt ua len : Z) (write : bool) : M vm Z :=
  if len =? 0 then ret 0
  else
    let end_ := u64 (ua + len) in
    if end_ <? ua then ret (-1)
    else
      let a := align_down 12 ua in
      check_pages (Z.to_nat ((end_ - a) / PAGE_SIZE + 1)) pt a end_ write.

(** ** Agent heaps.  The state is the memory and the agent. *)

Definition vstate : Type := vm * agent.

Definition onvm {A} (m : M vm A) : M vstate A := zoom fst (λ v s, (v, s.2)) m.
Definition ag {A} (f : agent → A) : M vstate A := gets (λ s, f s.2).
Definition setag (f : agent → agent) : M vstate unit := modify (λ s, (s.1, f s.2)).

Definition vm_kalloc_page : M vm Z :=
  λ v, let '(p, h) := kalloc_page (kheap v) in Ret (p, with_heap h v).

(** [for (i = 0; i < n; i++) dst[i] = src[i]] *)
Fixpoint copy_bytes (n : nat) (dst src : Z) (m : gmap Z Z) : gmap Z Z :=
  match n with
  | O => m
  | S n' => copy_bytes n' (dst + 1) (src + 1) (<[dst := default 0 (m !! src)]> m)
  end.

Definition vm_cow_break (page_va : Z) : M vstate Z :=
  let page_va := align_down 12 page_va in
  let! pt := ag pagetable in
  let! pte := onvm (vm_walk pt page_va false) in
  match pte with
  | None => ret (-1)
  | Some p =>
      let! e := onvm (get_pte p) in
      if negb (has PTE_V e) then ret (-1)
      else if has PTE_W e then ret 0
      else
        let old_pa := vm_pte_pa e in
        let! new_pa := onvm vm_kalloc_page in
        if new_pa =? 0 then ret (-1)
        else
          onvm (modify (λ v, with_pmem (copy_bytes (Z.to_nat PAGE_SIZE) new_pa old_pa (pmem v)) v)) ;;
          onvm (set_pte p (pte_make new_pa
            (Z.lor (Z.lor (Z.lor (Z.lor PTE_U PTE_R) PTE_W) PTE_V) PTE_STD))) ;;
          ret 0
  end.

(** The flags of an aliased page. *)
Definition PTE_COW : Z := Z.lor (Z.lor (Z.lor PTE_U PTE_R) PTE_V) PTE_STD.

Definition vm_heap_cow_alias (dst_off src_off : Z) : M vstate Z :=
  let! a := gets snd in
  if pagetable a =? 0 then ret EINVAL
  else if dst_off =? src_off then ret EINVAL
  else if (src_off <? 0) || (heap_max_pages a <=? src_off) then ret EINVAL
  else if (dst_off <? 0) || (heap_max_pages a <=? dst_off) then ret EINVAL
  else
    let pt := pagetable a in
    let src_va := u64 (heap_base a + src_off * PAGE_SIZE) in
    let dst_va := u64 (heap_base a + dst_off * PAGE_SIZE) in
    let! mapped := onvm (vm_page_mapped pt src_va) in
    if negb mapped then ret EINVAL
    else
      let! src_pte := onvm (vm_walk pt src_va false) in
      match src_pte with
      | None => ret EINVAL
      | Some sp =>
          let! se := onvm (get_pte sp) in
          if negb (has PTE_V se) then ret EINVAL
          else
            let pa := vm_pte_pa se in
            let! dmapped := onvm (vm_page_mapped pt dst_va) in
            let! rc :=
              (if dmapped : bool then
                 let! dst_pte := onvm (vm_walk pt dst_va false) in
                 match dst_pte with
                 | None => ret EINVAL
                 | Some dp =>
                     let! de := onvm (get_pte dp) in
                     if negb (has PTE_V de) then ret EINVAL
                     else if negb (vm_pte_pa de =? pa) then ret EINVAL
                     else ret 0
                 end
               else
                 if heap_max_pages a <=? heap_mapped a then ret ENOSPC
                 else
                   let! rc := onvm (vm_map_user_page pt dst_va pa (Z.lor PTE_U PTE_R)) in
                   if negb (rc =? 0) then ret ENOSPC
                   else setag (λ a, upd.heap_mapped (heap_mapped a + 1) a) ;; ret 0) in
            if negb (rc =? 0) then ret rc
            else
              onvm (set_pte sp (pte_make pa PTE_COW)) ;;
              let! dst_pte := onvm (vm_walk pt dst_va false) in
              match dst_pte with
              | None => ret EINVAL
              | Some dp =>
                  let! de := onvm (get_pte dp) in
                  if negb (has PTE_V de) then ret EINVAL
                  else onvm (set_pte dp (pte_make pa PTE_COW)) ;; ret (i32 dst_va)
              end
      end.

Definition in_heap (a : agent) (va : Z) : bool :=
  negb ((va <? heap_base a) || (u64 (heap_base a + heap_max_pages a * PAGE_SIZE) <=? va)).

Definition vm_heap_map_page (va : Z) : M vstate Z :=
  let! a := gets snd in
  if pagetable a =? 0 then ret (-1)
  else
    let page_va := align_down 12 va in
    if negb (in_heap a va) then ret (-1)
    else
      let! mapped := onvm (vm_page_mapped (pagetable a) page_va) in
      if mapped : bool then ret 0
      else if heap_max_pages a <=? heap_mapped a then ret (-1)
      else
        let! pa := onvm vm_kalloc_page in
        if pa =? 0 then ret (-1)
        else
          let! rc := onvm (vm_map_user_page (pagetable a) page_va pa (Z.lor (Z.lor PTE_U PTE_R) PTE_W)) in
          if negb (rc =? 0) then ret (-1)
          else setag (λ a, upd.heap_mapped (heap_mapped a + 1) a) ;; ret 0.

(** Whether the fault was handled. *)
Definition vm_heap_fault (va : Z) (write : bool) : M vstate bool :=
  let! a := gets snd in
  if pagetable a =? 0 then ret false
  else if negb (in_heap a va) then ret false
  else
    let page_va := align_down 12 va in
    let! mapped := onvm (vm_page_mapped (pagetable a) page_va) in
    if mapped : bool then
      if negb write then ret false
      else
        let! pte := onvm (vm_walk (pagetable a) page_va false) in
        match pte with
        | None => ret false
        | Some p =>
            let! e := onvm (get_pte p) in
            if has PTE_V e && negb (has PTE_W e)
            then let! rc := vm_cow_break page_va in ret (rc =? 0)
            else ret false
        end
    else let! rc := vm_heap_map_page va in ret (rc =? 0).

(** ** Regions and initialisation *)

(** The loop [for (; a < last; a += PAGE_SIZE, pa += PAGE_SIZE)]; the fuel is
    the number of pages. *)
Fixpoint map_pages (fuel : nat) (pt a last pa perm : Z) : M vm Z :=
  if negb (a <? last) then ret 0
  else match fuel with
       | O => undef
       | S fuel' =>
           let! rc := vm_map_page pt a pa perm in
           if negb (rc =? 0) then ret (-1)
           else map_pages fuel' pt (u64 (a + PAGE_SIZE)) last (u64 (pa + PAGE_SIZE)) perm
       end.

Definition vm_map_region (pt va pa size perm : Z) : M vm Z :=
  let a := pa_round_down va in
  let last := pa_round_up (u64 (va + size)) in
  map_pages (Z.to_nat ((last - a) / PAGE_SIZE + 1)) pt a last (u64 (pa + (a - va))) perm.

(** A sequence of mappings that stops at the first failure. *)
Fixpoint map_all (ms : list (M vm Z)) : M vm Z :=
  match ms with
  | [] => ret 0
  | m :: ms' => let! rc := m in if negb (rc =? 0) then ret (-1) else map_all ms'
  end.

Definition map_mmio (pt : Z) : M vm Z :=
  let uart := platform_uart_mmio in
  let vio := platform_virtio_mmio_base in
  let count := platform_virtio_mmio_count in
  let vio_size := u64 (count * platform_virtio_mmio_stride) in
  map_all ([vm_map_region pt uart uart 0x1000 (Z.lor PTE_R PTE_W);
            vm_map_region pt ACLINT_MSWI_BASE ACLINT_MSWI_BASE 0x8000 (Z.lor PTE_R PTE_W)]
           ++ (if (0 <? count) && (0 <? vio_size)
               then [vm_map_region pt vio vio vio_size (Z.lor PTE_R PTE_W)] else [])).

Definition map_kernel (pt : Z) : M vm Z :=
  let data_start := pa_round_up sym_erodata in
  map_all ([vm_map_region pt sym_start sym_start (u64 (sym_erodata - sym_start)) (Z.lor PTE_R PTE_X)]
           ++ (if data_start <? sym_end
               then [vm_map_region pt data_start data_start (u64 (sym_end - data_start)) (Z.lor PTE_R PTE_W)]
               else [])
           ++ [vm_map_region pt platform_heap_start platform_heap_start HEAP_MAP_SIZE (Z.lor PTE_R PTE_W);
               vm_map_region pt sym_ptpool_start sym_ptpool_start
                 (u64 (sym_ptpool_end - sym_ptpool_start)) (Z.lor PTE_R PTE_W);
               map_mmio pt]).

Definition vm_map_user_stack (pt agent_id stack_pa stack_size : Z) : M vm Z :=
  let slot := u64 (USER_STACK_BASE + agent_id * USER_STACK_SLOT) in
  let va := u64 (slot + PAGE_SIZE) in
  vm_map_region pt va stack_pa stack_size (Z.lor (Z.lor PTE_U PTE_R) PTE_W).

Definition vm_map_user_text (pt : Z) : M vm Z :=
  let code_size := u64 (sym_user_bss_start - sym_user_text_start) in
  let bss_size := u64 (sym_user_end - sym_user_bss_start) in
  map_all ((if 0 <? code_size
            then [vm_map_region pt sym_user_text_start sym_user_text_start
                    (Z.max code_size PAGE_SIZE) (Z.lor (Z.lor PTE_U PTE_R) PTE_X)] else [])
           ++ (if 0 <? bss_size
               then [vm_map_region pt sym_user_bss_start sym_user_bss_start
                       (Z.max bss_size PAGE_SIZE) (Z.lor (Z.lor PTE_U PTE_R) PTE_W)] else [])).

(** The result is whether the kernel table was completed and activated. *)
Definition vm_init : M vm bool :=
  modify (λ v, mk_vm (<[root_table := zero_table]> (pt_mem v)) 0 root_table (pmem v) (kheap v)) ;;
  let! rc := map_kernel root_table in
  if negb (rc =? 0) then ret false
  else
    let! rc := vm_map_user_text root_table in
    ret (rc =? 0).

Definition vm_create_agent_pt : M vm Z :=
  let! pt := pt_alloc in
  let! k := gets kernel_pt in
  if (pt =? 0) || (k =? 0) then ret 0
  else
    λ v, match pt_mem v !! k with
         | Some tbl => Ret (pt, with_pt (<[pt := tbl]> (pt_mem v)) v)
         | None => Undef
         end.

End vm.
