(* ===== verification/VmTree.v ===== *)
(** * Page tables as trees: the theorems about kernel/vm.c

    The tables reached from a root form a tree of depth two ([root_wf]):
    [node m r p] follows a path of indices, and no table is reached by two
    paths.  [vm_wf] says which tables exist.  The lemmas describe the three
    elementary updates (a new subtable, a leaf, a new root) by their effect on
    [node] and [xlate]; the theorems about mapping, isolation, access checks and
    copy-on-write follow. *)

From S2P Require Import Prelude Abi AgentDef Mem Vm.

(** ** Entry arithmetic *)

Definition word64 (e : Z) : Prop := 0 ≤ e < 18446744073709551616.

(** A physical page: aligned, not null, and within the 44 bits of an entry. *)
Definition page_ok (pa : Z) : Prop := pa mod PAGE_SIZE = 0 ∧ 0 < pa < 72057594037927936.

Lemma land_shl10 ppn f : 0 ≤ ppn → 0 ≤ f < 1024 → Z.land (Z.shiftl ppn 10) f = 0.
Proof.
  intros Hp Hf. apply Z.bits_inj'. intros n Hn. rewrite Z.land_spec, Z.bits_0.
  destruct (Z.lt_ge_cases n 10) as [H|H].
  - rewrite Z.shiftl_spec_low by lia. done.
  - replace (Z.testbit f n) with false; [by rewrite andb_false_r|]. symmetry.
    destruct (Z.eq_dec f 0) as [->|]; [apply Z.testbit_0_l|].
    apply Z.bits_above_log2; [lia|]. assert (Z.log2 f < 10); [|lia]. apply Z.log2_lt_pow2; lia.
Qed.

Lemma lor_shl10 ppn f : 0 ≤ ppn → 0 ≤ f < 1024 → Z.lor (Z.shiftl ppn 10) f = ppn * 1024 + f.
Proof.
  intros Hp Hf. pose proof (land_shl10 ppn f Hp Hf) as H.
  rewrite <- Z.lxor_lor by done. rewrite <- Z.add_nocarry_lxor by done.
  rewrite Z.shiftl_mul_pow2 by lia. done.
Qed.

Lemma pte_make_add pa f : page_ok pa → 0 ≤ f < 1024 → pte_make pa f = pa / 4096 * 1024 + f.
Proof.
  intros [Ha Hp] Hf. unfold pte_make, PAGE_SHIFT. rewrite Z.shiftr_div_pow2 by lia.
  change (2 ^ 12) with 4096. apply lor_shl10; [|done]. apply Z.div_pos; lia.
Qed.

Lemma pte_make_word pa f : page_ok pa → 0 ≤ f < 1024 → word64 (pte_make pa f).
Proof.
  intros Hp Hf. rewrite pte_make_add by done. destruct Hp as [_ Hp]. unfold word64.
  pose proof (Z.div_pos pa 4096). assert (pa / 4096 < 17592186044416) by (apply Z.div_lt_upper_bound; lia).
  lia.
Qed.

Lemma pte_make_pa pa f : page_ok pa → 0 ≤ f < 1024 → vm_pte_pa (pte_make pa f) = pa.
Proof.
  intros Hp Hf. unfold vm_pte_pa, PAGE_SHIFT. rewrite pte_make_add by done. destruct Hp as [Ha Hp].
  unfold PAGE_SIZE in Ha. rewrite Z.shiftr_div_pow2, Z.shiftl_mul_pow2 by lia.
  change (2 ^ 10) with 1024. change (2 ^ 12) with 4096.
  replace ((pa / 4096 * 1024 + f) / 1024) with (pa / 4096).
  - replace (pa / 4096 * 4096) with pa; [apply u64_small; lia|].
    pose proof (Z.div_mod pa 4096). lia.
  - rewrite Z.div_add_l by lia. rewrite (Z.div_small f) by lia. lia.
Qed.

Lemma pte_make_land pa f g : page_ok pa → 0 ≤ f < 1024 → 0 ≤ g < 1024 →
  Z.land (pte_make pa f) g = Z.land f g.
Proof.
  intros [_ Hp] Hf Hg. unfold pte_make. rewrite Z.land_lor_distr_l, land_shl10; [by rewrite Z.lor_0_l| |done].
  apply Z.shiftr_nonneg. lia.
Qed.

Lemma pte_make_has pa f g : page_ok pa → 0 ≤ f < 1024 → 0 ≤ g < 1024 → has g (pte_make pa f) = has g f.
Proof. intros. unfold has. by rewrite pte_make_land. Qed.

(** ** Entries of the table memory *)

Lemma ent_set m t i e t' i' :
  ent (set_ent m t i e) t' i' =
  if decide (t' = t ∧ i' = i) then (λ _, e) <$> ent m t i else ent m t' i'.
Proof.
  unfold ent, set_ent. case_decide as H.
  - destruct H as [-> ->]. rewrite lookup_alter. rewrite decide_True by done.
    destruct (m !! t) as [tbl|]; [|done]. simpl.
    destruct (tbl !! i) as [x|] eqn:E; simpl.
    + apply list_lookup_insert_eq. by eapply lookup_lt_Some.
    + apply lookup_ge_None in E. apply lookup_ge_None. by rewrite length_insert.
  - rewrite lookup_alter. case_decide as E; [|done]. subst. destruct (m !! t') as [tbl|]; [|done]. simpl.
    apply list_lookup_insert_ne. naive_solver.
Qed.

Lemma ent_new m t tbl t' i : ent (<[t := tbl]> m) t' i = if decide (t' = t) then tbl !! i else ent m t' i.
Proof.
  unfold ent. case_decide as E; [subst; by rewrite lookup_insert_eq|]. by rewrite lookup_insert_ne.
Qed.

Lemma zero_table_lookup i x : zero_table !! i = Some x → x = 0.
Proof. unfold zero_table. by intros [-> _]%lookup_replicate. Qed.

(** ** Trees *)

Definition follow (m : gmap Z (list Z)) (t : Z) (i : nat) : option Z :=
  e ← ent m t i; if has PTE_V e then Some (vm_pte_pa e) else None.

Fixpoint node (m : gmap Z (list Z)) (t : Z) (p : list nat) : option Z :=
  match p with
  | [] => Some t
  | i :: p' => c ← follow m t i; node m c p'
  end.

(** The entry the hardware uses for an address. *)
Definition xlate (m : gmap Z (list Z)) (r va : Z) : option Z :=
  t ← node m r [pt_index 2 va; pt_index 1 va];
  e ← ent m t (pt_index 0 va);
  if has PTE_V e then Some e else None.

Lemma node_app m t p q : node m t (p ++ q) = c ← node m t p; node m c q.
Proof.
  revert t; induction p as [|i p IH]; intros t; simpl; [done|].
  destruct (follow m t i); simpl; [apply IH|done].
Qed.

Lemma node_snoc m t p i : node m t (p ++ [i]) = c ← node m t p; follow m c i.
Proof.
  rewrite node_app. destruct (node m t p) as [c|]; simpl; [|done]. by destruct (follow m c i).
Qed.

(** A path is unchanged when none of its steps is. *)
Lemma node_ext m m' t p :
  (∀ q i s c, p = q ++ i :: s → node m t q = Some c → follow m' c i = follow m c i) →
  node m' t p = node m t p.
Proof.
  revert t; induction p as [|i p IH]; intros t H; simpl; [done|].
  rewrite (H [] i p t) by done. destruct (follow m t i) as [c|] eqn:E; simpl; [|done].
  apply IH. intros q j s c' -> Hq. apply (H (i :: q) j s); [done|]. simpl. by rewrite E.
Qed.

Definition path_ok2 (p : list nat) : Prop := (length p ≤ 2)%nat ∧ Forall (λ i, (i < 512)%nat) p.

Section tree.
Context {L : Layout}.

(** The regions, address and size, that [vm_init] maps. *)
Definition kernel_regions : list (Z * Z) :=
  let data_start := pa_round_up sym_erodata in
  [(sym_start, u64 (sym_erodata - sym_start)); (data_start, u64 (sym_end - data_start));
   (platform_heap_start, HEAP_MAP_SIZE); (sym_ptpool_start, u64 (sym_ptpool_end - sym_ptpool_start));
   (platform_uart_mmio, 0x1000); (ACLINT_MSWI_BASE, 0x8000);
   (platform_virtio_mmio_base, u64 (platform_virtio_mmio_count * platform_virtio_mmio_stride));
   (sym_user_text_start, Z.max (u64 (sym_user_bss_start - sym_user_text_start)) PAGE_SIZE);
   (sym_user_bss_start, Z.max (u64 (sym_user_end - sym_user_bss_start)) PAGE_SIZE)].

(** A region below the stacks and heaps, or above them. *)
Definition region_ok (reg : Z * Z) : Prop :=
  4096 ≤ reg.1 ∧ 0 ≤ reg.2 ∧ (reg.1 + reg.2 ≤ 0x40000000 ∨ 0x80000000 ≤ reg.1 ∧ reg.1 + reg.2 ≤ 0x4000000000).

(** What the linker guarantees about the static tables and the parts of the image. *)
Class LayoutLaws : Prop := {
  root_page : page_ok root_table;
  pool_page : page_ok pt_storage;
  pool_top : pt_storage + 4096 * PT_PAGES < 72057594037927936;
  root_not_pool : ∀ k, 0 ≤ k < PT_PAGES → root_table ≠ pool_table k;
  regions_ok : Forall region_ok kernel_regions
}.

Context {LL : LayoutLaws}.

Definition is_table (v : vm) (t : Z) : Prop :=
  t = root_table ∨ ∃ k, 0 ≤ k < pt_next v ∧ t = pool_table k.

Record vm_wf (v : vm) : Prop := {
  vw_next : 0 ≤ pt_next v ≤ PT_PAGES;
  vw_tables : ∀ t, is_Some (pt_mem v !! t) ↔ is_table v t;
  vw_len : ∀ t tbl, pt_mem v !! t = Some tbl → length tbl = 512%nat;
  vw_word : ∀ t i e, ent (pt_mem v) t i = Some e → word64 e
}.

(** The tables under a root: every path of at most two steps ends in an
    existing table, and different paths in different tables. *)
Record root_wf (v : vm) (r : Z) : Prop := {
  rw_tables : ∀ p t, path_ok2 p → node (pt_mem v) r p = Some t → is_table v t;
  rw_unique : ∀ p q t, path_ok2 p → path_ok2 q →
    node (pt_mem v) r p = Some t → node (pt_mem v) r q = Some t → p = q
}.

Lemma pool_page_ok k : 0 ≤ k < PT_PAGES → page_ok (pool_table k).
Proof.
  intros Hk. destruct pool_page as [Ha Hp]. pose proof pool_top. unfold pool_table, page_ok, PAGE_SIZE in *.
  split; [|lia]. replace (pt_storage + 4096 * k) with (pt_storage + k * 4096) by lia.
  by rewrite Z.mod_add by lia.
Qed.

Lemma is_table_page v t : vm_wf v → is_table v t → page_ok t.
Proof.
  intros Hw [->|(k & Hk & ->)]; [apply root_page|]. apply pool_page_ok.
  pose proof (vw_next v Hw). lia.
Qed.

Lemma pt_index_lt l va : (pt_index l va < 512)%nat.
Proof.
  unfold pt_index. change 0x1ff with (Z.ones 9). rewrite Z.land_ones by lia.
  pose proof (Z.mod_pos_bound (Z.shiftr va (12 + 9 * l)) (2 ^ 9)). change (2 ^ 9) with 512 in *. lia.
Qed.

Lemma ent_table v t i : vm_wf v → is_table v t → (i < 512)%nat → is_Some (ent (pt_mem v) t i).
Proof.
  intros Hw Ht Hi. apply (vw_tables v Hw) in Ht as [tbl E]. unfold ent. rewrite E. simpl.
  apply lookup_lt_is_Some_2. by rewrite (vw_len v Hw t tbl).
Qed.

Lemma follow_table v t i : vm_wf v → is_table v t → (i < 512)%nat →
  ∃ e, ent (pt_mem v) t i = Some e
    ∧ follow (pt_mem v) t i = if has PTE_V e then Some (vm_pte_pa e) else None.
Proof.
  intros Hw Ht Hi. destruct (ent_table v t i Hw Ht Hi) as [e E]. exists e. split; [done|].
  unfold follow. by rewrite E.
Qed.

(** ** The allocator of tables *)

Definition next_table (v : vm) : Z := pool_table (pt_next v).

Lemma next_not_table v : vm_wf v → pt_next v < PT_PAGES → ¬ is_table v (next_table v).
Proof.
  intros Hw Hn [E|(k & Hk & E)].
  - symmetry in E. revert E. apply root_not_pool. pose proof (vw_next v Hw). lia.
  - unfold next_table, pool_table in E. lia.
Qed.

Definition alloc_state (v : vm) : vm :=
  mk_vm (<[next_table v := zero_table]> (pt_mem v)) (pt_next v + 1) (kernel_pt v) (pmem v) (kheap v).

Lemma pt_alloc_spec v :
  vm_wf v →
  if decide (pt_next v < PT_PAGES)
  then pt_alloc v = Ret (next_table v, alloc_state v) ∧ next_table v ≠ 0
  else pt_alloc v = Ret (0, v).
Proof.
  intros Hw. unfold pt_alloc. case_decide.
  - test_false (PT_PAGES <=? pt_next v). split; [done|].
    destruct (pool_page_ok (pt_next v)) as [_ ?]; [pose proof (vw_next v Hw); lia|].
    unfold next_table. lia.
  - by test_true (PT_PAGES <=? pt_next v).
Qed.

Lemma is_table_alloc v t : vm_wf v → is_table (alloc_state v) t ↔ is_table v t ∨ t = next_table v.
Proof.
  intros Hw. pose proof (vw_next v Hw). unfold is_table, next_table. simpl. split.
  - intros [->|(k & Hk & ->)]; [by left; left|].
    destruct (decide (k = pt_next v)) as [->|]; [by right|]. left. right. exists k. split; [lia|done].
  - intros [[->|(k & Hk & ->)]| ->]; [by left|right; exists k; split; [lia|done]|].
    right. exists (pt_next v). split; [lia|done].
Qed.

Lemma alloc_state_wf v : vm_wf v → pt_next v < PT_PAGES → vm_wf (alloc_state v).
Proof.
  intros Hw Hn. pose proof (vw_next v Hw). split; simpl.
  - lia.
  - intros t. rewrite is_table_alloc by done. rewrite <- (vw_tables v Hw).
    destruct (decide (t = next_table v)) as [->|Hne].
    + rewrite lookup_insert_eq. split; [by right|done].
    + rewrite lookup_insert_ne by done. split; [by left|by intros [?|?]].
  - intros t tbl E. destruct (decide (t = next_table v)) as [->|Hne].
    + rewrite lookup_insert_eq in E. by simplify_eq.
    + rewrite lookup_insert_ne in E by done. by eapply vw_len.
  - intros t i e E. rewrite ent_new in E. case_decide.
    + apply zero_table_lookup in E as ->. done.
    + by eapply vw_word.
Qed.

(** The new table is empty and nothing else changes. *)
Lemma follow_alloc v t i :
  vm_wf v → pt_next v < PT_PAGES →
  follow (pt_mem (alloc_state v)) t i = follow (pt_mem v) t i.
Proof.
  intros Hw Hn. unfold follow. simpl. rewrite ent_new. case_decide as E; [|done]. subst.
  replace (ent (pt_mem v) (next_table v) i) with (@None Z).
  - destruct (zero_table !! i) as [x|] eqn:Ex; [|done]. by apply zero_table_lookup in Ex as ->.
  - unfold ent. destruct (pt_mem v !! next_table v) as [tbl|] eqn:Et; [|done].
    exfalso. apply (next_not_table v Hw Hn). apply (vw_tables v Hw). by exists tbl.
Qed.
Lemma ent_not_table v t i : vm_wf v → ¬ is_table v t → ent (pt_mem v) t i = None.
Proof.
  intros Hw Ht. unfold ent. destruct (pt_mem v !! t) as [tbl|] eqn:E; [|done].
  exfalso. apply Ht. apply (vw_tables v Hw). by exists tbl.
Qed.

Lemma path_ok2_app p q : path_ok2 (p ++ q) → path_ok2 p ∧ path_ok2 q.
Proof.
  intros [Hl Hf]. apply Forall_app in Hf as [? ?]. rewrite length_app in Hl. by repeat split; (done || lia).
Qed.

Lemma va_path_ok va : path_ok2 [pt_index 2 va; pt_index 1 va].
Proof. split; [done|]. apply Forall_cons. split; [apply pt_index_lt|]. apply Forall_cons. split; [apply pt_index_lt|done]. Qed.

Lemma path_ok2_nil : path_ok2 [].
Proof. split; [simpl; lia|constructor]. Qed.

Lemma root_is_table v r : root_wf v r → is_table v r.
Proof. intros Hr. by apply (rw_tables v r Hr [] r path_ok2_nil). Qed.

(** ** Updates *)

(** Which entries an update may change, in the tables that existed before. *)
Definition touches (S : Z → nat → Prop) (v v' : vm) : Prop :=
  ∀ t i, is_table v t → ¬ S t i → ent (pt_mem v') t i = ent (pt_mem v) t i.

(** An update that keeps every translation of a root. *)
Record grow (r : Z) (v v' : vm) : Prop := {
  gr_wf : vm_wf v';
  gr_root : root_wf v' r;
  gr_next : pt_next v ≤ pt_next v';
  gr_kernel : kernel_pt v' = kernel_pt v;
  gr_pmem : pmem v' = pmem v;
  gr_heap : kheap v' = kheap v;
  gr_xlate : ∀ va, xlate (pt_mem v') r va = xlate (pt_mem v) r va;
  gr_node : ∀ q t, path_ok2 q → node (pt_mem v) r q = Some t → node (pt_mem v') r q = Some t;
  gr_back : ∀ q t, path_ok2 q → node (pt_mem v') r q = Some t → is_table v t → node (pt_mem v) r q = Some t
}.

Lemma is_table_mono v v' t : pt_next v ≤ pt_next v' → is_table v t → is_table v' t.
Proof. intros Hn [->|(k & Hk & ->)]; [by left|]. right. exists k. split; [lia|done]. Qed.

Lemma grow_refl r v : vm_wf v → root_wf v r → grow r v v.
Proof. intros. by split. Qed.

Lemma grow_trans r v1 v2 v3 : grow r v1 v2 → grow r v2 v3 → grow r v1 v3.
Proof.
  intros [A1 A2 A3 A4 A5 A6 A7 A8 A9] [B1 B2 B3 B4 B5 B6 B7 B8 B9].
  split; [done|done|lia|congruence..| | |].
  - intros va. by rewrite B7, A7.
  - intros q t Hq H. by apply B8, A8.
  - intros q t Hq H Ht. apply A9; [done| |done]. apply B9; [done|done|]. by eapply is_table_mono.
Qed.

(** A set of entries of one table keeps the sizes and the words. *)
Lemma set_ent_wf v t i e :
  vm_wf v → word64 e → vm_wf (with_pt (set_ent (pt_mem v) t i e) v).
Proof.
  intros Hw He. pose proof (vw_next v Hw). split; simpl; try done.
  - intros t'. etrans; [|exact (vw_tables v Hw t')]. unfold set_ent. rewrite lookup_alter. case_decide; [|done].
    subst. destruct (pt_mem v !! t'); simpl; done.
  - intros t' tbl E. unfold set_ent in E. rewrite lookup_alter in E. case_decide; [|by eapply vw_len].
    subst. destruct (pt_mem v !! t') as [tb|] eqn:Et; simplify_eq/=. rewrite length_insert.
    by eapply vw_len.
  - intros t' i' e' E. rewrite ent_set in E. case_decide; [|by eapply vw_word].
    destruct (ent (pt_mem v) t i); by simplify_eq/=.
Qed.

(** Hanging a new empty table under entry [i] of table [t]. *)
Definition install (v : vm) (t : Z) (i : nat) : vm :=
  with_pt (set_ent (pt_mem (alloc_state v)) t i (pte_make (next_table v) PTE_V)) (alloc_state v).

Section install.
Context (v : vm) (r t : Z) (p0 : list nat) (i : nat).
Context (Hw : vm_wf v) (Hr : root_wf v r) (Hn : pt_next v < PT_PAGES).
Context (Hp0 : path_ok2 (p0 ++ [i])) (Ht : node (pt_mem v) r p0 = Some t).
Context (Hfree : follow (pt_mem v) t i = None).

Lemma install_table : is_table v t.
Proof. eapply (rw_tables v r Hr p0); [|done]. by apply path_ok2_app in Hp0 as [? _]. Qed.

Lemma install_index : (i < 512)%nat.
Proof. apply path_ok2_app in Hp0 as [_ [_ H]]. by apply Forall_cons in H as [? _]. Qed.

Lemma next_page : page_ok (next_table v).
Proof. apply pool_page_ok. pose proof (vw_next v Hw). lia. Qed.

Lemma install_ent t' i' :
  ent (pt_mem (install v t i)) t' i' =
  if decide (t' = t ∧ i' = i) then Some (pte_make (next_table v) PTE_V)
  else if decide (t' = next_table v) then zero_table !! i' else ent (pt_mem v) t' i'.
Proof.
  unfold install. simpl. rewrite ent_set, !ent_new. case_decide as E; [|done]. destruct E as [-> ->].
  rewrite decide_False.
  - destruct (ent_table v t i Hw install_table install_index) as [x ->]. done.
  - intros E. apply (next_not_table v Hw Hn). rewrite <- E. apply install_table.
Qed.

Lemma install_follow t' i' :
  follow (pt_mem (install v t i)) t' i' =
  if decide (t' = t ∧ i' = i) then Some (next_table v) else follow (pt_mem v) t' i'.
Proof.
  unfold follow. rewrite install_ent. case_decide as E.
  - simpl. rewrite pte_make_has, pte_make_pa by (try apply next_page; done). done.
  - case_decide; [|done]. subst. rewrite (ent_not_table v (next_table v)) by (done || by apply next_not_table).
    destruct (zero_table !! i') as [x|] eqn:Ex; [|done]. by apply zero_table_lookup in Ex as ->.
Qed.

Lemma install_same q i1 s c :
  path_ok2 (q ++ i1 :: s) → node (pt_mem v) r q = Some c → ¬ (q = p0 ∧ i1 = i) →
  follow (pt_mem (install v t i)) c i1 = follow (pt_mem v) c i1.
Proof.
  intros Hq Hc Hne. rewrite install_follow, decide_False; [done|]. intros [-> ->]. apply Hne.
  split; [|done]. apply path_ok2_app in Hq as [Hq _]. apply path_ok2_app in Hp0 as [Hp _].
  by eapply (rw_unique v r Hr).
Qed.

Lemma install_node q :
  path_ok2 q →
  node (pt_mem (install v t i)) r q =
  if decide (q = p0 ++ [i]) then Some (next_table v) else node (pt_mem v) r q.
Proof.
  intros Hq. assert (node (pt_mem (install v t i)) r p0 = Some t) as Hp.
  { rewrite (node_ext (pt_mem v)); [done|]. intros q1 j s c E Hc.
    apply (install_same q1 j s); [|done|].
    - rewrite <- E. by apply path_ok2_app in Hp0 as [? _].
    - intros [-> _]. apply (f_equal length) in E. rewrite length_app in E. simpl in E. lia. }
  case_decide as E.
  - subst. rewrite node_snoc, Hp. simpl. by rewrite install_follow, decide_True.
  - destruct (decide (take (S (length p0)) q = p0 ++ [i])) as [Hpre|Hno].
    { (* a path through the new table *)
      rewrite <- (take_drop (S (length p0)) q), Hpre. destruct (drop (S (length p0)) q) as [|j s] eqn:Ed.
      { destruct E. by rewrite <- (take_drop (S (length p0)) q), Hpre, Ed, app_nil_r. }
      rewrite !(node_app _ _ (p0 ++ [i])), !node_snoc, Hp, Ht. simpl.
      rewrite install_follow, decide_True, Hfree by done. simpl. rewrite install_follow, decide_False.
      - unfold follow. rewrite (ent_not_table v); [done|done|by apply next_not_table].
      - intros [E' _]. apply (next_not_table v Hw Hn). rewrite E'. apply install_table. }
    apply node_ext. intros q1 j s c -> Hc. apply (install_same q1 j s); [done|done|].
    intros [-> ->]. apply Hno. rewrite take_app_ge by lia.
    by replace (S (length p0) - length p0)%nat with 1%nat by lia.
Qed.

Lemma install_wf : vm_wf (install v t i).
Proof.
  apply (set_ent_wf (alloc_state v)); [by apply alloc_state_wf|].
  apply pte_make_word; [apply next_page|done].
Qed.

Lemma install_grow : grow r v (install v t i).
Proof.
  assert (∀ q u, path_ok2 q → node (pt_mem v) r q = Some u → u ≠ next_table v) as Hold.
  { intros q u Hq Hu ->. apply (next_not_table v Hw Hn). by eapply (rw_tables v r Hr). }
  assert (node (pt_mem v) r (p0 ++ [i]) = None) as Hnone by (rewrite node_snoc, Ht; done).
  split; try done; simpl; [apply install_wf| |lia| | |].
  - split.
    + intros q u Hq. rewrite install_node by done. case_decide.
      * intros [= <-]. apply (is_table_alloc v); [done|]. by right.
      * intros Hu. apply (is_table_alloc v); [done|]. left. by eapply (rw_tables v r Hr).
    + intros q q' u Hq Hq'. rewrite !install_node by done. case_decide; case_decide; subst; try done.
      * intros [= <-] Hu. by destruct (Hold q' (next_table v)).
      * intros Hu [= <-]. by destruct (Hold q (next_table v)).
      * by apply (rw_unique v r Hr).
  - intros va. unfold xlate. pose proof (va_path_ok va) as Hva.
    rewrite install_node by done. case_decide as E.
    + rewrite E, Hnone. simpl. rewrite install_ent, decide_False.
      2: { intros [E' _]. apply (next_not_table v Hw Hn). rewrite E'. apply install_table. }
      rewrite decide_True by done. destruct (zero_table !! pt_index 0 va) as [x|] eqn:Ex; [|done].
      by apply zero_table_lookup in Ex as ->.
    + destruct (node (pt_mem v) r [pt_index 2 va; pt_index 1 va]) as [u|] eqn:Hu; [|done]. simpl.
      rewrite install_ent, decide_False.
      2: { intros [-> _]. apply path_ok2_app in Hp0 as Hp. destruct Hp as [Hp _].
           pose proof (rw_unique v r Hr _ _ _ Hp Hva Ht Hu) as ->. destruct Hp0 as [Hl _].
           rewrite length_app in Hl. simpl in Hl. lia. }
      rewrite decide_False by (by eapply Hold). done.
  - intros q u Hq Hu. rewrite install_node by done. case_decide; [|done]. subst. congruence.
  - intros q u Hq. rewrite install_node by done. case_decide; [|done]. intros [= <-] Hu.
    by destruct (next_not_table v Hw Hn).
Qed.

Lemma install_touches : touches (λ u j, u = t ∧ j = i) v (install v t i).
Proof.
  intros u j Hu Hne. rewrite install_ent. rewrite decide_False by done.
  rewrite decide_False; [done|]. intros ->. by apply (next_not_table v Hw Hn).
Qed.
End install.

(** ** Walking *)

Lemma get_pte_spec v t i e : ent (pt_mem v) t i = Some e → get_pte (t, i) v = Ret (e, v).
Proof. intros E. unfold get_pte. simpl. by rewrite E. Qed.

Lemma set_pte_spec v t i e x :
  ent (pt_mem v) t i = Some x →
  set_pte (t, i) e v = Ret (tt, with_pt (set_ent (pt_mem v) t i e) v).
Proof. intros E. unfold set_pte. simpl. by rewrite E. Qed.

(** One level of a walk that allocates. *)
Lemma walk_step_alloc v r t p0 level levels va :
  vm_wf v → root_wf v r → path_ok2 (p0 ++ [pt_index level va]) → node (pt_mem v) r p0 = Some t →
  (∃ c v', walk_levels (level :: levels) t va true v = walk_levels levels c va true v'
     ∧ grow r v v' ∧ touches (λ u j, u = t ∧ j = pt_index level va) v v'
     ∧ node (pt_mem v') r (p0 ++ [pt_index level va]) = Some c)
  ∨ (walk_levels (level :: levels) t va true v = Ret (None, v) ∧ PT_PAGES ≤ pt_next v).
Proof.
  intros Hw Hr Hp Ht. cbn [walk_levels]. apply path_ok2_app in Hp as Hp'. destruct Hp' as [Hp1 [_ Hi]].
  apply Forall_cons in Hi as [Hi _].
  destruct (follow_table v t (pt_index level va) Hw (rw_tables v r Hr p0 t Hp1 Ht) Hi) as (e & He & Hf).
  unfold bind at 1. rewrite (get_pte_spec v t _ e He).
  destruct (has PTE_V e) eqn:Hv.
  - left. exists (vm_pte_pa e), v. split; [done|]. split; [by apply grow_refl|]. split; [done|].
    rewrite node_snoc, Ht. done.
  - cbn [negb]. unfold bind at 1. pose proof (pt_alloc_spec v Hw) as Ha. case_decide as Hn.
    + destruct Ha as [-> Hne]. left. exists (next_table v), (install v t (pt_index level va)).
      test_false (next_table v =? 0). unfold bind at 1.
      rewrite (set_pte_spec (alloc_state v) t _ _ e).
      * split; [done|]. split; [by apply (install_grow v r t p0)|].
        split; [by apply (install_touches v r t p0)|].
        rewrite (install_node v r t p0) by done. by rewrite decide_True.
      * simpl. rewrite ent_new, decide_False; [done|]. intros ->. apply (next_not_table v Hw Hn).
        by eapply (rw_tables v r Hr p0).
    + right. split; [|lia]. unfold bind. rewrite (get_pte_spec v t _ e He), Hv, Ha. done.
Qed.

(** The entries on the path of an address. *)
Definition on_path (v : vm) (r va t : Z) (i : nat) : Prop :=
  ∃ p q, p ++ i :: q = [pt_index 2 va; pt_index 1 va; pt_index 0 va] ∧ node (pt_mem v) r p = Some t.

Lemma on_path_ok p i q va : p ++ i :: q = [pt_index 2 va; pt_index 1 va; pt_index 0 va] → path_ok2 p.
Proof.
  pose proof (va_path_ok va) as Hva. intros E. destruct p as [|a [|b [|c p]]]; simplify_eq/=.
  - apply path_ok2_nil.
  - by apply (path_ok2_app [pt_index 2 va] [pt_index 1 va]).
  - done.
  - by destruct p.
Qed.

Lemma touches_mono (S S' : Z → nat → Prop) v v' :
  (∀ t i, S t i → S' t i) → touches S v v' → touches S' v v'.
Proof. intros HS Ht t i Hi Hn. apply Ht; [done|]. intros H. by apply Hn, HS. Qed.

Lemma touches_trans (S S' : Z → nat → Prop) v1 v2 v3 :
  pt_next v1 ≤ pt_next v2 → touches S v1 v2 → touches S' v2 v3 →
  (∀ t i, is_table v1 t → S' t i → S t i) → touches S v1 v3.
Proof.
  intros Hn H1 H2 HS t i Ht Hno. rewrite H2; [by apply H1|by eapply is_table_mono|].
  intros H'. by apply Hno, HS.
Qed.

(** A walk that allocates keeps every translation, ends in the leaf table of
    the address, and changes only entries on the path of the address; it fails
    only when the pool is used up. *)
Lemma vm_walk_alloc v r va :
  vm_wf v → root_wf v r →
  ∃ o v', vm_walk r va true v = Ret (o, v') ∧ grow r v v' ∧ touches (on_path v r va) v v'
    ∧ match o with
      | Some (t, i) => i = pt_index 0 va ∧ node (pt_mem v') r [pt_index 2 va; pt_index 1 va] = Some t
      | None => PT_PAGES ≤ pt_next v'
      end.
Proof.
  intros Hw Hr. unfold vm_walk. pose proof (va_path_ok va) as Hpo.
  destruct (walk_step_alloc v r r [] 2 [1] va) as [(c & v1 & E & Hg & Hto & Hc)|[E Hfull]];
    [done|done|by apply (path_ok2_app [pt_index 2 va] [pt_index 1 va])|done| |].
  2: { exists None, v. unfold bind. rewrite E. split; [done|]. split; [by apply grow_refl|]. done. }
  assert (touches (on_path v r va) v v1) as Hto1.
  { eapply touches_mono; [|exact Hto]. simpl. intros u j [-> ->]. by exists [], [pt_index 1 va; pt_index 0 va]. }
  destruct (walk_step_alloc v1 r c [pt_index 2 va] 1 [] va) as [(t & v2 & E2 & Hg2 & Hto2 & Ht)|[E2 Hfull]];
    [apply Hg|apply Hg|done|done| |].
  2: { exists None, v1. unfold bind. rewrite E, E2. split_and!; done. }
  exists (Some (t, pt_index 0 va)), v2. unfold bind. rewrite E, E2. split; [done|].
  split; [by eapply grow_trans|]. split; [|done].
  eapply (touches_trans _ _ v v1 v2); [apply Hg|done|exact Hto2|]. simpl. intros u j Hu [-> ->].
  (* [c] existed before only if it was already on the path *)
  exists [pt_index 2 va], [pt_index 0 va]. split; [done|].
  apply (gr_back _ _ _ Hg); [by apply (path_ok2_app _ [pt_index 1 va]), va_path_ok|done|done].
Qed.

(** A walk that does not allocate changes nothing. *)
Lemma vm_walk_lookup v r va :
  vm_wf v → root_wf v r →
  vm_walk r va false v
  = Ret ((λ t, (t, pt_index 0 va)) <$> node (pt_mem v) r [pt_index 2 va; pt_index 1 va], v).
Proof.
  intros Hw Hr. unfold vm_walk, bind. cbn [walk_levels]. unfold bind.
  destruct (follow_table v r (pt_index 2 va) Hw) as (e & He & Hf);
    [by apply root_is_table|apply pt_index_lt|].
  rewrite (get_pte_spec v r _ e He). simpl. rewrite Hf. destruct (has PTE_V e) eqn:Hv; [|done]. simpl.
  destruct (follow_table v (vm_pte_pa e) (pt_index 1 va) Hw) as (e' & He' & Hf');
    [|apply pt_index_lt|].
  { apply (rw_tables v r Hr [pt_index 2 va]); [by apply (path_ok2_app _ [pt_index 1 va]), va_path_ok|].
    simpl. by rewrite Hf. }
  rewrite (get_pte_spec v _ _ e' He'). rewrite Hf'. by destruct (has PTE_V e').
Qed.

Lemma leaf_ent v r va t :
  vm_wf v → root_wf v r → node (pt_mem v) r [pt_index 2 va; pt_index 1 va] = Some t →
  is_table v t ∧ ∃ e, ent (pt_mem v) t (pt_index 0 va) = Some e
    ∧ xlate (pt_mem v) r va = if has PTE_V e then Some e else None.
Proof.
  intros Hw Hr Ht. assert (is_table v t) as Hi by (by apply (rw_tables v r Hr _ _ (va_path_ok va))).
  split; [done|]. destruct (ent_table v t (pt_index 0 va) Hw Hi) as [e He]; [apply pt_index_lt|].
  exists e. split; [done|]. unfold xlate. rewrite Ht. simpl. by rewrite He.
Qed.

(** Two addresses on the same page. *)
Definition same_page (va va' : Z) : Prop :=
  pt_index 2 va = pt_index 2 va' ∧ pt_index 1 va = pt_index 1 va' ∧ pt_index 0 va = pt_index 0 va'.

#[global] Instance same_page_dec va va' : Decision (same_page va va').
Proof. unfold same_page. apply _. Defined.

(** Writing a leaf entry. *)
Definition set_leaf (v : vm) (t : Z) (va e : Z) : vm :=
  with_pt (set_ent (pt_mem v) t (pt_index 0 va) e) v.

Section leaf.
Context (v : vm) (r t va e : Z).
Context (Hw : vm_wf v) (Hr : root_wf v r) (He : word64 e).
Context (Ht : node (pt_mem v) r [pt_index 2 va; pt_index 1 va] = Some t).

Lemma leaf_node q : path_ok2 q → node (pt_mem (set_leaf v t va e)) r q = node (pt_mem v) r q.
Proof.
  intros Hq. apply node_ext. intros q1 j s c -> Hc. unfold follow. simpl. rewrite ent_set, decide_False; [done|].
  intros [-> _]. apply path_ok2_app in Hq as Hq'. destruct Hq' as [Hq1 _].
  pose proof (rw_unique v r Hr _ _ _ Hq1 (va_path_ok va) Hc Ht) as ->.
  destruct Hq as [Hl _]. rewrite length_app in Hl. simpl in Hl. lia.
Qed.

Lemma leaf_root : root_wf (set_leaf v t va e) r.
Proof.
  split.
  - intros p u Hp. rewrite leaf_node by done. by apply (rw_tables v r Hr).
  - intros p q u Hp Hq. rewrite !leaf_node by done. by apply (rw_unique v r Hr).
Qed.

Lemma leaf_xlate va' :
  xlate (pt_mem (set_leaf v t va e)) r va' =
  if decide (same_page va va') then (if has PTE_V e then Some e else None) else xlate (pt_mem v) r va'.
Proof.
  destruct (leaf_ent v r va t Hw Hr Ht) as (_ & x & Hx & _).
  unfold xlate. rewrite leaf_node by apply va_path_ok. case_decide as E.
  - destruct E as (<- & <- & <-). rewrite Ht. simpl. rewrite ent_set, decide_True by done. by rewrite Hx.
  - destruct (node (pt_mem v) r [pt_index 2 va'; pt_index 1 va']) as [u|] eqn:Hu; [|done]. simpl.
    rewrite ent_set, decide_False; [done|]. intros [-> E2]. apply E.
    pose proof (rw_unique v r Hr _ _ _ (va_path_ok va) (va_path_ok va') Ht Hu) as [= ? ?].
    by split_and!.
Qed.

Lemma leaf_touches : touches (on_path v r va) v (set_leaf v t va e).
Proof.
  intros u i Hu Hn. simpl. rewrite ent_set, decide_False; [done|]. intros [-> ->]. apply Hn.
  by exists [pt_index 2 va; pt_index 1 va], [].
Qed.
End leaf.

(** ** Mapping a page *)

(** The flags of a new mapping. *)
Definition map_flags (perm : Z) : Z := Z.lor (Z.lor perm PTE_V) PTE_STD.

(** The effect of [vm_map_page] on its own root. *)
Lemma vm_map_page_spec v r va pa perm :
  vm_wf v → root_wf v r → va mod PAGE_SIZE = 0 → page_ok pa → 0 ≤ perm < 32 →
  ∃ rc v', vm_map_page r va pa perm v = Ret (rc, v')
    ∧ vm_wf v' ∧ root_wf v' r ∧ pt_next v ≤ pt_next v'
    ∧ kernel_pt v' = kernel_pt v ∧ pmem v' = pmem v ∧ kheap v' = kheap v
    ∧ touches (on_path v r va) v v'
    ∧ (∀ q t, path_ok2 q → node (pt_mem v') r q = Some t → is_table v t → node (pt_mem v) r q = Some t)
    ∧ (∀ q t, path_ok2 q → node (pt_mem v) r q = Some t → node (pt_mem v') r q = Some t)
    ∧ ((rc = 0 ∧ xlate (pt_mem v) r va = None
        ∧ ∀ va', xlate (pt_mem v') r va'
                 = if decide (same_page va va') then Some (pte_make pa (map_flags perm))
                   else xlate (pt_mem v) r va')
       ∨ (rc = -1 ∧ (is_Some (xlate (pt_mem v) r va) ∨ pt_next v' = PT_PAGES)
          ∧ ∀ va', xlate (pt_mem v') r va' = xlate (pt_mem v) r va')).
Proof.
  intros Hw Hr Hva Hpa Hperm. unfold vm_map_page. rewrite Hva, (proj1 Hpa).
  change (negb (0 =? 0) || negb (0 =? 0)) with false. cbn iota.
  destruct (vm_walk_alloc v r va Hw Hr) as (o & v1 & E & [G1 G2 G3 G4 G5 G6 G7 G8 G9] & Hto & Ho).
  unfold bind at 1. rewrite E. destruct o as [[t i]|].
  2: { exists (-1), v1. split_and!; try done. right. split; [done|]. split; [right|done].
       pose proof (vw_next v1 G1). lia. }
  destruct Ho as [-> Ht]. destruct (leaf_ent v1 r va t G1 G2 Ht) as (Hti & e & He & Hx).
  unfold bind at 1. rewrite (get_pte_spec v1 t _ e He). rewrite G7 in Hx.
  destruct (has PTE_V e) eqn:Hv.
  { exists (-1), v1. split_and!; try done. right. split; [done|]. split; [left|done]. rewrite Hx. done. }
  unfold bind. rewrite (set_pte_spec v1 t _ _ e He). fold (map_flags perm).
  assert (0 ≤ map_flags perm < 1024 ∧ has PTE_V (map_flags perm) = true) as [Hfl HV].
  { assert (Forall (λ p, 0 ≤ map_flags (Z.of_nat p) < 1024 ∧ has PTE_V (map_flags (Z.of_nat p)) = true) (seq 0 32)) as HF
      by (repeat constructor; vm_compute; congruence).
    rewrite Forall_seq in HF. specialize (HF (Z.to_nat perm)). rewrite Z2Nat.id in HF by lia. apply HF. lia. }
  exists 0, (set_leaf v1 t va (pte_make pa (map_flags perm))). split; [done|].
  split; [apply set_ent_wf; [done|by apply pte_make_word]|].
  split; [by apply leaf_root|]. split_and!; try done.
  - eapply (touches_trans _ _ v v1); [done|exact Hto|apply (leaf_touches v1 r t va _ Ht)|].
    intros u j Hu (p & q & Epq & Hn). exists p, q. split; [done|]. apply G9; [|done|done].
    by eapply on_path_ok.
  - intros q u Hq. rewrite leaf_node by done. by apply G9.
  - intros q u Hq Hu. rewrite leaf_node by done. by apply G8.
  - left. split_and!; [done|done|]. intros va'. rewrite (leaf_xlate v1 r) by done.
    rewrite pte_make_has, HV by done. by rewrite G7.
Qed.

(** ** Several roots *)

Definition reach (v : vm) (r t : Z) : Prop := ∃ p, path_ok2 p ∧ node (pt_mem v) r p = Some t.

Lemma reach_table v r t : root_wf v r → reach v r t → is_table v t.
Proof. intros Hr (p & Hp & Ht). by eapply (rw_tables v r Hr). Qed.

(** A root none of whose tables changes is unaffected. *)
Lemma frame_node v v' r p :
  (∀ t i, reach v r t → ent (pt_mem v') t i = ent (pt_mem v) t i) → path_ok2 p →
  node (pt_mem v') r p = node (pt_mem v) r p.
Proof.
  intros Hsame Hp. apply node_ext. intros q i s c -> Hc. unfold follow. rewrite Hsame; [done|].
  exists q. split; [by apply path_ok2_app in Hp as [? _]|done].
Qed.

Lemma frame_root v v' r :
  root_wf v r → pt_next v ≤ pt_next v' →
  (∀ t i, reach v r t → ent (pt_mem v') t i = ent (pt_mem v) t i) →
  root_wf v' r ∧ ∀ va, xlate (pt_mem v') r va = xlate (pt_mem v) r va.
Proof.
  intros Hr Hn Hsame. split; [split|].
  - intros p t Hp. rewrite (frame_node v) by done. intros Ht. eapply is_table_mono; [done|].
    by eapply (rw_tables v r Hr).
  - intros p q t Hp Hq. rewrite (frame_node v v' r p), (frame_node v v' r q) by done. by apply (rw_unique v r Hr).
  - intros va. unfold xlate. rewrite (frame_node v) by (done || apply va_path_ok).
    destruct (node (pt_mem v) r [pt_index 2 va; pt_index 1 va]) as [t|] eqn:Ht; [|done]. simpl.
    rewrite Hsame; [done|]. exists [pt_index 2 va; pt_index 1 va]. split; [apply va_path_ok|done].
Qed.

(** What the kernel's own root has under an index. *)
Definition kslot (v : vm) (i : nat) : option Z := follow (pt_mem v) (kernel_pt v) i.

(** The tables a root does not share: the root itself and those under the indices
    that are empty in the kernel's root. *)
Definition private (v : vm) (r t : Z) : Prop :=
  t = r ∨ ∃ i q, kslot v i = None ∧ path_ok2 (i :: q) ∧ node (pt_mem v) r (i :: q) = Some t.

(** Every root has the kernel's tables where the kernel has some, and tables of its
    own elsewhere. *)
Record sys_wf (v : vm) (roots : list Z) : Prop := {
  sw_vm : vm_wf v;
  sw_roots : ∀ r, r ∈ roots → root_wf v r;
  sw_kernel : kernel_pt v ∈ roots;
  sw_shared : ∀ r i c, r ∈ roots → (i < 512)%nat → kslot v i = Some c → follow (pt_mem v) r i = Some c;
  sw_private : ∀ r r2 t, r ∈ roots → r2 ∈ roots → r ≠ r2 → private v r t → ¬ reach v r2 t
}.

Lemma private_reach v r t : private v r t → reach v r t.
Proof. intros [->|(i & q & _ & Hq & Ht)]; [exists []; split; [apply path_ok2_nil|done]|by exists (i :: q)]. Qed.

Lemma node_one m r i : node m r [i] = follow m r i.
Proof. simpl. by destruct (follow m r i). Qed.

Lemma path_ok2_one i : (i < 512)%nat → path_ok2 [i].
Proof. intros Hi. split; [simpl; lia|]. by apply Forall_singleton. Qed.

Lemma on_path_private v r va t i :
  kslot v (pt_index 2 va) = None → on_path v r va t i → private v r t.
Proof.
  intros Hu (p & q & E & Ht). destruct p as [|j p]; [left; by simpl in Ht; simplify_eq|].
  right. pose proof (on_path_ok _ _ _ _ E) as Hp. simpl in E. injection E as -> E. by exists (pt_index 2 va), p.
Qed.

(** Off the first step of an address's path, nothing of a root changes. *)
Lemma touches_other v v' r va i q :
  root_wf v r → touches (on_path v r va) v v' → i ≠ pt_index 2 va → path_ok2 (i :: q) →
  node (pt_mem v') r (i :: q) = node (pt_mem v) r (i :: q).
Proof.
  intros Hr Hto Hi Hq. apply node_ext. intros q1 j s c E Hc. unfold follow. rewrite E in Hq.
  pose proof (proj1 (path_ok2_app _ _ Hq)) as Hq1. rewrite Hto; [done|by apply (rw_tables v r Hr q1)|].
  intros (p & u & Ep & Hp). assert (p = q1) as -> by (eapply (rw_unique v r Hr); [by eapply on_path_ok|done..]).
  destruct q1 as [|a q1]; simplify_eq/=.
Qed.

(** An update of one root: what it may change and what it must keep. *)
Record updates (r va : Z) (v v' : vm) : Prop := {
  up_wf : vm_wf v';
  up_root : root_wf v' r;
  up_next : pt_next v ≤ pt_next v';
  up_kernel : kernel_pt v' = kernel_pt v;
  up_touch : touches (on_path v r va) v v';
  up_back : ∀ q t, path_ok2 q → node (pt_mem v') r q = Some t → is_table v t → node (pt_mem v) r q = Some t;
  up_node : ∀ q t, path_ok2 q → node (pt_mem v) r q = Some t → node (pt_mem v') r q = Some t
}.

Lemma map_page_updates v r va pa perm rc v' :
  vm_wf v → root_wf v r → va mod PAGE_SIZE = 0 → page_ok pa → 0 ≤ perm < 32 →
  vm_map_page r va pa perm v = Ret (rc, v') → updates r va v v'.
Proof.
  intros Hw Hr Hva Hpa Hperm E.
  destruct (vm_map_page_spec v r va pa perm Hw Hr Hva Hpa Hperm)
    as (rc2 & v2 & E2 & ? & ? & ? & ? & _ & _ & ? & ? & ? & _).
  rewrite E in E2. simplify_eq. by constructor.
Qed.

Lemma leaf_updates v r va t e :
  vm_wf v → root_wf v r → word64 e → node (pt_mem v) r [pt_index 2 va; pt_index 1 va] = Some t →
  updates r va v (set_leaf v t va e).
Proof.
  intros Hw Hr He Ht. split.
  - by apply set_ent_wf.
  - by apply leaf_root.
  - done.
  - done.
  - by apply leaf_touches.
  - intros q u Hq. by rewrite (leaf_node v r).
  - intros q u Hq. by rewrite (leaf_node v r).
Qed.

(** An update of one root at an address whose first index is its own leaves the
    other roots as they are. *)
Section own.
Context (v v' : vm) (roots : list Z) (r va : Z).
Context (Hsys : sys_wf v roots) (Hr : r ∈ roots) (Hup : updates r va v v').
Context (Hk : r ≠ kernel_pt v) (Hown : kslot v (pt_index 2 va) = None).

Lemma own_frame r2 t i : r2 ∈ roots → r2 ≠ r → reach v r2 t → ent (pt_mem v') t i = ent (pt_mem v) t i.
Proof.
  intros Hr2 Hne Ht. apply (up_touch _ _ _ _ Hup); [by eapply reach_table; [apply Hsys|]|].
  intros Hp. apply (on_path_private v r va t i Hown) in Hp. by apply (sw_private _ _ Hsys r r2 t).
Qed.

Lemma own_node r2 p : r2 ∈ roots → r2 ≠ r → path_ok2 p → node (pt_mem v') r2 p = node (pt_mem v) r2 p.
Proof. intros. apply frame_node; [|done]. intros. by apply (own_frame r2). Qed.

Lemma own_kslot i : kslot v' i = kslot v i.
Proof.
  unfold kslot. rewrite (up_kernel _ _ _ _ Hup). unfold follow.
  rewrite (own_frame (kernel_pt v)); [done|apply Hsys|done|].
  exists []. split; [apply path_ok2_nil|done].
Qed.

Lemma own_reach r2 t : r2 ∈ roots → is_table v t → reach v' r2 t → reach v r2 t.
Proof.
  intros Hr2 Hti (p & Hp & Ht). exists p. split; [done|].
  destruct (decide (r2 = r)) as [->|Hne]; [by apply (up_back _ _ _ _ Hup)|by rewrite own_node in Ht].
Qed.

Lemma own_private r2 t : r2 ∈ roots → is_table v t → private v' r2 t → private v r2 t.
Proof.
  intros Hr2 Hti [->|(i & q & Hi & Hq & Ht)]; [by left|]. right. exists i, q. rewrite own_kslot in Hi.
  split; [done|]. split; [done|].
  destruct (decide (r2 = r)) as [->|Hne]; [by apply (up_back _ _ _ _ Hup)|by rewrite own_node in Ht].
Qed.

Lemma own_sys : sys_wf v' roots.
Proof.
  split; [apply Hup| |rewrite (up_kernel _ _ _ _ Hup); apply Hsys| |].
  - intros r2 Hr2. destruct (decide (r2 = r)) as [->|Hne]; [apply Hup|].
    apply (frame_root v); [by apply Hsys|apply Hup|]. intros. by apply (own_frame r2).
  - intros r2 i c Hr2 Hi Hs. rewrite own_kslot in Hs. apply (sw_shared _ _ Hsys r2) in Hs; [|done|done].
    rewrite <- node_one in Hs |- *. pose proof (path_ok2_one i Hi).
    destruct (decide (r2 = r)) as [->|Hne]; [by apply (up_node _ _ _ _ Hup)|by rewrite own_node].
  - intros r1 r2 t H1 H2 Hne Hp Ht.
    assert (is_table v t) as Hti.
    { destruct (decide (r2 = r)) as [->|Hne2].
      - destruct (private_reach _ _ _ Hp) as (p & Hpo & Hnode). rewrite own_node in Hnode by done.
        apply (reach_table v r1); [by apply Hsys|by exists p].
      - destruct Ht as (p & Hpo & Hnode). rewrite own_node in Hnode by done.
        apply (reach_table v r2); [by apply Hsys|by exists p]. }
    apply (sw_private _ _ Hsys r1 r2 t); [done..|by apply own_private|by apply own_reach].
Qed.

Lemma own_xlate r2 va' : r2 ∈ roots → r2 ≠ r → xlate (pt_mem v') r2 va' = xlate (pt_mem v) r2 va'.
Proof.
  intros Hr2 Hne. apply (frame_root v v' r2); [by apply Hsys|apply Hup|]. intros. by apply (own_frame r2).
Qed.
End own.

(** An update of all roots at once, at an address under a shared index. *)
Section shared.
Context (v v' : vm) (roots : list Z) (va c : Z).
Context (Hsys : sys_wf v roots) (Hup : ∀ r, r ∈ roots → updates r va v v').
Context (Hshared : kslot v (pt_index 2 va) = Some c).

Lemma shared_kernel : kernel_pt v' = kernel_pt v.
Proof. apply (up_kernel _ _ _ _ (Hup _ (sw_kernel _ _ Hsys))). Qed.

Lemma shared_kslot i : (i < 512)%nat → kslot v' i = kslot v i.
Proof.
  intros Hi. pose proof (Hup _ (sw_kernel _ _ Hsys)) as Hu. unfold kslot. rewrite shared_kernel.
  rewrite <- !node_one. pose proof (path_ok2_one i Hi). destruct (decide (i = pt_index 2 va)) as [->|Hne].
  - unfold kslot in Hshared. rewrite <- node_one in Hshared. rewrite Hshared. by apply (up_node _ _ _ _ Hu).
  - apply (touches_other v v' _ va); [apply Hsys, Hsys|apply Hu|done|done].
Qed.

Lemma shared_sys : sys_wf v' roots.
Proof.
  pose proof (sw_kernel _ _ Hsys) as Hk. split.
  - apply (up_wf _ _ _ _ (Hup _ Hk)).
  - intros r Hr. apply (up_root _ _ _ _ (Hup r Hr)).
  - by rewrite shared_kernel.
  - intros r i u Hr Hi. rewrite shared_kslot by done. intros Hs%(sw_shared _ _ Hsys r); [|done|done].
    rewrite <- node_one in Hs |- *. by apply (up_node _ _ _ _ (Hup r Hr)); [apply path_ok2_one|].
  - intros r1 r2 t H1 H2 Hne Hp (p & Hpo & Ht).
    assert (private v r1 t) as Hp1.
    { destruct Hp as [->|(i & q & Hi & Hq & Hn)]; [by left|]. right. exists i, q.
      rewrite shared_kslot in Hi by (destruct Hq as [_ Hq]; by apply Forall_cons in Hq as [? _]).
      split; [done|]. split; [done|]. rewrite <- Hn. symmetry.
      apply (touches_other v v' r1 va); [by apply Hsys|apply Hup, H1|by intros ->; congruence|done]. }
    apply (sw_private _ _ Hsys r1 r2 t); [done..|]. exists p. split; [done|].
    apply (up_back _ _ _ _ (Hup r2 H2)); [done|done|].
    apply (reach_table v r1); [by apply Hsys|by apply private_reach].
Qed.
End shared.

(** Under a shared index it makes no difference through which root a page is mapped. *)
Lemma map_page_shared v roots r r2 va pa perm :
  sys_wf v roots → r ∈ roots → r2 ∈ roots → is_Some (kslot v (pt_index 2 va)) →
  vm_map_page r va pa perm v = vm_map_page r2 va pa perm v.
Proof.
  intros Hsys Hr Hr2 [c Hc].
  assert (∀ r, r ∈ roots → walk_levels [2; 1] r va true v = walk_levels [1] c va true v) as Hwalk.
  { intros r0 Hr0. pose proof (sw_shared _ _ Hsys r0 _ c Hr0 (pt_index_lt 2 va) Hc) as Hf.
    destruct (follow_table v r0 (pt_index 2 va) (sw_vm _ _ Hsys)) as (e & He & Hf');
      [by apply root_is_table, Hsys|apply pt_index_lt|].
    rewrite Hf in Hf'. cbn [walk_levels]. unfold bind at 1. rewrite (get_pte_spec v r0 _ e He).
    destruct (has PTE_V e); [|done]. by simplify_eq. }
  assert (vm_walk r va true v = vm_walk r2 va true v) as E
    by (unfold vm_walk, bind; by rewrite (Hwalk r Hr), (Hwalk r2 Hr2)).
  unfold vm_map_page. case_match; [done|]. unfold bind. by rewrite E.
Qed.

(** ** A new agent's table *)

Section create.
Context (v : vm) (roots : list Z) (tbl : list Z).
Context (Hsys : sys_wf v roots) (Hn : pt_next v < PT_PAGES).
Context (Hk : kernel_pt v ∈ roots) (Htbl : pt_mem v !! kernel_pt v = Some tbl).

Let n : Z := next_table v.
Let k : Z := kernel_pt v.

(** The state after the kernel's root is copied into the new table. *)
Definition create_state : vm := with_pt (<[next_table v := tbl]> (pt_mem (alloc_state v))) (alloc_state v).

Lemma create_fresh : ¬ is_table v n.
Proof. apply next_not_table; [apply Hsys|done]. Qed.

Lemma create_kernel : root_wf v k.
Proof. by apply Hsys. Qed.

Lemma create_ent t i :
  ent (pt_mem create_state) t i = if decide (t = n) then ent (pt_mem v) k i else ent (pt_mem v) t i.
Proof.
  unfold create_state. simpl. rewrite !ent_new. fold n. case_decide; [|done]. unfold ent, k. by rewrite Htbl.
Qed.

Lemma create_frame r t i : r ∈ roots → reach v r t → ent (pt_mem create_state) t i = ent (pt_mem v) t i.
Proof.
  intros Hr Ht. rewrite create_ent, decide_False; [done|]. intros ->. apply create_fresh.
  apply (reach_table v r); [by apply Hsys|done].
Qed.

Lemma create_node i p :
  path_ok2 (i :: p) → node (pt_mem create_state) n (i :: p) = node (pt_mem v) k (i :: p).
Proof.
  intros Hp. rewrite <- (frame_node v create_state k (i :: p)); [|by intros; apply (create_frame k)|done].
  cbn [node]. assert (follow (pt_mem create_state) n i = follow (pt_mem create_state) k i) as ->; [|done].
  unfold follow. rewrite !create_ent, decide_True by done. rewrite decide_False; [done|].
  intros E. apply create_fresh. rewrite <- E. apply root_is_table, create_kernel.
Qed.

Lemma create_reach t :
  reach create_state n t → t = n ∨ ∃ i p, path_ok2 (i :: p) ∧ node (pt_mem v) k (i :: p) = Some t.
Proof.
  intros ([|i p] & Hp & Ht); [by left; simpl in Ht; simplify_eq|]. right. exists i, p.
  by rewrite create_node in Ht.
Qed.

Lemma create_old r t : r ∈ roots → reach create_state r t ↔ reach v r t.
Proof.
  intros Hr. split; intros (p & Hp & Ht); exists p; (split; [done|]).
  - by rewrite (frame_node v) in Ht by (done || by intros; apply (create_frame r)).
  - by rewrite (frame_node v) by (done || by intros; apply (create_frame r)).
Qed.

Lemma create_wf : vm_wf create_state.
Proof.
  pose proof (sw_vm _ _ Hsys) as Hw. pose proof (alloc_state_wf v Hw Hn) as Hwa. split.
  - apply (vw_next _ Hwa).
  - intros t. etrans; [|apply (vw_tables _ Hwa t)]. simpl. fold n.
    destruct (decide (t = n)) as [->|Hne]; [by rewrite !lookup_insert_eq|].
    by rewrite (lookup_insert_ne _ n t tbl) by done.
  - intros t tb E. simpl in E. fold n in E. destruct (decide (t = n)) as [->|Hne].
    + rewrite lookup_insert_eq in E. simplify_eq. by eapply (vw_len v Hw).
    + rewrite lookup_insert_ne in E by done. by eapply (vw_len _ Hwa).
  - intros t i e. rewrite create_ent. case_decide; apply (vw_word v Hw).
Qed.

Lemma create_root : root_wf create_state n.
Proof.
  pose proof (sw_vm _ _ Hsys) as Hw. pose proof create_kernel as Hkr. split.
  - intros p t Hp Ht. destruct (create_reach t) as [->|(i & q & Hq & Hq')]; [by exists p| |].
    + apply (is_table_alloc v); [done|]. by right.
    + eapply (is_table_mono v); [simpl; lia|]. by eapply (rw_tables v k Hkr).
  - intros p q t Hp Hq. destruct p as [|i p], q as [|j q]; [done| | |].
    + intros [= <-]. rewrite create_node by done. intros Ht. destruct create_fresh.
      by apply (rw_tables v k Hkr (j :: q)).
    + rewrite create_node by done. intros Ht [= <-]. destruct create_fresh.
      by apply (rw_tables v k Hkr (i :: p)).
    + rewrite !create_node by done. by apply (rw_unique v k Hkr).
Qed.

Lemma create_kslot i : kslot create_state i = kslot v i.
Proof.
  unfold kslot. change (kernel_pt create_state) with k. unfold follow.
  rewrite create_ent, decide_False; [done|]. intros E. apply create_fresh. rewrite <- E.
  apply root_is_table, create_kernel.
Qed.

Lemma create_private_old r t : r ∈ roots → private create_state r t → private v r t.
Proof.
  intros Hr [->|(i & q & Hi & Hq & Hp)]; [by left|]. right. exists i, q. rewrite create_kslot in Hi.
  split; [done|]. split; [done|].
  by rewrite (frame_node v) in Hp by (done || by intros; apply (create_frame r)).
Qed.

(** The new table has nothing of its own yet, and shares no private table of the
    others. *)
Lemma create_private r1 r2 t :
  r1 ∈ n :: roots → r2 ∈ n :: roots → r1 ≠ r2 → private create_state r1 t → ¬ reach create_state r2 t.
Proof.
  intros H1 H2 Hne Hp Ht. apply elem_of_cons in H1 as [->|H1], H2 as [->|H2]; [done| | |].
  - (* the new table against an old one *)
    apply (create_old r2 t H2) in Ht. destruct Hp as [->|(i & q & Hi & Hq & Hp)].
    + apply create_fresh. apply (reach_table v r2); [by apply Hsys|done].
    + rewrite create_node in Hp by done. cbn [node] in Hp. rewrite create_kslot in Hi.
      unfold kslot in Hi. fold k in Hi. by rewrite Hi in Hp.
  - (* an old table against the new one *)
    assert (private v r1 t) as Hp' by (by apply create_private_old).
    assert (is_table v t) as Hti
      by (apply (reach_table v r1); [by apply Hsys|by apply private_reach]).
    destruct (create_reach t Ht) as [->|(i & p & Hip & Hnode)]; [by destruct create_fresh|].
    destruct (decide (r1 = k)) as [->|Hrk]; [|by apply (sw_private _ _ Hsys r1 k t); [..|exists (i :: p)]].
    destruct Hp' as [->|(j & q & Hj & Hq & Hp')].
    + pose proof (rw_unique v k create_kernel [] (i :: p) k path_ok2_nil Hip eq_refl Hnode). done.
    + cbn [node] in Hp'. unfold kslot in Hj. fold k in Hj. by rewrite Hj in Hp'.
  - apply (create_old r2 t H2) in Ht.
    apply (sw_private _ _ Hsys r1 r2 t); [done|done|done|by apply create_private_old|done].
Qed.

Lemma create_xlate va : xlate (pt_mem create_state) n va = xlate (pt_mem v) k va.
Proof.
  unfold xlate. rewrite create_node by apply va_path_ok.
  destruct (node (pt_mem v) k [pt_index 2 va; pt_index 1 va]) as [t|] eqn:Ht; [|done]. simpl.
  rewrite (create_frame k); [done|done|]. exists [pt_index 2 va; pt_index 1 va]. split; [apply va_path_ok|done].
Qed.

Lemma create_sys : sys_wf create_state (n :: roots).
Proof.
  split; [apply create_wf| |by apply list_elem_of_further| |apply create_private].
  - intros r [->|Hr]%elem_of_cons; [apply create_root|].
    apply (frame_root v); [by apply Hsys|simpl; lia|]. intros. by apply (create_frame r).
  - intros r i c Hr Hi. rewrite create_kslot. intros Hs. rewrite <- node_one.
    pose proof (path_ok2_one i Hi). apply elem_of_cons in Hr as [->|Hr].
    + rewrite create_node, node_one by done. done.
    + rewrite (frame_node v) by (done || by intros; apply (create_frame r)). rewrite node_one.
      by apply (sw_shared _ _ Hsys).
Qed.
End create.

Lemma vm_create_spec v roots :
  sys_wf v roots → kernel_pt v ≠ 0 →
  if decide (pt_next v < PT_PAGES)
  then ∃ v', vm_create_agent_pt v = Ret (next_table v, v') ∧ next_table v ≠ 0
         ∧ sys_wf v' (next_table v :: roots) ∧ ¬ next_table v ∈ roots
         ∧ kernel_pt v' = kernel_pt v ∧ pmem v' = pmem v ∧ kheap v' = kheap v
         ∧ (∀ va, xlate (pt_mem v') (next_table v) va = xlate (pt_mem v) (kernel_pt v) va)
         ∧ (∀ r va, r ∈ roots → xlate (pt_mem v') r va = xlate (pt_mem v) r va)
         ∧ (∀ i, kslot v' i = kslot v i)
  else vm_create_agent_pt v = Ret (0, v).
Proof.
  intros Hsys Hk0. pose proof (sw_vm _ _ Hsys) as Hw. pose proof (sw_kernel _ _ Hsys) as Hk.
  pose proof (pt_alloc_spec v Hw) as Ha. unfold vm_create_agent_pt. case_decide as Hn.
  2: { unfold bind. by rewrite Ha. }
  destruct Ha as [Ha Hn0]. pose proof (next_not_table v Hw Hn) as Hfresh.
  assert (is_table v (kernel_pt v)) as Hkt by (apply root_is_table, Hsys, Hk).
  destruct (proj2 (vw_tables v Hw _) Hkt) as [tbl Htbl].
  assert (kernel_pt v ≠ next_table v) as Hkn by (intros E; by rewrite E in Hkt).
  exists (create_state v tbl). split.
  { unfold bind at 1. rewrite Ha. unfold bind, gets. cbn [kernel_pt alloc_state].
    test_false (next_table v =? 0). test_false (kernel_pt v =? 0). cbn [orb].
    change (pt_mem (alloc_state v)) with (<[next_table v := zero_table]> (pt_mem v)).
    rewrite lookup_insert_ne by done. by rewrite Htbl. }
  split_and!; try done.
  - by apply create_sys.
  - intros Hin. apply Hfresh. by apply root_is_table, Hsys.
  - intros va. by apply (create_xlate v roots).
  - intros r va Hr. apply (frame_root v); [by apply Hsys|simpl; lia|].
    intros. by apply (create_frame v roots tbl Hsys Hn Htbl r).
  - intros i. by apply (create_kslot v roots).
Qed.

End tree.
