(* ===== verification/VmProps.v ===== *)
(** * Properties of address spaces (kernel/vm.c)

    The theorems about mapping, isolation, access checks and copy-on-write,
    proved from the tree lemmas of VmTree.v.  Isolation is about every state reachable
    from the one that [vm_init] leaves, with the kernel's own mappings in it. *)

From S2P Require Import Prelude Abi AgentDef Mem Vm VmTree.

Section props.
Context {L : Layout} {LL : LayoutLaws}.

(** Mapping a page: in a well-formed table, [vm_map_page] of an aligned
    page always terminates with 0 or -1.  On success the page was unmapped and
    now translates to the given physical page with the given permissions, and
    the translation of every other page is unchanged; on failure (the page was
    mapped, or the table pool is used up) no translation changes.  The table
    stays well formed. *)
Theorem map_page_exact v r va pa perm :
  vm_wf v → root_wf v r → va mod PAGE_SIZE = 0 → page_ok pa → 0 ≤ perm < 32 →
  ∃ rc v', vm_map_page r va pa perm v = Ret (rc, v') ∧ vm_wf v' ∧ root_wf v' r
    ∧ ((rc = 0 ∧ xlate (pt_mem v) r va = None
        ∧ ∀ va', xlate (pt_mem v') r va'
                 = if decide (same_page va va') then Some (pte_make pa (map_flags perm))
                   else xlate (pt_mem v) r va')
       ∨ (rc = -1 ∧ (is_Some (xlate (pt_mem v) r va) ∨ pt_next v' = PT_PAGES)
          ∧ ∀ va', xlate (pt_mem v') r va' = xlate (pt_mem v) r va')).
Proof.
  intros Hw Hr Hva Hpa Hperm.
  destruct (vm_map_page_spec v r va pa perm Hw Hr Hva Hpa Hperm)
    as (rc & v' & E & ? & ? & _ & _ & _ & _ & _ & _ & _ & H). by exists rc, v'.
Qed.

Lemma pt_index_div l va : 0 ≤ l → pt_index l va = Z.to_nat (va / 4096 / 2 ^ (9 * l) mod 512).
Proof.
  intros Hl. unfold pt_index. change 0x1ff with (Z.ones 9). rewrite Z.land_ones by lia.
  change (2 ^ 9) with 512. do 2 f_equal. rewrite Z.shiftr_div_pow2 by lia.
  rewrite Z.pow_add_r by lia. change (2 ^ 12) with 4096. by rewrite Z.div_div by lia.
Qed.

(** ** The kernel's table at boot *)

(** The memory at power-on: no table, the kernel heap unused. *)
Definition power_on : vm := mk_vm ∅ 0 0 ∅ (mem_init platform_heap_start).

(** The kernel's table while it is filled: nothing under index 1, the half of the
    stacks and the heaps. *)
Record filling (v : vm) : Prop := {
  fi_wf : vm_wf v;
  fi_root : root_wf v root_table;
  fi_kernel : kernel_pt v = root_table;
  fi_free : follow (pt_mem v) root_table 1 = None
}.

(** The table memory after the kernel's own root table is cleared. *)
Definition boot_vm : vm := mk_vm {[root_table := zero_table]} 0 root_table ∅ (mem_init platform_heap_start).

Lemma boot_follow t i : follow (pt_mem boot_vm) t i = None.
Proof.
  unfold follow, ent. simpl. destruct (decide (t = root_table)) as [->|Hne].
  - rewrite lookup_singleton_eq. simpl. destruct (zero_table !! i) as [x|] eqn:E; [|done].
    by apply zero_table_lookup in E as ->.
  - by rewrite lookup_singleton_ne.
Qed.

Lemma boot_node r p t : node (pt_mem boot_vm) r p = Some t → p = [] ∧ t = r.
Proof. destruct p as [|i p]; [by intros [= ->]|]. simpl. by rewrite boot_follow. Qed.

Lemma boot_wf : vm_wf boot_vm.
Proof.
  split; simpl.
  - unfold PT_PAGES. lia.
  - intros t. unfold is_table. simpl. destruct (decide (t = root_table)) as [->|Hne].
    + rewrite lookup_singleton_eq. split; [by left|done].
    + rewrite lookup_singleton_ne by done. split; [by intros []|]. intros [?|(k & Hk & _)]; [done|lia].
  - intros t tbl E. apply lookup_singleton_Some in E as [_ <-]. unfold zero_table. by rewrite length_replicate.
  - intros t i e. unfold ent. destruct (decide (t = root_table)) as [->|Hne].
    + rewrite lookup_singleton_eq. simpl. by intros ->%zero_table_lookup.
    + by rewrite lookup_singleton_ne.
Qed.

Lemma boot_root : root_wf boot_vm root_table.
Proof.
  split.
  - intros p t _ [_ ->]%boot_node. by left.
  - intros p q t _ _ [-> _]%boot_node [-> _]%boot_node. done.
Qed.

Lemma boot_filling : filling boot_vm.
Proof. split; [apply boot_wf|apply boot_root|done|apply boot_follow]. Qed.

(** A step of the boot that returns and keeps the table so. *)
Definition fills {A} (m : M vm A) : Prop := triple filling m (λ _, filling).

Lemma fills_ret {A} (x : A) : fills (ret x).
Proof. by apply triple_ret. Qed.

Lemma fills_bind {A B} (m : M vm A) (f : A → M vm B) : fills m → (∀ x, fills (f x)) → fills (bind m f).
Proof. intros Hm Hf. by eapply triple_bind. Qed.

Lemma fills_map_page a perm :
  a mod PAGE_SIZE = 0 → 0 < a < 0x4000000000 → pt_index 2 a ≠ 1%nat → 0 ≤ perm < 32 →
  fills (vm_map_page root_table a a perm).
Proof.
  intros Ha Hr Hi Hp v [Hw Hroot Hk Hf]. assert (page_ok a) as Hpa by (split; [done|lia]).
  destruct (vm_map_page_spec v root_table a a perm Hw Hroot Ha Hpa Hp) as (rc & v' & E & _).
  destruct (map_page_updates v root_table a a perm rc v' Hw Hroot Ha Hpa Hp E) as [Hw' Hr' _ Hk' Hto _ _].
  exists rc, v'. split; [done|]. split; [done|done|by rewrite Hk'|].
  rewrite <- node_one in Hf |- *. rewrite (touches_other v v' _ a); [done|done|done|by apply not_eq_sym|].
  apply path_ok2_one. lia.
Qed.

Lemma fills_map_pages fuel a last perm :
  a mod PAGE_SIZE = 0 → 0 < a → last ≤ 0x4000000000 → (∀ x, a ≤ x < last → pt_index 2 x ≠ 1%nat) →
  0 ≤ perm < 32 → last - a ≤ PAGE_SIZE * Z.of_nat fuel → fills (map_pages fuel root_table a last a perm).
Proof.
  unfold PAGE_SIZE. revert a. induction fuel as [|fuel IH]; intros a Ha H0 Hl Hi Hp Hfuel; cbn [map_pages].
  - test_false (a <? last). apply fills_ret.
  - destruct (Z.ltb_spec a last) as [Hlt|Hge]; cbn [negb]; [|apply fills_ret].
    apply fills_bind; [apply fills_map_page; [done|lia|apply Hi; lia|done]|]. intros rc.
    case_match; [apply fills_ret|]. unfold PAGE_SIZE. rewrite u64_small by lia.
    apply IH; [|lia|lia| |done|lia].
    + replace (a + 4096) with (a + 1 * 4096) by lia. by rewrite Z.mod_add by lia.
    + intros x Hx. apply Hi. lia.
Qed.

Lemma slot_low x : 0 ≤ x < 0x40000000 → pt_index 2 x ≠ 1%nat.
Proof.
  intros Hx. rewrite pt_index_div by lia. replace (x / 4096 / 2 ^ (9 * 2)) with 0; [done|].
  rewrite Z.div_div by lia. symmetry. by apply Z.div_small.
Qed.

Lemma slot_high x : 0x80000000 ≤ x < 0x4000000000 → pt_index 2 x ≠ 1%nat.
Proof.
  intros Hx. rewrite pt_index_div by lia. rewrite Z.div_div by lia. change (4096 * 2 ^ (9 * 2)) with 1073741824.
  assert (2 ≤ x / 1073741824 < 256) by (Z.to_euclidean_division_equations; lia).
  rewrite Z.mod_small by lia. lia.
Qed.

Lemma fills_region va size perm :
  region_ok (va, size) → 0 ≤ perm < 32 → fills (vm_map_region root_table va va size perm).
Proof.
  intros (H0 & H1 & H2) Hp. simpl in *. unfold vm_map_region, pa_round_down, pa_round_up.
  rewrite (u64_small (va + size)) by lia. change PAGE_SIZE with 4096. rewrite u64_small by lia.
  rewrite !align_down_12.
  assert (0 < va / 4096 * 4096 ≤ va) by (Z.to_euclidean_division_equations; lia).
  assert ((va + size + 4096 - 1) / 4096 * 4096 ≤ 0x40000000
          ∨ 0x80000000 ≤ va / 4096 * 4096 ∧ (va + size + 4096 - 1) / 4096 * 4096 ≤ 0x4000000000) as Hb
    by (Z.to_euclidean_division_equations; lia).
  replace (va + (va / 4096 * 4096 - va)) with (va / 4096 * 4096) by lia. rewrite u64_small by lia.
  apply fills_map_pages; [by rewrite Z.mod_mul|lia|lia| |done|].
  - intros x Hx. destruct Hb; [apply slot_low|apply slot_high]; lia.
  - unfold PAGE_SIZE. Z.to_euclidean_division_equations; lia.
Qed.

Lemma fills_all ms : Forall fills ms → fills (map_all ms).
Proof.
  induction 1 as [|m ms Hm _ IH]; [apply fills_ret|]. cbn [map_all]. apply fills_bind; [done|].
  intros rc. case_match; [apply fills_ret|done].
Qed.

(** Goes through a list of mappings, some of them conditional. *)
Local Ltac fill_list :=
  repeat match goal with
  | |- Forall _ (_ ++ _) => apply Forall_app; split
  | |- Forall _ (_ :: _) => apply Forall_cons; split
  | |- Forall _ [] => apply Forall_nil_2
  | |- Forall _ (if ?b then _ else _) => destruct b
  end; try (by apply fills_region).

Lemma fills_vm_init : ∃ b v, vm_init power_on = Ret (b, v) ∧ filling v.
Proof.
  pose proof regions_ok as Hreg. unfold kernel_regions in Hreg. rewrite !Forall_cons in Hreg.
  destruct Hreg as (? & ? & ? & ? & ? & ? & ? & ? & ? & _).
  assert (fills (map_kernel root_table)) as Hk.
  { apply fills_all. fill_list. apply fills_all. fill_list. }
  assert (fills (vm_map_user_text root_table)) as Hu.
  { apply fills_all. fill_list. }
  assert (fills (let! rc := map_kernel root_table in
                 if negb (rc =? 0) then ret false
                 else let! rc := vm_map_user_text root_table in ret (rc =? 0))) as Hall.
  { apply fills_bind; [done|]. intros rc. case_match; [apply fills_ret|].
    apply fills_bind; [done|]. intros rc2. apply fills_ret. }
  destruct (Hall boot_vm boot_filling) as (b & v & E & Hv). exists b, v. split; [exact E|done].
Qed.

(** ** Isolation *)

(** What changes the tables after boot: a new agent's table; a page mapped for an
    agent, at any address; an entry of a page of the agent's own half rewritten, as a
    copy-on-write alias and its fault do.  Any other memory may change at any time. *)
Inductive vm_step : vm * list Z → vm * list Z → Prop :=
  | vs_create v rs r v' :
      vm_create_agent_pt v = Ret (r, v') → r ≠ 0 → vm_step (v, rs) (v', r :: rs)
  | vs_map v rs r va pa perm rc v' :
      r ∈ rs → r ≠ kernel_pt v → va mod PAGE_SIZE = 0 → page_ok pa → 0 ≤ perm < 32 →
      vm_map_page r va pa perm v = Ret (rc, v') → vm_step (v, rs) (v', rs)
  | vs_entry v rs r va p e v' :
      r ∈ rs → r ≠ kernel_pt v → kslot v (pt_index 2 va) = None → word64 e →
      vm_walk r va false v = Ret (Some p, v) → set_pte p e v = Ret (tt, v') → vm_step (v, rs) (v', rs)
  | vs_memory v rs m h : vm_step (v, rs) (with_pmem m (with_heap h v), rs).

(** What holds of the tables in every state. *)
Record vm_inv (s : vm * list Z) : Prop := {
  vi_sys : sys_wf s.1 s.2;
  vi_kernel : kernel_pt s.1 = root_table;
  vi_free : kslot s.1 1 = None
}.

(** Mapping a page in a state with these tables: under an index of its own, only the
    agent's translations may change; under a shared one, every table has the page. *)
Lemma map_page_step v rs r va pa perm :
  sys_wf v rs → r ∈ rs → r ≠ kernel_pt v → va mod PAGE_SIZE = 0 → page_ok pa → 0 ≤ perm < 32 →
  ∃ rc v', vm_map_page r va pa perm v = Ret (rc, v') ∧ sys_wf v' rs ∧ kernel_pt v' = kernel_pt v
    ∧ (∀ i, (i < 512)%nat → kslot v' i = kslot v i)
    ∧ (kslot v (pt_index 2 va) = None → ∀ r2 va', r2 ∈ rs → r2 ≠ r →
         xlate (pt_mem v') r2 va' = xlate (pt_mem v) r2 va')
    ∧ (is_Some (kslot v (pt_index 2 va)) → ∀ r2 va', r2 ∈ rs →
         xlate (pt_mem v') r2 va'
         = if decide (rc = 0 ∧ same_page va va') then Some (pte_make pa (map_flags perm))
           else xlate (pt_mem v) r2 va').
Proof.
  intros Hsys Hr Hne Hva Hpa Hp. pose proof (sw_vm _ _ Hsys) as Hw.
  destruct (map_page_exact v r va pa perm Hw (sw_roots _ _ Hsys r Hr) Hva Hpa Hp) as (rc & v' & E & _).
  assert (∀ r2, r2 ∈ rs → is_Some (kslot v (pt_index 2 va)) → vm_map_page r2 va pa perm v = Ret (rc, v')) as Hall
    by (intros r2 Hr2 Hs; by rewrite (map_page_shared v rs r2 r)).
  pose proof (map_page_updates v r va pa perm rc v' Hw (sw_roots _ _ Hsys r Hr) Hva Hpa Hp E) as Hup.
  exists rc, v'. split; [done|]. destruct (kslot v (pt_index 2 va)) as [c|] eqn:Hs.
  - assert (∀ r2, r2 ∈ rs → updates r2 va v v') as Hups.
    { intros r2 Hr2. eapply map_page_updates; [done|by apply Hsys|done..|by apply Hall]. }
    split; [by eapply shared_sys|]. split; [by eapply shared_kernel|].
    split; [intros i Hi; by eapply shared_kslot|]. split; [done|]. intros _ r2 va' Hr2.
    destruct (map_page_exact v r2 va pa perm Hw (sw_roots _ _ Hsys r2 Hr2) Hva Hpa Hp)
      as (rc2 & v2 & E2 & _ & _ & Hx). rewrite Hall in E2 by done. simplify_eq.
    destruct Hx as [(-> & _ & Hx)|(-> & _ & Hx)]; rewrite Hx.
    + destruct (decide (same_page va va')); [by rewrite decide_True|by rewrite decide_False by tauto].
    + by rewrite decide_False by (by intros [? _]).
  - split; [by eapply own_sys|]. split; [apply Hup|]. split; [intros i _; by eapply own_kslot|].
    split; [|by intros [? ?]]. intros _ r2 va' Hr2 Hn. by apply (own_xlate v v' rs r va).
Qed.

Lemma vm_step_inv s s' : vm_step s s' → vm_inv s → vm_inv s'.
Proof.
  intros Hst [Hsys Hk Hf]. destruct Hst as [v rs r v' E Hr|v rs r va pa perm rc v' Hr Hne Hva Hpa Hp E
    |v rs r va p e v' Hr Hne Hown He Ew Es|v rs m h]; simpl in *.
  - assert (kernel_pt v ≠ 0) as H0 by (rewrite Hk; destruct root_page; lia).
    pose proof (vm_create_spec v rs Hsys H0) as Hc. case_decide; [|congruence].
    destruct Hc as (v2 & E2 & _ & Hs2 & _ & Hk2 & _ & _ & _ & _ & Hf2).
    rewrite E in E2. simplify_eq. split; simpl; [done|congruence|by rewrite Hf2].
  - destruct (map_page_step v rs r va pa perm Hsys Hr Hne Hva Hpa Hp) as (rc2 & v2 & E2 & Hs2 & Hk2 & Hf2 & _).
    rewrite E in E2. simplify_eq. split; simpl; [done|congruence|]. rewrite Hf2; [done|lia].
  - pose proof (sw_vm _ _ Hsys) as Hw. pose proof (sw_roots _ _ Hsys r Hr) as Hroot.
    rewrite vm_walk_lookup in Ew by done.
    destruct (node (pt_mem v) r [pt_index 2 va; pt_index 1 va]) as [t|] eqn:Ht; [|done]. simplify_eq/=.
    destruct (leaf_ent v r va t Hw Hroot Ht) as (_ & x & Hx & _). rewrite (set_pte_spec v t _ e x Hx) in Es.
    simplify_eq. pose proof (leaf_updates v r va t e Hw Hroot He Ht) as Hup.
    split; simpl; [by apply (own_sys v _ rs r va)|done|].
    change (kslot (set_leaf v t va e) 1 = None). by rewrite (own_kslot v _ rs r va).
  - split; [|done|done]. destruct Hsys as [[] Hrs ? ? ?]. split; [by constructor| |done|done|done].
    intros r Hr. destruct (Hrs r Hr). by constructor.
Qed.

Lemma init_inv b v : vm_init power_on = Ret (b, v) → vm_inv (v, [root_table]).
Proof.
  intros E. destruct fills_vm_init as (b2 & v2 & E2 & [Hw Hr Hk Hf]). rewrite E in E2. simplify_eq.
  split; simpl; [|done|by unfold kslot; rewrite Hk].
  split; [done| |rewrite Hk; by apply list_elem_of_singleton| |].
  - by intros r ->%list_elem_of_singleton.
  - intros r i c ->%list_elem_of_singleton _. unfold kslot. by rewrite Hk.
  - by intros r r2 t ->%list_elem_of_singleton ->%list_elem_of_singleton.
Qed.

Lemma steps_inv b v0 v rs :
  vm_init power_on = Ret (b, v0) → rtc vm_step (v0, [root_table]) (v, rs) → vm_inv (v, rs).
Proof.
  intros E Hrtc. pose proof (init_inv b v0 E) as H0. revert Hrtc H0.
  generalize (v0, [root_table]) as s0. generalize (v, rs) as s1. induction 1; eauto using vm_step_inv.
Qed.

Lemma user_slot va : USER_STACK_BASE ≤ va < 0x80000000 → pt_index 2 va = 1%nat.
Proof.
  unfold USER_STACK_BASE. intros Hva. rewrite pt_index_div by lia. rewrite Z.div_div by lia.
  change (4096 * 2 ^ (9 * 2)) with 1073741824. replace (va / 1073741824) with 1; [done|].
  Z.to_euclidean_division_equations; lia.
Qed.

(** [C2] Agents' address spaces are isolated where stacks and heaps are, and only there.
    Take any state reached after [vm_init] has mapped the kernel, the user programs and
    the devices into the kernel's table, by creating agents' tables, mapping pages for
    agents at any addresses, rewriting entries of pages of an agent's own part
    (copy-on-write) and changing other memory.  There, mapping one more page for one
    agent always returns and keeps all tables well formed.  If the page lies where the
    kernel's table has nothing (as all addresses from 0x40000000 to 0x7fffffff do, the
    half of the stacks and heaps), no translation changes in any other agent's table or
    in the kernel's.  If it lies under an entry of the kernel's root (where the linker
    script of loaded agents puts their code), the page, if it is mapped at all, appears
    in every agent's table and in the kernel's, and nothing else changes. *)
Theorem address_spaces_isolated v0 v rs r va pa perm :
  vm_init power_on = Ret (true, v0) → rtc vm_step (v0, [root_table]) (v, rs) →
  r ∈ rs → r ≠ kernel_pt v → va mod PAGE_SIZE = 0 → page_ok pa → 0 ≤ perm < 32 →
  (∀ x, USER_STACK_BASE ≤ x < 0x80000000 → kslot v (pt_index 2 x) = None)
  ∧ ∃ rc v', vm_map_page r va pa perm v = Ret (rc, v') ∧ sys_wf v' rs
    ∧ (kslot v (pt_index 2 va) = None → ∀ r2 va', r2 ∈ rs → r2 ≠ r →
         xlate (pt_mem v') r2 va' = xlate (pt_mem v) r2 va')
    ∧ (is_Some (kslot v (pt_index 2 va)) → ∀ r2 va', r2 ∈ rs →
         xlate (pt_mem v') r2 va'
         = if decide (rc = 0 ∧ same_page va va') then Some (pte_make pa (map_flags perm))
           else xlate (pt_mem v) r2 va').
Proof.
  intros Hinit Hrtc Hr Hne Hva Hpa Hp. destruct (steps_inv _ _ _ _ Hinit Hrtc) as [Hsys _ Hf]. simpl in *.
  split; [intros x Hx; by rewrite user_slot|].
  destruct (map_page_step v rs r va pa perm Hsys Hr Hne Hva Hpa Hp) as (rc & v' & E & Hs & _ & _ & H1 & H2).
  by exists rc, v'.
Qed.

(** ** Access checks *)

(** A byte the agent may read or write. *)
Definition accessible (v : vm) (r : Z) (write : bool) (va : Z) : Prop :=
  ∃ e, xlate (pt_mem v) r va = Some e ∧ has PTE_U e = true
    ∧ (if write then has PTE_W e = true else has PTE_R e = true ∨ has PTE_X e = true).

(** The translation depends on the page only. *)
Lemma xlate_page m r va va' : va / 4096 = va' / 4096 → xlate m r va = xlate m r va'.
Proof. intros E. unfold xlate. rewrite !(pt_index_div _ va), !(pt_index_div _ va'), E by lia. done. Qed.

Lemma accessible_page v r w va va' : va / 4096 = va' / 4096 → accessible v r w va → accessible v r w va'.
Proof. intros E (e & Hx & H). exists e. split; [|done]. by rewrite <- (xlate_page _ _ va va'). Qed.

(** One iteration of the check. *)
Lemma check_page_step v r a write end_ fuel :
  vm_wf v → root_wf v r → a < end_ →
  (accessible v r write a ∧
   check_pages (S fuel) r a end_ write v = check_pages fuel r (u64 (a + PAGE_SIZE)) end_ write v)
  ∨ (¬ accessible v r write a ∧ check_pages (S fuel) r a end_ write v = Ret (-1, v)).
Proof.
  intros Hw Hr Ha. cbn [check_pages]. test_true (a <? end_). cbn [negb].
  assert (∀ k : option (Z * nat) → M vm Z, (let! pte := vm_walk r a false in k pte) v
               = k ((λ t, (t, pt_index 0 a)) <$> node (pt_mem v) r [pt_index 2 a; pt_index 1 a]) v) as Hwalk.
  { intros k. unfold bind. by rewrite vm_walk_lookup. }
  rewrite Hwalk. destruct (node (pt_mem v) r [pt_index 2 a; pt_index 1 a]) as [t|] eqn:Ht; simpl.
  2: { right. split; [|done]. intros (e & Hx & _). unfold xlate in Hx. by rewrite Ht in Hx. }
  destruct (leaf_ent v r a t Hw Hr Ht) as (_ & e & He & Hx). unfold bind.
  rewrite (get_pte_spec v t _ e He). unfold accessible. rewrite Hx.
  destruct (has PTE_V e); simpl; [|right; split; [by intros (? & ? & _)|done]].
  destruct (has PTE_U e) eqn:HU; simpl; [|right; split; [by intros (? & ? & ? & _); simplify_eq; congruence|done]].
  destruct write.
  - destruct (has PTE_W e) eqn:HW; simpl; [left; split; [by exists e|done]|].
    right. split; [by intros (? & ? & _ & ?); simplify_eq; congruence|done].
  - destruct (has PTE_R e) eqn:HR; simpl; [left; split; [by exists e; auto|done]|].
    destruct (has PTE_X e) eqn:HX; simpl; [left; split; [by exists e; auto|done]|].
    right. split; [by intros (? & ? & _ & [?|?]); simplify_eq; congruence|done].
Qed.

Lemma check_pages_spec fuel v r a end_ write :
  vm_wf v → root_wf v r → a mod 4096 = 0 → 0 ≤ a → end_ ≤ 18446744073709547520 →
  end_ - a ≤ 4096 * Z.of_nat fuel →
  ∃ rc, check_pages fuel r a end_ write v = Ret (rc, v) ∧ (rc = 0 ∨ rc = -1)
    ∧ (rc = 0 ↔ ∀ x, a ≤ x < end_ → accessible v r write x).
Proof.
  intros Hw Hr. revert a; induction fuel as [|fuel IH]; intros a Ha H0 Hend Hf.
  - exists 0. split; [|split; [by left|split; [intros _ x; lia|done]]]. cbn. by test_false (a <? end_).
  - destruct (Z.lt_ge_cases a end_) as [Hlt|Hge].
    2: { exists 0. split; [|split; [by left|split; [intros _ x; lia|done]]]. cbn. by test_false (a <? end_). }
    destruct (check_page_step v r a write end_ fuel Hw Hr Hlt) as [[Hacc E]|[Hacc E]]; rewrite E.
    + unfold PAGE_SIZE. rewrite u64_small by lia. destruct (IH (a + 4096)) as (rc & E' & Hrc & Hiff);
        [by rewrite <- Z.add_mod_idemp_r by lia; rewrite Z.add_0_r|lia|done|lia|].
      exists rc. split; [done|]. split; [done|]. rewrite Hiff. split.
      * intros H x Hx. destruct (Z.lt_ge_cases x (a + 4096)); [|apply H; lia].
        apply (accessible_page v r write a); [|done]. Z.to_euclidean_division_equations; lia.
      * intros H x Hx. apply H. lia.
    + exists (-1). split; [done|]. split; [by right|]. split; [done|]. intros H. destruct Hacc. apply H. lia.
Qed.

Lemma user_check_spec v r ua len write :
  vm_wf v → root_wf v r → 0 ≤ ua → 0 < len → ua + len ≤ 18446744073709547520 →
  ∃ rc, vm_user_check r ua len write v = Ret (rc, v) ∧ (rc = 0 ∨ rc = -1)
    ∧ (rc = 0 ↔ ∀ x, ua ≤ x < ua + len → accessible v r write x).
Proof.
  intros Hw Hr Hua Hlen Hend. unfold vm_user_check. test_false (len =? 0).
  rewrite u64_small by lia. test_false (ua + len <? ua). rewrite align_down_12. unfold PAGE_SIZE.
  set (a := ua / 4096 * 4096).
  assert (a mod 4096 = 0 ∧ 0 ≤ a ∧ a ≤ ua < a + 4096) as (Ha & Ha0 & Hau).
  { unfold a. split; [by apply Z_mod_mult|]. Z.to_euclidean_division_equations; lia. }
  destruct (check_pages_spec (Z.to_nat ((ua + len - a) / 4096 + 1)) v r a (ua + len) write Hw Hr Ha Ha0)
    as (rc & E & Hrc & Hiff); [lia| |].
  { rewrite Z2Nat.id by (Z.to_euclidean_division_equations; lia). Z.to_euclidean_division_equations; lia. }
  exists rc. split; [done|]. split; [done|]. rewrite Hiff. split.
  - intros H x Hx. apply H. lia.
  - intros H x Hx. destruct (Z.lt_ge_cases x ua); [|apply H; lia].
    apply (accessible_page v r write ua); [|apply H; lia]. Z.to_euclidean_division_equations; lia.
Qed.

(** The user access check: for every non-empty range that does not reach
    the last page of the address space, [vm_user_check] terminates without any
    effect and returns 0 exactly when every byte of the range lies on a mapped
    user page with the permission asked for. *)
Theorem user_check_exact v r ua len write :
  vm_wf v → root_wf v r → 0 ≤ ua → 0 < len → ua + len ≤ 18446744073709547520 →
  ∃ rc, vm_user_check r ua len write v = Ret (rc, v) ∧ (rc = 0 ∨ rc = -1)
    ∧ (rc = 0 ↔ ∀ x, ua ≤ x < ua + len → accessible v r write x).
Proof. apply user_check_spec. Qed.

Lemma pt_index_alias l va : 0 ≤ l ≤ 2 → pt_index l (va + 549755813888) = pt_index l va.
Proof.
  intros Hl. rewrite !pt_index_div by lia. f_equal.
  assert (l = 0 ∨ l = 1 ∨ l = 2) as [->|[->| ->]] by lia; cbn;
    Z.to_euclidean_division_equations; lia.
Qed.

(** The access check ignores the address bits above the 39 that the walk
    uses: a range is accepted exactly when its image 2^39 higher is, although
    the hardware faults on the latter (its bits 39 to 63 are not all equal to
    bit 38), so a system call can make the kernel itself fault. *)
Theorem user_check_noncanonical v r ua len write :
  vm_wf v → root_wf v r → 0 ≤ ua → 0 < len → ua + len ≤ 274877906944 →
  vm_user_check r ua len write v = Ret (0, v) →
  vm_user_check r (ua + 549755813888) len write v = Ret (0, v).
Proof.
  intros Hw Hr Hua Hlen Hend E.
  destruct (user_check_spec v r ua len write Hw Hr Hua Hlen) as (rc & E1 & _ & H1); [lia|].
  destruct (user_check_spec v r (ua + 549755813888) len write Hw Hr) as (rc2 & E2 & Hrc2 & H2); [lia..|].
  rewrite E in E1. injection E1 as <-. rewrite E2. do 2 f_equal. apply H2. intros x Hx.
  replace x with (x - 549755813888 + 549755813888) by lia.
  destruct (proj1 H1 eq_refl (x - 549755813888)) as (e & Hxl & He); [lia|].
  exists e. split; [|done]. rewrite <- Hxl. unfold xlate. by rewrite !pt_index_alias by lia.
Qed.

(** ** Copy on write *)

Lemma onvm_ret {A} (m : M vm A) v a x v' : m v = Ret (x, v') → onvm m (v, a) = Ret (x, (v', a)).
Proof. intros E. unfold onvm, zoom. simpl. by rewrite E. Qed.

(** Looking a mapped page up. *)
Lemma xlate_node v r va e :
  vm_wf v → root_wf v r → xlate (pt_mem v) r va = Some e →
  ∃ t, node (pt_mem v) r [pt_index 2 va; pt_index 1 va] = Some t
    ∧ ent (pt_mem v) t (pt_index 0 va) = Some e ∧ has PTE_V e = true.
Proof.
  intros Hw Hr Hx. unfold xlate in Hx.
  destruct (node (pt_mem v) r [pt_index 2 va; pt_index 1 va]) as [t|] eqn:Ht; [|done]. simpl in Hx.
  destruct (ent (pt_mem v) t (pt_index 0 va)) as [x|] eqn:Hent; [|done]. simpl in Hx.
  destruct (has PTE_V x) eqn:HV; simplify_eq. by exists t.
Qed.

Lemma page_mapped_spec v r va :
  vm_wf v → root_wf v r →
  vm_page_mapped r va v = Ret (bool_decide (is_Some (xlate (pt_mem v) r va)), v).
Proof.
  intros Hw Hr. unfold vm_page_mapped. rewrite (bind_ret _ _ v _ v (vm_walk_lookup v r _ Hw Hr)).
  rewrite (xlate_page _ _ va (align_down 12 va)).
  2: { rewrite align_down_12, Z.div_mul by lia. done. }
  set (va' := align_down 12 va). destruct (node (pt_mem v) r [pt_index 2 va'; pt_index 1 va']) as [t|] eqn:Ht; simpl.
  - destruct (leaf_ent v r va' t Hw Hr Ht) as (_ & e & He & Hx). rewrite Hx.
    rewrite (bind_ret _ _ v _ v (get_pte_spec v t _ e He)). by destruct (has PTE_V e).
  - unfold xlate. by rewrite Ht.
Qed.

(** Copying a page byte by byte. *)
Lemma copy_bytes_spec k dst src m x :
  src + Z.of_nat k ≤ dst ∨ dst + Z.of_nat k ≤ src →
  default 0 (copy_bytes k dst src m !! x) =
  if decide (dst ≤ x < dst + Z.of_nat k) then default 0 (m !! (src + (x - dst))) else default 0 (m !! x).
Proof.
  revert dst src m; induction k as [|k IH]; intros dst src m Hd; cbn [copy_bytes].
  - by rewrite decide_False by lia.
  - rewrite IH by lia. destruct (decide (x = dst)) as [->|Hne].
    + rewrite decide_False by lia. rewrite decide_True by lia. rewrite lookup_insert_eq. simpl.
      by replace (src + (dst - dst)) with src by lia.
    + case_decide.
      * rewrite decide_True by lia. rewrite lookup_insert_ne by lia.
        by replace (src + 1 + (x - (dst + 1))) with (src + (x - dst)) by lia.
      * rewrite decide_False by lia. by rewrite lookup_insert_ne by done.
Qed.

(** Two pages of physical memory with the same contents. *)
Definition page_eq (m m' : gmap Z Z) (pa pa' : Z) : Prop :=
  ∀ off, 0 ≤ off < PAGE_SIZE → default 0 (m' !! (pa' + off)) = default 0 (m !! (pa + off)).

(** The flags of a private page after a copy. *)
Definition PTE_PRIVATE : Z := Z.lor (Z.lor (Z.lor (Z.lor PTE_U PTE_R) PTE_W) PTE_V) PTE_STD.

(** [vm_cow_break] on a read-only page. *)
Lemma cow_break_spec v a va pa flags start :
  let r := pagetable a in
  vm_wf v → root_wf v r → xlate (pt_mem v) r va = Some (pte_make pa flags) → page_ok pa →
  0 ≤ flags < 1024 → has PTE_V flags = true → has PTE_W flags = false →
  heap_wf start (kheap v) → pa + PAGE_SIZE ≤ heap_ptr (kheap v) ∨ heap_end (kheap v) ≤ pa →
  (kalloc_page (kheap v)).1 ≠ 0 →
  ∃ new v', vm_cow_break va (v, a) = Ret (0, (v', a)) ∧ page_ok new ∧ new ≠ pa
    ∧ vm_wf v' ∧ root_wf v' r ∧ heap_wf start (kheap v')
    ∧ (∀ va', xlate (pt_mem v') r va'
              = if decide (same_page (align_down 12 va) va') then Some (pte_make new PTE_PRIVATE)
                else xlate (pt_mem v) r va')
    ∧ page_eq (pmem v) (pmem v') pa new
    ∧ (∀ x, ¬ (new ≤ x < new + PAGE_SIZE) → default 0 (pmem v' !! x) = default 0 (pmem v !! x)).
Proof.
  intros r Hw Hr Hx Hpa Hfl HV HW Hheap Hout Hroom. unfold vm_cow_break.
  set (pva := align_down 12 va). assert (xlate (pt_mem v) r pva = Some (pte_make pa flags)) as Hx'.
  { rewrite <- Hx. apply xlate_page. unfold pva. rewrite align_down_12, Z.div_mul by lia. done. }
  destruct (xlate_node v r pva _ Hw Hr Hx') as (t & Ht & Hent & HVe).
  rewrite (bind_ret _ _ (v, a) r (v, a)) by done.
  rewrite (bind_ret _ _ _ _ _ (onvm_ret _ v a _ v (vm_walk_lookup v r pva Hw Hr))), Ht. cbn [fmap option_fmap option_map].
  rewrite (bind_ret _ _ _ _ _ (onvm_ret _ v a _ v (get_pte_spec v t _ _ Hent))).
  rewrite HVe, pte_make_has, HW, pte_make_pa by done. cbn [negb].
  destruct (kalloc_page_spec start (kheap v) Hheap) as (new & Hnew & Hal & [(Hend & Ek & Hheap')|(_ & Ek)]);
    [|by rewrite Ek in Hroom].
  set (v1 := with_heap (mk_heap (new + 4096) (heap_end (kheap v))) v).
  rewrite (bind_ret _ _ (v, a) new (v1, a)) by (apply onvm_ret; unfold vm_kalloc_page; by rewrite Ek).
  destruct Hheap as [Hs1 Hs2 Hs3 Hs4 Hs5]. unfold HEAP_SIZE in *. unfold PAGE_SIZE in *.
  test_false (new =? 0).
  assert (Z.of_nat (Z.to_nat 4096) = 4096) as Hk by done. revert Hk. generalize (Z.to_nat 4096) as k. intros k Hk.
  set (v2 := with_pmem (copy_bytes k new pa (pmem v1)) v1).
  rewrite (bind_ret _ _ (v1, a) tt (v2, a)) by done.
  rewrite (bind_ret _ _ (v2, a) tt (set_leaf v2 t pva (pte_make new PTE_PRIVATE), a))
    by (apply onvm_ret, (set_pte_spec v2 t (pt_index 0 pva) _ (pte_make pa flags)); exact Hent).
  assert (page_ok new) as Hnp by (split; [done|lia]).
  destruct Hpa as [Hpal Hpar]. unfold PAGE_SIZE in Hpal.
  assert (new ≠ pa ∧ (pa + 4096 ≤ new ∨ new + 4096 ≤ pa)) as [Hne Hdis].
  { assert (new + 4096 ≤ pa ∨ pa + 4096 ≤ new); [|lia]. Z.to_euclidean_division_equations; lia. }
  exists new, (set_leaf v2 t pva (pte_make new PTE_PRIVATE)). split; [done|].
  assert (vm_wf v2 ∧ root_wf v2 r) as [Hw2 Hr2] by (split; [by destruct Hw|by destruct Hr]).
  split; [done|]. split; [done|]. split; [apply set_ent_wf; [done|by apply pte_make_word]|].
  split; [by apply leaf_root|]. split; [done|]. split; [|split].
  - intros va'. rewrite (leaf_xlate v2 r) by done. by rewrite pte_make_has by done.
  - intros off Hoff. change (pmem (set_leaf _ _ _ _)) with (copy_bytes k new pa (pmem v)). unfold PAGE_SIZE in Hoff. rewrite copy_bytes_spec by lia.
    rewrite decide_True by lia. by replace (pa + (new + off - new)) with (pa + off) by lia.
  - intros x Hx0. change (pmem (set_leaf _ _ _ _)) with (copy_bytes k new pa (pmem v)). rewrite copy_bytes_spec by lia. by rewrite decide_False by lia.
Qed.

Lemma same_page_div va va' :
  0 ≤ va < 549755813888 → 0 ≤ va' < 549755813888 → same_page va va' → va / 4096 = va' / 4096.
Proof.
  intros Hv Hv' (H2 & H1 & H0). rewrite !pt_index_div in H2, H1, H0 by lia.
  change (2 ^ (9 * 2)) with 262144 in *. change (2 ^ (9 * 1)) with 512 in *. change (2 ^ (9 * 0)) with 1 in *.
  apply Z2Nat.inj in H2; [|apply Z.mod_pos_bound; lia..]. apply Z2Nat.inj in H1; [|apply Z.mod_pos_bound; lia..].
  apply Z2Nat.inj in H0; [|apply Z.mod_pos_bound; lia..].
  assert (0 ≤ va / 4096 < 134217728) by (split; [apply Z.div_pos; lia|apply Z.div_lt_upper_bound; lia]).
  assert (0 ≤ va' / 4096 < 134217728) by (split; [apply Z.div_pos; lia|apply Z.div_lt_upper_bound; lia]).
  generalize dependent (va / 4096). generalize dependent (va' / 4096). clear. intros q p. intros.
  Z.to_euclidean_division_equations. lia.
Qed.

(** A page of an agent's heap. *)
Definition heap_va (a : agent) (off : Z) : Z := heap_base a + off * PAGE_SIZE.

(** Where agents' heaps are. *)
Record heap_range (a : agent) : Prop := {
  hr_base : 0 ≤ heap_base a;
  hr_align : heap_base a mod PAGE_SIZE = 0;
  hr_max : 0 ≤ heap_max_pages a;
  hr_top : heap_base a + heap_max_pages a * PAGE_SIZE < 2147483648
}.

Lemma heap_va_range a off :
  heap_range a → 0 ≤ off < heap_max_pages a →
  0 ≤ heap_va a off < 2147483648 ∧ heap_va a off mod PAGE_SIZE = 0 ∧ heap_va a off / 4096 = heap_base a / 4096 + off.
Proof.
  intros [H1 H2 H3 H4] Ho. unfold heap_va, PAGE_SIZE in *. split; [lia|]. split.
  - by rewrite Z.mod_add by lia.
  - by rewrite Z.div_add by lia.
Qed.

Lemma heap_va_distinct a off off' :
  heap_range a → 0 ≤ off < heap_max_pages a → 0 ≤ off' < heap_max_pages a →
  same_page (heap_va a off) (heap_va a off') → off = off'.
Proof.
  intros Hr Ho Ho' Hs. destruct (heap_va_range a off Hr Ho) as (H1 & _ & E1).
  destruct (heap_va_range a off' Hr Ho') as (H2 & _ & E2).
  apply same_page_div in Hs; [|lia|lia]. lia.
Qed.

Lemma same_page_refl va : same_page va va.
Proof. done. Qed.

Lemma cow_flags : 0 ≤ PTE_COW < 1024 ∧ has PTE_V PTE_COW = true ∧ has PTE_W PTE_COW = false.
Proof. by vm_compute. Qed.

(** Rewriting the entry of a mapped page. *)
Lemma set_mapped v r va e e' :
  vm_wf v → root_wf v r → xlate (pt_mem v) r va = Some e → word64 e' → has PTE_V e' = true →
  ∃ p v', vm_walk r va false v = Ret (Some p, v) ∧ get_pte p v = Ret (e, v)
    ∧ set_pte p e' v = Ret (tt, v') ∧ vm_wf v' ∧ root_wf v' r ∧ pmem v' = pmem v ∧ kheap v' = kheap v
    ∧ pt_next v' = pt_next v ∧ has PTE_V e = true
    ∧ (∀ va', xlate (pt_mem v') r va' = if decide (same_page va va') then Some e' else xlate (pt_mem v) r va')
    ∧ (∀ va', vm_walk r va' false v' = match vm_walk r va' false v with Ret (o, _) => Ret (o, v') | Undef => Undef | Halt => Halt end).
Proof.
  intros Hw Hr Hx Hword HV. destruct (xlate_node v r va e Hw Hr Hx) as (t & Ht & Hent & HVe).
  exists (t, pt_index 0 va), (set_leaf v t va e').
  assert (vm_wf (set_leaf v t va e')) as Hw' by by apply set_ent_wf.
  assert (root_wf (set_leaf v t va e') r) as Hr' by by apply leaf_root.
  split; [by rewrite vm_walk_lookup, Ht by done|]. split; [by apply get_pte_spec|].
  split; [by apply (set_pte_spec v t _ _ e)|]. split; [done|]. split; [done|]. split; [done|]. split; [done|].
  split; [done|]. split; [done|]. split.
  - intros va'. rewrite (leaf_xlate v r) by done. by rewrite HV.
  - intros va'. rewrite !vm_walk_lookup by done. by rewrite leaf_node by (done || apply va_path_ok).
Qed.

(** The end of an alias: both entries become read-only entries of one page. *)
Lemma alias_finish v r (a : agent) src dst sp pa e1 e2 :
  vm_wf v → root_wf v r → ¬ same_page src dst → page_ok pa →
  xlate (pt_mem v) r src = Some e1 → vm_walk r src false v = Ret (Some sp, v) →
  xlate (pt_mem v) r dst = Some e2 →
  ∃ v', (onvm (set_pte sp (pte_make pa PTE_COW)) ;;
         let! dst_pte := onvm (vm_walk r dst false) in
         match dst_pte with
         | None => ret EINVAL
         | Some dp =>
             let! de := onvm (get_pte dp) in
             if negb (has PTE_V de) then ret EINVAL
             else onvm (set_pte dp (pte_make pa PTE_COW)) ;; ret (i32 dst)
         end) (v, a) = Ret (i32 dst, (v', a))
    ∧ vm_wf v' ∧ root_wf v' r ∧ pmem v' = pmem v
    ∧ ∀ va', xlate (pt_mem v') r va' = if decide (same_page src va' ∨ same_page dst va')
             then Some (pte_make pa PTE_COW) else xlate (pt_mem v) r va'.
Proof.
  intros Hw Hr Hne Hpa Hx1 Hwalk Hx2. destruct cow_flags as (Hcf & HcV & _).
  assert (word64 (pte_make pa PTE_COW) ∧ has PTE_V (pte_make pa PTE_COW) = true) as [Hword HV]
    by (split; [by apply pte_make_word|by rewrite pte_make_has]).
  destruct (set_mapped v r src e1 (pte_make pa PTE_COW) Hw Hr Hx1 Hword HV)
    as (p & v1 & Ew & _ & Es & Hw1 & Hr1 & Hp1 & _ & _ & _ & Hxl1 & _).
  rewrite Hwalk in Ew. injection Ew as <-.
  assert (xlate (pt_mem v1) r dst = Some e2) as Hx2' by (by rewrite Hxl1, decide_False).
  destruct (set_mapped v1 r dst e2 (pte_make pa PTE_COW) Hw1 Hr1 Hx2' Hword HV)
    as (dp & v2 & Ew2 & Eg2 & Es2 & Hw2 & Hr2 & Hp2 & _ & _ & HV2 & Hxl2 & _).
  exists v2. rewrite (bind_ret _ _ _ _ _ (onvm_ret _ v a _ v1 Es)).
  rewrite (bind_ret _ _ _ _ _ (onvm_ret _ v1 a _ v1 Ew2)), (bind_ret _ _ _ _ _ (onvm_ret _ v1 a _ v1 Eg2)), HV2.
  cbn [negb]. rewrite (bind_ret _ _ _ _ _ (onvm_ret _ v1 a _ v2 Es2)).
  split; [done|]. split; [done|]. split; [done|]. split; [congruence|].
  intros va'. rewrite Hxl2, Hxl1. repeat case_decide; tauto.
Qed.

(** Copy-on-write aliasing: for a mapped source page and an unmapped
    destination page of the heap, the call either makes both pages map the same
    physical page read-only, leaves every other translation and all memory
    contents alone and counts one more mapped page, or fails with ENOSPC (the
    agent's page budget or the table pool is used up) with every translation
    unchanged. *)
Theorem cow_alias_shares v a dst src pa flags :
  let r := pagetable a in
  vm_wf v → root_wf v r → r ≠ 0 → heap_range a →
  0 ≤ dst < heap_max_pages a → 0 ≤ src < heap_max_pages a → dst ≠ src →
  xlate (pt_mem v) r (heap_va a src) = Some (pte_make pa flags) → page_ok pa → 0 ≤ flags < 1024 →
  xlate (pt_mem v) r (heap_va a dst) = None →
  ∃ rc v' a', vm_heap_cow_alias dst src (v, a) = Ret (rc, (v', a')) ∧ vm_wf v' ∧ root_wf v' r
    ∧ pmem v' = pmem v
    ∧ ((rc = heap_va a dst ∧ a' = upd.heap_mapped (heap_mapped a + 1) a
        ∧ ∀ va', xlate (pt_mem v') r va'
                 = if decide (same_page (heap_va a src) va' ∨ same_page (heap_va a dst) va')
                   then Some (pte_make pa PTE_COW) else xlate (pt_mem v) r va')
       ∨ (rc = ENOSPC ∧ a' = a ∧ ∀ va', xlate (pt_mem v') r va' = xlate (pt_mem v) r va')).
Proof.
  intros r Hw Hr Hr0 Hra Hd Hs Hne Hxs Hpa Hfl Hxd. destruct cow_flags as (Hcf & HcV & _).
  destruct (heap_va_range a src Hra Hs) as (Hvs & _ & _). destruct (heap_va_range a dst Hra Hd) as (Hvd & Hvda & _).
  unfold vm_heap_cow_alias. rewrite (bind_ret _ _ (v, a) a (v, a)) by done. fold r.
  test_false (r =? 0). test_false (dst =? src). test_false (src <? 0). test_false (heap_max_pages a <=? src).
  test_false (dst <? 0). test_false (heap_max_pages a <=? dst). cbn [orb].
  fold (heap_va a src). fold (heap_va a dst). rewrite !u64_small by lia.
  destruct (set_mapped v r (heap_va a src) _ (pte_make pa PTE_COW) Hw Hr Hxs) as (sp & v0 & Ews & Egs & _ & _ & _ & _ & _ & _ & HVs & _);
    [by apply pte_make_word|by rewrite pte_make_has|].
  rewrite (bind_ret _ _ _ _ _ (onvm_ret _ v a _ v (page_mapped_spec v r _ Hw Hr))), Hxs. cbn [negb bool_decide].
  rewrite bool_decide_eq_true_2 by done. cbn [negb].
  rewrite (bind_ret _ _ _ _ _ (onvm_ret _ v a _ v Ews)). rewrite (bind_ret _ _ _ _ _ (onvm_ret _ v a _ v Egs)).
  rewrite HVs, pte_make_pa by done. cbn [negb].
  rewrite (bind_ret _ _ _ _ _ (onvm_ret _ v a _ v (page_mapped_spec v r _ Hw Hr))), Hxd.
  rewrite bool_decide_eq_false_2 by by intros [? ?].
  destruct (Z.leb_spec (heap_max_pages a) (heap_mapped a)) as [Hfull|Hroom].
  { exists ENOSPC, v, a. split; [done|]. split; [done|]. split; [done|]. split; [done|]. by right. }
  destruct (vm_map_page_spec v r (heap_va a dst) pa (Z.lor PTE_U PTE_R) Hw Hr Hvda Hpa ltac:(done))
    as (rc & v1 & Em & Hw1 & Hr1 & _ & _ & Hpm & _ & _ & _ & Hfwd & [(-> & _ & Hxl)|(-> & _ & Hxl)]).
  2: { exists ENOSPC, v1, a. unfold vm_map_user_page.
       rewrite (bind_ret _ _ (v, a) ENOSPC (v1, a)) by (by rewrite (bind_ret _ _ _ _ _ (onvm_ret _ v a _ v1 Em))).
       split; [done|]. split; [done|]. split; [done|]. split; [done|]. by right. }
  set (a' := upd.heap_mapped (heap_mapped a + 1) a).
  rewrite (bind_ret _ _ (v, a) 0 (v1, a'))
    by (unfold vm_map_user_page; by rewrite (bind_ret _ _ _ _ _ (onvm_ret _ v a _ v1 Em))).
  change (negb (0 =? 0)) with false. cbn iota.
  assert (¬ same_page (heap_va a dst) (heap_va a src)) as Hds
    by (intros H; apply Hne; by apply (heap_va_distinct a dst src)).
  assert (vm_walk r (heap_va a src) false v1 = Ret (Some sp, v1)) as Ews1.
  { rewrite vm_walk_lookup in Ews |- * by done.
    destruct (node (pt_mem v) r [pt_index 2 (heap_va a src); pt_index 1 (heap_va a src)]) as [t|] eqn:Ht; [|done].
    rewrite (Hfwd _ t (va_path_ok _) Ht). cbn [fmap option_fmap option_map] in Ews |- *. by injection Ews as <-. }
  destruct (alias_finish v1 r a' (heap_va a src) (heap_va a dst) sp pa (pte_make pa flags)
    (pte_make pa (map_flags (Z.lor PTE_U PTE_R)))) as (v2 & Ef & Hw2 & Hr2 & Hp2 & Hxl2);
    [done|done|by intros H; apply Hne; symmetry; apply (heap_va_distinct a src dst)|done
    |by rewrite Hxl, decide_False|done|by rewrite Hxl, decide_True|].
  exists (heap_va a dst), v2, a'. rewrite Ef, i32_small by lia.
  split; [done|]. split; [done|]. split; [done|]. split; [congruence|]. left. split; [done|]. split; [done|].
  intros va'. rewrite Hxl2, Hxl. repeat case_decide; tauto.
Qed.

(** A write fault on an aliased heap page is resolved by a private copy:
    when the kernel heap has a free page, the fault is handled, the faulting
    page now maps a different physical page writably, with the same contents;
    every other page (the other alias included) keeps its translation, and no
    other byte of memory changes. *)
Theorem cow_fault_private v a va pa start :
  let r := pagetable a in
  vm_wf v → root_wf v r → r ≠ 0 → heap_range a →
  heap_base a ≤ va < heap_base a + heap_max_pages a * PAGE_SIZE →
  xlate (pt_mem v) r va = Some (pte_make pa PTE_COW) → page_ok pa →
  heap_wf start (kheap v) → pa + PAGE_SIZE ≤ heap_ptr (kheap v) ∨ heap_end (kheap v) ≤ pa →
  (kalloc_page (kheap v)).1 ≠ 0 →
  ∃ new v', vm_heap_fault va true (v, a) = Ret (true, (v', a)) ∧ new ≠ pa
    ∧ vm_wf v' ∧ root_wf v' r
    ∧ (∀ va', xlate (pt_mem v') r va'
              = if decide (same_page va va') then Some (pte_make new PTE_PRIVATE)
                else xlate (pt_mem v) r va')
    ∧ page_eq (pmem v) (pmem v') pa new
    ∧ (∀ x, ¬ (new ≤ x < new + PAGE_SIZE) → default 0 (pmem v' !! x) = default 0 (pmem v !! x)).
Proof.
  intros r Hw Hr Hr0 Hra Hva Hx Hpa Hh Hout Hroom. destruct cow_flags as (Hcf & HcV & HcW).
  unfold vm_heap_fault. rewrite (bind_ret _ _ (v, a) a (v, a)) by done. fold r. test_false (r =? 0).
  destruct Hra as [R1 R2 R3 R4]. assert (in_heap a va = true) as ->.
  { unfold in_heap. unfold PAGE_SIZE in *. rewrite u64_small by lia. test_false (va <? heap_base a).
    by test_false (heap_base a + heap_max_pages a * 4096 <=? va). }
  cbn [negb]. set (pva := align_down 12 va).
  assert (pva / 4096 = va / 4096) as Hdiv by (unfold pva; rewrite align_down_12, Z.div_mul by lia; done).
  assert (xlate (pt_mem v) r pva = Some (pte_make pa PTE_COW)) as Hx' by (by rewrite <- Hx; apply xlate_page).
  rewrite (bind_ret _ _ _ _ _ (onvm_ret _ v a _ v (page_mapped_spec v r _ Hw Hr))), Hx'.
  rewrite bool_decide_eq_true_2 by done. cbn [negb].
  destruct (set_mapped v r pva _ (pte_make pa PTE_COW) Hw Hr Hx') as (p & v0 & Ew & Eg & _ & _ & _ & _ & _ & _ & HV & _);
    [by apply pte_make_word|by rewrite pte_make_has|].
  rewrite (bind_ret _ _ _ _ _ (onvm_ret _ v a _ v Ew)), (bind_ret _ _ _ _ _ (onvm_ret _ v a _ v Eg)), HV.
  rewrite pte_make_has, HcW by done. cbn [andb negb].
  destruct (cow_break_spec v a pva pa PTE_COW start Hw Hr Hx' Hpa Hcf HcV HcW Hh Hout Hroom)
    as (new & v' & E & _ & Hne & Hw' & Hr' & _ & Hxl & Hpe & Hrest).
  exists new, v'. rewrite (bind_ret _ _ _ _ _ E). split; [done|]. split; [done|]. split; [done|]. split; [done|].
  split; [|done]. intros va'. rewrite Hxl. replace (align_down 12 pva) with pva.
  2: { unfold pva. rewrite !align_down_12, Z.div_mul by lia. done. }
  assert (same_page pva va' ↔ same_page va va') as Hiff.
  { unfold same_page. rewrite !(pt_index_div _ pva), !(pt_index_div _ va), Hdiv by lia. done. }
  case_decide; case_decide; tauto || done.
Qed.

End props.

(** ** A concrete machine: the QEMU virt board

    The fixed addresses are those of linker.ld and platform_riscv_virt.c: the kernel at
    0x80200000, the user programs at 0x80400000, the heap at 0x80600000, the pool of
    tables at 0x80800000.  The sizes of the sections are those of one possible image. *)

#[export] Instance virt_layout : Layout := {
  root_table := 0x80300000; pt_storage := 0x80800000;
  sym_start := 0x80200000; sym_erodata := 0x80240050; sym_end := 0x80380000;
  sym_ptpool_start := 0x80800000; sym_ptpool_end := 0x80840000;
  sym_user_text_start := 0x80400000; sym_user_bss_start := 0x80420000; sym_user_end := 0x80430000;
  platform_heap_start := 0x80600000;
  platform_uart_mmio := 0x10000000;
  platform_virtio_mmio_base := 0x10001000; platform_virtio_mmio_count := 8;
  platform_virtio_mmio_stride := 0x1000
}.

#[export] Instance virt_laws : LayoutLaws.
Proof.
  split; [done|done|done| |].
  - intros k Hk. unfold pool_table. simpl. unfold PT_PAGES in Hk. lia.
  - repeat apply Forall_cons_2; [..|apply Forall_nil_2];
      (split; [vm_compute; discriminate|split; [vm_compute; discriminate|]]);
      first [by left; vm_compute | right; split; vm_compute; discriminate].
Qed.

Lemma boot_xlate va : xlate (pt_mem boot_vm) root_table va = None.
Proof. unfold xlate. cbn [node]. by rewrite boot_follow. Qed.

(** The boot table with one heap page of agent 1 mapped. *)
Definition heap1 : Z := 0x60010000.
Definition page1 : Z := 0x80a00000.
Definition rw_user : Z := Z.lor (Z.lor PTE_U PTE_R) PTE_W.

Lemma one_page :
  ∃ v, vm_map_page root_table heap1 page1 rw_user boot_vm = Ret (0, v) ∧ vm_wf v ∧ root_wf v root_table
    ∧ kheap v = mem_init platform_heap_start
    ∧ ∀ va, xlate (pt_mem v) root_table va
            = if decide (same_page heap1 va) then Some (pte_make page1 (map_flags rw_user)) else None.
Proof.
  destruct (vm_map_page_spec boot_vm root_table heap1 page1 rw_user boot_wf boot_root)
    as (rc & v & E & Hw & Hr & _ & _ & _ & Hh & _ & _ & _ & [(-> & _ & Hx)|(-> & _ & _)]); [done|done|done| |].
  - exists v. split; [done|]. split; [done|]. split; [done|]. split; [done|]. intros va. rewrite Hx.
    case_decide; [done|apply boot_xlate].
  - exfalso. revert E. vm_compute. discriminate.
Qed.

Lemma map_page_exact_witness :
  ∃ rc v', vm_map_page root_table heap1 page1 rw_user boot_vm = Ret (rc, v')
    ∧ (rc = 0 → xlate (pt_mem v') root_table (heap1 + 0x234) = Some (pte_make page1 (map_flags rw_user))).
Proof.
  destruct (map_page_exact boot_vm root_table heap1 page1 rw_user boot_wf boot_root)
    as (rc & v' & E & _ & _ & H); [done|done|done|].
  exists rc, v'. split; [exact E|]. intros ->. destruct H as [(_ & _ & Hx)|(? & _)]; [|done].
  rewrite Hx. by rewrite decide_True.
Defined.

(** Where linker-agent.ld puts the code of a loaded agent. *)
Definition loaded_text : Z := 0x80500000.

(** On this board [vm_init] completes, with tables to spare. *)
Lemma kernel_vm_init :
  ∃ kv, vm_init power_on = Ret (true, kv) ∧ pt_next kv < PT_PAGES
    ∧ is_Some (kslot kv (pt_index 2 loaded_text)).
Proof.
  assert (match vm_init power_on with
          | Ret (b, kv) => b && (pt_next kv <? PT_PAGES) && bool_decide (is_Some (kslot kv (pt_index 2 loaded_text)))
          | _ => false end = true) as H by (vm_compute; reflexivity).
  destruct (vm_init power_on) as [[b kv]| |]; [|done|done]. exists kv. destruct b; [|done].
  apply andb_true_iff in H as [H1%Z.ltb_lt H2%bool_decide_eq_true]. done.
Qed.

Lemma address_spaces_isolated_witness :
  ∃ kv r v rc v' rc2 v2, vm_init power_on = Ret (true, kv) ∧ vm_create_agent_pt kv = Ret (r, v)
    ∧ vm_map_page r heap1 page1 rw_user v = Ret (rc, v')
    ∧ xlate (pt_mem v') root_table heap1 = xlate (pt_mem v) root_table heap1
    ∧ vm_map_page r loaded_text page1 rw_user v = Ret (rc2, v2)
    ∧ (rc2 = 0 → is_Some (xlate (pt_mem v2) root_table loaded_text)).
Proof.
  assert (page_ok page1 ∧ 0 ≤ rw_user < 32 ∧ USER_STACK_BASE ≤ heap1 < 0x80000000 ∧ root_table ≠ 0) as (Hp1 & Hrw & Hh & H0) by done.
  destruct kernel_vm_init as (kv & Hinit & Hlt & Hsh). destruct (init_inv _ _ Hinit) as [Hs Hk Hf].
  simpl in Hs, Hk, Hf. pose proof (vm_create_spec kv [root_table] Hs) as Hc. rewrite Hk in Hc.
  rewrite decide_True in Hc by exact Hlt.
  destruct Hc as (v & E & Hn & _ & Hni & Hkv & _ & _ & _ & _ & Hkf); [exact H0|]. exists kv, (next_table kv), v.
  assert (root_table ≠ next_table kv) as Hne
    by (intros Eq; apply Hni; rewrite <- Eq; apply list_elem_of_here).
  assert (next_table kv ≠ kernel_pt v) as Hne2 by (rewrite Hkv; apply not_eq_sym, Hne).
  assert (rtc vm_step (kv, [root_table]) (v, [next_table kv; root_table])) as Hst
    by exact (rtc_once _ _ (vs_create _ _ _ _ E Hn)).
  destruct (address_spaces_isolated kv v _ (next_table kv) heap1 page1 rw_user Hinit Hst)
    as (Hfree & rc & v' & Em & _ & Hx & _); [apply list_elem_of_here|exact Hne2|reflexivity|exact Hp1|exact Hrw|].
  destruct (address_spaces_isolated kv v _ (next_table kv) loaded_text page1 rw_user Hinit Hst)
    as (_ & rc2 & v2 & Em2 & _ & _ & Hx2); [apply list_elem_of_here|exact Hne2|reflexivity|exact Hp1|exact Hrw|].
  exists rc, v', rc2, v2. split; [exact Hinit|]. split; [exact E|]. split; [exact Em|].
  split; [apply Hx; [apply Hfree, Hh|apply list_elem_of_further, list_elem_of_here|exact Hne]|].
  split; [exact Em2|]. intros ->. rewrite Hx2; [| |apply list_elem_of_further, list_elem_of_here].
  - rewrite decide_True by (split; [reflexivity|apply same_page_refl]). eexists. reflexivity.
  - rewrite Hkf. exact Hsh.
Defined.

Lemma user_check_exact_witness :
  ∃ v rc, vm_map_page root_table heap1 page1 rw_user boot_vm = Ret (0, v)
    ∧ vm_user_check root_table (heap1 + 16) 100 true v = Ret (rc, v)
    ∧ (rc = 0 ↔ ∀ x, heap1 + 16 ≤ x < heap1 + 16 + 100 → accessible v root_table true x).
Proof.
  destruct one_page as (v & E & Hw & Hr & _ & _).
  destruct (user_check_exact v root_table (heap1 + 16) 100 true Hw Hr) as (rc & Ec & _ & H);
    [done|done|done|].
  exists v, rc. by split_and!.
Defined.

Lemma user_check_noncanonical_witness :
  ∃ v, vm_map_page root_table heap1 page1 rw_user boot_vm = Ret (0, v)
    ∧ vm_user_check root_table (heap1 + 549755813888) 16 false v = Ret (0, v).
Proof.
  destruct one_page as (v & E & Hw & Hr & _ & Hx). exists v. split; [exact E|].
  apply (user_check_noncanonical v root_table heap1 16 false Hw Hr); [done|done|done|].
  destruct (user_check_spec v root_table heap1 16 false Hw Hr) as (rc & Ec & _ & H); [done|done|done|].
  rewrite Ec. do 2 f_equal. apply H. intros x Hxr. exists (pte_make page1 (map_flags rw_user)).
  rewrite Hx. rewrite decide_True; [split; [done|]; split; [done|by left]|].
  assert (x / 4096 = heap1 / 4096) as Ed by (unfold heap1 in *; Z.to_euclidean_division_equations; lia).
  unfold same_page. by rewrite !(pt_index_div _ x), !(pt_index_div _ heap1), Ed by lia.
Defined.

(** Agent 1 with that table and heap. *)
Definition agent1 : agent :=
  mk_agent 1 [] AGENT_RUNNING AGENT_PHASE_TURN 0 None 0 Ipc.zero_box 0 0 root_table heap1 16 1 0 0.

Lemma agent1_range : heap_range agent1.
Proof. by split. Qed.

Lemma cow_alias_shares_witness :
  ∃ v rc v' a', vm_map_page root_table heap1 page1 rw_user boot_vm = Ret (0, v)
    ∧ vm_heap_cow_alias 1 0 (v, agent1) = Ret (rc, (v', a')) ∧ pmem v' = pmem v
    ∧ (rc = heap1 + 4096 ∨ rc = ENOSPC).
Proof.
  destruct one_page as (v & E & Hw & Hr & _ & Hx).
  destruct (cow_alias_shares v agent1 1 0 page1 (map_flags rw_user) Hw Hr) as (rc & v' & a' & Ec & _ & _ & Hp & H);
    [done|apply agent1_range|done|done|done|by rewrite Hx, decide_True|done|done
    |rewrite Hx, decide_False; [done|by intros (_ & _ & H0); vm_compute in H0]|].
  exists v, rc, v', a'. split; [exact E|]. split; [exact Ec|]. split; [exact Hp|].
  destruct H as [(-> & _)|(-> & _)]; [by left|by right].
Defined.

Lemma cow_fault_private_witness :
  ∃ v new v', vm_map_page root_table heap1 page1 (Z.lor PTE_U PTE_R) boot_vm = Ret (0, v)
    ∧ vm_heap_fault heap1 true (v, agent1) = Ret (true, (v', agent1)) ∧ new ≠ page1
    ∧ xlate (pt_mem v') root_table heap1 = Some (pte_make new PTE_PRIVATE).
Proof.
  destruct (vm_map_page_spec boot_vm root_table heap1 page1 (Z.lor PTE_U PTE_R) boot_wf boot_root)
    as (rc & v & E & Hw & Hr & _ & _ & _ & Hh & _ & _ & _ & [(-> & _ & Hx)|(-> & _ & _)]); [done|done|done| |].
  2: { exfalso. revert E. vm_compute. discriminate. }
  destruct (cow_fault_private v agent1 heap1 page1 0x80600000 Hw Hr) as (new & v' & Ef & Hne & _ & _ & Hx' & _);
    [done|apply agent1_range|done|by rewrite Hx, decide_True|done|rewrite Hh; by split|rewrite Hh; right; done
    |rewrite Hh; done|].
  exists v, new, v'. split; [exact E|]. split; [exact Ef|]. split; [exact Hne|]. by rewrite Hx', decide_True.
Defined.
