(* ===== verification/Kernel.v ===== *)
(** * The kernel's state

    One record with the static data of the modules that run above the memory,
    mailbox, file and policy components: the agent table (agent.c), the run
    queues and per-hart current agents (sched.c), and the components' own states.
    The hart that executes an operation is an explicit argument ([hart], what
    [smp_hart_id] gives); [online_harts] is the count smp.c keeps.  [satp] is the
    root table each hart translates with, which [vm_activate] sets; [uart_out] the
    characters sent to the console by [agent_write] and the console tool.

    An agent pointer is the index of the agent in the table. *)

From S2P Require Import Prelude Abi Ipc Ramfs Persist Quota Policy AgentDef Mem Vm.

Definition SMP_MAX_HARTS : Z := 4.

Record kstate (D : Type) := mk_kstate {
  agents : list agent;
  agent_count : Z;
  rr_next : Z;
  kernel_sched_ready : bool;
  cpu_current : list (option Z);
  cpu_rq : list (list Z);
  online_harts : Z;
  satp : list Z;
  kvm : vm;
  kfs : ramfs;
  kquota : quota;
  kpolicy : policy;
  blk_ok : bool;
  kdisk : D;
  uart_out : list Z
}.
Arguments mk_kstate {D}.
Arguments agents {D}. Arguments agent_count {D}. Arguments rr_next {D}.
Arguments kernel_sched_ready {D}. Arguments cpu_current {D}. Arguments cpu_rq {D}.
Arguments online_harts {D}. Arguments satp {D}. Arguments kvm {D}. Arguments kfs {D}.
Arguments kquota {D}. Arguments kpolicy {D}. Arguments blk_ok {D}. Arguments kdisk {D}.
Arguments uart_out {D}.

Section kernel.
Context {D : Type}.
Abbreviation kstate := (kstate D).

(** Updates of one part of the state. *)
Definition with_agents (l : list agent) (s : kstate) : kstate :=
  mk_kstate l (agent_count s) (rr_next s) (kernel_sched_ready s) (cpu_current s) (cpu_rq s)
    (online_harts s) (satp s) (kvm s) (kfs s) (kquota s) (kpolicy s) (blk_ok s) (kdisk s) (uart_out s).
Definition with_count (n : Z) (s : kstate) : kstate :=
  mk_kstate (agents s) n (rr_next s) (kernel_sched_ready s) (cpu_current s) (cpu_rq s)
    (online_harts s) (satp s) (kvm s) (kfs s) (kquota s) (kpolicy s) (blk_ok s) (kdisk s) (uart_out s).
Definition with_sched (rr : Z) (cur : list (option Z)) (rq : list (list Z)) (s : kstate) : kstate :=
  mk_kstate (agents s) (agent_count s) rr (kernel_sched_ready s) cur rq
    (online_harts s) (satp s) (kvm s) (kfs s) (kquota s) (kpolicy s) (blk_ok s) (kdisk s) (uart_out s).
Definition with_ready (b : bool) (s : kstate) : kstate :=
  mk_kstate (agents s) (agent_count s) (rr_next s) b (cpu_current s) (cpu_rq s)
    (online_harts s) (satp s) (kvm s) (kfs s) (kquota s) (kpolicy s) (blk_ok s) (kdisk s) (uart_out s).
Definition with_satp (l : list Z) (s : kstate) : kstate :=
  mk_kstate (agents s) (agent_count s) (rr_next s) (kernel_sched_ready s) (cpu_current s) (cpu_rq s)
    (online_harts s) l (kvm s) (kfs s) (kquota s) (kpolicy s) (blk_ok s) (kdisk s) (uart_out s).
Definition with_vm (v : vm) (s : kstate) : kstate :=
  mk_kstate (agents s) (agent_count s) (rr_next s) (kernel_sched_ready s) (cpu_current s) (cpu_rq s)
    (online_harts s) (satp s) v (kfs s) (kquota s) (kpolicy s) (blk_ok s) (kdisk s) (uart_out s).
Definition with_fs (f : ramfs) (s : kstate) : kstate :=
  mk_kstate (agents s) (agent_count s) (rr_next s) (kernel_sched_ready s) (cpu_current s) (cpu_rq s)
    (online_harts s) (satp s) (kvm s) f (kquota s) (kpolicy s) (blk_ok s) (kdisk s) (uart_out s).
Definition with_quota (q : quota) (s : kstate) : kstate :=
  mk_kstate (agents s) (agent_count s) (rr_next s) (kernel_sched_ready s) (cpu_current s) (cpu_rq s)
    (online_harts s) (satp s) (kvm s) (kfs s) q (kpolicy s) (blk_ok s) (kdisk s) (uart_out s).
Definition with_policy (p : policy) (s : kstate) : kstate :=
  mk_kstate (agents s) (agent_count s) (rr_next s) (kernel_sched_ready s) (cpu_current s) (cpu_rq s)
    (online_harts s) (satp s) (kvm s) (kfs s) (kquota s) p (blk_ok s) (kdisk s) (uart_out s).
Definition with_disk (d : D) (s : kstate) : kstate :=
  mk_kstate (agents s) (agent_count s) (rr_next s) (kernel_sched_ready s) (cpu_current s) (cpu_rq s)
    (online_harts s) (satp s) (kvm s) (kfs s) (kquota s) (kpolicy s) (blk_ok s) d (uart_out s).
Definition with_uart (o : list Z) (s : kstate) : kstate :=
  mk_kstate (agents s) (agent_count s) (rr_next s) (kernel_sched_ready s) (cpu_current s) (cpu_rq s)
    (online_harts s) (satp s) (kvm s) (kfs s) (kquota s) (kpolicy s) (blk_ok s) (kdisk s) o.

(** The result of the block driver's initialisation (persist.c). *)
Definition persist_init (virtio_blk_init : Z) (s : kstate) : kstate :=
  mk_kstate (agents s) (agent_count s) (rr_next s) (kernel_sched_ready s) (cpu_current s) (cpu_rq s)
    (online_harts s) (satp s) (kvm s) (kfs s) (kquota s) (kpolicy s) (virtio_blk_init =? 0) (kdisk s) (uart_out s).

Definition persist_ready (s : kstate) : bool := blk_ok s.

(** Running the operations of a component. *)
Definition onfs {A} (m : M ramfs A) : M kstate A := zoom kfs with_fs m.
Definition onkvm {A} (m : M vm A) : M kstate A := zoom kvm with_vm m.

(** The agent at an index; every index the kernel uses is in the table. *)
Definition agent_at (s : kstate) (i : Z) : agent := nth (Z.to_nat i) (agents s) zero_agent.

Definition upd_agent (i : Z) (f : agent → agent) (s : kstate) : kstate :=
  with_agents (alter f (Z.to_nat i) (agents s)) s.

Definition modify_agent (i : Z) (f : agent → agent) : M kstate unit := modify (upd_agent i f).

(** An operation on the memory and one agent. *)
Definition onagent {A} (i : Z) (m : M vstate A) : M kstate A :=
  λ s, match m (kvm s, agent_at s i) with
       | Ret (x, (v, a)) => Ret (x, upd_agent i (λ _, a) (with_vm v s))
       | Undef => Undef
       | Halt => Halt
       end.

(** ** The current agent (sched.c) *)

Definition agent_current (hart : Z) (s : kstate) : option Z :=
  if (hart <? 0) || (SMP_MAX_HARTS <=? hart) then None
  else nth (Z.to_nat hart) (cpu_current s) None.

Definition agent_set_current (hart : Z) (a : option Z) (s : kstate) : kstate :=
  if (0 <=? hart) && (hart <? SMP_MAX_HARTS)
  then with_sched (rr_next s) (<[Z.to_nat hart := a]> (cpu_current s)) (cpu_rq s) s
  else s.

Definition agent_has_cap (s : kstate) (a : option Z) (cap : Z) : bool :=
  match a with None => false | Some i => has cap (caps (agent_at s i)) end.

Definition agent_get (s : kstate) (i : Z) : option Z :=
  if (i <? 0) || (MAX_AGENTS <=? i) then None
  else if decide (state (agent_at s i) = AGENT_UNUSED) then None
  else Some i.

End kernel.
