(* ===== verification/Uaccess.v ===== *)
(** * Access to user memory (kernel/uaccess.c)

    The kernel checks a user pointer against the current agent's page table and
    then loads or stores through the hart's own translation ([satp]).  A load or
    store that the hardware refuses would trap inside the kernel; the model
    reports it as undefined.  Kernel buffers are passed as values. *)

From S2P Require Import Prelude Abi Ipc Ramfs Quota Policy AgentDef Mem Vm VmTree VmProps Kernel.

(** ** The hardware's view of memory *)

(** Bits 39 to 63 of an address equal bit 38. *)
Definition canonical (va : Z) : bool := (va <? 274877906944) || (18446743798831644672 <=? va).

Definition hw_addr (m : gmap Z (list Z)) (r va flag : Z) : option Z :=
  if canonical va
  then e ← xlate m r va;
       if has flag e then Some (vm_pte_pa e + va mod PAGE_SIZE) else None
  else None.

Section uaccess.
Context {D : Type} {L : Layout} (hart : Z).
Abbreviation kstate := (kstate D).

Definition cur_root (s : kstate) : Z := nth (Z.to_nat hart) (satp s) 0.

Definition hw_load (va : Z) : M kstate Z :=
  λ s, match hw_addr (pt_mem (kvm s)) (cur_root s) va PTE_R with
       | Some pa => Ret (default 0 (pmem (kvm s) !! pa), s)
       | None => Undef
       end.

Definition hw_store (va b : Z) : M kstate unit :=
  λ s, match hw_addr (pt_mem (kvm s)) (cur_root s) va PTE_W with
       | Some pa => Ret (tt, with_vm (with_pmem (<[pa := b]> (pmem (kvm s))) (kvm s)) s)
       | None => Undef
       end.

(** ** The functions *)

Definition user_access_ok (user_ptr len : Z) (write : bool) : M kstate bool :=
  let! cur := gets (agent_current hart) in
  match cur with
  | None => ret false
  | Some i =>
      let! pt := gets (λ s, pagetable (agent_at s i)) in
      if (pt =? 0) || (user_ptr =? 0) then ret false
      else let! rc := onkvm (vm_user_check pt user_ptr len write) in ret (rc =? 0)
  end.

Fixpoint load_bytes (n : nat) (va : Z) : M kstate (list Z) :=
  match n with
  | O => ret []
  | S n' => let! b := hw_load va in let! rest := load_bytes n' (u64 (va + 1)) in ret (b :: rest)
  end.

Fixpoint store_bytes (va : Z) (data : list Z) : M kstate unit :=
  match data with
  | [] => ret tt
  | b :: data' => hw_store va b ;; store_bytes (u64 (va + 1)) data'
  end.

(** The result and the bytes read. *)
Definition copy_from_user (user_src len : Z) : M kstate (Z * list Z) :=
  if user_src =? 0 then ret (EFAULT, [])
  else if len =? 0 then ret (0, [])
  else
    let! ok := user_access_ok user_src len false in
    if negb ok then ret (EFAULT, [])
    else let! bs := load_bytes (Z.to_nat len) user_src in ret (len, bs).

(** [src] holds at least [len] bytes. *)
Definition copy_to_user (user_dst : Z) (src : list Z) (len : Z) : M kstate Z :=
  if user_dst =? 0 then ret EFAULT
  else if len =? 0 then ret 0
  else
    let! ok := user_access_ok user_dst len true in
    if negb ok then ret EFAULT
    else store_bytes user_dst (take (Z.to_nat len) src) ;; ret len.

(** The fuel is [max - n]. *)
Fixpoint strnlen_loop (fuel : nat) (user_s n : Z) : M kstate Z :=
  match fuel with
  | O => ret n
  | S fuel' =>
      let p := u64 (user_s + n) in
      let! ok := user_access_ok p 1 false in
      if negb ok then ret EFAULT
      else
        let! r := copy_from_user p 1 in
        if negb (r.1 =? 1) then ret EFAULT
        else if cget r.2 0 =? 0 then ret n
        else strnlen_loop fuel' user_s (n + 1)
  end.

Definition user_strnlen (user_s max : Z) : M kstate Z :=
  if (user_s =? 0) || (max <=? 0) then ret EFAULT
  else strnlen_loop (Z.to_nat max) user_s 0.

End uaccess.

(** ** What user memory holds *)

(** The byte an agent sees at an address, and the check as a test. *)
Definition user_byte (v : vm) (r va : Z) : Z :=
  match xlate (pt_mem v) r va with
  | Some e => default 0 (pmem v !! (vm_pte_pa e + va mod PAGE_SIZE))
  | None => 0
  end.

Fixpoint user_bytes (v : vm) (r va : Z) (n : nat) : list Z :=
  match n with O => [] | S n' => user_byte v r va :: user_bytes v r (va + 1) n' end.

Definition user_ok (v : vm) (r : Z) (write : bool) (va : Z) : bool :=
  match xlate (pt_mem v) r va with
  | Some e => has PTE_U e && (if write then has PTE_W e else has PTE_R e || has PTE_X e)
  | None => false
  end.

Fixpoint range_ok (v : vm) (r : Z) (write : bool) (va : Z) (n : nat) : bool :=
  match n with O => true | S n' => user_ok v r write va && range_ok v r write (va + 1) n' end.

(** The string at an address, cut at [n] bytes; [None] when it runs into a page
    the agent may not read. *)
Fixpoint user_string (v : vm) (r va : Z) (n : nat) : option (list Z) :=
  match n with
  | O => Some []
  | S n' =>
      if user_ok v r false va
      then if user_byte v r va =? 0 then Some []
           else (λ l, user_byte v r va :: l) <$> user_string v r (va + 1) n'
      else None
  end.

(** The physical address behind a user address, and the memory after writing
    bytes through the translation. *)
Definition user_pa (m : gmap Z (list Z)) (r va : Z) : option Z :=
  (λ e, vm_pte_pa e + va mod PAGE_SIZE) <$> xlate m r va.

Fixpoint user_write (pt : gmap Z (list Z)) (r va : Z) (data : list Z) (m : gmap Z Z) : gmap Z Z :=
  match data with
  | [] => m
  | b :: data' =>
      match user_pa pt r va with
      | Some pa => user_write pt r (va + 1) data' (<[pa := b]> m)
      | None => m
      end
  end.

Lemma user_ok_accessible v r w va : user_ok v r w va = true ↔ accessible v r w va.
Proof.
  unfold user_ok, accessible. destruct (xlate (pt_mem v) r va) as [e|]; [|naive_solver].
  rewrite andb_true_iff. destruct w; [naive_solver|]. rewrite orb_true_iff. naive_solver.
Qed.

Lemma range_ok_accessible v r w va n :
  range_ok v r w va n = true ↔ ∀ x, va ≤ x < va + Z.of_nat n → accessible v r w x.
Proof.
  revert va; induction n as [|n IH]; intros va; cbn [range_ok].
  - split; [intros _ x; lia|done].
  - rewrite andb_true_iff, IH, user_ok_accessible. split.
    + intros [H1 H2] x Hx. destruct (decide (x = va)) as [->|]; [done|]. apply H2. lia.
    + intros H. split; [apply H; lia|]. intros x Hx. apply H. lia.
Qed.

(** The checks read the tables only. *)
Lemma range_ok_pmem v m r w va n : range_ok (with_pmem m v) r w va n = range_ok v r w va n.
Proof. revert va; induction n as [|n IH]; intros va; cbn [range_ok]; [done|]. by rewrite IH. Qed.

Lemma range_not_ok v r w va n :
  range_ok v r w va n = false → ∃ x, va ≤ x < va + Z.of_nat n ∧ ¬ accessible v r w x.
Proof.
  revert va; induction n as [|n IH]; intros va; cbn [range_ok]; [done|]. intros H.
  apply andb_false_iff in H as [H|H].
  - exists va. split; [lia|]. rewrite <- user_ok_accessible, H. done.
  - destruct (IH (va + 1) H) as (x & Hx & Hn). exists x. split; [lia|done].
Qed.

Lemma length_user_bytes v r va n : length (user_bytes v r va n) = n.
Proof. revert va; induction n; intros va; simpl; auto. Qed.

Lemma user_string_prefix v r va n l :
  user_string v r va n = Some l →
  l = user_bytes v r va (length l) ∧ (length l ≤ n)%nat ∧ Forall (λ c, c ≠ 0) l
    ∧ range_ok v r false va (length l) = true.
Proof.
  revert va l; induction n as [|n IH]; intros va l; simpl; [intros [= <-]; auto|].
  destruct (user_ok v r false va) eqn:Ho; [|done].
  destruct (user_byte v r va =? 0) eqn:Eb; [intros [= <-]; simpl; split_and!; auto; lia|].
  destruct (user_string v r (va + 1) n) as [l'|] eqn:E; simpl; [|done]. intros [= <-].
  destruct (IH _ _ E) as (H1 & H2 & H3 & H4). simpl. bprop. rewrite <- H1, Ho, H4. split_and!; auto; lia.
Qed.

(** A string shorter than the bound ends in a readable NUL. *)
Lemma user_string_nul v r va n l :
  user_string v r va n = Some l → (length l < n)%nat →
  range_ok v r false va (S (length l)) = true ∧ user_bytes v r va (S (length l)) = l ++ [0].
Proof.
  revert va l; induction n as [|n IH]; intros va l; cbn [user_string]; [intros; lia|].
  destruct (user_ok v r false va) eqn:Ho; [|done]. destruct (user_byte v r va =? 0) eqn:Eb.
  - intros [= <-] _. cbn. rewrite Ho. bprop. by rewrite Eb.
  - destruct (user_string v r (va + 1) n) as [l'|] eqn:E; cbn [fmap option_fmap option_map]; [|done].
    intros [= <-] Hl. cbn [length] in *. destruct (IH _ _ E ltac:(lia)) as [H1 H2].
    change (range_ok v r false va (S (S (length l')))) with (user_ok v r false va && range_ok v r false (va + 1) (S (length l'))).
    change (user_bytes v r va (S (S (length l')))) with (user_byte v r va :: user_bytes v r (va + 1) (S (length l'))).
    by rewrite Ho, H1, H2.
Qed.

Lemma user_string_intro v r l : ∀ va n,
  (∀ k, (k ≤ length l)%nat → user_ok v r false (va + Z.of_nat k) = true ∧ user_byte v r (va + Z.of_nat k) = nth k l 0) →
  Forall (λ c, c ≠ 0) l → (length l < n)%nat → user_string v r va n = Some l.
Proof.
  induction l as [|c l IH]; intros va n Hk Hl Hn; (destruct n as [|n]; [cbn [length] in Hn; lia|]); cbn [user_string];
    destruct (Hk 0%nat ltac:(lia)) as [Ho Eb]; rewrite Z.add_0_r in Ho, Eb; rewrite Ho, Eb; cbn [nth]; [done|].
  apply Forall_cons in Hl as [Hc Hl]. test_false (c =? 0). rewrite IH; [done| |done|cbn [length] in Hn; lia].
  intros k Hkl. destruct (Hk (S k)) as [H1 H2]; [cbn [length]; lia|].
  replace (va + 1 + Z.of_nat k) with (va + Z.of_nat (S k)) by lia. done.
Qed.

Section proofs.
Context {D : Type} {L : Layout} {LL : LayoutLaws} (hart : Z).
Abbreviation kstate := (kstate D).

(** The hart runs agent [i] in its own address space [r], in which no user page
    is executable without being readable (the kernel maps none). *)
Record runs (s : kstate) (i r : Z) : Prop := {
  ru_cur : agent_current hart s = Some i;
  ru_pt : pagetable (agent_at s i) = r;
  ru_root : r ≠ 0;
  ru_satp : cur_root hart s = r;
  ru_vm : vm_wf (kvm s);
  ru_tree : root_wf (kvm s) r;
  ru_xr : ∀ va e, xlate (pt_mem (kvm s)) r va = Some e → has PTE_U e = true → has PTE_X e = true → has PTE_R e = true
}.

(** Addresses below bit 38: every user mapping of the kernel is there. *)
Definition USER_TOP : Z := 274877906944.

Lemma access_ok_spec s i r ua len w :
  runs s i r → 0 < ua → 0 < len → ua + len ≤ USER_TOP →
  user_access_ok hart ua len w s = Ret (range_ok (kvm s) r w ua (Z.to_nat len), s).
Proof.
  intros Hr Hua Hlen Htop. destruct Hr as [Hc Hp H0 _ Hw Ht _]. unfold USER_TOP in Htop.
  unfold user_access_ok. rewrite (bind_ret _ _ s (Some i) s) by (unfold gets; by rewrite Hc).
  rewrite (bind_ret _ _ s r s) by (unfold gets; by rewrite Hp).
  test_false (r =? 0). test_false (ua =? 0). cbn [orb].
  destruct (user_check_spec (kvm s) r ua len w Hw Ht) as (rc & E & Hrc & Hiff); [lia..|].
  rewrite (bind_ret _ _ s rc s).
  2: { unfold onkvm, zoom. rewrite E. by destruct s. }
  unfold ret. do 2 f_equal. apply eq_bool_prop_intro. rewrite !Is_true_true, Z.eqb_eq, Hiff, range_ok_accessible.
  by rewrite Z2Nat.id by lia.
Qed.

Lemma user_ok_hw v r va :
  0 ≤ va < USER_TOP → user_ok v r false va = true →
  (∀ e, xlate (pt_mem v) r va = Some e → has PTE_U e = true → has PTE_X e = true → has PTE_R e = true) →
  ∃ e, xlate (pt_mem v) r va = Some e
    ∧ hw_addr (pt_mem v) r va PTE_R = Some (vm_pte_pa e + va mod PAGE_SIZE).
Proof.
  unfold user_ok, hw_addr, canonical, USER_TOP. intros Hva Ho Hx. test_true (va <? 274877906944). cbn [orb].
  destruct (xlate (pt_mem v) r va) as [e|]; [|done]. exists e. split; [done|]. cbn [mbind option_bind].
  apply andb_true_iff in Ho as [Hu Ho]. specialize (Hx e eq_refl Hu).
  destruct (has PTE_R e); [done|]. cbn [orb] in Ho. discriminate (Hx Ho).
Qed.

Lemma load_bytes_spec s i r n va :
  runs s i r → 0 ≤ va → va + Z.of_nat n ≤ USER_TOP → range_ok (kvm s) r false va n = true →
  load_bytes hart n va s = Ret (user_bytes (kvm s) r va n, s).
Proof.
  intros Hr. revert va; induction n as [|n IH]; intros va H0 Ht Hok; cbn [load_bytes user_bytes]; [done|].
  cbn [range_ok] in Hok. apply andb_true_iff in Hok as [Ho Hok].
  destruct (user_ok_hw (kvm s) r va) as (e & Ex & Eh); [lia|done|intros e; apply (ru_xr _ _ _ Hr)|].
  rewrite (bind_ret _ _ s (user_byte (kvm s) r va) s).
  2: { unfold hw_load, user_byte. rewrite (ru_satp _ _ _ Hr), Eh, Ex. done. }
  rewrite u64_small by (unfold USER_TOP in Ht; lia). rewrite (bind_ret _ _ s _ s (IH (va + 1) ltac:(lia) ltac:(lia) Hok)). done.
Qed.

Lemma copy_from_user_spec s i r src len :
  runs s i r → 0 < src → 0 < len → src + len ≤ USER_TOP →
  copy_from_user hart src len s
  = Ret (if range_ok (kvm s) r false src (Z.to_nat len)
         then (len, user_bytes (kvm s) r src (Z.to_nat len)) else (EFAULT, []), s).
Proof.
  intros Hr H0 Hl Ht. unfold copy_from_user. test_false (src =? 0). test_false (len =? 0).
  rewrite (bind_ret _ _ s _ s (access_ok_spec s i r src len false Hr H0 Hl Ht)).
  destruct (range_ok (kvm s) r false src (Z.to_nat len)) eqn:Ho; cbn [negb]; [|done].
  rewrite (bind_ret _ _ s _ s (load_bytes_spec s i r (Z.to_nat len) src Hr ltac:(lia) ltac:(lia) Ho)). done.
Qed.

Lemma strnlen_loop_spec s i r fuel ua n :
  runs s i r → 0 < ua → 0 ≤ n → ua + n + Z.of_nat fuel ≤ USER_TOP →
  strnlen_loop hart fuel ua n s
  = Ret (match user_string (kvm s) r (ua + n) fuel with Some l => n + zlen l | None => EFAULT end, s).
Proof.
  intros Hr Hua. revert n; induction fuel as [|fuel IH]; intros n Hn Ht; cbn [strnlen_loop user_string].
  - unfold ret, zlen. simpl. by rewrite Z.add_0_r.
  - rewrite u64_small by (unfold USER_TOP in Ht; lia).
    rewrite (bind_ret _ _ s _ s (access_ok_spec s i r (ua + n) 1 false Hr ltac:(lia) ltac:(lia) ltac:(lia))).
    change (Z.to_nat 1) with 1%nat. cbn [range_ok]. rewrite andb_true_r.
    destruct (user_ok (kvm s) r false (ua + n)) eqn:Ho; cbn [negb]; [|done].
    rewrite (bind_ret _ _ s _ s (copy_from_user_spec s i r (ua + n) 1 Hr ltac:(lia) ltac:(lia) ltac:(lia))).
    change (Z.to_nat 1) with 1%nat. cbn [range_ok]. rewrite Ho. cbn [andb fst snd user_bytes].
    change (cget [user_byte (kvm s) r (ua + n)] 0) with (user_byte (kvm s) r (ua + n)).
    change (negb (1 =? 1)) with false. cbv iota.
    destruct (user_byte (kvm s) r (ua + n) =? 0); [unfold ret, zlen; simpl; by rewrite Z.add_0_r|].
    rewrite IH by lia. rewrite Z.add_assoc. destruct (user_string (kvm s) r (ua + n + 1) fuel); simpl; [|done].
    unfold zlen. cbn [length]. do 2 f_equal. lia.
Qed.

Lemma user_strnlen_spec s i r ua max :
  runs s i r → 0 < ua → 0 < max → ua + max ≤ USER_TOP →
  user_strnlen hart ua max s
  = Ret (match user_string (kvm s) r ua (Z.to_nat max) with Some l => zlen l | None => EFAULT end, s).
Proof.
  intros Hr H0 Hm Ht. unfold user_strnlen. test_false (ua =? 0). test_false (max <=? 0). cbn [orb].
  rewrite (strnlen_loop_spec s i r) by (done || lia). rewrite Z.add_0_r.
  by destruct (user_string (kvm s) r ua (Z.to_nat max)).
Qed.

(** ** Stores *)

Lemma runs_pmem s i r m : runs s i r → runs (with_vm (with_pmem m (kvm s)) s) i r.
Proof.
  intros [H1 H2 H3 H4 H5 H6 H7]. constructor; try done.
  - destruct H5 as [A B C E]. by constructor.
  - destruct H6 as [A B]. by constructor.
Qed.

Lemma user_ok_hw_w v r va :
  0 ≤ va < USER_TOP → user_ok v r true va = true →
  ∃ pa, user_pa (pt_mem v) r va = Some pa ∧ hw_addr (pt_mem v) r va PTE_W = Some pa.
Proof.
  unfold user_ok, hw_addr, user_pa, canonical, USER_TOP. intros Hva Ho. test_true (va <? 274877906944). cbn [orb].
  destruct (xlate (pt_mem v) r va) as [e|]; [|done]. eexists. split; [done|]. cbn [mbind option_bind].
  apply andb_true_iff in Ho as [_ ->]. done.
Qed.

Lemma store_bytes_spec i r data : ∀ s va,
  runs s i r → 0 ≤ va → va + zlen data ≤ USER_TOP → range_ok (kvm s) r true va (length data) = true →
  store_bytes hart va data s
  = Ret (tt, with_vm (with_pmem (user_write (pt_mem (kvm s)) r va data (pmem (kvm s))) (kvm s)) s).
Proof.
  induction data as [|b data IH]; intros s va Hr H0 Ht Hok; cbn [store_bytes user_write].
  - destruct s as [? ? ? ? ? ? ? ? v]. by destruct v.
  - cbn [range_ok length] in Hok. apply andb_true_iff in Hok as [Ho Hok].
    unfold zlen in Ht. cbn [length] in Ht.
    destruct (user_ok_hw_w (kvm s) r va) as (pa & Ep & Eh); [unfold zlen in *; lia|done|].
    rewrite (bind_ret _ _ s tt (with_vm (with_pmem (<[pa := b]> (pmem (kvm s))) (kvm s)) s)).
    2: { unfold hw_store. rewrite (ru_satp _ _ _ Hr), Eh. done. }
    rewrite u64_small by (unfold USER_TOP in Ht; lia). rewrite Ep.
    rewrite IH; [done|by apply runs_pmem|lia|unfold zlen; lia|].
    cbn [kvm with_vm]. by rewrite range_ok_pmem.
Qed.

Lemma user_write_frame pt r data : ∀ va m pa,
  user_write pt r va data m !! pa ≠ m !! pa →
  ∃ x, va ≤ x < va + zlen data ∧ user_pa pt r x = Some pa.
Proof.
  induction data as [|b data IH]; intros va m pa; cbn [user_write]; [done|].
  destruct (user_pa pt r va) as [q|] eqn:Eq; [|done]. intros Hne.
  destruct (decide (q = pa)) as [->|Hq].
  - exists va. unfold zlen. cbn [length]. split; [lia|done].
  - destruct (IH (va + 1) (<[q := b]> m) pa) as (x & Hx & Ex); [by rewrite lookup_insert_ne by done|].
    exists x. unfold zlen in *. cbn [length]. split; [lia|done].
Qed.

(** Reading back what was written, when no two addresses of the range share a
    physical byte. *)
Lemma user_write_read v r data : ∀ va m,
  range_ok v r true va (length data) = true →
  (∀ x y, va ≤ x < va + zlen data → va ≤ y < va + zlen data →
     user_pa (pt_mem v) r x = user_pa (pt_mem v) r y → x = y) →
  user_bytes (with_pmem (user_write (pt_mem v) r va data m) v) r va (length data) = data.
Proof.
  induction data as [|b data IH]; intros va m Hok Hinj; cbn [length user_bytes]; [done|].
  cbn [range_ok length] in Hok. apply andb_true_iff in Hok as [Ho Hok].
  assert (∃ pa, user_pa (pt_mem v) r va = Some pa) as [pa Ep].
  { unfold user_ok, user_pa in *. destruct (xlate (pt_mem v) r va); [by eexists|done]. }
  unfold zlen in Hinj. cbn [length] in Hinj. cbn [user_write]. rewrite Ep. f_equal.
  2: { apply IH; [done|]. intros x y Hx Hy. unfold zlen in *. apply Hinj; lia. }
  unfold user_byte. change (pt_mem (with_pmem _ v)) with (pt_mem v).
  unfold user_pa in Ep. destruct (xlate (pt_mem v) r va) as [e|] eqn:Ee; [|done].
  cbn in Ep. injection Ep as Ep. cbn [pmem with_pmem]. rewrite Ep.
  assert (user_write (pt_mem v) r (va + 1) data (<[pa:=b]> m) !! pa = Some b) as ->; [|done].
  destruct (decide (user_write (pt_mem v) r (va + 1) data (<[pa:=b]> m) !! pa = <[pa:=b]> m !! pa)) as [E|E].
  { rewrite E. apply lookup_insert_eq. }
  apply user_write_frame in E as (x & Hx & Ex). exfalso.
  assert (va = x) by (apply Hinj; [lia|unfold zlen in *; lia|unfold user_pa in *; rewrite Ee, Ex; cbn; by rewrite Ep]). lia.
Qed.

Lemma copy_to_user_spec s i r dst src len :
  runs s i r → 0 < dst → 0 < len ≤ zlen src → dst + len ≤ USER_TOP →
  copy_to_user hart dst src len s
  = if range_ok (kvm s) r true dst (Z.to_nat len)
    then Ret (len, with_vm (with_pmem (user_write (pt_mem (kvm s)) r dst (take (Z.to_nat len) src)
                                         (pmem (kvm s))) (kvm s)) s)
    else Ret (EFAULT, s).
Proof.
  intros Hr H0 Hl Ht. unfold copy_to_user. test_false (dst =? 0). test_false (len =? 0).
  rewrite (bind_ret _ _ s _ s (access_ok_spec s i r dst len true Hr H0 ltac:(lia) Ht)).
  destruct (range_ok (kvm s) r true dst (Z.to_nat len)) eqn:Ho; cbn [negb]; [|done].
  assert (length (take (Z.to_nat len) src) = Z.to_nat len) as El by (rewrite length_take; klia).
  erewrite bind_ret; [|apply (store_bytes_spec i r); [done|lia|unfold zlen; rewrite El; lia|by rewrite El]]. done.
Qed.

(** ** Theorems *)

(** Reading user memory: for an agent that runs in its own address space and
    a non-empty range below the top of user space, [copy_from_user] never faults
    and never changes the state; it returns the length and exactly the bytes the
    agent sees at those addresses when every byte of the range is accessible to the
    agent, and EFAULT with no data otherwise. *)
Theorem copy_from_user_exact s i r src len :
  runs s i r → 0 < src → 0 < len → src + len ≤ USER_TOP →
  ∃ res, copy_from_user hart src len s = Ret (res, s)
    ∧ ((res = (len, user_bytes (kvm s) r src (Z.to_nat len))
        ∧ ∀ x, src ≤ x < src + len → accessible (kvm s) r false x)
       ∨ (res = (EFAULT, []) ∧ ∃ x, src ≤ x < src + len ∧ ¬ accessible (kvm s) r false x)).
Proof.
  intros Hr H0 Hl Ht. eexists. split; [by eapply copy_from_user_spec|].
  destruct (range_ok _ _ _ _ _) eqn:Ho; [left|right]; (split; [done|]).
  - rewrite range_ok_accessible, Z2Nat.id in Ho by lia. done.
  - apply range_not_ok in Ho. by rewrite Z2Nat.id in Ho by lia.
Qed.

(** Writing user memory: under the same conditions [copy_to_user] either
    stores the whole buffer or, when some byte of the range is not writable by the
    agent, returns EFAULT and changes nothing.  A store changes physical memory
    only, and only bytes behind writable user pages of the agent's own range; when
    the range has no aliases the agent then reads back exactly the buffer. *)
Theorem copy_to_user_exact s i r dst src len :
  runs s i r → 0 < dst → 0 < len ≤ zlen src → dst + len ≤ USER_TOP →
  (copy_to_user hart dst src len s = Ret (EFAULT, s)
   ∧ ∃ x, dst ≤ x < dst + len ∧ ¬ accessible (kvm s) r true x)
  ∨ ∃ m, copy_to_user hart dst src len s = Ret (len, with_vm (with_pmem m (kvm s)) s)
      ∧ (∀ x, dst ≤ x < dst + len → accessible (kvm s) r true x)
      ∧ (∀ pa, m !! pa ≠ pmem (kvm s) !! pa →
           ∃ x, dst ≤ x < dst + len ∧ user_pa (pt_mem (kvm s)) r x = Some pa)
      ∧ ((∀ x y, dst ≤ x < dst + len → dst ≤ y < dst + len →
            user_pa (pt_mem (kvm s)) r x = user_pa (pt_mem (kvm s)) r y → x = y) →
         user_bytes (with_pmem m (kvm s)) r dst (Z.to_nat len) = take (Z.to_nat len) src).
Proof.
  intros Hr H0 Hl Ht. pose proof (copy_to_user_spec s i r dst src len Hr H0 Hl Ht) as E.
  assert (length (take (Z.to_nat len) src) = Z.to_nat len) as El by (rewrite length_take; klia).
  assert (zlen (take (Z.to_nat len) src) = len) as Ez by (unfold zlen; rewrite El; lia).
  destruct (range_ok (kvm s) r true dst (Z.to_nat len)) eqn:Ho; [right|left]; cbn iota in E.
  - eexists. split; [exact E|]. split; [rewrite range_ok_accessible, Z2Nat.id in Ho by lia; done|]. split.
    + intros pa Hne. apply user_write_frame in Hne. by rewrite Ez in Hne.
    + intros Hinj. pose proof (user_write_read (kvm s) r (take (Z.to_nat len) src) dst (pmem (kvm s))) as Hrd.
      rewrite El, Ez in Hrd. by apply Hrd.
  - split; [exact E|]. apply range_not_ok in Ho. by rewrite Z2Nat.id in Ho by lia.
Qed.

End proofs.

(** ** Example: agent 1 runs on hart 0 with one heap page *)

Definition demo_state (v : vm) : kstate unit :=
  mk_kstate (<[1%nat := agent1]> (replicate (Z.to_nat MAX_AGENTS) zero_agent)) 1 0 true [Some 1; None; None; None] [[]; []; []; []]
    1 [root_table; root_table; root_table; root_table] v zero_fs zero_quota zero_policy false tt [].

Lemma demo_runs v :
  vm_wf v → root_wf v root_table →
  (∀ va, xlate (pt_mem v) root_table va
         = if decide (same_page heap1 va) then Some (pte_make page1 (map_flags rw_user)) else None) →
  runs 0 (demo_state v) 1 root_table.
Proof.
  intros Hw Ht Hx. constructor; try done. intros va e. cbn [kvm demo_state]. rewrite Hx.
  case_decide; [|done]. intros [= <-]. done.
Qed.

Lemma copy_from_user_exact_witness :
  ∃ v res, vm_map_page root_table heap1 page1 rw_user boot_vm = Ret (0, v)
    ∧ copy_from_user 0 (heap1 + 8) 16 (demo_state v) = Ret (res, demo_state v).
Proof.
  destruct one_page as (v & E & Hw & Hr & _ & Hx).
  destruct (copy_from_user_exact 0 (demo_state v) 1 root_table (heap1 + 8) 16 (demo_runs v Hw Hr Hx))
    as (res & Ec & _); [done|done|done|].
  exists v, res. split; [exact E|exact Ec].
Defined.

Lemma copy_to_user_exact_witness :
  ∃ v, vm_map_page root_table heap1 page1 rw_user boot_vm = Ret (0, v)
    ∧ (copy_to_user 0 (heap1 + 8) [1; 2; 3] 3 (demo_state v) = Ret (EFAULT, demo_state v)
       ∨ ∃ s', copy_to_user 0 (heap1 + 8) [1; 2; 3] 3 (demo_state v) = Ret (3, s')).
Proof.
  destruct one_page as (v & E & Hw & Hr & _ & Hx). exists v. split; [exact E|].
  destruct (copy_to_user_exact 0 (demo_state v) 1 root_table (heap1 + 8) [1; 2; 3] 3 (demo_runs v Hw Hr Hx))
    as [[Ec _]|(m & Ec & _)]; [done|done|done|left; exact Ec|right; eexists; exact Ec].
Defined.
