(* ===== verification/Sched.v ===== *)
(** * The scheduler (kernel/sched.c)

    Each hart has a run queue and a current agent.  A critical section under
    [sched_lock] is one state transformation.  While a hart waits in
    [smp_cpu_wait] the other harts run: [wait n] is what they do to the state
    during the wait that leaves [n] more (an argument of the loops), and a loop
    that is still waiting when its fuel ends gives [None].  Inter-processor
    interrupts only end such waits; they have no other effect and do not appear.
    A secondary hart that finds the system done sleeps for ever, also [None]; the
    boot hart (always hart 0) stops the machine.

    [switch_to_agent] leaves the kernel: the functions that end in it return the
    trapframe they restore. *)

From S2P Require Import Prelude Abi Ipc Ramfs Quota Policy AgentDef Mem Vm Kernel.

Section sched.
Context {D : Type}.
Abbreviation kstate := (kstate D).

Definition smp_boot_hart : Z := 0.

Definition agent_indices : list Z := seqZ 0 MAX_AGENTS.

(** [csrw satp] with the root table. *)
Definition vm_activate (hart pt : Z) (s : kstate) : kstate :=
  with_satp (<[Z.to_nat hart := pt]> (satp s)) s.

(** [if (a->pagetable) vm_activate(a->pagetable)] *)
Definition activate_agent (hart i : Z) (s : kstate) : kstate :=
  let pt := pagetable (agent_at s i) in if pt =? 0 then s else vm_activate hart pt s.

Definition trapframe_store (a : option Z) (src : option trapframe) (s : kstate) : kstate :=
  match a, src with
  | Some i, Some t => match atf (agent_at s i) with
                      | Some _ => upd_agent i (upd.atf (Some t)) s
                      | None => s
                      end
  | _, _ => s
  end.

(** A static helper that nothing in the file calls; the trap handler has its own
    copy. *)
Definition trapframe_sync (hart : Z) (src : option trapframe) : M kstate trapframe :=
  modify (λ s, trapframe_store (agent_current hart s) src s) ;;
  let! t := gets (λ s, match agent_current hart s with Some i => atf (agent_at s i) | None => None end) in
  match t with Some t => ret t | None => halt end.

Definition sched_agent_selectable (a : agent) : bool :=
  match state a with
  | AGENT_UNUSED | AGENT_ZOMBIE | AGENT_CREATED | AGENT_RUNNING => false
  | _ => true
  end.

Definition sched_agent_has_inbox (a : agent) : bool :=
  match state a with
  | AGENT_UNUSED | AGENT_ZOMBIE | AGENT_CREATED => false
  | _ => true
  end.

Definition is_runnable (a : agent) : bool := bool_decide (state a = AGENT_RUNNABLE).

(** ** Run queues *)

Definition rq_cpu (cpu : Z) : Z := if (cpu <? 0) || (SMP_MAX_HARTS <=? cpu) then 0 else cpu.

Definition rq (s : kstate) (cpu : Z) : list Z := nth (Z.to_nat cpu) (cpu_rq s) [].

Definition set_rq (cpu : Z) (q : list Z) (s : kstate) : kstate :=
  with_sched (rr_next s) (cpu_current s) (<[Z.to_nat cpu := q]> (cpu_rq s)) s.

Definition sched_rq_add_locked (i : Z) (s : kstate) : kstate :=
  let a := agent_at s i in
  let cpu := rq_cpu (home_cpu a) in
  let q := rq s cpu in
  if existsb (Z.eqb (id a)) q then s
  else if MAX_AGENTS <=? zlen q then s
  else set_rq cpu (q ++ [id a]) s.

Fixpoint remove_first (x : Z) (q : list Z) : list Z :=
  match q with
  | [] => []
  | y :: q' => if y =? x then q' else y :: remove_first x q'
  end.

Definition sched_rq_remove_locked (cpu x : Z) (s : kstate) : kstate :=
  let cpu := rq_cpu cpu in set_rq cpu (remove_first x (rq s cpu)) s.

(** [a->state = AGENT_RUNNABLE; a->running_cpu = -1; sched_rq_add_locked(a)] *)
Definition make_runnable (i : Z) (s : kstate) : kstate :=
  sched_rq_add_locked i (upd_agent i (λ a, upd.running_cpu (-1) (upd.state AGENT_RUNNABLE a)) s).

Definition sched_notify_runnable (a : option Z) (s : kstate) : kstate :=
  match a with
  | None => s
  | Some i => if decide (state (agent_at s i) = AGENT_ZOMBIE) then s else make_runnable i s
  end.

(** ** Choosing an agent *)

Definition sched_has_runnable (s : kstate) : bool :=
  existsb (λ i, let a := agent_at s i in
                sched_agent_selectable a && (is_runnable a || negb (msgbox_empty (inbox a))))
          agent_indices.

Definition sched_system_done (s : kstate) : bool :=
  let active :=
    existsb (λ i, match state (agent_at s i) with AGENT_UNUSED | AGENT_ZOMBIE => false | _ => true end)
            (seqZ 1 (MAX_AGENTS - 1)) in
  negb active && negb (sched_has_runnable s).

Definition pick_from_runqueues (hart : Z) (s : kstate) : option Z :=
  if (hart <? 0) || (SMP_MAX_HARTS <=? hart) then None
  else find (λ i, match agent_get s i with
                  | Some _ => is_runnable (agent_at s i) && (running_cpu (agent_at s i) <? 0)
                  | None => false
                  end) (rq s hart).

Definition has_mail (hart : Z) (a : agent) : bool :=
  sched_agent_has_inbox a && (home_cpu a =? hart) && negb (msgbox_empty (inbox a)).

Definition rr_order (rr : Z) : list Z := (λ pass, (rr + pass) mod MAX_AGENTS) <$> seqZ 0 MAX_AGENTS.

Definition pick_next (hart : Z) (s : kstate) : option Z * kstate :=
  match find (λ i, has_mail hart (agent_at s i)) agent_indices with
  | Some i => (Some i, upd_agent i (λ a, upd.running_cpu (-1) (upd.state AGENT_RUNNABLE a)) s)
  | None =>
      match pick_from_runqueues hart s with
      | Some i => (Some i, s)
      | None =>
          match find (λ i, let x := agent_at s i in
                           sched_agent_selectable x && (home_cpu x =? hart) && is_runnable x)
                     (rr_order (rr_next s)) with
          | Some idx => (Some idx, with_sched ((idx + 1) mod MAX_AGENTS) (cpu_current s) (cpu_rq s) s)
          | None => (None, s)
          end
      end
  end.

(** ** Switching *)

(** From [agent_set_current(next)] to the return. *)
Definition switch_in (hart next : Z) : M kstate trapframe :=
  modify (agent_set_current hart (Some next)) ;;
  modify_agent next (λ a, upd.running_cpu hart (upd.state AGENT_RUNNING a)) ;;
  modify (λ s, sched_rq_remove_locked (home_cpu (agent_at s next)) (id (agent_at s next)) s) ;;
  modify (activate_agent hart next) ;;
  let! t := gets (λ s, atf (agent_at s next)) in
  match t with Some t => ret t | None => halt end.

(** Whether the hart goes on waiting. *)
Definition sched_halt_if_done (hart : Z) : M kstate bool :=
  if negb (hart =? smp_boot_hart) then ret false else halt.

(** The current agent gives up the hart. *)
Definition sched_release (cur : option Z) (s : kstate) : kstate :=
  match cur with
  | Some c => if decide (state (agent_at s c) = AGENT_RUNNING) then make_runnable c s else s
  | None => s
  end.

Fixpoint schedule_loop (hart : Z) (wait : nat → kstate → kstate) (fuel : nat)
    (cur : option Z) (cur_tf : option trapframe) : M kstate (option trapframe) :=
  match fuel with
  | O => ret None
  | S fuel' =>
      modify (trapframe_store cur cur_tf) ;;
      modify (sched_release cur) ;;
      let! next := act (pick_next hart) in
      match next with
      | Some n => let! t := switch_in hart n in ret (Some t)
      | None =>
          let! fin := gets (λ s, sched_system_done s && kernel_sched_ready s) in
          let! go := if fin : bool then sched_halt_if_done hart else ret true in
          if go : bool
          then modify (wait fuel') ;;
               let! cur' := gets (agent_current hart) in
               schedule_loop hart wait fuel' cur' cur_tf
          else ret None
      end
  end.

Definition schedule_trap (hart : Z) (wait : nat → kstate → kstate) (fuel : nat)
    (cur_tf : option trapframe) : M kstate (option trapframe) :=
  let! cur := gets (agent_current hart) in schedule_loop hart wait fuel cur cur_tf.

Definition schedule (hart : Z) (wait : nat → kstate → kstate) (fuel : nat) : M kstate (option trapframe) :=
  let! t := gets (λ s, match agent_current hart s with Some i => atf (agent_at s i) | None => None end) in
  let! r := schedule_trap hart wait fuel t in
  match r with
  | None => ret None
  | Some t =>
      modify (λ s, match agent_current hart s with
                   | Some i => activate_agent hart i s
                   | None => s
                   end) ;;
      ret (Some t)
  end.

Fixpoint sched_cpu_run_loop (hart : Z) (wait : nat → kstate → kstate) (fuel : nat) : M kstate (option trapframe) :=
  match fuel with
  | O => ret None
  | S fuel' =>
      let! next := act (pick_next hart) in
      match next with
      | Some n => let! t := switch_in hart n in ret (Some t)
      | None =>
          let! fin := gets (λ s, kernel_sched_ready s && sched_system_done s) in
          let! go := if fin : bool then sched_halt_if_done hart else ret true in
          if go : bool then modify (wait fuel') ;; sched_cpu_run_loop hart wait fuel' else ret None
      end
  end.

Definition sched_start (hart init : Z) : M kstate trapframe :=
  modify (with_ready true) ;;
  modify_agent init (λ a, upd.state AGENT_RUNNING (upd.running_cpu hart (upd.home_cpu 0 a))) ;;
  modify (agent_set_current hart (Some init)) ;;
  let! t := gets (λ s, atf (agent_at s init)) in
  match t with
  | None => halt
  | Some t => modify (activate_agent hart init) ;; ret t
  end.

Definition scheduler_run_first (hart : Z) (a : option Z) : M kstate trapframe :=
  match a with
  | None => halt
  | Some i =>
      let! t := gets (λ s, atf (agent_at s i)) in
      match t with
      | None => halt
      | Some _ =>
          let! n := gets online_harts in
          if 1 <? n then sched_start hart i
          else
            modify (agent_set_current hart (Some i)) ;;
            modify_agent i (λ a, upd.running_cpu hart (upd.state AGENT_RUNNING a)) ;;
            modify (activate_agent hart i) ;;
            let! t := gets (λ s, atf (agent_at s i)) in
            match t with Some t => ret t | None => halt end
      end
  end.

(** ** Well-formed tables *)

Implicit Types s : kstate.

Record kernel_wf (s : kstate) : Prop := {
  kw_agents : zlen (agents s) = MAX_AGENTS;
  kw_cur : zlen (cpu_current s) = SMP_MAX_HARTS;
  kw_rq : zlen (cpu_rq s) = SMP_MAX_HARTS;
  kw_satp : zlen (satp s) = SMP_MAX_HARTS;
  kw_id : ∀ i, 0 ≤ i < MAX_AGENTS → id (agent_at s i) = i;
  kw_rr : 0 ≤ rr_next s
}.

(** A queue holds agents of the table, each once. *)
Definition queue_ok (q : list Z) : Prop := NoDup q ∧ ∀ x, x ∈ q → 0 ≤ x < MAX_AGENTS.

Definition queues_ok (s : kstate) : Prop := ∀ h, 0 ≤ h < SMP_MAX_HARTS → queue_ok (rq s h).

Lemma agent_at_upd s i j f :
  zlen (agents s) = MAX_AGENTS → 0 ≤ i < MAX_AGENTS → 0 ≤ j →
  agent_at (upd_agent i f s) j = if decide (i = j) then f (agent_at s i) else agent_at s j.
Proof.
  intros Hl Hi Hj. unfold agent_at, upd_agent. cbn [agents with_agents].
  rewrite !nth_lookup. case_decide as E.
  - subst j. rewrite list_lookup_alter_eq. destruct (lookup_lt_is_Some_2 (agents s) (Z.to_nat i)) as [a ->]; [klia|done].
  - rewrite list_lookup_alter_ne by lia. done.
Qed.

Lemma agent_at_upd_eq s i f :
  zlen (agents s) = MAX_AGENTS → 0 ≤ i < MAX_AGENTS → agent_at (upd_agent i f s) i = f (agent_at s i).
Proof. intros. rewrite agent_at_upd by lia. by rewrite decide_True. Qed.

Lemma zlen_upd_agent s i f : zlen (agents (upd_agent i f s)) = zlen (agents s).
Proof. unfold zlen, upd_agent. cbn [agents with_agents]. by rewrite length_alter. Qed.

(** Updates of an agent that keep its number keep the tables well-formed. *)
Lemma upd_agent_wf s i f :
  kernel_wf s → 0 ≤ i < MAX_AGENTS → (∀ a, id (f a) = id a) → kernel_wf (upd_agent i f s).
Proof.
  intros [H1 H2 H3 H4 H5 H6] Hi Hf. constructor; try done; [by rewrite zlen_upd_agent|].
  intros j Hj. rewrite agent_at_upd by lia. case_decide; [rewrite Hf; subst; auto|auto].
Qed.

Lemma rq_set s cpu q h :
  zlen (cpu_rq s) = SMP_MAX_HARTS → 0 ≤ cpu < SMP_MAX_HARTS → 0 ≤ h →
  rq (set_rq cpu q s) h = if decide (cpu = h) then q else rq s h.
Proof.
  intros Hl Hc Hh. unfold rq, set_rq. cbn [cpu_rq with_sched]. rewrite !nth_lookup. case_decide as E.
  - subst h. rewrite list_lookup_insert_eq by klia. done.
  - by rewrite list_lookup_insert_ne by lia.
Qed.

Lemma rq_cpu_range cpu : 0 ≤ rq_cpu cpu < SMP_MAX_HARTS.
Proof. unfold rq_cpu, SMP_MAX_HARTS. destruct (Z.ltb_spec cpu 0), (Z.leb_spec 4 cpu); simpl; lia. Qed.

Lemma rq_cpu_id cpu : 0 ≤ cpu < SMP_MAX_HARTS → rq_cpu cpu = cpu.
Proof. intros. unfold rq_cpu. test_false (cpu <? 0). by test_false (SMP_MAX_HARTS <=? cpu). Qed.

Lemma set_rq_wf s cpu q : kernel_wf s → kernel_wf (set_rq cpu q s).
Proof.
  intros [H1 H2 H3 H4 H5 H6]. constructor; try done. unfold zlen in *. cbn [cpu_rq set_rq with_sched].
  by rewrite length_insert.
Qed.

(** A queue without duplicates has room for an agent it does not hold. *)
Lemma queue_room q x : queue_ok q → 0 ≤ x < MAX_AGENTS → x ∉ q → zlen q < MAX_AGENTS.
Proof.
  intros [Hn Hr] Hx Hni.
  assert (x :: q ⊆+ seqZ 0 MAX_AGENTS) as H%submseteq_length.
  { apply NoDup_submseteq; [by constructor|]. intros y Hy. apply elem_of_seqZ.
    apply elem_of_cons in Hy as [->|Hy]; [lia|]. apply Hr in Hy. lia. }
  rewrite length_seqZ in H. cbn [length] in H. unfold zlen, MAX_AGENTS in *. lia.
Qed.

Lemma existsb_elem x q : existsb (Z.eqb x) q = bool_decide (x ∈ q).
Proof.
  apply eq_bool_prop_intro. rewrite !Is_true_true, existsb_exists, bool_decide_eq_true. split.
  - intros (y & Hy & E). apply Z.eqb_eq in E as ->. by apply list_elem_of_In.
  - intros H. exists x. split; [by apply list_elem_of_In|apply Z.eqb_refl].
Qed.

(** Enqueueing never drops an agent. *)
Lemma rq_add_spec s i :
  kernel_wf s → queues_ok s → 0 ≤ i < MAX_AGENTS →
  let cpu := rq_cpu (home_cpu (agent_at s i)) in
  sched_rq_add_locked i s = (if decide (i ∈ rq s cpu) then s else set_rq cpu (rq s cpu ++ [i]) s).
Proof.
  intros Hw Hq Hi. cbn zeta. unfold sched_rq_add_locked. rewrite (kw_id s Hw i Hi), existsb_elem.
  case_bool_decide as Hin; [by rewrite decide_True|]. rewrite decide_False by done.
  pose proof (queue_room _ i (Hq _ (rq_cpu_range (home_cpu (agent_at s i)))) Hi Hin).
  by test_false (MAX_AGENTS <=? zlen (rq s (rq_cpu (home_cpu (agent_at s i))))).
Qed.

(** ** The effect of the critical sections *)

Definition runnable (a : agent) : agent := upd.running_cpu (-1) (upd.state AGENT_RUNNABLE a).
Definition running (h : Z) (a : agent) : agent := upd.running_cpu h (upd.state AGENT_RUNNING a).

Lemma remove_first_elem x y q : y ∈ remove_first x q → y ∈ q.
Proof.
  induction q as [|z q IH]; cbn [remove_first]; [done|]. case_test; [by apply list_elem_of_further|].
  rewrite !elem_of_cons. intros [->|H]; auto.
Qed.

Lemma remove_first_ok x q : queue_ok q → queue_ok (remove_first x q).
Proof.
  intros [Hn Hr]. split; [|intros y Hy; by apply Hr, (remove_first_elem x)].
  clear Hr. induction Hn as [|y q Hy Hn IH]; cbn [remove_first]; [constructor|].
  case_test; [done|]. constructor; [|done]. intros H. by apply Hy, (remove_first_elem x).
Qed.

Lemma make_runnable_agent s i j :
  kernel_wf s → 0 ≤ i < MAX_AGENTS → 0 ≤ j →
  agent_at (make_runnable i s) j = if decide (i = j) then runnable (agent_at s i) else agent_at s j.
Proof.
  intros Hw Hi Hj. rewrite <- (agent_at_upd s i j runnable) by (try apply kw_agents; done).
  unfold make_runnable, sched_rq_add_locked. repeat case_test; done.
Qed.

Lemma make_runnable_rq s i h :
  kernel_wf s → queues_ok s → 0 ≤ i < MAX_AGENTS → 0 ≤ h →
  rq (make_runnable i s) h
  = if decide (rq_cpu (home_cpu (agent_at s i)) = h) then (if decide (i ∈ rq s h) then rq s h else rq s h ++ [i])
    else rq s h.
Proof.
  intros Hw Hq Hi Hh. unfold make_runnable. fold runnable.
  rewrite rq_add_spec by (try apply upd_agent_wf; done).
  rewrite agent_at_upd_eq by (try apply kw_agents; done). change (home_cpu (runnable ?a)) with (home_cpu a).
  change (rq (upd_agent i runnable s)) with (rq s).
  set (cpu := rq_cpu (home_cpu (agent_at s i))). destruct (decide (cpu = h)) as [<-|Hne].
  - case_decide; [done|]. rewrite rq_set by (try apply rq_cpu_range; try apply (kw_rq s Hw); done).
    by rewrite decide_True.
  - case_decide; [done|]. rewrite rq_set by (try apply rq_cpu_range; try apply (kw_rq s Hw); done).
    by rewrite decide_False.
Qed.

Lemma make_runnable_wf s i : kernel_wf s → 0 ≤ i < MAX_AGENTS → kernel_wf (make_runnable i s).
Proof.
  intros Hw Hi. unfold make_runnable. fold runnable. assert (kernel_wf (upd_agent i runnable s)) by by apply upd_agent_wf.
  unfold sched_rq_add_locked. repeat case_test; auto using set_rq_wf.
Qed.

Lemma queue_snoc q i : queue_ok q → 0 ≤ i < MAX_AGENTS → i ∉ q → queue_ok (q ++ [i]).
Proof.
  intros [Hn Hr] Hi Hni. split.
  - apply NoDup_app. split; [done|]. split; [|by apply NoDup_singleton]. intros x Hx Hx2.
    apply list_elem_of_singleton in Hx2. by subst.
  - intros x Hx. apply elem_of_app in Hx as [Hx|Hx%list_elem_of_singleton]; [auto|by subst].
Qed.

Lemma make_runnable_queues s i :
  kernel_wf s → queues_ok s → 0 ≤ i < MAX_AGENTS → queues_ok (make_runnable i s).
Proof.
  intros Hw Hq Hi h Hh. rewrite make_runnable_rq by (done || lia). repeat case_decide; auto using queue_snoc.
Qed.

(** The state after a switch to agent [n]. *)
Definition switched (h n : Z) (s : kstate) : kstate :=
  activate_agent h n
    (sched_rq_remove_locked (home_cpu (agent_at s n)) n (upd_agent n (running h) (agent_set_current h (Some n) s))).

Section switch.
Context (h n : Z) (s : kstate) (Hw : kernel_wf s) (Hh : 0 ≤ h < SMP_MAX_HARTS) (Hn : 0 ≤ n < MAX_AGENTS).

Lemma set_current_state :
  agent_set_current h (Some n) s = with_sched (rr_next s) (<[Z.to_nat h := Some n]> (cpu_current s)) (cpu_rq s) s.
Proof using Hh. unfold agent_set_current. test_true (0 <=? h). by test_true (h <? SMP_MAX_HARTS). Qed.

Lemma switch_in_spec :
  switch_in h n s = match atf (agent_at s n) with Some t => Ret (t, switched h n s) | None => Halt end.
Proof using All.
  set (s1 := upd_agent n (running h) (agent_set_current h (Some n) s)).
  assert (agent_at s1 n = running h (agent_at s n)) as E.
  { unfold s1. rewrite set_current_state, agent_at_upd_eq by (try apply (kw_agents s Hw); done). done. }
  unfold switch_in, modify_agent, bind, modify, gets. fold (running h). fold s1. rewrite E.
  change (home_cpu (running h (agent_at s n))) with (home_cpu (agent_at s n)).
  change (id (running h (agent_at s n))) with (id (agent_at s n)). rewrite (kw_id s Hw n Hn).
  change (switched h n s) with (activate_agent h n (sched_rq_remove_locked (home_cpu (agent_at s n)) n s1)).
  set (s2 := activate_agent h n _).
  assert (agent_at s2 n = running h (agent_at s n)) as ->.
  { rewrite <- E. unfold s2, activate_agent. by case_test. }
  change (atf (running h ?a)) with (atf a). by destruct (atf (agent_at s n)).
Qed.

Lemma switched_agent j :
  0 ≤ j → agent_at (switched h n s) j = if decide (n = j) then running h (agent_at s n) else agent_at s j.
Proof using All.
  intros Hj. transitivity (agent_at (upd_agent n (running h) (agent_set_current h (Some n) s)) j).
  - unfold switched, activate_agent. by case_test.
  - rewrite set_current_state, agent_at_upd by (try apply (kw_agents s Hw); done). done.
Qed.

Lemma switched_current k :
  0 ≤ k < SMP_MAX_HARTS → agent_current k (switched h n s) = if decide (h = k) then Some n else agent_current k s.
Proof using All.
  intros Hk. unfold agent_current. test_false (k <? 0). test_false (SMP_MAX_HARTS <=? k). cbn [orb].
  transitivity (nth (Z.to_nat k) (<[Z.to_nat h := Some n]> (cpu_current s)) None).
  - unfold switched, activate_agent. rewrite set_current_state. by case_test.
  - pose proof (kw_cur s Hw). rewrite !nth_lookup. case_decide as E.
    + subst k. by rewrite list_lookup_insert_eq by klia.
    + by rewrite list_lookup_insert_ne by lia.
Qed.

Lemma switched_rq k :
  0 ≤ k → rq (switched h n s) k
  = if decide (rq_cpu (home_cpu (agent_at s n)) = k) then remove_first n (rq s k) else rq s k.
Proof using All.
  intros Hk. set (s1 := upd_agent n (running h) (agent_set_current h (Some n) s)).
  assert (cpu_rq s1 = cpu_rq s) as E by (unfold s1; by rewrite set_current_state).
  transitivity (rq (sched_rq_remove_locked (home_cpu (agent_at s n)) n s1) k).
  - unfold switched. fold s1. unfold activate_agent. by case_test.
  - unfold sched_rq_remove_locked. rewrite rq_set; [|rewrite E; apply (kw_rq s Hw)|apply rq_cpu_range|done].
    unfold rq. rewrite E. by case_decide; subst.
Qed.

Lemma switched_wf : kernel_wf (switched h n s).
Proof using All.
  assert (kernel_wf (agent_set_current h (Some n) s)) as H1.
  { rewrite set_current_state. destruct Hw as [A B C E F G]. constructor; try done.
    unfold zlen in *. cbn. by rewrite length_insert. }
  assert (kernel_wf (sched_rq_remove_locked (home_cpu (agent_at s n)) n
                       (upd_agent n (running h) (agent_set_current h (Some n) s)))) as H2.
  { by apply set_rq_wf, upd_agent_wf. }
  unfold switched, activate_agent. case_test; [done|]. destruct H2 as [A B C E F G]. constructor; try done.
  unfold zlen in *. cbn. by rewrite length_insert.
Qed.

Lemma switched_queues : queues_ok s → queues_ok (switched h n s).
Proof using All.
  intros Hq k Hk. rewrite switched_rq by lia. case_decide; [|auto]. apply remove_first_ok. auto.
Qed.

Lemma switched_root :
  nth (Z.to_nat h) (satp (switched h n s)) 0
  = (if pagetable (agent_at s n) =? 0 then nth (Z.to_nat h) (satp s) 0 else pagetable (agent_at s n)).
Proof using All.
  unfold switched. set (s1 := sched_rq_remove_locked _ _ _).
  assert (agent_at s1 n = running h (agent_at s n)) as E.
  { unfold s1. rewrite set_current_state. change (agent_at (sched_rq_remove_locked ?c ?x ?y)) with (agent_at y).
    rewrite agent_at_upd_eq by (try apply (kw_agents s Hw); done). done. }
  assert (satp s1 = satp s) as E2 by (unfold s1; by rewrite set_current_state).
  unfold activate_agent. rewrite E. change (pagetable (running h ?a)) with (pagetable a).
  case_test; [by rewrite E2|]. unfold vm_activate. cbn [satp with_satp]. rewrite E2, nth_lookup, list_lookup_insert_eq; [done|].
  pose proof (kw_satp s Hw). klia.
Qed.

End switch.

(** ** The scheduler's invariant *)

(** An agent queued or running on a hart belongs to that hart. *)
Record sched_inv (s : kstate) : Prop := {
  si_wf : kernel_wf s;
  si_queues : queues_ok s;
  si_home : ∀ i, 0 ≤ i < MAX_AGENTS → 0 ≤ home_cpu (agent_at s i) < SMP_MAX_HARTS;
  si_rq : ∀ h x, 0 ≤ h < SMP_MAX_HARTS → x ∈ rq s h → home_cpu (agent_at s x) = h;
  si_cur : ∀ h i, 0 ≤ h < SMP_MAX_HARTS → agent_current h s = Some i →
    0 ≤ i < MAX_AGENTS ∧ home_cpu (agent_at s i) = h
}.

Lemma upd_agent_inv s i f :
  sched_inv s → 0 ≤ i < MAX_AGENTS → (∀ a, id (f a) = id a) → (∀ a, home_cpu (f a) = home_cpu a) →
  sched_inv (upd_agent i f s).
Proof.
  intros [Hw Hq Hh Hr Hc] Hi Hid Hf.
  assert (∀ j, 0 ≤ j → home_cpu (agent_at (upd_agent i f s) j) = home_cpu (agent_at s j)) as E.
  { intros j Hj. rewrite agent_at_upd by (try apply (kw_agents s Hw); done). case_decide; [subst; apply Hf|done]. }
  constructor.
  - by apply upd_agent_wf.
  - exact Hq.
  - intros j Hj. rewrite E by lia. auto.
  - intros h x Hh' Hx. rewrite E; [by apply Hr|]. apply (Hq h Hh') in Hx. lia.
  - intros h j Hh' Hj. destruct (Hc h j Hh' Hj) as [? ?]. split; [done|]. by rewrite E by lia.
Qed.

Lemma make_runnable_inv s i : sched_inv s → 0 ≤ i < MAX_AGENTS → sched_inv (make_runnable i s).
Proof.
  intros [Hw Hq Hh Hr Hc] Hi.
  assert (∀ j, 0 ≤ j → home_cpu (agent_at (make_runnable i s) j) = home_cpu (agent_at s j)) as E.
  { intros j Hj. rewrite make_runnable_agent by done. case_decide; by subst. }
  constructor.
  - by apply make_runnable_wf.
  - by apply make_runnable_queues.
  - intros j Hj. rewrite E by lia. auto.
  - intros h x Hh' Hx. pose proof (make_runnable_queues s i Hw Hq Hi h Hh') as [_ Hx2].
    rewrite E by (apply Hx2 in Hx; lia). rewrite make_runnable_rq in Hx by (done || lia).
    repeat case_decide; [by apply Hr| |by apply Hr].
    apply elem_of_app in Hx as [Hx|Hx%list_elem_of_singleton]; [by apply Hr|].
    subst x h. symmetry. by apply rq_cpu_id, Hh.
  - intros h j Hh' Hj. assert (agent_current h s = Some j) as Hj'.
    { rewrite <- Hj. unfold agent_current, make_runnable, sched_rq_add_locked. repeat case_test; done. }
    destruct (Hc h j Hh' Hj'). split; [done|]. by rewrite E by lia.
Qed.

Lemma switched_inv s h n :
  sched_inv s → 0 ≤ h < SMP_MAX_HARTS → 0 ≤ n < MAX_AGENTS → home_cpu (agent_at s n) = h →
  sched_inv (switched h n s).
Proof.
  intros [Hw Hq Hh Hr Hc] Hh' Hn Hhome.
  assert (∀ j, 0 ≤ j → home_cpu (agent_at (switched h n s) j) = home_cpu (agent_at s j)) as E.
  { intros j Hj. rewrite switched_agent by done. case_decide; by subst. }
  constructor.
  - by apply switched_wf.
  - by apply switched_queues.
  - intros j Hj. rewrite E by lia. auto.
  - intros k x Hk Hx. rewrite switched_rq in Hx by (done || lia).
    assert (x ∈ rq s k) as Hx' by (case_decide; [by eapply remove_first_elem|done]).
    rewrite E; [by apply Hr|]. apply (Hq k Hk) in Hx'. lia.
  - intros k j Hk Hj. rewrite switched_current in Hj by done. case_decide.
    + injection Hj as ->. split; [done|]. rewrite E by lia. congruence.
    + destruct (Hc k j Hk Hj). split; [done|]. by rewrite E by lia.
Qed.

Lemma with_rr_inv s rr : sched_inv s → 0 ≤ rr → sched_inv (with_sched rr (cpu_current s) (cpu_rq s) s).
Proof. intros [[A B C E F G] Hq Hh Hr Hc] H. constructor; [by constructor|done..]. Qed.

Lemma trapframe_store_inv s h t : sched_inv s → 0 ≤ h < SMP_MAX_HARTS →
  sched_inv (trapframe_store (agent_current h s) t s).
Proof.
  intros Hi Hh. unfold trapframe_store. destruct (agent_current h s) as [i|] eqn:E, t; try done.
  destruct (atf (agent_at s i)); [|done]. apply upd_agent_inv; try done. by apply (si_cur s Hi h).
Qed.

Lemma store_current h s c t : agent_current h (trapframe_store c t s) = agent_current h s.
Proof. unfold trapframe_store. destruct c, t; try done. by destruct (atf (agent_at s z)). Qed.

Lemma make_runnable_current h s i : agent_current h (make_runnable i s) = agent_current h s.
Proof. unfold make_runnable, sched_rq_add_locked. repeat case_test; done. Qed.

Lemma sched_release_inv s h : sched_inv s → 0 ≤ h < SMP_MAX_HARTS → sched_inv (sched_release (agent_current h s) s).
Proof.
  intros Hi Hh. unfold sched_release. destruct (agent_current h s) as [i|] eqn:E; [|done].
  case_decide; [|done]. apply make_runnable_inv; [done|]. by apply (si_cur s Hi h).
Qed.

(** ** Choosing *)

Definition can_run (a : agent) : Prop :=
  state a = AGENT_RUNNABLE ∨ (sched_agent_has_inbox a = true ∧ msgbox_empty (inbox a) = false).

Lemma elem_of_indices i : i ∈ agent_indices ↔ 0 ≤ i < MAX_AGENTS.
Proof. unfold agent_indices. rewrite elem_of_seqZ. lia. Qed.

Lemma elem_of_rr rr i : 0 ≤ rr → i ∈ rr_order rr ↔ 0 ≤ i < MAX_AGENTS.
Proof.
  intros Hr. unfold rr_order, MAX_AGENTS. rewrite list_elem_of_fmap. split.
  - intros (p & -> & _). apply Z.mod_pos_bound. lia.
  - intros Hi. exists ((i - rr) mod 12). rewrite elem_of_seqZ. split.
    + rewrite Zplus_mod_idemp_r. replace (rr + (i - rr)) with i by lia. by rewrite Z.mod_small.
    + pose proof (Z.mod_pos_bound (i - rr) 12). lia.
Qed.

Lemma find_Some {A} (p : A → bool) l x : find p l = Some x → x ∈ l ∧ p x = true.
Proof. intros H. apply List.find_some in H as [H1 H2]. by rewrite list_elem_of_In. Qed.

Lemma find_None {A} (p : A → bool) l : find p l = None ↔ ∀ x, x ∈ l → p x = false.
Proof.
  split; [intros H x Hx; apply (List.find_none _ _ H); by apply list_elem_of_In|].
  intros H. destruct (find p l) as [x|] eqn:E; [|done]. apply find_Some in E as [Hx E].
  rewrite (H x Hx) in E. done.
Qed.

Lemma find_first {A} (p : A → bool) l1 x l2 :
  (∀ y, y ∈ l1 → p y = false) → p x = true → find p (l1 ++ x :: l2) = Some x.
Proof.
  induction l1 as [|y l1 IH]; intros H Hx; cbn [find app]; [by rewrite Hx|].
  rewrite H by apply list_elem_of_here. apply IH; [|done]. intros z Hz. by apply H, list_elem_of_further.
Qed.

(** What [pick_next] gives: an agent of the hart that can run, or nothing when
    there is none. *)
Lemma pick_next_spec s h :
  sched_inv s → 0 ≤ h < SMP_MAX_HARTS →
  match pick_next h s with
  | (Some i, s') =>
      0 ≤ i < MAX_AGENTS ∧ home_cpu (agent_at s i) = h ∧ can_run (agent_at s i)
      ∧ (s' = upd_agent i runnable s
         ∨ (state (agent_at s i) = AGENT_RUNNABLE ∧ ∃ rr, 0 ≤ rr ∧ s' = with_sched rr (cpu_current s) (cpu_rq s) s))
  | (None, s') => s' = s ∧ ∀ i, 0 ≤ i < MAX_AGENTS → home_cpu (agent_at s i) = h → ¬ can_run (agent_at s i)
  end.
Proof.
  intros Hi Hh. pose proof (si_wf s Hi) as Hw. unfold pick_next.
  destruct (find (λ i, has_mail h (agent_at s i)) agent_indices) as [i|] eqn:E1.
  { apply find_Some in E1 as [Hin%elem_of_indices Hm]. unfold has_mail in Hm. bprop.
    split; [done|]. split; [done|]. split; [by right|]. by left. }
  destruct (pick_from_runqueues h s) as [i|] eqn:E2.
  { unfold pick_from_runqueues in E2. test_false_in (h <? 0) E2. test_false_in (SMP_MAX_HARTS <=? h) E2.
    cbn [orb] in E2. apply find_Some in E2 as [Hin Hp]. pose proof (proj2 (si_queues s Hi h Hh) i Hin) as Hr.
    destruct (agent_get s i); [|done]. unfold is_runnable in Hp. bprop. apply bool_decide_eq_true in H.
    split; [done|]. split; [by apply (si_rq s Hi)|]. split; [by left|]. right. split; [done|].
    exists (rr_next s). split; [apply (kw_rr s Hw)|]. by destruct s. }
  destruct (find _ (rr_order (rr_next s))) as [i|] eqn:E3.
  - apply find_Some in E3 as [Hin%elem_of_rr Hp]; [|apply (kw_rr s Hw)]. unfold is_runnable in Hp. bprop.
    apply bool_decide_eq_true in H0. split; [done|]. split; [done|]. split; [by left|]. right. split; [done|].
    exists ((i + 1) mod MAX_AGENTS). split; [|done]. apply Z.mod_pos_bound. done.
  - split; [done|]. intros i Hr Hhome. rewrite find_None in E1. rewrite find_None in E3. intros [H|[H1 H2]].
    + specialize (E3 i). rewrite elem_of_rr in E3 by apply (kw_rr s Hw). specialize (E3 Hr).
      unfold sched_agent_selectable, is_runnable in E3. rewrite H, Hhome, Z.eqb_refl in E3. done.
    + specialize (E1 i). rewrite elem_of_indices in E1. specialize (E1 Hr). unfold has_mail in E1.
      rewrite H1, H2, Hhome, Z.eqb_refl in E1. done.
Qed.

Lemma pick_next_inv s h i s' :
  sched_inv s → 0 ≤ h < SMP_MAX_HARTS → pick_next h s = (i, s') → sched_inv s'.
Proof.
  intros Hi Hh E. pose proof (pick_next_spec s h Hi Hh) as H. rewrite E in H.
  destruct i as [i|]; [|by destruct H as [-> _]]. destruct H as (Hr & _ & _ & [->|(_ & rr & Hrr & ->)]).
  - by apply upd_agent_inv.
  - by apply with_rr_inv.
Qed.

(** The agent picked is of the hart in the new state too. *)
Lemma pick_next_home s h i s' :
  sched_inv s → 0 ≤ h < SMP_MAX_HARTS → pick_next h s = (Some i, s') →
  0 ≤ i < MAX_AGENTS ∧ home_cpu (agent_at s' i) = h ∧ state (agent_at s' i) = AGENT_RUNNABLE.
Proof.
  intros Hi Hh E. pose proof (pick_next_spec s h Hi Hh) as H. rewrite E in H.
  destruct H as (Hr & Hhome & _ & [->|(Hst & rr & Hrr & ->)]); [|done].
  rewrite agent_at_upd_eq by (try apply (kw_agents s (si_wf s Hi)); done). done.
Qed.

Lemma switch_in_inv s h n t s' :
  sched_inv s → 0 ≤ h < SMP_MAX_HARTS → 0 ≤ n < MAX_AGENTS → home_cpu (agent_at s n) = h →
  switch_in h n s = Ret (t, s') → sched_inv s'.
Proof.
  intros Hi Hh Hn Hhome E. rewrite switch_in_spec in E by (try apply (si_wf s Hi); done).
  destruct (atf (agent_at s n)); [|done]. injection E as _ <-. by apply switched_inv.
Qed.

(** The state in which [schedule_trap] chooses the next agent. *)
Definition before_pick (h : Z) (t : option trapframe) (s : kstate) : kstate :=
  sched_release (agent_current h s) (trapframe_store (agent_current h s) t s).

Lemma before_pick_inv h t s : sched_inv s → 0 ≤ h < SMP_MAX_HARTS → sched_inv (before_pick h t s).
Proof.
  intros Hi Hh. unfold before_pick. rewrite <- (store_current h s (agent_current h s) t) at 1.
  apply sched_release_inv; [|done]. by apply trapframe_store_inv.
Qed.

Lemma schedule_trap_S h wait f t s :
  schedule_trap h wait (S f) t s
  = let '(next, s2) := pick_next h (before_pick h t s) in
    match next with
    | Some n => (let! t := switch_in h n in ret (Some t)) s2
    | None => (let! fin := gets (λ s, sched_system_done s && kernel_sched_ready s) in
               let! go := if fin : bool then sched_halt_if_done h else ret true in
               if go : bool
               then modify (wait f) ;;
                    let! cur' := gets (agent_current h) in schedule_loop h wait f cur' t
               else ret None) s2
    end.
Proof.
  unfold schedule_trap. cbn [schedule_loop]. unfold before_pick, bind, modify, gets, act.
  destruct (pick_next h _) as [[n|] s2]; done.
Qed.

(** ** Steps of the scheduler

    Critical sections of the harts, wake-ups, and any operation of the rest of
    the kernel on an agent that keeps its number and its hart. *)
Inductive sched_step : kstate → kstate → Prop :=
  | step_trap s h t r s' : 0 ≤ h < SMP_MAX_HARTS →
      schedule_trap h (λ _ s, s) 1 t s = Ret (r, s') → sched_step s s'
  | step_loop s h r s' : 0 ≤ h < SMP_MAX_HARTS →
      sched_cpu_run_loop h (λ _ s, s) 1 s = Ret (r, s') → sched_step s s'
  | step_notify s i : 0 ≤ i < MAX_AGENTS → sched_step s (sched_notify_runnable (Some i) s)
  | step_agent s i f : 0 ≤ i < MAX_AGENTS → (∀ a, id (f a) = id a) → (∀ a, home_cpu (f a) = home_cpu a) →
      sched_step s (upd_agent i f s).

Lemma pick_switch_inv s h r s' (m : M kstate (option trapframe)) :
  sched_inv s → 0 ≤ h < SMP_MAX_HARTS →
  (∀ s2 r s', m s2 = Ret (r, s') → s' = s2) →
  (let '(next, s2) := pick_next h s in
   match next with Some n => (let! t := switch_in h n in ret (Some t)) s2 | None => m s2 end) = Ret (r, s') →
  sched_inv s'.
Proof.
  intros Hi Hh Hm. destruct (pick_next h s) as [[n|] s2] eqn:E.
  - destruct (pick_next_home s h n s2 Hi Hh E) as (Hn & Hhome & _).
    unfold bind. destruct (switch_in h n s2) as [[t s3]| |] eqn:Es; [|done..]. intros [= _ <-].
    apply (switch_in_inv s2 h n t); try done. by apply (pick_next_inv s h (Some n)).
  - intros Em. apply Hm in Em as ->. by apply (pick_next_inv s h None).
Qed.

Lemma sched_step_inv s s' : sched_step s s' → sched_inv s → sched_inv s'.
Proof.
  destruct 1 as [s h t r s' Hh E|s h r s' Hh E|s i Hi|s i f Hi Hf1 Hf2]; intros Hinv.
  - rewrite schedule_trap_S in E. eapply pick_switch_inv in E; [done|by apply before_pick_inv|done|].
    intros s2 r' s3. unfold bind, gets. destruct (sched_system_done s2 && kernel_sched_ready s2).
    + unfold sched_halt_if_done. case_test; [|done]. by intros [= _ <-].
    + by intros [= _ <-].
  - cbn [sched_cpu_run_loop] in E. unfold bind at 1, act in E.
    apply (pick_switch_inv s h r s' (let! fin := gets (λ s, kernel_sched_ready s && sched_system_done s) in
          let! go := if fin : bool then sched_halt_if_done h else ret true in
          if go : bool then modify (λ s, s) ;; ret None else ret None)); [done|done| |].
    + intros s2 r' s3. unfold bind, gets. destruct (kernel_sched_ready s2 && sched_system_done s2).
      * unfold sched_halt_if_done. case_test; [|done]. by intros [= _ <-].
      * by intros [= _ <-].
    + destruct (pick_next h s) as [[n|] s2]; done.
  - unfold sched_notify_runnable. case_decide; [done|]. by apply make_runnable_inv.
  - by apply upd_agent_inv.
Qed.

(** [C8] One hart per agent: starting from a state in which agents are queued and
    running on their own harts only, after any interleaving of scheduling
    decisions on the harts, wake-ups, and changes to agents that keep their hart,
    no agent is current on two harts, and every hart's queue holds only existing
    agents, each at most once, so the bounded queue can always take one more agent. *)
Theorem one_hart_per_agent s0 s :
  sched_inv s0 → rtc sched_step s0 s →
  (∀ h h' i, 0 ≤ h < SMP_MAX_HARTS → 0 ≤ h' < SMP_MAX_HARTS →
     agent_current h s = Some i → agent_current h' s = Some i → h = h')
  ∧ (∀ h, 0 ≤ h < SMP_MAX_HARTS →
     NoDup (rq s h) ∧ (∀ i, i ∈ rq s h → 0 ≤ i < MAX_AGENTS)
     ∧ ∀ i, 0 ≤ i < MAX_AGENTS → i ∉ rq s h → zlen (rq s h) < MAX_AGENTS).
Proof.
  intros H0 Hr. assert (sched_inv s) as Hi.
  { induction Hr as [|x y z Hxy _ IH]; [done|]. by apply IH, (sched_step_inv x). }
  split.
  - intros h h' i Hh Hh' E E'. destruct (si_cur s Hi h i Hh E) as [_ <-].
    by destruct (si_cur s Hi h' i Hh' E') as [_ <-].
  - intros h Hh. pose proof (si_queues s Hi h Hh) as [Hnd Hq]. split; [done|]. split; [done|].
    intros i Hr' Hni. by apply (queue_room _ i).
Qed.

(** The choice is work-conserving: [pick_next] gives an agent of the hart,
    runnable in the new state, whenever some agent of the hart is runnable or has
    mail, and it gives none, leaving the state as it is, exactly otherwise. *)
Theorem pick_next_complete s h :
  sched_inv s → 0 ≤ h < SMP_MAX_HARTS →
  (∃ i s', pick_next h s = (Some i, s') ∧ 0 ≤ i < MAX_AGENTS ∧ can_run (agent_at s i)
     ∧ home_cpu (agent_at s' i) = h ∧ state (agent_at s' i) = AGENT_RUNNABLE)
  ∨ (pick_next h s = (None, s)
     ∧ ∀ i, 0 ≤ i < MAX_AGENTS → home_cpu (agent_at s i) = h → ¬ can_run (agent_at s i)).
Proof.
  intros Hi Hh. pose proof (pick_next_spec s h Hi Hh) as H.
  destruct (pick_next h s) as [[i|] s'] eqn:E; [left|right; by destruct H as [-> H]].
  destruct (pick_next_home s h i s' Hi Hh E) as (Hr & Hhome & Hst). exists i, s'. by destruct H as (_ & _ & Hc & _).
Qed.

(** ** Mail first *)

Lemma store_agent h s t j :
  sched_inv s → 0 ≤ h < SMP_MAX_HARTS → 0 ≤ j →
  agent_at (trapframe_store (agent_current h s) t s) j
  = match t, atf (agent_at s j) with
    | Some t', Some _ => if decide (agent_current h s = Some j) then upd.atf (Some t') (agent_at s j) else agent_at s j
    | _, _ => agent_at s j
    end.
Proof.
  intros Hi Hh Hj. unfold trapframe_store. destruct (agent_current h s) as [c|] eqn:E.
  2: { destruct t; [|done]. destruct (atf (agent_at s j)); [|done]. by rewrite decide_False. }
  destruct t as [t|]; [|done]. destruct (si_cur s Hi h c Hh E) as [Hc _].
  pose proof (kw_agents s (si_wf s Hi)) as Hl. destruct (decide (c = j)) as [<-|Hne].
  - destruct (atf (agent_at s c)); [|done]. rewrite agent_at_upd_eq by done. by rewrite decide_True.
  - transitivity (agent_at s j).
    + destruct (atf (agent_at s c)); [|done]. rewrite agent_at_upd by done. by rewrite decide_False.
    + destruct (atf (agent_at s j)); [|done]. rewrite decide_False by congruence. done.
Qed.

Lemma release_agent h s j :
  sched_inv s → 0 ≤ h < SMP_MAX_HARTS → 0 ≤ j →
  agent_at (sched_release (agent_current h s) s) j
  = if decide (agent_current h s = Some j ∧ state (agent_at s j) = AGENT_RUNNING)
    then runnable (agent_at s j) else agent_at s j.
Proof.
  intros Hi Hh Hj. unfold sched_release. destruct (agent_current h s) as [c|] eqn:E.
  2: { rewrite decide_False; [done|]. by intros []. }
  destruct (si_cur s Hi h c Hh E) as [Hc _]. destruct (decide (c = j)) as [<-|Hne].
  - case_decide as Hs.
    + rewrite make_runnable_agent by (try apply (si_wf s Hi); done). by rewrite !decide_True.
    + rewrite decide_False; [done|]. by intros [].
  - rewrite (decide_False (P := Some c = Some j ∧ _)) by (intros [? _]; congruence). case_decide as Hs; [|done].
    rewrite make_runnable_agent by (try apply (si_wf s Hi); done). by rewrite decide_False.
Qed.

Lemma has_mail_runnable h a : state a = AGENT_RUNNING → has_mail h (runnable a) = has_mail h a.
Proof. intros E. unfold has_mail, sched_agent_has_inbox. by rewrite E. Qed.

Lemma before_pick_mail h t s j :
  sched_inv s → 0 ≤ h < SMP_MAX_HARTS → 0 ≤ j →
  has_mail h (agent_at (before_pick h t s) j) = has_mail h (agent_at s j).
Proof.
  intros Hi Hh Hj. unfold before_pick. rewrite <- (store_current h s (agent_current h s) t) at 1.
  rewrite release_agent by (try apply trapframe_store_inv; done). rewrite store_current.
  transitivity (has_mail h (agent_at (trapframe_store (agent_current h s) t s) j)).
  - case_decide as Hd; [|done]. by apply has_mail_runnable, Hd.
  - rewrite store_agent by done. destruct t, (atf (agent_at s j)); try done. by case_decide.
Qed.

Lemma before_pick_atf h t s j :
  sched_inv s → 0 ≤ h < SMP_MAX_HARTS → 0 ≤ j →
  is_Some (atf (agent_at s j)) → is_Some (atf (agent_at (before_pick h t s) j)).
Proof.
  intros Hi Hh Hj Hs. unfold before_pick. rewrite <- (store_current h s (agent_current h s) t) at 1.
  rewrite release_agent by (try apply trapframe_store_inv; done). rewrite store_current.
  assert (is_Some (atf (agent_at (trapframe_store (agent_current h s) t s) j))).
  { rewrite store_agent by done. destruct t; [|done]. destruct Hs as [t0 Et]. rewrite Et. by case_decide; eexists. }
  case_decide; done.
Qed.

Lemma mail_pick h s i :
  0 ≤ i < MAX_AGENTS → has_mail h (agent_at s i) = true →
  (∀ j, 0 ≤ j < i → has_mail h (agent_at s j) = false) →
  pick_next h s = (Some i, upd_agent i runnable s).
Proof.
  intros Hi Hm Hlow. unfold pick_next, agent_indices.
  replace (seqZ 0 MAX_AGENTS) with (seqZ 0 i ++ i :: seqZ (Z.succ i) (MAX_AGENTS - i - 1)).
  2: { replace MAX_AGENTS with (i + (MAX_AGENTS - i)) at 2 by lia. rewrite seqZ_app by lia. f_equal.
       rewrite (seqZ_cons (0 + i)) by lia. by rewrite Z.add_0_l. }
  rewrite find_first; [done| |done]. intros j Hj. apply elem_of_seqZ in Hj. apply Hlow. lia.
Qed.

(** Mail comes before the queue: when an agent of the hart has mail and no
    lower-numbered agent of the hart has, the next scheduling decision of the hart
    switches to it, whatever the run queue holds and even when it is the agent that
    just gave up the hart.  An agent whose mailbox never empties therefore keeps
    every higher-numbered agent and every agent without mail from running. *)
Theorem mail_first h wait f t s i :
  sched_inv s → 0 ≤ h < SMP_MAX_HARTS → 0 ≤ i < MAX_AGENTS →
  has_mail h (agent_at s i) = true → (∀ j, 0 ≤ j < i → has_mail h (agent_at s j) = false) →
  is_Some (atf (agent_at s i)) →
  ∃ t' s', schedule_trap h wait (S f) t s = Ret (Some t', s') ∧ agent_current h s' = Some i
    ∧ state (agent_at s' i) = AGENT_RUNNING ∧ inbox (agent_at s' i) = inbox (agent_at s i).
Proof.
  intros Hi Hh Hr Hm Hlow Htf. set (s2 := before_pick h t s).
  assert (sched_inv s2) as Hi2 by by apply before_pick_inv.
  rewrite schedule_trap_S. fold s2. rewrite (mail_pick h s2 i Hr).
  2: { unfold s2. by rewrite before_pick_mail by (done || lia). }
  2: { intros j Hj. unfold s2. rewrite before_pick_mail by (done || lia). by apply Hlow. }
  assert (sched_inv (upd_agent i runnable s2)) as Hi3 by by apply upd_agent_inv.
  pose proof (kw_agents s2 (si_wf s2 Hi2)) as Hl.
  destruct (before_pick_atf h t s i Hi Hh ltac:(lia) Htf) as [t' Ht']. fold s2 in Ht'.
  unfold bind. rewrite switch_in_spec by (try apply (si_wf _ Hi3); done). rewrite agent_at_upd_eq by done.
  change (atf (runnable ?a)) with (atf a). rewrite Ht'. eexists t', _. split; [done|].
  rewrite switched_current, switched_agent by (try apply (si_wf _ Hi3); done || lia). rewrite !decide_True by done.
  split; [done|]. split; [done|]. rewrite agent_at_upd_eq by done.
  change (inbox (agent_at s2 i) = inbox (agent_at s i)). unfold s2, before_pick.
  rewrite <- (store_current h s (agent_current h s) t) at 1.
  rewrite release_agent by (try apply trapframe_store_inv; done || lia). rewrite store_agent by (done || lia).
  destruct t, (atf (agent_at s i)); repeat case_decide; done.
Qed.

(** ** Fair turns without mail *)

Record rr_ready (h : Z) (s : kstate) (c : Z) (q : list Z) : Prop := {
  rd_inv : sched_inv s;
  rd_cur : agent_current h s = Some c;
  rd_state : state (agent_at s c) = AGENT_RUNNING;
  rd_queue : rq s h = q;
  rd_c : c ∉ q;
  rd_run : ∀ x, x ∈ q → state (agent_at s x) = AGENT_RUNNABLE ∧ running_cpu (agent_at s x) < 0;
  rd_tf : ∀ x, x ∈ c :: q → is_Some (atf (agent_at s x));
  rd_quiet : ∀ i, 0 ≤ i < MAX_AGENTS → has_mail h (agent_at s i) = false
}.

(** Before the choice, the current agent has joined the queue with its saved
    frame. *)
Lemma ready_before h s c q t :
  0 ≤ h < SMP_MAX_HARTS → rr_ready h s c q →
  rq (before_pick h (Some t) s) h = q ++ [c]
  ∧ agent_at (before_pick h (Some t) s) c = runnable (upd.atf (Some t) (agent_at s c))
  ∧ ∀ j, 0 ≤ j → j ≠ c → agent_at (before_pick h (Some t) s) j = agent_at s j.
Proof.
  intros Hh [Hi Hcur Hst Hq Hc Hrun Htf Hm]. destruct (si_cur s Hi h c Hh Hcur) as [Hr Hhome].
  destruct (Htf c (list_elem_of_here _ _)) as [t0 Et].
  assert (trapframe_store (Some c) (Some t) s = upd_agent c (upd.atf (Some t)) s) as Es
    by (unfold trapframe_store; by rewrite Et).
  assert (agent_at (upd_agent c (upd.atf (Some t)) s) c = upd.atf (Some t) (agent_at s c)) as Ec
    by (apply agent_at_upd_eq; [apply (kw_agents s (si_wf s Hi))|done]).
  assert (sched_inv (upd_agent c (upd.atf (Some t)) s)) as Hi2 by by apply upd_agent_inv.
  unfold before_pick. rewrite Hcur, Es. unfold sched_release. rewrite Ec.
  rewrite decide_True by exact Hst. split; [|split].
  - rewrite make_runnable_rq by (try apply (si_wf _ Hi2); try apply (si_queues _ Hi2); done || lia).
    rewrite Ec. change (home_cpu (upd.atf (Some t) ?a)) with (home_cpu a). rewrite Hhome, rq_cpu_id by done.
    rewrite decide_True by done. change (rq (upd_agent c (upd.atf (Some t)) s) h) with (rq s h).
    by rewrite Hq, decide_False.
  - rewrite make_runnable_agent by (try apply (si_wf _ Hi2); done || lia). by rewrite decide_True, Ec.
  - intros j Hj Hne. rewrite make_runnable_agent by (try apply (si_wf _ Hi2); done). rewrite decide_False by done.
    rewrite agent_at_upd by (try apply (kw_agents s (si_wf s Hi)); done). by rewrite decide_False.
Qed.

Lemma queue_pick h s n q :
  sched_inv s → 0 ≤ h < SMP_MAX_HARTS → rq s h = n :: q →
  (∀ i, 0 ≤ i < MAX_AGENTS → has_mail h (agent_at s i) = false) →
  state (agent_at s n) = AGENT_RUNNABLE → running_cpu (agent_at s n) < 0 →
  pick_next h s = (Some n, s).
Proof.
  intros Hi Hh Hq Hm Hst Hrun. unfold pick_next.
  assert (find (λ i, has_mail h (agent_at s i)) agent_indices = None) as ->.
  { apply find_None. intros i. rewrite elem_of_indices. apply Hm. }
  assert (pick_from_runqueues h s = Some n) as ->; [|done].
  unfold pick_from_runqueues. test_false (h <? 0). test_false (SMP_MAX_HARTS <=? h). cbn [orb].
  rewrite Hq. cbn [find]. assert (0 ≤ n < MAX_AGENTS) as Hn.
  { apply (si_queues s Hi h Hh). rewrite Hq. apply list_elem_of_here. }
  assert (agent_get s n = Some n) as ->.
  { unfold agent_get. test_false (n <? 0). test_false (MAX_AGENTS <=? n). cbn [orb]. by rewrite decide_False by congruence. }
  unfold is_runnable. rewrite Hst. rewrite bool_decide_true by done. by test_true (running_cpu (agent_at s n) <? 0).
Qed.

(** One turn: the head of the queue runs, the current agent goes to its end. *)
Lemma turn h wait f t s c q n q' :
  0 ≤ h < SMP_MAX_HARTS → rr_ready h s c q → q ++ [c] = n :: q' →
  ∃ t' s', schedule_trap h wait (S f) (Some t) s = Ret (Some t', s') ∧ rr_ready h s' n q'.
Proof.
  intros Hh Hrd Eq. pose proof (ready_before h s c q t Hh Hrd) as (Hq2 & Hc2 & Ho2).
  destruct Hrd as [Hi Hcur Hst Hq Hc Hrun Htf Hm]. destruct (si_cur s Hi h c Hh Hcur) as [Hr Hhome].
  set (s2 := before_pick h (Some t) s) in *. assert (sched_inv s2) as Hi2 by by apply before_pick_inv.
  assert (queue_ok (n :: q')) as [Hnd Hrange] by (rewrite <- Eq, <- Hq2; by apply (si_queues s2 Hi2)).
  assert (∀ x, x ∈ n :: q' → state (agent_at s2 x) = AGENT_RUNNABLE ∧ running_cpu (agent_at s2 x) < 0
                             ∧ is_Some (atf (agent_at s2 x)) ∧ home_cpu (agent_at s2 x) = h) as Hrun2.
  { intros x Hx. pose proof (Hrange x Hx) as Hxr. assert (home_cpu (agent_at s2 x) = h) as Hhx.
    { apply (si_rq s2 Hi2); [done|]. by rewrite Hq2, Eq. }
    rewrite <- Eq in Hx. destruct (decide (x = c)) as [->|Hne]; [rewrite Hc2 in *; simpl in *; by eauto|].
    apply elem_of_app in Hx as [Hx|Hx%list_elem_of_singleton]; [|done]. rewrite Ho2 in * by (done || lia).
    destruct (Hrun x Hx). split; [done|]. split; [done|]. split; [|done]. by apply Htf, list_elem_of_further. }
  assert (∀ i, 0 ≤ i < MAX_AGENTS → has_mail h (agent_at s2 i) = false) as Hm2.
  { intros i Hir. unfold s2. rewrite before_pick_mail by (done || lia). by apply Hm. }
  destruct (Hrun2 n (list_elem_of_here _ _)) as (Hns & Hnr & [t' Hnt] & Hnh).
  assert (0 ≤ n < MAX_AGENTS) as Hn by apply Hrange, list_elem_of_here.
  pose proof (si_wf s2 Hi2) as Hw2. rewrite schedule_trap_S. fold s2.
  rewrite (queue_pick h s2 n q') by (done || by rewrite Hq2). unfold bind.
  rewrite switch_in_spec by done. rewrite Hnt. exists t', (switched h n s2). split; [done|].
  apply NoDup_cons in Hnd as [Hni Hnd]. constructor.
  - by apply switched_inv.
  - rewrite switched_current by done. by rewrite decide_True.
  - rewrite switched_agent by (done || lia). by rewrite decide_True.
  - rewrite switched_rq by (done || lia). rewrite Hnh, rq_cpu_id, decide_True by done. rewrite Hq2, Eq.
    cbn [remove_first]. by rewrite Z.eqb_refl.
  - done.
  - intros x Hx. assert (x ≠ n) by (by intros ->). pose proof (Hrange x (list_elem_of_further _ _ _ Hx)).
    rewrite switched_agent by (done || lia). rewrite decide_False by done.
    by destruct (Hrun2 x (list_elem_of_further _ _ _ Hx)) as (? & ? & _).
  - intros x Hx. pose proof (Hrange x Hx). rewrite switched_agent by (done || lia).
    destruct (Hrun2 x Hx) as (_ & _ & Ht & _). case_decide; [subst|]; done.
  - intros i Hir. rewrite switched_agent by (done || lia). case_decide; [subst|by apply Hm2].
    rewrite <- (Hm2 i Hir). unfold has_mail, sched_agent_has_inbox. by rewrite Hns.
Qed.

(** [k] agents in turn give up the hart, the [j]-th with frame [frames j]. *)
Fixpoint turns (h : Z) (wait : nat → kstate → kstate) (frames : nat → trapframe) (k : nat) (s : kstate)
    : outcome kstate :=
  match k with
  | O => Ret s
  | S k' => match schedule_trap h wait 1 (Some (frames k')) s with
            | Ret (_, s') => turns h wait frames k' s'
            | Undef => Undef
            | Halt => Halt
            end
  end.

(** [C9] Round robin: on a hart whose agents have no mail, with [c] running and the
    runnable agents [q] queued, the [k]-th scheduling decision switches to the
    [k]-th agent of [c :: q]: within one round every queued agent runs, in queue
    order, and no decision waits or fails. *)
Theorem round_robin h wait frames s c q k x :
  0 ≤ h < SMP_MAX_HARTS → rr_ready h s c q → (c :: q) !! k = Some x →
  ∃ s', turns h wait frames k s = Ret s' ∧ agent_current h s' = Some x
    ∧ state (agent_at s' x) = AGENT_RUNNING.
Proof.
  intros Hh. revert s c q x; induction k as [|k IH]; intros s c q x Hrd Hx.
  - cbn in Hx. injection Hx as <-. exists s. split; [done|]. split; apply Hrd.
  - cbn in Hx. destruct q as [|n q]; [done|].
    destruct (turn h wait 0 (frames k) s c (n :: q) n (q ++ [c]) Hh Hrd eq_refl) as (t' & s' & E & Hrd').
    cbn [turns]. rewrite E. apply (IH s' n (q ++ [c]) x Hrd'). rewrite app_comm_cons. by apply lookup_app_l_Some.
Qed.

End sched.

(** ** Example: agents 1, 2 and 3 on hart 0 *)

Definition demo_agent (i : Z) (st : agent_state) (cpu : Z) (box : msgbox) : agent :=
  mk_agent i [] st AGENT_PHASE_IDLE 0 (Some tf.zero) 0 box 0 0 0 0 0 0 0 cpu.

Definition demo_box : msgbox := (msgbox_push zero_box zero_msg).2.

(** Agent 1 runs, 2 and 3 are queued; agent 3 may have mail. *)
Definition demo_sched (box3 : msgbox) : kstate unit :=
  mk_kstate ([demo_agent 0 AGENT_UNUSED (-1) zero_box; demo_agent 1 AGENT_RUNNING 0 zero_box;
              demo_agent 2 AGENT_RUNNABLE (-1) zero_box; demo_agent 3 AGENT_RUNNABLE (-1) box3]
             ++ ((λ i, demo_agent i AGENT_UNUSED (-1) zero_box) <$> seqZ 4 8))
    3 0 true [Some 1; None; None; None] [[2; 3]; []; []; []] 4 [0; 0; 0; 0]
    (mk_vm ∅ 0 0 ∅ (mem_init 0)) zero_fs zero_quota zero_policy false tt [].

(** Case analysis on an index of a table. *)
Ltac each_index i :=
  match goal with
  | H : 0 ≤ i < MAX_AGENTS |- _ => unfold MAX_AGENTS in H;
      assert (i = 0 ∨ i = 1 ∨ i = 2 ∨ i = 3 ∨ i = 4 ∨ i = 5 ∨ i = 6 ∨ i = 7 ∨ i = 8 ∨ i = 9 ∨ i = 10 ∨ i = 11)
        by lia; clear H
  | H : 0 ≤ i < SMP_MAX_HARTS |- _ => unfold SMP_MAX_HARTS in H; assert (i = 0 ∨ i = 1 ∨ i = 2 ∨ i = 3) by lia; clear H
  end; destruct_or?; subst i.

Lemma demo_rq box h x : 0 ≤ h < SMP_MAX_HARTS → x ∈ rq (demo_sched box) h → h = 0 ∧ (x = 2 ∨ x = 3).
Proof.
  intros Hh Hx. each_index h; [change (x ∈ [2; 3]) in Hx|change (x ∈ @nil Z) in Hx..]; set_solver.
Qed.

Lemma demo_inv box : sched_inv (demo_sched box).
Proof.
  constructor.
  - constructor; try done. intros i Hi. by each_index i.
  - intros h Hh. split; [each_index h; apply (bool_decide_unpack _); by vm_compute|].
    intros x Hx. apply demo_rq in Hx as [_ [->| ->]]; done.
  - intros i Hi. by each_index i.
  - intros h x Hh Hx. by apply demo_rq in Hx as [-> [->| ->]].
  - intros h i Hh Hc. each_index h; vm_compute in Hc; by simplify_eq.
Qed.

Lemma demo_ready : rr_ready 0 (demo_sched zero_box) 1 [2; 3].
Proof.
  constructor; try done; [apply demo_inv|set_solver|..].
  - intros x Hx. rewrite !elem_of_cons in Hx. destruct_or?; subst; try done. by apply elem_of_nil in Hx.
  - intros x Hx. rewrite !elem_of_cons in Hx. destruct_or?; subst; try (by eexists). by apply elem_of_nil in Hx.
  - intros i Hi. by each_index i.
Qed.

Lemma one_hart_per_agent_witness :
  agent_current 1 (sched_notify_runnable (Some 2) (demo_sched zero_box)) ≠ Some 1.
Proof.
  intros H. destruct (one_hart_per_agent (demo_sched zero_box) (sched_notify_runnable (Some 2) (demo_sched zero_box)))
    as [H1 _]; [apply demo_inv|by apply rtc_once, step_notify|].
  discriminate (H1 0 1 1 ltac:(done) ltac:(done) eq_refl H).
Defined.

Lemma pick_next_complete_witness :
  ∃ i s', pick_next 0 (demo_sched zero_box) = (Some i, s') ∧ state (agent_at s' i) = AGENT_RUNNABLE.
Proof.
  destruct (pick_next_complete (demo_sched zero_box) 0 (demo_inv _)) as [(i & s' & E & _ & _ & _ & Hs)|[_ H]]; [done|..].
  - exists i, s'. by split.
  - exfalso. apply (H 2); [done|done|by left].
Defined.

Lemma mail_first_witness :
  ∃ t s', schedule_trap 0 (λ _ s, s) 1 None (demo_sched demo_box) = Ret (Some t, s') ∧ agent_current 0 s' = Some 3.
Proof.
  destruct (mail_first 0 (λ _ s, s) 0 None (demo_sched demo_box) 3 (demo_inv _)) as (t & s' & E & Hc & _);
    [done|done|done| |by eexists|by exists t, s'].
  intros j Hj. assert (j = 0 ∨ j = 1 ∨ j = 2) as H by lia. destruct_or!; by subst.
Defined.

Lemma round_robin_witness :
  ∃ s', turns 0 (λ _ s, s) (λ _, tf.zero) 2 (demo_sched zero_box) = Ret s' ∧ agent_current 0 s' = Some 3.
Proof.
  destruct (round_robin 0 (λ _ s, s) (λ _, tf.zero) (demo_sched zero_box) 1 [2; 3] 2 3)
    as (s' & E & Hc & _); [done|apply demo_ready|done|by exists s'].
Defined.
