(* ===== verification/Agent.v ===== *)
(** * Agents: creation, messages, heaps (kernel/agent.c)

    The operations behind the system calls, each as the kernel runs it on hart
    [hart] (the current agent is what [agent_current] gives there).  An agent
    argument is an index of the table, [None] where the code tests for null.
    User pointers are addresses; kernel strings are byte lists.  [kgp] is the
    kernel's global pointer register, which a new agent inherits. *)

From S2P Require Import Prelude Abi Ipc Ramfs Persist Quota Policy AgentDef Mem Vm VmTree VmProps Kernel Uaccess Sched.

Definition AGENT_WRITE_CHUNK : Z := 128.
Definition AGENT_NAME_SIZE : Z := 32.
Definition TRAPFRAME_SIZE : Z := 264.
Definition MSG_SIZE : Z := 8 + MSG_PAYLOAD_SIZE.

Definition SSTATUS_SPP : Z := Z.shiftl 1 8.
Definition SSTATUS_SPIE : Z := Z.shiftl 1 5.
Definition SSTATUS_SUM : Z := Z.shiftl 1 18.

(** The string a bounded copy leaves in a buffer of [size] bytes: the bytes
    before the first NUL, at most [size - 1] of them. *)
Fixpoint until_nul (n : nat) (s : list Z) : list Z :=
  match n, s with
  | S n', c :: s' => if c =? 0 then [] else c :: until_nul n' s'
  | _, _ => []
  end.

Definition strlcpy_local (src : list Z) (size : Z) : list Z := until_nul (Z.to_nat (size - 1)) src.

(** A message in memory. *)
Definition msg_bytes (m : agent_msg) : list Z := le32 (sender_id m) ++ le32 (mtype m) ++ payload m.

(** A payload of [text] in a cleared buffer. *)
Definition pad_payload (text : list Z) : list Z :=
  text ++ replicate (Z.to_nat MSG_PAYLOAD_SIZE - length text) 0.

Section agent.
Context {D : Type} `{BlockDevice D} {L : Layout} (kgp hart : Z).
Abbreviation kstate := (kstate D).

Definition agent_init : M kstate unit :=
  modify (λ s, with_agents (imap (λ i a,
      mk_agent (Z.of_nat i) [] AGENT_UNUSED AGENT_PHASE_IDLE 0 None 0 (msgbox_init (inbox a)) (exit_code a)
        (entry a) (pagetable a) (heap_base a) (heap_max_pages a) (heap_mapped a) 0 (-1)) (agents s)) s) ;;
  modify (agent_set_current hart None) ;;
  modify (with_count 0).

Definition agent_set_phase (p : agent_phase) : M kstate unit :=
  modify (λ s, match agent_current hart s with Some i => upd_agent i (upd.phase p) s | None => s end).

Definition agent_alloc_id (s : kstate) : Z :=
  default (-1) (find (λ i, match state (agent_at s i) with AGENT_UNUSED | AGENT_ZOMBIE => true | _ => false end)
                     (seqZ 1 (MAX_AGENTS - 1))).

(** ** Creation *)

Definition vm_kalloc (size : Z) : M vm Z :=
  λ v, let '(p, h) := kalloc size (kheap v) in Ret (p, with_heap h v).

Definition agent_arch_init_tf (t : trapframe) (ent user_sp : Z) : trapframe :=
  let t := tf.set tf.SEPC ent t in
  let t := tf.set tf.SP user_sp t in
  let t := tf.set tf.GP kgp t in
  let t := tf.set tf.SSTATUS (Z.lor SSTATUS_SPIE SSTATUS_SUM) t in
  tf.set tf.SSTATUS (Z.ldiff (tf.get tf.SSTATUS t) SSTATUS_SPP) t.

Definition agent_setup_stack (i ent : Z) : M kstate unit :=
  modify_agent i (λ a, upd.pagetable 0 (upd.atf None a)) ;;
  let! p := onkvm vm_kalloc_page in
  if p =? 0 then ret tt
  else
    let! stack := onkvm (vm_kalloc AGENT_STACK_SIZE) in
    if stack =? 0 then ret tt
    else
      let stack_pa := align_down 12 (u64 (stack + PAGE_SIZE - 1)) in
      let! aid := gets (λ s, id (agent_at s i)) in
      let stack_va := u64 (USER_STACK_BASE + u64 aid * USER_STACK_SLOT + PAGE_SIZE) in
      let user_sp := u64 (stack_va + AGENT_STACK_SIZE - 256) in
      let! pt := onkvm vm_create_agent_pt in
      modify_agent i (upd.pagetable pt) ;;
      if pt =? 0 then ret tt
      else
        let! rc := onkvm (vm_map_user_stack pt aid stack_pa AGENT_STACK_SIZE) in
        if negb (rc =? 0) then modify_agent i (upd.pagetable 0)
        else
          let! t := onkvm (vm_kalloc TRAPFRAME_SIZE) in
          if t =? 0 then ret tt
          else
            modify_agent i (upd.stack (u64 (stack_va + AGENT_STACK_SIZE))
              (agent_arch_init_tf tf.zero ent user_sp) ent
              (u64 (USER_HEAP_BASE + u64 aid * AGENT_HEAP_SIZE)) (AGENT_HEAP_SIZE / PAGE_SIZE)).

Definition agent_create (ent name caps : Z) : M kstate Z :=
  let! cur := gets (agent_current hart) in
  let! ok := gets (λ s, agent_has_cap s cur CAP_SPAWN) in
  if negb ok then ret EPERM
  else if (ent =? 0) || (name =? 0) then ret EINVAL
  else
    let! i := gets agent_alloc_id in
    if i <? 0 then ret ENOSPC
    else
      modify_agent i (upd.id i) ;;
      agent_setup_stack i ent ;;
      let! t := gets (λ s, atf (agent_at s i)) in
      match t with
      | None => ret ENOSPC
      | Some _ =>
          let! nlen := user_strnlen hart name (AGENT_NAME_SIZE - 1) in
          if nlen <? 0 then ret EFAULT
          else if nlen =? 0 then ret EINVAL
          else
            let! r := copy_from_user hart name (nlen + 1) in
            if r.1 <? 0 then ret EFAULT
            else
              let! ncpu := gets online_harts in
              let ncpu := if ncpu <? 1 then 1 else ncpu in
              modify_agent i (λ a,
                upd.inbox (msgbox_init (inbox a)) (upd.running_cpu (-1) (upd.home_cpu (i mod ncpu)
                  (upd.exit_code 0 (upd.phase AGENT_PHASE_IDLE (upd.state AGENT_RUNNABLE
                    (upd.caps caps (upd.name (strlcpy_local r.2 AGENT_NAME_SIZE) a)))))))) ;;
              modify (λ s, with_count (i32 (agent_count s + 1)) s) ;;
              modify (sched_notify_runnable (Some i)) ;;
              ret i
      end.

(** [setup] is the [agent_setup_stack] of the port that is built. *)
Definition agent_start_kernel (setup : Z → Z → M kstate unit) (persist : bool) (i ent : Z) : M kstate Z :=
  setup i ent ;;
  let! t := gets (λ s, atf (agent_at s i)) in
  match t with
  | None => ret ENOSPC
  | Some _ =>
      let base := foldr Z.lor 0 [CAP_LOG; CAP_MATH; CAP_SPAWN; CAP_SEND; CAP_RECV; CAP_TIME] in
      let cs := if persist then base else Z.lor base (Z.lor CAP_LLM CAP_FS) in
      modify_agent i (λ a, upd.running_cpu (-1) (upd.home_cpu 0 (upd.name (str "init") (upd.caps cs
        (upd.phase AGENT_PHASE_IDLE (upd.state AGENT_CREATED a)))))) ;;
      modify (λ s, with_count (i32 (agent_count s + 1)) s) ;;
      ret 0
  end.

Definition agent_start_service (setup : Z → Z → M kstate unit) (i ent : Z) (name : option (list Z)) (cs : Z)
  : M kstate Z :=
  setup i ent ;;
  let! t := gets (λ s, atf (agent_at s i)) in
  match t with
  | None => ret ENOSPC
  | Some _ =>
      modify_agent i (λ a, upd.exit_code 0 (upd.caps cs (upd.phase AGENT_PHASE_IDLE (upd.state AGENT_RUNNABLE a)))) ;;
      modify_agent i (λ a, match name with
                           | Some n => upd.name (strlcpy_local n AGENT_NAME_SIZE) a
                           | None => a
                           end) ;;
      modify_agent i (λ a, upd.inbox (msgbox_init (inbox a)) a) ;;
      modify (λ s, with_count (i32 (agent_count s + 1)) s) ;;
      modify (sched_notify_runnable (Some i)) ;;
      ret 0
  end.

(** ** Messages *)

(** [quota_ipc_allow] and [quota_ipc_charge] of an agent. *)
Definition ipc_allow (a : option Z) : M kstate Z :=
  gets (λ s, quota_ipc_allow (kquota s) ((λ i, id (agent_at s i)) <$> a)).
Definition ipc_charge (a : option Z) : M kstate unit :=
  modify (λ s, with_quota (quota_ipc_charge ((λ i, id (agent_at s i)) <$> a) (kquota s)) s).

(** Pushing into an agent's mailbox. *)
Definition push_inbox (target : Z) (m : agent_msg) : M kstate Z :=
  let! r := gets (λ s, msgbox_push (inbox (agent_at s target)) m) in
  modify_agent target (upd.inbox r.2) ;;
  ret r.1.

Definition agent_send (dst type payload : Z) : M kstate Z :=
  let! cur := gets (agent_current hart) in
  let! ok := gets (λ s, agent_has_cap s cur CAP_SEND) in
  match cur with
  | None => ret EPERM
  | Some c =>
      if negb ok then ret EPERM
      else if payload =? 0 then ret EINVAL
      else
        let! target := gets (λ s, agent_get s dst) in
        match target with
        | None => ret ENOENT
        | Some t =>
            let! rc := ipc_allow cur in
            if negb (rc =? 0) then ret rc
            else
              let! sender := gets (λ s, id (agent_at s c)) in
              let! len := user_strnlen hart payload (MSG_PAYLOAD_SIZE - 1) in
              if len <? 0 then ret EFAULT
              else if len =? 0 then ret EINVAL
              else
                let! r := copy_from_user hart payload len in
                if r.1 <? 0 then ret EFAULT
                else
                  let! rc := push_inbox t (mk_msg sender type (pad_payload r.2)) in
                  if negb (rc =? 0) then ret rc
                  else
                    ipc_charge cur ;;
                    modify (sched_notify_runnable (Some t)) ;;
                    ret 0
        end
  end.

Definition agent_send_kernel_nocheck (from : option Z) (dst type : Z) (payload : list Z) : M kstate Z :=
  match from with
  | None => ret EINVAL
  | Some f =>
      let! ok := gets (λ s, agent_has_cap s from CAP_SEND) in
      if negb ok then ret EPERM
      else
        let! target := gets (λ s, agent_get s dst) in
        match target with
        | None => ret ENOENT
        | Some t =>
            let! sender := gets (λ s, id (agent_at s f)) in
            let text := until_nul (Z.to_nat (MSG_PAYLOAD_SIZE - 1)) payload in
            if zlen text <=? 0 then ret EINVAL
            else
              let! rc := push_inbox t (mk_msg sender type (pad_payload text)) in
              if negb (rc =? 0) then ret rc
              else modify (sched_notify_runnable (Some t)) ;; ret 0
        end
  end.

Definition agent_send_kernel (from : option Z) (dst type : Z) (payload : list Z) : M kstate Z :=
  let! rc := ipc_allow from in
  if negb (rc =? 0) then ret rc
  else
    let! rc := agent_send_kernel_nocheck from dst type payload in
    (if rc =? 0 then ipc_charge from else ret tt) ;;
    ret rc.

Definition agent_recv (msg : Z) : M kstate Z :=
  let! cur := gets (agent_current hart) in
  let! ok := gets (λ s, agent_has_cap s cur CAP_RECV) in
  match cur with
  | None => ret EPERM
  | Some c =>
      if negb ok then ret EPERM
      else if msg =? 0 then ret EINVAL
      else
        let! box := gets (λ s, inbox (agent_at s c)) in
        if msgbox_empty box then agent_set_phase AGENT_PHASE_WAIT_IPC ;; ret EAGAIN
        else
          match msgbox_pop box with
          | (0, Some kmsg, box') =>
              modify_agent c (upd.inbox box') ;;
              let! rc := copy_to_user hart msg (msg_bytes kmsg) MSG_SIZE in
              if rc <? 0 then push_inbox c kmsg ;; ret EFAULT
              else agent_set_phase AGENT_PHASE_TURN ;; ret (mtype kmsg)
          | _ => ret EAGAIN
          end
  end.

Definition agent_compact_inbox (keep : Z) : M kstate Z :=
  let! cur := gets (agent_current hart) in
  let! ok := gets (λ s, agent_has_cap s cur CAP_RECV) in
  match cur with
  | None => ret EPERM
  | Some c =>
      if negb ok then ret EPERM
      else
        let! r := gets (λ s, msgbox_compact (inbox (agent_at s c)) keep) in
        modify_agent c (upd.inbox r.2) ;; ret r.1
  end.

Definition agent_get_phase : M kstate Z :=
  gets (λ s, match agent_current hart s with Some c => phase_num (phase (agent_at s c)) | None => EPERM end).

(** ** Ending *)

Definition agent_destroy (i : Z) : M kstate Z :=
  let! target := gets (λ s, agent_get s i) in
  match target with
  | None => ret ENOENT
  | Some t => modify_agent t (upd.state AGENT_ZOMBIE) ;; ret 0
  end.

Definition agent_exit (code : Z) : M kstate unit :=
  let! cur := gets (agent_current hart) in
  match cur with
  | None => ret tt
  | Some a => modify_agent a (λ a, upd.running_cpu (-1) (upd.state AGENT_ZOMBIE (upd.exit_code code a)))
  end.

(** ** Output, storage, heaps *)

Definition uart_put (l : list Z) : M kstate unit := modify (λ s, with_uart (uart_out s ++ l) s).

(** The loop over the chunks of the buffer; the fuel is their number. *)
Fixpoint write_chunks (fuel : nat) (buf len i : Z) : M kstate Z :=
  match fuel with
  | O => ret (i32 len)
  | S fuel' =>
      if negb (i <? len) then ret (i32 len)
      else
        let chunk := Z.min (len - i) AGENT_WRITE_CHUNK in
        let! r := copy_from_user hart (u64 (buf + i)) chunk in
        if r.1 <? 0 then ret EFAULT
        else uart_put r.2 ;; write_chunks fuel' buf len (i + AGENT_WRITE_CHUNK)
  end.

Definition agent_write (buf len : Z) : M kstate Z :=
  let! cur := gets (agent_current hart) in
  let! ok := gets (λ s, agent_has_cap s cur CAP_LOG) in
  if negb ok then ret EPERM
  else if (buf =? 0) || (len <=? 0) then ret EINVAL
  else write_chunks (Z.to_nat ((len + AGENT_WRITE_CHUNK - 1) / AGENT_WRITE_CHUNK)) buf len 0.

(** [junk] is what the kernel stack held where [persist_sync] builds a record. *)
Definition agent_sync (junk : list Z) : M kstate Z :=
  λ s, match persist_sync (blk_ok s) junk (kfs s, kdisk s) with
       | Ret (rc, (f, d)) => Ret (rc, with_disk d (with_fs f s))
       | Undef => Undef
       | Halt => Halt
       end.

Definition agent_get_heap_base : M kstate Z :=
  gets (λ s, match agent_current hart s with Some c => heap_base (agent_at s c) | None => EPERM end).

Definition agent_heap_map (page_off : Z) : M kstate Z :=
  let! cur := gets (agent_current hart) in
  match cur with
  | None => ret EPERM
  | Some c =>
      let! a := gets (λ s, agent_at s c) in
      if (page_off <? 0) || (heap_max_pages a <=? page_off) then ret EINVAL
      else
        let va := u64 (heap_base a + page_off * PAGE_SIZE) in
        let! rc := onagent c (vm_heap_map_page va) in
        if negb (rc =? 0) then ret ENOSPC else ret (i32 va)
  end.

Definition agent_heap_cow (dst_off src_off : Z) : M kstate Z :=
  let! cur := gets (agent_current hart) in
  match cur with
  | None => ret EPERM
  | Some c => onagent c (vm_heap_cow_alias dst_off src_off)
  end.

(** ** Quota messages (kernel/quota.c) *)

Fixpoint burn_loop (n : nat) (a : option Z) : M kstate Z :=
  match n with
  | O => ret 0
  | S n' =>
      let! rc := agent_send_kernel a DISPLAY_AGENT_ID MSG_RESULT (str "quota-burn") in
      if negb (rc =? 0) then ret rc else burn_loop n' a
  end.

Definition quota_burn_ipc (a : option Z) (count : Z) : M kstate Z :=
  match a with
  | None => ret EINVAL
  | Some _ => if count <=? 0 then ret EINVAL else burn_loop (Z.to_nat count) a
  end.

Definition quota_notify (a : option Z) (text : list Z) : M kstate Z :=
  match a with
  | None => ret EINVAL
  | Some _ => agent_send_kernel_nocheck a 1 MSG_RESULT text
  end.

End agent.

(** ** Lemmas *)

Lemma zlen_pad text : zlen text ≤ MSG_PAYLOAD_SIZE → zlen (pad_payload text) = MSG_PAYLOAD_SIZE.
Proof. intros. unfold pad_payload, zlen in *. rewrite length_app, length_replicate. klia. Qed.

Section proofs.
Context {D : Type} `{BlockDevice D} {L : Layout} {LL : LayoutLaws} (kgp hart : Z).
Abbreviation kstate := (kstate D).
Implicit Types s : kstate.

(** The tables and the mailboxes are well-formed. *)
Record agents_wf (s : kstate) : Prop := {
  aw_wf : kernel_wf s;
  aw_queues : queues_ok s;
  aw_box : ∀ i, 0 ≤ i < MAX_AGENTS → box_wf (inbox (agent_at s i));
  aw_quota : quota_wf (kquota s)
}.

Lemma agent_get_spec s i :
  agent_get s i = if decide (0 ≤ i < MAX_AGENTS ∧ state (agent_at s i) ≠ AGENT_UNUSED) then Some i else None.
Proof.
  unfold agent_get. destruct (Z.ltb_spec i 0), (Z.leb_spec MAX_AGENTS i); cbn [orb];
    try (rewrite decide_False; [done|lia]).
  destruct (decide (state (agent_at s i) = AGENT_UNUSED)); [rewrite decide_False; [done|by intros []]|].
  by rewrite decide_True.
Qed.

Lemma upd_agent_same s i f : f (agent_at s i) = agent_at s i → upd_agent i f s = s.
Proof.
  intros E. unfold upd_agent. assert (alter f (Z.to_nat i) (agents s) = agents s) as ->; [|by destruct s].
  apply list_eq. intros k. destruct (decide (k = Z.to_nat i)) as [->|Hne].
  - rewrite list_lookup_alter_eq. unfold agent_at in E. rewrite nth_lookup in E.
    by destruct (agents s !! Z.to_nat i) as [a|]; simpl in *; [rewrite E|].
  - by rewrite list_lookup_alter_ne.
Qed.

(** What a send does to the state once the message is accepted. *)
Definition sent (c t : Z) (box : msgbox) (s : kstate) : kstate :=
  let s1 := upd_agent t (upd.inbox box) s in
  sched_notify_runnable (Some t) (with_quota (quota_ipc_charge (Some c) (kquota s)) s1).

(** The message built from a user string. *)
Definition user_msg (c type : Z) (text : list Z) : agent_msg := mk_msg c type (pad_payload text).

(** The result of a send as a function of what the checks see. *)
Definition send_result (s : kstate) (c r dst type payload : Z) : Z * kstate :=
  if negb (has CAP_SEND (caps (agent_at s c))) then (EPERM, s)
  else if negb (bool_decide (0 ≤ dst < MAX_AGENTS ∧ state (agent_at s dst) ≠ AGENT_UNUSED)) then (ENOENT, s)
  else if QUOTA_IPC_MAX <=? quota_ipc_used (kquota s) (Some c) then (ENOSPC, s)
  else match user_string (kvm s) r payload (Z.to_nat (MSG_PAYLOAD_SIZE - 1)) with
       | None => (EFAULT, s)
       | Some [] => (EINVAL, s)
       | Some text =>
           let '(rc, box) := msgbox_push (inbox (agent_at s dst)) (user_msg c type text) in
           if negb (rc =? 0) then (rc, s) else (0, sent c dst box s)
       end.

Lemma msgbox_push_fail b m : (msgbox_push b m).1 ≠ 0 → msgbox_push b m = (ENOSPC, b).
Proof. unfold msgbox_push. repeat case_test; done. Qed.

Lemma upd_inbox_same a : upd.inbox (inbox a) a = a.
Proof. by destruct a. Qed.

Lemma agent_send_spec s c r dst type payload :
  runs hart s c r → kernel_wf s → 0 ≤ c < MAX_AGENTS →
  0 < payload → payload + MSG_PAYLOAD_SIZE ≤ USER_TOP →
  agent_send hart dst type payload s = Ret (send_result s c r dst type payload).
Proof.
  intros Hr Hw Hc Hp Ht. pose proof (ru_cur _ _ _ _ Hr) as Hcur. unfold agent_send, send_result, MSG_PAYLOAD_SIZE in *.
  rewrite bind_gets, Hcur, bind_gets. unfold agent_has_cap.
  destruct (has CAP_SEND (caps (agent_at s c))); cbn [negb]; [|done]. test_false (payload =? 0).
  rewrite bind_gets, agent_get_spec.
  destruct (decide (0 ≤ dst < MAX_AGENTS ∧ state (agent_at s dst) ≠ AGENT_UNUSED)) as [Hd|Hd];
    [rewrite bool_decide_true by done|by rewrite bool_decide_false]. cbn [negb].
  unfold ipc_allow. rewrite bind_gets. cbn [fmap option_fmap option_map]. rewrite (kw_id s Hw c Hc).
  unfold quota_ipc_allow, quota_ipc_max.
  destruct (QUOTA_IPC_MAX <=? quota_ipc_used (kquota s) (Some c)); [done|]. cbn [Z.eqb negb].
  rewrite bind_gets, (kw_id s Hw c Hc).
  rewrite (bind_ret _ _ s _ s (user_strnlen_spec hart s c r payload (224 - 1) Hr Hp ltac:(lia) ltac:(lia))).
  destruct (user_string (kvm s) r payload (Z.to_nat (224 - 1))) as [text|] eqn:Etext; [|done].
  pose proof (user_string_prefix _ _ _ _ _ Etext) as (Hb & Hl & _ & Hok). pose proof (zlen_nonneg text).
  test_false (zlen text <? 0). destruct text as [|ch text']; [done|]. set (text := ch :: text') in *.
  assert (0 < zlen text) by (unfold zlen, text; cbn [length]; lia). test_false (zlen text =? 0).
  assert (Z.to_nat (zlen text) = length text) as El by (unfold zlen; lia).
  erewrite bind_ret; [|apply (copy_from_user_spec hart s c r); [done|done|done|unfold zlen in *; lia]].
  rewrite El, Hok, <- Hb. cbn [fst snd]. test_false (zlen text <? 0).
  unfold push_inbox, user_msg. destruct (msgbox_push _ _) as [rc box] eqn:Ep.
  rewrite (bind_ret _ _ s rc (upd_agent dst (upd.inbox box) s)).
  2: { rewrite bind_gets, Ep. done. }
  destruct (rc =? 0) eqn:Erc; cbn [negb].
  - unfold ipc_charge, sent. rewrite !bind_modify. unfold ret. do 2 f_equal. f_equal.
    cbn [fmap option_fmap option_map]. rewrite agent_at_upd by (try apply (kw_agents s Hw); lia).
    assert (id (if decide (dst = c) then upd.inbox box (agent_at s dst) else agent_at s c) = c) as ->; [|done].
    case_decide; [subst; apply (kw_id s Hw c Hc)|apply (kw_id s Hw c Hc)].
  - bprop. pose proof (msgbox_push_fail (inbox (agent_at s dst)) (mk_msg c type (pad_payload text))) as Hf.
    rewrite Ep in Hf. cbn [fst] in Hf. specialize (Hf Erc). injection Hf as -> ->.
    unfold ret. do 2 f_equal. apply upd_agent_same, upd_inbox_same.
Qed.

Lemma with_quota_wf q s : kernel_wf s → kernel_wf (with_quota q s).
Proof. intros [A B C E F G]. by constructor. Qed.

Lemma notify_agent s t j :
  kernel_wf s → 0 ≤ t < MAX_AGENTS → 0 ≤ j →
  agent_at (sched_notify_runnable (Some t) s) j
  = if decide (t = j ∧ state (agent_at s t) ≠ AGENT_ZOMBIE) then runnable (agent_at s t) else agent_at s j.
Proof.
  intros Hw Ht Hj. unfold sched_notify_runnable. case_decide as Hz.
  - rewrite decide_False; [done|]. by intros [].
  - rewrite make_runnable_agent by done. destruct (decide (t = j)) as [->|Hne].
    + by rewrite decide_True.
    + rewrite decide_False; [done|]. by intros [].
Qed.

Lemma notify_queued s t :
  kernel_wf s → queues_ok s → 0 ≤ t < MAX_AGENTS → state (agent_at s t) ≠ AGENT_ZOMBIE →
  t ∈ rq (sched_notify_runnable (Some t) s) (rq_cpu (home_cpu (agent_at s t))).
Proof.
  intros Hw Hq Ht Hz. unfold sched_notify_runnable. rewrite decide_False by done.
  rewrite make_runnable_rq by (done || apply rq_cpu_range). rewrite decide_True by done.
  case_decide; [done|]. apply elem_of_app. right. by apply list_elem_of_singleton.
Qed.

Lemma notify_quota s t : kquota (sched_notify_runnable (Some t) s) = kquota s.
Proof.
  unfold sched_notify_runnable, make_runnable, sched_rq_add_locked. case_decide; [done|]. repeat case_test; done.
Qed.

Section sent.
Context (c t : Z) (box : msgbox) (s : kstate) (Hw : agents_wf s) (Ht : 0 ≤ t < MAX_AGENTS).

Let s1 := with_quota (quota_ipc_charge (Some c) (kquota s)) (upd_agent t (upd.inbox box) s).

Lemma sent_pre : kernel_wf s1 ∧ queues_ok s1
  ∧ ∀ j, 0 ≤ j → agent_at s1 j = if decide (t = j) then upd.inbox box (agent_at s t) else agent_at s j.
Proof using Hw Ht.
  split; [apply with_quota_wf, upd_agent_wf; [apply Hw|done|done]|]. split; [apply Hw|].
  intros j Hj. change (agent_at s1 j) with (agent_at (upd_agent t (upd.inbox box) s) j).
  apply agent_at_upd; [apply (kw_agents s (aw_wf s Hw))|done|done].
Qed.

Lemma sent_inbox j : 0 ≤ j → inbox (agent_at (sent c t box s) j) = if decide (t = j) then box else inbox (agent_at s j).
Proof using Hw Ht.
  intros Hj. destruct sent_pre as (Hw1 & _ & Ha). unfold sent. fold s1. rewrite notify_agent by done.
  rewrite !Ha by lia. rewrite (decide_True (P := t = t)) by done. destruct (decide (t = j)) as [->|Hne].
  - by case_decide.
  - rewrite decide_False; [done|]. by intros [].
Qed.

Lemma sent_wakes :
  state (agent_at s t) ≠ AGENT_ZOMBIE →
  state (agent_at (sent c t box s) t) = AGENT_RUNNABLE
  ∧ t ∈ rq (sent c t box s) (rq_cpu (home_cpu (agent_at s t))).
Proof using Hw Ht.
  intros Hz. destruct sent_pre as (Hw1 & Hq1 & Ha). pose proof (Ha t ltac:(lia)) as Hat. rewrite decide_True in Hat by done.
  unfold sent. fold s1. split.
  - rewrite notify_agent by (done || lia). rewrite decide_True; [done|]. by rewrite Hat.
  - pose proof (notify_queued s1 t Hw1 Hq1 Ht) as Hn. rewrite Hat in Hn. by apply Hn.
Qed.

Lemma sent_quota b :
  0 ≤ c < MAX_AGENTS → quota_ipc_used (kquota s) (Some c) < QUOTA_IPC_MAX →
  quota_ipc_used (kquota (sent c t box s)) (Some b)
  = quota_ipc_used (kquota s) (Some b) + if decide (c = b) then 1 else 0.
Proof using Hw.
  intros Hc Hq. unfold sent. rewrite notify_quota. cbn [kquota with_quota].
  apply quota_ipc_charge_used; [apply Hw|done|unfold QUOTA_IPC_MAX in Hq; lia].
Qed.

End sent.

(** A refusal: the result is an error and the state is the old one. *)
Local Ltac refused E := injection E as <- <-; split; [done|]; split; [split; [done|]|done].

(** [C4] Sending a message: for an agent running in its own address space, the
    system call returns 0 exactly when the agent holds CAP_SEND, the destination
    slot is in use, fewer than sixteen messages have been charged to the agent, the
    payload is a readable non-empty string (cut at 223 bytes) and the destination's
    mailbox has room.  It then appends exactly that message, with the sender's own
    number, to the destination's queue and to no other, charges one message, and
    makes the destination runnable and queued on its hart unless it has ended; any
    other result leaves the whole kernel state as it was. *)
Theorem agent_send_exact s c r dst type payload :
  runs hart s c r → agents_wf s → 0 ≤ c < MAX_AGENTS →
  0 < payload → payload + MSG_PAYLOAD_SIZE ≤ USER_TOP →
  let text := user_string (kvm s) r payload (Z.to_nat (MSG_PAYLOAD_SIZE - 1)) in
  let push := λ t, mb_push (abs (inbox (agent_at s dst))) (user_msg c type t) in
  ∃ rc s', agent_send hart dst type payload s = Ret (rc, s')
    ∧ (rc ≠ 0 → s' = s)
    ∧ (rc = 0 ↔ has CAP_SEND (caps (agent_at s c)) = true
                ∧ (0 ≤ dst < MAX_AGENTS ∧ state (agent_at s dst) ≠ AGENT_UNUSED)
                ∧ quota_ipc_used (kquota s) (Some c) < QUOTA_IPC_MAX
                ∧ ∃ t, text = Some t ∧ t ≠ [] ∧ (push t).1 = 0)
    ∧ (rc = 0 → ∀ t, text = Some t →
        abs (inbox (agent_at s' dst)) = (push t).2
        ∧ (∀ j, 0 ≤ j → j ≠ dst → inbox (agent_at s' j) = inbox (agent_at s j))
        ∧ (∀ b, quota_ipc_used (kquota s') (Some b)
                = quota_ipc_used (kquota s) (Some b) + if decide (c = b) then 1 else 0)
        ∧ (state (agent_at s dst) ≠ AGENT_ZOMBIE →
           state (agent_at s' dst) = AGENT_RUNNABLE
           ∧ dst ∈ rq s' (rq_cpu (home_cpu (agent_at s dst))))).
Proof.
  intros Hr Hw Hc Hp Ht text push. destruct (send_result s c r dst type payload) as [rc s'] eqn:E.
  exists rc, s'. split; [by rewrite (agent_send_spec s c r), E by (done || apply Hw)|].
  unfold send_result in E. fold text in E.
  destruct (has CAP_SEND (caps (agent_at s c))); cbn [negb] in E; [|refused E; by intros (? & _)].
  case_bool_decide as Hd; cbn [negb] in E; [|refused E; by intros (_ & ? & _)].
  destruct (Z.leb_spec QUOTA_IPC_MAX (quota_ipc_used (kquota s) (Some c))); [refused E; lia|].
  destruct text as [[|ch t']|] eqn:Etext;
    [refused E; by intros (_ & _ & _ & ? & [= <-] & ? & _)| |refused E; by intros (_ & _ & _ & ? & ? & _)].
  set (t := ch :: t') in *. destruct (user_string_prefix _ _ _ _ _ Etext) as (_ & Hl & _).
  assert (msg_wf (user_msg c type t)) as Hm by (apply zlen_pad; unfold zlen, MSG_PAYLOAD_SIZE in *; lia).
  destruct (msgbox_push_abs _ _ (aw_box s Hw dst (proj1 Hd)) Hm) as [_ Hpush].
  destruct (msgbox_push (inbox (agent_at s dst)) (user_msg c type t)) as [rc0 box]. cbn [fst snd] in Hpush.
  destruct (Z.eqb_spec rc0 0) as [->|Hne]; cbn [negb] in E; injection E as <- <-.
  - split; [done|]. split.
    { split; [|done]. intros _. split; [done|]. split; [done|]. split; [done|]. exists t.
      split; [done|]. split; [done|]. unfold push. by rewrite <- Hpush. }
    intros _ t0 [= <-]. split; [|split; [|split]].
    + rewrite sent_inbox by (apply Hw || lia || tauto). rewrite decide_True by done. unfold push. by rewrite <- Hpush.
    + intros j Hj Hne. rewrite sent_inbox by (done || tauto). by rewrite decide_False.
    + intros b. by apply sent_quota.
    + apply sent_wakes; [done|tauto].
  - split; [done|]. split; [|done]. split; [done|]. intros (_ & _ & _ & t0 & [= <-] & _ & Hz).
    unfold push in Hz. rewrite <- Hpush in Hz. done.
Qed.

(** ** Receiving *)

Lemma msgbox_empty_abs b : box_wf b → msgbox_empty b = true ↔ abs b = mk_mailbox [] [].
Proof.
  intros [Hn Hs]. pose proof (rw_count _ _ _ _ _ Hn). pose proof (rw_count _ _ _ _ _ Hs).
  unfold msgbox_empty, abs. split.
  - intros Hb. bprop. match goal with H : normal_count b = 0 |- _ => rewrite H end.
    match goal with H : steer_count b = 0 |- _ => rewrite H end. by rewrite !ring_0.
  - intros [= E1 E2]. apply (f_equal zlen) in E1, E2. rewrite zlen_ring in E1, E2 by lia.
    by rewrite E1, E2.
Qed.

Lemma runs_upd s c r i f :
  runs hart s c r → kernel_wf s → 0 ≤ c → 0 ≤ i < MAX_AGENTS → (∀ a, pagetable (f a) = pagetable a) →
  runs hart (upd_agent i f s) c r.
Proof.
  intros [H1 H2 H3 H4 H5 H6 H7] Hw Hc Hi Hf. constructor; try done.
  rewrite agent_at_upd by (try apply (kw_agents s Hw); done). case_decide; [|done]. by rewrite Hf; subst.
Qed.

Lemma zlen_msg_bytes m : msg_wf m → zlen (msg_bytes m) = MSG_SIZE.
Proof. intros Hm. unfold msg_bytes, MSG_SIZE. rewrite !zlen_app, Hm. done. Qed.

Lemma mb_pop_wf b m q : box_wf b → mb_pop (abs b) = (0, Some m, q) → msg_wf m.
Proof.
  intros [Hn Hs]. unfold mb_pop, abs. cbn [mb_steer mb_normal].
  pose proof (ring_msgs MSG_CAPACITY _ _ _ _ ltac:(done) Hn) as Fn. pose proof (ring_msgs MSG_STEER_CAPACITY _ _ _ _ ltac:(done) Hs) as Fs.
  destruct (ring MSG_STEER_CAPACITY _ _ _); [destruct (ring MSG_CAPACITY _ _ _); [done|]|];
    intros [= <- _]; [by inversion Fn|by inversion Fs].
Qed.

Lemma set_phase_state p s c :
  agent_current hart s = Some c → agent_set_phase hart p s = Ret (tt, upd_agent c (upd.phase p) s).
Proof. intros E. unfold agent_set_phase, modify. by rewrite E. Qed.

(** The mailbox is not empty: what the pop gives. *)
Lemma pop_some b : box_wf b → msgbox_empty b = false →
  ∃ m b', msgbox_pop b = (0, Some m, b') ∧ box_wf b' ∧ mb_pop (abs b) = (0, Some m, abs b') ∧ msg_wf m.
Proof.
  intros Hb He. apply not_true_iff_false in He. rewrite msgbox_empty_abs in He by done.
  destruct (msgbox_pop_abs b Hb) as [Hb' Hp]. destruct (msgbox_pop b) as [[rc o] b'] eqn:E. cbn [fst snd] in *.
  assert (∃ m q, mb_pop (abs b) = (0, Some m, q)) as (m & q & Eq).
  { unfold mb_pop. destruct (abs b) as [[|ms ss] [|mn ns]] eqn:Ea; try done; cbn; by eauto. }
  exists m, b'. pose proof Eq as Eq'. rewrite <- Hp in Eq'. injection Eq' as -> -> <-. split; [done|]. split; [done|].
  split; [by rewrite <- Hp|]. by apply (mb_pop_wf b m (abs b')).
Qed.

(** The whole call, with the mailbox [b'] left by the pop. *)
Lemma agent_recv_spec s c r msg :
  runs hart s c r → agents_wf s → 0 ≤ c < MAX_AGENTS → has CAP_RECV (caps (agent_at s c)) = true →
  0 < msg → msg + MSG_SIZE ≤ USER_TOP →
  let box := inbox (agent_at s c) in
  if msgbox_empty box then agent_recv hart msg s = Ret (EAGAIN, upd_agent c (upd.phase AGENT_PHASE_WAIT_IPC) s)
  else ∃ m b', msgbox_pop box = (0, Some m, b') ∧
    let s1 := upd_agent c (upd.inbox b') s in
    let w := user_write (pt_mem (kvm s)) r msg (msg_bytes m) (pmem (kvm s)) in
    agent_recv hart msg s
    = Ret (if range_ok (kvm s) r true msg (Z.to_nat MSG_SIZE)
           then (mtype m, upd_agent c (upd.phase AGENT_PHASE_TURN) (with_vm (with_pmem w (kvm s)) s1))
           else (EFAULT, upd_agent c (upd.inbox (msgbox_push b' m).2) s1)).
Proof.
  intros Hr Hw Hc Hcap Hm Ht box. pose proof (ru_cur _ _ _ _ Hr) as Hcur. pose proof (aw_wf s Hw) as Hk.
  unfold agent_recv. rewrite bind_gets, Hcur, bind_gets. unfold agent_has_cap. rewrite Hcap. cbn [negb].
  test_false (msg =? 0). rewrite bind_gets. fold box. destruct (msgbox_empty box) eqn:Hemp.
  { by rewrite (bind_ret _ _ _ _ _ (set_phase_state _ s c Hcur)). }
  destruct (pop_some box (aw_box s Hw c Hc) Hemp) as (m & b' & Ep & Hb' & _ & Hmw). exists m, b'. split; [done|].
  set (s1 := upd_agent c (upd.inbox b') s).
  set (w := user_write (pt_mem (kvm s)) r msg (msg_bytes m) (pmem (kvm s))). cbv zeta. rewrite Ep. unfold modify_agent. rewrite bind_modify. fold s1.
  assert (runs hart s1 c r) as Hr1 by (apply runs_upd; done || lia).
  assert (agent_at s1 c = upd.inbox b' (agent_at s c)) as Ec by (apply agent_at_upd_eq; [apply (kw_agents s Hk)|done]).
  pose proof (zlen_msg_bytes m Hmw) as Hz.
  assert (take (Z.to_nat MSG_SIZE) (msg_bytes m) = msg_bytes m) as Et by (apply take_ge; unfold zlen in Hz; lia).
  pose proof (copy_to_user_spec hart s1 c r msg (msg_bytes m) MSG_SIZE Hr1 Hm ltac:(rewrite Hz; done) Ht) as Ecp.
  rewrite Et in Ecp. change (kvm s1) with (kvm s) in Ecp. fold w in Ecp.
  destruct (range_ok (kvm s) r true msg (Z.to_nat MSG_SIZE)).
  - rewrite (bind_ret _ _ _ _ _ Ecp). test_false (MSG_SIZE <? 0).
    erewrite bind_ret; [done|]. apply set_phase_state. exact Hcur.
  - rewrite (bind_ret _ _ _ _ _ Ecp). test_true (EFAULT <? 0). unfold push_inbox, modify_agent, bind, gets, modify.
    rewrite Ec. cbn [inbox upd.inbox]. by destruct (msgbox_push b' m).
Qed.

(** [C5] Receiving a message, for an agent with CAP_RECV and a non-null buffer
    below the top of user space.  With an empty mailbox the call returns EAGAIN and
    only the agent's phase changes.  Otherwise it takes the oldest priority message,
    or else the oldest ordinary one: when the buffer is writable the message's type
    is returned, the message leaves the mailbox and the buffer (if it has no
    aliases) holds its bytes; when it is not, EFAULT is returned, memory is
    untouched, and the message is put back at the end of its queue, behind the
    messages that had arrived after it. *)
Theorem agent_recv_exact s c r msg :
  runs hart s c r → agents_wf s → 0 ≤ c < MAX_AGENTS → has CAP_RECV (caps (agent_at s c)) = true →
  0 < msg → msg + MSG_SIZE ≤ USER_TOP →
  match mb_pop (abs (inbox (agent_at s c))) with
  | (_, None, _) => agent_recv hart msg s = Ret (EAGAIN, upd_agent c (upd.phase AGENT_PHASE_WAIT_IPC) s)
  | (_, Some m, q) =>
      ∃ rc s', agent_recv hart msg s = Ret (rc, s')
        ∧ ((rc = mtype m ∧ (∀ x, msg ≤ x < msg + MSG_SIZE → accessible (kvm s) r true x)
            ∧ abs (inbox (agent_at s' c)) = q ∧ phase (agent_at s' c) = AGENT_PHASE_TURN
            ∧ ((∀ x y, msg ≤ x < msg + MSG_SIZE → msg ≤ y < msg + MSG_SIZE →
                  user_pa (pt_mem (kvm s)) r x = user_pa (pt_mem (kvm s)) r y → x = y) →
               user_bytes (kvm s') r msg (Z.to_nat MSG_SIZE) = msg_bytes m))
           ∨ (rc = EFAULT ∧ (∃ x, msg ≤ x < msg + MSG_SIZE ∧ ¬ accessible (kvm s) r true x)
              ∧ kvm s' = kvm s ∧ abs (inbox (agent_at s' c)) = (mb_push q m).2))
  end.
Proof.
  intros Hr Hw Hc Hcap Hm Ht. pose proof (agent_recv_spec s c r msg Hr Hw Hc Hcap Hm Ht) as Hs. cbn zeta in Hs.
  pose proof (aw_box s Hw c Hc) as Hb. pose proof (kw_agents s (aw_wf s Hw)) as Hl.
  destruct (msgbox_empty (inbox (agent_at s c))) eqn:He.
  { apply msgbox_empty_abs in He; [|done]. by rewrite He. }
  destruct Hs as (m & b' & Ep & Hs). destruct (pop_some _ Hb He) as (m' & b'' & Ep' & Hb' & Hpop & Hmw).
  rewrite Ep in Ep'. injection Ep' as <- <-. rewrite Hpop, Hs. eexists _, _. split; [by rewrite <- surjective_pairing|].
  assert (zlen (agents (upd_agent c (upd.inbox b') s)) = MAX_AGENTS) as Hl1 by by rewrite zlen_upd_agent.
  destruct (range_ok (kvm s) r true msg (Z.to_nat MSG_SIZE)) eqn:Hok; cbn [fst snd]; [left|right].
  - split; [done|]. split; [exact (proj1 (range_ok_accessible _ _ _ _ _) Hok)|].
    rewrite agent_at_upd_eq by done. change (agent_at (with_vm ?v ?x)) with (agent_at x).
    rewrite agent_at_upd_eq by done. split; [done|]. split; [done|]. intros Hinj.
    pose proof (zlen_msg_bytes m Hmw) as Hz. change (kvm (upd_agent _ _ (with_vm ?v _))) with v.
    replace (Z.to_nat MSG_SIZE) with (length (msg_bytes m)) in * by (unfold zlen in Hz; lia).
    apply user_write_read; [done|]. by rewrite Hz.
  - split; [done|]. split; [exact (range_not_ok _ _ _ _ _ Hok)|]. split; [done|].
    rewrite agent_at_upd_eq by done. cbn [inbox upd.inbox].
    destruct (msgbox_push_abs b' m Hb' Hmw) as [_ Hpush]. by rewrite <- Hpush.
Qed.

End proofs.

(** ** Example: agent 1 on hart 0 with one heap page *)

Definition idle_agent (i : Z) : agent :=
  mk_agent i [] AGENT_RUNNABLE AGENT_PHASE_IDLE 0 (Some tf.zero) 0 zero_box 0 0 0 0 0 0 0 (-1).

Definition talker : agent :=
  mk_agent 1 [] AGENT_RUNNING AGENT_PHASE_TURN 0 (Some tf.zero) (Z.lor CAP_SEND CAP_RECV) demo_box 0 0 root_table
    heap1 16 1 0 0.

Definition demo_kernel (v : vm) : kstate unit :=
  mk_kstate (<[1%nat := talker]> (idle_agent <$> seqZ 0 MAX_AGENTS)) 12 0 true [Some 1; None; None; None]
    [[]; []; []; []] 1 [root_table; root_table; root_table; root_table] v zero_fs zero_quota zero_policy false tt [].

Lemma demo_kernel_wf v : agents_wf (demo_kernel v).
Proof.
  constructor.
  - constructor; try done. intros i Hi. by each_index i.
  - intros h Hh. each_index h; (split; [apply (bool_decide_unpack _); by vm_compute|]); intros x Hx;
      change (x ∈ @nil Z) in Hx; by apply elem_of_nil in Hx.
  - assert (box_wf demo_box) by (by apply msgbox_push_abs; [apply zero_box_wf|]).
    intros i Hi. each_index i; try apply zero_box_wf; done.
  - apply (quota_init_wf zero_quota).
Qed.

Lemma demo_kernel_runs v :
  vm_wf v → root_wf v root_table →
  (∀ va, xlate (pt_mem v) root_table va
         = if decide (same_page heap1 va) then Some (pte_make page1 (map_flags rw_user)) else None) →
  runs 0 (demo_kernel v) 1 root_table.
Proof.
  intros Hw Ht Hx. constructor; try done. intros va e. cbn [kvm demo_kernel]. rewrite Hx.
  case_decide; [|done]. intros [= <-]. done.
Qed.

Lemma agent_send_exact_witness :
  ∃ v rc s', vm_map_page root_table heap1 page1 rw_user boot_vm = Ret (0, v)
    ∧ agent_send 0 3 7 heap1 (demo_kernel v) = Ret (rc, s') ∧ (rc ≠ 0 → s' = demo_kernel v).
Proof.
  destruct one_page as (v & E & Hw & Hr & _ & Hx).
  destruct (agent_send_exact 0 (demo_kernel v) 1 root_table 3 7 heap1 (demo_kernel_runs v Hw Hr Hx) (demo_kernel_wf v))
    as (rc & s' & Es & Hne & _); [done|done|done|].
  exists v, rc, s'. split; [exact E|]. split; [exact Es|exact Hne].
Defined.

Lemma agent_recv_exact_witness :
  ∃ v rc s', vm_map_page root_table heap1 page1 rw_user boot_vm = Ret (0, v)
    ∧ agent_recv 0 heap1 (demo_kernel v) = Ret (rc, s') ∧ (rc = 0 ∨ rc = EFAULT).
Proof.
  destruct one_page as (v & E & Hw & Hr & _ & Hx).
  pose proof (agent_recv_exact 0 (demo_kernel v) 1 root_table heap1 (demo_kernel_runs v Hw Hr Hx) (demo_kernel_wf v)
    ltac:(done) ltac:(done) ltac:(done) ltac:(done)) as H.
  change (mb_pop (abs (inbox (agent_at (demo_kernel v) 1)))) with (0, Some zero_msg, mk_mailbox [] []) in H.
  cbv iota in H. destruct H as (rc & s' & Es & [(-> & _)|(-> & _)]); eexists v, _, s'; (split; [exact E|]).
  - split; [exact Es|by left].
  - split; [exact Es|by right].
Defined.
