(* ===== verification/Tool.v ===== *)
(** * The tool gateway (kernel/tool.c)

    Every privileged effect an agent can ask for goes through [tool_dispatch]:
    quota, policy, capability, the tool's own check, the tool, and an audit
    record.  The tools over the kernel's own components are defined here.  The
    class [Devices] stands for the drivers and network services behind the other
    tools; the time register and the characters typed at the console are inputs
    too.

    An agent is its index; a [long] argument used as a pointer is taken modulo
    2^64.  A path or text copied from user memory is the string before its first
    NUL; a buffer that was filled without a NUL is reported as undefined, since the
    code goes on to read past its end.  Messages printed with [kprintf] are not
    modelled. *)

From S2P Require Import Prelude Abi Ipc Ramfs Persist Paths Quota Tenant Namespace AuditLog Session Policy.
From S2P Require Import AgentDef Mem Vm VmTree VmProps Kernel Uaccess Sched Agent.

Definition PATH_BUF : Z := RAMFS_PATH_MAX.
Definition IO_BUF : Z := 256.
Definition IO_MAX : Z := RAMFS_FILE_SIZE.
Definition TEXT_BUF : Z := 128.
Definition HOST_BUF : Z := 64.
Definition CONSOLE_MAX_LINE : Z := 200.
Definition SMP_TOOL_ONLINE : Z := 0.
Definition SMP_TOOL_TICKS : Z := 1.
Definition SMP_TOOL_HART : Z := 2.

(** Drivers and services behind the gateway.  A run function takes the agent and
    the three arguments. *)
Class Devices (D : Type) := {
  time_csr : kstate D → Z;
  smp_hart_ticks : kstate D → Z → Z;
  uart_poll_char : M (kstate D) (option Z);
  uart_getline : Z → M (kstate D) (Z * list Z);
  agent_llm_query : Z → Z → Z → M (kstate D) Z;
  agent_load_from_path : Z → Z → Z → M (kstate D) Z;
  run_http : Z → Z → Z → Z → M (kstate D) Z;
  run_display : Z → Z → Z → Z → M (kstate D) Z;
  run_input : Z → Z → Z → Z → M (kstate D) Z;
  run_ota : Z → Z → Z → Z → M (kstate D) Z;
  run_catalog : Z → Z → Z → Z → M (kstate D) Z;
  run_fleet : Z → Z → Z → Z → M (kstate D) Z;
  run_remote : Z → Z → Z → Z → M (kstate D) Z;
  run_mesh : Z → Z → Z → Z → M (kstate D) Z
}.

(** ** Paths *)

Definition is_audit_path (path : list Z) : bool := cmatch path 1 (str "audit/").
Definition is_session_path (path : list Z) : bool := cmatch path 1 (str "session/").
Definition is_agent_path (path : list Z) : bool := cmatch path 1 (str "agent/").

(** The number after "/agent/" and the test that it is the agent's own. *)
Definition own_agent_path (aid : Z) (path : list Z) : Z :=
  let '(x, rest) := scan_int 0 (drop 7 path) in
  if negb (cget rest 0 =? chr "/") then EINVAL else if x =? aid then 0 else EPERM.

Definition storage_path_ok (path : list Z) (write : bool) : Z :=
  if negb (cget path 0 =? chr "/") then EINVAL
  else if is_audit_path path then EPERM
  else if namespace_is_path path then EPERM
  else if is_sys_path path then (if write then EPERM else 0)
  else if is_agent_path path then 0
  else if is_session_path path then 0
  else EPERM.

(** The decisions of [policy_fs_read] and [policy_fs_write] on a path; [svc] is
    whether the agent has CAP_SVC_STORAGE. *)
Definition fs_read_policy (svc : bool) (aid : Z) (path : list Z) : Z :=
  if is_audit_path path then (if audit_path_ok (Some aid) path then 0 else EPERM)
  else if namespace_is_path path then (if namespace_path_ok (Some aid) path then 0 else EPERM)
  else if svc then storage_path_ok path false
  else if negb (cget path 0 =? chr "/") then EINVAL
  else if is_sys_path path then 0
  else if is_session_path path then (if tenant_session_path_ok (Some aid) path then 0 else EPERM)
  else if is_agent_path path then own_agent_path aid path
  else EPERM.

Definition fs_write_policy (svc : bool) (aid : Z) (path : list Z) : Z :=
  if is_audit_path path then EPERM
  else if namespace_is_path path then (if namespace_path_ok (Some aid) path then 0 else EPERM)
  else if svc then storage_path_ok path true
  else if is_sys_path path then EPERM
  else if is_agent_path path then own_agent_path aid path
  else EPERM.

(** ** The audit line *)

(** Appending characters to a buffer of [cap] bytes whose last stays free. *)
Fixpoint append_chars (cap : Z) (buf cs : list Z) : option (list Z) :=
  match cs with
  | [] => Some buf
  | c :: cs' => if cap - 1 <=? zlen buf then None else append_chars cap (buf ++ [c]) cs'
  end.

(** [tmp] holds twelve digits, more than any [unsigned int] has. *)
Definition append_int (buf : list Z) (cap val : Z) : option (list Z) :=
  let n := u32 (if val <? 0 then - val else val) in
  buf ← (if val <? 0 then append_chars cap buf [chr "-"] else Some buf);
  append_chars cap buf (if n =? 0 then [chr "0"] else rev (take 12 (digits_rev dec_fuel n))).

Definition audit_line (tool rc : Z) : option (list Z) :=
  l ← append_int (str "tool=") 32 tool;
  l ← append_int (l ++ str " rc=") 32 rc;
  Some (l ++ [10]).

(** The record of a call; a full log is compacted first. *)
Definition audit_log (a : option Z) (tool rc : Z) : M ramfs unit :=
  match audit_line tool rc with
  | None => ret tt
  | Some line =>
      let! wrc := audit_write a line (zlen line) in
      if wrc =? ENOSPC then audit_compact a 8 ;; audit_write a line (zlen line) ;; ret tt else ret tt
  end.

Section tool.
Context {D : Type} `{BlockDevice D} `{!Devices D} {L : Layout} (hart : Z).
Abbreviation kstate := (kstate D).

Definition aid (i : Z) (s : kstate) : option Z := Some (id (agent_at s i)).

(** An operation of a component that takes the agent. *)
Definition fs_op {A} (i : Z) (m : option Z → M ramfs A) : M kstate A :=
  let! a := gets (aid i) in onfs (m a).

Definition tool_audit_log (i tool rc : Z) : M kstate unit := fs_op i (λ a, audit_log a tool rc).

(** ** Strings from user memory *)

(** [copy_from_user(buf, ptr, len + 1)], nothing when it fails. *)
Definition copy_text (ptr len : Z) : M kstate (option (list Z)) :=
  let! r := copy_from_user hart (u64 ptr) (len + 1) in
  if r.1 <? 0 then ret None
  else let! t := orundef (cstr_of r.2) in ret (Some t).

(** The result and the path. *)
Definition read_path_from_user (arg0 : Z) : M kstate (Z * list Z) :=
  let! len := user_strnlen hart (u64 arg0) (PATH_BUF - 1) in
  if len <? 0 then ret (EFAULT, [])
  else if (len <=? 0) || (PATH_BUF <=? len) then ret (EINVAL, [])
  else
    let! t := copy_text arg0 len in
    match t with None => ret (EFAULT, []) | Some path => ret (0, path) end.

(** The sequence shared by the tools that take a text of at most [size - 1]
    bytes: its length, the copy, and the operation. *)
Definition with_text (arg size : Z) (nonempty : bool) (k : list Z → M kstate Z) : M kstate Z :=
  let! len := user_strnlen hart (u64 arg) (size - 1) in
  if len <? 0 then ret EFAULT
  else if nonempty && (len <=? 0) then ret EINVAL
  else
    let! t := copy_text arg len in
    match t with None => ret EFAULT | Some text => k text end.

(** ** Checks *)

Definition policy_add (i arg0 arg1 arg2 : Z) : M kstate Z :=
  ret (if (arg0 <? -1000000) || (1000000 <? arg0) || (arg1 <? -1000000) || (1000000 <? arg1) then EINVAL else 0).

Definition policy_fs_read (i arg0 arg1 arg2 : Z) : M kstate Z :=
  let! r := read_path_from_user arg0 in
  if negb (r.1 =? 0) then ret EINVAL
  else gets (λ s, fs_read_policy (agent_has_cap s (Some i) CAP_SVC_STORAGE) (id (agent_at s i)) r.2).

Definition policy_fs_write (i arg0 arg1 arg2 : Z) : M kstate Z :=
  let! r := read_path_from_user arg0 in
  if negb (r.1 =? 0) then ret EINVAL
  else gets (λ s, fs_write_policy (agent_has_cap s (Some i) CAP_SVC_STORAGE) (id (agent_at s i)) r.2).

Definition policy_llm (i arg0 arg1 arg2 : Z) : M kstate Z :=
  ret (if (arg0 =? 0) || (arg1 =? 0) || (arg2 <=? 0) then EINVAL else 0).

Definition policy_session (i arg0 arg1 arg2 : Z) : M kstate Z := ret (if arg0 =? 0 then EINVAL else 0).

Definition policy_gpio (i arg0 arg1 arg2 : Z) : M kstate Z :=
  ret (if (arg0 <? 0) || (63 <? arg0) then EINVAL
       else if negb (arg1 =? 0) && negb (arg1 =? 1) then EINVAL else 0).

Definition policy_http (i arg0 arg1 arg2 : Z) : M kstate Z :=
  ret (if (arg0 =? 0) || (arg1 =? 0) || (arg2 <=? 0) then EINVAL else 0).

Definition policy_display (i arg0 arg1 arg2 : Z) : M kstate Z := ret 0.
Definition policy_input (i arg0 arg1 arg2 : Z) : M kstate Z := ret 0.
Definition policy_console (i arg0 arg1 arg2 : Z) : M kstate Z := ret 0.

(** ** Tools *)

Definition run_add (i arg0 arg1 arg2 : Z) : M kstate Z := ret (i32 (arg0 + arg1)).
Definition run_log (i arg0 arg1 arg2 : Z) : M kstate Z := ret 0.
Definition run_gpio (i arg0 arg1 arg2 : Z) : M kstate Z := ret (i32 arg1).

(** The size of the buffer for [len] bytes: the stack buffer, or a heap block
    (0 when the heap is exhausted). *)
Definition io_buffer (len : Z) : M kstate Z :=
  if IO_BUF <? len
  then let! p := onkvm (vm_kalloc len) in ret (if p =? 0 then 0 else align_down 4 (len + 15))
  else ret IO_BUF.

Definition run_read (i arg0 arg1 arg2 : Z) : M kstate Z :=
  let len := i32 arg2 in
  let! p := read_path_from_user arg0 in
  if negb (p.1 =? 0) then ret EINVAL
  else if (len <=? 0) || (IO_MAX <? len) then ret EINVAL
  else
    let! cap := io_buffer len in
    if cap =? 0 then ret ENOSPC
    else
      let! r := gets (λ s, ramfs_read (kfs s) p.2 0 len) in
      if r.1 <? 0 then ret r.1
      else
        let! rc := copy_to_user hart (u64 arg1) r.2 r.1 in
        if rc <? 0 then ret EFAULT
        else if cap <=? r.1 then undef  (* kbuf[rc] = 0 outside the buffer *)
        else ret r.1.

Definition run_write (i arg0 arg1 arg2 : Z) : M kstate Z :=
  let len := i32 arg2 in
  let! p := read_path_from_user arg0 in
  if negb (p.1 =? 0) then ret EINVAL
  else if (len <=? 0) || (IO_MAX <? len) then ret EINVAL
  else
    let! cap := io_buffer len in
    if cap =? 0 then ret ENOSPC
    else
      let! r := copy_from_user hart (u64 arg1) len in
      if r.1 <? 0 then ret EFAULT
      else
        let! rc := fs_op i (λ a, quota_fs_allow_new a p.2) in
        if negb (rc =? 0) then ret rc
        else onfs (ramfs_write p.2 0 r.2 len).

Definition le64 (n : Z) : list Z := le32 n ++ le32 (n / 4294967296).

Definition run_time (i arg0 arg1 arg2 : Z) : M kstate Z :=
  let! t := gets time_csr in
  let! rc := if negb (arg0 =? 0) then copy_to_user hart (u64 arg0) (le64 t) 8 else ret 0 in
  if rc <? 0 then ret EFAULT else ret (Z.land t 0x7fffffff).

Definition run_llm (i arg0 arg1 arg2 : Z) : M kstate Z := agent_llm_query arg0 arg1 (i32 arg2).

Definition run_session_append (i arg0 arg1 arg2 : Z) : M kstate Z :=
  with_text arg0 TEXT_BUF true (λ text, fs_op i (λ a, session_append a text)).

Definition run_session_tail (i arg0 arg1 arg2 : Z) : M kstate Z :=
  let buflen := i32 arg1 in
  if (arg0 =? 0) || (buflen <=? 0) || (TEXT_BUF <? buflen) then ret EINVAL
  else
    let! r := fs_op i (λ a, session_tail a buflen) in
    if r.1 <? 0 then ret r.1
    else
      let! rc := copy_to_user hart (u64 arg0) (r.2 ++ [0]) (r.1 + 1) in
      if rc <? 0 then ret EFAULT else ret r.1.

Definition run_session_read (i arg0 arg1 arg2 : Z) : M kstate Z :=
  let buflen := i32 arg1 in
  if (arg0 =? 0) || (buflen <=? 0) || (RAMFS_FILE_SIZE <? buflen) then ret EINVAL
  else
    let! r := fs_op i (λ a, session_read a buflen (i32 arg2)) in
    if r.1 <? 0 then ret r.1
    else
      let! rc := copy_to_user hart (u64 arg0) (r.2 ++ [0]) (r.1 + 1) in
      if rc <? 0 then ret EFAULT else ret r.1.

Definition run_session_compact (i arg0 arg1 arg2 : Z) : M kstate Z :=
  let! a := gets (aid i) in
  zoom (λ s, (kfs s, inbox (agent_at s i))) (λ p s, upd_agent i (upd.inbox p.2) (with_fs p.1 s))
    (session_compact a (i32 arg0)).

Definition run_console (i arg0 arg1 arg2 : Z) : M kstate Z :=
  let cmd := i32 arg0 in
  let put ptr len :=
    let! t := copy_text ptr len in
    match t with None => ret EFAULT | Some text => uart_put text ;; ret 0 end in
  if cmd =? CONSOLE_CMD_READ_CHAR then let! c := uart_poll_char in ret (default 0 c)
  else if cmd =? CONSOLE_CMD_GETLINE then
    if (arg1 =? 0) || (arg2 <=? 0) then ret EINVAL
    else
      let! r := uart_getline (if arg2 <? CONSOLE_MAX_LINE + 4 then i32 arg2 else CONSOLE_MAX_LINE + 4) in
      if r.1 <? 0 then ret r.1
      else
        let! rc := copy_to_user hart (u64 arg1) (r.2 ++ [0]) (r.1 + 1) in
        if rc <? 0 then ret EFAULT else ret r.1
  else if cmd =? CONSOLE_CMD_PUTS then
    if arg1 =? 0 then ret EINVAL
    else
      let! len := user_strnlen hart (u64 arg1) CONSOLE_MAX_LINE in
      if len <=? 0 then ret EINVAL else put arg1 len
  else if cmd =? CONSOLE_CMD_PROMPT then
    let! len := if arg1 =? 0 then ret 0 else user_strnlen hart (u64 arg1) 63 in
    if 0 <? len then put arg1 len else uart_put (str "agentos> ") ;; ret 0
  else ret EINVAL.

Definition run_smp (i arg0 arg1 arg2 : Z) : M kstate Z :=
  let cmd := i32 arg0 in
  if cmd =? SMP_TOOL_ONLINE then gets online_harts
  else if cmd =? SMP_TOOL_TICKS then gets (λ s, i32 (smp_hart_ticks s (i32 arg1)))
  else if cmd =? SMP_TOOL_HART then ret hart
  else ret EINVAL.

Definition run_audit (i arg0 arg1 arg2 : Z) : M kstate Z :=
  let cmd := i32 arg0 in
  if cmd =? AUDIT_CMD_STATUS then fs_op i audit_usage
  else if cmd =? AUDIT_CMD_TAIL then fs_op i (λ a, audit_tail a (i32 arg1))
  else if cmd =? AUDIT_CMD_PROBE then fs_op i (λ a, audit_probe_cross_read a (i32 arg1))
  else if cmd =? AUDIT_CMD_COMPACT then fs_op i (λ a, audit_compact a (i32 arg1))
  else ret EINVAL.

Definition run_namespace (i arg0 arg1 arg2 : Z) : M kstate Z :=
  let cmd := i32 arg0 in
  if cmd =? NS_CMD_STATUS then fs_op i namespace_status
  else if cmd =? NS_CMD_PROBE then fs_op i (λ a, namespace_probe_cross_read a (i32 arg1))
  else if cmd =? NS_CMD_WRITE then
    let! len := user_strnlen hart (u64 arg1) (TEXT_BUF - 1) in
    if len <? 0 then ret EFAULT
    else if len <=? 0 then ret EINVAL
    else
      let! r := copy_from_user hart (u64 arg1) (len + 1) in
      if r.1 <? 0 then ret EFAULT else fs_op i (λ a, namespace_write_secret a r.2 len)
  else ret EINVAL.

Definition run_quota (i arg0 arg1 arg2 : Z) : M kstate Z :=
  let cmd := i32 arg0 in
  if cmd =? QUOTA_CMD_STATUS then let! q := gets kquota in fs_op i (quota_status q)
  else if cmd =? QUOTA_CMD_BURN then quota_burn_ipc (Some i) (i32 arg1)
  else if cmd =? QUOTA_CMD_PROBE then gets (λ s, quota_probe_ipc (kquota s) (aid i s))
  else if cmd =? QUOTA_CMD_NOTIFY then with_text arg1 TEXT_BUF true (quota_notify (Some i))
  else ret EINVAL.

(** An operation of the policy component. *)
Definition policy_op {A} (f : policy → A * policy) : M kstate A :=
  act (λ s, let '(x, p) := f (kpolicy s) in (x, with_policy p s)).

Definition load_policy (path : list Z) : M kstate Z :=
  zoom (λ s, (kpolicy s, kfs s)) (λ p s, with_fs p.2 (with_policy p.1 s)) (policy_load path).

Definition run_policy (i arg0 arg1 arg2 : Z) : M kstate Z :=
  let cmd := i32 arg0 in
  if cmd =? POLICY_CMD_STATUS then gets (λ s, policy_status (kpolicy s))
  else if cmd =? POLICY_CMD_LOAD then
    if arg1 =? 0 then load_policy [] else with_text arg1 TEXT_BUF false load_policy
  else if cmd =? POLICY_CMD_PROBE then gets (λ s, policy_probe_tool (i32 arg1) (kpolicy s))
  else if cmd =? POLICY_CMD_DENY then policy_op (policy_deny_tool (i32 arg1))
  else if cmd =? POLICY_CMD_ALLOW then policy_op (policy_allow_tool (i32 arg1))
  else if cmd =? POLICY_CMD_NET_ALLOW then
    if arg1 =? 0 then ret EINVAL
    else with_text arg1 HOST_BUF false (λ host, policy_op (policy_net_add_allow host (u16 arg2)))
  else if cmd =? POLICY_CMD_NET_STATUS then gets (λ s, policy_net_status (kpolicy s))
  else if cmd =? POLICY_CMD_NET_RESTRICT then policy_op (policy_net_set_restrict (i32 arg1))
  else ret EINVAL.

Definition run_tenant (i arg0 arg1 arg2 : Z) : M kstate Z :=
  let cmd := i32 arg0 in
  if cmd =? TENANT_CMD_STATUS then fs_op i tenant_session_usage
  else if cmd =? TENANT_CMD_PROBE then fs_op i (λ a, tenant_probe_cross_read a (i32 arg1))
  else ret EINVAL.

(** ** Dispatch *)

Record tool_entry := mk_entry {
  te_tool : Z;
  te_cap : Z;
  te_check : option (Z → Z → Z → Z → M kstate Z);
  te_run : Z → Z → Z → Z → M kstate Z
}.

Definition tool_table : list tool_entry :=
  [mk_entry TOOL_LOG CAP_LOG None run_log;
   mk_entry TOOL_ADD CAP_MATH (Some policy_add) run_add;
   mk_entry TOOL_TIME CAP_TIME None run_time;
   mk_entry TOOL_READ CAP_FS (Some policy_fs_read) run_read;
   mk_entry TOOL_WRITE CAP_FS (Some policy_fs_write) run_write;
   mk_entry TOOL_LLM CAP_LLM (Some policy_llm) run_llm;
   mk_entry TOOL_SESSION_APPEND CAP_LOG (Some policy_session) run_session_append;
   mk_entry TOOL_SESSION_TAIL CAP_LOG (Some policy_session) run_session_tail;
   mk_entry TOOL_SESSION_READ CAP_LOG (Some policy_session) run_session_read;
   mk_entry TOOL_SESSION_COMPACT CAP_LOG (Some policy_session) run_session_compact;
   mk_entry TOOL_GPIO CAP_GPIO (Some policy_gpio) run_gpio;
   mk_entry TOOL_HTTP CAP_NET (Some policy_http) run_http;
   mk_entry TOOL_DISPLAY CAP_DISPLAY (Some policy_display) run_display;
   mk_entry TOOL_INPUT CAP_INPUT (Some policy_input) run_input;
   mk_entry TOOL_CONSOLE CAP_SVC_CONSOLE (Some policy_console) run_console;
   mk_entry TOOL_SMP CAP_LOG None run_smp;
   mk_entry TOOL_OTA CAP_FS None run_ota;
   mk_entry TOOL_CATALOG CAP_FS None run_catalog;
   mk_entry TOOL_TENANT CAP_LOG None run_tenant;
   mk_entry TOOL_AUDIT CAP_LOG None run_audit;
   mk_entry TOOL_NAMESPACE CAP_LOG None run_namespace;
   mk_entry TOOL_QUOTA CAP_LOG None run_quota;
   mk_entry TOOL_FLEET CAP_LOG None run_fleet;
   mk_entry TOOL_POLICY CAP_LOG None run_policy;
   mk_entry TOOL_REMOTE CAP_LOG None run_remote;
   mk_entry TOOL_MESH CAP_LOG None run_mesh].

Definition console_quick (tool arg0 : Z) : bool :=
  (tool =? TOOL_CONSOLE)
  && ((arg0 =? CONSOLE_CMD_READ_CHAR) || (arg0 =? CONSOLE_CMD_PUTS) || (arg0 =? CONSOLE_CMD_PROMPT)).

(** The calls that quota and policy apply to. *)
Definition metered (tool arg0 : Z) : bool :=
  negb (tool =? TOOL_QUOTA) && negb (tool =? TOOL_POLICY) && negb (tool =? TOOL_FLEET)
  && negb (tool =? TOOL_REMOTE) && negb (tool =? TOOL_MESH) && negb (console_quick tool arg0).

(** The calls whose result is recorded. *)
Definition audited (tool arg0 rc : Z) : bool :=
  negb ((tool =? TOOL_INPUT) && (rc =? 0)) && negb (console_quick tool arg0)
  && negb (tool =? TOOL_AUDIT) && negb (tool =? TOOL_NAMESPACE) && negb (tool =? TOOL_QUOTA)
  && negb (tool =? TOOL_FLEET) && negb (tool =? TOOL_POLICY) && negb (tool =? TOOL_REMOTE)
  && negb (tool =? TOOL_MESH).

Definition logged (i tool rc : Z) : M kstate Z := tool_audit_log i tool rc ;; ret rc.

Definition tool_dispatch (a : option Z) (tool arg0 arg1 arg2 : Z) : M kstate Z :=
  match a with
  | None => ret EPERM
  | Some i =>
      let! rc := if metered tool arg0 then gets (λ s, quota_tool_allow (kquota s) (aid i s)) else ret 0 in
      if negb (rc =? 0) then logged i tool rc
      else
        let! rc := if metered tool arg0 then gets (λ s, policy_tool_allow tool (kpolicy s)) else ret 0 in
        if negb (rc =? 0) then logged i tool rc
        else
          match find (λ e, te_tool e =? tool) tool_table with
          | None => logged i tool EINVAL
          | Some e =>
              let! ok := gets (λ s, agent_has_cap s (Some i) (te_cap e)) in
              if negb ok then logged i tool EPERM
              else
                let! rc := match te_check e with
                           | Some check => check i arg0 arg1 arg2
                           | None => ret 0
                           end in
                if negb (rc =? 0) then logged i tool rc
                else
                  let! rc := te_run e i arg0 arg1 arg2 in
                  (if audited tool arg0 rc then tool_audit_log i tool rc else ret tt) ;;
                  (if metered tool arg0
                   then modify (λ s, with_quota (quota_tool_charge (aid i s) (kquota s)) s)
                   else ret tt) ;;
                  ret rc
          end
  end.

Definition agent_tool (tool arg0 arg1 arg2 : Z) : M kstate Z :=
  let! cur := gets (agent_current hart) in
  match cur with
  | None => ret EPERM
  | Some _ =>
      agent_set_phase hart AGENT_PHASE_TOOL ;;
      let! rc := tool_dispatch cur tool arg0 arg1 arg2 in
      agent_set_phase hart AGENT_PHASE_IDLE ;;
      ret rc
  end.

End tool.

(** ** Lemmas *)

Lemma append_chars_app cap buf cs l : append_chars cap buf cs = Some l → l = buf ++ cs.
Proof.
  revert buf; induction cs as [|c cs IH]; intros buf; cbn [append_chars]; [intros [= <-]; by rewrite app_nil_r|].
  case_test; [done|]. intros E. rewrite (IH _ E), <- app_assoc. done.
Qed.

Lemma append_int_app buf cap val l :
  append_int buf cap val = Some l → ∃ cs, l = buf ++ cs ∧ bytes_ok cs.
Proof.
  unfold append_int. intros E. apply bind_Some in E as (b & E1 & E2). apply append_chars_app in E2.
  assert (bytes_ok (if u32 (if val <? 0 then - val else val) =? 0 then [chr "0"]
                    else rev (take 12 (digits_rev dec_fuel (u32 (if val <? 0 then - val else val)))))) as Hd.
  { case_test; [solve_bytes|]. apply Forall_rev, Forall_take. eapply Forall_impl; [apply digits_rev_digits|].
    intros c Hc. apply is_digit_cstr in Hc. unfold byte_ok. lia. }
  destruct (val <? 0).
  - apply append_chars_app in E1. subst b. eexists. rewrite <- app_assoc in E2. split; [exact E2|].
    apply Forall_app_2; [solve_bytes|done].
  - injection E1 as <-. by eexists.
Qed.

Lemma audit_line_bytes tool rc l : audit_line tool rc = Some l → bytes_ok l ∧ 0 < zlen l.
Proof.
  unfold audit_line. intros E. apply bind_Some in E as (l1 & E1 & E). apply bind_Some in E as (l2 & E2 & [= <-]).
  apply append_int_app in E1 as (c1 & -> & H1). apply append_int_app in E2 as (c2 & -> & H2). split.
  - repeat apply Forall_app_2; try done; solve_bytes.
  - rewrite zlen_app. pose proof (zlen_nonneg ((str "tool=" ++ c1) ++ str " rc=")).
    rewrite zlen_app. pose proof (zlen_nonneg c2). change (zlen [10]) with 1. lia.
Qed.

(** An integer takes at most eleven characters, so the line fits its 32 bytes. *)
Lemma append_int_short buf cap val l : append_int buf cap val = Some l → zlen l ≤ zlen buf + 11.
Proof.
  unfold append_int. set (n := u32 _). pose proof (u32_range (if val <? 0 then - val else val)) as Hn. fold n in Hn.
  intros E. apply bind_Some in E as (b & E1 & E2). apply append_chars_app in E2. subst l. rewrite zlen_app.
  assert (zlen (if n =? 0 then [chr "0"] else rev (take 12 (digits_rev dec_fuel n))) ≤ 10) as Hd.
  { case_test; [done|]. unfold zlen. rewrite length_rev, length_take.
    pose proof (digits_rev_length dec_fuel n 10 ltac:(unfold dec_fuel; lia) ltac:(lia)). lia. }
  destruct (val <? 0); [apply append_chars_app in E1; subst b; rewrite zlen_app; change (zlen [chr "-"]) with 1|
                        injection E1 as <-]; lia.
Qed.

Lemma audit_line_short tool rc l : audit_line tool rc = Some l → zlen l ≤ 32.
Proof.
  unfold audit_line. intros E. apply bind_Some in E as (l1 & E1 & E). apply bind_Some in E as (l2 & E2 & [= <-]).
  apply append_int_short in E1, E2. rewrite zlen_app in *. change (zlen [10]) with 1.
  change (zlen (str " rc=")) with 4 in E2. change (zlen (str "tool=")) with 5 in E1. lia.
Qed.

(** A file operation that terminates and changes at most one file. *)
Definition only_log (a : Z) (fs fs' : ramfs) : Prop :=
  ramfs_wf fs' ∧ ∀ q, q ≠ log_path a → fs_get fs' q = fs_get fs q.

Lemma only_log_trans a f1 f2 f3 : only_log a f1 f2 → only_log a f2 f3 → only_log a f1 f3.
Proof. intros [_ H1] [H2 H3]. split; [done|]. intros q Hq. by rewrite H3, H1. Qed.

(** An audit record changes only the agent's own log. *)
Lemma audit_log_frame a tool rc fs :
  ramfs_wf fs → 0 ≤ a < 100000000 → ∃ fs', audit_log (Some a) tool rc fs = Ret (tt, fs') ∧ only_log a fs fs'.
Proof.
  intros Hf Ha. unfold audit_log. destruct (audit_line tool rc) as [line|] eqn:El; [|by exists fs].
  destruct (audit_line_bytes _ _ _ El) as [Hb Hz]. pose proof (audit_line_short _ _ _ El).
  assert (∀ f : ramfs, ramfs_wf f → ∃ rc f', audit_write (Some a) line (zlen line) f = Ret (rc, f') ∧ only_log a f f') as Hwr.
  { intros f Hwf. destruct (audit_write_spec f a line Hwf) as (rc1 & f' & E & H1 & H2 & _); [done|done|lia|]. exists rc1, f'. by split. }
  destruct (Hwr fs Hf) as (rc1 & f1 & E1 & H1). rewrite (bind_ret _ _ _ _ _ E1). destruct (rc1 =? ENOSPC); [|by exists f1].
  destruct (audit_compact_frame f1 a 8 (proj1 H1) Ha) as (rc2 & f2 & E2 & H2). destruct (Hwr f2 (proj1 H2)) as (rc3 & f3 & E3 & H3).
  rewrite (bind_ret _ _ _ _ _ E2), (bind_ret _ _ _ _ _ E3). exists f3. split; [done|]. eauto using only_log_trans.
Qed.

Section proofs.
Context {D : Type} `{BlockDevice D} `{!Devices D} {L : Layout} (hart : Z).
Abbreviation kstate := (kstate D).
Implicit Types s : kstate.

Lemma fs_op_ret {A} s i a (m : option Z → M ramfs A) x f :
  id (agent_at s i) = a → m (Some a) (kfs s) = Ret (x, f) → fs_op i m s = Ret (x, with_fs f s).
Proof. intros <- E. unfold fs_op. rewrite bind_gets. unfold onfs, zoom, aid. by rewrite E. Qed.

(** An audit record changes only the agent's own log. *)
Lemma tool_audit_log_frame s i tool rc :
  kernel_wf s → ramfs_wf (kfs s) → 0 ≤ i < MAX_AGENTS →
  ∃ f, tool_audit_log i tool rc s = Ret (tt, with_fs f s) ∧ only_log i (kfs s) f.
Proof.
  intros Hw Hf Hi. destruct (audit_log_frame i tool rc (kfs s) Hf) as (f & E & Hl); [unfold MAX_AGENTS in Hi; lia|].
  exists f. split; [|done]. apply (fs_op_ret s i i); [exact (kw_id s Hw i Hi)|exact E].
Qed.

(** ** Dispatch *)

(** The first refusal on the way to a tool, 0 when there is none. *)
Definition gate (s : kstate) (i tool arg0 : Z) : Z :=
  if metered tool arg0 && (QUOTA_TOOL_MAX <=? quota_tool_used (kquota s) (Some i)) then ENOSPC
  else if metered tool arg0 && deny_has (kpolicy s) tool then EPERM
  else match find (λ e, te_tool e =? tool) (tool_table hart) with
       | None => EINVAL
       | Some e => if has (te_cap e) (caps (agent_at s i)) then 0 else EPERM
       end.

Lemma metered_not_exempt tool arg0 : metered tool arg0 = true → policy_exempt tool = false.
Proof.
  unfold metered, policy_exempt. intros Hm. bprop. rewrite !orb_false_iff, !Z.eqb_neq. done.
Qed.

Lemma logged_frame s i tool rc :
  kernel_wf s → ramfs_wf (kfs s) → 0 ≤ i < MAX_AGENTS →
  ∃ f, logged i tool rc s = Ret (rc, with_fs f s) ∧ only_log i (kfs s) f.
Proof.
  intros Hw Hf Hi. destruct (tool_audit_log_frame s i tool rc Hw Hf Hi) as (f & E & Hl).
  exists f. split; [|done]. unfold logged. by rewrite (bind_ret _ _ _ _ _ E).
Qed.

(** Dispatch up to the tool's own check. *)
Lemma dispatch_gate s i tool a0 a1 a2 :
  kernel_wf s → 0 ≤ i < MAX_AGENTS →
  tool_dispatch hart (Some i) tool a0 a1 a2 s
  = if negb (gate s i tool a0 =? 0) then logged i tool (gate s i tool a0) s
    else match find (λ e, te_tool e =? tool) (tool_table hart) with
         | None => logged i tool EINVAL s
         | Some e =>
             (let! rc := match te_check e with Some check => check i a0 a1 a2 | None => ret 0 end in
              if negb (rc =? 0) then logged i tool rc
              else
                let! rc := te_run e i a0 a1 a2 in
                (if audited tool a0 rc then tool_audit_log i tool rc else ret tt) ;;
                (if metered tool a0
                 then modify (λ s, with_quota (quota_tool_charge (aid i s) (kquota s)) s)
                 else ret tt) ;;
                ret rc) s
         end.
Proof.
  intros Hw Hi. unfold tool_dispatch, gate.
  assert ((if metered tool a0 then gets (λ s, quota_tool_allow (kquota s) (aid i s)) else ret 0) s
          = Ret (if metered tool a0 && (QUOTA_TOOL_MAX <=? quota_tool_used (kquota s) (Some i)) then ENOSPC else 0, s)) as E1.
  { destruct (metered tool a0); [|done]. unfold gets, aid. rewrite (kw_id s Hw i Hi). done. }
  rewrite (bind_ret _ _ _ _ _ E1). destruct (metered tool a0 && (QUOTA_TOOL_MAX <=? _)); [done|]. cbn [Z.eqb negb].
  assert ((if metered tool a0 then gets (λ s, policy_tool_allow tool (kpolicy s)) else ret 0) s
          = Ret (if metered tool a0 && deny_has (kpolicy s) tool then EPERM else 0, s)) as E2.
  { destruct (metered tool a0) eqn:Em; [|done]. unfold gets, policy_tool_allow. by rewrite (metered_not_exempt _ _ Em). }
  rewrite (bind_ret _ _ _ _ _ E2). destruct (metered tool a0 && deny_has (kpolicy s) tool); [done|]. cbn [Z.eqb negb].
  destruct (find _ (tool_table hart)) as [e|]; [|done].
  rewrite bind_gets. unfold agent_has_cap. by destruct (has (te_cap e) (caps (agent_at s i))).
Qed.

(** [C1] The gateway mediates every tool.  A call whose tool is unknown, or guarded by
    a capability the agent lacks, is refused.  So is a call whose agent has used up its
    tool quota, or whose tool the policy denies, if the call is metered; quota, policy,
    fleet, remote and mesh calls and the console's character, string and prompt commands
    are not metered, and neither quota nor policy refuses them.  A refused call returns
    exactly that refusal and changes nothing in the kernel but the agent's own audit
    log.  Otherwise the tool runs only after its own check gave 0; its result is
    returned, at most the agent's audit log changes after it, and the agent is charged
    one call when the call is metered. *)
Theorem dispatch_mediates s i tool a0 a1 a2 :
  kernel_wf s → ramfs_wf (kfs s) → 0 ≤ i < MAX_AGENTS →
  (gate s i tool a0 ≠ 0 →
   ∃ f, tool_dispatch hart (Some i) tool a0 a1 a2 s = Ret (gate s i tool a0, with_fs f s)
     ∧ only_log i (kfs s) f)
  ∧ (gate s i tool a0 = 0 →
     ∃ e, e ∈ tool_table hart ∧ te_tool e = tool ∧ has (te_cap e) (caps (agent_at s i)) = true
     ∧ ∀ crc s1, (match te_check e with Some check => check i a0 a1 a2 | None => ret 0 end) s = Ret (crc, s1) →
       kernel_wf s1 → ramfs_wf (kfs s1) →
       (crc ≠ 0 → ∃ f, tool_dispatch hart (Some i) tool a0 a1 a2 s = Ret (crc, with_fs f s1) ∧ only_log i (kfs s1) f)
       ∧ (crc = 0 → ∀ rc s2, te_run e i a0 a1 a2 s1 = Ret (rc, s2) → kernel_wf s2 → ramfs_wf (kfs s2) →
          ∃ f, tool_dispatch hart (Some i) tool a0 a1 a2 s
               = Ret (rc, if metered tool a0
                          then with_quota (quota_tool_charge (Some i) (kquota s2)) (with_fs f s2) else with_fs f s2)
             ∧ only_log i (kfs s2) f)).
Proof.
  intros Hw Hf Hi. pose proof (dispatch_gate s i tool a0 a1 a2 Hw Hi) as E. split; intros Hg.
  { test_false_in (gate s i tool a0 =? 0) E. cbn [negb] in E. rewrite E. by apply logged_frame. }
  rewrite Hg in E. cbn [Z.eqb negb] in E. unfold gate in Hg.
  destruct (_ && (QUOTA_TOOL_MAX <=? _)); [done|]. destruct (_ && deny_has _ _); [done|].
  destruct (find _ (tool_table hart)) as [e|] eqn:Ee; [|done].
  destruct (has (te_cap e) (caps (agent_at s i))) eqn:Hc; [|done].
  destruct (find_Some _ _ _ Ee) as [Hin Ht%Z.eqb_eq]. exists e. split; [done|]. split; [done|]. split; [done|].
  intros crc s1 Ec Hw1 Hf1. rewrite E, (bind_ret _ _ _ _ _ Ec). split; intros Hcrc.
  { test_false (crc =? 0). cbn [negb]. by apply logged_frame. }
  subst crc. cbn [Z.eqb negb]. intros rc s2 Er Hw2 Hf2. rewrite (bind_ret _ _ _ _ _ Er).
  assert (∃ f, (if audited tool a0 rc then tool_audit_log i tool rc else ret tt) s2 = Ret (tt, with_fs f s2)
               ∧ only_log i (kfs s2) f) as (f & El & Hl).
  { destruct (audited tool a0 rc); [by apply tool_audit_log_frame|]. exists (kfs s2). split; [by destruct s2|by split]. }
  exists f. split; [|done]. rewrite (bind_ret _ _ _ _ _ El). destruct (metered tool a0); [|done].
  rewrite bind_modify. unfold aid. change (agent_at (with_fs f s2)) with (agent_at s2).
  by rewrite (kw_id s2 Hw2 i Hi).
Qed.

(** ** File access *)

Lemma cstr_of_terminated l : Forall (λ c, c ≠ 0) l → cstr_of (l ++ [0]) = Some l.
Proof. induction 1 as [|c l Hc Hl IH]; [done|]. cbn [app cstr_of]. test_false (c =? 0). by rewrite IH. Qed.

(** Reading a path of fewer than 63 bytes from user memory. *)
Lemma read_path_spec {LL : LayoutLaws} s i r arg path :
  runs hart s i r → 0 < arg → arg + PATH_BUF ≤ USER_TOP →
  user_string (kvm s) r arg (Z.to_nat (PATH_BUF - 1)) = Some path → 0 < zlen path < PATH_BUF - 1 →
  read_path_from_user hart arg s = Ret ((0, path), s).
Proof.
  unfold PATH_BUF, RAMFS_PATH_MAX. intros Hr Ha Ht Hs Hl. unfold read_path_from_user, PATH_BUF, RAMFS_PATH_MAX.
  rewrite u64_small by (unfold USER_TOP in Ht; lia).
  erewrite bind_ret; [|apply (user_strnlen_spec hart s i r); done || lia]. rewrite Hs.
  test_false (zlen path <? 0). test_false (zlen path <=? 0). test_false (64 <=? zlen path). cbn [orb].
  destruct (user_string_prefix _ _ _ _ _ Hs) as (_ & _ & Hnz & _).
  destruct (user_string_nul _ _ _ _ _ Hs) as [Hok Hby]; [unfold zlen in Hl; lia|].
  unfold copy_text. rewrite u64_small by (unfold USER_TOP in Ht; lia).
  assert (Z.to_nat (zlen path + 1) = S (length path)) as El by (unfold zlen; lia).
  assert (copy_from_user hart arg (zlen path + 1) s = Ret ((zlen path + 1, path ++ [0]), s)) as Ecp.
  { erewrite (copy_from_user_spec hart s i r) by (done || lia). by rewrite El, Hok, Hby. }
  unfold bind. rewrite Ecp. cbn [fst snd]. test_false (zlen path + 1 <? 0). by rewrite (cstr_of_terminated path Hnz).
Qed.

Lemma own_agent_path_spec a b c rest :
  0 ≤ b < 2147483648 →
  own_agent_path a (c :: str "agent/" ++ dec b ++ chr "/" :: rest) = if b =? a then 0 else EPERM.
Proof.
  intros Hb. unfold own_agent_path.
  change (drop 7 (c :: str "agent/" ++ dec b ++ chr "/" :: rest)) with (dec b ++ chr "/" :: rest).
  rewrite scan_dec, scan_int_stop by done. done.
Qed.

(** The files of agent [b]: its directory, its private home, its audit log. *)
Inductive file_of (b : Z) : list Z → Prop :=
  | file_dir rest : file_of b (str "/agent/" ++ dec b ++ chr "/" :: rest)
  | file_home name : file_of b (home_path b name)
  | file_log : file_of b (log_path b).

Lemma file_of_nonempty b path : file_of b path → 0 < zlen path.
Proof.
  intros []; unfold home_path, log_path; rewrite zlen_app;
    match goal with |- 0 < zlen ?x + zlen ?y => pose proof (zlen_nonneg y); assert (0 < zlen x) by done end; lia.
Qed.

Lemma foreign_file a b path :
  0 ≤ b < 2147483648 → a ≠ b → file_of b path →
  fs_read_policy false a path = EPERM ∧ fs_write_policy false a path = EPERM.
Proof.
  intros Hb Hab [rest|name|].
  - change (str "/agent/" ++ dec b ++ chr "/" :: rest) with (47 :: str "agent/" ++ dec b ++ chr "/" :: rest).
    pose proof (own_agent_path_spec a b 47 rest Hb) as Ho. test_false_in (b =? a) Ho.
    unfold fs_read_policy, fs_write_policy. rewrite Ho. done.
  - unfold fs_read_policy, fs_write_policy. rewrite home_path_ok by done. by test_false (b =? a).
  - unfold fs_read_policy, fs_write_policy. rewrite audit_path_ok_log by done. by test_false (b =? a).
Qed.

(** [C10] File tools keep agents apart: for an agent without the storage capability,
    the checks of the read and write tools refuse, with EPERM and no effect, every
    path in another agent's directory, private home or audit log, read from user
    memory as the tool will read it. *)
Theorem file_tools_isolated {LL : LayoutLaws} s a r arg0 arg1 arg2 b path :
  runs hart s a r → kernel_wf s → 0 ≤ a < MAX_AGENTS → has CAP_SVC_STORAGE (caps (agent_at s a)) = false →
  0 < arg0 → arg0 + PATH_BUF ≤ USER_TOP →
  user_string (kvm s) r arg0 (Z.to_nat (PATH_BUF - 1)) = Some path → zlen path < PATH_BUF - 1 →
  0 ≤ b < 2147483648 → a ≠ b → file_of b path →
  policy_fs_read hart a arg0 arg1 arg2 s = Ret (EPERM, s)
  ∧ policy_fs_write hart a arg0 arg1 arg2 s = Ret (EPERM, s).
Proof.
  intros Hr Hw Ha Hc H0 Ht Hs Hl Hb Hab Hf. destruct (foreign_file a b path Hb Hab Hf) as [E1 E2].
  pose proof (file_of_nonempty b path Hf) as Hnz.
  pose proof (read_path_spec s a r arg0 path Hr H0 Ht Hs (conj Hnz Hl)) as Ep.
  unfold policy_fs_read, policy_fs_write. rewrite !(bind_ret _ _ _ _ _ Ep). cbn [fst snd Z.eqb negb].
  unfold gets, agent_has_cap. rewrite Hc, (kw_id s Hw a Ha), E1, E2. done.
Qed.

End proofs.

(** The write check does not look at the first character: with any character
    other than a slash in front, a path such as "Xagent/1/f" passes it as the
    agent's own, and the file quota, which parses the leading slash, lets such a
    file be created however many files the agent already has. *)
Theorem unrooted_write a c rest fs :
  0 ≤ a < 2147483648 → c ≠ chr "/" →
  let path := c :: str "agent/" ++ dec a ++ chr "/" :: rest in
  fs_write_policy false a path = 0 ∧ fs_read_policy false a path = EINVAL
  ∧ quota_fs_allow_new (Some a) path fs = Ret (0, fs).
Proof.
  intros Ha Hc path. pose proof (own_agent_path_spec a a c rest Ha) as Ho. rewrite Z.eqb_refl in Ho. fold path in Ho.
  change (chr "/") with 47 in Hc.
  assert ((cget path 0 =? chr "/") = false) as E0 by (apply Z.eqb_neq; exact Hc).
  assert (namespace_is_path path = false) as En by (unfold namespace_is_path; by rewrite E0).
  unfold fs_write_policy, fs_read_policy, quota_fs_allow_new, parse_agent_path_id. rewrite En, E0, Ho. done.
Qed.

Lemma unrooted_write_witness :
  fs_write_policy false 1 (str "Xagent/1/f") = 0
  ∧ quota_fs_allow_new (Some 1) (str "Xagent/1/f") zero_fs = Ret (0, zero_fs).
Proof. destruct (unrooted_write 1 (chr "X") (str "f") zero_fs) as (H1 & _ & H2); [done|done|exact (conj H1 H2)]. Defined.

(** ** Examples *)

(** A machine with no devices behind the gateway. *)
#[export] Instance no_devices : Devices unit := {
  time_csr := λ _, 0;
  smp_hart_ticks := λ _ _, 0;
  uart_poll_char := ret None;
  uart_getline := λ _, ret (ENODEV, []);
  agent_llm_query := λ _ _ _, ret ENODEV;
  agent_load_from_path := λ _ _ _, ret ENODEV;
  run_http := λ _ _ _ _, ret ENODEV;
  run_display := λ _ _ _ _, ret ENODEV;
  run_input := λ _ _ _ _, ret ENODEV;
  run_ota := λ _ _ _ _, ret ENODEV;
  run_catalog := λ _ _ _ _, ret ENODEV;
  run_fleet := λ _ _ _ _, ret ENODEV;
  run_remote := λ _ _ _ _, ret ENODEV;
  run_mesh := λ _ _ _ _, ret ENODEV
}.

(** Agent 1 of the example has neither CAP_LOG nor CAP_MATH. *)
Lemma dispatch_mediates_witness :
  ∃ f, tool_dispatch 0 (Some 1) TOOL_ADD 2 3 0 (demo_kernel boot_vm) = Ret (EPERM, with_fs f (demo_kernel boot_vm)).
Proof.
  destruct (dispatch_mediates 0 (demo_kernel boot_vm) 1 TOOL_ADD 2 3 0) as [H _];
    [apply (aw_wf _ (demo_kernel_wf boot_vm))|apply zero_fs_wf|done|].
  destruct H as (f & E & _); [by vm_compute|]. exists f. exact E.
Defined.

(** A page that holds the path of a file of agent 2. *)
Definition foreign : list Z := str "/agent/2/x".

Lemma file_tools_isolated_witness :
  ∃ v, policy_fs_write 0 1 heap1 0 0 (demo_kernel v) = Ret (EPERM, demo_kernel v).
Proof.
  destruct one_page as (v & E & Hw & Hr & _ & Hx). set (v' := with_pmem (map_seqZ page1 foreign) v). exists v'.
  assert (∀ k, 0 ≤ k < 4096 → xlate (pt_mem v') root_table (heap1 + k) = Some (pte_make page1 (map_flags rw_user))) as Hk.
  { intros k Hk. change (pt_mem v') with (pt_mem v). rewrite (xlate_page _ _ _ heap1), Hx; [by rewrite decide_True|].
    unfold heap1. Z.to_euclidean_division_equations; lia. }
  assert (vm_wf v') by (destruct Hw; by constructor). assert (root_wf v' root_table) by (destruct Hr; by constructor).
  apply (file_tools_isolated 0 (demo_kernel v') 1 root_table heap1 0 0 2 foreign);
    [by apply demo_kernel_runs|apply demo_kernel_wf|done|done|done|done| |done|done|done|].
  - apply user_string_intro; [|solve_bytes|by vm_compute; lia].
    intros k Hl. cbn [length foreign str] in Hl. unfold user_ok, user_byte. change (kvm (demo_kernel v')) with v'.
    rewrite Hk by (vm_compute in Hl; lia). split; [done|]. change (pmem v') with (map_seqZ page1 foreign : gmap Z Z).
    do 11 (destruct k as [|k]; [by vm_compute|]). vm_compute in Hl. lia.
  - exact (file_dir 2 (str "x")).
Defined.
