(* ===== verification/Trap.v ===== *)
(** * Traps and system calls (kernel/arch/riscv/trap_handler.c, kernel/sched_syscall.c)

    The assembly entry saves the registers in a frame and restores the frame that
    [trap_handler] returns: here the frame's contents, or [None] while the hart is
    still waiting for work inside the scheduler.  [scause] and [stval] are the
    values of the registers.  Reading and writing [sstatus], acknowledging and
    arming the timer and clearing inter-processor interrupts have no effect on the
    modelled state. *)

From S2P Require Import Prelude Abi Ipc Ramfs Persist Quota Policy AgentDef Mem Vm VmTree VmProps Kernel Uaccess Sched Agent Tool.

Definition SCAUSE_ECALL_U : Z := 8.
Definition SCAUSE_SSI : Z := 0x8000000000000001.
Definition SCAUSE_TIMER_IRQ : Z := 0x8000000000000005.
Definition SCAUSE_INST_PAGE_FAULT : Z := 12.
Definition SCAUSE_LOAD_PAGE_FAULT : Z := 13.
Definition SCAUSE_STORE_PAGE_FAULT : Z := 15.

(** An [unsigned long] register as a [long]. *)
Definition i64 (x : Z) : Z := (x + 9223372036854775808) mod 18446744073709551616 - 9223372036854775808.

Section trap.
Context {D : Type} `{BlockDevice D} `{!Devices D} {L : Layout} (kgp hart : Z) (junk : list Z).
Context (wait : nat → kstate D → kstate D) (fuel : nat).
Abbreviation kstate := (kstate D).

(** The arguments are the registers, as unsigned words. *)
Definition sched_handle_syscall (n a0 a1 a2 a3 : Z) : M kstate Z :=
  if n =? SYS_AGENT_CREATE then agent_create kgp hart a0 a1 (u32 a2)
  else if n =? SYS_AGENT_DESTROY then agent_destroy (i32 a0)
  else if n =? SYS_AGENT_SEND then agent_send hart (i32 a0) (i32 a1) a2
  else if n =? SYS_AGENT_RECV then agent_recv hart a0
  else if n =? SYS_AGENT_SELF then
    gets (λ s, match agent_current hart s with Some c => id (agent_at s c) | None => -1 end)
  else if n =? SYS_AGENT_WRITE then agent_write hart a0 (i64 a1)
  else if n =? SYS_AGENT_TOOL then agent_tool hart (i32 a0) (i64 a1) (i64 a2) (i64 a3)
  else if n =? SYS_AGENT_LLM then agent_llm_query a0 a1 (i32 a2)
  else if n =? SYS_AGENT_COMPACT then agent_compact_inbox hart (i32 a0)
  else if n =? SYS_AGENT_GET_PHASE then agent_get_phase hart
  else if n =? SYS_AGENT_SYNC then agent_sync junk
  else if n =? SYS_AGENT_HEAP_BASE then agent_get_heap_base hart
  else if n =? SYS_AGENT_HEAP_MAP then agent_heap_map hart (i32 a0)
  else if n =? SYS_AGENT_HEAP_COW then agent_heap_cow hart (i32 a0) (i32 a1)
  else if n =? SYS_AGENT_LOAD then agent_load_from_path a0 a1 (u32 a2)
  else ret EINVAL.

Definition trapframe_store_local (a : option Z) (src : option trapframe) : kstate → kstate :=
  trapframe_store a src.

(** [*agent_current()->tf = *tf] *)
Definition store_cur (t : trapframe) : M kstate unit :=
  modify (λ s, trapframe_store_local (agent_current hart s) (Some t) s).

Definition cur_tf : M kstate (option trapframe) :=
  gets (λ s, match agent_current hart s with Some c => atf (agent_at s c) | None => None end).

(** [return agent_current()->tf]; the entry code restores from it at once, so a
    null pointer is undefined. *)
Definition return_cur : M kstate (option trapframe) :=
  let! t := cur_tf in
  match t with Some t => ret (Some t) | None => undef end.

Definition trapframe_sync_local (src : trapframe) : M kstate trapframe :=
  store_cur src ;;
  let! t := cur_tf in
  match t with Some t => ret t | None => halt end.

Definition handle_ecall (t : trapframe) : M kstate (option trapframe) :=
  let n := i64 (tf.get tf.A7 t) in
  let t := tf.set tf.SEPC (u64 (tf.get tf.SEPC t + 4)) t in
  if n =? SYS_AGENT_YIELD then
    let t := tf.set tf.A0 0 t in
    store_cur t ;; schedule_trap hart wait fuel (Some t)
  else if n =? SYS_AGENT_EXIT then
    agent_exit hart (i32 (tf.get tf.A0 t)) ;;
    store_cur t ;; schedule_trap hart wait fuel (Some t)
  else if n =? SYS_AGENT_SEND then
    let! r := agent_send hart (i32 (tf.get tf.A0 t)) (i32 (tf.get tf.A1 t)) (tf.get tf.A2 t) in
    let t := tf.set tf.A0 (u64 r) t in
    store_cur t ;;
    let! t := trapframe_sync_local t in ret (Some t)
  else
    let! r := sched_handle_syscall n (tf.get tf.A0 t) (tf.get tf.A1 t) (tf.get tf.A2 t) (tf.get tf.A3 t) in
    let t := tf.set tf.A0 (u64 r) t in
    store_cur t ;;
    let! t := trapframe_sync_local t in ret (Some t).

Definition trap_handler (t : trapframe) (scause stval : Z) : M kstate (option trapframe) :=
  if scause =? SCAUSE_ECALL_U then handle_ecall t
  else if scause =? SCAUSE_SSI then ret (Some t)
  else if scause =? SCAUSE_TIMER_IRQ then
    let! cur := gets (agent_current hart) in
    if has SSTATUS_SPP (tf.get tf.SSTATUS t) then
      match cur with Some _ => return_cur | None => halt end
    else
      match cur with
      | Some _ => store_cur t ;; schedule_trap hart wait fuel (Some t)
      | None => ret (Some t)
      end
  else if (scause =? SCAUSE_INST_PAGE_FAULT) || (scause =? SCAUSE_LOAD_PAGE_FAULT)
          || (scause =? SCAUSE_STORE_PAGE_FAULT) then
    let write := scause =? SCAUSE_STORE_PAGE_FAULT in
    let! cur := gets (agent_current hart) in
    match cur with
    | None => halt
    | Some c =>
        let! ok := onagent c (vm_heap_fault stval write) in
        if ok : bool then store_cur t ;; return_cur
        else
          agent_exit hart 1 ;;
          store_cur t ;; schedule_trap hart wait fuel (Some t)
    end
  else halt.

End trap.

(** ** Faults *)

Section proofs.
Context {D : Type} `{BlockDevice D} `{!Devices D} {L : Layout} (kgp hart : Z) (junk : list Z).
Context (wait : nat → kstate D → kstate D) (fuel : nat).
Abbreviation kstate := (kstate D).
Implicit Types s : kstate.

(** Every agent that the scheduler could pick has a trapframe. *)
Definition frames_ok (s : kstate) : Prop :=
  ∀ i, 0 ≤ i < MAX_AGENTS → can_run (agent_at s i) → is_Some (atf (agent_at s i)).

(** The scheduler after the current agent has ended: it picks another agent. *)
Lemma schedule_after_end s c t j :
  sched_inv s → 0 ≤ hart < SMP_MAX_HARTS → agent_current hart s = Some c → state (agent_at s c) = AGENT_ZOMBIE →
  frames_ok s → 0 ≤ j < MAX_AGENTS → home_cpu (agent_at s j) = hart → can_run (agent_at s j) →
  ∃ n t' s', schedule_trap hart wait (S fuel) t s = Ret (Some t', s')
    ∧ n ≠ c ∧ 0 ≤ n < MAX_AGENTS ∧ atf (agent_at s n) = Some t'
    ∧ agent_current hart s' = Some n ∧ state (agent_at s' n) = AGENT_RUNNING
    ∧ agent_at s' c = agent_at (trapframe_store (Some c) t s) c.
Proof.
  intros Hi Hh Hc Hz Hf Hj Hhome Hrun. destruct (si_cur s Hi hart c Hh Hc) as [Hcr _].
  set (s1 := trapframe_store (Some c) t s).
  assert (∀ i, 0 ≤ i → agent_at s1 i = agent_at s i ∨ (i = c ∧ ∃ t', agent_at s1 i = upd.atf (Some t') (agent_at s i))) as H1.
  { intros i Hir. unfold s1. rewrite <- Hc, (store_agent hart) by done. destruct t, (atf (agent_at s i)); auto.
    case_decide as E; auto. right. split; [congruence|]. by eexists. }
  assert (before_pick hart t s = s1) as Eb.
  { unfold before_pick. rewrite Hc. fold s1. unfold sched_release. rewrite decide_False; [done|].
    destruct (H1 c ltac:(lia)) as [->|(_ & t' & ->)]; cbn; by rewrite Hz. }
  assert (sched_inv s1) as Hi1 by (rewrite <- Eb; by apply before_pick_inv).
  assert (∀ i, 0 ≤ i → (can_run (agent_at s1 i) ↔ can_run (agent_at s i))
                        ∧ home_cpu (agent_at s1 i) = home_cpu (agent_at s i)
                        ∧ (is_Some (atf (agent_at s i)) → is_Some (atf (agent_at s1 i)))) as H2.
  { intros i Hir. destruct (H1 i Hir) as [->|(_ & t' & ->)]; [done|]. split; [done|]. split; [done|]. by eexists. }
  rewrite schedule_trap_S, Eb. pose proof (pick_next_spec s1 hart Hi1 Hh) as Hp.
  destruct (pick_next hart s1) as [[n|] s2] eqn:Epick.
  2: { exfalso. destruct Hp as [_ Hno]. destruct (H2 j ltac:(lia)) as (E1 & E2 & _).
       apply (Hno j Hj); [congruence|by apply E1]. }
  destruct Hp as (Hn & Hnh & Hcn & Hs2). destruct (pick_next_home s1 hart n s2 Hi1 Hh Epick) as (_ & Hhn & _).
  pose proof (pick_next_inv s1 hart (Some n) s2 Hi1 Hh Epick) as Hi2. destruct (H2 n ltac:(lia)) as (E1 & _ & E3).
  assert (n ≠ c) as Hnc.
  { intros ->. apply E1 in Hcn as [Hcn|[Hcn _]]; [congruence|]. unfold sched_agent_has_inbox in Hcn. by rewrite Hz in Hcn. }
  assert (∀ i, 0 ≤ i → i ≠ n → agent_at s2 i = agent_at s1 i) as Hoth.
  { intros i Hir Hin. destruct Hs2 as [->|(_ & rr & _ & ->)]; [|done].
    rewrite agent_at_upd by (try apply (kw_agents s1 (si_wf s1 Hi1)); done). by rewrite decide_False. }
  assert (atf (agent_at s2 n) = atf (agent_at s1 n)) as Ea.
  { destruct Hs2 as [->|(_ & rr & _ & ->)]; [|done].
    by rewrite agent_at_upd_eq by (try apply (kw_agents s1 (si_wf s1 Hi1)); done). }
  destruct (E3 (Hf n Hn (proj1 E1 Hcn))) as [t' Ht']. unfold bind.
  rewrite switch_in_spec by (try apply (si_wf s2 Hi2); done). rewrite Ea, Ht'.
  exists n, t', (switched hart n s2). split; [done|]. split; [done|]. split; [done|].
  split; [destruct (H1 n ltac:(lia)) as [En|[? _]]; [by rewrite <- En|done]|].
  rewrite switched_current, !switched_agent by (try apply (si_wf s2 Hi2); done || lia).
  rewrite !decide_True by done. rewrite decide_False by done. split; [done|]. split; [done|]. apply Hoth; [lia|done].
Qed.

Definition ended (code : Z) (a : agent) : agent := upd.running_cpu (-1) (upd.state AGENT_ZOMBIE (upd.exit_code code a)).

Lemma store_state s c t i :
  sched_inv s → 0 ≤ hart < SMP_MAX_HARTS → agent_current hart s = Some c → 0 ≤ i →
  state (agent_at (trapframe_store (Some c) t s) i) = state (agent_at s i)
  ∧ exit_code (agent_at (trapframe_store (Some c) t s) i) = exit_code (agent_at s i)
  ∧ home_cpu (agent_at (trapframe_store (Some c) t s) i) = home_cpu (agent_at s i)
  ∧ inbox (agent_at (trapframe_store (Some c) t s) i) = inbox (agent_at s i)
  ∧ (is_Some (atf (agent_at s i)) → is_Some (atf (agent_at (trapframe_store (Some c) t s) i))).
Proof.
  intros Hi Hh Hc Hir. rewrite <- Hc, (store_agent hart) by done.
  destruct t, (atf (agent_at s i)) eqn:E; rewrite ?E; try done. case_decide; rewrite ?E; cbn; by eauto.
Qed.

Lemma can_run_ext a b : state a = state b → inbox a = inbox b → can_run a → can_run b.
Proof. unfold can_run, sched_agent_has_inbox. intros -> ->. done. Qed.

(** Ending the current agent and saving its frame leaves the scheduler's invariant
    and the other agents as they were. *)
Lemma end_and_store s c t code :
  sched_inv s → 0 ≤ hart < SMP_MAX_HARTS → agent_current hart s = Some c → frames_ok s →
  let s2 := trapframe_store (Some c) (Some t) (upd_agent c (ended code) s) in
  sched_inv s2 ∧ agent_current hart s2 = Some c
  ∧ state (agent_at s2 c) = AGENT_ZOMBIE ∧ exit_code (agent_at s2 c) = code
  ∧ frames_ok s2
  ∧ ∀ i, 0 ≤ i → i ≠ c → agent_at s2 i = agent_at s i.
Proof.
  intros Hi Hh Hc Hf s2. destruct (si_cur s Hi hart c Hh Hc) as [Hcr _]. set (s1 := upd_agent c (ended code) s) in *.
  assert (sched_inv s1) as Hi1 by by apply upd_agent_inv.
  assert (agent_current hart s1 = Some c) as Hc1 by done.
  assert (∀ i, 0 ≤ i → agent_at s1 i = if decide (c = i) then ended code (agent_at s c) else agent_at s i) as Ha
    by (intros i Hir; apply agent_at_upd; [apply (kw_agents s (si_wf s Hi))|done|done]).
  pose proof (λ i Hir, store_state s1 c (Some t) i Hi1 Hh Hc1 Hir) as Hs. fold s2 in Hs.
  destruct (Hs c ltac:(lia)) as (E1 & E2 & _). rewrite Ha, decide_True in E1, E2 by (done || lia).
  change (state (ended code ?x)) with AGENT_ZOMBIE in E1. change (exit_code (ended code ?x)) with code in E2.
  split; [unfold s2; rewrite <- Hc1; by apply trapframe_store_inv|].
  split; [unfold s2; by rewrite store_current|]. split; [done|]. split; [done|]. split.
  - intros i Hir Hrun. destruct (Hs i ltac:(lia)) as (F1 & _ & _ & F4 & F5). apply F5.
    rewrite Ha in * by lia. case_decide as Ei.
    + exfalso. subst i. destruct Hrun as [Hrun|[Hrun _]]; [congruence|].
      unfold sched_agent_has_inbox in Hrun. by rewrite E1 in Hrun.
    + apply Hf; [done|]. by apply (can_run_ext (agent_at s2 i)).
  - intros i Hir Hne. unfold s2. rewrite <- Hc1, (store_agent hart) by done. rewrite Hc1.
    rewrite decide_False by congruence. rewrite Ha, decide_False by done. by destruct (atf (agent_at s i)).
Qed.

(** [C11] Faults are contained: when a page fault of the current agent is not one
    that the heap resolves, and another agent of the hart can run, the handler
    returns the frame that another agent had saved, and that agent is now current and
    running; the faulting agent has ended with code 1, and the machine does not stop. *)
Theorem fault_contained s c t scause stval v a j :
  sched_inv s → 0 ≤ hart < SMP_MAX_HARTS → agent_current hart s = Some c → frames_ok s →
  scause = SCAUSE_INST_PAGE_FAULT ∨ scause = SCAUSE_LOAD_PAGE_FAULT ∨ scause = SCAUSE_STORE_PAGE_FAULT →
  vm_heap_fault stval (scause =? SCAUSE_STORE_PAGE_FAULT) (kvm s, agent_at s c) = Ret (false, (v, a)) →
  a = agent_at s c →
  0 ≤ j < MAX_AGENTS → j ≠ c → home_cpu (agent_at s j) = hart → can_run (agent_at s j) →
  ∃ n t' s', trap_handler kgp hart junk wait (S fuel) t scause stval s = Ret (Some t', s')
    ∧ n ≠ c ∧ 0 ≤ n < MAX_AGENTS ∧ atf (agent_at s n) = Some t'
    ∧ agent_current hart s' = Some n ∧ state (agent_at s' n) = AGENT_RUNNING
    ∧ state (agent_at s' c) = AGENT_ZOMBIE ∧ exit_code (agent_at s' c) = 1.
Proof.
  intros Hi Hh Hc Hf Hsc Ev -> Hj Hjc Hjh Hjr.
  assert (onagent c (vm_heap_fault stval (scause =? SCAUSE_STORE_PAGE_FAULT)) s = Ret (false, with_vm v s)) as Eo.
  { unfold onagent. rewrite Ev. do 2 f_equal. apply upd_agent_same. done. }
  set (s0 := with_vm v s) in *.
  assert (sched_inv s0) as Hi0 by (destruct Hi as [[? ? ? ? ? ?] ? ? ? ?]; constructor; [by constructor|done..]).
  destruct (end_and_store s0 c t 1 Hi0 Hh Hc Hf) as (Hi2 & Hc2 & Hz & Hx & Hf2 & Hrun). cbv zeta in *.
  set (s2 := trapframe_store (Some c) (Some t) (upd_agent c (ended 1) s0)) in *.
  destruct (schedule_after_end s2 c (Some t) j Hi2 Hh Hc2 Hz Hf2 Hj)
    as (n & t' & s' & E & Hn & Hnr & Htf & Hcur & Hst & Hca); [by rewrite Hrun by lia..|].
  rewrite Hrun in Htf by lia.
  exists n, t', s'. destruct (store_state s2 c (Some t) c Hi2 Hh Hc2) as (F1 & F2 & _);
    [apply (si_cur s Hi hart c Hh) in Hc; lia|].
  split; [|by rewrite Hca, F1, F2]. rewrite <- E. unfold trap_handler.
  assert (∀ x, x = SCAUSE_ECALL_U ∨ x = SCAUSE_SSI ∨ x = SCAUSE_TIMER_IRQ → (scause =? x) = false) as Hne
    by (intros x Hx'; apply Z.eqb_neq; destruct_or!; subst; done).
  rewrite !Hne by tauto. replace (_ || _ || _) with true
    by (symmetry; rewrite !orb_true_iff, !Z.eqb_eq; tauto).
  rewrite bind_gets, Hc, (bind_ret _ _ _ _ _ Eo). change (agent_current hart s0 = Some c) in Hc.
  rewrite (bind_ret _ _ _ tt (upd_agent c (ended 1) s0)) by (unfold agent_exit; by rewrite bind_gets, Hc).
  rewrite (bind_ret _ _ _ tt s2); [done|]. unfold store_cur, modify, trapframe_store_local.
  change (agent_current hart (upd_agent c (ended 1) s0)) with (agent_current hart s0). by rewrite Hc.
Qed.

End proofs.

(** ** Example: agent 1 of the scheduler's example faults outside its heap *)

(** A machine without a disk. *)
#[local] Instance no_disk : BlockDevice unit := {
  blk_read := λ _ _, None;
  blk_write := λ _ _ _, None;
  blk_sectors := λ _, 0
}.

Lemma fault_contained_witness :
  ∃ n t' s', trap_handler (L := virt_layout) 0 0 [] (λ _ s, s) 1 tf.zero SCAUSE_LOAD_PAGE_FAULT 64 (demo_sched zero_box)
    = Ret (Some t', s')
    ∧ n ≠ 1 ∧ atf (agent_at (demo_sched zero_box) n) = Some t' ∧ agent_current 0 s' = Some n
    ∧ state (agent_at s' 1) = AGENT_ZOMBIE.
Proof.
  destruct (fault_contained (L := virt_layout) 0 0 [] (λ _ s, s) 0 (demo_sched zero_box) 1 tf.zero
    SCAUSE_LOAD_PAGE_FAULT 64 (kvm (demo_sched zero_box)) (agent_at (demo_sched zero_box) 1) 2)
    as (n & t' & s' & E & Hn & _ & Ht & Hc & _ & Hz & _);
    [apply demo_inv|done|done| |by right; left|done|done|done|done|done|by left|].
  - intros i Hi _. each_index i; by eexists.
  - exists n, t', s'. split; [exact E|]. split; [exact Hn|]. split; [exact Ht|]. split; [exact Hc|exact Hz].
Defined.
