(* ===== verification/Ota.v ===== *)
(** * Agent packages (kernel/ota.c)

    A package is a file with a 128-byte manifest followed by an ELF image.  Format
    1 carries a CRC of the file, format 2 a keyed SHA-256 digest.  Verification
    reads the whole file into a kernel buffer and checks it; applying a package
    stores its image under the manifest's install path.

    SHA-256 is the vendored TLS library's; here it is the argument [sha256] from
    the hashed bytes to the digest.  The bounds test of the image is a 32-bit sum
    that can wrap; reads that leave the buffer after it are [Undef].
    [ota_channel_get] writes through the user's pointer without a check, see
    [raw_store]. *)

From S2P Require Import Prelude Abi Ipc Ramfs Persist Paths Quota Policy Sched AgentDef Mem Vm VmTree VmProps Kernel Uaccess Agent Tool.

Definition OTA_PKG_MAGIC : Z := 0x4b504f41.
Definition OTA_FMT_VERSION : Z := 1.
Definition OTA_FMT_SIGNED : Z := 2.
Definition OTA_CHANNEL_STABLE : list Z := str "stable".
Definition OTA_PATH_CHANNEL : list Z := str "/sys/ota/channel".
Definition OTA_MANIFEST_SIZE : Z := 128.

Record ota_manifest := mk_manifest {
  om_magic : Z;
  om_format : Z;
  om_sig : Z;
  om_name : list Z;
  om_version : list Z;
  om_channel : list Z;
  om_caps : Z;
  om_elf_offset : Z;
  om_elf_size : Z;
  om_install_path : list Z;
  om_hmac : list Z
}.

(** The structure at the start of a buffer. *)
Definition manifest_of (l : list Z) : ota_manifest :=
  mk_manifest (get_le32 l 0) (get_le32 l 4) (get_le32 l 8) (sub l 12 32) (sub l 44 16) (sub l 60 8)
    (get_le32 l 68) (get_le32 l 72) (get_le32 l 76) (sub l 80 16) (sub l 96 32).

Definition ota_hmac_key : list Z := str "openagentos-ota-dev-key-v1".

Definition ota_crc32_update (crc : Z) (data : list Z) : Z := foldl crc_byte crc data.

(** The size of a file, an error for a missing one. *)
Definition ota_file_size (fs : ramfs) (path : list Z) : Z :=
  let n := (ramfs_read fs path 0 1).1 in
  if n <? 0 then n else usage_loop (Z.to_nat (RAMFS_FILE_SIZE - 1)) fs path 1.

Definition ota_pkg_path_ok (cur : option Z) (path : list Z) : bool :=
  if cmatch path 1 (str "sys/ota/") then true
  else if cmatch path 1 (str "agent/") then
    let '(id, rest) := scan_int 0 (drop 7 path) in
    match cur with
    | Some c => (cget rest 0 =? chr "/") && (id =? c)
    | None => false
    end
  else false.

Definition to_lower (c : Z) : Z := if (65 <=? c) && (c <=? 90) then c + 32 else c.

(** The comparison of the first eight characters; [cur] is terminated. *)
Fixpoint channel_eq (n : nat) (cur pkg : list Z) : bool :=
  match n with
  | O => true
  | S n' =>
      let a := to_lower (cget cur 0) in
      let b := to_lower (cget pkg 0) in
      if negb (a =? b) then false else if a =? 0 then true else channel_eq n' (drop 1 cur) (drop 1 pkg)
  end.

Definition ota_channel_matches (fs : ramfs) (pkg_channel : list Z) : bool :=
  let '(n, cur) := ramfs_read fs OTA_PATH_CHANNEL 0 15 in
  if n <=? 0 then cget pkg_channel 0 =? chr "s" else channel_eq 8 cur pkg_channel.

(** [None] when the checksum would read outside the buffer. *)
Definition ota_package_sig (pkg : list Z) (elf_offset total : Z) : option Z :=
  let tmp := splice (take (Z.to_nat OTA_MANIFEST_SIZE) pkg) 8 [0; 0; 0; 0] in
  let crc := ota_crc32_update 0xffffffff tmp in
  crc ← (if OTA_MANIFEST_SIZE <? elf_offset then
           if zlen pkg <? elf_offset then None
           else Some (ota_crc32_update crc (sub pkg OTA_MANIFEST_SIZE (elf_offset - OTA_MANIFEST_SIZE)))
         else Some crc);
  let crc := if elf_offset <? total then ota_crc32_update crc (sub pkg elf_offset (total - elf_offset)) else crc in
  Some (Z.lxor crc 0xffffffff).

Section ota.
Context {D : Type} {L : Layout} (sha256 : list Z → list Z) (hart : Z).
Abbreviation kstate := (kstate D).

Definition ota_compute_hmac (pkg : list Z) (len : Z) : list Z :=
  sha256 (ota_hmac_key
    ++ if len <? OTA_MANIFEST_SIZE then take (Z.to_nat len) pkg
       else splice (take (Z.to_nat OTA_MANIFEST_SIZE) pkg) 96 (replicate 32 0)
            ++ sub pkg OTA_MANIFEST_SIZE (len - OTA_MANIFEST_SIZE)).

Definition ota_hmac_match (pkg : list Z) (len : Z) (expect : list Z) : Z :=
  let got := ota_compute_hmac pkg len in
  if forallb (λ i, cget got i =? cget expect i) (seqZ 0 32) then 0 else EPERM.

(** The checks on the file's bytes, in order. *)
Definition ota_check (fs : ramfs) (buf : list Z) : outcome Z :=
  let len := zlen buf in
  let m := manifest_of buf in
  if negb (om_magic m =? OTA_PKG_MAGIC) then Ret EINVAL
  else if negb (om_format m =? OTA_FMT_VERSION) && negb (om_format m =? OTA_FMT_SIGNED) then Ret EINVAL
  else if om_elf_offset m <? OTA_MANIFEST_SIZE then Ret EINVAL
  else if len <? u32 (om_elf_offset m + om_elf_size m) then Ret EINVAL
  else if negb (cget (om_install_path m) 0 =? chr "/") then Ret EINVAL
  else
    match (if om_format m =? OTA_FMT_SIGNED then Some (ota_hmac_match buf len (om_hmac m) =? 0)
           else (λ sig, sig =? om_sig m) <$> ota_package_sig buf (om_elf_offset m) len) with
    | None => Undef
    | Some false => Ret EPERM
    | Some true => if negb (ota_channel_matches fs (om_channel m)) then Ret EPERM else Ret 0
    end.

(** The result and, when it is 0, the buffer, whose start is the manifest. *)
Definition ota_parse_package (path : list Z) : M kstate (Z * list Z) :=
  let! len := gets (λ s, ota_file_size (kfs s) path) in
  if len <? 0 then ret (len, [])
  else if len <? OTA_MANIFEST_SIZE + 64 then ret (EINVAL, [])
  else
    let! p := onkvm (vm_kalloc len) in
    if p =? 0 then ret (ENOSPC, [])
    else
      let! r := gets (λ s, ramfs_read (kfs s) path 0 len) in
      if negb (r.1 =? len) then ret (if r.1 <? 0 then r.1 else EIO, [])
      else
        λ s, match ota_check (kfs s) r.2 with
             | Ret rc => Ret ((rc, r.2), s)
             | Undef => Undef
             | Halt => Halt
             end.

Definition ota_init : M kstate unit :=
  let! r := gets (λ s, ramfs_read (kfs s) OTA_PATH_CHANNEL 0 15) in
  if 0 <? r.1 then ret tt
  else onfs (act (λ fs, ramfs_put fs OTA_PATH_CHANNEL OTA_CHANNEL_STABLE 6)) ;; ret tt.

Definition ota_kernel_gen : Z := 2.

Definition ota_channel_set (channel : Z) : M kstate Z :=
  if channel =? 0 then ret EINVAL
  else
    let! len := user_strnlen hart channel 15 in
    if len <=? 0 then ret EINVAL
    else
      let! r := copy_from_user hart channel (len + 1) in
      if r.1 <? 0 then ret EFAULT
      else
        let! rc := onfs (act (λ fs, ramfs_put fs OTA_PATH_CHANNEL r.2 len)) in
        if negb (rc =? 0) then ret ENOSPC else ret 0.

(** A store by the kernel through a pointer that was not checked: on a page the
    agent may write it is an ordinary store; anywhere else it faults or overwrites
    the kernel's own memory. *)
Definition raw_store (va b : Z) : M kstate unit :=
  λ s, if user_ok (kvm s) (cur_root hart s) true va then hw_store hart va b s else Undef.

Fixpoint raw_stores (va : Z) (data : list Z) : M kstate unit :=
  match data with
  | [] => ret tt
  | b :: data' => raw_store va b ;; raw_stores (u64 (va + 1)) data'
  end.

Definition ota_channel_get (buf buflen : Z) : M kstate Z :=
  if (buf =? 0) || (buflen <=? 0) then ret EINVAL
  else
    let! r := gets (λ s, ramfs_read (kfs s) OTA_PATH_CHANNEL 0 (buflen - 1)) in
    raw_stores buf r.2 ;;
    if r.1 <? 0 then ret r.1 else raw_store (u64 (buf + r.1)) 0 ;; ret r.1.

Definition ota_verify_package_kpath (kpath : list Z) : M kstate Z :=
  let! r := ota_parse_package kpath in ret r.1.

Definition ota_apply_package_kpath (kpath : list Z) : M kstate Z :=
  let! cur := gets (agent_current hart) in
  let! ok := gets (λ s, agent_has_cap s cur CAP_FS) in
  if negb ok then ret EPERM
  else
    let! c := gets (λ s, (λ c, id (agent_at s c)) <$> cur) in
    if negb (ota_pkg_path_ok c kpath) then ret EPERM
    else
      let! r := ota_parse_package kpath in
      if negb (r.1 =? 0) then ret r.1
      else
        let m := manifest_of r.2 in
        let elf_len := i32 (om_elf_size m) in
        let! path := orundef (cstr_of (om_install_path m)) in
        let! rc := onfs (act (λ fs, ramfs_put fs path (sub r.2 (om_elf_offset m) elf_len) elf_len)) in
        if negb (rc =? 0) then ret ENOSPC
        else if zlen r.2 <? om_elf_offset m + elf_len then undef
        else ret 0.

(** The path argument of the tool. *)
Definition with_kpath (path : Z) (k : list Z → M kstate Z) : M kstate Z :=
  if path =? 0 then ret EINVAL
  else
    let! len := user_strnlen hart path 63 in
    if len <=? 0 then ret EFAULT
    else
      let! t := copy_text hart path len in
      match t with None => ret EFAULT | Some kpath => k kpath end.

Definition ota_verify_package (path : Z) : M kstate Z := with_kpath path ota_verify_package_kpath.

Definition ota_apply_package (path : Z) : M kstate Z :=
  let! cur := gets (agent_current hart) in
  let! ok := gets (λ s, agent_has_cap s cur CAP_FS) in
  if negb ok then ret EPERM else with_kpath path ota_apply_package_kpath.

Definition run_ota (i arg0 arg1 arg2 : Z) : M kstate Z :=
  let cmd := i32 arg0 in
  if cmd =? OTA_CMD_APPLY then ota_apply_package (u64 arg1)
  else if cmd =? OTA_CMD_VERIFY then ota_verify_package (u64 arg1)
  else if cmd =? OTA_CMD_CHANNEL_GET then ota_channel_get (u64 arg1) (i32 arg2)
  else if cmd =? OTA_CMD_CHANNEL_SET then ota_channel_set (u64 arg1)
  else if cmd =? OTA_CMD_KERNEL_GEN then ret ota_kernel_gen
  else ret EINVAL.


(** ** Verification *)

(** The three-part checksum is the checksum of the whole package with its
    signature word zeroed. *)
Lemma ota_package_sig_crc pkg off :
  OTA_MANIFEST_SIZE ≤ zlen pkg → OTA_MANIFEST_SIZE ≤ off →
  ota_package_sig pkg off (zlen pkg) =
  if zlen pkg <? off then None else Some (persist_crc32 (splice pkg 8 [0; 0; 0; 0])).
Proof.
  unfold ota_package_sig, ota_crc32_update, persist_crc32, OTA_MANIFEST_SIZE. intros Hl Ho.
  assert (splice pkg 8 [0; 0; 0; 0]
          = splice (take (Z.to_nat 128) pkg) 8 [0; 0; 0; 0] ++ sub pkg 128 (off - 128)
            ++ sub pkg off (zlen pkg - off) ∨ zlen pkg < off) as [E|E].
  { destruct (Z.lt_ge_cases (zlen pkg) off); [by right|]. left. rewrite app_assoc.
    unfold splice, sub, zlen in *. simpl length. rewrite take_take, <- !app_assoc.
    replace (Z.to_nat 8 `min` Z.to_nat 128)%nat with (Z.to_nat 8) by lia. f_equal. f_equal.
    rewrite skipn_firstn_comm.
    rewrite <- (take_drop (Z.to_nat 128 - (Z.to_nat 8 + 4)) (drop (Z.to_nat 8 + 4) pkg)) at 1.
    f_equal. rewrite drop_drop. replace (Z.to_nat 8 + 4 + (Z.to_nat 128 - (Z.to_nat 8 + 4)))%nat with (Z.to_nat 128) by lia.
    rewrite <- (take_drop (Z.to_nat (off - 128)) (drop (Z.to_nat 128) pkg)) at 1. f_equal.
    rewrite drop_drop. replace (Z.to_nat 128 + Z.to_nat (off - 128))%nat with (Z.to_nat off) by lia.
    symmetry. apply take_ge. len. }
  - assert (sub pkg off (zlen pkg - off) = [] ∨ off < zlen pkg) as E2.
    { destruct (Z.lt_ge_cases off (zlen pkg)); [by right|]. left. unfold sub.
      replace (Z.to_nat (zlen pkg - off)) with 0%nat by lia. done. }
    assert (128 < off ∨ off = 128) as [Hgt| ->] by lia.
    + test_true (128 <? off). destruct (Z.ltb_spec (zlen pkg) off); [done|]. simpl. rewrite E, !foldl_app.
      destruct (Z.ltb_spec off (zlen pkg)); [done|]. destruct E2 as [->|]; [done|lia].
    + test_false (zlen pkg <? 128). simpl. rewrite E, !foldl_app.
      destruct (Z.ltb_spec 128 (zlen pkg)); [done|]. destruct E2 as [->|]; [done|lia].
  - test_true (128 <? off). by test_true (zlen pkg <? off).
Qed.

(** What an accepted package of the first format satisfies. *)
Lemma ota_check_v1 fs pkg :
  OTA_MANIFEST_SIZE ≤ zlen pkg → om_format (manifest_of pkg) = OTA_FMT_VERSION → ota_check fs pkg = Ret 0 →
  persist_crc32 (splice pkg 8 [0; 0; 0; 0]) = om_sig (manifest_of pkg).
Proof.
  intros Hl Hf. unfold ota_check. rewrite Hf. repeat (case_test; [done|]).
  change (OTA_FMT_VERSION =? OTA_FMT_SIGNED) with false. bprop. rewrite ota_package_sig_crc by done.
  case_test; [done|]. simpl. case_test; bprop; [by intros|done].
Qed.


(** Two packages that differ in one byte agree on the words that do not hold it. *)
Lemma get_le32_other x a b y k :
  zlen x < k ∨ k + 4 ≤ zlen x → 0 ≤ k → get_le32 (x ++ a :: y) k = get_le32 (x ++ b :: y) k.
Proof.
  intros H Hk. unfold get_le32.
  assert (∀ i, 0 ≤ i → i ≠ zlen x → cget (x ++ a :: y) i = cget (x ++ b :: y) i) as E.
  { intros i Hi Hne. destruct (Z.lt_ge_cases i (zlen x)); [by rewrite !cget_app_l by lia|].
    rewrite !cget_app_r, !cget_cons by lia. done. }
  by rewrite !E by lia.
Qed.

(** A changed byte of a word changes the word. *)
Lemma get_le32_changed x a b y k :
  k ≤ zlen x < k + 4 → 0 ≤ k → byte_ok a → byte_ok b → get_le32 (x ++ a :: y) k = get_le32 (x ++ b :: y) k → a = b.
Proof.
  unfold byte_ok. intros H Hk Ha Hb. unfold get_le32.
  assert (∀ c i, i = zlen x → cget (x ++ c :: y) i = c) as E0.
  { intros c i ->. rewrite cget_app_r, Z.sub_diag by lia. done. }
  assert (∀ i, 0 ≤ i → i ≠ zlen x → cget (x ++ a :: y) i = cget (x ++ b :: y) i) as E.
  { intros i Hi Hne. destruct (Z.lt_ge_cases i (zlen x)); [by rewrite !cget_app_l by lia|].
    rewrite !cget_app_r, !cget_cons by lia. done. }
  intros Eq. assert (zlen x = k ∨ zlen x = k + 1 ∨ zlen x = k + 2 ∨ zlen x = k + 3) as Hx by lia.
  destruct (Z.eq_dec a b) as [|Hne]; [done|]. exfalso.
  pose proof (E k) as E1. pose proof (E (k + 1)) as E2. pose proof (E (k + 2)) as E3. pose proof (E (k + 3)) as E4.
  pose proof (E0 a k). pose proof (E0 a (k + 1)). pose proof (E0 a (k + 2)). pose proof (E0 a (k + 3)).
  pose proof (E0 b k). pose proof (E0 b (k + 1)). pose proof (E0 b (k + 2)). pose proof (E0 b (k + 3)). lia.
Qed.

Abbreviation zero_sig pkg := (splice pkg 8 [0; 0; 0; 0]).

(** Zeroing the signature word hides a change inside it and keeps any other. *)
Lemma zero_sig_inside x a b y : 8 ≤ zlen x < 12 → 12 ≤ zlen (x ++ a :: y) → zero_sig (x ++ a :: y) = zero_sig (x ++ b :: y).
Proof.
  intros Hx Hl. unfold splice, zlen in *. simpl length. rewrite !take_app_le by lia. do 2 f_equal.
  rewrite !drop_app_ge by lia. by destruct (Z.to_nat 8 + 4 - length x)%nat eqn:E; [lia|].
Qed.

Lemma zero_sig_outside x y :
  zlen x < 8 ∨ 12 ≤ zlen x → bytes_ok x → bytes_ok y →
  ∃ x' y', bytes_ok x' ∧ bytes_ok y' ∧ ∀ c, zero_sig (x ++ c :: y) = x' ++ c :: y'.
Proof.
  assert (bytes_ok [0; 0; 0; 0]) by solve_bytes. intros [Hx|Hx] Hbx Hby.
  - exists x, (splice y (7 - zlen x) [0; 0; 0; 0]). split; [done|]. split; [by apply splice_bytes|].
    intros c. rewrite splice_app_r by lia. f_equal. change (c :: y) with ([c] ++ y). rewrite splice_app_r by (unfold zlen in *; simpl; lia).
    simpl. do 2 f_equal. unfold zlen in *. simpl. lia.
  - exists (zero_sig x), y. split; [by apply splice_bytes|]. split; [done|].
    intros c. apply splice_app_l; [lia|]. done.
Qed.

(** [C25] An accepted package of the first format is rejected after any change of one
    byte outside its format word: the checks do not accept two packages that
    differ in one byte.  (Changing the format word selects the other check.) *)
Theorem ota_tamper_rejected fs x a b y :
  let pkg := x ++ a :: y in
  bytes_ok pkg → byte_ok b → a ≠ b → OTA_MANIFEST_SIZE ≤ zlen pkg → (zlen x < 4 ∨ 8 ≤ zlen x) →
  om_format (manifest_of pkg) = OTA_FMT_VERSION → ota_check fs pkg = Ret 0 →
  ota_check fs (x ++ b :: y) ≠ Ret 0.
Proof.
  intros pkg Hok Hb Hab Hl Hx Hf Hc Hc'. unfold pkg in *. clear pkg.
  assert (byte_ok a) as Ha by (apply Forall_app in Hok as [_ Hy]; by inversion Hy).
  assert (OTA_MANIFEST_SIZE ≤ zlen (x ++ b :: y)) as Hl' by (rewrite zlen_app, zlen_cons in *; done).
  apply ota_check_v1 in Hc; [|done..]. apply ota_check_v1 in Hc'; [|done|].
  2: { rewrite <- Hf. symmetry. apply (get_le32_other x a b y 4); lia. }
  change (om_sig (manifest_of ?l)) with (get_le32 l 8) in *. unfold OTA_MANIFEST_SIZE in *.
  apply Forall_app in Hok as [Hbx Hby]. inversion Hby as [|? ? _ Hby']; subst.
  assert (8 ≤ zlen x < 12 ∨ (zlen x < 8 ∨ 12 ≤ zlen x)) as [Hx'|Hx'] by lia.
  - apply Hab. apply (get_le32_changed x a b y 8); [lia..|done|done|]. rewrite <- Hc, <- Hc'. f_equal.
    apply zero_sig_inside; lia.
  - destruct (zero_sig_outside x y Hx' Hbx Hby') as (x' & y' & Hbx' & Hby1 & E).
    rewrite !E in *. rewrite (get_le32_other x a b y 8), <- Hc' in Hc by lia.
    revert Hc. apply crc32_change; [..|done]; by apply Forall_app_2, Forall_cons.
Qed.

(** The bound on the image is a sum of 32-bit words: a manifest of the first
    format whose offset is beyond the file and whose size wraps the sum passes it,
    and the checksum then reads outside the buffer. *)
Theorem ota_offset_wraps fs pkg :
  let m := manifest_of pkg in
  OTA_MANIFEST_SIZE ≤ zlen pkg → om_magic m = OTA_PKG_MAGIC → om_format m = OTA_FMT_VERSION →
  cget (om_install_path m) 0 = chr "/" →
  zlen pkg < om_elf_offset m → u32 (om_elf_offset m + om_elf_size m) ≤ zlen pkg →
  ota_check fs pkg = Undef.
Proof.
  intros m Hl Hm Hf Hp Ho Hw. unfold ota_check. fold m. rewrite Hm, Hf, Hp.
  test_false (om_elf_offset m <? OTA_MANIFEST_SIZE). test_false (zlen pkg <? u32 (om_elf_offset m + om_elf_size m)).
  cbn [negb andb]. rewrite !Z.eqb_refl. change (OTA_FMT_VERSION =? OTA_FMT_SIGNED) with false. cbn [negb andb].
  rewrite ota_package_sig_crc by lia. by test_true (zlen pkg <? om_elf_offset m).
Qed.

(** ** Installation *)

(** The measured size of a file: an existing empty file counts as one byte. *)
Lemma ota_file_size_spec fs path :
  ramfs_wf fs → ota_file_size fs path = match fs_get fs path with None => ENOENT | Some c => Z.max 1 (zlen c) end.
Proof.
  intros Hw. unfold ota_file_size. rewrite ramfs_read_spec by (done || lia).
  destruct (fs_get fs path) as [c|] eqn:Hg; [|done]. cbn [fst]. destruct (fs_get_size _ _ _ Hw Hg) as [Hsz _].
  replace (Z.max 0 (Z.min 1 (zlen c - 0)) <? 0) with false by (symmetry; apply Z.ltb_ge; lia).
  apply usage_loop_spec; (done || unfold RAMFS_FILE_SIZE; lia).
Qed.

(** Reading a package that is on the file system. *)
Lemma ota_parse_spec s path pkg p h :
  ramfs_wf (kfs s) → fs_get (kfs s) path = Some pkg → OTA_MANIFEST_SIZE + 64 ≤ zlen pkg →
  kalloc (zlen pkg) (kheap (kvm s)) = (p, h) → p ≠ 0 →
  ota_parse_package path s =
  match ota_check (kfs s) pkg with
  | Ret rc => Ret ((rc, pkg), with_vm (with_heap h (kvm s)) s)
  | Undef => Undef
  | Halt => Halt
  end.
Proof.
  intros Hw Hg Hl Hk Hp. destruct (fs_get_size _ _ _ Hw Hg) as [Hsz _]. pose proof Hl as Hl'. unfold OTA_MANIFEST_SIZE in Hl'.
  assert (ota_file_size (kfs s) path = zlen pkg) as Es by (rewrite ota_file_size_spec, Hg by done; lia).
  unfold ota_parse_package. rewrite bind_gets, Es. test_false (zlen pkg <? 0). test_false (zlen pkg <? OTA_MANIFEST_SIZE + 64).
  erewrite bind_ret; [|by unfold onkvm, zoom, vm_kalloc; rewrite Hk]. test_false (p =? 0).
  rewrite bind_gets. unfold RAMFS_FILE_SIZE in *. change (kfs (with_vm ?v s)) with (kfs s).
  rewrite (ramfs_read_all _ _ pkg) by (done || lia). cbn [fst snd]. by rewrite Z.eqb_refl.
Qed.

Lemma cstr_of_path l off n path :
  bytes_ok l → zlen (sub l off n) ≤ 64 → cstr_of (sub l off n) = Some path → path_ok path.
Proof.
  intros Hb Hl Hc. pose proof (cstr_of_length _ _ Hc) as Hlen. destruct (cstr_of_prefix _ _ Hc) as (t & E & Hnz).
  split; [|unfold RAMFS_PATH_MAX; klia]. assert (bytes_ok path) as Hp.
  { assert (bytes_ok (sub l off n)) as H by (by apply Forall_take, Forall_drop). rewrite E in H.
    by apply Forall_app in H as [? _]. }
  unfold cstr_ok, bytes_ok in *. rewrite Forall_forall in *. intros c Hin.
  specialize (Hp c Hin). specialize (Hnz c Hin). unfold byte_ok in Hp. lia.
Qed.

(** Reading a package leaves the files alone. *)
Lemma ota_parse_frame s path r s' : ota_parse_package path s = Ret (r, s') → kfs s' = kfs s.
Proof.
  unfold ota_parse_package. rewrite bind_gets. case_test; [by intros [= _ <-]|]. case_test; [by intros [= _ <-]|].
  unfold onkvm, zoom, vm_kalloc, bind at 1. destruct (kalloc _ _) as [p h]. case_test; [by intros [= _ <-]|].
  rewrite bind_gets. case_test; [by intros [= _ <-]|]. destruct (ota_check _ _); [|done..]. by intros [= _ <-].
Qed.

(** The buffer of a successful read is the file. *)
Lemma ota_parse_buffer s path rc buf s' :
  ramfs_wf (kfs s) → ota_parse_package path s = Ret ((rc, buf), s') → rc = 0 →
  fs_get (kfs s) path = Some buf ∧ ota_check (kfs s) buf = Ret 0.
Proof.
  intros Hw. unfold ota_parse_package. rewrite bind_gets, ota_file_size_spec by done.
  destruct (fs_get (kfs s) path) as [c|] eqn:Hg; [|intros [= <- _ _] ?; klia]. destruct (fs_get_size _ _ _ Hw Hg) as [Hsz _].
  test_false (Z.max 1 (zlen c) <? 0). case_test; [intros [= <- _ _] ?; klia|]. bprop. unfold OTA_MANIFEST_SIZE, RAMFS_FILE_SIZE in *.
  unfold onkvm, zoom, vm_kalloc, bind at 1. destruct (kalloc _ _) as [p h]. case_test; [intros [= <- _ _] ?; klia|].
  rewrite bind_gets. change (kfs (with_vm ?v s)) with (kfs s). rewrite (ramfs_read_all _ _ c) by (done || lia).
  cbn [fst snd]. test_true (zlen c =? Z.max 1 (zlen c)). cbn [negb]. change (kfs (with_vm ?v s)) with (kfs s).
  destruct (ota_check (kfs s) c) as [rc'| |] eqn:E; [|done..]. intros [= ? ? _] ?. by subst.
Qed.

(** What a successful application read and wrote. *)
Lemma ota_apply_frame s kpath s' :
  ramfs_wf (kfs s) → ota_apply_package_kpath kpath s = Ret (0, s') →
  ∃ pkg path, fs_get (kfs s) kpath = Some pkg ∧ cstr_of (om_install_path (manifest_of pkg)) = Some path ∧ path_ok path
    ∧ ramfs_wf (kfs s') ∧ is_Some (fs_get (kfs s') path) ∧ ∀ q, q ≠ path → fs_get (kfs s') q = fs_get (kfs s) q.
Proof.
  intros Hw. unfold ota_apply_package_kpath. rewrite !bind_gets. case_test; [done|]. rewrite bind_gets. case_test; [done|].
  unfold bind at 1. destruct (ota_parse_package kpath s) as [[[rc pkg] s1]| |] eqn:E; [|done..]. cbn [fst snd].
  case_test; [by intros [= -> ?]|]. bprop. subst rc. pose proof (ota_parse_frame _ _ _ _ E) as Ef.
  apply ota_parse_buffer in E as [Hg Hchk]; [|done..]. destruct (fs_get_size _ _ _ Hw Hg) as [Hsz Hb].
  set (m := manifest_of pkg). destruct (cstr_of (om_install_path m)) as [path|] eqn:Ep; [|done]. simpl orundef.
  erewrite bind_ret by done. set (n := i32 (om_elf_size m)).
  assert (path_ok path) as Hpo.
  { eapply (cstr_of_path pkg 80 16); [done| |done]. unfold zlen, sub. rewrite length_take. lia. }
  unfold bind, onfs, zoom, act. rewrite Ef. destruct (ramfs_put (kfs s) path _ n) as [rc fs'] eqn:Eput.
  case_test; [by intros [= ?]|]. case_test; [done|]. intros [= <-]. bprop. exists pkg, path.
  split_and!; try done; change (kfs (with_fs fs' s1)) with fs'.
  all: assert (0 < n < RAMFS_FILE_SIZE) as Hn by
    (destruct (Z.lt_ge_cases 0 n), (Z.lt_ge_cases n RAMFS_FILE_SIZE); try lia;
     rewrite ramfs_put_inval in Eput by lia; by simplify_eq).
  all: assert (0 ≤ om_elf_offset m) as Hoff by
    (revert Hchk; unfold ota_check; fold m; repeat (case_test; [done|]); bprop; unfold OTA_MANIFEST_SIZE in *; lia).
  all: assert (zlen (sub pkg (om_elf_offset m) n) = n) as Hi by (apply zlen_sub; lia).
  all: pose proof (ramfs_put_spec (kfs s) path (sub pkg (om_elf_offset m) n) Hw Hpo
         ltac:(by apply Forall_take, Forall_drop) ltac:(by rewrite Hi)) as Hput.
  all: rewrite Hi, Eput in Hput; destruct Hput as [(_ & ? & ? & ?)|(? & _)]; [by eauto|subst rc; done].
Qed.

(** Applying an accepted package stores exactly its image under the path its
    manifest names and changes no other file; a full table refuses it without a
    change.  The caller needs the file capability and a package under its own home
    or /sys/ota, but the install path is any path of the package's choice. *)
Theorem ota_apply_installs s i kpath pkg p h path :
  let m := manifest_of pkg in
  agent_current hart s = Some i → agent_has_cap s (Some i) CAP_FS = true →
  ota_pkg_path_ok (Some (id (agent_at s i))) kpath = true →
  ramfs_wf (kfs s) → fs_get (kfs s) kpath = Some pkg → OTA_MANIFEST_SIZE + 64 ≤ zlen pkg →
  kalloc (zlen pkg) (kheap (kvm s)) = (p, h) → p ≠ 0 →
  ota_check (kfs s) pkg = Ret 0 → om_elf_offset m + om_elf_size m ≤ zlen pkg → 0 < om_elf_size m →
  cstr_of (om_install_path m) = Some path →
  ∃ rc fs', ota_apply_package_kpath kpath s = Ret (rc, with_fs fs' (with_vm (with_heap h (kvm s)) s)) ∧
  ((rc = 0 ∧ ramfs_wf fs' ∧ fs_get fs' path = Some (sub pkg (om_elf_offset m) (om_elf_size m))
    ∧ ∀ q, q ≠ path → fs_get fs' q = fs_get (kfs s) q)
   ∨ (rc = ENOSPC ∧ fs' = kfs s ∧ fs_full (kfs s) ∧ fs_get (kfs s) path = None)).
Proof.
  intros m Hc Hcap Hok Hw Hg Hl Hk Hp Hchk Hb Hpos Hpath. unfold ota_apply_package_kpath.
  rewrite !bind_gets, Hc, Hcap. cbn [negb]. rewrite bind_gets. cbn [fmap option_fmap option_map]. rewrite Hok. cbn [negb].
  erewrite bind_ret by (erewrite ota_parse_spec, Hchk by done; reflexivity). cbn [fst snd]. rewrite Z.eqb_refl. cbn [negb].
  fold m. destruct (fs_get_size _ _ _ Hw Hg) as [Hsz Hbytes]. unfold RAMFS_FILE_SIZE in Hsz.
  assert (OTA_MANIFEST_SIZE ≤ om_elf_offset m) as Ho.
  { revert Hchk. unfold ota_check. fold m. repeat (case_test; [done|]). bprop. done. }
  unfold OTA_MANIFEST_SIZE in Ho.
  rewrite i32_small by lia. rewrite Hpath. simpl orundef.
  erewrite bind_ret by done. set (img := sub pkg _ _).
  assert (zlen img = om_elf_size m) as Hi by (apply zlen_sub; lia).
  assert (path_ok path) as Hpo.
  { eapply (cstr_of_path pkg 80 16); [done| |done]. rewrite zlen_sub; unfold OTA_MANIFEST_SIZE in Hl; lia. }
  pose proof (ramfs_put_spec (kfs s) path img Hw Hpo) as Hput. rewrite <- Hi.
  destruct (ramfs_put (kfs s) path img (zlen img)) as [rc fs'] eqn:E.
  erewrite (bind_ret (onfs _)); [|by unfold onfs, zoom, act; simpl; rewrite E].
  destruct Hput as [(-> & ? & ? & ?)|(-> & -> & ? & ?)].
  - by apply Forall_take, Forall_drop.
  - unfold RAMFS_FILE_SIZE. lia.
  - exists 0, fs'. test_false (zlen pkg <? om_elf_offset m + zlen img). simpl. split; [done|]. left. done.
  - exists ENOSPC, (kfs s). split; [done|]. by right.
Qed.

(** The channel query stores through the caller's pointer unchecked: an address
    the caller may not write is a kernel fault or a write to kernel memory. *)
Theorem ota_channel_get_unchecked s buf n c :
  ramfs_wf (kfs s) → fs_get (kfs s) OTA_PATH_CHANNEL = Some c → 0 < zlen c → 1 < n < 2147483648 → buf ≠ 0 →
  user_ok (kvm s) (cur_root hart s) true buf = false →
  ota_channel_get buf n s = Undef.
Proof.
  intros Hw Hg Hc Hn Hb Hok. unfold ota_channel_get. test_false (buf =? 0). test_false (n <=? 0). cbn [orb].
  rewrite bind_gets, ramfs_read_spec by (done || lia). rewrite Hg. cbn [fst snd].
  destruct (sub c 0 (Z.max 0 (Z.min (n - 1) (zlen c - 0)))) as [|b l] eqn:E.
  - apply (f_equal zlen) in E. rewrite zlen_sub in E by lia. change (zlen (@nil Z)) with 0 in E. lia.
  - simpl. unfold bind, raw_store. by rewrite Hok.
Qed.

End ota.

(** ** Example: agent 1 applies a package that installs into agent 2's home *)

Definition pad_to (n : nat) (l : list Z) : list Z := take n (l ++ replicate n 0).

Definition demo_pkg_unsigned : list Z :=
  le32 OTA_PKG_MAGIC ++ le32 OTA_FMT_VERSION ++ le32 0 ++ pad_to 32 (str "demo") ++ pad_to 16 (str "1.0")
  ++ pad_to 8 (str "stable") ++ le32 0 ++ le32 OTA_MANIFEST_SIZE ++ le32 64 ++ pad_to 16 (str "/agent/2/bin")
  ++ replicate 32 0 ++ replicate 64 7.

Definition demo_pkg : list Z := splice demo_pkg_unsigned 8 (le32 (persist_crc32 demo_pkg_unsigned)).

Definition demo_pkg_path : list Z := str "/agent/1/p".

Definition demo_pkg_fs : ramfs := (ramfs_put zero_fs demo_pkg_path demo_pkg (zlen demo_pkg)).2.

(** Agent 1 with the file capability. *)
Definition demo_installer : kstate unit :=
  mk_kstate (<[1%nat := upd.caps CAP_FS talker]> (idle_agent <$> seqZ 0 MAX_AGENTS)) 12 0 true [Some 1; None; None; None]
    [[]; []; []; []] 1 [root_table; root_table; root_table; root_table] boot_vm demo_pkg_fs zero_quota zero_policy false tt [].

Lemma demo_pkg_bytes : bytes_ok demo_pkg.
Proof. apply (bool_decide_unpack _). by vm_compute. Qed.

Lemma demo_pkg_fs_wf : ramfs_wf demo_pkg_fs ∧ fs_get demo_pkg_fs demo_pkg_path = Some demo_pkg.
Proof.
  assert (path_ok demo_pkg_path) as Hp by (split; [solve_bytes|done]).
  pose proof (ramfs_put_spec zero_fs demo_pkg_path demo_pkg zero_fs_wf Hp demo_pkg_bytes ltac:(by vm_compute)) as H.
  unfold demo_pkg_fs. destruct (ramfs_put zero_fs demo_pkg_path demo_pkg (zlen demo_pkg)) as [rc fs'].
  destruct H as [(_ & ? & ? & _)|(_ & _ & Hfull & _)]; [done|].
  exfalso. unfold fs_full in Hfull. rewrite Forall_forall in Hfull.
  specialize (Hfull zero_file). discriminate Hfull. by apply list_elem_of_here.
Qed.

Lemma ota_tamper_rejected_witness :
  ota_check (λ _, []) zero_fs (take 130 demo_pkg ++ 8 :: drop 131 demo_pkg) ≠ Ret 0.
Proof.
  apply (ota_tamper_rejected (λ _, []) zero_fs (take 130 demo_pkg) 7 8 (drop 131 demo_pkg));
    [|done|done|by vm_compute|right; by vm_compute|by vm_compute|by vm_compute].
  apply (bool_decide_unpack _). by vm_compute.
Defined.

Lemma ota_apply_installs_witness :
  ∃ fs', ota_apply_package_kpath (λ _, []) 0 demo_pkg_path demo_installer
         = Ret (0, with_fs fs' (with_vm (with_heap (kalloc (zlen demo_pkg) (kheap boot_vm)).2 boot_vm) demo_installer))
    ∧ fs_get fs' (str "/agent/2/bin") = Some (replicate 64 7).
Proof.
  destruct demo_pkg_fs_wf as [Hw Hg].
  destruct (ota_apply_installs (λ _, []) 0 demo_installer 1 demo_pkg_path demo_pkg
    (kalloc (zlen demo_pkg) (kheap boot_vm)).1 (kalloc (zlen demo_pkg) (kheap boot_vm)).2 (str "/agent/2/bin"))
    as (rc & fs' & E & H);
    [by vm_compute|by vm_compute|by vm_compute|exact Hw|exact Hg|by vm_compute|apply surjective_pairing
    |by vm_compute|by vm_compute|by vm_compute|by vm_compute|by vm_compute|].
  exists fs'. destruct H as [(-> & _ & Hfs & _)|(_ & _ & Hfull & _)].
  - split; [exact E|]. rewrite Hfs. by vm_compute.
  - exfalso. unfold fs_full in Hfull. rewrite Forall_forall in Hfull.
    assert (demo_pkg_fs !! 5%nat = Some zero_file) as H5 by (by vm_compute).
    specialize (Hfull zero_file (list_elem_of_lookup_2 _ _ _ H5)). discriminate Hfull.
Defined.
