(* ===== verification/Catalog.v ===== *)
(** * The package catalog (kernel/catalog.c)

    The index file lists packages, one line each, with fields separated by bars;
    the files active and rollback hold the installed version and the saved one.
    Installation verifies a package, backs up the installed image, applies the
    package and records it; rollback copies the backup back.

    A field that a line does not have leaves the caller's buffer as it was, here
    [None]; reading such a buffer is [Undef]. *)

From S2P Require Import Prelude Abi Ipc Ramfs Persist Paths Quota Policy Sched AgentDef Mem Vm VmTree VmProps Kernel Uaccess Agent Tool Ota.

Definition CATALOG_PATH_INDEX : list Z := str "/agent/1/catalog/index".
Definition CATALOG_PATH_ACTIVE : list Z := str "/agent/1/catalog/active".
Definition CATALOG_PATH_ROLLBACK : list Z := str "/agent/1/catalog/rollback".

Record catalog_entry := mk_centry {
  ce_version : option (list Z);
  ce_pkg_path : option (list Z);
  ce_install_path : option (list Z);
  ce_channel : option (list Z);
  ce_min_version : option (list Z)
}.

Definition catalog_file_size (fs : ramfs) (path : list Z) : Z :=
  let n := (ramfs_read fs path 0 1).1 in
  if n <? 0 then n else usage_loop (Z.to_nat (RAMFS_FILE_SIZE - 1)) fs path 1.

(** The result and the bytes read. *)
Definition catalog_read_file (fs : ramfs) (path : list Z) (cap : Z) : Z * list Z :=
  let len := catalog_file_size fs path in
  if len <? 0 then (len, [])
  else if cap <=? len then (ENOSPC, [])
  else
    let '(n, buf) := ramfs_read fs path 0 len in
    if negb (n =? len) then (EIO, []) else (len, buf).

Definition catalog_copy_file (src dst : list Z) (fs : ramfs) : Z * ramfs :=
  let len := catalog_file_size fs src in
  if len <? 0 then (len, fs)
  else if len =? 0 then (ENOENT, fs)
  else if RAMFS_FILE_SIZE <? len then (ENOSPC, fs)
  else
    let '(n, buf) := ramfs_read fs src 0 len in
    if negb (n =? len) then (EIO, fs)
    else let '(rc, fs') := ramfs_put fs dst buf len in (if negb (rc =? 0) then ENOSPC else 0, fs').

(** ** Versions *)

(** The loop over the text, with the part and the numbers read so far. *)
Fixpoint version_loop (s : list Z) (part m n p : Z) : option (Z * Z * Z) :=
  match s with
  | [] => Some (m, n, p)
  | c :: s' =>
      if is_digit c then
        let d := c - 48 in
        if part =? 0 then version_loop s' part (i32 (m * 10 + d)) n p
        else if part =? 1 then version_loop s' part m (i32 (n * 10 + d)) p
        else version_loop s' part m n (i32 (p * 10 + d))
      else if c =? chr "." then if 2 <? part + 1 then None else version_loop s' (part + 1) m n p
      else Some (m, n, p)
  end.

Definition parse_version (s : list Z) : option (Z * Z * Z) := version_loop s 0 0 0 0.

Definition version_ge (a b : list Z) : bool :=
  match parse_version a with
  | None => false
  | Some (am, an, ap) =>
      match parse_version b with
      | None => true
      | Some (bm, bn, bp) =>
          if negb (am =? bm) then bm <? am
          else if negb (an =? bn) then bn <? an
          else bp <=? ap
      end
  end.

(** ** Lines and fields *)

Definition BAR : Z := 124.

Fixpoint skip_fields (line : list Z) (field : nat) : option (list Z) :=
  match field with
  | O => Some line
  | S f => match line with
           | [] => None
           | c :: l => if c =? BAR then skip_fields l f else skip_fields l field
           end
  end.

Fixpoint until_bar (n : nat) (s : list Z) : list Z :=
  match n, s with
  | S n', c :: s' => if c =? BAR then [] else c :: until_bar n' s'
  | _, _ => []
  end.

(** What is left in the buffer of [outlen] bytes, [None] when it is not written.
    The C function gives 1 exactly for a non-empty field. *)
Definition split_field (line : list Z) (field : nat) (outlen : Z) : option (list Z) :=
  until_bar (Z.to_nat (outlen - 1)) <$> skip_fields line field.

Definition nonempty (o : option (list Z)) : bool :=
  match o with Some (_ :: _) => true | _ => false end.

(** The lines of a file as the scanning loops see them; a NUL ends a line early. *)
Fixpoint file_lines (l : list Z) : list (list Z) :=
  match l with
  | [] => []
  | c :: l' =>
      if c =? 10 then [] :: file_lines l'
      else match file_lines l' with [] => [[c]] | x :: r => (c :: x) :: r end
  end.

Definition text_lines (l : list Z) : list (list Z) := (λ x, until_nul (length x) x) <$> file_lines l.

(** The first line whose first field is [name]. *)
Definition named_line (text name : list Z) : option (list Z) :=
  find (λ l, match split_field l 0 32 with
             | Some (c :: e) => str_eq (c :: e) name
             | _ => false
             end) (text_lines text).

Definition catalog_find_entry (fs : ramfs) (name : list Z) : Z * catalog_entry :=
  let none := mk_centry None None None None None in
  let '(len, index) := catalog_read_file fs CATALOG_PATH_INDEX RAMFS_FILE_SIZE in
  if len <? 0 then (len, none)
  else match named_line index name with
       | None => (ENOENT, none)
       | Some l => (0, mk_centry (split_field l 1 16) (split_field l 2 48) (split_field l 3 48)
                         (split_field l 4 8) (split_field l 5 16))
       end.

Definition catalog_active_line (fs : ramfs) (name : list Z) (linelen : Z) : Z * list Z :=
  let '(len, active) := catalog_read_file fs CATALOG_PATH_ACTIVE RAMFS_FILE_SIZE in
  if len <? 0 then (len, [])
  else match named_line active name with
       | None => (ENOENT, [])
       | Some l => (0, take (Z.to_nat (linelen - 1)) l)
       end.

(** The field of the active line, or [ENOENT]. *)
Definition active_field (fs : ramfs) (name : list Z) (field : nat) (len : Z) : Z * list Z :=
  let '(rc, line) := catalog_active_line fs name 128 in
  if negb (rc =? 0) then (ENOENT, [])
  else match split_field line field len with
       | Some (c :: f) => (0, c :: f)
       | _ => (ENOENT, [])
       end.

Definition catalog_active_version (fs : ramfs) (name : list Z) (verlen : Z) : Z * list Z :=
  active_field fs name 1 verlen.

Definition catalog_active_install (fs : ramfs) (name : list Z) (pathlen : Z) : Z * list Z :=
  active_field fs name 2 pathlen.

(** The text built in a line buffer of 128 bytes; [None] when a separator or the
    terminator falls outside it. *)
Definition line_text (name version path : list Z) : option (list Z) :=
  let add (line s : list Z) := line ++ take (Z.to_nat (127 - zlen line)) s in
  let bar (line : list Z) := if zlen line <? 128 then Some (line ++ [BAR]) else None in
  l1 ← bar (add [] name);
  l2 ← bar (add l1 version);
  let l3 := add l2 path in
  if zlen l3 <? 128 then Some l3 else None.

Definition catalog_set_active (name version install_path : list Z) : M ramfs Z :=
  let! line := orundef (line_text name version install_path) in
  let! rc := act (λ fs, ramfs_put fs CATALOG_PATH_ACTIVE line (zlen line)) in
  ret (if negb (rc =? 0) then ENOSPC else 0).

Definition catalog_set_rollback (name version backup_path : list Z) : M ramfs Z :=
  let! line := orundef (line_text name version backup_path) in
  let! rc := act (λ fs, ramfs_put fs CATALOG_PATH_ROLLBACK line (zlen line)) in
  ret (if negb (rc =? 0) then ENOSPC else 0).

(** The result, the version and the backup path. *)
Definition catalog_read_rollback (fs : ramfs) (name : list Z) (verlen backlen : Z) : Z * option (list Z) * option (list Z) :=
  let '(len, rb) := catalog_read_file fs CATALOG_PATH_ROLLBACK RAMFS_FILE_SIZE in
  if len <? 0 then (len, None, None)
  else match named_line rb name with
       | None => (ENOENT, None, None)
       | Some l => (0, split_field l 1 verlen, split_field l 2 backlen)
       end.

(** The lines printed; printing an unset buffer is undefined. *)
Fixpoint list_lines (ls : list (list Z)) (count : Z) : option Z :=
  match ls with
  | [] => Some count
  | l :: ls' =>
      if nonempty (split_field l 0 32) then
        if forallb (λ f, match split_field l f 16 with Some _ => true | None => false end) [1; 2; 3; 4; 5]%nat
        then list_lines ls' (count + 1) else None
      else list_lines ls' count
  end.

Section catalog.
Context {D : Type} {L : Layout} (sha256 : list Z → list Z) (hart : Z).
Abbreviation kstate := (kstate D).

Definition catalog_list : M kstate Z :=
  let! r := gets (λ s, catalog_read_file (kfs s) CATALOG_PATH_INDEX RAMFS_FILE_SIZE) in
  if r.1 <? 0 then ret r.1 else orundef (list_lines (text_lines r.2) 0).

(** The version constraint: 0 when the installation may go on. *)
Definition version_guard (fs : ramfs) (kname min : list Z) : Z :=
  let '(rc, cur) := catalog_active_version fs kname 16 in
  if rc =? 0 then if negb (version_ge cur min) then EPERM else 0
  else if negb (cget min 0 =? chr "0") then EPERM else 0.

(** Saving the installed image and its version. *)
Definition save_installed (kname install_path backup : list Z) : M ramfs Z :=
  let! n := gets (λ fs, catalog_file_size fs install_path) in
  if 0 <? n then
    let! v := gets (λ fs, catalog_active_version fs kname 16) in
    let! rc := (if v.1 =? 0 then catalog_set_rollback kname v.2 backup else ret 0) in
    if negb (rc =? 0) then ret rc else act (catalog_copy_file install_path backup)
  else ret 0.

Definition catalog_install_kname (kname : list Z) : M kstate Z :=
  let! r := gets (λ s, catalog_find_entry (kfs s) kname) in
  if negb (r.1 =? 0) then ret r.1
  else
    let! min := orundef (ce_min_version r.2) in
    let! rc := gets (λ s, version_guard (kfs s) kname min) in
    if negb (rc =? 0) then ret rc
    else
      let! pkg := orundef (ce_pkg_path r.2) in
      let! rc := ota_verify_package_kpath sha256 pkg in
      if negb (rc =? 0) then ret rc
      else
        let! install_path := orundef (ce_install_path r.2) in
        let backup := take 59 install_path ++ str ".prev" in
        let! rc := onfs (save_installed kname install_path backup) in
        if negb (rc =? 0) then ret rc
        else
          let! rc := ota_apply_package_kpath sha256 hart pkg in
          if negb (rc =? 0) then ret rc
          else
            let! version := orundef (ce_version r.2) in
            onfs (catalog_set_active kname version install_path).

Definition catalog_rollback_kname (kname : list Z) : M ramfs Z :=
  let! r := gets (λ fs, catalog_read_rollback fs kname 16 64) in
  let '(rc, prev_ver, backup) := r in
  if negb (rc =? 0) then ret rc
  else
    let! backup := orundef backup in
    let! n := gets (λ fs, catalog_file_size fs backup) in
    if n <=? 0 then ret ENOENT
    else
      let! a := gets (λ fs, catalog_active_install fs kname 64) in
      let install := if negb (a.1 =? 0) then backup else a.2 in
      let! rc := act (catalog_copy_file backup install) in
      if negb (rc =? 0) then ret rc
      else
        let! prev_ver := orundef prev_ver in
        let! rc := catalog_set_active kname prev_ver install in
        if negb (rc =? 0) then ret rc
        else
          let! _ := act (λ fs, ramfs_put fs CATALOG_PATH_ROLLBACK [] 0) in
          ret 0.

(** The name argument of the tool. *)
Definition with_kname (name : Z) (k : list Z → M kstate Z) : M kstate Z :=
  let! cur := gets (agent_current hart) in
  let! ok := gets (λ s, agent_has_cap s cur CAP_FS) in
  if negb ok then ret EPERM
  else if name =? 0 then ret EINVAL
  else
    let! len := user_strnlen hart name 31 in
    if len <=? 0 then ret EINVAL
    else
      let! t := copy_text hart name len in
      match t with None => ret EFAULT | Some kname => k kname end.

Definition catalog_install (name : Z) : M kstate Z := with_kname name catalog_install_kname.

Definition catalog_rollback (name : Z) : M kstate Z :=
  with_kname name (λ kname, onfs (catalog_rollback_kname kname)).

Definition run_catalog (i arg0 arg1 arg2 : Z) : M kstate Z :=
  let cmd := i32 arg0 in
  if cmd =? CATALOG_CMD_LIST then catalog_list
  else if cmd =? CATALOG_CMD_INSTALL then catalog_install (u64 arg1)
  else if cmd =? CATALOG_CMD_ROLLBACK then catalog_rollback (u64 arg1)
  else ret EINVAL.

End catalog.

(** ** Files *)

Lemma catalog_file_size_spec fs path :
  ramfs_wf fs → catalog_file_size fs path = match fs_get fs path with None => ENOENT | Some c => Z.max 1 (zlen c) end.
Proof. apply ota_file_size_spec. Qed.

Lemma catalog_read_spec fs path :
  ramfs_wf fs →
  catalog_read_file fs path RAMFS_FILE_SIZE =
  match fs_get fs path with
  | None => (ENOENT, [])
  | Some [] => (EIO, [])
  | Some c => (zlen c, c)
  end.
Proof.
  intros Hw. unfold catalog_read_file. rewrite catalog_file_size_spec by done.
  destruct (fs_get fs path) as [c|] eqn:Hg; [|done]. destruct (fs_get_size _ _ _ Hw Hg) as [Hsz _]. unfold RAMFS_FILE_SIZE in *.
  test_false (Z.max 1 (zlen c) <? 0). test_false (8192 <=? Z.max 1 (zlen c)). rewrite (ramfs_read_all _ _ c) by (done || lia).
  destruct c as [|x c]; [done|]. rewrite zlen_cons in *. pose proof (zlen_nonneg c).
  replace (Z.max 1 (1 + zlen c)) with (1 + zlen c) by lia. by rewrite Z.eqb_refl.
Qed.

Lemma catalog_copy_spec fs src dst c :
  ramfs_wf fs → fs_get fs src = Some c → 0 < zlen c → path_ok dst →
  let '(rc, fs') := catalog_copy_file src dst fs in
  (rc = 0 ∧ ramfs_wf fs' ∧ fs_get fs' dst = Some c ∧ ∀ q, q ≠ dst → fs_get fs' q = fs_get fs q)
  ∨ (rc = ENOSPC ∧ fs' = fs ∧ fs_full fs ∧ fs_get fs dst = None).
Proof.
  intros Hw Hg Hc Hd. destruct (fs_get_size _ _ _ Hw Hg) as [Hsz Hb]. unfold catalog_copy_file.
  rewrite catalog_file_size_spec, Hg by done. replace (Z.max 1 (zlen c)) with (zlen c) by lia.
  test_false (zlen c <? 0). test_false (zlen c =? 0). test_false (RAMFS_FILE_SIZE <? zlen c). unfold RAMFS_FILE_SIZE in Hsz.
  rewrite (ramfs_read_all _ _ c) by (done || lia). rewrite Z.eqb_refl. cbn [negb].
  pose proof (ramfs_put_spec fs dst c Hw Hd Hb (conj Hc Hsz)) as H. destruct (ramfs_put fs dst c (zlen c)) as [rc fs'].
  by destruct H as [(-> & ?)|(-> & ?)]; [left|right].
Qed.

(** ** Fields *)

(** The characters of a field. *)
Definition field_char (c : Z) : Prop := 0 < c < 256 ∧ c ≠ BAR ∧ c ≠ 10.
Definition field_ok (s : list Z) : Prop := Forall field_char s.

Lemma until_bar_length n s : (length (until_bar n s) ≤ n)%nat.
Proof. revert s; induction n as [|n IH]; intros [|c s]; simpl; try lia. case_test; simpl; [lia|]. specialize (IH s). lia. Qed.

Lemma until_bar_chars n s : Forall (λ c, 0 < c < 256 ∧ c ≠ 10) s → field_ok (until_bar n s).
Proof.
  intros H. revert n; induction H as [|c s Hc Hs IH]; intros [|n]; simpl; try constructor.
  case_test; bprop; [constructor|]. constructor; [|apply IH]. unfold field_char. tauto.
Qed.

Lemma skip_fields_chars P s n r : Forall P s → skip_fields s n = Some r → Forall P r.
Proof.
  intros H. revert n; induction H as [|c s Hc Hs IH]; intros [|n]; simpl; try done.
  - intros [= <-]. constructor.
  - intros [= <-]. by constructor.
  - case_test; apply IH.
Qed.

Lemma split_field_chars s n cap f :
  Forall (λ c, 0 < c < 256 ∧ c ≠ 10) s → split_field s n cap = Some f → field_ok f ∧ zlen f ≤ Z.max 0 (cap - 1).
Proof.
  unfold split_field. intros Hs. destruct (skip_fields s n) as [r|] eqn:E; simpl; [|done]. intros [= <-].
  split; [eapply until_bar_chars, skip_fields_chars; eauto|].
  pose proof (until_bar_length (Z.to_nat (cap - 1)) r). unfold zlen. lia.
Qed.

Lemma until_nul_chars n s : bytes_ok s → Forall (λ c, 0 < c < 256) (until_nul n s).
Proof.
  intros H. revert n; induction H as [|c s Hc Hs IH]; intros [|n]; simpl; try constructor.
  case_test; [constructor|]. unfold byte_ok in Hc. bprop. constructor; [lia|apply IH].
Qed.

Lemma file_lines_chars P l : Forall P l → Forall (Forall (λ c, P c ∧ c ≠ 10)) (file_lines l).
Proof.
  induction 1 as [|c l Hc Hl IH]; simpl; [constructor|]. case_test; bprop; [by repeat constructor|].
  destruct (file_lines l) as [|x r]; [by repeat constructor|]. inversion IH; subst. by repeat constructor.
Qed.

Lemma text_lines_chars l : bytes_ok l → Forall (Forall (λ c, 0 < c < 256 ∧ c ≠ 10)) (text_lines l).
Proof.
  intros Hl. unfold text_lines. apply Forall_fmap. eapply Forall_impl; [by apply file_lines_chars|].
  intros x Hx. simpl. apply Forall_and. split.
  - apply until_nul_chars. eapply Forall_impl; [exact Hx|]. by intros ? [? _].
  - generalize (length x). induction Hx as [|c x Hc Hx IH]; intros [|n]; simpl; try constructor.
    case_test; constructor; [apply Hc|apply IH].
Qed.

Lemma named_line_chars text name l :
  bytes_ok text → named_line text name = Some l →
  Forall (λ c, 0 < c < 256 ∧ c ≠ 10) l ∧ field_ok name ∧ 0 < zlen name ≤ 31.
Proof.
  intros Ht Hl. unfold named_line in Hl. apply find_some in Hl as [Hin Hn].
  pose proof (text_lines_chars text Ht) as Hc. rewrite Forall_forall in Hc. specialize (Hc l ltac:(by apply list_elem_of_In)).
  split; [done|]. destruct (split_field l 0 32) as [[|c e]|] eqn:E; [done| |done].
  apply str_eq_spec in Hn. subst name. apply split_field_chars in E as [Ef El]; [|done].
  split; [done|]. rewrite zlen_cons in *. pose proof (zlen_nonneg e). lia.
Qed.

(** ** Records *)

Lemma until_bar_stop n a r : field_ok a → (length a ≤ n)%nat → until_bar n (a ++ BAR :: r) = a.
Proof.
  intros H. revert n; induction H as [|c a Hc Ha IH]; intros [|n] Hn; simpl in *; try done; try lia.
  destruct Hc as (_ & Hc & _). test_false (c =? BAR). by rewrite IH by lia.
Qed.

Lemma until_bar_end n a : field_ok a → (length a ≤ n)%nat → until_bar n a = a.
Proof.
  intros H. revert n; induction H as [|c a Hc Ha IH]; intros [|n] Hn; simpl in *; try done; try lia.
  destruct Hc as (_ & Hc & _). test_false (c =? BAR). by rewrite IH by lia.
Qed.

Lemma skip_fields_field a r n : field_ok a → skip_fields (a ++ BAR :: r) (S n) = skip_fields r n.
Proof.
  induction 1 as [|c a Hc Ha IH]; simpl; [done|]. destruct Hc as (_ & Hc & _). by test_false (c =? BAR).
Qed.

Definition record_line (name ver path : list Z) : list Z := name ++ BAR :: ver ++ BAR :: path.

Lemma record_fields name ver path :
  field_ok name → field_ok ver → field_ok path → zlen name ≤ 31 → zlen ver ≤ 15 → zlen path ≤ 63 →
  split_field (record_line name ver path) 0 32 = Some name
  ∧ split_field (record_line name ver path) 1 16 = Some ver
  ∧ split_field (record_line name ver path) 2 64 = Some path.
Proof.
  intros Hn Hv Hp Ln Lv Lp. unfold split_field, record_line. split_and!.
  - replace (skip_fields (name ++ BAR :: ver ++ BAR :: path) 0) with (Some (name ++ BAR :: ver ++ BAR :: path)) by (by destruct name).
    cbn [fmap option_fmap option_map]. f_equal. apply until_bar_stop; [done|klia].
  - rewrite skip_fields_field by done. replace (skip_fields (ver ++ BAR :: path) 0) with (Some (ver ++ BAR :: path)) by (by destruct ver).
    cbn [fmap option_fmap option_map]. f_equal. apply until_bar_stop; [done|klia].
  - rewrite !skip_fields_field by done. replace (skip_fields path 0) with (Some path) by (by destruct path).
    cbn [fmap option_fmap option_map]. f_equal. apply until_bar_end; [done|klia].
Qed.

Lemma line_text_spec name ver path :
  zlen name + zlen ver + zlen path ≤ 125 → line_text name ver path = Some (record_line name ver path).
Proof.
  intros H. pose proof (zlen_nonneg name). pose proof (zlen_nonneg ver). pose proof (zlen_nonneg path).
  unfold line_text, record_line. cbn [app]. change (zlen (@nil Z)) with 0. rewrite (take_ge name) by klia.
  test_true (zlen name <? 128). simpl.
  rewrite (take_ge ver) by (rewrite zlen_app; change (zlen [BAR]) with 1; klia).
  replace (zlen ((name ++ [BAR]) ++ ver) <? 128) with true
    by (symmetry; apply Z.ltb_lt; rewrite !zlen_app; change (zlen [BAR]) with 1; lia).
  simpl. rewrite (take_ge path) by (rewrite !zlen_app; change (zlen [BAR]) with 1; klia).
  replace (zlen ((((name ++ [BAR]) ++ ver) ++ [BAR]) ++ path) <? 128) with true
    by (symmetry; apply Z.ltb_lt; rewrite !zlen_app; change (zlen [BAR]) with 1; lia).
  by rewrite <- !app_assoc.
Qed.

Lemma record_text_lines name ver path :
  field_ok name → field_ok ver → field_ok path → text_lines (record_line name ver path) = [record_line name ver path].
Proof.
  intros Hn Hv Hp. set (l := record_line name ver path).
  assert (Forall (λ c, 0 < c < 256 ∧ c ≠ 10) l) as Hl.
  { unfold l, record_line. assert (∀ f, field_ok f → Forall (λ c, 0 < c < 256 ∧ c ≠ 10) f) as Hf.
    { intros f Hf. eapply Forall_impl; [exact Hf|]. unfold field_char. tauto. }
    apply Forall_app_2; [auto|]. constructor; [done|]. apply Forall_app_2; [auto|]. constructor; [done|auto]. }
  unfold text_lines. assert (file_lines l = [l]) as ->.
  { assert (l ≠ []) as Hne by (unfold l, record_line; by destruct name). clearbody l. clear -Hl Hne.
    induction Hl as [|c l [Hc Hc'] Hl IH]; [done|]. simpl. test_false (c =? 10). destruct l as [|d l]; [done|]. by rewrite IH. }
  simpl. f_equal. clearbody l. clear -Hl. induction Hl as [|c l [Hc _] Hl IH]; [done|]. simpl. test_false (c =? 0). by rewrite IH.
Qed.

(** A record is found under its name and no other. *)
Lemma record_named name ver path other :
  field_ok name → field_ok ver → field_ok path → 0 < zlen name ≤ 31 → zlen ver ≤ 15 → zlen path ≤ 63 →
  named_line (record_line name ver path) other = if decide (other = name) then Some (record_line name ver path) else None.
Proof.
  intros Hn Hv Hp Ln Lv Lp. unfold named_line. rewrite record_text_lines by done. cbn [find].
  destruct (record_fields name ver path Hn Hv Hp ltac:(lia) Lv Lp) as (-> & _).
  destruct name as [|c e]; [by unfold zlen in Ln; simpl in Ln; lia|]. case_decide as Hd.
  - subst other. by rewrite (proj2 (str_eq_spec (c :: e) (c :: e)) eq_refl).
  - destruct (str_eq (c :: e) other) eqn:E; [|done]. by apply str_eq_spec in E.
Qed.

Lemma record_bytes name ver path :
  field_ok name → field_ok ver → field_ok path → bytes_ok (record_line name ver path).
Proof.
  assert (∀ f, field_ok f → bytes_ok f) as Hf.
  { intros f Hf. eapply Forall_impl; [exact Hf|]. unfold field_char, byte_ok. lia. }
  intros. unfold record_line. apply Forall_app_2; [by apply Hf|]. constructor; [done|].
  apply Forall_app_2; [by apply Hf|]. constructor; [done|by apply Hf].
Qed.

Lemma zlen_record name ver path : zlen (record_line name ver path) = zlen name + zlen ver + zlen path + 2.
Proof. unfold record_line. rewrite zlen_app, zlen_cons, zlen_app, zlen_cons. lia. Qed.

(** The fields of a record that the catalog writes. *)
Definition record_ok (name ver path : list Z) : Prop :=
  field_ok name ∧ field_ok ver ∧ field_ok path ∧ 0 < zlen name ≤ 31 ∧ zlen ver ≤ 15 ∧ zlen path ≤ 63.

(** Writing a record, either file. *)
Lemma put_record fs file name ver path :
  ramfs_wf fs → path_ok file → record_ok name ver path →
  let '(rc, fs') := ramfs_put fs file (record_line name ver path) (zlen (record_line name ver path)) in
  (rc = 0 ∧ ramfs_wf fs' ∧ fs_get fs' file = Some (record_line name ver path) ∧ ∀ q, q ≠ file → fs_get fs' q = fs_get fs q)
  ∨ (rc = ENOSPC ∧ fs' = fs ∧ fs_full fs ∧ fs_get fs file = None).
Proof.
  intros Hw Hf (Hn & Hv & Hp & Ln & Lv & Lp). apply ramfs_put_spec; [done|done|by apply record_bytes|].
  rewrite zlen_record. unfold RAMFS_FILE_SIZE. pose proof (zlen_nonneg ver). pose proof (zlen_nonneg path). lia.
Qed.

Lemma set_record_spec fs file name ver path :
  ramfs_wf fs → path_ok file → record_ok name ver path →
  ∃ rc fs', (let! line := orundef (line_text name ver path) in
             let! rc := act (λ fs, ramfs_put fs file line (zlen line)) in
             ret (if negb (rc =? 0) then ENOSPC else 0)) fs = Ret (rc, fs') ∧
  ((rc = 0 ∧ ramfs_wf fs' ∧ fs_get fs' file = Some (record_line name ver path) ∧ ∀ q, q ≠ file → fs_get fs' q = fs_get fs q)
   ∨ (rc = ENOSPC ∧ fs' = fs ∧ fs_full fs ∧ fs_get fs file = None)).
Proof.
  intros Hw Hf Hr. pose proof (put_record fs file name ver path Hw Hf Hr) as H.
  destruct Hr as (_ & _ & _ & ? & ? & ?). rewrite line_text_spec by lia. simpl.
  unfold bind, act, ret. destruct (ramfs_put _ _ _ _) as [rc fs'].
  destruct H as [(-> & ?)|(-> & ?)]; eexists _, _; (split; [done|]); [by left|by right].
Qed.

(** Reading a record back. *)
Lemma active_record fs name ver path :
  ramfs_wf fs → record_ok name ver path → fs_get fs CATALOG_PATH_ACTIVE = Some (record_line name ver path) →
  catalog_active_version fs name 16 = (if nonempty (Some ver) then (0, ver) else (ENOENT, []))
  ∧ catalog_active_install fs name 64 = (if nonempty (Some path) then (0, path) else (ENOENT, [])).
Proof.
  intros Hw (Hn & Hv & Hp & Ln & Lv & Lp) Hg. unfold catalog_active_version, catalog_active_install, active_field, catalog_active_line.
  rewrite catalog_read_spec, Hg by done. pose proof (zlen_record name ver path) as Hl.
  destruct (record_line name ver path) as [|c l] eqn:E.
  { unfold record_line in E. by destruct name. }
  test_false (zlen (c :: l) <? 0). rewrite <- E, record_named, decide_True by done. cbn [negb Z.eqb].
  pose proof (zlen_nonneg ver). pose proof (zlen_nonneg path).
  rewrite take_ge by (rewrite <- E in Hl; klia).
  destruct (record_fields name ver path Hn Hv Hp ltac:(lia) Lv Lp) as (_ & -> & ->).
  by destruct ver, path.
Qed.

Lemma rollback_record fs name ver path :
  ramfs_wf fs → record_ok name ver path → fs_get fs CATALOG_PATH_ROLLBACK = Some (record_line name ver path) →
  catalog_read_rollback fs name 16 64 = (0, Some ver, Some path).
Proof.
  intros Hw (Hn & Hv & Hp & Ln & Lv & Lp) Hg. unfold catalog_read_rollback. rewrite catalog_read_spec, Hg by done.
  destruct (record_line name ver path) as [|c l] eqn:E.
  { unfold record_line in E. by destruct name. }
  pose proof (zlen_nonneg (c :: l)). test_false (zlen (c :: l) <? 0). rewrite <- E, record_named, decide_True by done.
  by destruct (record_fields name ver path Hn Hv Hp ltac:(lia) Lv Lp) as (_ & -> & ->).
Qed.

(** Recording a version forgets every other package: the file of active versions
    holds one line. *)
Theorem one_active_package fs fs' name ver path other :
  ramfs_wf fs → record_ok name ver path → catalog_set_active name ver path fs = Ret (0, fs') → other ≠ name →
  catalog_active_version fs' other 16 = (ENOENT, []).
Proof.
  intros Hw Hr E Hne. unfold catalog_set_active in E.
  destruct (set_record_spec fs CATALOG_PATH_ACTIVE name ver path Hw ltac:(split; [solve_bytes|done]) Hr) as (rc & f & E' & H).
  rewrite E' in E. injection E as -> ->. destruct H as [(_ & Hw' & Hg & _)|(? & _)]; [|done].
  unfold catalog_active_version, active_field, catalog_active_line. rewrite catalog_read_spec, Hg by done.
  destruct (record_line name ver path) as [|c l] eqn:El; [by unfold record_line in El; destruct name|].
  pose proof (zlen_nonneg (c :: l)). test_false (zlen (c :: l) <? 0).
  destruct Hr as (? & ? & ? & ? & ? & ?). by rewrite <- El, record_named, decide_False.
Qed.

(** The active version and the entry's fields are well formed. *)
Lemma active_version_chars fs name v :
  ramfs_wf fs → catalog_active_version fs name 16 = (0, v) → field_ok v ∧ 0 < zlen v ≤ 15 ∧ field_ok name ∧ 0 < zlen name ≤ 31.
Proof.
  intros Hw. unfold catalog_active_version, active_field, catalog_active_line. rewrite catalog_read_spec by done.
  destruct (fs_get fs CATALOG_PATH_ACTIVE) as [[|c t]|] eqn:Hg; [done| |done].
  destruct (fs_get_size _ _ _ Hw Hg) as [_ Hb]. pose proof (zlen_nonneg (c :: t)). test_false (zlen (c :: t) <? 0).
  destruct (named_line (c :: t) name) as [l|] eqn:El; [|done]. apply named_line_chars in El as (Hl & Hn & Ln); [|done].
  cbn [negb Z.eqb]. destruct (split_field _ 1 16) as [[|d v']|] eqn:E; [done| |done]. intros [= <-].
  apply split_field_chars in E as [Hv Lv]; [|by apply Forall_take]. rewrite zlen_cons in *. pose proof (zlen_nonneg v'). split_and!; (done || lia).
Qed.

Lemma find_entry_chars fs name e :
  ramfs_wf fs → catalog_find_entry fs name = (0, e) →
  ∀ f n, (f = ce_version e ∧ n = 15) ∨ (f = ce_pkg_path e ∧ n = 47) ∨ (f = ce_install_path e ∧ n = 47) →
  ∀ t, f = Some t → field_ok t ∧ zlen t ≤ n.
Proof.
  intros Hw. unfold catalog_find_entry. rewrite catalog_read_spec by done.
  destruct (fs_get fs CATALOG_PATH_INDEX) as [[|c t]|] eqn:Hg; [done| |done].
  destruct (fs_get_size _ _ _ Hw Hg) as [_ Hb]. pose proof (zlen_nonneg (c :: t)). test_false (zlen (c :: t) <? 0).
  destruct (named_line (c :: t) name) as [l|] eqn:El; [|done]. apply named_line_chars in El as (Hl & _); [|done].
  intros [= <-] f n [[-> ->]|[[-> ->]|[-> ->]]] u E; simpl in E; apply split_field_chars in E as [? ?]; try done; split; (done || lia).
Qed.

Lemma field_path f : field_ok f → zlen f ≤ 63 → path_ok f.
Proof. intros Hf Hl. split; [|unfold RAMFS_PATH_MAX; lia]. eapply Forall_impl; [exact Hf|]. by intros c [? _]. Qed.

(** ** Installation and rollback *)

Definition backup_of (path : list Z) : list Z := path ++ str ".prev".

Lemma backup_not_record path : backup_of path ≠ CATALOG_PATH_ACTIVE ∧ backup_of path ≠ CATALOG_PATH_ROLLBACK.
Proof.
  unfold backup_of. split; intros E; apply (f_equal last) in E;
    change (str ".prev") with (str ".pre" ++ [118]) in E; rewrite app_assoc, last_snoc in E; discriminate E.
Qed.

(** Saving the installed image records its version and copies it aside. *)
Lemma save_installed_spec fs kname p v c fs' :
  ramfs_wf fs → field_ok p → zlen p ≤ 47 → p ≠ CATALOG_PATH_ROLLBACK →
  catalog_active_version fs kname 16 = (0, v) → fs_get fs p = Some c → 0 < zlen c →
  save_installed kname p (backup_of p) fs = Ret (0, fs') →
  ramfs_wf fs' ∧ fs_get fs' CATALOG_PATH_ROLLBACK = Some (record_line kname v (backup_of p))
  ∧ fs_get fs' (backup_of p) = Some c
  ∧ ∀ q, q ≠ CATALOG_PATH_ROLLBACK → q ≠ backup_of p → fs_get fs' q = fs_get fs q.
Proof.
  intros Hw Hp Lp Hpr Hv Hg Hc. destruct (active_version_chars _ _ _ Hw Hv) as (Fv & Lv & Fn & Ln).
  destruct (backup_not_record p) as [_ Hbr].
  assert (field_ok (backup_of p)) as Fb by (apply Forall_app_2; [done|]; repeat constructor; done).
  assert (zlen (backup_of p) ≤ 63) as Lb by (unfold backup_of; rewrite zlen_app; change (zlen (str ".prev")) with 5; lia).
  unfold save_installed. rewrite bind_gets, catalog_file_size_spec, Hg by done. test_true (0 <? Z.max 1 (zlen c)).
  rewrite bind_gets, Hv. cbn [fst snd Z.eqb]. unfold catalog_set_rollback.
  destruct (set_record_spec fs CATALOG_PATH_ROLLBACK kname v (backup_of p) Hw) as (rc & fs1 & E & H);
    [split; [solve_bytes|done]|split_and!; (done || lia)|].
  rewrite (bind_ret _ _ _ _ _ E). destruct H as [(-> & Hw1 & Hg1 & Ho1)|(-> & _)]; [|by intros [= ?]].
  cbn [negb Z.eqb]. unfold act. intros [= Hcp].
  pose proof (catalog_copy_spec fs1 p (backup_of p) c Hw1 ltac:(by rewrite Ho1) Hc (field_path _ Fb Lb)) as H.
  rewrite Hcp in H. destruct H as [(_ & Hw2 & Hg2 & Ho2)|(? & _)]; [|done].
  split; [done|]. split; [by rewrite Ho2|]. split; [done|]. intros q Hq1 Hq2. by rewrite Ho2, Ho1.
Qed.

(** Restoring: what the rollback leaves, given the record and the backup. *)
Lemma rollback_spec fs kname v p c :
  ramfs_wf fs → field_ok p → 0 < zlen p ≤ 47 → p ≠ CATALOG_PATH_ACTIVE → p ≠ CATALOG_PATH_ROLLBACK →
  record_ok kname v (backup_of p) →
  fs_get fs CATALOG_PATH_ROLLBACK = Some (record_line kname v (backup_of p)) →
  fs_get fs (backup_of p) = Some c → 0 < zlen c → is_Some (fs_get fs p) → is_Some (fs_get fs CATALOG_PATH_ACTIVE) →
  catalog_active_install fs kname 64 = (0, p) →
  ∃ fs', catalog_rollback_kname kname fs = Ret (0, fs') ∧ ramfs_wf fs' ∧ fs_get fs' p = Some c
    ∧ fs_get fs' CATALOG_PATH_ACTIVE = Some (record_line kname v p)
    ∧ ∀ q, q ≠ p → q ≠ CATALOG_PATH_ACTIVE → fs_get fs' q = fs_get fs q.
Proof.
  intros Hw Fp Lp Hpa Hpr Hr Hg Hb Hc [cp Hsp] [ca Hsa] Ha. unfold catalog_rollback_kname.
  rewrite bind_gets, (rollback_record _ _ _ _ Hw Hr Hg). cbn [negb Z.eqb]. erewrite bind_ret by done.
  rewrite bind_gets, catalog_file_size_spec, Hb by done. test_false (Z.max 1 (zlen c) <=? 0).
  rewrite bind_gets, Ha. cbn [fst snd negb Z.eqb].
  pose proof (catalog_copy_spec fs (backup_of p) p c Hw Hb Hc (field_path _ Fp ltac:(lia))) as H.
  destruct (catalog_copy_file (backup_of p) p fs) as [rc fs1] eqn:Ecp.
  rewrite (bind_ret (act _) _ fs rc fs1) by (unfold act; by rewrite Ecp).
  destruct H as [(-> & Hw1 & Hg1 & Ho1)|(_ & _ & _ & ?)]; [|congruence]. cbn [negb Z.eqb].
  erewrite bind_ret by done. unfold catalog_set_active.
  destruct Hr as (Fn & Fv & _ & Ln & Lv & _).
  destruct (set_record_spec fs1 CATALOG_PATH_ACTIVE kname v p Hw1) as (rc & fs2 & E & H);
    [split; [solve_bytes|done]|split_and!; (done || lia)|].
  rewrite (bind_ret _ _ _ _ _ E). destruct H as [(-> & Hw2 & Hg2 & Ho2)|(_ & _ & _ & Hno)].
  2: { rewrite Ho1 in Hno by done. congruence. }
  cbn [negb Z.eqb]. rewrite (bind_ret (act _) _ fs2 EINVAL fs2) by (unfold act; by rewrite ramfs_put_inval by lia).
  exists fs2. split; [done|]. split; [done|]. split; [by rewrite Ho2|]. split; [done|].
  intros q Hq1 Hq2. by rewrite Ho2, Ho1.
Qed.

Section properties.
Context {D : Type} {L : Layout} (sha256 : list Z → list Z) (hart : Z).
Abbreviation kstate := (kstate D).

(** The paths of an entry do not collide with the catalog's own records. *)
Record separate (fs : ramfs) (pkgp p : list Z) : Prop := {
  sep_path : p ≠ [] ∧ p ≠ CATALOG_PATH_ACTIVE ∧ p ≠ CATALOG_PATH_ROLLBACK;
  sep_pkg : pkgp ≠ CATALOG_PATH_ROLLBACK ∧ pkgp ≠ backup_of p;
  sep_manifest : ∀ pkg q, fs_get fs pkgp = Some pkg → cstr_of (om_install_path (manifest_of pkg)) = Some q →
    q ≠ CATALOG_PATH_ROLLBACK ∧ q ≠ backup_of p
}.

(** What a successful installation over an installed version leaves. *)
Lemma install_spec (s s' : kstate) kname e p pkgp v c :
  ramfs_wf (kfs s) → catalog_find_entry (kfs s) kname = (0, e) →
  ce_install_path e = Some p → ce_pkg_path e = Some pkgp → separate (kfs s) pkgp p →
  catalog_active_version (kfs s) kname 16 = (0, v) → fs_get (kfs s) p = Some c → 0 < zlen c →
  catalog_install_kname sha256 hart kname s = Ret (0, s') →
  ramfs_wf (kfs s')
  ∧ (∃ ver, record_ok kname ver p ∧ fs_get (kfs s') CATALOG_PATH_ACTIVE = Some (record_line kname ver p))
  ∧ fs_get (kfs s') CATALOG_PATH_ROLLBACK = Some (record_line kname v (backup_of p))
  ∧ fs_get (kfs s') (backup_of p) = Some c ∧ is_Some (fs_get (kfs s') p).
Proof.
  intros Hw He Hp Hpk [(Hp0 & Hpa & Hpr) [Hk1 Hk2] Hman] Hv Hg Hc.
  destruct (find_entry_chars _ _ _ Hw He (ce_install_path e) 47 ltac:(tauto) p Hp) as [Fp Lp].
  destruct (active_version_chars _ _ _ Hw Hv) as (Fv & Lv & Fn & Ln). destruct (backup_not_record p) as [Hba Hbr].
  assert (p ≠ backup_of p) as Hpb.
  { intros E. apply (f_equal length) in E. unfold backup_of in E. rewrite length_app in E. simpl in E. lia. }
  unfold catalog_install_kname. rewrite bind_gets, He. cbn [fst snd negb Z.eqb].
  destruct (ce_min_version e) as [min|]; [|done]. erewrite bind_ret by done. rewrite bind_gets.
  case_test; [intros [= ? _]; bprop; congruence|]. rewrite Hpk. erewrite bind_ret by done.
  unfold ota_verify_package_kpath, bind at 1. destruct (bind _ _ s) as [[rc1 s1]| |] eqn:E1; [|done..].
  assert (kfs s1 = kfs s) as Ef1.
  { revert E1. unfold bind, ret. destruct (ota_parse_package sha256 pkgp s) as [[r1 s1']| |] eqn:Epp; [|done..].
    intros [= _ <-]. by eapply ota_parse_frame. }
  case_test; [by intros [= -> _]|]. rewrite Hp. erewrite bind_ret by done.
  rewrite (take_ge p) by (unfold zlen in Lp; lia). fold (backup_of p).
  unfold bind at 1, onfs at 1, zoom. rewrite Ef1.
  destruct (save_installed kname p (backup_of p) (kfs s)) as [[rc2 fs2]| |] eqn:E2; [|done..].
  case_test; [by intros [= -> _]|]. bprop. subst rc2.
  apply (save_installed_spec _ _ _ v c) in E2 as (Hw2 & Hr2 & Hb2 & Ho2); [|done..].
  unfold bind at 1. destruct (ota_apply_package_kpath _ _ _ _) as [[rc3 s3]| |] eqn:E3; [|done..].
  case_test; [by intros [= -> _]|]. bprop. subst rc3.
  apply ota_apply_frame in E3 as (pkg & q & Hpkg & Hq & _ & Hw3 & Hs3 & Ho3); [|done].
  change (kfs (with_fs fs2 s1)) with fs2 in *. rewrite Ho2 in Hpkg by done.
  destruct (Hman pkg q Hpkg Hq) as [Hq1 Hq2].
  destruct (ce_version e) as [ver|] eqn:Ever; [|done]. erewrite bind_ret by done.
  destruct (find_entry_chars _ _ _ Hw He (ce_version e) 15 ltac:(tauto) ver Ever) as [Fver Lver].
  unfold onfs, zoom, catalog_set_active. assert (record_ok kname ver p) as Hro by (split_and!; (done || lia)).
  destruct (set_record_spec (kfs s3) CATALOG_PATH_ACTIVE kname ver p Hw3 ltac:(split; [solve_bytes|done]) Hro)
    as (rc4 & fs4 & E4 & H). rewrite E4.
  destruct H as [(-> & Hw4 & Hg4 & Ho4)|(-> & _)]; [|by intros [= ?]].
  intros [= <-]. change (kfs (with_fs fs4 s3)) with fs4. split; [done|]. split; [by exists ver|].
  split; [by rewrite Ho4, Ho3, Hr2|]. split; [by rewrite Ho4, Ho3, Hb2|].
  rewrite Ho4 by done. destruct (decide (p = q)) as [->|Hne]; [done|]. rewrite Ho3, Ho2, Hg by done. done.
Qed.

(** Rolling back after a successful installation restores the saved image: when
    a version is installed and its entry's paths do not collide with the
    catalog's records, an installation that returns 0 followed by the rollback of
    the same name returns 0, the installed file has its old contents and the active
    version is the old one. *)
Theorem rollback_restores (s s' : kstate) kname e p pkgp v c :
  ramfs_wf (kfs s) → catalog_find_entry (kfs s) kname = (0, e) →
  ce_install_path e = Some p → ce_pkg_path e = Some pkgp → separate (kfs s) pkgp p →
  catalog_active_version (kfs s) kname 16 = (0, v) → fs_get (kfs s) p = Some c → 0 < zlen c →
  catalog_install_kname sha256 hart kname s = Ret (0, s') →
  ∃ fs', catalog_rollback_kname kname (kfs s') = Ret (0, fs') ∧ ramfs_wf fs' ∧ fs_get fs' p = Some c
    ∧ catalog_active_version fs' kname 16 = (0, v) ∧ catalog_active_install fs' kname 64 = (0, p)
    ∧ fs_get fs' CATALOG_PATH_ROLLBACK = fs_get (kfs s') CATALOG_PATH_ROLLBACK.
Proof.
  intros Hw He Hp Hpk Hsep Hv Hg Hc Hi.
  destruct (find_entry_chars _ _ _ Hw He (ce_install_path e) 47 ltac:(tauto) p Hp) as [Fp Lp].
  destruct (active_version_chars _ _ _ Hw Hv) as (Fv & Lv & Fn & Ln).
  destruct (install_spec _ _ _ _ _ _ _ _ Hw He Hp Hpk Hsep Hv Hg Hc Hi) as (Hw' & (ver & Hro & Ha) & Hr & Hb & Hsp).
  destruct Hsep as [(Hp0 & Hpa & Hpr) _ _].
  assert (nonempty (Some p) = true ∧ 0 < zlen p) as [Hne Hlp].
  { destruct p; [done|]. split; [done|]. rewrite zlen_cons. pose proof (zlen_nonneg p). lia. }
  assert (nonempty (Some v) = true) as Hnv by (destruct v; [by unfold zlen in Lv; simpl in Lv; lia|done]).
  destruct (active_record _ _ _ _ Hw' Hro Ha) as [_ Hai]. rewrite Hne in Hai.
  assert (record_ok kname v (backup_of p)) as Hrb.
  { split_and!; try (done || lia); [apply Forall_app_2; [done|]; repeat constructor; done|].
    unfold backup_of. rewrite zlen_app. change (zlen (str ".prev")) with 5. lia. }
  destruct (rollback_spec (kfs s') kname v p c Hw' Fp ltac:(lia) Hpa Hpr Hrb Hr Hb Hc Hsp ltac:(by rewrite Ha) Hai)
    as (fs' & E & Hw2 & Hgp & Hga & Ho).
  exists fs'. split; [done|]. split; [done|]. split; [done|].
  destruct (active_record fs' kname v p Hw2 ltac:(split_and!; (done || lia)) Hga) as [E1 E2].
  rewrite Hnv in E1. rewrite Hne in E2. split; [done|]. split; [done|]. by apply Ho.
Qed.

End properties.

(** ** Versions *)

Lemma version_loop_digits ds rest part m n p :
  Forall (λ c, is_digit c = true) ds →
  version_loop (ds ++ rest) part m n p =
  if part =? 0 then version_loop rest part (scan_int m ds).1 n p
  else if part =? 1 then version_loop rest part m (scan_int n ds).1 p
  else version_loop rest part m n (scan_int p ds).1.
Proof.
  intros H. revert m n p; induction H as [|c ds Hc Hd IH]; intros m n p; cbn [app version_loop scan_int].
  - by destruct (part =? 0), (part =? 1).
  - rewrite Hc. destruct (part =? 0) eqn:E0, (part =? 1) eqn:E1; by rewrite IH, ?E0, ?E1.
Qed.

Definition in_int (n : Z) : Prop := 0 ≤ n < 2147483648.

(** The text of a version. *)
Definition version_text (v : Z * Z * Z) : list Z :=
  let '(a, b, c) := v in dec a ++ str "." ++ dec b ++ str "." ++ dec c.

Lemma version_loop_dot rest part m n p : part < 2 → version_loop (46 :: rest) part m n p = version_loop rest (part + 1) m n p.
Proof. intros. cbn [version_loop]. change (is_digit 46) with false. change (46 =? chr ".") with true. by test_false (2 <? part + 1). Qed.

Lemma scan_dec_all n : in_int n → (scan_int 0 (dec n)).1 = n.
Proof. intros H. rewrite <- (app_nil_r (dec n)), scan_dec by done. done. Qed.

Lemma parse_version_text a b c : in_int a → in_int b → in_int c → parse_version (version_text (a, b, c)) = Some (a, b, c).
Proof.
  intros Ha Hb Hc. unfold parse_version, version_text.
  change (str ".") with [46]. cbn [app].
  rewrite version_loop_digits, scan_dec_all by (apply dec_digits || done). change (0 =? 0) with true. cbn iota.
  rewrite version_loop_dot, version_loop_digits, scan_dec_all by (apply dec_digits || done).
  change (0 + 1 =? 0) with false. change (0 + 1 =? 1) with true. cbn iota. rewrite version_loop_dot by done.
  rewrite <- (app_nil_r (dec c)), version_loop_digits, scan_dec_all by (apply dec_digits || done). done.
Qed.

(** The order on versions. *)
Definition version_le (v w : Z * Z * Z) : Prop :=
  let '(a, b, c) := v in let '(a', b', c') := w in a < a' ∨ (a = a' ∧ (b < b' ∨ (b = b' ∧ c ≤ c'))).

(** The version check of the catalog is the lexicographic order: on the texts of
    two versions of three numbers it answers whether the first is at least the
    second. *)
Theorem version_ge_lex a b c a' b' c' :
  in_int a → in_int b → in_int c → in_int a' → in_int b' → in_int c' →
  version_ge (version_text (a, b, c)) (version_text (a', b', c')) = true ↔ version_le (a', b', c') (a, b, c).
Proof.
  intros. unfold version_ge. rewrite !parse_version_text by done. unfold version_le.
  destruct (Z.eqb_spec a a'); cbn [negb]; [|rewrite Z.ltb_lt; lia].
  destruct (Z.eqb_spec b b'); cbn [negb]; [rewrite Z.leb_le; lia|rewrite Z.ltb_lt; lia].
Qed.

Lemma version_ge_lex_witness : version_ge (str "1.10.0") (str "1.9.3") = true.
Proof. apply (version_ge_lex 1 10 0 1 9 3); unfold in_int, version_le; lia. Defined.

(** ** Example: version 1.1 of a package replaces version 1.0 *)

Definition demo_put (fs : ramfs) (p d : list Z) : ramfs := (ramfs_put fs p d (zlen d)).2.

Lemma demo_put_wf fs p d : ramfs_wf fs → path_ok p → bytes_ok d → 0 < zlen d < RAMFS_FILE_SIZE → ramfs_wf (demo_put fs p d).
Proof.
  intros Hw Hp Hd Hl. unfold demo_put. pose proof (ramfs_put_spec fs p d Hw Hp Hd Hl) as H. destruct (ramfs_put _ _ _ _) as [rc fs'].
  destruct H as [(_ & ? & _)|(_ & -> & _)]; done.
Qed.

Definition demo_bin : list Z := str "/agent/2/bin".
Definition demo_catalog_fs : ramfs :=
  demo_put (demo_put (demo_put demo_pkg_fs demo_bin (str "old image"))
    CATALOG_PATH_INDEX (str "app|1.1|/agent/1/p|/agent/2/bin|stable|0.1")) CATALOG_PATH_ACTIVE (str "app|1.0|/agent/2/bin").

Definition demo_catalog : kstate unit := with_fs demo_catalog_fs demo_installer.

Definition demo_upgraded : kstate unit :=
  match catalog_install_kname (λ _, []) 0 (str "app") demo_catalog with Ret (_, s') => s' | _ => demo_catalog end.

Lemma demo_catalog_wf : ramfs_wf demo_catalog_fs.
Proof.
  unfold demo_catalog_fs. apply demo_put_wf; [|split; [solve_bytes|done]|solve_bytes|done].
  apply demo_put_wf; [|split; [solve_bytes|done]|solve_bytes|done].
  apply demo_put_wf; [|split; [solve_bytes|done]|solve_bytes|done]. apply demo_pkg_fs_wf.
Qed.

Lemma rollback_restores_witness :
  ∃ fs', catalog_rollback_kname (str "app") (kfs demo_upgraded) = Ret (0, fs')
    ∧ fs_get fs' demo_bin = Some (str "old image") ∧ catalog_active_version fs' (str "app") 16 = (0, str "1.0").
Proof.
  destruct (rollback_restores (λ _, []) 0 demo_catalog demo_upgraded (str "app")
    (catalog_find_entry demo_catalog_fs (str "app")).2 demo_bin demo_pkg_path (str "1.0") (str "old image"))
    as (fs' & E & _ & Hg & Hv & _);
    [exact demo_catalog_wf|by vm_compute|by vm_compute|by vm_compute| |by vm_compute|by vm_compute|done|by vm_compute|].
  - split; [by vm_compute|by vm_compute|]. intros pkg q Hp Hq.
    assert (fs_get (kfs demo_catalog) demo_pkg_path = Some demo_pkg) as E by (by vm_compute).
    rewrite E in Hp. injection Hp as <-. vm_compute in Hq. injection Hq as <-. clear E. split; discriminate.
  - exists fs'. split; [exact E|]. split; [exact Hg|exact Hv].
Defined.
