(* ===== verification/ElfLoad.v ===== *)
(** * Loading an agent from an ELF file (kernel/elfload.c)

    The file is read into a kernel buffer; each loadable segment is mapped into
    the new agent's address space, page by page, with fresh zeroed pages that
    receive the file's bytes.  The buffer is a list of bytes.  The bounds of the
    program headers and of the segments are checked on 64-bit sums that can wrap;
    a read that then leaves the buffer is [Undef]. *)

From S2P Require Import Prelude Abi Ipc Ramfs Persist Paths Quota Policy AgentDef Mem Vm VmTree VmProps Kernel Uaccess Sched Agent Tool Ota.

Definition ELF_MAGIC : Z := 0x464c457f.
Definition PT_LOAD : Z := 1.
Definition PF_X : Z := 1.
Definition PF_W : Z := 2.
Definition PF_R : Z := 4.
Definition AGENT_ELF_MAX : Z := 8192.

Definition get_le16 (l : list Z) (off : Z) : Z := cget l off + 256 * cget l (off + 1).
Definition get_le64 (l : list Z) (off : Z) : Z := get_le32 l off + 4294967296 * get_le32 l (off + 4).

(** The fields of the headers that the loader reads. *)
Record elf64_ehdr := mk_ehdr {
  e_ident : list Z;
  e_machine : Z;
  e_entry : Z;
  e_phoff : Z;
  e_phentsize : Z;
  e_phnum : Z
}.

Record elf64_phdr := mk_phdr {
  p_type : Z;
  p_flags : Z;
  p_offset : Z;
  p_vaddr : Z;
  p_filesz : Z;
  p_memsz : Z
}.

Definition EHDR_SIZE : Z := 64.
Definition PHDR_SIZE : Z := 56.

Definition ehdr_of (l : list Z) : elf64_ehdr :=
  mk_ehdr (sub l 0 16) (get_le16 l 18) (get_le64 l 24) (get_le64 l 32) (get_le16 l 54) (get_le16 l 56).

Definition phdr_of (l : list Z) (off : Z) : elf64_phdr :=
  mk_phdr (get_le32 l off) (get_le32 l (off + 4)) (get_le64 l (off + 8)) (get_le64 l (off + 16))
    (get_le64 l (off + 32)) (get_le64 l (off + 40)).

Definition ramfs_file_size (fs : ramfs) (path : list Z) : Z :=
  let n := (ramfs_read fs path 0 1).1 in
  if n <? 0 then n else usage_loop (Z.to_nat (AGENT_ELF_MAX - 1)) fs path 1.

(** Writing bytes to physical memory. *)
Fixpoint write_bytes (dst : Z) (data : list Z) (m : gmap Z Z) : gmap Z Z :=
  match data with
  | [] => m
  | b :: data' => write_bytes (dst + 1) data' (<[dst := b]> m)
  end.

Definition seg_perm (flags : Z) : Z :=
  let perm := Z.lor PTE_U PTE_R in
  let perm := if has PF_W flags then Z.lor perm PTE_W else perm in
  if has PF_X flags then Z.lor perm PTE_X else perm.

Section elfload.
Context {L : Layout}.

(** One page of a segment: the part of the file it receives is at [foff] of the
    segment and goes to [page_off]. *)
Definition load_page (pt va vaddr filesz perm : Z) (elf : list Z) (src : Z) : M vm Z :=
  let! page := vm_kalloc_page in
  let page_off := if va <? vaddr then vaddr - va else 0 in
  let foff := u64 (va + page_off - vaddr) in
  let copy_len := PAGE_SIZE - page_off in
  if page =? 0 then ret ENOSPC
  else
    modify (λ v, with_pmem (write_bytes page (replicate (Z.to_nat PAGE_SIZE) 0) (pmem v)) v) ;;
    (if foff <? filesz then
       let copy_len := Z.min copy_len (filesz - foff) in
       if zlen elf <? src + foff + copy_len then undef
       else modify (λ v, with_pmem (write_bytes (page + page_off) (sub elf (src + foff) copy_len) (pmem v)) v)
     else ret tt) ;;
    let! rc := vm_map_user_page pt va page perm in
    if negb (rc =? 0) then ret ENOSPC else ret 0.

(** The loop over the pages; the fuel is their number. *)
Fixpoint load_pages (fuel : nat) (pt va last vaddr filesz perm : Z) (elf : list Z) (src : Z) : M vm Z :=
  if negb (va <? last) then ret 0
  else match fuel with
       | O => undef
       | S fuel' =>
           let! rc := load_page pt va vaddr filesz perm elf src in
           if negb (rc =? 0) then ret rc
           else load_pages fuel' pt (u64 (va + PAGE_SIZE)) last vaddr filesz perm elf src
       end.

Definition elf_map_segment (pt vaddr memsz filesz : Z) (elf : list Z) (src flags : Z) : M vm Z :=
  let end_ := u64 (vaddr + memsz) in
  let va := align_down 12 vaddr in
  let last := align_down 12 (u64 (end_ + PAGE_SIZE - 1)) in
  load_pages (Z.to_nat ((last - va) / PAGE_SIZE)) pt va last vaddr filesz (seg_perm flags) elf src.

(** The program headers from number [i] on; [n] are left. *)
Fixpoint load_segments (n : nat) (i : Z) (pt : Z) (elf : list Z) (eh : elf64_ehdr) : M vm Z :=
  match n with
  | O => ret 0
  | S n' =>
      let len := zlen elf in
      let off := u64 (e_phoff eh + i * e_phentsize eh) in
      if len <? u64 (off + PHDR_SIZE) then ret EINVAL
      else if len <? off + PHDR_SIZE then undef
      else
        let ph := phdr_of elf off in
        if negb (p_type ph =? PT_LOAD) then load_segments n' (i + 1) pt elf eh
        else if len <? u64 (p_offset ph + p_filesz ph) then ret EINVAL
        else
          let! rc := elf_map_segment pt (p_vaddr ph) (p_memsz ph) (p_filesz ph) elf (p_offset ph) (p_flags ph) in
          if negb (rc =? 0) then ret ENOSPC else load_segments n' (i + 1) pt elf eh
  end.

(** The result and the entry point. *)
Definition elf_load_into_agent (pt : Z) (elf : list Z) : M vm (Z * Z) :=
  if zlen elf <? EHDR_SIZE then ret (EINVAL, 0)
  else
    let eh := ehdr_of elf in
    if negb (get_le32 (e_ident eh) 0 =? ELF_MAGIC) then ret (EINVAL, 0)
    else if negb (cget (e_ident eh) 4 =? 2) || negb (cget (e_ident eh) 5 =? 1) then ret (EINVAL, 0)
    else if negb (e_machine eh =? 243) then ret (EINVAL, 0)
    else if negb (e_phentsize eh =? PHDR_SIZE) then ret (EINVAL, 0)
    else
      let! rc := load_segments (Z.to_nat (e_phnum eh)) 0 pt elf eh in
      if negb (rc =? 0) then ret (rc, 0) else ret (0, e_entry eh).

Context {D : Type} (kgp hart : Z).
Abbreviation kstate := (kstate D).

(** The first trapframe of a loaded agent; [kgp] is the global pointer. *)
Definition loaded_tf (user_sp : Z) : trapframe :=
  let t := tf.set tf.SP user_sp (tf.set tf.SEPC 0 tf.zero) in
  let t := tf.set tf.GP kgp (tf.set tf.RA 0 t) in
  tf.set tf.SSTATUS (Z.ldiff (Z.lor SSTATUS_SPIE SSTATUS_SUM) SSTATUS_SPP) t.

Definition agent_setup_loaded (i : Z) : M kstate Z :=
  let! p := onkvm vm_kalloc_page in
  if p =? 0 then ret ENOSPC
  else
    let! stack := onkvm (vm_kalloc AGENT_STACK_SIZE) in
    if stack =? 0 then ret ENOSPC
    else
      let stack_pa := align_down 12 (u64 (stack + PAGE_SIZE - 1)) in
      let! aid := gets (λ s, id (agent_at s i)) in
      let stack_va := u64 (USER_STACK_BASE + u64 aid * USER_STACK_SLOT + PAGE_SIZE) in
      let user_sp := u64 (stack_va + AGENT_STACK_SIZE - 256) in
      let! pt := onkvm vm_create_agent_pt in
      modify_agent i (upd.pagetable pt) ;;
      if pt =? 0 then ret ENOSPC
      else
        let! rc := onkvm (vm_map_user_stack pt aid stack_pa AGENT_STACK_SIZE) in
        if negb (rc =? 0) then ret ENOSPC
        else
          let! t := onkvm (vm_kalloc TRAPFRAME_SIZE) in
          if t =? 0 then ret ENOSPC
          else
            modify_agent i (upd.stack (u64 (stack_va + AGENT_STACK_SIZE))
              (loaded_tf user_sp) 0
              (u64 (USER_HEAP_BASE + u64 aid * AGENT_HEAP_SIZE)) (AGENT_HEAP_SIZE / PAGE_SIZE)) ;;
            ret 0.

(** Filling in the slot and making the agent runnable, after the image is loaded. *)
Definition finish_load (i name cs : Z) : M kstate Z :=
  let! nlen := user_strnlen hart name (AGENT_NAME_SIZE - 1) in
  if nlen <? 0 then ret EFAULT
  else if nlen =? 0 then ret EINVAL
  else
    let! r := copy_from_user hart name (nlen + 1) in
    if r.1 <? 0 then ret EFAULT
    else
      modify_agent i (λ a, upd.inbox (msgbox_init (inbox a)) (upd.exit_code 0 (upd.phase AGENT_PHASE_IDLE
        (upd.state AGENT_RUNNABLE (upd.caps cs (upd.name (strlcpy_local r.2 AGENT_NAME_SIZE) a)))))) ;;
      modify (λ s, with_count (i32 (agent_count s + 1)) s) ;;
      modify (sched_notify_runnable (Some i)) ;;
      ret i.

(** Loading the image in the buffer [elf] into a free slot. *)
Definition load_image (elf : list Z) (name cs : Z) : M kstate Z :=
  let! i := gets agent_alloc_id in
  if i <? 0 then ret ENOSPC
  else
    modify_agent i (upd.id i) ;;
    let! rc := agent_setup_loaded i in
    if negb (rc =? 0) then ret rc
    else
      let! pt := gets (λ s, pagetable (agent_at s i)) in
      let! r := onkvm (elf_load_into_agent pt elf) in
      if negb (r.1 =? 0) then ret r.1
      else
        let! t := gets (λ s, atf (agent_at s i)) in
        match t with
        | None => undef
        | Some t =>
            modify_agent i (λ a, upd.stack (stack_base a) (tf.set tf.SEPC r.2 t) r.2 (heap_base a) (heap_max_pages a) a) ;;
            finish_load i name cs
        end.

Definition agent_load_from_path (path name cs : Z) : M kstate Z :=
  let! cur := gets (agent_current hart) in
  let! ok := gets (λ s, agent_has_cap s cur CAP_SPAWN) in
  if negb ok then ret EPERM
  else if (path =? 0) || (name =? 0) then ret EINVAL
  else
    let! len := user_strnlen hart path 63 in
    if len <=? 0 then ret EFAULT
    else
      let! t := copy_text hart path len in
      match t with
      | None => ret EFAULT
      | Some kpath =>
          let! len := gets (λ s, ramfs_file_size (kfs s) kpath) in
          if len <? 0 then ret len
          else if (len <? 64) || (AGENT_ELF_MAX <? len) then ret EINVAL
          else
            let! p := onkvm (vm_kalloc len) in
            if p =? 0 then ret ENOSPC
            else
              let! r := gets (λ s, ramfs_read (kfs s) kpath 0 len) in
              if negb (r.1 =? len) then ret (if r.1 <? 0 then r.1 else EIO)
              else load_image r.2 name cs
      end.

End elfload.

(** ** Segments *)

Lemma write_bytes_spec data dst m x :
  default 0 (write_bytes dst data m !! x) =
  if decide (dst ≤ x < dst + zlen data) then cget data (x - dst) else default 0 (m !! x).
Proof.
  revert dst m; induction data as [|b data IH]; intros dst m; cbn [write_bytes].
  - rewrite decide_False; [done|]. unfold zlen. simpl. lia.
  - rewrite IH, zlen_cons. pose proof (zlen_nonneg data). destruct (decide (x = dst)) as [->|Hne].
    + rewrite decide_False, decide_True, lookup_insert_eq by lia. by rewrite Z.sub_diag.
    + rewrite lookup_insert_ne by done. case_decide.
      * rewrite decide_True, (cget_cons b) by lia. f_equal. lia.
      * by rewrite decide_False by lia.
Qed.

Lemma cget_replicate n b i : 0 ≤ i < Z.of_nat n → cget (replicate n b) i = b.
Proof. intros. unfold cget. apply nth_lookup_Some, lookup_replicate. lia. Qed.

Lemma cget_sub l off n i : 0 ≤ off → 0 ≤ i < n → off + n ≤ zlen l → cget (sub l off n) i = cget l (off + i).
Proof.
  intros Ho Hi Hl. unfold cget, sub. rewrite !nth_lookup, lookup_take_lt, lookup_drop by lia. f_equal. f_equal. lia.
Qed.

Lemma seg_perm_range flags : 0 ≤ seg_perm flags < 32.
Proof. unfold seg_perm. by repeat case_match. Qed.

(** The byte of the segment at offset [k]: a byte of the file or zero. *)
Definition seg_byte (elf : list Z) (src filesz k : Z) : Z :=
  if (0 <=? k) && (k <? filesz) then cget elf (src + k) else 0.

Section segments.
Context {L : Layout} {LL : LayoutLaws}.

(** The bytes of a fresh page after the copy. *)
Lemma page_fill elf src filesz vaddr va page m :
  0 ≤ va → 0 ≤ vaddr < va + PAGE_SIZE → 0 ≤ src → 0 ≤ filesz → src + filesz ≤ zlen elf →
  let page_off := if va <? vaddr then vaddr - va else 0 in
  let foff := va + page_off - vaddr in
  let m1 := write_bytes page (replicate (Z.to_nat PAGE_SIZE) 0) m in
  let copy_len := Z.min (PAGE_SIZE - page_off) (filesz - foff) in
  let m2 := if foff <? filesz then write_bytes (page + page_off) (sub elf (src + foff) copy_len) m1 else m1 in
  (∀ o, 0 ≤ o < PAGE_SIZE → default 0 (m2 !! (page + o)) = seg_byte elf src filesz (va + o - vaddr))
  ∧ ∀ x, x < page → default 0 (m2 !! x) = default 0 (m !! x).
Proof.
  intros Hva Hv Hs Hf Hl page_off foff m1 copy_len m2. unfold PAGE_SIZE in *.
  assert (0 ≤ page_off < 4096 ∧ 0 ≤ foff ∧ foff = va + page_off - vaddr) as (Hpo & Hfo & Hfe).
  { unfold foff, page_off. destruct (Z.ltb_spec va vaddr); lia. }
  assert (∀ x, default 0 (m1 !! x) = if decide (page ≤ x < page + 4096) then 0 else default 0 (m !! x)) as H1.
  { intros x. unfold m1. rewrite write_bytes_spec. unfold zlen. rewrite length_replicate, Z2Nat.id by lia.
    case_decide; [|done]. apply cget_replicate. lia. }
  split; [intros o Ho|intros x Hx]; unfold m2.
  - unfold seg_byte. destruct (Z.ltb_spec foff filesz) as [Hlt|Hge].
    + assert (zlen (sub elf (src + foff) copy_len) = copy_len) as Hz by (apply zlen_sub; lia).
      rewrite write_bytes_spec, Hz, H1. case_decide as Hd.
      * test_true (0 <=? va + o - vaddr). test_true (va + o - vaddr <? filesz). cbn [andb].
        rewrite cget_sub by lia. f_equal. lia.
      * rewrite decide_True by lia. destruct (Z.leb_spec 0 (va + o - vaddr)), (Z.ltb_spec (va + o - vaddr) filesz); try done.
        exfalso. unfold page_off, foff in *. destruct (Z.ltb_spec va vaddr); lia.
    + rewrite H1, decide_True by lia. destruct (Z.leb_spec 0 (va + o - vaddr)), (Z.ltb_spec (va + o - vaddr) filesz); try done.
      exfalso. unfold page_off, foff in *. destruct (Z.ltb_spec va vaddr); lia.
  - destruct (foff <? filesz); [|by rewrite H1, decide_False by lia].
    rewrite write_bytes_spec, decide_False by lia. by rewrite H1, decide_False by lia.
Qed.

(** The kernel memory below the heap pointer and the existing mappings. *)
Record keeps (r : Z) (v v' : vm) : Prop := {
  kp_wf : vm_wf v';
  kp_root : root_wf v' r;
  kp_heap : ∃ start, heap_wf start (kheap v) ∧ heap_wf start (kheap v');
  kp_ptr : heap_ptr (kheap v) ≤ heap_ptr (kheap v');
  kp_mem : ∀ x, x < heap_ptr (kheap v) → default 0 (pmem v' !! x) = default 0 (pmem v !! x);
  kp_map : ∀ va, is_Some (xlate (pt_mem v) r va) → xlate (pt_mem v') r va = xlate (pt_mem v) r va
}.

Lemma load_page_spec v r start va vaddr filesz perm elf src :
  vm_wf v → root_wf v r → heap_wf start (kheap v) →
  0 ≤ va < 549755813888 → va mod PAGE_SIZE = 0 → 0 ≤ vaddr < va + PAGE_SIZE → 0 ≤ perm < 32 →
  0 ≤ src → 0 ≤ filesz → src + filesz ≤ zlen elf →
  ∃ rc v', load_page r va vaddr filesz perm elf src v = Ret (rc, v') ∧ keeps r v v'
    ∧ (∀ va', ¬ same_page va va' → xlate (pt_mem v') r va' = xlate (pt_mem v) r va')
    ∧ ((rc = 0 ∧ ∃ page, page_ok page ∧ heap_ptr (kheap v) ≤ page ∧ page + PAGE_SIZE ≤ heap_ptr (kheap v')
          ∧ (∀ va', same_page va va' →
               xlate (pt_mem v) r va' = None ∧ xlate (pt_mem v') r va' = Some (pte_make page (map_flags perm)))
          ∧ ∀ o, 0 ≤ o < PAGE_SIZE → default 0 (pmem v' !! (page + o)) = seg_byte elf src filesz (va + o - vaddr))
       ∨ rc = ENOSPC).
Proof.
  intros Hw Hr Hh Hva Hal Hvd Hperm Hs Hf Hl. unfold load_page.
  destruct (kalloc_page_spec start (kheap v) Hh) as (page & Hp & Hpm & [(Hfit & Ek & Hh')|(_ & Ek)]).
  2: { exists ENOSPC, (with_heap (kheap v) v). rewrite (bind_ret _ _ _ 0 (with_heap (kheap v) v))
         by (unfold vm_kalloc_page; by rewrite Ek).
       split; [done|]. split; [|split; [done|by right]].
       split; [by destruct Hw|by destruct Hr|by exists start|done|done|done]. }
  rewrite (bind_ret _ _ _ page (with_heap (mk_heap (page + 4096) (heap_end (kheap v))) v))
    by (unfold vm_kalloc_page; by rewrite Ek).
  destruct Hh as [Hst Hptr Hend Htop Hali] eqn:EHh. clear EHh.
  test_false (page =? 0). rewrite bind_modify.
  assert (u64 (va + (if va <? vaddr then vaddr - va else 0) - vaddr) = va + (if va <? vaddr then vaddr - va else 0) - vaddr) as ->.
  { apply u64_small. unfold PAGE_SIZE in *. destruct (Z.ltb_spec va vaddr); lia. }
  destruct (page_fill elf src filesz vaddr va page (pmem v)) as [Hfill Hbelow]; [lia..|].
  set (po := if va <? vaddr then vaddr - va else 0) in *. set (foff := va + po - vaddr) in *.
  set (m1 := write_bytes page _ _) in *. set (m2 := if foff <? filesz then _ else m1) in *.
  assert (0 ≤ foff ∧ 0 ≤ po) as [Hfo Hpo] by (unfold foff, po; destruct (Z.ltb_spec va vaddr); lia).
  set (v2 := with_pmem m2 (with_heap (mk_heap (page + 4096) (heap_end (kheap v))) v)).
  match goal with |- context [bind (if foff <? filesz then ?X else ?Y) ?k ?s] =>
    rewrite (bind_ret (if foff <? filesz then X else Y) k s tt v2) end.
  2: { unfold v2, m2. destruct (foff <? filesz) eqn:E; [|done]. bprop.
       replace (zlen elf <? _) with false; [done|]. symmetry. apply Z.ltb_ge. lia. }
  assert (vm_wf v2) as Hw2 by (by destruct Hw). assert (root_wf v2 r) as Hr2 by (by destruct Hr).
  assert (page_ok page) as Hpk by (split; [done|lia]).
  destruct (vm_map_page_spec v2 r va page perm Hw2 Hr2 Hal Hpk Hperm)
    as (rc & v3 & E & Hw3 & Hr3 & _ & _ & Hpm3 & Hkh3 & _ & _ & _ & Hcase).
  unfold vm_map_user_page. rewrite (bind_ret _ _ _ _ _ E).
  assert (∀ va', is_Some (xlate (pt_mem v) r va') → xlate (pt_mem v3) r va' = xlate (pt_mem v) r va') as Hkeep.
  { intros va' Hsome. destruct Hcase as [(_ & Hno & Hx)|(_ & _ & Hx)]; rewrite Hx; [|done].
    case_decide as Hsp; [|done]. exfalso. destruct Hsp as (S2 & S1 & S0).
    change (pt_mem v2) with (pt_mem v) in Hno. unfold xlate in Hno, Hsome. rewrite S2, S1, S0 in Hno. rewrite Hno in Hsome.
    by destruct Hsome. }
  assert (keeps r v v3) as Hk.
  { split; try done; rewrite ?Hkh3, ?Hpm3.
    - exists start. split; [by split|done].
    - simpl. lia.
    - intros x Hx. apply Hbelow. lia. }
  destruct Hcase as [(-> & Hno & Hx)|(-> & _ & Hx)].
  - exists 0, v3. split; [done|]. split; [done|]. split.
    { intros va' Hns. by rewrite Hx, decide_False. }
    left. split; [done|]. exists page. split; [done|]. split; [lia|]. rewrite Hkh3, Hpm3. split; [done|].
    split; [intros va' Hsp; split; [|by rewrite Hx, decide_True]|done].
    destruct Hsp as (S2 & S1 & S0). change (pt_mem v2) with (pt_mem v) in Hno. unfold xlate in *. by rewrite S2, S1, S0 in Hno.
  - exists ENOSPC, v3. split; [done|]. split; [done|]. split; [intros; apply Hx|by right].
Qed.

Lemma keeps_trans r v1 v2 v3 : keeps r v1 v2 → keeps r v2 v3 → keeps r v1 v3.
Proof.
  intros [A1 A2 (st & A3 & A3') A4 A5 A6] [B1 B2 (st' & B3 & B3') B4 B5 B6].
  assert (st' = st) as -> by (destruct A3', B3; lia). split; try done.
  - by exists st.
  - lia.
  - intros x Hx. rewrite B5, A5 by lia. done.
  - intros va Hs. rewrite B6; [by apply A6|]. by rewrite A6.
Qed.

(** Same page, by the numbers of the pages. *)
Lemma same_page_eq va va' : va / 4096 = va' / 4096 → same_page va va'.
Proof. intros E. unfold same_page. by rewrite !pt_index_div, E by lia. Qed.

(** An address is mapped to a page, which holds the byte of the segment. *)
Definition seg_at (r : Z) (perm vaddr filesz : Z) (elf : list Z) (src : Z) (v : vm) (x page : Z) : Prop :=
  page_ok page ∧ page + PAGE_SIZE ≤ heap_ptr (kheap v)
    ∧ xlate (pt_mem v) r x = Some (pte_make page (map_flags perm))
    ∧ default 0 (pmem v !! (page + x mod PAGE_SIZE)) = seg_byte elf src filesz (x - vaddr).

Lemma seg_at_keeps r perm vaddr filesz elf src v v' x page :
  keeps r v v' → seg_at r perm vaddr filesz elf src v x page → seg_at r perm vaddr filesz elf src v' x page.
Proof.
  intros [_ _ _ Hp Hm Hx] (Hok & Hl & Ht & Hb). split; [done|]. split; [lia|].
  split; [by rewrite Hx|]. rewrite Hm; [done|]. unfold PAGE_SIZE in *. pose proof (Z.mod_pos_bound x 4096). lia.
Qed.

(** The pages of the addresses from [va] to [last], by the number of the virtual page:
    taken from the free part of the heap of [v], one after the other, for addresses that
    were not mapped. *)
Definition fresh_pages (r : Z) (v : vm) (va last : Z) (pg : Z → Z) : Prop :=
  ∀ x, va ≤ x < last →
    xlate (pt_mem v) r x = None ∧ heap_ptr (kheap v) ≤ pg (x / PAGE_SIZE)
    ∧ ∀ y, va ≤ y < last → x / PAGE_SIZE < y / PAGE_SIZE → pg (x / PAGE_SIZE) + PAGE_SIZE ≤ pg (y / PAGE_SIZE).

Lemma load_pages_spec r start perm vaddr filesz elf src last fuel : ∀ v va,
  vm_wf v → root_wf v r → heap_wf start (kheap v) → 0 ≤ perm < 32 →
  0 ≤ src → 0 ≤ filesz → src + filesz ≤ zlen elf →
  0 ≤ va → va mod PAGE_SIZE = 0 → 0 ≤ vaddr < va + PAGE_SIZE → last ≤ 549755813888 →
  last - va = PAGE_SIZE * Z.of_nat fuel →
  ∃ rc v', load_pages fuel r va last vaddr filesz perm elf src v = Ret (rc, v') ∧ keeps r v v'
    ∧ (∀ x, 0 ≤ x < 549755813888 → x < va ∨ last ≤ x → xlate (pt_mem v') r x = xlate (pt_mem v) r x)
    ∧ ((rc = 0 ∧ ∃ pg, fresh_pages r v va last pg
          ∧ ∀ x, va ≤ x < last → seg_at r perm vaddr filesz elf src v' x (pg (x / PAGE_SIZE)))
       ∨ rc = ENOSPC).
Proof.
  unfold fresh_pages, PAGE_SIZE. induction fuel as [|fuel IH]; intros v va Hw Hr Hh Hperm Hs Hf Hl Hva Hal Hvd Hlast Hfuel; cbn [load_pages].
  { test_false (va <? last). exists 0, v. split; [done|]. split; [by split; try done; exists start|].
    split; [done|]. left. split; [done|]. exists (λ n, n). split; intros; lia. }
  test_true (va <? last). cbn [negb].
  destruct (load_page_spec v r start va vaddr filesz perm elf src Hw Hr Hh) as (rc & v1 & E & Hk & Hoth & Hcase); try done; [lia|].
  rewrite (bind_ret _ _ _ _ _ E). destruct Hcase as [(-> & page & Hpk & Hpf & Hpl & Hx & Hb)| ->].
  2: { exists ENOSPC, v1. split; [done|]. split; [done|]. split; [|by right]. intros x Hx Hout. apply Hoth.
       intros Hsp. apply same_page_div in Hsp; [|lia..]. Z.to_euclidean_division_equations; lia. }
  cbn [negb Z.eqb]. unfold PAGE_SIZE in *. rewrite u64_small by lia.
  destruct (IH v1 (va + 4096)) as (rc & v2 & E2 & Hk2 & Hoth2 & Hcase2); try done.
  - apply Hk.
  - apply Hk.
  - destruct (kp_heap _ _ _ Hk) as (st & H1 & H2). by assert (st = start) as <- by (destruct Hh, H1; lia).
  - lia.
  - rewrite <- Zplus_mod_idemp_r. change (4096 mod 4096) with 0. by rewrite Z.add_0_r.
  - lia.
  - lia.
  - exists rc, v2. split; [done|]. split; [by eapply keeps_trans|]. split.
    { intros x Hx1 Hout. rewrite Hoth2 by lia. apply Hoth. intros Hsp. apply same_page_div in Hsp; [|lia..].
      Z.to_euclidean_division_equations; lia. }
    destruct Hcase2 as [(-> & pg & Hfr & Hseg)| ->]; [left|by right]. split; [done|].
    assert (∀ x, va ≤ x < va + 4096 → x / 4096 = va / 4096) as Hfst by (intros; Z.to_euclidean_division_equations; lia).
    assert (∀ x, va + 4096 ≤ x → va / 4096 < x / 4096) as Hnxt by (intros; Z.to_euclidean_division_equations; lia).
    exists (λ n, if n =? va / 4096 then page else pg n). split; intros x Hx1.
    + destruct (Z.lt_ge_cases x (va + 4096)) as [Hlt|Hge].
      * rewrite (Hfst x), Z.eqb_refl by lia. split; [apply Hx, same_page_eq; symmetry; apply Hfst; lia|]. split; [done|].
        intros y Hy Hxy. test_false (y / 4096 =? va / 4096). apply Z.le_trans with (heap_ptr (kheap v1)); [done|].
        apply (Hfr y). assert (¬ (y < va + 4096)) by (intros ?; rewrite (Hfst y) in Hxy; lia). lia.
      * pose proof (Hnxt x Hge). test_false (x / 4096 =? va / 4096). destruct (Hfr x) as (Hn & Hp & Hm); [lia|].
        split; [rewrite <- Hoth; [done|]; intros Hsp; apply same_page_div in Hsp; lia|].
        split; [pose proof (kp_ptr _ _ _ Hk); lia|]. intros y Hy Hxy. test_false (y / 4096 =? va / 4096). apply Hm; [|done].
        assert (¬ (y < va + 4096)) by (intros ?; rewrite (Hfst y) in Hxy; lia). lia.
    + destruct (Z.lt_ge_cases x (va + 4096)) as [Hlt|Hge].
      * rewrite (Hfst x), Z.eqb_refl by lia. eapply seg_at_keeps; [done|]. split; [done|]. split; [done|].
        split; [apply Hx, same_page_eq; symmetry; apply Hfst; lia|]. unfold PAGE_SIZE.
        assert (x mod 4096 = x - va) as -> by (Z.to_euclidean_division_equations; lia). rewrite Hb by lia. f_equal. lia.
      * pose proof (Hnxt x Hge). test_false (x / 4096 =? va / 4096). apply Hseg. lia.
Qed.

(** [C26] Loading a segment that ends below 2^39 puts exactly its bytes in the agent's
    address space: when the call returns 0, no address of the segment was mapped before,
    and each is now mapped with the permissions of the segment to a page that holds the
    file's byte there, or zero past the file's part.  The pages come from the free part of
    the kernel heap, a different one for each virtual page ([pg] gives the page of a
    virtual page number; two of them do not overlap), and are given out afterwards.
    Mappings that existed and kernel memory that was allocated before are unchanged, also
    when the call fails for lack of memory; it has no other outcome. *)
Theorem elf_segment_loaded v r start vaddr memsz filesz elf src flags :
  vm_wf v → root_wf v r → heap_wf start (kheap v) →
  0 ≤ vaddr → 0 ≤ memsz → vaddr + memsz ≤ 549755813888 → 0 ≤ src → 0 ≤ filesz → src + filesz ≤ zlen elf →
  ∃ rc v', elf_map_segment r vaddr memsz filesz elf src flags v = Ret (rc, v') ∧ keeps r v v'
    ∧ ((rc = 0 ∧ ∃ pg : Z → Z, ∀ k, 0 ≤ k < memsz →
          let page := pg ((vaddr + k) / PAGE_SIZE) in
          xlate (pt_mem v) r (vaddr + k) = None
          ∧ xlate (pt_mem v') r (vaddr + k) = Some (pte_make page (map_flags (seg_perm flags)))
          ∧ default 0 (pmem v' !! (page + (vaddr + k) mod PAGE_SIZE)) = (if k <? filesz then cget elf (src + k) else 0)
          ∧ page mod PAGE_SIZE = 0 ∧ heap_ptr (kheap v) ≤ page ∧ page + PAGE_SIZE ≤ heap_ptr (kheap v')
          ∧ ∀ k', k < k' < memsz →
              (vaddr + k) / PAGE_SIZE = (vaddr + k') / PAGE_SIZE ∨ page + PAGE_SIZE ≤ pg ((vaddr + k') / PAGE_SIZE))
       ∨ rc = ENOSPC).
Proof.
  intros Hw Hr Hh Hv Hm Hend Hs Hf Hl. unfold elf_map_segment, PAGE_SIZE in *.
  rewrite (u64_small (vaddr + memsz)), (u64_small (vaddr + memsz + 4096 - 1)), !align_down_12 by lia.
  set (va := vaddr / 4096 * 4096). set (last := (vaddr + memsz + 4096 - 1) / 4096 * 4096).
  assert (va ≤ vaddr < va + 4096 ∧ va mod 4096 = 0 ∧ vaddr + memsz ≤ last ≤ 549755813888 ∧ va ≤ last) as (? & ? & ? & ?).
  { unfold va, last. split; [Z.to_euclidean_division_equations; lia|]. split; [by apply Z_mod_mult|].
    Z.to_euclidean_division_equations; lia. }
  assert (last - va = 4096 * Z.of_nat (Z.to_nat ((last - va) / 4096))) as Hfuel.
  { rewrite Z2Nat.id by (apply Z.div_pos; lia). unfold va, last. rewrite <- Z.mul_sub_distr_r, Z.div_mul by lia. lia. }
  destruct (load_pages_spec r start (seg_perm flags) vaddr filesz elf src last _ v va Hw Hr Hh (seg_perm_range flags)
    Hs Hf Hl ltac:(lia) ltac:(done) ltac:(unfold PAGE_SIZE; lia) ltac:(lia) Hfuel) as (rc & v' & E & Hk & _ & Hcase).
  exists rc, v'. split; [done|]. split; [done|]. destruct Hcase as [(-> & pg & Hfr & Hseg)| ->]; [left|by right].
  split; [done|]. exists pg. intros k Hk1. unfold fresh_pages, seg_at, PAGE_SIZE in *.
  destruct (Hseg (vaddr + k)) as ([Hpm _] & Hp & Hx & Hb); [lia|]. destruct (Hfr (vaddr + k)) as (Hn & Hh' & Hd); [lia|].
  split; [done|]. split; [done|]. split.
  { rewrite Hb. unfold seg_byte. replace (vaddr + k - vaddr) with k by lia. by test_true (0 <=? k). }
  split; [done|]. split; [done|]. split; [done|]. intros k' Hk'.
  destruct (Z.eq_dec ((vaddr + k) / 4096) ((vaddr + k') / 4096)) as [E1|E1]; [by left|right].
  apply Hd; [lia|]. assert ((vaddr + k) / 4096 ≤ (vaddr + k') / 4096) by (apply Z.div_le_mono; lia). lia.
Qed.

End segments.

(** A four-byte segment with three bytes in the file. *)
Lemma elf_segment_loaded_witness :
  ∃ v', elf_map_segment root_table 0x10ffe 4 3 (str "xabc") 1 PF_R boot_vm = Ret (0, v')
    ∧ ∃ page, xlate (pt_mem v') root_table (0x10ffe + 2) = Some (pte_make page (map_flags (seg_perm PF_R)))
        ∧ default 0 (pmem v' !! (page + 0x11000 mod PAGE_SIZE)) = 99.
Proof.
  destruct (elf_segment_loaded boot_vm root_table platform_heap_start 0x10ffe 4 3 (str "xabc") 1 PF_R boot_wf boot_root)
    as (rc & v' & E & _ & H); [split; vm_compute; done|lia|lia|lia|lia|lia|done|].
  exists v'. destruct H as [[-> H]| ->].
  - split; [exact E|]. destruct H as [pg H]. destruct (H 2) as (_ & Hx & Hb & _); [lia|]. eexists. split; [exact Hx|exact Hb].
  - exfalso. assert (match elf_map_segment root_table 0x10ffe 4 3 (str "xabc") 1 PF_R boot_vm with Ret (rc, _) => rc | _ => 1 end = 0) as E0
      by (vm_compute; reflexivity). rewrite E in E0. discriminate E0.
Defined.
