(* ===== verification/NetWire.v ===== *)
(** * Packet encodings (kernel/netstack.c)

    Byte order, checksums, the builders of packets and the parsers of addresses and
    URLs: the functions of netstack.c that have no state.  A 16- or 32-bit field
    of a packed structure is stored little-endian by the machine, so a header is
    the list of [le16 (htons16 x)] and [le32 (htonl32 x)] of its fields. *)

From S2P Require Import Prelude Ramfs Persist.

Definition NET_MTU : Z := 1500.
Definition NET_FRAME_MAX : Z := NET_MTU + 64.
Definition NET_TCP_PORT_MAX : Z := 65535.
Definition NET_IP_HOST : Z := 0x0a00020f.
Definition NET_GW_HOST : Z := 0x0a000202.
Definition NET_DNS_HOST : Z := 0x08080808.
Definition NET_MASK_HOST : Z := 0xffffff00.

Definition ETHERTYPE_ARP : Z := 0x0806.
Definition ETHERTYPE_IP : Z := 0x0800.
Definition ARP_OP_REQUEST : Z := 1.
Definition ARP_OP_REPLY : Z := 2.
Definition IP_PROTO_TCP : Z := 6.
Definition IP_PROTO_UDP : Z := 17.
Definition TCP_FIN : Z := 0x01.
Definition TCP_SYN : Z := 0x02.
Definition TCP_RST : Z := 0x04.
Definition TCP_PSH : Z := 0x08.
Definition TCP_ACK : Z := 0x10.
Definition TCP_RX_SIZE : Z := 16384.

(** ** Byte order *)

Definition le16 (v : Z) : list Z := [u8 v; u8 (Z.shiftr v 8)].
Definition get16 (l : list Z) (off : Z) : Z := cget l off + 256 * cget l (off + 1).

Definition htons16 (v : Z) : Z := u16 (Z.lor (Z.shiftr v 8) (Z.shiftl v 8)).
Definition ntohs16 (v : Z) : Z := htons16 v.

Definition htonl32 (v : Z) : Z :=
  Z.lor (Z.lor (Z.lor (Z.shiftl (Z.land v 0xff) 24) (Z.shiftl (Z.land v 0xff00) 8))
    (Z.shiftr (Z.land v 0xff0000) 8)) (Z.shiftr (Z.land v 0xff000000) 24).
Definition ntohl32 (v : Z) : Z := htonl32 v.

Definition read_be32 (l : list Z) (off : Z) : Z :=
  Z.lor (Z.lor (Z.lor (Z.shiftl (cget l off) 24) (Z.shiftl (cget l (off + 1)) 16)) (Z.shiftl (cget l (off + 2)) 8))
    (cget l (off + 3)).

Definition write_be32 (v : Z) : list Z := [u8 (Z.shiftr v 24); u8 (Z.shiftr v 16); u8 (Z.shiftr v 8); u8 v].

(** ** Checksums *)

(** The loop [while (sum >> 16)]; two steps are enough for a 32-bit sum. *)
Fixpoint fold_carry (fuel : nat) (sum : Z) : Z :=
  match fuel with
  | O => sum
  | S fuel' => if Z.shiftr sum 16 =? 0 then sum else fold_carry fuel' (Z.land sum 0xffff + Z.shiftr sum 16)
  end.

Definition csum_fold (sum : Z) : Z := u16 (Z.lnot (fold_carry 2 sum)).

(** The sum of the 16-bit words, an odd last byte as the high half of a word. *)
Fixpoint csum_words (l : list Z) (sum : Z) : Z :=
  match l with
  | [] => sum
  | [a] => u32 (sum + Z.shiftl a 8)
  | a :: b :: l' => csum_words l' (u32 (sum + ntohs16 (a + 256 * b)))
  end.

Definition csum16 (data : list Z) : Z := csum_fold (csum_words data 0).

Definition tcp_csum (src dst : Z) (seg : list Z) : Z :=
  let sum := u32 (Z.shiftr src 16 + Z.land src 0xffff) in
  let sum := u32 (sum + (Z.shiftr dst 16 + Z.land dst 0xffff)) in
  let sum := u32 (sum + IP_PROTO_TCP) in
  let sum := u32 (sum + u16 (zlen seg)) in
  csum_fold (csum_words seg sum).

(** ** Headers *)

Definition arp_packet (op : Z) (mac target_mac : list Z) (target_ip sender_ip : Z) : list Z :=
  le16 (htons16 1) ++ le16 (htons16 ETHERTYPE_IP) ++ [6; 4] ++ le16 (htons16 op)
  ++ take 6 mac ++ write_be32 sender_ip ++ take 6 target_mac ++ write_be32 target_ip.

(** The IP header before its checksum is known. *)
Definition ip_header (iplen proto src dst csum : Z) : list Z :=
  [0x45; 0; u8 (Z.shiftr iplen 8); u8 iplen; 0; 1; 0; 0; 64; proto; u8 (Z.shiftr csum 8); u8 csum]
  ++ write_be32 src ++ write_be32 dst.

Definition ip_packet (proto src dst : Z) (payload : list Z) : list Z :=
  let iplen := 20 + zlen payload in
  let csum := csum16 (ip_header iplen proto src dst 0) in
  ip_header iplen proto src dst csum ++ payload.

Definition udp_datagram (sport dport : Z) (payload : list Z) : list Z :=
  le16 (htons16 sport) ++ le16 (htons16 dport) ++ le16 (htons16 (u16 (8 + zlen payload))) ++ le16 0 ++ payload.

(** The TCP header and data with the checksum field [csum]. *)
Definition tcp_seg (sport dport seq ack flags csum : Z) (data : list Z) : list Z :=
  le16 (htons16 sport) ++ le16 (htons16 dport) ++ le32 (htonl32 seq) ++ le32 (htonl32 ack)
  ++ [u8 (Z.shiftl 5 4); flags] ++ le16 (htons16 8192) ++ le16 csum ++ le16 0 ++ data.

Definition tcp_segment (src dst sport dport seq ack flags : Z) (data : list Z) : list Z :=
  let csum := htons16 (tcp_csum src dst (tcp_seg sport dport seq ack flags 0 data)) in
  tcp_seg sport dport seq ack flags csum data.

(** ** DHCP and DNS queries *)

Definition dhcp_xid : Z := 0x1234.

(** The fixed start of both messages, written over the old packet. *)
Definition dhcp_start (mac pkt : list Z) : list Z :=
  splice (splice pkt 0 [1; 1; 6; 0; u8 (Z.shiftr dhcp_xid 24); u8 (Z.shiftr dhcp_xid 16); u8 (Z.shiftr dhcp_xid 8); u8 dhcp_xid])
    20 (take 6 mac).

(** The packet buffer and the length sent. *)
Definition dhcp_discover_pkt (mac pkt : list Z) : list Z * Z :=
  (splice (dhcp_start mac pkt) 228 [99; 130; 83; 99; 53; 1; 1; 255], 236).

Definition dhcp_request_pkt (mac pkt : list Z) (req_ip : Z) : list Z * Z :=
  let ip := write_be32 req_ip in
  (splice (splice (dhcp_start mac pkt) 36 ip) 232
     ([99; 130; 83; 99; 53; 1; 3; 50; 4] ++ ip ++ [54; 4] ++ write_be32 NET_GW_HOST ++ [255]), 252).

(** The labels of a name: at most 63 characters each, then an optional dot. *)
Fixpoint take_label (n : nat) (host : list Z) : list Z * list Z :=
  match n, host with
  | S n', c :: host' => if c =? chr "." then ([], host)
                        else let '(l, r) := take_label n' host' in (c :: l, r)
  | _, _ => ([], host)
  end.

Fixpoint dns_labels (fuel : nat) (host : list Z) : list Z :=
  match fuel, host with
  | S fuel', _ :: _ =>
      let '(label, rest) := take_label 63 host in
      let rest := match rest with c :: r => if c =? chr "." then r else rest | [] => [] end in
      zlen label :: label ++ dns_labels fuel' rest
  | _, _ => []
  end.

(** Every round consumes a character. *)
Definition dns_query (host : list Z) : list Z :=
  [0x12; 0x34; 0x01; 0x00; 0x00; 0x01; 0x00; 0x00; 0x00; 0x00; 0x00; 0x00]
  ++ dns_labels (length host) host ++ [0; 0; 1; 0; 1].

Definition dns_ip_bogus (ip : Z) : bool :=
  let o1 := Z.land (Z.shiftr ip 24) 0xff in
  let o2 := Z.land (Z.shiftr ip 16) 0xff in
  (o1 =? 198) && ((o2 =? 18) || (o2 =? 19)).

(** ** Addresses and URLs *)

(** The loop with the parts read so far, first part first. *)
Fixpoint ipv4_loop (s : list Z) (parts : list Z) (acc : Z) : option (list Z) :=
  match s with
  | [] => if zlen parts =? 3 then Some (parts ++ [acc]) else None
  | c :: s' =>
      if is_digit c then
        let acc := u32 (acc * 10 + (c - 48)) in
        if 255 <? acc then None else ipv4_loop s' parts acc
      else if c =? chr "." then
        if 3 <=? zlen parts then None else ipv4_loop s' (parts ++ [acc]) 0
      else None
  end.

Definition parse_ipv4 (s : list Z) : option Z :=
  p ← ipv4_loop s [] 0;
  Some (Z.lor (Z.lor (Z.lor (Z.shiftl (cget p 0) 24) (Z.shiftl (cget p 1) 16)) (Z.shiftl (cget p 2) 8)) (cget p 3)).

Fixpoint take_while (p : Z → bool) (s : list Z) : list Z * list Z :=
  match s with
  | c :: s' => if p c then let '(l, r) := take_while p s' in (c :: l, r) else ([], s)
  | [] => ([], [])
  end.

(** The digits of a port; [None] above 65535. *)
Fixpoint port_digits (acc : Z) (s : list Z) : option (Z * list Z) :=
  match s with
  | c :: s' =>
      if is_digit c then
        let acc := u32 (acc * 10 + (c - 48)) in
        if NET_TCP_PORT_MAX <? acc then None else port_digits acc s'
      else Some (acc, s)
  | [] => Some (acc, [])
  end.

(** Host, port and path. *)
Definition parse_url (url : list Z) (host_len path_len : Z) : option (list Z * Z * list Z) :=
  if negb (cmatch url 0 (str "http")) then None
  else
    let tls := cget url 4 =? chr "s" in
    let i := if tls then 5 else 4 in
    if negb (cmatch url i (str "://")) then None
    else
      let '(host, rest) := take_while (λ c, negb (c =? chr "/") && negb (c =? chr ":")) (drop (Z.to_nat (i + 3)) url) in
      if host_len - 1 <? zlen host then None
      else if zlen host =? 0 then None
      else
        '(port, rest) ← (if cget rest 0 =? chr ":" then port_digits 0 (drop 1 rest)
                         else Some (if tls then 443 else 80, rest));
        let path := if cget rest 0 =? chr "/" then take (Z.to_nat (path_len - 1)) rest else str "/" in
        Some (host, port, path).

(** ** Byte order: lemmas *)


Lemma land_shiftl k a b : 0 ≤ k → 0 ≤ b < 2 ^ k → Z.land (Z.shiftl a k) b = 0.
Proof.
  intros Hk Hb. apply Z.bits_inj'. intros n Hn. rewrite Z.land_spec, Z.bits_0.
  destruct (Z.lt_ge_cases n k).
  - by rewrite Z.shiftl_spec_low.
  - destruct (Z.eq_dec b 0) as [->|]; [by rewrite Z.bits_0, andb_false_r|].
    rewrite (Z.bits_above_log2 b), andb_false_r; [done|lia|]. apply Z.log2_lt_pow2; [lia|].
    eapply Z.lt_le_trans; [apply Hb|]. apply Z.pow_le_mono_r; lia.
Qed.

Lemma lor_shiftl k a b : 0 ≤ k → 0 ≤ b < 2 ^ k → Z.lor (Z.shiftl a k) b = a * 2 ^ k + b.
Proof.
  intros Hk Hb. pose proof (land_shiftl k a b Hk Hb) as H.
  rewrite <- Z.lxor_lor, <- Z.add_nocarry_lxor by done. by rewrite Z.shiftl_mul_pow2 by done.
Qed.

(** Swapping the two bytes of a word. *)
Lemma htons16_spec v : 0 ≤ v < 65536 → htons16 v = v mod 256 * 256 + v / 256.
Proof.
  intros Hv. unfold htons16, u16. rewrite Z.shiftr_div_pow2, Z.lor_comm by lia. change (2 ^ 8) with 256.
  assert (0 ≤ v / 256 < 256) by (Z.to_euclidean_division_equations; lia).
  rewrite lor_shiftl by (change (2 ^ 8) with 256; lia). change (2 ^ 8) with 256.
  Z.to_euclidean_division_equations; lia.
Qed.

Lemma ntohs16_bytes a b : byte_ok a → byte_ok b → ntohs16 (a + 256 * b) = a * 256 + b.
Proof.
  unfold byte_ok, ntohs16. intros. rewrite htons16_spec by lia. Z.to_euclidean_division_equations; lia.
Qed.

Lemma le16_htons v : 0 ≤ v < 65536 → le16 (htons16 v) = [v / 256; v mod 256].
Proof.
  intros Hv. rewrite htons16_spec by done. unfold le16, u8. rewrite Z.shiftr_div_pow2 by lia. change (2 ^ 8) with 256.
  f_equal; [|f_equal]; Z.to_euclidean_division_equations; lia.
Qed.

Lemma bytes_of_32 v : 0 ≤ v < 4294967296 →
  v = 16777216 * (v / 16777216) + 65536 * (v / 65536 mod 256) + 256 * (v / 256 mod 256) + v mod 256
  ∧ 0 ≤ v / 16777216 < 256.
Proof. intros. Z.to_euclidean_division_equations. lia. Qed.

Lemma write_be32_spec v : 0 ≤ v < 4294967296 →
  write_be32 v = [v / 16777216; v / 65536 mod 256; v / 256 mod 256; v mod 256].
Proof.
  intros Hv. unfold write_be32, u8. rewrite !Z.shiftr_div_pow2 by lia.
  change (2 ^ 24) with 16777216. change (2 ^ 16) with 65536. change (2 ^ 8) with 256.
  f_equal. apply Z.mod_small. apply bytes_of_32. done.
Qed.

Lemma lor4 a b c d : byte_ok a → byte_ok b → byte_ok c → byte_ok d →
  Z.lor (Z.lor (Z.lor (Z.shiftl a 24) (Z.shiftl b 16)) (Z.shiftl c 8)) d = 16777216 * a + 65536 * b + 256 * c + d.
Proof.
  unfold byte_ok. intros.
  assert (Z.lor (Z.lor (Z.shiftl a 24) (Z.shiftl b 16)) (Z.shiftl c 8) = Z.shiftl (65536 * a + 256 * b + c) 8) as ->.
  { rewrite (lor_shiftl 24) by (rewrite ?Z.shiftl_mul_pow2 by lia; change (2 ^ 16) with 65536; change (2 ^ 24) with 16777216; lia).
    rewrite !Z.shiftl_mul_pow2 by lia. change (2 ^ 16) with 65536. change (2 ^ 24) with 16777216. change (2 ^ 8) with 256.
    replace (a * 16777216 + b * 65536) with (Z.shiftl (a * 256 + b) 16) by (rewrite Z.shiftl_mul_pow2 by lia; change (2 ^ 16) with 65536; lia).
    rewrite (lor_shiftl 16) by (change (2 ^ 16) with 65536; lia). change (2 ^ 16) with 65536. lia. }
  rewrite lor_shiftl by (change (2 ^ 8) with 256; lia). change (2 ^ 8) with 256. lia.
Qed.

Lemma read_be32_spec l off : (∀ k, 0 ≤ k < 4 → byte_ok (cget l (off + k))) →
  read_be32 l off = 16777216 * cget l off + 65536 * cget l (off + 1) + 256 * cget l (off + 2) + cget l (off + 3).
Proof.
  intros H. pose proof (H 0) as H0. rewrite Z.add_0_r in H0. apply lor4; [apply H0; lia|apply H; lia..].
Qed.

Lemma land_byte v k : 0 ≤ k → Z.land v (Z.shiftl 255 k) = v / 2 ^ k mod 256 * 2 ^ k.
Proof.
  intros Hk. rewrite <- Z.shiftr_div_pow2, <- Z.shiftl_mul_pow2 by done. change 256 with (2 ^ 8).
  rewrite <- Z.land_ones by lia. change (Z.ones 8) with 255. apply Z.bits_inj'. intros n Hn.
  rewrite Z.land_spec. destruct (Z.lt_ge_cases n k).
  - by rewrite !Z.shiftl_spec_low, andb_false_r.
  - rewrite !Z.shiftl_spec, Z.land_spec, Z.shiftr_spec by lia. do 2 f_equal. lia.
Qed.

Lemma htonl32_spec v : 0 ≤ v < 4294967296 →
  htonl32 v = 16777216 * (v mod 256) + 65536 * (v / 256 mod 256) + 256 * (v / 65536 mod 256) + v / 16777216.
Proof.
  intros Hv. unfold htonl32.
  change 0xff with (Z.shiftl 255 0). change 0xff00 with (Z.shiftl 255 8).
  change 0xff0000 with (Z.shiftl 255 16). change 0xff000000 with (Z.shiftl 255 24). rewrite !land_byte by lia.
  change (2 ^ 0) with 1. change (2 ^ 8) with 256. change (2 ^ 16) with 65536. change (2 ^ 24) with 16777216.
  rewrite Z.div_1_r, Z.mul_1_r.
  replace (Z.shiftl (v / 256 mod 256 * 256) 8) with (Z.shiftl (v / 256 mod 256) 16).
  2: { rewrite !Z.shiftl_mul_pow2 by lia. change (2 ^ 8) with 256. change (2 ^ 16) with 65536. lia. }
  replace (Z.shiftr (v / 65536 mod 256 * 65536) 8) with (Z.shiftl (v / 65536 mod 256) 8).
  2: { rewrite Z.shiftl_mul_pow2, Z.shiftr_div_pow2 by lia. change (2 ^ 8) with 256. Z.to_euclidean_division_equations; lia. }
  replace (Z.shiftr (v / 16777216 mod 256 * 16777216) 24) with (v / 16777216).
  2: { rewrite Z.shiftr_div_pow2 by lia. change (2 ^ 24) with 16777216. rewrite Z.div_mul by lia. symmetry.
       apply Z.mod_small. by apply bytes_of_32. }
  apply lor4; try (apply Z.mod_pos_bound; lia). by apply bytes_of_32.
Qed.

Lemma le32_htonl v : 0 ≤ v < 4294967296 → le32 (htonl32 v) = write_be32 v.
Proof.
  intros Hv. rewrite write_be32_spec, htonl32_spec by done. destruct (bytes_of_32 v Hv) as [_ Hh].
  unfold le32, u8. pose proof (Z.mod_pos_bound v 256 ltac:(lia)). pose proof (Z.mod_pos_bound (v / 256) 256 ltac:(lia)).
  pose proof (Z.mod_pos_bound (v / 65536) 256 ltac:(lia)).
  set (a := v mod 256) in *. set (b := v / 256 mod 256) in *. set (c := v / 65536 mod 256) in *. set (d := v / 16777216) in *.
  clearbody a b c d. clear Hv.
  f_equal; [|f_equal; [|f_equal; [|f_equal]]]; Z.to_euclidean_division_equations; lia.
Qed.

(** Reading a big-endian word with the structure access and the swap. *)
Lemma ntohl32_get l off : (∀ k, 0 ≤ k < 4 → byte_ok (cget l (off + k))) → ntohl32 (get_le32 l off) = read_be32 l off.
Proof.
  intros H. rewrite read_be32_spec by done. pose proof (H 0) as H0. pose proof (H 1). pose proof (H 2). pose proof (H 3).
  rewrite Z.add_0_r in H0. unfold byte_ok in *. unfold ntohl32, get_le32.
  rewrite htonl32_spec by lia. set (a := cget l off) in *. set (b := cget l (off + 1)) in *.
  set (c := cget l (off + 2)) in *. set (d := cget l (off + 3)) in *. Z.to_euclidean_division_equations; lia.
Qed.

(** ** Checksums: lemmas *)

(** The sum of the big-endian words of a packet. *)
Fixpoint be_sum (l : list Z) : Z :=
  match l with
  | [] => 0
  | [a] => a * 256
  | a :: b :: l' => a * 256 + b + be_sum l'
  end.

Lemma list_pair_ind (P : list Z → Prop) :
  P [] → (∀ a, P [a]) → (∀ a b l, P l → P (a :: b :: l)) → ∀ l, P l.
Proof.
  intros H0 H1 H2 l. enough (P l ∧ ∀ a, P (a :: l)) as [? _] by done.
  induction l as [|x l [IH1 IH2]]; [by split|]. split; [done|]. intros a. by apply H2.
Qed.

Lemma be_sum_range l : bytes_ok l → 0 ≤ be_sum l ≤ 32768 * (zlen l + 1).
Proof.
  induction l as [|a|a b l IH] using list_pair_ind; intros Hl; simpl.
  - unfold zlen. simpl. lia.
  - inversion Hl; subst. unfold byte_ok, zlen in *. simpl. lia.
  - inversion Hl as [|? ? Ha Hl1]; inversion Hl1 as [|? ? Hb Hl2]; subst. specialize (IH Hl2). unfold byte_ok, zlen in *. simpl. lia.
Qed.

Lemma be_sum_app l r : (2 | zlen l) → be_sum (l ++ r) = be_sum l + be_sum r.
Proof.
  induction l as [|a|a b l IH] using list_pair_ind; intros Hl; cbn [app be_sum].
  - done.
  - destruct Hl as [k Hk]. unfold zlen in Hk. simpl in Hk. lia.
  - rewrite IH; [lia|]. destruct Hl as [k Hk]. exists (k - 1). unfold zlen in *. simpl in Hk. lia.
Qed.

Lemma csum_words_spec l s : bytes_ok l → 0 ≤ s → s + be_sum l < 4294967296 → csum_words l s = s + be_sum l.
Proof.
  revert s; induction l as [|a|a b l IH] using list_pair_ind; intros s Hl Hs Hb; cbn [csum_words be_sum] in *.
  - lia.
  - inversion Hl; subst. unfold byte_ok in *. rewrite Z.shiftl_mul_pow2 by lia. change (2 ^ 8) with 256. apply u32_small. lia.
  - inversion Hl as [|? ? Ha Hl1]; inversion Hl1 as [|? ? Hb' Hl2]; subst. pose proof (be_sum_range l Hl2).
    pose proof (zlen_nonneg l). rewrite ntohs16_bytes by done. unfold byte_ok in *.
    rewrite u32_small by lia. rewrite IH by (done || lia). lia.
Qed.

(** The folded value: at most 16 bits, congruent to the sum, zero only for zero. *)
Lemma fold_carry_spec s : 0 ≤ s < 4294967296 →
  ∃ r, fold_carry 2 s = r ∧ 0 ≤ r ≤ 65535 ∧ Z.shiftr r 16 = 0 ∧ (r - s) mod 65535 = 0 ∧ (r = 0 ↔ s = 0).
Proof.
  intros Hs. exists (fold_carry 2 s). split; [done|].
  assert (∀ x, Z.shiftr x 16 = x / 65536) as Hsh by (intros; by rewrite Z.shiftr_div_pow2).
  assert (∀ x, Z.land x 0xffff = x mod 65536) as Hla by (intros; change 0xffff with (Z.ones 16); by rewrite Z.land_ones).
  cbn [fold_carry]. rewrite !Hla, !Hsh.
  destruct (Z.eqb_spec (s / 65536) 0) as [E|E]; [|destruct (Z.eqb_spec ((s mod 65536 + s / 65536) / 65536) 0) as [E2|E2]];
    rewrite ?Hsh; (split; [Z.to_euclidean_division_equations; lia|]).
  - split; [done|]. split; [by rewrite Z.sub_diag|done].
  - split; [done|]. split; [|Z.to_euclidean_division_equations; lia].
    replace (s mod 65536 + s / 65536 - s) with (- (s / 65536) * 65535) by (Z.to_euclidean_division_equations; lia). apply Z_mod_mult.
  - split; [Z.to_euclidean_division_equations; lia|]. split; [|Z.to_euclidean_division_equations; lia].
    set (t := s mod 65536 + s / 65536).
    replace (t mod 65536 + t / 65536 - s) with (- (t / 65536 + s / 65536) * 65535)
      by (unfold t; Z.to_euclidean_division_equations; lia). apply Z_mod_mult.
Qed.
