(* ===== verification/Net.v ===== *)
(** * The network stack (kernel/netstack.c)

    One network card, one TCP connection.  [netstack_poll] takes one frame from
    the card and handles it; every waiting function is a loop of polls.  The record
    [net] holds the static variables of netstack.c and the state of the card, which
    is reached through the interface [Nic] (virtio_net.h).

    [rx_frame] is the whole receive array: a frame overwrites its start, so a read
    past the frame but inside the array sees an old byte, and a read outside it is
    [Undef].  The packet under construction in a transmit array is a value, and writing it
    where the array is shorter is [Undef] ([fits]); so is writing a request, a response or
    received data past the end of its buffer.  The DHCP packet, whose unwritten parts keep
    old bytes, is part of the state.
    [tcp_rx] is the used part of the receive buffer.  Delay loops do nothing.  The
    resolver over HTTPS is an argument, absent in builds without it. *)

From S2P Require Import Prelude Ramfs Persist Vm NetWire.

(** The card (kernel/virtio_net.h). *)
Class Nic (N : Type) := {
  virtio_net_init : N → N;
  virtio_net_ready : N → bool;
  virtio_net_mac : N → list Z;
  virtio_net_send_frame : list Z → N → Z * N;
  virtio_net_poll_frame : Z → N → option (list Z) * N
}.

Record tcp_conn := mk_tcp {
  active : bool;
  remote_ip : Z;
  remote_port : Z;
  local_port : Z;
  iss : Z;
  snd_nxt : Z;
  rcv_nxt : Z;
  tstate : Z
}.

(** The addresses learned by ARP. *)
Record arp_table := mk_arp {
  gw_mac : list Z;
  gw_mac_valid : bool;
  peer_mac : list Z;
  peer_mac_ip : Z;
  peer_mac_valid : bool
}.

Record dhcp_state := mk_dhcp {
  dhcp_done : bool;
  dhcp_offered_ip : Z;
  dhcp_tx_pkt : list Z
}.

Record dns_state := mk_dns {
  dns_result_ip : Z;
  dns_result_ok : bool;
  dns_saw_bogus : bool;
  dns_accept_bogus : bool;
  dns_cache : option (list Z * Z)
}.

Record net (N : Type) := mk_net {
  nic : N;
  our_ip : Z;
  dns_server : Z;
  arp : arp_table;
  rx_frame : list Z;
  tcp : tcp_conn;
  tcp_rx : list Z;
  dhcp : dhcp_state;
  dns : dns_state
}.
Arguments mk_net {N}. Arguments nic {N}. Arguments our_ip {N}. Arguments dns_server {N}.
Arguments arp {N}. Arguments rx_frame {N}. Arguments tcp {N}. Arguments tcp_rx {N}.
Arguments dhcp {N}. Arguments dns {N}.

Definition bcast_mac : list Z := [0xff; 0xff; 0xff; 0xff; 0xff; 0xff].

(** The static variables at start. *)
Definition net_start {N} (n : N) : net N :=
  mk_net n 0 0 (mk_arp (replicate 6 0) false (replicate 6 0) 0 false) (replicate (Z.to_nat NET_FRAME_MAX) 0)
    (mk_tcp false 0 0 0 0 0 0 0) [] (mk_dhcp false 0 (replicate 300 0)) (mk_dns 0 false false false None).

Section net.
Context {N : Type} `{Nic N}.
Abbreviation net := (net N).

(** Field updates. *)
Definition with_nic (x : N) (s : net) : net :=
  mk_net x (our_ip s) (dns_server s) (arp s) (rx_frame s) (tcp s) (tcp_rx s) (dhcp s) (dns s).
Definition with_ips (ip srv : Z) (s : net) : net :=
  mk_net (nic s) ip srv (arp s) (rx_frame s) (tcp s) (tcp_rx s) (dhcp s) (dns s).
Definition with_arp (x : arp_table) (s : net) : net :=
  mk_net (nic s) (our_ip s) (dns_server s) x (rx_frame s) (tcp s) (tcp_rx s) (dhcp s) (dns s).
Definition with_frame (x : list Z) (s : net) : net :=
  mk_net (nic s) (our_ip s) (dns_server s) (arp s) x (tcp s) (tcp_rx s) (dhcp s) (dns s).
Definition with_tcp (x : tcp_conn) (s : net) : net :=
  mk_net (nic s) (our_ip s) (dns_server s) (arp s) (rx_frame s) x (tcp_rx s) (dhcp s) (dns s).
Definition with_rx (x : list Z) (s : net) : net :=
  mk_net (nic s) (our_ip s) (dns_server s) (arp s) (rx_frame s) (tcp s) x (dhcp s) (dns s).
Definition with_dhcp (x : dhcp_state) (s : net) : net :=
  mk_net (nic s) (our_ip s) (dns_server s) (arp s) (rx_frame s) (tcp s) (tcp_rx s) x (dns s).
Definition with_dns (x : dns_state) (s : net) : net :=
  mk_net (nic s) (our_ip s) (dns_server s) (arp s) (rx_frame s) (tcp s) (tcp_rx s) (dhcp s) x.

Definition set_rcv_nxt (x : Z) (t : tcp_conn) : tcp_conn :=
  mk_tcp (active t) (remote_ip t) (remote_port t) (local_port t) (iss t) (snd_nxt t) x (tstate t).
Definition set_snd_nxt (x : Z) (t : tcp_conn) : tcp_conn :=
  mk_tcp (active t) (remote_ip t) (remote_port t) (local_port t) (iss t) x (rcv_nxt t) (tstate t).
Definition set_tstate (x : Z) (t : tcp_conn) : tcp_conn :=
  mk_tcp (active t) (remote_ip t) (remote_port t) (local_port t) (iss t) (snd_nxt t) (rcv_nxt t) x.
Definition upd_tcp (f : tcp_conn → tcp_conn) : M net unit := modify (λ s, with_tcp (f (tcp s)) s).

(** Writing [n] bytes from the start of a buffer of [cap] bytes; past its end the
    behaviour is undefined. *)
Definition fits (cap n : Z) : M net unit := if cap <? n then undef else ret tt.

(** ** Sending *)

Definition eth_send (dst : list Z) (type : Z) (payload : list Z) : M net Z :=
  let! ready := gets (λ s, virtio_net_ready (nic s)) in
  if negb ready || (NET_FRAME_MAX <? zlen payload + 14) then ret EINVAL
  else
    let! mac := gets (λ s, virtio_net_mac (nic s)) in
    fits NET_FRAME_MAX (14 + zlen payload) ;;
    let frame := take 6 dst ++ take 6 mac ++ [u8 (Z.shiftr type 8); u8 (Z.land type 0xff)] ++ payload in
    zoom nic with_nic (act (virtio_net_send_frame frame)).

Definition arp_send (op : Z) (target_mac : list Z) (target_ip sender_ip : Z) : M net Z :=
  let! mac := gets (λ s, virtio_net_mac (nic s)) in
  eth_send bcast_mac ETHERTYPE_ARP (arp_packet op mac target_mac target_ip sender_ip).

(** The link address for a destination; [None] when it is not known. *)
Definition route (s : net) (dst : Z) : option (list Z) :=
  if dst =? 0xffffffff then Some bcast_mac
  else if Z.land dst NET_MASK_HOST =? Z.land (our_ip s) NET_MASK_HOST then
    if negb (peer_mac_valid (arp s)) || negb (peer_mac_ip (arp s) =? dst) then None
    else Some (peer_mac (arp s))
  else if negb (gw_mac_valid (arp s)) then None
  else Some (gw_mac (arp s)).

Definition ip_send (dst proto : Z) (payload : list Z) : M net Z :=
  if NET_FRAME_MAX <? 20 + zlen payload then ret EINVAL
  else
    let! mac := gets (λ s, route s dst) in
    match mac with
    | None => ret EINVAL
    | Some mac =>
        let! src := gets our_ip in
        fits NET_FRAME_MAX (20 + zlen payload) ;;
        eth_send mac ETHERTYPE_IP (ip_packet proto src dst payload)
    end.

Definition udp_send (dst sport dport : Z) (payload : list Z) : M net Z :=
  if NET_FRAME_MAX <? 8 + zlen payload then ret EINVAL
  else
    fits NET_FRAME_MAX (8 + zlen payload) ;;
    ip_send dst IP_PROTO_UDP (udp_datagram sport dport payload).

Definition tcp_send_raw (dst sport dport seq ack flags : Z) (data : list Z) : M net Z :=
  if NET_FRAME_MAX <? 20 + zlen data then ret EINVAL
  else
    let! src := gets our_ip in
    fits NET_FRAME_MAX (20 + zlen data) ;;
    ip_send dst IP_PROTO_TCP (tcp_segment src dst sport dport seq ack flags data).

(** A segment of the current connection. *)
Definition tcp_reply (flags : Z) (data : list Z) : M net Z :=
  let! t := gets tcp in
  tcp_send_raw (remote_ip t) (local_port t) (remote_port t) (snd_nxt t) (rcv_nxt t) flags data.

Definition dhcp_send (p : list Z * Z) : M net Z :=
  modify (λ s, with_dhcp (mk_dhcp (dhcp_done (dhcp s)) (dhcp_offered_ip (dhcp s)) p.1) s) ;;
  udp_send 0xffffffff 68 67 (take (Z.to_nat p.2) p.1).

Definition dhcp_send_discover : M net Z :=
  let! s := gets (λ s, s) in dhcp_send (dhcp_discover_pkt (virtio_net_mac (nic s)) (dhcp_tx_pkt (dhcp s))).

Definition dhcp_send_request (req_ip : Z) : M net Z :=
  let! s := gets (λ s, s) in dhcp_send (dhcp_request_pkt (virtio_net_mac (nic s)) (dhcp_tx_pkt (dhcp s)) req_ip).

(** A name that does not fit the query buffer is written past its end. *)
Definition dns_send_query (host : list Z) : M net Z :=
  let q := dns_query host in
  fits 512 (zlen q) ;;
  let! srv := gets dns_server in udp_send srv 49153 53 q.

(** ** Receiving *)

(** Reads of the receive array. *)
Definition rx_byte (i : Z) : M net Z :=
  λ s, match rx_frame s !! Z.to_nat i with Some b => if i <? 0 then Undef else Ret (b, s) | None => Undef end.

Definition rx_bytes (off n : Z) : M net (list Z) :=
  λ s, if (0 <=? off) && (off + n <=? zlen (rx_frame s)) then Ret (sub (rx_frame s) off n, s) else Undef.

(** [base] is the offset of the packet in the array. *)
Definition arp_handle (base len : Z) : M net unit :=
  if len <? 28 then ret tt
  else
    let! p := rx_bytes base 28 in
    if negb (ntohs16 (get16 p 0) =? 1) || negb (ntohs16 (get16 p 2) =? ETHERTYPE_IP) then ret tt
    else
      let spa := read_be32 p 14 in
      let tpa := read_be32 p 24 in
      let oper := ntohs16 (get16 p 6) in
      let sha := sub p 8 6 in
      (if oper =? ARP_OP_REPLY then
         modify (λ s, with_arp (if spa =? NET_GW_HOST then mk_arp sha true sha spa true
                                else mk_arp (gw_mac (arp s)) (gw_mac_valid (arp s)) sha spa true) s)
       else ret tt) ;;
      let! ip := gets our_ip in
      if (oper =? ARP_OP_REQUEST) && (tpa =? ip) then arp_send ARP_OP_REPLY sha spa ip ;; ret tt else ret tt.

(** The scan of the options; the fuel is the length of the packet. *)
Fixpoint dhcp_options (fuel : nat) (base len pos msg_type : Z) : M net Z :=
  match fuel with
  | O => ret msg_type
  | S fuel' =>
      if negb (pos + 1 <? len) then ret msg_type
      else
        let! opt := rx_byte (base + pos) in
        if opt =? 255 then ret msg_type
        else
          let! olen := rx_byte (base + pos + 1) in
          let! msg_type := (if (opt =? 53) && (1 <=? olen) then rx_byte (base + pos + 2) else ret msg_type) in
          if olen =? 0 then ret msg_type else dhcp_options fuel' base len (pos + 2 + olen) msg_type
  end.

Definition dhcp_handle (base len : Z) : M net unit :=
  if len <? 240 then ret tt
  else
    let! p := rx_bytes base 20 in
    if negb (cget p 0 =? 2) then ret tt
    else if negb (read_be32 p 4 =? dhcp_xid) then ret tt
    else
      let yiaddr := read_be32 p 16 in
      let! msg_type := dhcp_options (Z.to_nat len) base len 236 0 in
      if (msg_type =? 2) && negb (yiaddr =? 0) then
        modify (λ s, with_dhcp (mk_dhcp (dhcp_done (dhcp s)) yiaddr (dhcp_tx_pkt (dhcp s))) s) ;;
        dhcp_send_request yiaddr ;; ret tt
      else if msg_type =? 5 then
        modify (λ s, with_dhcp (mk_dhcp true (dhcp_offered_ip (dhcp s)) (dhcp_tx_pkt (dhcp s)))
                       (with_ips (if dhcp_offered_ip (dhcp s) =? 0 then yiaddr else dhcp_offered_ip (dhcp s)) NET_DNS_HOST s))
      else ret tt.

(** [while (pos < len && pkt[pos] != 0) pos += 1 + pkt[pos];] *)
Fixpoint skip_name (fuel : nat) (base len pos : Z) : M net Z :=
  match fuel with
  | O => ret pos
  | S fuel' =>
      if negb (pos <? len) then ret pos
      else
        let! b := rx_byte (base + pos) in
        if b =? 0 then ret pos else skip_name fuel' base len (pos + 1 + b)
  end.

Definition set_dns (ip : Z) (ok bogus : bool) : M net unit :=
  modify (λ s, with_dns (mk_dns ip ok bogus (dns_accept_bogus (dns s)) (dns_cache (dns s))) s).

(** An answer with an address. *)
Definition dns_answer (ip : Z) : M net unit :=
  let! d := gets dns in
  if dns_ip_bogus ip then
    if dns_accept_bogus d then set_dns ip true (dns_saw_bogus d)
    else set_dns ip (dns_result_ok d) true
  else set_dns ip true (dns_saw_bogus d).

Definition dns_handle (base len : Z) : M net unit :=
  if len <? 12 then ret tt
  else
    let! p := rx_bytes base 12 in
    if negb (cget p 0 =? 0x12) || negb (cget p 1 =? 0x34) then ret tt
    else if Z.lor (Z.shiftl (cget p 6) 8) (cget p 7) <=? 0 then ret tt
    else
      let! pos := skip_name (Z.to_nat len) base len 12 in
      let pos := pos + 5 in
      if len <=? pos then ret tt
      else
        let! b := rx_byte (base + pos) in
        let! pos := (if Z.land b 0xc0 =? 0xc0 then ret (pos + 2)
                     else let! q := skip_name (Z.to_nat len) base len pos in ret (q + 1)) in
        if len <? pos + 10 then ret tt
        else
          let! a := rx_bytes (base + pos) 10 in
          if negb (cget a 0 =? 0) || negb (cget a 1 =? 1) then ret tt
          else
            let rdlen := Z.lor (Z.shiftl (cget a 8) 8) (cget a 9) in
            let pos := pos + 10 in
            if negb (rdlen =? 4) || (len <? pos + 4) then ret tt
            else let! r := rx_bytes (base + pos) 4 in dns_answer (read_be32 r 0).

Definition udp_handle (base iplen : Z) : M net unit :=
  if iplen <? 28 then ret tt
  else
    let! uh := rx_bytes (base + 20) 8 in
    let udplen := ntohs16 (get16 uh 4) in
    let udplen := if (udplen <? 8) || (iplen - 20 <? udplen) then iplen - 20 else udplen in
    let plen := udplen - 8 in
    let sport := ntohs16 (get16 uh 0) in
    let dport := ntohs16 (get16 uh 2) in
    if (dport =? 68) && (sport =? 67) then dhcp_handle (base + 28) plen
    else if (dport =? 49153) && (sport =? 53) then dns_handle (base + 28) plen
    else ret tt.

Definition tcp_rx_clear : M net unit := modify (with_rx []).

Definition tcp_rx_append (data : list Z) : M net unit :=
  modify (λ s, with_rx (tcp_rx s ++ take (Z.to_nat (TCP_RX_SIZE - zlen (tcp_rx s))) data) s).

(** The bytes taken; a negative size would move the buffer from outside it. *)
Definition tcp_rx_take (buflen : Z) : M net (list Z) :=
  let! rx := gets tcp_rx in
  let n := Z.min (zlen rx) buflen in
  if n <? 0 then undef
  else modify (with_rx (drop (Z.to_nat n) rx)) ;; ret (take (Z.to_nat n) rx).

Definition tcp_reset : M net unit :=
  upd_tcp (λ t, mk_tcp false (remote_ip t) (remote_port t) (local_port t) (iss t) (snd_nxt t) (rcv_nxt t) 0) ;;
  tcp_rx_clear.

Definition tcp_handle (base iplen : Z) : M net unit :=
  let! t := gets tcp in
  if negb (active t) || (iplen <? 20) then ret tt
  else
    let! ip := rx_bytes base 20 in
    let iphdr_len := Z.land (cget ip 0) 0x0f * 4 in
    if (iphdr_len <? 20) || (iplen <? iphdr_len + 20) then ret tt
    else
      let! th := rx_bytes (base + iphdr_len) 20 in
      let tcplen := iplen - iphdr_len in
      let hlen := Z.shiftr (cget th 12) 4 * 4 in
      let plen := tcplen - hlen in
      let seq := ntohl32 (get_le32 th 4) in
      let flags := cget th 13 in
      if negb (read_be32 ip 12 =? remote_ip t) || negb (ntohs16 (get16 th 0) =? remote_port t)
         || negb (ntohs16 (get16 th 2) =? local_port t) then ret tt
      else if has TCP_RST flags then tcp_reset
      else if has TCP_SYN flags then
        if tstate t =? 1 then
          upd_tcp (λ t, set_tstate 2 (set_snd_nxt (u32 (iss t + 1)) (set_rcv_nxt (u32 (seq + 1)) t))) ;;
          tcp_reply TCP_ACK [] ;; ret tt
        else ret tt
      else
        (if has TCP_ACK flags && (tstate t =? 1) then upd_tcp (set_tstate 2) else ret tt) ;;
        (if 0 <? plen then
           let! data := rx_bytes (base + iphdr_len + hlen) plen in
           tcp_rx_append data ;;
           upd_tcp (set_rcv_nxt (u32 (seq + plen))) ;;
           tcp_reply TCP_ACK [] ;; ret tt
         else ret tt) ;;
        (if has TCP_FIN flags then
           upd_tcp (λ t, set_rcv_nxt (u32 (rcv_nxt t + 1)) t) ;;
           tcp_reply (Z.lor TCP_ACK TCP_FIN) [] ;;
           tcp_reset
         else ret tt).

Definition handle_frame (len : Z) : M net unit :=
  if len <? 14 then ret tt
  else
    let! eth := rx_bytes 0 14 in
    let type := ntohs16 (get16 eth 12) in
    if type =? ETHERTYPE_ARP then arp_handle 14 (len - 14)
    else if (type =? ETHERTYPE_IP) && (34 <=? len) then
      let! ip := rx_bytes 14 20 in
      let iplen := Z.min (ntohs16 (get16 ip 2)) (len - 14) in
      if cget ip 9 =? IP_PROTO_TCP then tcp_handle 14 iplen
      else if cget ip 9 =? IP_PROTO_UDP then udp_handle 14 iplen
      else ret tt
    else ret tt.

Definition netstack_poll : M net unit :=
  let! ready := gets (λ s, virtio_net_ready (nic s)) in
  if negb ready then ret tt
  else
    let! f := zoom nic with_nic (act (virtio_net_poll_frame NET_FRAME_MAX)) in
    match f with
    | None => ret tt
    | Some frame => modify (λ s, with_frame (splice (rx_frame s) 0 frame) s) ;; handle_frame (zlen frame)
    end.

(** ** Waiting *)

(** At most [n] polls, until the condition holds after one. *)
Fixpoint poll_until (n : nat) (p : net → bool) : M net bool :=
  match n with
  | O => ret false
  | S n' => netstack_poll ;; let! ok := gets p in if ok : bool then ret true else poll_until n' p
  end.

Definition loops (timeout_ms k : Z) : nat := Z.to_nat (i32 (timeout_ms * k)).

Definition net_dhcp_acquire (timeout_ms : Z) : M net Z :=
  modify (λ s, with_dhcp (mk_dhcp false (dhcp_offered_ip (dhcp s)) (dhcp_tx_pkt (dhcp s))) (with_ips 0 (dns_server s) s)) ;;
  dhcp_send_discover ;; dhcp_send_discover ;; dhcp_send_discover ;;
  let! ok := poll_until (loops timeout_ms 20) (λ s, dhcp_done (dhcp s)) in
  if ok : bool then ret 0
  else modify (with_ips NET_IP_HOST NET_DNS_HOST) ;; ret ETIMEDOUT.

(** Whether the link address of [ip] is known. *)
Definition resolved (ip : Z) (s : net) : bool :=
  ((ip =? NET_GW_HOST) && gw_mac_valid (arp s))
  || ((Z.land ip NET_MASK_HOST =? Z.land (our_ip s) NET_MASK_HOST) && peer_mac_valid (arp s) && (peer_mac_ip (arp s) =? ip)).

Definition arp_resolve (ip timeout_ms : Z) : M net Z :=
  let! own := gets our_ip in
  let ip := if Z.land ip NET_MASK_HOST =? Z.land own NET_MASK_HOST then ip else NET_GW_HOST in
  let! ok := gets (resolved ip) in
  if ok : bool then ret 0
  else
    arp_send ARP_OP_REQUEST [0; 0; 0; 0; 0; 0] ip own ;;
    let! ok := poll_until (loops timeout_ms 20) (resolved ip) in
    ret (if ok : bool then 0 else ETIMEDOUT).

Definition tcp_connect (ip port timeout_ms : Z) : M net Z :=
  tcp_reset ;;
  upd_tcp (λ t, mk_tcp true ip port 49152 0x12345000 0x12345000 0 1) ;;
  let! rc := arp_resolve ip timeout_ms in
  if negb (rc =? 0) then ret ETIMEDOUT
  else
    let! rc := tcp_send_raw ip 49152 port 0x12345000 0 TCP_SYN [] in
    if rc <? 0 then ret EIO
    else
      let! ok := poll_until (loops timeout_ms 30) (λ s, tstate (tcp s) =? 2) in
      if ok : bool then ret 0 else tcp_reset ;; ret ETIMEDOUT.

Definition tcp_send_data (data : list Z) : M net Z :=
  let! t := gets tcp in
  if negb (active t) || negb (tstate t =? 2) then ret EINVAL
  else
    let! rc := tcp_reply (Z.lor TCP_ACK TCP_PSH) data in
    if rc <? 0 then ret EIO
    else upd_tcp (λ t, set_snd_nxt (u32 (snd_nxt t + zlen data)) t) ;; ret (zlen data).

(** The loop with the bytes read and the idle count so far. *)
Fixpoint recv_loop (n : nat) (buflen timeout_ms : Z) (got : list Z) (idle : Z) : M net (list Z) :=
  match n with
  | O => ret got
  | S n' =>
      let! d := tcp_rx_take (buflen - zlen got) in
      if 0 <? zlen d then
        let got := got ++ d in
        if buflen <=? zlen got then ret got else recv_loop n' buflen timeout_ms got 0
      else
        netstack_poll ;;
        let idle := idle + 1 in
        if (0 <? zlen got) && (i32 (timeout_ms * 5) <? idle) then ret got
        else recv_loop n' buflen timeout_ms got idle
  end.

(** The result and the bytes received. *)
Definition tcp_recv_accumulate (buflen timeout_ms : Z) : M net (Z * list Z) :=
  let! got := recv_loop (loops timeout_ms 40) buflen timeout_ms [] 0 in
  fits buflen (zlen got) ;;
  ret (if 0 <? zlen got then zlen got else ETIMEDOUT, got).

Definition tcp_close_conn : M net unit :=
  let! t := gets tcp in
  (if active t && (tstate t =? 2) then tcp_reply (Z.lor TCP_FIN TCP_ACK) [] ;; ret tt else ret tt) ;;
  tcp_reset.

Definition netstack_init : M net unit :=
  modify (λ s, with_arp (mk_arp (gw_mac (arp s)) false (peer_mac (arp s)) (peer_mac_ip (arp s)) (peer_mac_valid (arp s))) s) ;;
  tcp_reset ;;
  modify (λ s, with_nic (virtio_net_init (nic s)) s) ;;
  let! ready := gets (λ s, virtio_net_ready (nic s)) in
  if negb ready then ret tt
  else
    modify (with_ips NET_IP_HOST NET_DNS_HOST) ;;
    net_dhcp_acquire 5000 ;;
    let! gw := gets (λ s, gw_mac_valid (arp s)) in
    if gw : bool then ret tt else arp_resolve NET_GW_HOST 3000 ;; ret tt.

Definition netstack_ready (s : net) : bool := virtio_net_ready (nic s).

(** ** Names *)

Definition dns_cache_store (host : list Z) (ip : Z) : M net unit :=
  modify (λ s, let d := dns s in
    with_dns (mk_dns (dns_result_ip d) (dns_result_ok d) (dns_saw_bogus d) (dns_accept_bogus d) (Some (take 63 host, ip))) s).

(** The waiting loop of a query: an answer, an ignored answer or neither. *)
Fixpoint dns_wait (n : nat) (t : Z) (host : list Z) : M net unit :=
  match n with
  | O => ret tt
  | S n' =>
      netstack_poll ;;
      let! d := gets dns in
      if dns_result_ok d || dns_saw_bogus d then ret tt
      else
        (if (0 <? t) && (t mod 200 =? 0) then dns_send_query host ;; ret tt else ret tt) ;;
        dns_wait n' (t + 1) host
  end.

(** The servers in turn: the address of the first answer. *)
Fixpoint dns_servers (servers : list Z) (host : list Z) (udp_ms : Z) : M net (option Z) :=
  match servers with
  | [] => ret None
  | srv :: rest =>
      modify (λ s, with_ips (our_ip s) srv s) ;;
      set_dns 0 false false ;;
      let! rc := arp_resolve srv udp_ms in
      if negb (rc =? 0) then dns_servers rest host udp_ms
      else
        let! rc := dns_send_query host in
        if rc <? 0 then dns_servers rest host udp_ms
        else
          dns_wait (loops udp_ms 20) 0 host ;;
          let! d := gets dns in
          if dns_result_ok d then ret (Some (dns_result_ip d))
          else if dns_saw_bogus d then ret None
          else dns_servers rest host udp_ms
  end.

Context (dns_doh_resolve_a : option (list Z → Z → M net (Z * Z))).

(** The result and the address. *)
Definition net_dns_resolve (host : list Z) (timeout_ms : Z) : M net (Z * Z) :=
  if zlen host =? 0 then ret (EINVAL, 0)
  else match parse_ipv4 host with
  | Some ip => ret (0, ip)
  | None =>
      let! d := gets dns in
      match (match dns_cache d with Some (h, ip) => if str_eq host h then Some ip else None | None => None end) with
      | Some ip => ret (0, ip)
      | None =>
          let! ready := gets netstack_ready in
          if negb ready then ret (ENODEV, 0)
          else
            let udp_ms := Z.max (Z.quot timeout_ms 2) 2000 in
            let! r := dns_servers [NET_DNS_HOST; 0x01010101; 0x09090909] host udp_ms in
            match r with
            | Some ip => dns_cache_store host ip ;; ret (0, ip)
            | None =>
                match dns_doh_resolve_a with
                | None => ret (ETIMEDOUT, 0)
                | Some doh =>
                    let! a := doh host timeout_ms in
                    if a.1 =? 0 then dns_cache_store host a.2 ;; ret (0, a.2) else ret (ETIMEDOUT, a.2)
                end
            end
      end
  end.

Definition set_accept_bogus (b : bool) : M net unit :=
  modify (λ s, let d := dns s in
    with_dns (mk_dns (dns_result_ip d) (dns_result_ok d) (dns_saw_bogus d) b (dns_cache d)) s).

Definition net_dns_resolve_slirp (host : list Z) (timeout_ms : Z) : M net (Z * Z) :=
  if zlen host =? 0 then ret (EINVAL, 0)
  else match parse_ipv4 host with
  | Some ip => ret (0, ip)
  | None =>
      let! ready := gets netstack_ready in
      if negb ready then ret (ENODEV, 0)
      else
        let udp_ms := Z.max timeout_ms 2000 in
        modify (λ s, with_ips (our_ip s) NET_DNS_HOST s) ;;
        set_dns 0 false false ;;
        set_accept_bogus true ;;
        let! rc := arp_resolve NET_DNS_HOST udp_ms in
        let! rc := (if rc =? 0 then dns_send_query host else ret (-1)) in
        let! ok := (if rc <? 0 then ret false else poll_until (loops udp_ms 20) (λ s, dns_result_ok (dns s))) in
        let! ip := gets (λ s, dns_result_ip (dns s)) in
        set_accept_bogus false ;;
        ret (if ok : bool then (0, ip) else (ETIMEDOUT, 0))
  end.

(** ** The calls of the other modules *)

Definition net_tcp_connect_ip (ip port timeout_ms : Z) : M net Z :=
  if port =? 0 then ret EINVAL else tcp_connect ip port timeout_ms.

(** The address of a host given as a number or a name. *)
Definition host_ip (host : list Z) (timeout_ms : Z) : M net (option Z) :=
  match parse_ipv4 host with
  | Some ip => ret (Some ip)
  | None =>
      let! r := net_dns_resolve host timeout_ms in
      ret (if r.1 =? 0 then Some r.2 else None)
  end.

Definition net_tcp_connect_host (host : list Z) (port timeout_ms : Z) : M net Z :=
  if port =? 0 then ret EINVAL
  else
    let! ip := host_ip host timeout_ms in
    match ip with None => ret ETIMEDOUT | Some ip => tcp_connect ip port timeout_ms end.

Definition net_tcp_write (data : list Z) : M net Z :=
  let! t := gets tcp in if negb (active t) then ret EINVAL else tcp_send_data data.

Definition net_tcp_read (buflen timeout_ms : Z) : M net (Z * list Z) :=
  let! t := gets tcp in if negb (active t) then ret (EINVAL, []) else tcp_recv_accumulate buflen timeout_ms.

Definition net_tcp_close : M net unit := tcp_close_conn.

(** ** HTTP *)

(** Appending to a buffer while it is shorter than [cap]. *)
Definition fill (cap : Z) (buf s : list Z) : list Z := buf ++ take (Z.to_nat (cap - zlen buf)) s.

Definition CRLF : list Z := [13; 10].

Definition http_get_request (host path : list Z) (port : Z) : list Z :=
  let req := fill 336 (str "GET ") path in
  let req := fill 352 req (str " HTTP/1.1" ++ CRLF ++ str "Host: ") in
  let req := fill 360 req host in
  let req := if port =? 80 then req else fill 368 (req ++ str ":") (dec port) in
  fill 382 req (CRLF ++ str "Connection: close" ++ CRLF ++ CRLF).

(** The number after the first blank of the response; [resp] ends at its NUL. *)
Definition http_status (resp : list Z) : Z :=
  let line := (take_while (λ c, negb (c =? 0) && negb (c =? 32)) resp).2 in
  (scan_int 0 (if cget line 0 =? 32 then drop 1 line else line)).1.

(** What follows the first blank line. *)
Fixpoint http_body (resp : list Z) : option (list Z) :=
  match resp with
  | [] => None
  | c :: resp' => if cmatch resp 0 (CRLF ++ CRLF) && (4 <=? zlen resp) then Some (drop 4 resp) else http_body resp'
  end.

(** The result of a response and the body copied out. *)
Definition http_result (prefix resp : list Z) (body_len : Z) : Z * list Z :=
  if negb (cmatch resp 0 prefix) then (EIO, [])
  else if 400 <=? http_status resp then (EIO, [])
  else match http_body resp with
       | None => (EIO, [])
       | Some b => let b := take (Z.to_nat (body_len - 1)) b in (zlen b, b)
       end.

(** Sending a request and reading the response into a buffer of [size] bytes. *)
Definition http_exchange (req : list Z) (size timeout_ms : Z) : M net (Z * list Z) :=
  let! rc := tcp_send_data req in
  if rc <? 0 then tcp_close_conn ;; ret (EIO, [])
  else
    let! r := tcp_recv_accumulate (size - 1) timeout_ms in
    tcp_close_conn ;;
    fits size (zlen r.2 + 1) ;;
    ret r.

Definition net_http_get (url : list Z) (body_len : Z) : M net (Z * list Z) :=
  let! ready := gets netstack_ready in
  if negb ready || (body_len <=? 0) then ret (EINVAL, [])
  else match parse_url url 64 128 with
  | None => ret (EINVAL, [])
  | Some (host, port, path) =>
      if port =? 443 then ret (EIO, [])
      else
        let! ip := host_ip host 5000 in
        match ip with
        | None => ret (ETIMEDOUT, [])
        | Some ip =>
            let! a := gets arp in
            let! rc := (if negb (peer_mac_valid a) || negb (peer_mac_ip a =? ip) then arp_resolve ip 3000 else ret 0) in
            if negb (rc =? 0) then ret (ETIMEDOUT, [])
            else
              let! rc := tcp_connect ip port 8000 in
              if negb (rc =? 0) then ret (EIO, [])
              else if port =? 0 then ret (EINVAL, [])
              else
                let req := http_get_request host path port in
                fits 384 (zlen req + 1) ;;
                let! r := http_exchange req 2048 8000 in
                if r.1 <=? 0 then ret (if r.1 <? 0 then r.1 else EIO, [])
                else ret (http_result (str "HTTP") r.2 body_len)
        end
  end.

(** The text of a POST request in a buffer of 4096 bytes, with the host cut at [host_cap];
    [None] when a separator leaves the buffer. *)
Definition post_text (host_cap : Z) (host path : list Z) (headers body : option (list Z)) : option (list Z) :=
  let cap := 4096 in
  let raw (buf s : list Z) := if zlen buf + zlen s <=? cap then Some (buf ++ s) else None in
  let req := fill (cap - 256) [] (str "POST ") in
  let req := fill (cap - 256) req path in
  let req := fill (cap - 256) req (str " HTTP/1.1" ++ CRLF ++ str "Host: ") in
  let req := fill host_cap req host in
  req ← match headers with
        | None => Some req
        | Some h => r ← raw req CRLF; raw (fill (cap - 128) r h) CRLF
        end;
  req ← match body with
        | Some b =>
            let r := fill (cap - 64) req (str "Content-Type: application/json" ++ CRLF ++ str "Content-Length: ") in
            let r := fill (cap - 32) r (dec (zlen b)) in
            r ← raw r (CRLF ++ CRLF);
            Some (fill (cap - 2) r b)
        | None => Some (fill (cap - 2) req (CRLF ++ str "Connection: close" ++ CRLF ++ CRLF))
        end;
  if zlen req <? cap then Some req else None.

Definition http_post_text : list Z → list Z → option (list Z) → option (list Z) → option (list Z) := post_text (4096 - 128).

Definition net_http_post (host : list Z) (port : Z) (path : list Z) (headers body : option (list Z))
    (resp_len timeout_ms : Z) : M net (Z * list Z) :=
  if (resp_len <=? 0) || (port =? 0) then ret (EINVAL, [])
  else
    let! ip := host_ip host timeout_ms in
    match ip with
    | None => ret (ETIMEDOUT, [])
    | Some ip =>
        let! rc := tcp_connect ip port timeout_ms in
        if negb (rc =? 0) then ret (EIO, [])
        else
          let! req := orundef (http_post_text host path headers body) in
          let! r := http_exchange req 8192 timeout_ms in
          if r.1 <=? 0 then ret (if r.1 <? 0 then r.1 else EIO, [])
          else ret (http_result (str "H") r.2 resp_len)
    end.

End net.
