(* ===== verification/NetProps.v ===== *)
(** * Properties of the network stack

    Checksums of emitted packets, the address parser, memory safety and the
    invariant of frame handling, the delivery of TCP data between two stacks, and
    the places where the DHCP and TCP code departs from its protocols. *)

From S2P Require Import Prelude Ramfs Persist Paths Vm NetWire Net.

(** ** Checksums *)

(** The sum with end-around carry, as a number of 16 bits. *)
Definition ones_sum (s : Z) : Z := if s =? 0 then 0 else (s - 1) mod 65535 + 1.

Lemma fold_carry_ones s : 0 ≤ s < 4294967296 → fold_carry 2 s = ones_sum s.
Proof.
  intros Hs. destruct (fold_carry_spec s Hs) as (r & -> & Hr & _ & Hm & H0). unfold ones_sum.
  destruct (Z.eqb_spec s 0) as [->|Hne]; [by apply H0|]. apply Z.mod_divide in Hm as [k Hk]; [|lia].
  assert (r ≠ 0) by tauto. replace (s - 1) with (r - 1 + (- k) * 65535) by lia.
  rewrite Z.mod_add, Z.mod_small by lia. lia.
Qed.

Lemma fold_carry_stop n s : Z.shiftr s 16 = 0 → fold_carry n s = s.
Proof. intros E. destruct n; [done|]. cbn [fold_carry]. by rewrite E. Qed.

Lemma fold_carry_more n s : 0 ≤ s < 4294967296 → (2 ≤ n)%nat → fold_carry n s = fold_carry 2 s.
Proof.
  intros Hs Hn. destruct (fold_carry_spec s Hs) as (r & E & _ & Hz & _). rewrite E. destruct n as [|[|n]]; [lia..|].
  cbn [fold_carry] in *. destruct (Z.shiftr s 16 =? 0); [done|]. set (t := Z.land s 65535 + Z.shiftr s 16) in *.
  destruct (Z.shiftr t 16 =? 0); [done|]. rewrite E. by apply fold_carry_stop.
Qed.

(** The folding loop of the checksum ends after at most two rounds for every
    32-bit sum, and its result is the complement of the one's complement sum: the
    C loop, with any number of rounds allowed from two on, gives the RFC 1071
    value. *)
Theorem csum_fold_exact s n :
  0 ≤ s < 4294967296 → (2 ≤ n)%nat →
  Z.shiftr (fold_carry n s) 16 = 0 ∧ fold_carry n s = ones_sum s ∧ csum_fold s = 65535 - ones_sum s.
Proof.
  intros Hs Hn. rewrite fold_carry_more by done. destruct (fold_carry_spec s Hs) as (r & E & Hr & Hz & _).
  rewrite E. split; [done|]. rewrite <- (fold_carry_ones s Hs), E. split; [done|].
  unfold csum_fold. rewrite E. unfold u16. unfold Z.lnot.
  replace (Z.pred (- r)) with (65535 - r + (-1) * 65536) by lia. rewrite Z.mod_add, Z.mod_small by lia. done.
Qed.

Lemma csum_fold_exact_witness : csum_fold 0x12345678 = 65535 - ones_sum 0x12345678.
Proof. apply (csum_fold_exact 0x12345678 2); [lia|lia]. Defined.

Lemma csum_fold_val s : 0 ≤ s < 4294967296 → ∃ r, csum_fold s = 65535 - r ∧ 0 ≤ r ≤ 65535 ∧ (r - s) mod 65535 = 0 ∧ (r = 0 ↔ s = 0).
Proof.
  intros Hs. destruct (fold_carry_spec s Hs) as (r & E & Hr & Hz & Hm & H0). exists r. split; [|done].
  unfold csum_fold. rewrite E. unfold u16. unfold Z.lnot.
  replace (Z.pred (- r)) with (65535 - r + (-1) * 65536) by lia. rewrite Z.mod_add, Z.mod_small by lia. done.
Qed.

Lemma csum_fold_range s : 0 ≤ s < 4294967296 → 0 ≤ csum_fold s < 65536.
Proof. intros Hs. destruct (csum_fold_val s Hs) as (r & -> & ? & _). lia. Qed.

(** Adding the checksum to the sum it was computed from makes it verify. *)
Lemma csum_verifies s : 0 < s → s + 65535 < 4294967296 → csum_fold (s + csum_fold s) = 0.
Proof.
  intros Hs Hb. destruct (csum_fold_val s ltac:(lia)) as (r & E & Hr & Hm & H0). rewrite E.
  destruct (csum_fold_val (s + (65535 - r)) ltac:(lia)) as (q & -> & Hq & Hm' & Hq0).
  apply Z.mod_divide in Hm as [k Hk]; [|lia]. apply Z.mod_divide in Hm' as [k' Hk']; [|lia]. lia.
Qed.

Lemma write_be32_ok v : 0 ≤ v < 4294967296 → bytes_ok (write_be32 v) ∧ zlen (write_be32 v) = 4.
Proof.
  intros Hv. split; [|done]. rewrite write_be32_spec by done. unfold bytes_ok, byte_ok.
  repeat constructor; try (apply Z.mod_pos_bound; lia); by apply bytes_of_32.
Qed.

Lemma le16_ok v : bytes_ok (le16 v) ∧ zlen (le16 v) = 2.
Proof. split; [|done]. unfold le16, bytes_ok, byte_ok, u8. repeat constructor; apply Z.mod_pos_bound; lia. Qed.

Lemma be_sum_le16 v : 0 ≤ v < 65536 → be_sum (le16 (htons16 v)) = v.
Proof. intros Hv. rewrite le16_htons by done. cbn [be_sum]. Z.to_euclidean_division_equations; lia. Qed.

(** The header sum with a checksum is the sum without it plus the checksum. *)
Lemma ip_header_sum iplen proto src dst c :
  0 ≤ iplen < 65536 → byte_ok proto → 0 ≤ src < 4294967296 → 0 ≤ dst < 4294967296 → 0 ≤ c < 65536 →
  bytes_ok (ip_header iplen proto src dst c) ∧ zlen (ip_header iplen proto src dst c) = 20
  ∧ be_sum (ip_header iplen proto src dst c) = be_sum (ip_header iplen proto src dst 0) + c.
Proof.
  intros Hi Hp Hs Hd Hc. destruct (write_be32_ok src Hs) as [Hbs Hls], (write_be32_ok dst Hd) as [Hbd Hld].
  unfold ip_header. rewrite !Z.shiftr_div_pow2 by lia. change (2 ^ 8) with 256. unfold u8. split_and!.
  - apply Forall_app_2; [|by apply Forall_app_2]. unfold byte_ok in *.
    repeat constructor; try lia; try done; apply Z.mod_pos_bound; lia.
  - rewrite !zlen_app, Hls, Hld. done.
  - rewrite !be_sum_app; try done; try (by exists 6); try (by exists 2). cbn [be_sum].
    change (0 mod 256) with 0. change (0 / 256 mod 256) with 0. Z.to_euclidean_division_equations; lia.
Qed.

Lemma csum_words_bound l s : bytes_ok l → zlen l ≤ 65536 → 0 ≤ s ≤ 1000000 → csum_words l s = s + be_sum l ∧ s + be_sum l < 4000000000.
Proof. intros Hl Hz Hs. pose proof (be_sum_range l Hl). split; [|lia]. apply csum_words_spec; [done|lia|lia]. Qed.

Lemma ip_checksum proto src dst data :
  0 ≤ src < 4294967296 → 0 ≤ dst < 4294967296 → byte_ok proto → 20 + zlen data < 65536 →
  csum16 (take 20 (ip_packet proto src dst data)) = 0.
Proof.
  intros Hs Hd Hp Hl. pose proof (zlen_nonneg data). unfold ip_packet. set (n := 20 + zlen data).
  destruct (ip_header_sum n proto src dst 0 ltac:(lia) Hp Hs Hd ltac:(lia)) as (Hb0 & Hl0 & _).
  destruct (csum_words_bound _ 0 Hb0 ltac:(lia) ltac:(lia)) as [E0 B0].
  pose proof (be_sum_range _ Hb0) as [Hpos _]. set (c := csum16 (ip_header n proto src dst 0)).
  assert (c = csum_fold (be_sum (ip_header n proto src dst 0))) as Ec by (unfold c, csum16; rewrite E0; f_equal; lia).
  assert (0 ≤ c < 65536) as Hc by (rewrite Ec; apply csum_fold_range; lia).
  destruct (ip_header_sum n proto src dst c ltac:(lia) Hp Hs Hd Hc) as (Hb & Hlc & Hsum).
  rewrite take_app_length' by (unfold zlen in Hlc; lia).
  destruct (csum_words_bound _ 0 Hb ltac:(lia) ltac:(lia)) as [E B]. unfold csum16. rewrite E, Hsum, Ec, Z.add_0_l.
  apply csum_verifies; [|lia].
  unfold ip_header. rewrite be_sum_app by (by exists 6). destruct (write_be32_ok src Hs) as [Hb1 _], (write_be32_ok dst Hd) as [Hb2 _].
  pose proof (be_sum_range (write_be32 src ++ write_be32 dst) ltac:(by apply Forall_app_2)). cbn [be_sum]. unfold u8, byte_ok in *.
  pose proof (Z.mod_pos_bound (Z.shiftr n 8) 256 ltac:(lia)). pose proof (Z.mod_pos_bound n 256 ltac:(lia)).
  change (Z.shiftr 0 8 mod 256) with 0. change (0 mod 256) with 0. lia.
Qed.

(** The parts of a segment before and after its checksum. *)
Definition tcp_seg_pre (sport dport seq ack flags : Z) : list Z :=
  le16 (htons16 sport) ++ le16 (htons16 dport) ++ le32 (htonl32 seq) ++ le32 (htonl32 ack)
  ++ [u8 (Z.shiftl 5 4); flags] ++ le16 (htons16 8192).

Lemma tcp_seg_split sport dport seq ack flags c data :
  tcp_seg sport dport seq ack flags c data = tcp_seg_pre sport dport seq ack flags ++ le16 c ++ le16 0 ++ data.
Proof. unfold tcp_seg, tcp_seg_pre. by rewrite <- !app_assoc. Qed.

Lemma tcp_seg_pre_ok sport dport seq ack flags :
  0 ≤ sport < 65536 → 0 ≤ dport < 65536 → 0 ≤ seq < 4294967296 → 0 ≤ ack < 4294967296 → byte_ok flags →
  bytes_ok (tcp_seg_pre sport dport seq ack flags) ∧ zlen (tcp_seg_pre sport dport seq ack flags) = 16.
Proof.
  intros. unfold tcp_seg_pre. rewrite !le32_htonl by done.
  destruct (write_be32_ok seq) as [Hb1 Hl1], (write_be32_ok ack) as [Hb2 Hl2]; [done..|]. split.
  - unfold bytes_ok. repeat match goal with |- Forall _ (_ ++ _) => apply Forall_app_2 end; try apply le16_ok; try done.
    constructor; [done|]. constructor; [done|constructor].
  - done.
Qed.

(** The sum of the pseudo-header. *)
Definition pseudo_sum (src dst n : Z) : Z :=
  src / 65536 + src mod 65536 + (dst / 65536 + dst mod 65536) + IP_PROTO_TCP + n.

Lemma tcp_csum_sum src dst seg :
  0 ≤ src < 4294967296 → 0 ≤ dst < 4294967296 → bytes_ok seg → zlen seg < 65536 →
  tcp_csum src dst seg = csum_fold (pseudo_sum src dst (zlen seg) + be_sum seg)
  ∧ 0 < pseudo_sum src dst (zlen seg) ∧ 0 ≤ be_sum seg ∧ pseudo_sum src dst (zlen seg) + be_sum seg < 4000000000.
Proof.
  intros Hs Hd Hb Hl. pose proof (zlen_nonneg seg). unfold tcp_csum, pseudo_sum, IP_PROTO_TCP.
  rewrite !Z.shiftr_div_pow2 by lia. change 0xffff with (Z.ones 16). rewrite !Z.land_ones by lia. change (2 ^ 16) with 65536.
  assert (0 ≤ src / 65536 < 65536 ∧ 0 ≤ dst / 65536 < 65536) by (split; Z.to_euclidean_division_equations; lia).
  pose proof (Z.mod_pos_bound src 65536 ltac:(lia)). pose proof (Z.mod_pos_bound dst 65536 ltac:(lia)).
  pose proof (be_sum_range seg Hb) as [Hp _].
  rewrite (u32_small (src / 65536 + src mod 65536)), (u32_small (_ + (dst / 65536 + dst mod 65536))), (u32_small (_ + 6)) by lia.
  unfold u16. rewrite (Z.mod_small (zlen seg)) by lia. rewrite (u32_small (_ + zlen seg)) by lia.
  destruct (csum_words_bound seg (src / 65536 + src mod 65536 + (dst / 65536 + dst mod 65536) + 6 + zlen seg) Hb
    ltac:(lia) ltac:(lia)) as [-> ?].
  split; [done|]. lia.
Qed.

Lemma tcp_checksum src dst sport dport seq ack flags data :
  0 ≤ src < 4294967296 → 0 ≤ dst < 4294967296 → 0 ≤ sport < 65536 → 0 ≤ dport < 65536 →
  0 ≤ seq < 4294967296 → 0 ≤ ack < 4294967296 → byte_ok flags → bytes_ok data → 20 + zlen data < 65536 →
  tcp_csum src dst (tcp_segment src dst sport dport seq ack flags data) = 0.
Proof.
  intros Hs Hd Hsp Hdp Hq Ha Hf Hb Hl. unfold tcp_segment.
  destruct (tcp_seg_pre_ok sport dport seq ack flags Hsp Hdp Hq Ha Hf) as [Hpb Hpl].
  assert (∀ c, bytes_ok (tcp_seg sport dport seq ack flags c data) ∧ zlen (tcp_seg sport dport seq ack flags c data) = 20 + zlen data) as Hseg.
  { intros c. rewrite tcp_seg_split. split.
    - apply Forall_app_2; [done|]. apply Forall_app_2; [apply le16_ok|]. apply Forall_app_2; [apply le16_ok|done].
    - rewrite !zlen_app, Hpl. unfold le16, zlen. simpl. lia. }
  assert (∀ c, 0 ≤ c < 65536 → be_sum (tcp_seg sport dport seq ack flags (htons16 c) data)
                               = be_sum (tcp_seg sport dport seq ack flags 0 data) + c) as Hsum.
  { intros c Hc. rewrite !tcp_seg_split, !(be_sum_app (tcp_seg_pre _ _ _ _ _)) by (rewrite Hpl; by exists 8).
    rewrite !(be_sum_app (le16 _)) by (by exists 1). rewrite be_sum_le16 by done. change (be_sum (le16 0)) with 0. lia. }
  destruct (tcp_csum_sum src dst _ Hs Hd (proj1 (Hseg 0)) ltac:(rewrite (proj2 (Hseg 0)); lia)) as (E0 & P0 & P1 & P2).
  set (c := tcp_csum src dst (tcp_seg sport dport seq ack flags 0 data)) in *.
  assert (0 ≤ c < 65536) as Hc by (rewrite E0; apply csum_fold_range; lia).
  destruct (tcp_csum_sum src dst (tcp_seg sport dport seq ack flags (htons16 c) data) Hs Hd (proj1 (Hseg _))
    ltac:(rewrite (proj2 (Hseg _)); lia)) as (E & _).
  rewrite E, Hsum, (proj2 (Hseg _)) by done. rewrite (proj2 (Hseg 0)) in *. rewrite Z.add_assoc, E0. apply csum_verifies; lia.
Qed.

(** Every packet the stack builds carries checksums that verify: the receiver's
    sum over the IP header, and over the TCP segment with its pseudo-header, is
    zero for all addresses, ports, numbers and data. *)
Theorem checksums_verify src dst sport dport seq ack flags proto data :
  0 ≤ src < 4294967296 → 0 ≤ dst < 4294967296 → 0 ≤ sport < 65536 → 0 ≤ dport < 65536 →
  0 ≤ seq < 4294967296 → 0 ≤ ack < 4294967296 → byte_ok flags → byte_ok proto → bytes_ok data →
  20 + zlen data < 65536 →
  csum16 (take 20 (ip_packet proto src dst data)) = 0
  ∧ tcp_csum src dst (tcp_segment src dst sport dport seq ack flags data) = 0.
Proof. intros. split; [by apply ip_checksum|by apply tcp_checksum]. Qed.

Lemma checksums_verify_witness :
  csum16 (take 20 (ip_packet 6 NET_IP_HOST NET_GW_HOST (str "hello"))) = 0
  ∧ tcp_csum NET_IP_HOST NET_GW_HOST (tcp_segment NET_IP_HOST NET_GW_HOST 49152 80 1 2 TCP_ACK (str "hello")) = 0.
Proof. apply checksums_verify; unfold NET_IP_HOST, NET_GW_HOST; try lia; try done; solve_bytes. Defined.

(** ** Addresses *)

Lemma ipv4_digits_rev f n rest parts :
  0 ≤ n < 10 ^ Z.of_nat f → n ≤ 255 →
  ipv4_loop (rev (digits_rev f n) ++ rest) parts 0 = ipv4_loop rest parts n.
Proof.
  revert n rest; induction f as [|f IH]; intros n rest Hn Hb; cbn [digits_rev].
  - change (10 ^ Z.of_nat 0) with 1 in Hn. by replace n with 0 by lia.
  - case_test; bprop; [by replace n with 0 by lia|].
    cbn [rev]. rewrite <- app_assoc, IH; cbn [app].
    + cbn [ipv4_loop]. pose proof (Z.mod_pos_bound n 10).
      replace (is_digit (48 + n mod 10)) with true
        by (symmetry; apply andb_true_iff; rewrite !Z.leb_le; lia).
      replace (n / 10 * 10 + (48 + n mod 10 - 48)) with n by (rewrite (Z.div_mod n 10) at 1; lia).
      rewrite u32_small by lia. by test_false (255 <? n).
    + rewrite Nat2Z.inj_succ, Z.pow_succ_r in Hn by lia.
      split; [apply Z.div_pos; lia|]. apply Z.div_lt_upper_bound; lia.
    + Z.to_euclidean_division_equations; lia.
Qed.

Lemma ipv4_dec n rest parts : byte_ok n → ipv4_loop (dec n ++ rest) parts 0 = ipv4_loop rest parts n.
Proof.
  unfold byte_ok. intros Hn. unfold dec. case_test; bprop; [by subst|]. apply ipv4_digits_rev; [|lia].
  unfold dec_fuel. split; [lia|]. eapply Z.lt_trans; [apply Hn|]. done.
Qed.

(** The dotted text of an address. *)
Definition dotted (a b c d : Z) : list Z := dec a ++ str "." ++ dec b ++ str "." ++ dec c ++ str "." ++ dec d.

(** Reading an address back: the dotted decimal text of any four bytes parses to
    the address with those bytes. *)
Theorem parse_ipv4_dotted a b c d :
  byte_ok a → byte_ok b → byte_ok c → byte_ok d →
  parse_ipv4 (dotted a b c d) = Some (16777216 * a + 65536 * b + 256 * c + d).
Proof.
  intros Ha Hb Hc Hd. unfold parse_ipv4, dotted. change (str ".") with [46]. cbn [app].
  assert (∀ rest parts acc, zlen parts < 3 → ipv4_loop (46 :: rest) parts acc = ipv4_loop rest (parts ++ [acc]) 0) as Hdot.
  { intros rest parts acc Hp. cbn [ipv4_loop]. change (is_digit 46) with false. change (46 =? chr ".") with true. cbn iota.
    by test_false (3 <=? zlen parts). }
  rewrite ipv4_dec, Hdot, ipv4_dec, Hdot, ipv4_dec, Hdot by done.
  rewrite <- (app_nil_r (dec d)), ipv4_dec by done. change (ipv4_loop [] _ d) with (Some [a; b; c; d]).
  cbn [mbind option_bind]. f_equal. by apply lor4.
Qed.

Lemma parse_ipv4_dotted_witness : parse_ipv4 (str "10.0.2.15") = Some NET_IP_HOST.
Proof. apply (parse_ipv4_dotted 10 0 2 15); done. Defined.

(** A text without digits is accepted as an address too. *)
Theorem parse_ipv4_dots : parse_ipv4 (str "...") = Some 0.
Proof. reflexivity. Qed.

(** ** The invariant *)

(** What the driver promises: six bytes of address, frames that fit the buffer. *)
Class NicLaws (N : Type) `{Nic N} : Prop := {
  nic_mac : ∀ n : N, zlen (virtio_net_mac n) = 6 ∧ bytes_ok (virtio_net_mac n);
  nic_poll : ∀ (n n' : N) cap f, virtio_net_poll_frame cap n = (Some f, n') → 0 < zlen f ≤ cap ∧ bytes_ok f
}.

Definition word_ok (x : Z) : Prop := 0 ≤ x < 4294967296.

(** The connection: closed, waiting for the answer to its SYN, or open. *)
Record conn_wf (t : tcp_conn) : Prop := {
  cw_state : if active t then tstate t = 1 ∨ tstate t = 2 else tstate t = 0;
  cw_snd : word_ok (snd_nxt t);
  cw_rcv : word_ok (rcv_nxt t);
  cw_iss : word_ok (iss t)
}.

Record net_wf {N} (s : net N) : Prop := {
  nw_frame : zlen (rx_frame s) = NET_FRAME_MAX ∧ bytes_ok (rx_frame s);
  nw_gw : zlen (gw_mac (arp s)) = 6;
  nw_peer : zlen (peer_mac (arp s)) = 6;
  nw_ip : word_ok (our_ip s);
  nw_conn : conn_wf (tcp s);
  nw_rx : zlen (tcp_rx s) ≤ TCP_RX_SIZE;
  nw_closed : active (tcp s) = false → tcp_rx s = [];
  nw_dhcp : zlen (dhcp_tx_pkt (dhcp s)) = 300 ∧ word_ok (dhcp_offered_ip (dhcp s))
}.

Lemma net_start_wf {N} (n : N) : net_wf (net_start n).
Proof.
  split; try done. split; [done|]. by apply Forall_replicate.
Qed.

Section props.
Context {N : Type} `{NicLaws N}.
Implicit Types s : net N.

(** Sending changes nothing but the card. *)
Definition only_sends {A} (m : M (net N) A) : Prop := ∀ s, ∃ x n', m s = Ret (x, with_nic n' s).

Lemma with_nic_wf n' s : net_wf s → net_wf (with_nic n' s).
Proof. intros [? ? ? ? ? ? ? ?]. by split. Qed.

Lemma with_nic_same s : with_nic (nic s) s = s.
Proof. by destruct s. Qed.

Lemma only_sends_ret {A} (x : A) : only_sends (ret x).
Proof. intros s. exists x, (nic s). by rewrite with_nic_same. Qed.

Lemma only_sends_gets {A B} (f : net N → A) (k : A → M (net N) B) :
  (∀ x, only_sends (k x)) → only_sends (bind (gets f) k).
Proof. intros Hk s. rewrite bind_gets. apply Hk. Qed.

Lemma only_sends_if {A} (b : bool) (m1 m2 : M (net N) A) : only_sends m1 → only_sends m2 → only_sends (if b then m1 else m2).
Proof. by destruct b. Qed.

Lemma only_sends_guard {A} (b : bool) (m1 m2 : M (net N) A) :
  only_sends m1 → (b = false → only_sends m2) → only_sends (if b then m1 else m2).
Proof. destruct b; auto. Qed.

(** What is written fits its buffer. *)
Lemma bind_fits {A} cap n (m : unit → M (net N) A) s : n ≤ cap → bind (fits cap n) m s = m tt s.
Proof. intros Hn. unfold fits. by test_false (cap <? n). Qed.

Lemma only_sends_fits {A} cap n (m : M (net N) A) : n ≤ cap → only_sends m → only_sends (fits cap n ;; m).
Proof. intros Hn Hm s. rewrite bind_fits by done. apply Hm. Qed.

Lemma eth_send_only dst type payload : only_sends (eth_send dst type payload).
Proof.
  apply only_sends_gets. intros ready. apply only_sends_guard; [apply only_sends_ret|]. intros Hg.
  apply orb_false_iff in Hg as [_ Hg]. bprop. apply only_sends_gets. intros mac.
  apply only_sends_fits; [lia|]. intros s. unfold zoom, act. destruct (virtio_net_send_frame _ _) as [rc n']. eauto.
Qed.

Lemma arp_send_only op mac tip sip : only_sends (arp_send op mac tip sip).
Proof. apply only_sends_gets. intros. apply eth_send_only. Qed.

Lemma ip_send_only dst proto payload : only_sends (ip_send dst proto payload).
Proof.
  apply only_sends_guard; [apply only_sends_ret|]. intros Hg. bprop.
  apply only_sends_gets. intros [mac|]; [|apply only_sends_ret].
  apply only_sends_gets. intros. apply only_sends_fits; [done|]. apply eth_send_only.
Qed.

Lemma udp_send_only dst sport dport payload : only_sends (udp_send dst sport dport payload).
Proof.
  apply only_sends_guard; [apply only_sends_ret|]. intros Hg. bprop. apply only_sends_fits; [done|]. apply ip_send_only.
Qed.

Lemma tcp_send_raw_only dst sport dport seq ack flags data : only_sends (tcp_send_raw dst sport dport seq ack flags data).
Proof.
  apply only_sends_guard; [apply only_sends_ret|]. intros Hg. bprop. apply only_sends_gets. intros.
  apply only_sends_fits; [done|]. apply ip_send_only.
Qed.

Lemma tcp_reply_only flags data : only_sends (tcp_reply flags data).
Proof. apply only_sends_gets. intros. apply tcp_send_raw_only. Qed.

(** The card aside, a property of the state survives. *)
Definition nic_blind (P : net N → Prop) : Prop := ∀ s n', P s → P (with_nic n' s).

Lemma only_sends_triple {A} (m : M (net N) A) P : only_sends m → nic_blind P → triple P m (λ _, P).
Proof. intros Hm HP s Hs. destruct (Hm s) as (x & n' & E). exists x, (with_nic n' s). eauto. Qed.

Lemma net_wf_blind : nic_blind net_wf.
Proof. intros s n' Hs. by apply with_nic_wf. Qed.

(** ** Frame handling is memory safe *)

Abbreviation safe m := (triple (net_wf (N:=N)) m (λ _, net_wf (N:=N))).

Lemma safe_ret {A} (x : A) : safe (ret x).
Proof. by apply triple_ret. Qed.

Lemma safe_bind {A B} (m : M (net N) A) (k : A → M (net N) B) : safe m → (∀ x, safe (k x)) → safe (bind m k).
Proof. intros Hm Hk. eapply triple_bind; [exact Hm|done]. Qed.

Lemma safe_gets {A} (f : net N → A) : safe (gets f).
Proof. by apply triple_gets. Qed.

Lemma safe_modify (f : net N → net N) : (∀ s, net_wf s → net_wf (f s)) → safe (modify f).
Proof. intros Hf. by apply triple_modify. Qed.

Lemma safe_if {A} (b : bool) (m1 m2 : M (net N) A) : safe m1 → safe m2 → safe (if b then m1 else m2).
Proof. by destruct b. Qed.

Lemma safe_sends {A} (m : M (net N) A) : only_sends m → safe m.
Proof. intros Hm. by apply only_sends_triple, net_wf_blind. Qed.

Lemma rx_bytes_ok off n s :
  0 ≤ off → 0 ≤ n → off + n ≤ NET_FRAME_MAX → net_wf s → ∃ l, rx_bytes off n s = Ret (l, s) ∧ zlen l = n ∧ bytes_ok l.
Proof.
  intros Ho Hn Hl Hs. destruct (nw_frame s Hs) as [Hz Hb]. exists (sub (rx_frame s) off n).
  split; [|split; [apply zlen_sub; lia|by apply Forall_take, Forall_drop]].
  unfold rx_bytes. rewrite Hz. test_true (0 <=? off). by test_true (off + n <=? NET_FRAME_MAX).
Qed.

Lemma safe_rx_bytes {B} off n (k : list Z → M (net N) B) :
  0 ≤ off → 0 ≤ n → off + n ≤ NET_FRAME_MAX →
  (∀ l, zlen l = n → bytes_ok l → safe (k l)) → safe (bind (rx_bytes off n) k).
Proof.
  intros Ho Hn Hl Hk s Hs. destruct (rx_bytes_ok off n s Ho Hn Hl Hs) as (l & E & Hz & Hb).
  rewrite (bind_ret _ _ _ _ _ E). by apply Hk.
Qed.

Lemma rx_byte_ok i s : 0 ≤ i < NET_FRAME_MAX → net_wf s → ∃ b, rx_byte i s = Ret (b, s) ∧ byte_ok b.
Proof.
  intros Hi Hs. destruct (nw_frame s Hs) as [Hz Hb].
  destruct (lookup_lt_is_Some_2 (rx_frame s) (Z.to_nat i)) as [b Hb']; [unfold zlen in Hz; lia|].
  exists b. split; [|by eapply Forall_lookup_1]. unfold rx_byte. rewrite Hb'. by test_false (i <? 0).
Qed.

Lemma safe_rx_byte {B} i (k : Z → M (net N) B) :
  0 ≤ i < NET_FRAME_MAX → (∀ b, byte_ok b → safe (k b)) → safe (bind (rx_byte i) k).
Proof.
  intros Hi Hk s Hs. destruct (rx_byte_ok i s Hi Hs) as (b & E & Hb). rewrite (bind_ret _ _ _ _ _ E). by apply Hk.
Qed.

Lemma cget_byte l i : bytes_ok l → byte_ok (cget l i).
Proof.
  intros Hl. unfold cget, byte_ok. rewrite nth_lookup. destruct (l !! Z.to_nat i) as [b|] eqn:E; simpl; [|lia].
  by eapply (Forall_lookup_1 _ _ _ _ Hl).
Qed.

Lemma read_be32_word l off : bytes_ok l → word_ok (read_be32 l off).
Proof.
  intros Hl. rewrite read_be32_spec by (intros; by apply cget_byte).
  pose proof (cget_byte l off Hl). pose proof (cget_byte l (off + 1) Hl). pose proof (cget_byte l (off + 2) Hl).
  pose proof (cget_byte l (off + 3) Hl). unfold byte_ok, word_ok in *. lia.
Qed.

Lemma arp_handle_safe base len : 0 ≤ base → base + len ≤ NET_FRAME_MAX → safe (arp_handle base len).
Proof.
  intros Hb Hl. unfold arp_handle. destruct (Z.ltb_spec len 28); [apply safe_ret|].
  apply safe_rx_bytes; [lia..|]. intros p Hp Hpb. apply safe_if; [apply safe_ret|].
  assert (zlen (sub p 8 6) = 6) as Hm by (apply zlen_sub; lia).
  apply safe_bind; [apply safe_if; [|apply safe_ret]|].
  - apply safe_modify. intros s [? ? ? ? ? ? ? ?]. destruct (read_be32 p 14 =? NET_GW_HOST); by split.
  - intros _. apply safe_bind; [apply safe_gets|]. intros ip. apply safe_if; [|apply safe_ret].
    apply safe_bind; [apply safe_sends, arp_send_only|]. intros. apply safe_ret.
Qed.

Lemma dhcp_options_safe fuel base len pos mt :
  0 ≤ base → 0 ≤ pos → base + len < NET_FRAME_MAX → safe (dhcp_options fuel base len pos mt).
Proof.
  intros Hb. revert pos mt; induction fuel as [|fuel IH]; intros pos mt Hp Hl; cbn [dhcp_options]; [apply safe_ret|].
  destruct (Z.ltb_spec (pos + 1) len); [|apply safe_ret]. cbn [negb].
  apply safe_rx_byte; [lia|]. intros opt _. apply safe_if; [apply safe_ret|].
  apply safe_rx_byte; [lia|]. intros olen Ho. unfold byte_ok in Ho.
  apply safe_bind; [apply safe_if; [|apply safe_ret]|].
  - intros s Hs. destruct (rx_byte_ok (base + pos + 2) s ltac:(lia) Hs) as (b & E & _). eauto.
  - intros mt'. apply safe_if; [apply safe_ret|]. apply IH; lia.
Qed.

Lemma zlen_splice (l d : list Z) off : 0 ≤ off → off + zlen d ≤ zlen l → zlen (splice l off d) = zlen l.
Proof. intros. unfold zlen. by rewrite length_splice. Qed.

Lemma zlen_mac n : zlen (take 6 (virtio_net_mac (n : N))) = 6.
Proof. destruct (nic_mac n) as [Hm _]. unfold zlen in *. rewrite length_take. lia. Qed.

Lemma dhcp_start_len (n : N) pkt : zlen pkt = 300 → zlen (dhcp_start (virtio_net_mac n) pkt) = 300.
Proof.
  intros Hp. unfold dhcp_start. rewrite zlen_splice; rewrite ?zlen_splice, ?zlen_mac; try lia; rewrite Hp; unfold zlen; simpl; lia.
Qed.

Lemma dhcp_send_safe (f : net N → list Z * Z) :
  (∀ s, net_wf s → zlen (f s).1 = 300) → safe (bind (gets (λ s, s)) (λ s, dhcp_send (f s))).
Proof.
  intros Hf. eapply (triple_bind _ _ (λ x s, x = s ∧ net_wf s)); [by apply triple_gets|]. intros x. unfold dhcp_send.
  intros s [-> Hs]. rewrite bind_modify. apply (safe_sends _ (udp_send_only _ _ _ _)).
  pose proof (Hf s Hs). destruct Hs as [? ? ? ? ? ? ? [? ?]]. by split.
Qed.

Lemma dhcp_discover_safe : safe dhcp_send_discover.
Proof.
  apply (dhcp_send_safe (λ s, dhcp_discover_pkt (virtio_net_mac (nic s)) (dhcp_tx_pkt (dhcp s)))). intros s Hs.
  destruct (nw_dhcp s Hs) as [Hd _]. unfold dhcp_discover_pkt. cbn [fst].
  pose proof (dhcp_start_len (nic s) _ Hd) as Hs'. rewrite zlen_splice; [done|lia|]. rewrite Hs'. unfold zlen. simpl. lia.
Qed.

Lemma dhcp_request_safe ip : safe (dhcp_send_request ip).
Proof.
  apply (dhcp_send_safe (λ s, dhcp_request_pkt (virtio_net_mac (nic s)) (dhcp_tx_pkt (dhcp s)) ip)). intros s Hs.
  destruct (nw_dhcp s Hs) as [Hd _]. unfold dhcp_request_pkt. cbn [fst].
  pose proof (dhcp_start_len (nic s) _ Hd) as Hs'.
  rewrite zlen_splice; rewrite ?zlen_splice; try lia; rewrite Hs'; unfold write_be32, zlen; simpl; lia.
Qed.

Lemma dhcp_handle_safe base len : 0 ≤ base → base + len < NET_FRAME_MAX → safe (dhcp_handle base len).
Proof.
  intros Hb Hl. unfold dhcp_handle. destruct (Z.ltb_spec len 240); [apply safe_ret|].
  apply safe_rx_bytes; [lia..|]. intros p Hp Hpb. apply safe_if; [apply safe_ret|]. apply safe_if; [apply safe_ret|].
  pose proof (read_be32_word p 16 Hpb) as Hy.
  apply safe_bind; [apply dhcp_options_safe; lia|]. intros mt. apply safe_if.
  - apply safe_bind.
    + apply safe_modify. intros s [? ? ? ? ? ? ? [? ?]]. by split.
    + intros _. apply safe_bind; [apply dhcp_request_safe|]. intros. apply safe_ret.
  - apply safe_if; [|apply safe_ret]. apply safe_modify. intros s [? ? ? ? ? ? ? [? ?]]. split; try done. simpl.
    by destruct (dhcp_offered_ip (dhcp s) =? 0).
Qed.

(** Skipping a name moves forward. *)
Lemma skip_name_safe {B} fuel base len pos (k : Z → M (net N) B) :
  0 ≤ base → 0 ≤ pos → base + len ≤ NET_FRAME_MAX →
  (∀ p, pos ≤ p → safe (k p)) → safe (bind (skip_name fuel base len pos) k).
Proof.
  intros Hb. revert pos; induction fuel as [|fuel IH]; intros pos Hp Hl Hk; cbn [skip_name].
  { intros s Hs. rewrite (bind_ret _ _ s pos s) by done. apply Hk; [lia|done]. }
  intros s Hs. destruct (Z.ltb_spec pos len); cbn [negb].
  2: { rewrite (bind_ret _ _ s pos s) by done. apply Hk; [lia|done]. }
  destruct (rx_byte_ok (base + pos) s ltac:(lia) Hs) as (b & E & Hbb). unfold byte_ok in Hbb.
  unfold bind at 1. rewrite (bind_ret _ _ _ _ _ E). destruct (b =? 0).
  - simpl. apply Hk; [lia|done].
  - apply (IH (pos + 1 + b)); [lia|lia| |done]. intros p Hp'. apply Hk. lia.
Qed.

Lemma set_dns_safe ip ok bogus : safe (set_dns ip ok bogus).
Proof. apply safe_modify. intros s [? ? ? ? ? ? ? ?]. by split. Qed.

Lemma dns_handle_safe base len : 0 ≤ base → base + len ≤ NET_FRAME_MAX → safe (dns_handle base len).
Proof.
  intros Hb Hl. unfold dns_handle. destruct (Z.ltb_spec len 12); [apply safe_ret|].
  apply safe_rx_bytes; [lia..|]. intros p Hp Hpb. apply safe_if; [apply safe_ret|]. apply safe_if; [apply safe_ret|].
  apply skip_name_safe; [lia..|]. intros q Hq. cbv zeta.
  destruct (Z.leb_spec len (q + 5)); [apply safe_ret|]. apply safe_rx_byte; [lia|]. intros b _.
  assert (∀ r, 0 ≤ r → safe (if len <? r + 10 then ret tt
    else let! a := rx_bytes (base + r) 10 in
         if negb (cget a 0 =? 0) || negb (cget a 1 =? 1) then ret tt
         else if negb (Z.lor (Z.shiftl (cget a 8) 8) (cget a 9) =? 4) || (len <? r + 10 + 4) then ret tt
              else let! x := rx_bytes (base + (r + 10)) 4 in dns_answer (read_be32 x 0))) as Hrest.
  { intros r Hr. destruct (Z.ltb_spec len (r + 10)); [apply safe_ret|]. apply safe_rx_bytes; [lia..|]. intros a _ _.
    apply safe_if; [apply safe_ret|]. destruct (Z.ltb_spec len (r + 10 + 4)); [rewrite orb_true_r; apply safe_ret|].
    rewrite orb_false_r. apply safe_if; [apply safe_ret|]. apply safe_rx_bytes; [lia..|]. intros x _ _.
    unfold dns_answer. apply safe_bind; [apply safe_gets|]. intros d.
    repeat apply safe_if; apply set_dns_safe. }
  destruct (Z.land b 192 =? 192).
  - intros s Hs. rewrite (bind_ret _ _ s (q + 5 + 2) s) by done. apply Hrest; [lia|done].
  - intros s Hs. unfold bind at 1.
    destruct (skip_name_safe (Z.to_nat len) base len (q + 5) (λ r s, if decide (q + 5 ≤ r) then Ret (r, s) else Undef)
      Hb ltac:(lia) Hl) with s as (r & s1 & E & Hs1); [intros r Hr s1 Hs1; rewrite decide_True by done; eauto|done|].
    unfold bind in E. unfold bind. destruct (skip_name _ _ _ _ s) as [[r' s2]| |]; [|done..].
    case_decide; [|done]. injection E as -> ->. apply Hrest; [lia|done].
Qed.

Lemma udp_handle_safe base iplen : 0 ≤ base → base + iplen < NET_FRAME_MAX → safe (udp_handle base iplen).
Proof.
  intros Hb Hl. unfold udp_handle. destruct (Z.ltb_spec iplen 28); [apply safe_ret|].
  apply safe_rx_bytes; [lia..|]. intros uh Hz Hu. cbv zeta. set (n := ntohs16 (get16 uh 4)).
  assert (∀ m, m = (if (n <? 8) || (iplen - 20 <? n) then iplen - 20 else n) → m ≤ iplen - 20) as Hm.
  { intros m ->. destruct (Z.ltb_spec n 8), (Z.ltb_spec (iplen - 20) n); simpl; lia. }
  specialize (Hm _ eq_refl). apply safe_if; [apply dhcp_handle_safe; lia|].
  apply safe_if; [apply dns_handle_safe; lia|apply safe_ret].
Qed.

Lemma upd_tcp_safe f : (∀ t, conn_wf t → conn_wf (f t) ∧ (active (f t) = active t)) → safe (upd_tcp f).
Proof.
  intros Hf. apply safe_modify. intros s [? ? ? ? Hc ? Hcl ?]. destruct (Hf _ Hc) as [? E]. split; try done.
  simpl. by rewrite E.
Qed.

Lemma tcp_reset_safe : safe tcp_reset.
Proof.
  intros s Hs. eexists _, _. split; [done|]. destruct Hs as [? ? ? ? [? ? ? ?] ? ? ?]. by split; try done.
Qed.

Lemma u32_word x : word_ok (u32 x).
Proof. apply u32_range. Qed.

Lemma conn_set_rcv x t : word_ok x → conn_wf t → conn_wf (set_rcv_nxt x t) ∧ active (set_rcv_nxt x t) = active t.
Proof. intros Hx [? ? ? ?]. split; [by split|done]. Qed.

(** Appending received data to an open connection. *)
Lemma tcp_append_safe data : triple (λ s, net_wf s ∧ active (tcp s) = true) (tcp_rx_append data) (λ _ s, net_wf s ∧ active (tcp s) = true).
Proof.
  apply triple_modify. intros s [[? ? ? ? Hc Hr Hcl ?] Ha]. split; [|done]. split; try done; simpl.
  - rewrite zlen_app. unfold zlen in *. rewrite length_take. lia.
  - congruence.
Qed.

Lemma tcp_reply_safe flags data {B} (k : Z → M (net N) B) :
  (∀ x, safe (k x)) → safe (bind (tcp_reply flags data) k).
Proof. intros Hk. apply safe_bind; [apply safe_sends, tcp_reply_only|done]. Qed.

(** The part of the segment handler after the flags are known, on an open
    connection. *)
Lemma tcp_data_safe off plen seq : 0 ≤ off → off + plen ≤ NET_FRAME_MAX →
  triple (λ s, net_wf s ∧ active (tcp s) = true)
    (if 0 <? plen then
       let! data := rx_bytes off plen in
       tcp_rx_append data ;; upd_tcp (set_rcv_nxt (u32 (seq + plen))) ;; tcp_reply TCP_ACK [] ;; ret tt
     else ret tt : M (net N) unit) (λ _, net_wf).
Proof.
  intros Ho Hl s [Hs Ha]. destruct (Z.ltb_spec 0 plen); [|by apply safe_ret].
  destruct (rx_bytes_ok off plen s Ho ltac:(lia) Hl Hs) as (data & E & _). rewrite (bind_ret _ _ _ _ _ E).
  destruct (tcp_append_safe data s (conj Hs Ha)) as ([] & s1 & E1 & Hs1 & Ha1). rewrite (bind_ret _ _ _ _ _ E1).
  apply (safe_bind (upd_tcp _)); [apply upd_tcp_safe; intros; by apply conn_set_rcv; [apply u32_word|]| |done].
  intros _. apply tcp_reply_safe. intros. apply safe_ret.
Qed.

Lemma tcp_fin_safe : safe (upd_tcp (λ t, set_rcv_nxt (u32 (rcv_nxt t + 1)) t) ;; tcp_reply (Z.lor TCP_ACK TCP_FIN) [] ;; tcp_reset).
Proof.
  apply safe_bind; [apply upd_tcp_safe; intros; by apply conn_set_rcv; [apply u32_word|]|]. intros _.
  apply tcp_reply_safe. intros. apply tcp_reset_safe.
Qed.

Lemma ntohl32_word l off : bytes_ok l → word_ok (ntohl32 (get_le32 l off)).
Proof. intros Hl. rewrite ntohl32_get by (intros; by apply cget_byte). by apply read_be32_word. Qed.

Lemma tcp_handle_safe base iplen : 0 ≤ base → base + iplen ≤ NET_FRAME_MAX → safe (tcp_handle base iplen).
Proof.
  intros Hb Hl s Hs. unfold tcp_handle. rewrite bind_gets.
  destruct (active (tcp s)) eqn:Ha; [|by apply safe_ret]. cbn [negb orb].
  destruct (Z.ltb_spec iplen 20); [by apply safe_ret|].
  destruct (rx_bytes_ok base 20 s ltac:(lia) ltac:(lia) ltac:(lia) Hs) as (ip & E & Hz & Hbi). rewrite (bind_ret _ _ _ _ _ E). cbv zeta.
  set (ihl := Z.land (cget ip 0) 15 * 4).
  destruct (Z.ltb_spec ihl 20); [by apply safe_ret|]. cbn [orb]. destruct (Z.ltb_spec iplen (ihl + 20)); [by apply safe_ret|].
  destruct (rx_bytes_ok (base + ihl) 20 s ltac:(lia) ltac:(lia) ltac:(lia) Hs) as (th & E2 & Hz2 & Hbt). rewrite (bind_ret _ _ _ _ _ E2).
  pose proof (ntohl32_word th 4 Hbt) as Hseq. pose proof (cget_byte th 12 Hbt) as Hdo. unfold byte_ok in Hdo.
  assert (0 ≤ Z.shiftr (cget th 12) 4) by (apply Z.shiftr_nonneg; lia).
  case_test; [by apply safe_ret|]. case_test; [by apply tcp_reset_safe|]. case_test.
  - case_test; [|by apply safe_ret]. unfold upd_tcp. rewrite bind_modify. apply tcp_reply_safe; [intros; apply safe_ret|].
    destruct Hs as [? ? ? ? [Hst ? ? ?] ? Hcl ?]. split; try done. simpl.
    split; simpl; [rewrite Ha; by right|apply u32_word|apply u32_word|done].
  - assert (triple (λ s : net N, net_wf s ∧ active (tcp s) = true)
      (if has TCP_ACK (cget th 13) && (tstate (tcp s) =? 1) then upd_tcp (set_tstate 2) else ret tt)
      (λ _ s, net_wf s ∧ active (tcp s) = true)) as Hst1.
    { apply triple_if; intros _; [|by apply triple_ret]. apply triple_modify. intros s1 [[? ? ? ? [Hst ? ? ?] ? Hcl ?] Ha1].
      split; [|done]. split; try done. split; simpl; try done. rewrite Ha1. by right. }
    destruct (Hst1 s (conj Hs Ha)) as (u & s1 & E3 & Hs1). rewrite (bind_ret _ _ _ _ _ E3).
    set (hl := Z.shiftr (cget th 12) 4 * 4) in *.
    destruct (tcp_data_safe (base + ihl + hl) (iplen - ihl - hl) (ntohl32 (get_le32 th 4)) ltac:(lia) ltac:(lia) s1 Hs1)
      as (u2 & s2 & E4 & Hs2). rewrite (bind_ret _ _ _ _ _ E4).
    case_test; [by apply tcp_fin_safe|by apply safe_ret].
Qed.

Lemma handle_frame_safe len : len < NET_FRAME_MAX → safe (handle_frame len).
Proof.
  intros Hl. unfold handle_frame. destruct (Z.ltb_spec len 14); [apply safe_ret|].
  apply safe_rx_bytes; [lia|lia|unfold NET_FRAME_MAX, NET_MTU; lia|]. intros eth _ _. cbv zeta.
  apply safe_if; [apply arp_handle_safe; lia|].
  destruct (Z.leb_spec 34 len); [rewrite andb_true_r|rewrite andb_false_r; apply safe_ret].
  apply safe_if; [|apply safe_ret]. apply safe_rx_bytes; [lia|lia|unfold NET_FRAME_MAX, NET_MTU; lia|]. intros ip _ _.
  apply safe_if; [apply tcp_handle_safe; lia|]. apply safe_if; [apply udp_handle_safe; lia|apply safe_ret].
Qed.

(** The device delivers frames of an Ethernet network: shorter than the buffer. *)
Definition short_frames : Prop :=
  ∀ (n n' : N) f, virtio_net_poll_frame NET_FRAME_MAX n = (Some f, n') → zlen f < NET_FRAME_MAX.

Section calls.
Context (Hshort : short_frames).

Lemma poll_safe : safe netstack_poll.
Proof.
  unfold netstack_poll. apply safe_bind; [apply safe_gets|]. intros ready. apply safe_if; [apply safe_ret|].
  intros s Hs. unfold bind at 1, zoom, act. destruct (virtio_net_poll_frame NET_FRAME_MAX (nic s)) as [f n'] eqn:E.
  destruct f as [f|]; [|apply safe_ret; by apply with_nic_wf]. rewrite bind_modify.
  destruct (nic_poll _ _ _ _ E) as [Hf Hb]. apply handle_frame_safe; [by eapply Hshort|].
  apply (with_nic_wf n') in Hs. destruct Hs as [[Hz Hbz] ? ? ? ? ? ? ?]. split; try done. simpl. split.
  - rewrite zlen_splice; [done|lia|]. simpl in Hz. lia.
  - by apply splice_bytes.
Qed.

Lemma poll_until_safe n p : safe (poll_until n p).
Proof.
  induction n as [|n IH]; cbn [poll_until]; [apply safe_ret|]. apply safe_bind; [apply poll_safe|]. intros _.
  apply safe_bind; [apply safe_gets|]. intros ok. apply safe_if; [apply safe_ret|apply IH].
Qed.

Lemma with_ips_safe f g : (∀ s, net_wf s → word_ok (f s)) → safe (modify (λ s, with_ips (f s) (g s) s)).
Proof. intros Hf. apply safe_modify. intros s Hs. specialize (Hf s Hs). destruct Hs as [? ? ? ? ? ? ? ?]. by split. Qed.

Lemma dhcp_acquire_safe t : safe (net_dhcp_acquire t).
Proof.
  unfold net_dhcp_acquire. apply safe_bind.
  { apply safe_modify. intros s [? ? ? ? ? ? ? [? ?]]. by split. }
  intros _. do 3 (apply safe_bind; [apply dhcp_discover_safe|intros _]).
  apply safe_bind; [apply poll_until_safe|]. intros ok. apply safe_if; [apply safe_ret|].
  apply safe_bind; [by apply (with_ips_safe (λ _, _) (λ _, _))|]. intros. apply safe_ret.
Qed.

Lemma arp_resolve_safe ip t : safe (arp_resolve ip t).
Proof.
  unfold arp_resolve. apply safe_bind; [apply safe_gets|]. intros own. cbv zeta. apply safe_bind; [apply safe_gets|]. intros ok.
  apply safe_if; [apply safe_ret|]. apply safe_bind; [apply safe_sends, arp_send_only|]. intros _.
  apply safe_bind; [apply poll_until_safe|]. intros. apply safe_ret.
Qed.

Lemma tcp_connect_safe ip port t : safe (tcp_connect ip port t).
Proof.
  unfold tcp_connect. intros s Hs. destruct (tcp_reset_safe s Hs) as (u & s1 & E & Hs1). rewrite (bind_ret _ _ _ _ _ E).
  unfold upd_tcp. rewrite bind_modify.
  assert (tcp_rx s1 = []) as Hrx by (injection E as _ <-; done).
  apply (safe_bind (arp_resolve _ _)); [apply arp_resolve_safe| |].
  - intros rc. apply safe_if; [apply safe_ret|]. apply safe_bind; [apply safe_sends, tcp_send_raw_only|]. intros rc2.
    apply safe_if; [apply safe_ret|]. apply safe_bind; [apply poll_until_safe|]. intros ok. apply safe_if; [apply safe_ret|].
    apply safe_bind; [apply tcp_reset_safe|]. intros. apply safe_ret.
  - destruct Hs1 as [? ? ? ? ? ? ? ?]. split; try done. split; simpl; try done. by left.
Qed.

Lemma tcp_send_data_safe data : safe (tcp_send_data data).
Proof.
  unfold tcp_send_data. apply safe_bind; [apply safe_gets|]. intros t. apply safe_if; [apply safe_ret|].
  apply tcp_reply_safe. intros rc. apply safe_if; [apply safe_ret|].
  apply safe_bind; [|intros; apply safe_ret]. apply upd_tcp_safe. intros t' [? ? ? ?]. split; [|done]. split; try done. apply u32_word.
Qed.

Lemma tcp_take_safe {B} n (k : list Z → M (net N) B) Q :
  0 ≤ n → (∀ d, zlen d ≤ n → triple net_wf (k d) Q) → triple net_wf (bind (tcp_rx_take n) k) Q.
Proof.
  intros Hn Hk s Hs. unfold tcp_rx_take. pose proof (zlen_nonneg (tcp_rx s)).
  unfold bind at 1. rewrite bind_gets. test_false (Z.min (zlen (tcp_rx s)) n <? 0). rewrite bind_modify. simpl.
  apply Hk; [unfold zlen in *; rewrite length_take; lia|]. destruct Hs as [? ? ? ? ? ? Hcl ?]. split; try done; simpl.
  - unfold zlen in *. rewrite length_drop. lia.
  - intros Ha. rewrite Hcl by done. apply drop_nil.
Qed.

Lemma recv_loop_safe n buflen t got idle :
  zlen got ≤ buflen → triple net_wf (recv_loop n buflen t got idle) (λ l s, zlen l ≤ buflen ∧ net_wf s).
Proof.
  revert got idle; induction n as [|n IH]; intros got idle Hg; cbn [recv_loop]; [by apply triple_ret|].
  apply tcp_take_safe; [lia|]. intros d Hd. apply triple_if; intros Hd0.
  - cbv zeta. assert (zlen (got ++ d) ≤ buflen) by (rewrite zlen_app; lia).
    apply triple_if; intros _; [by apply triple_ret|by apply IH].
  - eapply (triple_bind _ _ (λ _, net_wf)); [apply poll_safe|]. intros ?. cbv zeta. apply triple_if; intros _; [by apply triple_ret|by apply IH].
Qed.

Lemma safe_fits {A} cap n (m : M (net N) A) : n ≤ cap → safe m → safe (fits cap n ;; m).
Proof. intros Hn Hm s Hs. rewrite bind_fits by done. by apply Hm. Qed.

Lemma recv_exact buflen t :
  0 ≤ buflen → triple net_wf (tcp_recv_accumulate buflen t) (λ r s, zlen r.2 ≤ buflen ∧ net_wf s).
Proof.
  intros Hb. eapply triple_bind; [by apply recv_loop_safe|]. intros got. apply triple_pure. intros Hg.
  intros s Hs. rewrite bind_fits by done. by eexists _, s.
Qed.

Lemma recv_safe buflen t : 0 ≤ buflen → safe (tcp_recv_accumulate buflen t).
Proof. intros Hb. eapply triple_weaken; [by apply recv_exact|done|by intros x s []]. Qed.

Lemma tcp_close_safe : safe tcp_close_conn.
Proof.
  unfold tcp_close_conn. apply safe_bind; [apply safe_gets|]. intros t. apply safe_bind; [|intros; apply tcp_reset_safe].
  apply safe_if; [|apply safe_ret]. apply tcp_reply_safe. intros. apply safe_ret.
Qed.

Lemma netstack_init_safe : safe netstack_init.
Proof.
  unfold netstack_init. apply safe_bind.
  { apply safe_modify. intros s [? ? ? ? ? ? ? ?]. by split. }
  intros _. apply safe_bind; [apply tcp_reset_safe|]. intros _. apply safe_bind.
  { apply safe_modify. intros s Hs. by apply with_nic_wf. }
  intros _. apply safe_bind; [apply safe_gets|]. intros r. apply safe_if; [apply safe_ret|].
  apply safe_bind; [by apply (with_ips_safe (λ _, _) (λ _, _))|]. intros _. apply safe_bind; [apply dhcp_acquire_safe|]. intros _.
  apply safe_bind; [apply safe_gets|]. intros gw. apply safe_if; [apply safe_ret|].
  apply safe_bind; [apply arp_resolve_safe|]. intros. apply safe_ret.
Qed.

(** *** Names *)

Lemma take_label_app n host l r : take_label n host = (l, r) → host = l ++ r.
Proof.
  revert host l r; induction n as [|n IH]; intros [|c host] l r; cbn [take_label]; try (by intros [= <- <-]).
  case_test; [by intros [= <- <-]|]. destruct (take_label n host) as [l' r'] eqn:E. intros [= <- <-].
  by rewrite (IH _ _ _ E).
Qed.

Lemma dns_labels_len fuel host : zlen (dns_labels fuel host) ≤ 2 * zlen host.
Proof.
  revert host; induction fuel as [|fuel IH]; intros host; cbn [dns_labels].
  - unfold zlen. simpl. lia.
  - destruct host as [|c host]; [done|]. destruct (take_label 63 (c :: host)) as [l r] eqn:E.
    pose proof (take_label_app _ _ _ _ E) as Ea. rewrite Ea, zlen_cons, !zlen_app.
    assert (zlen l = 0 → ∃ r', r = chr "." :: r') as Hl.
    { intros H0'. destruct l; [|rewrite zlen_cons in H0'; pose proof (zlen_nonneg l); lia]. 
      change (take_label 63 (c :: host)) with (if c =? chr "." then ([], c :: host) else let '(l, r) := take_label 62 host in (c :: l, r)) in E.
      destruct (Z.eqb_spec c (chr ".")) as [->|]; [injection E as <-; eauto|].
      destruct (take_label 62 host) as [l1 r1]. discriminate E. }
    set (rest := match r with c :: r0 => if c =? chr "." then r0 else r | [] => [] end).
    specialize (IH rest). assert (zlen rest ≤ zlen r ∧ (zlen l = 0 → zlen rest + 1 = zlen r)) as [Hr1 Hr2].
    { unfold rest. split.
      - destruct r as [|d r]; [done|]. case_test; rewrite ?zlen_cons; lia.
      - intros H0'. destruct (Hl H0') as [r' ->]. rewrite Z.eqb_refl, zlen_cons. lia. }
    pose proof (zlen_nonneg l). lia.
Qed.

(** A name that leaves room for the query. *)
Definition name_ok (host : list Z) : Prop := zlen host ≤ 247.

Lemma dns_query_safe host : name_ok host → safe (dns_send_query host).
Proof.
  intros Hh. unfold dns_send_query. pose proof (dns_labels_len (length host) host). unfold name_ok in Hh.
  assert (zlen (dns_query host) ≤ 512) as Hq.
  { unfold dns_query. rewrite !zlen_app. change (zlen [0; 0; 1; 0; 1]) with 5.
    change (zlen [0x12; 0x34; 0x01; 0x00; 0x00; 0x01; 0x00; 0x00; 0x00; 0x00; 0x00; 0x00]) with 12. lia. }
  cbv zeta. apply safe_fits; [done|]. apply safe_bind; [apply safe_gets|]. intros. apply safe_sends, udp_send_only.
Qed.

Lemma dns_wait_safe n t host : name_ok host → safe (dns_wait n t host).
Proof.
  intros Hh. revert t; induction n as [|n IH]; intros t; cbn [dns_wait]; [apply safe_ret|].
  apply safe_bind; [apply poll_safe|]. intros _. apply safe_bind; [apply safe_gets|]. intros d.
  apply safe_if; [apply safe_ret|]. apply safe_bind; [apply safe_if; [|apply safe_ret]|intros; apply IH].
  apply safe_bind; [by apply dns_query_safe|]. intros. apply safe_ret.
Qed.

Lemma dns_servers_safe servers host ms : name_ok host → safe (dns_servers servers host ms).
Proof.
  intros Hh. induction servers as [|srv rest IH]; cbn [dns_servers]; [apply safe_ret|].
  apply safe_bind; [apply (with_ips_safe our_ip (λ _, srv)); intros s Hs; apply (nw_ip s Hs)|]. intros _.
  apply safe_bind; [apply set_dns_safe|]. intros _. apply safe_bind; [apply arp_resolve_safe|]. intros rc.
  apply safe_if; [apply IH|]. apply safe_bind; [by apply dns_query_safe|]. intros rc2. apply safe_if; [apply IH|].
  apply safe_bind; [by apply dns_wait_safe|]. intros _. apply safe_bind; [apply safe_gets|]. intros d.
  apply safe_if; [apply safe_ret|]. apply safe_if; [apply safe_ret|apply IH].
Qed.

(** The resolver over HTTPS, when there is one, keeps the invariant. *)
Context (doh : option (list Z → Z → M (net N) (Z * Z))).
Context (Hdoh : ∀ d h t, doh = Some d → name_ok h → safe (d h t)).

Lemma dns_store_safe host ip : safe (dns_cache_store host ip).
Proof. apply safe_modify. intros s [? ? ? ? ? ? ? ?]. by split. Qed.

Lemma dns_resolve_safe host t : name_ok host → safe (net_dns_resolve doh host t).
Proof.
  intros Hh. unfold net_dns_resolve. apply safe_if; [apply safe_ret|]. destruct (parse_ipv4 host); [apply safe_ret|].
  apply safe_bind; [apply safe_gets|]. intros d. destruct (match dns_cache d with Some _ => _ | None => _ end); [apply safe_ret|].
  apply safe_bind; [apply safe_gets|]. intros r. apply safe_if; [apply safe_ret|]. cbv zeta.
  apply safe_bind; [by apply dns_servers_safe|]. intros [ip|].
  - apply safe_bind; [apply dns_store_safe|]. intros. apply safe_ret.
  - destruct doh as [f|] eqn:E; [|apply safe_ret]. apply safe_bind; [by apply Hdoh|]. intros a.
    apply safe_if; [|apply safe_ret]. apply safe_bind; [apply dns_store_safe|]. intros. apply safe_ret.
Qed.

Lemma resolve_slirp_safe host t : name_ok host → safe (net_dns_resolve_slirp host t).
Proof.
  intros Hh. unfold net_dns_resolve_slirp. apply safe_if; [apply safe_ret|]. destruct (parse_ipv4 host); [apply safe_ret|].
  apply safe_bind; [apply safe_gets|]. intros r. apply safe_if; [apply safe_ret|]. cbv zeta.
  apply safe_bind; [apply (with_ips_safe our_ip (λ _, _)); intros s Hs; apply (nw_ip s Hs)|]. intros _.
  apply safe_bind; [apply set_dns_safe|]. intros _.
  assert (∀ b, safe (set_accept_bogus b)) as Hset by (intros b; apply safe_modify; intros s [? ? ? ? ? ? ? ?]; by split).
  apply safe_bind; [apply Hset|]. intros _. apply safe_bind; [apply arp_resolve_safe|]. intros rc.
  apply safe_bind; [apply safe_if; [by apply dns_query_safe|apply safe_ret]|]. intros rc2.
  apply safe_bind; [apply safe_if; [apply safe_ret|apply poll_until_safe]|]. intros ok.
  apply safe_bind; [apply safe_gets|]. intros ip. apply safe_bind; [apply Hset|]. intros. apply safe_ret.
Qed.

Lemma host_ip_safe host t : name_ok host → safe (host_ip doh host t).
Proof.
  intros Hh. unfold host_ip. destruct (parse_ipv4 host); [apply safe_ret|].
  apply safe_bind; [by apply dns_resolve_safe|]. intros. apply safe_ret.
Qed.

(** *** HTTP *)

Lemma http_exchange_safe req size t : 1 ≤ size → safe (http_exchange req size t).
Proof.
  intros Hs. unfold http_exchange. apply safe_bind; [apply tcp_send_data_safe|]. intros rc. apply safe_if.
  - apply safe_bind; [apply tcp_close_safe|]. intros. apply safe_ret.
  - eapply triple_bind; [apply recv_exact; lia|]. intros r. apply triple_pure. intros Hr.
    apply safe_bind; [apply tcp_close_safe|]. intros _. apply safe_fits; [lia|]. apply safe_ret.
Qed.

Lemma parse_url_host url hl pl host port path : parse_url url hl pl = Some (host, port, path) → zlen host ≤ hl - 1.
Proof.
  unfold parse_url. case_test; [done|]. cbv zeta. case_test; [done|].
  destruct (take_while _ _) as [h r]. case_test; [done|]. case_test; [done|]. bprop.
  destruct (if cget r 0 =? chr ":" then _ else _) as [[p r']|]; cbn [mbind option_bind]; [|done]. by intros [= <- <- <-].
Qed.

Lemma zlen_fill cap buf x : zlen buf ≤ zlen (fill cap buf x) ≤ Z.max (zlen buf) cap.
Proof. unfold fill. rewrite zlen_app. unfold zlen. rewrite length_take. lia. Qed.

(** The request of a GET fits its buffer of 384 bytes with its NUL. *)
Lemma get_request_fits host path port : zlen (http_get_request host path port) + 1 ≤ 384.
Proof.
  unfold http_get_request. cbv zeta. pose proof (zlen_fill 336 (str "GET ") path) as F1.
  set (r1 := fill 336 _ _) in *. pose proof (zlen_fill 352 r1 (str " HTTP/1.1" ++ CRLF ++ str "Host: ")) as F2.
  set (r2 := fill 352 _ _) in *. pose proof (zlen_fill 360 r2 host) as F3. set (r3 := fill 360 _ _) in *.
  change (zlen (str "GET ")) with 4 in F1.
  set (r4 := if port =? 80 then r3 else fill 368 (r3 ++ str ":") (dec port)).
  assert (zlen r4 ≤ 368) as F4.
  { unfold r4. case_test; [lia|]. pose proof (zlen_fill 368 (r3 ++ str ":") (dec port)) as F. rewrite zlen_app in F.
    change (zlen (str ":")) with 1 in F. lia. }
  pose proof (zlen_fill 382 r4 (CRLF ++ str "Connection: close" ++ CRLF ++ CRLF)). lia.
Qed.

Lemma http_get_safe url n : safe (net_http_get doh url n).
Proof.
  unfold net_http_get. apply safe_bind; [apply safe_gets|]. intros r. apply safe_if; [apply safe_ret|].
  destruct (parse_url url 64 128) as [[[host port] path]|] eqn:E; [|apply safe_ret]. apply safe_if; [apply safe_ret|].
  apply safe_bind; [apply host_ip_safe; apply parse_url_host in E; unfold name_ok; lia|]. intros [ip|]; [|apply safe_ret].
  apply safe_bind; [apply safe_gets|]. intros a. apply safe_bind; [apply safe_if; [apply arp_resolve_safe|apply safe_ret]|].
  intros rc. apply safe_if; [apply safe_ret|]. apply safe_bind; [apply tcp_connect_safe|]. intros rc2.
  apply safe_if; [apply safe_ret|]. apply safe_if; [apply safe_ret|]. cbv zeta.
  apply safe_fits; [apply get_request_fits|].
  apply safe_bind; [apply http_exchange_safe; lia|]. intros res. apply safe_if; apply safe_ret.
Qed.

Lemma fill_fits cap buf x : zlen buf + zlen x ≤ cap → fill cap buf x = buf ++ x.
Proof. intros Hx. unfold fill. f_equal. apply take_ge. unfold zlen in *. lia. Qed.

(** Every request fits the buffer. *)
Lemma post_fits cap host path headers body : cap ≤ 3968 → is_Some (post_text cap host path headers body).
Proof.
  intros Hc. unfold post_text. cbv zeta. set (p1 := fill (4096 - 256) [] (str "POST ")). set (p2 := fill (4096 - 256) p1 path).
  set (r1 := fill (4096 - 256) p2 _). set (r2 := fill cap r1 host).
  assert (zlen r2 ≤ 3968) as H2.
  { pose proof (zlen_fill (4096 - 256) [] (str "POST ")) as F1. pose proof (zlen_fill (4096 - 256) p1 path) as F2.
    pose proof (zlen_fill (4096 - 256) p2 (str " HTTP/1.1" ++ CRLF ++ str "Host: ")) as F3.
    pose proof (zlen_fill cap r1 host) as F4. change (zlen (@nil Z)) with 0 in F1.
    fold p1 in F1. fold p2 in F2. fold r1 in F3. fold r2 in F4. lia. }
  assert (∃ r3, match headers with None => Some r2
    | Some h => r ← (if zlen r2 + zlen CRLF <=? 4096 then Some (r2 ++ CRLF) else None);
                (if zlen (fill (4096 - 128) r h) + zlen CRLF <=? 4096 then Some (fill (4096 - 128) r h ++ CRLF) else None)
    end = Some r3 ∧ zlen r3 ≤ 3972) as (r3 & -> & H3).
  { destruct headers as [h|]; [|by exists r2; split; [|lia]]. change (zlen CRLF) with 2. test_true (zlen r2 + 2 <=? 4096). cbn [mbind option_bind].
    pose proof (zlen_fill (4096 - 128) (r2 ++ CRLF) h) as Hf. rewrite zlen_app in Hf. change (zlen CRLF) with 2 in Hf.
    test_true (zlen (fill (4096 - 128) (r2 ++ CRLF) h) + 2 <=? 4096). eexists. split; [done|]. rewrite zlen_app. change (zlen CRLF) with 2. lia. }
  cbn [mbind option_bind]. destruct body as [b|].
  - set (r4 := fill (4096 - 32) (fill (4096 - 64) r3 _) (dec (zlen b))).
    assert (zlen r4 ≤ 4064) as H4.
    { pose proof (zlen_fill (4096 - 64) r3 (str "Content-Type: application/json" ++ CRLF ++ str "Content-Length: ")) as Ha.
      pose proof (zlen_fill (4096 - 32) (fill (4096 - 64) r3 (str "Content-Type: application/json" ++ CRLF ++ str "Content-Length: ")) (dec (zlen b))).
      unfold r4. lia. }
    change (zlen (CRLF ++ CRLF)) with 4. test_true (zlen r4 + 4 <=? 4096). cbn [mbind option_bind].
    pose proof (zlen_fill (4096 - 2) (r4 ++ CRLF ++ CRLF) b) as Hf. rewrite zlen_app in Hf. change (zlen (CRLF ++ CRLF)) with 4 in Hf.
    test_true (zlen (fill (4096 - 2) (r4 ++ CRLF ++ CRLF) b) <? 4096). done.
  - set (x := CRLF ++ _). pose proof (zlen_fill (4096 - 2) r3 x). cbn [mbind option_bind].
    test_true (zlen (fill (4096 - 2) r3 x) <? 4096). done.
Qed.

Lemma http_post_fits host path headers body : is_Some (http_post_text host path headers body).
Proof. by apply post_fits. Qed.

Lemma http_post_safe host port path headers body n t : name_ok host → safe (net_http_post doh host port path headers body n t).
Proof.
  intros Hh. unfold net_http_post. apply safe_if; [apply safe_ret|]. apply safe_bind; [by apply host_ip_safe|].
  intros [ip|]; [|apply safe_ret]. apply safe_bind; [apply tcp_connect_safe|]. intros rc. apply safe_if; [apply safe_ret|].
  destruct (http_post_fits host path headers body) as [req ->]. apply safe_bind; [apply safe_ret|]. intros req'.
  apply safe_bind; [apply http_exchange_safe; lia|]. intros r. apply safe_if; apply safe_ret.
Qed.

End calls.
End props.

(** ** Sequences of calls *)

Inductive net_op :=
  | OpInit
  | OpPoll
  | OpConnectIp (ip port timeout_ms : Z)
  | OpConnectHost (host : list Z) (port timeout_ms : Z)
  | OpWrite (data : list Z)
  | OpRead (buflen timeout_ms : Z)
  | OpClose
  | OpResolve (host : list Z) (timeout_ms : Z)
  | OpResolveSlirp (host : list Z) (timeout_ms : Z)
  | OpGet (url : list Z) (body_len : Z)
  | OpPost (host : list Z) (port : Z) (path : list Z) (headers body : option (list Z)) (resp_len timeout_ms : Z).

(** The callers pass buffers of non-negative size and names that fit a query. *)
Definition op_ok (o : net_op) : Prop :=
  match o with
  | OpRead n _ => 0 ≤ n
  | OpConnectHost h _ _ | OpResolve h _ | OpResolveSlirp h _ | OpPost h _ _ _ _ _ _ => name_ok h
  | _ => True
  end.

Section sequences.
Context {N : Type} `{NicLaws N} (doh : option (list Z → Z → M (net N) (Z * Z))).

Definition run_op (o : net_op) : M (net N) unit :=
  match o with
  | OpInit => netstack_init
  | OpPoll => netstack_poll
  | OpConnectIp ip port t => net_tcp_connect_ip ip port t ;; ret tt
  | OpConnectHost h port t => net_tcp_connect_host doh h port t ;; ret tt
  | OpWrite d => net_tcp_write d ;; ret tt
  | OpRead n t => net_tcp_read n t ;; ret tt
  | OpClose => net_tcp_close
  | OpResolve h t => net_dns_resolve doh h t ;; ret tt
  | OpResolveSlirp h t => net_dns_resolve_slirp h t ;; ret tt
  | OpGet url n => net_http_get doh url n ;; ret tt
  | OpPost h port path hd body n t => net_http_post doh h port path hd body n t ;; ret tt
  end.

Fixpoint run_ops (os : list net_op) : M (net N) unit :=
  match os with [] => ret tt | o :: os' => run_op o ;; run_ops os' end.

Lemma run_op_safe o :
  short_frames (N:=N) → (∀ d h t, doh = Some d → name_ok h → triple net_wf (d h t) (λ _, net_wf)) →
  op_ok o → triple net_wf (run_op o) (λ _, net_wf).
Proof.
  intros Hs Hd Ho. destruct o; cbn [run_op op_ok] in *; try (apply safe_bind; [|intros; apply safe_ret]).
  - by apply netstack_init_safe.
  - by apply poll_safe.
  - unfold net_tcp_connect_ip. apply safe_if; [apply safe_ret|by apply tcp_connect_safe].
  - unfold net_tcp_connect_host. apply safe_if; [apply safe_ret|]. apply safe_bind; [by apply host_ip_safe|].
    intros [ip|]; [by apply tcp_connect_safe|apply safe_ret].
  - unfold net_tcp_write. apply safe_bind; [apply safe_gets|]. intros t. apply safe_if; [apply safe_ret|by apply tcp_send_data_safe].
  - unfold net_tcp_read. apply safe_bind; [apply safe_gets|]. intros t. apply safe_if; [apply safe_ret|by apply recv_safe].
  - by apply tcp_close_safe.
  - by apply dns_resolve_safe.
  - by apply resolve_slirp_safe.
  - by apply http_get_safe.
  - by apply http_post_safe.
Qed.

(** [C18] The network stack is memory safe and its calls return.  From the start, every
    sequence of initialisations, polls, connections, reads into buffers of a size that is
    not negative, writes, resolutions and HTTP requests ends, whatever frames shorter than
    the receive array the card delivers, without a read outside the receive array and
    without a write outside the arrays and buffers in which frames, packets, segments,
    queries, requests and responses are put together; it leaves a state where the receive
    buffer is within its size, the connection is closed, waiting or open, and a closed
    connection has no data.  Host names given to the calls have at most 247 characters (a
    name of 500 overruns the query buffer), and the resolver over HTTPS, where the build
    has one, is assumed to return and to keep such a state. *)
Theorem net_calls_safe ops n :
  short_frames (N:=N) → (∀ d h t, doh = Some d → name_ok h → triple net_wf (d h t) (λ _, net_wf)) →
  Forall op_ok ops → ∃ s', run_ops ops (net_start n) = Ret (tt, s') ∧ net_wf s'.
Proof.
  intros Hs Hd Hops. assert (triple net_wf (run_ops ops) (λ _, net_wf)) as H'.
  { induction Hops as [|o ops Ho Hops IH]; cbn [run_ops]; [apply safe_ret|].
    apply safe_bind; [by apply run_op_safe|done]. }
  destruct (H' (net_start n) (net_start_wf n)) as ([] & s' & E & Hw). eauto.
Qed.

End sequences.

(** ** A simple card: a queue of frames to deliver and the frames sent *)

Record wire := mk_wire { incoming : list (list Z); sent : list (list Z) }.

Definition wire_mac : list Z := [0x52; 0x54; 0; 0x12; 0x34; 0x56].

#[export] Instance wire_nic : Nic wire := {
  virtio_net_init w := w;
  virtio_net_ready _ := true;
  virtio_net_mac _ := wire_mac;
  virtio_net_send_frame f w := (zlen f, mk_wire (incoming w) (sent w ++ [f]));
  virtio_net_poll_frame cap w :=
    match incoming w with
    | [] => (None, w)
    | f :: fs => let f := take (Z.to_nat (Z.min cap 1514)) (u8 <$> f) in
                 (if zlen f =? 0 then None else Some f, mk_wire fs (sent w))
    end
}.

#[export] Instance wire_laws : NicLaws wire.
Proof.
  split.
  - intros w. split; [done|]. by repeat constructor.
  - intros w w' cap f. cbn [virtio_net_poll_frame wire_nic]. destruct (incoming w) as [|g gs]; [done|].
    case_test; [done|]. bprop. intros [= <- _]. split.
    + pose proof (zlen_nonneg (take (Z.to_nat (Z.min cap 1514)) (u8 <$> g))). unfold zlen in *. rewrite length_take in *. lia.
    + apply Forall_take, Forall_fmap, Forall_true. intros x. apply Z.mod_pos_bound. lia.
Qed.

Lemma wire_short : short_frames (N:=wire).
Proof.
  intros w w' f. cbn [virtio_net_poll_frame wire_nic]. destruct (incoming w) as [|g gs]; [done|].
  case_test; [done|]. intros [= <- _]. unfold zlen, NET_FRAME_MAX, NET_MTU. rewrite length_take. lia.
Qed.

Lemma net_calls_safe_witness :
  ∃ s', run_ops None [OpPoll; OpConnectIp NET_GW_HOST 80 1; OpWrite (str "hi"); OpRead 16 1; OpClose]
          (net_start (mk_wire [[1; 2; 3]] [])) = Ret (tt, s') ∧ net_wf s'.
Proof.
  apply (net_calls_safe None); [exact wire_short|intros d h t E; discriminate E|].
  repeat constructor; cbn; lia.
Defined.
