(* ===== verification/NetTcp.v ===== *)
(** * Delivery of TCP data, and departures from the protocols

    What one stack sends with [tcp_send_data] is parsed back by [handle_frame] of
    another, header field by header field.  The last parts record a one-byte
    overrun for frames that fill the receive buffer, the DHCP messages, the
    treatment of FIN and of repeated segments. *)

From S2P Require Import Prelude Ramfs Persist Paths Vm NetWire Net NetProps.

(** ** Parsing a built frame *)

(** The frame of a TCP segment. *)
Definition tcp_frame (dst_mac src_mac : list Z) (src dst sport dport seq ack flags : Z) (data : list Z) : list Z :=
  take 6 dst_mac ++ take 6 src_mac ++ [u8 (Z.shiftr ETHERTYPE_IP 8); u8 (Z.land ETHERTYPE_IP 0xff)]
  ++ ip_packet IP_PROTO_TCP src dst (tcp_segment src dst sport dport seq ack flags data).

Definition port_ok (p : Z) : Prop := 0 ≤ p < 65536.

(** The first 20 bytes of a segment. *)
Definition tcp_head (sport dport seq ack flags csum : Z) : list Z := tcp_seg sport dport seq ack flags csum [].

Lemma tcp_seg_head sport dport seq ack flags csum data :
  tcp_seg sport dport seq ack flags csum data = tcp_head sport dport seq ack flags csum ++ data.
Proof. unfold tcp_head, tcp_seg. rewrite <- !app_assoc. done. Qed.

Lemma be32_bytes v : word_ok v → let w := [v / 16777216; v / 65536 mod 256; v / 256 mod 256; v mod 256] in
  bytes_ok w ∧ 16777216 * (v / 16777216) + 65536 * (v / 65536 mod 256) + 256 * (v / 256 mod 256) + v mod 256 = v.
Proof.
  intros Hv. destruct (bytes_of_32 v Hv) as [E Hh]. split; [|lia]. unfold bytes_ok, byte_ok.
  repeat constructor; try (apply Z.mod_pos_bound; lia); lia.
Qed.

Lemma be16_value v : port_ok v → ntohs16 (v / 256 + 256 * (v mod 256)) = v.
Proof.
  unfold port_ok. intros Hv. rewrite ntohs16_bytes; unfold byte_ok; Z.to_euclidean_division_equations; lia.
Qed.

Lemma read_be32_at l off v : word_ok v →
  cget l off = v / 16777216 → cget l (off + 1) = v / 65536 mod 256 → cget l (off + 2) = v / 256 mod 256 →
  cget l (off + 3) = v mod 256 → read_be32 l off = v ∧ ntohl32 (get_le32 l off) = v.
Proof.
  intros Hv E0 E1 E2 E3. destruct (be32_bytes v Hv) as [Hb E]. cbv zeta in Hb.
  assert (∀ k, 0 ≤ k < 4 → byte_ok (cget l (off + k))) as Hk.
  { intros k Hk. assert (k = 0 ∨ k = 1 ∨ k = 2 ∨ k = 3) as [->|[->|[->| ->]]] by lia; rewrite ?Z.add_0_r, ?E0, ?E1, ?E2, ?E3;
      repeat (inversion Hb as [|? ? ? Hb']; subst; clear Hb; rename Hb' into Hb; try done). }
  rewrite ntohl32_get by done. rewrite read_be32_spec by done. rewrite E0, E1, E2, E3. done.
Qed.

Lemma cget_at l i x : l !! Z.to_nat i = Some x → cget l i = x.
Proof. intros E. unfold cget. by apply nth_lookup_Some. Qed.

Lemma get16_at l i x : port_ok x → l !! Z.to_nat i = Some (x / 256) → l !! Z.to_nat (i + 1) = Some (x mod 256) →
  ntohs16 (get16 l i) = x.
Proof. intros Hx E1 E2. unfold get16. rewrite (cget_at _ _ _ E1), (cget_at _ _ _ E2). by apply be16_value. Qed.

Lemma tcp_head_fields sport dport seq ack flags csum :
  port_ok sport → port_ok dport → word_ok seq → word_ok ack →
  let th := tcp_head sport dport seq ack flags csum in
  zlen th = 20 ∧ ntohs16 (get16 th 0) = sport ∧ ntohs16 (get16 th 2) = dport
  ∧ ntohl32 (get_le32 th 4) = seq ∧ cget th 12 = 80 ∧ cget th 13 = flags.
Proof.
  intros Hs Hd Hq Ha th. unfold th, tcp_head, tcp_seg. rewrite !le32_htonl, !write_be32_spec by done.
  rewrite (le16_htons sport), (le16_htons dport) by done. cbn [app].
  split; [reflexivity|]. split; [apply get16_at; [done|reflexivity|reflexivity]|].
  split; [apply get16_at; [done|reflexivity|reflexivity]|].
  split; [|split; apply cget_at; reflexivity].
  refine (proj2 (read_be32_at _ 4 seq Hq _ _ _ _)); apply cget_at; reflexivity.
Qed.

Lemma ip_head_fields iplen proto src dst csum :
  port_ok iplen → word_ok src → word_ok dst →
  let ip := ip_header iplen proto src dst csum in
  zlen ip = 20 ∧ cget ip 0 = 0x45 ∧ ntohs16 (get16 ip 2) = iplen ∧ cget ip 9 = proto ∧ read_be32 ip 12 = src.
Proof.
  intros Hi Hs Hd ip. unfold ip, ip_header. rewrite !write_be32_spec by done. cbn [app].
  assert (u8 (Z.shiftr iplen 8) = iplen / 256) as ->.
  { unfold u8, port_ok in *. rewrite Z.shiftr_div_pow2 by lia. change (2 ^ 8) with 256.
    apply Z.mod_small. Z.to_euclidean_division_equations; lia. }
  split; [reflexivity|]. split; [reflexivity|]. split; [apply get16_at; [done|reflexivity|reflexivity]|].
  split; [apply cget_at; reflexivity|].
  refine (proj1 (read_be32_at _ 12 src Hs _ _ _ _)); apply cget_at; reflexivity.
Qed.

(** ** Reading a frame from the start of the receive array *)

Lemma sub_splice_inside (l d : list Z) off n :
  0 ≤ off → 0 ≤ n → off + n ≤ zlen d → sub (splice l 0 d) off n = sub d off n.
Proof.
  intros Ho Hn Hl. unfold sub, splice, zlen in *. simpl. rewrite drop_app_le, take_app_le by (rewrite ?length_drop; lia). done.
Qed.

Lemma sub_app_skip (x y : list Z) off n : zlen x ≤ off → sub (x ++ y) off n = sub y (off - zlen x) n.
Proof. intros Ho. unfold sub, zlen in *. rewrite drop_app_ge by lia. do 2 f_equal. lia. Qed.

Lemma sub_app_take (x y : list Z) n : n = zlen x → sub (x ++ y) 0 n = x.
Proof. intros ->. unfold sub, zlen. simpl. rewrite drop_0, Nat2Z.id. apply take_app_length. Qed.

Lemma sub_all (x : list Z) n : n = zlen x → sub x 0 n = x.
Proof. intros ->. unfold sub, zlen. simpl. rewrite drop_0, Nat2Z.id. apply take_ge. lia. Qed.

Section delivery.
Context {N : Type} `{NicLaws N}.
Implicit Types a b : net N.

Lemma rx_bytes_frame b old F off n :
  rx_frame b = splice old 0 F → zlen old = NET_FRAME_MAX → zlen F ≤ NET_FRAME_MAX →
  0 ≤ off → 0 ≤ n → off + n ≤ zlen F → rx_bytes off n b = Ret (sub F off n, b).
Proof.
  intros Hf Ho HF H0' H1' H2'. unfold rx_bytes. rewrite Hf, zlen_splice by lia.
  test_true (0 <=? off). test_true (off + n <=? zlen old). cbn [andb]. by rewrite sub_splice_inside.
Qed.

(** The Ethernet header. *)
Definition eth_head (dst_mac src_mac : list Z) : list Z :=
  take 6 dst_mac ++ take 6 src_mac ++ [u8 (Z.shiftr ETHERTYPE_IP 8); u8 (Z.land ETHERTYPE_IP 0xff)].

Lemma eth_head_type dm sm : zlen dm = 6 → zlen sm = 6 → zlen (eth_head dm sm) = 14 ∧ ntohs16 (get16 (eth_head dm sm) 12) = ETHERTYPE_IP.
Proof.
  intros Hd Hs. assert (zlen (take 6 dm ++ take 6 sm) = 12) as Hl by (rewrite zlen_app; unfold zlen in *; rewrite !length_take; lia).
  unfold eth_head. rewrite app_assoc. split; [rewrite zlen_app, Hl; done|].
  unfold get16. rewrite !cget_app_r, Hl by lia. done.
Qed.

(** The frame as its four parts. *)
Lemma tcp_frame_parts dm sm src dst sport dport seq ack flags data :
  ∃ ic tc, tcp_frame dm sm src dst sport dport seq ack flags data
           = eth_head dm sm ++ ip_header (40 + zlen data) IP_PROTO_TCP src dst ic ++ tcp_head sport dport seq ack flags tc ++ data.
Proof.
  unfold tcp_frame, ip_packet, tcp_segment. set (tc := htons16 _).
  assert (zlen (tcp_seg sport dport seq ack flags tc data) = 20 + zlen data) as Hl.
  { rewrite tcp_seg_head, zlen_app. done. }
  rewrite Hl. replace (20 + (20 + zlen data)) with (40 + zlen data) by lia. set (ic := csum16 _). exists ic, tc.
  unfold eth_head. by rewrite <- !app_assoc, tcp_seg_head.
Qed.

(** What an established connection does with a data segment. *)
Definition received (b : net N) (seq : Z) (data : list Z) : net N :=
  with_tcp (set_rcv_nxt (u32 (seq + zlen data)) (tcp b))
    (with_rx (tcp_rx b ++ take (Z.to_nat (TCP_RX_SIZE - zlen (tcp_rx b))) data) b).

Lemma handle_data b old dm sm src dst sport dport seq ack data :
  let F := tcp_frame dm sm src dst sport dport seq ack (Z.lor TCP_ACK TCP_PSH) data in
  zlen dm = 6 → zlen sm = 6 → word_ok src → word_ok dst → port_ok sport → port_ok dport → word_ok seq → word_ok ack →
  0 < zlen data ≤ 1510 → rx_frame b = splice old 0 F → zlen old = NET_FRAME_MAX →
  active (tcp b) = true → tstate (tcp b) = 2 → remote_ip (tcp b) = src → remote_port (tcp b) = sport → local_port (tcp b) = dport →
  ∃ n', handle_frame (zlen F) b = Ret (tt, with_nic n' (received b seq data)).
Proof.
  intros F Hdm Hsm Hsrc Hdst Hsp Hdp Hseq Hack Hlen Hrx Hold Hact Hst Hrip Hrp Hlp.
  destruct (tcp_frame_parts dm sm src dst sport dport seq ack (Z.lor TCP_ACK TCP_PSH) data) as (ic & tc & EF). fold F in EF.
  destruct (eth_head_type dm sm Hdm Hsm) as [HzE HtE].
  destruct (ip_head_fields (40 + zlen data) IP_PROTO_TCP src dst ic ltac:(unfold port_ok; lia) Hsrc Hdst) as (HzI & HI0 & HI2 & HI9 & HI12).
  destruct (tcp_head_fields sport dport seq ack (Z.lor TCP_ACK TCP_PSH) tc Hsp Hdp Hseq Hack) as (HzT & HT0 & HT2 & HT4 & HT12 & HT13).
  set (I := ip_header _ _ _ _ _) in *. set (T := tcp_head _ _ _ _ _ _) in *. set (E := eth_head dm sm) in *.
  assert (zlen F = 54 + zlen data) as HzF by (rewrite EF, !zlen_app; lia).
  assert (zlen F ≤ NET_FRAME_MAX) as HF by (unfold NET_FRAME_MAX, NET_MTU; lia).
  assert (sub F 0 14 = E) as S1 by (rewrite EF; by apply sub_app_take).
  assert (sub F 14 20 = I) as S2 by (rewrite EF, sub_app_skip, HzE by lia; by apply sub_app_take).
  assert (sub F 34 20 = T) as S3.
  { rewrite EF, !sub_app_skip, HzE, HzI by lia. by apply sub_app_take. }
  assert (sub F 54 (zlen data) = data) as S4.
  { rewrite EF, !sub_app_skip, HzE, HzI, HzT by lia. by apply sub_all. }
  unfold handle_frame. test_false (zlen F <? 14).
  rewrite (bind_ret _ _ _ E b) by (rewrite <- S1; apply (rx_bytes_frame b old F); (done || lia)). rewrite HtE. simpl (ETHERTYPE_IP =? _).
  test_true (34 <=? zlen F). cbn [andb].
  rewrite (bind_ret _ _ _ I b) by (rewrite <- S2; apply (rx_bytes_frame b old F); (done || lia)). cbv zeta. rewrite HI2, HI9.
  simpl (IP_PROTO_TCP =? _). cbn iota. replace (Z.min (40 + zlen data) (zlen F - 14)) with (40 + zlen data) by lia.
  unfold tcp_handle. rewrite bind_gets, Hact. test_false (40 + zlen data <? 20). cbn [negb orb].
  rewrite (bind_ret _ _ _ I b) by (rewrite <- S2; apply (rx_bytes_frame b old F); (done || lia)). cbv zeta. rewrite HI0.
  change (Z.land 69 15 * 4) with 20. change (20 <? 20) with false. test_false (40 + zlen data <? 20 + 20). cbn [orb].
  change (14 + 20) with 34.
  rewrite (bind_ret _ _ _ T b) by (rewrite <- S3; apply (rx_bytes_frame b old F); (done || lia)).
  rewrite HI12, HT0, HT2, HT4, HT12, HT13, Hrip, Hrp, Hlp, !Z.eqb_refl. cbn [negb orb].
  change (has TCP_RST (Z.lor TCP_ACK TCP_PSH)) with false. change (has TCP_SYN (Z.lor TCP_ACK TCP_PSH)) with false.
  change (has TCP_ACK (Z.lor TCP_ACK TCP_PSH)) with true. change (has TCP_FIN (Z.lor TCP_ACK TCP_PSH)) with false. cbn iota.
  rewrite Hst. change (true && (2 =? 1)) with false. cbn iota. rewrite (bind_ret (ret tt) _ b tt b) by done.
  change (Z.shiftr 80 4 * 4) with 20. replace (40 + zlen data - 20 - 20) with (zlen data) by lia. test_true (0 <? zlen data).
  change (34 + 20) with 54. unfold bind at 1.
  rewrite (bind_ret _ _ _ data b) by (rewrite <- S4 at 2; apply (rx_bytes_frame b old F); (done || lia)).
  unfold tcp_rx_append, upd_tcp. rewrite !bind_modify.
  destruct (tcp_reply_only (N:=N) TCP_ACK [] (received b seq data)) as (x & n' & Er).
  exists n'. unfold received in Er. rewrite (bind_ret _ _ _ _ _ Er). done.
Qed.

(** [C17] TCP data arrives: the frame that [tcp_send_data] gives to the card of one
    stack, received by a stack whose connection is the mirror image, appends
    exactly the data to the receive buffer (as far as it has room), advances the
    receiver's sequence number to the sender's new one and changes nothing else. *)
Theorem tcp_delivery a b mac data old :
  let t := tcp a in
  let F := tcp_frame mac (virtio_net_mac (nic a)) (our_ip a) (remote_ip t) (local_port t) (remote_port t)
             (snd_nxt t) (rcv_nxt t) (Z.lor TCP_ACK TCP_PSH) data in
  net_wf a → net_wf b → 0 < zlen data ≤ 1510 →
  active t = true → tstate t = 2 → word_ok (remote_ip t) → port_ok (local_port t) → port_ok (remote_port t) →
  virtio_net_ready (nic a) = true → route a (remote_ip t) = Some mac → zlen mac = 6 → 0 ≤ (virtio_net_send_frame F (nic a)).1 →
  active (tcp b) = true → tstate (tcp b) = 2 → remote_ip (tcp b) = our_ip a →
  remote_port (tcp b) = local_port t → local_port (tcp b) = remote_port t →
  rx_frame b = splice old 0 F → zlen old = NET_FRAME_MAX →
  ∃ a' n', tcp_send_data data a = Ret (zlen data, a')
    ∧ nic a' = (virtio_net_send_frame F (nic a)).2
    ∧ handle_frame (zlen F) b = Ret (tt, with_nic n' (received b (snd_nxt t) data))
    ∧ rcv_nxt (tcp (received b (snd_nxt t) data)) = snd_nxt (tcp a').
Proof.
  intros t F Ha Hb Hlen Hact Hst Hrip Hlp Hrp Hready Hroute Hmac Hsend Hbact Hbst Hbip Hbrp Hblp Hrx Hold.
  destruct (nw_conn a Ha) as [_ Hsnd Hrcv _]. destruct (nic_mac (nic a)) as [Hm _].
  destruct (handle_data b old mac (virtio_net_mac (nic a)) (our_ip a) (remote_ip t) (local_port t) (remote_port t)
    (snd_nxt t) (rcv_nxt t) data Hmac Hm (nw_ip a Ha) Hrip Hlp Hrp Hsnd Hrcv Hlen Hrx Hold Hbact Hbst Hbip Hbrp Hblp) as (n' & Eh).
  assert (tcp_reply (Z.lor TCP_ACK TCP_PSH) data a = Ret ((virtio_net_send_frame F (nic a)).1, with_nic (virtio_net_send_frame F (nic a)).2 a)) as Er.
  { unfold tcp_reply, tcp_send_raw. rewrite bind_gets. fold t. unfold NET_FRAME_MAX, NET_MTU.
    test_false (1500 + 64 <? 20 + zlen data). rewrite bind_gets, bind_fits by lia. unfold ip_send. set (seg := tcp_segment _ _ _ _ _ _ _ _).
    assert (zlen seg = 20 + zlen data) as Hseg by (unfold seg, tcp_segment; rewrite tcp_seg_head, zlen_app; done).
    unfold NET_FRAME_MAX, NET_MTU. test_false (1500 + 64 <? 20 + zlen seg). rewrite bind_gets, Hroute, bind_gets, bind_fits by lia. unfold eth_send.
    rewrite bind_gets, Hready. set (ipp := ip_packet _ _ _ _).
    assert (zlen ipp = 40 + zlen data) as Hipp.
    { unfold ipp, ip_packet. rewrite zlen_app, Hseg.
      change (zlen (ip_header _ _ _ _ _)) with 20. lia. }
    unfold NET_FRAME_MAX, NET_MTU. test_false (1500 + 64 <? zlen ipp + 14). cbn [negb orb]. rewrite bind_gets, bind_fits by lia. unfold zoom, act.
    change (take 6 mac ++ _) with F. by destruct (virtio_net_send_frame F (nic a)). }
  eexists _, n'. split; [|split; [|split; [exact Eh|]]].
  - unfold tcp_send_data. rewrite bind_gets. fold t. rewrite Hact, Hst. cbn [negb orb Z.eqb Pos.eqb].
    rewrite (bind_ret _ _ _ _ _ Er). test_false ((virtio_net_send_frame F (nic a)).1 <? 0). reflexivity.
  - done.
  - done.
Qed.

End delivery.

(** ** Example: two stacks on one wire *)

Definition peer_mac_addr : list Z := [0x52; 0x55; 10; 0; 2; 2].

(** An open connection between two addresses of the local network. *)
Definition open_stack (own peer lport rport snd rcv : Z) : net wire :=
  mk_net (mk_wire [] []) own NET_DNS_HOST (mk_arp peer_mac_addr true peer_mac_addr peer true)
    (replicate (Z.to_nat NET_FRAME_MAX) 0) (mk_tcp true peer rport lport 0x12345000 snd rcv 2) []
    (mk_dhcp true 0 (replicate 300 0)) (mk_dns 0 false false false None).

Definition stack_a : net wire := open_stack NET_IP_HOST 0x0a000214 49152 80 1000 2000.
Definition stack_b : net wire := open_stack 0x0a000214 NET_IP_HOST 80 49152 2000 1000.

Definition demo_frame : list Z :=
  tcp_frame peer_mac_addr wire_mac NET_IP_HOST 0x0a000214 49152 80 1000 2000 (Z.lor TCP_ACK TCP_PSH) (str "hello").

Lemma open_stack_wf own peer lport rport snd rcv :
  word_ok own → word_ok snd → word_ok rcv → net_wf (open_stack own peer lport rport snd rcv).
Proof.
  intros. split; try done; [split; [done|by apply Forall_replicate]|]. split; try done. by right.
Qed.

Lemma tcp_delivery_witness :
  ∃ a' b', tcp_send_data (str "hello") stack_a = Ret (5, a') ∧ sent (nic a') = [demo_frame]
    ∧ handle_frame (zlen demo_frame) (with_frame (splice (rx_frame stack_b) 0 demo_frame) stack_b) = Ret (tt, b')
    ∧ tcp_rx b' = str "hello".
Proof.
  assert (net_wf stack_a) as Ha by (apply open_stack_wf; done).
  assert (net_wf (with_frame (splice (rx_frame stack_b) 0 demo_frame) stack_b)) as Hb.
  { assert (net_wf stack_b) as [[? ?] ? ? ? ? ? ? ?] by (apply open_stack_wf; done). split; try done. split; [done|].
    apply splice_bytes; [done|]. apply (bool_decide_unpack _). by vm_compute. }
  destruct (tcp_delivery stack_a (with_frame (splice (rx_frame stack_b) 0 demo_frame) stack_b) peer_mac_addr (str "hello") (rx_frame stack_b)
    Ha Hb) as (a' & n' & E1 & E2 & E3 & _);
    [by vm_compute|reflexivity|reflexivity|by vm_compute|by vm_compute|by vm_compute|reflexivity|reflexivity|reflexivity|by vm_compute
    |reflexivity|reflexivity|reflexivity|reflexivity|reflexivity|reflexivity|by vm_compute|].
  exists a', (with_nic n' (received (with_frame (splice (rx_frame stack_b) 0 demo_frame) stack_b) 1000 (str "hello"))).
  split; [exact E1|]. split; [rewrite E2; reflexivity|]. split; [exact E3|reflexivity].
Defined.

(** ** A frame that fills the receive buffer *)

(** A DHCP packet whose last option ends with the frame. *)
Definition long_frame : list Z :=
  let put (l : list Z) (x : Z * list Z) := splice l x.1 x.2 in
  foldl put (replicate (Z.to_nat NET_FRAME_MAX) 0)
    [(12, [0x08; 0x00; 0x45; 0]); (16, [1550 / 256; 1550 mod 256]); (23, [17]); (34, [0; 67; 0; 68; 1530 / 256; 1530 mod 256]);
     (42, [2]); (48, [0x12; 0x34]); (42 + 236, [1; 255]); (42 + 493, [1; 255]); (42 + 750, [1; 255]); (42 + 1007, [1; 255]);
     (42 + 1264, [1; 254]); (42 + 1520, [53; 1])].

(** The scan of the DHCP options reads the value of an option without comparing
    its position with the length, so a frame as long as the buffer makes it read one
    byte past the buffer. *)
Theorem long_frame_overruns : zlen long_frame = NET_FRAME_MAX ∧ handle_frame NET_FRAME_MAX (with_frame long_frame stack_a) = Undef.
Proof. split; vm_compute; reflexivity. Qed.

(** ** DHCP *)

(** A server's answer in the standard layout is not understood: the scan of the
    options starts at offset 236, where the four bytes of the magic cookie are, and
    takes the cookie for an option of 130 bytes.  Whatever a packet of at most 369
    bytes with the cookie carries after it (message types included), handling it
    changes nothing. *)
Theorem dhcp_standard_ignored {N} `{Nic N} (s : net N) base len :
  0 ≤ base → len ≤ 369 → base + len ≤ zlen (rx_frame s) → bytes_ok (rx_frame s) →
  rx_frame s !! Z.to_nat (base + 236) = Some 99 → rx_frame s !! Z.to_nat (base + 237) = Some 130 →
  dhcp_handle base len s = Ret (tt, s).
Proof.
  intros Hb Hl Hz Hok H99 H130. unfold dhcp_handle. destruct (Z.ltb_spec len 240); [done|].
  rewrite (bind_ret _ _ s (sub (rx_frame s) base 20) s).
  2: { unfold rx_bytes. test_true (0 <=? base). by test_true (base + 20 <=? zlen (rx_frame s)). }
  case_test; [done|]. case_test; [done|].
  rewrite (bind_ret _ _ s 0 s); [done|].
  replace (Z.to_nat len) with (S (S (Z.to_nat (len - 2)))) by lia. cbn [dhcp_options].
  test_true (236 + 1 <? len). cbn [negb]. unfold bind at 1, rx_byte at 1. rewrite H99. test_false (base + 236 <? 0).
  change (99 =? 255) with false. cbn iota. unfold bind at 1, rx_byte at 1.
  replace (base + 236 + 1) with (base + 237) by lia. rewrite H130. test_false (base + 237 <? 0).
  change ((99 =? 53) && (1 <=? 130)) with false. cbn iota. rewrite (bind_ret (ret 0) _ s 0 s) by done.
  change (130 =? 0) with false. cbn iota. by test_false (236 + 2 + 130 + 1 <? len).
Qed.

Lemma sub_splice_before (l d : list Z) off off2 n :
  0 ≤ off → 0 ≤ n → off + n ≤ off2 → off2 ≤ zlen l → sub (splice l off2 d) off n = sub l off n.
Proof.
  intros. unfold sub, splice, zlen in *. rewrite drop_app_le, take_app_le by (rewrite ?length_drop, ?length_take; lia).
  rewrite skipn_firstn_comm, take_take. f_equal. lia.
Qed.

Lemma sub_splice_at (l d : list Z) off n :
  0 ≤ off ≤ zlen l → 0 ≤ n ≤ zlen d → sub (splice l off d) off n = take (Z.to_nat n) d.
Proof.
  intros. unfold sub, splice, zlen in *. rewrite drop_app_length' by (rewrite length_take; lia). by rewrite take_app_le by lia.
Qed.

(** The messages sent have the hardware address and the cookie eight bytes early:
    at 20 and 228 instead of 28 and 236, where [dhcp_handle] and the protocol have
    them; the request has its cookie at 232. *)
Theorem dhcp_messages_shifted mac pkt ip :
  zlen mac = 6 → zlen pkt = 300 →
  sub (dhcp_discover_pkt mac pkt).1 20 6 = mac ∧ sub (dhcp_discover_pkt mac pkt).1 228 4 = [99; 130; 83; 99]
  ∧ sub (dhcp_request_pkt mac pkt ip).1 232 4 = [99; 130; 83; 99] ∧ (dhcp_discover_pkt mac pkt).2 = 236.
Proof.
  intros Hm Hp. assert (take 6 mac = mac) as Ht by (apply take_ge; unfold zlen in Hm; lia).
  assert (zlen (splice pkt 0 [1; 1; 6; 0; u8 (Z.shiftr dhcp_xid 24); u8 (Z.shiftr dhcp_xid 16); u8 (Z.shiftr dhcp_xid 8); u8 dhcp_xid]) = 300) as H1.
  { rewrite zlen_splice; [done|lia|]. rewrite Hp. unfold zlen. simpl. lia. }
  assert (zlen (dhcp_start mac pkt) = 300) as Hs by (unfold dhcp_start; rewrite zlen_splice; rewrite ?Ht, ?H1; lia).
  assert (∀ d off, 20 + 6 ≤ off ≤ 300 → sub (splice (dhcp_start mac pkt) off d) 20 6 = mac) as Hmac.
  { intros d off Ho. rewrite sub_splice_before by lia. unfold dhcp_start. rewrite Ht, sub_splice_at by lia.
    apply take_ge. unfold zlen in Hm. lia. }
  assert (∀ d off l, zlen l = 300 → 0 ≤ off ≤ 300 → sub (splice l off ([99; 130; 83; 99] ++ d)) off 4 = [99; 130; 83; 99]) as Hc.
  { intros d off l Hl Ho. rewrite sub_splice_at; [done|lia|]. rewrite zlen_app. pose proof (zlen_nonneg d). change (zlen [99; 130; 83; 99]) with 4. lia. }
  split; [by apply Hmac|]. split; [by apply Hc|]. split; [|done].
  apply Hc; [|lia]. rewrite zlen_splice; [done|lia|]. rewrite Hs. unfold zlen, write_be32. simpl. lia.
Qed.

(** ** FIN and repeated segments *)

Section departures.
Context {N : Type} `{NicLaws N}.
Implicit Types b : net N.

(** Any reset of the connection drops what was received and not yet read. *)
Lemma tcp_reset_drops b : ∃ b', tcp_reset b = Ret (tt, b') ∧ tcp_rx b' = [] ∧ active (tcp b') = false.
Proof. eexists. split; [reflexivity|done]. Qed.

(** A FIN discards unread data: the segment handler ends with a reset, so after any
    segment with the FIN flag (and no RST or SYN) for the open connection the
    receive buffer is empty, also of the data of that very segment. *)
Theorem tcp_fin_discards b base iplen ip th :
  net_wf b → active (tcp b) = true → 0 ≤ base → base + iplen ≤ NET_FRAME_MAX →
  rx_bytes base 20 b = Ret (ip, b) → 20 ≤ Z.land (cget ip 0) 15 * 4 → Z.land (cget ip 0) 15 * 4 + 20 ≤ iplen →
  rx_bytes (base + Z.land (cget ip 0) 15 * 4) 20 b = Ret (th, b) →
  read_be32 ip 12 = remote_ip (tcp b) → ntohs16 (get16 th 0) = remote_port (tcp b) → ntohs16 (get16 th 2) = local_port (tcp b) →
  has TCP_RST (cget th 13) = false → has TCP_SYN (cget th 13) = false → has TCP_FIN (cget th 13) = true →
  ∃ b', tcp_handle base iplen b = Ret (tt, b') ∧ tcp_rx b' = [] ∧ active (tcp b') = false.
Proof.
  intros Hw Ha Hb Hl Eip Hi1 Hi2 Eth E1 E2 E3 Hrst Hsyn Hfin. destruct (tcp_handle_safe base iplen Hb Hl b Hw) as ([] & b' & E & _).
  exists b'. split; [done|]. revert E. unfold tcp_handle. rewrite bind_gets, Ha. test_false (iplen <? 20). cbn [negb orb].
  rewrite (bind_ret _ _ _ _ _ Eip). cbv zeta. set (ihl := Z.land (cget ip 0) 15 * 4) in *.
  test_false (ihl <? 20). test_false (iplen <? ihl + 20). cbn [orb]. rewrite (bind_ret _ _ _ _ _ Eth).
  rewrite E1, E2, E3, !Z.eqb_refl, Hrst, Hsyn, Hfin. cbn [negb orb].
  do 4 (unfold bind at 1; match goal with |- match ?m with _ => _ end = _ → _ => destruct m as [[? ?]| |]; [|done..] end).
  match goal with |- tcp_reset ?b4 = _ → _ => destruct (tcp_reset_drops b4) as (b5 & -> & ? & ?) end. by intros [= <-].
Qed.

(** A repeated segment is delivered again: the sequence number of a segment is not
    compared with the expected one, so the same data arriving twice is received
    twice. *)
Theorem tcp_repeats_delivered b old dm sm src dst sport dport seq ack data :
  let F := tcp_frame dm sm src dst sport dport seq ack (Z.lor TCP_ACK TCP_PSH) data in
  zlen dm = 6 → zlen sm = 6 → word_ok src → word_ok dst → port_ok sport → port_ok dport → word_ok seq → word_ok ack →
  0 < zlen data ≤ 1510 → rx_frame b = splice old 0 F → zlen old = NET_FRAME_MAX →
  active (tcp b) = true → tstate (tcp b) = 2 → remote_ip (tcp b) = src → remote_port (tcp b) = sport → local_port (tcp b) = dport →
  zlen (tcp_rx b) + 2 * zlen data ≤ TCP_RX_SIZE →
  ∃ b', (handle_frame (zlen F) ;; handle_frame (zlen F)) b = Ret (tt, b') ∧ tcp_rx b' = tcp_rx b ++ data ++ data.
Proof.
  intros F Hdm Hsm Hsrc Hdst Hsp Hdp Hseq Hack Hlen Hrx Hold Hact Hst Hrip Hrp Hlp Hroom.
  destruct (handle_data b old dm sm src dst sport dport seq ack data) as (n1 & E1); try done. fold F in E1.
  rewrite (bind_ret _ _ _ _ _ E1).
  destruct (handle_data (with_nic n1 (received b seq data)) old dm sm src dst sport dport seq ack data) as (n2 & E2); try done.
  fold F in E2. eexists. split; [exact E2|]. cbn. unfold zlen in *.
  rewrite !(take_ge data) by (rewrite ?length_app, ?length_take; lia). by rewrite app_assoc.
Qed.

End departures.

(** An offer in the standard layout, with its message type right after the cookie. *)
Definition offer_frame : list Z :=
  foldl (λ l x, splice l x.1 x.2) (replicate (Z.to_nat NET_FRAME_MAX) 0)
    [(42, [2; 1; 6; 0; 0; 0; 0x12; 0x34]); (42 + 16, [10; 0; 2; 15]); (42 + 236, [99; 130; 83; 99; 53; 1; 2; 255])].

Lemma dhcp_standard_ignored_witness :
  dhcp_handle 42 300 (with_frame offer_frame stack_a) = Ret (tt, with_frame offer_frame stack_a).
Proof.
  apply dhcp_standard_ignored; [lia|lia|by vm_compute| |by vm_compute|by vm_compute].
  apply (bool_decide_unpack _). by vm_compute.
Defined.

(** The last segment of a response: data with FIN. *)
Definition fin_frame : list Z :=
  splice (replicate (Z.to_nat NET_FRAME_MAX) 0) 0
    (tcp_frame peer_mac_addr wire_mac NET_IP_HOST 0x0a000214 49152 80 1000 2000 (Z.lor TCP_ACK TCP_FIN) (str "hello")).

Lemma tcp_fin_discards_witness :
  ∃ b', tcp_handle 14 45 (with_frame fin_frame stack_b) = Ret (tt, b') ∧ tcp_rx b' = [].
Proof.
  assert (net_wf (with_frame fin_frame stack_b)) as Hb.
  { assert (net_wf stack_b) as [[? ?] ? ? ? ? ? ? ?] by (apply open_stack_wf; done). split; try done. split; [done|].
    apply (bool_decide_unpack _). by vm_compute. }
  destruct (tcp_fin_discards (with_frame fin_frame stack_b) 14 45 (sub fin_frame 14 20) (sub fin_frame 34 20) Hb)
    as (b' & E & Hrx & _); [reflexivity|lia|by vm_compute|by vm_compute|by vm_compute|by vm_compute|by vm_compute|by vm_compute
    |by vm_compute|by vm_compute|by vm_compute|by vm_compute|by vm_compute|].
  exists b'. split; [exact E|exact Hrx].
Defined.
