(* ===== verification/Board.v ===== *)
(** * The board: devices and service state behind the gateway

    The devices that the services of the kernel use, as one record that takes the
    place of the disk in the kernel's state: the disk itself, the network stack
    (Net.v), the peripherals reached through drivers (the class [Peripherals]:
    the virtio console, the screen and the keyboard), the serial line
    (kernel/uart.c), and the static variables of remote.c and llm.c.

    [uart_in] lists what the successive reads of the line status find: a received
    character, or nothing.  The two loops that wait for the transmitter are not
    modelled; characters sent are appended to the kernel's [uart_out]. *)

From S2P Require Import Prelude Abi Ipc Ramfs Persist Quota Policy AgentDef Mem Vm VmTree VmProps Kernel Uaccess Sched Agent Net.

(** The drivers' interfaces (kernel/virtio.h, virtio_gpu.h, virtio_input.h).
    [virtio_llm_stream] gives the result, the response and the pieces passed to its
    callback in order. *)
Class Peripherals (P : Type) := {
  virtio_console_init : P → Z * P;
  virtio_http_exchange : list Z → Z → M P (Z * list Z);
  virtio_llm_stream : list Z → Z → M P (Z * list Z * list (list Z));
  virtio_gpu_ready : P → bool;
  virtio_gpu_clear : Z → M P unit;
  virtio_gpu_flush : P → Z * P;
  virtio_gpu_draw_text : Z → Z → list Z → Z → Z → M P unit;
  virtio_input_ready : P → bool;
  virtio_input_poll : P → (Z * (Z * Z * Z)) * P
}.

(** The build options that select between variants of the services. *)
Record config := mk_config {
  HTTP_FAUX : bool;
  HTTP_NO_BRIDGE : bool;
  LLM_FAUX : bool;
  LLM_NATIVE_NET : bool
}.

Record board (B N P : Type) := mk_board {
  bdisk : B;
  bnet : net N;
  bper : P;
  uart_in : list (option Z);
  csr_time : Z;
  hart_ticks : list Z;
  remote_enabled : bool;
  llm_stream_buf : list Z
}.
Arguments mk_board {B N P}. Arguments bdisk {B N P}. Arguments bnet {B N P}. Arguments bper {B N P}.
Arguments uart_in {B N P}. Arguments csr_time {B N P}. Arguments hart_ticks {B N P}.
Arguments remote_enabled {B N P}. Arguments llm_stream_buf {B N P}.

(** The disk of a board. *)
Section board.
Context {B N P : Type}.
Abbreviation board := (board B N P).

Definition with_bdisk (x : B) (b : board) : board :=
  mk_board x (bnet b) (bper b) (uart_in b) (csr_time b) (hart_ticks b) (remote_enabled b) (llm_stream_buf b).
Definition with_bnet (x : net N) (b : board) : board :=
  mk_board (bdisk b) x (bper b) (uart_in b) (csr_time b) (hart_ticks b) (remote_enabled b) (llm_stream_buf b).
Definition with_bper (x : P) (b : board) : board :=
  mk_board (bdisk b) (bnet b) x (uart_in b) (csr_time b) (hart_ticks b) (remote_enabled b) (llm_stream_buf b).
Definition with_uart_in (x : list (option Z)) (b : board) : board :=
  mk_board (bdisk b) (bnet b) (bper b) x (csr_time b) (hart_ticks b) (remote_enabled b) (llm_stream_buf b).
Definition with_remote (x : bool) (b : board) : board :=
  mk_board (bdisk b) (bnet b) (bper b) (uart_in b) (csr_time b) (hart_ticks b) x (llm_stream_buf b).
Definition with_llm (x : list Z) (b : board) : board :=
  mk_board (bdisk b) (bnet b) (bper b) (uart_in b) (csr_time b) (hart_ticks b) (remote_enabled b) x.

#[export] Instance board_disk `{BlockDevice B} : BlockDevice board := {
  blk_read b s := blk_read (bdisk b) s;
  blk_write b s buf := (λ d, with_bdisk d b) <$> blk_write (bdisk b) s buf;
  blk_sectors b := blk_sectors (bdisk b)
}.

#[export] Instance board_disk_laws `{BlockDeviceLaws B} : BlockDeviceLaws board.
Proof.
  split; [intros b; apply (blk_read_len (bdisk b))|].
  intros b s buf Hs Hl. destruct (blk_write_ok (bdisk b) s buf Hs Hl) as (d & E & Hn & Hr & Ho).
  exists (with_bdisk d b). simpl. by rewrite E.
Qed.

Abbreviation kstate := (kstate board).

(** Operations of the network and of the peripherals inside the kernel. *)
Definition onboard {A} (m : M board A) : M kstate A := zoom kdisk with_disk m.
Definition onnet {A} (m : M (net N) A) : M kstate A := onboard (zoom bnet with_bnet m).
Definition onper {A} (m : M P A) : M kstate A := onboard (zoom bper with_bper m).

(** ** The serial line (kernel/uart.c) *)

Definition uart_putc (c : Z) : M kstate unit := uart_put [c].

Definition uart_poll_char : M kstate (option Z) :=
  onboard (λ b, match uart_in b with
                | [] => Ret (None, b)
                | o :: rest => Ret (o, with_uart_in rest b)
                end).

(** The loop of [uart_getline] on what the line delivers: the text so far, the
    echo so far.  When nothing arrives any more the loop waits for ever. *)
Fixpoint getline_loop (inp : list (option Z)) (maxlen : Z) (line echo : list Z)
    : option (list Z * list Z * list (option Z)) :=
  if negb (zlen line <? maxlen - 1) then Some (line, echo, inp)
  else match inp with
       | [] => None
       | None :: inp' => getline_loop inp' maxlen line echo
       | Some c :: inp' =>
           if (c =? 13) || (c =? 10) then Some (line, echo ++ [10], inp')
           else if (c =? 127) || (c =? 8) then
             if 0 <? zlen line
             then getline_loop inp' maxlen (take (length line - 1) line) (echo ++ [8; 32; 8])
             else getline_loop inp' maxlen line echo
           else getline_loop inp' maxlen (line ++ [c]) (echo ++ [c])
       end.

(** The result and the text; the hart makes no further step ([Halt]) while it
    waits for a character that never comes. *)
Definition uart_getline (maxlen : Z) : M kstate (Z * list Z) :=
  if maxlen <=? 0 then ret (EINVAL, [])
  else
    let! inp := gets (λ s, uart_in (kdisk s)) in
    match getline_loop inp maxlen [] [] with
    | None => halt
    | Some (line, echo, rest) =>
        onboard (modify (with_uart_in rest)) ;; uart_put echo ;; ret (zlen line, line)
    end.

End board.

(** ** Line editing *)

(** What a line of keys leaves: an ordinary key adds a character, a backspace
    removes the last one. *)
Definition is_end (c : Z) : bool := (c =? 13) || (c =? 10).
Definition is_bs (c : Z) : bool := (c =? 127) || (c =? 8).

Definition key (line : list Z) (c : Z) : list Z :=
  if is_bs c then take (length line - 1) line else line ++ [c].

Definition edit (keys : list Z) : list Z := foldl key [] keys.

(** The characters among what the line delivers. *)
Definition typed (inp : list (option Z)) : list Z := omap (λ o, o) inp.

(** A terminal: the text of the line and the column of the cursor.  A backspace
    moves the cursor, another character is written at the cursor. *)
Definition term_put (t : list Z * nat) (c : Z) : list Z * nat :=
  let '(text, col) := t in
  if c =? 8 then (text, (col - 1)%nat)
  else (take col text ++ [c] ++ drop (S col) text, S col).

Definition term (out : list Z) : list Z * nat := foldl term_put ([], 0%nat) out.

(** The text on the line is [line] and then blanks, with the cursor after it. *)
Definition shows (t : list Z * nat) (line : list Z) : Prop :=
  t.2 = length line ∧ ∃ n, t.1 = line ++ replicate n 32.

Lemma term_app a b : term (a ++ b) = foldl term_put (term a) b.
Proof. apply foldl_app. Qed.

Lemma shows_char t line c : c ≠ 8 → shows t line → shows (term_put t c) (line ++ [c]).
Proof.
  destruct t as [text col]. intros Hc [E [n Et]]. simpl in *. subst. destruct (Z.eqb_spec c 8); [done|].
  split; [simpl; rewrite length_app; simpl; lia|]. exists (n - 1)%nat. simpl.
  rewrite take_app_length, drop_app_ge by lia. replace (S (length line) - length line)%nat with 1%nat by lia.
  rewrite drop_replicate, <- app_assoc. done.
Qed.

Lemma shows_erase t line :
  0 < zlen line → shows t line → shows (foldl term_put t [8; 32; 8]) (take (length line - 1) line).
Proof.
  destruct t as [text col]. intros Hl [E [n Et]]. simpl in *. subst col text. unfold shows. cbn [fst snd].
  rewrite length_take. split; [unfold zlen in Hl; lia|]. exists (S n).
  unfold zlen in Hl. rewrite take_app_le, drop_app_ge by lia.
  replace (S (length line - 1) - length line)%nat with 0%nat by lia. done.
Qed.

(** One line of input. *)
Lemma getline_line inp ks maxlen line echo rest c :
  typed inp = ks → Forall (λ k, is_end k = false) ks → is_end c = true → 0 < maxlen →
  (∀ n, zlen (foldl key line (take n ks)) < maxlen - 1) →
  ∃ echo', getline_loop (inp ++ Some c :: rest) maxlen line echo = Some (foldl key line ks, echo ++ echo' ++ [10], rest)
    ∧ ∀ t, shows t line → shows (foldl term_put t echo') (foldl key line ks).
Proof.
  intros <- Hks Hc Hm. revert line echo. induction inp as [|o inp IH]; intros line echo Hlen; cbn [app getline_loop typed].
  - specialize (Hlen 0%nat). simpl in Hlen. test_true (zlen line <? maxlen - 1). cbn [negb]. unfold is_end in Hc. rewrite Hc.
    exists []. done.
  - pose proof (Hlen 0%nat) as H0. simpl in H0. test_true (zlen line <? maxlen - 1). cbn [negb].
    destruct o as [k|]; cbn [typed omap list_omap option_bind] in *; [|by apply IH].
    apply Forall_cons in Hks as [Hk Hks]. unfold is_end in Hk. rewrite Hk.
    assert (∀ n, zlen (foldl key (key line k) (take n (typed inp))) < maxlen - 1) as Hlen'.
    { intros n. apply (Hlen (S n)). }
    unfold key in Hlen' at 2. unfold is_bs in Hlen'. fold (typed inp) in *. cbn [foldl].
    destruct ((k =? 127) || (k =? 8)) eqn:Hb.
    + destruct (Z.ltb_spec 0 (zlen line)) as [Hl|Hl].
      * destruct (IH Hks _ (echo ++ [8; 32; 8]) Hlen') as (e & E & Hs). exists ([8; 32; 8] ++ e).
        unfold key at 2 4. unfold is_bs. rewrite Hb. split; [rewrite E; by rewrite <- !app_assoc|].
        intros t Ht. rewrite foldl_app. apply Hs. by apply shows_erase.
      * assert (line = []) as -> by (destruct line; [done|unfold zlen in Hl; simpl in Hl; lia]).
        destruct (IH Hks _ echo Hlen') as (e & E & Hs). exists e. unfold key at 2 4. unfold is_bs. rewrite Hb. done.
    + destruct (IH Hks _ (echo ++ [k]) Hlen') as (e & E & Hs). exists ([k] ++ e).
      unfold key at 2 4. unfold is_bs. rewrite Hb. split; [rewrite E; by rewrite <- !app_assoc|].
      intros t Ht. rewrite foldl_app. apply Hs. apply shows_char; [|done]. apply orb_false_iff in Hb. lia.
Qed.

(** Reading a line: whatever pauses the sender makes, a line of keys that stays
    within the buffer gives the text that editing leaves (each backspace removes
    the last character, one on an empty line nothing), the echo makes a terminal
    show exactly that text with the cursor after it, and the input after the end of
    the line is left for the next call. *)
Theorem getline_edits {B N P} (s : kstate (board B N P)) inp c rest maxlen :
  uart_in (kdisk s) = inp ++ Some c :: rest → Forall (λ k, is_end k = false) (typed inp) → is_end c = true →
  (∀ n, zlen (edit (take n (typed inp))) < maxlen - 1) →
  ∃ echo, uart_getline maxlen s = Ret ((zlen (edit (typed inp)), edit (typed inp)),
            with_uart (uart_out s ++ echo ++ [10]) (with_disk (with_uart_in rest (kdisk s)) s))
    ∧ shows (term echo) (edit (typed inp)).
Proof.
  intros Hin Hks Hc Hlen. pose proof (Hlen 0%nat) as H0. change (zlen (edit (take 0 (typed inp)))) with 0 in H0.
  destruct (getline_line inp (typed inp) maxlen [] [] rest c eq_refl Hks Hc ltac:(lia) Hlen) as (e & E & Hs).
  exists e. split; [|apply Hs; split; [done|by exists 0%nat]].
  unfold uart_getline. test_false (maxlen <=? 0). rewrite bind_gets, Hin, E. simpl. by destruct s.
Qed.

(** The keys "hx", backspace, "i", return, with a pause. *)
Definition demo_board : board unit unit unit :=
  mk_board tt (net_start tt) tt [Some 104; None; Some 120; Some 127; Some 105; Some 13; Some 33] 0 [1; 0; 0; 0] false [].

Definition demo_kboard : kstate (board unit unit unit) :=
  mk_kstate [] 0 0 true [] [] 1 [] boot_vm zero_fs zero_quota zero_policy false demo_board [].

Lemma getline_edits_witness :
  ∃ echo s', uart_getline 80 demo_kboard = Ret ((2, str "hi"), s') ∧ shows (term echo) (str "hi").
Proof.
  destruct (getline_edits demo_kboard [Some 104; None; Some 120; Some 127; Some 105] 13 [Some 33] 80) as (e & E & Hs);
    [reflexivity|by repeat constructor|reflexivity| |eexists e, _; exact (conj E Hs)].
  intros n. do 5 (destruct n as [|n]; [reflexivity|]). destruct n; reflexivity.
Defined.
