(* ===== verification/Http.v ===== *)
(** * HTTP requests of agents (kernel/http.c and the tool of kernel/tool.c)

    A request goes to the network stack, then over the virtio console to a bridge
    on the host, or is answered by a stub, as the build options select.  Strings
    and buffers are values; a function that fills a buffer gives its result and the
    bytes written before the terminator. *)

From S2P Require Import Prelude Abi Ipc Ramfs Persist Quota Policy AgentDef Mem Vm VmTree VmProps Kernel Uaccess Sched Agent Tool NetWire Net NetProps Board.

Definition HTTP_MAX_URL : Z := 256.
Definition HTTP_MAX_BODY : Z := 512.

(** [needle] is not empty and ends before the first NUL. *)
Fixpoint url_contains (url needle : list Z) : bool :=
  match url with
  | [] => false
  | _ :: url' => if cmatch url 0 needle then true else url_contains url' needle
  end.

Definition http_faux (url : list Z) (buflen : Z) : Z * list Z :=
  if url_contains url (str "reject") then (EIO, [])
  else
    let body := if url_contains url (str "ingest") then str "200:ingest-ok"
                else if url_contains url (str "agentos") || url_contains url (str "stub/")
                then str "200:agentos-net-stub"
                else str "stub:200 ok" in
    if buflen <? zlen body + 1 then (EINVAL, []) else (zlen body, body).

Definition put_u32_be (v : Z) : list Z := [u8 (Z.shiftr v 24); u8 (Z.shiftr v 16); u8 (Z.shiftr v 8); u8 v].

Definition get_u32_be (l : list Z) (off : Z) : Z :=
  Z.lor (Z.lor (Z.lor (Z.shiftl (cget l off) 24) (Z.shiftl (cget l (off + 1)) 16)) (Z.shiftl (cget l (off + 2)) 8))
    (cget l (off + 3)).

(** The request sent to the bridge; a longer URL is cut. *)
Definition bridge_request (url : list Z) : list Z :=
  let u := take (Z.to_nat (HTTP_MAX_URL - 1)) url in
  str "HTTQ" ++ put_u32_be (zlen u) ++ u.

(** The answer of the bridge, [rc] bytes in [rx].  The sum of the length field is a
    32-bit one and the second comparison a signed one. *)
Definition bridge_answer (rc : Z) (rx : list Z) (buflen : Z) : outcome (Z * list Z) :=
  if rc <? 0 then Ret (rc, [])
  else if rc <? 8 then Ret (EIO, [])
  else if negb (cmatch rx 0 (str "HTTR")) then Ret (EIO, [])
  else
    let body_len := get_u32_be rx 4 in
    if (rc <? u32 (body_len + 8)) || (buflen <=? i32 body_len) then Ret (EIO, [])
    else if buflen <=? body_len then Undef  (* the copy leaves the buffer *)
    else Ret (body_len, sub rx 8 body_len).

Section http.
Context {B N P : Type} `{Nic N} `{Peripherals P} {L : Layout} (hart : Z) (cfg : config).
Context (dns_doh_resolve_a : option (list Z → Z → M (net N) (Z * Z))).
Abbreviation board := (board B N P).
Abbreviation kstate := (kstate board).

Definition http_bridge (url : list Z) (buflen : Z) : M board (Z * list Z) :=
  if buflen <=? 0 then ret (EINVAL, [])
  else if zlen url <=? 0 then ret (EINVAL, [])
  else
    let! rc := zoom bper with_bper (act virtio_console_init) in
    if negb (rc =? 0) then ret (rc, [])
    else
      let! r := zoom bper with_bper (virtio_http_exchange (bridge_request url) (HTTP_MAX_BODY + 16)) in
      match bridge_answer r.1 r.2 buflen with
      | Ret a => ret a
      | Undef => undef
      | Halt => halt
      end.

Definition http_native (url : list Z) (buflen : Z) : M board (Z * list Z) :=
  let! ready := gets (λ b, netstack_ready (bnet b)) in
  if negb ready then ret (ENODEV, [])
  else zoom bnet with_bnet (net_http_get dns_doh_resolve_a url buflen).

Definition agent_http_fetch (url : list Z) (buflen : Z) : M board (Z * list Z) :=
  if buflen <=? 0 then ret (EINVAL, [])
  else if HTTP_FAUX cfg then ret (http_faux url buflen)
  else
    let! r := http_native url buflen in
    if 0 <=? r.1 then ret r
    else if HTTP_NO_BRIDGE cfg then ret r
    else http_bridge url buflen.

Definition run_http (i arg0 arg1 arg2 : Z) : M kstate Z :=
  let buflen := i32 arg2 in
  if (arg0 =? 0) || (arg1 =? 0) || (buflen <=? 0) || (HTTP_MAX_BODY <? buflen) then ret EINVAL
  else
    let! ulen := user_strnlen hart (u64 arg0) (HTTP_MAX_URL - 1) in
    if ulen <=? 0 then ret EINVAL
    else
      let! t := copy_text hart arg0 ulen in
      match t with
      | None => ret EFAULT
      | Some url =>
          let! r := onboard (agent_http_fetch url HTTP_MAX_BODY) in
          if r.1 <? 0 then ret r.1
          else if buflen <=? r.1 then ret EINVAL
          else
            let! rc := copy_to_user hart (u64 arg1) (r.2 ++ [0]) (r.1 + 1) in
            if rc <? 0 then ret EFAULT else ret r.1
      end.

End http.

(** ** The bridge protocol *)

Lemma get_put_be v l : 0 ≤ v < 4294967296 → get_u32_be (put_u32_be v ++ l) 0 = v.
Proof.
  intros Hv. change (put_u32_be v) with (write_be32 v). change (get_u32_be (write_be32 v ++ l) 0) with (read_be32 (write_be32 v ++ l) 0).
  rewrite write_be32_spec by done. destruct (bytes_of_32 v Hv) as [E ?].
  rewrite read_be32_spec; cbn [app]; [unfold cget; simpl; lia|].
  intros k Hk. assert (k = 0 ∨ k = 1 ∨ k = 2 ∨ k = 3) as [->|[->|[->| ->]]] by lia; unfold cget, byte_ok; simpl;
    [done|apply Z.mod_pos_bound; lia..].
Qed.

Lemma cget_app_skip (a l : list Z) k : 0 ≤ k → cget (a ++ l) (zlen a + k) = cget l k.
Proof. intros. unfold cget, zlen. rewrite app_nth2 by lia. f_equal. lia. Qed.

Lemma get_be_skip (a l : list Z) : get_u32_be (a ++ l) (zlen a) = get_u32_be l 0.
Proof.
  unfold get_u32_be. rewrite <- (cget_app_skip a l 0), <- (cget_app_skip a l (0 + 1)), <- (cget_app_skip a l (0 + 2)),
    <- (cget_app_skip a l (0 + 3)) by lia. by rewrite !Z.add_0_r.
Qed.

Section bridge.
Context {B N P : Type} `{Nic N} `{Peripherals P}.
Implicit Types (b : board B N P).

(** What the bridge hands over, as a function of its reply. *)
Lemma http_bridge_run b url buflen p1 rc rx p2 :
  0 < buflen → url ≠ [] → virtio_console_init (bper b) = (0, p1) →
  virtio_http_exchange (bridge_request url) (HTTP_MAX_BODY + 16) p1 = Ret ((rc, rx), p2) →
  http_bridge url buflen b =
    match bridge_answer rc rx buflen with Ret a => Ret (a, with_bper p2 b) | Undef => Undef | Halt => Halt end.
Proof.
  intros Hb Hu Hi Hx. unfold http_bridge. test_false (buflen <=? 0).
  assert (0 < zlen url) by (destruct url; [done|unfold zlen; simpl; lia]). test_false (zlen url <=? 0).
  unfold bind at 1, zoom at 1, act. rewrite Hi. cbn [fst snd]. change (0 =? 0) with true. cbn [negb].
  unfold bind at 1, zoom at 1. change (bper (with_bper p1 b)) with p1. rewrite Hx. cbn [fst snd].
  by destruct (bridge_answer rc rx buflen).
Qed.

(** The bridge protocol round-trips: the request names exactly the URL (cut to
    255 characters), and a host that answers with the magic, the length and the
    body has exactly that body delivered, when it fits the caller's buffer. *)
Theorem http_bridge_roundtrip b url body buflen p1 p2 :
  0 < buflen → url ≠ [] → zlen body < buflen → zlen body < 2147483640 →
  virtio_console_init (bper b) = (0, p1) →
  virtio_http_exchange (bridge_request url) (HTTP_MAX_BODY + 16) p1
    = Ret ((8 + zlen body, str "HTTR" ++ put_u32_be (zlen body) ++ body), p2) →
  get_u32_be (bridge_request url) 4 = Z.min (zlen url) 255
  ∧ drop 8 (bridge_request url) = take 255 url
  ∧ http_bridge url buflen b = Ret ((zlen body, body), with_bper p2 b).
Proof.
  intros Hb Hu Hl Hl2 Hi Hx. pose proof (zlen_nonneg body). split; [|split].
  - unfold bridge_request. change 4 with (zlen (str "HTTQ")). rewrite get_be_skip, get_put_be.
    + unfold zlen, HTTP_MAX_URL. rewrite length_take. lia.
    + unfold zlen, HTTP_MAX_URL. rewrite length_take. lia.
  - reflexivity.
  - rewrite (http_bridge_run _ _ _ _ _ _ _ Hb Hu Hi Hx). unfold bridge_answer.
    test_false (8 + zlen body <? 0). test_false (8 + zlen body <? 8).
    change (cmatch (str "HTTR" ++ put_u32_be (zlen body) ++ body) 0 (str "HTTR")) with true. cbn [negb].
    change 4 with (zlen (str "HTTR")). rewrite get_be_skip, get_put_be by lia. rewrite u32_small, i32_small by lia.
    test_false (8 + zlen body <? zlen body + 8). test_false (buflen <=? zlen body). cbn [orb].
    replace (sub (str "HTTR" ++ put_u32_be (zlen body) ++ body) 8 (zlen body)) with body; [done|].
    unfold sub. change (drop (Z.to_nat 8) (str "HTTR" ++ put_u32_be (zlen body) ++ body)) with body.
    rewrite take_ge; [done|]. unfold zlen. lia.
Qed.

(** The check of the length field is computed in 32 bits: a reply whose field is
    within eight of 2^32 passes it, and the copy runs over the end of the buffer. *)
Theorem http_bridge_length_wraps b url buflen p1 p2 rc n rest :
  0 < buflen → url ≠ [] → 8 ≤ rc → buflen ≤ n → 4294967288 ≤ n < 4294967296 →
  virtio_console_init (bper b) = (0, p1) →
  virtio_http_exchange (bridge_request url) (HTTP_MAX_BODY + 16) p1 = Ret ((rc, str "HTTR" ++ put_u32_be n ++ rest), p2) →
  http_bridge url buflen b = Undef.
Proof.
  intros Hb Hu Hrc Hbn Hn Hi Hx. rewrite (http_bridge_run _ _ _ _ _ _ _ Hb Hu Hi Hx). unfold bridge_answer.
  test_false (rc <? 0). test_false (rc <? 8).
  change (cmatch (str "HTTR" ++ put_u32_be n ++ rest) 0 (str "HTTR")) with true. cbn [negb].
  change 4 with (zlen (str "HTTR")). rewrite get_be_skip, get_put_be by lia.
  assert (u32 (n + 8) = n + 8 - 4294967296) as ->.
  { unfold u32. symmetry. apply Z.mod_unique with 1; lia. }
  assert (i32 n = n - 4294967296) as ->.
  { unfold i32. rewrite <- (Z.mod_unique (n + 2147483648) 4294967296 1 (n + 2147483648 - 4294967296)); lia. }
  test_false (rc <? n + 8 - 4294967296). test_false (buflen <=? n - 4294967296). cbn [orb]. by test_true (buflen <=? n).
Qed.

End bridge.

(** A peripheral set whose console answers every request the same way, without
    screen and keyboard. *)
Record echo_host := mk_host { host_answer : list Z; host_seen : list (list Z) }.

#[export] Instance echo_peripherals : Peripherals echo_host := {
  virtio_console_init h := (0, h);
  virtio_http_exchange tx cap := act (λ h, ((zlen (host_answer h), host_answer h), mk_host (host_answer h) (host_seen h ++ [tx])));
  virtio_llm_stream _ _ := ret (ENODEV, [], []);
  virtio_gpu_ready _ := false;
  virtio_gpu_clear _ := ret tt;
  virtio_gpu_flush h := (0, h);
  virtio_gpu_draw_text _ _ _ _ _ := ret tt;
  virtio_input_ready _ := false;
  virtio_input_poll h := ((0, (0, 0, 0)), h)
}.

Definition bridge_board (answer : list Z) : board unit wire echo_host :=
  mk_board tt (net_start (mk_wire [] [])) (mk_host answer []) [] 0 [1; 0; 0; 0] false [].

Lemma http_bridge_roundtrip_witness :
  http_bridge (str "http://h/") 512 (bridge_board (str "HTTR" ++ put_u32_be 2 ++ str "ok"))
  = Ret ((2, str "ok"), with_bper (mk_host (str "HTTR" ++ put_u32_be 2 ++ str "ok") [bridge_request (str "http://h/")])
                          (bridge_board (str "HTTR" ++ put_u32_be 2 ++ str "ok"))).
Proof.
  apply (http_bridge_roundtrip (bridge_board (str "HTTR" ++ put_u32_be 2 ++ str "ok")) (str "http://h/") (str "ok") 512
    (mk_host (str "HTTR" ++ put_u32_be 2 ++ str "ok") []));
    [done|done|vm_compute; reflexivity|vm_compute; reflexivity|reflexivity|reflexivity].
Defined.
