(* ===== verification/Fleet.v ===== *)
(** * Fleet reports, remote access and the mesh (kernel/fleet.c, remote.c, mesh.c)

    Three services of the gateway with their tools: the report about the machine
    that is kept in a file and posted to a collector, the link to the operator's
    gateway, and the announcement of services.  Their output on the console is not
    modelled.  Posting over TLS is an argument. *)

From S2P Require Import Prelude Abi Ipc Ramfs Persist Quota Policy AgentDef Mem Vm VmTree VmProps Kernel Uaccess Sched Agent Tool NetWire Net NetProps Board Http.

Definition FLEET_CACHE : list Z := str "/agent/0/fleet.json".
Definition FLEET_COLLECTOR_PATH : list Z := str "/sys/fleet/collector".
Definition FLEET_COLLECTOR_DEFAULT : list Z := str "http://ingest/openagentos".
Definition FLEET_COLLECTOR_NET : list Z := str "http://10.0.2.2:8765/ingest".
Definition REMOTE_TOKEN_PATH : list Z := str "/sys/console/token".
Definition REMOTE_DEFAULT_TOKEN : list Z := str "agentos-beta".
Definition REMOTE_DEFAULT_PORT : Z := 5557.
Definition OPENAGENTOS_VERSION : list Z := str "1.0.0".
Definition TIMER_INTERVAL : Z := 500000.

(** The name of the RISC-V platform (kernel/platform_riscv_virt.c). *)
Definition platform_name : list Z := str "riscv64-virt".

(** ** The report *)

(** Appending to a buffer of [cap] bytes; [None] is the result -1.  The scratch
    array holds sixteen digits, so a longer number loses its leading ones. *)
Definition append_ulong (buf : list Z) (cap val : Z) : option (list Z) :=
  let d := if val =? 0 then [48] else rev (take 16 (digits_rev dec_fuel val)) in
  if zlen buf + zlen d <=? cap - 1 then Some (buf ++ d) else None.

Definition append_int (buf : list Z) (cap val : Z) : option (list Z) :=
  if val <? 0 then
    if cap - 1 <=? zlen buf then None else append_ulong (buf ++ [chr "-"]) cap (u64 (- val))
  else append_ulong buf cap val.

Definition append_str (buf : list Z) (cap : Z) (s : list Z) : list Z :=
  buf ++ take (Z.to_nat (cap - 1 - zlen buf)) s.

Definition QUOTE : Z := 34.
Definition quoted (s : list Z) : list Z := [QUOTE] ++ s ++ [QUOTE].

(** A step of the construction: the buffer, the result ENOSPC ([None]), or a store
    outside the buffer ([Undef]; the literal parts are stored without a check). *)
Definition jbind (m : outcome (option (list Z))) (k : list Z → outcome (option (list Z))) : outcome (option (list Z)) :=
  match m with Ret (Some buf) => k buf | _ => m end.

Definition jlit (cap : Z) (buf s : list Z) : outcome (option (list Z)) :=
  if zlen buf + zlen s <=? cap then Ret (Some (buf ++ s)) else Undef.

Definition fleet_json (agents uptime used max_ipc : Z) : outcome (option (list Z)) :=
  let cap := 256 in
  jbind (jlit cap [] (str "{" ++ quoted (str "v") ++ str ":" ++ [QUOTE])) (λ buf,
  let buf := append_str buf cap OPENAGENTOS_VERSION in
  jbind (jlit cap buf ([QUOTE] ++ str "," ++ quoted (str "p") ++ str ":" ++ [QUOTE])) (λ buf,
  let buf := append_str buf cap platform_name in
  jbind (jlit cap buf ([QUOTE] ++ str "," ++ quoted (str "agents") ++ str ":")) (λ buf,
  jbind (Ret (append_int buf cap agents)) (λ buf,
  jbind (jlit cap buf (str "," ++ quoted (str "uptime") ++ str ":")) (λ buf,
  jbind (Ret (append_ulong buf cap uptime)) (λ buf,
  jbind (jlit cap buf (str "," ++ quoted (str "quota_ipc") ++ str ":")) (λ buf,
  jbind (Ret (append_int buf cap used)) (λ buf,
  jbind (jlit cap buf (str "," ++ quoted (str "quota_ipc_max") ++ str ":")) (λ buf,
  jbind (Ret (append_int buf cap max_ipc)) (λ buf,
  if cap - 2 <=? zlen buf then Ret None else Ret (Some (buf ++ str "}")))))))))))).

(** ** Addresses *)

(** The result, the host, the path, the port and the scheme. *)
Definition parse_http_url (url : list Z) (hcap pcap : Z) : Z * (list Z * list Z * Z * bool) :=
  let bad rc := (rc, ([], [], 0, false)) in
  if negb (cmatch url 0 (str "http")) then bad EINVAL
  else
    let tls := cget url 4 =? chr "s" in
    let i := if tls then 5 else 4 in
    if negb (cmatch url i (str "://")) then bad EINVAL
    else
      let '(host, rest) := take_while (λ c, negb (c =? chr "/") && negb (c =? chr ":")) (drop (Z.to_nat (i + 3)) url) in
      if hcap - 1 <? zlen host then bad ENOSPC
      else if zlen host =? 0 then bad EINVAL
      else
        match (if cget rest 0 =? chr ":" then port_digits 0 (drop 1 rest)
               else Some (if tls then 443 else 80, rest)) with
        | None => bad EINVAL
        | Some (port, []) => (0, (host, str "/", port, tls))
        | Some (port, path) => if pcap - 1 <? zlen path then bad ENOSPC else (0, (host, path, port, tls))
        end.

Section fleet.
Context {B N P : Type} `{Nic N} `{Peripherals P} {L : Layout} (hart : Z) (cfg : config).
Context (dns_doh_resolve_a : option (list Z → Z → M (net N) (Z * Z))).
Context (net_https_post_port : list Z → Z → list Z → option (list Z) → list Z → Z → Z → M (net N) (Z * list Z)).
Abbreviation board := (board B N P).
Abbreviation kstate := (kstate board).

Definition timer_now (s : kstate) : Z := csr_time (kdisk s) / TIMER_INTERVAL.

Definition fleet_init : M kstate unit :=
  let! e := gets (λ s, ramfs_path_exists (kfs s) FLEET_COLLECTOR_PATH) in
  if e : bool then ret tt
  else onfs (act (λ fs, ramfs_put fs FLEET_COLLECTOR_PATH FLEET_COLLECTOR_DEFAULT (zlen FLEET_COLLECTOR_DEFAULT))) ;; ret tt.

Definition fleet_status (i : Z) : M kstate Z := gets agent_count.

Definition fleet_push (i : Z) : M kstate Z :=
  let! s := gets (λ s, s) in
  let a := aid i s in
  match fleet_json (agent_count s) (timer_now s) (quota_ipc_used (kquota s) a) (quota_ipc_max a) with
  | Ret (Some json) =>
      let! rc := onfs (act (λ fs, ramfs_put fs FLEET_CACHE json (zlen json))) in
      if rc <? 0 then ret rc else ret (zlen json)
  | Ret None => ret ENOSPC
  | _ => undef
  end.

Definition fleet_ingest_net (url json : list Z) (resp_len : Z) : M kstate Z :=
  let '(rc, (host, path, port, tls)) := parse_http_url url 64 128 in
  if rc <? 0 then ret rc
  else
    let! ok := gets (λ s, policy_net_allow host port (kpolicy s)) in
    if negb (ok =? 0) then ret EPERM
    else
      let! r := onnet (if tls : bool then net_https_post_port host port path None json resp_len 15000
                       else net_http_post dns_doh_resolve_a host port path None (Some json) resp_len 12000) in
      ret r.1.

(** The collector when the caller names none. *)
Definition fleet_collector (s : kstate) : list Z :=
  if netstack_ready (bnet (kdisk s)) then FLEET_COLLECTOR_NET
  else
    let r := ramfs_read (kfs s) FLEET_COLLECTOR_PATH 0 (HTTP_MAX_URL - 1) in
    if 0 <? r.1 then until_nul (length r.2) r.2 else FLEET_COLLECTOR_DEFAULT.

Definition fleet_ingest (i : Z) (url : option (list Z)) : M kstate Z :=
  let! r := gets (λ s, ramfs_read (kfs s) FLEET_CACHE 0 (RAMFS_FILE_SIZE - 1)) in
  if r.1 <=? 0 then ret ENOENT
  else
    let json := until_nul (length r.2) r.2 in
    let! default_url := gets fleet_collector in
    let url := match url with Some (c :: u) => c :: u | _ => default_url end in
    let! ready := gets (λ s, netstack_ready (bnet (kdisk s))) in
    if ready : bool then fleet_ingest_net url json HTTP_MAX_BODY
    else let! r := onboard (agent_http_fetch cfg dns_doh_resolve_a url HTTP_MAX_BODY) in ret r.1.

Definition fleet_probe (i : Z) (url : list Z) : M kstate Z := ret (if zlen url =? 0 then EINVAL else 0).

Definition run_fleet (i arg0 arg1 arg2 : Z) : M kstate Z :=
  let cmd := i32 arg0 in
  if cmd =? FLEET_CMD_STATUS then fleet_status i
  else if cmd =? FLEET_CMD_PUSH then fleet_push i
  else if cmd =? FLEET_CMD_PROBE then with_text hart arg1 128 true (fleet_probe i)
  else if cmd =? FLEET_CMD_INGEST then
    if arg1 =? 0 then fleet_ingest i None
    else with_text hart arg1 128 false (λ url, fleet_ingest i (Some url))
  else ret EINVAL.

(** ** Remote access *)

Fixpoint resp_has_pong (resp : list Z) : bool :=
  match resp with
  | [] => false
  | _ :: r => if (4 <=? zlen resp) && cmatch resp 0 (str "PONG") then true else resp_has_pong r
  end.

Definition remote_init : M kstate unit :=
  onboard (modify (with_remote false)) ;;
  onfs (act (λ fs, ramfs_put fs REMOTE_TOKEN_PATH REMOTE_DEFAULT_TOKEN (zlen REMOTE_DEFAULT_TOKEN))) ;; ret tt.

Definition remote_status : M kstate Z := gets (λ s, if remote_enabled (kdisk s) then 1 else 0).
Definition remote_enable : M kstate Z := onboard (modify (with_remote true)) ;; ret 0.
Definition remote_disable : M kstate Z := onboard (modify (with_remote false)) ;; ret 0.
Definition remote_ping : M kstate Z := gets (λ s, if remote_enabled (kdisk s) then 0 else EPERM).

Definition link_message : list Z := str "LINK " ++ take 57 REMOTE_DEFAULT_TOKEN ++ [10].

Definition remote_connect : M kstate Z :=
  let! en := gets (λ s, remote_enabled (kdisk s)) in
  if negb en then ret EPERM
  else
    let! ready := gets (λ s, netstack_ready (bnet (kdisk s))) in
    if negb ready then ret ENODEV
    else
      let! rc := onnet (net_tcp_connect_ip NET_GW_HOST REMOTE_DEFAULT_PORT 10000) in
      if negb (rc =? 0) then ret EIO
      else
        let! rc := onnet (net_tcp_write link_message) in
        if rc <? 0 then onnet net_tcp_close ;; ret EIO
        else
          let! r := onnet (net_tcp_read 63 8000) in
          onnet net_tcp_close ;;
          if (r.1 <? 0) || negb (resp_has_pong r.2) then ret EIO else ret 0.

Definition run_remote (i arg0 arg1 arg2 : Z) : M kstate Z :=
  let cmd := i32 arg0 in
  if cmd =? REMOTE_CMD_STATUS then remote_status
  else if cmd =? REMOTE_CMD_ENABLE then remote_enable
  else if cmd =? REMOTE_CMD_DISABLE then remote_disable
  else if cmd =? REMOTE_CMD_PING then remote_ping
  else if cmd =? REMOTE_CMD_CONNECT then remote_connect
  else ret EINVAL.

(** ** The mesh *)

Definition mesh_status : M kstate Z := ret 0.
Definition mesh_beacon : M kstate Z := ret 0.
Definition mesh_probe (service : list Z) : M kstate Z := ret (if zlen service =? 0 then EINVAL else 0).

Definition run_mesh (i arg0 arg1 arg2 : Z) : M kstate Z :=
  let cmd := i32 arg0 in
  if cmd =? MESH_CMD_STATUS then mesh_status
  else if cmd =? MESH_CMD_BEACON then mesh_beacon
  else if cmd =? MESH_CMD_PROBE then with_text hart arg1 64 true mesh_probe
  else ret EINVAL.

End fleet.

(** ** Reports *)

Lemma zlen_dec n k : (0 < k ≤ 20)%nat → 0 ≤ n < 10 ^ Z.of_nat k → 0 < zlen (dec n) ≤ Z.of_nat k.
Proof.
  intros Hk Hn. unfold dec, zlen. destruct (Z.eqb_spec n 0); [simpl; lia|]. rewrite length_rev.
  pose proof (digits_rev_length dec_fuel n k ltac:(unfold dec_fuel; lia) ltac:(lia)).
  pose proof (digits_rev_length_ge dec_fuel n 0 ltac:(unfold dec_fuel; lia) ltac:(simpl; lia)). lia.
Qed.

Lemma append_ulong_dec buf cap n :
  0 ≤ n < 10 ^ 16 → zlen buf + zlen (dec n) ≤ cap - 1 → append_ulong buf cap n = Some (buf ++ dec n).
Proof.
  intros Hn Hl. unfold append_ulong.
  assert ((if n =? 0 then [48] else rev (take 16 (digits_rev dec_fuel n))) = dec n) as ->.
  { unfold dec. destruct (n =? 0); [done|]. rewrite take_ge; [done|].
    apply digits_rev_length; [unfold dec_fuel; lia|change (Z.of_nat 16) with 16; lia]. }
  by test_true (zlen buf + zlen (dec n) <=? cap - 1).
Qed.

Lemma append_int_dec buf cap n :
  0 ≤ n < 10 ^ 16 → zlen buf + zlen (dec n) ≤ cap - 1 → append_int buf cap n = Some (buf ++ dec n).
Proof. intros. unfold append_int. test_false (n <? 0). by apply append_ulong_dec. Qed.

Lemma bytes_ok_dec n : bytes_ok (dec n).
Proof. eapply Forall_impl; [apply dec_cstr|]. unfold byte_ok. simpl. lia. Qed.

(** The report as JSON. *)
Definition member (name value : list Z) : list Z := quoted name ++ str ":" ++ value.

Definition report (agents uptime used max_ipc : Z) : list Z :=
  str "{" ++ member (str "v") (quoted OPENAGENTOS_VERSION) ++ str "," ++ member (str "p") (quoted platform_name)
  ++ str "," ++ member (str "agents") (dec agents) ++ str "," ++ member (str "uptime") (dec uptime)
  ++ str "," ++ member (str "quota_ipc") (dec used) ++ str "," ++ member (str "quota_ipc_max") (dec max_ipc) ++ str "}".

Lemma report_bytes agents uptime used max_ipc : bytes_ok (report agents uptime used max_ipc).
Proof.
  unfold report, member, quoted. repeat (apply bytes_ok_dec || apply Forall_app_2); solve_bytes.
Qed.

Definition int_ok (n : Z) : Prop := 0 ≤ n < 2147483648.

Lemma zlen_dec_int n : int_ok n → 0 < zlen (dec n) ≤ 10.
Proof. intros [? ?]. apply (zlen_dec n 10); [lia|]. change (10 ^ Z.of_nat 10) with 10000000000. lia. Qed.

(** Lengths of texts built from literals. *)
Lemma zlen_quoted s : zlen (quoted s) = zlen s + 2.
Proof. unfold quoted. rewrite !zlen_app. change (zlen [QUOTE]) with 1. lia. Qed.

Ltac text_len :=
  rewrite ?zlen_app, ?zlen_quoted; change (zlen [QUOTE]) with 1; change (zlen (A:=Z) []) with 0;
  change (zlen OPENAGENTOS_VERSION) with 5; change (zlen platform_name) with 12;
  repeat match goal with
    |- context [zlen (str ?s)] => let v := eval vm_compute in (zlen (str s)) in change (zlen (str s)) with v
  end; lia.

Lemma jbind_lit cap buf s k : zlen buf + zlen s ≤ cap → jbind (jlit cap buf s) k = k (buf ++ s).
Proof. intros. unfold jlit. by test_true (zlen buf + zlen s <=? cap). Qed.

Lemma append_str_fits buf cap s : zlen buf + zlen s ≤ cap - 1 → append_str buf cap s = buf ++ s.
Proof. intros. unfold append_str. f_equal. apply take_ge. unfold zlen in *. lia. Qed.

(** The report always fits its buffer. *)
Lemma fleet_json_exact agents uptime used max_ipc :
  int_ok agents → 0 ≤ uptime < 10 ^ 16 → int_ok used → int_ok max_ipc →
  fleet_json agents uptime used max_ipc = Ret (Some (report agents uptime used max_ipc))
  ∧ 0 < zlen (report agents uptime used max_ipc) < 256.
Proof.
  intros Ha Hu Hq Hm.
  assert (0 < zlen (dec uptime) ≤ 16) by (apply (zlen_dec uptime 16); [lia|exact Hu]).
  pose proof (zlen_dec_int _ Ha). pose proof (zlen_dec_int _ Hq). pose proof (zlen_dec_int _ Hm).
  assert (∀ n, int_ok n → 0 ≤ n < 10 ^ 16) as Hint.
  { intros n [? ?]. change (10 ^ 16) with 10000000000000000. lia. }
  split; [|unfold report, member; text_len]. unfold fleet_json.
  rewrite jbind_lit, append_str_fits by text_len. rewrite jbind_lit, append_str_fits by text_len.
  rewrite jbind_lit, append_int_dec by (auto; text_len). cbn [jbind].
  rewrite jbind_lit, append_ulong_dec by (auto; text_len). cbn [jbind].
  rewrite jbind_lit, append_int_dec by (auto; text_len). cbn [jbind].
  rewrite jbind_lit, append_int_dec by (auto; text_len). cbn [jbind].
  match goal with |- context [256 - 2 <=? zlen ?x] => replace (256 - 2 <=? zlen x) with false by (symmetry; apply Z.leb_gt; text_len) end.
  do 2 f_equal. unfold report, member, quoted. rewrite <- !app_assoc. reflexivity.
Qed.

Section theorems.
Context {B N P : Type} `{Nic N} `{Peripherals P} {L : Layout} (hart : Z) (cfg : config).
Context (dns_doh_resolve_a : option (list Z → Z → M (net N) (Z * Z))).
Context (net_https_post_port : list Z → Z → list Z → option (list Z) → list Z → Z → Z → M (net N) (Z * list Z)).
Implicit Types (s : kstate (board B N P)).

(** A report is complete and readable: for every state with in-range counters,
    [fleet_push] builds the JSON object with the version, the platform, the number
    of agents, the uptime and the agent's message quota, never leaves its buffer,
    and stores exactly that text in the report file, or fails with ENOSPC without
    effect when the file table is full. *)
Theorem fleet_push_exact s i :
  ramfs_wf (kfs s) → int_ok (agent_count s) → 0 ≤ csr_time (kdisk s) < 18446744073709551616 →
  int_ok (quota_ipc_used (kquota s) (aid i s)) →
  let j := report (agent_count s) (csr_time (kdisk s) / TIMER_INTERVAL) (quota_ipc_used (kquota s) (aid i s)) QUOTA_IPC_MAX in
  (∃ fs', fleet_push i s = Ret (zlen j, with_fs fs' s) ∧ ramfs_wf fs' ∧ fs_get fs' FLEET_CACHE = Some j
     ∧ ∀ q, q ≠ FLEET_CACHE → fs_get fs' q = fs_get (kfs s) q)
  ∨ (fleet_push i s = Ret (ENOSPC, s) ∧ fs_full (kfs s) ∧ fs_get (kfs s) FLEET_CACHE = None).
Proof.
  intros Hw Ha Ht Hq j.
  assert (0 ≤ csr_time (kdisk s) / TIMER_INTERVAL < 10 ^ 16).
  { unfold TIMER_INTERVAL. split; [apply Z.div_pos; lia|]. apply Z.div_lt_upper_bound; [lia|].
    change (500000 * 10 ^ 16) with 5000000000000000000000. lia. }
  destruct (fleet_json_exact (agent_count s) (csr_time (kdisk s) / TIMER_INTERVAL) (quota_ipc_used (kquota s) (aid i s)) QUOTA_IPC_MAX)
    as [E Hl]; [done|done|done|vm_compute; done|]. fold j in E, Hl.
  unfold fleet_push. rewrite bind_gets. unfold timer_now, quota_ipc_max. rewrite E.
  pose proof (ramfs_put_spec (kfs s) FLEET_CACHE j Hw) as HP. unfold bind, onfs, zoom, act.
  destruct (ramfs_put (kfs s) FLEET_CACHE j (zlen j)) as [rc fs'].
  destruct HP as [(-> & Hw' & Hg & Ho)|(-> & -> & Hf & Hn)].
  - split; [solve_bytes|done].
  - by apply report_bytes.
  - unfold RAMFS_FILE_SIZE. lia.
  - left. exists fs'. done.
  - right. split; [|done]. by destruct s.
Qed.

(** Reports leave only to destinations the policy allows: when the network is up
    and the policy does not allow the host and port of the address, posting a
    report fails with EPERM (ENOENT when there is none) and changes nothing; not a
    single frame is sent. *)
Theorem fleet_ingest_policed s i url host path port tls :
  netstack_ready (bnet (kdisk s)) = true → url ≠ [] → parse_http_url url 64 128 = (0, (host, path, port, tls)) →
  policy_net_allow host port (kpolicy s) ≠ 0 →
  fleet_ingest cfg dns_doh_resolve_a net_https_post_port i (Some url) s
  = Ret (if 0 <? (ramfs_read (kfs s) FLEET_CACHE 0 (RAMFS_FILE_SIZE - 1)).1 then EPERM else ENOENT, s).
Proof.
  intros Hr Hu Hp Hpol. unfold fleet_ingest. rewrite bind_gets.
  destruct (Z.leb_spec (ramfs_read (kfs s) FLEET_CACHE 0 (RAMFS_FILE_SIZE - 1)).1 0) as [Hn|Hn].
  - by test_false (0 <? (ramfs_read (kfs s) FLEET_CACHE 0 (RAMFS_FILE_SIZE - 1)).1).
  - test_true (0 <? (ramfs_read (kfs s) FLEET_CACHE 0 (RAMFS_FILE_SIZE - 1)).1).
    destruct url as [|c u]; [done|]. rewrite !bind_gets, Hr. unfold fleet_ingest_net. rewrite Hp. change (0 <? 0) with false.
    cbn iota. rewrite bind_gets. by test_false (policy_net_allow host port (kpolicy s) =? 0).
Qed.

Fixpoint run_remotes (i : Z) (cmds : list Z) : M (kstate (board B N P)) (list Z) :=
  match cmds with
  | [] => ret []
  | c :: cmds' => let! rc := run_remote i c 0 0 in let! rcs := run_remotes i cmds' in ret (rc :: rcs)
  end.

Lemma board_keep s (b : board B N P) : b = kdisk s → with_disk b s = s.
Proof. intros ->. by destruct s. Qed.

(** Remote access is off until it is enabled: after [remote_init], no sequence of
    the tool's commands without the enabling one touches the network or anything
    else, and every attempt to ping or connect in it is refused with EPERM. *)
Theorem remote_gate s i cmds :
  remote_enabled (kdisk s) = false → Forall (λ c, i32 c ≠ REMOTE_CMD_ENABLE) cmds →
  ∃ rcs, run_remotes i cmds s = Ret (rcs, s)
    ∧ Forall2 (λ c rc, i32 c = REMOTE_CMD_PING ∨ i32 c = REMOTE_CMD_CONNECT → rc = EPERM) cmds rcs.
Proof.
  intros Hoff Hc. assert (with_remote false (kdisk s) = kdisk s) as Hd by (destruct (kdisk s); simpl in *; by subst).
  induction Hc as [|c cmds Hne Hc (rcs & E & HF)]; [by exists []|].
  assert (∃ rc, run_remote i c 0 0 s = Ret (rc, s) ∧ (i32 c = REMOTE_CMD_PING ∨ i32 c = REMOTE_CMD_CONNECT → rc = EPERM)) as (rc & Er & Hrc).
  { unfold run_remote.
    destruct (Z.eqb_spec (i32 c) REMOTE_CMD_STATUS) as [->|]; [eexists; split; [reflexivity|]; by intros [?|?]|].
    destruct (Z.eqb_spec (i32 c) REMOTE_CMD_ENABLE) as [Ee|]; [by destruct (Hne Ee)|].
    destruct (Z.eqb_spec (i32 c) REMOTE_CMD_DISABLE) as [->|].
    { exists 0. split; [|by intros [?|?]]. unfold remote_disable, bind, onboard, zoom, modify. by rewrite Hd, board_keep. }
    destruct (Z.eqb_spec (i32 c) REMOTE_CMD_PING); [exists EPERM; unfold remote_ping, gets; by rewrite Hoff|].
    destruct (Z.eqb_spec (i32 c) REMOTE_CMD_CONNECT); [|by eexists; split; [reflexivity|intros [?|?]]].
    exists EPERM. unfold remote_connect. rewrite bind_gets. by rewrite Hoff. }
  exists (rc :: rcs). cbn [run_remotes]. rewrite (bind_ret _ _ _ _ _ Er), (bind_ret _ _ _ _ _ E). split; [done|by constructor].
Qed.

End theorems.

(** ** Examples *)

Definition demo_fleet : kstate (board unit wire echo_host) :=
  mk_kstate [] 3 0 true [] [] 1 [] boot_vm zero_fs zero_quota zero_policy false (bridge_board []) [].

Lemma fleet_push_exact_witness : ∃ fs' n, fleet_push 0 demo_fleet = Ret (n, with_fs fs' demo_fleet)
  ∧ fs_get fs' FLEET_CACHE = Some (report 3 0 0 QUOTA_IPC_MAX).
Proof.
  destruct (fleet_push_exact demo_fleet 0) as [(fs' & E & _ & Hg & _)|(E & Hf & _)];
    [apply zero_fs_wf|vm_compute; done|vm_compute; done|vm_compute; done|eexists fs', _; exact (conj E Hg)|].
  exfalso. apply Forall_inv in Hf. discriminate Hf.
Defined.

(** A policy in restricted mode that allows one other host. *)
Definition demo_restricted : kstate (board unit wire echo_host) :=
  with_fs (ramfs_put zero_fs FLEET_CACHE (str "{}") 2).2 (with_policy (mk_policy [] [(str "10.0.2.2", 8765)] true) demo_fleet).

Lemma fleet_ingest_policed_witness :
  fleet_ingest (mk_config false false false false) None (λ _ _ _ _ _ _ _, ret (EIO, [])) 0
    (Some (str "http://evil:80/x")) demo_restricted = Ret (EPERM, demo_restricted).
Proof.
  rewrite (fleet_ingest_policed (mk_config false false false false) None (λ _ _ _ _ _ _ _, ret (EIO, [])) demo_restricted 0
    (str "http://evil:80/x") (str "evil") (str "/x") 80 false); [|reflexivity|done|vm_compute; reflexivity|vm_compute; discriminate].
  vm_compute. reflexivity.
Defined.

Lemma remote_gate_witness :
  ∃ rcs, run_remotes 1 [REMOTE_CMD_CONNECT; REMOTE_CMD_DISABLE; REMOTE_CMD_PING] demo_fleet = Ret (rcs, demo_fleet).
Proof.
  destruct (remote_gate demo_fleet 1 [REMOTE_CMD_CONNECT; REMOTE_CMD_DISABLE; REMOTE_CMD_PING]) as (rcs & E & _);
    [reflexivity| |exists rcs; exact E]. repeat constructor; by vm_compute.
Defined.
