(* ===== verification/Llm.v ===== *)
(** * The language-model channel (kernel/llm.c, kernel/llm_deepseek.c)

    A query goes to a stub, to the host over the virtio console, or to a web
    service, as the build options select; the answer is stored in the caller's
    buffer and appended to the caller's session log.

    The caller's prompt and buffer are used without the checks of uaccess.c: the
    kernel reads and writes through the raw pointers ([raw_string], [raw_stores] of
    Ota.v).  The prompt is read whole, also where the code stops after the part
    that it uses.  [kaddr] gives the address at which the kernel holds a text that
    it passes to [agent_write].  The access key and the request over TLS are
    arguments. *)

From S2P Require Import Prelude Abi Ipc Ramfs Persist Paths Session Quota Policy AgentDef Mem Vm VmTree VmProps Kernel Uaccess Sched Agent Tool Ota NetWire Net NetProps Board Http Fleet.

Definition LLM_MAX_PROMPT : Z := 256.
Definition LLM_MAX_RESPONSE : Z := 512.
Definition DEEPSEEK_HOST : list Z := str "api.deepseek.com".
Definition DEEPSEEK_PATH : list Z := str "/chat/completions".

(** [needle] is not empty. *)
Fixpoint contains_substr (hay needle : list Z) : bool :=
  match hay with
  | [] => false
  | _ :: hay' => if cmatch hay 0 needle then true else contains_substr hay' needle
  end.

Definition faux_answer (prompt : list Z) : list Z :=
  if contains_substr prompt (str "17+25") then str "42"
  else if contains_substr prompt (str "2+2") then str "4"
  else if contains_substr prompt (str "threshold") || contains_substr prompt (str "91")
  then str "High temperature anomaly: reading 91 exceeds threshold 80."
  else str "ok".

(** ** JSON (kernel/llm_deepseek.c) *)

Definition is_special (c : Z) : bool := (c =? QUOTE) || (c =? 92).

(** The loop with [room] more characters before the last two of the buffer. *)
Fixpoint escape (room : Z) (s : list Z) : list Z :=
  match s with
  | [] => []
  | c :: s' =>
      if room <=? 0 then []
      else if is_special c then 92 :: c :: escape (room - 2) s'
      else c :: escape (room - 1) s'
  end.

Definition json_escape (s : list Z) (outlen : Z) : list Z := if outlen <=? 0 then [] else escape (outlen - 2) s.

Fixpoint skip_ws (s : list Z) : list Z :=
  match s with
  | c :: s' => if (c =? 32) || (c =? 9) || (c =? 10) || (c =? 13) then skip_ws s' else s
  | [] => []
  end.

(** The characters up to the closing quote, at most [n]. *)
Fixpoint json_value (n : nat) (json : list Z) : list Z :=
  match n, json with
  | S n', c :: r =>
      if c =? QUOTE then []
      else if c =? 92 then
        match r with
        | d :: r' => (if d =? chr "n" then 10 else if d =? chr "t" then 9 else d) :: json_value n' r'
        | [] => [c]
        end
      else c :: json_value n' r
  | _, _ => []
  end.

Definition CONTENT_KEY : list Z := quoted (str "content").

(** Every round moves forward; the fuel is the length of the text. *)
Fixpoint extract_from (fuel : nat) (json : list Z) (outlen : Z) : Z * list Z :=
  match fuel, json with
  | S f, _ :: json' =>
      if cmatch json 0 CONTENT_KEY then
        match skip_ws (drop 9 json) with
        | c :: r1 =>
            if c =? chr ":" then
              match skip_ws r1 with
              | q :: r2 =>
                  if q =? QUOTE
                  then let out := json_value (Z.to_nat (outlen - 1)) r2 in (zlen out, out)
                  else extract_from f (q :: r2) outlen
              | [] => (EIO, [])
              end
            else extract_from f (c :: r1) outlen
        | [] => (EIO, [])
        end
      else extract_from f json' outlen
  | _, _ => (EIO, [])
  end.

Definition extract_content (json : list Z) (outlen : Z) : Z * list Z :=
  if outlen <=? 0 then (EINVAL, []) else extract_from (length json) json outlen.

(** The request: the parts are cut at the limits of a buffer of 1024 bytes. *)
Definition deepseek_body (prompt : list Z) : list Z :=
  let esc := json_escape prompt 512 in
  let b := fill 960 [] (str "{" ++ member (str "model") (quoted (str "deepseek-chat")) ++ str ","
             ++ member (str "messages") (str "[{" ++ member (str "role") (quoted (str "user")) ++ str ","
             ++ member (str "content") [QUOTE])) in
  let b := fill 960 b esc in
  fill 1020 b ([QUOTE] ++ str "}]," ++ member (str "max_tokens") (str "256") ++ str ","
               ++ member (str "temperature") (str "0") ++ str "}").

Definition deepseek_auth (key : list Z) : list Z := fill 188 (fill 96 [] (str "Authorization: Bearer ")) key.

(** The answer in a response of [blen] bytes: the first "content" of its text, or
    of the text after the first blank line. *)
Fixpoint after_blank (fuel : nat) (resp : list Z) : option (list Z) :=
  match fuel, resp with
  | S f, _ :: r => if (4 <=? Z.of_nat fuel) && cmatch resp 0 (CRLF ++ CRLF) then Some (drop 4 resp) else after_blank f r
  | _, _ => None
  end.

Definition deepseek_answer (resp : list Z) : Z * list Z :=
  let cstring l := until_nul (length l) l in
  let r := extract_content (cstring resp) LLM_MAX_RESPONSE in
  if r.1 <? 0 then
    match after_blank (length resp) resp with
    | Some rest => extract_content (cstring rest) LLM_MAX_RESPONSE
    | None => r
    end
  else r.

Section llm.
Context {B N P : Type} `{Nic N} `{Peripherals P} {L : Layout} (hart : Z) (cfg : config).
Context (dns_doh_resolve_a : option (list Z → Z → M (net N) (Z * Z))).
Context (net_https_post_ip : list Z → Z → Z → list Z → list Z → list Z → Z → Z → M (net N) (Z * list Z)).
Context (DEEPSEEK_API_KEY : list Z) (kaddr : list Z → Z).
Abbreviation board := (board B N P).
Abbreviation kstate := (kstate board).

(** ** Raw user memory *)

Definition raw_load (va : Z) : M kstate Z :=
  λ s, if user_ok (kvm s) (cur_root hart s) false va then hw_load hart va s else Undef.

(** One step of reading a string; the text read so far is reversed. *)
Definition string_step (ptr : Z) (acc : list Z) : M kstate (list Z + list Z) :=
  let! c := raw_load (u64 (ptr + zlen acc)) in
  ret (if c =? 0 then inr (rev acc) else inl (c :: acc)).

(** No string is longer than the user half of the address space, 2^38 bytes. *)
Definition raw_string (ptr : Z) : M kstate (list Z) :=
  let! r := ploop (string_step ptr) 274877906945 [] in
  match r with inr t => ret t | inl _ => undef end.

(** ** The answer as it comes in (kernel/llm.c) *)

Definition llm_session_reset : M kstate unit := onboard (modify (with_llm [])).

(** Characters beyond 511 are dropped. *)
Definition stream_add (chunk : list Z) : M kstate unit :=
  onboard (modify (λ b, with_llm (fill (LLM_MAX_RESPONSE - 1) (llm_stream_buf b) chunk) b)).

Definition llm_session_finish : M kstate unit :=
  let! cur := gets (agent_current hart) in
  let! text := gets (λ s, llm_stream_buf (kdisk s)) in
  match cur with
  | None => ret tt
  | Some i =>
      let! svc := gets (λ s, agent_has_cap s cur CAP_SVC_LLM) in
      if (zlen text <=? 0) || svc then ret tt
      else fs_op i (λ a, session_append a (fill (LLM_MAX_RESPONSE + 15) (str "assistant: ") text)) ;; ret tt
  end.

Definition llm_delta_write (chunk : list Z) : M kstate unit :=
  let! cur := gets (agent_current hart) in
  let! log := gets (λ s, agent_has_cap s cur CAP_LOG) in
  (if log : bool then agent_write hart (kaddr chunk) (zlen chunk) ;; ret tt else ret tt) ;;
  if zlen chunk <=? 0 then ret tt else stream_add chunk.

Fixpoint faux_echo (addr : Z) (answer : list Z) : M kstate unit :=
  match answer with
  | [] => ret tt
  | c :: answer' =>
      let! cur := gets (agent_current hart) in
      let! log := gets (λ s, agent_has_cap s cur CAP_LOG) in
      (if log : bool then agent_write hart addr 1 ;; ret tt else ret tt) ;;
      stream_add [c] ;; faux_echo (addr + 1) answer'
  end.

Definition llm_faux (prompt buf buflen : Z) : M kstate Z :=
  let! p := raw_string prompt in
  let answer := faux_answer p in
  if buflen <=? zlen answer then ret EINVAL
  else faux_echo (kaddr answer) answer ;; raw_stores hart buf (answer ++ [0]) ;; ret (zlen answer).

(** ** The web service *)

Definition api_key_present : bool := negb (cget DEEPSEEK_API_KEY 0 =? 0).

(** One attempt at an address, when the name resolves to one. *)
Definition deepseek_try (r : Z * Z) (prompt : list Z) : M kstate (option (Z * list Z)) :=
  if (r.1 =? 0) && negb (r.2 =? 0)
  then let! a := onnet (net_https_post_ip DEEPSEEK_HOST r.2 443 DEEPSEEK_PATH (deepseek_auth DEEPSEEK_API_KEY)
                          (deepseek_body prompt) 8192 25000) in ret (Some a)
  else ret None.

Definition llm_deepseek_query (prompt buf buflen : Z) : M kstate Z :=
  let! ready := gets (λ s, netstack_ready (bnet (kdisk s))) in
  if negb ready then ret ENODEV
  else if negb api_key_present then ret ENODEV
  else
    let! ok := gets (λ s, policy_net_allow DEEPSEEK_HOST 443 (kpolicy s)) in
    if negb (ok =? 0) then ret EPERM
    else
      let! p := raw_string prompt in
      let! r := onnet (net_dns_resolve_slirp DEEPSEEK_HOST 6000) in
      let! a := deepseek_try r p in
      let a := default (-1, []) a in
      let! a := (if a.1 <=? 0 then
                   let! r := onnet (net_dns_resolve dns_doh_resolve_a DEEPSEEK_HOST 10000) in
                   let! a' := deepseek_try r p in ret (default a a')
                 else ret a) in
      if a.1 <=? 0 then ret (if a.1 <? 0 then a.1 else EIO)
      else
        let c := deepseek_answer a.2 in
        if c.1 <? 0 then ret c.1
        else if buflen <=? c.1 then ret EINVAL
        else
          raw_stores hart buf (c.2 ++ [0]) ;;
          (if 0 <? c.1 then llm_delta_write c.2 else ret tt) ;;
          ret c.1.

(** ** The call *)

Fixpoint deltas (chunks : list (list Z)) : M kstate unit :=
  match chunks with [] => ret tt | c :: r => llm_delta_write c ;; deltas r end.

(** The query over the virtio console; the bytes stored in the caller's buffer are
    those that the driver reports. *)
Definition llm_console (prompt buf buflen : Z) : M kstate Z :=
  let! p := raw_string prompt in
  let! r := onper (virtio_llm_stream p buflen) in
  raw_stores hart buf r.1.2 ;; deltas r.2 ;; ret r.1.1.

Definition agent_llm_query (prompt buf buflen : Z) : M kstate Z :=
  let prompt := u64 prompt in
  let buf := u64 buf in
  let! cur := gets (agent_current hart) in
  let! ok := gets (λ s, agent_has_cap s cur CAP_LLM) in
  if negb ok then ret EPERM
  else if (prompt =? 0) || (buf =? 0) || (buflen <=? 0) then ret EINVAL
  else
    llm_session_reset ;;
    agent_set_phase hart AGENT_PHASE_LLM_WAIT ;;
    let! rc := (if LLM_FAUX cfg then llm_faux prompt buf buflen
                else if LLM_NATIVE_NET cfg then
                  let! rc := llm_deepseek_query prompt buf buflen in
                  if rc =? ENODEV then llm_faux prompt buf buflen else ret rc
                else
                  let! rc := llm_console prompt buf buflen in
                  if rc =? ENODEV then llm_faux prompt buf buflen else ret rc) in
    (if 0 <=? rc then llm_session_finish else ret tt) ;;
    agent_set_phase hart AGENT_PHASE_IDLE ;;
    ret rc.

End llm.

(** ** Prompts survive the encoding *)

Lemma json_value_escape n room s rest :
  (length s ≤ n)%nat → ∃ k, json_value n (escape room s ++ QUOTE :: rest) = take k s ∧ (2 * zlen s ≤ room → k = length s).
Proof.
  revert n room. induction s as [|c s IH]; intros n room Hn; cbn [escape].
  - exists 0%nat. split; [|done]. by destruct n.
  - destruct n as [|n]; [simpl in Hn; lia|]. simpl in Hn.
    destruct (Z.leb_spec room 0) as [Hr|Hr].
    { exists 0%nat. split; [done|]. rewrite zlen_cons. pose proof (zlen_nonneg s). lia. }
    unfold is_special. destruct (Z.eqb_spec c QUOTE) as [->|Hq]; [|destruct (Z.eqb_spec c 92) as [->|Hb]]; cbn [orb].
    + destruct (IH n (room - 2)) as (k & E & Hk); [lia|]. exists (S k). cbn [app json_value take].
      change (92 =? QUOTE) with false. change (92 =? 92) with true. cbn iota. rewrite E. split; [done|].
      rewrite zlen_cons. intros. rewrite Hk by lia. done.
    + destruct (IH n (room - 2)) as (k & E & Hk); [lia|]. exists (S k). cbn [app json_value take].
      change (92 =? QUOTE) with false. change (92 =? 92) with true. cbn iota. rewrite E. split; [done|].
      rewrite zlen_cons. intros. rewrite Hk by lia. done.
    + destruct (IH n (room - 1)) as (k & E & Hk); [lia|]. exists (S k). cbn [app json_value take].
      destruct (Z.eqb_spec c QUOTE); [done|]. destruct (Z.eqb_spec c 92); [done|]. rewrite E. split; [done|].
      rewrite zlen_cons. intros. rewrite Hk by lia. done.
Qed.

Lemma zlen_escape room s : 0 ≤ room → zlen (escape room s) ≤ room + 1.
Proof.
  revert room. induction s as [|c s IH]; intros room Hr; cbn [escape]; [change (zlen (A:=Z) []) with 0; lia|].
  destruct (Z.leb_spec room 0); [change (zlen (A:=Z) []) with 0; lia|]. destruct (is_special c); rewrite !zlen_cons.
  - destruct (Z.eq_dec room 1) as [->|].
    + destruct s as [|d s]; cbn [escape]; [|change (1 - 2 <=? 0) with true; cbn iota]; change (zlen (A:=Z) []) with 0; lia.
    + specialize (IH (room - 2)). lia.
  - specialize (IH (room - 1)). lia.
Qed.

Lemma extract_prefix l json f outlen :
  (∀ i, (i < length l)%nat → cmatch (drop i l ++ json) 0 CONTENT_KEY = false) →
  extract_from (length l + f) (l ++ json) outlen = extract_from f json outlen.
Proof.
  induction l as [|c l IH]; intros Hi; [done|]. cbn [length Nat.add app extract_from].
  pose proof (Hi 0%nat ltac:(simpl; lia)) as H0. cbn [drop app] in H0. rewrite H0. apply IH. intros i Hl. apply (Hi (S i)). simpl. lia.
Qed.

(** A text that starts with the wanted member. *)
Lemma extract_here f rest outlen :
  extract_from (S f) (member (str "content") [QUOTE] ++ rest) outlen
  = (zlen (json_value (Z.to_nat (outlen - 1)) rest), json_value (Z.to_nat (outlen - 1)) rest).
Proof. reflexivity. Qed.

(** The parts of the request before and after the prompt. *)
Definition body_head : list Z :=
  str "{" ++ member (str "model") (quoted (str "deepseek-chat")) ++ str ","
  ++ quoted (str "messages") ++ str ":" ++ str "[{" ++ member (str "role") (quoted (str "user")) ++ str ",".

Definition body_tail : list Z :=
  str "}]," ++ member (str "max_tokens") (str "256") ++ str "," ++ member (str "temperature") (str "0") ++ str "}".

Lemma deepseek_body_parts prompt :
  deepseek_body prompt = body_head ++ member (str "content") [QUOTE] ++ escape 510 prompt ++ QUOTE :: body_tail.
Proof.
  unfold deepseek_body, json_escape. change (512 <=? 0) with false. change (512 - 2) with 510. cbn iota.
  pose proof (zlen_escape 510 prompt ltac:(lia)) as He.
  match goal with |- context [fill 960 [] ?h] => change (fill 960 [] h) with (body_head ++ member (str "content") [QUOTE]) end.
  rewrite (fill_fits 960) by (rewrite zlen_app; change (zlen body_head) with 52; change (zlen (member (str "content") [QUOTE])) with 11; lia).
  rewrite fill_fits.
  - rewrite <- !app_assoc. reflexivity.
  - rewrite !zlen_app. change (zlen body_head) with 52. change (zlen (member (str "content") [QUOTE])) with 11.
    unfold member, quoted. text_len.
Qed.

(** A prompt cannot break out of the request: whatever its characters, the JSON
    request is the fixed head, the escaped prompt in quotes and the fixed tail, and
    a reader of its "content" member gets the prompt back, cut to a prefix when it
    is long and whole when it has at most 255 characters. *)
Theorem deepseek_prompt_roundtrip prompt :
  zlen prompt ≤ 511 →
  deepseek_body prompt = body_head ++ member (str "content") [QUOTE] ++ escape 510 prompt ++ QUOTE :: body_tail
  ∧ ∃ k, extract_content (deepseek_body prompt) LLM_MAX_RESPONSE = (zlen (take k prompt), take k prompt)
      ∧ (zlen prompt ≤ 255 → take k prompt = prompt).
Proof.
  intros Hp. rewrite deepseek_body_parts. split; [done|].
  destruct (json_value_escape 511 510 prompt body_tail) as (k & E & Hk); [unfold zlen in Hp; lia|]. exists k. split.
  - unfold extract_content, LLM_MAX_RESPONSE. change (512 <=? 0) with false. cbn iota.
    rewrite length_app, extract_prefix.
    + rewrite length_app. change (length (member (str "content") [QUOTE])) with 11%nat. cbn [Nat.add].
      rewrite extract_here. change (Z.to_nat (512 - 1)) with 511%nat. by rewrite E.
    + intros i Hi. do 52 (destruct i as [|i]; [reflexivity|]). change (length body_head) with 52%nat in Hi. lia.
  - intros. rewrite Hk by lia. apply firstn_all.
Qed.

Lemma deepseek_prompt_roundtrip_witness :
  ∃ k, extract_content (deepseek_body ([QUOTE; 92] ++ str "n, say hi")) LLM_MAX_RESPONSE
       = (zlen (take k ([QUOTE; 92] ++ str "n, say hi")), take k ([QUOTE; 92] ++ str "n, say hi")).
Proof.
  destruct (deepseek_prompt_roundtrip ([QUOTE; 92] ++ str "n, say hi")) as (_ & k & E & _); [by vm_compute|exists k; exact E].
Defined.

Section calls.
Context {B N P : Type} `{Nic N} `{Peripherals P} {L : Layout} (hart : Z) (cfg : config).
Context (dns_doh_resolve_a : option (list Z → Z → M (net N) (Z * Z))).
Context (net_https_post_ip : list Z → Z → Z → list Z → list Z → list Z → Z → Z → M (net N) (Z * list Z)).
Context (DEEPSEEK_API_KEY : list Z) (kaddr : list Z → Z).
Implicit Types (s : kstate (board B N P)).
Abbreviation query := (agent_llm_query hart cfg dns_doh_resolve_a net_https_post_ip DEEPSEEK_API_KEY kaddr).

(** Nothing that a service could observe changes: memory, files, policy, console
    output, disk, network and peripherals. *)
Definition quiet s s' : Prop :=
  kvm s' = kvm s ∧ kfs s' = kfs s ∧ kpolicy s' = kpolicy s ∧ uart_out s' = uart_out s
  ∧ bdisk (kdisk s') = bdisk (kdisk s) ∧ bnet (kdisk s') = bnet (kdisk s) ∧ bper (kdisk s') = bper (kdisk s).

Lemma set_phase_quiet ph s : ∃ s', agent_set_phase hart ph s = Ret (tt, s') ∧ quiet s s' ∧ agent_current hart s' = agent_current hart s.
Proof.
  eexists. split; [reflexivity|]. destruct (agent_current hart s) eqn:E; [|by rewrite E]. by split.
Qed.

(** [C23] A query by an agent with the capability, in the networked build, with a
    network card and an API key present and pointers that are not null: when the policy
    does not allow the service's host, the query fails with EPERM; nothing is sent,
    stored or printed, and the prompt is not even read.  (Without a card or without a
    key the policy is not asked, and the query gets the built-in answer.) *)
Theorem llm_query_policed s i prompt buf buflen :
  LLM_FAUX cfg = false → LLM_NATIVE_NET cfg = true →
  agent_current hart s = Some i → agent_has_cap s (Some i) CAP_LLM = true →
  u64 prompt ≠ 0 → u64 buf ≠ 0 → 0 < buflen →
  netstack_ready (bnet (kdisk s)) = true → api_key_present DEEPSEEK_API_KEY = true →
  policy_net_allow DEEPSEEK_HOST 443 (kpolicy s) ≠ 0 →
  ∃ s', query prompt buf buflen s = Ret (EPERM, s') ∧ quiet s s'.
Proof.
  intros Hf Hn Hcur Hcap Hp Hb Hl Hr Hk Hpol. unfold agent_llm_query. rewrite !bind_gets, Hcur, Hcap. cbn [negb].
  test_false (u64 prompt =? 0). test_false (u64 buf =? 0). test_false (buflen <=? 0). cbn [orb].
  set (s1 := with_disk (with_llm [] (kdisk s)) s).
  rewrite (bind_ret _ _ _ tt s1) by done.
  destruct (set_phase_quiet AGENT_PHASE_LLM_WAIT s1) as (s2 & E2 & Q2 & _). rewrite (bind_ret _ _ _ _ _ E2), Hf, Hn.
  destruct Q2 as (Qv & Qf & Qp & Qu & Qd & Qn & Qe).
  assert (llm_deepseek_query hart dns_doh_resolve_a net_https_post_ip DEEPSEEK_API_KEY kaddr (u64 prompt) (u64 buf) buflen s2
          = Ret (EPERM, s2)) as E.
  { unfold llm_deepseek_query. rewrite bind_gets, Qn. change (bnet (kdisk s1)) with (bnet (kdisk s)). rewrite Hr, Hk. cbn [negb].
    rewrite bind_gets, Qp. change (kpolicy s1) with (kpolicy s). by test_false (policy_net_allow DEEPSEEK_HOST 443 (kpolicy s) =? 0). }
  unfold bind at 1. rewrite (bind_ret _ _ _ _ _ E). change (EPERM =? ENODEV) with false. cbn iota. unfold ret at 1.
  change (0 <=? EPERM) with false. cbn iota. rewrite (bind_ret _ _ _ tt s2) by done.
  destruct (set_phase_quiet AGENT_PHASE_IDLE s2) as (s3 & E3 & (Rv & Rf & Rp & Ru & Rd & Rn & Re) & _).
  rewrite (bind_ret _ _ _ _ _ E3). exists s3. split; [done|].
  unfold quiet. by rewrite Rv, Rf, Rp, Ru, Rd, Rn, Re, Qv, Qf, Qp, Qu, Qd, Qn, Qe.
Qed.

(** The prompt is used unchecked: a pointer to memory that the caller may not read
    faults in the kernel or makes it read its own memory. *)
Theorem llm_prompt_unchecked s i prompt buf buflen :
  LLM_FAUX cfg = true → agent_current hart s = Some i → agent_has_cap s (Some i) CAP_LLM = true →
  u64 prompt ≠ 0 → u64 buf ≠ 0 → 0 < buflen →
  user_ok (kvm s) (cur_root hart s) false (u64 prompt) = false →
  query prompt buf buflen s = Undef.
Proof.
  intros Hf Hcur Hcap Hp Hb Hl Hu. unfold agent_llm_query. rewrite !bind_gets, Hcur, Hcap. cbn [negb].
  test_false (u64 prompt =? 0). test_false (u64 buf =? 0). test_false (buflen <=? 0). cbn [orb].
  set (s1 := with_disk (with_llm [] (kdisk s)) s). rewrite (bind_ret _ _ _ tt s1) by done.
  rewrite (bind_ret _ _ _ tt (upd_agent i (upd.phase AGENT_PHASE_LLM_WAIT) s1)).
  2: { unfold agent_set_phase, modify. change (agent_current hart s1) with (agent_current hart s). by rewrite Hcur. }
  rewrite Hf. set (s2 := upd_agent _ _ _).
  assert (∀ q, ploop (string_step hart (u64 prompt)) q [] s2 = Undef) as Hs.
  { assert (string_step hart (u64 prompt) [] s2 = Undef) as Es.
    { unfold string_step, bind, raw_load. change (kvm s2) with (kvm s). change (cur_root hart s2) with (cur_root hart s).
      change (zlen []) with 0. rewrite Z.add_0_r. rewrite (u64_small (u64 prompt)) by apply u64_range. by rewrite Hu. }
    induction q as [q IH|q IH|]; cbn [ploop]; [unfold bind; by rewrite Es|unfold bind; by rewrite IH|done]. }
  unfold llm_faux, raw_string, bind. by rewrite Hs.
Qed.

End calls.

(** Agent 1 may query, the policy allows only another host. *)
Definition demo_llm : kstate (board unit wire echo_host) :=
  mk_kstate [zero_agent; upd.caps CAP_LLM zero_agent] 2 0 true [Some 1; None; None; None] [[]; []; []; []] 1 [0; 0; 0; 0]
    boot_vm zero_fs zero_quota (mk_policy [] [(str "10.0.2.2", 8765)] true) false (bridge_board []) [].

Lemma llm_query_policed_witness :
  ∃ s', agent_llm_query 0 (mk_config false false false true) None (λ _ _ _ _ _ _ _ _, ret (EIO, [])) (str "key") (λ _, 4096)
          4096 8192 64 demo_llm = Ret (EPERM, s') ∧ quiet demo_llm s'.
Proof.
  apply (llm_query_policed 0 (mk_config false false false true) None (λ _ _ _ _ _ _ _ _, ret (EIO, [])) (str "key") (λ _, 4096)
    demo_llm 1 4096 8192 64); try reflexivity; vm_compute; discriminate.
Defined.
