(* ===== verification/Services.v ===== *)
(** * The services of the machine

    The remaining tools of kernel/tool.c (the screen and the keyboard) and the
    machine put together: the class [Devices] of the gateway is implemented by the
    serial line, the language-model channel, the program loader, HTTP, over-the-air
    updates, the catalog, fleet reports, remote access and the mesh of this
    development, over a board with a disk, a network card and peripherals.  The
    theorems of Tool.v and Trap.v hold for this machine. *)

From S2P Require Import Prelude Abi Ipc Ramfs Persist Paths Quota Tenant Namespace AuditLog Session Policy AgentDef Mem Vm VmTree VmProps Kernel Uaccess Sched Agent Tool Trap Ota Catalog ElfLoad NetWire Net NetProps Board Http Fleet Llm.

Definition INPUT_EV_KEY : Z := 1.

Section services.
Context {B N P : Type} `{BlockDevice B} `{Nic N} `{Peripherals P} {L : Layout} (hart : Z) (cfg : config).
Context (kgp : Z) (sha256 : list Z → list Z).
Context (dns_doh_resolve_a : option (list Z → Z → M (net N) (Z * Z))).
Context (net_https_post_port : list Z → Z → list Z → option (list Z) → list Z → Z → Z → M (net N) (Z * list Z)).
Context (net_https_post_ip : list Z → Z → Z → list Z → list Z → list Z → Z → Z → M (net N) (Z * list Z)).
Context (DEEPSEEK_API_KEY : list Z) (kaddr : list Z → Z).
Abbreviation board := (board B N P).
Abbreviation kstate := (kstate board).

(** ** The screen and the keyboard *)

Definition run_display (i arg0 arg1 arg2 : Z) : M kstate Z :=
  let cmd := i32 arg0 in
  let! ready := gets (λ s, virtio_gpu_ready (bper (kdisk s))) in
  if cmd =? 0 then
    if ready : bool then onper (virtio_gpu_clear (u32 arg1)) ;; ret 0 else ret 0
  else if cmd =? 2 then
    if ready : bool then onper (act virtio_gpu_flush) else ret 0
  else if negb (cmd =? 1) then ret EINVAL
  else
    let x := Z.land (Z.shiftr arg1 16) 0xffff in
    let y := Z.land arg1 0xffff in
    if arg2 =? 0 then ret EINVAL
    else
      let! len := user_strnlen hart (u64 arg2) 127 in
      if len <=? 0 then ret EINVAL
      else
        let! r := copy_from_user hart (u64 arg2) 128 in
        if r.1 <? 0 then ret EFAULT
        else
          let! text := orundef (cstr_of r.2) in
          if ready : bool then onper (virtio_gpu_draw_text x y text 0xffeeeeee 0xff102030) ;; ret 0
          else ret 0.

Definition run_input (i arg0 arg1 arg2 : Z) : M kstate Z :=
  if negb (i32 arg0 =? 0) then ret EINVAL
  else
    let! ready := gets (λ s, virtio_input_ready (bper (kdisk s))) in
    if ready : bool then
      let! r := onper (act virtio_input_poll) in
      let '(rc, (type, code, value)) := r in
      if rc <=? 0 then ret rc
      else if (type =? INPUT_EV_KEY) && (value =? 1) then ret code
      else ret 0
    else
      let! c := uart_poll_char in
      match c with
      | None => ret 0
      | Some ch =>
          if (ch =? chr "h") || (ch =? chr "H") then ret 11
          else if (ch =? 13) || (ch =? 10) then ret 0
          else ret ch
      end.

(** ** The machine *)

(** kernel/smp.c *)
Definition smp_hart_ticks (s : kstate) (hartid : Z) : Z :=
  if (hartid <? 0) || (SMP_MAX_HARTS <=? hartid) then 0 else nth (Z.to_nat hartid) (hart_ticks (kdisk s)) 0.

#[export] Instance board_devices : Devices board := {
  Tool.time_csr s := csr_time (kdisk s);
  Tool.smp_hart_ticks := smp_hart_ticks;
  Tool.uart_poll_char := uart_poll_char;
  Tool.uart_getline := uart_getline;
  Tool.agent_llm_query := agent_llm_query hart cfg dns_doh_resolve_a net_https_post_ip DEEPSEEK_API_KEY kaddr;
  Tool.agent_load_from_path := agent_load_from_path kgp hart;
  Tool.run_http := run_http hart cfg dns_doh_resolve_a;
  Tool.run_display := run_display;
  Tool.run_input := run_input;
  Tool.run_ota := run_ota sha256 hart;
  Tool.run_catalog := run_catalog sha256 hart;
  Tool.run_fleet := run_fleet hart cfg dns_doh_resolve_a net_https_post_port;
  Tool.run_remote := run_remote;
  Tool.run_mesh := run_mesh hart
}.

End services.
