(* ===== verification/NetFrame.v ===== *)
(** * Which calls reach the network

    A frame argument over every tool of the gateway for the machine of Services.v:
    [frames f m] says that the operation [m] of the kernel leaves the part [f] of
    the board unchanged, whatever it does to files, memory and agents.  The tools
    outside four leave the network stack unchanged, and so do all system calls but
    the one that runs a tool and the one that asks the language model; so a trap of an
    agent reaches the network only through those and their capabilities. *)

From S2P Require Import Prelude Abi Ipc Ramfs Persist Paths Quota Tenant Namespace AuditLog Session Policy AgentDef Mem Vm VmTree VmProps Kernel Uaccess Sched Agent Tool Trap Ota Catalog ElfLoad NetWire Net NetProps Board Http Fleet Llm Services.

Definition frames {D X A} (f : D → X) (m : M (kstate D) A) : Prop :=
  ∀ s x s', m s = Ret (x, s') → f (kdisk s') = f (kdisk s).

Create HintDb frame.

(** ** The combinators *)

Section combinators.
Context {D X : Type} (f : D → X).
Abbreviation kstate := (kstate D).

Lemma frames_ret {A} (x : A) : frames f (ret x).
Proof. by intros s y s' [= _ <-]. Qed.

Lemma frames_gets {A} (g : kstate → A) : frames f (gets g).
Proof. by intros s y s' [= _ <-]. Qed.

Lemma frames_undef {A} : frames f (@undef kstate A).
Proof. by intros s y s'. Qed.

Lemma frames_halt {A} : frames f (@halt kstate A).
Proof. by intros s y s'. Qed.

Lemma frames_orundef {A} (o : option A) : frames f (orundef (S:=kstate) o).
Proof. destruct o; [apply frames_ret|apply frames_undef]. Qed.

Lemma frames_bind {A C} (m : M kstate A) (k : A → M kstate C) : frames f m → (∀ x, frames f (k x)) → frames f (bind m k).
Proof.
  intros Hm Hk s y s' E. unfold bind in E. destruct (m s) as [[x s1]| |] eqn:Em; [|done|done].
  rewrite (Hk x s1 y s' E). by apply (Hm s x).
Qed.

Lemma frames_modify (g : kstate → kstate) : (∀ s, kdisk (g s) = kdisk s) → frames f (modify g).
Proof. intros Hg s y s' [= _ <-]. by rewrite Hg. Qed.

Lemma frames_act {A} (g : kstate → A * kstate) : (∀ s, kdisk (g s).2 = kdisk s) → frames f (act g).
Proof. intros Hg s y s' E. unfold act in E. injection E as E. rewrite <- (Hg s), E. done. Qed.

(** Operations of a component whose state is not the board. *)
Lemma frames_zoom {S A} (g : kstate → S) (p : S → kstate → kstate) (m : M S A) :
  (∀ x s, kdisk (p x s) = kdisk s) → frames f (zoom g p m).
Proof.
  intros Hp s y s' E. unfold zoom in E. destruct (m (g s)) as [[x t]| |]; [|done|done]. injection E as _ <-. by rewrite Hp.
Qed.

(** An operation that only reads the state. *)
Lemma frames_read {A} (m : M kstate A) : (∀ s x s', m s = Ret (x, s') → s' = s) → frames f m.
Proof. intros Hm s x s' E. by rewrite (Hm s x s' E). Qed.

End combinators.

#[export] Hint Resolve frames_ret frames_gets frames_undef frames_halt frames_orundef : frame.

Ltac frame_step :=
  match goal with
  | |- frames _ (bind _ _) => apply frames_bind; [|intros ?]
  | |- frames _ (let _ := _ in _) => cbv zeta
  | |- frames _ (if ?b then _ else _) => destruct b
  | |- frames _ (match ?x with _ => _ end) => destruct x
  | |- frames _ (modify _) => apply frames_modify; intros ?; done
  | |- frames _ (modify_agent _ _) => apply frames_modify; intros ?; done
  | |- frames _ (onfs _) => apply frames_zoom; done
  | |- frames _ (onkvm _) => apply frames_zoom; done
  | |- frames _ (fs_op _ _) => apply frames_bind; [apply frames_gets|intros ?]
  | |- frames _ (agent_set_phase _ _) => apply frames_modify; intros ?; case_match; done
  | |- _ => solve [eauto 2 with frame]
  end.
Ltac frame := repeat frame_step.

(** ** Memory, messages and the gateway's own tools *)

Section generic.
Context {D X : Type} `{BlockDevice D} {L : Layout} (hart : Z) (f : D → X).
Abbreviation kstate := (kstate D).

Lemma frames_hw_load va : frames f (hw_load (D:=D) hart va).
Proof. apply frames_read. intros s x s'. unfold hw_load. case_match; [|done]. by intros [= _ <-]. Qed.

Lemma frames_hw_store va b : frames f (hw_store (D:=D) hart va b).
Proof. intros s x s'. unfold hw_store. case_match; [|done]. by intros [= _ <-]. Qed.
#[local] Hint Resolve frames_hw_load frames_hw_store : frame.

Lemma frames_load_bytes n va : frames f (load_bytes (D:=D) hart n va).
Proof. revert va. induction n as [|n IH]; intros va; cbn [load_bytes]; frame. Qed.

Lemma frames_store_bytes data va : frames f (store_bytes (D:=D) hart va data).
Proof. revert va. induction data as [|b data IH]; intros va; cbn [store_bytes]; frame. Qed.

Lemma frames_access p n w : frames f (user_access_ok (D:=D) hart p n w).
Proof. unfold user_access_ok. frame. Qed.
#[local] Hint Resolve frames_load_bytes frames_store_bytes frames_access : frame.

Lemma frames_copy_from p n : frames f (copy_from_user (D:=D) hart p n).
Proof. unfold copy_from_user. frame. Qed.

Lemma frames_copy_to p d n : frames f (copy_to_user (D:=D) hart p d n).
Proof. unfold copy_to_user. frame. Qed.
#[local] Hint Resolve frames_copy_from frames_copy_to : frame.

Lemma frames_strnlen p n : frames f (user_strnlen (D:=D) hart p n).
Proof.
  unfold user_strnlen. frame. generalize (Z.to_nat n), 0. intros k. induction k as [|k IH]; intros j; cbn [strnlen_loop]; frame.
Qed.
#[local] Hint Resolve frames_strnlen : frame.

Lemma frames_copy_text p n : frames f (copy_text (D:=D) hart p n).
Proof. unfold copy_text. frame. Qed.
#[local] Hint Resolve frames_copy_text : frame.

Lemma frames_with_text p n b k : (∀ t, frames f (k t)) → frames f (with_text (D:=D) hart p n b k).
Proof. intros Hk. unfold with_text. frame. Qed.

Lemma frames_path p : frames f (read_path_from_user (D:=D) hart p).
Proof. unfold read_path_from_user. frame. Qed.

Lemma frames_uart_put l : frames f (uart_put (D:=D) l).
Proof. unfold uart_put. frame. Qed.

Lemma frames_audit i tool rc : frames f (tool_audit_log (D:=D) i tool rc).
Proof. unfold tool_audit_log. frame. Qed.

Lemma frames_write p n : frames f (agent_write (D:=D) hart p n).
Proof.
  unfold agent_write. frame. generalize (Z.to_nat ((n + AGENT_WRITE_CHUNK - 1) / AGENT_WRITE_CHUNK)), 0.
  intros k. induction k as [|k IH]; intros j; cbn [write_chunks]; frame. apply frames_uart_put.
Qed.

Lemma frames_send_nocheck a dst t p : frames f (agent_send_kernel_nocheck (D:=D) a dst t p).
Proof.
  unfold agent_send_kernel_nocheck, push_inbox. frame.
  apply frames_modify. intros s. unfold sched_notify_runnable, make_runnable, sched_rq_add_locked. by repeat case_match.
Qed.
#[local] Hint Resolve frames_with_text frames_path frames_uart_put frames_audit frames_write frames_send_nocheck : frame.

Lemma frames_burn n a : frames f (burn_loop (D:=D) n a).
Proof. induction n as [|n IH]; cbn [burn_loop]; unfold agent_send_kernel, ipc_allow, ipc_charge; frame. Qed.
#[local] Hint Resolve frames_burn : frame.

End generic.

#[export] Hint Resolve frames_hw_load frames_hw_store frames_load_bytes frames_store_bytes frames_access frames_copy_from
  frames_copy_to frames_strnlen frames_copy_text frames_with_text frames_path frames_uart_put frames_audit frames_write
  frames_send_nocheck frames_burn : frame.

(** ** The tools *)

Section tools.
Context {D X : Type} `{BlockDevice D} {L : Layout} (sha256 : list Z → list Z) (hart : Z) (f : D → X).

Lemma frames_ota_parse p : frames f (ota_parse_package (D:=D) sha256 p).
Proof. unfold ota_parse_package. frame. apply frames_read. intros s y s'. case_match; try done. by intros [= _ <-]. Qed.
#[local] Hint Resolve frames_ota_parse : frame.

Lemma frames_ota_verify p : frames f (ota_verify_package_kpath (D:=D) sha256 p).
Proof. unfold ota_verify_package_kpath. frame. Qed.

Lemma frames_ota_apply p : frames f (ota_apply_package_kpath (D:=D) sha256 hart p).
Proof. unfold ota_apply_package_kpath. frame. Qed.

Lemma frames_raw_store va b : frames f (raw_store (D:=D) hart va b).
Proof. intros s x s'. unfold raw_store. case_match; [|done]. apply frames_hw_store. Qed.

Lemma frames_raw_stores data va : frames f (raw_stores (D:=D) hart va data).
Proof. revert va. induction data as [|b data IH]; intros va; cbn [raw_stores]; frame. apply frames_raw_store. Qed.
#[local] Hint Resolve frames_ota_verify frames_ota_apply frames_raw_store frames_raw_stores : frame.

Lemma frames_with_kpath p k : (∀ t, frames f (k t)) → frames f (with_kpath (D:=D) hart p k).
Proof. intros Hk. unfold with_kpath. frame. Qed.

Lemma frames_with_kname p k : (∀ t, frames f (k t)) → frames f (with_kname (D:=D) hart p k).
Proof. intros Hk. unfold with_kname. frame. Qed.

Lemma frames_run_ota i a0 a1 a2 : frames f (run_ota (D:=D) sha256 hart i a0 a1 a2).
Proof.
  unfold run_ota, ota_apply_package, ota_verify_package, ota_channel_get, ota_channel_set. frame.
  all: apply frames_with_kpath; intros; frame.
Qed.

Lemma frames_run_catalog i a0 a1 a2 : frames f (run_catalog (D:=D) sha256 hart i a0 a1 a2).
Proof.
  unfold run_catalog, catalog_list, catalog_install, catalog_rollback. frame.
  all: apply frames_with_kname; intros; unfold catalog_install_kname; frame.
Qed.

End tools.

#[export] Hint Resolve frames_run_ota frames_run_catalog : frame.

(** ** The system calls and the traps *)

Section syscalls.
Context {D X : Type} `{BlockDevice D} {L : Layout} (kgp hart : Z) (f : D → X).
Context (Hblk : ∀ d s buf d', blk_write d s buf = Some d' → f d' = f d).
Abbreviation kstate := (kstate D).

Lemma frames_notify a : frames f (modify (S:=kstate) (sched_notify_runnable a)).
Proof.
  apply frames_modify. intros s. unfold sched_notify_runnable, make_runnable, sched_rq_add_locked. by repeat case_match.
Qed.

Lemma frames_onagent {A} i (m : M vstate A) : frames f (onagent (D:=D) i m).
Proof. intros s x s' E. unfold onagent in E. destruct (m _) as [[y [v a]]| |]; [|done|done]. by injection E as _ <-. Qed.
#[local] Hint Resolve frames_notify frames_onagent : frame.

Lemma frames_setup_stack i e : frames f (agent_setup_stack (D:=D) kgp i e).
Proof. unfold agent_setup_stack. frame. Qed.
#[local] Hint Resolve frames_setup_stack : frame.

Lemma frames_create e n c : frames f (agent_create (D:=D) kgp hart e n c).
Proof. unfold agent_create. frame. Qed.

Lemma frames_destroy i : frames f (agent_destroy (D:=D) i).
Proof. unfold agent_destroy. frame. Qed.

Lemma frames_send dst t p : frames f (agent_send (D:=D) hart dst t p).
Proof. unfold agent_send, push_inbox, ipc_allow, ipc_charge. frame. Qed.

Lemma frames_recv p : frames f (agent_recv (D:=D) hart p).
Proof. unfold agent_recv, push_inbox. frame. Qed.

Lemma frames_compact k : frames f (agent_compact_inbox (D:=D) hart k).
Proof. unfold agent_compact_inbox. frame. Qed.

Lemma frames_heap_map p : frames f (agent_heap_map (D:=D) hart p).
Proof. unfold agent_heap_map. frame. Qed.

Lemma frames_heap_cow a b : frames f (agent_heap_cow (D:=D) hart a b).
Proof. unfold agent_heap_cow. frame. Qed.

Lemma frames_setup_loaded i : frames f (agent_setup_loaded (D:=D) kgp i).
Proof. unfold agent_setup_loaded. frame. Qed.
#[local] Hint Resolve frames_setup_loaded : frame.

Lemma frames_load p n c : frames f (agent_load_from_path (D:=D) kgp hart p n c).
Proof. unfold agent_load_from_path, load_image, finish_load. frame. Qed.

(** Writing to the disk. *)
Lemma write_file_frame k d sec data size : f (write_file_loop k d sec data size).2 = f d.
Proof.
  revert d sec data size; induction k as [|k IH]; intros d sec data size; cbn [write_file_loop]; [done|].
  case_test; [done|]. destruct (blk_write _ _ _) as [d'|] eqn:E; [|done]. rewrite IH. by apply (Hblk _ _ _ _ E).
Qed.

Lemma sync_loop_frame n idx junk fs d sec r : f (sync_loop n idx junk fs d sec r).2 = f d.
Proof.
  revert idx fs d sec r; induction n as [|n IH]; intros idx fs d sec r; cbn [sync_loop]; [done|].
  destruct (ramfs_user_get fs idx RAMFS_FILE_SIZE) as [[size path] data]. case_match; [done|].
  destruct (persist_write_meta _ _ _) as [d1|] eqn:E1; [|done]. pose proof (Hblk _ _ _ _ E1) as H1.
  pose proof (write_file_frame (S (Z.to_nat size)) d1 (sec + 1) data size) as H2. unfold persist_write_file_data.
  destruct (write_file_loop _ _ _ _ _) as [[] d2]; simpl in *; [rewrite IH|]; congruence.
Qed.

Lemma frames_sync junk : frames f (agent_sync (D:=D) junk).
Proof.
  intros s x s' E. unfold agent_sync, persist_sync in E. destruct (negb (blk_ok s)); [by injection E as _ <-|].
  pose proof (sync_loop_frame (Z.to_nat (ramfs_user_count (kfs s))) 0 junk (kfs s) (kdisk s) 1 0) as Hl.
  destruct (sync_loop _ _ _ _ _ _ _) as [[[? r]|] d]; simpl in Hl; [|by injection E as _ <-].
  destruct (persist_write_super _ _) as [d2|] eqn:Ew; injection E as _ <-; simpl; [|done].
  by rewrite (Hblk _ _ _ _ Ew).
Qed.

(** The scheduler, while the other harts leave the part alone. *)
Lemma frames_schedule wait fuel t :
  (∀ n s, f (kdisk (wait n s)) = f (kdisk s)) → frames f (schedule_trap (D:=D) hart wait fuel t).
Proof.
  intros Hw. unfold schedule_trap. apply frames_bind; [frame|]. intros cur. revert cur t.
  induction fuel as [|k IH]; intros cur t; cbn [schedule_loop]; [frame|].
  apply frames_bind; [apply frames_modify; intros s; unfold trapframe_store; by repeat case_match|]. intros _.
  apply frames_bind.
  { apply frames_modify. intros s. unfold sched_release, make_runnable, sched_rq_add_locked. by repeat case_match. }
  intros _. apply frames_bind; [apply frames_act; intros s; unfold pick_next; by repeat case_match|]. intros next.
  assert (frames f (modify (S:=kstate) (wait k))) as Hwait by (intros s x s' [= _ <-]; apply Hw).
  unfold switch_in, sched_halt_if_done. frame.
  - apply frames_modify. intros s. unfold agent_set_current. by repeat case_match.
  - apply frames_modify. intros s. unfold activate_agent. by repeat case_match.
Qed.
End syscalls.

#[export] Hint Resolve frames_notify frames_onagent frames_create frames_destroy frames_send frames_recv frames_compact
  frames_heap_map frames_heap_cow frames_load : frame.

(** The number of the call and its arguments are not changed by stepping over it. *)
Lemma sepc_keeps x t : tf.get tf.A0 (tf.set tf.SEPC x t) = tf.get tf.A0 t.
Proof. unfold tf.get, tf.set. by rewrite !nth_lookup, list_lookup_insert_ne. Qed.

Section machine.
Context {B N P : Type} `{BlockDevice B} `{Nic N} `{Peripherals P} {L : Layout} (hart : Z) (cfg : config).
Context (kgp : Z) (sha256 : list Z → list Z).
Context (doh : option (list Z → Z → M (net N) (Z * Z))).
Context (https_port : list Z → Z → list Z → option (list Z) → list Z → Z → Z → M (net N) (Z * list Z)).
Context (https_ip : list Z → Z → Z → list Z → list Z → list Z → Z → Z → M (net N) (Z * list Z)).
Context (key : list Z) (kaddr : list Z → Z).
Abbreviation board := (board B N P).
Abbreviation kstate := (kstate board).

#[local] Instance machine : Devices board := board_devices hart cfg kgp sha256 doh https_port https_ip key kaddr.

(** Operations on the board outside the network. *)
Lemma frames_onboard {A} (m : M board A) : (∀ b x b', m b = Ret (x, b') → bnet b' = bnet b) → frames bnet (onboard m).
Proof.
  intros Hm s x s' E. unfold onboard, zoom in E. destruct (m (kdisk s)) as [[y b]| |] eqn:Eb; [|done|done].
  injection E as _ <-. exact (Hm _ _ _ Eb).
Qed.

Lemma frames_onper {A} (m : M P A) : frames (bnet (B:=B) (N:=N)) (onper m).
Proof. apply frames_onboard. intros b x b'. unfold zoom. destruct (m (bper b)) as [[y p]| |]; [|done|done]. by intros [= _ <-]. Qed.

Lemma frames_poll_char : frames bnet (Board.uart_poll_char (B:=B) (N:=N) (P:=P)).
Proof. apply frames_onboard. intros b x b'. destruct (uart_in b); by intros [= _ <-]. Qed.

Lemma frames_getline n : frames bnet (Board.uart_getline (B:=B) (N:=N) (P:=P) n).
Proof. unfold Board.uart_getline. frame. apply frames_onboard. by intros b y b' [= _ <-]. Qed.

Lemma frames_mesh i a0 a1 a2 : frames bnet (Fleet.run_mesh (B:=B) (N:=N) (P:=P) hart i a0 a1 a2).
Proof.
  unfold Fleet.run_mesh, mesh_status, mesh_beacon, mesh_probe. frame.
Qed.
#[local] Hint Resolve frames_onper frames_poll_char frames_getline frames_mesh : frame.

(** The tools that may use the network. *)
Definition network_tools : list Z := [TOOL_LLM; TOOL_HTTP; TOOL_FLEET; TOOL_REMOTE].

(** What the table says of the network. *)
Definition entry_ok (e : tool_entry (D:=board)) : Prop :=
  (∀ c i a0 a1 a2, te_check e = Some c → frames bnet (c i a0 a1 a2))
  ∧ ((∀ i a0 a1 a2, frames bnet (te_run e i a0 a1 a2)) ∨ te_tool e ∈ network_tools ∧ te_cap e ∈ [CAP_LLM; CAP_NET; CAP_LOG]).

Lemma entry_intro t cap c r :
  (∀ i a0 a1 a2, match c with Some c => frames bnet (c i a0 a1 a2) | None => True end) →
  (∀ i a0 a1 a2, frames bnet (r i a0 a1 a2)) → entry_ok (mk_entry t cap c r).
Proof. intros Hc Hr. split; [|by left]. cbn [te_check]. intros c' i a0 a1 a2 ->. apply Hc. Qed.

Lemma network_entry t cap c r :
  (∀ i a0 a1 a2, match c with Some c => frames bnet (c i a0 a1 a2) | None => True end) →
  t ∈ network_tools → cap ∈ [CAP_LLM; CAP_NET; CAP_LOG] → entry_ok (mk_entry t cap c r).
Proof. intros Hc Ht Hcap. split; [|by right]. cbn [te_check]. intros c' i a0 a1 a2 ->. apply Hc. Qed.

Ltac entry := first [apply network_entry; [intros; first [done|frame]|set_solver|set_solver]
                    |apply entry_intro; intros i a0 a1 a2; [first [done|frame]|]].

Lemma table_entries : Forall entry_ok (tool_table hart).
Proof.
  unfold tool_table. repeat (apply Forall_cons; split); [entry..|by apply Forall_nil].
  all: cbn [machine board_devices Tool.run_display Tool.run_input Tool.run_ota Tool.run_catalog Tool.run_mesh].
  all: unfold run_log, run_add, run_time, policy_fs_read, policy_fs_write, run_read, run_write, io_buffer,
    run_session_append, run_session_tail, run_session_read, run_session_compact, run_gpio, run_console, run_smp, run_tenant,
    run_audit, run_namespace, run_quota, run_policy, quota_burn_ipc, quota_notify, policy_op, load_policy,
    Services.run_display, Services.run_input; cbv zeta; frame.
  all: try (apply frames_with_text; intros t; frame).
  all: try (apply frames_act; intros s; by case_match).
  all: try (apply frames_zoom; done).
Qed.

Lemma read_only {A} (b : bool) (g : kstate → A) x s : ∃ r, (if b then gets g else ret x) s = Ret (r, s).
Proof. destruct b; eauto. Qed.

(** One call of a tool. *)
Lemma dispatch_mediated s i tool a0 a1 a2 rc s' :
  tool ∉ network_tools
  ∨ (∀ cap, cap ∈ [CAP_LLM; CAP_NET; CAP_LOG] → has cap (caps (agent_at s i)) = false) →
  tool_dispatch hart (Some i) tool a0 a1 a2 s = Ret (rc, s') →
  bnet (kdisk s') = bnet (kdisk s).
Proof.
  intros Hcase. revert rc s'.
  assert (∀ rc, frames (D:=board) bnet (logged i tool rc)) as Hlog by (intros rc; unfold logged; frame).
  unfold tool_dispatch. intros rc s' E.
  destruct (read_only (metered tool a0) (λ s, quota_tool_allow (kquota s) (aid i s)) 0 s) as [r1 E1]. rewrite (bind_ret _ _ _ _ _ E1) in E.
  destruct (negb (r1 =? 0)); [by apply (Hlog _ _ _ _ E)|].
  destruct (read_only (metered tool a0) (λ s, policy_tool_allow tool (kpolicy s)) 0 s) as [r2 E2]. rewrite (bind_ret _ _ _ _ _ E2) in E.
  destruct (negb (r2 =? 0)); [by apply (Hlog _ _ _ _ E)|].
  destruct (find _ _) as [e|] eqn:Ef; [|by apply (Hlog _ _ _ _ E)].
  destruct (find_Some _ _ _ Ef) as [Hin Ht%Z.eqb_eq].
  destruct (proj1 (Forall_forall _ _) table_entries e Hin) as [Hcheck [Hrun|[Hnet Hcap]]].
  - revert E. apply frames_bind; [frame|]. intros ok. destruct (negb ok); [apply Hlog|]. apply frames_bind.
    { destruct (te_check e); [by apply Hcheck|frame]. }
    intros r3. destruct (negb (r3 =? 0)); [apply Hlog|]. frame.
  - destruct Hcase as [Hno|Hno]; [by rewrite Ht in Hnet|]. rewrite bind_gets in E. unfold agent_has_cap in E.
    rewrite (Hno _ Hcap) in E. by apply (Hlog _ _ _ _ E).
Qed.

Lemma frames_exit code : frames bnet (agent_exit (D:=board) hart code).
Proof. unfold agent_exit. frame. Qed.

Lemma frames_store_cur t : frames bnet (store_cur (D:=board) hart t).
Proof. apply frames_modify. intros s. unfold trapframe_store_local, trapframe_store. by repeat case_match. Qed.

Lemma frames_sync_local t : frames bnet (trapframe_sync_local (D:=board) hart t).
Proof. unfold trapframe_sync_local, cur_tf. frame. apply frames_store_cur. Qed.

Lemma board_blk (d : board) sec buf d' : blk_write d sec buf = Some d' → bnet d' = bnet d.
Proof. simpl. destruct (blk_write (bdisk d) sec buf); [|done]. by intros [= <-]. Qed.
#[local] Hint Resolve frames_exit frames_store_cur frames_sync_local : frame.

(** The two system calls that may reach the network: a network tool, and a question to
    the language model. *)
Definition network_call (n a0 : Z) : Prop :=
  n = SYS_AGENT_LLM ∨ n = SYS_AGENT_TOOL ∧ i32 a0 ∈ network_tools.

#[local] Instance network_call_dec n a0 : Decision (network_call n a0).
Proof. unfold network_call. apply _. Defined.

(** An agent without the capabilities of the network tools. *)
Definition offline (s : kstate) (cur : option Z) : Prop :=
  ∀ cap, cap ∈ [CAP_LLM; CAP_NET; CAP_LOG] → agent_has_cap s cur cap = false.

Lemma llm_mediated a0 a1 a2 s rc s' :
  offline s (agent_current hart s) → Tool.agent_llm_query a0 a1 a2 s = Ret (rc, s') → bnet (kdisk s') = bnet (kdisk s).
Proof.
  intros Hoff. cbn [machine board_devices Tool.agent_llm_query]. unfold agent_llm_query. rewrite !bind_gets.
  rewrite (Hoff CAP_LLM) by set_solver. by intros [= _ <-].
Qed.

Lemma tool_mediated tool a0 a1 a2 s rc s' :
  tool ∉ network_tools ∨ offline s (agent_current hart s) →
  agent_tool hart tool a0 a1 a2 s = Ret (rc, s') → bnet (kdisk s') = bnet (kdisk s).
Proof.
  intros Hcase. unfold agent_tool. rewrite bind_gets. destruct (agent_current hart s) as [c|] eqn:Hc; [|by intros [= _ <-]].
  unfold agent_set_phase at 1. rewrite bind_modify, Hc. set (s1 := upd_agent c _ s). intros E.
  unfold bind at 1 in E. destruct (tool_dispatch hart (Some c) tool a0 a1 a2 s1) as [[r s2]| |] eqn:Ed; [|done|done].
  assert (bnet (kdisk s2) = bnet (kdisk s1)) as H2.
  { apply (dispatch_mediated s1 c tool a0 a1 a2 r s2); [|done]. destruct Hcase as [?|Hoff]; [by left|right].
    intros cap Hcap. specialize (Hoff cap Hcap). unfold agent_has_cap in *. rewrite <- Hoff. f_equal.
    unfold s1, agent_at, upd_agent. cbn [agents with_agents]. rewrite !nth_lookup, list_lookup_alter_eq.
    by destruct (agents s !! Z.to_nat c). }
  change (kdisk s1) with (kdisk s) in H2. rewrite <- H2. revert E. apply frames_bind; [frame|]. intros ?. frame.
Qed.

(** Every system call, as the table of calls dispatches it. *)
Lemma syscall_mediated junk n a0 a1 a2 a3 s rc s' :
  ¬ network_call n a0 ∨ offline s (agent_current hart s) →
  sched_handle_syscall kgp hart junk n a0 a1 a2 a3 s = Ret (rc, s') → bnet (kdisk s') = bnet (kdisk s).
Proof.
  intros Hcase. unfold sched_handle_syscall. case_test; [apply frames_create|]. case_test; [apply frames_destroy|].
  case_test; [apply frames_send|]. case_test; [apply frames_recv|]. case_test; [apply frames_gets|].
  case_test; [apply frames_write|]. destruct (n =? SYS_AGENT_TOOL) eqn:Et.
  { apply tool_mediated. bprop. destruct Hcase as [Hno|Hoff]; [left|by right]. intros Hin. apply Hno. by right. }
  destruct (n =? SYS_AGENT_LLM) eqn:El.
  { apply llm_mediated. bprop. destruct Hcase as [Hno|Hoff]; [|done]. destruct Hno. by left. }
  case_test; [apply frames_compact|]. case_test; [apply frames_gets|]. case_test; [apply frames_sync, board_blk|].
  case_test; [apply frames_gets|]. case_test; [apply frames_heap_map|]. case_test; [apply frames_heap_cow|].
  case_test; [apply frames_load|]. apply frames_ret.
Qed.

(** [C12] The network is reached only through five calls and three capabilities.  Take any
    trap: a system call of any number with any arguments, a timer interrupt, a page fault.
    Unless it is the system call that asks the language model or the one that runs the
    language model, HTTP, fleet or remote tool, and the current agent has one of CAP_LLM,
    CAP_NET and CAP_LOG, the handler leaves the whole network stack as it was (no frame
    sent or received, no connection or address changed), for every argument, policy and
    memory.  What other harts do while this one waits for work is assumed to leave it
    alone as well. *)
Theorem network_mediated junk wait fuel t scause stval s r s' :
  (∀ n s, bnet (kdisk (wait n s)) = bnet (kdisk s)) →
  (scause = SCAUSE_ECALL_U → network_call (i64 (tf.get tf.A7 t)) (tf.get tf.A0 t) → offline s (agent_current hart s)) →
  trap_handler kgp hart junk wait fuel t scause stval s = Ret (r, s') →
  bnet (kdisk s') = bnet (kdisk s).
Proof.
  intros Hw Hcase. unfold trap_handler. destruct (scause =? SCAUSE_ECALL_U) eqn:Ee.
  - unfold handle_ecall. cbv zeta. bprop.
    case_test; [apply frames_bind; [frame|intros ?; by apply frames_schedule]|].
    case_test; [apply frames_bind; [frame|intros ?]; apply frames_bind; [frame|intros ?; by apply frames_schedule]|].
    case_test; [apply frames_bind; [frame|intros ?]; frame|].
    intros E. unfold bind at 1 in E. destruct (sched_handle_syscall _ _ _ _ _ _ _ _ s) as [[rc s1]| |] eqn:Es; [|done|done].
    rewrite <- (λ Hc, syscall_mediated _ _ _ _ _ _ _ _ _ Hc Es).
    + revert E. apply frames_bind; [frame|intros ?; frame].
    + rewrite sepc_keeps. destruct (decide (network_call (i64 (tf.get tf.A7 t)) (tf.get tf.A0 t)));
        [right; by apply Hcase|by left].
  - case_test; [apply frames_ret|]. case_test; [|case_test].
    + unfold return_cur, cur_tf. apply frames_bind; [frame|]. intros cur. case_test; [frame|].
      destruct cur; [|frame]. apply frames_bind; [frame|]. intros ?. by apply frames_schedule.
    + apply frames_bind; [frame|]. intros cur. destruct cur as [c|]; [|frame].
      unfold return_cur, cur_tf. apply frames_bind; [frame|]. intros ok. case_test; [frame|].
      apply frames_bind; [frame|intros ?]. apply frames_bind; [frame|intros ?; by apply frames_schedule].
    + apply frames_halt.
Qed.


End machine.

(** Agent 1 of a machine with a simple card adds two numbers. *)
Definition demo_machine : kstate (board unit wire echo_host) :=
  mk_kstate [zero_agent; upd.id 1 (upd.caps CAP_MATH (upd.atf (Some tf.zero) zero_agent))] 2 0 true [Some 1; None; None; None] [[]; []; []; []] 1 [0; 0; 0; 0]
    boot_vm zero_fs zero_quota zero_policy false (bridge_board []) [].

#[local] Instance no_disk : BlockDevice unit := {
  blk_read _ _ := None; blk_write _ _ _ := None; blk_sectors _ := 0
}.

(** A trap of this machine: the agent calls the tool that adds. *)
Definition demo_frame : trapframe :=
  tf.set tf.A2 3 (tf.set tf.A1 2 (tf.set tf.A0 TOOL_ADD (tf.set tf.A7 SYS_AGENT_TOOL tf.zero))).

Abbreviation demo_trap :=
  (trap_handler (Devices0 := board_devices 0 (mk_config false false false false) 0 (λ l, l) None (λ _ _ _ _ _ _ _, ret (EIO, []))
    (λ _ _ _ _ _ _ _ _, ret (EIO, [])) [] (λ _, 0)) 0 0 [] (λ _ s, s) 1 demo_frame SCAUSE_ECALL_U 0 demo_machine).

Definition demo_after : kstate (board unit wire echo_host) :=
  match demo_trap with Ret (_, s) => s | _ => demo_machine end.

Definition demo_result : trapframe := tf.set tf.SEPC 4 (tf.set tf.A0 5 demo_frame).

Lemma network_mediated_witness :
  demo_trap = Ret (Some demo_result, demo_after) ∧ bnet (kdisk demo_after) = bnet (kdisk demo_machine).
Proof.
  assert (demo_trap = Ret (Some demo_result, demo_after)) as E by (vm_compute; reflexivity). split; [exact E|].
  refine (network_mediated 0 (mk_config false false false false) 0 (λ l, l) None (λ _ _ _ _ _ _ _, ret (EIO, []))
    (λ _ _ _ _ _ _ _ _, ret (EIO, [])) [] (λ _, 0) [] (λ _ s, s) 1 demo_frame SCAUSE_ECALL_U 0 demo_machine
    (Some demo_result) demo_after _ _ E).
  - reflexivity.
  - intros _ [H|[_ H]]; [vm_compute in H; discriminate H|exfalso; revert H; vm_compute].
    intros H. repeat (apply elem_of_cons in H as [H|H]; [discriminate H|]). by apply elem_of_nil in H.
Defined.
