(* ===== verification/Virtio.v ===== *)
(** * Virtqueues (kernel/virtio.c, virtio_blk.c, virtio_net.c)

    The split virtqueue that the three drivers share (each has its own copy of the
    code, with four or eight entries), and the bus on which they find their devices.

    A device is reached in two ways: by its registers (the class [Bus]) and by the
    memory it shares with the driver, which it may change between two looks of the
    driver; what it does there is an argument of the waiting loop.  The address of a
    static buffer is a number of the model.  Fences do nothing in a model where the
    device acts only between the driver's accesses. *)

From S2P Require Import Prelude Persist.

Definition VIRTIO_MAGIC : Z := 0x74726976.
Definition VIRTIO_STATUS_ACK : Z := 1.
Definition VIRTIO_STATUS_DRIVER : Z := 2.
Definition VIRTIO_STATUS_FEATURES_OK : Z := 8.
Definition VIRTIO_STATUS_DRIVER_OK : Z := 4.
Definition VRING_DESC_F_NEXT : Z := 1.
Definition VRING_DESC_F_WRITE : Z := 2.

(** The platform's slots (kernel/platform_riscv_virt.c). *)
Definition platform_virtio_mmio_base : Z := 0x10001000.
Definition platform_virtio_mmio_stride : Z := 0x1000.
Definition platform_virtio_mmio_count : Z := 8.

(** The registers of the devices on the bus: reading and writing at the base of a
    slot and an offset. *)
Class Bus (V : Type) := {
  mmio_read : Z → Z → V → Z * V;
  mmio_write : Z → Z → Z → V → V
}.

Record vring_desc := mk_desc { d_addr : Z; d_len : Z; d_flags : Z; d_next : Z }.

(** The driver's record of a queue and the three parts in shared memory. *)
Record virtqueue := mk_vq {
  vq_mmio : Z;
  vq_qidx : Z;
  vq_last_used : Z;
  vq_desc : list vring_desc;
  vq_avail_idx : Z;
  vq_avail_ring : list Z;
  vq_used_idx : Z;
  vq_used_ring : list (Z * Z)
}.

Definition zero_desc : vring_desc := mk_desc 0 0 0 0.

(** The static variables of a queue of [size] entries. *)
Definition zero_vq (size : nat) : virtqueue :=
  mk_vq 0 0 0 (replicate size zero_desc) 0 (replicate size 0) 0 (replicate size (0, 0)).

Definition set_desc (i : nat) (d : vring_desc) (q : virtqueue) : virtqueue :=
  mk_vq (vq_mmio q) (vq_qidx q) (vq_last_used q) (<[i := d]> (vq_desc q)) (vq_avail_idx q) (vq_avail_ring q)
    (vq_used_idx q) (vq_used_ring q).
Definition set_last_used (n : Z) (q : virtqueue) : virtqueue :=
  mk_vq (vq_mmio q) (vq_qidx q) n (vq_desc q) (vq_avail_idx q) (vq_avail_ring q) (vq_used_idx q) (vq_used_ring q).
Definition set_used (n : Z) (ring : list (Z * Z)) (q : virtqueue) : virtqueue :=
  mk_vq (vq_mmio q) (vq_qidx q) (vq_last_used q) (vq_desc q) (vq_avail_idx q) (vq_avail_ring q) n ring.

Definition vq_bind (mmio qidx : Z) (q : virtqueue) : virtqueue :=
  mk_vq mmio qidx 0 (vq_desc q) 0 (vq_avail_ring q) 0 (vq_used_ring q).

(** Filling the next entry of the available ring. *)
Definition vq_publish (size i : Z) (q : virtqueue) : virtqueue :=
  mk_vq (vq_mmio q) (vq_qidx q) (vq_last_used q) (vq_desc q) (u16 (vq_avail_idx q + 1))
    (<[Z.to_nat (Z.land (vq_avail_idx q) (size - 1)) := u16 i]> (vq_avail_ring q)) (vq_used_idx q) (vq_used_ring q).

Section registers.
Context {V : Type} `{Bus V}.

Definition reg_write (base off val : Z) : M V unit := modify (mmio_write base off val).
Definition reg_read (base off : Z) : M V Z := act (mmio_read base off).

(** The search for a device on the slots from [i] on; [stop] is set when another
    version of the interface ends the search. *)
Fixpoint find_mmio (n : nat) (i devid : Z) (stop : bool) : M V Z :=
  match n with
  | O => ret 0
  | S n' =>
      let base := platform_virtio_mmio_base + i * platform_virtio_mmio_stride in
      let! magic := reg_read base 0x000 in
      if negb (magic =? VIRTIO_MAGIC) then find_mmio n' (i + 1) devid stop
      else
        let! version := reg_read base 0x004 in
        let! id := reg_read base 0x008 in
        if negb (version =? 2) then if stop then ret 0 else find_mmio n' (i + 1) devid stop
        else if negb (id =? devid) then find_mmio n' (i + 1) devid stop
        else ret base
  end.

(** The two halves of an address go to consecutive registers. *)
Definition addr_write (base off addr : Z) : M V unit :=
  reg_write base off (u32 addr) ;; reg_write base (off + 4) (u32 (Z.shiftr addr 32)).

(** [desc], [avail] and [used] are the addresses of the three parts. *)
Definition vq_setup (size : Z) (q : virtqueue) (desc avail used : Z) : M V Z :=
  let base := vq_mmio q in
  reg_write base 0x030 (vq_qidx q) ;;
  let! qmax := reg_read base 0x034 in
  if (qmax =? 0) || (qmax <? size) then ret EINVAL
  else
    reg_write base 0x038 size ;;
    addr_write base 0x080 desc ;;
    addr_write base 0x090 avail ;;
    addr_write base 0x0a0 used ;;
    reg_write base 0x044 1 ;;
    ret 0.

Definition negotiate_features (base : Z) : M V unit :=
  reg_write base 0x014 0 ;;
  reg_write base 0x014 1 ;;
  reg_read base 0x010 ;;
  reg_read base 0x010 ;;
  reg_write base 0x024 0 ;;
  reg_write base 0x020 0 ;;
  reg_write base 0x024 1 ;;
  reg_write base 0x020 0.

(** The reset and the negotiation, the same in the three drivers; [false] when the
    device refuses the features. *)
Definition device_start (base : Z) : M V bool :=
  reg_write base 0x070 0 ;;
  reg_write base 0x070 (Z.lor VIRTIO_STATUS_ACK VIRTIO_STATUS_DRIVER) ;;
  negotiate_features base ;;
  reg_write base 0x070 (Z.lor (Z.lor VIRTIO_STATUS_ACK VIRTIO_STATUS_DRIVER) VIRTIO_STATUS_FEATURES_OK) ;;
  let! st := reg_read base 0x070 in
  if Z.land st VIRTIO_STATUS_FEATURES_OK =? 0 then reg_write base 0x070 0 ;; ret false else ret true.

Definition device_go (base : Z) : M V unit :=
  reg_write base 0x070 (Z.lor (Z.lor (Z.lor VIRTIO_STATUS_ACK VIRTIO_STATUS_DRIVER) VIRTIO_STATUS_FEATURES_OK) VIRTIO_STATUS_DRIVER_OK).

(** Publishing a descriptor and notifying the device. *)
Definition vq_submit (size i : Z) : M (virtqueue * V) unit :=
  modify (λ p, let q := vq_publish size i p.1 in (q, mmio_write (vq_mmio q) 0x050 (vq_qidx q) p.2)).

End registers.

(** ** Waiting and consuming *)

(** [run] is what the device does before the next look at the used index. *)
Definition vq_wait_used {S} (run : M S unit) (q : S → virtqueue) (timeout_loops : positive) : M S Z :=
  let! r := ploop (λ _ : unit, run ;; let! q := gets q in
                     ret (if vq_used_idx q =? vq_last_used q then inl tt else inr tt)) timeout_loops tt in
  ret (match r with inr _ => 0 | inl _ => ETIMEDOUT end).

(** The result, the used element and the queue. *)
Definition vq_consume (size : Z) (q : virtqueue) : Z * (Z * Z) * virtqueue :=
  if vq_used_idx q =? vq_last_used q then (EAGAIN, (0, 0), q)
  else
    (0, nth (Z.to_nat (Z.land (vq_last_used q) (size - 1))) (vq_used_ring q) (0, 0),
     set_last_used (u16 (vq_last_used q + 1)) q).

(** ** Lemmas *)

(** A position in a ring of four. *)
Lemma land3 x : 0 ≤ Z.land x 3 < 4.
Proof. change 3 with (Z.ones 2). rewrite Z.land_ones by lia. apply Z.mod_pos_bound. lia. Qed.

(** A wait succeeds as soon as the used index moves, and gives up after the bound. *)
Lemma vq_wait_done {S} (run : S → S) (q : S → virtqueue) loops s n :
  (n < Pos.to_nat loops)%nat →
  (∀ k, (1 ≤ k ≤ n)%nat → vq_used_idx (q (Nat.iter k run s)) = vq_last_used (q (Nat.iter k run s))) →
  vq_used_idx (q (Nat.iter (1 + n) run s)) ≠ vq_last_used (q (Nat.iter (1 + n) run s)) →
  vq_wait_used (modify run) q loops s = Ret (0, Nat.iter (1 + n) run s).
Proof.
  intros Hn Hbefore Hafter. unfold vq_wait_used. set (f := λ _ : unit, _).
  assert (∀ m s0, (n < m)%nat → (∀ k, (1 ≤ k ≤ n)%nat → vq_used_idx (q (Nat.iter k run s0)) = vq_last_used (q (Nat.iter k run s0))) →
    vq_used_idx (q (Nat.iter (1 + n) run s0)) ≠ vq_last_used (q (Nat.iter (1 + n) run s0)) →
    nloop f m tt s0 = Ret (inr tt, Nat.iter (1 + n) run s0)) as H.
  { clear s Hn Hbefore Hafter. induction n as [|n IH]; intros m s0 Hm Hb Ha; (destruct m as [|m]; [lia|]); cbn [nloop]; unfold f at 1.
    - unfold bind, modify, gets, ret. cbn [Nat.iter Nat.add] in *. destruct (Z.eqb_spec (vq_used_idx (q (run s0))) (vq_last_used (q (run s0)))); done.
    - pose proof (Hb 1%nat ltac:(lia)) as H1. cbn [Nat.iter] in H1. unfold bind, modify, gets, ret at 1.
      destruct (Z.eqb_spec (vq_used_idx (q (run s0))) (vq_last_used (q (run s0)))); [|done].
      assert (∀ k, Nat.iter k run (run s0) = Nat.iter (1 + k) run s0) as Hit by (intros k; symmetry; apply Nat.iter_succ_r).
      rewrite (IH m (run s0)); [by rewrite (Hit (1 + n)%nat)|lia| |].
      + intros k Hk. rewrite Hit. apply Hb. lia.
      + by rewrite (Hit (1 + n)%nat). }
  unfold bind at 1. rewrite ploop_nloop, H; done.
Qed.

(** Operations on the registers always return. *)
Section returns.
Context {V : Type} `{Bus V}.

Definition returns {S A} (m : M S A) : Prop := ∀ s, ∃ x s', m s = Ret (x, s').

Lemma returns_ret {S A} (x : A) : returns (ret (S:=S) x).
Proof. intros s. by exists x, s. Qed.

Lemma returns_bind {S A B} (m : M S A) (k : A → M S B) : returns m → (∀ x, returns (k x)) → returns (bind m k).
Proof. intros Hm Hk s. destruct (Hm s) as (x & s' & E). rewrite (bind_ret _ _ _ _ _ E). apply Hk. Qed.

Lemma returns_if {S A} (b : bool) (m1 m2 : M S A) : returns m1 → returns m2 → returns (if b then m1 else m2).
Proof. by destruct b. Qed.

Lemma reg_write_returns base off val : returns (reg_write base off val).
Proof. intros v. by eexists _, _. Qed.

Lemma reg_read_returns base off : returns (reg_read base off).
Proof. intros v. unfold reg_read, act. destruct (mmio_read base off v). eauto. Qed.

End returns.

Create HintDb returns.
#[export] Hint Resolve returns_ret returns_bind returns_if reg_write_returns reg_read_returns : returns.

Section returns_more.
Context {V : Type} `{Bus V}.

Lemma find_mmio_returns n i devid stop : returns (find_mmio n i devid stop).
Proof. revert i. induction n as [|n IH]; intros i; cbn [find_mmio]; auto 8 with returns. Qed.

Lemma device_start_returns base : returns (device_start base).
Proof. unfold device_start, negotiate_features. auto 30 with returns. Qed.

Lemma vq_setup_returns size q a b c : returns (vq_setup size q a b c).
Proof. unfold vq_setup, addr_write. auto 30 with returns. Qed.

Lemma device_go_returns base : returns (device_go base).
Proof. unfold device_go. auto with returns. Qed.

End returns_more.
#[export] Hint Resolve find_mmio_returns device_start_returns vq_setup_returns device_go_returns : returns.

(** ** Total triples over the parts of a driver *)

Section triples.
Context {S : Type}.
Implicit Types (P : S → Prop).

Lemma triple_zoom {T A} P (g : S → T) (p : T → S → S) (m : M T A) Q :
  returns m → (∀ s x t, P s → Q x (p t s)) → triple P (zoom g p m) Q.
Proof. intros Hm HQ s Hs. destruct (Hm (g s)) as (x & t & E). exists x, (p t s). unfold zoom. rewrite E. auto. Qed.

Lemma triple_wait P (run : S → S) q loops :
  (∀ s, P s → P (run s)) → triple P (vq_wait_used (modify run) q loops) (λ _, P).
Proof.
  intros Hrun. unfold vq_wait_used. apply (triple_bind _ _ (λ _, P)); [|intros r; by apply triple_ret].
  intros s Hs. rewrite ploop_nloop. revert s Hs. generalize tt. induction (Pos.to_nat loops) as [|n IH]; intros [] s Hs; cbn [nloop].
  - by exists (inl tt), s.
  - unfold bind, modify, gets, ret. destruct (_ =? _); [apply IH; auto|]. exists (inr tt), (run s). auto.
Qed.

(** An operation that returns and keeps a property of the state. *)
Definition stays {A} P (m : M S A) : Prop := triple P m (λ _, P).

Lemma stays_ret {A} P (x : A) : stays P (ret x).
Proof. by apply triple_ret. Qed.

Lemma stays_bind {A B} P (m : M S A) (k : A → M S B) : stays P m → (∀ x, stays P (k x)) → stays P (bind m k).
Proof. apply triple_bind. Qed.

Lemma stays_gets {A} P (f : S → A) : stays P (gets f).
Proof. by apply triple_gets. Qed.

Lemma stays_modify P f : (∀ s, P s → P (f s)) → stays P (modify f).
Proof. intros Hf. by apply triple_modify. Qed.

Lemma stays_if {A} P (b : bool) (m1 m2 : M S A) : stays P m1 → stays P m2 → stays P (if b then m1 else m2).
Proof. by destruct b. Qed.

Lemma stays_zoom {T A} P (g : S → T) (p : T → S → S) (m : M T A) : returns m → (∀ s t, P s → P (p t s)) → stays P (zoom g p m).
Proof. intros Hm Hp. apply triple_zoom; auto. Qed.

End triples.

Create HintDb stays.
#[export] Hint Resolve stays_ret stays_bind stays_gets stays_if : stays.
