(* ===== verification/VirtioBlk.v ===== *)
(** * The block driver (kernel/virtio_blk.c)

    One request at a time: a header, a sector of data and a status byte in three
    chained descriptors of one queue.  The driver's shared memory is the record
    [blk_mem]; the device at the other side is the class [BlkHost], whose laws
    ([BlkHostLaws]) state what a virtio block device does with such a chain.  The
    theorem is the contract that persistence relies on: driver and device together
    are a disk. *)

From S2P Require Import Prelude Persist Virtio.

Definition VIRTIO_DEV_BLK : Z := 2.
Definition VIRTIO_BLK_T_IN : Z := 0.
Definition VIRTIO_BLK_T_OUT : Z := 1.
Definition VQ_SIZE : Z := 4.

Record virtio_blk_outhdr := mk_outhdr { oh_type : Z; oh_reserved : Z; oh_sector : Z }.

(** What the driver shares with the device. *)
Record blk_mem := mk_bmem {
  blkq : virtqueue;
  blk_outhdr : virtio_blk_outhdr;
  blk_data : list Z;
  blk_status : Z
}.

(** The device's activity on the shared memory between two looks of the driver. *)
Class BlkHost (V : Type) := { blk_run : blk_mem * V → blk_mem * V }.

Record blk (V : Type) := mk_blk {
  blk_dev : V;
  blk_mmio : Z;
  blk_ready : bool;
  blk_shared : blk_mem
}.
Arguments mk_blk {V}. Arguments blk_dev {V}. Arguments blk_mmio {V}. Arguments blk_ready {V}. Arguments blk_shared {V}.

Definition with_bq (q : virtqueue) (m : blk_mem) : blk_mem := mk_bmem q (blk_outhdr m) (blk_data m) (blk_status m).

Section driver.
Context {V : Type} `{Bus V} `{BlkHost V}.
(** The addresses of the static buffers and of the queue. *)
Context (a_outhdr a_data a_status a_desc a_avail a_used : Z).
Abbreviation blk := (blk V).

Definition set_dev (v : V) (b : blk) : blk := mk_blk v (blk_mmio b) (blk_ready b) (blk_shared b).
Definition set_shared (m : blk_mem) (b : blk) : blk := mk_blk (blk_dev b) (blk_mmio b) (blk_ready b) m.
Definition ondev {A} (m : M V A) : M blk A := zoom blk_dev set_dev m.

Definition find_blk_mmio : M V Z := find_mmio (Z.to_nat platform_virtio_mmio_count) 0 VIRTIO_DEV_BLK false.

Definition virtio_blk_ready (b : blk) : bool := blk_ready b.

Definition virtio_blk_init : M blk Z :=
  let! ready := gets blk_ready in
  if ready : bool then ret 0
  else
    let! base := ondev find_blk_mmio in
    modify (λ b, mk_blk (blk_dev b) base (blk_ready b) (blk_shared b)) ;;
    if base =? 0 then ret ENODEV
    else
      let! ok := ondev (device_start base) in
      if negb ok then ret EIO
      else
        modify (λ b, set_shared (with_bq (vq_bind base 0 (blkq (blk_shared b))) (blk_shared b)) b) ;;
        let! q := gets (λ b, blkq (blk_shared b)) in
        let! rc := ondev (vq_setup VQ_SIZE q a_desc a_avail a_used) in
        if negb (rc =? 0) then ret EIO
        else
          ondev (device_go base) ;;
          modify (λ b, mk_blk (blk_dev b) (blk_mmio b) true (blk_shared b)) ;;
          ret 0.

(** The three descriptors of a request. *)
Definition blk_chain (write : bool) (q : virtqueue) : virtqueue :=
  let data_flags := if write then VRING_DESC_F_NEXT else Z.lor VRING_DESC_F_NEXT VRING_DESC_F_WRITE in
  set_desc 2 (mk_desc a_status 1 VRING_DESC_F_WRITE 0)
    (set_desc 1 (mk_desc a_data VIRTIO_SECTOR_SIZE data_flags 2)
      (set_desc 0 (mk_desc a_outhdr 16 VRING_DESC_F_NEXT 1) q)).

(** The shared memory when the request is published. *)
Definition blk_prepare (sector : Z) (buf : list Z) (write : bool) (m : blk_mem) : blk_mem :=
  mk_bmem (blk_chain write (set_last_used (vq_used_idx (blkq m)) (blkq m)))
    (mk_outhdr (if write then VIRTIO_BLK_T_OUT else VIRTIO_BLK_T_IN) 0 (u64 sector))
    (if write then splice (blk_data m) 0 (take (Z.to_nat VIRTIO_SECTOR_SIZE) buf) else blk_data m) 0xff.

Definition device_acts : blk → blk :=
  λ b, let '(m, v) := blk_run (blk_shared b, blk_dev b) in mk_blk v (blk_mmio b) (blk_ready b) m.

(** The result and the bytes read. *)
Definition blk_transfer (sector : Z) (buf : list Z) (write : bool) : M blk (Z * list Z) :=
  let! ready := gets blk_ready in
  if negb ready then ret (ENODEV, [])
  else
    modify (λ b, set_shared (blk_prepare sector buf write (blk_shared b)) b) ;;
    zoom (λ b, (blkq (blk_shared b), blk_dev b)) (λ p b, set_dev p.2 (set_shared (with_bq p.1 (blk_shared b)) b))
      (vq_submit VQ_SIZE 0) ;;
    let! rc := vq_wait_used (modify device_acts) (λ b, blkq (blk_shared b)) 500000 in
    if negb (rc =? 0) then ret (ETIMEDOUT, [])
    else
      modify (λ b, set_shared (with_bq (vq_consume VQ_SIZE (blkq (blk_shared b))).2 (blk_shared b)) b) ;;
      let! m := gets blk_shared in
      if negb (blk_status m =? 0) then ret (EIO, [])
      else ret (0, if write then [] else blk_data m).

Definition virtio_blk_read_sector (sector : Z) : M blk (Z * list Z) := blk_transfer sector [] false.

Definition virtio_blk_write_sector (sector : Z) (buf : list Z) : M blk Z :=
  let! r := blk_transfer sector buf true in ret r.1.

End driver.

(** ** What the device promises *)

(** The request in shared memory that the device serves: a chain of the three
    descriptors published at the position [seen] of the available ring. *)
Record request (a_outhdr a_data a_status : Z) (m : blk_mem) (seen : Z) (write : bool) (sector : Z) : Prop := {
  rq_hdr : blk_outhdr m = mk_outhdr (if write then VIRTIO_BLK_T_OUT else VIRTIO_BLK_T_IN) 0 sector;
  rq_d0 : vq_desc (blkq m) !! 0%nat = Some (mk_desc a_outhdr 16 VRING_DESC_F_NEXT 1);
  rq_d1 : vq_desc (blkq m) !! 1%nat = Some (mk_desc a_data VIRTIO_SECTOR_SIZE
            (if write then VRING_DESC_F_NEXT else Z.lor VRING_DESC_F_NEXT VRING_DESC_F_WRITE) 2);
  rq_d2 : vq_desc (blkq m) !! 2%nat = Some (mk_desc a_status 1 VRING_DESC_F_WRITE 0);
  rq_avail : vq_avail_idx (blkq m) = u16 (seen + 1);
  rq_slot : vq_avail_ring (blkq m) !! Z.to_nat (Z.land seen 3) = Some 0;
  rq_data : zlen (blk_data m) = VIRTIO_SECTOR_SIZE
}.

(** The contents of a sector. *)
Definition sector_of (d : gmap Z (list Z)) (t : Z) : list Z := default [] (d !! t).

(** A virtio block device with [bh_cap] sectors [bh_disk]: it has taken the chains
    before the position [bh_seen]; it takes a published chain within a bounded
    number of steps, moves the sector, reports success and adds an element to the
    used ring, and it changes nothing else.  Register writes do not move data. *)
Class BlkHostLaws (V : Type) `{Bus V} `{BlkHost V} (a_outhdr a_data a_status : Z) := {
  bh_disk : V → gmap Z (list Z);
  bh_cap : V → Z;
  bh_seen : V → Z;
  bh_notify : ∀ base off val v, let v' := mmio_write base off val v in
    bh_disk v' = bh_disk v ∧ bh_cap v' = bh_cap v ∧ (off = 0x050 → bh_seen v' = bh_seen v);
  bh_serves : ∀ m v write sector, request a_outhdr a_data a_status m (bh_seen v) write sector → 0 ≤ sector < bh_cap v →
    ∃ (n : nat) v' ring, Z.of_nat n < 500000
      ∧ (∀ k, (k ≤ n)%nat → blkq (Nat.iter k blk_run (m, v)).1 = blkq m)
      ∧ Nat.iter (1 + n) blk_run (m, v)
        = (mk_bmem (set_used (u16 (vq_used_idx (blkq m) + 1)) ring (blkq m)) (blk_outhdr m)
             (if write then blk_data m else sector_of (bh_disk v) sector) 0, v')
      ∧ bh_seen v' = u16 (bh_seen v + 1) ∧ bh_cap v' = bh_cap v
      ∧ bh_disk v' = (if write then <[sector := blk_data m]> (bh_disk v) else bh_disk v)
}.

(** ** The driver and the device are a disk *)

Inductive blk_op :=
  | Rd (sector : Z)
  | Wr (sector : Z) (buf : list Z).

Section refinement.
Context {V : Type} `{Bus V} `{BlkHost V} (a_outhdr a_data a_status a_desc a_avail a_used : Z).
Context `{!BlkHostLaws V a_outhdr a_data a_status}.
Implicit Types (b : blk V) (m : blk_mem) (v : V).
Abbreviation disk b := (bh_disk (a_outhdr:=a_outhdr) (a_data:=a_data) (a_status:=a_status) (blk_dev b)).
Abbreviation cap b := (bh_cap (a_outhdr:=a_outhdr) (a_data:=a_data) (a_status:=a_status) (blk_dev b)).
Abbreviation seen v := (bh_seen (a_outhdr:=a_outhdr) (a_data:=a_data) (a_status:=a_status) v).

(** Between requests: the driver and the device agree on the position in the ring. *)
Record blk_inv b : Prop := {
  bi_ready : blk_ready b = true;
  bi_desc : length (vq_desc (blkq (blk_shared b))) = 4%nat;
  bi_ring : length (vq_avail_ring (blkq (blk_shared b))) = 4%nat;
  bi_avail : vq_avail_idx (blkq (blk_shared b)) = seen (blk_dev b);
  bi_used : 0 ≤ vq_used_idx (blkq (blk_shared b)) < 65536;
  bi_data : zlen (blk_data (blk_shared b)) = VIRTIO_SECTOR_SIZE;
  bi_disk : ∀ t, 0 ≤ t < cap b → zlen (sector_of (disk b) t) = VIRTIO_SECTOR_SIZE
}.

Lemma iter_device k b :
  Nat.iter k device_acts b
  = mk_blk (Nat.iter k blk_run (blk_shared b, blk_dev b)).2 (blk_mmio b) (blk_ready b)
      (Nat.iter k blk_run (blk_shared b, blk_dev b)).1.
Proof.
  induction k as [|k IH]; [by destruct b|]. cbn [Nat.iter nat_rect]. unfold Nat.iter in *. rewrite IH. unfold device_acts.
  cbn [blk_shared blk_dev blk_mmio blk_ready]. rewrite <- surjective_pairing. by destruct (blk_run _).
Qed.

(** The shared memory and the device after a request is published. *)
Definition published b (sector : Z) (buf : list Z) (write : bool) : blk_mem * V :=
  let m := blk_prepare a_outhdr a_data a_status sector buf write (blk_shared b) in
  let q := vq_publish VQ_SIZE 0 (blkq m) in
  (with_bq q m, mmio_write (vq_mmio q) 0x050 (vq_qidx q) (blk_dev b)).

Lemma prepared_data b sector buf write :
  zlen (blk_data (blk_shared b)) = VIRTIO_SECTOR_SIZE → (write = true → zlen buf = VIRTIO_SECTOR_SIZE) →
  blk_data (published b sector buf write).1 = if write then buf else blk_data (blk_shared b).
Proof.
  intros Hd Hb. cbn [published fst with_bq blk_data blk_prepare]. destruct write; [|done]. specialize (Hb eq_refl).
  rewrite take_ge by (unfold zlen in Hb; lia). unfold splice. rewrite take_0, drop_ge; [by rewrite app_nil_r|].
  unfold zlen in *. lia.
Qed.

Lemma published_request b sector buf write :
  blk_inv b → 0 ≤ sector < 18446744073709551616 → (write = true → zlen buf = VIRTIO_SECTOR_SIZE) →
  request a_outhdr a_data a_status (published b sector buf write).1 (seen (blk_dev b)) write sector.
Proof.
  intros [Hr Hd Hg Ha Hu Hdata Hdisk] Hs Hbuf. split.
  - cbn. by rewrite u64_small by lia.
  - cbn. rewrite !list_lookup_insert_ne by lia. apply list_lookup_insert_eq. lia.
  - cbn. rewrite list_lookup_insert_ne by lia. apply list_lookup_insert_eq. rewrite length_insert. lia.
  - cbn. apply list_lookup_insert_eq. rewrite !length_insert. lia.
  - cbn. by rewrite <- Ha.
  - cbn. rewrite Ha. change (Z.land (seen (blk_dev b)) 3) with (Z.land (seen (blk_dev b)) (VQ_SIZE - 1)).
    apply list_lookup_insert_eq. rewrite Hg. pose proof (land3 (seen (blk_dev b)) : 0 ≤ Z.land (seen (blk_dev b)) (VQ_SIZE - 1) < 4). lia.
  - rewrite prepared_data by done. destruct write; auto.
Qed.

(** The device serves it before the driver gives up. *)
Lemma wait_served b sector buf write n m' v' :
  let p := published b sector buf write in
  blk_inv b → Z.of_nat n < 500000 → (∀ k, (k ≤ n)%nat → blkq (Nat.iter k blk_run p).1 = blkq p.1) →
  Nat.iter (1 + n) blk_run p = (m', v') → vq_used_idx (blkq m') = u16 (vq_used_idx (blkq (blk_shared b)) + 1) →
  vq_last_used (blkq m') = vq_used_idx (blkq (blk_shared b)) →
  vq_wait_used (modify device_acts) (λ b, blkq (blk_shared b)) 500000 (set_dev p.2 (set_shared p.1 b))
  = Ret (0, mk_blk v' (blk_mmio b) true m').
Proof.
  intros p Hi Hn Hbefore Hdone Hused Hlast.
  rewrite (vq_wait_done device_acts (λ b, blkq (blk_shared b)) 500000 _ n).
  - rewrite iter_device. change (Nat.iter (1 + n) blk_run _) with (Nat.iter (1 + n) blk_run p). rewrite Hdone.
    simpl. by rewrite (bi_ready b Hi).
  - rewrite <- (Nat2Z.id n), <- Z2Nat.inj_pos. lia.
  - intros k Hk. rewrite iter_device. cbn [blk_shared]. change (Nat.iter k blk_run _) with (Nat.iter k blk_run p).
    by rewrite Hbefore by lia.
  - rewrite iter_device. change (Nat.iter (1 + n) blk_run _) with (Nat.iter (1 + n) blk_run p). rewrite Hdone.
    cbn [fst blk_shared]. rewrite Hused, Hlast. pose proof (bi_used b Hi).
    unfold u16. Z.to_euclidean_division_equations; lia.
Qed.

(** The queue after the element is consumed, as far as the invariant goes. *)
Lemma consumed_queue q : let q' := (vq_consume VQ_SIZE q).2 in
  vq_desc q' = vq_desc q ∧ vq_avail_ring q' = vq_avail_ring q ∧ vq_avail_idx q' = vq_avail_idx q ∧ vq_used_idx q' = vq_used_idx q.
Proof. unfold vq_consume. by case_test. Qed.

(** A whole request. *)
Lemma blk_transfer_spec b sector buf write :
  blk_inv b → 0 ≤ sector < cap b → sector < 18446744073709551616 → (write = true → zlen buf = VIRTIO_SECTOR_SIZE) →
  ∃ b', blk_transfer a_outhdr a_data a_status sector buf write b = Ret ((0, if write then [] else sector_of (disk b) sector), b')
    ∧ blk_inv b' ∧ cap b' = cap b
    ∧ disk b' = (if write then <[sector := buf]> (disk b) else disk b).
Proof.
  intros Hi Hs Hs2 Hbuf. pose proof (published_request b sector buf write Hi ltac:(lia) Hbuf) as Hrq.
  pose proof (prepared_data b sector buf write (bi_data b Hi) Hbuf) as Hpd.
  destruct Hi as [Hr Hd Hg Ha Hu Hdata Hdisk] eqn:Ei. clear Ei.
  set (p := published b sector buf write) in *. set (q1 := vq_publish VQ_SIZE 0 (blkq (blk_prepare a_outhdr a_data a_status sector buf write (blk_shared b)))).
  destruct (bh_notify (vq_mmio q1) 0x050 (vq_qidx q1) (blk_dev b)) as (Nd & Nc & Ns). specialize (Ns eq_refl).
  change (mmio_write (vq_mmio q1) 0x050 (vq_qidx q1) (blk_dev b)) with p.2 in Nd, Nc, Ns. rewrite <- Ns in Hrq.
  destruct (bh_serves p.1 p.2 write sector Hrq ltac:(rewrite Nc; done)) as (n & v' & ring & Hn & Hbefore & Hdone & Hseen & Hcap & Hdisk').
  rewrite <- surjective_pairing in Hbefore, Hdone. set (m' := mk_bmem _ _ _ _) in Hdone.
  unfold blk_transfer. rewrite bind_gets, Hr. cbn [negb]. rewrite bind_modify.
  rewrite (bind_ret _ _ _ tt (set_dev p.2 (set_shared p.1 b))) by done.
  rewrite (bind_ret _ _ _ _ _ (wait_served b sector buf write n m' v' Hi Hn Hbefore Hdone eq_refl eq_refl)).
  cbn [Z.eqb negb]. rewrite bind_modify, bind_gets.
  match goal with |- ∃ b', _ ?x = _ ∧ _ => set (b2 := x) end.
  assert (blk_shared b2 = with_bq (vq_consume VQ_SIZE (blkq m')).2 m') as Eb2 by done. rewrite Eb2. unfold with_bq at 1 2.
  cbn [blk_status blk_data]. change (blk_status m') with 0. cbn [Z.eqb negb]. exists b2.
  change (cap b2) with (bh_cap (a_outhdr:=a_outhdr) (a_data:=a_data) (a_status:=a_status) v').
  change (disk b2) with (bh_disk (a_outhdr:=a_outhdr) (a_data:=a_data) (a_status:=a_status) v'). rewrite Hcap, Nc, Hdisk', Nd, Hpd.
  destruct (consumed_queue (blkq m')) as (Cd & Cr & Ca & Cu).
  split; [|split; [|split; [done|by destruct write]]].
  - unfold ret. do 3 f_equal. unfold m'. cbn [blk_data]. destruct write; [done|by rewrite Nd].
  - split; rewrite ?Eb2; cbn [with_bq blkq blk_data]; rewrite ?Cd, ?Cr, ?Ca, ?Cu; change (blk_dev b2) with v'.
    + done.
    + cbn. by rewrite !length_insert.
    + cbn. by rewrite length_insert.
    + rewrite Hseen, Ns. cbn. by rewrite <- Ha.
    + apply Z.mod_pos_bound. lia.
    + unfold m'. cbn [blk_data]. rewrite Hpd. destruct write; [auto|]. rewrite Nd. by apply Hdisk.
    + rewrite Hcap, Nc, Hdisk', Nd, Hpd. intros t Ht. destruct write; [|by apply Hdisk]. unfold sector_of in *.
      destruct (decide (t = sector)) as [->|]; [rewrite lookup_insert_eq; auto|]. rewrite lookup_insert_ne by done. by apply Hdisk.
Qed.

(** ** Sequences of requests *)

(** A disk as a map from sectors to their contents. *)
Fixpoint spec_ops (ops : list blk_op) (d : gmap Z (list Z)) : list (Z * list Z) * gmap Z (list Z) :=
  match ops with
  | [] => ([], d)
  | Rd t :: ops' => let '(r, d') := spec_ops ops' d in ((0, sector_of d t) :: r, d')
  | Wr t buf :: ops' => let '(r, d') := spec_ops ops' (<[t := buf]> d) in ((0, []) :: r, d')
  end.

Fixpoint run_ops (ops : list blk_op) : M (blk V) (list (Z * list Z)) :=
  match ops with
  | [] => ret []
  | Rd t :: ops' =>
      let! x := virtio_blk_read_sector a_outhdr a_data a_status t in let! r := run_ops ops' in ret (x :: r)
  | Wr t buf :: ops' =>
      let! rc := virtio_blk_write_sector a_outhdr a_data a_status t buf in let! r := run_ops ops' in ret ((rc, []) :: r)
  end.

Definition op_ok (n : Z) (o : blk_op) : Prop :=
  match o with
  | Rd t => 0 ≤ t < n ∧ t < 18446744073709551616
  | Wr t buf => 0 ≤ t < n ∧ t < 18446744073709551616 ∧ zlen buf = VIRTIO_SECTOR_SIZE
  end.

(** [C16] The block driver over a virtio device is a disk: from any state between
    requests, every sequence of sector reads and writes within the capacity
    succeeds, each read gives the sector's bytes as the last write left them, and
    at the end the device holds the disk that the sequence of writes makes.  This
    is what the persistence layer assumes of its block device. *)
Theorem virtio_blk_refines b ops :
  blk_inv b → Forall (op_ok (cap b)) ops →
  ∃ b', run_ops ops b = Ret ((spec_ops ops (disk b)).1, b') ∧ blk_inv b' ∧ cap b' = cap b ∧ disk b' = (spec_ops ops (disk b)).2.
Proof.
  intros Hi Hops. revert b Hi Hops. induction ops as [|o ops IH]; intros b Hi Hops; [by exists b|].
  apply Forall_cons in Hops as [Ho Hops]. destruct o as [t|t buf]; cbn [run_ops spec_ops op_ok] in *.
  - destruct Ho as [Ht Ht2]. destruct (blk_transfer_spec b t [] false Hi Ht Ht2) as (b1 & E1 & Hi1 & Hc1 & Hd1); [done|].
    destruct (IH b1 Hi1) as (b2 & E2 & Hi2 & Hc2 & Hd2); [by rewrite Hc1|]. rewrite Hd1 in E2, Hd2.
    destruct (spec_ops ops (disk b)) as [r d]. exists b2. unfold virtio_blk_read_sector.
    rewrite (bind_ret _ _ _ _ _ E1), (bind_ret _ _ _ _ _ E2), Hc2. done.
  - destruct Ho as (Ht & Ht2 & Hl). destruct (blk_transfer_spec b t buf true Hi Ht Ht2) as (b1 & E1 & Hi1 & Hc1 & Hd1); [done|].
    destruct (IH b1 Hi1) as (b2 & E2 & Hi2 & Hc2 & Hd2); [by rewrite Hc1|]. rewrite Hd1 in E2, Hd2.
    destruct (spec_ops ops _) as [r d]. exists b2. unfold virtio_blk_write_sector.
    rewrite (bind_ret _ _ _ 0 b1), (bind_ret _ _ _ _ _ E2), Hc2; [done|]. unfold bind. by rewrite E1.
Qed.

End refinement.

(** ** A device *)

(** A disk in memory on one slot; every other look of the driver finds it busy. *)
Record ram_host := mk_rh { rh_base : Z; rh_map : gmap Z (list Z); rh_cap : Z; rh_seen : Z; rh_busy : bool; rh_status : Z }.

#[export] Instance ram_bus : Bus ram_host := {
  mmio_read base off v :=
    (if negb (base =? rh_base v) then 0
     else if off =? 0 then VIRTIO_MAGIC else if off =? 4 then 2 else if off =? 8 then VIRTIO_DEV_BLK
     else if off =? 0x034 then 8 else if off =? 0x070 then rh_status v else 0, v);
  mmio_write base off val v :=
    if (base =? rh_base v) && (off =? 0x070)
    then mk_rh (rh_base v) (rh_map v) (rh_cap v) (if val =? 0 then 0 else rh_seen v) (rh_busy v) val
    else v
}.

#[export] Instance ram_blk : BlkHost ram_host := {
  blk_run p :=
    let '(m, v) := p in
    let q := blkq m in
    if vq_avail_idx q =? rh_seen v then (m, v)
    else if rh_busy v then (m, mk_rh (rh_base v) (rh_map v) (rh_cap v) (rh_seen v) false (rh_status v))
    else
      let h := blk_outhdr m in
      let write := oh_type h =? VIRTIO_BLK_T_OUT in
      let used := <[Z.to_nat (Z.land (vq_used_idx q) 3) := (0, 513)]> (vq_used_ring q) in
      (mk_bmem (set_used (u16 (vq_used_idx q + 1)) used q) h (if write then blk_data m else sector_of (rh_map v) (oh_sector h)) 0,
       mk_rh (rh_base v) (if write then <[oh_sector h := blk_data m]> (rh_map v) else rh_map v) (rh_cap v) (u16 (rh_seen v + 1)) true
         (rh_status v))
}.

#[export] Instance ram_laws a b c : BlkHostLaws ram_host a b c.
Proof.
  refine {| bh_disk := rh_map; bh_cap := rh_cap; bh_seen := rh_seen |}.
  - intros base off val v. simpl. destruct ((base =? rh_base v) && (off =? 0x070)) eqn:E; [|done].
    split; [done|]. split; [done|]. intros ->. by rewrite andb_false_r in E.
  - intros m v write sector [Hh _ _ _ Ha _ _] Hs.
    assert (vq_avail_idx (blkq m) ≠ rh_seen v) as Hne.
    { rewrite Ha. unfold u16. Z.to_euclidean_division_equations; lia. }
    set (idle := mk_rh (rh_base v) (rh_map v) (rh_cap v) (rh_seen v) false (rh_status v)).
    assert (∀ x, rh_busy x = false → rh_seen x = rh_seen v → rh_map x = rh_map v → rh_cap x = rh_cap v → ∃ v',
      blk_run (m, x) = (mk_bmem (set_used (u16 (vq_used_idx (blkq m) + 1))
          (<[Z.to_nat (Z.land (vq_used_idx (blkq m)) 3) := (0, 513)]> (vq_used_ring (blkq m))) (blkq m)) (blk_outhdr m)
          (if write then blk_data m else sector_of (rh_map v) sector) 0, v')
      ∧ rh_seen v' = u16 (rh_seen v + 1) ∧ rh_cap v' = rh_cap v
      ∧ rh_map v' = (if write then <[sector := blk_data m]> (rh_map v) else rh_map v)) as Hserve.
    { intros x Hb Hsn Hmp Hcp. simpl. rewrite Hsn, Hb, Hh, Hmp, Hcp. test_false (vq_avail_idx (blkq m) =? rh_seen v).
      cbn [oh_type oh_sector]. destruct write; eexists; (split; [reflexivity|done]). }
    destruct (rh_busy v) eqn:Hb.
    + destruct (Hserve idle) as (v' & E & Hv); [done..|].
      assert (blk_run (m, v) = (m, idle)) as E0 by (simpl; rewrite Hb; by test_false (vq_avail_idx (blkq m) =? rh_seen v)).
      exists 1%nat, v', (<[Z.to_nat (Z.land (vq_used_idx (blkq m)) 3) := (0, 513)]> (vq_used_ring (blkq m))).
      split; [lia|]. split; [|split; [|done]].
      * intros k Hk. destruct k as [|[|k]]; [done| |lia]. change (Nat.iter 1 blk_run (m, v)) with (blk_run (m, v)). by rewrite E0.
      * change (Nat.iter (1 + 1) blk_run (m, v)) with (blk_run (blk_run (m, v))). by rewrite E0, E.
    + destruct (Hserve v) as (v' & E & Hv); [done..|].
      exists 0%nat, v', (<[Z.to_nat (Z.land (vq_used_idx (blkq m)) 3) := (0, 513)]> (vq_used_ring (blkq m))).
      split; [lia|]. split; [|split; [|done]]; [|exact E]. intros k Hk. by destruct k as [|k]; [|lia].
Defined.

(** The driver starts on such a device. *)
Definition demo_host : ram_host :=
  mk_rh 0x10003000 (list_to_map ((λ t, (t, replicate 512 0)) <$> seqZ 0 4)) 4 0 false 0.

Definition demo_drv : blk ram_host :=
  match virtio_blk_init 6 7 8 (mk_blk demo_host 0 false (mk_bmem (zero_vq 4) (mk_outhdr 0 0 0) (replicate 512 0) 0)) with
  | Ret (_, b) => b
  | _ => mk_blk demo_host 0 false (mk_bmem (zero_vq 4) (mk_outhdr 0 0 0) (replicate 512 0) 0)
  end.

Lemma virtio_blk_refines_witness :
  ∃ b', run_ops 1 2 3 [Wr 2 (replicate 512 7); Rd 1; Rd 2] demo_drv
        = Ret ([(0, []); (0, replicate 512 0); (0, replicate 512 7)], b').
Proof.
  destruct (virtio_blk_refines 1 2 3 demo_drv [Wr 2 (replicate 512 7); Rd 1; Rd 2]) as (b' & E & _).
  - split; try (by vm_compute). intros t Ht. assert (0 ≤ t < 4) as H4 by exact Ht. assert (t = 0 ∨ t = 1 ∨ t = 2 ∨ t = 3) as [->|[->|[->| ->]]] by lia;
      by vm_compute.
  - repeat constructor; by vm_compute.
  - exists b'. rewrite E. by do 2 f_equal.
Defined.
