(* ===== verification/VirtioNet.v ===== *)
(** * The network card driver (kernel/virtio_net.c)

    A receive queue with a pool of eight buffers and a transmit queue with one.
    The device is reached through the bus and shares the record [net_mem] (the
    class [NetHost]).  The driver implements the card interface [Nic] of the
    network stack.  Memory cells are bytes: a byte is reduced when it is read. *)

From S2P Require Import Prelude Persist Paths Vm NetWire Net NetProps Virtio.

Definition VIRTIO_DEV_NET : Z := 1.
Definition VNET_VQ_SIZE : Z := 8.
Definition VNET_HDR_LEN : Z := 10.
Definition POOL_ENTRY : Z := 2048.

Record net_mem := mk_nmem {
  net_rxq : virtqueue;
  net_txq : virtqueue;
  rx_pool : list (list Z);
  tx_buf : list Z
}.

Class NetHost (V : Type) := { net_run : net_mem * V → net_mem * V }.

(** The driver; [net_mac] holds the two words from which the six bytes are taken. *)
Record vnet (V : Type) := mk_vnet {
  net_dev : V;
  net_mmio : Z;
  net_ready : bool;
  net_mac : Z * Z;
  net_shared : net_mem
}.
Arguments mk_vnet {V}. Arguments net_dev {V}. Arguments net_mmio {V}. Arguments net_ready {V}.
Arguments net_mac {V}. Arguments net_shared {V}.

Definition with_rxq (q : virtqueue) (m : net_mem) : net_mem := mk_nmem q (net_txq m) (rx_pool m) (tx_buf m).
Definition with_txq (q : virtqueue) (m : net_mem) : net_mem := mk_nmem (net_rxq m) q (rx_pool m) (tx_buf m).

Section driver.
Context {V : Type} `{Bus V} `{NetHost V}.
(** The addresses of the static buffers and of the parts of the queues. *)
Context (a_pool : Z → Z) (a_tx : Z) (a_rxq a_txq : Z * Z * Z).
Abbreviation vnet := (vnet V).

Definition set_dev (v : V) (d : vnet) : vnet := mk_vnet v (net_mmio d) (net_ready d) (net_mac d) (net_shared d).
Definition set_shared (m : net_mem) (d : vnet) : vnet := mk_vnet (net_dev d) (net_mmio d) (net_ready d) (net_mac d) m.
Definition ondev {A} (m : M V A) : M vnet A := zoom net_dev set_dev m.
Definition onrx {A} (m : M (virtqueue * V) A) : M vnet A :=
  zoom (λ d, (net_rxq (net_shared d), net_dev d)) (λ p d, set_dev p.2 (set_shared (with_rxq p.1 (net_shared d)) d)) m.
Definition ontx {A} (m : M (virtqueue * V) A) : M vnet A :=
  zoom (λ d, (net_txq (net_shared d), net_dev d)) (λ p d, set_dev p.2 (set_shared (with_txq p.1 (net_shared d)) d)) m.

Definition find_net_mmio : M V Z := find_mmio (Z.to_nat platform_virtio_mmio_count) 0 VIRTIO_DEV_NET false.

(** Giving a buffer of the pool to the device. *)
Definition net_rx_refill (slot : Z) : M vnet unit :=
  onrx (modify (λ p, (set_desc (Z.to_nat slot) (mk_desc (a_pool slot) POOL_ENTRY VRING_DESC_F_WRITE 0) p.1, p.2))) ;;
  onrx (vq_submit VNET_VQ_SIZE slot).

Fixpoint refill_all (n : nat) (slot : Z) : M vnet unit :=
  match n with O => ret tt | S n' => net_rx_refill slot ;; refill_all n' (slot + 1) end.

Definition net_read_mac (base : Z) : M vnet unit :=
  let! lo := ondev (reg_read base 0x100) in
  let! hi := ondev (reg_read base 0x104) in
  modify (λ d, mk_vnet (net_dev d) (net_mmio d) (net_ready d) (lo, hi) (net_shared d)).

(** The result of the queues' setup is ignored. *)
Definition net_init : M vnet unit :=
  let! ready := gets net_ready in
  if ready : bool then ret tt
  else
    let! base := ondev find_net_mmio in
    modify (λ d, mk_vnet (net_dev d) base (net_ready d) (net_mac d) (net_shared d)) ;;
    if base =? 0 then ret tt
    else
      let! ok := ondev (device_start base) in
      if negb ok then ret tt
      else
        net_read_mac base ;;
        modify (λ d, set_shared (with_txq (vq_bind base 1 (net_txq (net_shared d)))
                                   (with_rxq (vq_bind base 0 (net_rxq (net_shared d))) (net_shared d))) d) ;;
        let! m := gets net_shared in
        ondev (vq_setup VNET_VQ_SIZE (net_rxq m) a_rxq.1.1 a_rxq.1.2 a_rxq.2) ;;
        ondev (vq_setup VNET_VQ_SIZE (net_txq m) a_txq.1.1 a_txq.1.2 a_txq.2) ;;
        refill_all (Z.to_nat VNET_VQ_SIZE) 0 ;;
        ondev (device_go base) ;;
        modify (λ d, mk_vnet (net_dev d) (net_mmio d) true (net_mac d) (net_shared d)).

Definition net_mac_bytes (d : vnet) : list Z :=
  let '(lo, hi) := net_mac d in
  [Z.land lo 0xff; Z.land (Z.shiftr lo 8) 0xff; Z.land (Z.shiftr lo 16) 0xff; Z.land (Z.shiftr lo 24) 0xff;
   Z.land hi 0xff; Z.land (Z.shiftr hi 8) 0xff].

Definition device_acts (d : vnet) : vnet :=
  let '(m, v) := net_run (net_shared d, net_dev d) in mk_vnet v (net_mmio d) (net_ready d) (net_mac d) m.

(** The transmit buffer with the ten bytes of the device header. *)
Definition net_send (frame : list Z) : M vnet Z :=
  let! ready := gets net_ready in
  if negb ready || (zlen frame <=? 0) || (POOL_ENTRY <? zlen frame + VNET_HDR_LEN) then ret EINVAL
  else
    modify (λ d, let m := net_shared d in
      set_shared (mk_nmem (net_rxq m)
        (set_desc 0 (mk_desc a_tx (zlen frame + VNET_HDR_LEN) 0 0) (set_last_used (vq_used_idx (net_txq m)) (net_txq m)))
        (rx_pool m) (splice (tx_buf m) 0 (replicate 10 0 ++ frame))) d) ;;
    ontx (vq_submit VNET_VQ_SIZE 0) ;;
    let! rc := vq_wait_used (modify device_acts) (λ d, net_txq (net_shared d)) 500000 in
    if negb (rc =? 0) then ret ETIMEDOUT
    else
      modify (λ d, set_shared (with_txq (vq_consume VNET_VQ_SIZE (net_txq (net_shared d))).2 (net_shared d)) d) ;;
      ret (zlen frame).

(** The result and the frame.  A length that is negative as an [int] gives an empty
    frame; a length past the end of the buffer (only with a capacity above 2038)
    reads outside it. *)
Definition net_poll (frame_cap : Z) : M vnet (Z * list Z) :=
  let! ready := gets net_ready in
  if negb ready || (frame_cap <=? 0) then ret (EINVAL, [])
  else
    modify device_acts ;;
    let! q := gets (λ d, net_rxq (net_shared d)) in
    let '(rc, (id, rx_len), q') := vq_consume VNET_VQ_SIZE q in
    if negb (rc =? 0) then ret (EAGAIN, [])
    else
      modify (λ d, set_shared (with_rxq q' (net_shared d)) d) ;;
      let slot := i32 id in
      if (slot <? 0) || (VNET_VQ_SIZE <=? slot) then ret (EIO, [])
      else if u32 rx_len <=? VNET_HDR_LEN then ret (EIO, [])
      else
        let eth_len := Z.min (i32 rx_len - VNET_HDR_LEN) frame_cap in
        if POOL_ENTRY <? VNET_HDR_LEN + eth_len then undef else
        let! pool := gets (λ d, nth (Z.to_nat slot) (rx_pool (net_shared d)) []) in
        net_rx_refill slot ;;
        ret (0, u8 <$> sub pool VNET_HDR_LEN eth_len).

(** An operation that always returns, as a function. *)
Definition run_total {S A} (m : M S A) (x : A) (s : S) : A * S :=
  match m s with Ret r => r | _ => (x, s) end.

#[export] Instance virtio_nic : Nic vnet := {
  virtio_net_init d := (run_total net_init tt d).2;
  virtio_net_ready := net_ready;
  virtio_net_mac := net_mac_bytes;
  virtio_net_send_frame f d := run_total (net_send f) EIO d;
  virtio_net_poll_frame cap d :=
    let '((rc, f), d') := run_total (net_poll cap) (EIO, []) d in
    (if (rc =? 0) && (0 <? zlen f) then Some f else None, d')
}.

End driver.

(** ** What the device promises *)

Definition frame_ok (f : list Z) : Prop := 0 < zlen f ≤ POOL_ENTRY - VNET_HDR_LEN ∧ bytes_ok f.

(** A received frame, with its ten-byte header, put into the next buffer of the
    available ring and reported in the used ring.  The device takes the buffers in
    order, so its position is the used index. *)
Definition deliver1 (h f : list Z) (m : net_mem) : net_mem :=
  let q := net_rxq m in
  let j := Z.to_nat (Z.land (vq_used_idx q) 7) in
  let slot := nth j (vq_avail_ring q) 0 in
  mk_nmem (set_used (u16 (vq_used_idx q + 1)) (<[j := (slot, VNET_HDR_LEN + zlen f)]> (vq_used_ring q)) q) (net_txq m)
    (alter (λ row, splice row 0 (h ++ f)) (Z.to_nat slot) (rx_pool m)) (tx_buf m).

Definition deliver (l : list (list Z * list Z)) (m : net_mem) : net_mem :=
  foldl (λ m hf, deliver1 hf.1 hf.2 m) m l.

(** A virtio network device to which the frames [nh_wire] will come: whenever it
    runs it moves some of them, in order, into the buffers it was given; it changes
    nothing else of the receive side.  Notifications do not change the frames. *)
Class NetHostLaws (V : Type) `{Bus V} `{NetHost V} := {
  nh_wire : V → list (list Z);
  nh_frames : ∀ v, Forall frame_ok (nh_wire v);
  nh_notify : ∀ base val v, nh_wire (mmio_write base 0x050 val v) = nh_wire v;
  nh_runs : ∀ m v, ∃ l, let m' := deliver l m in
    zlen l ≤ u16 (vq_avail_idx (net_rxq m) - vq_used_idx (net_rxq m))
    ∧ Forall (λ hf, zlen hf.1 = VNET_HDR_LEN) l
    ∧ nh_wire v = (snd <$> l) ++ nh_wire (net_run (m, v)).2
    ∧ net_rxq (net_run (m, v)).1 = net_rxq m' ∧ rx_pool (net_run (m, v)).1 = rx_pool m'
}.

(** ** The card as a queue of frames *)

(** The abstract card: the frames that wait in buffers and those still to come.
    [arrived] frames move from the second to the first before a poll takes the
    first waiting one, cut to the caller's capacity. *)
Definition spec_poll (cap : Z) (arrived : nat) (s : list (list Z) * list (list Z)) :
    (Z * list Z) * (list (list Z) * list (list Z)) :=
  match s.1 ++ take arrived s.2 with
  | [] => ((EAGAIN, []), ([], drop arrived s.2))
  | f :: p => ((0, take (Z.to_nat cap) f), (p, drop arrived s.2))
  end.

Fixpoint spec_polls (cap : Z) (ks : list nat) (s : list (list Z) * list (list Z)) :
    list (Z * list Z) * (list (list Z) * list (list Z)) :=
  match ks with
  | [] => ([], s)
  | k :: ks' => let '(r, s1) := spec_poll cap k s in let '(rs, s2) := spec_polls cap ks' s1 in (r :: rs, s2)
  end.

Section receive.
Context {V : Type} `{Bus V} `{NetHost V} `{!NetHostLaws V} (a_pool : Z → Z).
Implicit Types (d : vnet V) (m : net_mem).

Fixpoint run_polls (n : nat) (cap : Z) : M (vnet V) (list (Z * list Z)) :=
  match n with
  | O => ret []
  | S n' => let! r := net_poll a_pool cap in let! rs := run_polls n' cap in ret (r :: rs)
  end.

(** The receive side with the frames [p] waiting: every buffer is posted or holds a
    waiting frame. *)
Record rx_inv (m : net_mem) (p : list (list Z)) : Prop := {
  ri_desc : ∀ i, 0 ≤ i < 8 → vq_desc (net_rxq m) !! Z.to_nat i = Some (mk_desc (a_pool i) POOL_ENTRY VRING_DESC_F_WRITE 0);
  ri_ring : vq_avail_ring (net_rxq m) = seqZ 0 8;
  ri_last : 0 ≤ vq_last_used (net_rxq m) < 65536;
  ri_avail : vq_avail_idx (net_rxq m) = u16 (vq_last_used (net_rxq m) + 8);
  ri_used : vq_used_idx (net_rxq m) = u16 (vq_last_used (net_rxq m) + zlen p);
  ri_few : zlen p ≤ 8;
  ri_uring : length (vq_used_ring (net_rxq m)) = 8%nat;
  ri_pool : length (rx_pool m) = 8%nat;
  ri_rows : Forall (λ r, zlen r = POOL_ENTRY) (rx_pool m);
  ri_frames : ∀ i f, p !! i = Some f → let j := (vq_last_used (net_rxq m) + Z.of_nat i) mod 8 in
    vq_used_ring (net_rxq m) !! Z.to_nat j = Some (j, VNET_HDR_LEN + zlen f) ∧ frame_ok f
    ∧ ∃ row, rx_pool m !! Z.to_nat j = Some row ∧ sub row VNET_HDR_LEN (zlen f) = f
}.

Lemma land7 x : Z.land x 7 = x mod 8.
Proof. change 7 with (Z.ones 3). by rewrite Z.land_ones by lia. Qed.

Lemma u16_small x : 0 ≤ x < 65536 → u16 x = x.
Proof. apply Z.mod_small. Qed.

Lemma u16_mod8 x : u16 x mod 8 = x mod 8.
Proof. unfold u16. apply Z.mod_mod_divide. by exists 8192. Qed.

Lemma seqZ8 j : 0 ≤ j < 8 → nth (Z.to_nat j) (seqZ 0 8) 0 = j.
Proof. intros. rewrite (nth_lookup_Some _ _ _ j); [done|]. rewrite lookup_seqZ_lt by lia. f_equal; lia. Qed.

Lemma frame_in_row (h f row : list Z) : zlen h = VNET_HDR_LEN → sub (splice row 0 (h ++ f)) VNET_HDR_LEN (zlen f) = f.
Proof.
  intros Hh. unfold sub, splice. unfold zlen, VNET_HDR_LEN in *. rewrite take_0. cbn [app].
  rewrite <- (app_assoc h f), drop_app_ge by lia. replace (Z.to_nat 10 - length h)%nat with 0%nat by lia. rewrite drop_0.
  rewrite take_app_le by lia. by rewrite take_ge by lia.
Qed.

(** A delivery adds a waiting frame. *)
Lemma deliver1_inv m p h f :
  rx_inv m p → zlen p < 8 → zlen h = VNET_HDR_LEN → frame_ok f → rx_inv (deliver1 h f m) (p ++ [f]).
Proof.
  intros Hi Hp Hh Hf. pose proof (zlen_nonneg p).
  set (last := vq_last_used (net_rxq m)). set (j := (last + zlen p) mod 8).
  assert (Z.land (vq_used_idx (net_rxq m)) 7 = j) as Ej by by rewrite (ri_used _ _ Hi), land7, u16_mod8.
  assert (0 ≤ j < 8) as Hj by (apply Z.mod_pos_bound; lia).
  unfold deliver1. rewrite Ej, (ri_ring _ _ Hi), (seqZ8 j Hj).
  split; cbn [net_rxq set_used vq_desc vq_avail_ring vq_last_used vq_avail_idx vq_used_idx vq_used_ring rx_pool].
  - apply Hi.
  - apply Hi.
  - apply Hi.
  - apply Hi.
  - rewrite (ri_used _ _ Hi), zlen_app. change (zlen [f]) with 1. fold last. unfold u16. rewrite Zplus_mod_idemp_l. f_equal; lia.
  - rewrite zlen_app. change (zlen [f]) with 1. lia.
  - rewrite length_insert. apply Hi.
  - rewrite length_alter. apply Hi.
  - apply Forall_alter; [apply Hi|]. intros row Hrow Hr. rewrite zlen_splice; [done|lia|].
    rewrite zlen_app. destruct Hf as [Hf _]. lia.
  - intros i g Hg. fold last. set (j' := (last + Z.of_nat i) mod 8). assert (0 ≤ j' < 8) by (apply Z.mod_pos_bound; lia).
    apply lookup_app_Some in Hg as [Hg|[Hl Hg]].
    + destruct (ri_frames _ _ Hi _ _ Hg) as (Hu & Hok & row & Hrow & Hsub). fold last j' in Hu, Hrow.
      apply lookup_lt_Some in Hg.
      assert (j ≠ j') by (unfold j, j', zlen in *; Z.to_euclidean_division_equations; lia).
      rewrite list_lookup_insert_ne, list_lookup_alter_ne by lia. eauto.
    + apply list_lookup_singleton_Some in Hg as [Hi0 <-].
      assert (j' = j) as Ejj by (unfold j, j', zlen; do 2 f_equal; lia). rewrite Ejj.
      rewrite list_lookup_insert_eq by (rewrite (ri_uring _ _ Hi); lia).
      split; [done|]. split; [done|]. destruct (lookup_lt_is_Some_2 (rx_pool m) (Z.to_nat j)) as [row Hrow]; [rewrite (ri_pool _ _ Hi); lia|].
      exists (splice row 0 (h ++ f)). rewrite list_lookup_alter_eq, Hrow. split; [done|by apply frame_in_row].
Qed.

Lemma deliver_inv l m p :
  rx_inv m p → zlen p + zlen l ≤ 8 → Forall (λ hf, zlen hf.1 = VNET_HDR_LEN) l → Forall frame_ok (snd <$> l) →
  rx_inv (deliver l m) (p ++ (snd <$> l)).
Proof.
  revert m p. induction l as [|[h f] l IH]; intros m p Hi Hn Hh Hf; [by rewrite app_nil_r|].
  apply Forall_cons in Hh as [Hh Hhs]. cbn [fmap list_fmap snd] in *. apply Forall_cons in Hf as [Hf Hfs].
  rewrite zlen_cons in Hn. pose proof (zlen_nonneg l).
  rewrite cons_middle, app_assoc. apply (IH (deliver1 h f m)); [by apply deliver1_inv; [|lia|..]| |done..].
  rewrite zlen_app. change (zlen [f]) with 1. lia.
Qed.

(** Taking the first waiting frame and giving its buffer back. *)
Lemma take_inv m f p :
  rx_inv m (f :: p) → let q := net_rxq m in let last := vq_last_used q in let slot := last mod 8 in
  rx_inv (with_rxq (vq_publish VNET_VQ_SIZE slot (set_desc (Z.to_nat slot)
            (mk_desc (a_pool slot) POOL_ENTRY VRING_DESC_F_WRITE 0) (set_last_used (u16 (last + 1)) q))) m) p.
Proof.
  intros Hi q last slot. assert (0 ≤ slot < 8) as Hs by (apply Z.mod_pos_bound; lia).
  pose proof (ri_desc _ _ Hi slot Hs) as Hd. pose proof (ri_few _ _ Hi) as Hf. rewrite zlen_cons in Hf.
  assert (u16 slot = slot) as Eslot by (apply u16_small; lia).
  assert (Z.land (vq_avail_idx q) (VNET_VQ_SIZE - 1) = slot) as Ea.
  { change (VNET_VQ_SIZE - 1) with 7. unfold q. rewrite (ri_avail _ _ Hi), land7, u16_mod8. fold q last. unfold slot.
    rewrite <- Zplus_mod_idemp_r. change (8 mod 8) with 0. by rewrite Z.add_0_r. }
  split; cbn [net_rxq with_rxq vq_publish set_desc set_last_used vq_desc vq_avail_ring vq_last_used vq_avail_idx vq_used_idx vq_used_ring rx_pool].
  - intros i Hii. unfold q. rewrite (list_insert_id _ (Z.to_nat slot)) by done. by apply Hi.
  - rewrite Ea, Eslot. unfold q. rewrite (ri_ring _ _ Hi). apply list_insert_id. rewrite lookup_seqZ_lt by lia. f_equal. lia.
  - apply Z.mod_pos_bound. lia.
  - unfold q at 1. rewrite (ri_avail _ _ Hi). fold q last. unfold u16. rewrite !Zplus_mod_idemp_l. f_equal. lia.
  - unfold q at 1. rewrite (ri_used _ _ Hi), zlen_cons. fold q last. unfold u16. rewrite !Zplus_mod_idemp_l. f_equal. lia.
  - lia.
  - apply Hi.
  - apply Hi.
  - apply Hi.
  - intros i g Hg. rewrite Zplus_mod, u16_mod8, <- Zplus_mod.
    replace (last + 1 + Z.of_nat i) with (last + Z.of_nat (S i)) by lia. by apply (ri_frames _ _ Hi (S i) g).
Qed.

(** The frames [l] arrived. *)
Lemma run_inv m m' p l :
  rx_inv m p → zlen l ≤ u16 (vq_avail_idx (net_rxq m) - vq_used_idx (net_rxq m)) → Forall (λ hf, zlen hf.1 = VNET_HDR_LEN) l →
  Forall frame_ok (snd <$> l) → net_rxq m' = net_rxq (deliver l m) → rx_pool m' = rx_pool (deliver l m) → rx_inv m' (p ++ (snd <$> l)).
Proof.
  intros Hi Hn Hh Hf Hq Hp. assert (rx_inv (deliver l m) (p ++ (snd <$> l))) as Hd.
  { apply deliver_inv; [done| |done..]. rewrite (ri_avail _ _ Hi), (ri_used _ _ Hi) in Hn. pose proof (ri_few _ _ Hi).
    pose proof (zlen_nonneg p). unfold u16 in Hn. rewrite <- Zminus_mod in Hn.
    replace (_ + 8 - _) with (8 - zlen p) in Hn by lia. rewrite Z.mod_small in Hn by lia. lia. }
  destruct Hd. by split; rewrite ?Hq, ?Hp.
Qed.

(** The device ran: some frames arrived. *)
Lemma device_acts_inv d p :
  rx_inv (net_shared d) p → ∃ k, let d1 := device_acts d in
    rx_inv (net_shared d1) (p ++ take k (nh_wire (net_dev d))) ∧ nh_wire (net_dev d1) = drop k (nh_wire (net_dev d))
    ∧ net_ready d1 = net_ready d.
Proof.
  intros Hi. unfold device_acts. set (m := net_shared d) in *. set (v := net_dev d).
  destruct (nh_runs m v) as (l & Hn & Hh & Hw & Hq & Hp). pose proof (nh_frames v) as Hf.
  destruct (net_run (m, v)) as [m' v'] eqn:E. cbn [fst snd net_shared net_dev net_ready] in *.
  exists (length l). rewrite Hw, take_app_le, take_ge, drop_app_ge by (rewrite length_fmap; lia).
  rewrite length_fmap, Nat.sub_diag, drop_0. split; [|done].
  rewrite Hw in Hf. apply Forall_app in Hf as [Hf _]. by apply (run_inv m).
Qed.

(** The bytes of the frame that fit. *)
Lemma cut_frame (row f : list Z) cap :
  0 ≤ cap → bytes_ok f → sub row VNET_HDR_LEN (zlen f) = f →
  u8 <$> sub row VNET_HDR_LEN (Z.min (VNET_HDR_LEN + zlen f - VNET_HDR_LEN) cap) = take (Z.to_nat cap) f.
Proof.
  intros Hc Hb Hs. replace (VNET_HDR_LEN + zlen f - VNET_HDR_LEN) with (zlen f) by lia.
  assert (sub row VNET_HDR_LEN (Z.min (zlen f) cap) = take (Z.to_nat cap) f) as ->.
  { rewrite <- Hs at 2. unfold sub. rewrite take_take. f_equal. unfold zlen. lia. }
  assert (bytes_ok (take (Z.to_nat cap) f)) as Ht by by apply Forall_take.
  rewrite <- (list_fmap_id (take _ f)) at 2. apply list_fmap_ext. intros i x Hx.
  apply Z.mod_small. by apply (Forall_lookup_1 _ _ _ _ Ht Hx).
Qed.

(** One poll. *)
Lemma net_poll_spec d p cap :
  net_ready d = true → rx_inv (net_shared d) p → 0 < cap ≤ POOL_ENTRY - VNET_HDR_LEN →
  ∃ k d', let '(r, (p', w')) := spec_poll cap k (p, nh_wire (net_dev d)) in
    net_poll a_pool cap d = Ret (r, d') ∧ net_ready d' = true ∧ rx_inv (net_shared d') p' ∧ nh_wire (net_dev d') = w'.
Proof.
  intros Hr Hi Hc. destruct (device_acts_inv d p Hi) as (k & Hi1 & Hw & Hr1). exists k. unfold spec_poll. cbn [fst snd].
  unfold net_poll. rewrite bind_gets, Hr. cbn [negb orb]. destruct (Z.leb_spec cap 0); [lia|].
  rewrite bind_modify, bind_gets. set (d1 := device_acts d) in *. unfold vq_consume.
  rewrite (ri_used _ _ Hi1). pose proof (ri_last _ _ Hi1) as Hl. pose proof (ri_few _ _ Hi1) as Hf.
  destruct (p ++ take k (nh_wire (net_dev d))) as [|f p1] eqn:Ep.
  - change (zlen (@nil (list Z))) with 0. rewrite Z.add_0_r, u16_small by lia. rewrite Z.eqb_refl.
    exists d1. by rewrite Hr1, Hr.
  - rewrite zlen_cons in *. pose proof (zlen_nonneg p1).
    destruct (ri_frames _ _ Hi1 0%nat f eq_refl) as (Hu & [[Hf1 Hf2] Hb] & row & Hrow & Hsub). rewrite Z.add_0_r in *.
    pose proof (take_inv _ _ _ Hi1) as Ht. cbv zeta in Ht.
    set (last := vq_last_used (net_rxq (net_shared d1))) in *. set (slot := last mod 8) in *.
    assert (0 ≤ slot < 8) as Hs by (apply Z.mod_pos_bound; lia).
    destruct (Z.eqb_spec (u16 (last + (1 + zlen p1))) last) as [E|_].
    { exfalso. revert E. unfold u16. Z.to_euclidean_division_equations; lia. }
    change (VNET_VQ_SIZE - 1) with 7. rewrite land7. fold slot. rewrite (nth_lookup_Some _ _ _ _ Hu).
    change (negb (0 =? 0)) with false. cbn beta iota. rewrite bind_modify.
    unfold POOL_ENTRY, VNET_HDR_LEN in *. rewrite (i32_small slot), (i32_small (10 + zlen f)), (u32_small (10 + zlen f)) by lia.
    unfold VNET_VQ_SIZE. destruct (Z.ltb_spec slot 0); [lia|]. destruct (Z.leb_spec 8 slot); [lia|]. cbn [orb].
    destruct (Z.leb_spec (10 + zlen f) 10); [lia|]. destruct (Z.ltb_spec 2048 (10 + Z.min (10 + zlen f - 10) cap)); [lia|].
    rewrite bind_gets. cbn [net_shared set_shared rx_pool with_rxq]. rewrite (nth_lookup_Some _ _ _ _ Hrow).
    exists (let q := vq_publish 8 slot (set_desc (Z.to_nat slot) (mk_desc (a_pool slot) 2048 VRING_DESC_F_WRITE 0)
              (set_last_used (u16 (last + 1)) (net_rxq (net_shared d1)))) in
            set_dev (mmio_write (vq_mmio q) 0x050 (vq_qidx q) (net_dev d1)) (set_shared (with_rxq q (net_shared d1)) d1)).
    split; [|split; [by rewrite <- Hr, <- Hr1|split; [exact Ht|]]].
    + unfold net_rx_refill, onrx, zoom, bind, modify, vq_submit, ret. rewrite <- (cut_frame row f cap) by (done || lia). done.
    + cbv zeta. cbn [net_dev set_dev]. by rewrite nh_notify.
Qed.

(** [C19] The network driver over a virtio card is a queue of frames: any number of
    polls gives exactly the frames that came in, in order, each once and unchanged
    (cut to the caller's capacity), and reports [EAGAIN] exactly when no frame waits;
    no poll fails, however often the ring indices wrap around, and every receive
    buffer stays in use. *)
Theorem virtio_net_fifo d p n cap :
  net_ready d = true → rx_inv (net_shared d) p → 0 < cap ≤ POOL_ENTRY - VNET_HDR_LEN →
  ∃ ks d', let '(rs, (p', w')) := spec_polls cap ks (p, nh_wire (net_dev d)) in
    length ks = n ∧ run_polls n cap d = Ret (rs, d') ∧ net_ready d' = true ∧ rx_inv (net_shared d') p' ∧ nh_wire (net_dev d') = w'.
Proof.
  intros Hr Hi Hc. revert d p Hr Hi. induction n as [|n IH]; intros d p Hr Hi; [by exists [], d|].
  destruct (net_poll_spec d p cap Hr Hi Hc) as (k & d1 & H1).
  destruct (spec_poll cap k (p, nh_wire (net_dev d))) as [r [p1 w1]] eqn:E1. destruct H1 as (P1 & R1 & I1 & W1).
  destruct (IH d1 p1 R1 I1) as (ks & d2 & H2). rewrite W1 in H2. exists (k :: ks), d2. cbn [spec_polls]. rewrite E1.
  destruct (spec_polls cap ks (p1, w1)) as [rs [p2 w2]]. destruct H2 as (L2 & P2 & R2 & I2 & W2).
  split; [by rewrite <- L2|]. split; [|done]. cbn [run_polls]. by rewrite (bind_ret _ _ _ _ _ P1), (bind_ret _ _ _ _ _ P2).
Qed.

End receive.

(** ** Starting *)

Section init.
Context {V : Type} `{Bus V} `{NetHost V}.
Context (a_pool : Z → Z) (a_tx : Z) (a_rxq a_txq : Z * Z * Z).

(** The sizes of the driver's static variables. *)
Record rx_shape (m : net_mem) : Prop := {
  rs_desc : length (vq_desc (net_rxq m)) = 8%nat;
  rs_ring : length (vq_avail_ring (net_rxq m)) = 8%nat;
  rs_uring : length (vq_used_ring (net_rxq m)) = 8%nat;
  rs_pool : length (rx_pool m) = 8%nat;
  rs_rows : Forall (λ r, zlen r = POOL_ENTRY) (rx_pool m)
}.

(** A part of the start that only talks to the device. *)
Lemma ondev_bind {A B} (m : M V A) (k : A → M (vnet V) B) d :
  returns m → ∃ x v, bind (ondev m) k d = k x (set_dev v d).
Proof. intros Hm. destruct (Hm (net_dev d)) as (x & v & E). exists x, v. unfold ondev, zoom, bind. by rewrite E. Qed.

(** The next exchange with the device, whose result is [x]. *)
Ltac next_ondev x :=
  match goal with |- context [bind (ondev ?m) ?k ?d] =>
    let v := fresh "v" in let E := fresh "E" in
    destruct (ondev_bind m k d) as (x & v & E); [unfold find_net_mmio; auto with returns|]; rewrite E; clear E end.

Lemma net_read_mac_returns base d :
  ∃ v mac, net_read_mac base d = Ret (tt, mk_vnet v (net_mmio d) (net_ready d) mac (net_shared d)).
Proof.
  unfold net_read_mac. next_ondev lo. next_ondev hi. by eexists _, _.
Qed.

(** Posting the eight buffers. *)
Lemma refill_all_posts d :
  rx_shape (net_shared d) → vq_avail_idx (net_rxq (net_shared d)) = 0 → vq_used_idx (net_rxq (net_shared d)) = 0 →
  vq_last_used (net_rxq (net_shared d)) = 0 →
  ∃ d', refill_all a_pool 8 0 d = Ret (tt, d') ∧ net_ready d' = net_ready d ∧ rx_inv a_pool (net_shared d') [].
Proof.
  destruct d as [v mmio ready mac [[qm qi last desc ai ring ui uring] tq pool tb]].
  intros [Hd Hr Hu Hp Hrows] Ha Hui Hl. cbn in Hd, Hr, Hu, Hp, Hrows, Ha, Hui, Hl. subst.
  do 8 (destruct desc as [|? desc]; [done|]). destruct desc; [|done].
  do 8 (destruct ring as [|? ring]; [done|]). destruct ring; [|done].
  match goal with |- ∃ d', ?x = _ ∧ _ => let r := eval vm_compute in x in
    match r with Ret (_, ?y) => exists y; split; [vm_compute; reflexivity|] end end.
  split; [done|]. split; cbn [net_shared net_rxq vq_desc vq_avail_ring vq_last_used vq_avail_idx vq_used_idx vq_used_ring rx_pool]; try done.
  - intros i Hi. assert (i = 0 ∨ i = 1 ∨ i = 2 ∨ i = 3 ∨ i = 4 ∨ i = 5 ∨ i = 6 ∨ i = 7) as Hc by lia.
    by repeat (destruct Hc as [->|Hc]; [done|]); subst.
Qed.

(** The driver that comes up after the reset has every receive buffer posted and
    no frame waiting; a start always ends. *)
Lemma net_init_posts d :
  rx_shape (net_shared d) → net_ready d = false →
  ∃ d', net_init a_pool a_rxq a_txq d = Ret (tt, d') ∧ (net_ready d' = true → rx_inv a_pool (net_shared d') []).
Proof.
  intros Hs Hr. unfold net_init. rewrite bind_gets, Hr. next_ondev base. rewrite bind_modify.
  destruct (base =? 0); [eexists; split; [reflexivity|]; cbn [net_ready set_dev]; by rewrite Hr|].
  next_ondev ok. destruct ok; cbn [negb]; [|eexists; split; [reflexivity|]; cbn [net_ready set_dev]; by rewrite Hr].
  match goal with |- context [bind (net_read_mac base) _ ?d1] => destruct (net_read_mac_returns base d1) as (v3 & mac & E) end.
  rewrite (bind_ret _ _ _ _ _ E), bind_modify, bind_gets. clear E. next_ondev rc1. next_ondev rc2.
  match goal with |- context [bind (refill_all _ _ _) _ ?d1] =>
    destruct (refill_all_posts d1) as (d2 & E & Hr2 & Hi); [by destruct Hs|done..|] end.
  rewrite (bind_ret _ _ _ _ _ E). next_ondev go. eexists. split; [reflexivity|]. intros _. exact Hi.
Qed.

End init.

(** ** Buffers that are not given back *)

Section leak.
Context {V : Type} `{Bus V} `{NetHost V} (a_pool : Z → Z).

(** The buffers that the device holds, or has filled and the driver not yet taken. *)
Definition posted (m : net_mem) : Z := u16 (vq_avail_idx (net_rxq m) - vq_last_used (net_rxq m)).

(** A poll that rejects an element of the used ring (an identifier that is no
    buffer, or a length of no more than the header) reports an error and does not
    post the buffer again: the device is left with one buffer less, and after eight
    such elements with none. *)
Theorem net_rx_leak (d : vnet V) cap :
  let m := net_shared (device_acts d) in let q := net_rxq m in
  let '(id, len) := nth (Z.to_nat (Z.land (vq_last_used q) 7)) (vq_used_ring q) (0, 0) in
  net_ready d = true → 0 < cap → vq_used_idx q ≠ vq_last_used q →
  ¬ 0 ≤ i32 id < VNET_VQ_SIZE ∨ u32 len ≤ VNET_HDR_LEN →
  ∃ d', net_poll a_pool cap d = Ret ((EIO, []), d') ∧ posted (net_shared d') = u16 (posted m - 1).
Proof.
  intros m q. destruct (nth _ (vq_used_ring q) (0, 0)) as [id len] eqn:En. intros Hr Hc Hne Hbad.
  unfold net_poll. rewrite bind_gets, Hr. cbn [negb orb]. destruct (Z.leb_spec cap 0); [lia|].
  rewrite bind_modify, bind_gets. unfold vq_consume. fold m q. destruct (Z.eqb_spec (vq_used_idx q) (vq_last_used q)); [done|].
  change (VNET_VQ_SIZE - 1) with 7. rewrite En. change (negb (0 =? 0)) with false. cbn beta iota. rewrite bind_modify.
  eexists. split.
  - destruct ((i32 id <? 0) || (VNET_VQ_SIZE <=? i32 id)) eqn:E; [done|]. destruct (Z.leb_spec (u32 len) VNET_HDR_LEN); [done|].
    apply orb_false_elim in E as [E1 E2]. exfalso. destruct Hbad; lia.
  - unfold posted. cbn [net_shared set_shared net_rxq with_rxq set_last_used vq_avail_idx vq_last_used].
    fold q. unfold u16. rewrite Zminus_mod_idemp_r, Zminus_mod_idemp_l. f_equal. lia.
Qed.

Lemma byte_land255 x : 0 ≤ Z.land x 0xff < 256.
Proof. change 0xff with (Z.ones 8). rewrite Z.land_ones by lia. by apply Z.mod_pos_bound. Qed.

Lemma net_poll_frame (d d' : vnet V) cap rc f :
  net_poll a_pool cap d = Ret ((rc, f), d') → f = [] ∨ zlen f ≤ cap ∧ bytes_ok f.
Proof.
  unfold net_poll. rewrite bind_gets. destruct (negb (net_ready d) || _) eqn:E; [intros [= _ <- _]; by left|].
  apply orb_false_elim in E as [_ Hc]. rewrite bind_modify, bind_gets. destruct (vq_consume _ _) as [[rc0 [id len]] q'].
  destruct (negb (rc0 =? 0)); [intros [= _ <- _]; by left|]. rewrite bind_modify.
  destruct (_ || _); [intros [= _ <- _]; by left|]. destruct (u32 len <=? _); [intros [= _ <- _]; by left|].
  destruct (POOL_ENTRY <? _); [done|]. rewrite bind_gets.
  unfold bind at 1. destruct (net_rx_refill _ _ _) as [[[] d2]| |]; intros [= _ <- _]. right. split.
  - unfold zlen, sub. rewrite length_fmap, length_take. lia.
  - apply Forall_fmap, Forall_forall. intros x _. by apply Z.mod_pos_bound.
Qed.

(** The driver has what the network stack relies on. *)
#[export] Instance virtio_nic_laws a_tx a_rxq a_txq : @NicLaws (vnet V) (virtio_nic a_pool a_tx a_rxq a_txq).
Proof.
  split.
  - intros d. cbn [virtio_net_mac virtio_nic]. unfold net_mac_bytes. destruct (net_mac d) as [lo hi]. split; [done|].
    repeat (apply Forall_cons_2; [apply byte_land255|]). apply Forall_nil_2.
  - intros d d' cap f. cbn [virtio_net_poll_frame virtio_nic]. destruct (run_total _ _ d) as [[rc g] d2] eqn:E.
    destruct ((rc =? 0) && (0 <? zlen g)) eqn:Eb; [|done]. intros [= <- <-]. apply andb_prop in Eb as [_ Hpos].
    unfold run_total in E. destruct (net_poll a_pool cap d) as [[[rc1 f] d1]| |] eqn:E1; simplify_eq; try done.
    destruct (net_poll_frame _ _ _ _ _ E1) as [->|[Hl Hb]]; [done|]. split; [lia|done].
Qed.

End leak.

(** ** A device *)

(** A card on one slot that delivers a frame of sixty bytes for each number it
    holds, one each time it runs. *)
Record frame_host := mk_fh { fh_wire : list Z; fh_status : Z }.

Definition fh_frame (x : Z) : list Z := replicate 60 (u8 x).

#[export] Instance frame_bus : Bus frame_host := {
  mmio_read base off v :=
    (if negb (base =? 0x10002000) then 0
     else if off =? 0 then VIRTIO_MAGIC else if off =? 4 then 2 else if off =? 8 then VIRTIO_DEV_NET
     else if off =? 0x034 then 8 else if off =? 0x070 then fh_status v else if off =? 0x100 then 0x00545200 else 0, v);
  mmio_write base off val v := if (base =? 0x10002000) && (off =? 0x070) then mk_fh (fh_wire v) val else v
}.

#[export] Instance frame_net : NetHost frame_host := {
  net_run p :=
    let '(m, v) := p in
    match fh_wire v with
    | x :: rest =>
        if u16 (vq_avail_idx (net_rxq m) - vq_used_idx (net_rxq m)) =? 0 then (m, v)
        else (deliver1 (replicate 10 0) (fh_frame x) m, mk_fh rest (fh_status v))
    | [] => (m, v)
    end
}.

#[export] Instance frame_laws : NetHostLaws frame_host.
Proof.
  refine {| nh_wire v := fh_frame <$> fh_wire v |}.
  - intros v. apply Forall_fmap, Forall_forall. intros x _. split; [done|]. apply Forall_replicate. by apply Z.mod_pos_bound.
  - intros base val v. simpl. by rewrite andb_false_r.
  - intros m v. cbn [net_run frame_net]. destruct (fh_wire v) as [|x rest] eqn:E; [|destruct (Z.eqb_spec (u16 (vq_avail_idx (net_rxq m) - vq_used_idx (net_rxq m))) 0)].
    1,2: exists []; cbn [fst snd]; rewrite E; split; [apply Z.mod_pos_bound; lia|done].
    exists [(replicate 10 0, fh_frame x)]. cbn [fst snd]. split; [|split; [by repeat constructor|done]].
    pose proof (Z.mod_pos_bound (vq_avail_idx (net_rxq m) - vq_used_idx (net_rxq m)) 65536 ltac:(lia)). change (zlen _) with 1.
    unfold u16 in *. lia.
Defined.

Definition demo_net : vnet frame_host :=
  (run_total (net_init (λ i, i) (1, 2, 3) (4, 5, 6)) tt
    (mk_vnet (mk_fh (seqZ 0 9) 0) 0 false (0, 0)
       (mk_nmem (zero_vq 8) (zero_vq 8) (replicate 8 (replicate 2048 0)) (replicate 2048 0)))).2.

Lemma demo_net_posted : net_ready demo_net = true ∧ rx_inv (λ i, i) (net_shared demo_net) [].
Proof.
  assert (net_ready demo_net = true) as Hr by (vm_compute; reflexivity). split; [done|].
  destruct (net_init_posts (λ i, i) (1, 2, 3) (4, 5, 6) (mk_vnet (mk_fh (seqZ 0 9) 0) 0 false (0, 0)
       (mk_nmem (zero_vq 8) (zero_vq 8) (replicate 8 (replicate 2048 0)) (replicate 2048 0)))) as (d' & E & Hp).
  - split; [done..|]. by apply Forall_replicate.
  - done.
  - assert (demo_net = d') as Ed by (unfold demo_net, run_total; by rewrite E). rewrite Ed in *. auto.
Qed.

Lemma virtio_net_fifo_witness :
  net_ready demo_net = true
  ∧ (∃ ks d', let '(rs, (p', w')) := spec_polls 1536 ks ([], nh_wire (net_dev demo_net)) in
      length ks = 10%nat ∧ run_polls (λ i, i) 10 1536 demo_net = Ret (rs, d') ∧ net_ready d' = true
      ∧ rx_inv (λ i, i) (net_shared d') p' ∧ nh_wire (net_dev d') = w').
Proof.
  split; [vm_compute; reflexivity|]. apply (virtio_net_fifo (λ i, i) demo_net [] 10 1536);
    [apply demo_net_posted|apply demo_net_posted|unfold POOL_ENTRY, VNET_HDR_LEN; lia].
Defined.

(** Ten polls of it give the nine frames and then nothing. *)
Example demo_polls :
  match run_polls (λ i, i) 10 1536 demo_net with
  | Ret (rs, d) => map fst rs = replicate 9 0 ++ [EAGAIN] ∧ map snd rs = map fh_frame (seqZ 0 9) ++ [[]] ∧ posted (net_shared d) = 8
  | _ => False
  end.
Proof. vm_compute. auto. Qed.
