(* ===== verification/VirtioCon.v ===== *)
(** * The host channel (kernel/virtio.c)

    The virtio console over which the kernel talks to a program on the host: queries
    to a language model, in a line-based JSON protocol or an older binary one, and
    fetches for the HTTP bridge.  One request at a time: the receive buffer is
    posted, the request sent, the answer awaited.

    The device is reached through the bus and shares the record [con_mem] (the class
    [ConHost]).  A C string is the list of its bytes without the NUL; the contents of
    a response buffer are the bytes written to it so far. *)

From S2P Require Import Prelude Persist Paths Ramfs Agent Net Board Http Fleet Llm Virtio.

Definition VIRTIO_DEV_CONSOLE : Z := 3.
Definition VQ_SIZE : Z := 4.
Definition RX_BUF : Z := LLM_MAX_RESPONSE + 64.
Definition TX_BUF : Z := LLM_MAX_PROMPT + 64.

(** ** The line protocol *)

(** The characters of a JSON string from the position [pos] of the output on. *)
Fixpoint escape_from (pos cap : Z) (src : list Z) : list Z :=
  match src with
  | [] => []
  | c :: src' =>
      if cap - 3 <=? pos then []
      else if is_special c then if cap - 4 <=? pos then [] else 92 :: c :: escape_from (pos + 2) cap src'
      else c :: escape_from (pos + 1) cap src'
  end.

(** What is appended at [pos]. *)
Definition json_append_str (cap pos : Z) (src : list Z) : option (list Z) :=
  if cap - 2 <=? pos then None
  else
    let t := QUOTE :: escape_from (pos + 1) cap src in
    if cap - 2 <=? pos + zlen t then None else Some (t ++ [QUOTE]).

Definition query_prefix : list Z :=
  str "{" ++ quoted (str "v") ++ str ":2," ++ quoted (str "op") ++ str ":" ++ quoted (str "query") ++ str ","
  ++ quoted (str "prompt") ++ str ":".

(** The query without the NUL that follows it.  (The start of a query that does not
    fit stays in the transmit buffer, where the next request overwrites it; the
    model leaves that buffer alone.) *)
Definition build_json_query (prompt : list Z) (cap : Z) : option (list Z) :=
  match json_append_str cap (zlen query_prefix) prompt with
  | None => None
  | Some s => if cap <=? zlen query_prefix + zlen s + 2 then None else Some (query_prefix ++ s ++ [125; 10])
  end.

Fixpoint skip_blanks (s : list Z) : list Z :=
  match s with
  | c :: s' => if (c =? 32) || (c =? 9) then skip_blanks s' else s
  | [] => []
  end.

(** The text after [pat], blanks, a colon, blanks and a quote, when the line starts so. *)
Definition field_at (pat line : list Z) : option (list Z) :=
  if negb (has_prefix pat line) then None
  else
    match skip_blanks (drop (length pat) line) with
    | c :: r =>
        if negb (c =? 58) then None
        else match skip_blanks r with c' :: r' => if c' =? QUOTE then Some r' else None | [] => None end
    | [] => None
    end.

Fixpoint find_field (pat line : list Z) : option (list Z) :=
  match line with
  | [] => None
  | _ :: line' => match field_at pat line with Some r => Some r | None => find_field pat line' end
  end.

Definition json_field (line key : list Z) : option (list Z) := find_field (QUOTE :: take 29 key ++ [QUOTE]) line.

(** At most [n] characters; an escaped character stands for itself. *)
Fixpoint copy_json_value (src : list Z) (n : nat) : list Z :=
  match n, src with
  | S n', c :: src' =>
      if c =? QUOTE then []
      else if c =? 92 then match src' with c' :: src'' => c' :: copy_json_value src'' n' | [] => [c] end
      else c :: copy_json_value src' n'
  | _, _ => []
  end.

(** The state of a stream: the response buffer, the length of the text in it, and
    the pieces passed to the callback. *)
Record stream := mk_stream { st_buf : list Z; st_len : Z; st_deltas : list (list Z) }.

(** The result (1 at the end, -1 for an error, 0 otherwise) and the new state. *)
Definition handle_json_line (line : list Z) (response_cap : Z) (on_delta : bool) (s : stream) : Z * stream :=
  match json_field line (str "op") with
  | None => (0, s)
  | Some val =>
      let op := copy_json_value val 15 in
      if bool_decide (op = []) then (0, s)
      else if bool_decide (op = str "delta") then
        let chunk := from_option (λ v, copy_json_value v 127) [] (json_field line (str "chunk")) in
        if (zlen chunk <=? 0) || negb on_delta then (0, s)
        else
          let s := mk_stream (st_buf s) (st_len s) (st_deltas s ++ [chunk]) in
          if st_len s + zlen chunk <? response_cap - 1
          then (0, mk_stream (splice (st_buf s) (st_len s) (chunk ++ [0])) (st_len s + zlen chunk) (st_deltas s))
          else (0, s)
      else if bool_decide (op = str "end") then
        let chunk := from_option (λ v, copy_json_value v 127) [] (json_field line (str "text")) in
        if (zlen chunk <=? 0) || (response_cap <=? zlen chunk) then (1, s)
        else (1, mk_stream (splice (st_buf s) 0 (chunk ++ [0])) (zlen chunk) (st_deltas s))
      else if bool_decide (op = str "error") then (-1, s)
      else (0, s)
  end.

(** The lines of the received bytes from the index [i] on; [cur] is the line so far,
    [rest] the buffer from [i] on. *)
Fixpoint stream_lines (rest : list Z) (i rx_len : Z) (cur : list Z) (response_cap : Z) (on_delta : bool) (s : stream) :
    outcome (Z * stream) :=
  if rx_len <=? i then Ret (if 0 <? st_len s then st_len s else EIO, s)
  else
    match rest with
    | [] => Undef
    | c :: rest' =>
        if (c =? 10) || (i + 1 =? rx_len) then
          let line := if c =? 10 then cur else cur ++ [c] in
          if (zlen line <=? 0) || (256 <=? zlen line) then stream_lines rest' (i + 1) rx_len [] response_cap on_delta s
          else
            let '(rc, s') := handle_json_line (until_nul 256 line) response_cap on_delta s in
            if rc <? 0 then Ret (EIO, s')
            else if 0 <? rc then Ret (if 0 <? st_len s' then st_len s' else EIO, s')
            else stream_lines rest' (i + 1) rx_len [] response_cap on_delta s'
        else stream_lines rest' (i + 1) rx_len (cur ++ [c]) response_cap on_delta s
    end.

(** ** The binary protocol *)

(** The result and the bytes written to the response.  The sum is a 32-bit one and
    the second comparison a signed one; the copy may leave either buffer. *)
Definition parse_legacy_response (rx_buf : list Z) (response_cap rx_len : Z) : outcome (Z * list Z) :=
  if rx_len <? 8 then Ret (EIO, [])
  else if negb (cmatch rx_buf 0 (str "LLMR")) then Ret (EIO, [])
  else
    let body_len := get_u32_be rx_buf 4 in
    if (rx_len <? u32 (body_len + 8)) || (response_cap <=? i32 body_len) then Ret (EIO, [])
    else if (response_cap <=? body_len) || (RX_BUF <? 8 + body_len) then Undef
    else Ret (body_len, sub rx_buf 8 body_len ++ [0]).

(** The older query; a longer prompt is cut. *)
Definition legacy_query (prompt : list Z) : list Z :=
  let p := take (Z.to_nat (LLM_MAX_PROMPT - 1)) prompt in
  str "LLMQ" ++ put_u32_be (zlen p) ++ p.

(** ** The driver *)

Record con_mem := mk_cmem {
  rxq : virtqueue;
  txq : virtqueue;
  rx_buf : list Z;
  tx_buf : list Z
}.

Class ConHost (V : Type) := { con_run : con_mem * V → con_mem * V }.

Record con (V : Type) := mk_con {
  con_dev : V;
  console_mmio : Z;
  virtio_ready : bool;
  con_shared : con_mem
}.
Arguments mk_con {V}. Arguments con_dev {V}. Arguments console_mmio {V}. Arguments virtio_ready {V}. Arguments con_shared {V}.

Definition with_rxq (q : virtqueue) (m : con_mem) : con_mem := mk_cmem q (txq m) (rx_buf m) (tx_buf m).
Definition with_txq (q : virtqueue) (m : con_mem) : con_mem := mk_cmem (rxq m) q (rx_buf m) (tx_buf m).

Section driver.
Context {V : Type} `{Bus V} `{ConHost V}.
(** The addresses of the static buffers and of the parts of the queues. *)
Context (a_rx a_tx : Z) (a_rxq a_txq : Z * Z * Z).
Abbreviation con := (con V).

Definition set_dev (v : V) (d : con) : con := mk_con v (console_mmio d) (virtio_ready d) (con_shared d).
Definition set_shared (m : con_mem) (d : con) : con := mk_con (con_dev d) (console_mmio d) (virtio_ready d) m.
Definition ondev {A} (m : M V A) : M con A := zoom con_dev set_dev m.
Definition onrx {A} (m : M (virtqueue * V) A) : M con A :=
  zoom (λ d, (rxq (con_shared d), con_dev d)) (λ p d, set_dev p.2 (set_shared (with_rxq p.1 (con_shared d)) d)) m.
Definition ontx {A} (m : M (virtqueue * V) A) : M con A :=
  zoom (λ d, (txq (con_shared d), con_dev d)) (λ p d, set_dev p.2 (set_shared (with_txq p.1 (con_shared d)) d)) m.

(** A device with another version of the interface ends the search. *)
Definition find_console_mmio : M V Z := find_mmio (Z.to_nat platform_virtio_mmio_count) 0 VIRTIO_DEV_CONSOLE true.

(** The result of the queues' setup is ignored. *)
Definition console_init : M con Z :=
  let! ready := gets virtio_ready in
  if ready : bool then ret 0
  else
    let! base := ondev find_console_mmio in
    modify (λ d, mk_con (con_dev d) base (virtio_ready d) (con_shared d)) ;;
    if base =? 0 then ret ENODEV
    else
      let! ok := ondev (device_start base) in
      if negb ok then ret EIO
      else
        modify (λ d, set_shared (with_txq (vq_bind base 1 (txq (con_shared d)))
                                   (with_rxq (vq_bind base 0 (rxq (con_shared d))) (con_shared d))) d) ;;
        let! m := gets con_shared in
        ondev (vq_setup VQ_SIZE (rxq m) a_rxq.1.1 a_rxq.1.2 a_rxq.2) ;;
        ondev (vq_setup VQ_SIZE (txq m) a_txq.1.1 a_txq.1.2 a_txq.2) ;;
        ondev (device_go base) ;;
        modify (λ d, mk_con (con_dev d) (console_mmio d) true (con_shared d)) ;;
        ret 0.

Definition device_acts (d : con) : con :=
  let '(m, v) := con_run (con_shared d, con_dev d) in mk_con v (console_mmio d) (virtio_ready d) m.

(** The shared memory with the request in the transmit buffer and the descriptors
    of the two buffers filled. *)
Definition con_prepare (tx : list Z) (tx_len : Z) (m : con_mem) : con_mem :=
  mk_cmem (set_desc 0 (mk_desc a_rx RX_BUF VRING_DESC_F_WRITE 0) (set_last_used (vq_used_idx (rxq m)) (rxq m)))
    (set_desc 0 (mk_desc a_tx tx_len 0 0) (set_last_used (vq_used_idx (txq m)) (txq m)))
    (rx_buf m) (splice (tx_buf m) 0 tx).

(** Posting the receive buffer and the request.  [tx] is what is written to the
    transmit buffer, [tx_len] what is sent of it. *)
Definition con_send (tx : list Z) (tx_len : Z) : M con unit :=
  modify (λ d, set_shared (con_prepare tx tx_len (con_shared d)) d) ;;
  onrx (vq_submit VQ_SIZE 0) ;;
  ontx (vq_submit VQ_SIZE 0).

(** Waiting for the reply: an error, or the number of bytes received. *)
Definition con_receive : M con (Z * Z) :=
  let! rc := vq_wait_used (modify device_acts) (λ d, rxq (con_shared d)) 3000000 in
  if negb (rc =? 0) then ret (ETIMEDOUT, 0)
  else
    let! q := gets (λ d, rxq (con_shared d)) in
    let '(_, (_, len), q') := vq_consume VQ_SIZE q in
    modify (λ d, set_shared (with_rxq q' (con_shared d)) d) ;;
    ret (0, u32 len).

(** One exchange. *)
Definition con_exchange (tx : list Z) (tx_len : Z) : M con (Z * Z) :=
  con_send tx tx_len ;;
  let! rc := vq_wait_used (modify device_acts) (λ d, txq (con_shared d)) 300000 in
  if negb (rc =? 0) then ret (ETIMEDOUT, 0)
  else
    modify (λ d, set_shared (with_txq (vq_consume VQ_SIZE (txq (con_shared d))).2 (con_shared d)) d) ;;
    con_receive.

(** Starting the driver when it is not up. *)
Definition con_up : M con Z :=
  let! ready := gets virtio_ready in
  if ready : bool then ret 0 else console_init.

Definition lift {A} (o : outcome A) : M con A :=
  match o with Ret a => ret a | Undef => undef | Halt => halt end.

(** The result and the bytes written to the response. *)
Definition llm_exchange (prompt : list Z) (response_cap : Z) : M con (Z * list Z) :=
  let! rc := con_up in
  if negb (rc =? 0) then ret (rc, [])
  else if response_cap <=? 0 then ret (EINVAL, [])
  else
    let q := legacy_query prompt in
    let! r := con_exchange q (zlen q) in
    if negb (r.1 =? 0) then ret (r.1, [])
    else
      let! m := gets con_shared in
      lift (parse_legacy_response (rx_buf m) response_cap r.2).

(** The result, the bytes written to the response and the pieces passed on. *)
Definition llm_stream (prompt : list Z) (response_cap : Z) (on_delta : bool) : M con (Z * list Z * list (list Z)) :=
  let! rc := con_up in
  if negb (rc =? 0) then ret (rc, [], [])
  else if response_cap <=? 0 then ret (EINVAL, [], [])
  else
    match build_json_query prompt TX_BUF with
    | None => ret (EINVAL, [0], [])
    | Some q =>
        let! r := con_exchange (q ++ [0]) (zlen q) in
        if negb (r.1 =? 0) then ret (r.1, [0], [])
        else if r.2 <? 8 then ret (EIO, [0], [])
        else
          let! m := gets con_shared in
          if cmatch (rx_buf m) 0 (str "LLMR") then
            let! a := lift (parse_legacy_response (rx_buf m) response_cap r.2) in
            ret (a.1, splice [0] 0 a.2, [])
          else
            let! a := lift (stream_lines (rx_buf m) 0 r.2 [] response_cap on_delta (mk_stream [0] 0 [])) in
            ret (a.1, st_buf a.2, st_deltas a.2)
    end.

(** The result and the bytes received. *)
Definition http_exchange (tx : list Z) (rx_cap : Z) : M con (Z * list Z) :=
  let! rc := con_up in
  if negb (rc =? 0) then ret (rc, [])
  else if (zlen tx =? 0) || (rx_cap <? 8) then ret (EINVAL, [])
  else if (TX_BUF <? zlen tx) || (RX_BUF <? rx_cap) then ret (EINVAL, [])
  else
    let! r := con_exchange tx (zlen tx) in
    if negb (r.1 =? 0) then ret (r.1, [])
    else if (r.2 <? 8) || (rx_cap <? r.2) then ret (EIO, [])
    else
      let! m := gets con_shared in
      ret (r.2, sub (rx_buf m) 0 r.2).

(** The driver as a part of the board; the screen and the keyboard are elsewhere. *)
#[export] Instance console_peripherals {Q} `{Peripherals Q} : Peripherals (con * Q) := {
  virtio_console_init p :=
    match console_init p.1 with Ret (rc, d) => (rc, (d, p.2)) | _ => (EIO, p) end;
  virtio_http_exchange tx cap := zoom fst (λ d p, (d, p.2)) (http_exchange tx cap);
  virtio_llm_stream prompt cap := zoom fst (λ d p, (d, p.2)) (llm_stream prompt cap true);
  virtio_gpu_ready p := virtio_gpu_ready p.2;
  virtio_gpu_clear c := zoom snd (λ q p, (p.1, q)) (virtio_gpu_clear c);
  virtio_gpu_flush p := let '(rc, q) := virtio_gpu_flush p.2 in (rc, (p.1, q));
  virtio_gpu_draw_text x y t fg bg := zoom snd (λ q p, (p.1, q)) (virtio_gpu_draw_text x y t fg bg);
  virtio_input_ready p := virtio_input_ready p.2;
  virtio_input_poll p := let '(r, q) := virtio_input_poll p.2 in (r, (p.1, q))
}.

End driver.

(** ** The protocol at the host's side *)

(** The escapes of a text in which only quotes and backslashes need one. *)
Definition esc (s : list Z) : list Z := flat_map (λ c, if is_special c then [92; c] else [c]) s.

(** A line of the host (tools/deepseek-bridge.py), without the line break. *)
Definition host_line (op key text : list Z) : list Z :=
  str "{" ++ quoted (str "v") ++ str ": 2, " ++ quoted (str "op") ++ str ": " ++ quoted op ++ str ", " ++ quoted key ++ str ": "
  ++ quoted (esc text) ++ str "}".

(** Its reply: an answer of at most one character in one piece, a longer one in two
    halves, and then the whole answer (handle_v2). *)
Definition pieces (answer : list Z) : list (list Z) :=
  if (length answer <=? 1)%nat then [answer]
  else let mid := Nat.max 1 (length answer / 2) in [take mid answer; drop mid answer].

Definition bridge_reply (answer : list Z) : list Z :=
  flat_map (λ c, host_line (str "delta") (str "chunk") c ++ [10]) (pieces answer)
  ++ host_line (str "end") (str "text") answer ++ [10].

(** How the host reads a query: the line up to the first line break, as a JSON object
    (Python's json.loads), in it the operation and the prompt.  Of JSON, strings and
    natural numbers are read; an object with any other value, and the escape of a
    character by its number, are not, and a query that is not read has no prompt. *)
Fixpoint first_line (l : list Z) : option (list Z) :=
  match l with
  | [] => None
  | c :: l' => if c =? 10 then Some [] else cons c <$> first_line l'
  end.

Definition is_space (c : Z) : bool := (c =? 32) || (c =? 9) || (c =? 10) || (c =? 13).

Fixpoint json_space (l : list Z) : list Z :=
  match l with c :: l' => if is_space c then json_space l' else l | [] => [] end.

Definition unescape (c : Z) : option Z :=
  if (c =? QUOTE) || (c =? 92) || (c =? 47) then Some c
  else if c =? 98 then Some 8 else if c =? 102 then Some 12 else if c =? 110 then Some 10
  else if c =? 114 then Some 13 else if c =? 116 then Some 9 else None.

(** The rest of a string after its opening quote; control characters are refused. *)
Fixpoint json_string (l : list Z) : option (list Z * list Z) :=
  match l with
  | [] => None
  | c :: l' =>
      if c =? QUOTE then Some ([], l')
      else if c =? 92 then
        match l' with
        | e :: l'' => u ← unescape e; '(t, r) ← json_string l''; Some (u :: t, r)
        | [] => None
        end
      else if c <? 32 then None
      else '(t, r) ← json_string l'; Some (c :: t, r)
  end.

Inductive jvalue := JStr (s : list Z) | JNum (digits : list Z).

Fixpoint json_digits (l : list Z) : list Z * list Z :=
  match l with
  | c :: l' => if (48 <=? c) && (c <=? 57) then let '(d, r) := json_digits l' in (c :: d, r) else ([], l)
  | [] => ([], [])
  end.

Definition json_value (l : list Z) : option (jvalue * list Z) :=
  match l with
  | c :: l' =>
      if c =? QUOTE then '(t, r) ← json_string l'; Some (JStr t, r)
      else match json_digits l with ([], _) => None | (d, r) => Some (JNum d, r) end
  | [] => None
  end.

(** The members of an object up to its closing brace, and what follows it. *)
Fixpoint json_members (fuel : nat) (l : list Z) : option (list (list Z * jvalue) * list Z) :=
  match fuel, json_space l with
  | S n, c :: l1 =>
      if negb (c =? QUOTE) then None
      else
        '(key, l2) ← json_string l1;
        match json_space l2 with
        | 58 :: l3 =>
            '(v, l4) ← json_value (json_space l3);
            match json_space l4 with
            | 44 :: l5 => '(ms, r) ← json_members n l5; Some ((key, v) :: ms, r)
            | 125 :: l5 => Some ([(key, v)], l5)
            | _ => None
            end
        | _ => None
        end
  | _, _ => None
  end.

Definition json_loads (l : list Z) : option (list (list Z * jvalue)) :=
  match json_space l with
  | 123 :: l' => '(ms, r) ← json_members (length l') l'; if bool_decide (json_space r = []) then Some ms else None
  | _ => None
  end.

(** The last member with a key counts. *)
Definition json_get (key : list Z) (ms : list (list Z * jvalue)) : option jvalue :=
  snd <$> last (List.filter (λ m, bool_decide (m.1 = key)) ms).

Definition host_prompt (query : list Z) : option (list Z) :=
  ms ← first_line query ≫= json_loads;
  match json_get (str "op") ms with
  | Some (JStr op) =>
      if bool_decide (op = str "query") then
        match json_get (str "prompt") ms with
        | Some (JStr t) => Some t
        | Some (JNum _) => None
        | None => Some []
        end
      else None
  | _ => None
  end.

(** Text of ASCII characters without control characters: in such a text a character is
    a byte, in the prompt as in the answer. *)
Definition printable (s : list Z) : Prop := Forall (λ c, 32 ≤ c < 128) s.

Lemma copy_0 src : copy_json_value src 0 = [].
Proof. by destruct src. Qed.

Lemma copy_esc s n rest : copy_json_value (esc s ++ QUOTE :: rest) n = take n s.
Proof.
  revert n. induction s as [|c s IH]; intros n; (destruct n as [|n]; [by rewrite copy_0|]); [done|].
  change (esc (c :: s)) with ((if is_special c then [92; c] else [c]) ++ esc s). unfold is_special.
  destruct (Z.eqb_spec c QUOTE) as [->|Hq]; [cbn [orb app copy_json_value take]; f_equal; apply IH|].
  destruct (Z.eqb_spec c 92) as [->|H9]; [cbn [orb app copy_json_value take]; f_equal; apply IH|].
  cbn [orb app copy_json_value take]. destruct (Z.eqb_spec c QUOTE); [done|]. destruct (Z.eqb_spec c 92); [done|]. f_equal; apply IH.
Qed.

Lemma copy_plain s n rest : Forall (λ c, c ≠ QUOTE ∧ c ≠ 92) s → copy_json_value (s ++ QUOTE :: rest) n = take n s.
Proof.
  intros Hs. rewrite <- (copy_esc s n rest). do 2 f_equal. induction Hs as [|c s [H1 H2] _ IH]; [done|].
  cbn. unfold is_special. destruct (Z.eqb_spec c QUOTE); [done|]. destruct (Z.eqb_spec c 92); [done|]. by f_equal.
Qed.

(** A host line as the driver reads it. *)
Lemma host_line_op op key text : ∃ r, json_field (host_line op key text) (str "op") = Some (op ++ QUOTE :: r).
Proof. eexists. unfold host_line, quoted. rewrite <- !app_assoc. reflexivity. Qed.

Lemma delta_chunk text : ∃ r, json_field (host_line (str "delta") (str "chunk") text) (str "chunk") = Some (esc text ++ QUOTE :: r).
Proof. eexists. unfold host_line, quoted. rewrite <- !app_assoc. reflexivity. Qed.

Lemma end_text text : ∃ r, json_field (host_line (str "end") (str "text") text) (str "text") = Some (esc text ++ QUOTE :: r).
Proof. eexists. unfold host_line, quoted. rewrite <- !app_assoc. reflexivity. Qed.

Lemma handle_delta text cap s :
  text ≠ [] → handle_json_line (host_line (str "delta") (str "chunk") text) cap true s =
  let c := take 127 text in
  (0, if st_len s + zlen c <? cap - 1
      then mk_stream (splice (st_buf s) (st_len s) (c ++ [0])) (st_len s + zlen c) (st_deltas s ++ [c])
      else mk_stream (st_buf s) (st_len s) (st_deltas s ++ [c])).
Proof.
  intros Ht. unfold handle_json_line. destruct (host_line_op (str "delta") (str "chunk") text) as [r ->].
  rewrite copy_plain by (by repeat constructor). change (take 15 (str "delta")) with (str "delta").
  rewrite (bool_decide_false (str "delta" = [])), (bool_decide_true (str "delta" = str "delta")) by done.
  destruct (delta_chunk text) as [r' ->]. cbn [from_option]. rewrite copy_esc. cbn zeta.
  destruct (Z.leb_spec (zlen (take 127 text)) 0); [destruct text; [done|cbn [take] in *; rewrite zlen_cons in *; unfold zlen in *; lia]|].
  cbn [orb negb st_len st_buf st_deltas]. by case_match.
Qed.

Lemma handle_end text cap s :
  text ≠ [] → zlen (take 127 text) < cap → handle_json_line (host_line (str "end") (str "text") text) cap true s =
  let c := take 127 text in (1, mk_stream (splice (st_buf s) 0 (c ++ [0])) (zlen c) (st_deltas s)).
Proof.
  intros Ht Hc. unfold handle_json_line. destruct (host_line_op (str "end") (str "text") text) as [r ->].
  rewrite copy_plain by (by repeat constructor). change (take 15 (str "end")) with (str "end").
  rewrite (bool_decide_false (str "end" = [])), (bool_decide_false (str "end" = str "delta")),
    (bool_decide_true (str "end" = str "end")) by done.
  destruct (end_text text) as [r' ->]. cbn [from_option]. rewrite copy_esc. cbn zeta.
  destruct (Z.leb_spec (zlen (take 127 text)) 0); [destruct text; [done|cbn [take] in *; rewrite zlen_cons in *; unfold zlen in *; lia]|].
  destruct (Z.leb_spec cap (zlen (take 127 text))); [lia|done].
Qed.

Lemma until_nul_all n s : Forall (λ c, c ≠ 0) s → (length s ≤ n)%nat → until_nul n s = s.
Proof.
  revert n. induction s as [|c s IH]; intros [|n] Hs Hn; try done; [simpl in Hn; lia|]. apply Forall_cons in Hs as [Hc Hs].
  cbn [until_nul length] in *. destruct (Z.eqb_spec c 0); [done|]. f_equal. apply IH; [done|lia].
Qed.

(** A whole line of the received bytes. *)
Lemma stream_line l rest i rx_len cur cap s :
  printable (cur ++ l) → 0 < zlen (cur ++ l) < 256 → 0 ≤ i → i + zlen l < rx_len →
  stream_lines (l ++ 10 :: rest) i rx_len cur cap true s =
  let '(rc, s') := handle_json_line (cur ++ l) cap true s in
  if rc <? 0 then Ret (EIO, s')
  else if 0 <? rc then Ret (if 0 <? st_len s' then st_len s' else EIO, s')
  else stream_lines rest (i + zlen l + 1) rx_len [] cap true s'.
Proof.
  revert i cur. induction l as [|c l IH]; intros i cur Hp Hl Hi Hn.
  - rewrite app_nil_r in *. cbn [app stream_lines]. change (zlen (@nil Z)) with 0 in *. rewrite Z.add_0_r in *.
    destruct (Z.leb_spec rx_len i); [lia|]. change (10 =? 10) with true. cbn [orb].
    destruct (Z.leb_spec (zlen cur) 0); [lia|]. destruct (Z.leb_spec 256 (zlen cur)); [lia|]. cbn [orb].
    rewrite until_nul_all; [done| |unfold zlen in *; lia]. eapply Forall_impl; [exact Hp|]. simpl. lia.
  - rewrite zlen_cons in Hn. pose proof (zlen_nonneg l). cbn [app stream_lines].
    destruct (Z.leb_spec rx_len i); [lia|].
    assert (32 ≤ c) by (apply Forall_app in Hp as [_ Hp]; apply Forall_cons in Hp as [? _]; lia).
    destruct (Z.eqb_spec c 10); [lia|]. destruct (Z.eqb_spec (i + 1) rx_len); [lia|]. cbn [orb].
    rewrite IH; [| |by rewrite <- app_assoc|lia|lia]; rewrite <- app_assoc; [|done]. cbn [app].
    rewrite zlen_cons. by replace (i + 1 + zlen l + 1) with (i + (1 + zlen l) + 1) by lia.
Qed.

Lemma printable_esc s : printable s → printable (esc s).
Proof.
  intros Hs. induction Hs as [|c s Hc _ IH]; [constructor|]. unfold esc. cbn [flat_map].
  apply Forall_app. split; [|exact IH]. destruct (is_special c); repeat constructor; lia.
Qed.

Lemma printable_line op key text : printable op → printable key → printable text → printable (host_line op key text).
Proof.
  intros Ho Hk Ht. unfold host_line, quoted, printable in *. pose proof (printable_esc text Ht).
  repeat (apply Forall_app; split); try done; apply (bool_decide_unpack _); vm_compute; exact I.
Qed.

Lemma zlen_host_line op key text : zlen (host_line op key text) = 26 + zlen op + zlen key + zlen (esc text).
Proof.
  unfold host_line, quoted. rewrite !zlen_app. change (zlen [QUOTE]) with 1. change (zlen (str "{")) with 1. change (zlen (str "}")) with 1.
  change (zlen (str ": 2, ")) with 5. change (zlen (str "v")) with 1. change (zlen (str "op")) with 2. change (zlen (str ": ")) with 2.
  change (zlen (str ", ")) with 2. lia.
Qed.

Lemma esc_app s t : esc (s ++ t) = esc s ++ esc t.
Proof. apply flat_map_app. Qed.

Lemma zlen_esc s : zlen s ≤ zlen (esc s).
Proof.
  induction s as [|c s IH]; [done|]. unfold esc. cbn [flat_map]. rewrite zlen_app, zlen_cons. fold (esc s).
  destruct (is_special c); rewrite ?zlen_cons; change (zlen (@nil Z)) with 0; lia.
Qed.

Lemma zlen_delta text : zlen (host_line (str "delta") (str "chunk") text) = 36 + zlen (esc text).
Proof. by rewrite zlen_host_line. Qed.

Lemma zlen_end text : zlen (host_line (str "end") (str "text") text) = 33 + zlen (esc text).
Proof. by rewrite zlen_host_line. Qed.

Lemma printable_delta text : printable text → printable (host_line (str "delta") (str "chunk") text).
Proof. intros. apply printable_line; [..|done]; apply (bool_decide_unpack _); vm_compute; exact I. Qed.

Lemma printable_end text : printable text → printable (host_line (str "end") (str "text") text).
Proof. intros. apply printable_line; [..|done]; apply (bool_decide_unpack _); vm_compute; exact I. Qed.

Lemma printable_cstr s : printable s → cstr_ok s.
Proof. intros Hs. eapply Forall_impl; [exact Hs|]. simpl. lia. Qed.

Lemma zlen_pos {A} (l : list A) : l ≠ [] → 0 < zlen l.
Proof. destruct l; [done|]. rewrite zlen_cons. pose proof (zlen_nonneg l). lia. Qed.

Lemma zlen_take_le {A} n (l : list A) : zlen (take n l) ≤ zlen l.
Proof. unfold zlen. rewrite length_take. lia. Qed.

Abbreviation delta_lines cs := (flat_map (λ c, host_line (str "delta") (str "chunk") c ++ [10]) cs).

Lemma zlen_deltas cs : zlen (delta_lines cs) = 37 * zlen cs + zlen (esc (concat cs)).
Proof.
  induction cs as [|c cs IH]; [done|]. cbn [flat_map concat]. rewrite esc_app, zlen_cons, !zlen_app, zlen_delta, IH. change (zlen [10]) with 1. lia.
Qed.

(** The pieces as the driver reads them: each is passed on and appended. *)
Lemma stream_pieces cs : ∀ rest i rx_len cap s,
  Forall (λ c, c ≠ [] ∧ printable c ∧ zlen (esc c) < 220) cs →
  st_len s + zlen (concat cs) < cap - 1 → 0 ≤ i → i + zlen (delta_lines cs) ≤ rx_len →
  ∃ buf, stream_lines (delta_lines cs ++ rest) i rx_len [] cap true s
  = stream_lines rest (i + zlen (delta_lines cs)) rx_len [] cap true
      (mk_stream buf (st_len s + zlen (concat (take 127 <$> cs))) (st_deltas s ++ (take 127 <$> cs))).
Proof.
  induction cs as [|c cs IH]; intros rest i rx_len cap s Hcs Hc Hi Hn.
  - exists (st_buf s). cbn. rewrite app_nil_r. change (zlen (@nil Z)) with 0. rewrite !Z.add_0_r. by destruct s.
  - apply Forall_cons in Hcs as [(Hne & Hp & He) Hcs]. cbn [flat_map fmap list_fmap concat] in *.
    rewrite !zlen_app in *. change (zlen [10]) with 1 in *. pose proof (zlen_delta c) as Zd. pose proof (zlen_pos c Hne).
    pose proof (zlen_take_le 127 c). pose proof (zlen_nonneg (concat cs)). pose proof (zlen_esc c). pose proof (zlen_nonneg (delta_lines cs)).
    rewrite <- !app_assoc. cbn [app]. rewrite stream_line; [|by apply printable_delta|cbn [app]; lia|lia|lia].
    rewrite app_nil_l, handle_delta by done. cbn zeta. change (0 <? 0) with false. cbn iota.
    destruct (Z.ltb_spec (st_len s + zlen (take 127 c)) (cap - 1)); [|lia].
    edestruct (IH rest (i + zlen (host_line (str "delta") (str "chunk") c) + 1) rx_len cap) as [buf ->]; [done|cbn [st_len]; lia|lia|lia|].
    exists buf. cbn [st_len st_deltas st_buf]. rewrite <- app_assoc. f_equal; [lia|]. f_equal. lia.
Qed.

Lemma pieces_concat answer : concat (pieces answer) = answer.
Proof. unfold pieces. case_match; cbn; rewrite app_nil_r; [done|]. apply take_drop. Qed.

Lemma pieces_ok answer :
  answer ≠ [] → printable answer → zlen (esc answer) < 220 → Forall (λ c, c ≠ [] ∧ printable c ∧ zlen (esc c) < 220) (pieces answer).
Proof.
  intros Hne Hp He. unfold pieces. destruct (Nat.leb_spec (length answer) 1); [by repeat constructor|]. cbv zeta.
  set (mid := Nat.max 1 (length answer / 2)). assert (0 < mid < length answer)%nat as Hmid.
  { unfold mid. assert (length answer / 2 < length answer)%nat by (apply Nat.div_lt; lia). lia. }
  rewrite <- (take_drop mid answer) in Hp, He. rewrite esc_app, zlen_app in He. apply Forall_app in Hp as [? ?].
  pose proof (zlen_nonneg (esc (take mid answer))). pose proof (zlen_nonneg (esc (drop mid answer))).
  repeat constructor; try done; try lia; intros E; apply (f_equal length) in E; rewrite ?length_take, ?length_drop in E; simpl in E; lia.
Qed.

Lemma zlen_bridge_reply answer : zlen (bridge_reply answer) = 37 * zlen (pieces answer) + 34 + 2 * zlen (esc answer).
Proof. unfold bridge_reply. rewrite !zlen_app, zlen_deltas, pieces_concat, zlen_end. change (zlen [10]) with 1. lia. Qed.

Lemma zlen_pieces answer : 1 ≤ zlen (pieces answer) ≤ 2.
Proof. unfold pieces. case_match; unfold zlen; cbn; lia. Qed.

(** The reply of the host as the driver reads it: the pieces are passed on, and the
    response is the answer, cut to 127 bytes. *)
Lemma stream_reply answer junk cap :
  printable answer → 1 ≤ zlen answer < cap - 1 → zlen (esc answer) < 220 →
  ∃ s', stream_lines (bridge_reply answer ++ junk) 0 (zlen (bridge_reply answer)) [] cap true (mk_stream [0] 0 [])
          = Ret (zlen (take 127 answer), s')
    ∧ cstr_of (st_buf s') = Some (take 127 answer) ∧ st_deltas s' = take 127 <$> pieces answer.
Proof.
  intros Hp [Hn Hc] He. assert (answer ≠ []) as Hne by (intros ->; unfold zlen in Hn; cbn in Hn; lia).
  unfold bridge_reply. rewrite !zlen_app, <- app_assoc. change (zlen [10]) with 1.
  pose proof (zlen_nonneg (esc answer)). pose proof (zlen_end answer). pose proof (zlen_nonneg (delta_lines (pieces answer))).
  edestruct (stream_pieces (pieces answer)) as [buf ->]; [by apply pieces_ok|rewrite pieces_concat; cbn [st_len]; lia|lia|lia|].
  rewrite <- app_assoc. cbn [app]. rewrite stream_line; [|by apply printable_end|cbn [app]; lia|lia|lia].
  assert (0 < zlen (take 127 answer) < cap).
  { pose proof (zlen_take_le 127 answer). split; [apply zlen_pos; by destruct answer|lia]. }
  rewrite app_nil_l, handle_end; [|done|lia]. cbn zeta. cbn [app Z.ltb Z.compare st_len st_buf st_deltas].
  destruct (Z.ltb_spec 0 (zlen (take 127 answer))); [|lia].
  eexists. split; [reflexivity|]. split; [|done]. cbn [st_buf]. unfold splice at 1. rewrite take_0. cbn [app].
  rewrite <- app_assoc. apply cstr_of_app, printable_cstr, Forall_take, Hp.
Qed.

(** What the host reads. *)
Lemma json_string_esc t r : printable t → json_string (esc t ++ QUOTE :: r) = Some (t, r).
Proof.
  intros Ht. induction Ht as [|c t Hc _ IH]; [done|].
  change (esc (c :: t)) with ((if is_special c then [92; c] else [c]) ++ esc t). unfold is_special.
  destruct (Z.eqb_spec c QUOTE) as [->|Hq]; [cbn; by rewrite IH|].
  destruct (Z.eqb_spec c 92) as [->|H9]; [cbn; by rewrite IH|]. cbn [orb app json_string].
  destruct (Z.eqb_spec c QUOTE); [done|]. destruct (Z.eqb_spec c 92); [done|]. destruct (Z.ltb_spec c 32); [lia|]. by rewrite IH.
Qed.

Lemma first_line_app l r : printable l → first_line (l ++ 10 :: r) = Some l.
Proof.
  intros Hl. induction Hl as [|c l Hc _ IH]; [done|]. cbn [app first_line]. destruct (Z.eqb_spec c 10); [lia|]. by rewrite IH.
Qed.

Lemma host_reads prompt : printable prompt → host_prompt (query_prefix ++ QUOTE :: esc prompt ++ [QUOTE; 125; 10]) = Some prompt.
Proof.
  intros Hp. pose proof (printable_esc prompt Hp) as He. unfold host_prompt.
  replace (query_prefix ++ QUOTE :: esc prompt ++ [QUOTE; 125; 10]) with ((query_prefix ++ QUOTE :: esc prompt ++ [QUOTE; 125]) ++ [10])
    by (rewrite <- app_assoc; cbn [app]; by rewrite <- app_assoc).
  rewrite first_line_app.
  - pose proof (json_string_esc prompt [125] Hp) as Hj. set (t := esc prompt ++ [QUOTE; 125]) in *. clearbody t.
    assert (json_loads (query_prefix ++ QUOTE :: t)
            = Some [(str "v", JNum [50]); (str "op", JStr (str "query")); (str "prompt", JStr prompt)]) as Hl.
    { let pre := eval vm_compute in query_prefix in change query_prefix with pre.
      change QUOTE with 34 in *. cbn. rewrite Hj. reflexivity. }
    cbn [mbind option_bind]. rewrite Hl. reflexivity.
  - apply Forall_app. split; [apply (bool_decide_unpack _); vm_compute; exact I|]. constructor; [done|].
    apply Forall_app. split; [done|]. by repeat constructor.
Qed.

Lemma escape_from_esc pos cap s : pos + zlen (esc s) ≤ cap - 3 → escape_from pos cap s = esc s.
Proof.
  revert pos. induction s as [|c s IH]; intros pos Hp; [done|].
  change (esc (c :: s)) with ((if is_special c then [92; c] else [c]) ++ esc s) in *. rewrite zlen_app in Hp. cbn [escape_from].
  pose proof (zlen_nonneg (esc s)). destruct (is_special c); [change (zlen [92; c]) with 2 in Hp|change (zlen [c]) with 1 in Hp].
  - destruct (Z.leb_spec (cap - 3) pos); [lia|]. destruct (Z.leb_spec (cap - 4) pos); [lia|]. rewrite IH by lia. done.
  - destruct (Z.leb_spec (cap - 3) pos); [lia|]. rewrite IH by lia. done.
Qed.

(** A query that fits carries the prompt, whatever printable characters it has. *)
Lemma query_carries prompt :
  printable prompt → zlen (esc prompt) ≤ 286 →
  ∃ q, build_json_query prompt TX_BUF = Some q ∧ 0 < zlen q ≤ TX_BUF - 1 ∧ host_prompt q = Some prompt.
Proof.
  intros Hp He. pose proof (zlen_nonneg (esc prompt)). unfold build_json_query, json_append_str.
  change TX_BUF with 320. change (zlen query_prefix) with 29. change (320 - 2 <=? 29) with false. cbn beta iota zeta.
  rewrite escape_from_esc by lia. rewrite zlen_cons. test_false (320 - 2 <=? 29 + (1 + zlen (esc prompt))).
  rewrite zlen_app, zlen_cons. change (zlen [QUOTE]) with 1. test_false (320 <=? 29 + (1 + zlen (esc prompt) + 1) + 2).
  eexists. split; [reflexivity|]. split.
  - rewrite !zlen_app, zlen_cons. change (zlen query_prefix) with 29. change (zlen [QUOTE]) with 1. change (zlen [125; 10]) with 2. lia.
  - rewrite <- (host_reads prompt Hp). do 2 f_equal. cbn [app]. by rewrite <- app_assoc.
Qed.

(** ** What the host promises *)

(** A buffer published at the position [seen] of a queue's available ring. *)
Definition posted_at (q : virtqueue) (seen addr len flags : Z) : Prop :=
  vq_desc q !! 0%nat = Some (mk_desc addr len flags 0) ∧ vq_avail_idx q = u16 (seen + 1)
  ∧ vq_avail_ring q !! Z.to_nat (Z.land seen 3) = Some 0.

(** A virtio console with a host behind it: it has taken the buffers before
    [ch_tx_seen] and [ch_rx_seen].  A request that is published is taken within a
    bounded number of steps, and then owed the reply [ch_reply]; a reply that is
    owed comes within a bounded number of steps in the receive buffer.  The device
    changes nothing else. *)
Class ConHostLaws (V : Type) `{Bus V} `{ConHost V} (a_rx a_tx : Z) := {
  ch_tx_seen : V → Z;
  ch_rx_seen : V → Z;
  ch_owes : V → option (list Z);
  ch_reply : V → list Z → list Z;
  ch_notify : ∀ base val v, let v' := mmio_write base 0x050 val v in
    ch_tx_seen v' = ch_tx_seen v ∧ ch_rx_seen v' = ch_rx_seen v ∧ ch_owes v' = ch_owes v ∧ ch_reply v' = ch_reply v;
  ch_takes : ∀ m v len, posted_at (txq m) (ch_tx_seen v) a_tx len 0 → ch_owes v = None →
    ∃ (n : nat) v' ring, Z.of_nat n < 300000
      ∧ (∀ k, (k ≤ n)%nat → txq (Nat.iter k con_run (m, v)).1 = txq m)
      ∧ Nat.iter (1 + n) con_run (m, v) = (with_txq (set_used (u16 (vq_used_idx (txq m) + 1)) ring (txq m)) m, v')
      ∧ ch_tx_seen v' = u16 (ch_tx_seen v + 1) ∧ ch_rx_seen v' = ch_rx_seen v
      ∧ ch_owes v' = Some (ch_reply v (sub (tx_buf m) 0 len));
  ch_answers : ∀ m v r, posted_at (rxq m) (ch_rx_seen v) a_rx RX_BUF VRING_DESC_F_WRITE → ch_owes v = Some r → zlen r ≤ RX_BUF →
    ∃ (n : nat) v' ring, Z.of_nat n < 3000000
      ∧ (∀ k, (k ≤ n)%nat → rxq (Nat.iter k con_run (m, v)).1 = rxq m)
      ∧ Nat.iter (1 + n) con_run (m, v)
        = (mk_cmem (set_used (u16 (vq_used_idx (rxq m) + 1)) ring (rxq m)) (txq m) (splice (rx_buf m) 0 r) (tx_buf m), v')
      ∧ nth (Z.to_nat (Z.land (vq_used_idx (rxq m)) 3)) ring (0, 0) = (0, zlen r)
      ∧ ch_tx_seen v' = ch_tx_seen v ∧ ch_rx_seen v' = u16 (ch_rx_seen v + 1) ∧ ch_owes v' = None
}.

(** ** Exchanges *)

Section exchange.
Context {V : Type} `{Bus V} `{ConHost V} (a_rx a_tx : Z) `{!ConHostLaws V a_rx a_tx}.
Implicit Types (d : con V) (m : con_mem) (v : V).
Abbreviation tx_seen v := (ch_tx_seen (a_rx:=a_rx) (a_tx:=a_tx) v).
Abbreviation rx_seen v := (ch_rx_seen (a_rx:=a_rx) (a_tx:=a_tx) v).
Abbreviation owes v := (ch_owes (a_rx:=a_rx) (a_tx:=a_tx) v).
Abbreviation reply v := (ch_reply (a_rx:=a_rx) (a_tx:=a_tx) v).

Record queue_inv (q : virtqueue) (seen : Z) : Prop := {
  qi_desc : length (vq_desc q) = 4%nat;
  qi_ring : length (vq_avail_ring q) = 4%nat;
  qi_avail : vq_avail_idx q = seen;
  qi_used : 0 ≤ vq_used_idx q < 65536
}.

(** Between exchanges: the driver and the host agree on the positions in the rings
    and no reply is owed. *)
Record con_inv d : Prop := {
  ci_ready : virtio_ready d = true;
  ci_tx : queue_inv (txq (con_shared d)) (tx_seen (con_dev d));
  ci_rx : queue_inv (rxq (con_shared d)) (rx_seen (con_dev d));
  ci_owes : owes (con_dev d) = None
}.

Lemma publish_posted q seen addr len flags :
  queue_inv q seen →
  posted_at (vq_publish VQ_SIZE 0 (set_desc 0 (mk_desc addr len flags 0) (set_last_used (vq_used_idx q) q))) seen addr len flags.
Proof.
  intros [Hd Hr Ha Hu]. split; [|split]; cbn.
  - apply list_lookup_insert_eq. lia.
  - by rewrite Ha.
  - rewrite Ha. change 3 with (VQ_SIZE - 1). apply list_lookup_insert_eq. pose proof (land3 seen : 0 ≤ Z.land seen (VQ_SIZE - 1) < 4). lia.
Qed.

Lemma iter_con k d :
  Nat.iter k device_acts d
  = mk_con (Nat.iter k con_run (con_shared d, con_dev d)).2 (console_mmio d) (virtio_ready d)
      (Nat.iter k con_run (con_shared d, con_dev d)).1.
Proof.
  induction k as [|k IH]; [by destruct d|]. cbn [Nat.iter nat_rect]. unfold Nat.iter in *. rewrite IH. unfold device_acts.
  cbn [con_shared con_dev console_mmio virtio_ready]. rewrite <- surjective_pairing. by destruct (con_run _).
Qed.

(** A wait that the device ends: [q] is the queue waited for. *)
Lemma con_wait (q : con_mem → virtqueue) loops d n m' v' :
  Z.of_nat n < Z.pos loops → (∀ k, (k ≤ n)%nat → q (Nat.iter k con_run (con_shared d, con_dev d)).1 = q (con_shared d)) →
  Nat.iter (1 + n) con_run (con_shared d, con_dev d) = (m', v') →
  vq_last_used (q (con_shared d)) = vq_used_idx (q (con_shared d)) → vq_last_used (q m') = vq_used_idx (q (con_shared d)) →
  vq_used_idx (q m') ≠ vq_used_idx (q (con_shared d)) →
  vq_wait_used (modify device_acts) (λ d, q (con_shared d)) loops d = Ret (0, mk_con v' (console_mmio d) (virtio_ready d) m').
Proof.
  intros Hn Hb Hd Hl Hl' Hu. rewrite (vq_wait_done device_acts (λ d, q (con_shared d)) loops d n).
  - by rewrite iter_con, Hd.
  - rewrite <- (Nat2Z.id n), <- Z2Nat.inj_pos. lia.
  - intros k Hk. rewrite iter_con. cbn [con_shared]. by rewrite Hb by lia.
  - rewrite iter_con, Hd. cbn [fst con_shared]. by rewrite Hl'.
Qed.

Lemma next_index x : 0 ≤ x < 65536 → u16 (x + 1) ≠ x.
Proof. intros Hx. unfold u16. Z.to_euclidean_division_equations; lia. Qed.

(** The driver after a request is published. *)
Definition sent d (tx : list Z) (tx_len : Z) : con V :=
  let m := con_prepare a_rx a_tx tx tx_len (con_shared d) in
  let rq := vq_publish VQ_SIZE 0 (rxq m) in
  let tq := vq_publish VQ_SIZE 0 (txq m) in
  mk_con (mmio_write (vq_mmio tq) 0x050 (vq_qidx tq) (mmio_write (vq_mmio rq) 0x050 (vq_qidx rq) (con_dev d)))
    (console_mmio d) (virtio_ready d) (mk_cmem rq tq (rx_buf m) (tx_buf m)).

(** The device's view of it. *)
Lemma sent_posted d tx tx_len :
  con_inv d → let d1 := sent d tx tx_len in
  posted_at (txq (con_shared d1)) (tx_seen (con_dev d1)) a_tx tx_len 0
  ∧ posted_at (rxq (con_shared d1)) (rx_seen (con_dev d1)) a_rx RX_BUF VRING_DESC_F_WRITE
  ∧ owes (con_dev d1) = None ∧ tx_seen (con_dev d1) = tx_seen (con_dev d) ∧ rx_seen (con_dev d1) = rx_seen (con_dev d)
  ∧ reply (con_dev d1) = reply (con_dev d).
Proof.
  intros [Hr Ht Hx Ho]. unfold sent. cbn [con_shared con_dev txq rxq con_prepare].
  match goal with |- context [mmio_write ?b2 0x050 ?q2 (mmio_write ?b1 0x050 ?q1 ?v)] =>
    destruct (ch_notify (a_rx:=a_rx) (a_tx:=a_tx) b1 q1 v) as (N1 & N2 & N3 & N4);
    destruct (ch_notify (a_rx:=a_rx) (a_tx:=a_tx) b2 q2 (mmio_write b1 0x050 q1 v)) as (N5 & N6 & N7 & N8) end.
  rewrite N5, N6, N7, N8, N1, N2, N3, N4. split; [by apply publish_posted|]. split; [by apply publish_posted|done].
Qed.

(** A queue after a whole turn. *)
Lemma queue_turn q seen seen' addr len flags ring :
  queue_inv q seen → seen' = u16 (seen + 1) →
  let q1 := vq_publish VQ_SIZE 0 (set_desc 0 (mk_desc addr len flags 0) (set_last_used (vq_used_idx q) q)) in
  let q2 := set_used (u16 (vq_used_idx q + 1)) ring q1 in
  vq_consume VQ_SIZE q2 = (0, nth (Z.to_nat (Z.land (vq_used_idx q) 3)) ring (0, 0), set_last_used (u16 (vq_used_idx q + 1)) q2)
  ∧ queue_inv (set_last_used (u16 (vq_used_idx q + 1)) q2) seen'.
Proof.
  intros [Hd Hr Ha Hu] Hs q1 q2. split.
  - unfold vq_consume. cbn [q2 set_used vq_used_idx vq_last_used q1 vq_publish set_desc set_last_used].
    destruct (Z.eqb_spec (u16 (vq_used_idx q + 1)) (vq_used_idx q)) as [E|_]; [by apply next_index in E|done].
  - split; cbn; [by rewrite length_insert|by rewrite length_insert|by rewrite Ha|by apply Z.mod_pos_bound].
Qed.

(** The receive queue of a request. *)
Definition rx_request (q : virtqueue) : virtqueue :=
  vq_publish VQ_SIZE 0 (set_desc 0 (mk_desc a_rx RX_BUF VRING_DESC_F_WRITE 0) (set_last_used (vq_used_idx q) q)).

(** The second half of an exchange. *)
Lemma con_receive_spec q d r :
  virtio_ready d = true → queue_inv q (rx_seen (con_dev d)) → rxq (con_shared d) = rx_request q →
  queue_inv (txq (con_shared d)) (tx_seen (con_dev d)) → owes (con_dev d) = Some r → zlen r ≤ RX_BUF →
  ∃ d', con_receive d = Ret ((0, zlen r), d') ∧ con_inv d' ∧ rx_buf (con_shared d') = splice (rx_buf (con_shared d)) 0 r.
Proof.
  intros Hready Hx Hq Ht Ho Hr.
  assert (posted_at (rxq (con_shared d)) (rx_seen (con_dev d)) a_rx RX_BUF VRING_DESC_F_WRITE) as Px by (rewrite Hq; by apply publish_posted).
  destruct (ch_answers _ _ _ Px Ho Hr) as (n & v & ring & Hn & Hb & Hd & Hring & St & Sx & O).
  destruct (queue_turn _ _ _ a_rx RX_BUF VRING_DESC_F_WRITE ring Hx Sx) as [Cx Ix]. cbv zeta in Cx, Ix. fold (rx_request q) in Cx, Ix.
  assert (vq_used_idx (rxq (con_shared d)) = vq_used_idx q) as Eu by by rewrite Hq.
  assert (0 ≤ vq_used_idx (rxq (con_shared d)) < 65536) as Hu by (rewrite Eu; apply Hx).
  unfold con_receive.
  rewrite (bind_ret _ _ _ _ _ (con_wait rxq 3000000 d n _ _ Hn Hb Hd ltac:(by rewrite Hq) ltac:(by rewrite Hq) (next_index _ Hu))).
  change (negb (0 =? 0)) with false. cbn beta iota. rewrite bind_gets. cbn [con_shared rxq].
  rewrite Eu in Hring. rewrite Hring in Cx. rewrite Eu, Hq, Cx, bind_modify.
  pose proof (zlen_nonneg r). unfold RX_BUF, LLM_MAX_RESPONSE in Hr. rewrite u32_small by lia.
  eexists. split; [reflexivity|]. split; [|done]. split; cbn [con_shared set_shared with_rxq rxq txq con_dev].
  - exact Hready.
  - by rewrite St.
  - done.
  - exact O.
Qed.

(** One exchange: the host gets the request and the driver its reply. *)
Lemma con_exchange_spec d tx tx_len :
  con_inv d → let r := reply (con_dev d) (sub (splice (tx_buf (con_shared d)) 0 tx) 0 tx_len) in zlen r ≤ RX_BUF →
  ∃ d', con_exchange a_rx a_tx tx tx_len d = Ret ((0, zlen r), d') ∧ con_inv d'
    ∧ rx_buf (con_shared d') = splice (rx_buf (con_shared d)) 0 r.
Proof.
  intros Hi r Hr. destruct (sent_posted d tx tx_len Hi) as (Pt & Px & Po & Et & Ex & Er).
  destruct Hi as [Hready Ht Hx Ho]. set (d1 := sent d tx tx_len) in *.
  destruct (ch_takes _ _ _ Pt Po) as (n1 & v2 & ring1 & Hn1 & Hb1 & Hd1 & St1 & Sx1 & O1).
  rewrite Er in O1. change (sub (tx_buf (con_shared d1)) 0 tx_len) with (sub (splice (tx_buf (con_shared d)) 0 tx) 0 tx_len) in O1. fold r in O1.
  unfold con_exchange. rewrite (bind_ret _ _ _ tt d1) by done.
  rewrite (bind_ret _ _ _ _ _ (con_wait txq 300000 d1 n1 _ _ Hn1 Hb1 Hd1 eq_refl eq_refl (next_index _ (qi_used _ _ Ht)))).
  change (negb (0 =? 0)) with false. cbn beta iota. rewrite bind_modify.
  destruct (queue_turn _ _ _ a_tx tx_len 0 ring1 Ht (f_equal (λ x, u16 (x + 1)) Et)) as [Ct It]. cbv zeta in Ct, It.
  match goal with |- context [con_receive ?x] => set (d3 := x) end.
  destruct (con_receive_spec (rxq (con_shared d)) d3 r) as (d' & E & Hi' & Hb'); try done.
  - change (con_dev d3) with v2. by rewrite Sx1, Ex.
  - change (con_dev d3) with v2. rewrite St1. match type of Ct with ?x = _ => change (txq (con_shared d3)) with x.2 end. by rewrite Ct.
  - by exists d'.
Qed.

(** A fetch over the host channel: whatever the buffers and rings hold from
    earlier exchanges, the host receives exactly the bytes of the request, and the
    caller exactly the bytes of the reply; the channel is then ready for the next
    exchange. *)
Theorem http_exchange_exact a_rxq a_txq d tx cap :
  con_inv d → 0 < zlen tx ≤ TX_BUF → let r := reply (con_dev d) tx in 8 ≤ zlen r ≤ cap → cap ≤ RX_BUF →
  ∃ d', http_exchange a_rx a_tx a_rxq a_txq tx cap d = Ret ((zlen r, r), d') ∧ con_inv d'.
Proof.
  intros Hi Ht r Hr Hc. destruct (con_exchange_spec d tx (zlen tx) Hi) as (d' & E & Hi' & Hb).
  { rewrite splice_0_sub. fold r. lia. }
  rewrite splice_0_sub in E, Hb. fold r in E, Hb. unfold http_exchange, con_up.
  rewrite (bind_ret _ _ _ 0 d) by (rewrite bind_gets; by rewrite (ci_ready d Hi)).
  change (negb (0 =? 0)) with false. cbn beta iota. unfold TX_BUF, RX_BUF, LLM_MAX_PROMPT, LLM_MAX_RESPONSE in *.
  test_false (zlen tx =? 0). test_false (cap <? 8). cbn [orb]. test_false (256 + 64 <? zlen tx). test_false (512 + 64 <? cap). cbn [orb].
  rewrite (bind_ret _ _ _ _ _ E). cbn [fst snd]. change (negb (0 =? 0)) with false. cbn beta iota.
  test_false (zlen r <? 8). test_false (cap <? zlen r). cbn [orb]. rewrite bind_gets, Hb, splice_0_sub. by exists d'.
Qed.

(** [C22] A query to the language model over the host channel, with a host that works
    like tools/deepseek-bridge.py: it reads the first line of a query as a JSON object,
    asks the model ([ask]) the prompt it finds there, and answers with a line for each
    piece of the answer (two halves, or one piece when it has one character) and a last
    line with the whole answer.  For a prompt and an answer of ASCII characters without
    control characters, the prompt with at most 286 characters once its quotes and
    backslashes are escaped and the answer with fewer than 220 and fewer than the
    caller's buffer less one, the host is asked exactly the caller's prompt; the first
    127 bytes of each piece are passed on in order, and the caller gets the first 127
    bytes of the answer, all of it when it is no longer than that. *)
Theorem llm_stream_dialogue a_rxq a_txq (ask : list Z → list Z) d prompt cap :
  let answer := ask prompt in
  con_inv d → (∀ q p, host_prompt q = Some p → reply (con_dev d) q = bridge_reply (ask p)) →
  printable prompt → zlen (esc prompt) ≤ 286 →
  printable answer → 1 ≤ zlen answer < cap - 1 → zlen (esc answer) < 220 →
  ∃ buf d', llm_stream a_rx a_tx a_rxq a_txq prompt cap true d
      = Ret ((zlen (take 127 answer), buf, take 127 <$> pieces answer), d')
    ∧ cstr_of buf = Some (take 127 answer) ∧ concat (pieces answer) = answer ∧ con_inv d'.
Proof.
  intros answer Hi Hask Hpr Hp Ha Hn He. destruct (query_carries prompt Hpr Hp) as (q & Eq & Lq & Hq).
  pose proof (zlen_pieces answer). pose proof (zlen_nonneg (esc answer)). apply Hask in Hq. fold answer in Hq.
  destruct (con_exchange_spec d (q ++ [0]) (zlen q) Hi) as (d' & E & Hi' & Hb).
  { rewrite splice_0_sub_prefix, Hq, zlen_bridge_reply. unfold RX_BUF, LLM_MAX_RESPONSE. lia. }
  rewrite splice_0_sub_prefix, Hq in E, Hb.
  destruct (stream_reply answer (drop (length (bridge_reply answer)) (rx_buf (con_shared d))) cap Ha Hn He) as (st & Es & Ec & Ed).
  unfold llm_stream, con_up. rewrite (bind_ret _ _ _ 0 d) by (rewrite bind_gets; by rewrite (ci_ready d Hi)).
  change (negb (0 =? 0)) with false. cbn beta iota. test_false (cap <=? 0). rewrite Eq, (bind_ret _ _ _ _ _ E). cbn [fst snd].
  change (negb (0 =? 0)) with false. cbn beta iota. rewrite zlen_bridge_reply in *.
  test_false (37 * zlen (pieces answer) + 34 + 2 * zlen (esc answer) <? 8). rewrite bind_gets, Hb.
  change (splice (rx_buf (con_shared d)) 0 (bridge_reply answer))
    with (bridge_reply answer ++ drop (length (bridge_reply answer)) (rx_buf (con_shared d))).
  replace (cmatch _ 0 (str "LLMR")) with false by (unfold bridge_reply, pieces; by destruct (_ <=? _)%nat).
  cbn iota. rewrite Es. cbn [lift]. rewrite (bind_ret _ _ _ _ _ eq_refl). cbn [fst snd].
  exists (st_buf st), d'. rewrite Ed, pieces_concat. done.
Qed.

(** The driver does not escape a line break: the host's line ends there, and the query
    is not one that it can read. *)
Theorem newline_breaks_query :
  ∃ q, build_json_query (str "two" ++ [10] ++ str "lines") TX_BUF = Some q ∧ host_prompt q = None.
Proof. eexists. split; [reflexivity|]. vm_compute. reflexivity. Qed.

End exchange.

(** ** Lengths that wrap around *)

(** A length field of 0xfffffff8 passes both checks (its sum with 8 is 0 in 32 bits,
    and it is negative as an [int]), and the copy that follows leaves both buffers. *)
Theorem legacy_length_wraps junk cap rx_len :
  0 < cap → 8 ≤ rx_len → parse_legacy_response (str "LLMR" ++ [255; 255; 255; 248] ++ junk) cap rx_len = Undef.
Proof.
  intros Hc Hr. unfold parse_legacy_response. test_false (rx_len <? 8). change (cmatch _ 0 (str "LLMR")) with true. cbn [negb].
  change (get_u32_be _ 4) with 4294967288. change (u32 (4294967288 + 8)) with 0. change (i32 4294967288) with (-8).
  test_false (rx_len <? 0). test_false (cap <=? -8). cbn [orb]. change (RX_BUF <? 8 + 4294967288) with true. by rewrite orb_true_r.
Qed.

(** ** A host *)

(** A host on one slot that answers [p] by [p ++ "!"]; a slow one keeps each reply
    until the next notification. *)
Record line_host (slow : bool) := mk_lh { lh_tx : Z; lh_rx : Z; lh_owes : option (list Z); lh_go : bool; lh_status : Z }.
Arguments mk_lh {slow}. Arguments lh_tx {slow}. Arguments lh_rx {slow}. Arguments lh_owes {slow}. Arguments lh_go {slow}. Arguments lh_status {slow}.

Definition lh_ask (p : list Z) : list Z := p ++ str "!".

Definition lh_reply (q : list Z) : list Z := from_option (λ p, bridge_reply (lh_ask p)) [] (host_prompt q).

#[export] Instance line_bus slow : Bus (line_host slow) := {
  mmio_read base off v :=
    (if negb (base =? 0x10001000) then 0
     else if off =? 0 then VIRTIO_MAGIC else if off =? 4 then 2 else if off =? 8 then VIRTIO_DEV_CONSOLE
     else if off =? 0x034 then 8 else if off =? 0x070 then lh_status v else 0, v);
  mmio_write base off val v :=
    if off =? 0x050 then mk_lh (lh_tx v) (lh_rx v) (lh_owes v) (bool_decide (is_Some (lh_owes v))) (lh_status v)
    else if off =? 0x070 then mk_lh (lh_tx v) (lh_rx v) (lh_owes v) (lh_go v) val else v
}.

#[export] Instance line_con slow : ConHost (line_host slow) := {
  con_run p :=
    let '(m, v) := p in
    let push q len := set_used (u16 (vq_used_idx q + 1)) (<[Z.to_nat (Z.land (vq_used_idx q) 3) := (0, len)]> (replicate 4 (0, 0))) q in
    match lh_owes v with
    | Some r =>
        if (slow && negb (lh_go v)) || (vq_avail_idx (rxq m) =? lh_rx v) then (m, v)
        else (mk_cmem (push (rxq m) (zlen r)) (txq m) (splice (rx_buf m) 0 r) (tx_buf m),
              mk_lh (lh_tx v) (u16 (lh_rx v + 1)) None false (lh_status v))
    | None =>
        if vq_avail_idx (txq m) =? lh_tx v then (m, v)
        else (with_txq (push (txq m) 0) m,
              mk_lh (u16 (lh_tx v + 1)) (lh_rx v)
                (Some (lh_reply (sub (tx_buf m) 0 (d_len (nth 0 (vq_desc (txq m)) zero_desc)))))
                (lh_go v) (lh_status v))
    end
}.

#[export] Instance line_laws a_rx a_tx : ConHostLaws (line_host false) a_rx a_tx.
Proof.
  refine {| ch_tx_seen := lh_tx; ch_rx_seen := lh_rx; ch_owes := lh_owes; ch_reply _ q := lh_reply q |}.
  - done.
  - intros m v len (Hd & Ha & _) Ho. exists 0%nat. cbn [Nat.iter nat_rect Nat.add con_run line_con]. rewrite Ho.
    destruct (Z.eqb_spec (vq_avail_idx (txq m)) (lh_tx v)) as [E|_].
    { rewrite Ha in E. exfalso. revert E. unfold u16. Z.to_euclidean_division_equations; lia. }
    eexists _, _. split; [lia|]. split; [by intros [|k] Hk; [|lia]|]. split; [reflexivity|]. cbn [lh_tx lh_rx lh_owes].
    by rewrite (nth_lookup_Some _ _ _ _ Hd).
  - intros m v r (Hd & Ha & _) Ho Hr. exists 0%nat. cbn [Nat.iter nat_rect Nat.add con_run line_con andb orb]. rewrite Ho.
    destruct (Z.eqb_spec (vq_avail_idx (rxq m)) (lh_rx v)) as [E|_].
    { rewrite Ha in E. exfalso. revert E. unfold u16. Z.to_euclidean_division_equations; lia. }
    eexists _, _. split; [lia|]. split; [by intros [|k] Hk; [|lia]|]. split; [reflexivity|]. split; [|done].
    apply nth_lookup_Some, list_lookup_insert_eq. rewrite length_replicate.
    pose proof (land3 (vq_used_idx (rxq m))). lia.
Defined.

Definition con_static : con_mem := mk_cmem (zero_vq 4) (zero_vq 4) (replicate 576 0) (replicate 320 0).

Definition demo_con (slow : bool) : con (line_host slow) :=
  match console_init (1, 2, 3) (4, 5, 6) (mk_con (mk_lh 0 0 None false 0) 0 false con_static) with
  | Ret (_, d) => d
  | _ => mk_con (mk_lh 0 0 None false 0) 0 false con_static
  end.

(** ** Late replies *)

Lemma idle_wait {S} (run : S → S) (q : S → virtqueue) loops s :
  run s = s → vq_used_idx (q s) = vq_last_used (q s) → vq_wait_used (modify run) q loops s = Ret (ETIMEDOUT, s).
Proof.
  intros Hr Hq. unfold vq_wait_used. set (f := λ _ : unit, _).
  assert (∀ n, nloop f n tt s = Ret (inl tt, s)) as H.
  { induction n as [|n IH]; [done|]. cbn [nloop]. unfold f at 1, bind, modify, gets, ret. rewrite Hr, Hq, Z.eqb_refl. exact IH. }
  unfold bind at 1. by rewrite ploop_nloop, H.
Qed.

(** An exchange that fails. *)
Lemma http_exchange_fails {V} `{Bus V} `{ConHost V} a_rx a_tx a_rxq a_txq (d d' : con V) tx cap rc n :
  virtio_ready d = true → 0 < zlen tx ≤ TX_BUF → 8 ≤ cap ≤ RX_BUF →
  con_exchange a_rx a_tx tx (zlen tx) d = Ret ((rc, n), d') → rc ≠ 0 →
  http_exchange a_rx a_tx a_rxq a_txq tx cap d = Ret ((rc, []), d').
Proof.
  intros Hr Ht Hc E Hrc. unfold http_exchange, con_up. rewrite (bind_ret _ _ _ 0 d) by (rewrite bind_gets; by rewrite Hr).
  change (negb (0 =? 0)) with false. cbn beta iota. unfold TX_BUF, RX_BUF, LLM_MAX_PROMPT, LLM_MAX_RESPONSE in *.
  test_false (zlen tx =? 0). test_false (cap <? 8). cbn [orb]. test_false (256 + 64 <? zlen tx). test_false (512 + 64 <? cap). cbn [orb].
  rewrite (bind_ret _ _ _ _ _ E). cbn [fst]. by test_false (rc =? 0).
Qed.

Definition query_text (p : string) : list Z := default [] (build_json_query (str p) TX_BUF).

(** After a request that timed out, its receive buffer stays posted: when the
    host answers late, the reply to the first request is returned as the reply to
    the second. *)
Theorem late_reply :
  let first := query_text "one" in let second := query_text "two" in
  ∃ d1, http_exchange 8 9 (1, 2, 3) (4, 5, 6) first 528 (demo_con true) = Ret ((ETIMEDOUT, []), d1)
    ∧ match http_exchange 8 9 (1, 2, 3) (4, 5, 6) second 528 d1 with
      | Ret ((_, reply), _) => reply = bridge_reply (str "one!")
      | _ => False
      end.
Proof.
  set (d0 := match con_send 8 9 (query_text "one") (zlen (query_text "one")) (demo_con true) with
             | Ret (_, d) => d | _ => demo_con true end).
  set (d1 := let d := device_acts d0 in set_shared (with_txq (vq_consume VQ_SIZE (txq (con_shared d))).2 (con_shared d)) d).
  assert (con_exchange 8 9 (query_text "one") (zlen (query_text "one")) (demo_con true) = Ret ((ETIMEDOUT, 0), d1)) as E.
  { unfold con_exchange. rewrite (bind_ret _ _ _ tt d0) by (vm_compute; reflexivity).
    rewrite (bind_ret _ _ _ 0 (device_acts d0)) by (vm_compute; reflexivity).
    change (negb (0 =? 0)) with false. cbn iota. rewrite bind_modify. unfold con_receive.
    rewrite (bind_ret _ _ _ ETIMEDOUT d1); [done|]. apply idle_wait; vm_compute; reflexivity. }
  exists d1. split; [|vm_compute; reflexivity].
  apply (http_exchange_fails 8 9 (1, 2, 3) (4, 5, 6) (demo_con true) d1 (query_text "one") 528 ETIMEDOUT 0); [| | |exact E|done];
    vm_compute; intuition discriminate.
Qed.

(** ** The theorems at that host *)

Lemma demo_con_inv : con_inv 8 9 (demo_con false).
Proof. split; [done|..|done]; (split; [done..|split; by vm_compute]). Qed.

Lemma http_exchange_exact_witness :
  ∃ d', http_exchange 8 9 (1, 2, 3) (4, 5, 6) (query_text "one") 528 (demo_con false)
    = Ret ((zlen (bridge_reply (str "one!")), bridge_reply (str "one!")), d') ∧ con_inv 8 9 d'.
Proof.
  assert (ch_reply (a_rx:=8) (a_tx:=9) (con_dev (demo_con false)) (query_text "one") = bridge_reply (str "one!")) as E by by vm_compute.
  rewrite <- E. apply (http_exchange_exact 8 9 (1, 2, 3) (4, 5, 6) (demo_con false) (query_text "one") 528 demo_con_inv);
    try rewrite E; vm_compute; intuition discriminate.
Defined.

Lemma llm_stream_dialogue_witness :
  let p := str "say " ++ quoted (str "hi") in
  ∃ buf d', llm_stream 8 9 (1, 2, 3) (4, 5, 6) p 512 true (demo_con false)
      = Ret ((9, buf, [str "say "; quoted (str "hi") ++ str "!"]), d')
    ∧ cstr_of buf = Some (p ++ str "!") ∧ con_inv 8 9 d'.
Proof.
  intros p.
  destruct (llm_stream_dialogue 8 9 (1, 2, 3) (4, 5, 6) lh_ask (demo_con false) p 512 demo_con_inv) as (buf & d' & E & Ec & _ & Hi).
  - intros q x Hq. change (lh_reply q = bridge_reply (lh_ask x)). unfold lh_reply. by rewrite Hq.
  - apply (bool_decide_unpack _). by vm_compute.
  - by vm_compute.
  - apply (bool_decide_unpack _). by vm_compute.
  - by vm_compute.
  - by vm_compute.
  - exists buf, d'. split; [exact E|]. split; [exact Ec|exact Hi].
Defined.
