(* ===== verification/VirtioGpu.v ===== *)
(** * The screen driver (kernel/virtio_gpu.c)

    A frame buffer of at most 320 by 240 pixels in the kernel heap, text in an 8 by 8
    font, and the commands that show it.  [fb_pixels] holds the 32-bit words of the block
    that [kalloc] gave; a store outside the block is undefined.  The device is reached through the bus and
    shares the record [gpu_mem] (the class [GpuHost]): the control queue, the request
    and the reply of a command, and the frame buffer.  A command is the list of the
    bytes of its C struct; [pad] stands for the four bytes of padding at the end of
    one of them, which the code leaves uninitialised. *)

From S2P Require Import Prelude Persist Paths Mem Tool Virtio.

Definition VIRTIO_DEV_GPU : Z := 16.
Definition GPU_VQ_SIZE : Z := 8.
Definition VIRTIO_GPU_CMD_GET_DISPLAY_INFO : Z := 0x0100.
Definition VIRTIO_GPU_CMD_RESOURCE_CREATE_2D : Z := 0x0101.
Definition VIRTIO_GPU_CMD_SET_SCANOUT : Z := 0x0103.
Definition VIRTIO_GPU_CMD_RESOURCE_FLUSH : Z := 0x0104.
Definition VIRTIO_GPU_CMD_TRANSFER_TO_HOST_2D : Z := 0x0105.
Definition VIRTIO_GPU_CMD_RESOURCE_ATTACH_BACKING : Z := 0x0106.
Definition VIRTIO_GPU_FORMAT_B8G8R8A8_UNORM : Z := 1.
Definition VIRTIO_GPU_RESP_OK_NODATA : Z := 0x1100.
Definition VIRTIO_GPU_RESP_OK_DISPLAY_INFO : Z := 0x1101.
Definition GPU_FB_WIDTH : Z := 320.
Definition GPU_FB_HEIGHT : Z := 240.

(** ** Drawing *)

(** A loop over the values [ks] of its counter. *)
Fixpoint loop {S} (step : Z → S → option S) (ks : list Z) (s : S) : option S :=
  match ks with [] => Some s | k :: ks' => s' ← step k s; loop step ks' s' end.

(** The table is initialised with 97 rows; the array has 96, and the last row is
    dropped. *)
Definition font8x8 : list (list Z) := take 96 [
   [0x00; 0x00; 0x00; 0x00; 0x00; 0x00; 0x00; 0x00]; [0x18; 0x3c; 0x3c; 0x18; 0x18; 0x00; 0x18; 0x00]; [0x36; 0x36; 0x00; 0x00; 0x00; 0x00; 0x00; 0x00]; [0x36; 0x36; 0x7f; 0x36; 0x7f; 0x36; 0x36; 0x00];
   [0x0c; 0x3e; 0x03; 0x1e; 0x30; 0x1f; 0x0c; 0x00]; [0x00; 0x63; 0x33; 0x18; 0x0c; 0x66; 0x63; 0x00]; [0x1c; 0x36; 0x1c; 0x6e; 0x3b; 0x33; 0x6e; 0x00]; [0x06; 0x06; 0x03; 0x00; 0x00; 0x00; 0x00; 0x00];
   [0x18; 0x0c; 0x06; 0x06; 0x06; 0x0c; 0x18; 0x00]; [0x06; 0x0c; 0x18; 0x18; 0x18; 0x0c; 0x06; 0x00]; [0x00; 0x66; 0x3c; 0xff; 0x3c; 0x66; 0x00; 0x00]; [0x00; 0x0c; 0x0c; 0x3f; 0x0c; 0x0c; 0x00; 0x00];
   [0x00; 0x00; 0x00; 0x00; 0x00; 0x0c; 0x06; 0x00]; [0x00; 0x00; 0x00; 0x3f; 0x00; 0x00; 0x00; 0x00]; [0x00; 0x00; 0x00; 0x00; 0x00; 0x0c; 0x0c; 0x00]; [0x60; 0x30; 0x18; 0x0c; 0x06; 0x03; 0x01; 0x00];
   [0x3e; 0x63; 0x73; 0x7b; 0x6f; 0x67; 0x3e; 0x00]; [0x0c; 0x0e; 0x0c; 0x0c; 0x0c; 0x0c; 0x3f; 0x00]; [0x1e; 0x33; 0x30; 0x1c; 0x06; 0x33; 0x3f; 0x00]; [0x1e; 0x33; 0x30; 0x1c; 0x30; 0x33; 0x1e; 0x00];
   [0x38; 0x3c; 0x36; 0x33; 0x7f; 0x30; 0x78; 0x00]; [0x3f; 0x03; 0x1f; 0x30; 0x30; 0x33; 0x1e; 0x00]; [0x1c; 0x06; 0x03; 0x1f; 0x33; 0x33; 0x1e; 0x00]; [0x3f; 0x33; 0x30; 0x18; 0x0c; 0x0c; 0x0c; 0x00];
   [0x1e; 0x33; 0x33; 0x1e; 0x33; 0x33; 0x1e; 0x00]; [0x1e; 0x33; 0x33; 0x3e; 0x30; 0x18; 0x0e; 0x00]; [0x00; 0x0c; 0x0c; 0x00; 0x00; 0x0c; 0x0c; 0x00]; [0x00; 0x0c; 0x0c; 0x00; 0x00; 0x0c; 0x06; 0x00];
   [0x18; 0x0c; 0x06; 0x03; 0x06; 0x0c; 0x18; 0x00]; [0x00; 0x00; 0x3f; 0x00; 0x00; 0x3f; 0x00; 0x00]; [0x06; 0x0c; 0x18; 0x30; 0x18; 0x0c; 0x06; 0x00]; [0x1e; 0x33; 0x30; 0x18; 0x0c; 0x0c; 0x0c; 0x00];
   [0x3e; 0x63; 0x7b; 0x7b; 0x7b; 0x03; 0x1e; 0x00]; [0x0c; 0x1e; 0x33; 0x33; 0x3f; 0x33; 0x33; 0x00]; [0x3f; 0x66; 0x66; 0x3e; 0x66; 0x66; 0x3f; 0x00]; [0x3c; 0x66; 0x03; 0x03; 0x03; 0x66; 0x3c; 0x00];
   [0x1f; 0x36; 0x66; 0x66; 0x66; 0x36; 0x1f; 0x00]; [0x7f; 0x46; 0x16; 0x1e; 0x16; 0x46; 0x7f; 0x00]; [0x7f; 0x46; 0x16; 0x1e; 0x16; 0x06; 0x0f; 0x00]; [0x3c; 0x66; 0x03; 0x03; 0x73; 0x66; 0x7c; 0x00];
   [0x33; 0x33; 0x33; 0x3f; 0x33; 0x33; 0x33; 0x00]; [0x1e; 0x0c; 0x0c; 0x0c; 0x0c; 0x0c; 0x1e; 0x00]; [0x78; 0x30; 0x30; 0x30; 0x33; 0x33; 0x1e; 0x00]; [0x67; 0x66; 0x36; 0x1e; 0x36; 0x66; 0x67; 0x00];
   [0x0f; 0x06; 0x06; 0x06; 0x46; 0x66; 0x7f; 0x00]; [0x63; 0x77; 0x7f; 0x7f; 0x6b; 0x63; 0x63; 0x00]; [0x63; 0x67; 0x6f; 0x7b; 0x73; 0x63; 0x63; 0x00]; [0x1c; 0x36; 0x63; 0x63; 0x63; 0x36; 0x1c; 0x00];
   [0x3f; 0x66; 0x66; 0x3e; 0x06; 0x06; 0x0f; 0x00]; [0x3e; 0x63; 0x63; 0x63; 0x6b; 0x3e; 0x78; 0x00]; [0x3f; 0x66; 0x66; 0x3e; 0x36; 0x66; 0x67; 0x00]; [0x1e; 0x33; 0x07; 0x0e; 0x38; 0x33; 0x1e; 0x00];
   [0x3f; 0x2d; 0x0c; 0x0c; 0x0c; 0x0c; 0x1e; 0x00]; [0x33; 0x33; 0x33; 0x33; 0x33; 0x33; 0x3f; 0x00]; [0x33; 0x33; 0x33; 0x33; 0x33; 0x1e; 0x0c; 0x00]; [0x63; 0x63; 0x63; 0x6b; 0x7f; 0x77; 0x63; 0x00];
   [0x63; 0x63; 0x36; 0x1c; 0x1c; 0x36; 0x63; 0x00]; [0x33; 0x33; 0x33; 0x1e; 0x0c; 0x0c; 0x1e; 0x00]; [0x7f; 0x63; 0x31; 0x18; 0x4c; 0x66; 0x7f; 0x00]; [0x1e; 0x06; 0x06; 0x06; 0x06; 0x06; 0x1e; 0x00];
   [0x03; 0x06; 0x0c; 0x18; 0x30; 0x60; 0x40; 0x00]; [0x1e; 0x18; 0x18; 0x18; 0x18; 0x18; 0x1e; 0x00]; [0x08; 0x1c; 0x36; 0x63; 0x00; 0x00; 0x00; 0x00]; [0x00; 0x00; 0x00; 0x00; 0x00; 0x00; 0x00; 0xff];
   [0x0c; 0x0c; 0x18; 0x00; 0x00; 0x00; 0x00; 0x00]; [0x00; 0x00; 0x1e; 0x30; 0x3e; 0x33; 0x6e; 0x00]; [0x07; 0x06; 0x06; 0x3e; 0x66; 0x66; 0x3b; 0x00]; [0x00; 0x00; 0x1e; 0x33; 0x03; 0x33; 0x1e; 0x00];
   [0x38; 0x30; 0x30; 0x3e; 0x33; 0x33; 0x6e; 0x00]; [0x00; 0x00; 0x1e; 0x33; 0x3f; 0x03; 0x1e; 0x00]; [0x1c; 0x36; 0x06; 0x0f; 0x06; 0x06; 0x0f; 0x00]; [0x00; 0x00; 0x6e; 0x33; 0x33; 0x3e; 0x30; 0x1f];
   [0x07; 0x06; 0x36; 0x6e; 0x66; 0x66; 0x67; 0x00]; [0x0c; 0x00; 0x0e; 0x0c; 0x0c; 0x0c; 0x1e; 0x00]; [0x30; 0x00; 0x30; 0x30; 0x30; 0x33; 0x33; 0x1e]; [0x07; 0x06; 0x66; 0x36; 0x1e; 0x36; 0x67; 0x00];
   [0x0e; 0x0c; 0x0c; 0x0c; 0x0c; 0x0c; 0x1e; 0x00]; [0x00; 0x00; 0x33; 0x7f; 0x7f; 0x6b; 0x63; 0x00]; [0x00; 0x00; 0x1f; 0x33; 0x33; 0x33; 0x33; 0x00]; [0x00; 0x00; 0x1e; 0x33; 0x33; 0x33; 0x1e; 0x00];
   [0x00; 0x00; 0x3b; 0x66; 0x66; 0x3e; 0x06; 0x0f]; [0x00; 0x00; 0x6e; 0x33; 0x33; 0x3e; 0x30; 0x78]; [0x00; 0x00; 0x3b; 0x06; 0x0e; 0x06; 0x1f; 0x00]; [0x00; 0x00; 0x3e; 0x03; 0x1e; 0x30; 0x1f; 0x00];
   [0x00; 0x00; 0x0e; 0x18; 0x3e; 0x18; 0x0e; 0x00]; [0x00; 0x00; 0x63; 0x63; 0x63; 0x63; 0x6e; 0x00]; [0x00; 0x00; 0x33; 0x33; 0x33; 0x1e; 0x0c; 0x00]; [0x00; 0x00; 0x63; 0x63; 0x6b; 0x7f; 0x36; 0x00];
   [0x00; 0x00; 0x63; 0x36; 0x1c; 0x36; 0x63; 0x00]; [0x00; 0x00; 0x33; 0x33; 0x33; 0x3e; 0x30; 0x1f]; [0x00; 0x00; 0x3f; 0x19; 0x0c; 0x26; 0x3f; 0x00]; [0x1c; 0x36; 0x36; 0x1c; 0x36; 0x36; 0x1c; 0x00];
   [0x0c; 0x0c; 0x3f; 0x0c; 0x0c; 0x2c; 0x18; 0x00]; [0x00; 0x00; 0x00; 0x00; 0x00; 0x00; 0x0c; 0x06]; [0x00; 0x00; 0x00; 0x3f; 0x00; 0x00; 0x00; 0x00]; [0x00; 0x00; 0x00; 0x00; 0x00; 0x0c; 0x0c; 0x00];
   [0x00; 0x38; 0x0c; 0x06; 0x03; 0x06; 0x0c; 0x00]].

(** A store in the block at [fb_pixels], and the loop that stores [color] in its first
    [n] words. *)
Definition fb_store (i color : Z) (fb : list Z) : option (list Z) :=
  if (0 <=? i) && (i <? zlen fb) then Some (<[Z.to_nat i := color]> fb) else None.

Definition fb_fill (n color : Z) (fb : list Z) : option (list Z) :=
  if n <=? zlen fb then Some (replicate (Z.to_nat n) color ++ drop (Z.to_nat n) fb) else None.

Definition gpu_put_pixel (w h x y color : Z) (fb : list Z) : option (list Z) :=
  if (x <? 0) || (y <? 0) || (w <=? u32 x) || (h <=? u32 y) then Some fb else fb_store (y * w + x) color fb.

(** A row of a glyph and a whole glyph. *)
Definition draw_row (w h cx cy bits fg bg : Z) (fb : list Z) : option (list Z) :=
  loop (λ col, gpu_put_pixel w h (cx + col) cy (if Z.land bits (Z.shiftl 1 col) =? 0 then bg else fg)) (seqZ 0 8) fb.

Definition draw_glyph (w h cx cy : Z) (glyph : list Z) (fg bg : Z) (fb : list Z) : option (list Z) :=
  loop (λ row, draw_row w h cx (cy + row) (nth (Z.to_nat row) glyph 0) fg bg) (seqZ 0 8) fb.

Definition glyph_of (c : Z) : list Z :=
  let c := if (c <? 32) || (127 <? c) then 63 else c in nth (Z.to_nat (c - 32)) font8x8 [].

Fixpoint draw_text (w h x cx cy : Z) (text : list Z) (fg bg : Z) (fb : list Z) : option (list Z) :=
  match text with
  | [] => Some fb
  | c :: text' =>
      if c =? 10 then draw_text w h x x (cy + 10) text' fg bg fb
      else
        fb' ← draw_glyph w h cx cy (glyph_of c) fg bg fb;
        draw_text w h x (cx + 8) cy text' fg bg fb'
  end.

(** ** Commands *)

Definition virtio_gpu_ctrl_hdr (type : Z) : list Z := le32 type ++ le32 0 ++ le64 0 ++ le32 0 ++ le32 0.

Definition gpu_resource_id : Z := 1.

Definition create_2d (w h : Z) : list Z :=
  virtio_gpu_ctrl_hdr VIRTIO_GPU_CMD_RESOURCE_CREATE_2D ++ le32 gpu_resource_id ++ le32 VIRTIO_GPU_FORMAT_B8G8R8A8_UNORM
  ++ le32 w ++ le32 h.

Definition attach_cmd (addr w h : Z) : list Z :=
  virtio_gpu_ctrl_hdr VIRTIO_GPU_CMD_RESOURCE_ATTACH_BACKING ++ le32 gpu_resource_id ++ le32 1
  ++ le64 addr ++ le32 (u32 (w * h * 4)) ++ le32 0.

Definition set_scanout (w h : Z) : list Z :=
  virtio_gpu_ctrl_hdr VIRTIO_GPU_CMD_SET_SCANOUT ++ le32 0 ++ le32 gpu_resource_id ++ le32 0 ++ le32 0 ++ le32 w ++ le32 h.

Definition transfer_to_host_2d (w h : Z) : list Z :=
  virtio_gpu_ctrl_hdr VIRTIO_GPU_CMD_TRANSFER_TO_HOST_2D ++ le32 gpu_resource_id ++ le32 0 ++ le32 0 ++ le32 w ++ le32 h ++ le32 0.

Definition resource_flush (pad : list Z) (w h : Z) : list Z :=
  virtio_gpu_ctrl_hdr VIRTIO_GPU_CMD_RESOURCE_FLUSH ++ le32 gpu_resource_id ++ le32 0 ++ le32 0 ++ le32 w ++ le32 h ++ pad.

(** ** The driver *)

Record gpu_mem := mk_gmem {
  gpu_ctrlq : virtqueue;
  gpu_req : list Z;
  gpu_resp : list Z;
  fb_pixels : list Z
}.

Class GpuHost (V : Type) := { gpu_run : gpu_mem * V → gpu_mem * V }.

(** [fb_addr] is the pointer to the frame buffer, 0 when there is none. *)
Record gpu (V : Type) := mk_gpu {
  gpu_dev : V;
  gpu_mmio : Z;
  gpu_ready : bool;
  gpu_width : Z;
  gpu_height : Z;
  fb_addr : Z;
  gpu_shared : gpu_mem
}.
Arguments mk_gpu {V}. Arguments gpu_dev {V}. Arguments gpu_mmio {V}. Arguments gpu_ready {V}. Arguments gpu_width {V}.
Arguments gpu_height {V}. Arguments fb_addr {V}. Arguments gpu_shared {V}.

Definition with_ctrlq (q : virtqueue) (m : gpu_mem) : gpu_mem := mk_gmem q (gpu_req m) (gpu_resp m) (fb_pixels m).
Definition with_fb (fb : list Z) (m : gpu_mem) : gpu_mem := mk_gmem (gpu_ctrlq m) (gpu_req m) (gpu_resp m) fb.

Section driver.
Context {V : Type} `{Bus V} `{GpuHost V}.
(** The addresses of the request, the reply and the parts of the queue. *)
Context (a_req a_resp : Z) (a_ctrlq : Z * Z * Z) (pad : list Z).
Abbreviation gpu := (gpu V).

Definition set_dev (v : V) (d : gpu) : gpu :=
  mk_gpu v (gpu_mmio d) (gpu_ready d) (gpu_width d) (gpu_height d) (fb_addr d) (gpu_shared d).
Definition set_shared (m : gpu_mem) (d : gpu) : gpu :=
  mk_gpu (gpu_dev d) (gpu_mmio d) (gpu_ready d) (gpu_width d) (gpu_height d) (fb_addr d) m.
Definition set_size (w h : Z) (d : gpu) : gpu :=
  mk_gpu (gpu_dev d) (gpu_mmio d) (gpu_ready d) w h (fb_addr d) (gpu_shared d).
Definition ondev {A} (m : M V A) : M gpu A := zoom gpu_dev set_dev m.
Definition onq {A} (m : M (virtqueue * V) A) : M gpu A :=
  zoom (λ d, (gpu_ctrlq (gpu_shared d), gpu_dev d)) (λ p d, set_dev p.2 (set_shared (with_ctrlq p.1 (gpu_shared d)) d)) m.

Definition device_acts (d : gpu) : gpu :=
  let '(m, v) := gpu_run (gpu_shared d, gpu_dev d) in set_dev v (set_shared m d).

Definition find_gpu_mmio : M V Z := find_mmio (Z.to_nat platform_virtio_mmio_count) 0 VIRTIO_DEV_GPU false.

(** One command.  The position in the used ring is not reset before a command. *)
Definition gpu_cmd (req : list Z) (resp_len : Z) : M gpu Z :=
  modify (λ d, let m := gpu_shared d in
    set_shared (mk_gmem (set_desc 1 (mk_desc a_resp resp_len VRING_DESC_F_WRITE 0)
                           (set_desc 0 (mk_desc a_req (zlen req) VRING_DESC_F_NEXT 1) (gpu_ctrlq m)))
                  req (gpu_resp m) (fb_pixels m)) d) ;;
  onq (vq_submit GPU_VQ_SIZE 0) ;;
  let! rc := vq_wait_used (modify device_acts) (λ d, gpu_ctrlq (gpu_shared d)) 500000 in
  if negb (rc =? 0) then ret rc
  else
    onq (modify (λ p, (set_last_used (u16 (vq_last_used p.1 + 1)) p.1, p.2))) ;;
    ret 0.

(** A command whose reply carries no data: whether it succeeded. *)
Definition gpu_cmd_ok (req : list Z) : M gpu bool :=
  let! rc := gpu_cmd req 24 in
  let! resp := gets (λ d, gpu_resp (gpu_shared d)) in
  ret ((rc =? 0) && (get_le32 resp 0 =? VIRTIO_GPU_RESP_OK_NODATA)).

Definition gpu_setup_framebuffer : M gpu Z :=
  let! d := gets id in
  let w := gpu_width d in
  let h := gpu_height d in
  let! ok := gpu_cmd_ok (create_2d w h) in
  if negb ok then ret EIO
  else
    let! ok := gpu_cmd_ok (attach_cmd (fb_addr d) w h) in
    if negb ok then ret EIO
    else gpu_cmd_ok (set_scanout w h) ;; ret 0.

(** The size of the screen that the reply [dinfo] gives, at most that of the frame
    buffer. *)
Definition screen_size (rc : Z) (dinfo : list Z) (w h : Z) : Z * Z :=
  let '(w, h) := if (rc =? 0) && (get_le32 dinfo 0 =? VIRTIO_GPU_RESP_OK_DISPLAY_INFO) && negb (get_le32 dinfo 24 =? 0)
                    && (0 <? get_le32 dinfo 40) && (0 <? get_le32 dinfo 44)
                 then (get_le32 dinfo 40, get_le32 dinfo 44) else (w, h) in
  (Z.min w GPU_FB_WIDTH, Z.min h GPU_FB_HEIGHT).

(** The block that [kalloc] gives for [bytes] bytes; what it holds is not known and is
    written over at once. *)
Definition block (bytes : Z) : list Z := replicate (Z.to_nat (bytes / 4)) 0.

(** The result of the queue's setup is ignored. *)
Definition gpu_init : M (gpu * heap) unit :=
  let on {A} (m : M gpu A) : M (gpu * heap) A := zoom fst (λ d p, (d, p.2)) m in
  let! d := gets fst in
  if gpu_ready d then ret tt
  else
    let! base := on (ondev find_gpu_mmio) in
    on (modify (λ d, mk_gpu (gpu_dev d) base (gpu_ready d) (gpu_width d) (gpu_height d) (fb_addr d) (gpu_shared d))) ;;
    if base =? 0 then ret tt
    else
      let! ok := on (ondev (device_start base)) in
      if negb ok then ret tt
      else
        on (modify (λ d, set_shared (with_ctrlq (vq_bind base 0 (gpu_ctrlq (gpu_shared d))) (gpu_shared d)) d)) ;;
        let! q := on (gets (λ d, gpu_ctrlq (gpu_shared d))) in
        on (ondev (vq_setup GPU_VQ_SIZE q a_ctrlq.1.1 a_ctrlq.1.2 a_ctrlq.2)) ;;
        let! rc := on (gpu_cmd (virtio_gpu_ctrl_hdr VIRTIO_GPU_CMD_GET_DISPLAY_INFO) 408) in
        on (modify (λ d, let '(w, h) := screen_size rc (gpu_resp (gpu_shared d)) (gpu_width d) (gpu_height d) in set_size w h d)) ;;
        let! d := gets fst in
        let size := gpu_width d * gpu_height d in
        let bytes := u64 (size * 4) in
        let! addr := zoom snd (λ h p, (p.1, h)) (act (kalloc bytes)) in
        on (modify (λ d, mk_gpu (gpu_dev d) base (gpu_ready d) (gpu_width d) (gpu_height d) addr (gpu_shared d))) ;;
        if addr =? 0 then on (ondev (reg_write base 0x070 0))
        else
          let! fb := orundef (fb_fill size 0xff102030 (block bytes)) in
          on (modify (λ d, set_shared (with_fb fb (gpu_shared d)) d)) ;;
          let! rc := on gpu_setup_framebuffer in
          if negb (rc =? 0) then on (ondev (reg_write base 0x070 0))
          else
            on (ondev (device_go base)) ;;
            on (modify (λ d, mk_gpu (gpu_dev d) base true (gpu_width d) (gpu_height d) (fb_addr d) (gpu_shared d))).

Definition gpu_clear (color : Z) : M gpu unit :=
  let! d := gets id in
  if negb (gpu_ready d) || (fb_addr d =? 0) then ret tt
  else
    let! fb := orundef (fb_fill (gpu_width d * gpu_height d) color (fb_pixels (gpu_shared d))) in
    modify (λ d, set_shared (with_fb fb (gpu_shared d)) d).

Definition gpu_draw_text (x y : Z) (text : list Z) (fg bg : Z) : M gpu unit :=
  let! d := gets id in
  if negb (gpu_ready d) || (fb_addr d =? 0) then ret tt
  else
    let! fb := orundef (draw_text (gpu_width d) (gpu_height d) x x y text fg bg (fb_pixels (gpu_shared d))) in
    modify (λ d, set_shared (with_fb fb (gpu_shared d)) d).

(** A failed transfer or flush is only reported on the console. *)
Definition gpu_flush : M gpu Z :=
  let! d := gets id in
  if negb (gpu_ready d) then ret ENODEV
  else
    let! ok := gpu_cmd_ok (transfer_to_host_2d (gpu_width d) (gpu_height d)) in
    if negb ok then ret 0
    else gpu_cmd_ok (resource_flush pad (gpu_width d) (gpu_height d)) ;; ret 0.

End driver.

(** ** What a drawing changes *)

(** A loop whose step [k] changes what [get] sees exactly when [k] is [key]. *)
Lemma loop_key {S A} (ok : S → Prop) (get : S → A) (step : Z → S → option S) (key : Z) (v : A) ks s :
  (∀ s k, k ∈ ks → ok s → ∃ s', step k s = Some s' ∧ ok s' ∧ get s' = if k =? key then v else get s) →
  ok s → ∃ s', loop step ks s = Some s' ∧ ok s' ∧ get s' = if bool_decide (key ∈ ks) then v else get s.
Proof.
  revert s. induction ks as [|k ks IH]; intros s Hstep Hs; [by exists s|].
  cbn. destruct (Hstep s k) as (s1 & E & Hs' & Hg); [set_solver|done|]. rewrite E. cbn.
  destruct (IH s1) as (s2 & -> & Hok & Eg); [set_solver|done|]. exists s2. split; [done|]. split; [done|].
  rewrite Eg, Hg. repeat case_bool_decide; destruct (Z.eqb_spec k key); set_solver.
Qed.

Lemma fb_fill_exact n color fb : 0 ≤ n → zlen fb = n → fb_fill n color fb = Some (replicate (Z.to_nat n) color).
Proof.
  intros Hn E. unfold fb_fill. rewrite E, Z.leb_refl. rewrite drop_ge by (unfold zlen in E; lia). by rewrite app_nil_r.
Qed.

Section drawing.
Context (w h px py : Z) (Hpx : 0 ≤ px < w) (Hpy : 0 ≤ py < h) (Hw : w ≤ GPU_FB_WIDTH) (Hh : h ≤ GPU_FB_HEIGHT).

Definition pixel (fb : list Z) : option Z := fb !! Z.to_nat (py * w + px).
Definition sized (fb : list Z) : Prop := zlen fb = w * h.

(** The step [m] keeps the size of the frame buffer and leaves [v] at the pixel. *)
Definition shows (m : list Z → option (list Z)) (fb : list Z) (v : option Z) : Prop :=
  ∃ fb', m fb = Some fb' ∧ sized fb' ∧ pixel fb' = v.

Lemma put_pixel_at x y color fb :
  x < 2 ^ 31 → y < 2 ^ 31 → sized fb →
  shows (gpu_put_pixel w h x y color) fb (if (x =? px) && (y =? py) then Some color else pixel fb).
Proof using Hpx Hpy Hw Hh.
  unfold shows, sized, pixel, gpu_put_pixel, fb_store, zlen, GPU_FB_WIDTH, GPU_FB_HEIGHT in *. intros Hx Hy Hlen.
  destruct (_ || _ || _ || _) eqn:E.
  - exists fb. split; [done|]. split; [done|]. destruct (Z.eqb_spec x px) as [->|]; [|done]. destruct (Z.eqb_spec y py) as [->|]; [|done].
    exfalso. revert E. unfold u32. rewrite !Z.mod_small by lia. lia.
  - assert (0 ≤ x < w ∧ 0 ≤ y < h) as [??] by (unfold u32 in E; rewrite !Z.mod_small in E by lia; lia).
    rewrite (proj2 (Z.leb_le _ _)), (proj2 (Z.ltb_lt _ _)) by nia. cbn [andb].
    eexists. split; [done|]. rewrite length_insert. split; [done|].
    destruct (Z.eqb_spec x px) as [->|], (Z.eqb_spec y py) as [->|]; cbn.
    + apply list_lookup_insert_eq. nia.
    + apply list_lookup_insert_ne. nia.
    + apply list_lookup_insert_ne. nia.
    + apply list_lookup_insert_ne. intros ?%Z2Nat.inj; [|nia..]. nia.
Qed.

Lemma land_bit bits col : 0 ≤ col → (Z.land bits (Z.shiftl 1 col) =? 0) = negb (Z.testbit bits col).
Proof.
  intros Hc. rewrite Z.shiftl_1_l. destruct (Z.testbit bits col) eqn:E; cbn.
  - apply Z.eqb_neq. intros H0. assert (Z.testbit (Z.land bits (2 ^ col)) col = false) as Hf by (rewrite H0; apply Z.bits_0).
    rewrite Z.land_spec, E, Z.pow2_bits_true in Hf by done. done.
  - apply Z.eqb_eq. apply Z.bits_inj'. intros n Hn. rewrite Z.land_spec, Z.bits_0.
    destruct (decide (n = col)) as [->|]; [by rewrite E|]. rewrite Z.pow2_bits_false by done. apply andb_false_r.
Qed.

Definition ink (fg bg : Z) (on : bool) : Z := if on then fg else bg.

Lemma draw_row_at cx cy bits fg bg fb :
  cx + 8 < 2 ^ 31 → cy < 2 ^ 31 → sized fb →
  shows (draw_row w h cx cy bits fg bg) fb
    (if (cy =? py) && bool_decide (0 ≤ px - cx < 8) then Some (ink fg bg (Z.testbit bits (px - cx))) else pixel fb).
Proof using Hpx Hpy Hw Hh.
  intros Hx Hy Hs. unfold shows, draw_row.
  destruct (Z.eqb_spec cy py) as [->|Hne]; cbn [andb].
  - replace (bool_decide (0 ≤ px - cx < 8)) with (bool_decide (px - cx ∈ seqZ 0 8))
      by (apply bool_decide_ext; rewrite elem_of_seqZ; lia).
    apply loop_key; [|done]. intros s k [Hk0 Hk]%elem_of_seqZ Hok.
    destruct (put_pixel_at (cx + k) py (if Z.land bits (Z.shiftl 1 k) =? 0 then bg else fg) s) as (s1 & Es & ? & E1); [lia..|done|].
    exists s1. split; [done|]. split; [done|]. rewrite E1. rewrite Z.eqb_refl, andb_true_r, land_bit by lia.
    destruct (Z.eqb_spec (cx + k) px), (Z.eqb_spec k (px - cx)); try lia; [|done]. subst k. by destruct (Z.testbit _ _).
  - replace (pixel fb) with (if bool_decide ((-1) ∈ seqZ 0 8) then pixel fb else pixel fb) by by case_bool_decide.
    apply loop_key; [|done]. intros s k [Hk0 Hk]%elem_of_seqZ Hok.
    destruct (put_pixel_at (cx + k) cy (if Z.land bits (Z.shiftl 1 k) =? 0 then bg else fg) s) as (s1 & Es & ? & E1); [lia..|done|].
    exists s1. split; [done|]. split; [done|]. rewrite E1. rewrite (proj2 (Z.eqb_neq cy py)), andb_false_r by done.
    by destruct (Z.eqb_spec k (-1)); [lia|].
Qed.

Lemma draw_glyph_at cx cy glyph fg bg fb :
  cx + 8 < 2 ^ 31 → cy + 8 < 2 ^ 31 → sized fb →
  shows (draw_glyph w h cx cy glyph fg bg) fb
    (if bool_decide (0 ≤ px - cx < 8) && bool_decide (0 ≤ py - cy < 8)
     then Some (ink fg bg (Z.testbit (nth (Z.to_nat (py - cy)) glyph 0) (px - cx))) else pixel fb).
Proof using Hpx Hpy Hw Hh.
  intros Hx Hy Hs. unfold shows, draw_glyph.
  destruct (bool_decide (0 ≤ px - cx < 8)) eqn:Ex; cbn [andb].
  - replace (bool_decide (0 ≤ py - cy < 8)) with (bool_decide (py - cy ∈ seqZ 0 8))
      by (apply bool_decide_ext; rewrite elem_of_seqZ; lia).
    apply loop_key; [|done]. intros s k [Hk0 Hk]%elem_of_seqZ Hok.
    edestruct (draw_row_at cx (cy + k) (nth (Z.to_nat k) glyph 0) fg bg s) as (s1 & Es & ? & E1); [lia..|done|].
    exists s1. split; [done|]. split; [done|]. rewrite E1. rewrite Ex, andb_true_r.
    destruct (Z.eqb_spec (cy + k) py), (Z.eqb_spec k (py - cy)); try lia; [|done]. by subst k.
  - replace (pixel fb) with (if bool_decide ((-1) ∈ seqZ 0 8) then pixel fb else pixel fb) by by case_bool_decide.
    apply loop_key; [|done]. intros s k [Hk0 Hk]%elem_of_seqZ Hok.
    edestruct (draw_row_at cx (cy + k) (nth (Z.to_nat k) glyph 0) fg bg s) as (s1 & Es & ? & E1); [lia..|done|].
    exists s1. split; [done|]. split; [done|]. rewrite E1. rewrite Ex, andb_false_r. by destruct (Z.eqb_spec k (-1)); [lia|].
Qed.

(** What a text shows at the pixel: its lines are 10 pixels apart, its characters 8
    by 8 pixels, and [x0] is the left edge of its first line. *)
Fixpoint split_lines (text : list Z) : list (list Z) :=
  match text with
  | [] => [[]]
  | c :: text' =>
      if c =? 10 then [] :: split_lines text'
      else match split_lines text' with [] => [[c]] | l :: ls => (c :: l) :: ls end
  end.

Definition zlookup {A} (i : Z) (l : list A) : option A := if i <? 0 then None else l !! Z.to_nat i.

Definition text_shows (x0 x y : Z) (text : list Z) : option bool :=
  let l := (py - y) / 10 in
  let row := (py - y) mod 10 in
  let left := if l =? 0 then x0 else x in
  if 8 <=? row then None
  else
    line ← zlookup l (split_lines text);
    c ← zlookup ((px - left) / 8) line;
    Some (Z.testbit (nth (Z.to_nat row) (glyph_of c) 0) ((px - left) mod 8)).

Lemma zlookup_cons {A} i (a : A) l : zlookup i (a :: l) = if i =? 0 then Some a else zlookup (i - 1) l.
Proof.
  unfold zlookup. destruct (Z.eqb_spec i 0) as [->|]; [done|].
  destruct (Z.ltb_spec i 0), (Z.ltb_spec (i - 1) 0); try lia; [done|].
  by replace (Z.to_nat i) with (S (Z.to_nat (i - 1))) by lia.
Qed.

Lemma zlookup_nil {A} i : zlookup i [] = @None A.
Proof. unfold zlookup. by destruct (_ <? 0). Qed.

Lemma zlookup_neg {A} i (l : list A) : i < 0 → zlookup i l = None.
Proof. intros Hi. unfold zlookup. by rewrite (proj2 (Z.ltb_lt i 0)). Qed.

Lemma text_shows_left x0 x y text : px < x0 → 0 ≤ py - y < 10 → text_shows x0 x y text = None.
Proof.
  intros Hl Hr. unfold text_shows. rewrite (Z.div_small (py - y)), Z.eqb_refl by done.
  destruct (8 <=? _); [done|]. destruct (zlookup 0 _); [|done]. cbn. rewrite zlookup_neg; [done|].
  apply Z.div_lt_upper_bound; lia.
Qed.

Lemma text_shows_newline x0 x y text : text_shows x0 x y (10 :: text) = text_shows x x (y + 10) text.
Proof.
  unfold text_shows. cbn [split_lines]. rewrite Z.eqb_refl, zlookup_cons.
  replace (py - (y + 10)) with (py - y + (-1) * 10) by lia. rewrite Z.div_add, Z.mod_add by done.
  replace ((py - y) / 10 + -1) with ((py - y) / 10 - 1) by lia.
  destruct (8 <=? _); [done|]. destruct (Z.eqb_spec ((py - y) / 10) 0) as [->|]; cbn.
  - by unfold zlookup; destruct (_ <? 0).
  - by destruct (_ =? 0).
Qed.

Lemma text_shows_char x0 x y c text :
  c ≠ 10 →
  text_shows x0 x y (c :: text)
  = if bool_decide (0 ≤ px - x0 < 8) && bool_decide (0 ≤ py - y < 8)
    then Some (Z.testbit (nth (Z.to_nat (py - y)) (glyph_of c) 0) (px - x0))
    else text_shows (x0 + 8) x y text.
Proof.
  intros Hc. unfold text_shows. cbn [split_lines]. rewrite (proj2 (Z.eqb_neq c 10)) by done.
  destruct (split_lines text) as [|l ls] eqn:El; [by destruct text as [|c' ?]; cbn in El; repeat case_match|].
  rewrite !zlookup_cons. pose proof (Z.div_mod (py - y) 10 ltac:(done)). pose proof (Z.mod_pos_bound (py - y) 10 ltac:(done)).
  destruct (Z.eqb_spec ((py - y) / 10) 0) as [E0|E0]; cbn [option_bind mbind].
  - rewrite zlookup_cons. replace (px - (x0 + 8)) with (px - x0 + (-1) * 8) by lia. rewrite Z.div_add, Z.mod_add by done.
    pose proof (Z.div_mod (px - x0) 8 ltac:(done)). pose proof (Z.mod_pos_bound (px - x0) 8 ltac:(done)).
    replace ((px - x0) / 8 + -1) with ((px - x0) / 8 - 1) by lia.
    destruct (Z.leb_spec 8 ((py - y) mod 10)), (Z.eqb_spec ((px - x0) / 8) 0);
      repeat case_bool_decide; cbn; try lia; try done.
    do 3 f_equal; [f_equal|]; lia.
  - case_bool_decide; case_bool_decide; cbn; try done. exfalso. apply E0. apply Z.div_small. lia.
Qed.

Lemma draw_text_at text : ∀ x cx cy fg bg fb,
  Z.max x cx + 8 * (zlen text + 1) < 2 ^ 31 → cy + 10 * (zlen text + 1) < 2 ^ 31 → sized fb →
  shows (draw_text w h x cx cy text fg bg) fb
    (match text_shows cx x cy text with Some on => Some (ink fg bg on) | None => pixel fb end).
Proof using Hpx Hpy Hw Hh.
  induction text as [|c text IH]; intros x cx cy fg bg fb Hx Hy Hs.
  - exists fb. split; [done|]. split; [done|]. unfold text_shows. cbn [split_lines]. rewrite zlookup_cons.
    destruct (8 <=? _); [done|]. destruct (_ =? 0); cbn; rewrite ?zlookup_nil; cbn; rewrite ?zlookup_nil; done.
  - rewrite zlen_cons in *. destruct (Z.eqb_spec c 10) as [->|Hc].
    + rewrite text_shows_newline. unfold shows. cbn [draw_text]. rewrite Z.eqb_refl. apply IH; [lia..|done].
    + destruct (draw_glyph_at cx cy (glyph_of c) fg bg fb) as (fb1 & E1 & Hs' & Hg); [pose proof (zlen_nonneg text); lia..|done|].
      destruct (IH x (cx + 8) cy fg bg fb1) as (fb2 & E2 & ? & E3); [pose proof (zlen_nonneg text); lia..|done|].
      exists fb2. cbn [draw_text]. rewrite (proj2 (Z.eqb_neq c 10)), E1 by done. split; [exact E2|]. split; [done|]. rewrite E3. rewrite text_shows_char, Hg by done.
      destruct (_ && _) eqn:E; [|done]. apply andb_prop in E as [?%bool_decide_eq_true ?%bool_decide_eq_true].
      rewrite text_shows_left by lia. done.
Qed.
End drawing.

(** ** The driver keeps its screen *)

(** The device only reads the frame buffer. *)
Class GpuHostLaws (V : Type) `{GpuHost V} := {
  gh_reads : ∀ m v, fb_pixels (gpu_run (m, v)).1 = fb_pixels m
}.

Section invariant.
Context {V : Type} `{Bus V} `{GpuHost V} `{!GpuHostLaws V}.
Context (a_req a_resp : Z) (a_ctrlq : Z * Z * Z) (pad : list Z).
Abbreviation gpu := (gpu V).
Implicit Types d : gpu.

Definition size_ok d : Prop := 0 < gpu_width d ≤ GPU_FB_WIDTH ∧ 0 < gpu_height d ≤ GPU_FB_HEIGHT.
Definition frame_ok d : Prop := fb_addr d ≠ 0 ∧ zlen (fb_pixels (gpu_shared d)) = gpu_width d * gpu_height d.
Definition screen_ok d : Prop := size_ok d ∧ (gpu_ready d = true → frame_ok d).

(** The bytes of the frame buffer lie in the part of the heap that has been given out. *)
Definition in_heap (start : Z) (hp : heap) d : Prop :=
  start ≤ fb_addr d ∧ fb_addr d + 4 * zlen (fb_pixels (gpu_shared d)) ≤ heap_ptr hp.

(** Everything of the driver that a command leaves alone. *)
Definition settled (r : bool) (w h a : Z) (fb : list Z) d : Prop :=
  gpu_ready d = r ∧ gpu_width d = w ∧ gpu_height d = h ∧ fb_addr d = a ∧ fb_pixels (gpu_shared d) = fb.

Lemma acts_settled r w h a fb d : settled r w h a fb d → settled r w h a fb (device_acts d).
Proof using GpuHostLaws0.
  intros Hd. unfold device_acts. pose proof (gh_reads (gpu_shared d) (gpu_dev d)) as Hr.
  destruct (gpu_run _) as [m v]. unfold settled in *. cbn in *. by rewrite Hr.
Qed.

Lemma onq_settled {A} r w h a fb (m : M (virtqueue * V) A) : returns m → stays (settled r w h a fb) (onq m).
Proof. intros Hm. by apply stays_zoom. Qed.

Lemma gpu_cmd_settled r w h a fb req n : stays (settled r w h a fb) (gpu_cmd a_req a_resp req n).
Proof using GpuHostLaws0.
  assert (∀ f, returns (modify (S:=virtqueue * V) f)) by (intros f s; by eexists _, _).
  assert (stays (settled r w h a fb) (vq_wait_used (modify device_acts) (λ d, gpu_ctrlq (gpu_shared d)) 500000))
    by (apply triple_wait, acts_settled).
  unfold gpu_cmd. apply stays_bind; [by apply stays_modify|]. unfold vq_submit. auto 10 using onq_settled with stays.
Qed.
Hint Resolve gpu_cmd_settled : stays.

Lemma gpu_cmd_ok_settled r w h a fb req : stays (settled r w h a fb) (gpu_cmd_ok a_req a_resp req).
Proof using GpuHostLaws0. unfold gpu_cmd_ok. auto 10 with stays. Qed.
Hint Resolve gpu_cmd_ok_settled : stays.

Lemma setup_settled r w h a fb : stays (settled r w h a fb) (gpu_setup_framebuffer a_req a_resp).
Proof using GpuHostLaws0. unfold gpu_setup_framebuffer. auto 15 with stays. Qed.

Lemma flush_settled r w h a fb : stays (settled r w h a fb) (gpu_flush a_req a_resp pad).
Proof using GpuHostLaws0. unfold gpu_flush. auto 10 with stays. Qed.

Lemma screen_size_ok rc dinfo w h w' h' :
  0 < w → 0 < h → screen_size rc dinfo w h = (w', h') → 0 < w' ≤ GPU_FB_WIDTH ∧ 0 < h' ≤ GPU_FB_HEIGHT.
Proof.
  unfold screen_size, GPU_FB_WIDTH, GPU_FB_HEIGHT. intros Hw Hh.
  destruct (_ && _ && _ && _ && _) eqn:E; intros [= <- <-]; [|lia].
  repeat (apply andb_prop in E as [E ?]). lia.
Qed.

(** A command keeps every property of what it leaves alone. *)
Lemma stays_frame {A} (P : gpu → Prop) (m : M gpu A) :
  (∀ r w h a fb, stays (settled r w h a fb) m) →
  (∀ d d', settled (gpu_ready d) (gpu_width d) (gpu_height d) (fb_addr d) (fb_pixels (gpu_shared d)) d' → P d → P d') →
  stays P m.
Proof.
  intros Hm HP d Hd. destruct (Hm _ _ _ _ _ d (conj eq_refl (conj eq_refl (conj eq_refl (conj eq_refl eq_refl))))) as (x & d' & E & Hs).
  exists x, d'. split; [done|]. by apply (HP d).
Qed.

(** An operation of the driver, beside the heap. *)
Abbreviation on m := (zoom fst (λ d p, (d, p.2)) m).
Implicit Types p : gpu * heap.

Lemma on_triple {A} (P : gpu * heap → Prop) (m : M gpu A) (Q : A → gpu * heap → Prop) :
  (∀ hp, triple (λ d, P (d, hp)) m (λ x d, Q x (d, hp))) → triple P (on m) Q.
Proof. intros Hm [d hp] Hd. destruct (Hm hp d Hd) as (x & d' & E & HQ). exists x, (d', hp). unfold zoom. cbn. by rewrite E. Qed.

Context (start : Z).

(** The states of the driver and the heap between calls, before the frame buffer is
    there, and when it has been painted. *)
Definition steady p : Prop := screen_ok p.1 ∧ heap_wf start p.2 ∧ (gpu_ready p.1 = true → in_heap start p.2 p.1).
Definition starting p : Prop := size_ok p.1 ∧ gpu_ready p.1 = false ∧ heap_wf start p.2.
Definition painted p : Prop := starting p ∧ frame_ok p.1 ∧ in_heap start p.2 p.1.

Lemma starting_ok p : starting p → steady p.
Proof. intros (? & E & ?). unfold steady, screen_ok. by rewrite E. Qed.

Lemma painted_ok p : painted p → steady p.
Proof. intros [? _]. by apply starting_ok. Qed.

Ltac frame_auto :=
  let H := fresh in intros ?d ?d' H; destruct H as (?E1 & ?E2 & ?E3 & ?E4 & ?E5);
  unfold painted, starting, steady, screen_ok, size_ok, frame_ok, in_heap; cbn [fst snd]; rewrite E1, E2, E3, ?E4, ?E5; tauto.

(** A command keeps the states, and so does an access to the bus. *)
Lemma cmd_keeps {A} (P : gpu * heap → Prop) (m : M gpu A) :
  (∀ r w h a fb, stays (settled r w h a fb) m) →
  (∀ hp d d', settled (gpu_ready d) (gpu_width d) (gpu_height d) (fb_addr d) (fb_pixels (gpu_shared d)) d' → P (d, hp) → P (d', hp)) →
  triple P (on m) (λ _, P).
Proof. intros Hm HP. apply on_triple. intros hp. apply (stays_frame (λ d, P (d, hp))); [done|]. intros d d' Hd. by apply HP. Qed.

Lemma dev_keeps {A} (P : gpu * heap → Prop) (m : M V A) :
  returns m → (∀ hp d v, P (d, hp) → P (set_dev v d, hp)) → triple P (on (ondev m)) (λ _, P).
Proof. intros Hm HP. apply on_triple. intros hp. apply triple_zoom; [done|]. intros d x v. apply HP. Qed.

Lemma modify_keeps (P Q : gpu * heap → Prop) f : (∀ d hp, P (d, hp) → Q (f d, hp)) → triple P (on (modify f)) (λ _, Q).
Proof. intros Hf. apply on_triple. intros hp. apply triple_modify. intros d. apply Hf. Qed.

Lemma init_end base :
  triple painted
    (let! rc := on (gpu_setup_framebuffer a_req a_resp) in
     if negb (rc =? 0) then on (ondev (reg_write base 0x070 0))
     else
       on (ondev (device_go base)) ;;
       on (modify (λ d, mk_gpu (gpu_dev d) base true (gpu_width d) (gpu_height d) (fb_addr d) (gpu_shared d))))
    (λ _, steady).
Proof using GpuHostLaws0 a_ctrlq pad.
  eapply triple_bind; [apply (cmd_keeps painted); [intros; apply setup_settled|intros hp; frame_auto]|].
  intros rc. cbn beta. apply triple_if; intros _.
  - eapply triple_weaken; [apply (dev_keeps painted); [auto with returns|done]|done|intros ??; apply painted_ok].
  - eapply triple_bind; [apply (dev_keeps painted); [auto with returns|done]|].
    intros []. apply (modify_keeps painted). intros d hp ((? & ? & ?) & ? & ?). split; [by split|]. by split.
Qed.

(** The state after the allocation: [d] is the driver before it. *)
Definition allocated d (bytes addr : Z) p : Prop :=
  starting p ∧ gpu_width p.1 = gpu_width d ∧ gpu_height p.1 = gpu_height d ∧ fb_addr p.1 = addr ∧
  (addr ≠ 0 → start ≤ addr ∧ addr + bytes ≤ heap_ptr p.2).

Lemma alloc_frame d bytes :
  0 ≤ bytes < 4294967296 →
  triple (λ p, starting p ∧ p.1 = d) (zoom snd (λ h p, (p.1, h)) (act (kalloc bytes)))
    (λ addr p, starting p ∧ p.1 = d ∧ (addr ≠ 0 → start ≤ addr ∧ addr + bytes ≤ heap_ptr p.2)).
Proof.
  intros Hb [d' hp] [(? & ? & Hwf) Ed]. unfold zoom, act. cbn in *.
  destruct (kalloc_spec start hp bytes Hwf Hb) as (n & _ & Hn & [(Ht & -> & Hwf')|(_ & ->)]).
  - exists (heap_ptr hp), (d', mk_heap (heap_ptr hp + n) (heap_end hp)). split; [done|]. split; [done|]. split; [done|].
    cbn. intros _. destruct Hwf. lia.
  - exists 0, (d', hp). done.
Qed.

Lemma paint_frame d addr :
  size_ok d → addr ≠ 0 →
  triple (allocated d (u64 (gpu_width d * gpu_height d * 4)) addr)
    (let! fb := orundef (fb_fill (gpu_width d * gpu_height d) 0xff102030 (block (u64 (gpu_width d * gpu_height d * 4)))) in
     on (modify (λ d, set_shared (with_fb fb (gpu_shared d)) d)))
    (λ _, painted).
Proof.
  unfold size_ok, GPU_FB_WIDTH, GPU_FB_HEIGHT. intros [Hw Hh] Ha. set (n := gpu_width d * gpu_height d).
  assert (0 < n ≤ 320 * 240) by (unfold n; nia). rewrite u64_small by lia.
  rewrite fb_fill_exact; [|lia|unfold block, zlen; rewrite length_replicate, Z.div_mul; lia].
  apply (modify_keeps (allocated d (n * 4) addr)). intros x hp ((? & ? & ?) & Ew & Eh & Ea & Hin). destruct (Hin Ha).
  cbn in *. unfold painted, starting, frame_ok, in_heap. cbn. rewrite Ew, Eh, Ea. unfold zlen. rewrite length_replicate.
  fold n. split; [done|]. repeat split; try done; lia.
Qed.

Lemma gpu_init_ok : triple steady (gpu_init a_req a_resp a_ctrlq) (λ _, steady).
Proof using GpuHostLaws0 a_ctrlq pad.
  unfold gpu_init. eapply triple_bind.
  { apply (triple_gets _ _ (λ d p, steady p ∧ gpu_ready p.1 = gpu_ready d)). done. }
  intros d0. apply triple_if; intros E0; [apply triple_ret; tauto|].
  apply (triple_weaken starting _ _ (λ _, steady)); [|intros s [([? _] & ? & _) E]; by rewrite E0 in E|done].
  eapply triple_bind; [apply (dev_keeps starting); [unfold find_gpu_mmio; auto with returns|done]|intros base; cbn beta].
  eapply triple_bind; [by apply (modify_keeps starting starting)|intros []; cbn beta].
  apply triple_if; intros _; [apply triple_ret, starting_ok|].
  eapply triple_bind; [apply (dev_keeps starting); [auto with returns|done]|intros ok; cbn beta].
  apply triple_if; intros _; [apply triple_ret, starting_ok|].
  eapply triple_bind; [by apply (modify_keeps starting starting)|intros []; cbn beta].
  eapply triple_bind; [apply (on_triple starting _ (λ _, starting)); intros hp; by apply triple_gets|intros q; cbn beta].
  eapply triple_bind; [apply (dev_keeps starting); [auto with returns|done]|intros rc; cbn beta].
  eapply triple_bind; [apply (cmd_keeps starting); [intros; apply gpu_cmd_settled|intros hp; frame_auto]|intros rc'; cbn beta].
  eapply triple_bind.
  { apply (modify_keeps starting starting). intros d hp ([? ?] & ? & ?). cbn in *. destruct (screen_size _ _ _ _) as [w h] eqn:E.
    apply screen_size_ok in E; [|lia..]. by split. }
  intros []. cbn beta. eapply triple_bind.
  { apply (triple_gets _ _ (λ d p, size_ok d ∧ starting p ∧ p.1 = d)). intros p Hp. split; [apply Hp|done]. }
  intros d. apply triple_pure. intros Hd. assert (0 ≤ u64 (gpu_width d * gpu_height d * 4) < 4294967296) as Hb.
  { destruct Hd as [? ?]. unfold GPU_FB_WIDTH, GPU_FB_HEIGHT in *. rewrite u64_small; nia. }
  cbv zeta. eapply triple_bind; [by apply alloc_frame|]. intros addr. cbn beta. eapply triple_bind.
  { apply (modify_keeps _ (allocated d (u64 (gpu_width d * gpu_height d * 4)) addr)). intros x hp (? & Ex & ?). cbn in Ex. by subst x. }
  intros []. cbn beta. apply triple_if; intros Ea.
  { eapply triple_weaken; [eapply (dev_keeps (allocated d (u64 (gpu_width d * gpu_height d * 4)) addr)); [auto with returns|done]|done|]. intros [] p [? _]. by apply starting_ok. }
  apply Z.eqb_neq in Ea. intros p Hp. destruct (paint_frame d addr Hd Ea p Hp) as ([] & p' & E & Hp').
  destruct (init_end base p' Hp') as ([] & p2 & E2 & Hp2). exists tt, p2. split; [|done]. rewrite <- E2.
  unfold bind in E |- *. destruct (orundef _ p) as [[fb p1]| |]; [|done..]. by rewrite E.
Qed.

(** The calls of the driver, in any order. *)
Inductive screen_call :=
  | Init
  | Clear (color : Z)
  | DrawText (x y : Z) (text : list Z) (fg bg : Z)
  | Flush.

Definition call_screen (c : screen_call) : M (gpu * heap) unit :=
  match c with
  | Init => gpu_init a_req a_resp a_ctrlq
  | Clear color => on (gpu_clear color)
  | DrawText x y text fg bg => on (gpu_draw_text x y text fg bg)
  | Flush => on (gpu_flush a_req a_resp pad) ;; ret tt
  end.

Fixpoint call_screens (cs : list screen_call) : M (gpu * heap) unit :=
  match cs with [] => ret tt | c :: cs' => call_screen c ;; call_screens cs' end.

(** The driver at boot. *)
Definition gpu_boot (v : V) (m : gpu_mem) : gpu := mk_gpu v 0 false GPU_FB_WIDTH GPU_FB_HEIGHT 0 m.

(** The coordinates that a text reaches fit in an [int]. *)
Definition text_fits (x y : Z) (text : list Z) : Prop :=
  x + 8 * (zlen text + 1) < 2 ^ 31 ∧ y + 10 * (zlen text + 1) < 2 ^ 31.

Definition call_fits (c : screen_call) : Prop :=
  match c with DrawText x y text _ _ => text_fits x y text | _ => True end.

(** A drawing changes the pixels of a ready screen and nothing else. *)
Lemma drawing_ok {f : gpu → option (list Z)} :
  (∀ d, size_ok d → frame_ok d → ∃ fb, f d = Some fb ∧ zlen fb = gpu_width d * gpu_height d) →
  triple steady
    (on (let! d := gets id in
         if negb (gpu_ready d) || (fb_addr d =? 0) then ret tt
         else let! fb := orundef (f d) in modify (λ d, set_shared (with_fb fb (gpu_shared d)) d)))
    (λ _, steady).
Proof.
  intros Hf. apply on_triple. intros hp d ([Hs Hr] & Hwf & Hin). unfold bind, gets, id. cbn in *.
  destruct (gpu_ready d) eqn:Er; cbn; [|exists tt, d; unfold steady, screen_ok; cbn; by rewrite Er].
  destruct (Hr eq_refl) as [Ha Hlen]. rewrite (proj2 (Z.eqb_neq _ _) Ha).
  destruct (Hf d Hs (conj Ha Hlen)) as (fb & -> & Hl). eexists _, _. split; [reflexivity|].
  unfold steady, screen_ok, frame_ok, in_heap in *. cbn. rewrite Hl, <- Hlen. auto.
Qed.

Lemma call_screen_ok c : call_fits c → triple steady (call_screen c) (λ _, steady).
Proof using GpuHostLaws0.
  destruct c as [|color|x y text fg bg|]; cbn [call_screen call_fits]; cbv zeta; intros Hc.
  - apply gpu_init_ok.
  - apply drawing_ok. intros d [? ?] [_ Hlen]. rewrite fb_fill_exact by (done || nia). eexists. split; [done|].
    unfold zlen. rewrite length_replicate. nia.
  - apply drawing_ok. intros d [Hw Hh] [_ Hlen]. destruct Hc as [Hx Hy].
    destruct (draw_text_at (gpu_width d) (gpu_height d) 0 0 ltac:(lia) ltac:(lia) ltac:(lia) ltac:(lia) text x x y fg bg
                (fb_pixels (gpu_shared d))) as (fb & E & Hl & _); [lia..|done|]. by exists fb.
  - eapply triple_bind; [apply (cmd_keeps steady); [intros; apply flush_settled|intros hp; frame_auto]|].
    intros rc. by apply triple_ret.
Qed.

(** [C20] From boot, with a well-formed heap, every sequence of starts, clears, texts and
    flushes of the screen driver returns without a store outside the block that [kalloc]
    gave for the frame buffer, whatever the device answers, provided that the coordinates
    of the texts fit in an [int] and that the device reads the frame buffer and does not
    write it.  Afterwards the screen is not empty and at most 320 by 240 pixels, and when
    the driver is ready its frame buffer has exactly one 32-bit word for each pixel and
    all its bytes lie in the part of the kernel heap that has been given out. *)
Theorem screen_reachable v m hp cs :
  heap_wf start hp → Forall call_fits cs →
  ∃ d hp', call_screens cs (gpu_boot v m, hp) = Ret (tt, (d, hp')) ∧ heap_wf start hp' ∧
    0 < gpu_width d ≤ 320 ∧ 0 < gpu_height d ≤ 240 ∧
    (gpu_ready d = true →
     zlen (fb_pixels (gpu_shared d)) = gpu_width d * gpu_height d ∧
     0 < start ≤ fb_addr d ∧ fb_addr d + 4 * (gpu_width d * gpu_height d) ≤ heap_ptr hp').
Proof using GpuHostLaws0.
  intros Hwf Hcs. assert (triple steady (call_screens cs) (λ _, steady)) as Ht.
  { induction Hcs as [|c cs Hc _ IH]; [by apply triple_ret|]. eapply triple_bind; [by apply call_screen_ok|]. by intros []. }
  destruct (Ht (gpu_boot v m, hp)) as ([] & [d hp'] & E & [[Hw Hh] Hr] & Hwf' & Hin); [split; [by split|]; by split|].
  exists d, hp'. do 4 (split; [done|]). intros Er. destruct (Hr Er) as [_ Hl], (Hin Er) as [? Ht'], Hwf'. cbn in *.
  rewrite Hl in Ht'. done.
Qed.

End invariant.

(** [C21] Drawing a text on a ready screen changes exactly the pixels of its characters:
    at every pixel of the screen, if the pixel lies in the 8 by 8 cell of a character
    (lines are 10 pixels apart and begin at the left edge [x], the text may lie partly
    outside the screen) it gets the foreground where the bit of the character's glyph is
    set and the background where it is clear, and every other pixel keeps its colour;
    nothing else of the driver changes. *)
Theorem draw_text_exact {V} (d : gpu V) x y text fg bg px py :
  screen_ok d → gpu_ready d = true →
  x + 8 * (zlen text + 1) < 2 ^ 31 → y + 10 * (zlen text + 1) < 2 ^ 31 →
  0 ≤ px < gpu_width d → 0 ≤ py < gpu_height d →
  let fb := fb_pixels (gpu_shared d) in
  ∃ fb',
  gpu_draw_text x y text fg bg d = Ret (tt, set_shared (with_fb fb' (gpu_shared d)) d) ∧ zlen fb' = zlen fb ∧
  pixel (gpu_width d) px py fb'
  = match text_shows px py x x y text with
    | Some on => Some (if on then fg else bg)
    | None => pixel (gpu_width d) px py fb
    end.
Proof.
  intros [[Hw Hh] Hf] Hr Hx Hy Hpx Hpy. destruct (Hf Hr) as [Ha Hlen]. cbv zeta.
  destruct (draw_text_at (gpu_width d) (gpu_height d) px py Hpx Hpy (proj2 Hw) (proj2 Hh) text x x y fg bg (fb_pixels (gpu_shared d)))
    as (fb' & E & Hl & Ep); [lia..|done|].
  exists fb'. unfold gpu_draw_text, bind, gets, id. rewrite Hr, (proj2 (Z.eqb_neq _ 0) Ha). cbn. rewrite E.
  split; [done|]. split; [by unfold sized in Hl; rewrite Hl|]. exact Ep.
Qed.

(** ** A device *)

(** A device on one slot with a screen of 16 by 8 pixels that answers at once. *)
Record ack_gpu := mk_ack { ack_status : Z }.

#[export] Instance ack_bus : Bus ack_gpu := {
  mmio_read base off v :=
    (if negb (base =? 0x10001000) then 0
     else if off =? 0 then VIRTIO_MAGIC else if off =? 4 then 2 else if off =? 8 then VIRTIO_DEV_GPU
     else if off =? 0x034 then 8 else if off =? 0x070 then ack_status v else 0, v);
  mmio_write base off val v := if off =? 0x070 then mk_ack val else v
}.

#[export] Instance ack_host : GpuHost ack_gpu := {
  gpu_run p :=
    let '(m, v) := p in
    let q := gpu_ctrlq m in
    if vq_avail_idx q =? vq_used_idx q then (m, v)
    else (mk_gmem (set_used (u16 (vq_used_idx q + 1)) (vq_used_ring q) q) (gpu_req m)
            (if get_le32 (gpu_req m) 0 =? VIRTIO_GPU_CMD_GET_DISPLAY_INFO
             then virtio_gpu_ctrl_hdr VIRTIO_GPU_RESP_OK_DISPLAY_INFO ++ le32 1 ++ le32 0 ++ le32 0 ++ le32 0 ++ le32 16 ++ le32 8
             else virtio_gpu_ctrl_hdr VIRTIO_GPU_RESP_OK_NODATA)
            (fb_pixels m), v)
}.

#[export] Instance ack_laws : GpuHostLaws ack_gpu.
Proof. constructor. intros m v. cbn. by case_match. Qed.

Definition demo_calls (hp : heap) (cs : list screen_call) : option (gpu ack_gpu) :=
  match call_screens 1 2 (3, 4, 5) [0; 0; 0; 0] cs (gpu_boot (mk_ack 0) (mk_gmem (zero_vq 8) [] [] []), hp) with
  | Ret (_, (d, _)) => Some d
  | _ => None
  end.

Lemma screen_reachable_witness :
  let cs := [Init; Clear 5; DrawText 0 0 (str "Hi") 1 2; Flush] in
  ∃ d hp', call_screens 1 2 (3, 4, 5) [0; 0; 0; 0] cs
             (gpu_boot (mk_ack 0) (mk_gmem (zero_vq 8) [] [] []), mem_init 0x80600000) = Ret (tt, (d, hp')) ∧
           heap_wf 0x80600000 hp' ∧
           option_map gpu_ready (demo_calls (mem_init 0x80600000) cs) = Some true.
Proof.
  cbv zeta.
  destruct (screen_reachable 1 2 (3, 4, 5) [0; 0; 0; 0] 0x80600000 (mk_ack 0) (mk_gmem (zero_vq 8) [] [] []) (mem_init 0x80600000)
              [Init; Clear 5; DrawText 0 0 (str "Hi") 1 2; Flush]) as (d & hp' & E & Hwf & _).
  - split; cbn; unfold HEAP_SIZE; (done || lia).
  - repeat constructor.
  - exists d, hp'. split; [exact E|]. split; [exact Hwf|]. vm_compute. reflexivity.
Defined.

(** The letter A in the corner of a cleared screen. *)
Example demo_letter :
  option_map (λ d, (gpu_ready d, take 16 (fb_pixels (gpu_shared d))))
    (demo_calls (mem_init 0x80400000) [Init; Clear 5; DrawText 0 0 (str "A") 1 2; Flush])
  = Some (true, [2; 2; 1; 1; 2; 2; 2; 2; 5; 5; 5; 5; 5; 5; 5; 5]).
Proof. vm_compute. reflexivity. Qed.

Definition demo_screen : gpu ack_gpu :=
  mk_gpu (mk_ack 0) 0x10001000 true 16 8 0x80400000 (mk_gmem (zero_vq 8) [] [] (replicate 128 5)).

Lemma draw_text_exact_witness :
  ∃ fb', gpu_draw_text 0 0 (str "A") 1 2 demo_screen = Ret (tt, set_shared (with_fb fb' (gpu_shared demo_screen)) demo_screen) ∧
         pixel 16 2 0 fb' = Some 1.
Proof.
  assert (screen_ok demo_screen) as Hok by (split; [done|split; [done|vm_compute; reflexivity]]).
  destruct (draw_text_exact demo_screen 0 0 (str "A") 1 2 2 0 Hok) as (fb' & E & _ & Ep); [reflexivity|reflexivity|reflexivity|done|done|].
  exists fb'. split; [exact E|]. refine (eq_trans Ep _). vm_compute. reflexivity.
Defined.

(** ** Where the driver departs from its intent *)

(** A command that finds an earlier completion in the used ring, such as that of a
    command which timed out, takes it for its own: it reports success with the reply
    buffer as it was, before the device has done anything. *)
Theorem gpu_stale_completion {V} `{Bus V} `{GpuHost V} a_req a_resp (d : gpu V) req n :
  (∀ p, gpu_run p = p) →
  vq_used_idx (gpu_ctrlq (gpu_shared d)) ≠ vq_last_used (gpu_ctrlq (gpu_shared d)) →
  ∃ d', gpu_cmd a_req a_resp req n d = Ret (0, d') ∧ gpu_resp (gpu_shared d') = gpu_resp (gpu_shared d).
Proof.
  intros Hrun Hne. unfold gpu_cmd. rewrite bind_modify. erewrite bind_ret by reflexivity.
  erewrite bind_ret; [|apply (vq_wait_done _ _ _ _ 0); [apply Pos2Nat.is_pos|intros k Hk; exfalso; lia|]].
  - cbn [Nat.iter Nat.add nat_rect]. unfold device_acts. rewrite Hrun. eexists. split; [reflexivity|done].
  - cbn [Nat.iter Nat.add nat_rect]. unfold device_acts. rewrite Hrun. exact Hne.
Qed.

(** The rectangle of a transfer follows the resource id, and the command is 48 bytes
    long; in the virtio specification the rectangle comes first and the command has 56
    bytes.  A device that reads it so finds a rectangle at (1, 0) of width 0. *)
Theorem transfer_layout w h :
  0 ≤ w < 2 ^ 32 → 0 ≤ h < 2 ^ 32 →
  let cmd := transfer_to_host_2d w h in
  zlen cmd = 48 ∧ get_le32 cmd 24 = gpu_resource_id ∧ get_le32 cmd 32 = 0 ∧ get_le32 cmd 36 = w.
Proof.
  intros Hw Hh. cbv zeta. unfold transfer_to_host_2d, virtio_gpu_ctrl_hdr. split; [done|].
  do 2 (split; [done|]). apply (get_le32_app (virtio_gpu_ctrl_hdr _ ++ le32 gpu_resource_id ++ le32 0 ++ le32 0)); [done|reflexivity].
Qed.
