(* ===== verification/VirtioInput.v ===== *)
(** * The keyboard driver (kernel/virtio_input.c)

    A ring of sixteen events that the device fills.  The device is reached through the
    bus and shares the record [in_mem] with the driver (the class [InputHost]); it runs
    before each look at the used index. *)

From S2P Require Import Prelude Persist Paths Mem Tool Board Virtio VirtioNet VirtioCon VirtioGpu.

Definition VIRTIO_DEV_INPUT : Z := 18.
Definition INPUT_VQ_SIZE : Z := 16.
Definition INPUT_CFG_EV_BITS : Z := 0x03.

Record virtio_input_event := mk_event { ev_type : Z; ev_code : Z; ev_value : Z }.

Definition zero_event : virtio_input_event := mk_event 0 0 0.

Record in_mem := mk_imem {
  input_evq : virtqueue;
  ev_buf : list virtio_input_event;
  ev_slots : list Z
}.

Class InputHost (V : Type) := { input_run : in_mem * V → in_mem * V }.

Record vinput (V : Type) := mk_vinput {
  in_dev : V;
  input_mmio : Z;
  input_ready : bool;
  in_shared : in_mem
}.
Arguments mk_vinput {V}. Arguments in_dev {V}. Arguments input_mmio {V}. Arguments input_ready {V}. Arguments in_shared {V}.

Definition with_evq (q : virtqueue) (m : in_mem) : in_mem := mk_imem q (ev_buf m) (ev_slots m).

Section driver.
Context {V : Type} `{Bus V} `{InputHost V}.
(** The addresses of the event buffers and of the parts of the queue. *)
Context (a_ev : Z → Z) (a_evq : Z * Z * Z).
Abbreviation vinput := (vinput V).

Definition set_dev (v : V) (d : vinput) : vinput := mk_vinput v (input_mmio d) (input_ready d) (in_shared d).
Definition set_shared (m : in_mem) (d : vinput) : vinput := mk_vinput (in_dev d) (input_mmio d) (input_ready d) m.
Definition ondev {A} (m : M V A) : M vinput A := zoom in_dev set_dev m.
Definition onq {A} (m : M (virtqueue * V) A) : M vinput A :=
  zoom (λ d, (input_evq (in_shared d), in_dev d)) (λ p d, set_dev p.2 (set_shared (with_evq p.1 (in_shared d)) d)) m.

Definition device_acts (d : vinput) : vinput :=
  let '(m, v) := input_run (in_shared d, in_dev d) in set_dev v (set_shared m d).

(** One byte of the configuration space, in a register of four. *)
Definition cfg_write8 (base offset val : Z) : M V unit :=
  let word := Z.land offset (Z.lnot 3) in
  let! cur := reg_read base (0x100 + word) in
  let shift := Z.land offset 3 * 8 in
  let cur := Z.land cur (Z.lnot (Z.shiftl 0xff shift)) in
  reg_write base (0x100 + word) (Z.lor cur (Z.shiftl val shift)).

Fixpoint cfg_fill (n : nat) (base offset val : Z) : M V unit :=
  match n with
  | O => ret tt
  | S n' => cfg_write8 base offset val ;; cfg_fill n' base (offset + 1) val
  end.

Definition input_select_ev_bits (base subsel : Z) : M V unit :=
  cfg_write8 base 0 INPUT_CFG_EV_BITS ;;
  cfg_write8 base 1 (u8 subsel) ;;
  cfg_write8 base 2 128 ;;
  cfg_write8 base 3 0 ;;
  cfg_fill 128 base 8 0xff.

Definition find_input_mmio : M V Z := find_mmio (Z.to_nat platform_virtio_mmio_count) 0 VIRTIO_DEV_INPUT false.

Definition input_refill (slot : Z) : M vinput unit :=
  modify (λ d, let m := in_shared d in
    set_shared (mk_imem (set_desc (Z.to_nat slot) (mk_desc (a_ev slot) 8 VRING_DESC_F_WRITE 0) (input_evq m))
                  (ev_buf m) (<[Z.to_nat slot := 1]> (ev_slots m))) d) ;;
  onq (vq_submit INPUT_VQ_SIZE slot).

Fixpoint refill_all (n : nat) (slot : Z) : M vinput unit :=
  match n with
  | O => ret tt
  | S n' => input_refill slot ;; refill_all n' (slot + 1)
  end.

(** The result of the queue's setup is ignored. *)
Definition input_init : M vinput unit :=
  let! d := gets id in
  if input_ready d then ret tt
  else
    let! base := ondev find_input_mmio in
    modify (λ d, mk_vinput (in_dev d) base (input_ready d) (in_shared d)) ;;
    if base =? 0 then ret tt
    else
      let! ok := ondev (device_start base) in
      if negb ok then ret tt
      else
        ondev (input_select_ev_bits base 0) ;;
        ondev (input_select_ev_bits base 1) ;;
        modify (λ d, set_shared (with_evq (vq_bind base 0 (input_evq (in_shared d))) (in_shared d)) d) ;;
        let! q := gets (λ d, input_evq (in_shared d)) in
        ondev (vq_setup INPUT_VQ_SIZE q a_evq.1.1 a_evq.1.2 a_evq.2) ;;
        refill_all 16 0 ;;
        ondev (device_go base) ;;
        modify (λ d, mk_vinput (in_dev d) base true (in_shared d)).

(** The result and the event; no event (0) and an error leave the caller's variables
    alone.  The loop of four tries is followed by one more look. *)
Definition input_poll : M vinput (Z * virtio_input_event) :=
  let! d := gets id in
  if negb (input_ready d) then ret (ENODEV, zero_event)
  else
    vq_wait_used (modify device_acts) (λ d, input_evq (in_shared d)) 4 ;;
    modify device_acts ;;
    let! q := gets (λ d, input_evq (in_shared d)) in
    if vq_used_idx q =? vq_last_used q then ret (0, zero_event)
    else
      let slot := i32 (nth (Z.to_nat (Z.land (vq_last_used q) (INPUT_VQ_SIZE - 1))) (vq_used_ring q) (0, 0)).1 in
      modify (λ d, set_shared (with_evq (set_last_used (u16 (vq_last_used q + 1)) q) (in_shared d)) d) ;;
      if (slot <? 0) || (INPUT_VQ_SIZE <=? slot) then ret (EIO, zero_event)
      else
        let! ev := gets (λ d, nth (Z.to_nat slot) (ev_buf (in_shared d)) zero_event) in
        input_refill slot ;;
        ret (1, mk_event (ev_type ev) (ev_code ev) (i32 (ev_value ev))).

End driver.

(** ** What the device promises *)

(** An event put into the next buffer of the available ring and reported in the used
    ring. *)
Definition deliver1 (e : virtio_input_event) (m : in_mem) : in_mem :=
  let q := input_evq m in
  let j := Z.to_nat (Z.land (vq_used_idx q) 15) in
  let slot := nth j (vq_avail_ring q) 0 in
  mk_imem (set_used (u16 (vq_used_idx q + 1)) (<[j := (slot, 8)]> (vq_used_ring q)) q)
    (<[Z.to_nat slot := e]> (ev_buf m)) (ev_slots m).

Definition deliver (l : list virtio_input_event) (m : in_mem) : in_mem := foldl (λ m e, deliver1 e m) m l.

(** A virtio input device on which the keys [ih_keys] will be pressed: whenever it runs
    it moves some of the events, in order, into the buffers it was given. *)
Class InputHostLaws (V : Type) `{Bus V} `{InputHost V} := {
  ih_keys : V → list virtio_input_event;
  ih_notify : ∀ base val v, ih_keys (mmio_write base 0x050 val v) = ih_keys v;
  ih_runs : ∀ m v, ∃ l,
    zlen l ≤ u16 (vq_avail_idx (input_evq m) - vq_used_idx (input_evq m))
    ∧ ih_keys v = l ++ ih_keys (input_run (m, v)).2 ∧ (input_run (m, v)).1 = deliver l m
}.

(** ** The keyboard as a queue of events *)

Definition as_read (e : virtio_input_event) : virtio_input_event := mk_event (ev_type e) (ev_code e) (i32 (ev_value e)).

(** [arrived] events come in before a poll takes the first one that waits. *)
Definition spec_read (arrived : nat) (s : list virtio_input_event * list virtio_input_event) :
    (Z * virtio_input_event) * (list virtio_input_event * list virtio_input_event) :=
  match s.1 ++ take arrived s.2 with
  | [] => ((0, zero_event), ([], drop arrived s.2))
  | e :: p => ((1, as_read e), (p, drop arrived s.2))
  end.

Fixpoint spec_reads (ks : list nat) (s : list virtio_input_event * list virtio_input_event) :
    list (Z * virtio_input_event) * (list virtio_input_event * list virtio_input_event) :=
  match ks with
  | [] => ([], s)
  | k :: ks' => let '(r, s1) := spec_read k s in let '(rs, s2) := spec_reads ks' s1 in (r :: rs, s2)
  end.

Section receive.
Context {V : Type} `{Bus V} `{InputHost V} `{!InputHostLaws V} (a_ev : Z → Z).
Implicit Types (d : vinput V) (m : in_mem).

Fixpoint run_reads (n : nat) : M (vinput V) (list (Z * virtio_input_event)) :=
  match n with
  | O => ret []
  | S n' => let! r := input_poll a_ev in let! rs := run_reads n' in ret (r :: rs)
  end.

(** The ring with the events [p] waiting: every buffer is posted or holds one. *)
Record ev_inv (m : in_mem) (p : list virtio_input_event) : Prop := {
  ei_desc : ∀ i, 0 ≤ i < 16 → vq_desc (input_evq m) !! Z.to_nat i = Some (mk_desc (a_ev i) 8 VRING_DESC_F_WRITE 0);
  ei_ring : vq_avail_ring (input_evq m) = seqZ 0 16;
  ei_last : 0 ≤ vq_last_used (input_evq m) < 65536;
  ei_avail : vq_avail_idx (input_evq m) = u16 (vq_last_used (input_evq m) + 16);
  ei_used : vq_used_idx (input_evq m) = u16 (vq_last_used (input_evq m) + zlen p);
  ei_few : zlen p ≤ 16;
  ei_uring : length (vq_used_ring (input_evq m)) = 16%nat;
  ei_buf : length (ev_buf m) = 16%nat;
  ei_events : ∀ i e, p !! i = Some e → let j := (vq_last_used (input_evq m) + Z.of_nat i) mod 16 in
    vq_used_ring (input_evq m) !! Z.to_nat j = Some (j, 8) ∧ ev_buf m !! Z.to_nat j = Some e
}.

Lemma land15 x : Z.land x 15 = x mod 16.
Proof. change 15 with (Z.ones 4). by rewrite Z.land_ones by lia. Qed.

Lemma u16_mod16 x : u16 x mod 16 = x mod 16.
Proof. unfold u16. apply Z.mod_mod_divide. by exists 4096. Qed.

Lemma seqZ16 j : 0 ≤ j < 16 → nth (Z.to_nat j) (seqZ 0 16) 0 = j.
Proof. intros. rewrite (nth_lookup_Some _ _ _ j); [done|]. rewrite lookup_seqZ_lt by lia. f_equal; lia. Qed.

Lemma deliver1_events m p e : ev_inv m p → zlen p < 16 → ev_inv (deliver1 e m) (p ++ [e]).
Proof.
  intros Hi Hp. pose proof (zlen_nonneg p).
  set (last := vq_last_used (input_evq m)). set (j := (last + zlen p) mod 16).
  assert (Z.land (vq_used_idx (input_evq m)) 15 = j) as Ej by by rewrite (ei_used _ _ Hi), land15, u16_mod16.
  assert (0 ≤ j < 16) as Hj by (apply Z.mod_pos_bound; lia).
  unfold deliver1. rewrite Ej, (ei_ring _ _ Hi), (seqZ16 j Hj).
  split; cbn [input_evq set_used vq_desc vq_avail_ring vq_last_used vq_avail_idx vq_used_idx vq_used_ring ev_buf]; try apply Hi.
  - rewrite (ei_used _ _ Hi), zlen_app. change (zlen [e]) with 1. fold last. unfold u16. rewrite Zplus_mod_idemp_l. f_equal; lia.
  - rewrite zlen_app. change (zlen [e]) with 1. lia.
  - rewrite length_insert. apply Hi.
  - rewrite length_insert. apply Hi.
  - intros i g Hg. fold last. set (j' := (last + Z.of_nat i) mod 16). assert (0 ≤ j' < 16) by (apply Z.mod_pos_bound; lia).
    apply lookup_app_Some in Hg as [Hg|[Hl Hg]].
    + destruct (ei_events _ _ Hi _ _ Hg) as (Hu & He). fold last j' in Hu, He. apply lookup_lt_Some in Hg.
      assert (j ≠ j') by (unfold j, j', zlen in *; Z.to_euclidean_division_equations; lia).
      rewrite !list_lookup_insert_ne by lia. done.
    + apply list_lookup_singleton_Some in Hg as [Hi0 <-].
      assert (j' = j) as -> by (unfold j, j', zlen; do 2 f_equal; lia).
      rewrite !list_lookup_insert_eq by (rewrite ?(ei_uring _ _ Hi), ?(ei_buf _ _ Hi); lia). done.
Qed.

Lemma deliver_events l m p : ev_inv m p → zlen p + zlen l ≤ 16 → ev_inv (deliver l m) (p ++ l).
Proof.
  revert m p. induction l as [|e l IH]; intros m p Hi Hn; [by rewrite app_nil_r|].
  rewrite zlen_cons in Hn. pose proof (zlen_nonneg l).
  rewrite cons_middle, app_assoc. apply (IH (deliver1 e m)); [apply deliver1_events; [done|lia]|].
  rewrite zlen_app. change (zlen [e]) with 1. lia.
Qed.

(** Taking the first event and giving its buffer back. *)
Lemma take_event m e p slots :
  ev_inv m (e :: p) → let q := input_evq m in let last := vq_last_used q in let slot := last mod 16 in
  ev_inv (mk_imem (vq_publish INPUT_VQ_SIZE slot (set_desc (Z.to_nat slot)
            (mk_desc (a_ev slot) 8 VRING_DESC_F_WRITE 0) (set_last_used (u16 (last + 1)) q))) (ev_buf m) slots) p.
Proof.
  intros Hi q last slot. assert (0 ≤ slot < 16) as Hs by (apply Z.mod_pos_bound; lia).
  pose proof (ei_desc _ _ Hi slot Hs) as Hd. pose proof (ei_few _ _ Hi) as Hf. rewrite zlen_cons in Hf.
  assert (u16 slot = slot) as Eslot by (apply u16_small; lia).
  assert (Z.land (vq_avail_idx q) (INPUT_VQ_SIZE - 1) = slot) as Ea.
  { change (INPUT_VQ_SIZE - 1) with 15. unfold q. rewrite (ei_avail _ _ Hi), land15, u16_mod16. fold q last. unfold slot.
    rewrite <- Zplus_mod_idemp_r. change (16 mod 16) with 0. by rewrite Z.add_0_r. }
  split; cbn [input_evq vq_publish set_desc set_last_used vq_desc vq_avail_ring vq_last_used vq_avail_idx vq_used_idx vq_used_ring ev_buf];
    try apply Hi.
  - intros i Hii. unfold q. rewrite (list_insert_id _ (Z.to_nat slot)) by done. by apply Hi.
  - rewrite Ea, Eslot. unfold q. rewrite (ei_ring _ _ Hi). apply list_insert_id. rewrite lookup_seqZ_lt by lia. f_equal. lia.
  - apply Z.mod_pos_bound. lia.
  - unfold q at 1. rewrite (ei_avail _ _ Hi). fold q last. unfold u16. rewrite !Zplus_mod_idemp_l. f_equal. lia.
  - unfold q at 1. rewrite (ei_used _ _ Hi), zlen_cons. fold q last. unfold u16. rewrite !Zplus_mod_idemp_l. f_equal. lia.
  - lia.
  - intros i g Hg. rewrite Zplus_mod, u16_mod16, <- Zplus_mod.
    replace (last + 1 + Z.of_nat i) with (last + Z.of_nat (S i)) by lia. by apply (ei_events _ _ Hi (S i) g).
Qed.

(** The driver with the events [p] waiting and [w] to come, of [w0] in all. *)
Definition polled (p w : list virtio_input_event) d : Prop :=
  ∃ k, input_ready d = true ∧ ev_inv (in_shared d) (p ++ take k w) ∧ ih_keys (in_dev d) = drop k w.

Lemma device_acts_polled p w d : polled p w d → polled p w (device_acts d).
Proof using InputHostLaws0.
  intros (k & Hr & Hi & Hw). unfold device_acts. set (m := in_shared d) in *. set (v := in_dev d) in *.
  destruct (ih_runs m v) as (l & Hn & Hl & Hm). destruct (input_run (m, v)) as [m' v']. cbn [fst snd] in *. subst m'.
  exists (k + length l)%nat. cbn [input_ready set_dev set_shared in_shared in_dev]. split; [done|].
  assert (take (k + length l) w = take k w ++ l) as Et.
  { rewrite <- take_take_drop, <- Hw, Hl. by rewrite take_app_length. }
  rewrite Et, app_assoc. split.
  - apply deliver_events; [done|]. rewrite (ei_avail _ _ Hi), (ei_used _ _ Hi) in Hn. pose proof (ei_few _ _ Hi).
    pose proof (zlen_nonneg (p ++ take k w)). unfold u16 in Hn. rewrite <- Zminus_mod in Hn.
    replace (_ + 16 - _) with (16 - zlen (p ++ take k w)) in Hn by lia. rewrite Z.mod_small in Hn by lia. lia.
  - rewrite <- drop_drop, <- Hw, Hl. by rewrite drop_app_length.
Qed.

(** One poll. *)
Lemma input_poll_spec d p :
  input_ready d = true → ev_inv (in_shared d) p →
  ∃ k d', let '(r, (p', w')) := spec_read k (p, ih_keys (in_dev d)) in
    input_poll a_ev d = Ret (r, d') ∧ input_ready d' = true ∧ ev_inv (in_shared d') p' ∧ ih_keys (in_dev d') = w'.
Proof.
  intros Hr Hi. unfold input_poll. rewrite bind_gets. unfold id. rewrite Hr. cbn [negb].
  destruct (triple_wait (polled p (ih_keys (in_dev d))) device_acts (λ d, input_evq (in_shared d)) 4) with (s := d)
    as (rc & d0 & E0 & H0'); [apply device_acts_polled|by exists 0%nat; rewrite take_0, app_nil_r|].
  rewrite (bind_ret _ _ _ _ _ E0), bind_modify, bind_gets.
  apply device_acts_polled in H0' as (k & Hr1 & Hi1 & Hw1). set (d1 := device_acts d0) in *. exists k.
  unfold spec_read. cbn [fst snd]. pose proof (ei_last _ _ Hi1) as Hl. pose proof (ei_few _ _ Hi1) as Hf. rewrite (ei_used _ _ Hi1).
  destruct (p ++ take k (ih_keys (in_dev d))) as [|e p1] eqn:Ep.
  - change (zlen (@nil virtio_input_event)) with 0. rewrite Z.add_0_r, u16_small by lia. rewrite Z.eqb_refl.
    by exists d1.
  - rewrite zlen_cons in *. pose proof (zlen_nonneg p1).
    destruct (ei_events _ _ Hi1 0%nat e eq_refl) as [Hu He]. rewrite Z.add_0_r in *.
    pose proof (λ slots, take_event _ _ _ slots Hi1) as Ht. cbv zeta in Ht.
    set (last := vq_last_used (input_evq (in_shared d1))) in *. set (slot := last mod 16) in *.
    assert (0 ≤ slot < 16) as Hs by (apply Z.mod_pos_bound; lia).
    destruct (Z.eqb_spec (u16 (last + (1 + zlen p1))) last) as [E|_].
    { exfalso. revert E. unfold u16. Z.to_euclidean_division_equations; lia. }
    change (INPUT_VQ_SIZE - 1) with 15. rewrite land15. fold slot. rewrite (nth_lookup_Some _ _ _ _ Hu). cbn [fst].
    rewrite bind_modify, i32_small by lia. unfold INPUT_VQ_SIZE. destruct (Z.ltb_spec slot 0); [lia|].
    destruct (Z.leb_spec 16 slot); [lia|]. cbn [orb]. rewrite bind_gets. cbn [in_shared set_shared ev_buf with_evq].
    rewrite (nth_lookup_Some _ _ _ _ He).
    eexists. split; [unfold input_refill, onq, zoom, bind, modify, vq_submit, ret; reflexivity|].
    split; [exact Hr1|]. split; [exact (Ht _)|]. refine (eq_trans (ih_notify _ _ _) _). exact Hw1.
Qed.

(** The keyboard driver over a virtio input device is a queue of events: any
    number of polls gives exactly the events that came in, in order, each once, and
    reports that there is none exactly when none waits; no poll fails, however often
    the ring indices wrap around, and every buffer stays in use. *)
Theorem virtio_input_fifo d p n :
  input_ready d = true → ev_inv (in_shared d) p →
  ∃ ks d', let '(rs, (p', w')) := spec_reads ks (p, ih_keys (in_dev d)) in
    length ks = n ∧ run_reads n d = Ret (rs, d') ∧ input_ready d' = true ∧ ev_inv (in_shared d') p' ∧ ih_keys (in_dev d') = w'.
Proof.
  revert d p. induction n as [|n IH]; intros d p Hr Hi; [by exists [], d|].
  destruct (input_poll_spec d p Hr Hi) as (k & d1 & H1).
  destruct (spec_read k (p, ih_keys (in_dev d))) as [r [p1 w1]] eqn:E1. destruct H1 as (P1 & R1 & I1 & W1).
  destruct (IH d1 p1 R1 I1) as (ks & d2 & H2). rewrite W1 in H2. exists (k :: ks), d2. cbn [spec_reads]. rewrite E1.
  destruct (spec_reads ks (p1, w1)) as [rs [p2 w2]]. destruct H2 as (L2 & P2 & R2 & I2 & W2).
  split; [by rewrite <- L2|]. split; [|done]. cbn [run_reads]. by rewrite (bind_ret _ _ _ _ _ P1), (bind_ret _ _ _ _ _ P2).
Qed.

End receive.

(** ** Starting *)

Section init.
Context {V : Type} `{Bus V} `{InputHost V} (a_ev : Z → Z) (a_evq : Z * Z * Z).

(** The sizes of the driver's static variables. *)
Record ev_shape (m : in_mem) : Prop := {
  es_desc : length (vq_desc (input_evq m)) = 16%nat;
  es_ring : length (vq_avail_ring (input_evq m)) = 16%nat;
  es_uring : length (vq_used_ring (input_evq m)) = 16%nat;
  es_buf : length (ev_buf m) = 16%nat
}.

Lemma refill_all_events (d : vinput V) :
  ev_shape (in_shared d) → vq_avail_idx (input_evq (in_shared d)) = 0 → vq_used_idx (input_evq (in_shared d)) = 0 →
  vq_last_used (input_evq (in_shared d)) = 0 →
  ∃ d', refill_all a_ev 16 0 d = Ret (tt, d') ∧ input_ready d' = input_ready d ∧ ev_inv a_ev (in_shared d') [].
Proof.
  destruct d as [v mmio ready [[qm qi last desc ai ring ui uring] buf slots]].
  intros [Hd Hr Hu Hb] Ha Hui Hl. cbn in Hd, Hr, Hu, Hb, Ha, Hui, Hl. subst.
  do 16 (destruct desc as [|? desc]; [done|]). destruct desc; [|done].
  do 16 (destruct ring as [|? ring]; [done|]). destruct ring; [|done].
  match goal with |- ∃ d', ?x = _ ∧ _ => let r := eval vm_compute in x in
    match r with Ret (_, ?y) => exists y; split; [vm_compute; reflexivity|] end end.
  split; [done|]. split; cbn [in_shared input_evq vq_desc vq_avail_ring vq_last_used vq_avail_idx vq_used_idx vq_used_ring ev_buf]; try done.
  intros i Hi. assert (i ∈ seqZ 0 16) as Hc by (apply elem_of_seqZ; lia). revert i Hi Hc. intros i _ Hc.
  cbn in Hc. repeat (apply elem_of_cons in Hc as [->|Hc]; [done|]). by apply not_elem_of_nil in Hc.
Qed.

(** Operations on the device alone. *)
Lemma cfg_write8_returns base offset val : returns (cfg_write8 base offset val).
Proof. unfold cfg_write8. auto with returns. Qed.

Lemma cfg_fill_returns n base offset val : returns (cfg_fill n base offset val).
Proof. revert offset. induction n as [|n IH]; intros offset; cbn [cfg_fill]; auto using cfg_write8_returns with returns. Qed.

Lemma select_returns base subsel : returns (input_select_ev_bits base subsel).
Proof. unfold input_select_ev_bits. auto 10 using cfg_write8_returns, cfg_fill_returns with returns. Qed.

(** A start always ends, and the driver that comes up has every buffer posted and no
    event waiting. *)
Definition fresh (d : vinput V) : Prop := ev_shape (in_shared d) ∧ input_ready d = false.

Definition bound (d : vinput V) : Prop :=
  fresh d ∧ vq_avail_idx (input_evq (in_shared d)) = 0 ∧ vq_used_idx (input_evq (in_shared d)) = 0
  ∧ vq_last_used (input_evq (in_shared d)) = 0.

Lemma input_init_posts :
  triple fresh (input_init a_ev a_evq) (λ _ d, input_ready d = true → ev_inv a_ev (in_shared d) []).
Proof.
  assert (∀ A (m : M V A), returns m → stays fresh (ondev m)) as Hdev by (intros; by apply stays_zoom).
  assert (∀ d, fresh d → input_ready d = true → ev_inv a_ev (in_shared d) []) as Hoff by (intros d [_ E]; by rewrite E).
  unfold input_init. eapply triple_bind; [apply (stays_gets fresh)|intros d0].
  apply triple_if; intros _; [by apply triple_ret|].
  eapply triple_bind; [apply Hdev; unfold find_input_mmio; auto with returns|intros base].
  eapply triple_bind; [by apply (stays_modify fresh)|intros []].
  apply triple_if; intros _; [by apply triple_ret|].
  eapply triple_bind; [apply Hdev; auto with returns|intros ok]. apply triple_if; intros _; [by apply triple_ret|].
  eapply triple_bind; [apply Hdev, select_returns|intros []]. eapply triple_bind; [apply Hdev, select_returns|intros []].
  eapply triple_bind.
  { apply (triple_modify _ _ (λ _, bound)). intros d [[Hd1 Hd2 Hd3 Hd4] ?]. done. }
  intros []. eapply triple_bind; [apply (stays_gets bound)|intros q].
  eapply triple_bind; [apply (stays_zoom bound); [auto with returns|done]|intros rc].
  eapply triple_bind.
  { apply (λ m, m : triple bound _ (λ _ d, ev_inv a_ev (in_shared d) [])).
    intros d ([Hs Hr] & Ha & Hu & Hl). destruct (refill_all_events d Hs Ha Hu Hl) as (d' & E & _ & Hi).
    exists tt, d'. split; [exact E|exact Hi]. }
  intros []. eapply triple_bind; [apply (stays_zoom (λ d, ev_inv a_ev (in_shared d) [])); [auto with returns|done]|intros []].
  by apply triple_modify.
Qed.

End init.

(** ** A buffer that is not given back *)

(** An element of the used ring whose identifier is no buffer is reported as an error,
    and no buffer is posted in its place. *)
Theorem input_leak {V} `{Bus V} `{InputHost V} a_ev (d : vinput V) :
  let q := input_evq (in_shared d) in
  input_ready d = true → (∀ p, input_run p = p) → vq_used_idx q ≠ vq_last_used q →
  ¬ 0 ≤ i32 (nth (Z.to_nat (Z.land (vq_last_used q) 15)) (vq_used_ring q) (0, 0)).1 < INPUT_VQ_SIZE →
  input_poll a_ev d = Ret ((EIO, zero_event),
    set_shared (with_evq (set_last_used (u16 (vq_last_used q + 1)) q) (in_shared d)) d).
Proof.
  intros q Hr Hrun Hne Hbad. assert (device_acts d = d) as Hd.
  { unfold device_acts. rewrite Hrun. by destruct d. }
  unfold input_poll. rewrite bind_gets. unfold id. rewrite Hr. cbn [negb].
  rewrite (bind_ret _ _ _ 0 d).
  - rewrite bind_modify, bind_gets, Hd. fold q. rewrite (proj2 (Z.eqb_neq _ _) Hne), bind_modify.
    change (INPUT_VQ_SIZE - 1) with 15. destruct (_ || _) eqn:E; [done|]. apply orb_false_elim in E as [E1 E2]. exfalso. lia.
  - rewrite (vq_wait_done device_acts (λ d, input_evq (in_shared d)) 4 d 0); cbn [Nat.iter Nat.add nat_rect]; rewrite ?Hd; try done.
    + lia.
    + intros k Hk. exfalso. lia.
Qed.

(** ** The three drivers as the peripherals of a board *)

Section board.
Context {C G I : Type} `{Bus C} `{ConHost C} `{Bus G} `{GpuHost G} `{Bus I} `{InputHost I}.
Context (a_rx a_tx : Z) (a_rxq a_txq : Z * Z * Z) (a_req a_resp : Z) (pad : list Z) (a_ev : Z → Z).

Record peripherals := mk_periph { p_con : con C; p_gpu : gpu G; p_input : vinput I }.

Definition set_con (d : con C) (p : peripherals) : peripherals := mk_periph d (p_gpu p) (p_input p).
Definition set_gpu (d : gpu G) (p : peripherals) : peripherals := mk_periph (p_con p) d (p_input p).
Definition set_input (d : vinput I) (p : peripherals) : peripherals := mk_periph (p_con p) (p_gpu p) d.

#[export] Instance virtio_peripherals : Peripherals peripherals := {
  virtio_console_init p := let '(rc, d) := run_total (console_init a_rxq a_txq) EIO (p_con p) in (rc, set_con d p);
  virtio_http_exchange tx cap := zoom p_con set_con (http_exchange a_rx a_tx a_rxq a_txq tx cap);
  virtio_llm_stream prompt cap := zoom p_con set_con (llm_stream a_rx a_tx a_rxq a_txq prompt cap true);
  virtio_gpu_ready p := gpu_ready (p_gpu p);
  virtio_gpu_clear c := zoom p_gpu set_gpu (gpu_clear c);
  virtio_gpu_flush p := let '(rc, d) := run_total (gpu_flush a_req a_resp pad) EIO (p_gpu p) in (rc, set_gpu d p);
  virtio_gpu_draw_text x y t fg bg := zoom p_gpu set_gpu (gpu_draw_text x y t fg bg);
  virtio_input_ready p := input_ready (p_input p);
  virtio_input_poll p :=
    let '((rc, e), d) := run_total (input_poll a_ev) (EIO, zero_event) (p_input p) in
    ((rc, (ev_type e, ev_code e, ev_value e)), set_input d p)
}.

End board.

(** ** A device *)

(** A keyboard on one slot with the keys still to be pressed, one each time it runs. *)
Record key_host := mk_kh { kh_keys : list virtio_input_event; kh_status : Z }.

#[export] Instance key_bus : Bus key_host := {
  mmio_read base off v :=
    (if negb (base =? 0x10003000) then 0
     else if off =? 0 then VIRTIO_MAGIC else if off =? 4 then 2 else if off =? 8 then VIRTIO_DEV_INPUT
     else if off =? 0x034 then 16 else if off =? 0x070 then kh_status v else 0, v);
  mmio_write base off val v := if (base =? 0x10003000) && (off =? 0x070) then mk_kh (kh_keys v) val else v
}.

#[export] Instance key_input : InputHost key_host := {
  input_run p :=
    let '(m, v) := p in
    match kh_keys v with
    | e :: rest =>
        if u16 (vq_avail_idx (input_evq m) - vq_used_idx (input_evq m)) =? 0 then (m, v)
        else (deliver1 e m, mk_kh rest (kh_status v))
    | [] => (m, v)
    end
}.

#[export] Instance key_laws : InputHostLaws key_host.
Proof.
  refine {| ih_keys := kh_keys |}.
  - intros base val v. simpl. by rewrite andb_false_r.
  - intros m v. cbn [input_run key_input]. destruct (kh_keys v) as [|e rest] eqn:E; [|destruct (Z.eqb_spec (u16 (vq_avail_idx (input_evq m) - vq_used_idx (input_evq m))) 0)].
    1,2: exists []; cbn [fst snd]; rewrite E; split; [apply Z.mod_pos_bound; lia|done].
    exists [e]. cbn [fst snd]. split; [|done].
    pose proof (Z.mod_pos_bound (vq_avail_idx (input_evq m) - vq_used_idx (input_evq m)) 65536 ltac:(lia)). change (zlen _) with 1.
    unfold u16 in *. lia.
Defined.

Definition key_static : vinput key_host :=
  mk_vinput (mk_kh (map (λ k, mk_event 1 k 1) (seqZ 30 20)) 0) 0 false
    (mk_imem (zero_vq 16) (replicate 16 zero_event) (replicate 16 0)).

Definition demo_input : vinput key_host := (run_total (input_init (λ i, i) (1, 2, 3)) tt key_static).2.

Lemma virtio_input_fifo_witness :
  ∃ ks d', let '(rs, (p', w')) := spec_reads ks ([], ih_keys (in_dev demo_input)) in
    length ks = 21%nat ∧ run_reads (λ i, i) 21 demo_input = Ret (rs, d') ∧ input_ready d' = true
    ∧ ev_inv (λ i, i) (in_shared d') p' ∧ ih_keys (in_dev d') = w'.
Proof.
  apply (virtio_input_fifo (λ i, i) demo_input [] 21); [vm_compute; reflexivity|].
  destruct (input_init_posts (λ i, i) (1, 2, 3) key_static) as ([] & d' & E & Hd); [by split|].
  assert (demo_input = d') as Ed by (unfold demo_input, run_total; by rewrite E).
  rewrite Ed. apply Hd. rewrite <- Ed. vm_compute. reflexivity.
Defined.

(** Twenty-one polls of it give the twenty keys and then nothing. *)
Example demo_reads :
  match run_reads (λ i, i) 21 demo_input with
  | Ret (rs, _) => map (λ r, (r.1, ev_code r.2)) rs = map (λ k, (1, k)) (seqZ 30 20) ++ [(0, 0)]
  | _ => False
  end.
Proof. vm_compute. reflexivity. Qed.
