(* ===== verification/LibAgent.v ===== *)
(** * User programs: system calls and the library of agents (user/libagent.h)

    A user program is an interaction tree whose events are system calls, with the
    values that the calls move between user memory and the kernel as arguments and
    results.  [ITree.iter] is a C loop; a call that does not return (exit, and
    undefined behaviour of the program itself) has an empty answer type.

    The static variables of the user programs lie in pages that every agent has mapped
    for writing ([vm_map_user_text], linker.ld): they are shared memory, the record
    [user_bss], and reading or writing one is an event too.  A message buffer is read or
    written at once.

    A [World] answers the events of an agent.  A program takes steps in a world; a run is
    a sequence of steps, so that programs which never return (the service loops) and
    programs which wait can be treated alike. *)

From ITree Require Import Core.ITreeDefinition.
From S2P Require Import Prelude Abi Ipc.

(** ** Numbers of include/agentos.h *)

Definition MSG_TASK : Z := 1.
Definition MSG_LLM_REQ : Z := 0x8020.
Definition MSG_LLM_RSP : Z := 0x8021.
Definition MSG_HTTP_REQ : Z := 0x8022.
Definition MSG_HTTP_RSP : Z := 0x8023.
Definition MSG_DISPLAY_REQ : Z := 0x8024.
Definition MSG_DISPLAY_RSP : Z := 0x8025.
Definition MSG_INPUT_REQ : Z := 0x8026.
Definition MSG_INPUT_RSP : Z := 0x8027.
Definition MSG_CONSOLE_REQ : Z := 0x8028.
Definition MSG_CONSOLE_RSP : Z := 0x8029.
Definition MSG_SHELL_REQ : Z := 0x802A.
Definition MSG_SHELL_RSP : Z := 0x802B.
Definition STORAGE_AGENT_ID : Z := 2.
Definition ROUTER_AGENT_ID : Z := 6.
Definition NET_AGENT_ID : Z := 7.
Definition INPUT_AGENT_ID : Z := 9.
Definition CONSOLE_AGENT_ID : Z := 10.
Definition SHELL_AGENT_ID : Z := 11.
Definition CONSOLE_MAX_LINE : Z := 200.
Definition AUDIT_TAIL_MAX : Z := 128.

(** ** Shared memory: the static variables of agent_svc.c, orch_pipeline.c and of the
    demonstrations (where those of demo_pipeline.c, demo_harness.c and
    demo_orchestrator.c have the names of orch_pipeline.c, in images of their own) *)

Record user_bss := mk_bss {
  svc_read_seq : Z;
  svc_write_seq : Z;
  svc_llm_seq : Z;
  svc_http_seq : Z;
  svc_display_seq : Z;
  svc_input_seq : Z;
  svc_read_pending_id : Z;
  svc_write_pending_id : Z;
  svc_llm_pending_id : Z;
  svc_http_pending_id : Z;
  svc_display_pending_id : Z;
  svc_input_pending_id : Z;
  svc_ipc_msg : agent_msg;
  svc_deferred : agent_msg;
  svc_have_deferred : Z;
  planner_id : Z;
  worker_id : Z;
  llm_worker_id : Z;
  rules_id : Z;
  llm_id : Z
}.

Definition zero_bss : user_bss := mk_bss 0 0 0 0 0 0 0 0 0 0 0 0 zero_msg zero_msg 0 0 0 0 0 0.

(** ** System calls *)

(** An argument of a tool: a number, a string, bytes with their length, or a buffer of
    some length that the tool may fill. *)
Inductive targ := TInt (n : Z) | TStr (s : list Z) | TBytes (b : list Z) | TBuf (len : Z).

(** The buffer filled by a call is the second component of its result. *)
Inductive sysE : Type → Type :=
  | SysCreate (entry : Z) (name : list Z) (caps : Z) : sysE Z
  | SysSend (dst type : Z) (payload : list Z) : sysE Z
  | SysRecv : sysE (Z * agent_msg)
  | SysYield : sysE unit
  | SysSelf : sysE Z
  | SysWrite (s : list Z) : sysE unit
  | SysTool (tool : Z) (args : list targ) : sysE (Z * list Z)
  | SysExit (code : Z) : sysE Empty_set
  | SysLlm (prompt : list Z) (buflen : Z) : sysE (Z * list Z)
  | SysCompact (keep : Z) : sysE Z
  | SysGetPhase : sysE Z
  | SysSync : sysE Z
  | SysLoad (path name : list Z) (caps : Z) : sysE Z
  | Load (f : user_bss → Z) : sysE Z
  | LoadMsg (f : user_bss → agent_msg) : sysE agent_msg
  | Store (f : user_bss → user_bss) : sysE unit
  | Undefined : sysE Empty_set.

Abbreviation prog := (itree sysE).

Declare Scope prog_scope.
Delimit Scope prog_scope with P.
Notation "'let*' x ':=' m 'in' k" := (ITree.bind m (λ x, k))
  (at level 10, x binder, m at level 200, k at level 200) : prog_scope.
Notation "m ';*' k" := (ITree.bind m (λ _, k)) (at level 100, k at level 200, right associativity) : prog_scope.
#[global] Open Scope prog_scope.

Definition never {A} (e : Empty_set) : A := match e with end.
Definition give {A} (x : A) : prog A := ITreeDefinition.Ret x.
Definition call {A} (e : sysE A) : prog A := ITree.trigger e.
Definition load (f : user_bss → Z) : prog Z := call (Load f).
Definition store (f : user_bss → user_bss) : prog unit := call (Store f).
Definition undefined {A} : prog A := ITree.bind (call Undefined) never.

(** ** The library *)

Definition agent_yield : prog unit := call SysYield.
Definition agent_self : prog Z := call SysSelf.
Definition agent_spawn (entry : Z) (name : list Z) (caps : Z) : prog Z := call (SysCreate entry name caps).
Definition agent_load (path name : list Z) (caps : Z) : prog Z := call (SysLoad path name caps).
(** The string in a buffer: the bytes before the first NUL. *)
Definition text_of (buf : list Z) : list Z := default buf (cstr_of buf).

Definition agent_send_msg (dst type : Z) (payload : list Z) : prog Z := call (SysSend dst type (text_of payload)).
Definition agent_send_steering (dst : Z) (payload : list Z) : prog Z := call (SysSend dst MSG_STEER (text_of payload)).
Definition agent_send_followup (dst : Z) (payload : list Z) : prog Z := call (SysSend dst MSG_FOLLOWUP (text_of payload)).
Definition agent_try_recv : prog (Z * agent_msg) := call SysRecv.

Definition agent_recv_msg : prog (Z * agent_msg) :=
  ITree.iter (λ _ : unit,
    let* r := call SysRecv in
    if r.1 =? EAGAIN then agent_yield ;* give (inl tt) else give (inr r)) tt.

Definition agent_compact_inbox (keep : Z) : prog Z := call (SysCompact keep).
Definition agent_phase : prog Z := call SysGetPhase.
Definition agent_log_str (s : list Z) : prog unit := call (SysWrite s).

(** The characters one by one, each with a call of its own. *)
Fixpoint log_chars (l : list Z) : prog unit :=
  match l with [] => give tt | c :: l' => agent_log_str [c] ;* log_chars l' end.

Definition agent_log_int (val : Z) : prog unit :=
  (if val <? 0 then agent_log_str (str "-") else give tt) ;*
  let n := u32 (if val <? 0 then - val else val) in
  if n =? 0 then agent_log_str (str "0") else log_chars (rev (digits_rev dec_fuel n)).

Definition tool_rc (tool : Z) (args : list targ) : prog Z := let* r := call (SysTool tool args) in give r.1.

Definition agent_add (a b : Z) : prog Z := tool_rc TOOL_ADD [TInt a; TInt b; TInt 0].
Definition agent_time : prog (Z * list Z) := call (SysTool TOOL_TIME [TBuf 8; TInt 0; TInt 0]).
Definition agent_read_file (path : list Z) (len : Z) : prog (Z * list Z) :=
  call (SysTool TOOL_READ [TStr path; TBuf len; TInt len]).
Definition agent_write_file (path data : list Z) (len : Z) : prog Z :=
  tool_rc TOOL_WRITE [TStr path; TBytes data; TInt len].
Definition agent_tool_llm (prompt : list Z) (buflen : Z) : prog (Z * list Z) :=
  call (SysTool TOOL_LLM [TStr prompt; TBuf buflen; TInt buflen]).
Definition agent_session_append (text : list Z) : prog Z := tool_rc TOOL_SESSION_APPEND [TStr text; TInt 0; TInt 0].
Definition agent_session_tail (buflen : Z) : prog (Z * list Z) := call (SysTool TOOL_SESSION_TAIL [TBuf buflen; TInt buflen; TInt 0]).
Definition agent_session_read (buflen max_lines : Z) : prog (Z * list Z) :=
  call (SysTool TOOL_SESSION_READ [TBuf buflen; TInt buflen; TInt max_lines]).
Definition agent_session_compact (keep : Z) : prog Z := tool_rc TOOL_SESSION_COMPACT [TInt keep; TInt 0; TInt 0].
Definition agent_gpio (pin val : Z) : prog Z := tool_rc TOOL_GPIO [TInt pin; TInt val; TInt 0].
Definition agent_http (url : list Z) (len : Z) : prog (Z * list Z) := call (SysTool TOOL_HTTP [TStr url; TBuf len; TInt len]).
Definition agent_sync : prog Z := call SysSync.
Definition agent_llm (prompt : list Z) (buflen : Z) : prog (Z * list Z) := call (SysLlm prompt buflen).
Definition agent_exit {A} (code : Z) : prog A := ITree.bind (call (SysExit code)) never.

(** The result and the summary that is stored for the caller when [sumlen] is positive. *)
Definition agent_session_compact_recv (keep sumlen : Z) : prog (Z * list Z) :=
  let* rc := agent_session_compact keep in
  if rc <? 0 then give (rc, [])
  else if rc =? 0 then give (0, [])
  else
    let* r := agent_recv_msg in
    if negb (mtype r.2 =? MSG_SUMMARY) then give (-1, [])
    else give (rc, if 0 <? sumlen then take (Z.to_nat (sumlen - 1)) (text_of (payload r.2)) else []).

(** The decimal text of [val] after the string [buf] in an array of [maxlen]
    characters, [None] for the error -1. *)
Fixpoint put_chars (maxlen : Z) (buf l : list Z) : option (list Z) :=
  match l with
  | [] => Some buf
  | c :: l' => if maxlen - 1 <=? zlen buf then None else put_chars maxlen (buf ++ [c]) l'
  end.

Definition svc_append_int (buf : list Z) (maxlen val : Z) : option (list Z) :=
  if val <? 0 then None
  else if u32 val =? 0 then put_chars maxlen buf (str "0")
  else put_chars maxlen buf (rev (digits_rev 12 (u32 val))).

(** A number after the first letter and a bar, [None] when the text is not of this
    form; the rest of the text. *)
Definition parse_tagged (s : list Z) : option (Z * list Z) :=
  if negb (is_digit (cget s 1)) then None
  else
    let '(id, rest) := scan_int 0 (drop 1 s) in
    if cget rest 0 =? chr "|" then Some (id, drop 1 rest) else None.

(** Whether the reply is the one expected, and where its body begins. *)
Definition svc_parse_rsp_id (payload : list Z) (expect_id : Z) : bool * nat :=
  if negb (cget payload 0 =? chr "R") && negb (cget payload 0 =? chr "W") then (expect_id =? 0, 0%nat)
  else match parse_tagged payload with
       | None => (false, 0%nat)
       | Some (id, body) => (id =? expect_id, (length payload - length body)%nat)
       end.

(** ** Running a program *)

(** What answers the calls of agent [self]; [None] for a call that does not return. *)
Class World (W : Type) := { respond : ∀ {A}, Z → sysE A → W → option (A * W) }.

Section running.
Context {W : Type} `{World W} (self : Z).

(** A program that has been looked at, and a world. *)
Definition conf (R : Type) : Type := itree' sysE R * W.

Definition step {R} (c : conf R) : option (conf R) :=
  match c.1 with
  | RetF _ => None
  | TauF t => Some (observe t, c.2)
  | VisF e k => match respond self e c.2 with None => None | Some (x, w) => Some (observe (k x), w) end
  end.

Inductive steps {R} : conf R → conf R → Prop :=
  | steps_refl c : steps c c
  | steps_cons c c1 c2 : step c = Some c1 → steps c1 c2 → steps c c2.

(** [t] returns [r]; [t] comes to be [t']. *)
Definition exec {R} (t : prog R) (w : W) (r : R) (w' : W) : Prop := steps (observe t, w) (RetF r, w').
Definition comes {R} (t : prog R) (w : W) (t' : prog R) (w' : W) : Prop := steps (observe t, w) (observe t', w').

(** The same with a bound, as a function. *)
Fixpoint run {R} (n : nat) (c : conf R) : conf R :=
  match n with
  | O => c
  | S n' => match step c with Some c' => run n' c' | None => c end
  end.

Lemma steps_trans {R} (c1 c2 c3 : conf R) : steps c1 c2 → steps c2 c3 → steps c1 c3.
Proof. induction 1; [done|]. intros. econstructor; eauto. Qed.

Lemma steps_once {R} (c c' : conf R) : step c = Some c' → steps c c'.
Proof. intros. econstructor; [done|constructor]. Qed.

Lemma steps_run {R} n (c : conf R) : steps c (run n c).
Proof.
  revert c. induction n as [|n IH]; intros c; cbn; [constructor|].
  destruct (step c) as [c'|] eqn:E; [|constructor]. econstructor; eauto.
Qed.

Lemma steps_run_inv {R} (c c' : conf R) : steps c c' → ∃ n, run n c = c'.
Proof. induction 1 as [c|c c1 c2 E _ [n IH]]; [by exists 0%nat|]. exists (S n). cbn. by rewrite E. Qed.

Lemma observe_bind {R T} (t : prog R) (k : R → prog T) :
  observe (ITree.bind t k) = match observe t with
    | RetF r => observe (k r) | TauF t' => TauF (ITree.bind t' k) | VisF e h => VisF e (λ x, ITree.bind (h x) k) end.
Proof. unfold ITree.bind, ITree.subst. unfold observe at 1. cbn. by destruct (observe t). Qed.

Lemma observe_iter {I R} (body : I → prog (I + R)) i :
  observe (ITree.iter body i)
  = observe (ITree.bind (body i) (λ lr, match lr with inl l => Tau (ITree.iter body l) | inr r => give r end)).
Proof. reflexivity. Qed.

Lemma step_bind {R T} (c c' : conf R) (k : R → prog T) :
  step c = Some c' → step (observe (ITree.bind (go c.1) k), c.2) = Some (observe (ITree.bind (go c'.1) k), c'.2).
Proof.
  rewrite !observe_bind. cbn [observe _observe]. unfold step. destruct (c.1) as [r|t|X e h]; cbn [fst snd]; [done| |].
  - intros [= <-]. cbn [fst snd]. by rewrite observe_bind.
  - destruct (respond self e c.2) as [[x w]|]; [|done]. intros [= <-]. cbn [fst snd]. by rewrite observe_bind.
Qed.

Lemma steps_bind {R T} (c c' : conf R) (k : R → prog T) :
  steps c c' → steps (observe (ITree.bind (go c.1) k), c.2) (observe (ITree.bind (go c'.1) k), c'.2).
Proof. induction 1 as [c|c c1 c2 E _ IH]; [constructor|]. eapply steps_cons; [by apply step_bind|exact IH]. Qed.

Lemma exec_comes {R T} (t : prog R) (k : R → prog T) w x w1 : exec t w x w1 → comes (ITree.bind t k) w (k x) w1.
Proof.
  intros Ht. apply (steps_bind _ _ k) in Ht. cbn [fst snd] in Ht. unfold comes. rewrite !observe_bind in *. exact Ht.
Qed.

Lemma exec_bind {R T} (t : prog R) (k : R → prog T) w x w1 r w2 :
  exec t w x w1 → exec (k x) w1 r w2 → exec (ITree.bind t k) w r w2.
Proof. intros Ht Hk. eapply steps_trans; [by apply exec_comes|done]. Qed.

Lemma exec_give {R} (r : R) w : exec (give r) w r w.
Proof. constructor. Qed.

Lemma exec_call {A} (e : sysE A) w x w' : respond self e w = Some (x, w') → exec (call e) w x w'.
Proof. intros E. apply steps_once. unfold step. cbn. by rewrite E. Qed.

(** A loop: one more round, or its end. *)
Lemma comes_iter {I R} (body : I → prog (I + R)) i j w w1 :
  exec (body i) w (inl j) w1 → comes (ITree.iter body i) w (ITree.iter body j) w1.
Proof.
  intros Hb. unfold comes at 1. rewrite observe_iter. eapply steps_trans; [apply (exec_comes _ _ _ _ _ Hb)|]. by apply steps_once.
Qed.

Lemma exec_iter {I R} (body : I → prog (I + R)) i w r w1 :
  exec (body i) w (inr r) w1 → exec (ITree.iter body i) w r w1.
Proof. intros Hb. unfold exec at 1. rewrite observe_iter. apply (exec_bind _ _ _ _ _ _ _ Hb), exec_give. Qed.

Lemma comes_exec {R} (t t' : prog R) w w' r w2 : comes t w t' w' → exec t' w' r w2 → exec t w r w2.
Proof. apply steps_trans. Qed.

Lemma comes_trans {R} (t1 t2 t3 : prog R) w1 w2 w3 : comes t1 w1 t2 w2 → comes t2 w2 t3 w3 → comes t1 w1 t3 w3.
Proof. apply steps_trans. Qed.

(** A run is unique. *)
Lemma exec_det {R} (t : prog R) w r1 w1 r2 w2 : exec t w r1 w1 → exec t w r2 w2 → r1 = r2 ∧ w1 = w2.
Proof.
  unfold exec. generalize (observe t, w). intros c H1. remember (RetF r1, w1) as d1 eqn:E1.
  induction H1 as [c|c c1 c2 E _ IH]; subst; intros H2.
  - inversion H2 as [|? ? ? E]; subst; [done|done].
  - apply IH; [done|]. inversion H2 as [|? c' ? E']; subst; [done|]. by simplify_eq.
Qed.

Lemma run_app {R} n m (c : conf R) : run (n + m) c = run m (run n c).
Proof.
  revert c. induction n as [|n IH]; intros c; cbn [Nat.add run]; [done|].
  destruct (step c) as [c'|] eqn:E; [apply IH|]. destruct m as [|m]; cbn [run]; [done|]. by rewrite E.
Qed.

Lemma run_stuck {R} n (c : conf R) : step c = None → run n c = c.
Proof. intros E. destruct n as [|n]; cbn; [done|]. by rewrite E. Qed.

(** What is left of a run that returns. *)
Lemma exec_from {R} (t t' : prog R) w w1 r w2 : comes t w t' w1 → exec t w r w2 → exec t' w1 r w2.
Proof.
  intros Hc Hex. apply steps_run_inv in Hex as [n Hn]. apply steps_run_inv in Hc as [k Hk]. unfold exec.
  destruct (decide (n ≤ k)%nat) as [Hle|Hle].
  - replace k with (n + (k - n))%nat in Hk by lia. rewrite run_app, Hn, run_stuck in Hk by done. rewrite Hk. constructor.
  - replace n with (k + (n - k))%nat in Hn by lia. rewrite run_app, Hk in Hn. rewrite <- Hn. apply steps_run.
Qed.

(** A program that comes back to where it was never returns. *)
Lemma cycle_never {R} (c c1 : conf R) r w : step c = Some c1 → steps c1 c → ¬ steps c (RetF r, w).
Proof.
  intros E Hback Hret. apply steps_run_inv in Hback as [m Hm]. apply steps_run_inv in Hret as [n Hn].
  assert (∀ k, run (k * S m) c = c) as Hk.
  { induction k as [|k IH]; [done|]. cbn [Nat.mul]. rewrite run_app. cbn [run]. by rewrite E, Hm, IH. }
  specialize (Hk n). replace (n * S m)%nat with (n + n * m)%nat in Hk by lia.
  rewrite run_app, Hn, run_stuck in Hk by done. rewrite <- Hk in E. discriminate E.
Qed.

(** A loop whose round leaves everything as it was never ends. *)
Lemma iter_never {I R} (body : I → prog (I + R)) i w r w' :
  (∀ x, observe (body i) ≠ RetF x) → exec (body i) w (inl i) w → ¬ exec (ITree.iter body i) w r w'.
Proof.
  intros Hne Hb. unfold exec at 1 in Hb. inversion Hb as [? E|? c1 ? E Hs]; subst; [by destruct (Hne (inl i))|].
  set (h := λ lr : I + R, match lr with inl l => Tau (ITree.iter body l) | inr r => give r end).
  apply (step_bind _ _ h) in E. apply (steps_bind _ _ h) in Hs. cbn [fst snd] in *.
  assert (observe (ITree.iter body i) = observe (ITree.bind (go (observe (body i))) h)) as Ei
    by (rewrite observe_iter, !observe_bind; done).
  eapply cycle_never; [rewrite Ei; exact E|]. rewrite Ei. eapply steps_trans; [exact Hs|].
  rewrite observe_bind. cbn. rewrite <- Ei. by apply steps_once.
Qed.

(** A set of states that no step leaves and in which nothing has returned. *)
Lemma exec_never {R} (P : conf R → Prop) (t : prog R) w r w' :
  (∀ c, P c → match step c with Some c' => P c' | None => ∀ r, c.1 ≠ RetF r end) → P (observe t, w) → ¬ exec t w r w'.
Proof.
  intros Hstep Hp. unfold exec. generalize dependent (observe t, w). intros c Hp H1.
  remember (RetF r, w') as d eqn:Ed. induction H1 as [c|c c1 c2 E _ IH]; subst.
  - specialize (Hstep _ Hp). cbn in Hstep. by apply (Hstep r).
  - apply IH; [|done]. specialize (Hstep _ Hp). by rewrite E in Hstep.
Qed.

End running.
