(* ===== verification/AgentSvc.v ===== *)
(** * The clients of the services (user/agent_svc.c)

    The requests that an agent sends to the storage, router, network, display and
    input agents, and the wait for the matching reply.  The sequence numbers, the
    pending numbers, the receive buffer and the message put aside are shared by all
    agents of an image ([user_bss]). *)

From ITree Require Import Core.ITreeDefinition.
From S2P Require Import Prelude Abi Ipc Kernel LibAgent.

Definition set_svc_read_seq (x : Z) (b : user_bss) : user_bss :=
  mk_bss x (svc_write_seq b) (svc_llm_seq b) (svc_http_seq b) (svc_display_seq b) (svc_input_seq b) (svc_read_pending_id b) (svc_write_pending_id b) (svc_llm_pending_id b) (svc_http_pending_id b) (svc_display_pending_id b) (svc_input_pending_id b) (svc_ipc_msg b) (svc_deferred b) (svc_have_deferred b) (planner_id b) (worker_id b) (llm_worker_id b) (rules_id b) (llm_id b).
Definition set_svc_write_seq (x : Z) (b : user_bss) : user_bss :=
  mk_bss (svc_read_seq b) x (svc_llm_seq b) (svc_http_seq b) (svc_display_seq b) (svc_input_seq b) (svc_read_pending_id b) (svc_write_pending_id b) (svc_llm_pending_id b) (svc_http_pending_id b) (svc_display_pending_id b) (svc_input_pending_id b) (svc_ipc_msg b) (svc_deferred b) (svc_have_deferred b) (planner_id b) (worker_id b) (llm_worker_id b) (rules_id b) (llm_id b).
Definition set_svc_llm_seq (x : Z) (b : user_bss) : user_bss :=
  mk_bss (svc_read_seq b) (svc_write_seq b) x (svc_http_seq b) (svc_display_seq b) (svc_input_seq b) (svc_read_pending_id b) (svc_write_pending_id b) (svc_llm_pending_id b) (svc_http_pending_id b) (svc_display_pending_id b) (svc_input_pending_id b) (svc_ipc_msg b) (svc_deferred b) (svc_have_deferred b) (planner_id b) (worker_id b) (llm_worker_id b) (rules_id b) (llm_id b).
Definition set_svc_http_seq (x : Z) (b : user_bss) : user_bss :=
  mk_bss (svc_read_seq b) (svc_write_seq b) (svc_llm_seq b) x (svc_display_seq b) (svc_input_seq b) (svc_read_pending_id b) (svc_write_pending_id b) (svc_llm_pending_id b) (svc_http_pending_id b) (svc_display_pending_id b) (svc_input_pending_id b) (svc_ipc_msg b) (svc_deferred b) (svc_have_deferred b) (planner_id b) (worker_id b) (llm_worker_id b) (rules_id b) (llm_id b).
Definition set_svc_display_seq (x : Z) (b : user_bss) : user_bss :=
  mk_bss (svc_read_seq b) (svc_write_seq b) (svc_llm_seq b) (svc_http_seq b) x (svc_input_seq b) (svc_read_pending_id b) (svc_write_pending_id b) (svc_llm_pending_id b) (svc_http_pending_id b) (svc_display_pending_id b) (svc_input_pending_id b) (svc_ipc_msg b) (svc_deferred b) (svc_have_deferred b) (planner_id b) (worker_id b) (llm_worker_id b) (rules_id b) (llm_id b).
Definition set_svc_input_seq (x : Z) (b : user_bss) : user_bss :=
  mk_bss (svc_read_seq b) (svc_write_seq b) (svc_llm_seq b) (svc_http_seq b) (svc_display_seq b) x (svc_read_pending_id b) (svc_write_pending_id b) (svc_llm_pending_id b) (svc_http_pending_id b) (svc_display_pending_id b) (svc_input_pending_id b) (svc_ipc_msg b) (svc_deferred b) (svc_have_deferred b) (planner_id b) (worker_id b) (llm_worker_id b) (rules_id b) (llm_id b).
Definition set_svc_read_pending_id (x : Z) (b : user_bss) : user_bss :=
  mk_bss (svc_read_seq b) (svc_write_seq b) (svc_llm_seq b) (svc_http_seq b) (svc_display_seq b) (svc_input_seq b) x (svc_write_pending_id b) (svc_llm_pending_id b) (svc_http_pending_id b) (svc_display_pending_id b) (svc_input_pending_id b) (svc_ipc_msg b) (svc_deferred b) (svc_have_deferred b) (planner_id b) (worker_id b) (llm_worker_id b) (rules_id b) (llm_id b).
Definition set_svc_write_pending_id (x : Z) (b : user_bss) : user_bss :=
  mk_bss (svc_read_seq b) (svc_write_seq b) (svc_llm_seq b) (svc_http_seq b) (svc_display_seq b) (svc_input_seq b) (svc_read_pending_id b) x (svc_llm_pending_id b) (svc_http_pending_id b) (svc_display_pending_id b) (svc_input_pending_id b) (svc_ipc_msg b) (svc_deferred b) (svc_have_deferred b) (planner_id b) (worker_id b) (llm_worker_id b) (rules_id b) (llm_id b).
Definition set_svc_llm_pending_id (x : Z) (b : user_bss) : user_bss :=
  mk_bss (svc_read_seq b) (svc_write_seq b) (svc_llm_seq b) (svc_http_seq b) (svc_display_seq b) (svc_input_seq b) (svc_read_pending_id b) (svc_write_pending_id b) x (svc_http_pending_id b) (svc_display_pending_id b) (svc_input_pending_id b) (svc_ipc_msg b) (svc_deferred b) (svc_have_deferred b) (planner_id b) (worker_id b) (llm_worker_id b) (rules_id b) (llm_id b).
Definition set_svc_http_pending_id (x : Z) (b : user_bss) : user_bss :=
  mk_bss (svc_read_seq b) (svc_write_seq b) (svc_llm_seq b) (svc_http_seq b) (svc_display_seq b) (svc_input_seq b) (svc_read_pending_id b) (svc_write_pending_id b) (svc_llm_pending_id b) x (svc_display_pending_id b) (svc_input_pending_id b) (svc_ipc_msg b) (svc_deferred b) (svc_have_deferred b) (planner_id b) (worker_id b) (llm_worker_id b) (rules_id b) (llm_id b).
Definition set_svc_display_pending_id (x : Z) (b : user_bss) : user_bss :=
  mk_bss (svc_read_seq b) (svc_write_seq b) (svc_llm_seq b) (svc_http_seq b) (svc_display_seq b) (svc_input_seq b) (svc_read_pending_id b) (svc_write_pending_id b) (svc_llm_pending_id b) (svc_http_pending_id b) x (svc_input_pending_id b) (svc_ipc_msg b) (svc_deferred b) (svc_have_deferred b) (planner_id b) (worker_id b) (llm_worker_id b) (rules_id b) (llm_id b).
Definition set_svc_input_pending_id (x : Z) (b : user_bss) : user_bss :=
  mk_bss (svc_read_seq b) (svc_write_seq b) (svc_llm_seq b) (svc_http_seq b) (svc_display_seq b) (svc_input_seq b) (svc_read_pending_id b) (svc_write_pending_id b) (svc_llm_pending_id b) (svc_http_pending_id b) (svc_display_pending_id b) x (svc_ipc_msg b) (svc_deferred b) (svc_have_deferred b) (planner_id b) (worker_id b) (llm_worker_id b) (rules_id b) (llm_id b).
Definition set_svc_ipc_msg (x : agent_msg) (b : user_bss) : user_bss :=
  mk_bss (svc_read_seq b) (svc_write_seq b) (svc_llm_seq b) (svc_http_seq b) (svc_display_seq b) (svc_input_seq b) (svc_read_pending_id b) (svc_write_pending_id b) (svc_llm_pending_id b) (svc_http_pending_id b) (svc_display_pending_id b) (svc_input_pending_id b) x (svc_deferred b) (svc_have_deferred b) (planner_id b) (worker_id b) (llm_worker_id b) (rules_id b) (llm_id b).
Definition set_svc_deferred (x : agent_msg) (b : user_bss) : user_bss :=
  mk_bss (svc_read_seq b) (svc_write_seq b) (svc_llm_seq b) (svc_http_seq b) (svc_display_seq b) (svc_input_seq b) (svc_read_pending_id b) (svc_write_pending_id b) (svc_llm_pending_id b) (svc_http_pending_id b) (svc_display_pending_id b) (svc_input_pending_id b) (svc_ipc_msg b) x (svc_have_deferred b) (planner_id b) (worker_id b) (llm_worker_id b) (rules_id b) (llm_id b).
Definition set_svc_have_deferred (x : Z) (b : user_bss) : user_bss :=
  mk_bss (svc_read_seq b) (svc_write_seq b) (svc_llm_seq b) (svc_http_seq b) (svc_display_seq b) (svc_input_seq b) (svc_read_pending_id b) (svc_write_pending_id b) (svc_llm_pending_id b) (svc_http_pending_id b) (svc_display_pending_id b) (svc_input_pending_id b) (svc_ipc_msg b) (svc_deferred b) x (planner_id b) (worker_id b) (llm_worker_id b) (rules_id b) (llm_id b).
Definition set_planner_id (x : Z) (b : user_bss) : user_bss :=
  mk_bss (svc_read_seq b) (svc_write_seq b) (svc_llm_seq b) (svc_http_seq b) (svc_display_seq b) (svc_input_seq b) (svc_read_pending_id b) (svc_write_pending_id b) (svc_llm_pending_id b) (svc_http_pending_id b) (svc_display_pending_id b) (svc_input_pending_id b) (svc_ipc_msg b) (svc_deferred b) (svc_have_deferred b) x (worker_id b) (llm_worker_id b) (rules_id b) (llm_id b).
Definition set_worker_id (x : Z) (b : user_bss) : user_bss :=
  mk_bss (svc_read_seq b) (svc_write_seq b) (svc_llm_seq b) (svc_http_seq b) (svc_display_seq b) (svc_input_seq b) (svc_read_pending_id b) (svc_write_pending_id b) (svc_llm_pending_id b) (svc_http_pending_id b) (svc_display_pending_id b) (svc_input_pending_id b) (svc_ipc_msg b) (svc_deferred b) (svc_have_deferred b) (planner_id b) x (llm_worker_id b) (rules_id b) (llm_id b).
Definition set_llm_worker_id (x : Z) (b : user_bss) : user_bss :=
  mk_bss (svc_read_seq b) (svc_write_seq b) (svc_llm_seq b) (svc_http_seq b) (svc_display_seq b) (svc_input_seq b) (svc_read_pending_id b) (svc_write_pending_id b) (svc_llm_pending_id b) (svc_http_pending_id b) (svc_display_pending_id b) (svc_input_pending_id b) (svc_ipc_msg b) (svc_deferred b) (svc_have_deferred b) (planner_id b) (worker_id b) x (rules_id b) (llm_id b).
Definition set_rules_id (x : Z) (b : user_bss) : user_bss :=
  mk_bss (svc_read_seq b) (svc_write_seq b) (svc_llm_seq b) (svc_http_seq b) (svc_display_seq b) (svc_input_seq b) (svc_read_pending_id b) (svc_write_pending_id b) (svc_llm_pending_id b) (svc_http_pending_id b) (svc_display_pending_id b) (svc_input_pending_id b) (svc_ipc_msg b) (svc_deferred b) (svc_have_deferred b) (planner_id b) (worker_id b) (llm_worker_id b) x (llm_id b).
Definition set_llm_id (x : Z) (b : user_bss) : user_bss :=
  mk_bss (svc_read_seq b) (svc_write_seq b) (svc_llm_seq b) (svc_http_seq b) (svc_display_seq b) (svc_input_seq b) (svc_read_pending_id b) (svc_write_pending_id b) (svc_llm_pending_id b) (svc_http_pending_id b) (svc_display_pending_id b) (svc_input_pending_id b) (svc_ipc_msg b) (svc_deferred b) (svc_have_deferred b) (planner_id b) (worker_id b) (llm_worker_id b) (rules_id b) x.

(** [++seq], also stored as the pending number: the new number. *)
Definition next_id (seq : user_bss → Z) (set_seq set_pending : Z → user_bss → user_bss) : prog Z :=
  let* n := load seq in
  let reqid := i32 (n + 1) in
  store (set_seq reqid) ;*
  store (set_pending reqid) ;*
  give reqid.

(** A message of the wrong type, or a reply to another request, is put aside... *)
Definition defer : prog (unit + (Z * nat)) :=
  let* m := call (LoadMsg svc_ipc_msg) in
  store (set_svc_deferred m) ;*
  store (set_svc_have_deferred 1) ;*
  agent_yield ;*
  give (inl tt).

(** ... and is the next one looked at.  The receive buffer of the source is a static
    variable; after an error the caller returns without looking at it, so that only a
    message that came is stored there. *)
Definition next_message : prog Z :=
  let* have := load svc_have_deferred in
  if negb (have =? 0) then
    let* m := call (LoadMsg svc_deferred) in
    store (set_svc_ipc_msg m) ;*
    store (set_svc_have_deferred 0) ;*
    give 0
  else
    let* r := agent_recv_msg in
    if r.1 <? 0 then give (-1) else store (set_svc_ipc_msg r.2) ;* give 0.

Definition recv_match_body (expect_type : Z) (match_id : list Z → Z → bool * nat) (expect_id : Z) (_ : unit) :
    prog (unit + (Z * nat)) :=
  let* rc := next_message in
  if rc <? 0 then give (inr (-1, 0%nat))
  else
    let* m := call (LoadMsg svc_ipc_msg) in
    if negb (mtype m =? expect_type) then defer
    else
      let '(ok, off) := match_id (text_of (payload m)) expect_id in
      if negb ok then defer else give (inr (0, off)).

(** The result, and where the body begins in the receive buffer. *)
Definition svc_recv_match (expect_type : Z) (match_id : list Z → Z → bool * nat) (expect_id : Z) : prog (Z * nat) :=
  ITree.iter (recv_match_body expect_type match_id expect_id) tt.

(** The wait for the reply to the pending request and its body, [None] for an error;
    a body that begins with "err" is one. *)
Definition await_reply (expect_type : Z) (match_id : list Z → Z → bool * nat) (pending : user_bss → Z) : prog (option (list Z)) :=
  let* expect_id := load pending in
  let* '(rc, off) := svc_recv_match expect_type match_id expect_id in
  if rc <? 0 then give None
  else
    let* m := call (LoadMsg svc_ipc_msg) in
    let body := drop off (text_of (payload m)) in
    give (if cmatch body 0 (str "err") then None else Some body).

(** The body stored as a string in a buffer of [len] characters: its length and it. *)
Definition store_body (body : list Z) (len : Z) : prog (Z * list Z) :=
  let n := if len <=? zlen body then len - 1 else zlen body in
  if n <? 0 then undefined else give (n, take (Z.to_nat n) body).

Definition read_req (reqid : Z) (path : list Z) : option (list Z) :=
  match svc_append_int (str "R") MSG_PAYLOAD_SIZE reqid with
  | None => None
  | Some req =>
      if MSG_PAYLOAD_SIZE - 2 <=? zlen req then None
      else
        let req := req ++ str "|" in
        Some (req ++ take (Z.to_nat (MSG_PAYLOAD_SIZE - 1 - zlen req)) path)
  end.

(** The result and what was stored in the buffer. *)
Definition agent_svc_read (path : list Z) (len : Z) : prog (Z * list Z) :=
  let* reqid := next_id svc_read_seq set_svc_read_seq set_svc_read_pending_id in
  match read_req reqid path with
  | None => give (-1, [])
  | Some req =>
      let* rc := agent_send_msg STORAGE_AGENT_ID MSG_FS_READ req in
      if negb (rc =? 0) then give (-1, [])
      else
        let* body := await_reply MSG_FS_RSP svc_parse_rsp_id svc_read_pending_id in
        match body with None => give (-1, []) | Some body => store_body body len end
  end.

(** The path stops where the data would no longer fit. *)
Definition write_req (reqid : Z) (path data : list Z) (len : Z) : option (list Z) :=
  match svc_append_int (str "W") MSG_PAYLOAD_SIZE reqid with
  | None => None
  | Some req =>
      if MSG_PAYLOAD_SIZE - len - 3 <=? zlen req then None
      else
        let req := req ++ str "|" in
        let req := req ++ take (Z.to_nat (MSG_PAYLOAD_SIZE - len - 2 - zlen req)) path in
        if MSG_PAYLOAD_SIZE - len - 2 <=? zlen req then None
        else
          let req := req ++ str "|" in
          Some (req ++ take (Z.to_nat (Z.min len (MSG_PAYLOAD_SIZE - 1 - zlen req))) data)
  end.

Definition agent_svc_write (path data : list Z) (len : Z) : prog Z :=
  let* reqid := next_id svc_write_seq set_svc_write_seq set_svc_write_pending_id in
  match write_req reqid path data len with
  | None => give (-1)
  | Some req =>
      let* rc := agent_send_msg STORAGE_AGENT_ID MSG_FS_WRITE req in
      if negb (rc =? 0) then give (-1)
      else
        let* body := await_reply MSG_FS_RSP svc_parse_rsp_id svc_write_pending_id in
        give (match body with None => -1 | Some _ => len end)
  end.

(** A reply with the letter of its service. *)
Definition parse_rsp (letter : Z) (payload : list Z) (expect_id : Z) : bool * nat :=
  if negb (cget payload 0 =? letter) then (false, 0%nat)
  else match parse_tagged payload with
       | None => (false, 0%nat)
       | Some (id, body) => (id =? expect_id, (length payload - length body)%nat)
       end.

Definition svc_parse_llm_rsp : list Z → Z → bool * nat := parse_rsp (chr "L").
Definition svc_parse_http_rsp : list Z → Z → bool * nat := parse_rsp (chr "H").
Definition svc_parse_display_rsp : list Z → Z → bool * nat := parse_rsp (chr "D").
Definition svc_parse_input_rsp : list Z → Z → bool * nat := parse_rsp (chr "I").

(** A request that names a backend: letter, number, backend and text. *)
Definition backend_req (letter : list Z) (reqid : Z) (backend text : list Z) : option (list Z) :=
  match svc_append_int letter MSG_PAYLOAD_SIZE reqid with
  | None => None
  | Some req =>
      if MSG_PAYLOAD_SIZE <=? zlen req + zlen backend + zlen text + 3 then None
      else
        let req := req ++ str "|" ++ backend ++ str "|" in
        Some (req ++ take (Z.to_nat (MSG_PAYLOAD_SIZE - 1 - zlen req)) text)
  end.

Definition agent_svc_llm (prompt : list Z) (len : Z) (backend : list Z) : prog (Z * list Z) :=
  if len <=? 0 then give (-1, [])
  else if (zlen backend <=? 0) || (16 <? zlen backend) then give (-1, [])
  else
    let* reqid := next_id svc_llm_seq set_svc_llm_seq set_svc_llm_pending_id in
    match backend_req (str "L") reqid backend prompt with
    | None => give (-1, [])
    | Some req =>
        let* rc := agent_send_msg ROUTER_AGENT_ID MSG_LLM_REQ req in
        if negb (rc =? 0) then give (-1, [])
        else
          let* body := await_reply MSG_LLM_RSP svc_parse_llm_rsp svc_llm_pending_id in
          match body with None => give (-1, []) | Some body => store_body body len end
    end.

Definition agent_svc_http (url : list Z) (len : Z) (backend : list Z) : prog (Z * list Z) :=
  if len <=? 0 then give (-1, [])
  else if (zlen url <=? 0) || (zlen backend <=? 0) || (16 <? zlen backend) then give (-1, [])
  else
    let* reqid := next_id svc_http_seq set_svc_http_seq set_svc_http_pending_id in
    match backend_req (str "H") reqid backend url with
    | None => give (-1, [])
    | Some req =>
        let* rc := agent_send_msg NET_AGENT_ID MSG_HTTP_REQ req in
        if negb (rc =? 0) then give (-1, [])
        else
          let* body := await_reply MSG_HTTP_RSP svc_parse_http_rsp svc_http_pending_id in
          match body with None => give (-1, []) | Some body => store_body body len end
    end.

(** The position and the text. *)
Definition display_req (reqid : Z) (text : list Z) (x y : Z) : option (list Z) :=
  match svc_append_int (str "D") MSG_PAYLOAD_SIZE reqid with
  | None => None
  | Some req =>
      match svc_append_int (req ++ str "|") MSG_PAYLOAD_SIZE x with
      | None => None
      | Some req =>
          match svc_append_int (req ++ str ",") MSG_PAYLOAD_SIZE y with
          | None => None
          | Some req =>
              let req := req ++ str "|" in
              if MSG_PAYLOAD_SIZE <=? zlen req + zlen text then None
              else Some (req ++ take (Z.to_nat (MSG_PAYLOAD_SIZE - 1 - zlen req)) text)
          end
      end
  end.

Definition agent_svc_display (text : list Z) (x y : Z) : prog Z :=
  if zlen text <=? 0 then give (-1)
  else
    let* reqid := next_id svc_display_seq set_svc_display_seq set_svc_display_pending_id in
    match display_req reqid text x y with
    | None => give (-1)
    | Some req =>
        let* rc := agent_send_msg DISPLAY_AGENT_ID MSG_DISPLAY_REQ req in
        if negb (rc =? 0) then give (-1)
        else
          let* body := await_reply MSG_DISPLAY_RSP svc_parse_display_rsp svc_display_pending_id in
          give (match body with None => -1 | Some _ => 0 end)
    end.

(** The key code of a reply, 0 when there is none. *)
Definition key_code (body : list Z) : Z :=
  if cmatch body 0 (str "no") then 0
  else if negb (cmatch body 0 (str "key|")) then -1
  else (scan_int 0 (drop 4 body)).1.

Definition agent_svc_input_poll : prog Z :=
  let* reqid := next_id svc_input_seq set_svc_input_seq set_svc_input_pending_id in
  match svc_append_int (str "I") MSG_PAYLOAD_SIZE reqid with
  | None => give (-1)
  | Some req =>
      let* rc := agent_send_msg INPUT_AGENT_ID MSG_INPUT_REQ (req ++ str "|poll") in
      if negb (rc =? 0) then give (-1)
      else
        let* body := await_reply MSG_INPUT_RSP svc_parse_input_rsp svc_input_pending_id in
        give (match body with None => -1 | Some body => key_code body end)
  end.
