(* ===== verification/ServiceAgents.v ===== *)
(** * The service agents (user/storage_svc.c, router_svc.c, network_svc.c,
      network_prod_svc.c, display_svc.c, input_svc.c)

    Each service is a loop that receives a message, acts on it and sends a reply to its
    sender; [MSG_PIPELINE_DONE] ends it.  A loop is [serve] of what the service does
    with one message.  Requests and replies are texts: a letter, a number, a bar and
    the body.  Array bounds of the C code appear as [take]. *)

From ITree Require Import Core.ITreeDefinition.
From S2P Require Import Prelude Abi Ipc Kernel LibAgent AgentSvc.

Definition LLM_MAX_RESPONSE : Z := 512.
Definition HTTP_MAX_BODY : Z := 512.

(** ** Shared by the services *)

Definition int_to_str (v : Z) : list Z := if v <? 0 then str "-" ++ dec (u32 (- v)) else dec v.

Definition str_eq (a b : list Z) : bool := bool_decide (a = b).

(** The text of a message, at most 223 characters. *)
Definition request_text (m : agent_msg) : list Z := take (Z.to_nat (MSG_PAYLOAD_SIZE - 1)) (text_of (payload m)).

(** A reply: letter, number, bar and as much of the body as fits. *)
Definition format_rsp (letter : Z) (reqid : Z) (body : list Z) : list Z :=
  let head := letter :: int_to_str reqid ++ str "|" in
  head ++ take (Z.to_nat (MSG_PAYLOAD_SIZE - 1 - zlen head)) body.

(** The part of a text before the first [c]. *)
Fixpoint before (c : Z) (s : list Z) : list Z :=
  match s with [] => [] | x :: s' => if x =? c then [] else x :: before c s' end.

(** Letter, number, bar, backend (at most 31 characters), bar and the rest. *)
Definition parse_backend_req (letter : Z) (req : list Z) : option (Z * list Z * list Z) :=
  if negb (cget req 0 =? letter) then None
  else match parse_tagged req with
       | None => None
       | Some (id, rest) =>
           let backend := take 31 (before (chr "|") rest) in
           let rest := drop (length backend) rest in
           if negb (cget rest 0 =? chr "|") then None else Some (id, backend, drop 1 rest)
       end.

(** Every service: say that it is ready, then handle messages for ever. *)
Definition serve_loop {S} (name : list Z) (handle : agent_msg → S → prog S) (s : S) : prog Empty_set :=
  ITree.iter (λ s,
    let* r := agent_recv_msg in
    if mtype r.2 =? MSG_PIPELINE_DONE then
      agent_log_str (str "[" ++ name ++ str "] shutdown" ++ [10]) ;* agent_exit 0
    else let* s := handle r.2 s in give (inl s)) s.

Definition serve {S} (banner : prog unit) (name : list Z) (handle : agent_msg → S → prog S) (s : S) : prog Empty_set :=
  banner ;* serve_loop name handle s.

Definition ready (name : list Z) (id : Z) : prog unit :=
  agent_log_str (str "[" ++ name ++ str "] service ready id=") ;*
  agent_log_int id ;*
  agent_log_str [10].

(** ** Storage *)

Module storage.

Definition parse_req_id (req : list Z) : option (Z * list Z) :=
  if negb (cget req 0 =? chr "R") && negb (cget req 0 =? chr "W") then None else parse_tagged req.

(** A storage_reply without a number copies the body with [out[i++] = body[i]], which is
    undefined in C: [None]. *)
Definition format_fs_rsp (reqid : Z) (body : list Z) : option (list Z) :=
  if reqid <=? 0 then match body with [] => Some [] | _ => None end
  else Some (format_rsp (chr "R") reqid body).

Definition storage_reply (sender reqid : Z) (body : list Z) : prog unit :=
  match format_fs_rsp reqid body with
  | None => undefined
  | Some rsp => agent_send_msg sender MSG_FS_RSP rsp ;* give tt
  end.

(** The number, 0 when there is none, and the rest of a request. *)
Definition numbered (req : list Z) : Z * list Z := default (0, req) (parse_req_id req).

Definition handle_read (sender : Z) (req : list Z) : prog unit :=
  let '(reqid, body) := numbered req in
  let* '(n, buf) := agent_read_file (take 63 body) 199 in
  if n <? 0 then storage_reply sender reqid (str "err:read")
  else if 200 <=? n then undefined
  else storage_reply sender reqid (text_of (take (Z.to_nat n) buf)).

Definition handle_write (sender : Z) (req : list Z) : prog unit :=
  let '(reqid, body) := numbered req in
  let path := before (chr "|") body in
  if zlen path =? zlen body then storage_reply sender reqid (str "err:write")
  else
    let data := take 127 (drop (S (length path)) body) in
    let* rc := agent_write_file (take 63 path) data (zlen data) in
    storage_reply sender reqid (if rc <? 0 then str "err:write" else str "ok").

Definition storage_handle (m : agent_msg) (_ : unit) : prog unit :=
  if mtype m =? MSG_FS_READ then handle_read (sender_id m) (request_text m)
  else if mtype m =? MSG_FS_WRITE then handle_write (sender_id m) (request_text m)
  else storage_reply (sender_id m) 0 (str "err:unknown").

Definition storage_agent_main : prog Empty_set := serve (ready (str "storage") STORAGE_AGENT_ID) (str "storage") storage_handle tt.

End storage.

(** ** Router *)

Module router.

Definition parse_llm_req : list Z → option (Z * list Z * list Z) := parse_backend_req (chr "L").
Definition format_llm_rsp : Z → list Z → list Z := format_rsp (chr "L").

Definition router_reply (sender reqid : Z) (body : list Z) : prog unit :=
  agent_send_msg sender MSG_LLM_RSP (format_llm_rsp reqid body) ;* give tt.

Fixpoint contains_substr (hay needle : list Z) : bool :=
  match hay with
  | [] => false
  | _ :: hay' => (negb (zlen needle =? 0) && cmatch hay 0 needle) || contains_substr hay' needle
  end.

(** The answers of the built-in model. *)
Definition router_faux (prompt : list Z) : list Z :=
  if contains_substr prompt (str "17+25") then str "42"
  else if contains_substr prompt (str "2+2") then str "4"
  else str "ok".

Definition router_handle (m : agent_msg) (_ : unit) : prog unit :=
  let sender := sender_id m in
  if negb (mtype m =? MSG_LLM_REQ) then router_reply sender 0 (str "err:unknown")
  else match parse_llm_req (request_text m) with
       | None => router_reply sender 0 (str "err:parse")
       | Some (reqid, backend, prompt) =>
           agent_log_str (str "[router] backend=") ;*
           agent_log_str backend ;*
           agent_log_str (str " req=") ;*
           agent_log_int reqid ;*
           agent_log_str [10] ;*
           if str_eq backend (str "offline") then router_reply sender reqid (str "err:offline")
           else
             let* '(n, answer) := if str_eq backend (str "faux") then give (zlen (router_faux prompt), router_faux prompt)
                                  else agent_llm prompt LLM_MAX_RESPONSE in
             if n <? 0 then router_reply sender reqid (str "err:llm")
             else if LLM_MAX_RESPONSE <=? n then undefined
             else router_reply sender reqid (text_of (take (Z.to_nat n) answer))
       end.

Definition router_agent_main : prog Empty_set := serve (ready (str "router") ROUTER_AGENT_ID) (str "router") router_handle tt.

End router.

(** ** Network *)

Module network.

Definition parse_http_req : list Z → option (Z * list Z * list Z) := parse_backend_req (chr "H").
Definition format_http_rsp : Z → list Z → list Z := format_rsp (chr "H").

Definition network_reply (sender reqid : Z) (body : list Z) : prog unit :=
  agent_send_msg sender MSG_HTTP_RSP (format_http_rsp reqid body) ;* give tt.

Definition log_request (backend : list Z) (reqid : Z) : prog unit :=
  agent_log_str (str "[network] backend=") ;*
  agent_log_str backend ;*
  agent_log_str (str " req=") ;*
  agent_log_int reqid ;*
  agent_log_str [10].

(** A page and its length, negative on an error. *)
Definition fetch_live (url : list Z) : prog (Z * list Z) :=
  let* '(n, body) := agent_http url HTTP_MAX_BODY in
  if n <? 0 then give (n, []) else if HTTP_MAX_BODY <=? n then undefined else give (n, take (Z.to_nat n) body).

Definition network_handle (m : agent_msg) (_ : unit) : prog unit :=
  let sender := sender_id m in
  if negb (mtype m =? MSG_HTTP_REQ) then network_reply sender 0 (str "err:unknown")
  else match parse_http_req (request_text m) with
       | None => network_reply sender 0 (str "err:parse")
       | Some (reqid, backend, url) =>
           log_request backend reqid ;*
           if str_eq backend (str "offline") then network_reply sender reqid (str "err:offline")
           else
             let* '(n, body) := fetch_live url in
             network_reply sender reqid (if n <? 0 then str "err:http" else text_of body)
       end.

Definition network_agent_main : prog Empty_set := serve (ready (str "network") NET_AGENT_ID) (str "network") network_handle tt.

End network.

(** ** Network with a quota and a cache; the state is [prod_quota_used] *)

Module network_prod.
Import network.

Definition NET_CACHE_DIR : list Z := str "/agent/7/net-cache/".
Definition PROD_QUOTA_MAX : Z := 4.

Definition is_alnum (c : Z) : bool :=
  ((97 <=? c) && (c <=? 122)) || ((65 <=? c) && (c <=? 90)) || ((48 <=? c) && (c <=? 57)).

(** In an array of 96 characters; it never fails. *)
Definition url_to_cache_path (url : list Z) : list Z :=
  NET_CACHE_DIR ++ ((λ c, if is_alnum c then c else chr "_") <$> take (Z.to_nat (96 - 5 - zlen NET_CACHE_DIR)) url) ++ str ".txt".

(** A cached page; its length is -1 when there is none. *)
Definition cache_read (url : list Z) : prog (Z * list Z) :=
  let* '(n, body) := agent_read_file (url_to_cache_path url) HTTP_MAX_BODY in
  if n <=? 0 then give (-1, [])
  else if HTTP_MAX_BODY <=? n then undefined
  else
    agent_log_str (str "[network] cache hit url=") ;*
    agent_log_str url ;*
    agent_log_str [10] ;*
    give (n, take (Z.to_nat n) body).

Definition cache_write (url body : list Z) (body_len : Z) : prog Z :=
  let* n := agent_write_file (url_to_cache_path url) body body_len in
  if n <? 0 then give n
  else
    agent_log_str (str "[network] cache store url=") ;*
    agent_log_str url ;*
    agent_log_str [10] ;*
    give n.

Definition seed_offline_cache : prog unit :=
  let url := str "http://10.0.2.2:8080/reject-degrade" in
  let body := str "cache:200:offline-ok" in
  let* rc := agent_write_file (url_to_cache_path url) body (zlen body) in
  if 0 <=? rc then agent_log_str (str "[network] seeded offline cache for reject-degrade" ++ [10]) else give tt.

(** The page and the quota used. *)
Definition handle_prod (url : list Z) (used : Z) : prog (Z * list Z * Z) :=
  if PROD_QUOTA_MAX <=? used then
    agent_log_str (str "[network] quota exceeded" ++ [10]) ;* give (-1, [], used)
  else
    let used := used + 1 in
    agent_log_str (str "[network] quota used=") ;*
    agent_log_int used ;*
    agent_log_str [10] ;*
    let* '(n, body) := fetch_live url in
    if 0 <=? n then cache_write url body n ;* give (n, body, used)
    else
      agent_log_str (str "[network] live fetch failed, trying cache" ++ [10]) ;*
      let* '(n, body) := cache_read url in
      if 0 <=? n then
        agent_log_str (str "[network] fallback cache ok" ++ [10]) ;* give (n, body, used)
      else give (-1, [], used).

Definition dispatch_http (sender reqid : Z) (backend url : list Z) (used : Z) : prog Z :=
  if str_eq backend (str "offline") then network_reply sender reqid (str "err:offline") ;* give used
  else if str_eq backend (str "prod") then
    let* '(n, body, used) := handle_prod url used in
    network_reply sender reqid
      (if n <? 0 then if PROD_QUOTA_MAX <=? used then str "err:quota" else str "err:offline" else text_of body) ;*
    give used
  else
    let* '(n, body) := fetch_live url in
    network_reply sender reqid (if n <? 0 then str "err:http" else text_of body) ;* give used.

Definition prod_handle (m : agent_msg) (used : Z) : prog Z :=
  let sender := sender_id m in
  if negb (mtype m =? MSG_HTTP_REQ) then network_reply sender 0 (str "err:unknown") ;* give used
  else match parse_http_req (request_text m) with
       | None => network_reply sender 0 (str "err:parse") ;* give used
       | Some (reqid, backend, url) => log_request backend reqid ;* dispatch_http sender reqid backend url used
       end.

Definition network_prod_agent_main : prog Empty_set :=
  serve (seed_offline_cache ;*
         agent_log_str (str "[network] prod service ready id=") ;*
         agent_log_int NET_AGENT_ID ;*
         agent_log_str (str " quota=") ;*
         agent_log_int PROD_QUOTA_MAX ;*
         agent_log_str [10]) (str "network") prod_handle 0.

End network_prod.

(** ** Display *)

Module display.

Definition parse_display_req (req : list Z) : option (Z * list Z * Z * Z) :=
  if negb (cget req 0 =? chr "D") then None
  else match parse_tagged req with
       | None => None
       | Some (id, rest) =>
           let '(x, rest) := scan_int 0 rest in
           if negb (cget rest 0 =? chr ",") then None
           else
             let '(y, rest) := scan_int 0 (drop 1 rest) in
             if negb (cget rest 0 =? chr "|") then None else Some (id, drop 1 rest, x, y)
       end.

Definition format_display_rsp : Z → list Z → list Z := format_rsp (chr "D").

Definition display_reply (sender reqid : Z) (body : list Z) : prog unit :=
  agent_send_msg sender MSG_DISPLAY_RSP (format_display_rsp reqid body) ;* give tt.

Definition display_clear : prog Z := tool_rc TOOL_DISPLAY [TInt 0; TInt 0xff102030; TInt 0].

Definition display_text_at (x y : Z) (text : list Z) : prog Z :=
  let xy := Z.lor (Z.shiftl (Z.land x 0xffff) 16) (Z.land y 0xffff) in
  let* rc := display_clear in
  if rc <? 0 then give (-1)
  else
    let* rc := tool_rc TOOL_DISPLAY [TInt 1; TInt xy; TStr text] in
    if rc <? 0 then give (-1)
    else tool_rc TOOL_DISPLAY [TInt 2; TInt 0; TInt 0] ;* give 0.

Definition display_handle (m : agent_msg) (_ : unit) : prog unit :=
  let sender := sender_id m in
  if negb (mtype m =? MSG_DISPLAY_REQ) then display_reply sender 0 (str "err:unknown")
  else match parse_display_req (request_text m) with
       | None => display_reply sender 0 (str "err:parse")
       | Some (reqid, text, x, y) =>
           agent_log_str (str "[display] draw req=") ;*
           agent_log_int reqid ;*
           agent_log_str (str " text=") ;*
           agent_log_str text ;*
           agent_log_str [10] ;*
           let* rc := display_text_at x y text in
           display_reply sender reqid (if rc <? 0 then str "err:draw" else str "ok")
       end.

Definition display_agent_main : prog Empty_set := serve (ready (str "display") DISPLAY_AGENT_ID) (str "display") display_handle tt.

End display.

(** ** Input *)

Module input.

Definition format_input_rsp (reqid code : Z) : list Z :=
  (chr "I" :: int_to_str reqid ++ str "|") ++
  (if code <? 0 then str "err" else if code =? 0 then str "none" else str "key|" ++ int_to_str code).

Definition input_handle (m : agent_msg) (_ : unit) : prog unit :=
  let sender := sender_id m in
  if negb (mtype m =? MSG_INPUT_REQ) then
    agent_send_msg sender MSG_INPUT_RSP (format_input_rsp 0 (-1)) ;* give tt
  else
    let req := request_text m in
    let reqid := if (cget req 0 =? chr "I") && is_digit (cget req 1) then (scan_int 0 (drop 1 req)).1 else 0 in
    let* code := tool_rc TOOL_INPUT [TInt 0; TInt 0; TInt 0] in
    (if 0 <? code then
       agent_log_str (str "[input] key down code=") ;* agent_log_int code ;* agent_log_str [10]
     else give tt) ;*
    agent_send_msg sender MSG_INPUT_RSP (format_input_rsp reqid code) ;*
    give tt.

Definition input_agent_main : prog Empty_set := serve (ready (str "input") INPUT_AGENT_ID) (str "input") input_handle tt.

End input.
