(* ===== verification/ConsoleSvc.v ===== *)
(** * The console agent (user/console_svc.c)

    A read-eval loop over the console tool: each line is a command, most of which are
    one tool call, some a request to a service or a message to the first agent. *)

From ITree Require Import Core.ITreeDefinition.
From S2P Require Import Prelude Abi Ipc Kernel LibAgent AgentSvc ServiceAgents.

Definition starts_with (s pfx : list Z) : bool := cmatch s 0 pfx.

Fixpoint trim_line (s : list Z) : list Z :=
  match s with c :: s' => if c =? 32 then trim_line s' else s | [] => [] end.

Definition no_args (args : list Z) : bool := match args with [] => true | _ => false end.

(** A line of text with its end. *)
Definition ln (s : string) : list Z := str s ++ [10].

(** ** The console tool *)

Definition console_read_char : prog Z := tool_rc TOOL_CONSOLE [TInt CONSOLE_CMD_READ_CHAR; TInt 0; TInt 0].
Definition console_puts (s : list Z) : prog unit := call (SysTool TOOL_CONSOLE [TInt CONSOLE_CMD_PUTS; TStr s; TInt 0]) ;* give tt.
Definition console_prompt : prog unit := call (SysTool TOOL_CONSOLE [TInt CONSOLE_CMD_PROMPT; TInt 0; TInt 0]) ;* give tt.

(** One character of the line [buf]; the line, or the error, ends the loop. *)
Definition getline_body (len : Z) (buf : list Z) : prog (list Z + (Z * list Z)) :=
  let* ch := console_read_char in
  if ch =? 0 then agent_yield ;* give (inl buf)
  else if ch <? 0 then give (inr (ch, []))
  else if (ch =? 13) || (ch =? 10) then console_puts [10] ;* give (inr (zlen buf, buf))
  else if (ch =? 127) || (ch =? 8) then
    if 0 <? zlen buf then console_puts [8; 32; 8] ;* give (inl (removelast buf)) else give (inl buf)
  else if len - 1 <=? zlen buf then give (inl buf)
  else console_puts [u8 ch] ;* give (inl (buf ++ [u8 ch])).

Definition console_getline (len : Z) : prog (Z * list Z) :=
  if len <=? 0 then give (-1, []) else ITree.iter (getline_body len) [].

(** ** Commands *)

Definition help_lines : list string :=
  ["OpenAgentOS console commands:";
   "  /help              list commands";
   "  /echo <text>       display via display-agent";
   "  /llm <prompt>      DeepSeek API direct (HTTPS, no host bridge)";
   "  /agents            list service agent ids";
   "  /session tail      print session tail";
   "  /session append T  append session line";
   "  /compact [keep]    compact session + summary";
   "  /steer <id> <msg>  send MSG_STEER";
   "  /run orch          start orchestrator pipeline";
   "  /status            print console agent phase";
   "  /list              list .agent packages";
   "  /load <path> [name] load agent ELF package";
   "  /ota verify <pkg>  verify OTA package";
   "  /ota apply <pkg>   apply OTA package";
   "  /catalog list      list signed package catalog";
   "  /catalog install <name>  install from catalog";
   "  /catalog rollback <name> rollback package";
   "  /tenant status     session quota usage";
   "  /tenant probe <id> cross-tenant read probe";
   "  /audit status      tool audit log usage";
   "  /audit tail        print audit tail";
   "  /audit compact [n] rotate audit log";
   "  /audit probe <id>  cross-agent audit probe";
   "  /namespace status  home mount usage";
   "  /namespace write T write home secret";
   "  /namespace probe <id> cross-namespace read probe";
   "  /quota status      ipc/tool/fs quota usage";
   "  /quota burn <n>    burn ipc send quota";
   "  /quota probe       probe ipc quota limit";
   "  /fleet status      fleet telemetry snapshot";
   "  /fleet push        export fleet.json cache";
   "  /fleet probe <url> probe collector endpoint";
   "  /fleet ingest [url] POST fleet.json to collector";
   "  /policy status     active deny rules";
   "  /policy load [path] load policy manifest";
   "  /policy deny <id>  deny tool by id";
   "  /policy allow <id> allow tool by id";
   "  /policy probe <id> probe tool policy";
   "  /policy net allow H:P  network egress allowlist";
   "  /policy net restrict enable whitelist mode";
   "  /sandbox status      cap/ns/quota/policy summary";
   "  /remote status     remote console state";
   "  /remote enable     enable remote console";
   "  /remote disable    disable remote console";
   "  /remote ping       liveness check (requires enable)";
   "  /remote connect    TCP link to host gateway (requires net)";
   "  /mesh status       mesh beacon state";
   "  /mesh beacon       emit UDP beacon (stub)";
   "  /mesh probe <svc>  probe local service";
   "  /quit              exit demo";
   "  /quit session      exit session demo";
   "  /quit orch         exit orch demo";
   "  /quit pack         exit pack demo";
   "  /quit catalog      exit catalog demo";
   "  /quit tenant       exit tenant demo";
   "  /quit audit        exit audit demo";
   "  /quit namespace    exit namespace demo";
   "  /quit quota        exit quota demo";
   "  /quit beta         exit v0.1-beta GA demo";
   "  /quit 0.3.0        exit 0.3.0 demo";
   "  /quit 0.4.0        exit 0.4.0 demo";
   "  /quit 0.5.0        exit 0.5.0 demo";
   "  /quit 0.6.0        exit 0.6.0 demo";
   "  /quit box          exit headless box demo"].

Fixpoint puts_lines (l : list string) : prog unit :=
  match l with [] => give tt | s :: l' => console_puts (ln s) ;* puts_lines l' end.

Definition cmd_help : prog unit := puts_lines help_lines.

Fixpoint yields (n : nat) : prog unit := match n with O => give tt | S n' => agent_yield ;* yields n' end.

Definition console_boot_barrier : prog unit := yields 512 ;* console_puts [10] ;* console_prompt.

Definition cmd_agents : prog unit :=
  console_puts (ln "services: id=6 router id=7 net id=8 display id=9 input id=10 console").

(** A message and the result -1. *)
Definition fail_with (s : string) : prog Z := console_puts (ln s) ;* give (-1).

(** A tool call whose failure is reported with the message. *)
Definition tool_or (tool : Z) (args : list targ) (s : string) : prog Z :=
  let* rc := tool_rc tool args in
  if rc <? 0 then fail_with s else give 0.

Definition cmd_echo (args : list Z) : prog Z :=
  match trim_line args with
  | [] => fail_with "usage: /echo <text>"
  | args =>
      let* rc := agent_svc_display args 8 8 in
      if rc <? 0 then fail_with "display failed" else give 0
  end.

(** The backend that a line may name, and the prompt. *)
Definition llm_args (args : list Z) : list Z * list Z :=
  let args := trim_line args in
  if starts_with args (str "--backend") then
    let walk := trim_line (drop 9 args) in
    let backend := take 31 (before 32 walk) in
    (backend, trim_line (drop (length backend) walk))
  else (str "deepseek", args).

Definition cmd_llm (args : list Z) : prog Z :=
  let '(backend, prompt) := llm_args args in
  if no_args prompt then fail_with "usage: /llm [--backend faux|deepseek] <prompt>"
  else
    let* '(n, answer) := agent_svc_llm prompt LLM_MAX_RESPONSE backend in
    if n <? 0 then fail_with "llm failed"
    else
      agent_log_str (str "answer: ") ;*
      agent_log_str answer ;*
      agent_log_str [10] ;*
      give 0.

Definition parse_uint (s : list Z) : option Z :=
  let s := trim_line s in
  if is_digit (cget s 0) then Some (scan_int 0 s).1 else None.

Definition cmd_session (args : list Z) : prog Z :=
  let args := trim_line args in
  if str_eq args (str "tail") then
    let* '(n, buf) := agent_session_tail 128 in
    if n <? 0 then fail_with "session tail failed"
    else if 128 <=? n then undefined
    else
      agent_log_str (str "[session] tail: ") ;*
      agent_log_str (text_of (take (Z.to_nat n) buf)) ;*
      agent_log_str [10] ;*
      give 0
  else if starts_with args (str "append ") then
    match trim_line (drop 7 args) with
    | [] => fail_with "usage: /session append <text>"
    | text =>
        let* rc := agent_session_append text in
        if rc <? 0 then fail_with "session append failed" else give 0
    end
  else fail_with "usage: /session tail|append <text>".

Definition cmd_compact (args : list Z) : prog Z :=
  let args := trim_line args in
  match (match args with [] => Some 2 | _ => parse_uint args end) with
  | None => fail_with "usage: /compact [keep]"
  | Some keep =>
      let* rc := agent_session_compact keep in
      if rc <? 0 then fail_with "compact failed"
      else if rc =? 0 then agent_log_str (ln "[session] compact: nothing to drop") ;* give 0
      else
        let* '(rc, buf) := agent_session_read 128 0 in
        if rc <? 0 then fail_with "compact read failed"
        else
          let line := before 10 (take (Z.to_nat rc) buf) in
          if 128 <=? zlen line then undefined
          else
            let line := text_of line in
            let body := if starts_with line (str "summary:") then trim_line (drop 8 line) else line in
            agent_log_str (str "[session] summary: ") ;*
            agent_log_str body ;*
            agent_log_str [10] ;*
            give 0
  end.

Definition cmd_steer (args : list Z) : prog Z :=
  let args := trim_line args in
  match parse_uint args with
  | None => fail_with "usage: /steer <agent-id> <msg>"
  | Some dst =>
      match trim_line (scan_int 0 args).2 with
      | [] => fail_with "usage: /steer <agent-id> <msg>"
      | msg =>
          let* rc := agent_send_steering dst msg in
          if rc <? 0 then fail_with "steer failed"
          else
            agent_log_str (str "[console] steer sent to ") ;*
            agent_log_int dst ;*
            agent_log_str [10] ;*
            give 0
      end
  end.

Definition cmd_run (args : list Z) : prog Z :=
  if negb (str_eq (trim_line args) (str "orch")) then fail_with "usage: /run orch"
  else
    let* rc := agent_send_msg 1 MSG_CONSOLE_REQ (str "run:orch") in
    if rc <? 0 then fail_with "orch dispatch failed"
    else agent_log_str (ln "[console] orch dispatch sent") ;* give 0.

Definition cmd_status : prog unit :=
  agent_log_str (str "[status] console phase=") ;*
  let* p := agent_phase in
  agent_log_int p ;*
  agent_log_str (str " self=") ;*
  let* i := agent_self in
  agent_log_int i ;*
  agent_log_str [10].

Definition pack_dispatch (payload : list Z) : prog Z :=
  let* rc := agent_send_msg 1 MSG_CONSOLE_REQ payload in
  if rc <? 0 then fail_with "pack request failed" else agent_yield ;* give 0.

Definition cmd_list : prog Z := agent_log_str (ln "[console] list packages") ;* pack_dispatch (str "list").

(** The path and the name of a package; the name may be missing. *)
Definition load_args (walk : list Z) : list Z * list Z :=
  let path := before 32 walk in
  (path, match trim_line (drop (S (length path)) walk) with [] => str "worker" | name => name end).

Definition cmd_load (args : list Z) : prog Z :=
  match trim_line args with
  | [] => fail_with "usage: /load <path> [name]"
  | walk =>
      let '(path, name) := load_args walk in
      let req := str "load:" ++ take (Z.to_nat (MSG_PAYLOAD_SIZE - 2 - 5)) path in
      if MSG_PAYLOAD_SIZE - 2 <=? zlen req then give (-1)
      else
        let req := req ++ str "|" in
        agent_log_str (str "[console] load ") ;*
        agent_log_str path ;*
        agent_log_str [10] ;*
        pack_dispatch (req ++ take (Z.to_nat (MSG_PAYLOAD_SIZE - 1 - zlen req)) name)
  end.

(** A request to the first agent about a package. *)
Definition pack_request (verb : list Z) (name : list Z) : prog Z :=
  pack_dispatch (verb ++ take (Z.to_nat (MSG_PAYLOAD_SIZE - 1 - zlen verb)) name).

Definition cmd_ota (args : list Z) : prog Z :=
  let args := trim_line args in
  if starts_with args (str "verify ") then
    match trim_line (drop 7 args) with
    | [] => fail_with "usage: /ota verify <pkg>"
    | path => pack_request (str "ota-verify:") path
    end
  else if starts_with args (str "apply ") then
    match trim_line (drop 6 args) with
    | [] => fail_with "usage: /ota apply <pkg>"
    | path => pack_request (str "ota-apply:") path
    end
  else fail_with "usage: /ota verify|apply <pkg>".

Definition cmd_catalog (args : list Z) : prog Z :=
  let args := trim_line args in
  if str_eq args (str "list") || no_args args then pack_dispatch (str "catalog-list")
  else if starts_with args (str "install ") then
    match trim_line (drop 8 args) with
    | [] => fail_with "usage: /catalog install <name>"
    | name => pack_request (str "catalog-install:") name
    end
  else if starts_with args (str "rollback ") then
    match trim_line (drop 9 args) with
    | [] => fail_with "usage: /catalog rollback <name>"
    | name => pack_request (str "catalog-rollback:") name
    end
  else fail_with "usage: /catalog list|install <name>|rollback <name>".

(** A number at the start of [s], or the default. *)
Definition number_or (d : Z) (s : list Z) : Z := if is_digit (cget s 0) then (scan_int 0 s).1 else d.

(** A probe that is expected to be refused with [refusal]. *)
Definition probe_refused (tool : Z) (args : list targ) (refusal : Z) (ok bad : string) : prog Z :=
  let* rc := tool_rc tool args in
  if rc =? refusal then agent_log_str (ln ok) ;* give 0
  else if rc <? 0 then give 0
  else fail_with bad.

Definition cmd_tenant (args : list Z) : prog Z :=
  let args := trim_line args in
  if str_eq args (str "status") || no_args args then
    tool_or TOOL_TENANT [TInt TENANT_CMD_STATUS; TInt 0; TInt 0] "tenant status failed"
  else if starts_with args (str "probe") then
    let target := number_or 1 (trim_line (drop 5 args)) in
    probe_refused TOOL_TENANT [TInt TENANT_CMD_PROBE; TInt target; TInt 0] EPERM "[tenant] isolation ok" "tenant probe unexpected allow"
  else fail_with "usage: /tenant status|probe <agent-id>".

Definition cmd_audit (args : list Z) : prog Z :=
  let args := trim_line args in
  if str_eq args (str "status") || no_args args then
    tool_or TOOL_AUDIT [TInt AUDIT_CMD_STATUS; TInt 0; TInt 0] "audit status failed"
  else if str_eq args (str "tail") then
    tool_or TOOL_AUDIT [TInt AUDIT_CMD_TAIL; TInt AUDIT_TAIL_MAX; TInt 0] "audit tail failed"
  else if starts_with args (str "compact") then
    let keep := number_or 4 (trim_line (drop 7 args)) in
    let keep := if keep <? 1 then 4 else keep in
    tool_or TOOL_AUDIT [TInt AUDIT_CMD_COMPACT; TInt keep; TInt 0] "audit compact failed"
  else if starts_with args (str "probe") then
    let target := number_or 1 (trim_line (drop 5 args)) in
    probe_refused TOOL_AUDIT [TInt AUDIT_CMD_PROBE; TInt target; TInt 0] EPERM "[audit] isolation ok" "audit probe unexpected allow"
  else fail_with "usage: /audit status|tail|compact [n]|probe <agent-id>".

Definition cmd_namespace (args : list Z) : prog Z :=
  let args := trim_line args in
  if str_eq args (str "status") || no_args args then
    tool_or TOOL_NAMESPACE [TInt NS_CMD_STATUS; TInt 0; TInt 0] "namespace status failed"
  else if starts_with args (str "write") then
    match trim_line (drop 5 args) with
    | [] => fail_with "usage: /namespace write <text>"
    | walk => tool_or TOOL_NAMESPACE [TInt NS_CMD_WRITE; TStr walk; TInt 0] "namespace write failed"
    end
  else if starts_with args (str "probe") then
    let target := number_or 1 (trim_line (drop 5 args)) in
    probe_refused TOOL_NAMESPACE [TInt NS_CMD_PROBE; TInt target; TInt 0] EPERM "[namespace] isolation ok" "namespace probe unexpected allow"
  else fail_with "usage: /namespace status|write <text>|probe <agent-id>".

Definition cmd_quota (args : list Z) : prog Z :=
  let args := trim_line args in
  if str_eq args (str "status") || no_args args then
    tool_or TOOL_QUOTA [TInt QUOTA_CMD_STATUS; TInt 0; TInt 0] "quota status failed"
  else if starts_with args (str "burn") then
    let count := number_or 16 (trim_line (drop 4 args)) in
    let count := if count <? 1 then 1 else count in
    tool_or TOOL_QUOTA [TInt QUOTA_CMD_BURN; TInt count; TInt 0] "quota burn failed"
  else if str_eq args (str "probe") then
    probe_refused TOOL_QUOTA [TInt QUOTA_CMD_PROBE; TInt 0; TInt 0] ENOSPC "[quota] limit ok" "quota probe unexpected allow"
  else fail_with "usage: /quota status|burn <n>|probe".

(** A number that is the whole argument. *)
Definition parse_tool_id (s : list Z) : option Z :=
  let s := trim_line s in
  if negb (is_digit (cget s 0)) then None
  else let '(id, rest) := scan_int 0 s in if negb (cget rest 0 =? 0) then None else Some id.

Definition cmd_fleet (args : list Z) : prog Z :=
  let args := trim_line args in
  if str_eq args (str "status") || no_args args then
    tool_or TOOL_FLEET [TInt FLEET_CMD_STATUS; TInt 0; TInt 0] "fleet status failed"
  else if str_eq args (str "push") then
    tool_or TOOL_FLEET [TInt FLEET_CMD_PUSH; TInt 0; TInt 0] "fleet push failed"
  else if starts_with args (str "probe") then
    match trim_line (drop 5 args) with
    | [] => fail_with "usage: /fleet probe <url>"
    | walk => tool_or TOOL_FLEET [TInt FLEET_CMD_PROBE; TStr (take 127 walk); TInt 0] "fleet probe failed"
    end
  else if starts_with args (str "ingest") then
    match trim_line (drop 6 args) with
    | [] => tool_or TOOL_FLEET [TInt FLEET_CMD_INGEST; TInt 0; TInt 0] "fleet ingest failed"
    | walk => tool_or TOOL_FLEET [TInt FLEET_CMD_INGEST; TStr (take 127 walk); TInt 0] "fleet ingest failed"
    end
  else fail_with "usage: /fleet status|push|probe <url>|ingest [url]".

Definition cmd_sandbox (args : list Z) : prog Z :=
  console_puts (ln "[sandbox] agent console cap-ns-quota-policy-net summary") ;*
  tool_rc TOOL_QUOTA [TInt QUOTA_CMD_STATUS; TInt 0; TInt 0] ;*
  tool_rc TOOL_POLICY [TInt POLICY_CMD_STATUS; TInt 0; TInt 0] ;*
  tool_rc TOOL_POLICY [TInt POLICY_CMD_NET_STATUS; TInt 0; TInt 0] ;*
  tool_rc TOOL_NAMESPACE [TInt NS_CMD_STATUS; TInt 0; TInt 0] ;*
  give 0.

(** Host and port; 443 when the text names no port. *)
Definition host_port (walk : list Z) : list Z * Z :=
  let host := take 63 (before (chr ":") (before 32 walk)) in
  let rest := drop (length host) walk in
  (host, if cget rest 0 =? chr ":" then (scan_int 0 (drop 1 rest)).1 else 443).

Definition cmd_policy (args : list Z) : prog Z :=
  let args := trim_line args in
  let with_id rest (usage : string) (k : Z → prog Z) : prog Z :=
    match parse_tool_id rest with None => fail_with usage | Some id => k id end in
  if str_eq args (str "status") || no_args args then
    tool_or TOOL_POLICY [TInt POLICY_CMD_STATUS; TInt 0; TInt 0] "policy status failed"
  else if starts_with args (str "load") then
    match trim_line (drop 4 args) with
    | [] => tool_or TOOL_POLICY [TInt POLICY_CMD_LOAD; TInt 0; TInt 0] "policy load failed"
    | walk => tool_or TOOL_POLICY [TInt POLICY_CMD_LOAD; TStr (take 127 walk); TInt 0] "policy load failed"
    end
  else if starts_with args (str "deny") then
    with_id (drop 4 args) "usage: /policy deny <tool-id>"
      (λ id, tool_or TOOL_POLICY [TInt POLICY_CMD_DENY; TInt id; TInt 0] "policy deny failed")
  else if starts_with args (str "allow") then
    with_id (drop 5 args) "usage: /policy allow <tool-id>"
      (λ id, tool_or TOOL_POLICY [TInt POLICY_CMD_ALLOW; TInt id; TInt 0] "policy allow failed")
  else if starts_with args (str "net allow") then
    let '(host, port) := host_port (trim_line (drop 9 args)) in
    match host with
    | [] => fail_with "usage: /policy net allow <host>[:port]"
    | _ => tool_or TOOL_POLICY [TInt POLICY_CMD_NET_ALLOW; TStr host; TInt port] "policy net allow failed"
    end
  else if str_eq args (str "net restrict") then
    tool_or TOOL_POLICY [TInt POLICY_CMD_NET_RESTRICT; TInt 1; TInt 0] "policy net restrict failed"
  else if str_eq args (str "net status") then
    tool_or TOOL_POLICY [TInt POLICY_CMD_NET_STATUS; TInt 0; TInt 0] "policy net status failed"
  else if starts_with args (str "probe") then
    with_id (drop 5 args) "usage: /policy probe <tool-id>" (λ id,
      let* rc := tool_rc TOOL_POLICY [TInt POLICY_CMD_PROBE; TInt id; TInt 0] in
      if rc =? EPERM then agent_log_str (ln "[policy] deny ok") ;* give 0
      else if rc <? 0 then give 0
      else agent_log_str (ln "[policy] allow ok") ;* give 0)
  else fail_with "usage: /policy status|load [path]|deny|allow|probe <tool-id>".

Definition cmd_remote (args : list Z) : prog Z :=
  let args := trim_line args in
  if str_eq args (str "status") || no_args args then
    tool_or TOOL_REMOTE [TInt REMOTE_CMD_STATUS; TInt 0; TInt 0] "remote status failed"
  else if str_eq args (str "enable") then
    tool_or TOOL_REMOTE [TInt REMOTE_CMD_ENABLE; TInt 0; TInt 0] "remote enable failed"
  else if str_eq args (str "disable") then
    tool_or TOOL_REMOTE [TInt REMOTE_CMD_DISABLE; TInt 0; TInt 0] "remote disable failed"
  else if str_eq args (str "ping") then
    tool_or TOOL_REMOTE [TInt REMOTE_CMD_PING; TInt 0; TInt 0] "remote ping failed"
  else if str_eq args (str "connect") then
    tool_or TOOL_REMOTE [TInt REMOTE_CMD_CONNECT; TInt 0; TInt 0] "remote connect failed"
  else fail_with "usage: /remote status|enable|disable|ping|connect".

Definition cmd_mesh (args : list Z) : prog Z :=
  let args := trim_line args in
  if str_eq args (str "status") || no_args args then
    tool_or TOOL_MESH [TInt MESH_CMD_STATUS; TInt 0; TInt 0] "mesh status failed"
  else if str_eq args (str "beacon") then
    tool_or TOOL_MESH [TInt MESH_CMD_BEACON; TInt 0; TInt 0] "mesh beacon failed"
  else if starts_with args (str "probe") then
    match trim_line (drop 5 args) with
    | [] => fail_with "usage: /mesh probe <service>"
    | walk => tool_or TOOL_MESH [TInt MESH_CMD_PROBE; TStr (take 63 walk); TInt 0] "mesh probe failed"
    end
  else fail_with "usage: /mesh status|beacon|probe <service>".

(** ** Lines *)

(** The lines that end the console: what is logged, and the text of the last message,
    which goes to the first agent either as a message (true) or through the quota tool. *)
Definition quit_lines : list (string * string * bool * string) :=
  [("/quit", "[console] quit", true, "console demo complete");
   ("/quit session", "[console] quit session", true, "console demo session complete");
   ("/quit orch", "[console] quit orch", true, "console demo orch complete");
   ("/quit pack", "[console] quit pack", true, "console demo pack complete");
   ("/quit catalog", "[console] quit catalog", true, "catalog demo complete");
   ("/quit tenant", "[console] quit tenant", true, "console demo tenant complete");
   ("/quit audit", "[console] quit audit", true, "console demo audit complete");
   ("/quit namespace", "[console] quit namespace", true, "console demo namespace complete");
   ("/quit quota", "[console] quit quota", false, "console demo quota complete");
   ("/quit beta", "[console] quit beta", false, "v0.1-beta demo complete");
   ("/quit v7", "[console] quit v7", false, "console demo v7 complete");
   ("/quit rc", "[console] quit rc", false, "v0.2-rc demo complete");
   ("/quit 0.3.0", "[console] quit 0.3.0", false, "0.3.0 demo complete");
   ("/quit 0.4.0", "[console] quit 0.4.0", false, "0.4.0 demo complete");
   ("/quit 0.5.0", "[console] quit 0.5.0", false, "0.5.0 demo complete");
   ("/quit 0.6.0", "[console] quit 0.6.0", false, "0.6.0 demo complete");
   ("/quit 0.6.1", "[console] quit 0.6.1", false, "0.6.1 demo complete");
   ("/quit 0.6.2", "[console] quit 0.6.2", false, "0.6.2 demo complete");
   ("/quit 0.6.3", "[console] quit 0.6.3", false, "0.6.3 demo complete");
   ("/quit 0.6.4", "[console] quit 0.6.4", false, "0.6.4 demo complete");
   ("/quit 0.7.0", "[console] quit 0.7.0", false, "0.7.0 demo complete");
   ("/quit 1.0.0", "[console] quit 1.0.0", false, "1.0.0 demo complete");
   ("/quit box", "[console] quit box", true, "box demo complete")].

Fixpoint find_quit (line : list Z) (l : list (string * string * bool * string)) : option (string * bool * string) :=
  match l with
  | [] => None
  | (s, log, msg, text) :: l' => if str_eq line (str s) then Some (log, msg, text) else find_quit line l'
  end.

Definition quit {A} (log : string) (msg : bool) (text : string) : prog A :=
  agent_log_str (ln log) ;*
  (if msg then agent_send_msg 1 MSG_RESULT (str text)
   else tool_rc TOOL_QUOTA [TInt QUOTA_CMD_NOTIFY; TStr (str text); TInt 0]) ;*
  agent_exit 0.

(** The commands with arguments, in the order of the tests. *)
Definition arg_commands : list (string * (list Z → prog Z)) :=
  [("/run", cmd_run); ("/load", cmd_load); ("/ota", cmd_ota); ("/catalog", cmd_catalog); ("/tenant", cmd_tenant);
   ("/audit", cmd_audit); ("/namespace", cmd_namespace); ("/quota", cmd_quota); ("/fleet", cmd_fleet);
   ("/sandbox", cmd_sandbox); ("/policy", cmd_policy); ("/remote", cmd_remote); ("/mesh", cmd_mesh);
   ("/session", cmd_session); ("/compact", cmd_compact); ("/steer", cmd_steer); ("/echo", cmd_echo); ("/llm", cmd_llm)].

Fixpoint find_command (line : list Z) (l : list (string * (list Z → prog Z))) : option (prog Z) :=
  match l with
  | [] => None
  | (name, cmd) :: l' =>
      if starts_with line (str name) then Some (cmd (drop (String.length name) line)) else find_command line l'
  end.

Definition handle_line (line : list Z) : prog Z :=
  let line := trim_line line in
  if no_args line then give 0
  else if str_eq line (str "/help") || starts_with line (str "/help ") then cmd_help ;* give 0
  else if str_eq line (str "/agents") then cmd_agents ;* give 0
  else match find_quit line quit_lines with
       | Some (log, msg, text) => quit log msg text
       | None =>
           if str_eq line (str "/list") then cmd_list
           else if str_eq line (str "/status") then cmd_status ;* give 0
           else match find_command line arg_commands with
                | Some cmd => cmd
                | None => fail_with "unknown command; try /help"
                end
       end.

(** One round of the loop. *)
Definition console_round (_ : unit) : prog (unit + Empty_set) :=
  let* '(n, line) := console_getline CONSOLE_MAX_LINE in
  if n <? 0 then give (inl tt) else handle_line line ;* console_prompt ;* give (inl tt).

Definition console_agent_main : prog Empty_set :=
  ready (str "console") CONSOLE_AGENT_ID ;*
  console_boot_barrier ;*
  ITree.iter console_round tt.
