(* ===== verification/Pipelines.v ===== *)
(** * The desktop shell and the orchestrator (user/shell_svc.c, user/orch_pipeline.c)

    The launcher of the desktop image, and the pipeline of a planner and two workers that
    the first agent starts on request. *)

From ITree Require Import Core.ITreeDefinition.
From S2P Require Import Prelude Abi Ipc Kernel LibAgent AgentSvc ServiceAgents.

(** ** The shell *)

Module shell.

Definition key_is_launch (code : Z) : bool := (code =? 2) || (code =? 79) || (code =? 49).

Definition draw_launcher : prog unit :=
  let* rc := agent_svc_display (str "AgentOS v5.4 Desktop") 8 8 in
  if rc <? 0 then give tt
  else
    agent_svc_display (str "Apps:") 8 24 ;*
    agent_svc_display (str "[1] worker.agent") 8 40 ;*
    agent_svc_display (str "Press 1 to launch") 8 56 ;*
    give tt.

(** At most [loops] polls; the last key. *)
Fixpoint wait_launch (loops : nat) (key : Z) : prog Z :=
  match loops with
  | O => give key
  | S loops' =>
      if key_is_launch key then give key
      else
        let* key := agent_svc_input_poll in
        if key_is_launch key then give key else agent_yield ;* wait_launch loops' key
  end.

Definition run_desktop_shell : prog Z :=
  draw_launcher ;*
  agent_log_str (str "[shell] desktop launcher ready" ++ [10]) ;*
  let* key := wait_launch (Z.to_nat 12000) 0 in
  if negb (key_is_launch key) then
    agent_log_str (str "[shell] input timeout waiting for launch key" ++ [10]) ;* give (-1)
  else
    agent_log_str (str "[shell] launch key ok code=") ;*
    agent_log_int key ;*
    agent_log_str [10] ;*
    let* rc := agent_send_msg 1 MSG_SHELL_REQ (str "load:worker") in
    if rc <? 0 then agent_log_str (str "[shell] load request failed" ++ [10]) ;* give (-1)
    else
      agent_yield ;*
      let* r := agent_recv_msg in
      if negb (mtype r.2 =? MSG_SHELL_RSP) || negb (str_eq (text_of (payload r.2)) (str "load ok")) then
        agent_log_str (str "[shell] unexpected load response" ++ [10]) ;* give (-1)
      else
        agent_svc_display (str "worker launched sum=42") 8 72 ;*
        agent_log_str (str "[shell] desktop demo complete" ++ [10]) ;*
        let* rc := agent_send_msg 1 MSG_RESULT (str "desktop demo complete") in
        if rc <? 0 then give (-1) else give 0.

Definition shell_agent_main : prog Empty_set :=
  ready (str "shell") SHELL_AGENT_ID ;*
  let* rc := run_desktop_shell in
  (if rc <? 0 then agent_exit 1 else give tt) ;*
  agent_exit 0.

End shell.

(** ** The orchestrator *)

Module orch.

(** The agents that are started by their entry points. *)
Definition worker_entry : Z := 1.
Definition llm_worker_entry : Z := 2.
Definition planner_entry : Z := 3.

Definition LLM_MAX_PROMPT : Z := 256.

(** [src] after the string [dst] in an array of [maxlen] characters. *)
Definition str_cat (dst src : list Z) (maxlen : Z) : list Z := dst ++ take (Z.to_nat (maxlen - 1 - zlen dst)) src.

Definition log3 (a b : list Z) : prog unit := agent_log_str a ;* agent_log_str b ;* agent_log_str [10].

Definition worker_agent : prog Empty_set :=
  agent_log_str (str "[worker] started" ++ [10]) ;*
  let* r := agent_recv_msg in
  log3 (str "[worker] task: ") (text_of (payload r.2)) ;*
  let* sum := agent_add 17 25 in
  agent_log_str (str "[worker] sum=") ;*
  agent_log_int sum ;*
  agent_log_str [10] ;*
  let* '(rc, version) := agent_svc_read (str "/sys/version") 64 in
  if rc <? 0 then agent_log_str (str "[worker] svc_read failed" ++ [10]) ;* agent_exit 1
  else
    log3 (str "[worker] version: ") version ;*
    let result := str_cat [] (str "sum=") MSG_PAYLOAD_SIZE in
    let result := result ++ int_to_str sum in
    let result := str_cat result (str ";version=") MSG_PAYLOAD_SIZE in
    let result := str_cat result version MSG_PAYLOAD_SIZE in
    let* planner := load planner_id in
    agent_send_msg planner MSG_RESULT result ;*
    agent_log_str (str "[worker] done" ++ [10]) ;*
    agent_exit 0.

Definition llm_worker_agent : prog Empty_set :=
  agent_log_str (str "[llm-worker] started" ++ [10]) ;*
  let* r := agent_recv_msg in
  let task := text_of (payload r.2) in
  log3 (str "[llm-worker] task: ") task ;*
  let prompt := str_cat [] (str "Summarize in one short sentence: ") LLM_MAX_PROMPT in
  let prompt := str_cat prompt task LLM_MAX_PROMPT in
  agent_log_str (str "[llm-worker] querying LLM..." ++ [10]) ;*
  let* '(n, response) := agent_llm prompt LLM_MAX_RESPONSE in
  if n <? 0 then agent_log_str (str "[llm-worker] query failed" ++ [10]) ;* agent_exit 1
  else
    log3 (str "[llm-worker] summary: ") (text_of response) ;*
    let* planner := load planner_id in
    agent_send_msg planner MSG_RESULT (text_of response) ;*
    agent_log_str (str "[llm-worker] done" ++ [10]) ;*
    agent_exit 0.

Definition worker_caps : Z := foldr Z.lor 0 [CAP_LOG; CAP_MATH; CAP_SEND; CAP_RECV].
Definition llm_worker_caps : Z := foldr Z.lor 0 [CAP_LOG; CAP_LLM; CAP_SEND; CAP_RECV].
Definition planner_caps : Z := foldr Z.lor 0 [CAP_LOG; CAP_SPAWN; CAP_SEND; CAP_RECV].

Definition planner_agent : prog Empty_set :=
  let* me := agent_self in
  store (set_planner_id me) ;*
  agent_log_str (str "[planner] started id=") ;*
  let* me := load planner_id in
  agent_log_int me ;*
  agent_log_str [10] ;*
  let* w := agent_spawn worker_entry (str "worker") worker_caps in
  store (set_worker_id w) ;*
  let* l := agent_spawn llm_worker_entry (str "llm-worker") llm_worker_caps in
  store (set_llm_worker_id l) ;*
  agent_log_str (str "[planner] spawned worker=") ;*
  let* w := load worker_id in
  agent_log_int w ;*
  agent_log_str (str " llm-worker=") ;*
  let* l := load llm_worker_id in
  agent_log_int l ;*
  agent_log_str [10] ;*
  let* w := load worker_id in
  agent_send_msg w MSG_TASK (str "compute:17+25") ;*
  agent_log_str (str "[planner] dispatched worker task" ++ [10]) ;*
  let* r := agent_recv_msg in
  log3 (str "[planner] worker result: ") (text_of (payload r.2)) ;*
  let* l := load llm_worker_id in
  agent_send_msg l MSG_TASK (text_of (payload r.2)) ;*
  agent_log_str (str "[planner] dispatched llm task" ++ [10]) ;*
  let* r := agent_recv_msg in
  log3 (str "[planner] llm summary: ") (text_of (payload r.2)) ;*
  agent_send_msg 1 MSG_PIPELINE_DONE (str "orchestrator-complete") ;*
  agent_log_str (str "[planner] orchestrator complete" ++ [10]) ;*
  agent_exit 0.

Definition orch_run_pipeline : prog Z :=
  let* pid := agent_spawn planner_entry (str "planner") planner_caps in
  if pid <? 0 then give (-1)
  else
    agent_log_str (str "[orch] spawned planner id=") ;*
    agent_log_int pid ;*
    agent_log_str [10] ;*
    let* m := ITree.iter (λ _ : unit,
      let* r := agent_recv_msg in
      give (if mtype r.2 =? MSG_PIPELINE_DONE then inr r.2 else inl tt)) tt in
    log3 (str "[orch] pipeline finished: ") (text_of (payload m)) ;*
    give 0.

End orch.
