(* ===== verification/Effects.v ===== *)
(** * What a program may do

    [only P t]: whatever its calls return, the program [t] makes only calls that
    satisfy [P].  It is defined on the first [n] steps for every [n], is closed under
    sequencing and loops, and bounds what the program does in every world.  The effects
    of the service agents and of the console are stated with it, call by call. *)

From ITree Require Import Core.ITreeDefinition.
From S2P Require Import Prelude Abi Ipc Ramfs Persist AgentDef Vm Kernel Agent Tool LibAgent AgentSvc ServiceAgents ConsoleSvc Pipelines.

Section only.
Context (P : ∀ A, sysE A → Prop).

Fixpoint onlyn {R} (n : nat) (t : prog R) : Prop :=
  match n with
  | O => True
  | S n' =>
      match observe t with
      | RetF _ => True
      | TauF t' => onlyn n' t'
      | VisF e k => P _ e ∧ ∀ x, onlyn n' (k x)
      end
  end.

Definition only {R} (t : prog R) : Prop := ∀ n, onlyn n t.

Lemma onlyn_S {R} n (t : prog R) : onlyn (S n) t → onlyn n t.
Proof.
  revert t. induction n as [|n IH]; intros t; [done|]. cbn. destruct (observe t) as [r|t'|X e k]; [done|apply IH|].
  intros [He Hk]. split; [done|]. intros x. apply IH, Hk.
Qed.

Lemma onlyn_bind {R T} n (t : prog R) (h : R → prog T) : onlyn n t → (∀ x, onlyn n (h x)) → onlyn n (ITree.bind t h).
Proof.
  revert t h. induction n as [|n IH]; intros t h Ht Hh; [done|]. cbn [onlyn] in *. rewrite observe_bind.
  destruct (observe t) as [r|t'|X e k]; [apply Hh|apply IH; [done|]; intros x; apply onlyn_S, Hh|].
  destruct Ht as [He Hk]. split; [done|]. intros x. apply IH; [done|]. intros y. apply onlyn_S, Hh.
Qed.

Lemma only_bind {R T} (t : prog R) (h : R → prog T) : only t → (∀ x, only (h x)) → only (ITree.bind t h).
Proof. intros Ht Hh n. apply onlyn_bind; [done|]. intros x. apply Hh. Qed.

Lemma only_give {R} (r : R) : only (give r).
Proof. by intros [|n]. Qed.

Lemma only_call {A} (e : sysE A) : P _ e → only (call e).
Proof. intros He [|n]; [done|]. cbn. split; [done|]. intros x. by destruct n. Qed.

Lemma only_iter {I R} (body : I → prog (I + R)) i : (∀ i, only (body i)) → only (ITree.iter body i).
Proof.
  intros Hb n. revert i. induction n as [|n IH]; intros i; [done|].
  assert (onlyn (S n) (ITree.bind (body i) (λ lr, match lr with inl l => Tau (ITree.iter body l) | inr r => give r end))) as Hn.
  { apply onlyn_bind; [apply Hb|]. intros [l|r]; [apply IH|done]. }
  cbn [onlyn] in *. by rewrite observe_iter.
Qed.

Lemma only_empty {R} (t : prog Empty_set) (h : Empty_set → prog R) : only t → only (ITree.bind t h).
Proof. intros Ht. apply only_bind; [done|]. by intros []. Qed.

(** What holds of a program holds of all it does, in every world. *)
Lemma only_steps {R W} `{World W} self (t : prog R) w A (e : sysE A) k w' :
  only t → steps self (observe t, w) (VisF e k, w') → P _ e.
Proof.
  intros Ht Hs.
  assert (∀ n, onlyn n (go (observe t))) as Hg by (intros [|n]; [done|]; apply (Ht (S n))).
  clear Ht. revert Hs Hg. generalize (observe t). intros c Hs Hc. remember (c, w) as x eqn:Ex. remember (VisF e k, w') as y eqn:Ey.
  revert c w Ex Hc. induction Hs as [x|x [c1 w1] y E Hs IH]; intros c w Ex Hc; subst.
  - simplify_eq. apply (Hc 1%nat).
  - apply (IH eq_refl c1 w1 eq_refl). intros n. specialize (Hc (S n)). cbn in Hc. unfold step in E. cbn [fst snd] in E.
    destruct c as [r|t'|X e' k']; [done| |].
    + injection E as <- <-. destruct n; [done|]. exact Hc.
    + destruct (respond self e' w) as [[x w2]|]; [|done]. injection E as <- <-. destruct Hc as [_ Hk]. specialize (Hk x). by destruct n.
Qed.

End only.

(** ** Signatures *)

(** The tools that a program may use, the messages that it may send (receiver, [None] for
    any, and type), whether it may ask the model and whether it may create agents. *)
Record signature := mk_sig { sg_tools : list Z; sg_sends : list (option Z * Z); sg_llm : bool; sg_spawn : bool }.

(** No signature allows an agent to be loaded, the disk to be written or an inbox to be
    compacted. *)
Definition may (g : signature) (A : Type) (e : sysE A) : Prop :=
  match e with
  | SysTool tool _ => tool ∈ sg_tools g
  | SysSend dst type _ => (Some dst, type) ∈ sg_sends g ∨ (None, type) ∈ sg_sends g
  | SysLlm _ _ => sg_llm g = true
  | SysCreate _ _ _ => sg_spawn g = true
  | SysLoad _ _ _ | SysSync | SysCompact _ => False
  | _ => True
  end.

Section library.
Context (g : signature).
Abbreviation only := (only (may g)).

Lemma only_undefined {A} : only (undefined : prog A).
Proof. apply only_empty. by apply only_call. Qed.

Lemma only_exit {A} code : only (agent_exit code : prog A).
Proof. apply only_empty. by apply only_call. Qed.

Lemma only_recv : only agent_recv_msg.
Proof.
  apply only_iter. intros i. apply only_bind; [by apply only_call|]. intros r. case_test; [|apply only_give].
  apply only_bind; [by apply only_call|]. intros x. apply only_give.
Qed.

Lemma only_log s : only (agent_log_str s).
Proof. by apply only_call. Qed.

Lemma only_log_int n : only (agent_log_int n).
Proof.
  assert (∀ l, only (log_chars l)) as Hl.
  { induction l as [|c l IH]; [apply only_give|]. apply only_bind; [apply only_log|done]. }
  apply only_bind; [case_test; [apply only_log|apply only_give]|]. intros _. cbv zeta. case_test; [apply only_log|apply Hl].
Qed.

Lemma only_send dst type text : (Some dst, type) ∈ sg_sends g ∨ (None, type) ∈ sg_sends g → only (agent_send_msg dst type text).
Proof. intros Hs. by apply only_call. Qed.

Lemma only_tool_rc tool args : tool ∈ sg_tools g → only (tool_rc tool args).
Proof. intros Ht. apply only_bind; [by apply only_call|]. intros r. apply only_give. Qed.

End library.

Create HintDb effects.
#[export] Hint Resolve only_give only_call only_undefined only_exit only_recv only_log only_log_int only_send only_tool_rc : effects.

(** The structure of a program; what it is built from is left to the database. *)
Ltac effects :=
  repeat match goal with
  | |- ∀ _, _ => intros ?
  | |- only _ (ITree.bind _ _) => apply only_bind
  | |- only _ (ITree.iter _ _) => apply only_iter
  | |- only _ (match ?x with _ => _ end) => destruct x
  | |- only _ (let '(_, _) := ?x in _) => destruct x
  | |- only _ _ => solve [eauto with effects]
  end.

(** ** Clients of the services *)

Section clients.
Context (g : signature).
Abbreviation only := (only (may g)).

Lemma only_next_id seq ss sp : only (next_id seq ss sp).
Proof. unfold next_id, load, store. effects; by apply only_call. Qed.

Lemma only_await ty match_id pending : only (await_reply ty match_id pending).
Proof.
  unfold await_reply, svc_recv_match, recv_match_body, next_message, defer, load, store, agent_yield.
  effects; try (by apply only_call).
Qed.

Lemma only_display text x y : (Some DISPLAY_AGENT_ID, MSG_DISPLAY_REQ) ∈ sg_sends g → only (agent_svc_display text x y).
Proof. intros Hg. unfold agent_svc_display. pose proof only_next_id. pose proof only_await. effects. Qed.

Lemma only_poll : (Some INPUT_AGENT_ID, MSG_INPUT_REQ) ∈ sg_sends g → only agent_svc_input_poll.
Proof. intros Hg. unfold agent_svc_input_poll. pose proof only_next_id. pose proof only_await. effects. Qed.

Lemma only_svc_read path len : (Some STORAGE_AGENT_ID, MSG_FS_READ) ∈ sg_sends g → only (agent_svc_read path len).
Proof. intros Hg. unfold agent_svc_read, store_body. pose proof only_next_id. pose proof only_await. effects. Qed.

End clients.
#[export] Hint Resolve only_next_id only_await only_display only_poll only_svc_read : effects.

(** ** The agents *)

Definition storage_sig : signature := mk_sig [TOOL_READ; TOOL_WRITE] [(None, MSG_FS_RSP)] false false.
Definition router_sig : signature := mk_sig [] [(None, MSG_LLM_RSP)] true false.
Definition network_sig : signature := mk_sig [TOOL_HTTP] [(None, MSG_HTTP_RSP)] false false.
Definition network_prod_sig : signature := mk_sig [TOOL_HTTP; TOOL_READ; TOOL_WRITE] [(None, MSG_HTTP_RSP)] false false.
Definition display_sig : signature := mk_sig [TOOL_DISPLAY] [(None, MSG_DISPLAY_RSP)] false false.
Definition input_sig : signature := mk_sig [TOOL_INPUT] [(None, MSG_INPUT_RSP)] false false.

Definition console_tools : list Z :=
  [TOOL_CONSOLE; TOOL_SESSION_TAIL; TOOL_SESSION_APPEND; TOOL_SESSION_COMPACT; TOOL_SESSION_READ; TOOL_TENANT; TOOL_AUDIT;
   TOOL_NAMESPACE; TOOL_QUOTA; TOOL_FLEET; TOOL_POLICY; TOOL_REMOTE; TOOL_MESH].

(** To the first agent, to the display and the router, and steering to any agent. *)
Definition console_sig : signature :=
  mk_sig console_tools [(Some 1, MSG_CONSOLE_REQ); (Some 1, MSG_RESULT); (Some DISPLAY_AGENT_ID, MSG_DISPLAY_REQ);
                        (Some ROUTER_AGENT_ID, MSG_LLM_REQ); (None, MSG_STEER)] false false.

Ltac in_sig := (left; cbn; set_solver) || (right; cbn; set_solver) || (cbn; set_solver) || done.
#[local] Hint Extern 2 (_ ∈ sg_tools _) => (cbn; set_solver) : effects.
#[local] Hint Extern 2 (_ ∈ sg_sends _) => (cbn; set_solver) : effects.
#[local] Hint Extern 2 (_ ∨ _) => in_sig : effects.
#[local] Hint Extern 2 (may _ _ _) => in_sig : effects.

Section loops.
Context (g : signature).

Lemma only_serve {S} banner name (handle : agent_msg → S → prog S) s :
  only (may g) banner → (∀ m s, only (may g) (handle m s)) → only (may g) (serve banner name handle s).
Proof. intros Hb Hh. unfold serve, serve_loop. effects. Qed.

Lemma only_ready name id : only (may g) (ready name id).
Proof. unfold ready. effects. Qed.

End loops.
#[local] Hint Resolve only_ready : effects.

Lemma storage_effects : only (may storage_sig) storage.storage_agent_main.
Proof.
  assert (∀ s id body, only (may storage_sig) (storage.storage_reply s id body)) as Hr by (intros; unfold storage.storage_reply; effects).
  apply only_serve; [effects|]. intros m s. unfold storage.storage_handle, storage.handle_read, storage.handle_write, agent_read_file, agent_write_file.
  effects.
Qed.

Lemma router_effects : only (may router_sig) router.router_agent_main.
Proof.
  assert (∀ s id body, only (may router_sig) (router.router_reply s id body)) as Hr by (intros; unfold router.router_reply; effects).
  apply only_serve; [effects|]. intros m s. unfold router.router_handle, agent_llm. effects.
Qed.

Lemma only_net_reply g s id body : (None, MSG_HTTP_RSP) ∈ sg_sends g → only (may g) (network.network_reply s id body).
Proof. intros Hg. unfold network.network_reply. effects. Qed.

Lemma only_fetch_live g url : TOOL_HTTP ∈ sg_tools g → only (may g) (network.fetch_live url).
Proof. intros Hg. unfold network.fetch_live, agent_http. effects. Qed.

Lemma only_log_request g backend id : only (may g) (network.log_request backend id).
Proof. unfold network.log_request. effects. Qed.
#[local] Hint Resolve only_net_reply only_fetch_live only_log_request : effects.

Lemma network_effects : only (may network_sig) network.network_agent_main.
Proof. apply only_serve; [effects|]. intros m s. unfold network.network_handle. effects. Qed.

Lemma network_prod_effects : only (may network_prod_sig) network_prod.network_prod_agent_main.
Proof.
  apply only_serve; [unfold network_prod.seed_offline_cache, agent_write_file; effects|]. intros m s.
  unfold network_prod.prod_handle, network_prod.dispatch_http, network_prod.handle_prod, network_prod.cache_read, network_prod.cache_write, agent_read_file, agent_write_file.
  effects.
Qed.

Lemma display_effects : only (may display_sig) display.display_agent_main.
Proof.
  assert (∀ s id body, only (may display_sig) (display.display_reply s id body)) as Hr by (intros; unfold display.display_reply; effects).
  apply only_serve; [effects|]. intros m s. unfold display.display_handle, display.display_text_at, display.display_clear. effects.
Qed.

Lemma input_effects : only (may input_sig) input.input_agent_main.
Proof. apply only_serve; [effects|]. intros m s. unfold input.input_handle. effects. Qed.

(** ** The console *)

Section console.
Abbreviation only := (only (may console_sig)).

Lemma only_puts s : only (console_puts s).
Proof. unfold console_puts. effects. Qed.
Hint Resolve only_puts : effects.

Lemma only_prompt : only console_prompt.
Proof. unfold console_prompt. effects. Qed.
Hint Resolve only_prompt : effects.

Lemma only_fail s : only (fail_with s).
Proof. unfold fail_with. effects. Qed.
Hint Resolve only_fail : effects.

Lemma only_tool_or tool args s : tool ∈ console_tools → only (tool_or tool args s).
Proof. intros Ht. unfold tool_or. effects. Qed.
Hint Resolve only_tool_or : effects.

Lemma only_probe tool args refusal ok bad : tool ∈ console_tools → only (probe_refused tool args refusal ok bad).
Proof. intros Ht. unfold probe_refused. effects. Qed.
Hint Resolve only_probe : effects.

Lemma only_pack_dispatch text : only (pack_dispatch text).
Proof. unfold pack_dispatch, agent_yield. effects. Qed.
Hint Resolve only_pack_dispatch : effects.
Hint Extern 2 (_ ∈ console_tools) => (unfold console_tools; set_solver) : effects.

Lemma getline_effects len : only (console_getline len).
Proof. unfold console_getline, getline_body, console_read_char, agent_yield. effects. Qed.

Lemma command_effects line cmd : find_command line arg_commands = Some cmd → only cmd.
Proof.
  enough (Forall (λ c, ∀ args, only (c.2 args)) arg_commands) as Hall.
  { clear -Hall. induction Hall as [|[name c] l Hc _ IH]; cbn; [done|]. case_test; [|done]. intros [= <-]. apply Hc. }
  repeat constructor; cbn [snd]; intros args.
  - unfold cmd_run. effects.
  - unfold cmd_load. effects.
  - unfold cmd_ota, pack_request. effects.
  - unfold cmd_catalog, pack_request. effects.
  - unfold cmd_tenant. effects.
  - unfold cmd_audit. effects.
  - unfold cmd_namespace. effects.
  - unfold cmd_quota. effects.
  - unfold cmd_fleet. effects.
  - unfold cmd_sandbox. effects.
  - unfold cmd_policy. effects.
  - unfold cmd_remote. effects.
  - unfold cmd_mesh. effects.
  - unfold cmd_session, agent_session_tail, agent_session_append. effects.
  - unfold cmd_compact, agent_session_compact, agent_session_read. effects.
  - unfold cmd_steer, agent_send_steering. effects.
  - unfold cmd_echo. effects.
  - unfold cmd_llm, agent_svc_llm, store_body. effects.
Qed.

Lemma handle_line_effects line : only (handle_line line).
Proof.
  assert (∀ l, only (puts_lines l)) as Hl by (induction l; cbn [puts_lines]; effects).
  assert (∀ log msg text, only (quit log msg text : prog Z)) as Hq by (intros; unfold quit; effects).
  unfold handle_line, cmd_help, cmd_agents, cmd_list, cmd_status, agent_phase, agent_self.
  destruct (find_command (trim_line line) arg_commands) as [cmd|] eqn:E; [apply command_effects in E|]; effects.
Qed.
Hint Resolve handle_line_effects getline_effects : effects.

Lemma console_effects : only console_agent_main.
Proof.
  assert (∀ n, only (yields n)) as Hy by (induction n; cbn [yields]; unfold agent_yield; effects).
  unfold console_agent_main, console_boot_barrier, console_round. effects.
Qed.

End console.

(** ** The shell and the orchestrator *)

Definition shell_sig : signature :=
  mk_sig [] [(Some DISPLAY_AGENT_ID, MSG_DISPLAY_REQ); (Some INPUT_AGENT_ID, MSG_INPUT_REQ); (Some 1, MSG_SHELL_REQ); (Some 1, MSG_RESULT)] false false.

Lemma shell_effects : only (may shell_sig) shell.shell_agent_main.
Proof.
  assert (∀ n key, only (may shell_sig) (shell.wait_launch n key)) as Hw.
  { induction n as [|n IH]; intros key; cbn [shell.wait_launch]; unfold agent_yield; effects. }
  unfold shell.shell_agent_main, shell.run_desktop_shell, shell.draw_launcher, agent_yield. effects.
Qed.

(** A worker computes, reads through the storage service and reports; the other asks the
    model; the planner starts them and gives them work. *)
Definition worker_sig : signature := mk_sig [TOOL_ADD] [(Some STORAGE_AGENT_ID, MSG_FS_READ); (None, MSG_RESULT)] false false.
Definition llm_worker_sig : signature := mk_sig [] [(None, MSG_RESULT)] true false.
Definition planner_sig : signature := mk_sig [] [(None, MSG_TASK); (Some 1, MSG_PIPELINE_DONE)] false true.

Lemma worker_effects : only (may worker_sig) orch.worker_agent.
Proof. unfold orch.worker_agent, orch.log3, agent_add, load. effects. Qed.

Lemma llm_worker_effects : only (may llm_worker_sig) orch.llm_worker_agent.
Proof. unfold orch.llm_worker_agent, orch.log3, agent_llm, load. effects. Qed.

Lemma planner_effects : only (may planner_sig) orch.planner_agent.
Proof. unfold orch.planner_agent, orch.log3, agent_spawn, agent_self, load, store. effects. Qed.

(** ** Capabilities *)

(** The tools of the gateway with their capabilities, as [tool_table] has them. *)
Definition tool_caps : list (Z * Z) :=
  [(TOOL_LOG, CAP_LOG); (TOOL_ADD, CAP_MATH); (TOOL_TIME, CAP_TIME); (TOOL_READ, CAP_FS); (TOOL_WRITE, CAP_FS); (TOOL_LLM, CAP_LLM);
   (TOOL_SESSION_APPEND, CAP_LOG); (TOOL_SESSION_TAIL, CAP_LOG); (TOOL_SESSION_READ, CAP_LOG); (TOOL_SESSION_COMPACT, CAP_LOG);
   (TOOL_GPIO, CAP_GPIO); (TOOL_HTTP, CAP_NET); (TOOL_DISPLAY, CAP_DISPLAY); (TOOL_INPUT, CAP_INPUT); (TOOL_CONSOLE, CAP_SVC_CONSOLE);
   (TOOL_SMP, CAP_LOG); (TOOL_OTA, CAP_FS); (TOOL_CATALOG, CAP_FS); (TOOL_TENANT, CAP_LOG); (TOOL_AUDIT, CAP_LOG);
   (TOOL_NAMESPACE, CAP_LOG); (TOOL_QUOTA, CAP_LOG); (TOOL_FLEET, CAP_LOG); (TOOL_POLICY, CAP_LOG); (TOOL_REMOTE, CAP_LOG); (TOOL_MESH, CAP_LOG)].

Lemma tool_caps_table {D} `{BlockDevice D} `{!Devices D} {L : Layout} hart :
  (λ e, (te_tool e, te_cap e)) <$> tool_table hart = tool_caps.
Proof. reflexivity. Qed.

Definition cap_of_tool (tool : Z) : option Z := snd <$> find (λ p, p.1 =? tool) tool_caps.

(** The kernel grants the call to an agent with the capabilities [cs]: the test that
    precedes it in the kernel succeeds. *)
Definition permitted (cs : Z) (A : Type) (e : sysE A) : Prop :=
  match e with
  | SysCreate _ _ _ | SysLoad _ _ _ => has CAP_SPAWN cs = true
  | SysSend _ _ _ => has CAP_SEND cs = true
  | SysRecv | SysCompact _ => has CAP_RECV cs = true
  | SysWrite _ => has CAP_LOG cs = true
  | SysTool tool _ => ∃ cap, cap_of_tool tool = Some cap ∧ has cap cs = true
  | SysLlm _ _ => has CAP_LLM cs = true
  | _ => True
  end.

(** The capabilities that a signature needs. *)
Definition sig_granted (g : signature) (cs : Z) : bool :=
  forallb (λ tool, match cap_of_tool tool with Some cap => has cap cs | None => false end) (sg_tools g)
  && has CAP_SEND cs && has CAP_RECV cs && has CAP_LOG cs && implb (sg_llm g) (has CAP_LLM cs) && implb (sg_spawn g) (has CAP_SPAWN cs).

Lemma only_mono (P Q : ∀ A, sysE A → Prop) {R} (t : prog R) : (∀ A e, P A e → Q A e) → only P t → only Q t.
Proof.
  intros HPQ Ht n. specialize (Ht n). revert t Ht. induction n as [|n IH]; intros t; [done|]. cbn.
  destruct (observe t) as [r|t'|X e k]; [done|apply IH|]. intros [He Hk]. split; [by apply HPQ|]. intros x. by apply IH.
Qed.

Lemma sig_permits g cs A (e : sysE A) : sig_granted g cs = true → may g A e → permitted cs A e.
Proof.
  unfold sig_granted. rewrite !andb_true_iff, !implb_true_iff, forallb_forall. intros [[[[[Ht Hs] Hr] Hl] Hm] Hp].
  destruct e; cbn [may permitted]; auto. intros Hin.
  apply list_elem_of_In, Ht in Hin. destruct (cap_of_tool tool) as [cap|]; [|done]. exists cap. split; [done|exact Hin].
Qed.

Lemma granted_permitted g cs {R} (t : prog R) : only (may g) t → sig_granted g cs = true → only (permitted cs) t.
Proof. intros Ht Hg. eapply only_mono; [|exact Ht]. intros A e. by apply sig_permits. Qed.
