(* ===== verification/BootImages.v ===== *)
(** * The boot images (kernel/kernel*.c)

    Every image has a [kmain] of its own: a sequence of initialisations, the services
    that the image starts, the first agent, and the hand-over to the scheduler.  Here
    each is the list of its statements.  Messages (kprintf, uart_puts, and those that
    report that a device is missing) are left out, and so is the title of the banner.
    An image whose first agent is a macro has the macro's default. *)

From S2P Require Import Prelude Abi LibAgent.

(** The initialisations. *)
Inductive init_call :=
  | SmpBoot | BootBanner | TrapInit | MemInit | VmInit | SmpIpiInit | PersistInit | RamfsInit | PersistLoad | ToolInit | AgentInit
  | GpuInit | InputInit | NetstackInit | VirtioNetInit | TenantInit | AuditInit | NamespaceInit | QuotaInit | FleetInit | PolicyInit
  | RemoteInit | MeshInit | OtaInit | CatalogInit | SmpWakeHarts | SmpBspRelease | PlatformInit | UartInit | PrintBanner | KernelHalt.

#[export] Instance init_call_eq : EqDecision init_call.
Proof. solve_decision. Defined.

(** The statements of a [kmain]; slots are indices of the table of agents, entries the
    names of the functions that the agents run. *)
Inductive boot_op :=
  | Init (c : init_call)
  | SetId (slot id : Z)
  | StartService (slot : Z) (entry name : string) (cs : list Z)
  | StartKernel (slot : Z) (entry : string)
  | SetCaps (slot : Z) (cs : list Z)
  | PutFile (path text : string)
  | PutGpu
  | WriteSecret (id : Z) (text : string)
  | WaitHarts (n : Z)
  | RequireHarts (n : Z)
  | RunFirst (slot : Z).

#[export] Instance boot_op_eq : EqDecision boot_op.
Proof. solve_decision. Defined.

Abbreviation image := (list boot_op).

Definition kmain : image :=
  [Init SmpBoot; Init BootBanner; Init TrapInit; Init MemInit; Init VmInit; Init RamfsInit; Init ToolInit; Init AgentInit; SetId 1 1;
   StartKernel 1 "init_agent"; RunFirst 1].

Definition kmain_bench_ipc : image :=
  [Init SmpBoot; Init BootBanner; Init TrapInit; Init MemInit; Init VmInit; Init RamfsInit; Init ToolInit; Init AgentInit; SetId 2 2;
   StartService 2 "ping_agent_main" "ping" [CAP_LOG; CAP_SEND; CAP_RECV]; SetId 1 1; StartKernel 1 "init_bench_ipc_agent";
   SetCaps 1 [CAP_LOG; CAP_MATH; CAP_SPAWN; CAP_SEND; CAP_RECV; CAP_TIME]; RunFirst 1].

Definition kmain_box : image :=
  [Init SmpBoot; Init BootBanner; Init TrapInit; Init MemInit; Init VmInit; Init RamfsInit; PutFile "/sys/headless" "1"; PutFile "/sys/gpu" "0";
   Init ToolInit; Init AgentInit; SetId CONSOLE_AGENT_ID CONSOLE_AGENT_ID;
   StartService CONSOLE_AGENT_ID "console_agent_main" "console" [CAP_LOG; CAP_SVC_CONSOLE; CAP_SEND; CAP_RECV]; SetId 1 1;
   StartKernel 1 "init_console_pack_agent"; SetCaps 1 [CAP_LOG; CAP_MATH; CAP_SPAWN; CAP_SEND; CAP_RECV; CAP_FS; CAP_TIME]; RunFirst 1].

Definition kmain_catalog : image :=
  [Init SmpBoot; Init BootBanner; Init TrapInit; Init MemInit; Init VmInit; Init RamfsInit; Init GpuInit; Init InputInit; Init OtaInit;
   Init CatalogInit; Init ToolInit; Init AgentInit; SetId DISPLAY_AGENT_ID DISPLAY_AGENT_ID;
   StartService DISPLAY_AGENT_ID "display_agent_main" "display" [CAP_LOG; CAP_SVC_DISPLAY; CAP_DISPLAY; CAP_SEND; CAP_RECV];
   SetId INPUT_AGENT_ID INPUT_AGENT_ID;
   StartService INPUT_AGENT_ID "input_agent_main" "input" [CAP_LOG; CAP_SVC_INPUT; CAP_INPUT; CAP_SEND; CAP_RECV];
   SetId CONSOLE_AGENT_ID CONSOLE_AGENT_ID;
   StartService CONSOLE_AGENT_ID "console_agent_main" "console" [CAP_LOG; CAP_SVC_CONSOLE; CAP_SEND; CAP_RECV]; SetId 1 1;
   StartKernel 1 "init_catalog_agent"; SetCaps 1 [CAP_LOG; CAP_MATH; CAP_SPAWN; CAP_SEND; CAP_RECV; CAP_FS; CAP_TIME]; RunFirst 1].

Definition kmain_console : image :=
  [Init SmpBoot; Init BootBanner; Init TrapInit; Init MemInit; Init VmInit; Init RamfsInit; Init GpuInit; Init InputInit; Init ToolInit;
   Init AgentInit; SetId ROUTER_AGENT_ID ROUTER_AGENT_ID;
   StartService ROUTER_AGENT_ID "router_agent_main" "model-router" [CAP_LOG; CAP_SVC_LLM; CAP_LLM; CAP_SEND; CAP_RECV];
   SetId DISPLAY_AGENT_ID DISPLAY_AGENT_ID;
   StartService DISPLAY_AGENT_ID "display_agent_main" "display" [CAP_LOG; CAP_SVC_DISPLAY; CAP_DISPLAY; CAP_SEND; CAP_RECV];
   SetId INPUT_AGENT_ID INPUT_AGENT_ID;
   StartService INPUT_AGENT_ID "input_agent_main" "input" [CAP_LOG; CAP_SVC_INPUT; CAP_INPUT; CAP_SEND; CAP_RECV];
   SetId CONSOLE_AGENT_ID CONSOLE_AGENT_ID;
   StartService CONSOLE_AGENT_ID "console_agent_main" "console" [CAP_LOG; CAP_SVC_CONSOLE; CAP_SEND; CAP_RECV]; SetId 1 1;
   StartKernel 1 "init_console_agent"; SetCaps 1 [CAP_LOG; CAP_MATH; CAP_SPAWN; CAP_SEND; CAP_RECV; CAP_TIME]; RunFirst 1].

Definition kmain_console_audit : image :=
  [Init SmpBoot; Init BootBanner; Init TrapInit; Init MemInit; Init VmInit; Init RamfsInit; Init GpuInit; Init InputInit; Init TenantInit;
   Init AuditInit; Init ToolInit; Init AgentInit; SetId DISPLAY_AGENT_ID DISPLAY_AGENT_ID;
   StartService DISPLAY_AGENT_ID "display_agent_main" "display" [CAP_LOG; CAP_SVC_DISPLAY; CAP_DISPLAY; CAP_SEND; CAP_RECV];
   SetId INPUT_AGENT_ID INPUT_AGENT_ID;
   StartService INPUT_AGENT_ID "input_agent_main" "input" [CAP_LOG; CAP_SVC_INPUT; CAP_INPUT; CAP_SEND; CAP_RECV];
   SetId CONSOLE_AGENT_ID CONSOLE_AGENT_ID;
   StartService CONSOLE_AGENT_ID "console_agent_main" "console" [CAP_LOG; CAP_SVC_CONSOLE; CAP_SEND; CAP_RECV]; SetId 1 1;
   StartKernel 1 "init_console_audit_agent"; SetCaps 1 [CAP_LOG; CAP_MATH; CAP_SPAWN; CAP_SEND; CAP_RECV; CAP_FS; CAP_TIME]; RunFirst 1].

Definition kmain_console_namespace : image :=
  [Init SmpBoot; Init BootBanner; Init TrapInit; Init MemInit; Init VmInit; Init RamfsInit; Init GpuInit; Init InputInit; Init TenantInit;
   Init AuditInit; Init NamespaceInit; Init ToolInit; Init AgentInit; WriteSecret 1 "agent1-home-secret"; SetId DISPLAY_AGENT_ID DISPLAY_AGENT_ID;
   StartService DISPLAY_AGENT_ID "display_agent_main" "display" [CAP_LOG; CAP_SVC_DISPLAY; CAP_DISPLAY; CAP_SEND; CAP_RECV];
   SetId INPUT_AGENT_ID INPUT_AGENT_ID;
   StartService INPUT_AGENT_ID "input_agent_main" "input" [CAP_LOG; CAP_SVC_INPUT; CAP_INPUT; CAP_SEND; CAP_RECV];
   SetId CONSOLE_AGENT_ID CONSOLE_AGENT_ID;
   StartService CONSOLE_AGENT_ID "console_agent_main" "console" [CAP_LOG; CAP_SVC_CONSOLE; CAP_SEND; CAP_RECV]; SetId 1 1;
   StartKernel 1 "init_console_namespace_agent"; SetCaps 1 [CAP_LOG; CAP_MATH; CAP_SPAWN; CAP_SEND; CAP_RECV; CAP_FS; CAP_TIME]; RunFirst 1].

Definition kmain_console_orch : image :=
  [Init SmpBoot; Init BootBanner; Init TrapInit; Init MemInit; Init VmInit; Init RamfsInit; Init GpuInit; Init InputInit; Init ToolInit;
   Init AgentInit; SetId STORAGE_AGENT_ID STORAGE_AGENT_ID;
   StartService STORAGE_AGENT_ID "storage_agent_main" "storage" [CAP_LOG; CAP_SVC_STORAGE; CAP_FS; CAP_SEND; CAP_RECV];
   SetId DISPLAY_AGENT_ID DISPLAY_AGENT_ID;
   StartService DISPLAY_AGENT_ID "display_agent_main" "display" [CAP_LOG; CAP_SVC_DISPLAY; CAP_DISPLAY; CAP_SEND; CAP_RECV];
   SetId INPUT_AGENT_ID INPUT_AGENT_ID;
   StartService INPUT_AGENT_ID "input_agent_main" "input" [CAP_LOG; CAP_SVC_INPUT; CAP_INPUT; CAP_SEND; CAP_RECV];
   SetId CONSOLE_AGENT_ID CONSOLE_AGENT_ID;
   StartService CONSOLE_AGENT_ID "console_agent_main" "console" [CAP_LOG; CAP_SVC_CONSOLE; CAP_SEND; CAP_RECV]; SetId 1 1;
   StartKernel 1 "init_console_orch_agent"; SetCaps 1 [CAP_LOG; CAP_MATH; CAP_SPAWN; CAP_SEND; CAP_RECV; CAP_TIME]; RunFirst 1].

Definition kmain_console_pack : image :=
  [Init SmpBoot; Init BootBanner; Init TrapInit; Init MemInit; Init VmInit; Init RamfsInit; Init GpuInit; Init InputInit; Init ToolInit;
   Init AgentInit; SetId DISPLAY_AGENT_ID DISPLAY_AGENT_ID;
   StartService DISPLAY_AGENT_ID "display_agent_main" "display" [CAP_LOG; CAP_SVC_DISPLAY; CAP_DISPLAY; CAP_SEND; CAP_RECV];
   SetId INPUT_AGENT_ID INPUT_AGENT_ID;
   StartService INPUT_AGENT_ID "input_agent_main" "input" [CAP_LOG; CAP_SVC_INPUT; CAP_INPUT; CAP_SEND; CAP_RECV];
   SetId CONSOLE_AGENT_ID CONSOLE_AGENT_ID;
   StartService CONSOLE_AGENT_ID "console_agent_main" "console" [CAP_LOG; CAP_SVC_CONSOLE; CAP_SEND; CAP_RECV]; SetId 1 1;
   StartKernel 1 "init_console_pack_agent"; SetCaps 1 [CAP_LOG; CAP_MATH; CAP_SPAWN; CAP_SEND; CAP_RECV; CAP_FS; CAP_TIME]; RunFirst 1].

Definition kmain_console_quota : image :=
  [Init SmpBoot; Init BootBanner; Init TrapInit; Init MemInit; Init VmInit; Init RamfsInit; Init GpuInit; Init InputInit; Init TenantInit;
   Init AuditInit; Init NamespaceInit; Init QuotaInit; Init ToolInit; Init AgentInit; SetId DISPLAY_AGENT_ID DISPLAY_AGENT_ID;
   StartService DISPLAY_AGENT_ID "display_agent_main" "display" [CAP_LOG; CAP_SVC_DISPLAY; CAP_DISPLAY; CAP_SEND; CAP_RECV];
   SetId INPUT_AGENT_ID INPUT_AGENT_ID;
   StartService INPUT_AGENT_ID "input_agent_main" "input" [CAP_LOG; CAP_SVC_INPUT; CAP_INPUT; CAP_SEND; CAP_RECV];
   SetId CONSOLE_AGENT_ID CONSOLE_AGENT_ID;
   StartService CONSOLE_AGENT_ID "console_agent_main" "console" [CAP_LOG; CAP_SVC_CONSOLE; CAP_SEND; CAP_RECV]; SetId 1 1;
   StartKernel 1 "init_console_quota_agent"; SetCaps 1 [CAP_LOG; CAP_MATH; CAP_SPAWN; CAP_SEND; CAP_RECV; CAP_FS; CAP_TIME]; RunFirst 1].

Definition kmain_console_session : image :=
  [Init SmpBoot; Init BootBanner; Init TrapInit; Init MemInit; Init VmInit; Init RamfsInit; Init GpuInit; Init InputInit; Init ToolInit;
   Init AgentInit; SetId ROUTER_AGENT_ID ROUTER_AGENT_ID;
   StartService ROUTER_AGENT_ID "router_agent_main" "model-router" [CAP_LOG; CAP_SVC_LLM; CAP_LLM; CAP_SEND; CAP_RECV];
   SetId DISPLAY_AGENT_ID DISPLAY_AGENT_ID;
   StartService DISPLAY_AGENT_ID "display_agent_main" "display" [CAP_LOG; CAP_SVC_DISPLAY; CAP_DISPLAY; CAP_SEND; CAP_RECV];
   SetId INPUT_AGENT_ID INPUT_AGENT_ID;
   StartService INPUT_AGENT_ID "input_agent_main" "input" [CAP_LOG; CAP_SVC_INPUT; CAP_INPUT; CAP_SEND; CAP_RECV];
   SetId CONSOLE_AGENT_ID CONSOLE_AGENT_ID;
   StartService CONSOLE_AGENT_ID "console_agent_main" "console" [CAP_LOG; CAP_SVC_CONSOLE; CAP_SEND; CAP_RECV]; SetId 1 1;
   StartKernel 1 "init_console_session_agent"; SetCaps 1 [CAP_LOG; CAP_MATH; CAP_SPAWN; CAP_SEND; CAP_RECV; CAP_TIME]; RunFirst 1].

Definition kmain_console_tenant : image :=
  [Init SmpBoot; Init BootBanner; Init TrapInit; Init MemInit; Init VmInit; Init RamfsInit; Init GpuInit; Init InputInit; Init TenantInit;
   Init ToolInit; Init AgentInit; SetId DISPLAY_AGENT_ID DISPLAY_AGENT_ID;
   StartService DISPLAY_AGENT_ID "display_agent_main" "display" [CAP_LOG; CAP_SVC_DISPLAY; CAP_DISPLAY; CAP_SEND; CAP_RECV];
   SetId INPUT_AGENT_ID INPUT_AGENT_ID;
   StartService INPUT_AGENT_ID "input_agent_main" "input" [CAP_LOG; CAP_SVC_INPUT; CAP_INPUT; CAP_SEND; CAP_RECV];
   SetId CONSOLE_AGENT_ID CONSOLE_AGENT_ID;
   StartService CONSOLE_AGENT_ID "console_agent_main" "console" [CAP_LOG; CAP_SVC_CONSOLE; CAP_SEND; CAP_RECV]; SetId 1 1;
   StartKernel 1 "init_console_tenant_agent"; SetCaps 1 [CAP_LOG; CAP_MATH; CAP_SPAWN; CAP_SEND; CAP_RECV; CAP_FS; CAP_TIME]; RunFirst 1].

Definition kmain_console_v7 : image :=
  [Init SmpBoot; Init BootBanner; Init TrapInit; Init MemInit; Init VmInit; Init RamfsInit; Init GpuInit; Init InputInit; Init TenantInit;
   Init AuditInit; Init NamespaceInit; Init QuotaInit; Init FleetInit; Init PolicyInit; Init RemoteInit; Init MeshInit; Init ToolInit;
   Init AgentInit; SetId DISPLAY_AGENT_ID DISPLAY_AGENT_ID;
   StartService DISPLAY_AGENT_ID "display_agent_main" "display" [CAP_LOG; CAP_SVC_DISPLAY; CAP_DISPLAY; CAP_SEND; CAP_RECV];
   SetId INPUT_AGENT_ID INPUT_AGENT_ID;
   StartService INPUT_AGENT_ID "input_agent_main" "input" [CAP_LOG; CAP_SVC_INPUT; CAP_INPUT; CAP_SEND; CAP_RECV];
   SetId CONSOLE_AGENT_ID CONSOLE_AGENT_ID;
   StartService CONSOLE_AGENT_ID "console_agent_main" "console" [CAP_LOG; CAP_SVC_CONSOLE; CAP_SEND; CAP_RECV]; SetId 1 1;
   StartKernel 1 "init_console_v7_agent"; SetCaps 1 [CAP_LOG; CAP_MATH; CAP_SPAWN; CAP_SEND; CAP_RECV; CAP_FS; CAP_TIME; CAP_GPIO]; RunFirst 1].

Definition kmain_console_x86 : image :=
  [Init SmpBoot; Init BootBanner; Init TrapInit; Init MemInit; Init VmInit; Init RamfsInit; Init GpuInit; Init InputInit; Init TenantInit;
   Init AuditInit; Init NamespaceInit; Init QuotaInit; Init ToolInit; Init AgentInit; SetId DISPLAY_AGENT_ID DISPLAY_AGENT_ID;
   StartService DISPLAY_AGENT_ID "display_agent_main" "display" [CAP_LOG; CAP_SVC_DISPLAY; CAP_DISPLAY; CAP_SEND; CAP_RECV];
   SetId INPUT_AGENT_ID INPUT_AGENT_ID;
   StartService INPUT_AGENT_ID "input_agent_main" "input" [CAP_LOG; CAP_SVC_INPUT; CAP_INPUT; CAP_SEND; CAP_RECV];
   SetId CONSOLE_AGENT_ID CONSOLE_AGENT_ID;
   StartService CONSOLE_AGENT_ID "console_agent_main" "console" [CAP_LOG; CAP_SVC_CONSOLE; CAP_SEND; CAP_RECV]; SetId 1 1;
   StartKernel 1 "init_console_quota_agent"; SetCaps 1 [CAP_LOG; CAP_MATH; CAP_SPAWN; CAP_SEND; CAP_RECV; CAP_FS; CAP_TIME]; RunFirst 1].

Definition kmain_desktop : image :=
  [Init SmpBoot; Init BootBanner; Init TrapInit; Init MemInit; Init VmInit; Init RamfsInit; Init GpuInit; Init InputInit; PutGpu; Init ToolInit;
   Init AgentInit; SetId DISPLAY_AGENT_ID DISPLAY_AGENT_ID;
   StartService DISPLAY_AGENT_ID "display_agent_main" "display" [CAP_LOG; CAP_SVC_DISPLAY; CAP_DISPLAY; CAP_SEND; CAP_RECV];
   SetId INPUT_AGENT_ID INPUT_AGENT_ID;
   StartService INPUT_AGENT_ID "input_agent_main" "input" [CAP_LOG; CAP_SVC_INPUT; CAP_INPUT; CAP_SEND; CAP_RECV];
   SetId SHELL_AGENT_ID SHELL_AGENT_ID; StartService SHELL_AGENT_ID "shell_agent_main" "shell" [CAP_LOG; CAP_SVC_SHELL; CAP_SEND; CAP_RECV];
   SetId 1 1; StartKernel 1 "init_desktop_agent"; SetCaps 1 [CAP_LOG; CAP_MATH; CAP_SPAWN; CAP_SEND; CAP_RECV; CAP_FS; CAP_TIME]; RunFirst 1].

Definition kmain_edge : image :=
  [Init SmpBoot; Init BootBanner; Init TrapInit; Init MemInit; Init VmInit; Init PersistInit; Init RamfsInit; Init PersistLoad; Init ToolInit;
   Init AgentInit; SetId STORAGE_AGENT_ID STORAGE_AGENT_ID;
   StartService STORAGE_AGENT_ID "storage_agent_main" "storage" [CAP_LOG; CAP_SVC_STORAGE; CAP_FS; CAP_SEND; CAP_RECV];
   SetId ROUTER_AGENT_ID ROUTER_AGENT_ID;
   StartService ROUTER_AGENT_ID "router_agent_main" "model-router" [CAP_LOG; CAP_SVC_LLM; CAP_LLM; CAP_SEND; CAP_RECV]; SetId 1 1;
   StartKernel 1 "init_edge_agent"; SetCaps 1 [CAP_LOG; CAP_MATH; CAP_SPAWN; CAP_SEND; CAP_RECV; CAP_TIME]; RunFirst 1].

Definition kmain_llm_net : image :=
  [Init SmpBoot; Init BootBanner; Init TrapInit; Init MemInit; Init VmInit; Init RamfsInit; Init NetstackInit; Init ToolInit; Init AgentInit;
   SetId 1 1; StartKernel 1 "init_llm_agent"; SetCaps 1 [CAP_LOG; CAP_MATH; CAP_SPAWN; CAP_SEND; CAP_RECV; CAP_TIME; CAP_FS; CAP_LLM]; RunFirst 1].

Definition kmain_load : image :=
  [Init SmpBoot; Init BootBanner; Init TrapInit; Init MemInit; Init VmInit; Init PersistInit; Init RamfsInit; Init PersistLoad; Init ToolInit;
   Init AgentInit; SetId 1 1; StartKernel 1 "init_load_agent"; SetCaps 1 [CAP_LOG; CAP_MATH; CAP_SPAWN; CAP_SEND; CAP_RECV; CAP_TIME; CAP_FS];
   RunFirst 1].

Definition kmain_memory : image :=
  [Init SmpBoot; Init BootBanner; Init TrapInit; Init MemInit; Init VmInit; Init PersistInit; Init RamfsInit; Init PersistLoad; Init ToolInit;
   Init AgentInit; SetId STORAGE_AGENT_ID STORAGE_AGENT_ID;
   StartService STORAGE_AGENT_ID "storage_agent_main" "storage" [CAP_LOG; CAP_SVC_STORAGE; CAP_FS; CAP_SEND; CAP_RECV]; SetId 1 1;
   StartKernel 1 "init_memory_agent"; SetCaps 1 [CAP_LOG; CAP_MATH; CAP_SPAWN; CAP_SEND; CAP_RECV; CAP_TIME]; RunFirst 1].

Definition kmain_memory2 : image :=
  [Init SmpBoot; Init BootBanner; Init TrapInit; Init MemInit; Init VmInit; Init PersistInit; Init RamfsInit; Init PersistLoad; Init ToolInit;
   Init AgentInit; SetId STORAGE_AGENT_ID STORAGE_AGENT_ID;
   StartService STORAGE_AGENT_ID "storage_agent_main" "storage" [CAP_LOG; CAP_SVC_STORAGE; CAP_FS; CAP_SEND; CAP_RECV]; SetId 1 1;
   StartKernel 1 "init_memory2_agent"; SetCaps 1 [CAP_LOG; CAP_MATH; CAP_SPAWN; CAP_SEND; CAP_RECV; CAP_TIME]; RunFirst 1].

Definition kmain_net : image :=
  [Init SmpBoot; Init BootBanner; Init TrapInit; Init MemInit; Init VmInit; Init RamfsInit; Init VirtioNetInit; Init ToolInit; Init AgentInit;
   SetId NET_AGENT_ID NET_AGENT_ID; StartService NET_AGENT_ID "network_agent_main" "network" [CAP_LOG; CAP_SVC_NET; CAP_NET; CAP_SEND; CAP_RECV];
   SetId 1 1; StartKernel 1 "init_net_agent"; SetCaps 1 [CAP_LOG; CAP_MATH; CAP_SPAWN; CAP_SEND; CAP_RECV; CAP_TIME; CAP_FS]; RunFirst 1].

Definition kmain_net_prod : image :=
  [Init SmpBoot; Init BootBanner; Init TrapInit; Init MemInit; Init VmInit; Init RamfsInit; Init NetstackInit; Init ToolInit; Init AgentInit;
   SetId NET_AGENT_ID NET_AGENT_ID;
   StartService NET_AGENT_ID "network_prod_agent_main" "network" [CAP_LOG; CAP_SVC_NET; CAP_NET; CAP_SEND; CAP_RECV; CAP_FS]; SetId 1 1;
   StartKernel 1 "init_net_prod_agent"; SetCaps 1 [CAP_LOG; CAP_MATH; CAP_SPAWN; CAP_SEND; CAP_RECV; CAP_TIME; CAP_FS]; RunFirst 1].

Definition kmain_orchestrator : image :=
  [Init SmpBoot; Init BootBanner; Init TrapInit; Init MemInit; Init VmInit; Init RamfsInit; Init ToolInit; Init AgentInit;
   SetId STORAGE_AGENT_ID STORAGE_AGENT_ID;
   StartService STORAGE_AGENT_ID "storage_agent_main" "storage" [CAP_LOG; CAP_SVC_STORAGE; CAP_FS; CAP_SEND; CAP_RECV]; SetId 1 1;
   StartKernel 1 "init_orchestrator_agent"; SetCaps 1 [CAP_LOG; CAP_MATH; CAP_SPAWN; CAP_SEND; CAP_RECV; CAP_TIME]; RunFirst 1].

Definition kmain_ota : image :=
  [Init SmpBoot; Init BootBanner; Init TrapInit; Init MemInit; Init VmInit; Init SmpIpiInit; Init PersistInit; Init RamfsInit; Init PersistLoad;
   Init OtaInit; Init ToolInit; Init AgentInit; SetId 1 1; StartKernel 1 "init_ota_agent";
   SetCaps 1 [CAP_LOG; CAP_MATH; CAP_SPAWN; CAP_SEND; CAP_RECV; CAP_FS]; RunFirst 1].

Definition kmain_persist2 : image :=
  [Init SmpBoot; Init BootBanner; Init TrapInit; Init MemInit; Init VmInit; Init PersistInit; Init RamfsInit; Init PersistLoad; Init ToolInit;
   Init AgentInit; SetId 1 1; StartKernel 1 "init_persist2_agent"; SetCaps 1 [CAP_LOG; CAP_MATH; CAP_SPAWN; CAP_SEND; CAP_RECV; CAP_FS; CAP_TIME];
   RunFirst 1].

Definition kmain_router : image :=
  [Init SmpBoot; Init BootBanner; Init TrapInit; Init MemInit; Init VmInit; Init RamfsInit; Init ToolInit; Init AgentInit;
   SetId ROUTER_AGENT_ID ROUTER_AGENT_ID;
   StartService ROUTER_AGENT_ID "router_agent_main" "model-router" [CAP_LOG; CAP_SVC_LLM; CAP_LLM; CAP_SEND; CAP_RECV]; SetId 1 1;
   StartKernel 1 "init_router_agent"; SetCaps 1 [CAP_LOG; CAP_MATH; CAP_SPAWN; CAP_SEND; CAP_RECV; CAP_TIME]; RunFirst 1].

Definition kmain_smp : image :=
  [Init SmpBoot; Init BootBanner; Init TrapInit; Init MemInit; Init VmInit; Init SmpIpiInit; Init RamfsInit; Init ToolInit; Init AgentInit;
   Init SmpWakeHarts; Init SmpBspRelease; WaitHarts 2; RequireHarts 2; SetId 1 1; StartKernel 1 "init_smp_agent";
   SetCaps 1 [CAP_LOG; CAP_MATH; CAP_SPAWN; CAP_SEND; CAP_RECV]; RunFirst 1].

Definition kmain_storage2 : image :=
  [Init SmpBoot; Init BootBanner; Init TrapInit; Init MemInit; Init VmInit; Init RamfsInit; Init ToolInit; Init AgentInit;
   SetId STORAGE_AGENT_ID STORAGE_AGENT_ID;
   StartService STORAGE_AGENT_ID "storage_agent_main" "storage" [CAP_LOG; CAP_SVC_STORAGE; CAP_FS; CAP_SEND; CAP_RECV]; SetId 1 1;
   StartKernel 1 "init_storage2_agent"; SetCaps 1 [CAP_LOG; CAP_MATH; CAP_SPAWN; CAP_SEND; CAP_RECV; CAP_TIME]; RunFirst 1].

Definition kmain_tools2 : image :=
  [Init SmpBoot; Init BootBanner; Init TrapInit; Init MemInit; Init VmInit; Init RamfsInit; Init ToolInit; Init AgentInit; SetId 1 1;
   StartKernel 1 "init_tools2_agent"; SetCaps 1 [CAP_LOG; CAP_MATH; CAP_SPAWN; CAP_SEND; CAP_RECV; CAP_TIME]; RunFirst 1].

Definition kmain_ui : image :=
  [Init SmpBoot; Init BootBanner; Init TrapInit; Init MemInit; Init VmInit; Init RamfsInit; Init GpuInit; Init InputInit; Init ToolInit;
   Init AgentInit; SetId DISPLAY_AGENT_ID DISPLAY_AGENT_ID;
   StartService DISPLAY_AGENT_ID "display_agent_main" "display" [CAP_LOG; CAP_SVC_DISPLAY; CAP_DISPLAY; CAP_SEND; CAP_RECV];
   SetId INPUT_AGENT_ID INPUT_AGENT_ID;
   StartService INPUT_AGENT_ID "input_agent_main" "input" [CAP_LOG; CAP_SVC_INPUT; CAP_INPUT; CAP_SEND; CAP_RECV]; SetId 1 1;
   StartKernel 1 "init_ui_agent"; SetCaps 1 [CAP_LOG; CAP_MATH; CAP_SPAWN; CAP_SEND; CAP_RECV; CAP_TIME]; RunFirst 1].

Definition kmain_v01_beta_x86 : image :=
  [Init SmpBoot; Init BootBanner; Init TrapInit; Init MemInit; Init VmInit; Init RamfsInit; Init GpuInit; Init InputInit; Init TenantInit;
   Init AuditInit; Init NamespaceInit; Init QuotaInit; Init FleetInit; Init PolicyInit; Init RemoteInit; Init MeshInit; Init ToolInit;
   Init AgentInit; SetId DISPLAY_AGENT_ID DISPLAY_AGENT_ID;
   StartService DISPLAY_AGENT_ID "display_agent_main" "display" [CAP_LOG; CAP_SVC_DISPLAY; CAP_DISPLAY; CAP_SEND; CAP_RECV];
   SetId INPUT_AGENT_ID INPUT_AGENT_ID;
   StartService INPUT_AGENT_ID "input_agent_main" "input" [CAP_LOG; CAP_SVC_INPUT; CAP_INPUT; CAP_SEND; CAP_RECV];
   SetId CONSOLE_AGENT_ID CONSOLE_AGENT_ID;
   StartService CONSOLE_AGENT_ID "console_agent_main" "console" [CAP_LOG; CAP_SVC_CONSOLE; CAP_SEND; CAP_RECV]; SetId 1 1;
   StartKernel 1 "init_v01_beta_agent"; SetCaps 1 [CAP_LOG; CAP_MATH; CAP_SPAWN; CAP_SEND; CAP_RECV; CAP_FS; CAP_TIME; CAP_GPIO]; RunFirst 1].

Definition kmain_v02_rc_x86 : image :=
  [Init SmpBoot; Init BootBanner; Init TrapInit; Init MemInit; Init VmInit; Init RamfsInit; Init GpuInit; Init InputInit; Init TenantInit;
   Init AuditInit; Init NamespaceInit; Init QuotaInit; Init FleetInit; Init PolicyInit; Init RemoteInit; Init MeshInit; Init ToolInit;
   Init AgentInit; SetId DISPLAY_AGENT_ID DISPLAY_AGENT_ID;
   StartService DISPLAY_AGENT_ID "display_agent_main" "display" [CAP_LOG; CAP_SVC_DISPLAY; CAP_DISPLAY; CAP_SEND; CAP_RECV];
   SetId INPUT_AGENT_ID INPUT_AGENT_ID;
   StartService INPUT_AGENT_ID "input_agent_main" "input" [CAP_LOG; CAP_SVC_INPUT; CAP_INPUT; CAP_SEND; CAP_RECV];
   SetId CONSOLE_AGENT_ID CONSOLE_AGENT_ID;
   StartService CONSOLE_AGENT_ID "console_agent_main" "console" [CAP_LOG; CAP_SVC_CONSOLE; CAP_SEND; CAP_RECV]; SetId 1 1;
   StartKernel 1 "init_v02_rc_agent"; SetCaps 1 [CAP_LOG; CAP_MATH; CAP_SPAWN; CAP_SEND; CAP_RECV; CAP_FS; CAP_TIME; CAP_GPIO]; RunFirst 1].

Definition kmain_v030_x86 : image :=
  [Init SmpBoot; Init BootBanner; Init TrapInit; Init MemInit; Init VmInit; Init RamfsInit; Init GpuInit; Init InputInit; Init TenantInit;
   Init AuditInit; Init NamespaceInit; Init QuotaInit; Init FleetInit; Init PolicyInit; Init RemoteInit; Init MeshInit; Init ToolInit;
   Init AgentInit; SetId DISPLAY_AGENT_ID DISPLAY_AGENT_ID;
   StartService DISPLAY_AGENT_ID "display_agent_main" "display" [CAP_LOG; CAP_SVC_DISPLAY; CAP_DISPLAY; CAP_SEND; CAP_RECV];
   SetId INPUT_AGENT_ID INPUT_AGENT_ID;
   StartService INPUT_AGENT_ID "input_agent_main" "input" [CAP_LOG; CAP_SVC_INPUT; CAP_INPUT; CAP_SEND; CAP_RECV];
   SetId CONSOLE_AGENT_ID CONSOLE_AGENT_ID;
   StartService CONSOLE_AGENT_ID "console_agent_main" "console" [CAP_LOG; CAP_SVC_CONSOLE; CAP_SEND; CAP_RECV]; SetId 1 1;
   StartKernel 1 "init_v030_agent"; SetCaps 1 [CAP_LOG; CAP_MATH; CAP_SPAWN; CAP_SEND; CAP_RECV; CAP_FS; CAP_TIME; CAP_GPIO]; RunFirst 1].

Definition kmain_v040_riscv : image :=
  [Init SmpBoot; Init BootBanner; Init TrapInit; Init MemInit; Init VmInit; Init RamfsInit; Init GpuInit; Init InputInit; Init NetstackInit;
   Init TenantInit; Init AuditInit; Init NamespaceInit; Init QuotaInit; Init FleetInit; Init PolicyInit; Init RemoteInit; Init MeshInit;
   Init ToolInit; Init AgentInit; SetId DISPLAY_AGENT_ID DISPLAY_AGENT_ID;
   StartService DISPLAY_AGENT_ID "display_agent_main" "display" [CAP_LOG; CAP_SVC_DISPLAY; CAP_DISPLAY; CAP_SEND; CAP_RECV];
   SetId INPUT_AGENT_ID INPUT_AGENT_ID;
   StartService INPUT_AGENT_ID "input_agent_main" "input" [CAP_LOG; CAP_SVC_INPUT; CAP_INPUT; CAP_SEND; CAP_RECV];
   SetId CONSOLE_AGENT_ID CONSOLE_AGENT_ID;
   StartService CONSOLE_AGENT_ID "console_agent_main" "console" [CAP_LOG; CAP_SVC_CONSOLE; CAP_SEND; CAP_RECV]; SetId 1 1;
   StartKernel 1 "init_v040_agent"; SetCaps 1 [CAP_LOG; CAP_MATH; CAP_SPAWN; CAP_SEND; CAP_RECV; CAP_FS; CAP_TIME; CAP_GPIO]; RunFirst 1].

Definition kmain_v040_x86 : image :=
  [Init SmpBoot; Init BootBanner; Init TrapInit; Init MemInit; Init VmInit; Init RamfsInit; Init GpuInit; Init InputInit; Init NetstackInit;
   Init TenantInit; Init AuditInit; Init NamespaceInit; Init QuotaInit; Init FleetInit; Init PolicyInit; Init RemoteInit; Init MeshInit;
   Init ToolInit; Init AgentInit; SetId DISPLAY_AGENT_ID DISPLAY_AGENT_ID;
   StartService DISPLAY_AGENT_ID "display_agent_main" "display" [CAP_LOG; CAP_SVC_DISPLAY; CAP_DISPLAY; CAP_SEND; CAP_RECV];
   SetId INPUT_AGENT_ID INPUT_AGENT_ID;
   StartService INPUT_AGENT_ID "input_agent_main" "input" [CAP_LOG; CAP_SVC_INPUT; CAP_INPUT; CAP_SEND; CAP_RECV];
   SetId CONSOLE_AGENT_ID CONSOLE_AGENT_ID;
   StartService CONSOLE_AGENT_ID "console_agent_main" "console" [CAP_LOG; CAP_SVC_CONSOLE; CAP_SEND; CAP_RECV]; SetId 1 1;
   StartKernel 1 "init_v040_agent"; SetCaps 1 [CAP_LOG; CAP_MATH; CAP_SPAWN; CAP_SEND; CAP_RECV; CAP_FS; CAP_TIME; CAP_GPIO]; RunFirst 1].

Definition kmain_v050_riscv : image :=
  [Init SmpBoot; Init BootBanner; Init TrapInit; Init MemInit; Init VmInit; Init RamfsInit; Init GpuInit; Init InputInit; Init NetstackInit;
   Init TenantInit; Init AuditInit; Init NamespaceInit; Init QuotaInit; Init FleetInit; Init PolicyInit; Init RemoteInit; Init MeshInit;
   Init ToolInit; Init AgentInit; SetId ROUTER_AGENT_ID ROUTER_AGENT_ID;
   StartService ROUTER_AGENT_ID "router_agent_main" "model-router" [CAP_LOG; CAP_SVC_LLM; CAP_LLM; CAP_SEND; CAP_RECV];
   SetId DISPLAY_AGENT_ID DISPLAY_AGENT_ID;
   StartService DISPLAY_AGENT_ID "display_agent_main" "display" [CAP_LOG; CAP_SVC_DISPLAY; CAP_DISPLAY; CAP_SEND; CAP_RECV];
   SetId INPUT_AGENT_ID INPUT_AGENT_ID;
   StartService INPUT_AGENT_ID "input_agent_main" "input" [CAP_LOG; CAP_SVC_INPUT; CAP_INPUT; CAP_SEND; CAP_RECV];
   SetId CONSOLE_AGENT_ID CONSOLE_AGENT_ID;
   StartService CONSOLE_AGENT_ID "console_agent_main" "console" [CAP_LOG; CAP_SVC_CONSOLE; CAP_SEND; CAP_RECV]; SetId 1 1;
   StartKernel 1 "init_v050_agent"; SetCaps 1 [CAP_LOG; CAP_MATH; CAP_SPAWN; CAP_SEND; CAP_RECV; CAP_FS; CAP_TIME; CAP_GPIO]; RunFirst 1].

Definition kmain_v060_x86 : image :=
  [Init SmpBoot; Init BootBanner; Init TrapInit; Init MemInit; Init VmInit; Init RamfsInit; Init GpuInit; Init InputInit; Init NetstackInit;
   Init TenantInit; Init AuditInit; Init NamespaceInit; Init QuotaInit; Init FleetInit; Init PolicyInit; Init RemoteInit; Init MeshInit;
   Init ToolInit; Init AgentInit; SetId DISPLAY_AGENT_ID DISPLAY_AGENT_ID;
   StartService DISPLAY_AGENT_ID "display_agent_main" "display" [CAP_LOG; CAP_SVC_DISPLAY; CAP_DISPLAY; CAP_SEND; CAP_RECV];
   SetId INPUT_AGENT_ID INPUT_AGENT_ID;
   StartService INPUT_AGENT_ID "input_agent_main" "input" [CAP_LOG; CAP_SVC_INPUT; CAP_INPUT; CAP_SEND; CAP_RECV];
   SetId CONSOLE_AGENT_ID CONSOLE_AGENT_ID;
   StartService CONSOLE_AGENT_ID "console_agent_main" "console" [CAP_LOG; CAP_SVC_CONSOLE; CAP_SEND; CAP_RECV]; SetId 1 1;
   StartKernel 1 "init_v060_agent"; SetCaps 1 [CAP_LOG; CAP_MATH; CAP_SPAWN; CAP_SEND; CAP_RECV; CAP_FS; CAP_TIME; CAP_GPIO]; RunFirst 1].

Definition kmain_v061_riscv : image :=
  [Init SmpBoot; Init BootBanner; Init TrapInit; Init MemInit; Init VmInit; Init RamfsInit; Init GpuInit; Init InputInit; Init NetstackInit;
   Init TenantInit; Init AuditInit; Init NamespaceInit; Init QuotaInit; Init FleetInit; Init PolicyInit; Init RemoteInit; Init MeshInit;
   Init ToolInit; Init AgentInit; SetId ROUTER_AGENT_ID ROUTER_AGENT_ID;
   StartService ROUTER_AGENT_ID "router_agent_main" "model-router" [CAP_LOG; CAP_SVC_LLM; CAP_LLM; CAP_SEND; CAP_RECV];
   SetId DISPLAY_AGENT_ID DISPLAY_AGENT_ID;
   StartService DISPLAY_AGENT_ID "display_agent_main" "display" [CAP_LOG; CAP_SVC_DISPLAY; CAP_DISPLAY; CAP_SEND; CAP_RECV];
   SetId INPUT_AGENT_ID INPUT_AGENT_ID;
   StartService INPUT_AGENT_ID "input_agent_main" "input" [CAP_LOG; CAP_SVC_INPUT; CAP_INPUT; CAP_SEND; CAP_RECV];
   SetId CONSOLE_AGENT_ID CONSOLE_AGENT_ID;
   StartService CONSOLE_AGENT_ID "console_agent_main" "console" [CAP_LOG; CAP_SVC_CONSOLE; CAP_SEND; CAP_RECV]; SetId 1 1;
   StartKernel 1 "init_v061_agent"; SetCaps 1 [CAP_LOG; CAP_MATH; CAP_SPAWN; CAP_SEND; CAP_RECV; CAP_FS; CAP_TIME; CAP_GPIO]; RunFirst 1].

Definition kmain_v062_riscv : image :=
  [Init SmpBoot; Init BootBanner; Init TrapInit; Init MemInit; Init VmInit; Init RamfsInit; Init GpuInit; Init InputInit; Init NetstackInit;
   Init TenantInit; Init AuditInit; Init NamespaceInit; Init QuotaInit; Init FleetInit; Init PolicyInit; Init RemoteInit; Init MeshInit;
   Init ToolInit; Init AgentInit; SetId ROUTER_AGENT_ID ROUTER_AGENT_ID;
   StartService ROUTER_AGENT_ID "router_agent_main" "model-router" [CAP_LOG; CAP_SVC_LLM; CAP_LLM; CAP_SEND; CAP_RECV];
   SetId DISPLAY_AGENT_ID DISPLAY_AGENT_ID;
   StartService DISPLAY_AGENT_ID "display_agent_main" "display" [CAP_LOG; CAP_SVC_DISPLAY; CAP_DISPLAY; CAP_SEND; CAP_RECV];
   SetId INPUT_AGENT_ID INPUT_AGENT_ID;
   StartService INPUT_AGENT_ID "input_agent_main" "input" [CAP_LOG; CAP_SVC_INPUT; CAP_INPUT; CAP_SEND; CAP_RECV];
   SetId CONSOLE_AGENT_ID CONSOLE_AGENT_ID;
   StartService CONSOLE_AGENT_ID "console_agent_main" "console" [CAP_LOG; CAP_SVC_CONSOLE; CAP_SEND; CAP_RECV]; SetId 1 1;
   StartKernel 1 "init_v062_agent"; SetCaps 1 [CAP_LOG; CAP_MATH; CAP_SPAWN; CAP_SEND; CAP_RECV; CAP_FS; CAP_TIME; CAP_GPIO]; RunFirst 1].

Definition kmain_v062_x86 : image :=
  [Init SmpBoot; Init BootBanner; Init TrapInit; Init MemInit; Init VmInit; Init RamfsInit; Init GpuInit; Init InputInit; Init NetstackInit;
   Init TenantInit; Init AuditInit; Init NamespaceInit; Init QuotaInit; Init FleetInit; Init PolicyInit; Init RemoteInit; Init MeshInit;
   Init ToolInit; Init AgentInit; SetId ROUTER_AGENT_ID ROUTER_AGENT_ID;
   StartService ROUTER_AGENT_ID "router_agent_main" "model-router" [CAP_LOG; CAP_SVC_LLM; CAP_LLM; CAP_SEND; CAP_RECV];
   SetId DISPLAY_AGENT_ID DISPLAY_AGENT_ID;
   StartService DISPLAY_AGENT_ID "display_agent_main" "display" [CAP_LOG; CAP_SVC_DISPLAY; CAP_DISPLAY; CAP_SEND; CAP_RECV];
   SetId INPUT_AGENT_ID INPUT_AGENT_ID;
   StartService INPUT_AGENT_ID "input_agent_main" "input" [CAP_LOG; CAP_SVC_INPUT; CAP_INPUT; CAP_SEND; CAP_RECV];
   SetId CONSOLE_AGENT_ID CONSOLE_AGENT_ID;
   StartService CONSOLE_AGENT_ID "console_agent_main" "console" [CAP_LOG; CAP_SVC_CONSOLE; CAP_SEND; CAP_RECV]; SetId 1 1;
   StartKernel 1 "init_v062_agent"; SetCaps 1 [CAP_LOG; CAP_MATH; CAP_SPAWN; CAP_SEND; CAP_RECV; CAP_FS; CAP_TIME; CAP_GPIO]; RunFirst 1].

Definition kmain_v063_riscv : image :=
  [Init SmpBoot; Init BootBanner; Init TrapInit; Init MemInit; Init VmInit; Init RamfsInit; Init GpuInit; Init InputInit; Init NetstackInit;
   Init TenantInit; Init AuditInit; Init NamespaceInit; Init QuotaInit; Init FleetInit; Init PolicyInit; Init RemoteInit; Init MeshInit;
   Init ToolInit; Init AgentInit; SetId ROUTER_AGENT_ID ROUTER_AGENT_ID;
   StartService ROUTER_AGENT_ID "router_agent_main" "model-router" [CAP_LOG; CAP_SVC_LLM; CAP_LLM; CAP_SEND; CAP_RECV];
   SetId DISPLAY_AGENT_ID DISPLAY_AGENT_ID;
   StartService DISPLAY_AGENT_ID "display_agent_main" "display" [CAP_LOG; CAP_SVC_DISPLAY; CAP_DISPLAY; CAP_SEND; CAP_RECV];
   SetId INPUT_AGENT_ID INPUT_AGENT_ID;
   StartService INPUT_AGENT_ID "input_agent_main" "input" [CAP_LOG; CAP_SVC_INPUT; CAP_INPUT; CAP_SEND; CAP_RECV];
   SetId CONSOLE_AGENT_ID CONSOLE_AGENT_ID;
   StartService CONSOLE_AGENT_ID "console_agent_main" "console" [CAP_LOG; CAP_SVC_CONSOLE; CAP_SEND; CAP_RECV]; SetId 1 1;
   StartKernel 1 "init_v063_agent"; SetCaps 1 [CAP_LOG; CAP_MATH; CAP_SPAWN; CAP_SEND; CAP_RECV; CAP_FS; CAP_TIME; CAP_GPIO]; RunFirst 1].

Definition kmain_v063_x86 : image :=
  [Init SmpBoot; Init BootBanner; Init TrapInit; Init MemInit; Init VmInit; Init RamfsInit; Init GpuInit; Init InputInit; Init NetstackInit;
   Init TenantInit; Init AuditInit; Init NamespaceInit; Init QuotaInit; Init FleetInit; Init PolicyInit; Init RemoteInit; Init MeshInit;
   Init ToolInit; Init AgentInit; SetId DISPLAY_AGENT_ID DISPLAY_AGENT_ID;
   StartService DISPLAY_AGENT_ID "display_agent_main" "display" [CAP_LOG; CAP_SVC_DISPLAY; CAP_DISPLAY; CAP_SEND; CAP_RECV];
   SetId INPUT_AGENT_ID INPUT_AGENT_ID;
   StartService INPUT_AGENT_ID "input_agent_main" "input" [CAP_LOG; CAP_SVC_INPUT; CAP_INPUT; CAP_SEND; CAP_RECV];
   SetId CONSOLE_AGENT_ID CONSOLE_AGENT_ID;
   StartService CONSOLE_AGENT_ID "console_agent_main" "console" [CAP_LOG; CAP_SVC_CONSOLE; CAP_SEND; CAP_RECV]; SetId 1 1;
   StartKernel 1 "init_v063_agent"; SetCaps 1 [CAP_LOG; CAP_MATH; CAP_SPAWN; CAP_SEND; CAP_RECV; CAP_FS; CAP_TIME; CAP_GPIO]; RunFirst 1].

Definition kmain_v064_riscv : image :=
  [Init SmpBoot; Init BootBanner; Init TrapInit; Init MemInit; Init VmInit; Init RamfsInit; Init GpuInit; Init InputInit; Init NetstackInit;
   Init TenantInit; Init AuditInit; Init NamespaceInit; Init QuotaInit; Init FleetInit; Init PolicyInit; Init RemoteInit; Init MeshInit;
   Init ToolInit; Init AgentInit; SetId ROUTER_AGENT_ID ROUTER_AGENT_ID;
   StartService ROUTER_AGENT_ID "router_agent_main" "model-router" [CAP_LOG; CAP_SVC_LLM; CAP_LLM; CAP_SEND; CAP_RECV];
   SetId DISPLAY_AGENT_ID DISPLAY_AGENT_ID;
   StartService DISPLAY_AGENT_ID "display_agent_main" "display" [CAP_LOG; CAP_SVC_DISPLAY; CAP_DISPLAY; CAP_SEND; CAP_RECV];
   SetId INPUT_AGENT_ID INPUT_AGENT_ID;
   StartService INPUT_AGENT_ID "input_agent_main" "input" [CAP_LOG; CAP_SVC_INPUT; CAP_INPUT; CAP_SEND; CAP_RECV];
   SetId CONSOLE_AGENT_ID CONSOLE_AGENT_ID;
   StartService CONSOLE_AGENT_ID "console_agent_main" "console" [CAP_LOG; CAP_SVC_CONSOLE; CAP_SEND; CAP_RECV]; SetId 1 1;
   StartKernel 1 "init_v064_agent"; SetCaps 1 [CAP_LOG; CAP_MATH; CAP_SPAWN; CAP_SEND; CAP_RECV; CAP_FS; CAP_TIME; CAP_GPIO]; RunFirst 1].

Definition kmain_v064_x86 : image :=
  [Init SmpBoot; Init BootBanner; Init TrapInit; Init MemInit; Init VmInit; Init RamfsInit; Init GpuInit; Init InputInit; Init NetstackInit;
   Init TenantInit; Init AuditInit; Init NamespaceInit; Init QuotaInit; Init FleetInit; Init PolicyInit; Init RemoteInit; Init MeshInit;
   Init ToolInit; Init AgentInit; SetId DISPLAY_AGENT_ID DISPLAY_AGENT_ID;
   StartService DISPLAY_AGENT_ID "display_agent_main" "display" [CAP_LOG; CAP_SVC_DISPLAY; CAP_DISPLAY; CAP_SEND; CAP_RECV];
   SetId INPUT_AGENT_ID INPUT_AGENT_ID;
   StartService INPUT_AGENT_ID "input_agent_main" "input" [CAP_LOG; CAP_SVC_INPUT; CAP_INPUT; CAP_SEND; CAP_RECV];
   SetId CONSOLE_AGENT_ID CONSOLE_AGENT_ID;
   StartService CONSOLE_AGENT_ID "console_agent_main" "console" [CAP_LOG; CAP_SVC_CONSOLE; CAP_SEND; CAP_RECV]; SetId 1 1;
   StartKernel 1 "init_v064_agent"; SetCaps 1 [CAP_LOG; CAP_MATH; CAP_SPAWN; CAP_SEND; CAP_RECV; CAP_FS; CAP_TIME; CAP_GPIO]; RunFirst 1].

Definition kmain_v070_riscv : image :=
  [Init SmpBoot; Init BootBanner; Init TrapInit; Init MemInit; Init VmInit; Init RamfsInit; Init GpuInit; Init InputInit; Init NetstackInit;
   Init TenantInit; Init AuditInit; Init NamespaceInit; Init QuotaInit; Init FleetInit; Init PolicyInit; Init RemoteInit; Init MeshInit;
   Init ToolInit; Init AgentInit; SetId ROUTER_AGENT_ID ROUTER_AGENT_ID;
   StartService ROUTER_AGENT_ID "router_agent_main" "model-router" [CAP_LOG; CAP_SVC_LLM; CAP_LLM; CAP_SEND; CAP_RECV];
   SetId DISPLAY_AGENT_ID DISPLAY_AGENT_ID;
   StartService DISPLAY_AGENT_ID "display_agent_main" "display" [CAP_LOG; CAP_SVC_DISPLAY; CAP_DISPLAY; CAP_SEND; CAP_RECV];
   SetId INPUT_AGENT_ID INPUT_AGENT_ID;
   StartService INPUT_AGENT_ID "input_agent_main" "input" [CAP_LOG; CAP_SVC_INPUT; CAP_INPUT; CAP_SEND; CAP_RECV];
   SetId CONSOLE_AGENT_ID CONSOLE_AGENT_ID;
   StartService CONSOLE_AGENT_ID "console_agent_main" "console" [CAP_LOG; CAP_SVC_CONSOLE; CAP_SEND; CAP_RECV]; SetId 1 1;
   StartKernel 1 "init_v070_agent"; SetCaps 1 [CAP_LOG; CAP_MATH; CAP_SPAWN; CAP_SEND; CAP_RECV; CAP_FS; CAP_TIME; CAP_GPIO]; RunFirst 1].

Definition kmain_v070_x86 : image :=
  [Init SmpBoot; Init BootBanner; Init TrapInit; Init MemInit; Init VmInit; Init RamfsInit; Init GpuInit; Init InputInit; Init NetstackInit;
   Init TenantInit; Init AuditInit; Init NamespaceInit; Init QuotaInit; Init FleetInit; Init PolicyInit; Init RemoteInit; Init MeshInit;
   Init ToolInit; Init AgentInit; SetId DISPLAY_AGENT_ID DISPLAY_AGENT_ID;
   StartService DISPLAY_AGENT_ID "display_agent_main" "display" [CAP_LOG; CAP_SVC_DISPLAY; CAP_DISPLAY; CAP_SEND; CAP_RECV];
   SetId INPUT_AGENT_ID INPUT_AGENT_ID;
   StartService INPUT_AGENT_ID "input_agent_main" "input" [CAP_LOG; CAP_SVC_INPUT; CAP_INPUT; CAP_SEND; CAP_RECV];
   SetId CONSOLE_AGENT_ID CONSOLE_AGENT_ID;
   StartService CONSOLE_AGENT_ID "console_agent_main" "console" [CAP_LOG; CAP_SVC_CONSOLE; CAP_SEND; CAP_RECV]; SetId 1 1;
   StartKernel 1 "init_v070_agent"; SetCaps 1 [CAP_LOG; CAP_MATH; CAP_SPAWN; CAP_SEND; CAP_RECV; CAP_FS; CAP_TIME; CAP_GPIO]; RunFirst 1].

Definition kmain_v1 : image :=
  [Init SmpBoot; Init BootBanner; Init TrapInit; Init MemInit; Init VmInit; Init PersistInit; Init RamfsInit; Init PersistLoad; Init ToolInit;
   Init AgentInit; SetId STORAGE_AGENT_ID STORAGE_AGENT_ID;
   StartService STORAGE_AGENT_ID "storage_agent_main" "storage" [CAP_LOG; CAP_SVC_STORAGE; CAP_FS; CAP_SEND; CAP_RECV]; SetId 1 1;
   StartKernel 1 "init_v1_agent"; SetCaps 1 [CAP_LOG; CAP_MATH; CAP_SPAWN; CAP_SEND; CAP_RECV; CAP_TIME]; RunFirst 1].

Definition kmain_v100_riscv : image :=
  [Init SmpBoot; Init BootBanner; Init TrapInit; Init MemInit; Init VmInit; Init RamfsInit; Init GpuInit; Init InputInit; Init NetstackInit;
   Init TenantInit; Init AuditInit; Init NamespaceInit; Init QuotaInit; Init FleetInit; Init PolicyInit; Init RemoteInit; Init MeshInit;
   Init ToolInit; Init AgentInit; SetId ROUTER_AGENT_ID ROUTER_AGENT_ID;
   StartService ROUTER_AGENT_ID "router_agent_main" "model-router" [CAP_LOG; CAP_SVC_LLM; CAP_LLM; CAP_SEND; CAP_RECV];
   SetId DISPLAY_AGENT_ID DISPLAY_AGENT_ID;
   StartService DISPLAY_AGENT_ID "display_agent_main" "display" [CAP_LOG; CAP_SVC_DISPLAY; CAP_DISPLAY; CAP_SEND; CAP_RECV];
   SetId INPUT_AGENT_ID INPUT_AGENT_ID;
   StartService INPUT_AGENT_ID "input_agent_main" "input" [CAP_LOG; CAP_SVC_INPUT; CAP_INPUT; CAP_SEND; CAP_RECV];
   SetId CONSOLE_AGENT_ID CONSOLE_AGENT_ID;
   StartService CONSOLE_AGENT_ID "console_agent_main" "console" [CAP_LOG; CAP_SVC_CONSOLE; CAP_SEND; CAP_RECV]; SetId 1 1;
   StartKernel 1 "init_v100_agent"; SetCaps 1 [CAP_LOG; CAP_MATH; CAP_SPAWN; CAP_SEND; CAP_RECV; CAP_FS; CAP_TIME; CAP_GPIO]; RunFirst 1].

Definition kmain_v100_x86 : image :=
  [Init SmpBoot; Init BootBanner; Init TrapInit; Init MemInit; Init VmInit; Init RamfsInit; Init GpuInit; Init InputInit; Init NetstackInit;
   Init TenantInit; Init AuditInit; Init NamespaceInit; Init QuotaInit; Init FleetInit; Init PolicyInit; Init RemoteInit; Init MeshInit;
   Init ToolInit; Init AgentInit; SetId DISPLAY_AGENT_ID DISPLAY_AGENT_ID;
   StartService DISPLAY_AGENT_ID "display_agent_main" "display" [CAP_LOG; CAP_SVC_DISPLAY; CAP_DISPLAY; CAP_SEND; CAP_RECV];
   SetId INPUT_AGENT_ID INPUT_AGENT_ID;
   StartService INPUT_AGENT_ID "input_agent_main" "input" [CAP_LOG; CAP_SVC_INPUT; CAP_INPUT; CAP_SEND; CAP_RECV];
   SetId CONSOLE_AGENT_ID CONSOLE_AGENT_ID;
   StartService CONSOLE_AGENT_ID "console_agent_main" "console" [CAP_LOG; CAP_SVC_CONSOLE; CAP_SEND; CAP_RECV]; SetId 1 1;
   StartKernel 1 "init_v100_agent"; SetCaps 1 [CAP_LOG; CAP_MATH; CAP_SPAWN; CAP_SEND; CAP_RECV; CAP_FS; CAP_TIME; CAP_GPIO]; RunFirst 1].

Definition kmain_vm3 : image :=
  [Init SmpBoot; Init BootBanner; Init TrapInit; Init MemInit; Init VmInit; Init RamfsInit; Init ToolInit; Init AgentInit; SetId 1 1;
   StartKernel 1 "init_vm3_agent"; SetCaps 1 [CAP_LOG; CAP_MATH; CAP_SPAWN; CAP_SEND; CAP_RECV; CAP_FS]; RunFirst 1].

Definition kmain_wrap : image :=
  [Init SmpBoot; Init BootBanner; Init TrapInit; Init MemInit; Init VmInit; Init SmpIpiInit; Init PersistInit; Init RamfsInit; Init PersistLoad;
   Init ToolInit; Init AgentInit; SetId 1 1; StartKernel 1 "init_wrap_agent";
   SetCaps 1 [CAP_LOG; CAP_MATH; CAP_SPAWN; CAP_SEND; CAP_RECV; CAP_FS; CAP_TIME]; RunFirst 1].

Definition kmain_x86_smoke : image :=
  [Init PlatformInit; Init UartInit; Init PrintBanner; Init KernelHalt].

Definition riscv_images : list image :=
  [kmain; kmain_bench_ipc; kmain_box; kmain_catalog; kmain_console; kmain_console_audit; kmain_console_namespace; kmain_console_orch;
   kmain_console_pack; kmain_console_quota; kmain_console_session; kmain_console_tenant; kmain_console_v7; kmain_desktop; kmain_edge; kmain_llm_net;
   kmain_load; kmain_memory; kmain_memory2; kmain_net; kmain_net_prod; kmain_orchestrator; kmain_ota; kmain_persist2; kmain_router; kmain_smp;
   kmain_storage2; kmain_tools2; kmain_ui; kmain_v040_riscv; kmain_v050_riscv; kmain_v061_riscv; kmain_v062_riscv; kmain_v063_riscv;
   kmain_v064_riscv; kmain_v070_riscv; kmain_v1; kmain_v100_riscv; kmain_vm3; kmain_wrap].

Definition x86_images : list image :=
  [kmain_console_x86; kmain_v01_beta_x86; kmain_v02_rc_x86; kmain_v030_x86; kmain_v040_x86; kmain_v060_x86; kmain_v062_x86; kmain_v063_x86;
   kmain_v064_x86; kmain_v070_x86; kmain_v100_x86; kmain_x86_smoke].
