(* ===== verification/X86Vm.v ===== *)
(** * Page tables of the PC port (kernel/arch/x86/vm.c)

    Two levels of 1024 entries of 32 bits; the tables come from a static root and a pool,
    as on the other platform, and the state is the same record [vm].  Unlike there, every
    agent has a complete set of tables of its own: [vm_create_agent_pt] maps the kernel
    again.  The port never turns paging on, so that the tables serve one purpose: the
    access check of the system calls ([vm_user_check]).

    [xlate86 m r va] is the entry the kernel finds for an address, and [mmu] what the
    processor does with it.  The theorems: a mapping changes the entry of its page in its
    table alone; the access check accepts a range exactly when its pages are; and the
    flags, which are those of the other platform, do not mean to the processor what they
    mean to the kernel. *)

From S2P Require Import Prelude Abi AgentDef Mem Vm VmTree.

(** [*pte & 0xfffff000] *)
Definition frame_of (x : Z) : Z := Z.land x 0xfffff000.

Definition zero_table : list Z := replicate 1024 0.

Definition pd_index (va : Z) : nat := Z.to_nat (Z.land (Z.shiftr va 22) 0x3ff).
Definition pt_index (va : Z) : nat := Z.to_nat (Z.land (Z.shiftr va 12) 0x3ff).

Definition pa_round_down (x : Z) : Z := align_down 12 x.
Definition pa_round_up (x : Z) : Z := align_down 12 (u32 (x + PAGE_SIZE - 1)).

(** The processor: its control registers and the memory. *)
Record x86 := mk_x86 { cr0 : Z; cr3 : Z; xmem : vm }.
Definition onxmem {A} (m : M vm A) : M x86 A := zoom xmem (λ v c, mk_x86 (cr0 c) (cr3 c) v) m.

Section vm.
Context {L : Layout}.

Definition pt_alloc : M vm Z :=
  λ v,
  if PT_PAGES <=? pt_next v then Ret (0, v)
  else
    let pt := pool_table (pt_next v) in
    Ret (pt, mk_vm (<[pt := zero_table]> (pt_mem v)) (pt_next v + 1) (kernel_pt v) (pmem v) (kheap v)).

(** The pointer to the entry of an address. *)
Definition vm_walk (pt va : Z) (alloc : bool) : M vm (option (Z * nat)) :=
  let p := (pt, pd_index va) in
  let! pde := get_pte p in
  if has PTE_V pde then ret (Some (frame_of pde, pt_index va))
  else if negb alloc then ret None
  else
    let! child := pt_alloc in
    if child =? 0 then ret None
    else
      set_pte p (Z.lor (Z.lor child PTE_V) PTE_W) ;;
      let! pde := get_pte p in
      ret (Some (frame_of pde, pt_index va)).

Definition x86_pte_flags (perm : Z) : Z :=
  let flags := Z.lor (Z.lor PTE_V PTE_A) PTE_D in
  if has PTE_U perm then
    let flags := Z.lor flags PTE_U in
    if has PTE_W perm then Z.lor flags PTE_W else flags
  else Z.lor flags PTE_W.

(** A user page opens its directory entry for user pages. *)
Definition open_pde (pt va perm : Z) : M vm unit :=
  if has PTE_U perm then
    let! pde := get_pte (pt, pd_index va) in
    set_pte (pt, pd_index va) (Z.lor pde (Z.lor PTE_U PTE_W))
  else ret tt.

Definition vm_map_page (pt va pa perm : Z) : M vm Z :=
  if negb (va mod PAGE_SIZE =? 0) || negb (pa mod PAGE_SIZE =? 0) then ret (-1)
  else
    let! pte := vm_walk pt va true in
    match pte with
    | None => ret (-1)
    | Some p =>
        let! e := get_pte p in
        if has PTE_V e && negb (frame_of e =? frame_of pa) then ret (-1)
        else open_pde pt va perm ;; set_pte p (Z.lor (frame_of pa) (x86_pte_flags perm)) ;; ret 0
    end.

Definition vm_map_user_page (pt va pa perm : Z) : M vm Z := vm_map_page pt va pa perm.

Definition vm_page_mapped (pt va : Z) : M vm bool :=
  let! pte := vm_walk pt (align_down 12 va) false in
  match pte with
  | None => ret false
  | Some p => let! e := get_pte p in ret (has PTE_V e)
  end.

Definition vm_user_mapped (pt va : Z) : M vm bool :=
  let! pte := vm_walk pt (align_down 12 va) false in
  match pte with
  | None => ret false
  | Some p => let! e := get_pte p in ret (has PTE_V e && has PTE_U e)
  end.

(** The fuel is the number of pages; behind the last page of the address space the
    counter wraps to 0. *)
Fixpoint check_pages (fuel : nat) (pt a end_ : Z) (write : bool) : M vm Z :=
  if negb (a <? end_) then ret 0
  else match fuel with
       | O => undef
       | S fuel' =>
           let! pte := vm_walk pt a false in
           match pte with
           | None => ret (-1)
           | Some p =>
               let! e := get_pte p in
               if negb (has PTE_V e) then ret (-1)
               else if negb (has PTE_U e) then ret (-1)
               else if write && negb (has PTE_W e) then ret (-1)
               else check_pages fuel' pt (u32 (a + PAGE_SIZE)) end_ write
           end
       end.

Definition vm_user_check (pt ua len : Z) (write : bool) : M vm Z :=
  if len =? 0 then ret 0
  else
    let end_ := u32 (ua + len) in
    if end_ <? ua then ret (-1)
    else
      let a := align_down 12 ua in
      check_pages (Z.to_nat ((end_ - a) / PAGE_SIZE + 1)) pt a end_ write.

(** ** Agent heaps *)

(** The flags of a private page and of an aliased one. *)
Definition PTE_OWN : Z := Z.lor (Z.lor (Z.lor (Z.lor PTE_V PTE_U) PTE_W) PTE_A) PTE_D.
Definition PTE_SHARED : Z := Z.lor (Z.lor (Z.lor PTE_V PTE_U) PTE_A) PTE_D.

Definition vm_cow_break (page_va : Z) : M vstate Z :=
  let page_va := align_down 12 page_va in
  let! pt := ag pagetable in
  let! pte := onvm (vm_walk pt page_va false) in
  match pte with
  | None => ret (-1)
  | Some p =>
      let! e := onvm (get_pte p) in
      if negb (has PTE_V e) then ret (-1)
      else if has PTE_W e then ret 0
      else
        let old_pa := frame_of e in
        let! new_pa := onvm vm_kalloc_page in
        if new_pa =? 0 then ret (-1)
        else
          onvm (modify (λ v, with_pmem (copy_bytes (Z.to_nat PAGE_SIZE) new_pa old_pa (pmem v)) v)) ;;
          onvm (set_pte p (Z.lor (frame_of new_pa) PTE_OWN)) ;;
          ret 0
  end.

Definition vm_heap_cow_alias (dst_off src_off : Z) : M vstate Z :=
  let! a := gets snd in
  if pagetable a =? 0 then ret EINVAL
  else if dst_off =? src_off then ret EINVAL
  else if (src_off <? 0) || (heap_max_pages a <=? src_off) then ret EINVAL
  else if (dst_off <? 0) || (heap_max_pages a <=? dst_off) then ret EINVAL
  else
    let pt := pagetable a in
    let src_va := u32 (heap_base a + src_off * PAGE_SIZE) in
    let dst_va := u32 (heap_base a + dst_off * PAGE_SIZE) in
    let! mapped := onvm (vm_page_mapped pt src_va) in
    if negb mapped then ret EINVAL
    else
      let! src_pte := onvm (vm_walk pt src_va false) in
      match src_pte with
      | None => ret EINVAL
      | Some sp =>
          let! se := onvm (get_pte sp) in
          if negb (has PTE_V se) then ret EINVAL
          else
            let pa := frame_of se in
            let! dmapped := onvm (vm_page_mapped pt dst_va) in
            let! rc :=
              (if dmapped : bool then
                 let! dst_pte := onvm (vm_walk pt dst_va false) in
                 match dst_pte with
                 | None => ret EINVAL
                 | Some dp =>
                     let! de := onvm (get_pte dp) in
                     if negb (has PTE_V de) then ret EINVAL
                     else if negb (frame_of de =? pa) then ret EINVAL
                     else ret 0
                 end
               else
                 if heap_max_pages a <=? heap_mapped a then ret ENOSPC
                 else
                   let! rc := onvm (vm_map_user_page pt dst_va pa (Z.lor PTE_U PTE_R)) in
                   if negb (rc =? 0) then ret ENOSPC
                   else setag (λ a, upd.heap_mapped (heap_mapped a + 1) a) ;; ret 0) in
            if negb (rc =? 0) then ret rc
            else
              onvm (set_pte sp (Z.lor (frame_of pa) PTE_SHARED)) ;;
              let! dst_pte := onvm (vm_walk pt dst_va false) in
              match dst_pte with
              | None => ret EINVAL
              | Some dp =>
                  let! de := onvm (get_pte dp) in
                  if negb (has PTE_V de) then ret EINVAL
                  else onvm (set_pte dp (Z.lor (frame_of pa) PTE_SHARED)) ;; ret (i32 dst_va)
              end
      end.

Definition in_heap (a : agent) (va : Z) : bool :=
  negb ((va <? heap_base a) || (u32 (heap_base a + heap_max_pages a * PAGE_SIZE) <=? va)).

Definition vm_heap_map_page (va : Z) : M vstate Z :=
  let! a := gets snd in
  if pagetable a =? 0 then ret (-1)
  else
    let page_va := align_down 12 va in
    if negb (in_heap a va) then ret (-1)
    else
      let! mapped := onvm (vm_page_mapped (pagetable a) page_va) in
      if mapped : bool then ret 0
      else if heap_max_pages a <=? heap_mapped a then ret (-1)
      else
        let! pa := onvm vm_kalloc_page in
        if pa =? 0 then ret (-1)
        else
          let! rc := onvm (vm_map_user_page (pagetable a) page_va pa (Z.lor (Z.lor PTE_U PTE_R) PTE_W)) in
          if negb (rc =? 0) then ret (-1)
          else setag (λ a, upd.heap_mapped (heap_mapped a + 1) a) ;; ret 0.

(** Whether the fault was handled. *)
Definition vm_heap_fault (va : Z) (write : bool) : M vstate bool :=
  let! a := gets snd in
  if pagetable a =? 0 then ret false
  else if negb (in_heap a va) then ret false
  else
    let page_va := align_down 12 va in
    let! mapped := onvm (vm_page_mapped (pagetable a) page_va) in
    if mapped : bool then
      if negb write then ret false
      else
        let! pte := onvm (vm_walk (pagetable a) page_va false) in
        match pte with
        | None => ret false
        | Some p =>
            let! e := onvm (get_pte p) in
            if has PTE_V e && negb (has PTE_W e)
            then let! rc := vm_cow_break page_va in ret (rc =? 0)
            else ret false
        end
    else let! rc := vm_heap_map_page va in ret (rc =? 0).

(** ** Regions and initialisation *)

Fixpoint map_pages (fuel : nat) (pt a last pa perm : Z) : M vm Z :=
  if negb (a <? last) then ret 0
  else match fuel with
       | O => undef
       | S fuel' =>
           let! rc := vm_map_page pt a pa perm in
           if negb (rc =? 0) then ret (-1)
           else map_pages fuel' pt (u32 (a + PAGE_SIZE)) last (u32 (pa + PAGE_SIZE)) perm
       end.

Definition vm_map_region (pt va pa size perm : Z) : M vm Z :=
  let a := pa_round_down va in
  let last := pa_round_up (u32 (va + size)) in
  map_pages (Z.to_nat ((last - a) / PAGE_SIZE + 1)) pt a last (u32 (pa + (a - va))) perm.

Definition map_kernel (pt : Z) : M vm Z :=
  let data_start := pa_round_up sym_erodata in
  map_all ([vm_map_region pt sym_start sym_start (u32 (sym_erodata - sym_start)) (Z.lor PTE_R PTE_X)]
           ++ (if data_start <? sym_end
               then [vm_map_region pt data_start data_start (u32 (sym_end - data_start)) (Z.lor PTE_R PTE_W)]
               else [])
           ++ (if sym_user_text_start <? sym_user_end
               then [vm_map_region pt sym_user_text_start sym_user_text_start
                       (u32 (sym_user_end - sym_user_text_start)) (Z.lor (Z.lor PTE_U PTE_R) PTE_W)]
               else [])
           ++ [vm_map_region pt platform_heap_start platform_heap_start HEAP_MAP_SIZE (Z.lor PTE_R PTE_W);
               vm_map_region pt sym_ptpool_start sym_ptpool_start
                 (u32 (sym_ptpool_end - sym_ptpool_start)) (Z.lor PTE_R PTE_W)]).

Definition vm_map_user_stack (pt agent_id stack_pa stack_size : Z) : M vm Z :=
  let slot := u32 (USER_STACK_BASE + agent_id * USER_STACK_SLOT) in
  let va := u32 (slot + PAGE_SIZE) in
  vm_map_region pt va stack_pa stack_size (Z.lor (Z.lor PTE_U PTE_R) PTE_W).

Definition vm_map_user_text (pt : Z) : M vm Z :=
  let code_size := u32 (sym_user_bss_start - sym_user_text_start) in
  let bss_size := u32 (sym_user_end - sym_user_bss_start) in
  map_all ((if 0 <? code_size
            then [vm_map_region pt sym_user_text_start sym_user_text_start
                    (Z.max code_size PAGE_SIZE) (Z.lor (Z.lor PTE_U PTE_R) PTE_X)] else [])
           ++ (if 0 <? bss_size
               then [vm_map_region pt sym_user_bss_start sym_user_bss_start
                       (Z.max bss_size PAGE_SIZE) (Z.lor (Z.lor PTE_U PTE_R) PTE_W)] else [])).

Definition vm_create_agent_pt : M vm Z :=
  let! pt := pt_alloc in
  if pt =? 0 then ret 0
  else
    let! rc := map_kernel pt in
    if negb (rc =? 0) then ret 0 else ret pt.

(** ** The control registers *)

(** The bit of CR0 that turns paging on. *)
Definition CR0_PG : Z := 0x80000000.

(** Nothing calls it. *)
Definition vm_enable_paging : M x86 unit := modify (λ c, mk_x86 (Z.lor (cr0 c) CR0_PG) (cr3 c) (xmem c)).

Definition vm_activate (pt : Z) : M x86 unit := modify (λ c, mk_x86 (cr0 c) pt (xmem c)).

Definition vm_current_pt : M x86 Z := gets cr3.

Definition vm_init : M x86 unit :=
  onxmem (modify (λ v, mk_vm (<[root_table := zero_table]> (pt_mem v)) 0 root_table (pmem v) (kheap v))) ;;
  let! k := gets (λ c, kernel_pt (xmem c)) in
  let! rc := onxmem (map_kernel k) in
  if negb (rc =? 0) then ret tt else vm_activate k.

End vm.

(** ** Entries *)

Definition word32 (e : Z) : Prop := 0 ≤ e < 4294967296.
Definition page32 (pa : Z) : Prop := pa mod 4096 = 0 ∧ 0 ≤ pa < 4294967296.

Lemma frame_spec x : word32 x → frame_of x = x / 4096 * 4096.
Proof.
  intros Hx. unfold frame_of. change 0xfffff000 with (Z.ldiff (Z.ones 32) (Z.ones 12)).
  replace (Z.land x (Z.ldiff (Z.ones 32) (Z.ones 12))) with (Z.ldiff (Z.land x (Z.ones 32)) (Z.ones 12)).
  - rewrite Z.land_ones, Z.mod_small, Z.ldiff_ones_r by (unfold word32 in Hx; lia).
    by rewrite Z.shiftl_mul_pow2, Z.shiftr_div_pow2 by lia.
  - apply Z.bits_inj'. intros n Hn. rewrite Z.land_spec, !Z.ldiff_spec, Z.land_spec. by rewrite andb_assoc.
Qed.

Lemma frame_page x : word32 x → page32 (frame_of x).
Proof. intros Hx. rewrite frame_spec by done. unfold page32, word32 in *. split; [by apply Z_mod_mult|]. Z.to_euclidean_division_equations; lia. Qed.

Lemma frame_id pa : page32 pa → frame_of pa = pa.
Proof. intros [Ha Hp]. rewrite frame_spec by done. Z.to_euclidean_division_equations; lia. Qed.

Lemma frame_flags f : 0 ≤ f < 4096 → frame_of f = 0.
Proof. intros Hf. rewrite frame_spec by (unfold word32; lia). by rewrite Z.div_small by lia. Qed.

Lemma frame_land pa g : page32 pa → 0 ≤ g < 4096 → Z.land pa g = 0.
Proof.
  intros [Ha Hp] Hg. replace pa with (Z.shiftl (pa / 4096) 12) by (rewrite Z.shiftl_mul_pow2 by lia; Z.to_euclidean_division_equations; lia).
  apply Z.bits_inj'. intros n Hn. rewrite Z.land_spec, Z.bits_0. destruct (Z.lt_ge_cases n 12) as [H|H].
  - by rewrite Z.shiftl_spec_low.
  - replace (Z.testbit g n) with false; [by rewrite andb_false_r|]. symmetry. destruct (Z.eq_dec g 0) as [->|]; [apply Z.testbit_0_l|].
    apply Z.bits_above_log2; [lia|]. assert (Z.log2 g < 12); [|lia]. apply Z.log2_lt_pow2; lia.
Qed.

(** An entry made of a page and flags. *)
Lemma entry_frame pa f : page32 pa → 0 ≤ f < 4096 → frame_of (Z.lor pa f) = pa.
Proof. intros Hp Hf. unfold frame_of. rewrite Z.land_lor_distr_l. fold (frame_of pa) (frame_of f). by rewrite frame_id, frame_flags, Z.lor_0_r. Qed.

Lemma entry_has pa f g : page32 pa → 0 ≤ g < 4096 → has g (Z.lor pa f) = has g f.
Proof. intros Hp Hg. unfold has. by rewrite Z.land_lor_distr_l, (frame_land pa g), Z.lor_0_l. Qed.

Lemma lor_word a b : word32 a → word32 b → word32 (Z.lor a b).
Proof.
  intros [Ha1 Ha2] [Hb1 Hb2]. split; [by apply Z.lor_nonneg|]. destruct (Z.eq_dec (Z.lor a b) 0) as [->|Hn]; [lia|].
  assert (0 < Z.lor a b) by (pose proof (proj2 (Z.lor_nonneg a b) (conj Ha1 Hb1)); lia).
  apply (Z.log2_lt_pow2 _ 32); [done|]. rewrite Z.log2_lor by done. apply Z.max_lub_lt.
  - destruct (Z.eq_dec a 0) as [->|]; [done|]. apply Z.log2_lt_pow2; lia.
  - destruct (Z.eq_dec b 0) as [->|]; [done|]. apply Z.log2_lt_pow2; lia.
Qed.

Lemma flags_small perm : 0 ≤ x86_pte_flags perm < 4096.
Proof. unfold x86_pte_flags. destruct (has PTE_U perm), (has PTE_W perm); done. Qed.

Lemma flags_valid perm : has PTE_V (x86_pte_flags perm) = true.
Proof. unfold x86_pte_flags. destruct (has PTE_U perm), (has PTE_W perm); done. Qed.

Lemma flags_user perm : has PTE_U (x86_pte_flags perm) = has PTE_U perm.
Proof. unfold x86_pte_flags. destruct (has PTE_U perm), (has PTE_W perm); done. Qed.

(** A kernel page always has the flag, a user page when it is asked for. *)
Lemma flags_write perm : has PTE_W (x86_pte_flags perm) = negb (has PTE_U perm) || has PTE_W perm.
Proof. unfold x86_pte_flags. destruct (has PTE_U perm), (has PTE_W perm); done. Qed.

(** ** Trees *)

(** The entry the kernel finds for an address. *)
Definition xlate86 (m : gmap Z (list Z)) (r va : Z) : option Z :=
  pde ← ent m r (pd_index va);
  if has PTE_V pde then e ← ent m (frame_of pde) (pt_index va); if has PTE_V e then Some e else None
  else None.

Definition same_page86 (x y : Z) : Prop := pd_index x = pd_index y ∧ pt_index x = pt_index y.
#[export] Instance same_page86_dec x y : Decision (same_page86 x y) :=
  @and_dec _ (Nat.eq_dec (pd_index x) (pd_index y)) _ (Nat.eq_dec (pt_index x) (pt_index y)).

Lemma pd_index86_lt va : (pd_index va < 1024)%nat.
Proof. unfold pd_index. change 0x3ff with (Z.ones 10). rewrite Z.land_ones by lia. pose proof (Z.mod_pos_bound (Z.shiftr va 22) (2 ^ 10)). change (2 ^ 10) with 1024 in *. lia. Qed.

Lemma pt_index86_lt va : (pt_index va < 1024)%nat.
Proof. unfold pt_index. change 0x3ff with (Z.ones 10). rewrite Z.land_ones by lia. pose proof (Z.mod_pos_bound (Z.shiftr va 12) (2 ^ 10)). change (2 ^ 10) with 1024 in *. lia. Qed.

(** Addresses are on the same page when they have the same page number. *)
Lemma same_page86_div x y : word32 x → word32 y → same_page86 x y ↔ x / 4096 = y / 4096.
Proof.
  unfold word32. intros Hx Hy. unfold same_page86, pd_index, pt_index. change 0x3ff with (Z.ones 10).
  rewrite !Z.land_ones, !Z.shiftr_div_pow2 by lia. change (2 ^ 10) with 1024. change (2 ^ 22) with 4194304. change (2 ^ 12) with 4096.
  split; [intros [H1 H2]; apply Z2Nat.inj in H1, H2; Z.to_euclidean_division_equations; lia|]. intros E.
  assert (x / 4194304 = y / 4194304) as -> by (Z.to_euclidean_division_equations; lia). by rewrite E.
Qed.

Section tree.
Context {L : Layout}.

(** What the linker guarantees about the static tables. *)
Class X86Laws : Prop := {
  x_root : page32 root_table;
  x_pool : page32 pt_storage;
  x_pool_low : 0 < pt_storage;
  x_pool_top : pt_storage + 4096 * PT_PAGES < 4294967296;
  x_distinct : ∀ k, 0 ≤ k < PT_PAGES → root_table ≠ pool_table k;
  x_symbols : 0 ≤ sym_start ∧ 0 ≤ sym_user_text_start ∧ 0 ≤ sym_user_bss_start ∧ 0 ≤ platform_heap_start ∧ 0 ≤ sym_ptpool_start
}.
Context {XL : X86Laws}.

(** The tables of the roots [R]: every directory entry leads to a table that is not a
    root, and no two of them to the same one. *)
Record x_wf (R : gset Z) (v : vm) : Prop := {
  xw_next : 0 ≤ pt_next v ≤ PT_PAGES;
  xw_tables : ∀ t, is_Some (pt_mem v !! t) ↔ is_table v t;
  xw_len : ∀ t tbl, pt_mem v !! t = Some tbl → length tbl = 1024%nat;
  xw_word : ∀ t i e, ent (pt_mem v) t i = Some e → word32 e;
  xw_roots : ∀ r, r ∈ R → is_table v r;
  xw_child : ∀ r i e, r ∈ R → ent (pt_mem v) r i = Some e → has PTE_V e = true → is_table v (frame_of e) ∧ frame_of e ∉ R;
  xw_dir : ∀ r i e, r ∈ R → ent (pt_mem v) r i = Some e → has PTE_V e = true → has PTE_R e = false ∧ has PTE_W e = true;
  xw_inj : ∀ r i e r' i' e', r ∈ R → r' ∈ R → ent (pt_mem v) r i = Some e → ent (pt_mem v) r' i' = Some e' →
    has PTE_V e = true → has PTE_V e' = true → frame_of e = frame_of e' → r = r' ∧ i = i'
}.

Lemma pool_page32 k : 0 ≤ k < PT_PAGES → page32 (pool_table k).
Proof.
  intros Hk. destruct x_pool as [Ha Hp]. pose proof x_pool_top. unfold pool_table, page32, PT_PAGES in *. split; [|lia].
  replace (pt_storage + 4096 * k) with (pt_storage + k * 4096) by lia. by rewrite Z.mod_add by lia.
Qed.

Lemma ent_exists R v t i : x_wf R v → is_table v t → (i < 1024)%nat → ∃ e, ent (pt_mem v) t i = Some e ∧ word32 e.
Proof.
  intros Hw Ht Hi. apply (xw_tables R v Hw) in Ht as [tbl E].
  destruct (lookup_lt_is_Some_2 tbl i) as [e Ee]; [by rewrite (xw_len R v Hw t tbl)|].
  assert (ent (pt_mem v) t i = Some e) as H by (unfold ent; by rewrite E). exists e. split; [done|by eapply xw_word].
Qed.

Lemma ent_no_table R v t i : x_wf R v → ¬ is_table v t → ent (pt_mem v) t i = None.
Proof. intros Hw Ht. unfold ent. destruct (pt_mem v !! t) as [tbl|] eqn:E; [|done]. exfalso. apply Ht, (xw_tables R v Hw). by exists tbl. Qed.

(** *** Writing an entry *)

Lemma set_ent_tables (m : gmap Z (list Z)) t i e x : is_Some (set_ent m t i e !! x) ↔ is_Some (m !! x).
Proof. unfold set_ent. by rewrite lookup_alter_is_Some. Qed.

Lemma set_ent_len (n : nat) (m : gmap Z (list Z)) t i e :
  (∀ x tbl, m !! x = Some tbl → length tbl = n) → ∀ x tbl, set_ent m t i e !! x = Some tbl → length tbl = n.
Proof.
  intros Hm x tbl. unfold set_ent. rewrite lookup_alter. case_decide as Et; [|apply Hm]. subst x. destruct (m !! t) as [tb|] eqn:E; [|done].
  cbn. intros [= <-]. rewrite length_insert. by eapply Hm.
Qed.

(** The directory entry [(r, i)] keeps its table. *)
Lemma set_pde_wf R v r i e e' :
  x_wf R v → r ∈ R → ent (pt_mem v) r i = Some e → has PTE_V e' = has PTE_V e → frame_of e' = frame_of e → word32 e' →
  has PTE_R e' = has PTE_R e → has PTE_W e' = true →
  x_wf R (with_pt (set_ent (pt_mem v) r i e') v).
Proof.
  intros Hw Hr He HV Hf Hwd HR HW. destruct Hw as [W1 W2 W3 W4 W5 W6 W8 W7].
  assert (∀ t j x, ent (set_ent (pt_mem v) r i e') t j = Some x →
    ∃ y, ent (pt_mem v) t j = Some y ∧ has PTE_V x = has PTE_V y ∧ frame_of x = frame_of y ∧ word32 x
      ∧ has PTE_R x = has PTE_R y ∧ (has PTE_W y = true → has PTE_W x = true)) as Hent.
  { intros t j x. rewrite ent_set. case_decide as Hd; [|intros Hx; exists x; naive_solver].
    destruct Hd as [-> ->]. rewrite He. cbn. intros [= <-]. by exists e. }
  constructor; cbn; try done.
  - intros t. etransitivity; [apply set_ent_tables|apply W2].
  - by apply set_ent_len.
  - intros t j x Hx. by destruct (Hent t j x Hx) as (y & _ & _ & _ & ? & _).
  - intros r1 j x Hr1 Hx Hxv. destruct (Hent r1 j x Hx) as (y & Hy & E1 & E2 & _). rewrite E2. apply (W6 r1 j y); [done..|congruence].
  - intros r1 j x Hr1 Hx Hxv. destruct (Hent r1 j x Hx) as (y & Hy & E1 & _ & _ & E2 & E3). rewrite E1 in Hxv. rewrite E2.
    destruct (W8 r1 j y Hr1 Hy Hxv). auto.
  - intros r1 j x r2 k y Hr1 Hr2 Hx Hy Hxv Hyv E. destruct (Hent r1 j x Hx) as (x' & Hx' & E1 & E2 & _), (Hent r2 k y Hy) as (y' & Hy' & E3 & E4 & _).
    eapply (W7 r1 j x' r2 k y'); congruence.
Qed.

(** An entry of a table that is not a root. *)
Lemma set_pte_wf R v t i e :
  x_wf R v → t ∉ R → word32 e → x_wf R (with_pt (set_ent (pt_mem v) t i e) v).
Proof.
  intros [W1 W2 W3 W4 W5 W6 W8 W7] Ht Hwd.
  assert (∀ r j, r ∈ R → ent (set_ent (pt_mem v) t i e) r j = ent (pt_mem v) r j) as Hroot.
  { intros r j Hr. rewrite ent_set, decide_False; [done|]. intros [-> _]. done. }
  constructor; cbn; try done.
  - intros x. etransitivity; [apply set_ent_tables|apply W2].
  - by apply set_ent_len.
  - intros x j y. rewrite ent_set. case_decide as Hd; [|apply W4]. destruct (ent (pt_mem v) t i); [|done]. cbn. by intros [= <-].
  - intros r j x Hr. rewrite Hroot by done. by apply W6.
  - intros r j x Hr. rewrite Hroot by done. by apply W8.
  - intros r j x r' j' y Hr Hr'. rewrite !Hroot by done. by apply W7.
Qed.

(** *** A new table *)

Lemma fresh_table R v : x_wf R v → pt_next v < PT_PAGES → ¬ is_table v (next_table v).
Proof.
  intros Hw Hn [E|(k & Hk & E)].
  - symmetry in E. revert E. apply x_distinct. pose proof (xw_next R v Hw). lia.
  - unfold next_table, pool_table in E. lia.
Qed.

Definition alloc86 (v : vm) : vm :=
  mk_vm (<[next_table v := zero_table]> (pt_mem v)) (pt_next v + 1) (kernel_pt v) (pmem v) (kheap v).

Lemma zero_table86_lookup i x : zero_table !! i = Some x → x = 0.
Proof. unfold zero_table. by intros [-> _]%lookup_replicate. Qed.

Lemma is_table_alloc86 R v t : x_wf R v → is_table (alloc86 v) t ↔ is_table v t ∨ t = next_table v.
Proof.
  intros Hw. pose proof (xw_next R v Hw). unfold is_table, next_table. simpl. split.
  - intros [->|(k & Hk & ->)]; [by left; left|].
    destruct (decide (k = pt_next v)) as [->|]; [by right|]. left. right. exists k. split; [lia|done].
  - intros [[->|(k & Hk & ->)]| ->]; [by left|right; exists k; split; [lia|done]|].
    right. exists (pt_next v). split; [lia|done].
Qed.

Lemma alloc86_ent R v t i : x_wf R v → pt_next v < PT_PAGES → t ≠ next_table v → ent (pt_mem (alloc86 v)) t i = ent (pt_mem v) t i.
Proof. intros Hw Hn Ht. cbn. by rewrite ent_new, decide_False. Qed.

(** The new table is empty; it may become a root. *)
Lemma alloc86_wf R v : x_wf R v → pt_next v < PT_PAGES → x_wf R (alloc86 v) ∧ x_wf ({[next_table v]} ∪ R) (alloc86 v).
Proof.
  intros Hw Hn. pose proof (fresh_table R v Hw Hn) as Hfr. pose proof (λ t, is_table_alloc86 R v t Hw) as Hit.
  assert (∀ i e, ent (pt_mem (alloc86 v)) (next_table v) i = Some e → has PTE_V e = false) as Hz.
  { intros i e. cbn. rewrite ent_new, decide_True by done. by intros ->%zero_table86_lookup. }
  assert (∀ r i, r ∈ R → ent (pt_mem (alloc86 v)) r i = ent (pt_mem v) r i) as Hold.
  { intros r i Hr. apply (alloc86_ent R); [done..|]. intros ->. by apply Hfr, (xw_roots R v Hw). }
  assert (∀ R', R' ⊆ {[next_table v]} ∪ R → x_wf R' (alloc86 v)) as H; [|split; apply H; set_solver].
  intros R' HR. destruct Hw as [W1 W2 W3 W4 W5 W6 W8 W7].
  assert (∀ r i e, r ∈ R' → ent (pt_mem (alloc86 v)) r i = Some e → has PTE_V e = true → r ∈ R ∧ ent (pt_mem v) r i = Some e) as Hv.
  { intros r i e Hr He HV. apply HR in Hr. apply elem_of_union in Hr as [->%elem_of_singleton|Hr].
    - apply Hz in He. congruence.
    - split; [done|]. by rewrite <- Hold. }
  constructor.
  - cbn. lia.
  - intros t. rewrite Hit, <- W2. cbn. destruct (decide (t = next_table v)) as [->|Hne].
    + rewrite lookup_insert_eq. naive_solver.
    + rewrite lookup_insert_ne by done. naive_solver.
  - intros t tbl. cbn. destruct (decide (t = next_table v)) as [->|Hne].
    + rewrite lookup_insert_eq. by intros [= <-].
    + rewrite lookup_insert_ne by done. apply W3.
  - intros t i e. cbn. rewrite ent_new. case_decide; [by intros ->%zero_table86_lookup|apply W4].
  - intros r Hr. apply Hit. apply HR, elem_of_union in Hr as [->%elem_of_singleton|Hr]; auto.
  - intros r i e Hr He HV. destruct (Hv r i e Hr He HV) as [Hr' He']. destruct (W6 r i e Hr' He' HV) as [H1 H2]. split; [apply Hit; auto|].
    intros H3. apply HR, elem_of_union in H3 as [E%elem_of_singleton|H3]; [rewrite E in H1|]; done.
  - intros r i e Hr He HV. destruct (Hv r i e Hr He HV) as [Hr' He']. eauto.
  - intros r i e r' i' e' Hr Hr' He He' HV HV'. destruct (Hv r i e Hr He HV), (Hv r' i' e' Hr' He' HV'). by apply W7.
Qed.

(** A directory entry that was empty leads to a table that no other leads to. *)
Lemma link_wf R v r i t e :
  x_wf R v → r ∈ R → is_table v t → page32 t → t ∉ R → ent (pt_mem v) r i = Some e →
  (∀ r' i' e', r' ∈ R → ent (pt_mem v) r' i' = Some e' → has PTE_V e' = true → frame_of e' ≠ t) →
  x_wf R (with_pt (set_ent (pt_mem v) r i (Z.lor (Z.lor t PTE_V) PTE_W)) v).
Proof.
  intros [W1 W2 W3 W4 W5 W6 W8 W7] Hr Ht Hp HtR He Hfree. set (e' := Z.lor (Z.lor t PTE_V) PTE_W).
  assert (e' = Z.lor t 5) as Ee' by (unfold e'; by rewrite <- Z.lor_assoc).
  assert (frame_of e' = t) as Hfr by (by rewrite Ee', entry_frame).
  assert (∀ g, 0 ≤ g < 4096 → has g e' = has g 5) as Hh by (intros; by rewrite Ee', entry_has).
  assert (word32 e') as Hwd by (rewrite Ee'; apply lor_word; [apply Hp|done]).
  assert (∀ x j y, ent (set_ent (pt_mem v) r i e') x j = Some y → (x = r ∧ j = i ∧ y = e') ∨ ((x, j) ≠ (r, i) ∧ ent (pt_mem v) x j = Some y)) as Hent.
  { intros x j y. rewrite ent_set. case_decide as Hd.
    - destruct Hd as [-> ->]. rewrite He. intros Ey. apply (inj Some) in Ey. by left.
    - intros Hx. right. split; [naive_solver|done]. }
  constructor; cbn; try done.
  - intros x. etransitivity; [apply set_ent_tables|apply W2].
  - by apply set_ent_len.
  - intros x j y Hy. destruct (Hent x j y Hy) as [(_ & _ & ->)|[_ ?]]; [done|by eapply W4].
  - intros x j y Hx Hy HV. destruct (Hent x j y Hy) as [(_ & _ & ->)|[_ Hy']]; [by rewrite Hfr|by eapply W6].
  - intros x j y Hx Hy HV. destruct (Hent x j y Hy) as [(_ & _ & ->)|[_ Hy']]; [by rewrite !Hh|by eapply W8].
  - intros x j y x' j' y' Hx Hx' Hy Hy' HV HV' Ef.
    destruct (Hent x j y Hy) as [(-> & -> & ->)|[Hn Hy0]], (Hent x' j' y' Hy') as [(-> & -> & ->)|[Hn' Hy0']].
    + done.
    + exfalso. apply (Hfree x' j' y'); [done..|congruence].
    + exfalso. apply (Hfree x j y); [done..|congruence].
    + by apply (W7 x j y x' j' y').
Qed.

(** ** The entry of an address *)

(** Everything but the tables stays, and directory entries keep their tables. *)
Record keeps86 (R : gset Z) (v v' : vm) : Prop := {
  k86_next : pt_next v ≤ pt_next v';
  k86_kernel : kernel_pt v' = kernel_pt v;
  k86_pmem : pmem v' = pmem v;
  k86_heap : kheap v' = kheap v;
  k86_dir : ∀ r i pde, r ∈ R → ent (pt_mem v) r i = Some pde → has PTE_V pde = true →
    ∃ pde', ent (pt_mem v') r i = Some pde' ∧ has PTE_V pde' = true ∧ frame_of pde' = frame_of pde
}.

Lemma keeps86_refl R v : keeps86 R v v.
Proof. constructor; [done..|]. intros r i pde _ Hp HV. by exists pde. Qed.

Lemma keeps86_trans R v v1 v2 : keeps86 R v v1 → keeps86 R v1 v2 → keeps86 R v v2.
Proof.
  intros [A1 A2 A3 A4 A5] [B1 B2 B3 B4 B5]. constructor; [lia|congruence..|]. intros r i pde Hr Hp HV.
  destruct (A5 r i pde Hr Hp HV) as (p1 & Hp1 & HV1 & E1), (B5 r i p1 Hr Hp1 HV1) as (p2 & Hp2 & HV2 & E2).
  exists p2. split; [done|]. split; [done|]. congruence.
Qed.

(** Writing an entry of a table that is not a root. *)
Lemma keeps86_leaf R v t i e : t ∉ R → keeps86 R v (with_pt (set_ent (pt_mem v) t i e) v).
Proof.
  intros Ht. constructor; [done..|]. intros r j pde Hr Hp HV. exists pde. split; [|done]. cbn [pt_mem with_pt].
  rewrite ent_set, decide_False; [done|]. by intros [-> _].
Qed.

(** The tables of the roots give the same entries. *)
Definition same_xlate (R : gset Z) (v v' : vm) : Prop := ∀ r va, r ∈ R → xlate86 (pt_mem v') r va = xlate86 (pt_mem v) r va.

Lemma xlate86_dir R v r va pde :
  x_wf R v → r ∈ R → ent (pt_mem v) r (pd_index va) = Some pde → has PTE_V pde = true →
  ∃ e, ent (pt_mem v) (frame_of pde) (pt_index va) = Some e ∧ word32 e
    ∧ xlate86 (pt_mem v) r va = if has PTE_V e then Some e else None.
Proof.
  intros Hw Hr Hp HV. destruct (xw_child R v Hw r _ pde Hr Hp HV) as [Ht _].
  destruct (ent_exists R v _ (pt_index va) Hw Ht (pt_index86_lt va)) as (e & He & Hwd). exists e. split; [done|]. split; [done|].
  unfold xlate86. rewrite Hp. cbn. by rewrite HV, He.
Qed.

(** Rewriting a directory entry to the same table. *)
Lemma xlate86_set_pde R v r i e e' :
  x_wf R v → r ∈ R → ent (pt_mem v) r i = Some e → has PTE_V e' = has PTE_V e → frame_of e' = frame_of e →
  same_xlate R v (with_pt (set_ent (pt_mem v) r i e') v).
Proof.
  intros Hw Hr He HV Hf r' va Hr'. unfold xlate86. cbn [pt_mem with_pt]. rewrite ent_set. case_decide as Hd.
  - destruct Hd as [-> Hi]. rewrite He. rewrite <- Hi in He. rewrite He. cbn. rewrite HV, Hf. destruct (has PTE_V e) eqn:HVe; [|done].
    rewrite ent_set, decide_False; [done|]. intros [E _]. apply (proj2 (xw_child R v Hw r _ e Hr He HVe)). by rewrite E.
  - destruct (ent (pt_mem v) r' (pd_index va)) as [pde|] eqn:Ep; [|done]. cbn. destruct (has PTE_V pde) eqn:HVp; [|done].
    rewrite ent_set, decide_False; [done|]. intros [E _]. apply (proj2 (xw_child R v Hw r' _ pde Hr' Ep HVp)). by rewrite E.
Qed.

(** Writing the entry of a page changes it in one table. *)
Lemma xlate86_set_leaf R v r va pde e :
  x_wf R v → r ∈ R → ent (pt_mem v) r (pd_index va) = Some pde → has PTE_V pde = true →
  ∀ r' va', r' ∈ R → xlate86 (set_ent (pt_mem v) (frame_of pde) (pt_index va) e) r' va'
    = if decide (r' = r ∧ same_page86 va va') then (if has PTE_V e then Some e else None) else xlate86 (pt_mem v) r' va'.
Proof.
  intros Hw Hr Hp HV r' va' Hr'. destruct (xw_child R v Hw r _ pde Hr Hp HV) as [Ht Hn].
  unfold xlate86 at 1. rewrite ent_set, decide_False by (intros [-> _]; done).
  destruct (ent (pt_mem v) r' (pd_index va')) as [pde'|] eqn:Ep'; cbn.
  2: { destruct (ent_exists R v r' (pd_index va') Hw) as (x & Ex & _); [by apply (xw_roots R v Hw)|apply pd_index86_lt|]. congruence. }
  destruct (has PTE_V pde') eqn:HV'.
  2: { rewrite decide_False; [unfold xlate86; rewrite Ep'; cbn; by rewrite HV'|]. intros [-> [E _]]. rewrite <- E in Ep'. congruence. }
  destruct (ent_exists R v (frame_of pde) (pt_index va) Hw Ht (pt_index86_lt va)) as (x & Ex & _).
  rewrite ent_set. case_decide as Hd.
  - destruct Hd as [Ef Ei]. destruct (xw_inj R v Hw r' (pd_index va') pde' r (pd_index va) pde) as [-> Ed]; [done..|].
    rewrite decide_True by (split; [done|split; done]). by rewrite Ex.
  - rewrite decide_False.
    + unfold xlate86. rewrite Ep'. cbn. by rewrite HV'.
    + intros [-> [E1 E2]]. apply Hd. split; [|done]. rewrite <- E1 in Ep'. congruence.
Qed.

Lemma vm_walk_false R v r va :
  x_wf R v → r ∈ R → ∃ pde, ent (pt_mem v) r (pd_index va) = Some pde ∧ word32 pde
    ∧ vm_walk r va false v = Ret (if has PTE_V pde then Some (frame_of pde, pt_index va) else None, v).
Proof.
  intros Hw Hr. destruct (ent_exists R v r (pd_index va) Hw (xw_roots R v Hw r Hr) (pd_index86_lt va)) as (pde & Hp & Hwd).
  exists pde. split; [done|]. split; [done|]. unfold vm_walk. rewrite (bind_ret _ _ _ pde v) by (unfold get_pte; cbn; by rewrite Hp).
  by destruct (has PTE_V pde).
Qed.

(** The lookup of an address: its entry and where it is. *)
Lemma lookup_false R v r va :
  x_wf R v → r ∈ R →
  (xlate86 (pt_mem v) r va = None ∧ vm_walk r va false v = Ret (None, v))
  ∨ ∃ pde e, ent (pt_mem v) r (pd_index va) = Some pde ∧ has PTE_V pde = true
      ∧ vm_walk r va false v = Ret (Some (frame_of pde, pt_index va), v)
      ∧ get_pte (frame_of pde, pt_index va) v = Ret (e, v) ∧ word32 e
      ∧ ent (pt_mem v) (frame_of pde) (pt_index va) = Some e
      ∧ xlate86 (pt_mem v) r va = if has PTE_V e then Some e else None.
Proof.
  intros Hw Hr. destruct (vm_walk_false R v r va Hw Hr) as (pde & Hp & Hwd & E). destruct (has PTE_V pde) eqn:HV.
  - right. destruct (xlate86_dir R v r va pde Hw Hr Hp HV) as (e & He & Hwe & Hx). exists pde, e.
    repeat (split; [done|]). split; [unfold get_pte; cbn; by rewrite He|done].
  - left. split; [|done]. unfold xlate86. rewrite Hp. cbn. by rewrite HV.
Qed.

Lemma vm_walk_true R v r va :
  x_wf R v → r ∈ R → ∃ o v', vm_walk r va true v = Ret (o, v') ∧ x_wf R v' ∧ same_xlate R v v' ∧ keeps86 R v v'
    ∧ ((o = None ∧ v' = v ∧ pt_next v = PT_PAGES)
       ∨ ∃ pde, ent (pt_mem v') r (pd_index va) = Some pde ∧ has PTE_V pde = true ∧ o = Some (frame_of pde, pt_index va)).
Proof.
  intros Hw Hr. destruct (ent_exists R v r (pd_index va) Hw (xw_roots R v Hw r Hr) (pd_index86_lt va)) as (pde & Hp & Hwd).
  unfold vm_walk. rewrite (bind_ret _ _ _ pde v) by (unfold get_pte; cbn; by rewrite Hp). destruct (has PTE_V pde) eqn:HV.
  { eexists _, v. split; [done|]. split; [done|]. split; [by intros ???|]. split; [apply keeps86_refl|]. right. by exists pde. }
  cbn [negb]. pose proof (xw_next R v Hw) as Hnx. unfold pt_alloc. destruct (Z.leb_spec PT_PAGES (pt_next v)) as [Hge|Hlt].
  { eexists _, v. rewrite (bind_ret _ _ _ 0 v) by (by test_true (PT_PAGES <=? pt_next v)). split; [done|]. split; [done|]. split; [by intros ???|].
    split; [apply keeps86_refl|]. left. split; [done|]. split; [done|]. lia. }
  destruct (alloc86_wf R v Hw Hlt) as [Hw1 _]. pose proof (fresh_table R v Hw Hlt) as Hfr.
  rewrite (bind_ret _ _ _ (next_table v) (alloc86 v)) by (by test_false (PT_PAGES <=? pt_next v)).
  pose proof (pool_page32 (pt_next v) ltac:(lia)) as Hpg. change (pool_table (pt_next v)) with (next_table v) in Hpg.
  assert (next_table v ≠ 0) as Hnz by (pose proof x_pool_low; unfold next_table, pool_table; lia). test_false (next_table v =? 0).
  assert (r ≠ next_table v) as Hrn by (intros ->; by apply Hfr, (xw_roots R v Hw)).
  assert (ent (pt_mem (alloc86 v)) r (pd_index va) = Some pde) as Hp1 by (by rewrite (alloc86_ent R)).
  set (e' := Z.lor (Z.lor (next_table v) PTE_V) PTE_W).
  assert (frame_of e' = next_table v ∧ has PTE_V e' = true) as [Hf' HV'].
  { assert (e' = Z.lor (next_table v) 5) as -> by (unfold e'; by rewrite <- Z.lor_assoc). by rewrite entry_frame, entry_has. }
  set (v2 := with_pt (set_ent (pt_mem (alloc86 v)) r (pd_index va) e') (alloc86 v)).
  assert (ent (pt_mem v2) r (pd_index va) = Some e') as Hp2 by (unfold v2; cbn [pt_mem with_pt]; by rewrite ent_set, decide_True, Hp1 by done).
  rewrite (bind_ret _ _ _ tt v2) by (unfold set_pte; cbn [fst snd]; by rewrite Hp1).
  rewrite (bind_ret _ _ _ e' v2) by (unfold get_pte; cbn [fst snd]; by rewrite Hp2).
  eexists _, v2. split; [done|]. split; [|split; [|split]].
  - apply (link_wf R (alloc86 v) r _ _ pde); [done..| |done| |done|].
    + apply (is_table_alloc86 R); [done|by right].
    + intros HR. by apply Hfr, (xw_roots R v Hw).
    + intros r' i' x Hr' Hx HVx E. apply Hfr. rewrite <- E. rewrite (alloc86_ent R) in Hx by (done || intros ->; by apply Hfr, (xw_roots R v Hw)).
      by apply (xw_child R v Hw r' i' x).
  - assert (∀ r' i, r' ∈ R → ent (pt_mem (alloc86 v)) r' i = ent (pt_mem v) r' i) as Hold.
    { intros r' i Hr'. apply (alloc86_ent R); [done..|]. intros ->. by apply Hfr, (xw_roots R v Hw). }
    intros r' va' Hr'. unfold xlate86. unfold v2. cbn [pt_mem with_pt]. rewrite ent_set. case_decide as Hd.
    + destruct Hd as [-> Hi]. rewrite Hp1. rewrite <- Hi in Hp. rewrite Hp. cbn [mbind option_bind fmap option_fmap option_map].
      rewrite HV', HV, Hf'. rewrite ent_set, decide_False by (intros [E _]; done). cbn [pt_mem alloc86]. rewrite ent_new, decide_True by done.
      destruct (zero_table !! pt_index va') as [x|] eqn:Ex; [|done]. by apply zero_table86_lookup in Ex as ->.
    + rewrite Hold by done. destruct (ent (pt_mem v) r' (pd_index va')) as [x|] eqn:Ex; [|done]. cbn. destruct (has PTE_V x) eqn:HVx; [|done].
      destruct (xw_child R v Hw r' _ x Hr' Ex HVx) as [Htx HnR].
      rewrite ent_set, decide_False, ent_new, decide_False; [done| |]; [intros E; by rewrite E in Htx|intros [E _]; by rewrite E in HnR].
  - constructor; [cbn; lia|done..|]. intros r' i x Hr' Hx HVx. exists x. split; [|done]. unfold v2. cbn [pt_mem with_pt].
    rewrite ent_set, decide_False, (alloc86_ent R); [done..| |]; [intros ->; by apply Hfr, (xw_roots R v Hw)|intros [-> ->]; congruence].
  - right. by exists e'.
Qed.

(** ** Mapping *)

Lemma open_pde_spec R v r va perm pde :
  x_wf R v → r ∈ R → ent (pt_mem v) r (pd_index va) = Some pde → has PTE_V pde = true →
  ∃ v' pde', open_pde r va perm v = Ret (tt, v') ∧ x_wf R v' ∧ same_xlate R v v' ∧ keeps86 R v v'
    ∧ ent (pt_mem v') r (pd_index va) = Some pde' ∧ has PTE_V pde' = true ∧ frame_of pde' = frame_of pde.
Proof.
  intros Hw Hr Hp HV. unfold open_pde. destruct (has PTE_U perm).
  2: { exists v, pde. split; [done|]. split; [done|]. split; [by intros ???|]. by split; [apply keeps86_refl|]. }
  rewrite (bind_ret _ _ _ pde v) by (unfold get_pte; cbn [fst snd]; by rewrite Hp). set (e' := Z.lor pde (Z.lor PTE_U PTE_W)).
  assert (word32 pde) as Hwd by (by eapply xw_word). assert (frame_of e' = frame_of pde) as Hf.
  { unfold e', frame_of. rewrite Z.land_lor_distr_l. change (Z.land (Z.lor PTE_U PTE_W) 0xfffff000) with 0. by rewrite Z.lor_0_r. }
  assert (∀ g, Z.land (Z.lor PTE_U PTE_W) g = 0 → has g e' = has g pde) as Hh.
  { intros g Hg. unfold has, e'. by rewrite Z.land_lor_distr_l, Hg, Z.lor_0_r. }
  eexists _, e'. split; [unfold set_pte; cbn [fst snd]; by rewrite Hp|]. split; [|split; [|split; [|split; [|split]]]].
  - apply (set_pde_wf R v r _ pde); [done..|by apply Hh|done|by apply lor_word|by apply Hh|]. unfold has, e'. rewrite Z.land_lor_distr_l.
    change (Z.land (Z.lor PTE_U PTE_W) PTE_W) with 4. apply negb_true_iff, Z.eqb_neq. intros [_ E]%Z.lor_eq_0_iff. done.
  - apply (xlate86_set_pde R v r _ pde); [done..|by apply Hh|done].
  - constructor; [done..|]. intros r' i x Hr' Hx HVx. cbn [pt_mem with_pt]. rewrite ent_set. case_decide as Hd; [|by exists x].
    destruct Hd as [-> ->]. rewrite Hp in Hx |- *. injection Hx as <-. exists e'. split; [done|]. by rewrite Hh.
  - cbn [pt_mem with_pt]. by rewrite ent_set, decide_True, Hp by done.
  - by rewrite Hh.
  - done.
Qed.

(** A mapping: the result, and the entries after it. *)
Lemma vm_map_page_spec86 R v r va pa perm :
  x_wf R v → r ∈ R → va mod 4096 = 0 → page32 pa →
  ∃ rc v', vm_map_page r va pa perm v = Ret (rc, v') ∧ x_wf R v' ∧ keeps86 R v v'
    ∧ ((rc = 0 ∧ (∀ e, xlate86 (pt_mem v) r va = Some e → frame_of e = pa)
        ∧ ∀ r' va', r' ∈ R → xlate86 (pt_mem v') r' va'
            = if decide (r' = r ∧ same_page86 va va') then Some (Z.lor pa (x86_pte_flags perm)) else xlate86 (pt_mem v) r' va')
       ∨ (rc = -1 ∧ same_xlate R v v' ∧ (pt_next v = PT_PAGES ∨ ∃ e, xlate86 (pt_mem v) r va = Some e ∧ frame_of e ≠ pa))).
Proof.
  intros Hw Hr Hva Hpa. unfold vm_map_page, PAGE_SIZE. rewrite Hva, (proj1 Hpa). cbn [Z.eqb negb orb].
  destruct (vm_walk_true R v r va Hw Hr) as (o & v1 & E1 & Hw1 & Hx1 & Hk1 & [(-> & -> & Hn)|(pde & Hp & HV & ->)]).
  { rewrite (bind_ret _ _ _ _ _ E1). exists (-1), v. split; [done|]. split; [done|]. split; [done|]. right. split; [done|]. split; [done|by left]. }
  rewrite (bind_ret _ _ _ _ _ E1). destruct (xlate86_dir R v1 r va pde Hw1 Hr Hp HV) as (e & He & Hwe & Hxe).
  rewrite (bind_ret _ _ _ e v1) by (unfold get_pte; cbn [fst snd]; by rewrite He). rewrite Hx1 in Hxe by done. rewrite (frame_id pa Hpa).
  destruct (has PTE_V e && negb (frame_of e =? pa)) eqn:Hbad.
  { apply andb_true_iff in Hbad as [HVe Hne]. rewrite HVe in Hxe. apply negb_true_iff, Z.eqb_neq in Hne.
    exists (-1), v1. split; [done|]. split; [done|]. split; [done|]. right. split; [done|]. split; [done|]. right. by exists e. }
  destruct (open_pde_spec R v1 r va perm pde Hw1 Hr Hp HV) as (v2 & pde' & E2 & Hw2 & Hx2 & Hk2 & Hp' & HV' & Hf').
  rewrite (bind_ret _ _ _ _ _ E2), <- Hf'. set (x := Z.lor pa (x86_pte_flags perm)).
  destruct (xw_child R v2 Hw2 r _ pde' Hr Hp' HV') as [Ht HnR].
  destruct (ent_exists R v2 _ (pt_index va) Hw2 Ht (pt_index86_lt va)) as (y & Hy & _).
  assert (has PTE_V x = true) as HVx by (unfold x; by rewrite entry_has, flags_valid).
  rewrite (bind_ret _ _ _ tt (with_pt (set_ent (pt_mem v2) (frame_of pde') (pt_index va) x) v2)) by (unfold set_pte; cbn [fst snd]; by rewrite Hy).
  eexists 0, _. split; [done|]. split; [|split; [|left; split; [done|split]]].
  - apply set_pte_wf; [done..|]. apply lor_word; [apply Hpa|]. pose proof (flags_small perm). unfold word32. lia.
  - apply (keeps86_trans R v v1); [done|]. apply (keeps86_trans R v1 v2); [done|]. by apply keeps86_leaf.
  - intros z Hz. rewrite Hxe in Hz. destruct (has PTE_V e) eqn:HVe; [|done]. injection Hz as <-. cbn in Hbad.
    by apply negb_false_iff, Z.eqb_eq in Hbad.
  - intros r' va' Hr'. cbn [pt_mem with_pt]. rewrite (xlate86_set_leaf R v2 r va pde' x) by done. rewrite HVx. case_decide; [done|].
    by rewrite Hx2, Hx1.
Qed.

(** ** The access check *)

(** What a system call may access: pages of the agent, and pages it may write. *)
Definition allowed86 (v : vm) (r : Z) (write : bool) (x : Z) : Prop :=
  ∃ e, xlate86 (pt_mem v) r x = Some e ∧ has PTE_U e = true ∧ (write = true → has PTE_W e = true).

Lemma xlate86_page m r x y : same_page86 x y → xlate86 m r x = xlate86 m r y.
Proof. intros [E1 E2]. unfold xlate86. by rewrite E1, E2. Qed.

Lemma check_pages_spec86 R v r write fuel a end_ :
  x_wf R v → r ∈ R → a mod 4096 = 0 → 0 ≤ a → end_ ≤ 4294963200 → end_ - a ≤ Z.of_nat fuel * 4096 →
  ∃ rc, check_pages fuel r a end_ write v = Ret (rc, v) ∧ (rc = 0 ∨ rc = -1)
    ∧ (rc = 0 ↔ ∀ x, a ≤ x < end_ → allowed86 v r write x).
Proof.
  intros Hw Hr. revert a. induction fuel as [|fuel IH]; intros a Ha H0 Hend Hf; cbn [check_pages]; destruct (Z.ltb_spec a end_) as [Hlt|Hge]; cbn [negb].
  - lia.
  - exists 0. split; [done|]. split; [by left|]. split; [intros _ x; lia|done].
  - assert (∀ x, a ≤ x < a + 4096 → xlate86 (pt_mem v) r x = xlate86 (pt_mem v) r a) as Hpage.
    { intros x Hx. apply xlate86_page, same_page86_div; [unfold word32; lia..|]. Z.to_euclidean_division_equations; lia. }
    assert (¬ allowed86 v r write a → ∃ rc, Ret (-1, v) = Ret (rc, v) ∧ (rc = 0 ∨ rc = -1) ∧ (rc = 0 ↔ ∀ x, a ≤ x < end_ → allowed86 v r write x)) as Hbad.
    { intros Hn. exists (-1). split; [done|]. split; [by right|]. split; [done|]. intros H. exfalso. apply Hn, H. lia. }
    destruct (lookup_false R v r a Hw Hr) as [[Hx E]|(pde & e & _ & _ & E & Eg & Hwe & _ & Hx)]; rewrite (bind_ret _ _ _ _ _ E).
    { apply Hbad. intros (e & He & _). congruence. }
    rewrite (bind_ret _ _ _ _ _ Eg). destruct (has PTE_V e) eqn:HV; cbn [negb]; [|apply Hbad; intros (y & Hy & _); congruence].
    destruct (has PTE_U e) eqn:HU; cbn [negb]; [|apply Hbad; intros (y & Hy & HUy & _); congruence].
    destruct (write && negb (has PTE_W e)) eqn:HW.
    { apply Hbad. intros (y & Hy & _ & HWy). apply andb_true_iff in HW as [-> HW]. apply negb_true_iff in HW. specialize (HWy eq_refl). congruence. }
    unfold PAGE_SIZE. rewrite u32_small by lia. destruct (IH (a + 4096)) as (rc & Ec & Hrc & Hiff); [|lia..|].
    { rewrite <- (Z.mod_add a 1 4096) in Ha by lia. by rewrite Z.mul_1_l in Ha. }
    exists rc. split; [done|]. split; [done|]. rewrite Hiff. split.
    + intros H x Hxr. destruct (Z.lt_ge_cases x (a + 4096)); [|apply H; lia]. exists e. rewrite Hpage by lia. split; [done|]. split; [done|].
      intros ->. cbn in HW. by apply negb_false_iff in HW.
    + intros H x Hxr. apply H. lia.
  - exists 0. split; [done|]. split; [by left|]. split; [intros _ x; lia|done].
Qed.

Lemma user_check_spec86 R v r ua len write :
  x_wf R v → r ∈ R → 0 ≤ ua → 0 < len → ua + len ≤ 4294963200 →
  ∃ rc, vm_user_check r ua len write v = Ret (rc, v) ∧ (rc = 0 ∨ rc = -1)
    ∧ (rc = 0 ↔ ∀ x, ua ≤ x < ua + len → allowed86 v r write x).
Proof.
  intros Hw Hr H0 Hl Hend. unfold vm_user_check. test_false (len =? 0). rewrite u32_small by lia. test_false (ua + len <? ua).
  rewrite align_down_12. set (a := ua / 4096 * 4096). assert (a ≤ ua < a + 4096 ∧ a mod 4096 = 0) as [Ha Hm].
  { unfold a. split; [Z.to_euclidean_division_equations; lia|by apply Z_mod_mult]. }
  destruct (check_pages_spec86 R v r write (Z.to_nat ((ua + len - a) / PAGE_SIZE + 1)) a (ua + len)) as (rc & E & Hrc & Hiff); [done..|lia|lia| |].
  { unfold PAGE_SIZE. rewrite Z2Nat.id; Z.to_euclidean_division_equations; lia. }
  exists rc. split; [done|]. split; [done|]. rewrite Hiff. split; intros H x Hx; [apply H; lia|].
  destruct (Z.lt_ge_cases x ua); [|by apply H; lia]. destruct (H ua) as (e & He & Hrest); [lia|]. exists e. split; [|done].
  rewrite <- He. apply xlate86_page, same_page86_div; [unfold word32; lia..|]. Z.to_euclidean_division_equations; lia.
Qed.

End tree.
