(* ===== verification/X86VmProps.v ===== *)
(** * The tables of the PC port: separation, and what the processor sees

    Every operation that an agent causes stays within its own tables, and a new agent
    gets tables that no other agent's lead to ([x86_tables_separate]).  What the kernel
    keeps in the tables is not what a processor of this kind reads in them: the flags are
    those of the other platform ([x86_unprotected]). *)

From S2P Require Import Prelude Abi AgentDef Mem Vm VmTree X86Vm.

(** ** Operations on the tables of one agent *)

(** Flags that the kernel writes into entries of pages: the bit 1 never, and the bit 2
    for every page of the kernel. *)
Definition flags_ok (e : Z) : Prop := has PTE_R e = false ∧ (has PTE_U e = false → has PTE_W e = true).

Lemma flags_ok_entry pa f : page32 pa → flags_ok f → flags_ok (Z.lor pa f).
Proof. intros Hp [H1 H2]. unfold flags_ok. by rewrite !entry_has. Qed.

Lemma flags_ok_perm perm : flags_ok (x86_pte_flags perm).
Proof. unfold flags_ok, x86_pte_flags. destruct (has PTE_U perm), (has PTE_W perm); done. Qed.

Section props.
Context {L : Layout} {XL : X86Laws}.

(** An entry of a table that the directory [r] leads to. *)
Definition leaf_of (r : Z) (p : Z * nat) (v : vm) : Prop :=
  ∃ va pde, ent (pt_mem v) r (pd_index va) = Some pde ∧ has PTE_V pde = true ∧ p = (frame_of pde, pt_index va).

Definition heap_low (v : vm) : Prop := ∃ start, heap_wf start (kheap v) ∧ start + HEAP_SIZE < 4294967296.

Section confined.
Context (R : gset Z) (r : Z) (Hr : r ∈ R) (v0 : vm).

(** The tables of the other roots are as in [v0]; the entries [ps] may be written. *)
Record conf (ps : list (Z * nat)) (v : vm) : Prop := {
  cf_wf : x_wf R v;
  cf_flags : ∀ r' va e, r' ∈ R → xlate86 (pt_mem v) r' va = Some e → flags_ok e;
  cf_heap : heap_low v;
  cf_other : ∀ r' va, r' ∈ R → r' ≠ r → xlate86 (pt_mem v) r' va = xlate86 (pt_mem v0) r' va;
  cf_leaves : ∀ p, p ∈ ps → leaf_of r p v
}.

Lemma leaf_keeps p v v' : keeps86 R v v' → leaf_of r p v → leaf_of r p v'.
Proof.
  intros Hk (va & pde & Hp & HV & ->). destruct (k86_dir R v v' Hk r _ pde Hr Hp HV) as (pde' & Hp' & HV' & Hf).
  exists va, pde'. by rewrite Hf.
Qed.

Lemma conf_weaken ps ps' v : (∀ p, p ∈ ps' → p ∈ ps) → conf ps v → conf ps' v.
Proof. intros Hs [H1 H2 H3 H4 H5]. constructor; auto. Qed.

(** An update that changes one page of [r]. *)
Lemma conf_update ps v v' :
  conf ps v → x_wf R v' → keeps86 R v v' →
  (∀ r' va e, r' ∈ R → xlate86 (pt_mem v') r' va = Some e → flags_ok e) →
  (∀ r' va, r' ∈ R → r' ≠ r → xlate86 (pt_mem v') r' va = xlate86 (pt_mem v) r' va) → conf ps v'.
Proof.
  intros [H1 H2 H3 H4 H5] Hw Hk Hf Ho. constructor; [done|done| | |].
  - unfold heap_low. by rewrite (k86_heap R v v' Hk).
  - intros r' va Hr' Hne. rewrite Ho by done. auto.
  - intros p Hp. eapply leaf_keeps; eauto.
Qed.

Lemma conf_walk ps va :
  triple (conf ps) (vm_walk r va false) (λ o v, match o with Some p => conf (p :: ps) v | None => conf ps v end).
Proof.
  intros v Hv. destruct (lookup_false R v r va (cf_wf _ _ Hv) Hr) as [[_ E]|(pde & e & Hp & HV & E & _)]; eexists _, v; (split; [exact E|]); [done|].
  destruct Hv as [H1 H2 H3 H4 H5]. constructor; auto. intros p [->|Hin]%elem_of_cons; [by exists va, pde|auto].
Qed.

Lemma conf_get ps p : p ∈ ps → triple (conf ps) (get_pte p) (λ e v, word32 e ∧ conf ps v).
Proof.
  intros Hp v Hv. destruct (cf_leaves _ _ Hv p Hp) as (va & pde & Hpd & HV & ->).
  destruct (xlate86_dir R v r va pde (cf_wf _ _ Hv) Hr Hpd HV) as (e & He & Hwe & _).
  exists e, v. unfold get_pte. cbn [fst snd]. by rewrite He.
Qed.

Lemma conf_set ps p e : p ∈ ps → word32 e → flags_ok e → triple (conf ps) (set_pte p e) (λ _, conf ps).
Proof.
  intros Hp Hwd Hfl v Hv. destruct (cf_leaves _ _ Hv p Hp) as (va & pde & Hpd & HV & ->). pose proof (cf_wf _ _ Hv) as Hw.
  destruct (xlate86_dir R v r va pde Hw Hr Hpd HV) as (x & Hx & _ & _). destruct (xw_child R v Hw r _ pde Hr Hpd HV) as [Ht HnR].
  eexists tt, _. unfold set_pte. cbn [fst snd]. rewrite Hx. split; [done|].
  pose proof (xlate86_set_leaf R v r va pde e Hw Hr Hpd HV) as Hxl.
  apply (conf_update ps v); [done|by apply set_pte_wf|by apply keeps86_leaf| |].
  - intros r' va' y Hr' Hy. cbn [pt_mem with_pt] in Hy. rewrite Hxl in Hy by done. case_decide.
    + destruct (has PTE_V e); [|done]. by injection Hy as <-.
    + by eapply cf_flags.
  - intros r' va' Hr' Hne. cbn [pt_mem with_pt]. rewrite Hxl by done. by rewrite decide_False by naive_solver.
Qed.

Lemma conf_map ps va pa perm : word32 pa → triple (conf ps) (vm_map_page r va pa perm) (λ _, conf ps).
Proof.
  intros Hpa v Hv. destruct (decide (va mod 4096 = 0 ∧ pa mod 4096 = 0)) as [[Ha Hb]|Hbad].
  2: { exists (-1), v. split; [|done]. unfold vm_map_page, PAGE_SIZE.
       destruct (Z.eqb_spec (va mod 4096) 0), (Z.eqb_spec (pa mod 4096) 0); (done || tauto). }
  destruct (vm_map_page_spec86 R v r va pa perm (cf_wf _ _ Hv) Hr Ha) as (rc & v' & E & Hw & Hk & [(-> & _ & Hx)|(-> & Hx & _)]); [done| |];
    eexists _, v'; (split; [exact E|]); apply (conf_update ps v); try done.
  - intros r' va' e Hr' He. rewrite Hx in He by done. case_decide; [|by eapply cf_flags]. injection He as <-. apply flags_ok_entry; [done|apply flags_ok_perm].
  - intros r' va' Hr' Hne. rewrite Hx by done. by rewrite decide_False by naive_solver.
  - intros r' va' e Hr'. rewrite Hx by done. by eapply cf_flags.
  - intros r' va' Hr' _. by apply Hx.
Qed.

Lemma conf_alloc ps : triple (conf ps) vm_kalloc_page (λ p v, word32 p ∧ conf ps v).
Proof.
  intros v Hv. destruct (cf_heap _ _ Hv) as (st & Hh & Hlow).
  assert (∀ h', heap_wf st h' → conf ps (with_heap h' v)) as Hc.
  { intros h' Hh'. destruct Hv as [[W1 W2 W3 W4 W5 W6 W7 W8] H2 H3 H4 H5]. constructor; auto; [by constructor|by exists st]. }
  unfold vm_kalloc_page. destruct (kalloc_page_spec st (kheap v) Hh) as (p & Hp & Hm & [(Hle & E & Hh')|(Hgt & E)]); rewrite E; eexists _, _; (split; [done|]).
  - split; [|by apply Hc]. pose proof (hw_ptr _ _ Hh). pose proof (hw_end _ _ Hh). pose proof (hw_start _ _ Hh). unfold word32. lia.
  - split; [done|]. by apply Hc.
Qed.

Lemma conf_pmem ps (f : vm → gmap Z Z) : triple (conf ps) (modify (λ v, with_pmem (f v) v)) (λ _, conf ps).
Proof.
  apply triple_modify. intros v [[W1 W2 W3 W4 W5 W6 W7 W8] H2 H3 H4 H5]. constructor; auto. by constructor.
Qed.

(** ** The heap operations of an agent *)

Definition aconf (ps : list (Z * nat)) (s : vstate) : Prop := conf ps s.1 ∧ pagetable s.2 = r.

Lemma aconf_onvm {A} ps (m : M vm A) (Q : A → vm → Prop) :
  triple (conf ps) m Q → triple (aconf ps) (onvm m) (λ x s, Q x s.1 ∧ pagetable s.2 = r).
Proof. intros Hm [v a] [Hv Ha]. destruct (Hm v Hv) as (x & v' & E & HQ). exists x, (v', a). unfold onvm, zoom. cbn in *. by rewrite E. Qed.

Lemma aconf_stays {A} ps (m : M vm A) : triple (conf ps) m (λ _, conf ps) → triple (aconf ps) (onvm m) (λ _, aconf ps).
Proof. intros Hm. exact (aconf_onvm ps m _ Hm). Qed.

Lemma aconf_walk ps va :
  triple (aconf ps) (onvm (vm_walk r va false)) (λ o s, match o with Some p => aconf (p :: ps) s | None => aconf ps s end).
Proof. eapply triple_weaken; [apply aconf_onvm, conf_walk|done|]. by intros [p|] [v a] [H1 H2]. Qed.

Lemma aconf_get ps p : p ∈ ps → triple (aconf ps) (onvm (get_pte p)) (λ e s, word32 e ∧ aconf ps s).
Proof. intros Hp. eapply triple_weaken; [by apply aconf_onvm, conf_get|done|]. by intros e [v a] [[H1 H2] H3]. Qed.

Lemma aconf_set ps p e : p ∈ ps → word32 e → flags_ok e → triple (aconf ps) (onvm (set_pte p e)) (λ _, aconf ps).
Proof. intros Hp Hw Hf. by apply aconf_stays, conf_set. Qed.

Lemma aconf_map ps va pa perm : word32 pa → triple (aconf ps) (onvm (vm_map_user_page r va pa perm)) (λ _, aconf ps).
Proof. intros Hpa. by apply aconf_stays, conf_map. Qed.

Lemma aconf_alloc ps : triple (aconf ps) (onvm vm_kalloc_page) (λ p s, word32 p ∧ aconf ps s).
Proof. eapply triple_weaken; [apply aconf_onvm, conf_alloc|done|]. by intros e [v a] [[H1 H2] H3]. Qed.

Lemma aconf_mapped ps va : triple (aconf ps) (onvm (vm_page_mapped r va)) (λ _, aconf ps).
Proof.
  unfold vm_page_mapped. apply aconf_stays. eapply triple_bind; [apply conf_walk|]. intros [p|]; [|by apply triple_ret].
  eapply triple_bind; [by apply conf_get, list_elem_of_here|]. intros e. apply triple_ret. intros v [_ Hv].
  eapply conf_weaken; [|exact Hv]. intros q Hq. by apply list_elem_of_further.
Qed.

Lemma aconf_setag ps f : (∀ a, pagetable (f a) = pagetable a) → triple (aconf ps) (setag f) (λ _, aconf ps).
Proof. intros Hf. apply triple_modify. intros [v a] [H1 H2]. split; [done|]. cbn in *. by rewrite Hf. Qed.

Lemma aconf_more ps p s : aconf (p :: ps) s → aconf ps s.
Proof. intros [H1 H2]. split; [|done]. eapply conf_weaken; [|exact H1]. intros q Hq. by apply list_elem_of_further. Qed.

Lemma shared_ok pa : word32 pa → word32 (Z.lor (frame_of pa) PTE_SHARED) ∧ flags_ok (Z.lor (frame_of pa) PTE_SHARED).
Proof. intros Hp. split; [apply lor_word; [by apply frame_page|done]|]. apply flags_ok_entry; [by apply frame_page|done]. Qed.

Lemma own_ok pa : word32 pa → word32 (Z.lor (frame_of pa) PTE_OWN) ∧ flags_ok (Z.lor (frame_of pa) PTE_OWN).
Proof. intros Hp. split; [apply lor_word; [by apply frame_page|done]|]. apply flags_ok_entry; [by apply frame_page|done]. Qed.

(** An operation on the agent that stays within its tables. *)
Definition within {A} (m : M vstate A) : Prop := triple (aconf []) m (λ _, aconf []).

Lemma within_ag {A B} ps (f : agent → A) (k : A → M vstate B) Q :
  (∀ x, triple (aconf ps) (k x) Q) → triple (aconf ps) (bind (ag f) k) Q.
Proof. intros Hk. eapply (triple_bind _ _ (λ _, aconf ps)); [by apply triple_gets|done]. Qed.

(** The table of the agent is known. *)
Lemma within_agent {B} ps (k : agent → M vstate B) Q :
  (∀ a, pagetable a = r → triple (aconf ps) (k a) Q) → triple (aconf ps) (bind (gets snd) k) Q.
Proof. intros Hk [v a] [Hv Ha]. rewrite bind_gets. apply Hk; [done|]. by split. Qed.

Lemma cow_break_within va : within (vm_cow_break va).
Proof.
  unfold within, vm_cow_break. intros [v a] [Hv Ha]. unfold ag. rewrite bind_gets. cbn in Ha |- *. rewrite Ha. revert Hv. revert a Ha v.
  assert (∀ pva, triple (aconf []) (let! pte := onvm (vm_walk r pva false) in match pte with
    | None => ret (-1)
    | Some p =>
      let! e := onvm (get_pte p) in
      if negb (has PTE_V e) then ret (-1) else if has PTE_W e then ret 0
      else
        let! new_pa := onvm vm_kalloc_page in
        if new_pa =? 0 then ret (-1)
        else
          onvm (modify (λ v, with_pmem (copy_bytes (Z.to_nat PAGE_SIZE) new_pa (frame_of e) (pmem v)) v)) ;;
          onvm (set_pte p (Z.lor (frame_of new_pa) PTE_OWN)) ;; ret 0
    end) (λ _, aconf [])) as H; [|intros a Ha v Hv; by apply (H (align_down 12 va))].
  intros pva. eapply triple_bind; [apply aconf_walk|]. intros [p|]; [|by apply triple_ret].
  eapply triple_bind; [by apply aconf_get, list_elem_of_here|]. intros e. apply triple_pure. intros He.
  assert (∀ x : Z, triple (aconf [p]) (ret x) (λ _, aconf [])) as Hret by (intros x; apply triple_ret; apply aconf_more).
  apply triple_if; intros _; [done|]. apply triple_if; intros _; [done|].
  eapply triple_bind; [apply aconf_alloc|]. intros pa. apply triple_pure. intros Hpa. apply triple_if; intros _; [done|].
  destruct (own_ok pa Hpa) as [Hw Hf]. eapply triple_bind; [by apply aconf_stays, conf_pmem|]. intros [].
  eapply triple_bind; [by apply aconf_set; [apply list_elem_of_here|..]|]. intros []. done.
Qed.

Lemma heap_map_within va : within (vm_heap_map_page va).
Proof.
  unfold within, vm_heap_map_page. apply within_agent. intros a Ha. rewrite Ha. apply triple_if; intros _; [by apply triple_ret|].
  apply triple_if; intros _; [by apply triple_ret|]. eapply triple_bind; [apply aconf_mapped|]. intros [].
  - by apply triple_ret.
  - apply triple_if; intros _; [by apply triple_ret|]. eapply triple_bind; [apply aconf_alloc|]. intros pa. apply triple_pure. intros Hpa.
    apply triple_if; intros _; [by apply triple_ret|]. eapply triple_bind; [by apply aconf_map|]. intros rc.
    apply triple_if; intros _; [by apply triple_ret|]. eapply triple_bind; [by apply aconf_setag|]. intros []. by apply triple_ret.
Qed.

Lemma heap_fault_within va write : within (vm_heap_fault va write).
Proof.
  unfold within, vm_heap_fault. apply within_agent. intros a Ha. rewrite Ha. apply triple_if; intros _; [by apply triple_ret|].
  apply triple_if; intros _; [by apply triple_ret|]. eapply triple_bind; [apply aconf_mapped|]. intros [].
  - apply triple_if; intros _; [by apply triple_ret|]. eapply triple_bind; [apply aconf_walk|]. intros [p|]; [|by apply triple_ret].
    eapply triple_bind; [by apply aconf_get, list_elem_of_here|]. intros e. apply triple_pure. intros He.
    apply triple_if; intros _; [|apply triple_ret; apply aconf_more].
    eapply triple_bind; [eapply triple_weaken; [apply cow_break_within|apply aconf_more|done]|]. intros rc. by apply triple_ret.
  - eapply triple_bind; [apply heap_map_within|]. intros rc. by apply triple_ret.
Qed.

Lemma cow_alias_within dst src : within (vm_heap_cow_alias dst src).
Proof.
  unfold within, vm_heap_cow_alias. apply within_agent. intros a Ha. rewrite Ha.
  do 4 (apply triple_if; intros _; [by apply triple_ret|]). set (sva := u32 _). set (dva := u32 _).
  eapply triple_bind; [apply aconf_mapped|]. intros m. apply triple_if; intros _; [by apply triple_ret|].
  eapply triple_bind; [apply aconf_walk|]. intros [sp|]; [|by apply triple_ret].
  eapply triple_bind; [by apply aconf_get, list_elem_of_here|]. intros se. apply triple_pure. intros Hse.
  assert (∀ x : Z, triple (aconf [sp]) (ret x) (λ _, aconf [])) as Hret by (intros x; apply triple_ret; apply aconf_more).
  apply triple_if; intros _; [done|]. eapply triple_bind; [apply aconf_mapped|]. intros dm.
  eapply (triple_bind _ _ (λ _, aconf [sp])).
  { destruct dm.
    - eapply triple_bind; [apply aconf_walk|]. intros [dp|]; [|by apply triple_ret].
      eapply triple_bind; [by apply aconf_get, list_elem_of_here|]. intros de. apply triple_pure. intros _.
      apply triple_if; intros _; [|apply triple_if; intros _]; apply triple_ret; apply aconf_more.
    - apply triple_if; intros _; [by apply triple_ret|]. eapply triple_bind; [by apply aconf_map, frame_page|]. intros rc.
      apply triple_if; intros _; [by apply triple_ret|]. eapply triple_bind; [by apply aconf_setag|]. intros []. by apply triple_ret. }
  intros rc. apply triple_if; intros _; [done|]. destruct (shared_ok (frame_of se)) as [Hw Hf]; [by apply frame_page|].
  eapply triple_bind; [by apply aconf_set; [apply list_elem_of_here|..]|]. intros [].
  eapply triple_bind; [apply aconf_walk|]. intros [dp|]; [|done].
  eapply triple_bind; [by apply aconf_get, list_elem_of_here|]. intros de. apply triple_pure. intros _.
  apply triple_if; intros _; [apply triple_ret; intros s Hs; by eapply aconf_more, aconf_more|].
  eapply triple_bind; [by apply aconf_set; [apply list_elem_of_here|..]|]. intros []. apply triple_ret. intros s Hs. by eapply aconf_more, aconf_more.
Qed.

(** ** Regions *)

Lemma map_pages_within ps perm fuel a last pa :
  a mod 4096 = 0 → last mod 4096 = 0 → 0 ≤ a → last < 4294967296 → last - a ≤ Z.of_nat fuel * 4096 → word32 pa →
  triple (conf ps) (map_pages fuel r a last pa perm) (λ _, conf ps).
Proof.
  revert a pa. induction fuel as [|fuel IH]; intros a pa Ha Hl H0 Hlast Hf Hpa; cbn [map_pages];
    destruct (Z.ltb_spec a last) as [Hlt|Hge]; cbn [negb]; try (by apply triple_ret); [lia|].
  eapply triple_bind; [by apply conf_map|]. intros rc. apply triple_if; intros _; [by apply triple_ret|].
  assert (a + 4096 ≤ last) by (Z.to_euclidean_division_equations; lia). unfold PAGE_SIZE. rewrite (u32_small (a + 4096)) by lia.
  apply IH; [|done|lia|done|lia|apply u32_range]. rewrite <- (Z.mod_add a 1 4096) in Ha by lia. by rewrite Z.mul_1_l in Ha.
Qed.

Lemma map_region_within ps va pa size perm : 0 ≤ va → triple (conf ps) (vm_map_region r va pa size perm) (λ _, conf ps).
Proof.
  intros Hva. unfold vm_map_region, pa_round_down, pa_round_up. rewrite !align_down_12. set (a := va / 4096 * 4096).
  pose proof (u32_range (u32 (va + size) + PAGE_SIZE - 1)) as Hrg. set (n := u32 (u32 (va + size) + PAGE_SIZE - 1)) in *. set (last := n / 4096 * 4096).
  apply map_pages_within; [by apply Z_mod_mult|by apply Z_mod_mult| | | |apply u32_range].
  - unfold a. Z.to_euclidean_division_equations; lia.
  - unfold last. Z.to_euclidean_division_equations; lia.
  - unfold PAGE_SIZE. Z.to_euclidean_division_equations; lia.
Qed.

Lemma map_all_within ps ms :
  Forall (λ m, triple (conf ps) m (λ _, conf ps)) ms → triple (conf ps) (map_all ms) (λ _, conf ps).
Proof.
  induction 1 as [|m ms Hm _ IH]; cbn [map_all]; [by apply triple_ret|]. eapply triple_bind; [exact Hm|]. intros rc.
  apply triple_if; intros _; [by apply triple_ret|done].
Qed.

Lemma map_kernel_within ps : triple (conf ps) (map_kernel r) (λ _, conf ps).
Proof.
  destruct x_symbols as (S1 & S2 & S3 & S4 & S5). apply map_all_within.
  assert (0 ≤ pa_round_up sym_erodata).
  { unfold pa_round_up. rewrite align_down_12. pose proof (u32_range (sym_erodata + PAGE_SIZE - 1)). Z.to_euclidean_division_equations; lia. }
  apply Forall_app. split; [by repeat constructor; apply map_region_within|]. apply Forall_app.
  split; [by case_match; repeat constructor; apply map_region_within|]. apply Forall_app.
  split; [by case_match; repeat constructor; apply map_region_within|]. by repeat constructor; apply map_region_within.
Qed.

(** *** What is done for an agent *)

Inductive xop :=
  | XFault (va : Z) (write : bool)
  | XAlias (dst_off src_off : Z)
  | XMap (va pa perm : Z)
  | XRegion (va pa size perm : Z).

(** Arguments of type unsigned long. *)
Definition xop_ok (o : xop) : Prop := match o with XMap _ pa _ => word32 pa | XRegion va _ _ _ => word32 va | _ => True end.

Definition run_xop (o : xop) : M vstate unit :=
  match o with
  | XFault va write => vm_heap_fault va write ;; ret tt
  | XAlias dst src => vm_heap_cow_alias dst src ;; ret tt
  | XMap va pa perm => let! a := gets snd in onvm (vm_map_user_page (pagetable a) va pa perm) ;; ret tt
  | XRegion va pa size perm => let! a := gets snd in onvm (vm_map_region (pagetable a) va pa size perm) ;; ret tt
  end.

Fixpoint run_xops (os : list xop) : M vstate unit := match os with [] => ret tt | o :: os' => run_xop o ;; run_xops os' end.

Lemma run_xop_within o : xop_ok o → within (run_xop o).
Proof.
  intros Ho. unfold within. destruct o as [va write|dst src|va pa perm|va pa size perm]; cbn [run_xop xop_ok] in *.
  - eapply triple_bind; [apply heap_fault_within|]. intros ?. by apply triple_ret.
  - eapply triple_bind; [apply cow_alias_within|]. intros ?. by apply triple_ret.
  - apply within_agent. intros a Ha. rewrite Ha. eapply triple_bind; [by apply aconf_map|]. intros ?. by apply triple_ret.
  - apply within_agent. intros a Ha. rewrite Ha. eapply triple_bind; [apply aconf_stays, map_region_within, Ho|]. intros ?. by apply triple_ret.
Qed.

Lemma run_xops_within os : Forall xop_ok os → within (run_xops os).
Proof.
  unfold within. induction 1 as [|o os Ho _ IH]; cbn [run_xops]; [by apply triple_ret|]. eapply triple_bind; [by apply run_xop_within|]. by intros [].
Qed.

End confined.
(** ** Separation *)

(** The tables of the roots [R] as the kernel makes them. *)
Record sys86 (R : gset Z) (v : vm) : Prop := {
  s86_wf : x_wf R v;
  s86_flags : ∀ r va e, r ∈ R → xlate86 (pt_mem v) r va = Some e → flags_ok e;
  s86_heap : heap_low v
}.

Lemma sys86_conf R r v : sys86 R v → conf R r v [] v.
Proof. intros [H1 H2 H3]. constructor; auto. intros p Hp. by apply elem_of_nil in Hp. Qed.

Lemma conf_sys86 R r v0 ps v : conf R r v0 ps v → sys86 R v.
Proof. intros [H1 H2 H3 H4 H5]. by constructor. Qed.

Lemma sys86_fewer R R' v : R ⊆ R' → sys86 R' v → sys86 R v.
Proof.
  intros Hs [[W1 W2 W3 W4 W5 W6 W8 W7] H2 H3]. constructor; [constructor|..]; try done; eauto.
  - intros r i e Hr He HV. destruct (W6 r i e (Hs r Hr) He HV) as [H1 Hn]. split; [done|]. auto.
Qed.

(** The new table is empty. *)
Lemma alloc86_sys R v : sys86 R v → pt_next v < PT_PAGES →
  sys86 ({[next_table v]} ∪ R) (alloc86 v) ∧ ∀ r va, r ∈ R → xlate86 (pt_mem (alloc86 v)) r va = xlate86 (pt_mem v) r va.
Proof.
  intros [Hw Hf Hh] Hn. pose proof (fresh_table R v Hw Hn) as Hfr. pose proof (proj2 (alloc86_wf R v Hw Hn)) as Hw'.
  assert (∀ r va, r ∈ R → xlate86 (pt_mem (alloc86 v)) r va = xlate86 (pt_mem v) r va) as Hx.
  { intros r va Hr. unfold xlate86. rewrite (alloc86_ent R) by (done || intros ->; by apply Hfr, (xw_roots R v Hw)).
    destruct (ent (pt_mem v) r (pd_index va)) as [pde|] eqn:Ep; [|done]. cbn [mbind option_bind]. destruct (has PTE_V pde) eqn:HV; [|done].
    rewrite (alloc86_ent R); [done..|]. intros E. apply Hfr. rewrite <- E. by destruct (xw_child R v Hw r _ pde Hr Ep HV). }
  split; [|done]. constructor; [done| |done]. intros r va e [->%elem_of_singleton|Hr]%elem_of_union.
  - unfold xlate86. cbn [pt_mem alloc86]. rewrite ent_new, decide_True by done. destruct (zero_table !! pd_index va) as [x|] eqn:Ex; [|done].
    by apply zero_table86_lookup in Ex as ->.
  - rewrite Hx by done. by apply Hf.
Qed.

Lemma create_spec86 R v : sys86 R v →
  ∃ pt v', vm_create_agent_pt v = Ret (pt, v') ∧ (∀ r va, r ∈ R → xlate86 (pt_mem v') r va = xlate86 (pt_mem v) r va)
    ∧ sys86 R v' ∧ (pt ≠ 0 → (pt ∉ R) ∧ sys86 ({[pt]} ∪ R) v').
Proof.
  intros Hs. unfold vm_create_agent_pt, pt_alloc. destruct (Z.leb_spec PT_PAGES (pt_next v)) as [Hge|Hlt].
  { exists 0, v. rewrite (bind_ret _ _ _ 0 v) by (by test_true (PT_PAGES <=? pt_next v)). split; [done|]. split; [done|]. split; [done|]. done. }
  rewrite (bind_ret _ _ _ (next_table v) (alloc86 v)) by (by test_false (PT_PAGES <=? pt_next v)).
  assert (next_table v ≠ 0) as Hnz.
  { pose proof x_pool_low. pose proof (xw_next R v (s86_wf R v Hs)). unfold next_table, pool_table. lia. }
  test_false (next_table v =? 0). destruct (alloc86_sys R v Hs Hlt) as [Hs' Hx]. set (pt := next_table v) in *.
  assert (pt ∉ R) as Hnew. { intros Hin. by apply (fresh_table R v (s86_wf R v Hs) Hlt), (xw_roots R v (s86_wf R v Hs)). }
  destruct (map_kernel_within ({[pt]} ∪ R) pt ltac:(set_solver) (alloc86 v) [] (alloc86 v) (sys86_conf _ _ _ Hs')) as (rc & v' & E & Hc).
  rewrite (bind_ret _ _ _ _ _ E).
  assert (∀ r va, r ∈ R → xlate86 (pt_mem v') r va = xlate86 (pt_mem v) r va) as Hx'.
  { intros r va Hr. rewrite (cf_other _ _ _ _ _ Hc); [by apply Hx|set_solver|]. by intros ->. }
  pose proof (conf_sys86 _ _ _ _ _ Hc) as Hs2. assert (sys86 R v') by (eapply sys86_fewer; [|exact Hs2]; set_solver).
  destruct (negb (rc =? 0)); eexists _, v'; (split; [done|]); (split; [done|]); (split; [done|]); done.
Qed.

(** [C35] On the PC port too, agents are separate as far as the kernel's tables go: whatever
    is done for an agent in any order (page faults in its heap, copy-on-write aliases,
    pages and regions mapped for it, with success or failure), the entries of every other
    agent's tables stay as they are; and the tables made for a new agent leave those of
    all agents unchanged and are shared with none of them. *)
Theorem x86_tables_separate R r v a ops :
  sys86 R v → r ∈ R → pagetable a = r → Forall xop_ok ops →
  (∃ v' a', run_xops ops (v, a) = Ret (tt, (v', a')) ∧ sys86 R v'
     ∧ (∀ r' va, r' ∈ R → r' ≠ r → xlate86 (pt_mem v') r' va = xlate86 (pt_mem v) r' va))
  ∧ (∃ pt v', vm_create_agent_pt v = Ret (pt, v') ∧ (∀ r' va, r' ∈ R → xlate86 (pt_mem v') r' va = xlate86 (pt_mem v) r' va)
     ∧ sys86 R v' ∧ (pt ≠ 0 → (pt ∉ R) ∧ sys86 ({[pt]} ∪ R) v')).
Proof.
  intros Hs Hr Ha Hops. split; [|by apply create_spec86].
  destruct (run_xops_within R r Hr v ops Hops (v, a)) as ([] & [v' a'] & E & Hc & _); [split; [by apply sys86_conf|done]|].
  exists v', a'. split; [exact E|]. split; [by eapply conf_sys86|]. apply Hc.
Qed.

(** The check that guards every access of a system call to the memory of its caller:
    it has no effect and returns 0 exactly when every byte of the range is on a page of
    the caller, and for a write on one that may be written. *)
Theorem x86_check_exact R v r ua len write :
  x_wf R v → r ∈ R → 0 ≤ ua → 0 < len → ua + len ≤ 4294963200 →
  ∃ rc, vm_user_check r ua len write v = Ret (rc, v) ∧ (rc = 0 ∨ rc = -1)
    ∧ (rc = 0 ↔ ∀ x, ua ≤ x < ua + len → allowed86 v r write x).
Proof. apply user_check_spec86. Qed.

(** ** The processor *)

(** The bits of an entry as an i386 processor reads them (Intel SDM, volume 3, 4.3):
    present, writable in user mode, accessible in user mode. *)
Definition HW_P : Z := 0x1.
Definition HW_RW : Z := 0x2.
Definition HW_US : Z := 0x4.

Definition hw_allows (user write : bool) (e : Z) : bool :=
  has HW_P e && (negb user || has HW_US e) && (negb (user && write) || has HW_RW e).

(** The physical address of an access, or a fault. *)
Definition mmu (c : x86) (user write : bool) (va : Z) : option Z :=
  if negb (has CR0_PG (cr0 c)) then Some va
  else
    pde ← ent (pt_mem (xmem c)) (cr3 c) (pd_index va);
    if negb (hw_allows user write pde) then None
    else
      e ← ent (pt_mem (xmem c)) (frame_of pde) (pt_index va);
      if negb (hw_allows user write e) then None else Some (frame_of e + va mod 4096).

Lemma mmu_paged R c user write va pde :
  x_wf R (xmem c) → cr3 c ∈ R → has CR0_PG (cr0 c) = true → ent (pt_mem (xmem c)) (cr3 c) (pd_index va) = Some pde → has PTE_V pde = true →
  mmu c user write va = (if user && write then None else
    e ← xlate86 (pt_mem (xmem c)) (cr3 c) va; if hw_allows user write e then Some (frame_of e + va mod 4096) else None).
Proof.
  intros Hw Hr Hpg Hp HV. unfold mmu. rewrite Hpg, Hp. cbn [negb mbind option_bind]. destruct (xw_dir _ _ Hw _ _ _ Hr Hp HV) as [HR HW].
  unfold hw_allows at 1. change HW_P with PTE_V. change HW_US with PTE_W. change HW_RW with PTE_R. rewrite HV, HR, HW.
  destruct user, write; cbn [negb andb orb]; try done; destruct (xlate86_dir _ _ _ va pde Hw Hr Hp HV) as (e & He & _ & ->); rewrite He;
    cbn [mbind option_bind];
    destruct (has PTE_V e) eqn:HVe; cbn [mbind option_bind]; unfold hw_allows; change (has HW_P e) with (has PTE_V e); rewrite HVe; by destruct (has HW_US e).
Qed.

(** The start of the kernel: no table exists yet. *)
Record off86 (c : x86) : Prop := {
  o86_pg : has CR0_PG (cr0 c) = false;
  o86_tables : ∀ t, is_Some (pt_mem (xmem c) !! t) → t = root_table;
  o86_heap : heap_low (xmem c)
}.

Definition reset86 (v : vm) : vm := mk_vm (<[root_table := zero_table]> (pt_mem v)) 0 root_table (pmem v) (kheap v).

Lemma reset86_sys c : off86 c → sys86 {[root_table]} (reset86 (xmem c)).
Proof.
  intros [Hpg Ht Hh]. assert (∀ t tbl, pt_mem (reset86 (xmem c)) !! t = Some tbl → t = root_table ∧ tbl = zero_table) as Hm.
  { intros t tbl. cbn. destruct (decide (t = root_table)) as [->|Hne]; [rewrite lookup_insert_eq; by intros [= <-]|].
    rewrite lookup_insert_ne by done. intros E. exfalso. apply Hne, Ht. by exists tbl. }
  assert (∀ t i e, ent (pt_mem (reset86 (xmem c))) t i = Some e → e = 0) as He.
  { intros t i e. unfold ent. destruct (pt_mem (reset86 (xmem c)) !! t) as [tbl|] eqn:E; [|done]. destruct (Hm t tbl E) as [-> ->].
    cbn [mbind option_bind]. apply zero_table86_lookup. }
  constructor; [constructor| |done].
  - done.
  - intros t. split.
    + intros [tbl E]. left. by destruct (Hm t tbl E).
    + intros [->|(k & Hk & _)]; [|cbn in Hk; lia]. cbn. rewrite lookup_insert_eq. by eexists.
  - intros t tbl E. by destruct (Hm t tbl E) as [_ ->].
  - intros t i e E. by rewrite (He t i e E).
  - intros r ->%elem_of_singleton. by left.
  - intros r i e _ E HV. by rewrite (He r i e E) in HV.
  - intros r i e _ E HV. by rewrite (He r i e E) in HV.
  - intros r i e r' i' e' _ _ E _ HV. by rewrite (He r i e E) in HV.
  - intros r va e _. unfold xlate86. destruct (ent _ r (pd_index va)) as [pde|] eqn:E; [|done]. by rewrite (He _ _ _ E).
Qed.

Lemma vm_init_spec86 c : off86 c →
  ∃ c', vm_init c = Ret (tt, c') ∧ cr0 c' = cr0 c ∧ sys86 {[root_table]} (xmem c') ∧ (cr3 c' = root_table ∨ cr3 c' = cr3 c).
Proof.
  intros Ho. pose proof (reset86_sys c Ho) as Hs. unfold vm_init.
  rewrite (bind_ret _ _ _ tt (mk_x86 (cr0 c) (cr3 c) (reset86 (xmem c)))) by done. rewrite bind_gets.
  destruct (map_kernel_within {[root_table]} root_table ltac:(set_solver) (reset86 (xmem c)) [] _ (sys86_conf _ _ _ Hs)) as (rc & v' & E & Hc).
  rewrite (bind_ret _ _ _ rc (mk_x86 (cr0 c) (cr3 c) v')) by (unfold onxmem, zoom; cbn [xmem kernel_pt reset86]; by rewrite E).
  apply conf_sys86 in Hc. destruct (negb (rc =? 0)); eexists; (split; [done|]); (split; [done|]); (split; [done|]); auto.
Qed.

(** [C36] The tables of the PC port do not protect anything.  The initialisation leaves
    paging off (its message says otherwise), so that an agent reaches every physical
    address, for reading and writing.  With paging on it would be no better: the flags
    are the bits of the other platform, where the processor finds its own, so in every
    table that the kernel makes no page could be written in user mode, and every page
    that the kernel maps for itself could be read in user mode. *)
Theorem x86_unprotected c R v r va :
  off86 c → sys86 R v → r ∈ R →
  (∃ c', vm_init c = Ret (tt, c') ∧ ∀ user write x, mmu c' user write x = Some x)
  ∧ (∀ c1 c2, vm_enable_paging c1 = Ret (tt, c2) → xmem c1 = v → cr3 c1 = r → xlate86 (pt_mem v) r va ≠ None →
       mmu c2 true true va = None
       ∧ (∀ e, xlate86 (pt_mem v) r va = Some e → has PTE_U e = false → mmu c2 true false va = Some (frame_of e + va mod 4096))).
Proof.
  intros Ho Hs Hr. split.
  - destruct (vm_init_spec86 c Ho) as (c' & E & E0 & _). exists c'. split; [exact E|]. intros user write x. unfold mmu. by rewrite E0, (o86_pg c Ho).
  - intros c1 c2 E Ev Er Hx. injection E as <-. destruct (xlate86 (pt_mem v) r va) as [e|] eqn:Ex; [|done].
    pose proof Ex as Ex'. unfold xlate86 in Ex'. destruct (ent (pt_mem v) r (pd_index va)) as [pde|] eqn:Ep; [|done]. cbn [mbind option_bind] in Ex'.
    destruct (has PTE_V pde) eqn:HV; [|done].
    assert (has CR0_PG (Z.lor (cr0 c1) CR0_PG) = true) as Hpg.
    { unfold has. rewrite Z.land_lor_distr_l. change (Z.land CR0_PG CR0_PG) with CR0_PG. apply negb_true_iff, Z.eqb_neq. by intros [_ E]%Z.lor_eq_0_iff. }
    assert (∀ write, mmu (mk_x86 (Z.lor (cr0 c1) CR0_PG) (cr3 c1) (xmem c1)) true write va
      = (if write then None else if hw_allows true write e then Some (frame_of e + va mod 4096) else None)) as Hmmu.
    { intros write. rewrite (mmu_paged R _ _ _ _ pde); cbn [xmem cr3 cr0]; rewrite ?Ev, ?Er; try done; [|apply Hs]. cbn [andb]. by rewrite Ex. }
    rewrite !Hmmu. split; [done|]. intros e' [= <-] HU. destruct (s86_flags _ _ Hs r va e Hr Ex) as [HR HW].
    unfold hw_allows. change (has HW_P e) with (has PTE_V e). change (has HW_US e) with (has PTE_W e). rewrite (HW HU).
    destruct (ent (pt_mem v) (frame_of pde) (pt_index va)) as [e0|] eqn:E0; [|done]. cbn [mbind option_bind] in Ex'.
    destruct (has PTE_V e0) eqn:HVe; [|done]. injection Ex' as <-. by rewrite HVe.
Qed.

End props.

(** ** Example: a PC *)

Definition pc_layout : Layout := {|
  root_table := 0x140000; pt_storage := 0x158000;
  sym_start := 0x100000; sym_erodata := 0x120000; sym_end := 0x142000;
  sym_ptpool_start := 0x158000; sym_ptpool_end := 0x198000;
  sym_user_text_start := 0x142000; sym_user_bss_start := 0x150000; sym_user_end := 0x158000;
  platform_heap_start := 0x300000; platform_uart_mmio := 0x3f8;
  platform_virtio_mmio_base := 0; platform_virtio_mmio_count := 0; platform_virtio_mmio_stride := 0
|}.

#[local] Existing Instance pc_layout.

Lemma pc_laws : X86Laws.
Proof.
  constructor; try done. intros k Hk. unfold pool_table, PT_PAGES in *. cbn. lia.
Qed.

(** The processor before [vm_init], and the memory with an empty table for an agent. *)
Definition pc_start : x86 := mk_x86 0x11 0 (mk_vm ∅ 0 0 ∅ (mem_init 0x300000)).
Definition pc_two : vm := alloc86 (reset86 (xmem pc_start)).

Lemma pc_off : off86 pc_start.
Proof.
  constructor; [done| |].
  - by intros t [tbl E].
  - exists 0x300000. split; [by constructor|done].
Qed.

Lemma pc_two_sys : sys86 {[0x158000; 0x140000]} pc_two.
Proof. exact (proj1 (alloc86_sys (XL := pc_laws) {[0x140000]} _ (reset86_sys pc_start pc_off) eq_refl)). Qed.

(** The stack of an agent and an alias in its heap. *)
Definition pc_ops : list xop := [XRegion 0x310000 0x310000 8192 0x16; XFault 0x60000000 true; XAlias 1 0].

Lemma x86_tables_separate_witness :
  ∃ v' a', run_xops pc_ops (pc_two, upd.pagetable 0x158000 zero_agent) = Ret (tt, (v', a'))
    ∧ ∀ va, xlate86 (pt_mem v') 0x140000 va = xlate86 (pt_mem pc_two) 0x140000 va.
Proof.
  destruct (x86_tables_separate (XL := pc_laws) {[0x158000; 0x140000]} 0x158000 pc_two (upd.pagetable 0x158000 zero_agent) pc_ops pc_two_sys)
    as [(v' & a' & E & _ & Hx) _]; [set_solver|done|by repeat constructor|].
  exists v', a'. split; [exact E|]. intros va. apply Hx; [set_solver|done].
Defined.

Lemma x86_check_exact_witness : ∃ rc, vm_user_check 0x158000 0x310000 16 true pc_two = Ret (rc, pc_two) ∧ (rc = 0 ∨ rc = -1).
Proof.
  destruct (x86_check_exact {[0x158000; 0x140000]} pc_two 0x158000 0x310000 16 true) as (rc & E & Hrc & _);
    [apply pc_two_sys|set_solver|done|done|done|]. by exists rc.
Defined.

Lemma x86_unprotected_witness : ∃ c', vm_init pc_start = Ret (tt, c') ∧ mmu c' true true 0x100000 = Some 0x100000.
Proof.
  destruct (x86_unprotected (XL := pc_laws) pc_start {[0x158000; 0x140000]} pc_two 0x140000 0 pc_off pc_two_sys) as [(c' & E & Hm) _]; [set_solver|].
  exists c'. split; [exact E|apply Hm].
Defined.

(** The first page of the kernel, with paging on: readable in user mode, and the page of
    the user programs not writable. *)
Example pc_kernel_readable :
  match vm_init pc_start with
  | Ret (_, c) => match vm_enable_paging c with
                  | Ret (_, c) => (mmu c true false 0x100010, mmu c true true 0x142000)
                  | _ => (None, None)
                  end
  | _ => (None, None)
  end = (Some 0x100010, None).
Proof. by vm_compute. Qed.
