(* ===== verification/X86Trap.v ===== *)
(** * Traps, descriptors and the timer of the PC port (kernel/arch/x86)

    trap_handler.c, trap_init.c, timer.c, smp_stub.c, agent_arch.c, and the part of
    [agent_setup_stack] (kernel/agent.c) that differs on this port.  The port has one
    processor, the hart 0.  An interrupt entry saves the registers in a frame: the number
    of the system call and its result are in [a7] (eax), the vector in [ra].

    The system calls run the code of the other files over the tables of X86Vm.v; they are
    arguments here ([send] and [syscall]).  Port input and output is the class [Ports]. *)

From S2P Require Import Prelude Abi Ipc Ramfs Persist Quota Policy AgentDef Mem Vm VmTree X86Vm X86VmProps Kernel Sched Agent Trap.

Class Ports (P : Type) := {
  inb : Z → P → Z * P;
  outb : Z → Z → P → P
}.

(** ** The timer (timer.c) *)

Definition PIT_CH0 : Z := 0x40.
Definition PIT_CMD : Z := 0x43.
Definition PIC1_CMD : Z := 0x20.
Definition PIC1_DATA : Z := 0x21.
Definition PIC2_CMD : Z := 0xa0.
Definition PIC2_DATA : Z := 0xa1.
Definition PIC_EOI : Z := 0x20.
Definition TIMER_HZ : Z := 100.

Section timer.
Context {P : Type} `{Ports P}.

Definition port_out (port val : Z) : M P unit := modify (outb port val).
Definition port_in (port : Z) : M P Z := act (inb port).

Definition timer_pic_eoi : M P unit :=
  let! x := port_in PIC1_CMD in
  (if has 0x80 x then port_out PIC2_CMD PIC_EOI else ret tt) ;;
  port_out PIC1_CMD PIC_EOI.

Definition timer_init : M P unit :=
  let divisor := 1193182 / TIMER_HZ in
  port_out PIC1_CMD 0x11 ;;
  port_out PIC1_DATA 0x20 ;;
  port_out PIC1_DATA 0x04 ;;
  port_out PIC2_CMD 0x11 ;;
  port_out PIC2_DATA 0x28 ;;
  port_out PIC2_DATA 0x02 ;;
  port_out PIC1_DATA 0x01 ;;
  port_out PIC1_DATA 0xff ;;
  port_out PIC2_DATA 0xff ;;
  port_out PIT_CMD 0x36 ;;
  port_out PIT_CH0 (Z.land divisor 0xff) ;;
  port_out PIT_CH0 (Z.land (Z.shiftr divisor 8) 0xff).

Definition timer_irq_unmask : M P unit := port_out PIC1_DATA 0xfe.

End timer.

(** ** One processor (smp_stub.c) *)

Definition smp_online_count : Z := 1.
Definition smp_boot_hart : Z := 0.
Definition smp_hart_id : Z := 0.
Definition smp_hart_ticks (hartid : Z) : Z := 0.
Definition smp_hart_ready (hartid : Z) : bool := hartid =? 0.

(** ** Descriptors (trap_init.c) *)

Record gdt_entry := mk_gdt { limit_lo : Z; base_lo : Z; base_mid : Z; access : Z; granularity : Z; base_hi : Z }.
Record idt_entry := mk_idt { offset_lo : Z; selector : Z; izero : Z; type_attr : Z; offset_hi : Z }.

Definition zero_gdt : gdt_entry := mk_gdt 0 0 0 0 0 0.
Definition zero_idt : idt_entry := mk_idt 0 0 0 0 0.

Definition gdt_set (base limit acc gran : Z) : gdt_entry :=
  mk_gdt (Z.land limit 0xffff) (Z.land base 0xffff) (Z.land (Z.shiftr base 16) 0xff) acc
    (if gran =? 0 then Z.land (Z.shiftr limit 16) 0x0f else gran) (Z.land (Z.shiftr base 24) 0xff).

Definition gdt_set_tss (base limit : Z) : gdt_entry := gdt_set base limit 0x89 0x00.

Definition idt_set (addr attr : Z) : idt_entry :=
  mk_idt (Z.land addr 0xffff) 0x08 0 attr (Z.land (Z.shiftr addr 16) 0xffff).

(** The addresses of the entry points and of the task state segment, which is 104 bytes
    long. *)
Class Entries := { trap_entry_gpf : Z; trap_entry_page : Z; trap_entry_timer : Z; trap_entry_syscall : Z; a_tss : Z; stack_top : Z }.

Definition IDT_ENTRIES : Z := 256.
Definition TSS_SIZE : Z := 104.

(** The fields of the task state segment that are not 0. *)
Record tss_entry := mk_tss { esp0 : Z; ss0 : Z; iomap : Z }.
Definition cpu_tss `{Entries} : tss_entry := mk_tss (u32 stack_top) 0x10 TSS_SIZE.

(** The two tables that [trap_init] loads. *)
Definition trap_gdt `{Entries} : list gdt_entry :=
  [gdt_set 0 0 0 0; gdt_set 0 0xffffffff 0x9a 0xcf; gdt_set 0 0xffffffff 0x92 0xcf; gdt_set 0 0xffffffff 0xfa 0xcf;
   gdt_set 0 0xffffffff 0xf2 0xcf; gdt_set_tss a_tss (TSS_SIZE - 1); zero_gdt].

Definition trap_idt `{Entries} : list idt_entry :=
  <[0x80%nat := idt_set trap_entry_syscall 0xee]>
    (<[0x20%nat := idt_set trap_entry_timer 0x8e]>
      (<[0x0e%nat := idt_set trap_entry_page 0x8e]>
        (<[0x0d%nat := idt_set trap_entry_gpf 0x8e]> (replicate (Z.to_nat IDT_ENTRIES) zero_idt)))).

Definition trap_init `{Entries} {P} `{Ports P} : M P (list gdt_entry * tss_entry * list idt_entry) :=
  timer_init ;; ret (trap_gdt, cpu_tss, trap_idt).

(** ** The handler (trap_handler.c) *)

Definition X86_EFLAGS_IF : Z := 512.

(** What the handler keeps besides the kernel's state. *)
Record pc (D P : Type) := mk_pc { pk : kstate D; timer_armed : bool; timer_ticks : Z; ports : P }.
Arguments mk_pc {D P}. Arguments pk {D P}. Arguments timer_armed {D P}. Arguments timer_ticks {D P}. Arguments ports {D P}.

Section trap.
Context {D P : Type} `{BlockDevice D} `{Ports P} {L : Layout}.
Context (wait : nat → kstate D → kstate D) (fuel : nat).
Context (send : Z → Z → Z → M (kstate D) Z) (syscall : Z → Z → Z → Z → Z → M (kstate D) Z).
Abbreviation kstate := (kstate D).
Abbreviation pc := (pc D P).

Definition onk {A} (m : M kstate A) : M pc A := zoom pk (λ s p, mk_pc s (timer_armed p) (timer_ticks p) (ports p)) m.
Definition onports {A} (m : M P A) : M pc A := zoom ports (λ x p, mk_pc (pk p) (timer_armed p) (timer_ticks p) x) m.

Definition timer_ack : M pc unit :=
  modify (λ p, mk_pc (pk p) (timer_armed p) (u32 (timer_ticks p + 1)) (ports p)) ;;
  onports timer_pic_eoi.

Definition timer_now (p : pc) : Z := timer_ticks p.

Definition maybe_arm_timer : M pc unit :=
  let! armed := gets timer_armed in
  if negb armed then
    onports timer_irq_unmask ;;
    modify (λ p, mk_pc (pk p) true (timer_ticks p) (ports p))
  else ret tt.

(** The result of the call goes to the register it came in. *)
Definition return_result (t : trapframe) (r : Z) : M pc (option trapframe) :=
  let t := tf.set tf.A7 (u32 r) t in
  onk (store_cur 0 t) ;;
  let! t := onk (trapframe_sync_local 0 t) in ret (Some t).

Definition handle_syscall (t : trapframe) : M pc (option trapframe) :=
  let n := i32 (tf.get tf.A7 t) in
  if n =? SYS_AGENT_YIELD then
    let t := tf.set tf.A7 0 t in
    onk (store_cur 0 t) ;;
    let! next := onk (schedule_trap 0 wait fuel (Some t)) in
    maybe_arm_timer ;; ret next
  else if n =? SYS_AGENT_EXIT then
    onk (agent_exit 0 (i32 (tf.get tf.A0 t))) ;;
    onk (store_cur 0 t) ;;
    let! next := onk (schedule_trap 0 wait fuel (Some t)) in
    maybe_arm_timer ;; ret next
  else if n =? SYS_AGENT_SEND then
    let! r := onk (send (i32 (tf.get tf.A0 t)) (i32 (tf.get tf.A1 t)) (tf.get tf.A2 t)) in
    return_result t r
  else
    let! r := onk (syscall n (tf.get tf.A0 t) (tf.get tf.A1 t) (tf.get tf.A2 t) (tf.get tf.A3 t)) in
    return_result t r.

(** [cr2] is the address of a page fault.  A handler that returns the address of its
    local copy of the frame leaves the entry code to read a dead variable. *)
Definition trap_handler (t : trapframe) (cr2 : Z) : M pc (option trapframe) :=
  let vec := tf.get tf.RA t in
  if vec =? 0x80 then handle_syscall t
  else if vec =? 0x20 then
    timer_ack ;;
    if negb (has X86_EFLAGS_IF (tf.get tf.SSTATUS t)) then undef
    else
      let! cur := gets (λ p, agent_current 0 (pk p)) in
      match cur with
      | Some _ => onk (store_cur 0 t) ;; onk (schedule_trap 0 wait fuel (Some t))
      | None => undef
      end
  else if vec =? 0x0d then halt
  else if vec =? 0x0e then
    let! cur := gets (λ p, agent_current 0 (pk p)) in
    match cur with
    | None => halt
    | Some c =>
        let! ok := onk (onagent c (vm_heap_fault cr2 true)) in
        if ok : bool then onk (store_cur 0 t) ;; onk (return_cur 0)
        else
          onk (agent_exit 0 1) ;;
          onk (store_cur 0 t) ;; onk (schedule_trap 0 wait fuel (Some t))
    end
  else halt.

(** ** A new agent *)

Definition agent_arch_init_tf (t : trapframe) (ent user_sp : Z) : trapframe :=
  let t := tf.set tf.SEPC ent t in
  let t := tf.set tf.SP user_sp t in
  let t := tf.set tf.GP 0 t in
  let t := tf.set 30 0x1b t in
  tf.set tf.SSTATUS 0x202 t.

(** [sizeof(struct trapframe)]: 33 words of four bytes. *)
Definition TRAPFRAME_SIZE : Z := 132.

(** The stack is used where it is in memory. *)
Definition agent_setup_stack (i ent : Z) : M kstate unit :=
  modify_agent i (λ a, upd.pagetable 0 (upd.atf None a)) ;;
  let! p := onkvm vm_kalloc_page in
  if p =? 0 then ret tt
  else
    let! stack := onkvm (vm_kalloc AGENT_STACK_SIZE) in
    if stack =? 0 then ret tt
    else
      let stack_pa := align_down 12 (u32 (stack + PAGE_SIZE - 1)) in
      let! aid := gets (λ s, id (agent_at s i)) in
      let user_sp := u32 (stack_pa + AGENT_STACK_SIZE - 256) in
      let! pt := onkvm vm_create_agent_pt in
      modify_agent i (upd.pagetable pt) ;;
      if pt =? 0 then ret tt
      else
        let! rc := onkvm (vm_map_region pt stack_pa stack_pa AGENT_STACK_SIZE (Z.lor (Z.lor PTE_U PTE_R) PTE_W)) in
        if negb (rc =? 0) then modify_agent i (upd.pagetable 0)
        else
          let! t := onkvm (vm_kalloc TRAPFRAME_SIZE) in
          if t =? 0 then ret tt
          else
            modify_agent i (upd.stack (u32 (stack_pa + AGENT_STACK_SIZE))
              (agent_arch_init_tf tf.zero ent user_sp) ent
              (u32 (USER_HEAP_BASE + u32 aid * AGENT_HEAP_SIZE)) (AGENT_HEAP_SIZE / PAGE_SIZE)).

End trap.

(** ** What the processor reads in the descriptors (Intel SDM, volume 3, 3.4.5 and 6.11) *)

Definition seg_base (e : gdt_entry) : Z := base_lo e + Z.shiftl (base_mid e) 16 + Z.shiftl (base_hi e) 24.
Definition seg_limit (e : gdt_entry) : Z :=
  let l := limit_lo e + Z.shiftl (Z.land (granularity e) 0x0f) 16 in
  if Z.testbit (granularity e) 7 then l * 4096 + 4095 else l.
Definition seg_dpl (e : gdt_entry) : Z := Z.land (Z.shiftr (access e) 5) 3.
Definition seg_present (e : gdt_entry) : bool := Z.testbit (access e) 7.

Definition gate_target (e : idt_entry) : Z := offset_lo e + Z.shiftl (offset_hi e) 16.
Definition gate_dpl (e : idt_entry) : Z := Z.land (Z.shiftr (type_attr e) 5) 3.
Definition gate_present (e : idt_entry) : bool := Z.testbit (type_attr e) 7.

Lemma seg_base_set base limit acc gran : word32 base → seg_base (gdt_set base limit acc gran) = base.
Proof.
  intros Hb. unfold seg_base, gdt_set. cbn [base_lo base_mid base_hi]. change 0xffff with (Z.ones 16). change 0xff with (Z.ones 8).
  rewrite !Z.land_ones, !Z.shiftr_div_pow2, !Z.shiftl_mul_pow2 by lia. change (2 ^ 16) with 65536. change (2 ^ 8) with 256. change (2 ^ 24) with 16777216.
  unfold word32 in Hb. Z.to_euclidean_division_equations; lia.
Qed.

(** A limit of up to 20 bits in bytes; with a granularity the caller gives its top. *)
Lemma seg_limit_set base limit acc : 0 ≤ limit < 1048576 → seg_limit (gdt_set base limit acc 0) = limit.
Proof.
  intros Hl. unfold seg_limit, gdt_set. cbn [limit_lo granularity Z.eqb]. change 0xffff with (Z.ones 16). change 0x0f with (Z.ones 4).
  rewrite !Z.land_ones, !Z.shiftr_div_pow2, !Z.shiftl_mul_pow2 by lia. change (2 ^ 16) with 65536. change (2 ^ 4) with 16.
  replace (Z.testbit (limit / 65536 mod 16) 7) with false; [Z.to_euclidean_division_equations; lia|]. symmetry.
  change 16 with (2 ^ 4). rewrite Z.mod_pow2_bits_high by lia. done.
Qed.

Lemma gate_target_set addr attr : word32 addr → gate_target (idt_set addr attr) = addr.
Proof.
  intros Ha. unfold gate_target, idt_set. cbn [offset_lo offset_hi]. change 0xffff with (Z.ones 16).
  rewrite !Z.land_ones, !Z.shiftr_div_pow2, !Z.shiftl_mul_pow2 by lia. change (2 ^ 16) with 65536. unfold word32 in Ha.
  Z.to_euclidean_division_equations; lia.
Qed.

(** What the processor makes of a descriptor of the segment table: nothing when it is
    not present; otherwise a code, data or task state segment.  Code segments are read by
    the bits of the access byte (executable, conforming, readable), data segments too
    (expand-down, writable), and both are of 32 bits if bit 6 of the granularity says so. *)
Inductive segment :=
  | SCode (dpl : Z) (readable conforming wide : bool) (base limit : Z)
  | SData (dpl : Z) (writable down wide : bool) (base limit : Z)
  | STask (dpl : Z) (busy : bool) (base limit : Z)
  | SOther.

Definition seg_decode (e : gdt_entry) : option segment :=
  let acc := access e in
  let wide := Z.testbit (granularity e) 6 in
  if negb (seg_present e) then None
  else Some (
    if Z.testbit acc 4 then
      if Z.testbit acc 3
      then SCode (seg_dpl e) (Z.testbit acc 1) (Z.testbit acc 2) wide (seg_base e) (seg_limit e)
      else SData (seg_dpl e) (Z.testbit acc 1) (Z.testbit acc 2) wide (seg_base e) (seg_limit e)
    else if Z.land acc 0x0d =? 0x09 then STask (seg_dpl e) (Z.testbit acc 1) (seg_base e) (seg_limit e)
    else SOther).

(** The segment that a selector names: the table index is in its upper bits. *)
Definition seg_select (gdt : list gdt_entry) (sel : Z) : option segment :=
  gdt !! Z.to_nat (Z.shiftr sel 3) ≫= seg_decode.

(** What the processor makes of a gate: nothing when it is not present; an interrupt gate
    of 32 bits (type 14), with its selector, target and the least privilege that may raise
    it; another kind of gate. *)
Inductive gate := GInterrupt (sel target dpl : Z) | GOther.

Definition gate_decode (e : idt_entry) : option gate :=
  if negb (gate_present e) then None
  else Some (if Z.land (type_attr e) 0x1f =? 14 then GInterrupt (selector e) (gate_target e) (gate_dpl e) else GOther).

(** The selectors that the kernel loads or puts in descriptors. *)
Definition KERNEL_CS : Z := 0x08.
Definition KERNEL_DS : Z := 0x10.
Definition TSS_SEG : Z := 0x28.

(** The gates that there should be: the vector, the entry point and the least privilege
    that may raise it. *)
Definition gates `{Entries} : list (Z * (Z * Z)) :=
  [(0x0d, (trap_entry_gpf, 0)); (0x0e, (trap_entry_page, 0)); (0x20, (trap_entry_timer, 0)); (0x80, (trap_entry_syscall, 3))].

Definition gate_for `{Entries} (vec : Z) : option gate :=
  (λ g, GInterrupt KERNEL_CS g.2.1 g.2.2) <$> find (λ g, g.1 =? vec) gates.

Lemma trap_idt_lookup `{Entries} vec : 0 ≤ vec < IDT_ENTRIES →
  trap_idt !! Z.to_nat vec = Some (
    if vec =? 0x0d then idt_set trap_entry_gpf 0x8e else if vec =? 0x0e then idt_set trap_entry_page 0x8e
    else if vec =? 0x20 then idt_set trap_entry_timer 0x8e else if vec =? 0x80 then idt_set trap_entry_syscall 0xee else zero_idt).
Proof.
  intros Hv. unfold IDT_ENTRIES in Hv. unfold trap_idt.
  rewrite !list_lookup_insert, !length_insert, length_replicate. unfold IDT_ENTRIES.
  repeat (case_decide || case_test); try lia; try done. by rewrite lookup_replicate_2 by lia.
Qed.

(** [C37] The descriptor tables of the port, as the processor reads them.  The segment
    table holds, after the null descriptor, present 32-bit segments over the whole address
    space: code and data of privilege 0 for the kernel, code and data of privilege 3 for
    agents; then the available task state segment with its exact address and length; the
    last descriptor is not present.  The task state segment switches to the kernel's stack
    in the kernel's data segment and has no map of permitted ports.  Of the interrupt
    table exactly four vectors are present, each a 32-bit interrupt gate into the kernel's
    code segment at the address of its entry point; an agent can raise the system call
    only.  Any other exception of an agent, such as a division by zero, finds no gate. *)
Theorem trap_tables_exact `{Entries} :
  word32 a_tss → word32 stack_top → Forall (λ g, word32 g.2.1) gates →
  seg_decode <$> trap_gdt
  = [None; Some (SCode 0 true false true 0 4294967295); Some (SData 0 true false true 0 4294967295);
     Some (SCode 3 true false true 0 4294967295); Some (SData 3 true false true 0 4294967295);
     Some (STask 0 false a_tss (TSS_SIZE - 1)); None]
  ∧ seg_select trap_gdt TSS_SEG = Some (STask 0 false a_tss (TSS_SIZE - 1))
  ∧ seg_select trap_gdt KERNEL_CS = Some (SCode 0 true false true 0 4294967295)
  ∧ seg_select trap_gdt (ss0 cpu_tss) = Some (SData 0 true false true 0 4294967295)
  ∧ esp0 cpu_tss = stack_top ∧ TSS_SIZE ≤ iomap cpu_tss
  ∧ length trap_idt = Z.to_nat IDT_ENTRIES
  ∧ ∀ vec, 0 ≤ vec < IDT_ENTRIES → ∃ e, trap_idt !! Z.to_nat vec = Some e ∧ gate_decode e = gate_for vec.
Proof.
  intros Htss Hst Hg.
  assert (seg_decode (gdt_set_tss a_tss (TSS_SIZE - 1)) = Some (STask 0 false a_tss (TSS_SIZE - 1))) as Et.
  { unfold seg_decode, gdt_set_tss. rewrite seg_base_set, seg_limit_set by done. done. }
  split_and!.
  - unfold trap_gdt. rewrite !fmap_cons, Et. done.
  - exact Et.
  - done.
  - done.
  - simpl. apply u32_small. exact Hst.
  - done.
  - unfold trap_idt. by rewrite !length_insert, length_replicate.
  - intros vec Hv. eexists. split; [by apply trap_idt_lookup|]. unfold gate_for, gates in *.
    rewrite !Forall_cons in Hg. cbn [fst snd] in Hg. destruct Hg as (G1 & G2 & G3 & G4 & _).
    cbn [find fst snd]. rewrite !(Z.eqb_sym _ vec).
    repeat case_test; try done; unfold gate_decode; cbn [gate_present type_attr idt_set]; by rewrite gate_target_set.
Qed.

Section proofs.
Context {D P : Type} `{BlockDevice D} `{Ports P} {L : Layout}.
Context (wait : nat → kstate D → kstate D) (fuel : nat).
Context (send : Z → Z → Z → M (kstate D) Z) (syscall : Z → Z → Z → Z → Z → M (kstate D) Z).
Implicit Types (s : kstate D) (p : pc D P).

Lemma onk_ret {A} (m : M (kstate D) A) p x s : m (pk p) = Ret (x, s) → onk m p = Ret (x, mk_pc s (timer_armed p) (timer_ticks p) (ports p)).
Proof. intros E. unfold onk, zoom. by rewrite E. Qed.

(** The end of a system call: the frame with the result, stored for the agent. *)
Lemma return_result_spec p c t r :
  sched_inv (pk p) → agent_current 0 (pk p) = Some c → is_Some (atf (agent_at (pk p) c)) →
  let t' := tf.set tf.A7 (u32 r) t in
  ∃ s', return_result t r p = Ret (Some t', mk_pc s' (timer_armed p) (timer_ticks p) (ports p))
    ∧ agent_at s' c = upd.atf (Some t') (agent_at (pk p) c) ∧ (∀ i, 0 ≤ i → i ≠ c → agent_at s' i = agent_at (pk p) i)
    ∧ agent_current 0 s' = Some c.
Proof.
  intros Hi Hc [t0 Ht] t'. destruct (si_cur _ Hi 0 c ltac:(done) Hc) as [Hcr _]. set (s := pk p) in *.
  set (st := trapframe_store (agent_current 0 s) (Some t') s).
  assert (∀ j, 0 ≤ j → agent_at st j = if decide (j = c) then upd.atf (Some t') (agent_at s c) else agent_at s j) as Ha.
  { intros j Hj. unfold st. rewrite (store_agent 0) by done. rewrite Hc. case_decide as E.
    - injection E as <-. by rewrite Ht, decide_True.
    - rewrite decide_False by congruence. by destruct (atf (agent_at s j)). }
  assert (agent_current 0 st = Some c) as Hc1 by (unfold st; by rewrite store_current).
  assert (sched_inv st) as Hi1 by (by apply trapframe_store_inv).
  set (s2 := trapframe_store (agent_current 0 st) (Some t') st).
  assert (∀ j, 0 ≤ j → agent_at s2 j = agent_at st j) as Ha2.
  { intros j Hj. unfold s2. rewrite (store_agent 0) by done. rewrite Hc1. destruct (atf (agent_at st j)) eqn:Ej; [|done].
    case_decide as E; [|done]. injection E as <-. rewrite Ha by lia. rewrite decide_True by done. by destruct (agent_at s c). }
  exists s2. split; [|split; [|split]].
  - unfold return_result. rewrite (bind_ret _ _ _ _ _ (onk_ret (store_cur 0 t') p tt st eq_refl)).
    rewrite (bind_ret _ _ _ t' (mk_pc s2 (timer_armed p) (timer_ticks p) (ports p))); [done|].
    apply (onk_ret (trapframe_sync_local 0 t') (mk_pc st (timer_armed p) (timer_ticks p) (ports p)) t' s2).
    unfold trapframe_sync_local. rewrite (bind_ret _ _ _ tt s2) by done. unfold cur_tf. rewrite bind_gets.
    unfold s2 at 1. rewrite store_current, Hc1. rewrite Ha2, Ha by lia. by rewrite decide_True.
  - rewrite Ha2, Ha by lia. by rewrite decide_True.
  - intros i Hir Hne. rewrite Ha2, Ha by lia. by rewrite decide_False.
  - unfold s2. by rewrite store_current.
Qed.

(** A system call of the PC port: when the call itself returns to the same agent, the
    agent continues from its frame with the result in the register of the call's number
    and every other register as it was; nothing else is changed by the handler. *)
Theorem x86_syscall_returns t p r s1 cr2 c :
  let n := i32 (tf.get tf.A7 t) in
  tf.get tf.RA t = 0x80 → n ≠ SYS_AGENT_YIELD → n ≠ SYS_AGENT_EXIT → n ≠ SYS_AGENT_SEND →
  syscall n (tf.get tf.A0 t) (tf.get tf.A1 t) (tf.get tf.A2 t) (tf.get tf.A3 t) (pk p) = Ret (r, s1) →
  sched_inv s1 → agent_current 0 s1 = Some c → is_Some (atf (agent_at s1 c)) →
  ∃ s', trap_handler wait fuel send syscall t cr2 p
        = Ret (Some (tf.set tf.A7 (u32 r) t), mk_pc s' (timer_armed p) (timer_ticks p) (ports p))
    ∧ agent_at s' c = upd.atf (Some (tf.set tf.A7 (u32 r) t)) (agent_at s1 c)
    ∧ (∀ i, 0 ≤ i → i ≠ c → agent_at s' i = agent_at s1 i) ∧ agent_current 0 s' = Some c.
Proof.
  intros n Hvec H1 H2 H3 Es Hi Hc Hf.
  destruct (return_result_spec (mk_pc s1 (timer_armed p) (timer_ticks p) (ports p)) c t r Hi Hc Hf) as (s' & E & Hrest). exists s'. split; [|exact Hrest].
  unfold trap_handler. rewrite Hvec. cbn [Z.eqb Pos.eqb]. unfold handle_syscall. fold n.
  test_false (n =? SYS_AGENT_YIELD). test_false (n =? SYS_AGENT_EXIT). test_false (n =? SYS_AGENT_SEND).
  rewrite (bind_ret _ _ _ _ _ (onk_ret _ p r s1 Es)). exact E.
Qed.

(** [C38] A page fault of an agent that its heap does not resolve ends the agent with the
    code 1, and another agent continues from the frame it had saved, if another one can
    run; the machine does not stop. *)
Theorem x86_fault_contained t p v c cr2 j :
  let s := pk p in
  sched_inv s → agent_current 0 s = Some c → frames_ok s → tf.get tf.RA t = 0x0e →
  vm_heap_fault cr2 true (kvm s, agent_at s c) = Ret (false, (v, agent_at s c)) →
  0 ≤ j < MAX_AGENTS → j ≠ c → home_cpu (agent_at s j) = 0 → can_run (agent_at s j) →
  ∃ n t' s', trap_handler wait (S fuel) send syscall t cr2 p = Ret (Some t', mk_pc s' (timer_armed p) (timer_ticks p) (ports p))
    ∧ n ≠ c ∧ 0 ≤ n < MAX_AGENTS ∧ atf (agent_at s n) = Some t'
    ∧ agent_current 0 s' = Some n ∧ state (agent_at s' n) = AGENT_RUNNING
    ∧ state (agent_at s' c) = AGENT_ZOMBIE ∧ exit_code (agent_at s' c) = 1.
Proof.
  intros s Hi Hc Hf Hvec Ev Hj Hjc Hjh Hjr.
  assert (onagent c (vm_heap_fault cr2 true) s = Ret (false, with_vm v s)) as Eo.
  { unfold onagent. rewrite Ev. do 2 f_equal. by apply upd_agent_same. }
  set (s0 := with_vm v s) in *.
  assert (sched_inv s0) as Hi0 by (destruct Hi as [[? ? ? ? ? ?] ? ? ? ?]; constructor; [by constructor|done..]).
  destruct (end_and_store 0 s0 c t 1 Hi0 ltac:(done) Hc Hf) as (Hi2 & Hc2 & Hz & Hx & Hf2 & Hrun). cbv zeta in *.
  set (s2 := trapframe_store (Some c) (Some t) (upd_agent c (ended 1) s0)) in *.
  destruct (schedule_after_end 0 wait fuel s2 c (Some t) j Hi2 ltac:(done) Hc2 Hz Hf2 Hj)
    as (n & t' & s' & E & Hn & Hnr & Htf & Hcur & Hst & Hca); [by rewrite Hrun by lia..|].
  rewrite Hrun in Htf by lia.
  exists n, t', s'. destruct (store_state 0 s2 c (Some t) c Hi2 ltac:(done) Hc2) as (F1 & F2 & _); [apply (si_cur s Hi 0 c ltac:(done)) in Hc; lia|].
  split; [|by rewrite Hca, F1, F2]. unfold trap_handler. rewrite Hvec. cbn [Z.eqb Pos.eqb]. rewrite bind_gets, (Hc : agent_current 0 (pk p) = Some c).
  rewrite (bind_ret _ _ _ _ _ (onk_ret _ p false s0 Eo)).
  rewrite (bind_ret _ _ _ tt (mk_pc (upd_agent c (ended 1) s0) (timer_armed p) (timer_ticks p) (ports p)))
    by (apply (onk_ret _ (mk_pc s0 _ _ _)); unfold agent_exit; cbn [pk]; by rewrite bind_gets, (Hc : agent_current 0 s0 = Some c)).
  rewrite (bind_ret _ _ _ tt (mk_pc s2 (timer_armed p) (timer_ticks p) (ports p))).
  - by apply (onk_ret _ (mk_pc s2 _ _ _)).
  - apply (onk_ret _ (mk_pc (upd_agent c (ended 1) s0) _ _ _)). unfold store_cur, modify, trapframe_store_local. cbn [pk].
    change (agent_current 0 (upd_agent c (ended 1) s0)) with (agent_current 0 s). by rewrite Hc.
Qed.

(** A general protection fault stops the machine, whoever caused it. *)
Lemma gp_fault_halts t p cr2 : tf.get tf.RA t = 0x0d → trap_handler wait fuel send syscall t cr2 p = Halt.
Proof. intros Hv. unfold trap_handler. by rewrite Hv. Qed.

End proofs.

(** ** A new agent does not disturb the others *)

Section creation.
Context {D : Type} {L : Layout} {XL : X86Laws}.
Implicit Types s : kstate D.

(** A state whose tables are those of [R], with the entries of [v0]. *)
Definition tables_as (R : gset Z) (v0 : vm) (s : kstate D) : Prop :=
  sys86 R (kvm s) ∧ ∀ r va, r ∈ R → xlate86 (pt_mem (kvm s)) r va = xlate86 (pt_mem v0) r va.

Lemma tables_onkvm {A} R v0 (m : M vm A) :
  (∀ v, sys86 R v → ∃ x v', m v = Ret (x, v') ∧ sys86 R v' ∧ ∀ r va, r ∈ R → xlate86 (pt_mem v') r va = xlate86 (pt_mem v) r va) →
  triple (tables_as R v0) (onkvm m) (λ _, tables_as R v0).
Proof.
  intros Hm s [Hs Hx]. destruct (Hm _ Hs) as (x & v' & E & Hs' & Hx'). exists x, (with_vm v' s). unfold onkvm, zoom. rewrite E. split; [done|].
  split; [done|]. intros r va Hr. cbn. rewrite Hx' by done. by apply Hx.
Qed.

Lemma tables_heap R v h : sys86 R v → (∃ st, heap_wf st h ∧ st + HEAP_SIZE < 4294967296) → sys86 R (with_heap h v).
Proof. intros [[W1 W2 W3 W4 W5 W6 W7 W8] H2 H3] Hh. constructor; [by constructor|done|done]. Qed.

Lemma tables_page R v0 : triple (tables_as R v0) (onkvm vm_kalloc_page) (λ _, tables_as R v0).
Proof.
  apply tables_onkvm. intros v Hs. unfold vm_kalloc_page. destruct (s86_heap R v Hs) as (st & Hh & Hl).
  destruct (kalloc_page_spec st (kheap v) Hh) as (p & _ & _ & [(_ & E & Hh')|(_ & E)]); rewrite E; eexists _, _;
    (split; [done|]); (split; [apply tables_heap; eauto|done]).
Qed.

Lemma tables_alloc R v0 n : 0 ≤ n < 4294967296 → triple (tables_as R v0) (onkvm (vm_kalloc n)) (λ _, tables_as R v0).
Proof.
  intros Hn. apply tables_onkvm. intros v Hs. unfold vm_kalloc. destruct (s86_heap R v Hs) as (st & Hh & Hl).
  destruct (kalloc_spec st (kheap v) n Hh Hn) as (k & _ & _ & [(_ & E & Hh')|(_ & E)]); rewrite E; eexists _, _;
    (split; [done|]); (split; [apply tables_heap; eauto|done]).
Qed.

Lemma tables_agent R v0 i f : triple (tables_as R v0) (modify_agent i f) (λ _, tables_as R v0).
Proof. by apply triple_modify. Qed.

(** The agent's new table is none of [R]. *)
Definition tables_new (R : gset Z) (v0 : vm) (pt : Z) (s : kstate D) : Prop :=
  tables_as R v0 s ∧ (pt ≠ 0 → (pt ∉ R) ∧ sys86 ({[pt]} ∪ R) (kvm s)).

Lemma tables_create R v0 : triple (tables_as R v0) (onkvm vm_create_agent_pt) (tables_new R v0).
Proof.
  intros s [Hs Hx]. destruct (create_spec86 R (kvm s) Hs) as (pt & v' & E & Hx' & Hs' & Hn). exists pt, (with_vm v' s).
  unfold onkvm, zoom. rewrite E. split; [done|]. split; [|done]. split; [done|]. intros r va Hr. cbn. rewrite Hx' by done. by apply Hx.
Qed.

Lemma tables_region R v0 pt va pa size perm : pt ≠ 0 → 0 ≤ va →
  triple (tables_new R v0 pt) (onkvm (vm_map_region pt va pa size perm)) (λ _, tables_as R v0).
Proof.
  intros Hpt Hva s [[Hs Hx] Hn]. destruct (Hn Hpt) as [Hnew Hs2].
  destruct (map_region_within ({[pt]} ∪ R) pt ltac:(set_solver) (kvm s) [] va pa size perm Hva (kvm s) (sys86_conf _ _ _ Hs2)) as (rc & v' & E & Hc).
  exists rc, (with_vm v' s). unfold onkvm, zoom. rewrite E. split; [done|]. split.
  - eapply sys86_fewer; [|by eapply conf_sys86]. set_solver.
  - intros r x Hr. cbn. rewrite (cf_other _ _ _ _ _ Hc); [by apply Hx|set_solver|]. by intros ->.
Qed.

(** The stack, table and frame of a new agent: the operation always returns, and the
    tables of the agents that exist keep their entries, whether it succeeds or not. *)
Lemma setup_stack_separate R s i ent :
  sys86 R (kvm s) → ∃ s', agent_setup_stack i ent s = Ret (tt, s') ∧ tables_as R (kvm s) s'.
Proof.
  intros Hs. assert (triple (tables_as R (kvm s)) (agent_setup_stack (D:=D) i ent) (λ _, tables_as R (kvm s))) as H.
  2: { destruct (H s) as ([] & s' & E & Ht); [by split|]. by exists s'. }
  unfold agent_setup_stack. eapply triple_bind; [apply tables_agent|]. intros [].
  eapply triple_bind; [apply tables_page|]. intros p. apply triple_if; intros _; [by apply triple_ret|].
  eapply triple_bind; [by apply tables_alloc|]. intros st. apply triple_if; intros _; [by apply triple_ret|]. cbv zeta.
  eapply (triple_bind _ _ (λ _, tables_as R (kvm s))); [by apply triple_gets|]. intros aid.
  eapply triple_bind; [apply tables_create|]. intros pt.
  eapply (triple_bind _ _ (λ _, tables_new R (kvm s) pt)); [by apply triple_modify|]. intros [].
  apply triple_if; intros Hpt; [apply triple_ret; by intros s' [? _]|]. apply Z.eqb_neq in Hpt.
  eapply triple_bind; [apply tables_region; [done|]|].
  { rewrite align_down_12. pose proof (u32_range (st + PAGE_SIZE - 1)). Z.to_euclidean_division_equations; lia. }
  intros rc. apply triple_if; intros _; [apply tables_agent|]. eapply triple_bind; [by apply tables_alloc|]. intros t.
  apply triple_if; intros _; [by apply triple_ret|apply tables_agent].
Qed.

End creation.

(** ** Examples *)

(** A log of the writes to ports, newest first. *)
#[local] Instance port_log : Ports (list (Z * Z)) := { inb := λ _ p, (0, p); outb := λ port val p, (port, val) :: p }.

(** The controllers are masked and the timer runs at 1193182 / 11931 Hz. *)
Example timer_init_log :
  timer_init [] = Ret (tt, [(0x40, 11931 / 256); (0x40, 11931 mod 256); (0x43, 0x36); (0xa1, 0xff); (0x21, 0xff); (0x21, 1); (0xa1, 2);
                            (0xa1, 0x28); (0xa0, 0x11); (0x21, 4); (0x21, 0x20); (0x20, 0x11)]).
Proof. done. Qed.

#[local] Instance no_disk : BlockDevice unit := {
  blk_read := λ _ _, None;
  blk_write := λ _ _ _, None;
  blk_sectors := λ _, 0
}.

Definition pc_entries : Entries := {|
  trap_entry_gpf := 0x101000; trap_entry_page := 0x101100; trap_entry_timer := 0x101200; trap_entry_syscall := 0x101300;
  a_tss := 0x138000; stack_top := 0x13f000
|}.

Lemma trap_tables_exact_witness :
  seg_select (@trap_gdt pc_entries) TSS_SEG = Some (STask 0 false (@a_tss pc_entries) 103)
  ∧ ∃ e, @trap_idt pc_entries !! 0%nat = Some e ∧ gate_decode e = None.
Proof.
  destruct (@trap_tables_exact pc_entries) as (_ & Ht & _ & _ & _ & _ & _ & Hg); [done|done|by repeat constructor|].
  split; [exact Ht|]. destruct (Hg 0 ltac:(done)) as (e & E & Hn). exists e. split; [exact E|exact Hn].
Defined.

Definition demo_pc : pc unit (list (Z * Z)) := mk_pc (demo_sched zero_box) false 0 [].
Definition vec_frame (vec n : Z) : trapframe := tf.set tf.A7 n (tf.set tf.RA vec tf.zero).

Lemma x86_fault_contained_witness :
  ∃ n t' s', trap_handler (L := pc_layout) (λ _ s, s) 1 (λ _ _ _, ret 0) (λ _ _ _ _ _, ret 0) (vec_frame 0x0e 0) 64 demo_pc = Ret (Some t', mk_pc s' false 0 [])
    ∧ n ≠ 1 ∧ atf (agent_at (pk demo_pc) n) = Some t' ∧ agent_current 0 s' = Some n ∧ state (agent_at s' 1) = AGENT_ZOMBIE.
Proof.
  destruct (x86_fault_contained (L := pc_layout) (λ _ s, s) 0 (λ _ _ _, ret 0) (λ _ _ _ _ _, ret 0) (vec_frame 0x0e 0) demo_pc
    (kvm (demo_sched zero_box)) 1 64 2) as (n & t' & s' & E & Hn & _ & Ht & Hc & _ & Hz & _);
    [apply demo_inv|done| |done|done|done|done|done|by left|].
  - intros i Hi _. each_index i; by eexists.
  - exists n, t', s'. split; [exact E|]. split; [exact Hn|]. split; [exact Ht|]. split; [exact Hc|exact Hz].
Defined.

Lemma x86_syscall_returns_witness :
  ∃ s', trap_handler (L := pc_layout) (λ _ s, s) 1 (λ _ _ _, ret 0) (λ _ _ _ _ _, ret 7) (vec_frame 0x80 SYS_AGENT_SELF) 0 demo_pc
    = Ret (Some (vec_frame 0x80 7), mk_pc s' false 0 []).
Proof.
  destruct (x86_syscall_returns (L := pc_layout) (λ _ s, s) 1 (λ _ _ _, ret 0) (λ _ _ _ _ _, ret 7) (vec_frame 0x80 SYS_AGENT_SELF) demo_pc 7
    (demo_sched zero_box) 0 1) as (s' & E & _); [done|done|done|done|done|apply demo_inv|done|by eexists|].
  exists s'. exact E.
Defined.
