(* ===== verification/Boot.v ===== *)
(** * Booting

    A [kmain] (BootImages.v) run on the kernel of either port: the agents that it starts,
    their ids and the capabilities that they have afterwards; the order of the
    initialisations; and, with the effects of the service programs (Effects.v), that every
    service may do all it does, and has no capability of another. *)

From ITree Require Import Core.ITreeDefinition.
From S2P Require Import X86Vm X86VmProps X86Trap Prelude Abi Ipc Ramfs Persist Quota Namespace Policy AgentDef Mem Vm VmTree VmProps Kernel Sched Agent Tool NetWire Net NetProps Board Http Ota Fleet LibAgent AgentSvc ServiceAgents ConsoleSvc Pipelines Effects BootImages.

Definition caps_of_list (cs : list Z) : Z := foldr Z.lor 0 cs.

(** What [agent_start_kernel] grants, which depends on a build option. *)
Definition kernel_caps (persist : bool) : Z :=
  let base := caps_of_list [CAP_LOG; CAP_MATH; CAP_SPAWN; CAP_SEND; CAP_RECV; CAP_TIME] in
  if persist then base else Z.lor base (Z.lor CAP_LLM CAP_FS).

(** The harts, the trap vector, the screen and the keyboard: their initialisations do
    not touch the table of agents. *)
Class BootDrivers (D : Type) := {
  driver_init : init_call → M (kstate D) unit;
  driver_init_agents : ∀ c s s', driver_init c s = Ret (tt, s') → agents s' = agents s
}.

(** ** Keeping a part of every agent *)

(** An operation that leaves a part of every agent as it is. *)
Definition keeps {D T A} (π : agent → T) (m : M (kstate D) A) : Prop :=
  ∀ s x s', m s = Ret (x, s') → π <$> agents s' = π <$> agents s.

Section keeps.
Context {D T : Type} (π : agent → T).
Abbreviation kstate := (kstate D).

Lemma keeps_ret {A} (x : A) : keeps (D:=D) π (ret x).
Proof. by intros s y s' [= _ <-]. Qed.

Lemma keeps_halt {A} : keeps π (halt : M kstate A).
Proof. by intros s y s'. Qed.

Lemma keeps_gets {A} (f : kstate → A) : keeps π (gets f).
Proof. by intros s y s' [= _ <-]. Qed.

Lemma keeps_bind {A C} (m : M kstate A) (k : A → M kstate C) : keeps π m → (∀ x, keeps π (k x)) → keeps π (bind m k).
Proof.
  intros Hm Hk s y s'. unfold bind. destruct (m s) as [[x s1]| |] eqn:E; [|done|done]. intros Ek.
  rewrite (Hk x s1 y s' Ek). by apply (Hm s x).
Qed.

Lemma keeps_modify (f : kstate → kstate) : (∀ s, π <$> agents (f s) = π <$> agents s) → keeps π (modify f).
Proof. intros Hf s y s' [= _ <-]. apply Hf. Qed.

Lemma keeps_agent i f : (∀ a, π (f a) = π a) → keeps (D:=D) π (modify_agent i f).
Proof.
  intros Hf. apply keeps_modify. intros s. unfold upd_agent. cbn. apply list_eq. intros j.
  rewrite !list_lookup_fmap. destruct (decide (j = Z.to_nat i)) as [->|Hj].
  - rewrite list_lookup_alter_eq. destruct (agents s !! Z.to_nat i); cbn; [by rewrite Hf|done].
  - by rewrite list_lookup_alter_ne.
Qed.

(** An operation on another part of the state. *)
Lemma keeps_zoom {S A} (g : kstate → S) p (m : M S A) : (∀ x s, agents (p x s) = agents s) → keeps π (zoom g p m).
Proof.
  intros Hp s y s'. unfold zoom. destruct (m (g s)) as [[x s1]| |]; [|done|done]. intros [= _ <-]. by rewrite Hp.
Qed.

Lemma keeps_onkvm {A} (m : M vm A) : keeps (D:=D) π (onkvm m).
Proof. by apply keeps_zoom. Qed.

Lemma keeps_onfs {A} (m : M ramfs A) : keeps (D:=D) π (onfs m).
Proof. by apply keeps_zoom. Qed.

Lemma notify_keeps a :
  (∀ a, π (upd.running_cpu (-1) (upd.state AGENT_RUNNABLE a)) = π a) → keeps (D:=D) π (modify (sched_notify_runnable a)).
Proof.
  intros Hπ. apply keeps_modify. intros s. destruct a as [i|]; cbn; [|done]. case_decide; [done|].
  assert (∀ s1 : kstate, π <$> agents (sched_rq_add_locked i s1) = π <$> agents s1) as Hq
    by (intros s1; unfold sched_rq_add_locked; case_test; [done|]; by case_test).
  unfold make_runnable. rewrite Hq.
  by eapply (keeps_agent i (λ a, upd.running_cpu (-1) (upd.state AGENT_RUNNABLE a))).
Qed.
End keeps.

#[export] Hint Resolve keeps_ret keeps_halt keeps_gets keeps_onkvm keeps_onfs : core.

Ltac keeps :=
  repeat match goal with
  | |- ∀ _, _ => intros ?
  | |- keeps _ (bind _ _) => apply keeps_bind
  | |- keeps _ (modify_agent _ _) => apply keeps_agent
  | |- keeps _ (match ?x with _ => _ end) => destruct x
  | |- keeps _ _ => solve [auto]
  end.

(** What the two ports do differently: the stack and table of a new agent, and the
    kernel's table.  A new agent keeps its id and its capabilities. *)
Class Port (D : Type) := {
  port_setup_stack : Z → Z → M (kstate D) unit;
  port_vm_init : M vm unit;
  port_setup_agents : ∀ i ent s s', port_setup_stack i ent s = Ret (tt, s') →
    (λ a, (id a, caps a)) <$> agents s' = (λ a, (id a, caps a)) <$> agents s
}.

(** The RISC-V machine. *)
Definition riscv_port {D} {L : Layout} (kgp : Z) : Port D.
Proof.
  refine {| port_setup_stack := Agent.agent_setup_stack kgp; port_vm_init := Vm.vm_init ;; ret tt |}.
  intros i ent s s'. revert s s'. cut (keeps (D:=D) (λ a, (id a, caps a)) (Agent.agent_setup_stack kgp i ent));
    [intros Hk s s' E; exact (Hk s tt s' E)|].
  unfold Agent.agent_setup_stack. keeps; by intros.
Defined.

(** The PC, switched on with paging off. *)
Definition x86_port {D} {L : Layout} : Port D.
Proof.
  refine {| port_setup_stack := X86Trap.agent_setup_stack;
            port_vm_init := λ v, match X86Vm.vm_init (mk_x86 0 0 v) with
                                 | Ret (_, c) => Ret (tt, xmem c) | Undef => Undef | Halt => Halt end |}.
  intros i ent s s'. revert s s'. cut (keeps (D:=D) (λ a, (id a, caps a)) (X86Trap.agent_setup_stack i ent));
    [intros Hk s s' E; exact (Hk s tt s' E)|].
  unfold X86Trap.agent_setup_stack. keeps; by intros.
Defined.

Section boot.
Context {B N P : Type} `{BlockDevice B} `{Nic N} `{Peripherals P} `{!BootDrivers (board B N P)} `{!Port (board B N P)} {L : Layout}.
Context (hart : Z) (persist : bool) (entry_addr : string → Z) (virtio_blk_init : Z) (junk : list Z).
Abbreviation kstate := (kstate (board B N P)).
Abbreviation keeps := (keeps (D := board B N P)).
Implicit Types s : kstate.

(** The initialisations; those without an effect print a message only. *)
Definition boot_call (c : init_call) : M kstate unit :=
  match c with
  | AgentInit => agent_init hart
  | MemInit => modify (λ s, with_vm (with_heap (mem_init platform_heap_start) (kvm s)) s)
  | VmInit => onkvm port_vm_init
  | RamfsInit => onfs (modify ramfs_init)
  | PersistInit => modify (persist_init virtio_blk_init)
  | PersistLoad => λ s,
      match persist_load (blk_ok s) junk (kfs s, kdisk s) with
      | Ret (_, (fs, d)) => Ret (tt, with_fs fs (with_disk d s))
      | Undef => Undef
      | Halt => Halt
      end
  | QuotaInit => modify (λ s, with_quota (quota_init (kquota s)) s)
  | PolicyInit => modify (λ s, let '(p, fs) := policy_init (kpolicy s, kfs s) in with_policy p (with_fs fs s))
  | FleetInit => fleet_init
  | RemoteInit => remote_init
  | OtaInit => ota_init
  | NetstackInit => onnet netstack_init
  | VirtioNetInit => onnet (modify (λ n, with_nic (virtio_net_init (nic n)) n))
  | BootBanner | ToolInit | TenantInit | AuditInit | NamespaceInit | MeshInit | CatalogInit | PlatformInit | UartInit | PrintBanner => ret tt
  | KernelHalt => halt
  | SmpBoot | TrapInit | SmpIpiInit | SmpWakeHarts | SmpBspRelease | GpuInit | InputInit => driver_init c
  end.

(** A file put by the kernel, with the NUL of its text. *)
Definition put_file (path text : list Z) : M kstate unit :=
  onfs (λ fs, Ret (tt, (ramfs_put fs path (text ++ [0]) (zlen text + 1)).2)).

(** The results of the calls are not looked at. *)
Definition boot_step (op : boot_op) : M kstate unit :=
  match op with
  | Init c => boot_call c
  | SetId slot id => modify_agent slot (upd.id id)
  | StartService slot entry name cs => agent_start_service port_setup_stack slot (entry_addr entry) (Some (str name)) (caps_of_list cs) ;; ret tt
  | StartKernel slot entry => agent_start_kernel port_setup_stack persist slot (entry_addr entry) ;; ret tt
  | SetCaps slot cs => modify_agent slot (upd.caps (caps_of_list cs))
  | PutFile path text => put_file (str path) (str text)
  | PutGpu => let! up := gets (λ s, virtio_gpu_ready (bper (kdisk s))) in put_file (str "/sys/gpu") (if up : bool then str "1" else str "0")
  | WriteSecret id text => onfs (namespace_write_secret (Some id) (str text) (zlen (str text))) ;; ret tt
  | WaitHarts n => ret tt
  | RequireHarts n => let! online := gets online_harts in if online <? n then halt else ret tt
  | RunFirst slot => scheduler_run_first hart (Some slot) ;; ret tt
  end.

Fixpoint boot (im : image) : M kstate unit :=
  match im with [] => ret tt | op :: im' => boot_step op ;; boot im' end.

(** ** Ids and capabilities *)

Definition kcaps s : list Z := caps <$> agents s.
Definition kids s : list Z := id <$> agents s.

Lemma keeps_onboard {T A} (π : agent → T) (m : M (board B N P) A) : keeps π (onboard m).
Proof. by apply keeps_zoom. Qed.

Hint Resolve keeps_onboard : core.

Lemma setup_keeps {U} (ρ : Z * Z → U) i ent : keeps (λ a, ρ (id a, caps a)) (port_setup_stack i ent).
Proof.
  intros s [] s' E. pose proof (port_setup_agents _ _ _ _ E) as H'. apply (f_equal (fmap ρ)) in H'.
  by rewrite <- !list_fmap_compose in H'.
Qed.


(** An operation that may set the capabilities of agent [i] to [cs], and no others. *)
Definition sets {A} (i cs : Z) (m : M kstate A) : Prop :=
  ∀ s x s', m s = Ret (x, s') → kcaps s' = kcaps s ∨ kcaps s' = <[Z.to_nat i := cs]> (kcaps s).

Lemma sets_keeps {A} i cs (m : M kstate A) : keeps caps m → sets i cs m.
Proof. intros Hm s x s' E. left. by eapply Hm. Qed.

Lemma sets_bind {A C} i cs (m : M kstate A) (k : A → M kstate C) : sets i cs m → (∀ x, sets i cs (k x)) → sets i cs (bind m k).
Proof.
  intros Hm Hk s y s'. unfold bind. destruct (m s) as [[x s1]| |] eqn:E; [|done|done]. intros Ek.
  destruct (Hm s x s1 E) as [E1|E1], (Hk x s1 y s' Ek) as [E2|E2]; rewrite E2, E1; auto.
  right. apply list_insert_insert_eq.
Qed.

Lemma upd_caps_exact i cs f s : (∀ a, caps (f a) = cs) → kcaps (upd_agent i f s) = <[Z.to_nat i := cs]> (kcaps s).
Proof.
  intros Hf. unfold kcaps, upd_agent. cbn. apply list_eq. intros j. destruct (decide (j = Z.to_nat i)) as [->|Hj].
  - rewrite list_lookup_fmap, list_lookup_alter_eq. destruct (agents s !! Z.to_nat i) as [a|] eqn:E; cbn.
    + rewrite Hf, list_lookup_insert_eq; [done|]. rewrite length_fmap. by apply lookup_lt_Some in E.
    + symmetry. apply lookup_ge_None. rewrite length_insert, length_fmap. by apply lookup_ge_None.
  - by rewrite list_lookup_fmap, list_lookup_alter_ne, list_lookup_insert_ne, list_lookup_fmap.
Qed.

Lemma sets_agent i cs f : (∀ a, caps (f a) = cs) → sets i cs (modify_agent i f).
Proof. intros Hf s x s' [= _ <-]. right. by apply upd_caps_exact. Qed.

Lemma service_sets i ent name cs : sets i cs (agent_start_service port_setup_stack i ent name cs).
Proof.
  unfold agent_start_service. apply sets_bind; [apply sets_keeps, (setup_keeps snd)|]. intros _.
  apply sets_bind; [by apply sets_keeps|]. intros [t|]; [|by apply sets_keeps].
  apply sets_bind; [by apply sets_agent|]. intros _. apply sets_keeps. pose proof (notify_keeps (D:=board B N P) caps (Some i) (λ _, eq_refl)).
  keeps; [by destruct name|done|by apply keeps_modify].
Qed.

Lemma kernel_sets i ent : sets i (kernel_caps persist) (agent_start_kernel port_setup_stack persist i ent).
Proof.
  unfold agent_start_kernel. apply sets_bind; [apply sets_keeps, (setup_keeps snd)|]. intros _.
  apply sets_bind; [by apply sets_keeps|]. intros [t|]; [|by apply sets_keeps].
  apply sets_bind; [by apply sets_agent|]. intros _. apply sets_keeps. keeps. by apply keeps_modify.
Qed.

Lemma run_first_keeps {T} (π : agent → T) a :
  (∀ st c a, π (upd.running_cpu c (upd.state st a)) = π a ∧ π (upd.state st (upd.running_cpu c (upd.home_cpu 0 a))) = π a) →
  keeps π (scheduler_run_first hart a).
Proof.
  intros Hπ. unfold scheduler_run_first, sched_start.
  assert (∀ i, keeps π (modify (activate_agent hart i))) as Ha.
  { intros i. apply keeps_modify. intros s. unfold activate_agent. by case_test. }
  assert (∀ c, keeps π (modify (agent_set_current hart c))) as Hc.
  { intros c. apply keeps_modify. intros s. unfold agent_set_current. by case_test. }
  keeps; try (by apply Hπ). by apply keeps_modify.
Qed.

Lemma call_keeps {T} (π : agent → T) c : c ≠ AgentInit → keeps π (boot_call c).
Proof.
  intros Hc. destruct c; try done; cbn [boot_call]; unfold fleet_init, remote_init, ota_init, onnet; keeps;
    try (by apply keeps_modify); try (intros s [] s' E; by rewrite (driver_init_agents _ _ _ E)).
  intros s [] s'. destruct (persist_load _ _ _) as [[rc [fs d]]| |]; [|done|done]. by intros [= <-].
Qed.

(** What an image grants to a slot, statement by statement. *)
Definition grant (i : Z) (cs : Z) (op : boot_op) : Z :=
  match op with
  | Init AgentInit => 0
  | StartService slot _ _ l | SetCaps slot l => if slot =? i then caps_of_list l else cs
  | StartKernel slot _ => if slot =? i then kernel_caps persist else cs
  | _ => cs
  end.

Definition granted (im : image) (i : Z) : Z := foldl (grant i) 0 im.

(** The slots that a statement starts or grants to. *)
Definition op_slot (op : boot_op) : option Z :=
  match op with StartService slot _ _ _ | StartKernel slot _ | SetCaps slot _ => Some slot | _ => None end.

Definition op_start (op : boot_op) : option Z :=
  match op with StartService slot _ _ _ | StartKernel slot _ => Some slot | _ => None end.

(** A slot is started when nothing has been granted to it yet; slots are in the table. *)
Fixpoint fresh_starts (im : image) (seen : list Z) : bool :=
  match im with
  | [] => true
  | op :: im' =>
      match op_start op with Some slot => negb (bool_decide (slot ∈ seen)) | None => true end
      && match op_slot op with
         | Some slot => (0 <=? slot) && (slot <? MAX_AGENTS) && fresh_starts im' (slot :: seen)
         | None => fresh_starts im' seen
         end
  end.

Lemma agent_init_caps s s' : agent_init hart s = Ret (tt, s') → kcaps s' = replicate (length (agents s)) 0.
Proof.
  unfold agent_init, bind, modify. intros [= <-]. unfold kcaps, agent_set_current. cbn. case_test; cbn;
    (apply list_eq; intros j; rewrite list_lookup_fmap, list_lookup_imap; destruct (agents s !! j) as [a|] eqn:E; cbn;
     [rewrite lookup_replicate_2; [done|by apply lookup_lt_Some in E]|symmetry; apply lookup_ge_None; rewrite length_replicate; by apply lookup_ge_None]).
Qed.

(** Every slot has nothing, or what it was granted. *)
Definition caps_inv (g : Z → Z) s : Prop :=
  zlen (kcaps s) = MAX_AGENTS ∧ ∀ i, 0 ≤ i < MAX_AGENTS → kcaps s !!! Z.to_nat i = 0 ∨ kcaps s !!! Z.to_nat i = g i.

Lemma caps_inv_sets {A} slot cs g (m : M kstate A) s x s' :
  sets slot cs m → m s = Ret (x, s') → caps_inv g s → 0 ≤ slot < MAX_AGENTS → g slot = 0 →
  caps_inv (λ i, if slot =? i then cs else g i) s'.
Proof.
  intros Hm E [Hl Hi] Hs Hg. unfold caps_inv, zlen in *.
  destruct (Hm s x s' E) as [-> | ->]; (split; [by rewrite ?length_insert|]); intros i Hir; destruct (Z.eqb_spec slot i) as [<-|Hne].
  - left. destruct (Hi slot Hs) as [?|?]; congruence.
  - by apply Hi.
  - right. apply list_lookup_total_insert_eq. lia.
  - rewrite list_lookup_total_insert_ne by lia. by apply Hi.
Qed.

Lemma caps_inv_ext g g' s : (∀ i, g i = g' i) → caps_inv g s → caps_inv g' s.
Proof. intros Hg [Hl Hi]. split; [done|]. intros i Hir. rewrite <- Hg. by apply Hi. Qed.

Lemma caps_inv_keeps {A} g (m : M kstate A) s x s' : keeps caps m → m s = Ret (x, s') → caps_inv g s → caps_inv g s'.
Proof. intros Hm E Hi. unfold caps_inv, kcaps. by rewrite (Hm s x s' E). Qed.

Lemma step_caps op g s s' :
  boot_step op s = Ret (tt, s') → caps_inv g s → (∀ slot, op_slot op = Some slot → 0 ≤ slot < MAX_AGENTS) →
  (∀ slot, op_start op = Some slot → g slot = 0) →
  caps_inv (λ i, grant i (g i) op) s'.
Proof.
  intros E Hi Hs Hg. destruct op as [c|slot id|slot ent nm cs|slot ent|slot cs|p t| |id t|n|n|slot]; cbn [grant boot_step op_slot op_start] in *.
  - destruct (decide (c = AgentInit)) as [->|Hc].
    + apply agent_init_caps in E. destruct Hi as [Hl _]. unfold caps_inv, zlen, kcaps in *. rewrite E, length_replicate, length_fmap in *.
      split; [done|]. intros i Hir. left. apply lookup_total_replicate_2. lia.
    + assert (caps_inv g s') as Hi' by (by eapply caps_inv_keeps; [apply call_keeps| |]). by destruct c.
  - eapply caps_inv_keeps; [|exact E|done]. by apply keeps_agent.
  - eapply (caps_inv_sets slot (caps_of_list cs) g); [|exact E|done|by apply Hs|by apply Hg].
    apply sets_bind; [apply service_sets|]. intros _. apply sets_keeps, keeps_ret.
  - eapply (caps_inv_sets slot (kernel_caps persist) g); [|exact E|done|by apply Hs|by apply Hg].
    apply sets_bind; [apply kernel_sets|]. intros _. apply sets_keeps, keeps_ret.
  - injection E as <-. destruct Hi as [Hl Hi]. specialize (Hs slot eq_refl). unfold caps_inv, zlen in *.
    rewrite (upd_caps_exact slot (caps_of_list cs)) by done. split; [by rewrite length_insert|]. intros i Hir.
    destruct (Z.eqb_spec slot i) as [<-|Hne]; [right; apply list_lookup_total_insert_eq; lia|].
    rewrite list_lookup_total_insert_ne by lia. by apply Hi.
  - eapply caps_inv_keeps; [|exact E|done]. apply keeps_onfs.
  - eapply caps_inv_keeps; [|exact E|done]. apply keeps_bind; [apply keeps_gets|]. intros up. apply keeps_onfs.
  - eapply caps_inv_keeps; [|exact E|done]. apply keeps_bind; [apply keeps_onfs|]. intros x. apply keeps_ret.
  - eapply caps_inv_keeps; [|exact E|done]. apply keeps_ret.
  - eapply caps_inv_keeps; [|exact E|done]. keeps.
  - eapply caps_inv_keeps; [|exact E|done]. apply keeps_bind; [by apply run_first_keeps|]. intros x. apply keeps_ret.
Qed.

Lemma boot_caps im : ∀ seen g s s',
  fresh_starts im seen = true → (∀ i, i ∉ seen → g i = 0) → caps_inv g s → boot im s = Ret (tt, s') →
  caps_inv (λ i, foldl (grant i) (g i) im) s'.
Proof.
  induction im as [|op im IH]; intros seen g s s' Hf Hg Hi E; cbn [boot foldl] in *; [by injection E as <-|].
  unfold bind in E. destruct (boot_step op s) as [[[] s1]| |] eqn:E1; [|done|done]. cbn [fresh_starts] in Hf.
  apply andb_true_iff in Hf as [Hst Hf].
  assert (caps_inv (λ i, grant i (g i) op) s1) as Hi1.
  { eapply step_caps; [exact E1|done| |].
    - intros slot Es. rewrite Es in Hf. bprop. lia.
    - intros slot Es. rewrite Es in Hst. apply negb_true_iff, bool_decide_eq_false in Hst. by apply Hg. }
  destruct (op_slot op) as [slot|] eqn:Es.
  - apply andb_true_iff in Hf as [_ Hf]. eapply (IH (slot :: seen)); [done| |exact Hi1|done].
    intros i Hin. apply not_elem_of_cons in Hin as [Hne Hin]. specialize (Hg i Hin). destruct op as [[]| | | | | | | | | |]; cbn in *; try done; injection Es as ->; by test_false (slot =? i).
  - eapply (IH seen); [done| |exact Hi1|done]. intros i Hin. specialize (Hg i Hin). destruct op as [[]| | | | | | | | | |]; done.
Qed.

(** ** Ids *)

Lemma service_ids i ent name cs : keeps id (agent_start_service port_setup_stack i ent name cs).
Proof.
  unfold agent_start_service. apply keeps_bind; [apply (setup_keeps fst)|]. intros _.
  pose proof (notify_keeps (D:=board B N P) id (Some i) (λ _, eq_refl)). keeps; try done; [by destruct name|].
  by apply keeps_modify.
Qed.

Lemma kernel_ids i ent : keeps id (agent_start_kernel port_setup_stack persist i ent).
Proof.
  unfold agent_start_kernel. apply keeps_bind; [apply (setup_keeps fst)|]. intros _. keeps; try done. by apply keeps_modify.
Qed.

(** A statement that gives a slot its own id, if it gives one at all. *)
Definition own_id (op : boot_op) : bool := match op with SetId slot id => (slot =? id) && (0 <=? slot) | _ => true end.

(** Every agent has the number of its slot. *)
Definition ids_ok s : Prop := ∀ j a, agents s !! j = Some a → id a = Z.of_nat j.

Lemma ids_ok_keeps {A} (m : M kstate A) s x s' : keeps id m → m s = Ret (x, s') → ids_ok s → ids_ok s'.
Proof.
  intros Hm E Hi j a Ha. pose proof (Hm s x s' E) as Hk. assert ((id <$> agents s') !! j = Some (id a)) as Hj
    by (by rewrite list_lookup_fmap, Ha). rewrite Hk, list_lookup_fmap in Hj.
  destruct (agents s !! j) as [b|] eqn:Eb; [|done]. simplify_eq/=. by rewrite <- (Hi j b Eb).
Qed.

(** [agent_init] numbers the slots, and no other statement of an image changes a number. *)
Lemma step_ids op s s' :
  own_id op = true → boot_step op s = Ret (tt, s') → op = Init AgentInit ∨ ids_ok s → ids_ok s'.
Proof.
  intros Ho E Hi. destruct (decide (op = Init AgentInit)) as [->|Hne].
  { clear Hi. revert E. cbn [boot_step boot_call]. unfold agent_init, bind, modify. intros [= <-] j a.
    assert (∀ c (t : kstate), agents (agent_set_current hart c t) = agents t) as Hset
      by (intros c t; unfold agent_set_current; by case_test).
    cbn. rewrite Hset. cbn. rewrite list_lookup_imap. destruct (agents s !! j); [|done]. by intros [= <-]. }
  destruct Hi as [?|Hi]; [done|]. destruct op as [c|slot n|slot ent nm cs|slot ent|slot cs|p t| |n t|n|n|slot];
    cbn [boot_step own_id] in *.
  2: { injection E as <-. bprop. subst. intros j a. unfold upd_agent. cbn. destruct (decide (j = Z.to_nat n)) as [->|Hj].
    + rewrite list_lookup_alter_eq. destruct (agents s !! Z.to_nat n); [|done]. intros [= <-]. cbn. lia.
    + rewrite list_lookup_alter_ne by done. apply Hi. }
  all: eapply ids_ok_keeps; [|exact E|done].
  - apply call_keeps. by intros ->.
  - apply keeps_bind; [apply service_ids|]. intros ?. apply keeps_ret.
  - apply keeps_bind; [apply kernel_ids|]. intros ?. apply keeps_ret.
  - by apply keeps_agent.
  - apply keeps_onfs.
  - apply keeps_bind; [apply keeps_gets|]. intros ?. apply keeps_onfs.
  - apply keeps_bind; [apply keeps_onfs|]. intros ?. apply keeps_ret.
  - apply keeps_ret.
  - keeps.
  - apply keeps_bind; [by apply run_first_keeps|]. intros ?. apply keeps_ret.
Qed.

Lemma boot_ids im s s' :
  forallb own_id im = true → boot im s = Ret (tt, s') → Init AgentInit ∈ im ∨ ids_ok s → ids_ok s'.
Proof.
  revert s. induction im as [|op im IH]; intros s Ho E Hi; cbn [boot forallb] in *.
  { injection E as <-. destruct Hi as [Hi|Hi]; [by apply elem_of_nil in Hi|done]. }
  apply andb_true_iff in Ho as [Ho Hos]. unfold bind in E.
  destruct (boot_step op s) as [[[] s1]| |] eqn:E1; [|done|done]. apply (IH s1); [done|done|].
  destruct Hi as [[Hi|Hi]%elem_of_cons|Hi]; [right|by left|right]; eapply step_ids; eauto.
Qed.

End boot.

(** ** The service programs *)

Definition program_of (entry : string) : option (signature * prog Empty_set) :=
  if String.eqb entry "storage_agent_main" then Some (storage_sig, storage.storage_agent_main)
  else if String.eqb entry "router_agent_main" then Some (router_sig, router.router_agent_main)
  else if String.eqb entry "network_agent_main" then Some (network_sig, network.network_agent_main)
  else if String.eqb entry "network_prod_agent_main" then Some (network_prod_sig, network_prod.network_prod_agent_main)
  else if String.eqb entry "display_agent_main" then Some (display_sig, display.display_agent_main)
  else if String.eqb entry "input_agent_main" then Some (input_sig, input.input_agent_main)
  else if String.eqb entry "console_agent_main" then Some (console_sig, console_agent_main)
  else if String.eqb entry "shell_agent_main" then Some (shell_sig, shell.shell_agent_main)
  else None.

Lemma program_effects entry g t : program_of entry = Some (g, t) → only (may g) t.
Proof.
  unfold program_of. repeat (case_test; [intros [= <- <-]|]); [..|done];
    [apply storage_effects|apply router_effects|apply network_effects|apply network_prod_effects|apply display_effects
    |apply input_effects|apply console_effects|apply shell_effects].
Qed.

(** The program that an image starts in a slot. *)
Definition service_at (im : image) (i : Z) : option string :=
  foldl (λ o op, match op with StartService slot entry _ _ => if slot =? i then Some entry else o | _ => o end) None im.

Definition images : list image := riscv_images ++ x86_images.
Definition slots : list Z := seqZ 0 MAX_AGENTS.

(** Its grant covers its effects. *)
Definition service_granted (persist : bool) (im : image) (i : Z) : bool :=
  match service_at im i with
  | Some entry => match program_of entry with Some (g, _) => sig_granted g (granted persist im i) | None => true end
  | None => true
  end.

(** A capability and the slots that may have it. *)
Definition owners : list (Z * list Z) :=
  [(CAP_SPAWN, [1]); (CAP_SVC_STORAGE, [STORAGE_AGENT_ID]); (CAP_NET, [NET_AGENT_ID]); (CAP_LLM, [1; ROUTER_AGENT_ID]);
   (CAP_FS, [1; STORAGE_AGENT_ID; NET_AGENT_ID]); (CAP_DISPLAY, [DISPLAY_AGENT_ID]); (CAP_INPUT, [INPUT_AGENT_ID]);
   (CAP_SVC_CONSOLE, [CONSOLE_AGENT_ID]); (CAP_SVC_SHELL, [SHELL_AGENT_ID]); (CAP_GPIO, [1]); (CAP_MATH, [1]); (CAP_TIME, [1])].

Definition owned (cs i : Z) : bool := forallb (λ o, implb (has o.1 cs) (bool_decide (i ∈ o.2))) owners.

Definition image_sound (persist : bool) (im : image) : bool :=
  fresh_starts im [] && forallb (λ i, service_granted persist im i && owned (granted persist im i) i) slots.

Lemma images_sound persist : forallb (image_sound persist) images = true.
Proof. destruct persist; vm_compute; reflexivity. Qed.

Lemma image_sound_elim persist im i :
  im ∈ images → 0 ≤ i < MAX_AGENTS → fresh_starts im [] = true ∧ service_granted persist im i = true ∧ owned (granted persist im i) i = true.
Proof.
  intros Him Hi. pose proof (images_sound persist) as Hs. rewrite forallb_forall in Hs. apply list_elem_of_In, Hs in Him.
  apply andb_true_iff in Him as [Hf Hall]. rewrite forallb_forall in Hall.
  assert (In i slots) as Hin by (apply list_elem_of_In, elem_of_seqZ; lia). apply Hall, andb_true_iff in Hin. tauto.
Qed.


(** A machine without a disk, screen or keyboard is switched on. *)
#[local] Instance no_disk : BlockDevice unit := {
  blk_read _ _ := None; blk_write _ _ _ := None; blk_sectors _ := 0
}.
#[local] Instance no_drivers : BootDrivers (board unit wire echo_host).
Proof. refine {| driver_init _ := ret tt |}. by intros c s s' [= <-]. Defined.

Definition power_on : kstate (board unit wire echo_host) :=
  mk_kstate (replicate (Z.to_nat MAX_AGENTS) zero_agent) 0 0 false [None; None; None; None] [[]; []; []; []] 1 [0; 0; 0; 0]
    boot_vm zero_fs zero_quota zero_policy false (bridge_board []) [].

Definition booted : outcome (unit * kstate (board unit wire echo_host)) :=
  boot (Port0 := riscv_port 0) 0 false (λ _, 0x80200000) 0 [] kmain_storage2 power_on.

Example booted_caps : match booted with Ret (_, s) => kcaps s | _ => [] end = [0; 159; 345; 0; 0; 0; 0; 0; 0; 0; 0; 0].
Proof. vm_compute. reflexivity. Qed.

(** The PC with its console image. *)
Definition booted_pc : outcome (unit * kstate (board unit wire echo_host)) :=
  boot (Port0 := x86_port (L := pc_layout)) (L := pc_layout) 0 false (λ _, 0x100000) 0 [] kmain_console_x86 power_on.

Example booted_pc_caps :
  match booted_pc with Ret (_, s) => kcaps s | _ => [] end = [0; 223; 0; 0; 0; 0; 0; 0; 40985; 81945; 131097; 0].
Proof. vm_compute. reflexivity. Qed.


(** ** The order of the statements *)

(** Whether [b], where it occurs, comes after an [a] and is followed by no [a]. *)
Fixpoint settled (a b : boot_op → bool) (im : image) : bool :=
  match im with [] => true | op :: im' => if b op then negb (existsb a im') else settled a b im' end.

Fixpoint after (a b : boot_op → bool) (im : image) : bool :=
  match im with [] => true | op :: im' => if a op then settled a b im' else negb (b op) && after a b im' end.

Definition is_init (c : init_call) (op : boot_op) : bool := match op with Init c' => bool_decide (c = c') | _ => false end.
Definition is_start (op : boot_op) : bool := match op_start op with Some _ => true | None => false end.
Definition is_run (op : boot_op) : bool := match op with RunFirst _ => true | _ => false end.
Definition is_put (op : boot_op) : bool := match op with PutFile _ _ | PutGpu | WriteSecret _ _ => true | _ => false end.

(** What uses the memory, the file system or the disk comes after their initialisation;
    what the initialisation of the agents or of the file system would undo comes after
    it. *)
Definition dependencies : list ((boot_op → bool) * (boot_op → bool)) :=
  [(is_init MemInit, is_init VmInit); (is_init MemInit, is_init GpuInit); (is_init MemInit, is_init InputInit);
   (is_init VmInit, is_start); (is_init RamfsInit, is_init PersistLoad); (is_init PersistInit, is_init PersistLoad);
   (is_init RamfsInit, is_init OtaInit); (is_init RamfsInit, is_init PolicyInit); (is_init RamfsInit, is_init FleetInit);
   (is_init RamfsInit, is_init RemoteInit); (is_init RamfsInit, is_put); (is_init AgentInit, is_start);
   (is_init AgentInit, λ op, match op with SetCaps _ _ => true | _ => false end); (is_start, is_run); (is_init TrapInit, is_run)].

(** The last statement runs the first agent. *)
Definition ends_running (im : image) : bool := match last im with Some (RunFirst 1) => true | _ => false end.

Lemma existsb_none (a : boot_op → bool) im k op : existsb a im = false → im !! k = Some op → a op = false.
Proof.
  intros He Hk. destruct (a op) eqn:Ea; [|done]. assert (existsb a im = true); [|congruence].
  apply existsb_exists. exists op. split; [|done]. by eapply list_elem_of_In, list_elem_of_lookup_2.
Qed.

Lemma settled_spec a b im k op j op' :
  settled a b im = true → (∀ op, a op = true → b op = false) →
  im !! k = Some op → b op = true → (k ≤ j)%nat → im !! j = Some op' → a op' = false.
Proof.
  revert k j. induction im as [|o im IH]; intros k j Hs Hd Hk Hb Hj Ej; [done|]. cbn [settled] in Hs.
  destruct (b o) eqn:Eo.
  - destruct j as [|j]; [injection Ej as ->; destruct (a op') eqn:Ea; [by rewrite (Hd _ Ea) in Eo|done]|].
    apply (existsb_none a im j); [|done]. by apply negb_true_iff.
  - destruct k as [|k]; [injection Hk as ->; congruence|]. destruct j as [|j]; [lia|]. by apply (IH k j); try lia.
Qed.

Lemma after_spec a b im k op :
  after a b im = true → im !! k = Some op → b op = true → (∀ op, a op = true → b op = false) →
  (∃ j op', (j < k)%nat ∧ im !! j = Some op' ∧ a op' = true)
  ∧ ∀ j op', (k ≤ j)%nat → im !! j = Some op' → a op' = false.
Proof.
  intros Ha Hk Hb Hd. revert k Hk Ha. induction im as [|o im IH]; intros k Hk Ha; [done|]. cbn [after] in Ha.
  destruct (a o) eqn:Eo.
  - destruct k as [|k]; [injection Hk as ->; rewrite (Hd op Eo) in Hb; done|].
    split; [exists 0%nat, o; split; [lia|done]|]. intros [|j] op' Hj Ej; [lia|].
    apply (settled_spec a b im k op j); [done..|lia|done].
  - apply andb_true_iff in Ha as [Hnb Ha]. destruct k as [|k]; [injection Hk as ->; by rewrite Hb in Hnb|].
    destruct (IH k Hk Ha) as ((j & op' & ? & ? & ?) & Hno). split; [exists (S j), op'; split; [lia|done]|].
    intros [|j2] op2 Hj2 E2; [lia|]. apply (Hno j2); [lia|done].
Qed.

(** The images that start agents: all but the smoke test of the x86 platform. *)
Definition agent_images : list image := filter (λ im, existsb is_start im = true) images.

(** The initialisations of an image, in their order. *)
Definition inits (im : image) : list init_call := omap (λ op, match op with Init c => Some c | _ => None end) im.

Lemma images_ordered :
  forallb (λ im, forallb (λ d, after d.1 d.2 im) dependencies && bool_decide (NoDup (inits im))
                 && bool_decide (AgentInit ∈ inits im) && forallb own_id im && ends_running im) agent_images = true
  ∧ length agent_images = 51%nat.
Proof. split; vm_compute; reflexivity. Qed.

(** [C24] The order of booting, in each of the 51 images that start agents.  No
    initialisation is done twice.  The page tables and the drivers of the screen and of the
    keyboard come after the memory; the loading of the saved files after the file system
    and the disk driver; updates, policy, fleet, remote access and the files that the
    kernel puts after the file system; starting and equipping agents after the table of
    agents and the page tables; running an agent after the starts and the trap vector; and
    none of what must come first comes again later, so nothing of this is undone.  The last
    statement runs the first agent.  And whatever the boot does besides, on either port, if
    it comes to its end then every agent of the table has the number of its slot as its
    id, which the kernel relies on to find its mailbox, its quota and its files. *)
Theorem boot_order im :
  im ∈ agent_images →
  NoDup (inits im)
  ∧ (∀ d k op, d ∈ dependencies → im !! k = Some op → d.2 op = true →
       (∃ j op', (j < k)%nat ∧ im !! j = Some op' ∧ d.1 op' = true)
       ∧ ∀ j op', (k ≤ j)%nat → im !! j = Some op' → d.1 op' = false)
  ∧ last im = Some (RunFirst 1)
  ∧ (∀ {B N P} `{BlockDevice B} `{Nic N} `{Peripherals P} `{!BootDrivers (board B N P)} `{!Port (board B N P)} {L : Layout}
       hart persist entry_addr blk junk (s s' : kstate (board B N P)),
       boot hart persist entry_addr blk junk im s = Ret (tt, s') → ids_ok s').
Proof.
  intros Him. destruct images_ordered as [Hall _]. rewrite forallb_forall in Hall. apply list_elem_of_In, Hall in Him.
  rewrite !andb_true_iff, forallb_forall, !bool_decide_eq_true in Him. destruct Him as [[[[Hd Hnd] Hai] Hids] Hrun].
  split; [done|]. split; [|split].
  - intros d k op Hin Hk Hb. pose proof (Hd d (proj1 (list_elem_of_In _ _) Hin)) as Ha. eapply after_spec; [exact Ha|done|done|].
    clear -Hin. unfold dependencies in Hin.
    repeat (apply elem_of_cons in Hin as [->|Hin]; [cbn; by intros [[]| | | | | | | | | |]|]). by apply elem_of_nil in Hin.
  - unfold ends_running in Hrun. destruct (last im) as [[]|]; try done. destruct slot as [|[]|]; done.
  - intros. eapply boot_ids; [done|done|]. left. unfold inits in Hai. apply list_elem_of_omap in Hai as (op & Hop & E).
    destruct op; try done. by injection E as ->.
Qed.

Lemma boot_order_witness : last kmain_v100_riscv = Some (RunFirst 1) ∧ NoDup (inits kmain_v100_riscv).
Proof.
  destruct (boot_order kmain_v100_riscv) as (Hn & _ & Hl & _); [|split; [exact Hl|exact Hn]].
  apply list_elem_of_filter. split; [reflexivity|]. apply (list_elem_of_lookup_2 images 37). reflexivity.
Defined.
