(* ===== verification/SvcProtocol.v ===== *)
(** * The texts that clients and services exchange

    The request that a client writes is what the service reads, and the reply that a
    service writes is what the client reads: letters, numbers and bodies survive the
    way through the payload of a message. *)

From ITree Require Import Core.ITreeDefinition.
From S2P Require Import Prelude Abi Ipc Paths Kernel Agent LibAgent AgentSvc ServiceAgents.

(** A sequence number in use. *)
Definition id_ok (id : Z) : Prop := 0 < id < 2147483648.

(** A text that fits into a payload. *)
Definition text_ok (s : list Z) : Prop := cstr_ok s ∧ zlen s < MSG_PAYLOAD_SIZE.

Lemma cstr_ok_take n s : cstr_ok s → cstr_ok (take n s).
Proof. apply Forall_take. Qed.

Lemma cstr_ok_drop n s : cstr_ok s → cstr_ok (drop n s).
Proof. apply Forall_drop. Qed.

Lemma zlen_take {A} n (l : list A) : zlen (take n l) = Z.min (Z.of_nat n) (zlen l).
Proof. unfold zlen. rewrite length_take. lia. Qed.

Lemma text_of_cstr s : cstr_ok s → text_of s = s.
Proof.
  intros Hs. unfold text_of. assert (cstr_of s = None) as ->; [|done].
  induction Hs as [|c s Hc _ IH]; [done|]. cbn. test_false (c =? 0). by rewrite IH.
Qed.

Lemma text_of_pad s : text_ok s → text_of (pad_payload s) = s.
Proof.
  intros [Hs Hlen]. unfold pad_payload, text_of, zlen in *.
  destruct (Z.to_nat MSG_PAYLOAD_SIZE - length s)%nat as [|n] eqn:E; [unfold MSG_PAYLOAD_SIZE in *; lia|].
  cbn [replicate]. by rewrite cstr_of_app.
Qed.

Lemma request_text_user c t s : text_ok s → request_text (user_msg c t s) = s.
Proof.
  intros Hs. unfold request_text, user_msg. cbn [payload]. rewrite text_of_pad by done.
  apply take_ge. destruct Hs as [_ Hs]. unfold zlen, MSG_PAYLOAD_SIZE in *. lia.
Qed.

(** ** Numbers *)

Lemma digits_rev_fuel f g n : n < 10 ^ Z.of_nat f → (f ≤ g)%nat → digits_rev f n = digits_rev g n.
Proof.
  revert g n. induction f as [|f IH]; intros g n Hn Hg.
  - change (10 ^ Z.of_nat 0) with 1 in Hn. destruct g as [|g]; [done|]. cbn. by test_true (n <=? 0).
  - destruct g as [|g]; [lia|]. cbn [digits_rev]. case_test; [done|]. f_equal. apply IH; [|lia].
    rewrite Nat2Z.inj_succ, Z.pow_succ_r in Hn by lia. apply Z.div_lt_upper_bound; lia.
Qed.

Lemma zlen_dec_id n : 0 ≤ n < 2147483648 → 0 < zlen (dec n) ≤ 10.
Proof.
  intros Hn. split.
  - pose proof (dec_nonempty n ltac:(lia)). destruct (dec n); [done|]. rewrite zlen_cons. pose proof (zlen_nonneg l). lia.
  - unfold dec, zlen. case_test; [simpl; lia|]. rewrite length_rev.
    pose proof (digits_rev_length dec_fuel n 10 ltac:(unfold dec_fuel; lia) ltac:(lia)). lia.
Qed.

Lemma put_chars_fits maxlen l : ∀ buf, zlen buf + zlen l < maxlen → put_chars maxlen buf l = Some (buf ++ l).
Proof.
  induction l as [|c l IH]; intros buf Hl; cbn [put_chars]; [by rewrite app_nil_r|].
  rewrite zlen_cons in Hl. pose proof (zlen_nonneg l). test_false (maxlen - 1 <=? zlen buf).
  rewrite IH; [by rewrite <- app_assoc|]. rewrite zlen_app. change (zlen [c]) with 1. lia.
Qed.

Lemma append_dec buf maxlen val :
  0 ≤ val < 2147483648 → zlen buf + 10 < maxlen → svc_append_int buf maxlen val = Some (buf ++ dec val).
Proof.
  intros Hv Hb. pose proof (zlen_dec_id val Hv). unfold svc_append_int. test_false (val <? 0). rewrite u32_small by lia.
  unfold dec in *. case_test; [apply put_chars_fits; change (zlen (str "0")) with 1; lia|].
  rewrite (digits_rev_fuel 12 dec_fuel) by (unfold dec_fuel; lia). apply put_chars_fits. lia.
Qed.

Lemma parse_tagged_dec c id rest :
  0 ≤ id < 2147483648 → parse_tagged (c :: dec id ++ chr "|" :: rest) = Some (id, rest).
Proof.
  intros Hi. unfold parse_tagged. change (cget (c :: ?l) 1) with (cget l 0). rewrite is_digit_dec_app by lia. cbn [negb drop].
  rewrite drop_0, scan_dec, scan_int_stop by done. done.
Qed.

Lemma int_to_str_id id : 0 ≤ id → int_to_str id = dec id.
Proof. intros. unfold int_to_str. by test_false (id <? 0). Qed.

(** ** Replies *)

(** How much of a body fits into the reply to a request. *)
Definition body_cut (id : Z) (body : list Z) : list Z := take (Z.to_nat (MSG_PAYLOAD_SIZE - 1 - (2 + zlen (dec id)))) body.

Lemma format_rsp_id letter id body :
  0 ≤ id → format_rsp letter id body = letter :: dec id ++ chr "|" :: body_cut id body.
Proof.
  intros Hi. unfold format_rsp, body_cut. rewrite int_to_str_id by done. cbn [app].
  rewrite <- app_assoc. change (str "|") with [chr "|"]. cbn [app]. repeat f_equal.
  rewrite zlen_cons, zlen_app. change (zlen [chr "|"]) with 1. lia.
Qed.

Lemma format_rsp_ok letter id body : 0 < letter < 256 → 0 ≤ id < 2147483648 → cstr_ok body → text_ok (format_rsp letter id body).
Proof.
  intros Hl Hi Hb. rewrite format_rsp_id by lia. pose proof (zlen_dec_id id Hi). split.
  - constructor; [done|]. apply cstr_ok_app; [apply dec_cstr|]. constructor; [done|]. by apply cstr_ok_take.
  - rewrite zlen_cons, zlen_app, zlen_cons. unfold body_cut. rewrite zlen_take. unfold MSG_PAYLOAD_SIZE. lia.
Qed.

(** A reply is recognised by the number of its request, and only by it. *)
Lemma parse_reply letter id expect body :
  0 ≤ id < 2147483648 →
  parse_rsp letter (format_rsp letter id body) expect
  = (id =? expect, (length (format_rsp letter id body) - length (body_cut id body))%nat).
Proof.
  intros Hi. rewrite format_rsp_id by lia. unfold parse_rsp. change (cget (letter :: ?l) 0) with letter. rewrite Z.eqb_refl. cbn [negb].
  by rewrite parse_tagged_dec.
Qed.

Lemma parse_fs_reply id expect body :
  0 ≤ id < 2147483648 → svc_parse_rsp_id (format_rsp (chr "R") id body) expect = parse_rsp (chr "R") (format_rsp (chr "R") id body) expect.
Proof.
  intros Hi. rewrite parse_reply by done. rewrite format_rsp_id by lia. unfold svc_parse_rsp_id.
  change (cget (chr "R" :: ?l) 0) with (chr "R"). rewrite Z.eqb_refl. cbn [negb andb]. by rewrite parse_tagged_dec.
Qed.

Lemma drop_reply letter id body :
  0 ≤ id → drop (length (format_rsp letter id body) - length (body_cut id body)) (format_rsp letter id body) = body_cut id body.
Proof.
  intros Hi. rewrite format_rsp_id by done. set (b := body_cut id body).
  replace (letter :: dec id ++ chr "|" :: b) with ((letter :: dec id ++ [chr "|"]) ++ b) by (cbn; by rewrite <- app_assoc).
  rewrite length_app. replace (_ + length b - length b)%nat with (length (letter :: dec id ++ [chr "|"])) by lia.
  by rewrite drop_app_length.
Qed.

(** ** Requests *)

(** A text without the separator. *)
Definition no_bar (s : list Z) : Prop := Forall (λ c, c ≠ chr "|") s.

Lemma before_app c s t : Forall (λ x, x ≠ c) s → before c (s ++ c :: t) = s.
Proof. induction 1 as [|x s Hx _ IH]; cbn; [by rewrite Z.eqb_refl|]. test_false (x =? c). by rewrite IH. Qed.

Lemma before_all c s : Forall (λ x, x ≠ c) s → before c s = s.
Proof. induction 1 as [|x s Hx _ IH]; cbn; [done|]. test_false (x =? c). by rewrite IH. Qed.

Lemma read_req_text id path :
  id_ok id → zlen path ≤ 200 → read_req id path = Some (chr "R" :: dec id ++ chr "|" :: path).
Proof.
  intros Hi Hp. unfold id_ok in Hi. pose proof (zlen_dec_id id ltac:(lia)). unfold read_req.
  rewrite append_dec by (change (zlen (str "R")) with 1; unfold MSG_PAYLOAD_SIZE; lia).
  change (str "R" ++ dec id) with (chr "R" :: dec id). rewrite zlen_cons.
  unfold MSG_PAYLOAD_SIZE. test_false (224 - 2 <=? 1 + zlen (dec id)).
  rewrite take_ge; [cbn; by rewrite <- app_assoc|]. cbn [app]. rewrite zlen_cons, zlen_app. change (zlen (str "|")) with 1. unfold zlen in *. lia.
Qed.

Lemma write_req_text id path data :
  id_ok id → zlen path + zlen data ≤ 200 →
  write_req id path data (zlen data) = Some (chr "W" :: dec id ++ chr "|" :: path ++ chr "|" :: data).
Proof.
  intros Hi Hp. unfold id_ok in Hi. pose proof (zlen_dec_id id ltac:(lia)). pose proof (zlen_nonneg path). pose proof (zlen_nonneg data).
  unfold write_req. rewrite append_dec by (change (zlen (str "W")) with 1; unfold MSG_PAYLOAD_SIZE; lia).
  change (str "W" ++ dec id) with (chr "W" :: dec id). rewrite zlen_cons. unfold MSG_PAYLOAD_SIZE.
  test_false (224 - zlen data - 3 <=? 1 + zlen (dec id)).
  change (str "|") with [chr "|"]. set (head := (chr "W" :: dec id) ++ [chr "|"]).
  assert (zlen head = 2 + zlen (dec id)) as Hh by (unfold head; rewrite zlen_app, zlen_cons; change (zlen [chr "|"]) with 1; lia).
  rewrite (take_ge path) by (unfold zlen in *; lia). rewrite zlen_app. test_false (224 - zlen data - 2 <=? zlen head + zlen path).
  rewrite (take_ge data) by (rewrite !zlen_app; change (zlen [chr "|"]) with 1; unfold zlen in *; lia).
  unfold head. cbn. by rewrite <- !app_assoc.
Qed.

Lemma backend_req_text (letter : string) id backend text :
  id_ok id → String.length letter = 1%nat → zlen backend + zlen text ≤ 200 →
  backend_req (str letter) id backend text = Some (chr letter :: dec id ++ chr "|" :: backend ++ chr "|" :: text).
Proof.
  intros Hi Hl Hp. unfold id_ok in Hi. pose proof (zlen_dec_id id ltac:(lia)). pose proof (zlen_nonneg backend). pose proof (zlen_nonneg text).
  destruct letter as [|a [|]]; [done| |done]. cbn [str chr]. unfold backend_req.
  rewrite append_dec by (change (zlen [_]) with 1; unfold MSG_PAYLOAD_SIZE; lia).
  cbn [app]. rewrite zlen_cons. unfold MSG_PAYLOAD_SIZE. test_false (224 <=? 1 + zlen (dec id) + zlen backend + zlen text + 3).
  rewrite (take_ge text) by (rewrite zlen_cons, !zlen_app; change (zlen (str "|")) with 1; unfold zlen in *; lia).
  do 2 f_equal. rewrite <- !app_assoc. reflexivity.
Qed.

Lemma parse_backend_text letter id backend text :
  0 ≤ id < 2147483648 → no_bar backend → zlen backend ≤ 31 →
  parse_backend_req letter (letter :: dec id ++ chr "|" :: backend ++ chr "|" :: text) = Some (id, backend, text).
Proof.
  intros Hi Hb Hl. unfold parse_backend_req. change (cget (letter :: ?l) 0) with letter. rewrite Z.eqb_refl. cbn [negb].
  rewrite parse_tagged_dec, before_app by done. rewrite take_ge by (unfold zlen in *; lia).
  rewrite drop_app_length. done.
Qed.

Lemma display_req_text id text x y :
  id_ok id → 0 ≤ x < 2147483648 → 0 ≤ y < 2147483648 → zlen text ≤ 180 →
  display_req id text x y = Some (chr "D" :: dec id ++ chr "|" :: dec x ++ chr "," :: dec y ++ chr "|" :: text).
Proof.
  intros Hi Hx Hy Ht. unfold id_ok in Hi. pose proof (zlen_dec_id id ltac:(lia)). pose proof (zlen_dec_id x Hx). pose proof (zlen_dec_id y Hy).
  unfold display_req, MSG_PAYLOAD_SIZE. rewrite append_dec by (change (zlen (str "D")) with 1; lia).
  rewrite append_dec by (rewrite ?zlen_app; change (zlen (str ?c)) with 1; lia).
  rewrite append_dec by (rewrite ?zlen_app; change (zlen (str "D")) with 1; change (zlen (str "|")) with 1; change (zlen (str ",")) with 1; lia).
  rewrite !zlen_app. change (zlen (str "D")) with 1. change (zlen (str "|")) with 1. change (zlen (str ",")) with 1.
  match goal with |- context [224 <=? ?n] => test_false (224 <=? n) end.
  rewrite (take_ge text) by (unfold zlen in *; lia). cbn. by rewrite <- !app_assoc.
Qed.

Lemma parse_display_text id text x y :
  0 ≤ id < 2147483648 → 0 ≤ x < 2147483648 → 0 ≤ y < 2147483648 →
  display.parse_display_req (chr "D" :: dec id ++ chr "|" :: dec x ++ chr "," :: dec y ++ chr "|" :: text) = Some (id, text, x, y).
Proof.
  intros Hi Hx Hy. unfold display.parse_display_req. change (cget (chr "D" :: ?l) 0) with (chr "D"). rewrite Z.eqb_refl. cbn [negb].
  rewrite parse_tagged_dec, scan_dec, scan_int_stop by done. change (cget (chr "," :: ?l) 0) with (chr ","). rewrite Z.eqb_refl. cbn [negb drop].
  rewrite drop_0, scan_dec, scan_int_stop by done. done.
Qed.

Lemma numbered_text c id rest :
  0 ≤ id < 2147483648 → c = chr "R" ∨ c = chr "W" → storage.numbered (c :: dec id ++ chr "|" :: rest) = (id, rest).
Proof.
  intros Hi Hc. unfold storage.numbered, storage.parse_req_id. change (cget (c :: ?l) 0) with c.
  destruct Hc as [->| ->]; cbn [negb andb]; rewrite parse_tagged_dec by done; done.
Qed.
