(* ===== verification/UserWorld.v ===== *)
(** * Agents side by side

    A world for user programs: the mailboxes of the agents (the queues of Ipc.v), the
    send counters (Quota.v), the shared static variables, and the state [F] behind the
    tools.  The calls that only this state is needed for are answered here, the others
    by the class [Tools].  Console output is not recorded.

    Two agents run side by side in it, under any schedule: [run_turns] lets them take
    single steps in the order of a list.  A client that talks to one service by requests
    and replies is described by [dialogue], in terms of what each of the two does on its
    own; the main theorem says that under every schedule the outcome is the one of the
    dialogue and that the dialogue can always be completed. *)

From ITree Require Import Core.ITreeDefinition.
From S2P Require Import Prelude Abi Ipc Quota AgentDef Vm Kernel Agent LibAgent.

(** What the tools, the model and the other calls answer. *)
Class Tools (F : Type) := {
  tool_call : Z → Z → list targ → F → (Z * list Z) * F;
  llm_call : Z → list Z → Z → F → (Z * list Z) * F;
  misc_call : Z → Z → F → Z * F
}.

Record uagent := mk_ua { ua_caps : Z; ua_box : mailbox }.

Record uworld (F : Type) := mk_uw {
  uw_agents : gmap Z uagent;
  uw_quota : quota;
  uw_bss : user_bss;
  uw_files : F
}.
Arguments mk_uw {F}. Arguments uw_agents {F}. Arguments uw_quota {F}. Arguments uw_bss {F}. Arguments uw_files {F}.

Section world.
Context {F : Type} `{Tools F}.
Abbreviation uworld := (uworld F).
Implicit Types w : uworld.

Definition with_box (i : Z) (b : mailbox) w : uworld :=
  mk_uw (alter (λ a, mk_ua (ua_caps a) b) i (uw_agents w)) (uw_quota w) (uw_bss w) (uw_files w).
Definition with_bss (b : user_bss) w : uworld := mk_uw (uw_agents w) (uw_quota w) b (uw_files w).
Definition with_files (f : F) w : uworld := mk_uw (uw_agents w) (uw_quota w) (uw_bss w) f.
Definition with_uquota (q : quota) w : uworld := mk_uw (uw_agents w) q (uw_bss w) (uw_files w).

Definition caps_of w (i : Z) : Z := match uw_agents w !! i with Some a => ua_caps a | None => 0 end.
Definition box_of w (i : Z) : mailbox := match uw_agents w !! i with Some a => ua_box a | None => mk_mailbox [] [] end.

(** A send, as in [Agent.send_result]. *)
Definition uw_send (self dst type : Z) (text : list Z) w : Z * uworld :=
  if negb (has CAP_SEND (caps_of w self)) then (EPERM, w)
  else if negb (bool_decide (is_Some (uw_agents w !! dst))) then (ENOENT, w)
  else if QUOTA_IPC_MAX <=? quota_ipc_used (uw_quota w) (Some self) then (ENOSPC, w)
  else match take (Z.to_nat (MSG_PAYLOAD_SIZE - 1)) text with
       | [] => (EINVAL, w)
       | text =>
           let '(rc, box) := mb_push (box_of w dst) (user_msg self type text) in
           if negb (rc =? 0) then (rc, w)
           else (0, with_uquota (quota_ipc_charge (Some self) (uw_quota w)) (with_box dst box w))
       end.

(** A receive, as in [Agent.agent_recv_spec]: the result is the type of the message. *)
Definition uw_recv (self : Z) w : (Z * agent_msg) * uworld :=
  if negb (has CAP_RECV (caps_of w self)) then ((EPERM, zero_msg), w)
  else match mb_pop (box_of w self) with
       | (rc, None, _) => ((rc, zero_msg), w)
       | (_, Some m, box) => ((mtype m, m), with_box self box w)
       end.

(** The part of a world that an agent works on by itself: the shared variables, or what
    is behind the tools. *)
Definition bss_respond {A} (self : Z) (e : sysE A) (b : user_bss) : option (A * user_bss) :=
  match e with
  | Load f => Some (f b, b)
  | LoadMsg f => Some (f b, b)
  | Store f => Some (tt, f b)
  | SysYield => Some (tt, b)
  | SysSelf => Some (self, b)
  | SysWrite _ => Some (tt, b)
  | _ => None
  end.

Definition file_respond {A} (self : Z) (e : sysE A) (f : F) : option (A * F) :=
  match e with
  | SysYield => Some (tt, f)
  | SysSelf => Some (self, f)
  | SysWrite _ => Some (tt, f)
  | SysTool tool args => Some (tool_call self tool args f)
  | SysLlm prompt len => Some (llm_call self prompt len f)
  | _ => None
  end.

Definition uw_respond {A} (self : Z) (e : sysE A) w : option (A * uworld) :=
  let misc n : option (Z * uworld) := let '(rc, f) := misc_call self n (uw_files w) in Some (rc, with_files f w) in
  match e with
  | SysCreate _ _ _ => misc 1
  | SysSend dst type text => Some (uw_send self dst type text w)
  | SysRecv => Some (uw_recv self w)
  | SysYield => Some (tt, w)
  | SysSelf => Some (self, w)
  | SysWrite _ => Some (tt, w)
  | SysTool tool args => let '(r, f) := tool_call self tool args (uw_files w) in Some (r, with_files f w)
  | SysExit _ => None
  | SysLlm prompt len => let '(r, f) := llm_call self prompt len (uw_files w) in Some (r, with_files f w)
  | SysCompact _ => misc 11
  | SysGetPhase => misc 12
  | SysSync => misc 13
  | SysLoad _ _ _ => misc 17
  | Load f => Some (f (uw_bss w), w)
  | LoadMsg f => Some (f (uw_bss w), w)
  | Store f => Some (tt, with_bss (f (uw_bss w)) w)
  | Undefined => None
  end.

#[export] Instance bss_world : World user_bss := {| respond A := @bss_respond A |}.
#[export] Instance file_world : World F | 10 := {| respond A := @file_respond A |}.
#[export] Instance user_world : World uworld := {| respond A := @uw_respond A |}.

(** A step in the part is a step in the whole. *)
Lemma bss_step {R} self (c c' : itree' sysE R) b' w :
  step self (c, uw_bss w) = Some (c', b') → step self (c, w) = Some (c', with_bss b' w).
Proof.
  unfold step. cbn [fst snd]. destruct c as [r|t|X e k]; [done|intros [= <- <-]; by destruct w|].
  destruct e; cbn; intros E; simplify_eq; by destruct w.
Qed.

Lemma file_step {R} self (c c' : itree' sysE R) f' w :
  step self (c, uw_files w) = Some (c', f') → step self (c, w) = Some (c', with_files f' w).
Proof.
  unfold step. cbn [fst snd]. destruct c as [r|t|X e k]; [done|intros [= <- <-]; by destruct w|].
  destruct e; cbn; intros E; simplify_eq; try (by destruct w).
  - destruct (tool_call self tool args (uw_files w)) as [x f]. by simplify_eq.
  - destruct (llm_call self prompt buflen (uw_files w)) as [x f]. by simplify_eq.
Qed.

End world.

(** ** Two agents under any schedule *)

Section duo.
Context {F : Type} `{Tools F} {R : Type} (cl sv : Z).
Abbreviation uworld := (uworld F).
Implicit Types w : uworld.

(** A client that returns an [R] and a service that does not return. *)
Record duo := mk_duo { d_client : itree' sysE R; d_server : itree' sysE Empty_set; d_world : uworld }.

(** A turn of the client (true) or of the service; who cannot step waits. *)
Definition turn (d : duo) (who : bool) : duo :=
  if who then match step cl (d_client d, d_world d) with Some (c, w) => mk_duo c (d_server d) w | None => d end
  else match step sv (d_server d, d_world d) with Some (s, w) => mk_duo (d_client d) s w | None => d end.

Definition run_turns (l : list bool) (d : duo) : duo := foldl turn d l.

(** What each of the two does on its own. *)
Abbreviation alone_c := (@steps user_bss bss_world cl R).
Abbreviation alone_s := (@steps F file_world sv Empty_set).

(** The service waits for messages with [ks]. *)
Context (ks : Z * agent_msg → prog Empty_set).
Definition idle : itree' sysE Empty_set := VisF SysRecv ks.
Definition idles : Prop := ∀ m f, alone_s (observe (ks (EAGAIN, m)), f) (idle, f).

(** A text that is sent whole and not before others. *)
Definition sendable (type : Z) (text : list Z) : Prop := type ≠ MSG_STEER ∧ text ≠ [] ∧ zlen text < MSG_PAYLOAD_SIZE.

(** The service answers the message [m] with one message to the client. *)
Definition answers (f : F) (m : agent_msg) (rtype : Z) (reply : list Z) (f' : F) : Prop :=
  sendable rtype reply ∧ ∃ k, alone_s (observe (ks (mtype m, m)), f) (VisF (SysSend cl rtype reply) k, f')
    ∧ ∀ x, alone_s (observe (k x), f') (idle, f').

(** The client waits for a message with [kr]. *)
Definition waits (kr : Z * agent_msg → prog R) (b : user_bss) : Prop :=
  ∀ m, alone_c (observe (kr (EAGAIN, m)), b) (VisF SysRecv kr, b).

(** [n] requests, each answered, and then the result. *)
Inductive dialogue : nat → itree' sysE R → user_bss → F → R → user_bss → F → Prop :=
  | dialogue_end c b f r b' : alone_c (c, b) (RetF r, b') → dialogue 0 c b f r b' f
  | dialogue_ask n c b b1 b2 f f1 r b' f' type text k kr rtype reply :
      alone_c (c, b) (VisF (SysSend sv type text) k, b1) → sendable type text →
      alone_c (observe (k 0), b1) (VisF SysRecv kr, b2) → waits kr b2 →
      answers f (user_msg cl type text) rtype reply f1 →
      dialogue n (observe (kr (rtype, user_msg sv rtype reply))) b2 f1 r b' f' →
      dialogue (S n) c b f r b' f'.

(** *** Mailboxes and quotas *)

(** Agents [i] and [j] exist, have the messages [bi] and [bj] waiting and may still send
    [ni] and [nj] messages. *)
Record shape (i j : Z) (ni nj : nat) (bi bj : list agent_msg) w : Prop := {
  sh_i : ∃ cap, uw_agents w !! i = Some (mk_ua cap (mk_mailbox [] bi)) ∧ has CAP_SEND cap = true ∧ has CAP_RECV cap = true;
  sh_j : ∃ cap, uw_agents w !! j = Some (mk_ua cap (mk_mailbox [] bj)) ∧ has CAP_SEND cap = true ∧ has CAP_RECV cap = true;
  sh_quota : quota_wf (uw_quota w);
  sh_ni : quota_ipc_used (uw_quota w) (Some i) + Z.of_nat ni ≤ QUOTA_IPC_MAX;
  sh_nj : quota_ipc_used (uw_quota w) (Some j) + Z.of_nat nj ≤ QUOTA_IPC_MAX
}.

Lemma shape_swap i j ni nj bi bj w : shape i j ni nj bi bj w → shape j i nj ni bj bi w.
Proof. intros []. by constructor. Qed.

Lemma shape_same i j ni nj bi bj w w' :
  uw_agents w' = uw_agents w → uw_quota w' = uw_quota w → shape i j ni nj bi bj w → shape i j ni nj bi bj w'.
Proof. intros Ea Eq []. by constructor; rewrite ?Ea, ?Eq. Qed.

Lemma shape_send i j ni nj bi w type text :
  i ≠ j → 0 ≤ i < MAX_AGENTS → shape i j (S ni) nj bi [] w → sendable type text →
  ∃ w', uw_send i j type text w = (0, w') ∧ shape i j ni nj bi [user_msg i type text] w'
    ∧ uw_bss w' = uw_bss w ∧ uw_files w' = uw_files w.
Proof.
  intros Hne Hi [(ci & Ei & Hci & Hci') (cj & Ej & Hcj & Hcj') Hq Hni Hnj] (Ht & Hx & Hl).
  pose proof (λ b, quota_ipc_charge_used (uw_quota w) i b Hq Hi) as Hu. unfold QUOTA_IPC_MAX in *.
  unfold uw_send, caps_of. rewrite Ei. cbn [ua_caps]. rewrite Hci. cbn [negb]. rewrite bool_decide_true by eauto. cbn [negb].
  unfold QUOTA_IPC_MAX. test_false (16 <=? quota_ipc_used (uw_quota w) (Some i)).
  rewrite take_ge by (unfold zlen, MSG_PAYLOAD_SIZE in *; lia). destruct text as [|c text]; [done|].
  unfold box_of. rewrite Ej. cbn [ua_box]. unfold mb_push. cbn [mtype user_msg mb_normal mb_steer].
  test_false (type =? MSG_STEER). change (MSG_CAPACITY <=? zlen []) with false. change (negb (0 =? 0)) with false. cbn iota.
  eexists. split; [done|]. split; [|done]. constructor; cbn.
  - exists ci. rewrite lookup_alter_ne by done. done.
  - exists cj. rewrite lookup_alter_eq, Ej. done.
  - apply quota_ipc_charge_wf; [done|]. unfold quota_ipc_allow, quota_ipc_max. unfold QUOTA_IPC_MAX.
    by test_false (16 <=? quota_ipc_used (uw_quota w) (Some i)).
  - rewrite Hu, decide_True by (done || lia). unfold QUOTA_IPC_MAX. lia.
  - rewrite Hu, decide_False by (done || lia). unfold QUOTA_IPC_MAX. lia.
Qed.

Lemma shape_recv_none i j ni nj bj w : shape i j ni nj [] bj w → uw_recv i w = ((EAGAIN, zero_msg), w).
Proof. intros [(ci & Ei & ? & Hci) _ _ _ _]. unfold uw_recv, caps_of, box_of. rewrite Ei. cbn. by rewrite Hci. Qed.

Lemma shape_recv i j ni nj m bi bj w :
  i ≠ j → shape i j ni nj (m :: bi) bj w →
  ∃ w', uw_recv i w = ((mtype m, m), w') ∧ shape i j ni nj bi bj w' ∧ uw_bss w' = uw_bss w ∧ uw_files w' = uw_files w.
Proof.
  intros Hne [(ci & Ei & Hci & Hci') (cj & Ej & ?) Hq Hni Hnj]. unfold uw_recv, caps_of, box_of. rewrite Ei. cbn. rewrite Hci'. cbn.
  eexists. split; [done|]. split; [|done]. constructor; cbn; [| |done..].
  - exists ci. by rewrite lookup_alter_eq, Ei.
  - exists cj. by rewrite lookup_alter_ne.
Qed.

End duo.

Section schedule.
Context {F : Type} `{Tools F} {R : Type} (cl sv : Z) (ks : Z * agent_msg → prog Empty_set).
Context (Hne : cl ≠ sv) (Hcl : 0 ≤ cl < MAX_AGENTS) (Hsv : 0 ≤ sv < MAX_AGENTS) (Hidle : idles (F:=F) sv ks).
Abbreviation uworld := (uworld F).
Abbreviation duo := (@duo F R).
Abbreviation alone_c := (@steps user_bss bss_world cl R).
Abbreviation alone_s := (@steps F file_world sv Empty_set).
Abbreviation idle := (idle ks).
Implicit Types (d : duo) (w : uworld).

(** How far the two are: nothing is under way; a request waits; the service works on
    it; the reply waits.  In each case the remaining dialogue leads to [r]. *)
Inductive stage (r : R) (b' : user_bss) (f' : F) : duo → Prop :=
  | stage_calm n c s w f :
      dialogue cl sv ks n c (uw_bss w) f r b' f' →
      alone_s (s, uw_files w) (idle, f) → shape cl sv n n [] [] w → stage r b' f' (mk_duo c s w)
  | stage_asked n c s w b2 f f1 kr m rtype reply :
      alone_c (c, uw_bss w) (VisF SysRecv kr, b2) → waits cl kr b2 →
      answers cl sv ks f m rtype reply f1 →
      dialogue cl sv ks n (observe (kr (rtype, user_msg sv rtype reply))) b2 f1 r b' f' →
      alone_s (s, uw_files w) (idle, f) → shape cl sv n (S n) [] [m] w → stage r b' f' (mk_duo c s w)
  | stage_served n c s w b2 f1 kr rtype reply k :
      alone_c (c, uw_bss w) (VisF SysRecv kr, b2) → waits cl kr b2 → sendable rtype reply →
      dialogue cl sv ks n (observe (kr (rtype, user_msg sv rtype reply))) b2 f1 r b' f' →
      alone_s (s, uw_files w) (VisF (SysSend cl rtype reply) k, f1) → (∀ x, alone_s (observe (k x), f1) (idle, f1)) →
      shape cl sv n (S n) [] [] w → stage r b' f' (mk_duo c s w)
  | stage_answered n c s w b2 f kr rtype reply :
      alone_c (c, uw_bss w) (VisF SysRecv kr, b2) → waits cl kr b2 →
      dialogue cl sv ks n (observe (kr (rtype, user_msg sv rtype reply))) b2 f r b' f' →
      alone_s (s, uw_files w) (idle, f) →
      shape cl sv n n [user_msg sv rtype reply] [] w → stage r b' f' (mk_duo c s w).

(** A run is over, or has a first step. *)
Lemma steps_first {W} `{World W} self {T} (c e : itree' sysE T) (x y : W) :
  steps self (c, x) (e, y) → (c = e ∧ x = y) ∨ ∃ c1 x1, step self (c, x) = Some (c1, x1) ∧ steps self (c1, x1) (e, y).
Proof. inversion 1 as [|? [c1 x1] ? E]; subst; [by left|]. right. eauto. Qed.

Lemma dialogue_back n (c c1 : itree' sysE R) b b1 f r b' f' :
  step cl (c, b) = Some (c1, b1) → dialogue cl sv ks n c1 b1 f r b' f' → dialogue cl sv ks n c b f r b' f'.
Proof.
  intros E Hd. destruct Hd as [c1 b1 f r b' Hs|n c1 b1 b2 b3 f f1 r b' f' type text k kr rtype reply Hs ? ? ? ? ?].
  - apply dialogue_end. by eapply steps_cons.
  - eapply dialogue_ask; [by eapply steps_cons|done..].
Qed.

Lemma dialogue_steps n (c c1 : itree' sysE R) b b1 f r b' f' :
  alone_c (c, b) (c1, b1) → dialogue cl sv ks n c1 b1 f r b' f' → dialogue cl sv ks n c b f r b' f'.
Proof.
  remember (c, b) as x eqn:Ex. remember (c1, b1) as y eqn:Ey. intros Hs. revert c b Ex.
  induction Hs as [x|x [c2 b2] y E Hs IH]; intros c b Ex Hd; subst; [by simplify_eq|].
  apply (dialogue_back _ _ _ _ _ _ _ _ _ E). by apply IH.
Qed.

(** A dialogue begins with a step of the client alone, or with a request, or is over. *)
Lemma dialogue_first n (c : itree' sysE R) b f r b' f' :
  dialogue cl sv ks n c b f r b' f' →
  (∃ c1 b1, step cl (c, b) = Some (c1, b1) ∧ dialogue cl sv ks n c1 b1 f r b' f')
  ∨ (c = RetF r ∧ b' = b ∧ f' = f ∧ n = 0%nat)
  ∨ ∃ n0 b2 f1 type text k kr rtype reply, n = S n0 ∧ c = VisF (SysSend sv type text) k ∧ sendable type text
      ∧ alone_c (observe (k 0), b) (VisF SysRecv kr, b2) ∧ waits cl kr b2
      ∧ answers cl sv ks f (user_msg cl type text) rtype reply f1
      ∧ dialogue cl sv ks n0 (observe (kr (rtype, user_msg sv rtype reply))) b2 f1 r b' f'.
Proof.
  destruct 1 as [c b f r b' Hs|n c b b1 b2 f f1 r b' f' type text k kr rtype reply Hs ? ? ? ? ?];
    destruct (steps_first _ _ _ _ _ Hs) as [[-> ->]|(c1 & x1 & E & Hs')].
  - right; left. done.
  - left. exists c1, x1. split; [done|]. by apply dialogue_end.
  - right; right. by exists n, b2, f1, type, text, k, kr, rtype, reply.
  - left. exists c1, x1. split; [done|]. by eapply dialogue_ask.
Qed.

Lemma step_send {T} self dst type text (k : Z → prog T) w rc w' :
  uw_send self dst type text w = (rc, w') → step self (VisF (SysSend dst type text) k, w) = Some (observe (k rc), w').
Proof. intros E. unfold step. cbn. by rewrite E. Qed.

Lemma step_recv {T} self (k : Z * agent_msg → prog T) w x w' :
  uw_recv self w = (x, w') → step self (VisF SysRecv k, w) = Some (observe (k x), w').
Proof. intros E. unfold step. cbn. by rewrite E. Qed.

(** The client's turn. *)
Lemma stage_client r b' f' d : stage r b' f' d → stage r b' f' (turn cl sv d true).
Proof using Hne Hcl Hsv Hidle.
  destruct 1 as [n c s w f Hd Hs Hsh|n c s w b2 f f1 kr m rtype reply Hc Hw Ha Hd Hs Hsh
    |n c s w b2 f1 kr rtype reply k Hc Hw Hok Hd Hs Hk Hsh|n c s w b2 f kr rtype reply Hc Hw Hd Hs Hsh]; cbn [turn d_client d_server d_world].
  - destruct (dialogue_first _ _ _ _ _ _ _ Hd) as [(c1 & b1 & E & Hd')|[(-> & -> & -> & ->)|H0]].
    + rewrite (bss_step _ _ _ _ _ E). by eapply stage_calm; [done..|]; apply (shape_same _ _ _ _ _ _ w).
    + cbn. by eapply stage_calm.
    + destruct H0 as (n0 & b2 & f1 & type & text & k & kr & rtype & reply & -> & -> & Hsend & Hk & Hw & Ha & Hd').
      destruct (shape_send cl sv n0 (S n0) [] w type text Hne Hcl Hsh Hsend) as (w' & E & Hsh' & Eb & Ef).
      rewrite (step_send _ _ _ _ _ _ _ _ E). by eapply stage_asked; rewrite ?Eb, ?Ef.
  - destruct (steps_first _ _ _ _ _ Hc) as [[-> <-]|(c1 & b1 & E & Hc')].
    + rewrite (step_recv _ _ _ _ _ (shape_recv_none _ _ _ _ _ _ Hsh)). by eapply stage_asked.
    + rewrite (bss_step _ _ _ _ _ E). by eapply stage_asked; [done..|]; apply (shape_same _ _ _ _ _ _ w).
  - destruct (steps_first _ _ _ _ _ Hc) as [[-> <-]|(c1 & b1 & E & Hc')].
    + rewrite (step_recv _ _ _ _ _ (shape_recv_none _ _ _ _ _ _ Hsh)). by eapply stage_served.
    + rewrite (bss_step _ _ _ _ _ E). by eapply stage_served; [done..|]; apply (shape_same _ _ _ _ _ _ w).
  - destruct (steps_first _ _ _ _ _ Hc) as [[-> <-]|(c1 & b1 & E & Hc')].
    + destruct (shape_recv _ _ _ _ _ _ _ _ Hne Hsh) as (w' & E & Hsh' & Eb & Ef).
      rewrite (step_recv _ _ _ _ _ E). by eapply stage_calm; rewrite ?Eb, ?Ef.
    + rewrite (bss_step _ _ _ _ _ E). by eapply stage_answered; [done..|]; apply (shape_same _ _ _ _ _ _ w).
Qed.

(** The service's turn. *)
Lemma stage_server r b' f' d : stage r b' f' d → stage r b' f' (turn cl sv d false).
Proof using Hne Hcl Hsv Hidle.
  assert (sv ≠ cl) as Hne' by auto.
  destruct 1 as [n c s w f Hd Hs Hsh|n c s w b2 f f1 kr m rtype reply Hc Hw Ha Hd Hs Hsh
    |n c s w b2 f1 kr rtype reply k Hc Hw Hok Hd Hs Hk Hsh|n c s w b2 f kr rtype reply Hc Hw Hd Hs Hsh]; cbn [turn d_client d_server d_world].
  - destruct (steps_first _ _ _ _ _ Hs) as [[-> <-]|(s1 & f1 & E & Hs')].
    + unfold UserWorld.idle. rewrite (step_recv _ _ _ _ _ (shape_recv_none _ _ _ _ _ _ (shape_swap _ _ _ _ _ _ _ Hsh))).
      by eapply stage_calm; [|apply Hidle|].
    + rewrite (file_step _ _ _ _ _ E). by eapply stage_calm; [done..|]; apply (shape_same _ _ _ _ _ _ w).
  - destruct (steps_first _ _ _ _ _ Hs) as [[-> <-]|(s1 & f2 & E & Hs')].
    + apply shape_swap in Hsh. destruct (shape_recv _ _ _ _ _ _ _ _ Hne' Hsh) as (w' & E & Hsh' & Eb & Ef).
      destruct Ha as (Hok & k & Hk1 & Hk2). unfold UserWorld.idle. rewrite (step_recv _ _ _ _ _ E).
      by eapply stage_served; rewrite ?Eb, ?Ef; [..|apply shape_swap].
    + rewrite (file_step _ _ _ _ _ E). by eapply stage_asked; [done..|]; apply (shape_same _ _ _ _ _ _ w).
  - destruct (steps_first _ _ _ _ _ Hs) as [[-> <-]|(s1 & f2 & E & Hs')].
    + apply shape_swap in Hsh. destruct (shape_send sv cl n n [] w rtype reply Hne' Hsv Hsh Hok) as (w' & E & Hsh' & Eb & Ef).
      rewrite (step_send _ _ _ _ _ _ _ _ E). by eapply stage_answered; rewrite ?Eb, ?Ef; [..|apply shape_swap].
    + rewrite (file_step _ _ _ _ _ E). by eapply stage_served; [done..|]; apply (shape_same _ _ _ _ _ _ w).
  - destruct (steps_first _ _ _ _ _ Hs) as [[-> <-]|(s1 & f1 & E & Hs')].
    + unfold UserWorld.idle. rewrite (step_recv _ _ _ _ _ (shape_recv_none _ _ _ _ _ _ (shape_swap _ _ _ _ _ _ _ Hsh))).
      by eapply stage_answered; [..|apply Hidle|].
    + rewrite (file_step _ _ _ _ _ E). by eapply stage_answered; [done..|]; apply (shape_same _ _ _ _ _ _ w).
Qed.

Lemma stage_turns r b' f' l d : stage r b' f' d → stage r b' f' (run_turns cl sv l d).
Proof using Hne Hcl Hsv Hidle.
  revert d. induction l as [|[] l IH]; intros d Hd; [done|..]; apply IH; [by apply stage_client|by apply stage_server].
Qed.

(** ** A service that may not send any more *)

(** The client waits, or will, and nothing for it is under way: what the service sends
    is refused. *)
Inductive mute : duo → Prop :=
  | mute_before c s w f b1 b2 f1 type text k kr rtype reply :
      alone_c (c, uw_bss w) (VisF (SysSend sv type text) k, b1) → sendable type text →
      alone_c (observe (k 0), b1) (VisF SysRecv kr, b2) → waits cl kr b2 →
      answers cl sv ks f (user_msg cl type text) rtype reply f1 →
      alone_s (s, uw_files w) (idle, f) → shape cl sv 1 0 [] [] w → QUOTA_IPC_MAX ≤ quota_ipc_used (uw_quota w) (Some sv) →
      mute (mk_duo c s w)
  | mute_asked c s w f b2 f1 kr m rtype reply :
      alone_c (c, uw_bss w) (VisF SysRecv kr, b2) → waits cl kr b2 → answers cl sv ks f m rtype reply f1 →
      alone_s (s, uw_files w) (idle, f) → shape cl sv 0 0 [] [m] w → QUOTA_IPC_MAX ≤ quota_ipc_used (uw_quota w) (Some sv) →
      mute (mk_duo c s w)
  | mute_served c s w b2 f1 kr rtype reply k :
      alone_c (c, uw_bss w) (VisF SysRecv kr, b2) → waits cl kr b2 →
      alone_s (s, uw_files w) (VisF (SysSend cl rtype reply) k, f1) → (∀ x, alone_s (observe (k x), f1) (idle, f1)) →
      shape cl sv 0 0 [] [] w → QUOTA_IPC_MAX ≤ quota_ipc_used (uw_quota w) (Some sv) → mute (mk_duo c s w)
  | mute_after c s w f b2 kr :
      alone_c (c, uw_bss w) (VisF SysRecv kr, b2) → waits cl kr b2 → alone_s (s, uw_files w) (idle, f) →
      shape cl sv 0 0 [] [] w → QUOTA_IPC_MAX ≤ quota_ipc_used (uw_quota w) (Some sv) → mute (mk_duo c s w).

Lemma send_refused dst type text w :
  QUOTA_IPC_MAX ≤ quota_ipc_used (uw_quota w) (Some sv) → ∃ rc, uw_send sv dst type text w = (rc, w).
Proof.
  intros Hq. unfold uw_send. destruct (negb _); [eauto|]. destruct (negb _); [eauto|].
  test_true (QUOTA_IPC_MAX <=? quota_ipc_used (uw_quota w) (Some sv)). eauto.
Qed.

Lemma send_keeps_quota type text w w' :
  shape cl sv 1 0 [] [] w → uw_send cl sv type text w = (0, w') →
  quota_ipc_used (uw_quota w') (Some sv) = quota_ipc_used (uw_quota w) (Some sv).
Proof using Hne Hcl.
  intros [_ _ Hq Hn _]. unfold uw_send, QUOTA_IPC_MAX in *. do 2 (destruct (negb _); [intros [=]|]).
  destruct (Z.leb_spec 16 (quota_ipc_used (uw_quota w) (Some cl))); [intros [=]|].
  destruct (take _ _); [intros [=]|]. destruct (mb_push _ _) as [rc box]. destruct (negb (rc =? 0)) eqn:E; intros Ew.
  - injection Ew as -> _. done.
  - injection Ew as <-. cbn. rewrite quota_ipc_charge_used, decide_False by (done || lia). lia.
Qed.

Lemma mute_client d : mute d → mute (turn cl sv d true).
Proof using Hne Hcl Hsv Hidle.
  destruct 1 as [c s w f b1 b2 f1 type text k kr rtype reply Hc Hok Hk Hw Ha Hs Hsh Hq|c s w f b2 f1 kr m rtype reply Hc Hw Ha Hs Hsh Hq
    |c s w b2 f1 kr rtype reply k Hc Hw Hs Hk Hsh Hq|c s w f b2 kr Hc Hw Hs Hsh Hq]; cbn [turn d_client d_server d_world];
    destruct (steps_first _ _ _ _ _ Hc) as [[-> <-]|(c1 & b3 & E & Hc')];
    try (rewrite (bss_step _ _ _ _ _ E); apply (shape_same _ _ _ _ _ _ w (with_bss b3 w)) in Hsh; [|done..];
         first [by eapply mute_before|by eapply mute_asked|by eapply mute_served|by eapply mute_after]);
    try (rewrite (step_recv _ _ _ _ _ (shape_recv_none _ _ _ _ _ _ Hsh));
         first [by eapply mute_asked|by eapply mute_served|by eapply mute_after]).
  destruct (shape_send cl sv 0 0 [] w type text Hne Hcl Hsh Hok) as (w' & E & Hsh' & Eb & Ef).
  rewrite (step_send _ _ _ _ _ _ _ _ E). pose proof (send_keeps_quota _ _ _ _ Hsh E) as Eq.
  by eapply mute_asked; rewrite ?Eb, ?Ef, ?Eq.
Qed.

Lemma mute_server d : mute d → mute (turn cl sv d false).
Proof using Hne Hcl Hsv Hidle.
  assert (sv ≠ cl) as Hne' by auto.
  destruct 1 as [c s w f b1 b2 f1 type text k kr rtype reply Hc Hok Hk Hw Ha Hs Hsh Hq|c s w f b2 f1 kr m rtype reply Hc Hw Ha Hs Hsh Hq
    |c s w b2 f1 kr rtype reply k Hc Hw Hs Hk Hsh Hq|c s w f b2 kr Hc Hw Hs Hsh Hq]; cbn [turn d_client d_server d_world];
    destruct (steps_first _ _ _ _ _ Hs) as [[-> <-]|(s1 & f3 & E & Hs')];
    try (rewrite (file_step _ _ _ _ _ E); apply (shape_same _ _ _ _ _ _ w (with_files f3 w)) in Hsh; [|done..];
         first [by eapply mute_before|by eapply mute_asked|by eapply mute_served|by eapply mute_after]).
  - unfold UserWorld.idle. rewrite (step_recv _ _ _ _ _ (shape_recv_none _ _ _ _ _ _ (shape_swap _ _ _ _ _ _ _ Hsh))).
    by eapply mute_before; [..|apply Hidle| |].
  - pose proof (shape_swap _ _ _ _ _ _ _ Hsh) as Hsw. destruct (shape_recv _ _ _ _ _ _ _ _ Hne' Hsw) as (w' & E & Hsh' & Eb & Ef).
    destruct Ha as (Hok & k & Hk1 & Hk2). unfold UserWorld.idle. rewrite (step_recv _ _ _ _ _ E).
    assert (uw_quota w' = uw_quota w) as Eq.
    { unfold uw_recv in E. destruct (negb _); [by simplify_eq|]. destruct (mb_pop _) as [[rc [m'|]] bx]; by simplify_eq. }
    by eapply mute_served; rewrite ?Eb, ?Ef, ?Eq; [..|apply shape_swap|].
  - destruct (send_refused cl rtype reply w Hq) as [rc E]. rewrite (step_send _ _ _ _ _ _ _ _ E).
    by eapply mute_after; [..|apply Hk| |].
  - unfold UserWorld.idle. rewrite (step_recv _ _ _ _ _ (shape_recv_none _ _ _ _ _ _ (shape_swap _ _ _ _ _ _ _ Hsh))).
    by eapply mute_after; [..|apply Hidle| |].
Qed.

Lemma mute_turns l d r : mute d → d_client (run_turns cl sv l d) ≠ RetF r.
Proof using Hne Hcl Hsv Hidle.
  intros Hd. assert (mute (run_turns cl sv l d)) as Hm.
  { revert d Hd. induction l as [|[] l IH]; intros d Hd; [done|..]; apply IH; [by apply mute_client|by apply mute_server]. }
  intros Hr. destruct Hm as [c s w f b1 b2 f1 type text k kr rtype reply Hc| c s w f b2 f1 kr m rtype reply Hc
    |c s w b2 f1 kr rtype reply k Hc|c s w f b2 kr Hc]; cbn in Hr; rewrite Hr in Hc;
    destruct (steps_first _ _ _ _ _ Hc) as [[? _]|(? & ? & ? & _)]; done.
Qed.

(** One of the two goes on alone. *)
Lemma client_alone (c : itree' sysE R) s w e b : alone_c (c, uw_bss w) (e, b) → ∃ l, run_turns cl sv l (mk_duo c s w) = mk_duo e s (with_bss b w).
Proof.
  remember (c, uw_bss w) as x eqn:Ex. remember (e, b) as y eqn:Ey. intros Hs. revert c w Ex.
  induction Hs as [x|x [c1 b1] y E Hs IH]; intros c w Ex; subst.
  - simplify_eq. exists []. cbn. by destruct w.
  - destruct (IH eq_refl c1 (with_bss b1 w) eq_refl) as [l Hl]. exists (true :: l).
    cbn [run_turns foldl turn d_client d_world d_server]. rewrite (bss_step _ _ _ _ _ E). exact Hl.
Qed.

Lemma server_alone (c : itree' sysE R) s w e f : alone_s (s, uw_files w) (e, f) → ∃ l, run_turns cl sv l (mk_duo c s w) = mk_duo c e (with_files f w).
Proof.
  remember (s, uw_files w) as x eqn:Ex. remember (e, f) as y eqn:Ey. intros Hs. revert s w Ex.
  induction Hs as [x|x [s1 f1] y E Hs IH]; intros s w Ex; subst.
  - simplify_eq. exists []. cbn. by destruct w.
  - destruct (IH eq_refl s1 (with_files f1 w) eq_refl) as [l Hl]. exists (false :: l).
    cbn [run_turns foldl turn d_client d_world d_server]. rewrite (file_step _ _ _ _ _ E). exact Hl.
Qed.

(** The client can be brought to its end. *)
Definition finishes (r : R) d : Prop := ∃ l, d_client (run_turns cl sv l d) = RetF r.

Lemma finishes_after l r d : finishes r (run_turns cl sv l d) → finishes r d.
Proof. intros [l' Hl]. exists (l ++ l'). unfold run_turns in *. by rewrite foldl_app. Qed.

Lemma finishes_client r c s w e b : alone_c (c, uw_bss w) (e, b) → finishes r (mk_duo e s (with_bss b w)) → finishes r (mk_duo c s w).
Proof. intros Hs Hf. destruct (client_alone c s w e b Hs) as [l Hl]. apply (finishes_after l). by rewrite Hl. Qed.

Lemma finishes_server r c s w e f : alone_s (s, uw_files w) (e, f) → finishes r (mk_duo c e (with_files f w)) → finishes r (mk_duo c s w).
Proof. intros Hs Hf. destruct (server_alone c s w e f Hs) as [l Hl]. apply (finishes_after l). by rewrite Hl. Qed.

Lemma finishes_turn who r d : finishes r (turn cl sv d who) → finishes r d.
Proof. apply (finishes_after [who]). Qed.

Section finish.
Context (r : R) (b' : user_bss) (f' : F).

Definition calm_finishes (n : nat) : Prop := ∀ c s w f,
  dialogue cl sv ks n c (uw_bss w) f r b' f' → alone_s (s, uw_files w) (idle, f) → shape cl sv n n [] [] w → finishes r (mk_duo c s w).

Lemma answered_finishes n c s w b2 f kr rtype reply :
  calm_finishes n → alone_c (c, uw_bss w) (VisF SysRecv kr, b2) →
  dialogue cl sv ks n (observe (kr (rtype, user_msg sv rtype reply))) b2 f r b' f' →
  alone_s (s, uw_files w) (idle, f) → shape cl sv n n [user_msg sv rtype reply] [] w → finishes r (mk_duo c s w).
Proof using Hne.
  intros IH Hc Hd Hs Hsh. apply (finishes_client r c s w _ _ Hc), (finishes_turn true). cbn [turn d_client d_world d_server].
  apply (shape_same _ _ _ _ _ _ w (with_bss b2 w)) in Hsh; [|done..].
  destruct (shape_recv _ _ _ _ _ _ _ _ Hne Hsh) as (w' & E & Hsh' & Eb & Ef). rewrite (step_recv _ _ _ _ _ E).
  by apply (IH _ _ _ f); rewrite ?Eb, ?Ef.
Qed.

Lemma served_finishes n c s w b2 f1 kr rtype reply k :
  calm_finishes n → alone_c (c, uw_bss w) (VisF SysRecv kr, b2) → sendable rtype reply →
  dialogue cl sv ks n (observe (kr (rtype, user_msg sv rtype reply))) b2 f1 r b' f' →
  alone_s (s, uw_files w) (VisF (SysSend cl rtype reply) k, f1) → (∀ x, alone_s (observe (k x), f1) (idle, f1)) →
  shape cl sv n (S n) [] [] w → finishes r (mk_duo c s w).
Proof using Hne Hsv.
  intros IH Hc Hok Hd Hs Hk Hsh. apply (finishes_server r c s w _ _ Hs), (finishes_turn false). cbn [turn d_client d_world d_server].
  apply shape_swap, (shape_same _ _ _ _ _ _ w (with_files f1 w)) in Hsh; [|done..].
  destruct (shape_send sv cl n n [] _ rtype reply (not_eq_sym Hne) Hsv Hsh Hok) as (w' & E & Hsh' & Eb & Ef).
  rewrite (step_send _ _ _ _ _ _ _ _ E). apply (answered_finishes n _ _ _ b2 f1 kr rtype reply); rewrite ?Eb, ?Ef; [done|done|done|apply Hk|by apply shape_swap].
Qed.

Lemma asked_finishes n c s w b2 f f1 kr m rtype reply :
  calm_finishes n → alone_c (c, uw_bss w) (VisF SysRecv kr, b2) → answers cl sv ks f m rtype reply f1 →
  dialogue cl sv ks n (observe (kr (rtype, user_msg sv rtype reply))) b2 f1 r b' f' →
  alone_s (s, uw_files w) (idle, f) → shape cl sv n (S n) [] [m] w → finishes r (mk_duo c s w).
Proof using Hne Hsv.
  intros IH Hc (Hok & k & Hk1 & Hk2) Hd Hs Hsh. apply (finishes_server r c s w _ _ Hs), (finishes_turn false). cbn [turn d_client d_world d_server].
  apply shape_swap, (shape_same _ _ _ _ _ _ w (with_files f w)) in Hsh; [|done..].
  destruct (shape_recv _ _ _ _ _ _ _ _ (not_eq_sym Hne) Hsh) as (w' & E & Hsh' & Eb & Ef).
  unfold UserWorld.idle. rewrite (step_recv _ _ _ _ _ E).
  apply (served_finishes n _ _ _ b2 f1 kr rtype reply k); rewrite ?Eb, ?Ef; try done. by apply shape_swap.
Qed.

Lemma calm_finishes_all n : calm_finishes n.
Proof using Hne Hcl Hsv.
  induction n as [|n IH]; intros c s w f Hd Hs Hsh.
  - inversion Hd as [? ? ? ? ? Hc|]; subst. apply (finishes_client r c s w _ _ Hc). by exists [].
  - inversion Hd as [|? ? ? b1 b2 ? f1 ? ? ? type text k kr rtype reply Hc Hok Hk Hw Ha Hd']; subst.
    apply (finishes_client r c s w _ _ Hc), (finishes_turn true). cbn [turn d_client d_world d_server].
    apply (shape_same _ _ _ _ _ _ w (with_bss b1 w)) in Hsh; [|done..].
    destruct (shape_send cl sv n (S n) [] _ type text Hne Hcl Hsh Hok) as (w' & E & Hsh' & Eb & Ef).
    rewrite (step_send _ _ _ _ _ _ _ _ E).
    by apply (asked_finishes n _ _ _ b2 f f1 kr (user_msg cl type text) rtype reply); rewrite ?Eb, ?Ef.
Qed.

Lemma stage_finishes d : stage r b' f' d → finishes r d.
Proof using Hne Hcl Hsv.
  destruct 1; [by eapply calm_finishes_all|eapply asked_finishes|eapply served_finishes|eapply answered_finishes];
    try done; apply calm_finishes_all.
Qed.

Lemma stage_result d r1 :
  stage r b' f' d → d_client d = RetF r1 →
  r1 = r ∧ uw_bss (d_world d) = b' ∧ alone_s (d_server d, uw_files (d_world d)) (idle, f').
Proof.
  intros Hd Hr. destruct Hd as [n c s w f Hd Hs Hsh|n c s w b2 f f1 kr m rtype reply Hc Hw Ha Hd Hs Hsh
    |n c s w b2 f1 kr rtype reply k Hc Hw Hok Hd Hs Hk Hsh|n c s w b2 f kr rtype reply Hc Hw Hd Hs Hsh]; cbn in Hr; subst c.
  - destruct (dialogue_first _ _ _ _ _ _ _ Hd) as [(c1 & b1 & E & _)|[(E & -> & -> & _)|H0]]; [done| |].
    + by injection E.
    + destruct H0 as (? & ? & ? & ? & ? & ? & ? & ? & ? & _ & E & _). discriminate E.
  - destruct (steps_first _ _ _ _ _ Hc) as [[? _]|(? & ? & ? & _)]; done.
  - destruct (steps_first _ _ _ _ _ Hc) as [[? _]|(? & ? & ? & _)]; done.
  - destruct (steps_first _ _ _ _ _ Hc) as [[? _]|(? & ? & ? & _)]; done.
Qed.

End finish.

(** The outcome of a dialogue under any schedule: what has been returned is the result
    of the dialogue, the service is on its way back to its wait with the tools' state of
    the dialogue, and the client can always be brought to its end. *)
Lemma dialogue_any_schedule n (t : prog R) s w r b' f' l :
  dialogue cl sv ks n (observe t) (uw_bss w) (uw_files w) r b' f' →
  alone_s (s, uw_files w) (idle, uw_files w) → shape cl sv n n [] [] w →
  let d := run_turns cl sv l (mk_duo (observe t) s w) in
  (∀ r1, d_client d = RetF r1 →
     r1 = r ∧ uw_bss (d_world d) = b' ∧ alone_s (d_server d, uw_files (d_world d)) (idle, f'))
  ∧ ∃ l', d_client (run_turns cl sv l' d) = RetF r.
Proof using Hne Hcl Hsv Hidle.
  intros Hd Hs Hsh d. assert (stage r b' f' d) as Hst by (apply stage_turns; by eapply stage_calm).
  split; [intros r1; by eapply stage_result|by eapply stage_finishes].
Qed.

End schedule.
