(* ===== verification/SvcCalls.v ===== *)
(** * Clients and services together

    The exchanges of agent_svc.c with the service agents, side by side in a world and
    under any schedule. *)

From ITree Require Import Core.ITreeDefinition.
From S2P Require Import Prelude Abi Ipc Quota Paths Vm Kernel Agent LibAgent AgentSvc ServiceAgents SvcProtocol UserWorld.

(** ** Waiting for a message *)

Section runs.
Context {W : Type} `{World W} (self : Z).

(** [t] comes to the call [e], and goes on with [k]. *)
Definition upto {R A} (t : prog R) (w : W) (e : sysE A) (k : A → prog R) (w' : W) : Prop :=
  steps self (observe t, w) (VisF e k, w').

Lemma upto_bind {R T A} (t : prog R) (h : R → prog T) w (e : sysE A) k w' :
  upto t w e k w' → upto (ITree.bind t h) w e (λ x, ITree.bind (k x) h) w'.
Proof. intros Ht. apply (steps_bind self _ _ h) in Ht. cbn [fst snd] in Ht. unfold upto. rewrite !observe_bind in *. exact Ht. Qed.

Lemma upto_after {R T A} (t : prog R) (h : R → prog T) w x w1 (e : sysE A) k w' :
  exec self t w x w1 → upto (h x) w1 e k w' → upto (ITree.bind t h) w e k w'.
Proof. intros Ht Hh. eapply steps_trans; [by apply exec_comes|exact Hh]. Qed.

Lemma upto_iter {I R A} (body : I → prog (I + R)) i w (e : sysE A) k w' :
  upto (ITree.bind (body i) (λ lr, match lr with inl l => Tau (ITree.iter body l) | inr r => give r end)) w e k w' →
  upto (ITree.iter body i) w e k w'.
Proof. unfold upto. by rewrite observe_iter. Qed.

(** [t] waits for a message; when it is [m], [t] returns [r]. *)
Definition receives {R} (t : prog R) (w : W) (m : agent_msg) (r : R) (w' : W) : Prop :=
  ∃ kr w1, upto t w SysRecv kr w1 ∧ (∀ m', upto (kr (EAGAIN, m')) w1 SysRecv kr w1) ∧ exec self (kr (mtype m, m)) w1 r w'.

Lemma receives_bind {R T} (t : prog R) (h : R → prog T) w m x w1 r w2 :
  receives t w m x w1 → exec self (h x) w1 r w2 → receives (ITree.bind t h) w m r w2.
Proof.
  intros (kr & w0 & Hu & Hw & He) Hh. exists (λ x, ITree.bind (kr x) h), w0.
  split; [by apply upto_bind|]. split; [intros m'; by apply upto_bind|]. by eapply exec_bind.
Qed.

Lemma receives_after {R T} (t : prog R) (h : R → prog T) w m x w1 r w2 :
  exec self t w x w1 → receives (h x) w1 m r w2 → receives (ITree.bind t h) w m r w2.
Proof. intros Ht (kr & w0 & Hu & Hw & He). exists kr, w0. split; [by eapply upto_after|done]. Qed.

Lemma receives_iter {I R} (body : I → prog (I + R)) i w m r w' :
  receives (body i) w m (inr r) w' → receives (ITree.iter body i) w m r w'.
Proof.
  intros Hb. apply (receives_bind _ (λ lr, match lr with inl l => Tau (ITree.iter body l) | inr r => give r end) _ _ _ _ r w') in Hb;
    [|apply exec_give].
  destruct Hb as (kr & w0 & Hu & Hw & He). exists kr, w0. split; [by apply upto_iter|done].
Qed.

(** The waiting loop, when a yield returns and changes nothing. *)
Context (Hyield : ∀ w, respond self SysYield w = Some (tt, w)).

Definition recv_kr (r : Z * agent_msg) : prog (Z * agent_msg) :=
  ITree.bind (ITree.bind (give r) (λ r, if r.1 =? EAGAIN then agent_yield ;* give (inl tt) else give (inr r)))
    (λ lr, match lr with
           | inl l => Tau (ITree.iter (λ _ : unit, let* r := call SysRecv in
                                         if r.1 =? EAGAIN then agent_yield ;* give (inl tt) else give (inr r)) l)
           | inr r => give r
           end).

Lemma recv_upto w : upto agent_recv_msg w SysRecv recv_kr w.
Proof. apply steps_refl. Qed.

Lemma recv_again w m : upto (recv_kr (EAGAIN, m)) w SysRecv recv_kr w.
Proof using Hyield.
  eapply steps_cons; [unfold step; cbn; by rewrite Hyield|]. eapply steps_cons; [reflexivity|]. apply recv_upto.
Qed.

Lemma recv_done w rc m : rc ≠ EAGAIN → exec self (recv_kr (rc, m)) w (rc, m) w.
Proof.
  intros Hr. unfold recv_kr. apply (exec_bind _ _ _ _ (inr (rc, m)) w); [|apply exec_give].
  eapply exec_bind; [apply exec_give|]. cbn [fst]. test_false (rc =? EAGAIN). apply exec_give.
Qed.

Lemma receives_recv w m : mtype m ≠ EAGAIN → receives agent_recv_msg w m (mtype m, m) w.
Proof using Hyield.
  intros Hm. exists recv_kr, w. split; [apply recv_upto|]. split; [apply recv_again|]. by apply recv_done.
Qed.

End runs.

(** ** The client's side *)

Section client.
Context (cl sv : Z).
Implicit Types b : user_bss.

Lemma exec_load f b : exec cl (load f) b (f b) b.
Proof. by apply exec_call. Qed.

Lemma exec_load_msg f b : exec cl (call (LoadMsg f)) b (f b) b.
Proof. by apply exec_call. Qed.

Lemma exec_store f b : exec cl (store f) b tt (f b).
Proof. by apply exec_call. Qed.

Lemma exec_next_id seq ss sp b :
  let n := i32 (seq b + 1) in exec cl (next_id seq ss sp) b n (sp n (ss n b)).
Proof.
  intros n. eapply exec_bind; [apply exec_load|]. eapply exec_bind; [apply exec_store|].
  eapply exec_bind; [apply exec_store|]. apply exec_give.
Qed.

(** Nothing was put aside: the next message is a new one. *)
Lemma next_message_receives m b :
  svc_have_deferred b = 0 → 0 ≤ mtype m → receives cl next_message b m 0 (set_svc_ipc_msg m b).
Proof.
  intros Hd Hm. eapply receives_after; [apply exec_load|]. rewrite Hd. cbn.
  eapply receives_bind; [apply receives_recv; [done|unfold EAGAIN; lia]|]. cbn. test_false (mtype m <? 0). eapply exec_bind; [apply exec_store|apply exec_give].
Qed.

Lemma recv_match_receives ty match_id id m off b :
  svc_have_deferred b = 0 → mtype m = ty → 0 ≤ ty → match_id (text_of (payload m)) id = (true, off) →
  receives cl (svc_recv_match ty match_id id) b m (0, off) (set_svc_ipc_msg m b).
Proof.
  intros Hd Ht H0 Hm. apply receives_iter. eapply receives_bind; [by apply next_message_receives; [|rewrite Ht]|].
  cbn. eapply exec_bind; [apply exec_load_msg|]. cbn. rewrite Ht, Z.eqb_refl. cbn. rewrite Hm. apply exec_give.
Qed.

(** The body of a reply, unless it reports an error. *)
Definition reply_body (body : list Z) : option (list Z) := if cmatch body 0 (str "err") then None else Some body.

Lemma await_receives ty match_id pending m off b :
  svc_have_deferred b = 0 → mtype m = ty → 0 ≤ ty → match_id (text_of (payload m)) (pending b) = (true, off) →
  receives cl (await_reply ty match_id pending) b m (reply_body (drop off (text_of (payload m)))) (set_svc_ipc_msg m b).
Proof.
  intros Hd Ht H0 Hm. eapply receives_after; [apply exec_load|]. eapply receives_bind; [by apply recv_match_receives|].
  cbn. eapply exec_bind; [apply exec_load_msg|]. cbn. apply exec_give.
Qed.

(** A program that sends [text] to the service and, when the answer is [m], returns. *)
Definition exchanges {R} (t : prog R) b type text m (r : R) b' : Prop :=
  ∃ k b1, upto cl t b (SysSend sv type text) k b1 ∧ receives cl (k 0) b1 m r b'.

Lemma exchanges_after {R T} (t : prog R) (h : R → prog T) b x b1 type text m r b' :
  exec cl t b x b1 → exchanges (h x) b1 type text m r b' → exchanges (ITree.bind t h) b type text m r b'.
Proof. intros Ht (k & b2 & Hu & Hr). exists k, b2. split; [by eapply upto_after|done]. Qed.

Lemma exchanges_bind {R T} (t : prog R) (h : R → prog T) b type text m x b1 r b' :
  exchanges t b type text m x b1 → exec cl (h x) b1 r b' → exchanges (ITree.bind t h) b type text m r b'.
Proof.
  intros (k & b2 & Hu & Hr) Hh. exists (λ y, ITree.bind (k y) h), b2. split; [by apply upto_bind|]. by eapply receives_bind.
Qed.

Lemma exchanges_send {R} (h : Z → prog R) b type text m r b' :
  cstr_ok text → receives cl (h 0) b m r b' → exchanges (ITree.bind (agent_send_msg sv type text) h) b type text m r b'.
Proof.
  intros Ht Hr. exists (λ x, ITree.bind (give x) h), b. split.
  - unfold agent_send_msg. rewrite text_of_cstr by done. apply steps_refl.
  - eapply receives_after; [apply exec_give|done].
Qed.

(** An exchange is a round of a dialogue. *)
Lemma dialogue_exchange {F} `{Tools F} {R T} (t : prog R) (h : R → prog T) (ks : Z * agent_msg → prog Empty_set) n b b1 type text x
    (f f1 : F) rtype reply r b' f' :
  exchanges t b type text (user_msg sv rtype reply) x b1 → sendable type text →
  answers cl sv ks f (user_msg cl type text) rtype reply f1 →
  dialogue cl sv ks n (observe (h x)) b1 f1 r b' f' →
  dialogue cl sv ks (S n) (observe (ITree.bind t h)) b f r b' f'.
Proof.
  intros (k & b2 & Hu & (kr & b3 & Hr1 & Hr2 & Hr3)) Hok Ha Hd.
  apply (dialogue_ask cl sv ks n _ b b2 b3 f f1 r b' f' type text (λ y, ITree.bind (k y) h) (λ y, ITree.bind (kr y) h) rtype reply).
  - by apply upto_bind.
  - done.
  - by apply (upto_bind cl (k 0) h).
  - intros m. by apply (upto_bind cl (kr (EAGAIN, m)) h).
  - done.
  - eapply dialogue_steps; [|exact Hd]. by apply exec_comes.
Qed.

Lemma exchange_dialogue {F} `{Tools F} {R} (t : prog R) (ks : Z * agent_msg → prog Empty_set) b type text (f f1 : F) rtype reply r b' :
  exchanges t b type text (user_msg sv rtype reply) r b' → sendable type text →
  answers cl sv ks f (user_msg cl type text) rtype reply f1 →
  dialogue cl sv ks 1 (observe t) b f r b' f1.
Proof.
  intros (k & b2 & Hu & (kr & b3 & Hr1 & Hr2 & Hr3)) Hok Ha. eapply dialogue_ask; [exact Hu|done|exact Hr1|exact Hr2|exact Ha|].
  by apply dialogue_end.
Qed.

End client.

(** ** The service's side *)

Section server.
Context {F : Type} `{Tools F} (cl sv : Z) (name : list Z) (handle : agent_msg → unit → prog unit).
Implicit Types f : F.

Definition loop_body (_ : unit) : prog (unit + Empty_set) :=
  let* r := agent_recv_msg in
  if mtype r.2 =? MSG_PIPELINE_DONE then agent_log_str (str "[" ++ name ++ str "] shutdown" ++ [10]) ;* agent_exit 0
  else let* s := handle r.2 tt in give (inl s).

(** How the loop goes on after a message. *)
Definition loop_ks (r : Z * agent_msg) : prog Empty_set :=
  ITree.bind (ITree.bind (recv_kr r) (λ r,
    if mtype r.2 =? MSG_PIPELINE_DONE then agent_log_str (str "[" ++ name ++ str "] shutdown" ++ [10]) ;* agent_exit 0
    else let* s := handle r.2 tt in give (inl s)))
    (λ lr, match lr with inl l => Tau (serve_loop name handle l) | inr r => give r end).

Lemma serve_idle : observe (serve_loop name handle tt) = idle loop_ks.
Proof. reflexivity. Qed.

Lemma loop_idles : idles (F:=F) sv loop_ks.
Proof.
  intros m f. apply (upto_bind sv _ _ f SysRecv _ f). apply (upto_bind sv _ _ f SysRecv _ f). by apply recv_again.
Qed.

(** A handler that ends with one message makes one answer. *)
Lemma serve_answers f m rtype reply k f1 :
  mtype m ≠ MSG_PIPELINE_DONE → mtype m ≠ EAGAIN → sendable rtype reply →
  upto sv (handle m tt) f (SysSend cl rtype reply) k f1 → (∀ x, exec sv (k x) f1 tt f1) →
  answers cl sv loop_ks f m rtype reply f1.
Proof.
  intros Hm Hagain Hok Hu Hk. split; [done|].
  exists (λ x, ITree.bind (ITree.bind (k x) (λ s, give (inl s)))
                 (λ lr, match lr with inl l => Tau (serve_loop name handle l) | inr r => give r end)).
  split.
  - apply upto_bind. eapply upto_after; [by apply recv_done|]. cbn. test_false (mtype m =? MSG_PIPELINE_DONE). by apply upto_bind.
  - intros x. eapply steps_trans; [apply exec_comes; eapply exec_bind; [apply Hk|apply exec_give]|]. by apply steps_once.
Qed.

(** The end of a handler: a reply. *)
Lemma upto_reply type text f :
  cstr_ok text → ∃ k, upto sv (agent_send_msg cl type text ;* give tt) f (SysSend cl type text) k f ∧ ∀ x, exec sv (k x) f tt f.
Proof.
  intros Ht. exists (λ x, ITree.bind (give x) (λ _, give tt)). split.
  - unfold agent_send_msg. rewrite text_of_cstr by done. apply steps_refl.
  - intros x. eapply exec_bind; apply exec_give.
Qed.

Lemma exec_tool tool args f r f1 : tool_call sv tool args f = (r, f1) → exec sv (call (SysTool tool args)) f r f1.
Proof. intros E. apply exec_call. cbn. by rewrite E. Qed.

Lemma exec_log s f : exec sv (agent_log_str s) f tt f.
Proof. by apply exec_call. Qed.

Lemma exec_log_chars l f : exec sv (log_chars l) f tt f.
Proof. induction l as [|c l IH]; [apply exec_give|]. eapply exec_bind; [apply exec_log|done]. Qed.

Lemma exec_log_int n f : exec sv (agent_log_int n) f tt f.
Proof.
  unfold agent_log_int. eapply exec_bind; [destruct (n <? 0); [apply exec_log|apply exec_give]|].
  cbn. destruct (_ =? 0); [apply exec_log|apply exec_log_chars].
Qed.

End server.

Lemma sendable_rsp type letter id body :
  type ≠ MSG_STEER → 0 < letter < 256 → 0 ≤ id < 2147483648 → cstr_ok body → sendable type (format_rsp letter id body).
Proof. intros Ht Hl Hi Hb. destruct (format_rsp_ok letter id body Hl Hi Hb) as [_ Hz]. split; [done|]. split; [|done]. by rewrite format_rsp_id by lia. Qed.

(** ** Storage *)

(** The file tools of the agent [sv]: reading gives the beginning of a file, writing
    overlays it.  [ft_ok n f p]: the agent may use the path [p] for [n] more calls. *)
Class FileTools (F : Type) `{Tools F} (sv : Z) := {
  ft_get : F → list Z → option (list Z);
  ft_ok : nat → F → list Z → Prop;
  ft_read : ∀ k f p n, ft_ok (S k) f p → 0 < n ≤ 512 → ∃ f',
    tool_call sv TOOL_READ [TStr p; TBuf n; TInt n] f
    = (match ft_get f p with None => (ENOENT, []) | Some c => (Z.min n (zlen c), take (Z.to_nat n) c) end, f')
    ∧ ft_ok k f' p ∧ ft_get f' p = ft_get f p;
  ft_write : ∀ k f p d, ft_ok (S k) f p → bytes_ok d → 0 < zlen d ≤ 511 → ∃ f',
    tool_call sv TOOL_WRITE [TStr p; TBytes d; TInt (zlen d)] f = ((zlen d, []), f') ∧ ft_ok k f' p
    ∧ ft_get f' p = Some (d ++ drop (length d) (default [] (ft_get f p)))
}.

Section storage.
Context {F : Type} `{Tools F} (cl sv : Z) `{!FileTools F sv}.
Abbreviation ks := (loop_ks (str "storage") storage.storage_handle).
Implicit Types f : F.

(** What a reader gets of a file: 199 bytes at most, up to the first NUL. *)
Definition file_text (c : list Z) : list Z := text_of (take 199 c).

(** The body of the reply to a read. *)
Definition read_body f (path : list Z) : list Z :=
  match ft_get f path with None => str "err:read" | Some c => file_text c end.

Lemma storage_read_answers n f id path :
  id_ok id → cstr_ok path → zlen path ≤ 63 → ft_ok (S n) f path → cstr_ok (read_body f path) →
  ∃ f', answers cl sv ks f (user_msg cl MSG_FS_READ (chr "R" :: dec id ++ chr "|" :: path)) MSG_FS_RSP
          (format_rsp (chr "R") id (read_body f path)) f'
    ∧ ft_ok n f' path ∧ ft_get f' path = ft_get f path.
Proof.
  intros Hi Hp Hl Hok Ht. unfold id_ok in Hi. pose proof (zlen_dec_id id ltac:(lia)).
  assert (text_ok (chr "R" :: dec id ++ chr "|" :: path)) as Htext.
  { split; [constructor; [done|apply cstr_ok_app; [apply dec_cstr|by constructor]]|].
    rewrite zlen_cons, zlen_app, zlen_cons. unfold MSG_PAYLOAD_SIZE. lia. }
  destruct (ft_read n f path 199 Hok ltac:(lia)) as (f' & Et & Hf'). exists f'. split; [|done].
  destruct (upto_reply cl sv MSG_FS_RSP (format_rsp (chr "R") id (read_body f path)) f') as (k & Hk1 & Hk2).
  { by apply format_rsp_ok; [done|lia|]. }
  apply (serve_answers cl sv _ _ _ _ _ _ k); [done|done|by apply sendable_rsp; [done|done|lia|]| |done].
  unfold storage.storage_handle. cbn [mtype user_msg sender_id]. rewrite Z.eqb_refl, request_text_user by done.
  unfold storage.handle_read. rewrite numbered_text by (lia || by left). rewrite take_ge by (unfold zlen in *; lia).
  eapply upto_after; [apply exec_tool, Et|].
  unfold storage.storage_reply, storage.format_fs_rsp, read_body in *. test_false (id <=? 0).
  destruct (ft_get f path) as [c|]; cbn beta iota; [|done]. pose proof (zlen_nonneg c).
  test_false (Z.min 199 (zlen c) <? 0). test_false (200 <=? Z.min 199 (zlen c)).
  replace (text_of (take (Z.to_nat (Z.min 199 (zlen c))) (take (Z.to_nat 199) c))) with (file_text c); [done|].
  unfold file_text. f_equal. rewrite take_take. unfold zlen.
  destruct (decide (length c ≤ 199)%nat); [rewrite !take_ge by lia; done|f_equal; lia].
Qed.

Lemma request_ok (c : string) id rest :
  id_ok id → 0 < chr c < 256 → cstr_ok rest → zlen rest ≤ 211 → text_ok (chr c :: dec id ++ chr "|" :: rest).
Proof.
  intros Hi Hc Hr Hl. unfold id_ok in Hi. pose proof (zlen_dec_id id ltac:(lia)). split.
  - constructor; [done|]. apply cstr_ok_app; [apply dec_cstr|by constructor].
  - rewrite zlen_cons, zlen_app, zlen_cons. unfold MSG_PAYLOAD_SIZE. lia.
Qed.

(** What the service keeps of the data of a write. *)
Definition kept (data : list Z) : list Z := take 127 data.

Lemma kept_length data : zlen (kept data) = Z.min 127 (zlen data).
Proof. unfold kept. rewrite zlen_take. lia. Qed.

Lemma storage_write_answers n f id path data :
  id_ok id → cstr_ok path → no_bar path → zlen path ≤ 63 → cstr_ok data → 0 < zlen data → zlen path + zlen data ≤ 200 → ft_ok (S n) f path →
  ∃ f', answers cl sv ks f (user_msg cl MSG_FS_WRITE (chr "W" :: dec id ++ chr "|" :: path ++ chr "|" :: data)) MSG_FS_RSP
          (format_rsp (chr "R") id (str "ok")) f'
    ∧ ft_ok n f' path ∧ ft_get f' path = Some (kept data ++ drop (length (kept data)) (default [] (ft_get f path))).
Proof.
  intros Hi Hp Hb Hl Hd Hn Hfit Hok. pose proof (request_ok "W" id (path ++ chr "|" :: data) Hi) as Htext. unfold id_ok in Hi.
  specialize (Htext ltac:(done)). pose proof (kept_length data) as Hkl.
  destruct (ft_write n f path (kept data) Hok) as (f' & Et & Hok' & Hget); [|lia|].
  { apply Forall_take. eapply Forall_impl; [exact Hd|]. cbn. unfold byte_ok. lia. }
  exists f'. split; [|done].
  destruct (upto_reply cl sv MSG_FS_RSP (format_rsp (chr "R") id (str "ok")) f') as (k & Hk1 & Hk2).
  { apply format_rsp_ok; [done|lia|solve_bytes]. }
  apply (serve_answers cl sv _ _ _ _ _ _ k); [done|done|apply sendable_rsp; [done|done|lia|solve_bytes]| |done].
  unfold storage.storage_handle. cbn [mtype user_msg sender_id]. change (MSG_FS_WRITE =? MSG_FS_READ) with false. rewrite Z.eqb_refl.
  rewrite request_text_user by (apply Htext; [apply cstr_ok_app; [done|by constructor]|rewrite zlen_app, zlen_cons; lia]).
  unfold storage.handle_write. rewrite numbered_text by (lia || by right). rewrite before_app by done.
  rewrite zlen_app, zlen_cons. test_false (zlen path =? zlen path + (1 + zlen data)).
  assert (drop (S (length path)) (path ++ chr "|" :: data) = data) as ->.
  { rewrite cons_middle, app_assoc. replace (S (length path)) with (length (path ++ [chr "|"])) by (rewrite length_app; cbn; lia).
    by rewrite drop_app_length. }
  fold (kept data). rewrite (take_ge path) by (unfold zlen in *; lia).
  eapply upto_after; [unfold agent_write_file, tool_rc; eapply exec_bind; [by apply exec_tool|apply exec_give]|].
  cbn [fst]. test_false (zlen (kept data) <? 0). unfold storage.storage_reply, storage.format_fs_rsp. by test_false (id <=? 0).
Qed.

End storage.

(** ** The calls of the storage service *)

Section storage_calls.
Context (cl : Z).
Implicit Types b : user_bss.
Abbreviation sv := STORAGE_AGENT_ID.

(** The text and the body that a client finds in a reply. *)
Lemma reply_text letter id body :
  0 < letter < 256 → 0 ≤ id < 2147483648 → cstr_ok body →
  text_of (payload (user_msg sv MSG_FS_RSP (format_rsp letter id body))) = format_rsp letter id body.
Proof. intros. cbn [user_msg payload]. by apply text_of_pad, format_rsp_ok. Qed.

Definition after_read (id : Z) (reply : list Z) b : user_bss :=
  set_svc_ipc_msg (user_msg sv MSG_FS_RSP reply) (set_svc_read_pending_id id (set_svc_read_seq id b)).

(** What a caller with a buffer of [len] characters gets of the body of a reply: a body
    that begins with "err" is an error. *)
Definition client_reads (body : list Z) (len : Z) : Z * list Z :=
  if cmatch body 0 (str "err") then (-1, []) else (Z.min (len - 1) (zlen body), take (Z.to_nat (len - 1)) body).

Lemma store_client_reads {W} `{World W} body len (w : W) :
  0 < len →
  exec cl (match reply_body body with None => give (-1, []) | Some body => store_body body len end) w (client_reads body len) w.
Proof.
  intros Hlen. unfold client_reads, reply_body. destruct (cmatch body 0 (str "err")); [apply exec_give|]. unfold store_body.
  assert ((if len <=? zlen body then len - 1 else zlen body) = Z.min (len - 1) (zlen body)) as -> by (case_test; bprop; lia).
  pose proof (zlen_nonneg body). test_false (Z.min (len - 1) (zlen body) <? 0).
  replace (take (Z.to_nat (len - 1)) body) with (take (Z.to_nat (Z.min (len - 1) (zlen body))) body); [apply exec_give|].
  unfold zlen in *. destruct (decide (len - 1 ≤ Z.of_nat (length body))); [f_equal; lia|rewrite !take_ge by lia; done].
Qed.

Lemma svc_read_exchanges path len body b :
  let id := svc_read_seq b + 1 in
  0 ≤ svc_read_seq b < 2147483647 → svc_have_deferred b = 0 → cstr_ok path → zlen path ≤ 200 → cstr_ok body → 0 < len →
  exchanges cl sv (agent_svc_read path len) b MSG_FS_READ (chr "R" :: dec id ++ chr "|" :: path)
    (user_msg sv MSG_FS_RSP (format_rsp (chr "R") id body))
    (client_reads (body_cut id body) len) (after_read id (format_rsp (chr "R") id body) b).
Proof.
  intros id Hs Hdef Hp Hl Hb Hlen. assert (id_ok id) as Hid by (unfold id_ok, id; lia). unfold id_ok in Hid.
  eapply exchanges_after; [apply exec_next_id|]. rewrite i32_small by lia. fold id. rewrite read_req_text by done.
  apply exchanges_send; [by apply (request_ok "R"); [..|lia]|]. change (negb (0 =? 0)) with false. cbn iota.
  eapply receives_bind.
  - apply await_receives; [done|done|done|]. rewrite reply_text by (done || lia).
    rewrite parse_fs_reply, parse_reply by lia. cbn [svc_read_pending_id svc_write_pending_id set_svc_read_pending_id set_svc_write_pending_id]. by rewrite Z.eqb_refl.
  - rewrite reply_text, drop_reply by (done || lia). by apply store_client_reads.
Qed.

Definition after_write (id : Z) (reply : list Z) b : user_bss :=
  set_svc_ipc_msg (user_msg sv MSG_FS_RSP reply) (set_svc_write_pending_id id (set_svc_write_seq id b)).

Lemma svc_write_exchanges path data b :
  let id := svc_write_seq b + 1 in
  0 ≤ svc_write_seq b < 2147483647 → svc_have_deferred b = 0 → cstr_ok path → cstr_ok data → zlen path + zlen data ≤ 200 →
  exchanges cl sv (agent_svc_write path data (zlen data)) b MSG_FS_WRITE (chr "W" :: dec id ++ chr "|" :: path ++ chr "|" :: data)
    (user_msg sv MSG_FS_RSP (format_rsp (chr "R") id (str "ok"))) (zlen data)
    (after_write id (format_rsp (chr "R") id (str "ok")) b).
Proof.
  intros id Hs Hdef Hp Hd Hl. assert (id_ok id) as Hid by (unfold id_ok, id; lia). unfold id_ok in Hid.
  pose proof (zlen_dec_id id ltac:(lia)).
  eapply exchanges_after; [apply exec_next_id|]. rewrite i32_small by lia. fold id. rewrite write_req_text by done.
  apply exchanges_send; [apply (request_ok "W"); [done|done|apply cstr_ok_app; [done|by constructor]|rewrite zlen_app, zlen_cons; lia]|]. change (negb (0 =? 0)) with false. cbn iota.
  eapply receives_bind.
  - apply await_receives; [done|done|done|]. rewrite reply_text by (done || lia || solve_bytes).
    rewrite parse_fs_reply, parse_reply by lia. cbn [svc_read_pending_id svc_write_pending_id set_svc_read_pending_id set_svc_write_pending_id]. by rewrite Z.eqb_refl.
  - rewrite reply_text, drop_reply by (done || lia || solve_bytes).
    assert (body_cut id (str "ok") = str "ok") as -> by (unfold body_cut; apply take_ge; cbn; unfold MSG_PAYLOAD_SIZE; lia).
    apply exec_give.
Qed.

End storage_calls.

(** A client that writes a file and reads it back. *)
Definition write_then_read (path data : list Z) (len : Z) : prog (Z * (Z * list Z)) :=
  let* rc := agent_svc_write path data (zlen data) in
  let* r := agent_svc_read path len in
  give (rc, r).

Definition storage_service : prog Empty_set := serve_loop (str "storage") storage.storage_handle tt.

Lemma text_of_bytes l : bytes_ok l → cstr_ok (text_of l).
Proof.
  intros Hl. unfold text_of. induction Hl as [|c l Hc _ IH]; [constructor|]. cbn. unfold byte_ok in Hc. case_test; [constructor|]. bprop.
  destruct (cstr_of l) as [s|]; cbn in *; (constructor; [lia|done]).
Qed.

Lemma body_cut_file id c : 0 ≤ id < 2147483648 → body_cut id (file_text c) = file_text c.
Proof.
  intros Hi. pose proof (zlen_dec_id id Hi). apply take_ge. unfold MSG_PAYLOAD_SIZE.
  assert (length (file_text c) ≤ 199)%nat; [|lia]. unfold file_text, text_of. destruct (cstr_of (take 199 c)) as [s|] eqn:E; cbn.
  - enough (∀ l s, cstr_of l = Some s → (length s ≤ length l)%nat) as Hlen by (apply Hlen in E; rewrite length_take in E; lia).
    induction l as [|x l IH]; intros s0; cbn; [done|]. case_test; [intros [= <-]; cbn; lia|].
    destruct (cstr_of l) as [s1|]; cbn; [|done]. intros [= <-]. cbn. specialize (IH s1 eq_refl). lia.
  - rewrite length_take. lia.
Qed.

(** ** One call under any schedule *)

Section one_call.
Context {F : Type} `{Tools F} {R : Type} (cl sv : Z) (name : list Z) (handle : agent_msg → unit → prog unit).
Context (Hcl : 0 ≤ cl < MAX_AGENTS) (Hsv : 0 ≤ sv < MAX_AGENTS) (Hne : cl ≠ sv).
Implicit Types (w : uworld F) (d : @duo F R).

(** The client's call [t] and the service, from the world [w] on: under every schedule
    the call gives [r] and nothing else, leaves the tools' state [f'], and can be brought
    to its end. *)
Definition call_gives (t : prog R) w (r : R) (f' : F) : Prop :=
  ∀ l, let d := run_turns cl sv l (mk_duo (observe t) (observe (serve_loop name handle tt)) w) in
  (∀ r1, d_client d = RetF r1 → r1 = r ∧ steps sv (d_server d, uw_files (d_world d)) (idle (loop_ks name handle), f'))
  ∧ ∃ l', d_client (run_turns cl sv l' d) = RetF r.

Lemma one_call (t : prog R) w type text rtype reply r b' f' :
  shape cl sv 1 1 [] [] w → exchanges cl sv t (uw_bss w) type text (user_msg sv rtype reply) r b' → sendable type text →
  answers cl sv (loop_ks name handle) (uw_files w) (user_msg cl type text) rtype reply f' →
  call_gives t w r f'.
Proof using Hcl Hsv Hne.
  intros Hsh Hx Hok Ha l.
  destruct (dialogue_any_schedule (F:=F) cl sv (loop_ks name handle) Hne Hcl Hsv (loop_idles _ _ _) 1 t (idle (loop_ks name handle)) w r b' f' l)
    as [Hres Hfin]; [by eapply exchange_dialogue|apply steps_refl|done|].
  split; [|done]. intros r1 Hr. by apply Hres in Hr as (-> & _ & ?).
Qed.

(** A service that has used up its sends never answers. *)
Lemma mute_call (t : prog R) w type text rtype reply r b' f' l r1 :
  shape cl sv 1 0 [] [] w → QUOTA_IPC_MAX ≤ quota_ipc_used (uw_quota w) (Some sv) →
  exchanges cl sv t (uw_bss w) type text (user_msg sv rtype reply) r b' → sendable type text →
  answers cl sv (loop_ks name handle) (uw_files w) (user_msg cl type text) rtype reply f' →
  d_client (run_turns cl sv l (mk_duo (observe t) (observe (serve_loop name handle tt)) w)) ≠ RetF r1.
Proof using Hcl Hsv Hne.
  intros Hsh Hq (k & b2 & Hu & (kr & b3 & Hr1 & Hr2 & Hr3)) Hok Ha.
  apply (mute_turns cl sv (loop_ks name handle) Hne Hcl Hsv (loop_idles _ _ _)).
  eapply mute_before; [exact Hu|done|exact Hr1|exact Hr2|exact Ha|apply steps_refl|done|done].
Qed.

End one_call.
