(* ===== verification/GateTools.v ===== *)
(** * The file tools behind the gateway

    What the gateway of Tool.v does for the read and the write tool, on the part of the
    kernel state that it needs ([gstate]): the tool quota, the deny list, the capability,
    the decision on the path, the limit on new files, the file system, the audit record
    and the charge.  A string and a buffer are given as they are; UserKernel.v relates
    these calls to the kernel's, which copy from and to user memory.  They satisfy
    [FileTools], so that what is proved of the storage service holds behind the gateway. *)

From S2P Require Import Prelude Abi Ipc Ramfs Quota Policy AuditLog AgentDef Paths Vm Kernel Agent Tool LibAgent UserWorld SvcCalls.

Record gstate := mk_gs { g_caps : Z → Z; g_fs : ramfs; g_quota : quota; g_policy : policy }.

Definition g_with_fs (fs : ramfs) (g : gstate) : gstate := mk_gs (g_caps g) fs (g_quota g) (g_policy g).
Definition g_with_quota (q : quota) (g : gstate) : gstate := mk_gs (g_caps g) (g_fs g) q (g_policy g).
Definition g_onfs {A} (m : M ramfs A) : M gstate A := zoom g_fs g_with_fs m.
Definition g_log (self tool rc : Z) : M gstate unit := g_onfs (audit_log (Some self) tool rc).

(** The first refusal on the way to a file tool. *)
Definition g_gate (self tool : Z) (g : gstate) : Z :=
  if QUOTA_TOOL_MAX <=? quota_tool_used (g_quota g) (Some self) then ENOSPC
  else if deny_has (g_policy g) tool then EPERM
  else if has CAP_FS (g_caps g self) then 0 else EPERM.

(** A file tool with the result [check] of its check; a refusal is recorded but not charged. *)
Definition file_tool (self tool : Z) (check : gstate → Z) (run : M ramfs (Z * list Z)) : M gstate (Z * list Z) :=
  let! rc := gets (g_gate self tool) in
  let! crc := gets check in
  let refusal := if negb (rc =? 0) then rc else crc in
  if negb (refusal =? 0) then g_log self tool refusal ;; ret (refusal, [])
  else
    let! r := g_onfs run in
    g_log self tool r.1 ;;
    modify (λ g, g_with_quota (quota_tool_charge (Some self) (g_quota g)) g) ;;
    ret r.

Definition svc_storage (self : Z) (g : gstate) : bool := has CAP_SVC_STORAGE (g_caps g self).

Definition check_read (self : Z) (p : list Z) (g : gstate) : Z :=
  if zlen p <=? 0 then EINVAL else fs_read_policy (svc_storage self g) self p.

Definition check_write (self : Z) (p : list Z) (g : gstate) : Z :=
  if zlen p <=? 0 then EINVAL else fs_write_policy (svc_storage self g) self p.

Definition read_file (p : list Z) (len : Z) : M ramfs (Z * list Z) :=
  gets (λ fs, if (len <=? 0) || (IO_MAX <? len) then (EINVAL, []) else ramfs_read fs p 0 len).

Definition write_file (self : Z) (p d : list Z) (len : Z) : M ramfs (Z * list Z) :=
  if (len <=? 0) || (IO_MAX <? len) then ret (EINVAL, [])
  else
    let! rc := quota_fs_allow_new (Some self) p in
    if negb (rc =? 0) then ret (rc, [])
    else let! n := ramfs_write p 0 d len in ret (n, []).

Definition tool_read (self : Z) (p : list Z) (len : Z) : M gstate (Z * list Z) :=
  file_tool self TOOL_READ (check_read self p) (read_file p len).

Definition tool_write (self : Z) (p d : list Z) (len : Z) : M gstate (Z * list Z) :=
  file_tool self TOOL_WRITE (check_write self p) (write_file self p d len).

(** The other calls are refused: the storage service does not make them. *)
#[export] Instance gate_tools : Tools gstate := {|
  tool_call self tool args g :=
    let run m := match m g with Ret (r, g') => (r, g') | _ => ((EPERM, []), g) end in
    match args with
    | [TStr p; TBuf _; TInt n] => if tool =? TOOL_READ then run (tool_read self p n) else ((EPERM, []), g)
    | [TStr p; TBytes d; TInt n] => if tool =? TOOL_WRITE then run (tool_write self p d n) else ((EPERM, []), g)
    | _ => ((EPERM, []), g)
    end;
  llm_call _ _ _ g := ((EPERM, []), g);
  misc_call _ _ g := (EPERM, g)
|}.

(** ** What an agent may use *)

(** The agent [self] may read and write the path [p] for [n] more calls; the room for a
    new file is there whatever the audit log takes. *)
Record served (self : Z) (n : nat) (g : gstate) (p : list Z) : Prop := {
  sv_fs : ramfs_wf (g_fs g);
  sv_self : 0 ≤ self < MAX_AGENTS;
  sv_path : path_ok p;
  sv_some : p ≠ [];
  sv_read : fs_read_policy (svc_storage self g) self p = 0;
  sv_write : fs_write_policy (svc_storage self g) self p = 0;
  sv_cap : has CAP_FS (g_caps g self) = true;
  sv_allowed : deny_has (g_policy g) TOOL_READ = false ∧ deny_has (g_policy g) TOOL_WRITE = false;
  sv_quota : quota_wf (g_quota g);
  sv_calls : quota_tool_used (g_quota g) (Some self) + Z.of_nat n ≤ QUOTA_TOOL_MAX;
  sv_new : ∀ fs, only_log self (g_fs g) fs → quota_fs_allow_new (Some self) p fs = Ret (0, fs) ∧ (fs_get fs p = None → ¬ fs_full fs)
}.

(** A path that may be written is not the agent's log. *)
Lemma served_not_log self n g p : served self n g p → p ≠ log_path self.
Proof. intros Hs ->. pose proof (sv_write _ _ _ _ Hs) as Hw. done. Qed.

Lemma quota_existing a p fs c : fs_get fs p = Some c → quota_fs_allow_new (Some a) p fs = Ret (0, fs).
Proof.
  intros Hg. unfold quota_fs_allow_new. destruct (parse_agent_path_id p) as [id|]; [|done]. case_test; [done|].
  unfold bind, gets, ramfs_path_exists, lookup. apply fs_get_Some in Hg as (i & f & Hs & _). unfold slot in Hs. by rewrite Hs.
Qed.

Lemma g_gate_open self n g p tool :
  served self (S n) g p → tool = TOOL_READ ∨ tool = TOOL_WRITE → g_gate self tool g = 0.
Proof.
  intros [_ _ _ _ _ _ Hc [H1 H2] _ Hn _] Ht. unfold g_gate. unfold QUOTA_TOOL_MAX in *.
  test_false (128 <=? quota_tool_used (g_quota g) (Some self)). rewrite Hc. by destruct Ht as [-> | ->]; rewrite ?H1, ?H2.
Qed.

Lemma nonempty_len (p : list Z) : p ≠ [] → (zlen p <=? 0) = false.
Proof. destruct p; [done|]. intros _. apply Z.leb_gt. unfold zlen. cbn. lia. Qed.

(** An allowed call: the tool runs, and after it the log and the quota change. *)
Lemma file_tool_runs self n g p tool check run r fs1 :
  served self (S n) g p → tool = TOOL_READ ∨ tool = TOOL_WRITE → check g = 0 →
  run (g_fs g) = Ret (r, fs1) → ramfs_wf fs1 → ∃ fs2,
  file_tool self tool check run g = Ret (r, mk_gs (g_caps g) fs2 (quota_tool_charge (Some self) (g_quota g)) (g_policy g))
  ∧ only_log self fs1 fs2.
Proof.
  intros Hs Ht Hc Er Hw1. pose proof (sv_self _ _ _ _ Hs) as Hi. unfold MAX_AGENTS in Hi.
  destruct (audit_log_frame self tool r.1 fs1 Hw1 ltac:(lia)) as (fs2 & El & Ho). exists fs2. split; [|done].
  unfold file_tool. rewrite !bind_gets, (g_gate_open self n g p) by done. rewrite Hc. cbn [Z.eqb negb].
  rewrite (bind_ret _ _ _ r (g_with_fs fs1 g)) by (unfold g_onfs, zoom; by rewrite Er).
  rewrite (bind_ret _ _ _ tt (g_with_fs fs2 g)) by (unfold g_log, g_onfs, zoom; cbn [g_fs g_with_fs]; by rewrite El).
  by rewrite bind_modify.
Qed.

(** What stays of [served] after a call. *)
Lemma served_after self n g p fs1 fs2 :
  served self (S n) g p → only_log self fs1 fs2 →
  (only_log self (g_fs g) fs1 ∨ ∃ c, fs_get fs1 p = Some c) →
  served self n (mk_gs (g_caps g) fs2 (quota_tool_charge (Some self) (g_quota g)) (g_policy g)) p.
Proof.
  intros Hs Ho Hd. pose proof (served_not_log _ _ _ _ Hs) as Hp. destruct Hs as [Hf Hi Hpo Hne Hr Hw Hc Ha Hq Hn Hnew].
  pose proof (quota_tool_charge_used (g_quota g) self self Hq Hi) as Hu. unfold QUOTA_TOOL_MAX in *.
  constructor; cbn; try done; [apply Ho| | |].
  - apply quota_tool_charge_wf; [done|]. unfold quota_tool_allow, quota_tool_max, QUOTA_TOOL_MAX.
    by test_false (128 <=? quota_tool_used (g_quota g) (Some self)).
  - rewrite Hu, decide_True by (done || lia). unfold QUOTA_TOOL_MAX. lia.
  - intros fs Hfs. destruct Hd as [Hd|[c Hc1]]; [apply Hnew; eauto using only_log_trans|].
    assert (fs_get fs p = Some c) as E by (rewrite (proj2 Hfs), (proj2 Ho); done).
    split; [by eapply quota_existing|by rewrite E].
Qed.

#[export] Instance gate_file_tools self : FileTools gstate self.
Proof.
  refine {| ft_get := λ g, fs_get (g_fs g); ft_ok := served self |}.
  - intros n g p len Hs Hlen. pose proof (served_not_log _ _ _ _ Hs) as Hp.
    set (r := match fs_get (g_fs g) p with None => (ENOENT, []) | Some c => (Z.min len (zlen c), take (Z.to_nat len) c) end).
    destruct (file_tool_runs self n g p TOOL_READ (check_read self p) (read_file p len) r (g_fs g) Hs) as (fs2 & E & Ho);
      [by left|..].
    + unfold check_read. rewrite nonempty_len by apply Hs. apply Hs.
    + unfold read_file, gets, IO_MAX, RAMFS_FILE_SIZE. test_false (len <=? 0). test_false (8192 <? len). cbn [orb]. do 2 f_equal.
      unfold r. rewrite ramfs_read_spec by (apply Hs || lia). destruct (fs_get (g_fs g) p) as [c|]; [|done]. pose proof (zlen_nonneg c).
      cbn zeta. rewrite Z.sub_0_r, Z.max_r by lia. f_equal. unfold sub, zlen in *. rewrite drop_0.
      destruct (decide (len ≤ Z.of_nat (length c))); [f_equal; lia|rewrite !take_ge by lia; done].
    + apply Hs.
    + eexists. split; [cbn -[tool_read]; unfold tool_read; by rewrite E|]. split; [|cbn; by apply Ho].
      eapply served_after; [done|done|left]. split; [apply Hs|done].
  - intros n g p d Hs Hd Hl. pose proof (served_not_log _ _ _ _ Hs) as Hp.
    destruct (sv_new _ _ _ _ Hs (g_fs g)) as [Hq Hroom]; [split; [apply Hs|done]|].
    destruct (ramfs_write_spec (g_fs g) p 0 d) as (rc & fs1 & Ew & Hcase);
      [apply Hs|apply Hs|done|lia|pose proof (zlen_nonneg (default [] (fs_get (g_fs g) p))); lia|unfold RAMFS_FILE_SIZE; lia|].
    destruct Hcase as [(-> & Hw' & Hg & _)|(_ & _ & Hfull & Hno)]; [|by destruct (Hroom Hno)].
    destruct (file_tool_runs self n g p TOOL_WRITE (check_write self p) (write_file self p d (zlen d)) (zlen d, []) fs1 Hs)
      as (fs2 & E & Ho); [by right|..].
    + unfold check_write. rewrite nonempty_len by apply Hs. apply Hs.
    + unfold write_file, IO_MAX, RAMFS_FILE_SIZE. test_false (zlen d <=? 0). test_false (8192 <? zlen d). cbn [orb].
      rewrite (bind_ret _ _ _ _ _ Hq). cbn [Z.eqb negb]. by rewrite (bind_ret _ _ _ _ _ Ew).
    + done.
    + eexists. split; [cbn -[tool_write]; unfold tool_write; by rewrite E|]. split; [eapply served_after; [done|done|right; eauto]|].
      etrans; [by apply (proj2 Ho)|]. by rewrite Hg.
Defined.
