(* ===== verification/SvcFiles.v ===== *)
(** * The storage service

    A client and the storage agent, side by side, over the file tools of [FileTools]; the
    examples run behind the gateway (GateTools.v). *)

From ITree Require Import Core.ITreeDefinition.
From S2P Require Import Prelude Abi Ipc Ramfs Quota Policy AuditLog AgentDef Paths Vm Kernel Agent Tool LibAgent AgentSvc ServiceAgents SvcProtocol UserWorld SvcCalls GateTools.

(** A client beside the storage service, after the turns [l]. *)
Definition with_storage {F} `{Tools F} {R} (cl : Z) (l : list bool) (client : prog R) (w : uworld F) : duo :=
  run_turns cl STORAGE_AGENT_ID l (mk_duo (observe client) (observe storage_service) w).

(** ** Writing and reading back *)

(** [C14] A client and the storage agent, side by side: under every schedule of their
    steps, a client that writes a file through the service and then reads it back gets
    the length it gave and then the first 127 bytes of its data, followed by what the
    file had beyond them, as a string cut to its buffer and to 199 bytes
    ([client_reads]: a text that begins with "err" is taken for an error); no other
    result is possible, and from every state reached the client can be brought to its
    end.  So a write of up to 127 bytes is read back, and a longer one is cut although
    its full length is reported.  The file tools behind the service are those of
    [FileTools]; both agents have two sends left, the service two
    calls of the tools, and their mailboxes are empty. *)
Theorem storage_write_then_read {F} `{Tools F} `{!FileTools F STORAGE_AGENT_ID} cl (w : uworld F) path data len l :
  let old := default [] (ft_get (uw_files w) path) in
  let text := file_text (kept data ++ drop (length (kept data)) old) in
  0 ≤ cl < MAX_AGENTS → cl ≠ STORAGE_AGENT_ID → shape cl STORAGE_AGENT_ID 2 2 [] [] w →
  svc_have_deferred (uw_bss w) = 0 → 0 ≤ svc_write_seq (uw_bss w) < 2147483647 → 0 ≤ svc_read_seq (uw_bss w) < 2147483647 →
  cstr_ok path → no_bar path → zlen path ≤ 63 → cstr_ok data → 0 < zlen data → zlen path + zlen data ≤ 200 → bytes_ok old →
  ft_ok 2 (uw_files w) path → 0 < len →
  let result := (zlen data, client_reads text len) in
  let d := with_storage cl l (write_then_read path data len) w in
  (∀ r, d_client d = RetF r → r = result) ∧ ∃ l', d_client (run_turns cl STORAGE_AGENT_ID l' d) = RetF result.
Proof.
  intros old text Hcl Hne Hsh Hdef Hws Hrs Hp Hb Hpl Hd Hdl Hfit Hold Hok Hlen result.
  assert (cstr_ok text) as Htext.
  { apply text_of_bytes, Forall_take, Forall_app_2; [|by apply Forall_drop].
    apply Forall_take. eapply Forall_impl; [exact Hd|]. cbn. unfold byte_ok. lia. }
  set (wid := svc_write_seq (uw_bss w) + 1). set (rid := svc_read_seq (uw_bss w) + 1).
  destruct (storage_write_answers cl STORAGE_AGENT_ID 1 (uw_files w) wid path data) as (f1 & Ha1 & Hok1 & Hget1);
    [unfold id_ok, wid; lia|done..|].
  set (b1 := after_write wid (format_rsp (chr "R") wid (str "ok")) (uw_bss w)).
  assert (text = read_body STORAGE_AGENT_ID f1 path) as Et by (unfold read_body; by rewrite Hget1).
  destruct (storage_read_answers cl STORAGE_AGENT_ID 0 f1 rid path) as (f2 & Ha2 & _);
    [unfold id_ok, rid; lia|done|done|done|by rewrite <- Et|]. rewrite <- Et in Ha2.
  assert (body_cut rid text = text) as Ecut by (apply body_cut_file; unfold rid; lia).
  destruct (dialogue_any_schedule (F:=F) cl STORAGE_AGENT_ID (loop_ks (str "storage") storage.storage_handle) Hne Hcl ltac:(done)
    (loop_idles _ _ _) 2 (write_then_read path data len) (observe storage_service) w result
    (after_read rid (format_rsp (chr "R") rid text) b1) f2 l) as [Hres Hfin].
  - eapply dialogue_exchange; [by apply svc_write_exchanges; [..|lia]| |exact Ha1|].
    { split; [done|]. split; [done|]. apply (request_ok "W"); [unfold id_ok; lia|done|apply cstr_ok_app; [done|by constructor]|].
      rewrite zlen_app, zlen_cons. lia. }
    eapply dialogue_exchange.
    + apply (svc_read_exchanges cl path len text b1); [done|done|done|lia|done|done].
    + split; [done|]. split; [done|]. apply (request_ok "R"); [unfold id_ok, b1; cbn; lia|done|done|lia].
    + exact Ha2.
    + apply dialogue_end. change (svc_read_seq b1 + 1) with rid. rewrite Ecut. apply steps_refl.
  - apply steps_refl.
  - done.
  - split; [|done]. intros r Hr. by apply Hres in Hr as [-> _].
Qed.

(** A fresh system: the file system of boot, the storage agent and one other, with
    empty mailboxes. *)
Definition boot_bss : user_bss := mk_bss 0 0 0 0 0 0 0 0 0 0 0 0 zero_msg zero_msg 0 0 0 0 0 0.
Definition ready_agent : uagent := mk_ua (Z.lor CAP_SEND CAP_RECV) (mk_mailbox [] []).
Definition boot_world {F} (sv : Z) (f : F) : uworld F := mk_uw {[1 := ready_agent; sv := ready_agent]} zero_quota boot_bss f.

Lemma boot_shape {F} sv n m (f : F) : sv ≠ 1 → (n ≤ 16)%nat → (m ≤ 16)%nat → shape 1 sv n m [] [] (boot_world sv f).
Proof.
  intros Hne Hn Hm. assert (∀ a, quota_ipc_used zero_quota a = 0) as Hq.
  { intros a. unfold quota_ipc_used. destruct (quota_slot a) as [i|]; [|done]. do 12 (destruct i as [|i]; [done|]). by destruct i. }
  constructor; cbn [boot_world uw_agents uw_quota].
  - eexists. rewrite lookup_insert_eq. done.
  - eexists. rewrite lookup_insert_ne, lookup_singleton_eq by done. done.
  - apply (quota_init_wf zero_quota).
  - rewrite Hq. unfold QUOTA_IPC_MAX. lia.
  - rewrite Hq. unfold QUOTA_IPC_MAX. lia.
Qed.

Definition demo_path : list Z := str "/agent/1/a".

(** The capabilities of the storage agent in the images, and a gateway with empty files. *)
Definition storage_caps : Z := foldr Z.lor 0 [CAP_LOG; CAP_SVC_STORAGE; CAP_FS; CAP_SEND; CAP_RECV].
Definition boot_gate : gstate := mk_gs (λ i, if i =? STORAGE_AGENT_ID then storage_caps else 0) zero_fs zero_quota zero_policy.

(** Whatever the log of an agent takes of the empty file system, a slot is free. *)
Lemma log_leaves_room a fs : only_log a zero_fs fs → ¬ fs_full fs.
Proof.
  intros [Hw Ho] Hf. pose proof (rfw_len fs Hw) as Hl. unfold fs_full in Hf. rewrite Forall_lookup in Hf.
  assert (∀ k, (k < 64)%nat → ∃ f, fs !! k = Some f ∧ f_used f = true ∧ f_path f = log_path a) as Hk.
  { intros k Hk. destruct (lookup_lt_is_Some_2 fs k) as [f Ef]; [unfold zlen, RAMFS_MAX_FILES in Hl; lia|].
    exists f. split; [done|]. split; [by eapply Hf|]. apply dec_stable. intros Hne. specialize (Ho _ Hne). rewrite zero_fs_get in Ho.
    apply fs_get_None in Ho. by apply (slot_None _ _ Ho k f Ef (Hf k f Ef)). }
  destruct (Hk 0%nat) as (f0 & E0 & U0 & P0); [lia|]. destruct (Hk 1%nat) as (f1 & E1 & U1 & P1); [lia|].
  by pose proof (rfw_unique fs Hw 0 1 f0 f1 E0 E1 U0 U1 ltac:(congruence)).
Qed.

Lemma demo_served n : (n ≤ 100)%nat → served STORAGE_AGENT_ID n boot_gate demo_path.
Proof.
  intros Hn. constructor; try done.
  - apply zero_fs_wf.
  - by split; [solve_bytes|].
  - apply (quota_init_wf zero_quota).
  - change (0 + Z.of_nat n ≤ 128). lia.
  - intros fs Hfs. split; [done|]. intros _. by eapply log_leaves_room.
Qed.

Lemma storage_write_then_read_witness :
  ∃ l, d_client (with_storage 1 l (write_then_read demo_path (str "hi") 16) (boot_world STORAGE_AGENT_ID boot_gate)) = RetF (2, (2, str "hi")).
Proof.
  destruct (storage_write_then_read 1 (boot_world STORAGE_AGENT_ID boot_gate) demo_path (str "hi") 16 []) as [_ Hr].
  all: try done.
  - by apply boot_shape; [|lia..].
  - solve_bytes.
  - by repeat constructor.
  - solve_bytes.
  - vm_compute. constructor.
  - by apply demo_served; lia.
Defined.

(** ** A service without sends *)

(** The storage service is lost once it has made its sixteen sends: the counter
    of an agent's sends is never set back, so a client that asks for a file then never
    gets an answer, not even an error, under any schedule. *)
Theorem exhausted_storage_mute {F} `{Tools F} `{!FileTools F STORAGE_AGENT_ID} cl (w : uworld F) path len l r :
  0 ≤ cl < MAX_AGENTS → cl ≠ STORAGE_AGENT_ID → shape cl STORAGE_AGENT_ID 1 0 [] [] w →
  quota_ipc_used (uw_quota w) (Some STORAGE_AGENT_ID) = QUOTA_IPC_MAX →
  svc_have_deferred (uw_bss w) = 0 → 0 ≤ svc_read_seq (uw_bss w) < 2147483647 →
  cstr_ok path → zlen path ≤ 63 → bytes_ok (default [] (ft_get (uw_files w) path)) → ft_ok 1 (uw_files w) path → 0 < len →
  d_client (with_storage cl l (agent_svc_read path len) w) ≠ RetF r.
Proof.
  intros Hcl Hne Hsh Hq Hdef Hrs Hp Hpl Hold Hok Hlen. set (body := read_body STORAGE_AGENT_ID (uw_files w) path).
  assert (cstr_ok body) as Hb.
  { unfold body, read_body. destruct (ft_get (uw_files w) path) as [c|]; [by apply text_of_bytes, Forall_take|solve_bytes]. }
  destruct (storage_read_answers cl STORAGE_AGENT_ID 0 (uw_files w) (svc_read_seq (uw_bss w) + 1) path) as (f' & Ha & _);
    [unfold id_ok; lia|done|done|done|done|].
  eapply mute_call; [done|done|done|exact Hsh|by rewrite Hq|apply (svc_read_exchanges cl path len body)| |exact Ha]; try done; [lia|].
  split; [done|]. split; [done|]. apply (request_ok "R"); [unfold id_ok; lia|done|done|lia].
Qed.

Definition spent_quota : quota := mk_quota [0; 0; 16; 0; 0; 0; 0; 0; 0; 0; 0; 0] (replicate 12 0).
Definition spent_world : uworld gstate := with_uquota spent_quota (boot_world STORAGE_AGENT_ID boot_gate).

Lemma spent_shape : shape 1 STORAGE_AGENT_ID 1 0 [] [] spent_world.
Proof.
  destruct (boot_shape STORAGE_AGENT_ID 1 0 boot_gate ltac:(done) ltac:(lia) ltac:(lia)) as [Hi Hj _ _ _].
  constructor; [done|done| |done|done]. by split; [done|done|repeat constructor..].
Qed.

Lemma exhausted_storage_mute_witness :
  d_client (with_storage 1 (mjoin (replicate 50 [true; true; false])) (agent_svc_read demo_path 16) spent_world) ≠ RetF (0, []).
Proof.
  apply exhausted_storage_mute; try done; [apply spent_shape|solve_bytes|vm_compute; constructor|by apply demo_served; lia].
Defined.

(** ** Where the clients depart from their intent *)

Section departs.
Context {F : Type} `{Tools F} (cl : Z).
Implicit Types w : uworld F.

(** A message that is not the reply awaited. *)
Definition unrelated (ty : Z) (match_id : list Z → Z → bool * nat) (id : Z) (m : agent_msg) : Prop :=
  mtype m ≠ ty ∨ (match_id (text_of (payload m)) id).1 = false.

Lemma w_load f w : exec cl (load f) w (f (uw_bss w)) w.
Proof. by apply exec_call. Qed.

Lemma w_load_msg f w : exec cl (call (LoadMsg f)) w (f (uw_bss w)) w.
Proof. by apply exec_call. Qed.

Lemma w_store f w : exec cl (store f) w tt (with_bss (f (uw_bss w)) w).
Proof. by apply exec_call. Qed.

(** What putting a message aside leaves in the shared variables. *)
Definition put_aside (m : agent_msg) w : uworld F :=
  with_bss (set_svc_have_deferred 1 (set_svc_deferred m (set_svc_ipc_msg m (uw_bss w)))) w.

Lemma w_defer w : exec cl defer w (inl tt) (put_aside (svc_ipc_msg (uw_bss w)) w).
Proof.
  eapply exec_bind; [apply w_load_msg|]. eapply exec_bind; [apply w_store|]. eapply exec_bind; [apply w_store|].
  eapply exec_bind; [by apply exec_call|]. unfold put_aside. destruct w as [ag q [] fs]. apply exec_give.
Qed.

(** A round that looks at an unrelated message puts it aside. *)
Lemma w_round ty match_id id m w w1 :
  exec cl next_message w 0 w1 → svc_ipc_msg (uw_bss w1) = m → unrelated ty match_id id m →
  exec cl (recv_match_body ty match_id id tt) w (inl tt) (put_aside m w1).
Proof.
  intros Hn Em Hu. eapply exec_bind; [exact Hn|]. cbn. eapply exec_bind; [apply w_load_msg|]. rewrite Em. subst m.
  destruct (Z.eqb_spec (mtype (svc_ipc_msg (uw_bss w1))) ty) as [E|]; cbn [negb]; [|apply w_defer].
  destruct Hu as [|Hu]; [done|]. destruct (match_id _ id) as [ok off]. cbn in Hu. subst ok. apply w_defer.
Qed.

(** Once an unrelated message has been put aside, the wait for a reply never ends. *)
Lemma aside_never ty match_id id w r w' :
  let b := uw_bss w in
  svc_have_deferred b = 1 → svc_ipc_msg b = svc_deferred b → unrelated ty match_id id (svc_deferred b) →
  ¬ exec cl (svc_recv_match ty match_id id) w r w'.
Proof.
  intros b Hh Hi Hu. apply iter_never; [by intros x|].
  assert (w = put_aside (svc_deferred b) (with_bss (set_svc_have_deferred 0 (set_svc_ipc_msg (svc_deferred b) b)) w)) as Ew.
  { unfold put_aside, b in *. destruct w as [ag q [] fs]. cbn in *. by subst. }
  rewrite Ew at 2. eapply w_round; [|done|done].
  eapply exec_bind; [apply w_load|]. fold b. rewrite Hh. cbn. eapply exec_bind; [apply w_load_msg|].
  eapply exec_bind; [apply w_store|]. eapply exec_bind; [apply w_store|]. apply exec_give.
Qed.

(** A message of a type that is not negative and that is not the awaited reply, received while a client of a service
    waits, blocks the client for ever: it is put aside, taken up again as the next
    message, and put aside again, so that the messages behind it, the reply included,
    are never looked at.  This holds for every service call, whatever else is in the
    mailbox. *)
Theorem unrelated_message_blocks ty match_id id m rest cap w r w' :
  uw_agents w !! cl = Some (mk_ua cap (mk_mailbox [] (m :: rest))) → has CAP_RECV cap = true →
  svc_have_deferred (uw_bss w) = 0 → 0 ≤ mtype m → unrelated ty match_id id m →
  ¬ exec cl (svc_recv_match ty match_id id) w r w'.
Proof.
  intros Hbox Hcap Hh Hm Hu Hex. set (w1 := with_box cl (mk_mailbox [] rest) w).
  set (w2 := with_bss (set_svc_ipc_msg m (uw_bss w)) w1).
  assert (exec cl next_message w 0 w2) as Hn.
  { eapply exec_bind; [apply w_load|]. rewrite Hh. cbn. eapply exec_bind.
    - apply exec_iter. apply (exec_bind _ _ _ _ (mtype m, m) w1); [apply exec_call|].
      + cbn. unfold uw_recv, caps_of, box_of. rewrite Hbox. cbn. by rewrite Hcap.
      + cbn [fst]. test_false (mtype m =? EAGAIN). apply exec_give.
    - cbn. test_false (mtype m <? 0). eapply exec_bind; [apply w_store|apply exec_give]. }
  pose proof (w_round ty match_id id m w w2 Hn eq_refl Hu) as Hr. apply comes_iter in Hr.
  apply (aside_never ty match_id id (put_aside m w2) r w' eq_refl eq_refl Hu). by eapply exec_from.
Qed.

End departs.

(** A message of another service waits in the mailbox. *)
Definition stray_msg : agent_msg := user_msg 3 MSG_LLM_RSP (str "L1|hello").
Definition stray_world : uworld gstate := with_box 1 (mk_mailbox [] [stray_msg]) (boot_world STORAGE_AGENT_ID boot_gate).

Lemma unrelated_message_blocks_witness :
  ¬ exec 1 (svc_recv_match MSG_FS_RSP svc_parse_rsp_id 1) stray_world (0, 3%nat) stray_world.
Proof.
  apply (unrelated_message_blocks 1 MSG_FS_RSP svc_parse_rsp_id 1 stray_msg [] (Z.lor CAP_SEND CAP_RECV)); [|done|done|done|by left].
  unfold stray_world. cbn [with_box boot_world uw_agents]. by rewrite lookup_alter_eq, lookup_insert_eq.
Defined.
