(* ===== verification/UserKernel.v ===== *)
(** * The world of user programs and the kernel

    The system calls that the services and their clients make, as the world of
    UserWorld.v with the gateway of GateTools.v answers them, are what the kernel does:
    when the arguments of a call are passed in the registers and in the memory of the
    calling agent, the system call of Trap.v gives the result of the world, leaves its
    data in the agent's buffer, and leads to states that correspond again. *)

From S2P Require Import Prelude Abi Ipc Ramfs Persist Quota Policy AuditLog AgentDef Mem Vm VmTree VmProps Kernel Uaccess Sched Agent Tool Trap LibAgent UserWorld SvcCalls GateTools.

Section refinement.
Context {D : Type} `{BlockDevice D} `{!Devices D} {L : Layout} {LL : LayoutLaws} (kgp hart : Z) (junk : list Z).
Abbreviation kstate := (kstate D).
Implicit Types (s : kstate) (w : uworld gstate) (g : gstate).

(** ** Correspondence *)

(** What the gateway keeps. *)
Record gate_sim s g : Prop := {
  gs_fs : g_fs g = kfs s;
  gs_tools : quota_tool_count (g_quota g) = quota_tool_count (kquota s);
  gs_policy : g_policy g = kpolicy s;
  gs_caps : ∀ i, 0 ≤ i < MAX_AGENTS → g_caps g i = caps (agent_at s i)
}.

(** The agent in a slot as the world has it. *)
Definition seen_agent (a : agent) : option uagent :=
  if decide (state a = AGENT_UNUSED) then None else Some (mk_ua (caps a) (abs (inbox a))).

Record sim s w : Prop := {
  sm_agents : ∀ i, uw_agents w !! i = if decide (0 ≤ i < MAX_AGENTS) then seen_agent (agent_at s i) else None;
  sm_ipc : quota_ipc_count (uw_quota w) = quota_ipc_count (kquota s);
  sm_gate : gate_sim s (uw_files w)
}.

(** The agent [c] runs on the hart, with the page table [r], in a sound state. *)
Record ready s (c r : Z) : Prop := {
  rd_runs : runs hart s c r;
  rd_agents : agents_wf s;
  rd_fs : ramfs_wf (kfs s);
  rd_range : 0 ≤ c < MAX_AGENTS;
  rd_used : state (agent_at s c) ≠ AGENT_UNUSED
}.

(** *** Every kernel state has its world *)

Definition world_of s : uworld gstate :=
  mk_uw (omap seen_agent (map_seqZ 0 (agents s))) (kquota s) zero_bss
    (mk_gs (λ i, caps (agent_at s i)) (kfs s) (kquota s) (kpolicy s)).

Lemma world_of_sim s : kernel_wf s → sim s (world_of s).
Proof.
  intros Hw. pose proof (kw_agents s Hw) as Hl. unfold zlen in Hl. constructor; [|done|done]. intros i. cbn [uw_agents world_of].
  rewrite lookup_omap. case_decide as Hi.
  - rewrite lookup_map_seqZ_0 by lia. unfold agent_at. destruct (lookup_lt_is_Some_2 (agents s) (Z.to_nat i)) as [a Ea]; [lia|].
    by rewrite Ea, (nth_lookup_Some _ _ _ _ Ea).
  - rewrite lookup_map_seqZ. case_guard as Hg; [|done]. cbn. by rewrite lookup_ge_None_2 by lia.
Qed.

(** *** Updates that keep both *)

(** An update of an agent that the world does not see. *)
Definition unseen (f : agent → agent) : Prop :=
  ∀ a, id (f a) = id a ∧ pagetable (f a) = pagetable a ∧ caps (f a) = caps a ∧ state (f a) = state a ∧ inbox (f a) = inbox a.

Lemma unseen_phase p : unseen (upd.phase p).
Proof. by intros a. Qed.

Lemma sim_agents s s' w :
  (∀ i, 0 ≤ i < MAX_AGENTS → caps (agent_at s' i) = caps (agent_at s i) ∧ seen_agent (agent_at s' i) = seen_agent (agent_at s i)) →
  kfs s' = kfs s → kquota s' = kquota s → kpolicy s' = kpolicy s → sim s w → sim s' w.
Proof.
  intros Ha Ef Eq Ep [H1 H2 [G1 G2 G3 G4]]. constructor; [|by rewrite Eq|constructor; rewrite ?Ef, ?Eq, ?Ep; try done].
  - intros i. rewrite H1. case_decide as Hi; [|done]. by rewrite (proj2 (Ha i Hi)).
  - intros i Hi. by rewrite (proj1 (Ha i Hi)), G4.
Qed.

Lemma sim_unseen s w i f : kernel_wf s → 0 ≤ i < MAX_AGENTS → unseen f → sim s w → sim (upd_agent i f s) w.
Proof.
  intros Hw Hi Hf. apply sim_agents; [|done..]. intros j Hj. rewrite agent_at_upd by (try apply Hw; lia).
  case_decide as E; [|done]. subst. destruct (Hf (agent_at s j)) as (_ & _ & E1 & E2 & E3). unfold seen_agent. by rewrite E1, E2, E3.
Qed.

Lemma ready_unseen s c r i f : 0 ≤ i < MAX_AGENTS → unseen f → ready s c r → ready (upd_agent i f s) c r.
Proof.
  intros Hi Hf [Hr Hw Hfs Hc Hu]. pose proof (kw_agents s (aw_wf s Hw)) as Hl.
  assert (∀ j, 0 ≤ j → state (agent_at (upd_agent i f s) j) = state (agent_at s j) ∧ inbox (agent_at (upd_agent i f s) j) = inbox (agent_at s j)) as Hj.
  { intros j Hj. rewrite agent_at_upd by lia. case_decide as E; [|done]. subst. split; apply Hf. }
  constructor; [|constructor|done|done|].
  - apply runs_upd; [done|apply Hw|lia|done|]. intros a. apply Hf.
  - apply upd_agent_wf; [apply Hw|done|]. intros a. apply Hf.
  - apply Hw.
  - intros j Hjr. rewrite (proj2 (Hj j ltac:(lia))). by apply Hw.
  - apply Hw.
  - by rewrite (proj1 (Hj c ltac:(lia))).
Qed.

Lemma ready_pmem s c r m : ready s c r → ready (with_vm (with_pmem m (kvm s)) s) c r.
Proof.
  intros [Hr [[] ? ? ?] Hfs Hc Hu]. constructor; [by apply runs_pmem|constructor; try done; by constructor|done..].
Qed.

Lemma ready_fs s c r fs : ramfs_wf fs → ready s c r → ready (with_fs fs s) c r.
Proof. intros Hf [[] [[] ? ? ?] Hfs Hc Hu]. constructor; [by constructor|constructor; try done; by constructor|done..]. Qed.

Lemma ready_quota s c r q : quota_wf q → ready s c r → ready (with_quota q s) c r.
Proof. intros Hq [[] [[] ? ? ?] Hfs Hc Hu]. constructor; [by constructor|constructor; try done; by constructor|done..]. Qed.

(** ** Sending *)

(** A message was put into the mailbox of [t]: what the other agents and the world see. *)
Lemma sent_agent c t box s j :
  agents_wf s → 0 ≤ t < MAX_AGENTS → 0 ≤ j →
  let a := if decide (t = j) then upd.inbox box (agent_at s t) else agent_at s j in
  agent_at (sent c t box s) j = a ∨ (j = t ∧ agent_at (sent c t box s) j = runnable a).
Proof.
  intros Hw Ht Hj a. destruct (sent_pre c t box s Hw Ht) as (Hw1 & _ & Ha). unfold sent. rewrite notify_agent by done.
  case_decide as E; [right|left; by apply Ha]. destruct E as [<- _]. split; [done|]. by rewrite Ha.
Qed.

Lemma sent_rest c t box s :
  let s' := sent c t box s in
  kvm s' = kvm s ∧ kfs s' = kfs s ∧ kpolicy s' = kpolicy s ∧ kquota s' = quota_ipc_charge (Some c) (kquota s)
  ∧ cpu_current s' = cpu_current s ∧ satp s' = satp s.
Proof.
  unfold sent, sched_notify_runnable, make_runnable, sched_rq_add_locked. cbn zeta.
  case_decide; [done|]. repeat case_test; done.
Qed.

Lemma sent_seen c t box s j :
  agents_wf s → 0 ≤ t < MAX_AGENTS → 0 ≤ j → state (agent_at s t) ≠ AGENT_UNUSED →
  caps (agent_at (sent c t box s) j) = caps (agent_at s j)
  ∧ pagetable (agent_at (sent c t box s) j) = pagetable (agent_at s j)
  ∧ (state (agent_at (sent c t box s) j) = AGENT_UNUSED ↔ state (agent_at s j) = AGENT_UNUSED)
  ∧ inbox (agent_at (sent c t box s) j) = if decide (t = j) then box else inbox (agent_at s j).
Proof.
  intros Hw Ht Hj Hu. destruct (sent_agent c t box s j Hw Ht Hj) as [->|[-> ->]];
    [case_decide; subst; by rewrite ?decide_True|]. rewrite !decide_True by done. done.
Qed.

Lemma ready_sent s c r t box :
  ready s c r → 0 ≤ t < MAX_AGENTS → state (agent_at s t) ≠ AGENT_UNUSED → box_wf box →
  quota_ipc_allow (kquota s) (Some c) = 0 → ready (sent c t box s) c r.
Proof.
  intros [Hr Hw Hf Hc Hu] Ht Htu Hb Hq. destruct (sent_rest c t box s) as (Ev & Ef & _ & Eq & Ec & Es).
  destruct (sent_pre c t box s Hw Ht) as (Hw1 & Hq1 & _).
  pose proof (λ j, sent_seen c t box s j Hw Ht) as Hj.
  assert (agents_wf (sent c t box s)) as Hw'.
  { constructor.
    - unfold sent, sched_notify_runnable. case_decide; [done|]. by apply make_runnable_wf.
    - unfold sent, sched_notify_runnable. case_decide; [done|]. by apply make_runnable_queues.
    - intros j Hjr. destruct (Hj j ltac:(lia) Htu) as (_ & _ & _ & ->). case_decide; [done|]. by apply Hw.
    - rewrite Eq. apply quota_ipc_charge_wf; [apply Hw|done]. }
  constructor; [|done|by rewrite Ef|done|by rewrite (proj1 (proj2 (proj2 (Hj c ltac:(lia) Htu))))].
  destruct Hr as [R1 R2 R3 R4 R5 R6 R7]. constructor; rewrite ?Ev; try done.
  - unfold agent_current in *. by rewrite Ec.
  - by rewrite (proj1 (proj2 (Hj c ltac:(lia) Htu))).
  - unfold cur_root in *. by rewrite Es.
Qed.

Lemma used_count q q' a : quota_ipc_count q = quota_ipc_count q' → quota_ipc_used q a = quota_ipc_used q' a.
Proof. intros E. unfold quota_ipc_used. by rewrite E. Qed.

Lemma charge_count q q' a :
  quota_ipc_count q = quota_ipc_count q' → quota_ipc_count (quota_ipc_charge a q) = quota_ipc_count (quota_ipc_charge a q').
Proof. intros E. unfold quota_ipc_charge. destruct (quota_slot a); [|done]. cbn. by rewrite E. Qed.

Lemma sim_caps s w i : sim s w → 0 ≤ i < MAX_AGENTS → state (agent_at s i) ≠ AGENT_UNUSED → caps_of w i = caps (agent_at s i).
Proof. intros Hs Hi Hu. unfold caps_of. rewrite (sm_agents s w Hs), decide_True by done. unfold seen_agent. by rewrite decide_False. Qed.

Lemma sim_box s w i : sim s w → 0 ≤ i < MAX_AGENTS → state (agent_at s i) ≠ AGENT_UNUSED → box_of w i = abs (inbox (agent_at s i)).
Proof. intros Hs Hi Hu. unfold box_of. rewrite (sm_agents s w Hs), decide_True by done. unfold seen_agent. by rewrite decide_False. Qed.

Lemma sim_used s w i : sim s w → bool_decide (is_Some (uw_agents w !! i)) = bool_decide (0 ≤ i < MAX_AGENTS ∧ state (agent_at s i) ≠ AGENT_UNUSED).
Proof.
  intros Hs. rewrite (sm_agents s w Hs). apply bool_decide_ext. unfold seen_agent. repeat case_decide; split; try tauto;
    try (by intros []); by eauto.
Qed.

(** The mailbox of an agent and its image. *)
Lemma sim_box_set s w s' w' t box :
  sim s w → 0 ≤ t < MAX_AGENTS → state (agent_at s t) ≠ AGENT_UNUSED →
  (∀ j, 0 ≤ j < MAX_AGENTS → caps (agent_at s' j) = caps (agent_at s j)
     ∧ (state (agent_at s' j) = AGENT_UNUSED ↔ state (agent_at s j) = AGENT_UNUSED)
     ∧ inbox (agent_at s' j) = if decide (t = j) then box else inbox (agent_at s j)) →
  uw_agents w' = uw_agents (with_box t (abs box) w) →
  ∀ i, uw_agents w' !! i = if decide (0 ≤ i < MAX_AGENTS) then seen_agent (agent_at s' i) else None.
Proof.
  intros Hs Ht Hu Hj -> i. cbn. destruct (decide (i = t)) as [->|Hne].
  - rewrite lookup_alter_eq, (sm_agents s w Hs), !decide_True by done. destruct (Hj t Ht) as (E1 & E2 & E3).
    unfold seen_agent. rewrite decide_False by done. rewrite decide_False by tauto. cbn. by rewrite E1, E3, decide_True.
  - rewrite lookup_alter_ne, (sm_agents s w Hs) by done. case_decide as Hi; [|done]. destruct (Hj i Hi) as (E1 & E2 & E3).
    unfold seen_agent. rewrite E1, E3, (decide_False (P := t = i)) by done. by repeat case_decide; tauto.
Qed.

Lemma send_sim s w c r dst type text p :
  ready s c r → sim s w → 0 < p → p + MSG_PAYLOAD_SIZE ≤ USER_TOP →
  user_string (kvm s) r p (Z.to_nat (MSG_PAYLOAD_SIZE - 1)) = Some (take (Z.to_nat (MSG_PAYLOAD_SIZE - 1)) text) →
  ∃ rc s' w', agent_send hart dst type p s = Ret (rc, s') ∧ uw_send c dst type text w = (rc, w')
    ∧ sim s' w' ∧ ready s' c r ∧ kvm s' = kvm s.
Proof.
  intros Hrd Hs Hp Ht Htext. pose proof Hrd as [Hr Hw Hf Hc Hu].
  rewrite (agent_send_spec hart s c r) by (done || apply Hw). unfold send_result, uw_send. rewrite Htext.
  rewrite (sim_caps s w c), (sim_used s w dst), (used_count (uw_quota w) (kquota s)) by (done || apply Hs).
  destruct (negb (has CAP_SEND _)); [by eexists _, s, w|]. case_bool_decide as Hd; cbn [negb]; [|by eexists _, s, w].
  destruct Hd as [Hd Hdu]. destruct (Z.leb_spec QUOTA_IPC_MAX (quota_ipc_used (kquota s) (Some c))); [by eexists _, s, w|].
  destruct (take _ text) as [|ch t'] eqn:Et; [by eexists _, s, w|]. rewrite <- Et in *. clear Et. set (t := take _ text) in *.
  rewrite (sim_box s w dst) by done. destruct (user_string_prefix _ _ _ _ _ Htext) as (_ & Hl & _).
  assert (msg_wf (user_msg c type t)) as Hm by (apply zlen_pad; unfold zlen, MSG_PAYLOAD_SIZE in *; lia).
  destruct (msgbox_push_abs _ _ (aw_box s Hw dst Hd) Hm) as [Hb Hpush].
  destruct (msgbox_push (inbox (agent_at s dst)) (user_msg c type t)) as [rc box]. cbn [fst snd] in *. rewrite <- Hpush.
  destruct (negb (rc =? 0)) eqn:Erc; [by eexists _, s, w|].
  destruct (sent_rest c dst box s) as (Ev & Ef & Ep & Eq & _). pose proof (λ j, sent_seen c dst box s j Hw Hd) as Hj.
  eexists _, _, _. split; [done|]. split; [done|]. split; [|split; [|done]].
  - constructor.
    + apply (sim_box_set s w _ _ dst box); [done|done|done| |done]. intros j Hjr. destruct (Hj j ltac:(lia) Hdu) as (? & _ & ? & ?). done.
    + rewrite Eq. apply charge_count, Hs.
    + destruct (sm_gate s w Hs) as [G1 G2 G3 G4]. constructor; cbn [uw_files with_uquota with_box]; rewrite ?Ef, ?Ep, ?Eq; try done.
      * rewrite G2. unfold quota_ipc_charge. by destruct (quota_slot (Some c)).
      * intros i Hi. rewrite G4 by done. symmetry. by apply Hj; [lia|].
  - apply ready_sent; try done. unfold quota_ipc_allow, quota_ipc_max. by test_false (QUOTA_IPC_MAX <=? quota_ipc_used (kquota s) (Some c)).
Qed.

(** ** Receiving *)

(** A buffer of the agent: writable, and no byte of it is another one as well. *)
Record buffer (v : vm) (r p n : Z) : Prop := {
  bf_start : 0 < p;
  bf_end : p + n ≤ USER_TOP;
  bf_write : range_ok v r true p (Z.to_nat n) = true;
  bf_single : ∀ x y, p ≤ x < p + n → p ≤ y < p + n → user_pa (pt_mem v) r x = user_pa (pt_mem v) r y → x = y
}.

(** The world after a receive without a message: only the phase of the agent changes. *)
Lemma recv_sim s w c r p :
  ready s c r → sim s w → buffer (kvm s) r p MSG_SIZE →
  ∃ rc m s' w', agent_recv hart p s = Ret (rc, s') ∧ uw_recv c w = ((rc, m), w') ∧ sim s' w' ∧ ready s' c r
    ∧ ((rc < 0 ∧ m = zero_msg ∧ w' = w) ∨ user_bytes (kvm s') r p (Z.to_nat MSG_SIZE) = msg_bytes m).
Proof.
  intros Hrd Hs [Hp Ht Hok Hinj]. pose proof Hrd as [Hr Hw Hf Hc Hu].
  unfold uw_recv. rewrite (sim_caps s w c), (sim_box s w c) by done.
  destruct (has CAP_RECV (caps (agent_at s c))) eqn:Hcap; cbn [negb].
  2: { eexists _, _, s, w. split; [|split; [done|split; [done|split; [done|by left]]]]. unfold agent_recv. rewrite bind_gets, (ru_cur _ _ _ _ Hr), bind_gets.
       unfold agent_has_cap. by rewrite Hcap. }
  pose proof (agent_recv_spec hart s c r p Hr Hw Hc Hcap Hp Ht) as Hsp. cbn zeta in Hsp. pose proof (aw_box s Hw c Hc) as Hb.
  destruct (msgbox_empty (inbox (agent_at s c))) eqn:He.
  { apply msgbox_empty_abs in He; [|done]. rewrite He. eexists _, _, _, w. split; [exact Hsp|]. split; [done|].
    split; [apply sim_unseen; [apply Hw|done|apply unseen_phase|done]|]. split; [by apply ready_unseen; [|apply unseen_phase|]|by left]. }
  destruct Hsp as (m & b' & Ep & Hsp). destruct (pop_some _ Hb He) as (m' & b'' & Ep' & Hb' & Hpop & Hmw).
  rewrite Ep in Ep'. injection Ep' as <- <-. rewrite Hpop, Hsp, Hok. set (wr := user_write _ _ _ _ _).
  set (s1 := upd_agent c (upd.inbox b') s). pose proof (kw_agents s (aw_wf s Hw)) as Hl.
  assert (∀ j, 0 ≤ j → agent_at s1 j = if decide (c = j) then upd.inbox b' (agent_at s c) else agent_at s j) as Ha
    by (intros j Hj; by apply agent_at_upd).
  assert (ready s1 c r) as Hrd1.
  { constructor; [by apply runs_upd; [|apply Hw|lia|..]| |done|done|by rewrite Ha, decide_True by lia]. constructor.
    - by apply upd_agent_wf; [apply Hw|..].
    - apply Hw.
    - intros i Hi. rewrite Ha by lia. case_decide; [done|by apply Hw].
    - apply Hw. }
  assert (sim s1 (with_box c (abs b') w)) as Hs1.
  { constructor; [|apply Hs|].
    - apply (sim_box_set s w _ _ c b'); [done|done|done| |done]. intros j Hj. rewrite Ha by lia. case_decide; subst; done.
    - destruct (sm_gate s w Hs) as [G1 G2 G3 G4]. constructor; try done. intros i Hi. rewrite G4, Ha by lia. by case_decide; subst. }
  eexists _, _, _, _. split; [done|]. split; [done|]. split; [|split].
  - apply sim_unseen; [|done|apply unseen_phase|].
    + apply (ready_pmem s1 c r wr) in Hrd1. apply Hrd1.
    + by eapply sim_agents; [..|exact Hs1].
  - apply ready_unseen; [done|apply unseen_phase|]. exact (ready_pmem s1 c r wr Hrd1).
  - right. pose proof (zlen_msg_bytes m Hmw) as Hz. change (kvm (upd_agent _ _ (with_vm ?v _))) with v.
    replace (Z.to_nat MSG_SIZE) with (length (msg_bytes m)) in * by (unfold zlen in Hz; lia).
    apply user_write_read; [done|]. by rewrite Hz.
Qed.

(** ** The file tools *)

Lemma gate_sim_fs s g fs : gate_sim s g → gate_sim (with_fs fs s) (g_with_fs fs g).
Proof. intros []. by constructor. Qed.

Lemma gate_sim_vm s g v : gate_sim s g → gate_sim (with_vm v s) g.
Proof. intros []. by constructor. Qed.

Lemma gate_sim_charge s g c :
  gate_sim s g → gate_sim (with_quota (quota_tool_charge (Some c) (kquota s)) s) (g_with_quota (quota_tool_charge (Some c) (g_quota g)) g).
Proof.
  intros [G1 G2 G3 G4]. constructor; try done. cbn [kquota with_quota g_quota g_with_quota]. unfold quota_tool_charge.
  destruct (quota_slot (Some c)); [|done]. cbn. by rewrite G2.
Qed.

(** A record in the audit log. *)
Lemma log_sim s g c r tool rc :
  ready s c r → gate_sim s g → ∃ fs, tool_audit_log c tool rc s = Ret (tt, with_fs fs s)
    ∧ g_log c tool rc g = Ret (tt, g_with_fs fs g) ∧ ramfs_wf fs.
Proof.
  intros [_ Hw Hf Hc _] [G1 _ _ _]. destruct (audit_log_frame c tool rc (kfs s) Hf) as (fs & E & Hl); [unfold MAX_AGENTS in Hc; lia|].
  exists fs. split; [|split; [|apply Hl]].
  - apply (fs_op_ret s c c); [by apply (kw_id s (aw_wf s Hw))|done].
  - unfold g_log, g_onfs, zoom. by rewrite G1, E.
Qed.

Lemma gate_eq s g c tool a0 e :
  gate_sim s g → 0 ≤ c < MAX_AGENTS → tool = TOOL_READ ∨ tool = TOOL_WRITE →
  find (λ e, te_tool e =? tool) (tool_table hart) = Some e → te_cap e = CAP_FS → gate hart s c tool a0 = g_gate c tool g.
Proof.
  intros [G1 G2 G3 G4] Hc Ht Ee Ec. unfold gate, g_gate, quota_tool_used. rewrite Ee, Ec, G2, G3, G4 by done.
  by destruct Ht as [-> | ->].
Qed.

(** The gateway runs a file tool: [P] is what holds of the memory, the result and the data. *)
Lemma dispatch_sim s g c r tool a0 a1 a2 e k (check : gstate → Z) run (P : vm → Z → list Z → Prop) :
  ready s c r → gate_sim s g → tool = TOOL_READ ∨ tool = TOOL_WRITE →
  find (λ e, te_tool e =? tool) (tool_table hart) = Some e → te_cap e = CAP_FS → te_check e = Some k →
  k c a0 a1 a2 s = Ret (check g, s) → (∀ rc, P (kvm s) rc []) →
  (∃ rc data m fs1, te_run e c a0 a1 a2 s = Ret (rc, with_fs fs1 (with_vm (with_pmem m (kvm s)) s))
     ∧ run (kfs s) = Ret ((rc, data), fs1) ∧ ramfs_wf fs1 ∧ P (with_pmem m (kvm s)) rc data) →
  ∃ rc data s' g', tool_dispatch hart (Some c) tool a0 a1 a2 s = Ret (rc, s') ∧ file_tool c tool check run g = Ret ((rc, data), g')
    ∧ gate_sim s' g' ∧ ready s' c r ∧ agents s' = agents s ∧ quota_ipc_count (kquota s') = quota_ipc_count (kquota s)
    ∧ P (kvm s') rc data.
Proof.
  intros Hrd Hg Ht Ee Ec Ek Hk HP (rc & data & m & fs1 & Er & Erun & Hf1 & HP1).
  pose proof (rd_range _ _ _ Hrd) as Hc. pose proof (aw_wf s (rd_agents _ _ _ Hrd)) as Hw.
  rewrite (dispatch_gate hart s c tool) by done. rewrite (gate_eq s g c tool a0 e) by done. rewrite Ee, Ek.
  unfold file_tool. rewrite !bind_gets.
  assert (∀ refusal, ∃ rc data s' g', logged c tool refusal s = Ret (rc, s')
    ∧ (g_log c tool refusal ;; ret (refusal, [])) g = Ret ((rc, data), g')
    ∧ gate_sim s' g' ∧ ready s' c r ∧ agents s' = agents s ∧ quota_ipc_count (kquota s') = quota_ipc_count (kquota s)
    ∧ P (kvm s') rc data) as Href.
  { intros refusal. destruct (log_sim s g c r tool refusal Hrd Hg) as (fs & E1 & E2 & Hfs).
    eexists _, _, _, _. split; [unfold logged; by rewrite (bind_ret _ _ _ _ _ E1)|]. split; [by rewrite (bind_ret _ _ _ _ _ E2)|].
    split; [by apply gate_sim_fs|]. split; [by apply ready_fs|]. split; [done|]. split; [done|]. apply HP. }
  destruct (g_gate c tool g =? 0) eqn:Egate; cbn [negb]; rewrite ?Egate; cbn [negb]; [|apply Href].
  rewrite (bind_ret _ _ _ _ _ Hk). destruct (check g =? 0) eqn:Ech; cbn [negb]; [|apply Href].
  rewrite (bind_ret _ _ _ _ _ Er). set (s1 := with_fs fs1 (with_vm (with_pmem m (kvm s)) s)).
  assert (ready s1 c r) as Hrd1 by (apply ready_fs, ready_pmem; done).
  assert (gate_sim s1 (g_with_fs fs1 g)) as Hg1 by (apply gate_sim_fs, gate_sim_vm; done).
  rewrite (bind_ret _ _ _ (rc, data) (g_with_fs fs1 g)) by (unfold g_onfs, zoom; by rewrite (gs_fs _ _ Hg), Erun). cbn [fst].
  destruct (log_sim s1 (g_with_fs fs1 g) c r tool rc Hrd1 Hg1) as (fs2 & E1 & E2 & Hf2).
  assert (audited tool a0 rc = true ∧ metered tool a0 = true) as [-> ->] by (by destruct Ht as [-> | ->]).
  rewrite (bind_ret _ _ _ _ _ E1), (bind_ret _ _ _ _ _ E2), !bind_modify.
  assert (aid c (with_fs fs2 s1) = Some c) as Eid by (unfold aid; f_equal; exact (kw_id s Hw c Hc)). rewrite Eid.
  eexists _, _, _, _. split; [done|]. split; [done|]. split; [by apply gate_sim_charge, gate_sim_fs|]. split; [|split; [done|split]].
  - apply ready_quota; [|by apply ready_fs]. change (kquota (with_fs fs2 s1)) with (kquota s). apply quota_tool_charge_wf; [apply Hrd|].
    pose proof (gate_eq s g c tool a0 e Hg Hc Ht Ee Ec) as Eg. apply Z.eqb_eq in Egate. rewrite Egate in Eg. unfold gate in Eg.
    unfold quota_tool_allow, quota_tool_max. assert (metered tool a0 = true) as Em by (by destruct Ht as [-> | ->]). rewrite Em in Eg.
    cbn [andb] in Eg. by destruct (QUOTA_TOOL_MAX <=? quota_tool_used (kquota s) (Some c)).
  - change (kquota (with_fs fs2 s1)) with (kquota s). cbn [kquota with_quota]. unfold quota_tool_charge. by destruct (quota_slot (Some c)).
  - exact HP1.
Qed.

(** A path in the agent's memory. *)
Record path_at (v : vm) (r p : Z) (path : list Z) : Prop := {
  pt_start : 0 < p;
  pt_end : p + PATH_BUF ≤ USER_TOP;
  pt_string : user_string v r p (Z.to_nat (PATH_BUF - 1)) = Some path;
  pt_short : 0 < zlen path < PATH_BUF - 1;
  pt_chars : cstr_ok path
}.

Lemma path_read s c r p path : ready s c r → path_at (kvm s) r p path → read_path_from_user hart p s = Ret ((0, path), s).
Proof. intros Hrd [H1 H2 H3 H4 _]. by apply (read_path_spec hart s c r); [apply Hrd|..]. Qed.

Lemma check_read_sim s g c r p a1 a2 path :
  ready s c r → gate_sim s g → path_at (kvm s) r p path → policy_fs_read hart c p a1 a2 s = Ret (check_read c path g, s).
Proof.
  intros Hrd Hg Hp. unfold policy_fs_read. rewrite (bind_ret _ _ _ _ _ (path_read s c r p path Hrd Hp)). cbn [fst snd Z.eqb negb].
  unfold gets, check_read, agent_has_cap, svc_storage. pose proof (pt_short _ _ _ _ Hp). test_false (zlen path <=? 0).
  rewrite (gs_caps s g Hg) by apply Hrd. by rewrite (kw_id s (aw_wf s (rd_agents _ _ _ Hrd)) c (rd_range _ _ _ Hrd)).
Qed.

Lemma check_write_sim s g c r p a1 a2 path :
  ready s c r → gate_sim s g → path_at (kvm s) r p path → policy_fs_write hart c p a1 a2 s = Ret (check_write c path g, s).
Proof.
  intros Hrd Hg Hp. unfold policy_fs_write. rewrite (bind_ret _ _ _ _ _ (path_read s c r p path Hrd Hp)). cbn [fst snd Z.eqb negb].
  unfold gets, check_write, agent_has_cap, svc_storage. pose proof (pt_short _ _ _ _ Hp). test_false (zlen path <=? 0).
  rewrite (gs_caps s g Hg) by apply Hrd. by rewrite (kw_id s (aw_wf s (rd_agents _ _ _ Hrd)) c (rd_range _ _ _ Hrd)).
Qed.

Lemma range_ok_prefix v r wr va k n : (k ≤ n)%nat → range_ok v r wr va n = true → range_ok v r wr va k = true.
Proof. intros Hk. rewrite !range_ok_accessible. intros Ha x Hx. apply Ha. lia. Qed.

Lemma same_state s : with_fs (kfs s) (with_vm (with_pmem (pmem (kvm s)) (kvm s)) s) = s.
Proof. by destruct s as [? ? ? ? ? ? ? ? []]. Qed.

Lemma quota_decides a path fs : 0 ≤ a < MAX_AGENTS → ∃ rc, quota_fs_allow_new (Some a) path fs = Ret (rc, fs).
Proof.
  intros Ha. unfold quota_fs_allow_new. destruct (parse_agent_path_id path) as [id|]; [|by eexists]. case_test; [by eexists|].
  unfold bind, gets. case_test; [by eexists|]. cbn [quota_fs_used]. rewrite ramfs_count_own by (unfold MAX_AGENTS in *; lia).
  case_test; by eexists.
Qed.

(** The data of a read in the agent's buffer. *)
Definition holds (r b : Z) (v : vm) (rc : Z) (data : list Z) : Prop := user_bytes v r b (length data) = data.

Lemma run_read_sim s c r p path b len :
  ready s c r → path_at (kvm s) r p path → buffer (kvm s) r b len → 0 < len < IO_BUF →
  ∃ rc data m fs1, run_read hart c p b len s = Ret (rc, with_fs fs1 (with_vm (with_pmem m (kvm s)) s))
    ∧ read_file path len (kfs s) = Ret ((rc, data), fs1) ∧ ramfs_wf fs1 ∧ holds r b (with_pmem m (kvm s)) rc data.
Proof.
  intros Hrd Hp [B1 B2 B3 B4] Hl. unfold IO_BUF in Hl. pose proof (rd_fs _ _ _ Hrd) as Hf. unfold USER_TOP in B2.
  unfold run_read, read_file. rewrite i32_small, (bind_ret _ _ _ _ _ (path_read s c r p path Hrd Hp)) by lia. cbn [fst snd Z.eqb negb].
  unfold IO_MAX, RAMFS_FILE_SIZE. test_false (len <=? 0). test_false (8192 <? len). cbn [orb].
  unfold io_buffer, IO_BUF. test_false (256 <? len). rewrite (bind_ret _ _ _ 256 s) by done. cbn [Z.eqb]. rewrite bind_gets.
  unfold gets. rewrite ramfs_read_spec by (done || lia).
  destruct (fs_get (kfs s) path) as [d|]; [|eexists _, _, (pmem (kvm s)), (kfs s); rewrite same_state; by split]. cbn zeta.
  set (n := Z.max 0 (Z.min len (zlen d - 0))). assert (zlen (sub d 0 n) = n) as Hz.
  { unfold sub, zlen in *. rewrite length_take, length_drop. unfold n. lia. }
  cbn [fst snd]. test_false (n <? 0). rewrite u64_small by lia. destruct (decide (n = 0)) as [->|Hn].
  { rewrite (bind_ret _ _ _ 0 s) by (unfold copy_to_user; by test_false (b =? 0)). change (0 <? 0) with false. cbn iota.
    change (256 <=? 0) with false. cbn iota. eexists _, _, (pmem (kvm s)), (kfs s). rewrite same_state. split; [done|].
    split; [done|]. split; [done|]. unfold holds, sub. by rewrite take_0. }
  assert (0 < n ≤ len) as Hnl by (unfold n in *; lia).
  pose proof (copy_to_user_spec hart s c r b (sub d 0 n) n (rd_runs _ _ _ Hrd) B1 ltac:(lia) ltac:(unfold USER_TOP; lia)) as Ec.
  rewrite (range_ok_prefix _ _ _ _ (Z.to_nat n) (Z.to_nat len)) in Ec by (done || lia).
  rewrite (take_ge (sub d 0 n)) in Ec by (unfold zlen in Hz; lia). rewrite (bind_ret _ _ _ _ _ Ec). test_false (n <? 0).
  test_false (256 <=? n). eexists _, _, _, (kfs s). split; [unfold ret; by destruct s|]. split; [done|]. split; [done|].
  unfold holds. apply user_write_read.
  - apply (range_ok_prefix _ _ _ _ _ (Z.to_nat len)); [|done]. unfold zlen in Hz. lia.
  - intros x y Hx Hy. apply B4; lia.
Qed.

(** The data of a write in the agent's memory. *)
Record bytes_at (v : vm) (r b : Z) (d : list Z) : Prop := {
  ba_start : 0 < b;
  ba_end : b + zlen d ≤ USER_TOP;
  ba_read : range_ok v r false b (length d) = true;
  ba_bytes : user_bytes v r b (length d) = d;
  ba_ok : bytes_ok d
}.

Lemma run_write_sim s c r p path b d :
  ready s c r → path_at (kvm s) r p path → bytes_at (kvm s) r b d → 0 < zlen d ≤ IO_BUF →
  ∃ rc data m fs1, run_write hart c p b (zlen d) s = Ret (rc, with_fs fs1 (with_vm (with_pmem m (kvm s)) s))
    ∧ write_file c path d (zlen d) (kfs s) = Ret ((rc, data), fs1) ∧ ramfs_wf fs1 ∧ data = [].
Proof.
  intros Hrd Hp [B1 B2 B3 B4 B5] Hl. unfold IO_BUF in Hl. pose proof (rd_fs _ _ _ Hrd) as Hf. unfold USER_TOP in B2.
  unfold run_write, write_file. rewrite i32_small, (bind_ret _ _ _ _ _ (path_read s c r p path Hrd Hp)) by lia. cbn [fst snd Z.eqb negb].
  unfold IO_MAX, RAMFS_FILE_SIZE. test_false (zlen d <=? 0). test_false (8192 <? zlen d). cbn [orb].
  unfold io_buffer, IO_BUF. test_false (256 <? zlen d). rewrite (bind_ret _ _ _ 256 s) by done. cbn [Z.eqb]. rewrite u64_small by lia.
  pose proof (copy_from_user_spec hart s c r b (zlen d) (rd_runs _ _ _ Hrd) B1 ltac:(lia) ltac:(unfold USER_TOP; lia)) as Ec.
  assert (Z.to_nat (zlen d) = length d) as El by (unfold zlen; lia). rewrite El, B3, B4 in Ec.
  rewrite (bind_ret _ _ _ _ _ Ec). cbn [fst snd]. test_false (zlen d <? 0).
  destruct (quota_decides c path (kfs s)) as (qrc & Eq); [apply Hrd|].
  rewrite (bind_ret _ _ _ qrc s).
  2: { rewrite (fs_op_ret s c c _ qrc (kfs s)); [by destruct s|by apply (kw_id s (aw_wf s (rd_agents _ _ _ Hrd))), Hrd|done]. }
  rewrite (bind_ret _ _ _ _ _ Eq). destruct (negb (qrc =? 0)); [eexists _, _, (pmem (kvm s)), (kfs s); rewrite same_state; by split|].
  destruct (ramfs_write_spec (kfs s) path 0 d) as (rc & fs' & E & Hcase); [done| |done|lia|pose proof (zlen_nonneg (default [] (fs_get (kfs s) path))); lia|unfold RAMFS_FILE_SIZE; lia|].
  { split; [apply Hp|]. pose proof (pt_short _ _ _ _ Hp). unfold PATH_BUF in *. lia. }
  exists rc, [], (pmem (kvm s)), fs'. split; [|split; [by rewrite (bind_ret _ _ _ _ _ E)|split; [|done]]].
  - unfold onfs, zoom. rewrite E. by destruct s as [? ? ? ? ? ? ? ? []].
  - by destruct Hcase as [(_ & ? & _)|(_ & -> & _)].
Qed.

(** A file tool as the system call for tools runs it, between two changes of the phase. *)
Lemma agent_tool_sim s w c r tool a0 a1 a2 (m : M gstate (Z * list Z)) (P : vm → Z → list Z → Prop) :
  ready s c r → sim s w →
  (∀ s1, kvm s1 = kvm s → ready s1 c r → gate_sim s1 (uw_files w) →
     ∃ rc data s2 g2, tool_dispatch hart (Some c) tool a0 a1 a2 s1 = Ret (rc, s2) ∧ m (uw_files w) = Ret ((rc, data), g2)
       ∧ gate_sim s2 g2 ∧ ready s2 c r ∧ agents s2 = agents s1 ∧ quota_ipc_count (kquota s2) = quota_ipc_count (kquota s1)
       ∧ P (kvm s2) rc data) →
  ∃ rc data s' g', agent_tool hart tool a0 a1 a2 s = Ret (rc, s') ∧ m (uw_files w) = Ret ((rc, data), g')
    ∧ sim s' (with_files g' w) ∧ ready s' c r ∧ P (kvm s') rc data.
Proof.
  intros Hrd Hs Hd. set (s1 := upd_agent c (upd.phase AGENT_PHASE_TOOL) s). pose proof (rd_range _ _ _ Hrd) as Hc.
  assert (ready s1 c r) as Hrd1 by (by apply ready_unseen; [|apply unseen_phase|]).
  assert (sim s1 w) as Hs1 by (by apply sim_unseen; [apply Hrd| |apply unseen_phase|]).
  destruct (Hd s1 eq_refl Hrd1 (sm_gate s1 w Hs1)) as (rc & data & s2 & g2 & Ed & Em & Hg2 & Hrd2 & Ea & Eq & HP).
  assert (sim s2 (with_files g2 w)) as Hs2.
  { constructor; [|by rewrite Eq; apply Hs1|done]. intros i. cbn [uw_agents with_files]. rewrite (sm_agents s1 w Hs1).
    unfold agent_at. by rewrite Ea. }
  eexists rc, data, _, g2. split; [|split; [done|split; [|split]]].
  - unfold agent_tool. rewrite bind_gets, (ru_cur _ _ _ _ (rd_runs _ _ _ Hrd)).
    rewrite (bind_ret _ _ _ _ _ (set_phase_state hart _ s c (ru_cur _ _ _ _ (rd_runs _ _ _ Hrd)))). fold s1.
    rewrite (bind_ret _ _ _ _ _ Ed), (bind_ret _ _ _ _ _ (set_phase_state hart _ s2 c (ru_cur _ _ _ _ (rd_runs _ _ _ Hrd2)))). done.
  - by apply sim_unseen; [apply Hrd2| |apply unseen_phase|].
  - by apply ready_unseen; [|apply unseen_phase|].
  - done.
Qed.

(** ** System calls *)

Definition int_ok (x : Z) : Prop := -2147483648 ≤ x < 2147483648.

(** The call [e] with its arguments in the registers (the number of the call and four
    words) and in the memory of the agent. *)
Inductive passed (v : vm) (r : Z) : ∀ A, sysE A → Z → Z → Z → Z → Z → Prop :=
  | passed_send dst type text p x :
      int_ok dst → int_ok type → 0 < p → p + MSG_PAYLOAD_SIZE ≤ USER_TOP →
      user_string v r p (Z.to_nat (MSG_PAYLOAD_SIZE - 1)) = Some (take (Z.to_nat (MSG_PAYLOAD_SIZE - 1)) text) →
      passed v r Z (SysSend dst type text) SYS_AGENT_SEND (u64 dst) (u64 type) p x
  | passed_recv p x y z : buffer v r p MSG_SIZE → passed v r (Z * agent_msg) SysRecv SYS_AGENT_RECV p x y z
  | passed_self x y z u : passed v r Z SysSelf SYS_AGENT_SELF x y z u
  | passed_read path len p b :
      path_at v r p path → buffer v r b len → 0 < len < IO_BUF →
      passed v r (Z * list Z) (SysTool TOOL_READ [TStr path; TBuf len; TInt len]) SYS_AGENT_TOOL TOOL_READ p b len
  | passed_write path d p b :
      path_at v r p path → bytes_at v r b d → 0 < zlen d ≤ IO_BUF →
      passed v r (Z * list Z) (SysTool TOOL_WRITE [TStr path; TBytes d; TInt (zlen d)]) SYS_AGENT_TOOL TOOL_WRITE p b (zlen d).

(** The result [x] of the call in the result register and in the memory; a receive
    without a message and a tool without data leave the memory as it is. *)
Definition answered (v : vm) (r a0 a2 rc : Z) {A} (e : sysE A) : A → Prop :=
  match e in sysE A return A → Prop with
  | SysSend _ _ _ => λ x, x = rc
  | SysSelf => λ x, x = rc
  | SysRecv => λ x, x.1 = rc ∧ (rc < 0 ∧ x.2 = zero_msg ∨ user_bytes v r a0 (Z.to_nat MSG_SIZE) = msg_bytes x.2)
  | SysTool _ _ => λ x, x.1 = rc ∧ user_bytes v r a2 (length x.2) = x.2
  | _ => λ _, False
  end.

Lemma i32_u64 x : int_ok x → i32 (u64 x) = x.
Proof. unfold int_ok, i32, u64. intros Hx. Z.to_euclidean_division_equations; lia. Qed.

Lemma i64_small x : 0 ≤ x < 9223372036854775808 → i64 x = x.
Proof. intros Hx. unfold i64. rewrite Z.mod_small by lia. lia. Qed.

Lemma path_at_i64 v r p path : path_at v r p path → i64 p = p.
Proof. intros [H1 H2 _ _ _]. apply i64_small. unfold PATH_BUF, RAMFS_PATH_MAX, USER_TOP in *. lia. Qed.

Lemma tool_read_sim s w c r path len p b :
  ready s c r → sim s w → path_at (kvm s) r p path → buffer (kvm s) r b len → 0 < len < IO_BUF →
  ∃ rc data s' g', agent_tool hart TOOL_READ p b len s = Ret (rc, s') ∧ tool_read c path len (uw_files w) = Ret ((rc, data), g')
    ∧ sim s' (with_files g' w) ∧ ready s' c r ∧ holds r b (kvm s') rc data.
Proof.
  intros Hrd Hs Hp Hb Hl. apply agent_tool_sim; [done|done|]. intros s1 Ev Hrd1 Hg1. rewrite <- Ev in Hp, Hb.
  eapply (dispatch_sim s1 (uw_files w) c r); [done|done|by left|reflexivity|reflexivity|reflexivity|by apply (check_read_sim s1 _ c r)|done|].
  by apply run_read_sim.
Qed.

Lemma tool_write_sim s w c r path d p b :
  ready s c r → sim s w → path_at (kvm s) r p path → bytes_at (kvm s) r b d → 0 < zlen d ≤ IO_BUF →
  ∃ rc data s' g', agent_tool hart TOOL_WRITE p b (zlen d) s = Ret (rc, s') ∧ tool_write c path d (zlen d) (uw_files w) = Ret ((rc, data), g')
    ∧ sim s' (with_files g' w) ∧ ready s' c r ∧ data = [].
Proof.
  intros Hrd Hs Hp Hb Hl. apply (agent_tool_sim _ _ _ _ _ _ _ _ _ (λ _ _ data, data = [])); [done|done|]. intros s1 Ev Hrd1 Hg1. rewrite <- Ev in Hp, Hb.
  eapply (dispatch_sim s1 (uw_files w) c r _ _ _ _ _ _ _ _ (λ _ _ data, data = []));
    [done|done|by right|reflexivity|reflexivity|reflexivity|by apply (check_write_sim s1 _ c r)|done|].
  by apply (run_write_sim s1 c r).
Qed.

(** [C3] The kernel implements the world in which the services are verified: for a send,
    a receive, the own number, and the reading and writing of files, made by a running
    agent whose arguments are in its registers and memory, the system call of the kernel
    and the world give the same result and the same data, the data arrives in the
    agent's buffer, and the states reached correspond again, with the agent able to make
    its next call.  So what holds of programs in the world of agents, mailboxes, quotas
    and files holds of their system calls. *)
Theorem kernel_implements_world s w c r A (e : sysE A) n a0 a1 a2 a3 :
  ready s c r → sim s w → passed (kvm s) r A e n a0 a1 a2 a3 →
  ∃ rc s' x w', sched_handle_syscall kgp hart junk n a0 a1 a2 a3 s = Ret (rc, s') ∧ respond c e w = Some (x, w')
    ∧ answered (kvm s') r a0 a2 rc e x ∧ sim s' w' ∧ ready s' c r.
Proof.
  intros Hrd Hs [dst type text p x Hd Ht Hp Htop Htext|p x y z Hb|x y z u|path len p b Hp Hb Hl|path d p b Hp Hb Hl];
    unfold sched_handle_syscall; cbn [Z.eqb SYS_AGENT_SEND SYS_AGENT_RECV SYS_AGENT_SELF SYS_AGENT_TOOL SYS_AGENT_CREATE SYS_AGENT_DESTROY SYS_AGENT_WRITE Pos.eqb].
  - destruct (send_sim s w c r dst type text p Hrd Hs Hp Htop Htext) as (rc & s' & w' & Ek & Ew & Hs' & Hrd' & _).
    eexists rc, s', rc, w'. rewrite !i32_u64 by done. split; [exact Ek|]. split; [cbn; by rewrite Ew|done].
  - destruct (recv_sim s w c r p Hrd Hs Hb) as (rc & m & s' & w' & Ek & Ew & Hs' & Hrd' & Hm).
    eexists rc, s', (rc, m), w'. split; [exact Ek|]. split; [cbn; by rewrite Ew|]. split; [|done]. split; [done|]. by destruct Hm as [(? & ? & _)|]; auto.
  - eexists c, s, c, w. split; [|done]. unfold gets. rewrite (ru_cur _ _ _ _ (rd_runs _ _ _ Hrd)).
    by rewrite (kw_id s (aw_wf s (rd_agents _ _ _ Hrd)) c (rd_range _ _ _ Hrd)).
  - pose proof Hb as [B1 B2 _ _]. unfold USER_TOP, IO_BUF in *.
    destruct (tool_read_sim s w c r path len p b Hrd Hs Hp Hb Hl) as (rc & data & s' & g' & Ek & Ew & Hs' & Hrd' & Hm).
    eexists rc, s', (rc, data), (with_files g' w). rewrite (path_at_i64 _ _ _ _ Hp), !i64_small by lia. split; [exact Ek|].
    split; [cbn -[tool_read]; by rewrite Ew|done].
  - pose proof Hb as [B1 B2 _ _ _]. unfold USER_TOP, IO_BUF in *.
    destruct (tool_write_sim s w c r path d p b Hrd Hs Hp Hb Hl) as (rc & data & s' & g' & Ek & Ew & Hs' & Hrd' & ->).
    eexists rc, s', (rc, []), (with_files g' w). rewrite (path_at_i64 _ _ _ _ Hp), !i64_small by lia. split; [exact Ek|].
    split; [cbn -[tool_write]; by rewrite Ew|done].
Qed.

End refinement.

(** ** Example: agent 1 of Agent.v's example receives its message *)

(** A machine without a disk. *)
#[local] Instance no_disk : BlockDevice unit := {
  blk_read := λ _ _, None;
  blk_write := λ _ _ _, None;
  blk_sectors := λ _, 0
}.

Lemma one_page_buffer v :
  (∀ va, xlate (pt_mem v) root_table va
         = if decide (same_page heap1 va) then Some (pte_make page1 (map_flags rw_user)) else None) →
  buffer v root_table heap1 MSG_SIZE.
Proof.
  intros Hx. assert (∀ x, heap1 ≤ x < heap1 + MSG_SIZE → xlate (pt_mem v) root_table x = Some (pte_make page1 (map_flags rw_user))) as Hk.
  { intros x Hk. rewrite (xlate_page _ _ _ heap1), Hx; [by rewrite decide_True|].
    unfold heap1, MSG_SIZE, MSG_PAYLOAD_SIZE in *. Z.to_euclidean_division_equations; lia. }
  constructor; [done|done| |].
  - apply range_ok_accessible. intros x Hr. apply user_ok_accessible. unfold user_ok. by rewrite Hk by (cbn in *; lia).
  - intros x y Hxr Hyr. unfold user_pa. rewrite !Hk by done. cbn [fmap option_fmap option_map]. intros [= E].
    unfold heap1, MSG_SIZE, MSG_PAYLOAD_SIZE, PAGE_SIZE in *. Z.to_euclidean_division_equations; lia.
Qed.

Lemma demo_kernel_ready v :
  vm_wf v → root_wf v root_table →
  (∀ va, xlate (pt_mem v) root_table va
         = if decide (same_page heap1 va) then Some (pte_make page1 (map_flags rw_user)) else None) →
  ready 0 (demo_kernel v) 1 root_table.
Proof. intros Hw Hr Hx. constructor; [by apply demo_kernel_runs|apply demo_kernel_wf|apply zero_fs_wf|done|done]. Qed.

Lemma kernel_implements_world_witness :
  ∃ v rc s' m w', vm_map_page root_table heap1 page1 rw_user boot_vm = Ret (0, v)
    ∧ sched_handle_syscall 0 0 [] SYS_AGENT_RECV heap1 0 0 0 (demo_kernel v) = Ret (rc, s')
    ∧ uw_recv 1 (world_of (demo_kernel v)) = ((rc, m), w') ∧ sim s' w'.
Proof.
  destruct one_page as (v & E & Hw & Hr & _ & Hx).
  destruct (kernel_implements_world 0 0 [] (demo_kernel v) (world_of (demo_kernel v)) 1 root_table _ SysRecv SYS_AGENT_RECV heap1 0 0 0
    (demo_kernel_ready v Hw Hr Hx) (world_of_sim _ (aw_wf _ (demo_kernel_wf v))) (passed_recv _ _ _ _ _ _ (one_page_buffer v Hx)))
    as (rc & s' & [rc' m] & w' & Ek & Ew & [Erc _] & Hs & _).
  cbn in Erc. subst rc'. exists v, rc, s', m, w'. split; [exact E|]. split; [exact Ek|]. split; [|exact Hs].
  apply (inj Some). exact Ew.
Defined.
