(* ===== verification/SvcBackends.v ===== *)
(** * The router, network, display and input services

    A client's call of one of these services gives what the tools behind the service
    give, cut to the reply: the service is transparent, under every schedule. *)

From ITree Require Import Core.ITreeDefinition.
From S2P Require Import Prelude Abi Ipc Quota AgentDef Paths Vm Kernel Agent LibAgent AgentSvc ServiceAgents SvcProtocol UserWorld SvcCalls SvcFiles.

(** ** A call: a numbered request and the wait for its reply *)

Section calls.
Context (cl sv : Z).
Implicit Types b : user_bss.

(** What the five kinds of calls share. *)
Definition numbered_call {R} seq ss sp (req : Z → option (list Z)) type rtype letter pending (e : R)
    (h : option (list Z) → prog R) : prog R :=
  let* reqid := next_id seq ss sp in
  match req reqid with
  | None => give e
  | Some text =>
      let* rc := agent_send_msg sv type text in
      if negb (rc =? 0) then give e
      else
        let* body := await_reply rtype (parse_rsp letter) pending in
        h body
  end.

Lemma msg_text rtype letter id body :
  0 < letter < 256 → 0 ≤ id < 2147483648 → cstr_ok body →
  text_of (payload (user_msg sv rtype (format_rsp letter id body))) = format_rsp letter id body.
Proof. intros. cbn [user_msg payload]. by apply text_of_pad, format_rsp_ok. Qed.

Lemma send_exchanges {R} type rtype letter pending (e : R) h b text id body r :
  let m := user_msg sv rtype (format_rsp letter id body) in
  0 ≤ rtype → 0 ≤ id < 2147483648 → svc_have_deferred b = 0 → pending b = id → cstr_ok text → 0 < letter < 256 → cstr_ok body →
  (∀ b', exec cl (h (reply_body (body_cut id body))) b' r b') →
  exchanges cl sv
    (let* rc := agent_send_msg sv type text in
     if negb (rc =? 0) then give e else let* body := await_reply rtype (parse_rsp letter) pending in h body)
    b type text m r (set_svc_ipc_msg m b).
Proof.
  intros m Hrt Hid Hdef Hpend Ht Hl Hb Hh. pose proof (msg_text rtype letter id body Hl Hid Hb) as Htext.
  apply exchanges_send; [done|]. change (negb (0 =? 0)) with false. cbn iota. eapply receives_bind; [|apply Hh].
  rewrite <- (drop_reply letter id body) by lia. rewrite <- Htext at 2. fold m.
  apply await_receives; [done|done|done|]. unfold m. rewrite Htext, parse_reply, Hpend, Z.eqb_refl by lia. done.
Qed.

Lemma call_exchanges {R} seq ss sp req type rtype letter pending (e : R) h b text body r :
  let id := seq b + 1 in let b1 := sp id (ss id b) in
  let m := user_msg sv rtype (format_rsp letter id body) in
  0 ≤ rtype → 0 ≤ seq b < 2147483647 → svc_have_deferred b1 = 0 → pending b1 = id → req id = Some text → cstr_ok text →
  0 < letter < 256 → cstr_ok body →
  (∀ b', exec cl (h (reply_body (body_cut id body))) b' r b') →
  exchanges cl sv (numbered_call seq ss sp req type rtype letter pending e h) b type text m r (set_svc_ipc_msg m b1).
Proof.
  intros id b1 m Hrt Hs Hdef Hpend Hreq Ht Hl Hb Hh. eapply exchanges_after; [apply exec_next_id|].
  rewrite i32_small by lia. fold id b1. rewrite Hreq. apply send_exchanges; try done. unfold id. lia.
Qed.

End calls.

(** ** What the tools give *)

(** The results of the tools behind the services: a length that fits into the buffer and
    bytes, or an error. *)
Class SoundTools (F : Type) `{Tools F} := {
  st_llm : ∀ self prompt len f, 0 < len → let '((n, a), _) := llm_call self prompt len f in n < len ∧ bytes_ok a;
  st_http : ∀ self url len f, 0 < len →
    let '((n, a), _) := tool_call self TOOL_HTTP [TStr url; TBuf len; TInt len] f in n < len ∧ bytes_ok a;
  st_rc : ∀ self tool args f, -2147483648 ≤ (tool_call self tool args f).1.1 < 2147483648
}.

Inductive request :=
  | Ask (prompt : list Z) (len : Z) (backend : list Z)
  | Fetch (url : list Z) (len : Z) (backend : list Z)
  | Draw (text : list Z) (x y : Z)
  | Poll.

Definition valid_request (q : request) : Prop :=
  match q with
  | Ask text len backend | Fetch text len backend =>
      0 < len ∧ 0 < zlen backend ≤ 16 ∧ no_bar backend ∧ cstr_ok backend ∧ 0 < zlen text ∧ cstr_ok text ∧ zlen backend + zlen text ≤ 200
  | Draw text x y => 0 < zlen text ≤ 180 ∧ cstr_ok text ∧ 0 ≤ x < 2147483648 ∧ 0 ≤ y < 2147483648
  | Poll => True
  end.

Section direct.
Context {F : Type} `{Tools F} (self : Z).
Implicit Types f : F.

Definition direct_llm (backend prompt : list Z) f : list Z * F :=
  if str_eq backend (str "offline") then (str "err:offline", f)
  else if str_eq backend (str "faux") then (router.router_faux prompt, f)
  else let '((n, a), f') := llm_call self prompt LLM_MAX_RESPONSE f in
       (if n <? 0 then str "err:llm" else text_of (take (Z.to_nat n) a), f').

Definition direct_http (backend url : list Z) f : list Z * F :=
  if str_eq backend (str "offline") then (str "err:offline", f)
  else let '((n, a), f') := tool_call self TOOL_HTTP [TStr url; TBuf HTTP_MAX_BODY; TInt HTTP_MAX_BODY] f in
       (if n <? 0 then str "err:http" else text_of (take (Z.to_nat n) a), f').

(** Clear, text and flush, as far as they succeed; the result of the flush is not
    looked at. *)
Definition direct_draw (text : list Z) (x y : Z) f : bool * F :=
  let '((rc, _), f1) := tool_call self TOOL_DISPLAY [TInt 0; TInt 0xff102030; TInt 0] f in
  if rc <? 0 then (false, f1)
  else
    let xy := Z.lor (Z.shiftl (Z.land x 0xffff) 16) (Z.land y 0xffff) in
    let '((rc, _), f2) := tool_call self TOOL_DISPLAY [TInt 1; TInt xy; TStr text] f1 in
    if rc <? 0 then (false, f2)
    else let '(_, f3) := tool_call self TOOL_DISPLAY [TInt 2; TInt 0; TInt 0] f2 in (true, f3).

Definition direct_poll f : Z * F :=
  let '((code, _), f') := tool_call self TOOL_INPUT [TInt 0; TInt 0; TInt 0] f in (code, f').

(** The body of the reply to request number [id]. *)
Definition reply_of (q : request) f : list Z * F :=
  match q with
  | Ask prompt _ backend => direct_llm backend prompt f
  | Fetch url _ backend => direct_http backend url f
  | Draw text x y => let '(ok, f') := direct_draw text x y f in (if ok then str "ok" else str "err:draw", f')
  | Poll =>
      let '(code, f') := direct_poll f in
      (if code <? 0 then str "err" else if code =? 0 then str "none" else str "key|" ++ int_to_str code, f')
  end.

(** What the client's call returns for request number [id]: the result of the tools. *)
Definition direct (q : request) (id : Z) f : (Z * list Z) * F :=
  match q with
  | Ask prompt len backend => let '(body, f') := direct_llm backend prompt f in (client_reads (body_cut id body) len, f')
  | Fetch url len backend => let '(body, f') := direct_http backend url f in (client_reads (body_cut id body) len, f')
  | Draw text x y => let '(ok, f') := direct_draw text x y f in ((if ok then 0 else -1, []), f')
  | Poll => let '(code, f') := direct_poll f in ((if code <? 0 then -1 else code, []), f')
  end.

End direct.

(** The call, the service, its handler and the numbers of each kind of request. *)
Definition svc_call (q : request) : prog (Z * list Z) :=
  match q with
  | Ask prompt len backend => agent_svc_llm prompt len backend
  | Fetch url len backend => agent_svc_http url len backend
  | Draw text x y => let* rc := agent_svc_display text x y in give (rc, [])
  | Poll => let* rc := agent_svc_input_poll in give (rc, [])
  end.

Definition svc_agent (q : request) : Z :=
  match q with Ask _ _ _ => ROUTER_AGENT_ID | Fetch _ _ _ => NET_AGENT_ID | Draw _ _ _ => DISPLAY_AGENT_ID | Poll => INPUT_AGENT_ID end.

Definition svc_name (q : request) : list Z :=
  match q with Ask _ _ _ => str "router" | Fetch _ _ _ => str "network" | Draw _ _ _ => str "display" | Poll => str "input" end.

Definition svc_handle (q : request) : agent_msg → unit → prog unit :=
  match q with Ask _ _ _ => router.router_handle | Fetch _ _ _ => network.network_handle | Draw _ _ _ => display.display_handle | Poll => input.input_handle end.

Definition svc_seq (q : request) : user_bss → Z :=
  match q with Ask _ _ _ => svc_llm_seq | Fetch _ _ _ => svc_http_seq | Draw _ _ _ => svc_display_seq | Poll => svc_input_seq end.

Definition svc_type (q : request) : Z :=
  match q with Ask _ _ _ => MSG_LLM_REQ | Fetch _ _ _ => MSG_HTTP_REQ | Draw _ _ _ => MSG_DISPLAY_REQ | Poll => MSG_INPUT_REQ end.

Definition svc_rtype (q : request) : Z :=
  match q with Ask _ _ _ => MSG_LLM_RSP | Fetch _ _ _ => MSG_HTTP_RSP | Draw _ _ _ => MSG_DISPLAY_RSP | Poll => MSG_INPUT_RSP end.

Definition svc_letter (q : request) : string :=
  match q with Ask _ _ _ => "L" | Fetch _ _ _ => "H" | Draw _ _ _ => "D" | Poll => "I" end.

(** The text of a request. *)
Definition svc_text (q : request) (id : Z) : list Z :=
  chr (svc_letter q) :: dec id ++ chr "|" ::
  match q with
  | Ask text _ backend | Fetch text _ backend => backend ++ chr "|" :: text
  | Draw text x y => dec x ++ chr "," :: dec y ++ chr "|" :: text
  | Poll => str "poll"
  end.

Section transparent.
Context {F : Type} `{Tools F, !SoundTools F} (cl : Z).
Implicit Types (f : F) (b : user_bss).

Lemma direct_state q id f : (direct (svc_agent q) q id f).2 = (reply_of (svc_agent q) q f).2.
Proof.
  destruct q; cbn [direct reply_of]; [destruct (direct_llm _ _ _ f)|destruct (direct_http _ _ _ f)|destruct (direct_draw _ _ _ _ f)|destruct (direct_poll _ f)]; done.
Qed.

Lemma text_of_answer n a : bytes_ok a → cstr_ok (text_of (take n a)).
Proof. intros Ha. by apply text_of_bytes, Forall_take. Qed.

Lemma reply_cstr q f : cstr_ok (reply_of (svc_agent q) q f).1.
Proof.
  destruct q as [prompt len backend|url len backend|text x y|]; cbn [reply_of].
  - unfold direct_llm. case_test; [solve_bytes|]. case_test.
    + unfold router.router_faux. case_test; [solve_bytes|]. case_test; solve_bytes.
    + pose proof (st_llm ROUTER_AGENT_ID prompt LLM_MAX_RESPONSE f eq_refl) as Hs. cbn [svc_agent].
      destruct (llm_call _ _ _ f) as [[n a] f']. cbn [fst]. case_test; [solve_bytes|]. apply text_of_answer, Hs.
  - unfold direct_http. case_test; [solve_bytes|].
    pose proof (st_http NET_AGENT_ID url HTTP_MAX_BODY f eq_refl) as Hs. cbn [svc_agent].
    destruct (tool_call _ _ _ f) as [[n a] f']. cbn [fst]. case_test; [solve_bytes|]. apply text_of_answer, Hs.
  - destruct (direct_draw _ _ _ _ f) as [[] f']; solve_bytes.
  - destruct (direct_poll _ f) as [code f']. cbn [fst]. case_test; [solve_bytes|]. case_test; [solve_bytes|]. bprop.
    apply cstr_ok_app; [solve_bytes|]. rewrite int_to_str_id by lia. apply dec_cstr.
Qed.

(** The key code goes through the text of the reply. *)
Lemma key_code_text code : 0 < code < 2147483648 → key_code (str "key|" ++ dec code) = code.
Proof.
  intros Hc. unfold key_code. change (cmatch (str "key|" ++ dec code) 0 (str "no")) with false.
  change (cmatch (str "key|" ++ dec code) 0 (str "key|")) with true. cbn [negb].
  change (drop 4 (str "key|" ++ dec code)) with (dec code). rewrite <- (app_nil_r (dec code)), scan_dec by lia. done.
Qed.

Lemma body_cut_short id body : 0 ≤ id < 2147483648 → zlen body ≤ 200 → body_cut id body = body.
Proof. intros Hi Hb. pose proof (zlen_dec_id id Hi). unfold body_cut, MSG_PAYLOAD_SIZE. apply take_ge. unfold zlen in *. lia. Qed.

Lemma svc_text_ok q id : valid_request q → id_ok id → text_ok (svc_text q id).
Proof.
  intros Hq Hi. unfold svc_text. apply request_ok; [done|by destruct q| |].
  - destruct q; cbn in Hq; [destruct Hq as (? & ? & ? & ? & ? & ? & ?)|destruct Hq as (? & ? & ? & ? & ? & ? & ?)|destruct Hq as (? & ? & ? & ?)|]; [..|solve_bytes].
    1,2: apply cstr_ok_app; [done|by constructor].
    apply cstr_ok_app; [apply dec_cstr|]. constructor; [done|]. apply cstr_ok_app; [apply dec_cstr|by constructor].
  - destruct q as [text len backend|text len backend|text x y|]; cbn in Hq; [..|done].
    1,2: rewrite zlen_app, zlen_cons; lia.
    pose proof (zlen_dec_id x ltac:(lia)). pose proof (zlen_dec_id y ltac:(lia)). rewrite zlen_app, zlen_cons, zlen_app, zlen_cons. lia.
Qed.

(** ** The client's side *)

(** The exchange of the request [q]. *)
Definition exchanged (q : request) b f : Prop :=
  let id := svc_seq q b + 1 in let sv := svc_agent q in
  ∃ b', exchanges cl sv (svc_call q) b (svc_type q) (svc_text q id)
          (user_msg sv (svc_rtype q) (format_rsp (chr (svc_letter q)) id (reply_of sv q f).1)) (direct sv q id f).1 b'.

Definition call_ready (q : request) b : Prop :=
  valid_request q ∧ 0 ≤ svc_seq q b < 2147483647 ∧ svc_have_deferred b = 0.

Lemma call_ready_id q b : call_ready q b → id_ok (svc_seq q b + 1).
Proof. intros (_ & ? & _). unfold id_ok. lia. Qed.

Lemma call_ready_text q b : call_ready q b → cstr_ok (svc_text q (svc_seq q b + 1)).
Proof. intros Hr. apply svc_text_ok; [apply Hr|by apply call_ready_id]. Qed.

Lemma ask_exchanged prompt len backend b f : let q := Ask prompt len backend in call_ready q b → exchanged q b f.
Proof.
  intros q Hr. pose proof (call_ready_text q b Hr) as Htext. pose proof (call_ready_id q b Hr) as Hid. pose proof (reply_cstr q f) as Hbody.
  destruct Hr as ((Hlen & Hb & Hnb & Hcb & Ht & Hct & Hfit) & Hs & Hdef). unfold exchanged. cbn [svc_call q]. unfold agent_svc_llm.
  test_false (len <=? 0). test_false (zlen backend <=? 0). test_false (16 <? zlen backend). cbn [orb].
  eexists. apply (call_exchanges cl ROUTER_AGENT_ID svc_llm_seq _ _ (λ n, backend_req (str "L") n backend prompt) MSG_LLM_REQ MSG_LLM_RSP (chr "L")
    svc_llm_pending_id (-1, []) (λ body, match body with None => give (-1, []) | Some body => store_body body len end)); try done.
  - by apply (backend_req_text "L").
  - intros b'. cbn [reply_of direct q]. destruct (direct_llm _ _ _ f) as [body f']. by apply store_client_reads.
Qed.

Lemma fetch_exchanged url len backend b f : let q := Fetch url len backend in call_ready q b → exchanged q b f.
Proof.
  intros q Hr. pose proof (call_ready_text q b Hr) as Htext. pose proof (call_ready_id q b Hr) as Hid. pose proof (reply_cstr q f) as Hbody.
  destruct Hr as ((Hlen & Hb & Hnb & Hcb & Ht & Hct & Hfit) & Hs & Hdef). unfold exchanged. cbn [svc_call q]. unfold agent_svc_http.
  test_false (len <=? 0). test_false (zlen url <=? 0). test_false (zlen backend <=? 0). test_false (16 <? zlen backend). cbn [orb].
  eexists. apply (call_exchanges cl NET_AGENT_ID svc_http_seq _ _ (λ n, backend_req (str "H") n backend url) MSG_HTTP_REQ MSG_HTTP_RSP (chr "H")
    svc_http_pending_id (-1, []) (λ body, match body with None => give (-1, []) | Some body => store_body body len end)); try done.
  - by apply (backend_req_text "H").
  - intros b'. cbn [reply_of direct q]. destruct (direct_http _ _ _ f) as [body f']. by apply store_client_reads.
Qed.

Lemma draw_exchanged text x y b f : let q := Draw text x y in call_ready q b → exchanged q b f.
Proof.
  intros q Hr. pose proof (call_ready_text q b Hr) as Htext. pose proof (call_ready_id q b Hr) as Hid. pose proof (reply_cstr q f) as Hbody.
  destruct Hr as ((Ht & Hct & Hx & Hy) & Hs & Hdef). unfold exchanged, id_ok in *. cbn [svc_call q svc_seq] in *. unfold agent_svc_display.
  test_false (zlen text <=? 0). cbn [reply_of direct q] in *. destruct (direct_draw _ _ _ _ f) as [ok f']. cbn [fst] in *.
  eexists. eapply exchanges_bind; [|apply exec_give].
  apply (call_exchanges cl DISPLAY_AGENT_ID svc_display_seq _ _ (λ n, display_req n text x y) MSG_DISPLAY_REQ MSG_DISPLAY_RSP (chr "D")
    svc_display_pending_id (-1) (λ body, give (match body with None => -1 | Some _ => 0 end))); try done.
  - by apply display_req_text; [..|lia].
  - intros b'. destruct ok; rewrite body_cut_short by (lia || done); apply exec_give.
Qed.

Lemma poll_exchanged b f : call_ready Poll b → exchanged Poll b f.
Proof.
  intros Hr. pose proof (call_ready_text Poll b Hr) as Htext. pose proof (call_ready_id Poll b Hr) as Hid. pose proof (reply_cstr Poll f) as Hbody.
  destruct Hr as (_ & Hs & Hdef). pose proof (st_rc INPUT_AGENT_ID TOOL_INPUT [TInt 0; TInt 0; TInt 0] f) as Hrc.
  unfold exchanged, id_ok in *. cbn [reply_of direct svc_agent svc_seq svc_call] in *. unfold direct_poll in *.
  destruct (tool_call _ _ _ f) as [[code a] f']. cbn [fst] in Hrc, Hbody |- *.
  eexists. eapply exchanges_bind; [|apply exec_give].
  eapply exchanges_after; [apply exec_next_id|]. rewrite i32_small by lia. rewrite append_dec by (done || lia). rewrite <- app_assoc.
  apply (send_exchanges cl INPUT_AGENT_ID MSG_INPUT_REQ MSG_INPUT_RSP (chr "I") svc_input_pending_id (-1)
    (λ body, give (match body with None => -1 | Some body => key_code body end))); try done; [lia|].
  intros b'. destruct (Z.ltb_spec code 0); [rewrite body_cut_short by (lia || done); apply exec_give|].
  destruct (Z.eqb_spec code 0) as [->|]; [rewrite body_cut_short by (lia || done); apply exec_give|].
  pose proof (zlen_dec_id code ltac:(lia)). rewrite int_to_str_id by lia.
  rewrite body_cut_short by (rewrite ?zlen_app; change (zlen (str "key|")) with 4; lia).
  unfold reply_body. change (cmatch (str "key|" ++ dec code) 0 (str "err")) with false. cbn iota. rewrite key_code_text by lia. apply exec_give.
Qed.

Lemma svc_exchanged q b f : call_ready q b → exchanged q b f.
Proof. destruct q; [apply ask_exchanged|apply fetch_exchanged|apply draw_exchanged|apply poll_exchanged]. Qed.

(** ** The service's side *)

(** A handler that does its work, sends a message to the client and ends with [s]. *)
Definition ends {S} (sv : Z) (h : prog S) f type text (s : S) f1 : Prop :=
  ∃ k, upto sv h f (SysSend cl type text) k f1 ∧ ∀ x, exec sv (k x) f1 s f1.

Lemma ends_after {A S} sv (t : prog A) h f x f1 type text (s : S) f2 :
  exec sv t f x f1 → ends sv (h x) f1 type text s f2 → ends sv (ITree.bind t h) f type text s f2.
Proof. intros Ht (k & Hk & Hx). exists k. split; [by eapply upto_after|done]. Qed.

Lemma ends_then {A S} sv (t : prog A) h f type text x (s : S) f1 :
  ends sv t f type text x f1 → exec sv (h x) f1 s f1 → ends sv (ITree.bind t h) f type text s f1.
Proof. intros (k & Hk & Hx) Hh. exists (λ y, ITree.bind (k y) h). split; [by apply upto_bind|]. intros y. by eapply exec_bind. Qed.

Lemma ends_answers sv name handle letter id body f m rtype f1 :
  mtype m ≠ MSG_PIPELINE_DONE → mtype m ≠ EAGAIN → rtype ≠ MSG_STEER → 0 < letter < 256 → id_ok id → cstr_ok body →
  ends sv (handle m tt) f rtype (format_rsp letter id body) tt f1 →
  answers cl sv (loop_ks name handle) f m rtype (format_rsp letter id body) f1.
Proof.
  intros Hm Hm' Hr Hl Hi Hb (k & Hk & Hx). unfold id_ok in Hi.
  by apply (serve_answers cl sv name handle _ _ _ _ k); [| |apply sendable_rsp; [..|lia|]| |].
Qed.

Lemma ends_reply sv type letter id body f :
  0 < letter < 256 → id_ok id → cstr_ok body →
  ends sv (agent_send_msg cl type (format_rsp letter id body) ;* give tt) f type (format_rsp letter id body) tt f.
Proof. intros Hl Hi Hb. unfold id_ok in Hi. by apply upto_reply, format_rsp_ok; [|lia|]. Qed.

Ltac logs := repeat (eapply ends_after; [first [apply exec_log|apply exec_log_int]|]; cbv beta).

Lemma router_ends prompt len backend id f :
  let q := Ask prompt len backend in let r := reply_of ROUTER_AGENT_ID q f in
  valid_request q → id_ok id →
  ends ROUTER_AGENT_ID (router.router_handle (user_msg cl MSG_LLM_REQ (svc_text q id)) tt) f MSG_LLM_RSP (format_rsp (chr "L") id r.1) tt r.2.
Proof.
  intros q r Hq Hi. pose proof (reply_cstr q f : cstr_ok r.1) as Hc.
  pose proof (svc_text_ok q id Hq Hi) as Ht. destruct Hq as (_ & Hb & Hnb & _). pose proof Hi as Hi'. unfold id_ok in Hi'.
  unfold router.router_handle. cbn [mtype user_msg]. rewrite Z.eqb_refl. cbn [negb sender_id]. rewrite request_text_user by done.
  unfold router.parse_llm_req, svc_text. cbn [svc_letter q]. rewrite parse_backend_text by (done || lia). cbn iota. logs.
  cbn [reply_of q] in r. unfold direct_llm in r. unfold router.router_reply, router.format_llm_rsp.
  destruct (str_eq backend (str "offline")); [by apply ends_reply|].
  destruct (str_eq backend (str "faux")).
  - eapply ends_after; [apply exec_give|]. cbn iota beta.
    assert (zlen (router.router_faux prompt) < 3 ∧ 0 < zlen (router.router_faux prompt)) as [H3 H0]
      by (unfold router.router_faux; destruct (router.contains_substr _ _); [done|]; destruct (router.contains_substr _ _); done).
    unfold LLM_MAX_RESPONSE. test_false (zlen (router.router_faux prompt) <? 0). test_false (512 <=? zlen (router.router_faux prompt)).
    rewrite take_ge by (unfold zlen; lia). rewrite text_of_cstr by done. by apply ends_reply.
  - pose proof (st_llm ROUTER_AGENT_ID prompt LLM_MAX_RESPONSE f eq_refl) as Hs.
    destruct (llm_call _ _ _ f) as [[n a] f1] eqn:El. destruct Hs as [Hn _].
    eapply ends_after; [apply exec_call; cbn; by rewrite El|]. cbn iota beta.
    case_test; [by apply ends_reply|]. test_false (LLM_MAX_RESPONSE <=? n). by apply ends_reply.
Qed.

Lemma network_ends url len backend id f :
  let q := Fetch url len backend in let r := reply_of NET_AGENT_ID q f in
  valid_request q → id_ok id →
  ends NET_AGENT_ID (network.network_handle (user_msg cl MSG_HTTP_REQ (svc_text q id)) tt) f MSG_HTTP_RSP (format_rsp (chr "H") id r.1) tt r.2.
Proof.
  intros q r Hq Hi. pose proof (reply_cstr q f : cstr_ok r.1) as Hc.
  pose proof (svc_text_ok q id Hq Hi) as Ht. destruct Hq as (_ & Hb & Hnb & _). pose proof Hi as Hi'. unfold id_ok in Hi'.
  unfold network.network_handle. cbn [mtype user_msg]. rewrite Z.eqb_refl. cbn [negb sender_id]. rewrite request_text_user by done.
  unfold network.parse_http_req, svc_text. cbn [svc_letter q]. rewrite parse_backend_text by (done || lia). cbn iota.
  eapply ends_after; [unfold network.log_request; repeat (eapply exec_bind; [first [apply exec_log|apply exec_log_int]|]); apply exec_log|].
  cbn [reply_of q] in r. unfold direct_http in r. unfold network.network_reply, network.format_http_rsp.
  destruct (str_eq backend (str "offline")); [by apply ends_reply|].
  pose proof (st_http NET_AGENT_ID url HTTP_MAX_BODY f eq_refl) as Hs.
  destruct (tool_call _ _ _ f) as [[n a] f1] eqn:El. destruct Hs as [Hn _].
  eapply (ends_after _ _ _ _ (if n <? 0 then (n, []) else (n, take (Z.to_nat n) a))).
  - unfold network.fetch_live. eapply exec_bind; [by apply exec_tool|]. cbn iota beta.
    test_false (HTTP_MAX_BODY <=? n). case_test; apply exec_give.
  - destruct (n <? 0) eqn:En; cbn iota beta; rewrite En; by apply ends_reply.
Qed.

Lemma exec_rc sv tool args f x f1 : tool_call sv tool args f = (x, f1) → exec sv (tool_rc tool args) f x.1 f1.
Proof. intros E. eapply exec_bind; [by apply exec_tool|apply exec_give]. Qed.

Lemma draw_exec text x y f :
  let r := direct_draw DISPLAY_AGENT_ID text x y f in
  exec DISPLAY_AGENT_ID (display.display_text_at x y text) f (if r.1 then 0 else -1) r.2.
Proof.
  unfold direct_draw, display.display_text_at, display.display_clear.
  destruct (tool_call _ _ _ f) as [[rc a] f1] eqn:E1. eapply exec_bind; [by apply exec_rc|]. cbn [fst]. case_test; [apply exec_give|].
  destruct (tool_call _ _ _ f1) as [[rc2 a2] f2] eqn:E2. eapply exec_bind; [by apply exec_rc|]. cbn [fst]. case_test; [apply exec_give|].
  destruct (tool_call _ _ _ f2) as [x3 f3] eqn:E3. eapply exec_bind; [by apply exec_rc|apply exec_give].
Qed.

Lemma display_ends text x y id f :
  let q := Draw text x y in let r := reply_of DISPLAY_AGENT_ID q f in
  valid_request q → id_ok id →
  ends DISPLAY_AGENT_ID (display.display_handle (user_msg cl MSG_DISPLAY_REQ (svc_text q id)) tt) f MSG_DISPLAY_RSP (format_rsp (chr "D") id r.1) tt r.2.
Proof.
  intros q r Hq Hi. pose proof (reply_cstr q f : cstr_ok r.1) as Hc.
  pose proof (svc_text_ok q id Hq Hi) as Ht. destruct Hq as (Hl & _ & Hx & Hy). pose proof Hi as Hi'. unfold id_ok in Hi'.
  unfold display.display_handle. cbn [mtype user_msg]. rewrite Z.eqb_refl. cbn [negb sender_id]. rewrite request_text_user by done.
  unfold svc_text. cbn [svc_letter q]. rewrite parse_display_text by (done || lia). cbn iota. logs.
  eapply ends_after; [apply draw_exec|]. cbn [reply_of q] in r. unfold display.display_reply, display.format_display_rsp.
  destruct (direct_draw _ _ _ _ f) as [[] f']; by apply ends_reply.
Qed.

Lemma format_input id code :
  id_ok id → code < 2147483648 →
  input.format_input_rsp id code
  = format_rsp (chr "I") id (if code <? 0 then str "err" else if code =? 0 then str "none" else str "key|" ++ int_to_str code).
Proof.
  intros Hi Hc. unfold id_ok in Hi. rewrite format_rsp_id by lia. rewrite body_cut_short; [|lia|].
  2: { case_test; [done|]. case_test; [done|]. bprop. rewrite int_to_str_id by lia. pose proof (zlen_dec_id code ltac:(lia)).
       rewrite zlen_app. change (zlen (str "key|")) with 4. lia. }
  unfold input.format_input_rsp. rewrite (int_to_str_id id) by lia. cbn [app]. by rewrite <- app_assoc.
Qed.

Lemma input_ends id f :
  let r := reply_of INPUT_AGENT_ID Poll f in id_ok id →
  ends INPUT_AGENT_ID (input.input_handle (user_msg cl MSG_INPUT_REQ (svc_text Poll id)) tt) f MSG_INPUT_RSP (format_rsp (chr "I") id r.1) tt r.2.
Proof.
  intros r Hi. pose proof (reply_cstr Poll f : cstr_ok r.1) as Hc. pose proof (svc_text_ok Poll id I Hi) as Ht.
  pose proof (st_rc INPUT_AGENT_ID TOOL_INPUT [TInt 0; TInt 0; TInt 0] f) as Hrc. pose proof Hi as Hi'. unfold id_ok in Hi'.
  unfold input.input_handle. cbn [mtype user_msg]. rewrite Z.eqb_refl. cbn [negb sender_id]. rewrite request_text_user by done.
  unfold svc_text. cbn [svc_letter]. change (cget (chr "I" :: ?l) 0) with (chr "I"). rewrite Z.eqb_refl.
  change (cget (chr "I" :: ?l) 1) with (cget l 0). rewrite is_digit_dec_app by lia. cbn [andb drop].
  rewrite drop_0, scan_dec by lia. rewrite scan_int_stop by done. cbn [fst].
  cbn [reply_of] in r. unfold direct_poll in r. destruct (tool_call _ _ _ f) as [[code a] f'] eqn:E. cbn [fst] in Hrc.
  eapply ends_after; [by apply exec_rc|]. cbn [fst]. rewrite format_input by (done || lia).
  eapply ends_after; [|by apply ends_reply].
  case_test; [|apply exec_give]. eapply exec_bind; [apply exec_log|]. eapply exec_bind; [apply exec_log_int|apply exec_log].
Qed.

Lemma svc_answers q id f :
  let sv := svc_agent q in let r := reply_of sv q f in
  valid_request q → id_ok id →
  answers cl sv (loop_ks (svc_name q) (svc_handle q)) f (user_msg cl (svc_type q) (svc_text q id))
    (svc_rtype q) (format_rsp (chr (svc_letter q)) id r.1) r.2.
Proof.
  intros sv r Hq Hi. apply ends_answers; [by destruct q|by destruct q|by destruct q|by destruct q|done|apply reply_cstr|].
  destruct q; [by apply router_ends|by apply network_ends|by apply display_ends|by apply input_ends].
Qed.

End transparent.

(** [C15] Router, network, display and input are transparent.  Take a client and the
    service, both allowed to send and receive, with empty mailboxes, each with at least one
    send left in its quota, the client's library holding no deferred message and a sequence
    number below 2^31 - 1; and a request that fits a message (backend and text of at most
    200 bytes together, the backend a word of 1 to 16 bytes without a bar; a text to draw
    of at most 180; coordinates that are not negative).  Then the client's call gives, under
    every schedule of the two agents, what the tools behind the service give (the model's
    or the page's text cut to the reply and to the client's buffer; whether the text was
    drawn; the code of the key), leaves the tools' state as the tools leave it, and from
    every state reached can be brought to its end. *)
Theorem service_transparent {F} `{Tools F, !SoundTools F} cl q (w : uworld F) :
  let sv := svc_agent q in let x := direct sv q (svc_seq q (uw_bss w) + 1) (uw_files w) in
  0 ≤ cl < MAX_AGENTS → cl ≠ sv → shape cl sv 1 1 [] [] w → svc_have_deferred (uw_bss w) = 0 →
  0 ≤ svc_seq q (uw_bss w) < 2147483647 → valid_request q →
  call_gives cl sv (svc_name q) (svc_handle q) (svc_call q) w x.1 x.2.
Proof.
  intros sv x Hcl Hne Hsh Hdef Hs Hq. set (id := svc_seq q (uw_bss w) + 1) in x. assert (id_ok id) as Hid by (unfold id_ok, id; lia).
  destruct (svc_exchanged cl q (uw_bss w) (uw_files w)) as [b' Hx]; [by split|]. fold id sv x in Hx.
  unfold x. rewrite (direct_state q id (uw_files w)). fold x.
  eapply one_call; [done|by destruct q|done|done|exact Hx| |by apply svc_answers].
  split; [by destruct q|]. split; [by destruct q|]. apply (svc_text_ok q id Hq Hid).
Qed.

(** Tools for a concrete run: keys wait at the input device, the model knows one answer,
    there is no network, the screen takes everything. *)
#[local] Instance desk_tools : Tools (list Z) := {|
  tool_call _ tool _ keys :=
    if tool =? TOOL_INPUT then match keys with [] => ((0, []), []) | k :: keys => ((if (0 <? k) && (k <? 256) then k else -1, []), keys) end
    else if tool =? TOOL_HTTP then ((-1, []), keys) else ((0, []), keys);
  llm_call _ _ len keys := ((if 2 <? len then 2 else -1, str "42"), keys);
  misc_call _ _ keys := (-1, keys)
|}.

#[local] Instance desk_sound : SoundTools (list Z).
Proof.
  constructor.
  - intros self prompt len keys Hl. cbn -[str]. split; [case_test; bprop; lia|solve_bytes].
  - intros self url len keys Hl. cbn. split; [lia|constructor].
  - intros self tool args keys. cbn. case_test; [|case_test; cbn; lia]. destruct keys as [|k keys]; cbn; [lia|]. case_test; bprop; lia.
Qed.

Lemma service_transparent_witness :
  let w := boot_world INPUT_AGENT_ID [30; 48] in
  call_gives 1 INPUT_AGENT_ID (str "input") input.input_handle (svc_call Poll) w (30, []) [48].
Proof.
  intros w. pose proof (service_transparent 1 Poll w) as H. cbv zeta in H.
  set (x := direct _ _ _ _) in H. vm_compute in x. apply H; try done. by apply boot_shape; [|lia..].
Defined.
