(* ===== verification/SvcProd.v ===== *)
(** * The network service with a quota and a cache

    What the handler of network_prod_svc.c does with a request to the "prod" backend,
    as a function of the tools ([prod_direct]), and the use of its cache. *)

From ITree Require Import Core.ITreeDefinition.
From S2P Require Import Prelude Abi Ipc Ramfs Quota Policy AgentDef Paths Vm Kernel Agent Tool LibAgent AgentSvc ServiceAgents SvcProtocol UserWorld SvcCalls GateTools SvcFiles SvcBackends.
Import network_prod.

Section prod.
Context {F : Type} `{Tools F} (cl : Z).
Implicit Types f : F.

Abbreviation http_tool url := (tool_call NET_AGENT_ID TOOL_HTTP [TStr url; TBuf HTTP_MAX_BODY; TInt HTTP_MAX_BODY]).
Abbreviation read_tool path := (tool_call NET_AGENT_ID TOOL_READ [TStr path; TBuf HTTP_MAX_BODY; TInt HTTP_MAX_BODY]).
Abbreviation write_tool path page n := (tool_call NET_AGENT_ID TOOL_WRITE [TStr path; TBytes page; TInt n]).

(** What fails after [used] requests, this one included. *)
Definition prod_error (used : Z) : list Z := if PROD_QUOTA_MAX <=? used then str "err:quota" else str "err:offline".

(** The reply, the quota used and the state of the tools; [None] where the code writes
    behind its buffer. *)
Definition prod_direct (url : list Z) (used : Z) f : option (list Z * Z * F) :=
  let path := url_to_cache_path url in
  if PROD_QUOTA_MAX <=? used then Some (prod_error used, used, f)
  else
    let '((n, a), f1) := http_tool url f in
    if HTTP_MAX_BODY <=? n then None
    else if 0 <=? n then
      let page := take (Z.to_nat n) a in Some (text_of page, used + 1, (write_tool path page n f1).2)
    else
      let '((m, c), f2) := read_tool path f1 in
      if HTTP_MAX_BODY <=? m then None
      else if 0 <? m then Some (text_of (take (Z.to_nat m) c), used + 1, f2)
      else Some (prod_error (used + 1), used + 1, f2).

Lemma exec_log_request sv backend id f : exec sv (network.log_request backend id) f tt f.
Proof. unfold network.log_request. repeat (eapply exec_bind; [first [apply exec_log|apply exec_log_int]|]). apply exec_log. Qed.

Lemma exec_fetch_live url f n a f1 :
  http_tool url f = ((n, a), f1) → n < HTTP_MAX_BODY →
  exec NET_AGENT_ID (network.fetch_live url) f (if n <? 0 then (n, []) else (n, take (Z.to_nat n) a)) f1.
Proof.
  intros E Hn. unfold network.fetch_live. eapply exec_bind; [by apply exec_tool|]. cbn iota beta.
  test_false (HTTP_MAX_BODY <=? n). case_test; apply exec_give.
Qed.

Lemma exec_cache_write url page n f : exec NET_AGENT_ID (cache_write url page n) f (write_tool (url_to_cache_path url) page n f).1.1 (write_tool (url_to_cache_path url) page n f).2.
Proof.
  unfold cache_write, agent_write_file. eapply exec_bind.
  - apply exec_rc. apply surjective_pairing.
  - case_test; [apply exec_give|]. repeat (eapply exec_bind; [apply exec_log|]). apply exec_give.
Qed.

Lemma exec_cache_read url f m c f2 :
  read_tool (url_to_cache_path url) f = ((m, c), f2) → m < HTTP_MAX_BODY →
  exec NET_AGENT_ID (cache_read url) f (if 0 <? m then (m, take (Z.to_nat m) c) else (-1, [])) f2.
Proof.
  intros E Hm. unfold cache_read, agent_read_file. eapply exec_bind; [by apply exec_tool|]. cbn iota beta.
  destruct (Z.leb_spec m 0); [test_false (0 <? m); apply exec_give|]. test_true (0 <? m). test_false (HTTP_MAX_BODY <=? m).
  repeat (eapply exec_bind; [apply exec_log|]). apply exec_give.
Qed.

Lemma exec_handle_prod url used f body used' f' :
  prod_direct url used f = Some (body, used', f') →
  ∃ n p, exec NET_AGENT_ID (handle_prod url used) f (n, p, used') f' ∧ body = if n <? 0 then prod_error used' else text_of p.
Proof.
  unfold prod_direct, handle_prod. case_test.
  - intros [= <- <- <-]. eexists (-1), []. split; [|done]. eapply exec_bind; [apply exec_log|apply exec_give].
  - destruct (http_tool url f) as [[n a] f1] eqn:E1. destruct (Z.leb_spec HTTP_MAX_BODY n); [done|]. intros E.
    enough (∃ m p, exec NET_AGENT_ID (let* '(n, body) := network.fetch_live url in
      if 0 <=? n then cache_write url body n ;* give (n, body, used + 1)
      else agent_log_str (str "[network] live fetch failed, trying cache" ++ [10]) ;*
           let* '(n, body) := cache_read url in
           if 0 <=? n then agent_log_str (str "[network] fallback cache ok" ++ [10]) ;* give (n, body, used + 1)
           else give (-1, [], used + 1)) f (m, p, used') f' ∧ body = if m <? 0 then prod_error used' else text_of p) as (m & p & Hx & Hb).
    { exists m, p. split; [|done]. do 3 (eapply exec_bind; [first [apply exec_log|apply exec_log_int]|]). exact Hx. }
    pose proof (exec_fetch_live url f n a f1 E1 ltac:(lia)) as Hf.
    destruct (Z.leb_spec 0 n).
    + injection E as <- <- <-. test_false_in (n <? 0) Hf. eexists n, _. split.
      * eapply exec_bind; [exact Hf|]. cbn iota beta. test_true (0 <=? n). eapply exec_bind; [apply exec_cache_write|apply exec_give].
      * by test_false (n <? 0).
    + test_true_in (n <? 0) Hf. destruct (read_tool (url_to_cache_path url) f1) as [[m c] f2] eqn:E2.
      destruct (Z.leb_spec HTTP_MAX_BODY m); [done|]. pose proof (exec_cache_read url f1 m c f2 E2 ltac:(lia)) as Hc.
      destruct (Z.ltb_spec 0 m); injection E as <- <- <-; eexists _, _; (split;
        [eapply exec_bind; [exact Hf|]; cbn iota beta; test_false (0 <=? n); eapply exec_bind; [apply exec_log|]; cbv beta;
         eapply exec_bind; [exact Hc|]; cbn iota beta|]).
      * test_true (0 <=? m). eapply exec_bind; [apply exec_log|apply exec_give].
      * by test_false (m <? 0).
      * apply exec_give.
      * done.
Qed.

Definition prod_text (id : Z) (url : list Z) : list Z := chr "H" :: dec id ++ chr "|" :: str "prod" ++ chr "|" :: url.

(** The handler answers a request to the backend "prod" as [prod_direct] says. *)
Lemma prod_ends url id used f body used' f' :
  id_ok id → cstr_ok url → zlen url ≤ 190 → prod_direct url used f = Some (body, used', f') → cstr_ok body →
  ends cl NET_AGENT_ID (prod_handle (user_msg cl MSG_HTTP_REQ (prod_text id url)) used) f MSG_HTTP_RSP (format_rsp (chr "H") id body) used' f'.
Proof.
  intros Hi Hu Hl E Hb. assert (text_ok (prod_text id url)) as Ht.
  { apply (request_ok "H"); [done|done|apply cstr_ok_app; [solve_bytes|by constructor]|].
    rewrite zlen_app, zlen_cons. change (zlen (str "prod")) with 4. lia. }
  pose proof Hi as Hi'. unfold id_ok in Hi'.
  unfold prod_handle. cbn [mtype user_msg]. rewrite Z.eqb_refl. cbn [negb sender_id]. rewrite request_text_user by done.
  unfold network.parse_http_req, prod_text. rewrite parse_backend_text by (done || lia || by repeat constructor). cbn iota.
  eapply ends_after; [apply exec_log_request|]. unfold dispatch_http.
  change (str_eq (str "prod") (str "offline")) with false. change (str_eq (str "prod") (str "prod")) with true. cbn iota.
  destruct (exec_handle_prod url used f body used' f' E) as (n & p & Hx & ->).
  eapply ends_after; [exact Hx|]. cbn iota beta. unfold network.network_reply, network.format_http_rsp.
  eapply ends_then; [|apply exec_give]. destruct (n <? 0); by apply ends_reply.
Qed.

(** ** The cache *)

Context `{!FileTools F NET_AGENT_ID}.

(** A page that was fetched is stored, over what the cache had. *)
Lemma prod_fetched n url used f page rest f1 :
  let path := url_to_cache_path url in
  used < PROD_QUOTA_MAX → http_tool url f = ((zlen page, page ++ rest), f1) → 0 < zlen page < HTTP_MAX_BODY → bytes_ok page →
  ft_ok (S n) f1 path → ∃ f2,
  prod_direct url used f = Some (text_of page, used + 1, f2) ∧ ft_ok n f2 path
  ∧ ft_get f2 path = Some (page ++ drop (length page) (default [] (ft_get f1 path))).
Proof.
  intros path Hu E Hl Hb Hok. destruct (ft_write n f1 path page Hok Hb) as (f2 & Ew & Hok2 & Hget); [unfold HTTP_MAX_BODY in *; lia|].
  exists f2. split; [|done]. unfold prod_direct. fold path. test_false (PROD_QUOTA_MAX <=? used). rewrite E.
  test_false (HTTP_MAX_BODY <=? zlen page). test_true (0 <=? zlen page).
  assert (take (Z.to_nat (zlen page)) (page ++ rest) = page) as -> by (unfold zlen; rewrite Nat2Z.id; apply take_app_length).
  by rewrite Ew.
Qed.

(** Without the network the cache answers. *)
Lemma prod_cached n url used f e a f1 c :
  let path := url_to_cache_path url in
  used < PROD_QUOTA_MAX → http_tool url f = ((e, a), f1) → e < 0 → ft_ok (S n) f1 path → ft_get f1 path = Some c → 0 < zlen c < HTTP_MAX_BODY →
  ∃ f2, prod_direct url used f = Some (text_of c, used + 1, f2) ∧ ft_ok n f2 path ∧ ft_get f2 path = Some c.
Proof.
  intros path Hu E He Hok Hc Hl. destruct (ft_read n f1 path HTTP_MAX_BODY Hok ltac:(done)) as (f2 & Er & Hok2 & Hget).
  exists f2. split; [|by rewrite Hget]. unfold prod_direct. fold path. test_false (PROD_QUOTA_MAX <=? used). rewrite E.
  test_false (HTTP_MAX_BODY <=? e). test_false (0 <=? e). rewrite Er, Hc. cbn iota beta.
  unfold HTTP_MAX_BODY in *. rewrite Z.min_r by lia. test_false (512 <=? zlen c). test_true (0 <? zlen c).
  rewrite (take_ge c) by (unfold zlen in *; lia). by rewrite take_ge by (unfold zlen; lia).
Qed.

End prod.

(** The network service degrades to its cache: a page that a request to the backend
    "prod" fetched is sent to the client and stored, and when a later request for the
    same address finds the network down, the service answers from the cache.  What it
    answers then is the page followed by what was stored beyond its length before: the
    cache file is not cut, so after a shorter page the end of the older one shows.  Each
    of the two requests counts against the quota. *)
Theorem prod_fallback {F} `{Tools F, !FileTools F NET_AGENT_ID} cl url id1 id2 used (f : F) page rest f1 :
  let path := url_to_cache_path url in
  let old := default [] (ft_get f1 path) in
  let cached := page ++ drop (length page) old in
  let get g := tool_call NET_AGENT_ID TOOL_HTTP [TStr url; TBuf HTTP_MAX_BODY; TInt HTTP_MAX_BODY] g in
  id_ok id1 → id_ok id2 → cstr_ok url → zlen url ≤ 190 → used < PROD_QUOTA_MAX - 1 →
  get f = ((zlen page, page ++ rest), f1) → 0 < zlen page < HTTP_MAX_BODY → bytes_ok page → bytes_ok old → zlen old < HTTP_MAX_BODY →
  ft_ok 1 f1 path → ∃ f2,
  ends cl NET_AGENT_ID (prod_handle (user_msg cl MSG_HTTP_REQ (prod_text id1 url)) used) f MSG_HTTP_RSP
    (format_rsp (chr "H") id1 (text_of page)) (used + 1) f2
  ∧ ∀ f3 e a f4, get f3 = ((e, a), f4) → e < 0 → ft_ok 1 f4 path → ft_get f4 path = ft_get f2 path → ∃ f5,
  ends cl NET_AGENT_ID (prod_handle (user_msg cl MSG_HTTP_REQ (prod_text id2 url)) (used + 1)) f3 MSG_HTTP_RSP
    (format_rsp (chr "H") id2 (text_of cached)) (used + 2) f5.
Proof.
  intros path old cached get Hi1 Hi2 Hu Hlu Hused E Hl Hb Ho Hlo Hok.
  destruct (prod_fetched 0 url used f page rest f1) as (f2 & E2 & Hok2 & Hget); [lia|done..|]. fold old cached in Hget.
  exists f2. split; [by apply prod_ends; [..|by apply text_of_bytes]|]. intros f3 e a f4 E3 He Hok4 Hsame.
  assert (bytes_ok cached) as Hbc by (apply Forall_app_2; [done|by apply Forall_drop]).
  destruct (prod_cached 0 url (used + 1) f3 e a f4 cached) as (f5 & E5 & _); [lia|done|done|done|by etrans| |].
  { unfold cached, zlen in *. rewrite length_app, length_drop. lia. }
  exists f5. apply prod_ends; [done|done|done| |by apply text_of_bytes]. by replace (used + 2) with (used + 1 + 1) by lia.
Qed.

(** The quota of the network service: whatever the tools do, a request to the
    backend "prod" is counted once, and when four have been counted a further one makes
    no call of a tool and is answered with "err:quota".  The answer says so one request
    early, though: the fourth is within the quota, and when its fetch fails and nothing
    is cached it is answered with "err:quota" too. *)
Theorem prod_quota {F} `{Tools F} cl url id used (f : F) :
  id_ok id → cstr_ok url → zlen url ≤ 190 →
  let says body := ends cl NET_AGENT_ID (prod_handle (user_msg cl MSG_HTTP_REQ (prod_text id url)) used) f MSG_HTTP_RSP
    (format_rsp (chr "H") id body) in
  (used < PROD_QUOTA_MAX → ∀ body used' f', prod_direct url used f = Some (body, used', f') → cstr_ok body → says body (used + 1) f')
  ∧ (PROD_QUOTA_MAX ≤ used → says (str "err:quota") used f)
  ∧ (used = PROD_QUOTA_MAX - 1 → ∀ e a f1 m c f2,
       tool_call NET_AGENT_ID TOOL_HTTP [TStr url; TBuf HTTP_MAX_BODY; TInt HTTP_MAX_BODY] f = ((e, a), f1) → e < 0 →
       tool_call NET_AGENT_ID TOOL_READ [TStr (url_to_cache_path url); TBuf HTTP_MAX_BODY; TInt HTTP_MAX_BODY] f1 = ((m, c), f2) → m ≤ 0 →
       says (str "err:quota") PROD_QUOTA_MAX f2).
Proof.
  intros Hi Hu Hl says. split; [|split].
  - intros Hused body used' f' E Hb. apply prod_ends; try done. rewrite E. do 2 f_equal. revert E.
    enough (prod_direct url used f = Some (body, used', f') → used' = used + 1) as Hn by (intros E; by rewrite (Hn E)).
    unfold prod_direct. test_false (PROD_QUOTA_MAX <=? used).
    destruct (tool_call _ _ _ f) as [[n a] f1]. case_test; [done|]. case_test; [by intros [= _ <- _]|].
    destruct (tool_call _ _ _ f1) as [[m c] f2]. case_test; [done|]. case_test; by intros [= _ <- _].
  - intros Hused. apply prod_ends; [done|done|done| |solve_bytes]. unfold prod_direct, prod_error. by test_true (PROD_QUOTA_MAX <=? used).
  - intros -> e a f1 m c f2 E1 He E2 Hm. apply prod_ends; [done|done|done| |solve_bytes]. unfold prod_direct.
    change (PROD_QUOTA_MAX <=? PROD_QUOTA_MAX - 1) with false. cbn iota. rewrite E1. unfold HTTP_MAX_BODY in *. test_false (512 <=? e). test_false (0 <=? e).
    rewrite E2. test_false (512 <=? m). by test_false (0 <? m).
Qed.

(** ** A concrete network *)

(** Whether the network is up, and the files behind the gateway; every page is the same. *)
Definition page : list Z := str "hello".

Definition link_call (self tool : Z) (args : list targ) (f : bool * gstate) : (Z * list Z) * (bool * gstate) :=
  if tool =? TOOL_HTTP then ((if f.1 then zlen page else -1, page), f)
  else let '(r, g) := tool_call self tool args f.2 in (r, (f.1, g)).

#[local] Instance link_tools : Tools (bool * gstate) := {|
  tool_call := link_call; llm_call _ _ _ f := ((-1, []), f); misc_call _ _ f := (-1, f)
|}.

#[local] Instance link_file_tools self : FileTools (bool * gstate) self.
Proof.
  refine {| ft_get := λ f : bool * gstate, ft_get (sv:=self) f.2; ft_ok := λ n (f : bool * gstate), ft_ok (sv:=self) n f.2 |}.
  - intros n [up g] p len Hok Hn. destruct (ft_read n g p len Hok Hn) as (g' & E & Hg). exists (up, g'). split; [|done].
    unfold tool_call, link_tools, link_call. change (TOOL_READ =? TOOL_HTTP) with false. cbn iota. cbn [snd fst]. by rewrite E.
  - intros n [up g] p d Hok Hd Hl. destruct (ft_write n g p d Hok Hd Hl) as (g' & E & Hg). exists (up, g'). split; [|done].
    unfold tool_call, link_tools, link_call. change (TOOL_WRITE =? TOOL_HTTP) with false. cbn iota. cbn [snd fst]. by rewrite E.
Defined.

Definition demo_url : list Z := str "http://x/".
Definition demo_cache : list Z := url_to_cache_path demo_url.

(** The network agent of the images, with the cache file there. *)
Definition net_caps : Z := foldr Z.lor 0 [CAP_LOG; CAP_SVC_NET; CAP_NET; CAP_FS; CAP_SEND; CAP_RECV].
Definition net_gate : gstate :=
  mk_gs (λ i, if i =? NET_AGENT_ID then net_caps else 0) (ramfs_put zero_fs demo_cache (str "old page") 8).2 zero_quota zero_policy.

Lemma net_gate_cache : ramfs_wf (g_fs net_gate) ∧ fs_get (g_fs net_gate) demo_cache = Some (str "old page").
Proof.
  pose proof (ramfs_put_spec zero_fs demo_cache (str "old page") zero_fs_wf) as H. change (zlen (str "old page")) with 8 in H.
  unfold net_gate, g_fs. destruct (ramfs_put zero_fs demo_cache (str "old page") 8) as [rc fs'].
  destruct H as [(_ & ? & ? & _)|(_ & _ & Hf & _)]; [by split; [solve_bytes|]|solve_bytes|done|done|by inversion Hf].
Qed.

Lemma demo_cache_served : served NET_AGENT_ID 1 net_gate demo_cache.
Proof.
  destruct net_gate_cache as [Hw Hg]. constructor; try done.
  - by split; [solve_bytes|].
  - apply (quota_init_wf zero_quota).
  - intros fs [_ Hfs]. assert (fs_get fs demo_cache = Some (str "old page")) as E by by rewrite Hfs.
    split; [by eapply quota_existing|by rewrite E].
Qed.

Lemma prod_fallback_witness :
  ∃ f2, ends 1 NET_AGENT_ID (prod_handle (user_msg 1 MSG_HTTP_REQ (prod_text 1 demo_url)) 0) (true, net_gate) MSG_HTTP_RSP
    (format_rsp (chr "H") 1 (str "hello")) 1 f2.
Proof.
  destruct net_gate_cache as [_ Hg].
  destruct (prod_fallback 1 demo_url 1 2 0 (true, net_gate) page [] (true, net_gate)) as (f2 & E & _);
    [done|done|solve_bytes|done|done|reflexivity|done|solve_bytes|..].
  - change (bytes_ok (default [] (fs_get (g_fs net_gate) demo_cache))). rewrite Hg. solve_bytes.
  - change (zlen (default [] (fs_get (g_fs net_gate) demo_cache)) < HTTP_MAX_BODY). by rewrite Hg.
  - apply demo_cache_served.
  - by exists f2.
Defined.

Lemma prod_quota_witness :
  ends 1 NET_AGENT_ID (prod_handle (user_msg 1 MSG_HTTP_REQ (prod_text 1 demo_url)) 4) (true, net_gate) MSG_HTTP_RSP
    (format_rsp (chr "H") 1 (str "err:quota")) 4 (true, net_gate).
Proof. apply (prod_quota 1 demo_url 1 4 (true, net_gate)); [done|solve_bytes|done|done]. Defined.
