(* ===== verification/Pci.v ===== *)
(** * PCI and the queues of its virtio devices (kernel/arch/x86/virtio_pci_blk.c, virtio_pci_net.c)

    The access to the configuration space through two ports, the search for a device, the
    list of its capabilities, and the queue operations; each of the two drivers has its
    own copy of this code.  The registers of a device are reached by the class [Bus], at
    the address that the capabilities give.

    The theorem: on a machine whose configuration space can be read through the ports, the
    search finds the first function with one of the wanted numbers, and the walk along the
    capabilities finds the structures of the device ([pci_discovery]). *)

From S2P Require Import Prelude Persist Vm Virtio.

Definition VIRTIO_VENDOR_ID : Z := 0x1af4.
Definition PCI_CAP_VNDR : Z := 0x09.
Definition VIRTIO_PCI_CAP_COMMON_CFG : Z := 1.
Definition VIRTIO_PCI_CAP_NOTIFY_CFG : Z := 2.
Definition VIRTIO_PCI_CAP_DEVICE_CFG : Z := 4.
Definition PCI_CONFIG_ADDR : Z := 0xcf8.
Definition PCI_CONFIG_DATA : Z := 0xcfc.

(** Input and output of words on ports. *)
Class PciPorts (V : Type) := {
  outl : Z → Z → V → V;
  inl_ : Z → V → Z * V
}.

(** A function of the bus: bus, device and function number. *)
Definition bdf : Type := Z * Z * Z.

(** [0x80000000 | bus << 16 | dev << 11 | func << 8 | (off & 0xfc)] *)
Definition cfg_addr (p : bdf) (off : Z) : Z :=
  let '(bus, dev, func) := p in
  Z.lor (Z.lor (Z.lor (Z.lor 0x80000000 (Z.shiftl bus 16)) (Z.shiftl dev 11)) (Z.shiftl func 8)) (Z.land off 0xfc).

Section config.
Context {V : Type} `{PciPorts V}.

Definition pci_read32 (p : bdf) (off : Z) : M V Z :=
  modify (outl PCI_CONFIG_ADDR (cfg_addr p off)) ;; act (inl_ PCI_CONFIG_DATA).

Definition pci_write16 (p : bdf) (off val : Z) : M V unit :=
  modify (outl PCI_CONFIG_ADDR (cfg_addr p off)) ;;
  let! old := act (inl_ PCI_CONFIG_DATA) in
  let new := if Z.land off 2 =? 0 then Z.lor (Z.land old 0xffff0000) val
             else Z.lor (Z.land old 0x0000ffff) (Z.shiftl val 16) in
  modify (outl PCI_CONFIG_DATA new).

Definition pci_read8 (p : bdf) (off : Z) : M V Z :=
  let! w := pci_read32 p (Z.land off (-4)) in
  ret (u8 (Z.shiftr w (Z.land off 3 * 8))).

(** The block driver accepts the address of a port range, the network driver does not. *)
Definition pci_bar_addr (io : bool) (p : bdf) (bar : Z) : M V Z :=
  let! raw := pci_read32 p (0x10 + bar * 4) in
  ret (if has 1 raw then if io then Z.land raw 0xfffffffc else 0 else Z.land raw 0xfffffff0).

(** The three nested loops over the 65536 functions, as one over their number. *)
Definition nth_bdf (k : Z) : bdf := (k / 256, k / 8 mod 32, k mod 8).

Definition pci_find (devs : list Z) : M V (option bdf) :=
  let! r := ploop (λ k, let! id := pci_read32 (nth_bdf k) 0 in
                        ret (if negb (Z.land id 0xffff =? VIRTIO_VENDOR_ID) then inl (k + 1)
                             else if negb (bool_decide (u16 (Z.shiftr id 16) ∈ devs)) then inl (k + 1)
                             else inr (nth_bdf k))) 65536 0 in
  ret (match r with inr p => Some p | inl _ => None end).

(** What the capabilities give: the addresses of the structures and the stride of the
    notification addresses. *)
Record vcfg := mk_vcfg { common_cfg : Z; notify_base : Z; notify_stride : Z; device_cfg : Z }.

(** One capability.  [map_bar] makes the structure accessible and says whether it did.
    (The block driver's copy does not look for the device structure; that driver does not
    use [device_cfg].) *)
Definition take_cap (io : bool) (map_bar : Z → M V bool) (p : bdf) (cap : Z) (c : vcfg) : M V vcfg :=
  let! id := pci_read8 p cap in
  if negb (id =? PCI_CAP_VNDR) then ret c
  else
    let! cfg_type := pci_read8 p (cap + 3) in
    let! bar := pci_read8 p (cap + 4) in
    let! off := pci_read32 p (cap + 8) in
    let! bar_pa := pci_bar_addr io p bar in
    if bar_pa =? 0 then ret c
    else
      let mmio := u32 (bar_pa + off) in
      let! ok := map_bar bar_pa in
      if negb ok then ret c
      else
        let c := if cfg_type =? VIRTIO_PCI_CAP_COMMON_CFG
                 then mk_vcfg mmio (notify_base c) (notify_stride c) (device_cfg c) else c in
        let! c :=
          if cfg_type =? VIRTIO_PCI_CAP_NOTIFY_CFG then
            let! stride := pci_read32 p (cap + 16) in
            ret (mk_vcfg (common_cfg c) mmio (if stride =? 0 then 4 else stride) (device_cfg c))
          else ret c in
        ret (if cfg_type =? VIRTIO_PCI_CAP_DEVICE_CFG
             then mk_vcfg (common_cfg c) (notify_base c) (notify_stride c) mmio else c).

(** The walk along the list; [None] when the list has more than [fuel] elements (the
    addresses have eight bits, so a list of more than 192 is circular, and the loop of
    the source does not end). *)
Fixpoint caps_loop (io : bool) (map_bar : Z → M V bool) (p : bdf) (fuel : nat) (cap : Z) (c : vcfg) : M V (option vcfg) :=
  if negb (0x40 <=? cap) then ret (Some c)
  else match fuel with
       | O => ret None
       | S fuel' =>
           let! c := take_cap io map_bar p cap c in
           let! next := pci_read8 p (cap + 1) in
           caps_loop io map_bar p fuel' next c
       end.

(** The structures that were found; the error when one is missing is the caller's. *)
Definition pci_map_virtio_caps (io : bool) (map_bar : Z → M V bool) (p : bdf) (c : vcfg) : M V (option vcfg) :=
  let! cap := pci_read8 p 0x34 in
  caps_loop io map_bar p 192 cap c.

Definition caps_complete (c : vcfg) : bool := negb (common_cfg c =? 0) && negb (notify_base c =? 0).

(** Bus mastering, memory and port access are turned on. *)
Definition pci_enable (p : bdf) : M V unit :=
  let! cmd := pci_read32 p 4 in
  pci_write16 p 4 (Z.lor (u16 cmd) 7).

End config.

(** ** Queues *)

(** The offsets in [struct virtio_pci_common_cfg]. *)
Definition CFG_DEVICE_FEATURE_SELECT : Z := 0.
Definition CFG_DEVICE_FEATURE : Z := 4.
Definition CFG_GUEST_FEATURE_SELECT : Z := 8.
Definition CFG_GUEST_FEATURE : Z := 12.
Definition CFG_DEVICE_STATUS : Z := 20.
Definition CFG_QUEUE_SELECT : Z := 22.
Definition CFG_QUEUE_SIZE : Z := 24.
Definition CFG_QUEUE_MSIX : Z := 26.
Definition CFG_QUEUE_ENABLE : Z := 28.
Definition CFG_QUEUE_NOTIFY_OFF : Z := 30.
Definition CFG_QUEUE_DESC : Z := 32.
Definition CFG_QUEUE_AVAIL : Z := 40.
Definition CFG_QUEUE_USED : Z := 48.

Section queues.
Context {V : Type} `{Bus V}.

(** The address of a notification: [notify_base + notify_off * notify_stride].  The
    record of a queue keeps it as [vq_mmio]. *)
Definition notify_port (c : vcfg) (notify_off : Z) : Z := u32 (notify_base c + notify_off * notify_stride c).

(** The network driver ([set_size]) tells the device the size of its queues. *)
Definition vq_setup (size : Z) (set_size : bool) (c : vcfg) (q : virtqueue) (desc avail used : Z) : M V (Z * virtqueue) :=
  let base := common_cfg c in
  reg_write base CFG_QUEUE_SELECT (u16 (vq_qidx q)) ;;
  let! qmax := reg_read base CFG_QUEUE_SIZE in
  if (u16 qmax =? 0) || (u16 qmax <? size) then ret (EINVAL, q)
  else
    (if set_size then reg_write base CFG_QUEUE_SIZE size else ret tt) ;;
    reg_write base CFG_QUEUE_DESC (u32 desc) ;;
    reg_write base (CFG_QUEUE_DESC + 4) 0 ;;
    reg_write base CFG_QUEUE_AVAIL (u32 avail) ;;
    reg_write base (CFG_QUEUE_AVAIL + 4) 0 ;;
    reg_write base CFG_QUEUE_USED (u32 used) ;;
    reg_write base (CFG_QUEUE_USED + 4) 0 ;;
    reg_write base CFG_QUEUE_MSIX 0xffff ;;
    let! off := reg_read base CFG_QUEUE_NOTIFY_OFF in
    reg_write base CFG_QUEUE_ENABLE 1 ;;
    ret (0, mk_vq (notify_port c (u16 off)) (vq_qidx q) (vq_last_used q) (vq_desc q) (vq_avail_idx q) (vq_avail_ring q)
              (vq_used_idx q) (vq_used_ring q)).

(** [vq_submit] publishes the descriptor and writes the queue's number to its
    notification address. *)
Definition vq_submit (size i : Z) : M (virtqueue * V) unit :=
  modify (λ p, let q := vq_publish size i p.1 in (q, mmio_write (vq_mmio q) 0 (u16 (vq_qidx q)) p.2)).

Definition device_status (c : vcfg) (st : Z) : M V unit := reg_write (common_cfg c) CFG_DEVICE_STATUS st.

(** The reset and the negotiation; [features] chooses among those the device offers,
    and is [None] in the network driver, which reads none and accepts none. *)
Definition device_start (c : vcfg) (features : option (Z → Z)) : M V bool :=
  device_status c 0 ;;
  device_status c (Z.lor VIRTIO_STATUS_ACK VIRTIO_STATUS_DRIVER) ;;
  reg_write (common_cfg c) CFG_DEVICE_FEATURE_SELECT 0 ;;
  match features with
  | Some f =>
      let! offered := reg_read (common_cfg c) CFG_DEVICE_FEATURE in
      reg_write (common_cfg c) CFG_GUEST_FEATURE_SELECT 0 ;;
      reg_write (common_cfg c) CFG_GUEST_FEATURE (f offered)
  | None =>
      reg_write (common_cfg c) CFG_GUEST_FEATURE_SELECT 0 ;;
      reg_write (common_cfg c) CFG_GUEST_FEATURE 0
  end ;;
  device_status c (Z.lor (Z.lor VIRTIO_STATUS_ACK VIRTIO_STATUS_DRIVER) VIRTIO_STATUS_FEATURES_OK) ;;
  let! st := reg_read (common_cfg c) CFG_DEVICE_STATUS in
  ret (negb (Z.land (u8 st) VIRTIO_STATUS_FEATURES_OK =? 0)).

Definition device_go (c : vcfg) : M V unit :=
  device_status c (Z.lor (Z.lor (Z.lor VIRTIO_STATUS_ACK VIRTIO_STATUS_DRIVER) VIRTIO_STATUS_FEATURES_OK) VIRTIO_STATUS_DRIVER_OK).

End queues.

(** ** What the search finds *)

(** The configuration space of a machine: words that the ports give and that reading does
    not change. *)
Class PciLaws (V : Type) `{PciPorts V} := {
  cfg_word : V → bdf → Z → Z;
  cfg_reads : ∀ v k off, 0 ≤ k < 65536 → let v1 := outl PCI_CONFIG_ADDR (cfg_addr (nth_bdf k) off) v in
    (inl_ PCI_CONFIG_DATA v1).1 = cfg_word v (nth_bdf k) (Z.land off 0xfc)
    ∧ ∀ p o, cfg_word (inl_ PCI_CONFIG_DATA v1).2 p o = cfg_word v p o
}.

Section discovery.
Context {V : Type} `{PciLaws V}.
Implicit Types (v : V) (w : bdf → Z → Z).

(** Fields of the configuration space [w] of a machine. *)
Definition word_at w (p : bdf) (off : Z) : Z := w p (Z.land off 0xfc).
Definition byte_at w (p : bdf) (off : Z) : Z := u8 (Z.shiftr (word_at w p (Z.land off (-4))) (Z.land off 3 * 8)).
Definition bar_at w (io : bool) (p : bdf) (bar : Z) : Z :=
  let raw := word_at w p (0x10 + bar * 4) in
  if has 1 raw then if io then Z.land raw 0xfffffffc else 0 else Z.land raw 0xfffffff0.

(** Whether the function with the number [k] is wanted. *)
Definition wanted w (devs : list Z) (k : Z) : Prop :=
  Z.land (word_at w (nth_bdf k) 0) 0xffff = VIRTIO_VENDOR_ID ∧ u16 (Z.shiftr (word_at w (nth_bdf k) 0) 16) ∈ devs.

(** The structure that a capability describes. *)
Definition cap_type w (p : bdf) (cap : Z) : Z := byte_at w p (cap + 3).
Definition cap_bar w io (p : bdf) (cap : Z) : Z := bar_at w io p (byte_at w p (cap + 4)).
Definition cap_mmio w io (p : bdf) (cap : Z) : Z := u32 (cap_bar w io p cap + word_at w p (cap + 8)).

Definition learn w io (p : bdf) (c : vcfg) (cap : Z) : vcfg :=
  if negb (byte_at w p cap =? PCI_CAP_VNDR) || (cap_bar w io p cap =? 0) then c
  else if cap_type w p cap =? VIRTIO_PCI_CAP_COMMON_CFG then
    mk_vcfg (cap_mmio w io p cap) (notify_base c) (notify_stride c) (device_cfg c)
  else if cap_type w p cap =? VIRTIO_PCI_CAP_NOTIFY_CFG then
    let stride := word_at w p (cap + 16) in
    mk_vcfg (common_cfg c) (cap_mmio w io p cap) (if stride =? 0 then 4 else stride) (device_cfg c)
  else if cap_type w p cap =? VIRTIO_PCI_CAP_DEVICE_CFG then
    mk_vcfg (common_cfg c) (notify_base c) (notify_stride c) (cap_mmio w io p cap)
  else c.

(** The list of capabilities from an address on. *)
Inductive cap_list w (p : bdf) : Z → list Z → Prop :=
  | cap_end cap : cap < 0x40 → cap_list w p cap []
  | cap_next cap l : 0x40 ≤ cap → cap_list w p (byte_at w p (cap + 1)) l → cap_list w p cap (cap :: l).

Definition same_cfg v v' : Prop := ∀ p o, cfg_word v' p o = cfg_word v p o.

Lemma read32_spec v k off : 0 ≤ k < 65536 →
  ∃ v', pci_read32 (nth_bdf k) off v = Ret (word_at (cfg_word v) (nth_bdf k) off, v') ∧ same_cfg v v'.
Proof.
  intros Hk. destruct (cfg_reads v k off Hk) as [E1 E2]. unfold pci_read32. rewrite bind_modify. unfold act.
  destruct (inl_ PCI_CONFIG_DATA _) as [x v'] eqn:E. exists v'. cbn in *. by rewrite E1.
Qed.

Lemma read8_spec v k off : 0 ≤ k < 65536 →
  ∃ v', pci_read8 (nth_bdf k) off v = Ret (byte_at (cfg_word v) (nth_bdf k) off, v') ∧ same_cfg v v'.
Proof.
  intros Hk. destruct (read32_spec v k (Z.land off (-4)) Hk) as (v' & E & Hs). exists v'. unfold pci_read8. by rewrite (bind_ret _ _ _ _ _ E).
Qed.

Lemma bar_spec io v k bar : 0 ≤ k < 65536 →
  ∃ v', pci_bar_addr io (nth_bdf k) bar v = Ret (bar_at (cfg_word v) io (nth_bdf k) bar, v') ∧ same_cfg v v'.
Proof.
  intros Hk. destruct (read32_spec v k (0x10 + bar * 4) Hk) as (v' & E & Hs). exists v'. unfold pci_bar_addr. by rewrite (bind_ret _ _ _ _ _ E).
Qed.

(** The configuration space [w] does not change on the way. *)
Definition sees w v : Prop := ∀ p o, cfg_word v p o = w p o.

Lemma sees_triple {A} w (m : M V A) (x : (bdf → Z → Z) → A) :
  (∀ v, ∃ v', m v = Ret (x (cfg_word v), v') ∧ same_cfg v v') → (∀ w', (∀ p o, w' p o = w p o) → x w' = x w) →
  triple (sees w) m (λ r v, r = x w ∧ sees w v).
Proof.
  intros Hm Hx v Hv. destruct (Hm v) as (v' & E & Hs). exists (x w), v'. rewrite <- (Hx (cfg_word v)) by done. split; [done|]. split; [done|].
  intros p o. by rewrite Hs.
Qed.

Lemma word_at_ext w w' p off : (∀ p o, w' p o = w p o) → word_at w' p off = word_at w p off.
Proof. intros E. apply E. Qed.

Lemma byte_at_ext w w' p off : (∀ p o, w' p o = w p o) → byte_at w' p off = byte_at w p off.
Proof. intros E. unfold byte_at. by rewrite (word_at_ext w). Qed.

Lemma bar_at_ext w w' io p bar : (∀ p o, w' p o = w p o) → bar_at w' io p bar = bar_at w io p bar.
Proof. intros E. unfold bar_at. by rewrite (word_at_ext w). Qed.

Lemma sees_read32 w k off : 0 ≤ k < 65536 → triple (sees w) (pci_read32 (nth_bdf k) off) (λ r v, r = word_at w (nth_bdf k) off ∧ sees w v).
Proof. intros Hk. apply (sees_triple w _ (λ w, word_at w (nth_bdf k) off)); [intros v; by apply read32_spec|intros; by apply word_at_ext]. Qed.

Lemma sees_read8 w k off : 0 ≤ k < 65536 → triple (sees w) (pci_read8 (nth_bdf k) off) (λ r v, r = byte_at w (nth_bdf k) off ∧ sees w v).
Proof. intros Hk. apply (sees_triple w _ (λ w, byte_at w (nth_bdf k) off)); [intros v; by apply read8_spec|intros; by apply byte_at_ext]. Qed.

Lemma sees_bar w io k bar : 0 ≤ k < 65536 → triple (sees w) (pci_bar_addr io (nth_bdf k) bar) (λ r v, r = bar_at w io (nth_bdf k) bar ∧ sees w v).
Proof. intros Hk. apply (sees_triple w _ (λ w, bar_at w io (nth_bdf k) bar)); [intros v; by apply bar_spec|intros; by apply bar_at_ext]. Qed.

(** The next read of the configuration space, whose value is known. *)
Ltac next_read L := eapply triple_bind; [apply L; done|]; intros ?; apply triple_pure; intros ->.

Lemma take_cap_spec io w k cap c : 0 ≤ k < 65536 →
  triple (sees w) (take_cap io (λ _, ret true) (nth_bdf k) cap c) (λ r v, r = learn w io (nth_bdf k) c cap ∧ sees w v).
Proof.
  intros Hk. unfold take_cap. next_read sees_read8. unfold learn.
  destruct (byte_at w (nth_bdf k) cap =? PCI_CAP_VNDR); cbn [negb orb]; [|by apply triple_ret].
  next_read sees_read8. next_read sees_read8. next_read sees_read32. next_read sees_bar. change (bar_at w io (nth_bdf k) _) with (cap_bar w io (nth_bdf k) cap).
  destruct (cap_bar w io (nth_bdf k) cap =? 0); [by apply triple_ret|]. change (byte_at w (nth_bdf k) (cap + 3)) with (cap_type w (nth_bdf k) cap).
  intros v Hv. rewrite (bind_ret _ _ _ true v) by done. cbn [negb].
  destruct (Z.eqb_spec (cap_type w (nth_bdf k) cap) VIRTIO_PCI_CAP_COMMON_CFG) as [->|]; [by eexists _, v|].
  destruct (Z.eqb_spec (cap_type w (nth_bdf k) cap) VIRTIO_PCI_CAP_NOTIFY_CFG) as [->|]; [|by eexists _, v].
  destruct (sees_read32 w k (cap + 16) Hk v Hv) as (x & v' & E & -> & Hv'). eexists _, v'. split; [|done].
  cbn [Z.eqb Pos.eqb VIRTIO_PCI_CAP_NOTIFY_CFG VIRTIO_PCI_CAP_DEVICE_CFG]. unfold bind at 1. by rewrite (bind_ret _ _ _ _ _ E).
Qed.

Lemma caps_loop_spec io w k l fuel cap c : 0 ≤ k < 65536 → cap_list w (nth_bdf k) cap l → (length l ≤ fuel)%nat →
  triple (sees w) (caps_loop io (λ _, ret true) (nth_bdf k) fuel cap c) (λ r v, r = Some (foldl (learn w io (nth_bdf k)) c l) ∧ sees w v).
Proof.
  intros Hk Hl. revert fuel c. induction Hl as [cap Hc|cap l Hc Hl IH]; intros fuel c Hf; destruct fuel as [|fuel]; cbn [caps_loop foldl]; cbn in Hf.
  - test_false (0x40 <=? cap). by apply triple_ret.
  - test_false (0x40 <=? cap). by apply triple_ret.
  - lia.
  - test_true (0x40 <=? cap). next_read take_cap_spec. next_read sees_read8. apply IH. lia.
Qed.

(** One step of the search. *)
Lemma find_step w devs k (a : Z) : 0 ≤ k < 65536 →
  triple (sees w) (let! id := pci_read32 (nth_bdf k) 0 in
      ret (if negb (Z.land id 0xffff =? VIRTIO_VENDOR_ID) then inl (k + 1)
           else if negb (bool_decide (u16 (Z.shiftr id 16) ∈ devs)) then inl (k + 1) else inr (nth_bdf k)))
    (λ r v, ((r = inl (k + 1) ∧ ¬ wanted w devs k) ∨ (r = inr (nth_bdf k) ∧ wanted w devs k)) ∧ sees w v).
Proof.
  intros Hk. next_read sees_read32. apply triple_ret. intros v Hv. split; [|done]. unfold wanted.
  destruct (Z.eqb_spec (Z.land (word_at w (nth_bdf k) 0) 0xffff) VIRTIO_VENDOR_ID) as [E|E]; cbn [negb]; [|left; tauto].
  case_bool_decide; cbn [negb]; [right|left]; tauto.
Qed.

Lemma pci_find_spec w devs :
  triple (sees w) (pci_find devs) (λ r v, sees w v ∧
    match r with
    | Some p => ∃ k, 0 ≤ k < 65536 ∧ p = nth_bdf k ∧ wanted w devs k ∧ ∀ j, 0 ≤ j < k → ¬ wanted w devs j
    | None => ∀ j, 0 ≤ j < 65536 → ¬ wanted w devs j
    end).
Proof.
  unfold pci_find. set (f := λ k : Z, _).
  assert (∀ n k v, sees w v → 0 ≤ k → k + Z.of_nat n ≤ 65536 → (∀ j, 0 ≤ j < k → ¬ wanted w devs j) →
    ∃ r v', nloop f n k v = Ret (r, v') ∧ sees w v' ∧
      match r with
      | inl k' => k' = k + Z.of_nat n ∧ ∀ j, 0 ≤ j < k' → ¬ wanted w devs j
      | inr p => ∃ k, 0 ≤ k < 65536 ∧ p = nth_bdf k ∧ wanted w devs k ∧ ∀ j, 0 ≤ j < k → ¬ wanted w devs j
      end) as Hloop.
  { induction n as [|n IH]; intros k v Hv Hk Hn Hj; cbn [nloop].
    - exists (inl k), v. split; [done|]. split; [done|]. split; [lia|done].
    - destruct (find_step w devs k 0 ltac:(lia) v Hv) as (r & v1 & E & [(-> & Hno)|(-> & Hyes)] & Hv1); rewrite (bind_ret _ _ _ _ _ E).
      + destruct (IH (k + 1) v1 Hv1) as (r & v2 & E2 & Hv2 & Hr); [lia|lia| |].
        { intros j Hjr. destruct (decide (j = k)) as [->|]; [done|]. apply Hj. lia. }
        exists r, v2. split; [done|]. split; [done|]. destruct r as [k'|p]; [|done]. destruct Hr as [-> Hr]. split; [lia|done].
      + exists (inr (nth_bdf k)), v1. split; [done|]. split; [done|]. exists k. split; [lia|done]. }
  intros v Hv. destruct (Hloop (Pos.to_nat 65536) 0 v Hv) as (r & v' & E & Hv' & Hr); [lia|lia|lia|].
  exists (match r with inr p => Some p | inl _ => None end), v'. rewrite (bind_ret _ _ _ r v') by (by rewrite ploop_nloop). split; [done|].
  split; [done|]. destruct r as [k'|p]; [|done]. destruct Hr as [-> Hr]. intros j Hj. apply Hr. lia.
Qed.

(** [C39] Finding a device on the bus: the search gives the first function, in the order of
    bus, device and function, whose vendor and device number are wanted, or nothing when
    there is none; and for the function found, the walk along its capabilities, however
    they are ordered, gives the addresses that the last capability of each kind describes.
    Reading changes nothing in the configuration space. *)
Theorem pci_discovery v devs io c :
  let w := cfg_word v in
  (∃ r v', pci_find devs v = Ret (r, v') ∧ sees w v' ∧
     match r with
     | Some p => ∃ k, 0 ≤ k < 65536 ∧ p = nth_bdf k ∧ wanted w devs k ∧ (∀ j, 0 ≤ j < k → ¬ wanted w devs j)
     | None => ∀ j, 0 ≤ j < 65536 → ¬ wanted w devs j
     end)
  ∧ (∀ k l, 0 ≤ k < 65536 → cap_list w (nth_bdf k) (byte_at w (nth_bdf k) 0x34) l → (length l ≤ 192)%nat →
       ∃ v', pci_map_virtio_caps io (λ _, ret true) (nth_bdf k) c v = Ret (Some (foldl (learn w io (nth_bdf k)) c l), v') ∧ sees w v').
Proof.
  intros w. split.
  - destruct (pci_find_spec w devs v) as (r & v' & E & Hv & Hr); [done|]. by exists r, v'.
  - intros k l Hk Hl Hf. assert (triple (sees w) (pci_map_virtio_caps io (λ _, ret true) (nth_bdf k) c)
      (λ r v, r = Some (foldl (learn w io (nth_bdf k)) c l) ∧ sees w v)) as Hcaps.
    { unfold pci_map_virtio_caps. next_read sees_read8. by apply caps_loop_spec. }
    destruct (Hcaps v) as (r & v' & E & -> & Hv); [done|]. by exists v'.
Qed.

End discovery.

(** ** Example: a machine with one device *)

(** The last address and the words by address. *)
Record pci_machine := mk_pm { pm_addr : Z; pm_words : Z → Z }.

#[export] Instance pci_machine_ports : PciPorts pci_machine := {
  outl port val v := if port =? PCI_CONFIG_ADDR then mk_pm val (pm_words v) else v;
  inl_ port v := (pm_words v (pm_addr v), v)
}.

#[export] Instance pci_machine_laws : PciLaws pci_machine.
Proof.
  refine {| cfg_word v p off := pm_words v (cfg_addr p off) |}. intros v k off _. cbn. split; [|done]. unfold nth_bdf, cfg_addr.
  by rewrite <- Z.land_assoc.
Defined.

(** A block device in slot 3: a common structure at the start of its second memory
    range, and a notification structure behind it. *)
Definition demo_words (a : Z) : Z :=
  let off := Z.land a 0xff in
  if negb (Z.shiftr a 8 =? Z.shiftr (cfg_addr (nth_bdf 24) 0) 8) then 0xffffffff
  else if off =? 0 then 0x10011af4
  else if off =? 0x14 then 0xfebd4000
  else if off =? 0x34 then 0x40
  else if off =? 0x40 then 0x01105409
  else if off =? 0x44 then 1
  else if off =? 0x48 then 0
  else if off =? 0x54 then 0x02140009
  else if off =? 0x58 then 1
  else if off =? 0x5c then 0x3000
  else if off =? 0x64 then 4
  else 0.
Definition demo_pci : pci_machine := mk_pm 0 demo_words.

Lemma pci_discovery_witness :
  ∃ v', pci_map_virtio_caps true (λ _, ret true) (nth_bdf 24) (mk_vcfg 0 0 4 0) demo_pci = Ret (Some (mk_vcfg 0xfebd4000 0xfebd7000 4 0), v').
Proof.
  destruct (pci_discovery demo_pci [0x1001; 0x1002] true (mk_vcfg 0 0 4 0)) as [_ Hcaps].
  destruct (Hcaps 24 [0x40; 0x54]) as (v' & E & _); [lia| |cbn; lia|].
  - apply cap_next; [by vm_compute|]. apply cap_next; [by vm_compute|]. by apply cap_end; vm_compute.
  - exists v'. rewrite E. do 3 f_equal.
Defined.
