(* ===== verification/PciBlk.v ===== *)
(** * The block driver of the PC port (kernel/arch/x86/virtio_pci_blk.c)

    The contract is that of the other port's driver (VirtioBlk.v): driver and device
    together are a disk.  Here the queue has 256 entries, the device moves the data from
    and to the caller's buffer, and the driver does not bring its position in the used
    ring up to date before a request. *)

From S2P Require Import Prelude Persist Vm Virtio VirtioBlk Pci.

Definition VQ_SIZE : Z := 256.
Definition BLK_DEVICES : list Z := [0x1001; 0x1002].

(** The device's activity on the shared memory; [blk_data] is the caller's buffer. *)
Record pblk (V : Type) := mk_pblk {
  pb_dev : V;
  pb_fn : bdf;
  pb_cfg : vcfg;
  pb_ready : bool;
  pb_shared : blk_mem
}.
Arguments mk_pblk {V}. Arguments pb_dev {V}. Arguments pb_fn {V}. Arguments pb_cfg {V}. Arguments pb_ready {V}. Arguments pb_shared {V}.

(** The static variables at the start. *)
Definition zero_pblk {V} (v : V) (buf : list Z) : pblk V :=
  mk_pblk v (-1, -1, -1) (mk_vcfg 0 0 4 0) false (mk_bmem (zero_vq 256) (mk_outhdr 0 0 0) buf 0).

Section driver.
Context {V : Type} `{PciPorts V} `{Bus V} `{BlkHost V}.
Context (a_outhdr a_status a_desc a_avail a_used : Z).
Abbreviation pblk := (pblk V).

Definition set_dev (v : V) (b : pblk) : pblk := mk_pblk v (pb_fn b) (pb_cfg b) (pb_ready b) (pb_shared b).
Definition set_shared (m : blk_mem) (b : pblk) : pblk := mk_pblk (pb_dev b) (pb_fn b) (pb_cfg b) (pb_ready b) m.
Definition ondev {A} (m : M V A) : M pblk A := zoom pb_dev set_dev m.

Definition virtio_blk_ready (b : pblk) : bool := pb_ready b.

(** All features but 28 and 29 are accepted. *)
Definition blk_features (offered : Z) : Z := Z.land (u32 offered) (Z.lxor 0xffffffff (Z.lor (Z.shiftl 1 28) (Z.shiftl 1 29))).

Definition virtio_blk_init : M pblk Z :=
  let! ready := gets pb_ready in
  if ready : bool then ret 0
  else
    let! fn := ondev (pci_find BLK_DEVICES) in
    match fn with
    | None => ret ENODEV
    | Some fn =>
        modify (λ b, mk_pblk (pb_dev b) fn (pb_cfg b) (pb_ready b) (pb_shared b)) ;;
        ondev (pci_enable fn) ;;
        let! c0 := gets pb_cfg in
        let! c := ondev (pci_map_virtio_caps true (λ _, ret true) fn c0) in
        match c with
        | None => undef
        | Some c =>
            modify (λ b, mk_pblk (pb_dev b) (pb_fn b) c (pb_ready b) (pb_shared b)) ;;
            if negb (caps_complete c) then ret ENODEV
            else
              let! ok := ondev (device_start c (Some blk_features)) in
              if negb ok then ret EIO
              else
                modify (λ b, set_shared (with_bq (vq_bind 0 0 (blkq (pb_shared b))) (pb_shared b)) b) ;;
                let! q := gets (λ b, blkq (pb_shared b)) in
                let! r := ondev (vq_setup VQ_SIZE false c q a_desc a_avail a_used) in
                if negb (r.1 =? 0) then ret EIO
                else
                  modify (λ b, set_shared (with_bq r.2 (pb_shared b)) b) ;;
                  ondev (device_go c) ;;
                  modify (λ b, mk_pblk (pb_dev b) (pb_fn b) (pb_cfg b) true (pb_shared b)) ;;
                  ret 0
        end
    end.

(** The three descriptors of a request. *)
Definition blk_chain (a_buf : Z) (write : bool) (q : virtqueue) : virtqueue :=
  let data_flags := Z.lor (if write then 0 else VRING_DESC_F_WRITE) VRING_DESC_F_NEXT in
  set_desc 2 (mk_desc a_status 1 VRING_DESC_F_WRITE 0)
    (set_desc 1 (mk_desc a_buf VIRTIO_SECTOR_SIZE data_flags 2)
      (set_desc 0 (mk_desc a_outhdr 16 VRING_DESC_F_NEXT 1) q)).

Definition blk_prepare (sector a_buf : Z) (buf : list Z) (write : bool) (m : blk_mem) : blk_mem :=
  mk_bmem (blk_chain a_buf write (blkq m)) (mk_outhdr (if write then VIRTIO_BLK_T_OUT else VIRTIO_BLK_T_IN) 0 (u32 sector)) buf 0xff.

Definition device_acts (b : pblk) : pblk :=
  let '(m, v) := blk_run (pb_shared b, pb_dev b) in mk_pblk v (pb_fn b) (pb_cfg b) (pb_ready b) m.

(** The result and the caller's buffer. *)
Definition blk_transfer (sector a_buf : Z) (buf : list Z) (write : bool) : M pblk (Z * list Z) :=
  let! ready := gets pb_ready in
  if negb ready then ret (ENODEV, buf)
  else
    modify (λ b, set_shared (blk_prepare sector a_buf buf write (pb_shared b)) b) ;;
    zoom (λ b, (blkq (pb_shared b), pb_dev b)) (λ p b, set_dev p.2 (set_shared (with_bq p.1 (pb_shared b)) b)) (vq_submit VQ_SIZE 0) ;;
    let! rc := vq_wait_used (modify device_acts) (λ b, blkq (pb_shared b)) 10000000 in
    let! m := gets pb_shared in
    if negb (rc =? 0) then ret (ETIMEDOUT, blk_data m)
    else
      let '(rc, _, q) := vq_consume VQ_SIZE (blkq m) in
      modify (λ b, set_shared (with_bq q (pb_shared b)) b) ;;
      if negb (rc =? 0) then ret (EIO, blk_data m)
      else if negb (blk_status m =? 0) then ret (EIO, blk_data m)
      else ret (0, blk_data m).

Definition virtio_blk_read_sector (sector a_buf : Z) (buf : list Z) : M pblk (Z * list Z) := blk_transfer sector a_buf buf false.

Definition virtio_blk_write_sector (sector a_buf : Z) (buf : list Z) : M pblk Z :=
  let! r := blk_transfer sector a_buf buf true in ret r.1.

End driver.

(** ** What the device promises *)

(** The request that the device serves: a chain of three descriptors published at the
    position [seen] of the available ring. *)
Record request (a_outhdr a_status a_buf : Z) (m : blk_mem) (seen : Z) (write : bool) (sector : Z) : Prop := {
  rq_hdr : blk_outhdr m = mk_outhdr (if write then VIRTIO_BLK_T_OUT else VIRTIO_BLK_T_IN) 0 sector;
  rq_d0 : vq_desc (blkq m) !! 0%nat = Some (mk_desc a_outhdr 16 VRING_DESC_F_NEXT 1);
  rq_d1 : vq_desc (blkq m) !! 1%nat = Some (mk_desc a_buf VIRTIO_SECTOR_SIZE
            (if write then VRING_DESC_F_NEXT else Z.lor VRING_DESC_F_WRITE VRING_DESC_F_NEXT) 2);
  rq_d2 : vq_desc (blkq m) !! 2%nat = Some (mk_desc a_status 1 VRING_DESC_F_WRITE 0);
  rq_avail : vq_avail_idx (blkq m) = u16 (seen + 1);
  rq_slot : vq_avail_ring (blkq m) !! Z.to_nat (seen mod 256) = Some 0;
  rq_data : zlen (blk_data m) = VIRTIO_SECTOR_SIZE
}.

(** A virtio block device on the bus, as in VirtioBlk.v. *)
Class PciBlkLaws (V : Type) `{Bus V} `{BlkHost V} (a_outhdr a_status : Z) := {
  ph_disk : V → gmap Z (list Z);
  ph_cap : V → Z;
  ph_seen : V → Z;
  ph_notify : ∀ base val v, let v' := mmio_write base 0 val v in
    ph_disk v' = ph_disk v ∧ ph_cap v' = ph_cap v ∧ ph_seen v' = ph_seen v;
  ph_serves : ∀ a_buf m v write sector, request a_outhdr a_status a_buf m (ph_seen v) write sector → 0 ≤ sector < ph_cap v →
    ∃ (n : nat) v' ring, Z.of_nat n < 10000000
      ∧ (∀ k, (k ≤ n)%nat → blkq (Nat.iter k blk_run (m, v)).1 = blkq m)
      ∧ Nat.iter (1 + n) blk_run (m, v)
        = (mk_bmem (set_used (u16 (vq_used_idx (blkq m) + 1)) ring (blkq m)) (blk_outhdr m)
             (if write then blk_data m else sector_of (ph_disk v) sector) 0, v')
      ∧ ph_seen v' = u16 (ph_seen v + 1) ∧ ph_cap v' = ph_cap v
      ∧ ph_disk v' = (if write then <[sector := blk_data m]> (ph_disk v) else ph_disk v)
}.

Section refinement.
Context {V : Type} `{Bus V} `{BlkHost V} (a_outhdr a_status a_buf : Z) (room : list Z).
Context `{!PciBlkLaws V a_outhdr a_status}.
Implicit Types (b : pblk V) (m : blk_mem) (v : V).
Abbreviation disk b := (ph_disk (a_outhdr:=a_outhdr) (a_status:=a_status) (pb_dev b)).
Abbreviation cap b := (ph_cap (a_outhdr:=a_outhdr) (a_status:=a_status) (pb_dev b)).
Abbreviation seen v := (ph_seen (a_outhdr:=a_outhdr) (a_status:=a_status) v).

(** Between requests: driver and device agree on both rings. *)
Record pblk_inv b : Prop := {
  pi_ready : pb_ready b = true;
  pi_desc : length (vq_desc (blkq (pb_shared b))) = 256%nat;
  pi_ring : length (vq_avail_ring (blkq (pb_shared b))) = 256%nat;
  pi_avail : vq_avail_idx (blkq (pb_shared b)) = seen (pb_dev b);
  pi_used : 0 ≤ vq_used_idx (blkq (pb_shared b)) < 65536;
  pi_last : vq_last_used (blkq (pb_shared b)) = vq_used_idx (blkq (pb_shared b));
  pi_disk : ∀ t, 0 ≤ t < cap b → zlen (sector_of (disk b) t) = VIRTIO_SECTOR_SIZE
}.

Lemma iter_pci_device k b :
  Nat.iter k device_acts b
  = mk_pblk (Nat.iter k blk_run (pb_shared b, pb_dev b)).2 (pb_fn b) (pb_cfg b) (pb_ready b)
      (Nat.iter k blk_run (pb_shared b, pb_dev b)).1.
Proof.
  induction k as [|k IH]; [by destruct b|]. cbn [Nat.iter nat_rect]. unfold Nat.iter in *. rewrite IH. unfold device_acts.
  cbn [pb_shared pb_dev pb_fn pb_cfg pb_ready]. rewrite <- surjective_pairing. by destruct (blk_run _).
Qed.

(** The shared memory and the device after a request is published. *)
Definition published b (sector : Z) (buf : list Z) (write : bool) : blk_mem * V :=
  let m := blk_prepare a_outhdr a_status sector a_buf buf write (pb_shared b) in
  let q := vq_publish VQ_SIZE 0 (blkq m) in
  (with_bq q m, mmio_write (vq_mmio q) 0 (u16 (vq_qidx q)) (pb_dev b)).

Lemma land255 x : Z.land x 255 = x mod 256.
Proof. change 255 with (Z.ones 8). by rewrite Z.land_ones by lia. Qed.

Lemma pci_published b sector buf write :
  pblk_inv b → 0 ≤ sector < 4294967296 → zlen buf = VIRTIO_SECTOR_SIZE →
  request a_outhdr a_status a_buf (published b sector buf write).1 (seen (pb_dev b)) write sector.
Proof.
  intros [Hr Hd Hg Ha Hu Hl Hdisk] Hs Hbuf. split.
  - cbn. by rewrite u32_small by lia.
  - cbn. rewrite !list_lookup_insert_ne by lia. apply list_lookup_insert_eq. lia.
  - cbn. rewrite list_lookup_insert_ne, list_lookup_insert_eq by (rewrite ?length_insert; lia). by destruct write.
  - cbn. apply list_lookup_insert_eq. rewrite !length_insert. lia.
  - cbn. by rewrite <- Ha.
  - cbn [published fst with_bq blkq vq_publish vq_avail_ring blk_prepare blk_chain set_desc vq_avail_idx]. rewrite Ha.
    change (VQ_SIZE - 1) with 255. rewrite land255. apply list_lookup_insert_eq. rewrite Hg. pose proof (Z.mod_pos_bound (seen (pb_dev b)) 256). lia.
  - done.
Qed.

(** A whole request. *)
Lemma pci_transfer_spec b sector buf write :
  pblk_inv b → 0 ≤ sector < cap b → sector < 4294967296 → zlen buf = VIRTIO_SECTOR_SIZE →
  ∃ b', blk_transfer a_outhdr a_status sector a_buf buf write b = Ret ((0, if write then buf else sector_of (disk b) sector), b')
    ∧ pblk_inv b' ∧ cap b' = cap b ∧ disk b' = (if write then <[sector := buf]> (disk b) else disk b).
Proof.
  intros Hi Hs Hs2 Hbuf. pose proof (pci_published b sector buf write Hi ltac:(lia) Hbuf) as Hrq.
  destruct Hi as [Hr Hd Hg Ha Hu Hl Hdisk]. set (p := published b sector buf write) in *.
  destruct (ph_notify (vq_mmio (blkq p.1)) (u16 (vq_qidx (blkq p.1))) (pb_dev b)) as (Nd & Nc & Ns).
  change (mmio_write _ _ _ (pb_dev b)) with p.2 in Nd, Nc, Ns. rewrite <- Ns in Hrq.
  destruct (ph_serves a_buf p.1 p.2 write sector Hrq ltac:(rewrite Nc; done)) as (n & v' & ring & Hn & Hbefore & Hdone & Hseen & Hcap & Hdisk').
  rewrite <- surjective_pairing in Hbefore, Hdone. set (m' := mk_bmem _ _ _ _) in Hdone.
  assert (vq_used_idx (blkq m') = u16 (vq_used_idx (blkq (pb_shared b)) + 1) ∧ vq_last_used (blkq m') = vq_used_idx (blkq (pb_shared b))) as [Eu El] by done.
  assert (u16 (vq_used_idx (blkq (pb_shared b)) + 1) ≠ vq_used_idx (blkq (pb_shared b))) as Hne
    by (unfold u16; Z.to_euclidean_division_equations; lia).
  assert (vq_wait_used (modify device_acts) (λ b, blkq (pb_shared b)) 10000000 (set_dev p.2 (set_shared p.1 b))
          = Ret (0, mk_pblk v' (pb_fn b) (pb_cfg b) true m')) as Ew.
  { rewrite (vq_wait_done device_acts (λ b, blkq (pb_shared b)) 10000000 _ n).
    - rewrite iter_pci_device. change (Nat.iter (1 + n) blk_run _) with (Nat.iter (1 + n) blk_run p). rewrite Hdone. simpl. by rewrite Hr.
    - rewrite <- (Nat2Z.id n), <- Z2Nat.inj_pos. lia.
    - intros k Hk. rewrite iter_pci_device. cbn [pb_shared]. change (Nat.iter k blk_run _) with (Nat.iter k blk_run p).
      rewrite Hbefore by lia. by rewrite (Hl : vq_last_used (blkq p.1) = vq_used_idx (blkq p.1)).
    - rewrite iter_pci_device. change (Nat.iter (1 + n) blk_run _) with (Nat.iter (1 + n) blk_run p). rewrite Hdone. cbn [fst pb_shared]. congruence. }
  unfold blk_transfer. rewrite bind_gets, Hr. cbn [negb]. rewrite bind_modify.
  rewrite (bind_ret _ _ _ tt (set_dev p.2 (set_shared p.1 b))) by done. rewrite (bind_ret _ _ _ _ _ Ew), bind_gets.
  cbn [Z.eqb negb pb_shared]. unfold vq_consume. rewrite Eu, El. apply Z.eqb_neq in Hne as Hne'. rewrite Hne'. rewrite bind_modify. cbn [Z.eqb negb].
  change (blk_status m') with 0. cbn [Z.eqb negb]. eexists. split; [|split; [|split]].
  - unfold ret. do 3 f_equal. unfold m'. cbn [blk_data]. destruct write; [done|by rewrite Nd].
  - constructor; cbn [set_shared with_bq blkq pb_shared pb_dev pb_ready set_last_used vq_desc vq_avail_ring vq_avail_idx vq_used_idx vq_last_used].
    + done.
    + cbn. by rewrite !length_insert.
    + cbn. by rewrite length_insert.
    + rewrite Hseen, Ns. cbn. by rewrite <- Ha.
    + rewrite Eu. apply Z.mod_pos_bound. lia.
    + by rewrite Eu.
    + rewrite Hcap, Nc, Hdisk', Nd. intros t Ht. destruct write; [|by apply Hdisk]. unfold sector_of in *.
      destruct (decide (t = sector)) as [->|]; [by rewrite lookup_insert_eq|]. rewrite lookup_insert_ne by done. by apply Hdisk.
  - cbn [set_shared pb_dev]. congruence.
  - cbn [set_shared pb_dev]. rewrite Hdisk', Nd. by destruct write.
Qed.

Fixpoint run_pci_ops (ops : list blk_op) : M (pblk V) (list (Z * list Z)) :=
  match ops with
  | [] => ret []
  | Rd t :: ops' =>
      let! x := virtio_blk_read_sector a_outhdr a_status t a_buf room in let! r := run_pci_ops ops' in ret (x :: r)
  | Wr t buf :: ops' =>
      let! rc := virtio_blk_write_sector a_outhdr a_status t a_buf buf in let! r := run_pci_ops ops' in ret ((rc, []) :: r)
  end.

(** Sectors that a 32-bit number can name. *)
Definition pci_op_ok (n : Z) (o : blk_op) : Prop :=
  match o with
  | Rd t => 0 ≤ t < n ∧ t < 4294967296
  | Wr t buf => 0 ≤ t < n ∧ t < 4294967296 ∧ zlen buf = VIRTIO_SECTOR_SIZE
  end.

(** [C40] The block driver of the PC port over a virtio device is a disk as well: from any
    state between requests, every sequence of reads and writes of sectors within the
    capacity succeeds, a read into any buffer of one sector gives the bytes as the last
    write left them, and the device ends up with the disk that the writes make. *)
Theorem pci_blk_refines b ops :
  pblk_inv b → zlen room = VIRTIO_SECTOR_SIZE → Forall (pci_op_ok (cap b)) ops →
  ∃ b', run_pci_ops ops b = Ret ((spec_ops ops (disk b)).1, b') ∧ pblk_inv b' ∧ cap b' = cap b ∧ disk b' = (spec_ops ops (disk b)).2.
Proof.
  intros Hi Hroom Hops. revert b Hi Hops. induction ops as [|o ops IH]; intros b Hi Hops; [by exists b|].
  apply Forall_cons in Hops as [Ho Hops]. destruct o as [t|t buf]; cbn [run_pci_ops spec_ops pci_op_ok] in *.
  - destruct Ho as [Ht Ht2]. destruct (pci_transfer_spec b t room false Hi Ht Ht2 Hroom) as (b1 & E1 & Hi1 & Hc1 & Hd1).
    destruct (IH b1 Hi1) as (b2 & E2 & Hi2 & Hc2 & Hd2); [by rewrite Hc1|]. rewrite Hd1 in E2, Hd2.
    destruct (spec_ops ops (disk b)) as [r d]. exists b2. unfold virtio_blk_read_sector.
    rewrite (bind_ret _ _ _ _ _ E1), (bind_ret _ _ _ _ _ E2), Hc2. done.
  - destruct Ho as (Ht & Ht2 & Hl). destruct (pci_transfer_spec b t buf true Hi Ht Ht2 Hl) as (b1 & E1 & Hi1 & Hc1 & Hd1).
    destruct (IH b1 Hi1) as (b2 & E2 & Hi2 & Hc2 & Hd2); [by rewrite Hc1|]. rewrite Hd1 in E2, Hd2.
    destruct (spec_ops ops _) as [r d]. exists b2. unfold virtio_blk_write_sector.
    rewrite (bind_ret _ _ _ 0 b1), (bind_ret _ _ _ _ _ E2), Hc2; [done|]. unfold bind. by rewrite E1.
Qed.

(** *** Out of step *)

(** A completion that comes after its request was given up stays in the used ring: the
    next request takes it for its own and ends at the first look, with the status that
    the driver had put there, so that it fails although the device will serve it. *)
Lemma pci_blk_out_of_step b sector buf write :
  pb_ready b = true → vq_used_idx (blkq (pb_shared b)) ≠ vq_last_used (blkq (pb_shared b)) →
  (∀ p, blk_run p = (p.1, (blk_run p).2)) →
  ∃ b', blk_transfer a_outhdr a_status sector a_buf buf write b = Ret ((EIO, buf), b').
Proof.
  intros Hr Hne Hidle. set (p := published b sector buf write).
  unfold blk_transfer. rewrite bind_gets, Hr. cbn [negb]. rewrite bind_modify.
  rewrite (bind_ret _ _ _ tt (set_dev p.2 (set_shared p.1 b))) by done.
  assert (device_acts (set_dev p.2 (set_shared p.1 b)) = set_dev (blk_run p).2 (set_shared p.1 b)) as Ed.
  { unfold device_acts. cbn [pb_shared pb_dev set_dev set_shared]. rewrite <- surjective_pairing. by rewrite (Hidle p). }
  rewrite (bind_ret _ _ _ 0 (set_dev (blk_run p).2 (set_shared p.1 b))).
  2: { rewrite (vq_wait_done device_acts (λ b, blkq (pb_shared b)) 10000000 _ 0); [|lia|intros k; lia|].
       - change (Nat.iter (1 + 0) device_acts ?x) with (device_acts x). by rewrite Ed.
       - change (Nat.iter (1 + 0) device_acts ?x) with (device_acts x). by rewrite Ed. }
  rewrite bind_gets. cbn [Z.eqb negb pb_shared set_dev set_shared]. unfold vq_consume.
  destruct (Z.eqb_spec (vq_used_idx (blkq p.1)) (vq_last_used (blkq p.1))) as [E|_]; [done|]. rewrite bind_modify. by eexists.
Qed.

End refinement.

(** ** Example: the device of Pci.v with a disk in memory *)

Record pci_ram := mk_pr { pr_pci : pci_machine; pr_disk : gmap Z (list Z); pr_cap : Z; pr_seen : Z; pr_status : Z }.

#[export] Instance pci_ram_ports : PciPorts pci_ram := {
  outl port val v := mk_pr (outl port val (pr_pci v)) (pr_disk v) (pr_cap v) (pr_seen v) (pr_status v);
  inl_ port v := ((inl_ port (pr_pci v)).1, v)
}.

#[export] Instance pci_ram_bus : Bus pci_ram := {
  mmio_read base off v :=
    (if negb (base =? 0xfebd4000) then 0
     else if off =? CFG_QUEUE_SIZE then 256 else if off =? CFG_DEVICE_STATUS then pr_status v else 0, v);
  mmio_write base off val v :=
    if (base =? 0xfebd4000) && (off =? CFG_DEVICE_STATUS)
    then mk_pr (pr_pci v) (pr_disk v) (pr_cap v) (if val =? 0 then 0 else pr_seen v) val
    else v
}.

#[export] Instance pci_ram_blk : BlkHost pci_ram := {
  blk_run p :=
    let '(m, v) := p in
    let q := blkq m in
    if vq_avail_idx q =? pr_seen v then (m, v)
    else
      let h := blk_outhdr m in
      let write := oh_type h =? VIRTIO_BLK_T_OUT in
      let used := <[Z.to_nat (vq_used_idx q mod 256) := (0, 513)]> (vq_used_ring q) in
      (mk_bmem (set_used (u16 (vq_used_idx q + 1)) used q) h (if write then blk_data m else sector_of (pr_disk v) (oh_sector h)) 0,
       mk_pr (pr_pci v) (if write then <[oh_sector h := blk_data m]> (pr_disk v) else pr_disk v) (pr_cap v) (u16 (pr_seen v + 1)) (pr_status v))
}.

#[export] Instance pci_ram_laws a b : PciBlkLaws pci_ram a b.
Proof.
  refine {| ph_disk := pr_disk; ph_cap := pr_cap; ph_seen := pr_seen |}.
  - intros base val v. simpl. by rewrite andb_false_r.
  - intros a_buf m v write sector [Hh _ _ _ Ha _ _] Hs.
    assert (vq_avail_idx (blkq m) ≠ pr_seen v) as Hne by (rewrite Ha; unfold u16; Z.to_euclidean_division_equations; lia).
    exists 0%nat, (mk_pr (pr_pci v) (if write then <[sector := blk_data m]> (pr_disk v) else pr_disk v) (pr_cap v) (u16 (pr_seen v + 1)) (pr_status v)),
      (<[Z.to_nat (vq_used_idx (blkq m) mod 256) := (0, 513)]> (vq_used_ring (blkq m))). split; [lia|]. split; [intros k Hk; by destruct k as [|k]; [|lia]|]. split; [|split; [|split]].
    + simpl. test_false (vq_avail_idx (blkq m) =? pr_seen v). rewrite Hh. cbn [oh_type oh_sector]. by destruct write.
    + done.
    + done.
    + done.
Defined.

Definition demo_pci_host : pci_ram := mk_pr demo_pci (list_to_map ((λ t, (t, replicate 512 0)) <$> seqZ 0 4)) 4 0 0.

(** The driver after its initialisation. *)
Definition demo_pblk : pblk pci_ram :=
  match virtio_blk_init 6 7 8 (zero_pblk demo_pci_host (replicate 512 0)) with
  | Ret (_, b) => b
  | _ => zero_pblk demo_pci_host (replicate 512 0)
  end.

Lemma pci_blk_refines_witness :
  ∃ b', run_pci_ops 1 2 3 (replicate 512 9) [Wr 2 (replicate 512 7); Rd 1; Rd 2] demo_pblk
        = Ret ([(0, []); (0, replicate 512 0); (0, replicate 512 7)], b').
Proof.
  destruct (pci_blk_refines 1 2 3 (replicate 512 9) demo_pblk [Wr 2 (replicate 512 7); Rd 1; Rd 2]) as (b' & E & _).
  - split; try (by vm_compute). intros t Ht. assert (0 ≤ t < 4) as H4 by exact Ht. assert (t = 0 ∨ t = 1 ∨ t = 2 ∨ t = 3) as [->|[->|[->| ->]]] by lia;
      by vm_compute.
  - done.
  - repeat constructor; by vm_compute.
  - exists b'. rewrite E. by do 2 f_equal.
Defined.
