(* ===== verification/PciNet.v ===== *)
(** * The network driver of the PC port (kernel/arch/x86/virtio_pci_net.c)

    The queues and buffers are those of the other port's driver, so the shared memory is
    the same record [net_mem]; the device is found and notified as in Pci.v, and its
    structures are mapped into the kernel's tables (X86Vm.v). *)

From S2P Require Import Prelude Persist Paths Mem Vm NetWire Net NetProps X86Vm Virtio VirtioNet Pci.

Definition NET_DEVICES : list Z := [0x1041; 0x1000].

Record pnet (V : Type) := mk_pnet {
  pn_dev : V;
  pn_vm : vm;
  pn_cfg : vcfg;
  pn_ready : bool;
  pn_mac : list Z;
  pn_shared : net_mem
}.
Arguments mk_pnet {V}. Arguments pn_dev {V}. Arguments pn_vm {V}. Arguments pn_cfg {V}. Arguments pn_ready {V}.
Arguments pn_mac {V}. Arguments pn_shared {V}.

Section driver.
Context {V : Type} `{PciPorts V} `{Bus V} `{NetHost V} {L : Layout}.
Context (a_pool : Z → Z) (a_tx : Z) (a_rxq a_txq : Z * Z * Z).
Abbreviation pnet := (pnet V).

Definition set_dev (v : V) (d : pnet) : pnet := mk_pnet v (pn_vm d) (pn_cfg d) (pn_ready d) (pn_mac d) (pn_shared d).
Definition set_shared (m : net_mem) (d : pnet) : pnet := mk_pnet (pn_dev d) (pn_vm d) (pn_cfg d) (pn_ready d) (pn_mac d) m.
Definition set_mac (mac : list Z) (d : pnet) : pnet := mk_pnet (pn_dev d) (pn_vm d) (pn_cfg d) (pn_ready d) mac (pn_shared d).
Definition set_cfg (c : vcfg) (d : pnet) : pnet := mk_pnet (pn_dev d) (pn_vm d) c (pn_ready d) (pn_mac d) (pn_shared d).
Definition ondev {A} (m : M V A) : M pnet A := zoom pn_dev set_dev m.
Definition onrx {A} (m : M (virtqueue * V) A) : M pnet A :=
  zoom (λ d, (net_rxq (pn_shared d), pn_dev d)) (λ p d, set_dev p.2 (set_shared (with_rxq p.1 (pn_shared d)) d)) m.
Definition ontx {A} (m : M (virtqueue * V) A) : M pnet A :=
  zoom (λ d, (net_txq (pn_shared d), pn_dev d)) (λ p d, set_dev p.2 (set_shared (with_txq p.1 (pn_shared d)) d)) m.

(** The search sees the ports and the kernel's tables. *)
#[local] Instance ports_and_tables : PciPorts (V * vm) := {
  outl port val p := (outl port val p.1, p.2);
  inl_ port p := let '(x, v) := inl_ port p.1 in (x, (v, p.2))
}.
Definition onbus {A} (m : M (V * vm) A) : M pnet A :=
  zoom (λ d, (pn_dev d, pn_vm d)) (λ p d, mk_pnet p.1 p.2 (pn_cfg d) (pn_ready d) (pn_mac d) (pn_shared d)) m.

Definition pci_map_bar_mmio (pa size : Z) : M vm Z :=
  let! k := gets kernel_pt in vm_map_region k pa pa size (Z.lor PTE_R PTE_W).

Definition map_bar (pa : Z) : M (V * vm) bool :=
  let! rc := zoom snd (λ x p, (p.1, x)) (pci_map_bar_mmio pa 4096) in ret (rc =? 0).

Definition DEFAULT_MAC : list Z := [0x52; 0x54; 0x00; 0x12; 0x34; 0x56].

Fixpoint read_mac (n : nat) (base i : Z) : M V (list Z) :=
  match n with
  | O => ret []
  | S n' => let! x := reg_read base i in let! r := read_mac n' base (i + 1) in ret (u8 x :: r)
  end.

Definition net_read_mac : M pnet unit :=
  let! c := gets pn_cfg in
  if negb (device_cfg c =? 0) then
    let! mac := ondev (read_mac 6 (device_cfg c) 0) in modify (set_mac mac)
  else modify (set_mac DEFAULT_MAC).

Definition net_rx_refill (slot : Z) : M pnet unit :=
  onrx (modify (λ p, (set_desc (Z.to_nat slot) (mk_desc (a_pool slot) POOL_ENTRY VRING_DESC_F_WRITE 0) p.1, p.2))) ;;
  onrx (vq_submit VNET_VQ_SIZE slot).

Fixpoint refill_all (n : nat) (slot : Z) : M pnet unit :=
  match n with O => ret tt | S n' => net_rx_refill slot ;; refill_all n' (slot + 1) end.

(** The setup of a queue, which the driver keeps with its notification address. *)
Definition setup_rx (c : vcfg) : M pnet Z :=
  let! q := gets (λ d, net_rxq (pn_shared d)) in
  let! r := ondev (vq_setup VNET_VQ_SIZE true c q a_rxq.1.1 a_rxq.1.2 a_rxq.2) in
  modify (λ d, set_shared (with_rxq r.2 (pn_shared d)) d) ;; ret r.1.

Definition setup_tx (c : vcfg) : M pnet Z :=
  let! q := gets (λ d, net_txq (pn_shared d)) in
  let! r := ondev (vq_setup VNET_VQ_SIZE true c q a_txq.1.1 a_txq.1.2 a_txq.2) in
  modify (λ d, set_shared (with_txq r.2 (pn_shared d)) d) ;; ret r.1.

Definition net_init : M pnet unit :=
  let! ready := gets pn_ready in
  if ready : bool then ret tt
  else
    let! fn := ondev (pci_find NET_DEVICES) in
    match fn with
    | None => ret tt
    | Some fn =>
        ondev (pci_enable fn) ;;
        let! c0 := gets pn_cfg in
        let! c := onbus (pci_map_virtio_caps false map_bar fn (mk_vcfg 0 0 (notify_stride c0) 0)) in
        match c with
        | None => undef
        | Some c =>
            modify (set_cfg c) ;;
            if negb (caps_complete c) then ret tt
            else
              let! ok := ondev (device_start c None) in
              if negb ok then ret tt
              else
                modify (λ d, set_shared (with_txq (vq_bind 0 1 (net_txq (pn_shared d)))
                                           (with_rxq (vq_bind 0 0 (net_rxq (pn_shared d))) (pn_shared d))) d) ;;
                let! rc := setup_rx c in
                if negb (rc =? 0) then ret tt
                else
                  let! rc := setup_tx c in
                  if negb (rc =? 0) then ret tt
                  else
                    net_read_mac ;;
                    refill_all (Z.to_nat VNET_VQ_SIZE) 0 ;;
                    ondev (device_go c) ;;
                    modify (λ d, mk_pnet (pn_dev d) (pn_vm d) (pn_cfg d) true (pn_mac d) (pn_shared d))
        end
    end.

Definition device_acts (d : pnet) : pnet :=
  let '(m, v) := net_run (pn_shared d, pn_dev d) in mk_pnet v (pn_vm d) (pn_cfg d) (pn_ready d) (pn_mac d) m.

Definition net_send (frame : list Z) : M pnet Z :=
  let! ready := gets pn_ready in
  if negb ready || (zlen frame <=? 0) || (POOL_ENTRY <? zlen frame + VNET_HDR_LEN) then ret EINVAL
  else
    modify (λ d, let m := pn_shared d in
      set_shared (mk_nmem (net_rxq m)
        (set_desc 0 (mk_desc a_tx (zlen frame + VNET_HDR_LEN) 0 0) (set_last_used (vq_used_idx (net_txq m)) (net_txq m)))
        (rx_pool m) (splice (tx_buf m) 0 (replicate 10 0 ++ frame))) d) ;;
    ontx (vq_submit VNET_VQ_SIZE 0) ;;
    let! rc := vq_wait_used (modify device_acts) (λ d, net_txq (pn_shared d)) 500000 in
    if negb (rc =? 0) then ret ETIMEDOUT
    else
      modify (λ d, let q := net_txq (pn_shared d) in set_shared (with_txq (set_last_used (u16 (vq_last_used q + 1)) q) (pn_shared d)) d) ;;
      ret (zlen frame).

(** As on the other port, a length past the end of the buffer reads outside it. *)
Definition net_poll (frame_cap : Z) : M pnet (Z * list Z) :=
  let! ready := gets pn_ready in
  if negb ready || (frame_cap <=? 0) then ret (EINVAL, [])
  else
    modify device_acts ;;
    let! q := gets (λ d, net_rxq (pn_shared d)) in
    if vq_used_idx q =? vq_last_used q then ret (EAGAIN, [])
    else
      let '(id, rx_len) := nth (Z.to_nat (vq_last_used q mod VNET_VQ_SIZE)) (vq_used_ring q) (0, 0) in
      modify (λ d, set_shared (with_rxq (set_last_used (u16 (vq_last_used q + 1)) q) (pn_shared d)) d) ;;
      let slot := i32 id in
      if (slot <? 0) || (VNET_VQ_SIZE <=? slot) then ret (EIO, [])
      else if u32 rx_len <=? VNET_HDR_LEN then ret (EIO, [])
      else
        let eth_len := Z.min (i32 rx_len - VNET_HDR_LEN) frame_cap in
        if POOL_ENTRY <? VNET_HDR_LEN + eth_len then undef else
        let! pool := gets (λ d, nth (Z.to_nat slot) (rx_pool (pn_shared d)) []) in
        net_rx_refill slot ;;
        ret (0, u8 <$> sub pool VNET_HDR_LEN eth_len).

(** The card for the network stack. *)
#[export] Instance pci_nic : Nic pnet := {
  virtio_net_init d := (run_total net_init tt d).2;
  virtio_net_ready := pn_ready;
  virtio_net_mac := pn_mac;
  virtio_net_send_frame f d := run_total (net_send f) EIO d;
  virtio_net_poll_frame cap d :=
    let '((rc, f), d') := run_total (net_poll cap) (EIO, []) d in
    (if (rc =? 0) && (0 <? zlen f) then Some f else None, d')
}.

End driver.

(** ** The card as a queue of frames *)

(** A virtio network device on the bus, as in VirtioNet.v: only the place of the
    notification differs. *)
Class PciNetLaws (V : Type) `{Bus V} `{NetHost V} := {
  pw_wire : V → list (list Z);
  pw_frames : ∀ v, Forall frame_ok (pw_wire v);
  pw_notify : ∀ base val v, pw_wire (mmio_write base 0 val v) = pw_wire v;
  pw_runs : ∀ m v, ∃ l, let m' := deliver l m in
    zlen l ≤ u16 (vq_avail_idx (net_rxq m) - vq_used_idx (net_rxq m))
    ∧ Forall (λ hf, zlen hf.1 = VNET_HDR_LEN) l
    ∧ pw_wire v = (snd <$> l) ++ pw_wire (net_run (m, v)).2
    ∧ net_rxq (net_run (m, v)).1 = net_rxq m' ∧ rx_pool (net_run (m, v)).1 = rx_pool m'
}.

Section receive.
Context {V : Type} `{Bus V} `{NetHost V} `{!PciNetLaws V} (a_pool : Z → Z).
Implicit Types (d : pnet V) (m : net_mem).

Fixpoint run_pci_polls (n : nat) (cap : Z) : M (pnet V) (list (Z * list Z)) :=
  match n with
  | O => ret []
  | S n' => let! r := net_poll a_pool cap in let! rs := run_pci_polls n' cap in ret (r :: rs)
  end.

Lemma pci_acts_inv d p :
  rx_inv a_pool (pn_shared d) p → ∃ k, let d1 := device_acts d in
    rx_inv a_pool (pn_shared d1) (p ++ take k (pw_wire (pn_dev d))) ∧ pw_wire (pn_dev d1) = drop k (pw_wire (pn_dev d))
    ∧ pn_ready d1 = pn_ready d.
Proof.
  intros Hi. unfold device_acts. set (m := pn_shared d) in *. set (v := pn_dev d).
  destruct (pw_runs m v) as (l & Hn & Hh & Hw & Hq & Hp). pose proof (pw_frames v) as Hf.
  destruct (net_run (m, v)) as [m' v'] eqn:E. cbn [fst snd pn_shared pn_dev pn_ready] in *.
  exists (length l). rewrite Hw, take_app_le, take_ge, drop_app_ge by (rewrite length_fmap; lia).
  rewrite length_fmap, Nat.sub_diag, drop_0. split; [|done].
  rewrite Hw in Hf. apply Forall_app in Hf as [Hf _]. by apply (run_inv a_pool m).
Qed.

(** One poll. *)
Lemma pci_poll_spec d p cap :
  pn_ready d = true → rx_inv a_pool (pn_shared d) p → 0 < cap ≤ POOL_ENTRY - VNET_HDR_LEN →
  ∃ k d', let '(r, (p', w')) := spec_poll cap k (p, pw_wire (pn_dev d)) in
    net_poll a_pool cap d = Ret (r, d') ∧ pn_ready d' = true ∧ rx_inv a_pool (pn_shared d') p' ∧ pw_wire (pn_dev d') = w'.
Proof.
  intros Hr Hi Hc. destruct (pci_acts_inv d p Hi) as (k & Hi1 & Hw & Hr1). exists k. unfold spec_poll. cbn [fst snd].
  unfold net_poll. rewrite bind_gets, Hr. cbn [negb orb]. test_false (cap <=? 0). rewrite bind_modify, bind_gets. set (d1 := device_acts d) in *.
  rewrite (ri_used _ _ _ Hi1). pose proof (ri_last _ _ _ Hi1) as Hl. pose proof (ri_few _ _ _ Hi1) as Hf.
  destruct (p ++ take k (pw_wire (pn_dev d))) as [|f p1] eqn:Ep.
  - change (zlen (@nil (list Z))) with 0. rewrite Z.add_0_r, u16_small by lia. rewrite Z.eqb_refl. exists d1. by rewrite Hr1, Hr.
  - rewrite zlen_cons in *. pose proof (zlen_nonneg p1).
    destruct (ri_frames _ _ _ Hi1 0%nat f eq_refl) as (Hu & [[Hf1 Hf2] Hb] & row & Hrow & Hsub). rewrite Z.add_0_r in *.
    pose proof (take_inv _ _ _ _ Hi1) as Ht. cbv zeta in Ht.
    set (last := vq_last_used (net_rxq (pn_shared d1))) in *. set (slot := last mod 8) in *.
    assert (0 ≤ slot < 8) as Hs by (apply Z.mod_pos_bound; lia).
    destruct (Z.eqb_spec (u16 (last + (1 + zlen p1))) last) as [E|_].
    { exfalso. revert E. unfold u16. Z.to_euclidean_division_equations; lia. }
    change (last mod VNET_VQ_SIZE) with slot. rewrite (nth_lookup_Some _ _ _ _ Hu), bind_modify.
    unfold POOL_ENTRY, VNET_HDR_LEN in *. rewrite (i32_small slot), (i32_small (10 + zlen f)), (u32_small (10 + zlen f)) by lia.
    unfold VNET_VQ_SIZE. test_false (slot <? 0). test_false (8 <=? slot). cbn [orb]. test_false (10 + zlen f <=? 10).
    test_false (2048 <? 10 + Z.min (10 + zlen f - 10) cap).
    rewrite bind_gets. cbn [pn_shared set_shared rx_pool with_rxq]. rewrite (nth_lookup_Some _ _ _ _ Hrow).
    exists (let q := vq_publish 8 slot (set_desc (Z.to_nat slot) (mk_desc (a_pool slot) 2048 VRING_DESC_F_WRITE 0)
              (set_last_used (u16 (last + 1)) (net_rxq (pn_shared d1)))) in
            set_dev (mmio_write (vq_mmio q) 0 (u16 (vq_qidx q)) (pn_dev d1)) (set_shared (with_rxq q (pn_shared d1)) d1)).
    split; [|split; [by rewrite <- Hr, <- Hr1|split; [exact Ht|]]].
    + unfold net_rx_refill, onrx, zoom, bind, modify, vq_submit, ret. rewrite <- (cut_frame row f cap) by (done || lia). done.
    + cbv zeta. cbn [pn_dev set_dev]. by rewrite pw_notify.
Qed.

(** The network driver of the PC port is a queue of frames too: any number of polls
    gives the frames that came in, in order, each once and unchanged (cut to the caller's
    capacity), reports that there is none exactly when none waits, and never fails. *)
Theorem pci_net_fifo d p n cap :
  pn_ready d = true → rx_inv a_pool (pn_shared d) p → 0 < cap ≤ POOL_ENTRY - VNET_HDR_LEN →
  ∃ ks d', let '(rs, (p', w')) := spec_polls cap ks (p, pw_wire (pn_dev d)) in
    length ks = n ∧ run_pci_polls n cap d = Ret (rs, d') ∧ pn_ready d' = true ∧ rx_inv a_pool (pn_shared d') p' ∧ pw_wire (pn_dev d') = w'.
Proof.
  intros Hr Hi Hc. revert d p Hr Hi. induction n as [|n IH]; intros d p Hr Hi; [by exists [], d|].
  destruct (pci_poll_spec d p cap Hr Hi Hc) as (k & d1 & H1).
  destruct (spec_poll cap k (p, pw_wire (pn_dev d))) as [r [p1 w1]] eqn:E1. destruct H1 as (P1 & R1 & I1 & W1).
  destruct (IH d1 p1 R1 I1) as (ks & d2 & H2). rewrite W1 in H2. exists (k :: ks), d2. cbn [spec_polls]. rewrite E1.
  destruct (spec_polls cap ks (p1, w1)) as [rs [p2 w2]]. destruct H2 as (L2 & P2 & R2 & I2 & W2).
  split; [by rewrite <- L2|]. split; [|done]. cbn [run_pci_polls]. by rewrite (bind_ret _ _ _ _ _ P1), (bind_ret _ _ _ _ _ P2).
Qed.

End receive.

(** ** Example: the card of VirtioNet.v, reached over the bus *)

#[export] Instance pci_frame_laws : PciNetLaws frame_host.
Proof.
  refine {| pw_wire := nh_wire |}; [apply nh_frames| |apply nh_runs]. intros base val v. simpl. by rewrite andb_false_r.
Defined.

Definition demo_pnet : pnet frame_host :=
  mk_pnet (net_dev demo_net) (mk_vm ∅ 0 0 ∅ (mem_init 0x300000)) (mk_vcfg 0xfebd4000 0xfebd7000 4 0) true DEFAULT_MAC (net_shared demo_net).

Lemma pci_net_fifo_witness :
  ∃ ks d', let '(rs, (p', w')) := spec_polls 1536 ks ([], pw_wire (pn_dev demo_pnet)) in
    length ks = 10%nat ∧ run_pci_polls (λ i, i) 10 1536 demo_pnet = Ret (rs, d') ∧ pn_ready d' = true
    ∧ rx_inv (λ i, i) (pn_shared d') p' ∧ pw_wire (pn_dev d') = w'.
Proof. apply (pci_net_fifo (λ i, i) demo_pnet [] 10 1536); [done|apply demo_net_posted|unfold POOL_ENTRY, VNET_HDR_LEN; lia]. Defined.
