(* ===== verification/NetCard.v ===== *)
(** * What the network stack does to its card

    Whatever relation the operations of the card keep, the calls of kernel/netstack.c keep:
    they reach the card through the interface [Nic] only.  TlsClient.v uses it with the
    state of the TLS library next to the card. *)

From S2P Require Import Prelude Ramfs Persist Vm NetWire Net.

Create HintDb via.

Section card.
Context {N : Type} `{Nic N} (R : relation N) `{!PreOrder R}.
Context (Rinit : ∀ n, R n (virtio_net_init n)).
Context (Rsend : ∀ f n, R n (virtio_net_send_frame f n).2).
Context (Rpoll : ∀ cap n, R n (virtio_net_poll_frame cap n).2).
Abbreviation net := (net N).

(** When the computation returns, the card has made steps of [R]. *)
Definition via {A} (m : M net A) : Prop := ∀ s x s', m s = Ret (x, s') → R (nic s) (nic s').

Lemma via_ret {A} (x : A) : via (ret x).
Proof. by intros s y s' [= <- <-]. Qed.

Lemma via_undef {A} : via (undef (A:=A)).
Proof. done. Qed.

Lemma via_halt {A} : via (halt (A:=A)).
Proof. done. Qed.

Lemma via_bind {A B} (m : M net A) (k : A → M net B) : via m → (∀ x, via (k x)) → via (bind m k).
Proof.
  intros Hm Hk s y s' E. unfold bind in E. destruct (m s) as [[x s1]| |] eqn:E1; try done.
  etrans; [by eapply Hm|by eapply Hk].
Qed.

Lemma via_gets {A} (f : net → A) : via (gets f).
Proof. by intros s x s' [= <- <-]. Qed.

(** A change of anything but the card. *)
Lemma via_modify (f : net → net) : (∀ s, nic (f s) = nic s) → via (modify f).
Proof. intros Hf s x s' [= <- <-]. by rewrite Hf. Qed.

Lemma via_init : via (modify (λ s, with_nic (virtio_net_init (nic s)) s)).
Proof. by intros s x s' [= <- <-]. Qed.

Lemma via_orundef {A} (o : option A) : via (orundef o).
Proof. destruct o; [apply via_ret|apply via_undef]. Qed.

Lemma via_rx_byte i : via (rx_byte i).
Proof. intros s x s'. unfold rx_byte. destruct (rx_frame s !! _); [case_test; [done|]|done]. by intros [= <- <-]. Qed.

Lemma via_rx_bytes off n : via (rx_bytes off n).
Proof. intros s x s'. unfold rx_bytes. case_test; [|done]. by intros [= <- <-]. Qed.

Lemma via_card {A} (f : N → A * N) : (∀ n, R n (f n).2) → via (zoom nic with_nic (act f)).
Proof. intros Hf s x s'. unfold zoom, act. specialize (Hf (nic s)). destruct (f (nic s)) as [y n]. by intros [= <- <-]. Qed.

Lemma via_fits cap n : via (fits cap n).
Proof. unfold fits. case_test; [apply via_undef|apply via_ret]. Qed.

#[local] Hint Resolve via_ret via_undef via_halt via_gets via_init via_orundef via_fits via_rx_byte via_rx_bytes : via.

(** Follows the shape of a computation; what is left are loops. *)
Ltac via :=
  cbv zeta;
  repeat first
    [ progress (eauto 1 with via nocore)
    | apply via_card; intros; solve [apply Rsend | apply Rpoll]
    | apply via_modify; reflexivity
    | apply via_bind; [|intros ?]
    | match goal with
      | |- via (if ?b then _ else _) => destruct b
      | |- via (match ?x with _ => _ end) => destruct x
      end ].

Lemma eth_send_via dst type payload : via (eth_send dst type payload).
Proof. unfold eth_send. via. Qed.
#[local] Hint Resolve eth_send_via : via.

Lemma arp_send_via op m t s : via (arp_send op m t s).
Proof. unfold arp_send. via. Qed.

Lemma ip_send_via dst proto payload : via (ip_send dst proto payload).
Proof. unfold ip_send. via. Qed.
#[local] Hint Resolve arp_send_via ip_send_via : via.

Lemma udp_send_via dst sport dport payload : via (udp_send dst sport dport payload).
Proof. unfold udp_send. via. Qed.

Lemma tcp_send_raw_via dst sport dport seq ack flags data : via (tcp_send_raw dst sport dport seq ack flags data).
Proof. unfold tcp_send_raw. via. Qed.
#[local] Hint Resolve udp_send_via tcp_send_raw_via : via.

Lemma tcp_reply_via flags data : via (tcp_reply flags data).
Proof. unfold tcp_reply. via. Qed.

Lemma dhcp_send_via p : via (dhcp_send p).
Proof. unfold dhcp_send. via. Qed.

Lemma dns_query_via host : via (dns_send_query host).
Proof. unfold dns_send_query. via. Qed.
#[local] Hint Resolve tcp_reply_via dhcp_send_via dns_query_via : via.

Lemma arp_handle_via base len : via (arp_handle base len).
Proof. unfold arp_handle. via. Qed.

Lemma dhcp_options_via fuel base len pos mt : via (dhcp_options fuel base len pos mt).
Proof. revert pos mt; induction fuel as [|fuel IH]; intros pos mt; cbn [dhcp_options]; via. Qed.
#[local] Hint Resolve arp_handle_via dhcp_options_via : via.

Lemma dhcp_handle_via base len : via (dhcp_handle base len).
Proof. unfold dhcp_handle, dhcp_send_request. via. Qed.

Lemma skip_name_via fuel base len pos : via (skip_name fuel base len pos).
Proof. revert pos; induction fuel as [|fuel IH]; intros pos; cbn [skip_name]; via. Qed.
#[local] Hint Resolve dhcp_handle_via skip_name_via : via.

Lemma dns_handle_via base len : via (dns_handle base len).
Proof. unfold dns_handle, dns_answer, set_dns. via. Qed.

Lemma tcp_reset_via : via tcp_reset.
Proof. unfold tcp_reset, upd_tcp, tcp_rx_clear. via. Qed.
#[local] Hint Resolve dns_handle_via tcp_reset_via : via.

Lemma udp_handle_via base iplen : via (udp_handle base iplen).
Proof. unfold udp_handle. via. Qed.

Lemma tcp_handle_via base iplen : via (tcp_handle base iplen).
Proof. unfold tcp_handle, upd_tcp, tcp_rx_append. via. Qed.
#[local] Hint Resolve udp_handle_via tcp_handle_via : via.

Lemma netstack_poll_via : via netstack_poll.
Proof. unfold netstack_poll, handle_frame. via. Qed.
#[local] Hint Resolve netstack_poll_via : via.

Lemma poll_until_via n p : via (poll_until n p).
Proof. induction n as [|n IH]; cbn [poll_until]; via. Qed.
#[local] Hint Resolve poll_until_via : via.

Lemma arp_resolve_via ip t : via (arp_resolve ip t).
Proof. unfold arp_resolve. via. Qed.
#[local] Hint Resolve arp_resolve_via : via.

Lemma tcp_connect_via ip port t : via (tcp_connect ip port t).
Proof. unfold tcp_connect, upd_tcp. via. Qed.

Lemma tcp_send_data_via data : via (tcp_send_data data).
Proof. unfold tcp_send_data, upd_tcp. via. Qed.

Lemma recv_loop_via n buflen t got idle : via (recv_loop n buflen t got idle).
Proof. revert got idle; induction n as [|n IH]; intros got idle; cbn [recv_loop]; unfold tcp_rx_take; via. Qed.

Lemma tcp_close_via : via tcp_close_conn.
Proof. unfold tcp_close_conn. via. Qed.
#[local] Hint Resolve tcp_connect_via tcp_send_data_via recv_loop_via tcp_close_via : via.

Lemma tcp_recv_via buflen t : via (tcp_recv_accumulate buflen t).
Proof. unfold tcp_recv_accumulate. via. Qed.

Lemma dns_wait_via n t host : via (dns_wait n t host).
Proof. revert t; induction n as [|n IH]; intros t; cbn [dns_wait]; via. Qed.
#[local] Hint Resolve tcp_recv_via dns_wait_via : via.

Lemma dns_servers_via servers host ms : via (dns_servers servers host ms).
Proof. induction servers as [|srv rest IH]; cbn [dns_servers]; unfold set_dns; via. Qed.
#[local] Hint Resolve dns_servers_via : via.

(** The calls of the other modules. *)
Lemma net_connect_ip_via ip port t : via (net_tcp_connect_ip ip port t).
Proof. unfold net_tcp_connect_ip. via. Qed.

Lemma net_write_via data : via (net_tcp_write data).
Proof. unfold net_tcp_write. via. Qed.

Lemma net_read_via buflen t : via (net_tcp_read buflen t).
Proof. unfold net_tcp_read. via. Qed.

Lemma net_resolve_via doh host t : (∀ f, doh = Some f → via (f host t)) → via (net_dns_resolve doh host t).
Proof.
  intros Hdoh. unfold net_dns_resolve, dns_cache_store. destruct doh as [f|]; [specialize (Hdoh f eq_refl)|clear Hdoh]; via.
Qed.

Lemma net_connect_host_via doh host port t : (∀ f, doh = Some f → via (f host t)) → via (net_tcp_connect_host doh host port t).
Proof. intros Hdoh. pose proof (net_resolve_via doh host t Hdoh). unfold net_tcp_connect_host, host_ip. via. Qed.

End card.

#[export] Hint Resolve via_ret via_undef via_halt via_gets netstack_poll_via net_connect_ip_via net_write_via net_read_via tcp_close_via : via.
