(* ===== verification/TlsClient.v ===== *)
(** * The TLS client (kernel/tls_client.c)

    HTTPS requests and the resolver over HTTPS.  The library (third_party/mbedtls) is the
    class [Mbedtls]: its contexts are a value of type [T], a call that may use the network
    is a tree of the calls it makes to the two functions of the source that move bytes
    ([bio]).  The static variables of tls_client.c are kept next to the network card, so
    that the functions below have the type that the other files expect of them.

    The loops that wait for the library have no bound in the source.  [patience] is the
    number of times that a loop is followed here; when it is used up the result is
    [Halt], as for every other loop that does not end. *)

From S2P Require Import Prelude Ramfs Persist Vm NetWire Net.

(** ** The library *)

(** A call of the library: what it sends and asks for on the way, and its result. *)
Inductive bio (A : Type) :=
  | Done (x : A)
  | Send (d : list Z) (k : Z → bio A)
  | Recv (n : Z) (k : Z * list Z → bio A).
Arguments Done {A}. Arguments Send {A}. Arguments Recv {A}.

(** The four contexts, and the calls that configure them. *)
Inductive context := Ssl | Conf | Entropy | Ctr_drbg.

#[export] Instance context_eq_dec : EqDecision context.
Proof. solve_decision. Defined.

Inductive setting :=
  | ctr_drbg_seed (pers : list Z)
  | ssl_config_defaults
  | ssl_conf_authmode (mode : Z)
  | ssl_conf_rng
  | ssl_conf_ciphersuites (suites : list Z)
  | ssl_conf_curves (curves : list Z)
  | ssl_setup
  | ssl_set_hostname (host : list Z)
  | ssl_set_bio.

Class Mbedtls (T : Type) := {
  mbedtls_init : context → T → T;
  mbedtls_free : context → T → T;
  mbedtls_set : setting → T → Z * T;
  mbedtls_ssl_handshake : T → bio (Z * T);
  mbedtls_ssl_write : list Z → T → bio (Z * T);
  mbedtls_ssl_read : Z → T → bio ((Z * list Z) * T);
  mbedtls_ssl_close_notify : T → bio (Z * T)
}.

(** include/mbedtls/ssl.h, ssl_ciphersuites.h and ecp.h *)
Definition MBEDTLS_ERR_SSL_WANT_READ : Z := - 0x6900.
Definition MBEDTLS_ERR_SSL_WANT_WRITE : Z := - 0x6880.
Definition MBEDTLS_SSL_VERIFY_NONE : Z := 0.
Definition MBEDTLS_TLS_ECDHE_RSA_WITH_AES_128_GCM_SHA256 : Z := 0xc02f.
Definition MBEDTLS_TLS_ECDHE_RSA_WITH_AES_256_GCM_SHA384 : Z := 0xc030.
Definition MBEDTLS_ECP_DP_SECP256R1 : Z := 3.

Definition want (rc : Z) : bool := (rc =? MBEDTLS_ERR_SSL_WANT_READ) || (rc =? MBEDTLS_ERR_SSL_WANT_WRITE).

(** ** Names over HTTPS: the texts *)

Definition DOH_IP : Z := 0x08080808.
Definition DOH_HOST : list Z := str "dns.google".

Fixpoint ipv4_str_loop (s : list Z) (ip oct val digits : Z) : option Z :=
  match s with
  | [] => if (digits =? 0) || negb (oct =? 3) then None else Some (u32 (Z.lor (Z.shiftl ip 8) val))
  | c :: s' =>
      if is_digit c then
        let val := val * 10 + (c - 48) in
        if 255 <? val then None else ipv4_str_loop s' ip oct val (digits + 1)
      else if c =? chr "." then
        if (digits =? 0) || (3 <=? oct) then None
        else ipv4_str_loop s' (u32 (Z.lor (Z.shiftl ip 8) val)) (oct + 1) 0 0
      else None
  end.

Definition parse_ipv4_str (s : list Z) : option Z := ipv4_str_loop s 0 0 0 0.

Definition match_at (p lit : list Z) : bool := cmatch p 0 lit.

Definition QUOTE : Z := 34.
Definition TYPE_A : list Z := QUOTE :: str "type" ++ QUOTE :: str ":1".
Definition TYPE_A_BLANK : list Z := QUOTE :: str "type" ++ QUOTE :: str ": 1".
Definition DATA_KEY : list Z := QUOTE :: str "data" ++ [QUOTE; chr ":"; QUOTE].

(** The text of the first [data] field within [n] bytes, as far as it is copied. *)
Fixpoint doh_data (n : nat) (q : list Z) : option (list Z) :=
  match n, q with
  | S n', c :: q' =>
      if match_at q DATA_KEY then Some (take 15 (take_while (λ c, negb (c =? QUOTE)) (drop 8 q)).1)
      else doh_data n' q'
  | _, _ => None
  end.

(** The scan with the last address found. *)
Fixpoint doh_scan (p : list Z) (last : option Z) : option Z :=
  match p with
  | [] => last
  | c :: p' =>
      doh_scan p'
        (if match_at p TYPE_A || match_at p TYPE_A_BLANK then
           match doh_data 120 p with
           | Some s => match parse_ipv4_str s with Some ip => Some ip | None => last end
           | None => last
           end
         else last)
  end.

(** The result and the address. *)
Definition parse_doh_a (json : list Z) : Z * Z :=
  match doh_scan json None with Some ip => (0, ip) | None => (EIO, 0) end.

Definition doh_request (host : list Z) : list Z :=
  fill (384 - 2)
    (fill (384 - 64) (fill (384 - 96) [] (str "GET /resolve?name=")) host)
    (str "&type=A HTTP/1.1" ++ CRLF ++ str "Host: dns.google" ++ CRLF ++ str "Connection: close" ++ CRLF ++ CRLF).

(** The body of the answer, as a C string. *)
Definition doh_body (resp : list Z) : list Z :=
  (take_while (λ c, negb (c =? 0)) (default resp (http_body resp))).1.

(** The request of [https_post_send]: as that of net_http_post, with another bound for the
    host. *)
Definition https_post_text : list Z → list Z → option (list Z) → option (list Z) → option (list Z) := post_text (4096 - 256).

(** ** The connection *)

Record tls_vars (T : Type) := mk_tls { tls_lib : T; tls_active : bool }.
Arguments mk_tls {T}. Arguments tls_lib {T}. Arguments tls_active {T}.

(** The card with the variables of the client beside it. *)
#[export] Instance tls_nic {N T} `{Nic N} : Nic (N * tls_vars T) := {
  virtio_net_init c := (virtio_net_init c.1, c.2);
  virtio_net_ready c := virtio_net_ready c.1;
  virtio_net_mac c := virtio_net_mac c.1;
  virtio_net_send_frame f c := let '(rc, n) := virtio_net_send_frame f c.1 in (rc, (n, c.2));
  virtio_net_poll_frame cap c := let '(f, n) := virtio_net_poll_frame cap c.1 in (f, (n, c.2))
}.

Section tls.
Context {N T : Type} `{Nic N} `{Mbedtls T} (patience : nat).
Abbreviation net := (net (N * tls_vars T)).

Definition set_vars (v : tls_vars T) (s : net) : net := with_nic ((nic s).1, v) s.
Definition vars (s : net) : tls_vars T := (nic s).2.
Definition set_lib (t : T) (s : net) : net := set_vars (mk_tls t (tls_active (vars s))) s.
Definition set_active (b : bool) : M net unit := modify (λ s, set_vars (mk_tls (tls_lib (vars s)) b) s).

Definition net_bio_send (buf : list Z) : M net Z := net_tcp_write buf.

Definition net_bio_recv (len : Z) : M net (Z * list Z) :=
  let! r := net_tcp_read (i32 len) 500 in
  ret (if r.1 <=? 0 then (MBEDTLS_ERR_SSL_WANT_READ, []) else r).

(** A call of the library with the bytes it moves. *)
Fixpoint run_bio {A} (b : bio A) : M net A :=
  match b with
  | Done x => ret x
  | Send d k => let! rc := net_bio_send d in run_bio (k rc)
  | Recv n k => let! r := net_bio_recv n in run_bio (k r)
  end.

Definition lib {A} (f : T → bio (A * T)) : M net A :=
  let! t := gets (λ s, tls_lib (vars s)) in
  let! r := run_bio (f t) in
  modify (set_lib r.2) ;; ret r.1.

Definition on_lib (f : T → T) : M net unit := lib (λ t, Done (tt, f t)).
Definition configure (c : setting) : M net Z := lib (λ t, Done (mbedtls_set c t)).

(** Calls that configure, until one of them fails. *)
Fixpoint configure_all (cs : list setting) : M net Z :=
  match cs with
  | [] => ret 0
  | c :: cs' => let! rc := configure c in if negb (rc =? 0) then ret rc else configure_all cs'
  end.

(** The calls that return nothing are not asked for a result. *)
Definition configure_void (cs : list setting) : M net unit :=
  foldr (λ c m, configure c ;; m) (ret tt) cs.

Definition tls_setup_common (sni_host : list Z) : M net Z :=
  on_lib (mbedtls_init Ssl) ;;
  on_lib (mbedtls_init Conf) ;;
  on_lib (mbedtls_init Entropy) ;;
  on_lib (mbedtls_init Ctr_drbg) ;;
  let! rc := configure_all [ctr_drbg_seed (str "agentos-tls"); ssl_config_defaults] in
  if negb (rc =? 0) then ret rc
  else
    configure_void
      [ssl_conf_authmode MBEDTLS_SSL_VERIFY_NONE; ssl_conf_rng;
       ssl_conf_ciphersuites [MBEDTLS_TLS_ECDHE_RSA_WITH_AES_128_GCM_SHA256; MBEDTLS_TLS_ECDHE_RSA_WITH_AES_256_GCM_SHA384];
       ssl_conf_curves [MBEDTLS_ECP_DP_SECP256R1]] ;;
    let! rc := configure_all [ssl_setup; ssl_set_hostname sni_host] in
    if negb (rc =? 0) then ret rc
    else configure_void [ssl_set_bio] ;; ret 0.

Definition free_all : M net unit :=
  on_lib (mbedtls_free Ssl) ;;
  on_lib (mbedtls_free Conf) ;;
  on_lib (mbedtls_free Ctr_drbg) ;;
  on_lib (mbedtls_free Entropy).

Definition tls_cleanup_fail : M net unit := free_all ;; net_tcp_close.

Definition tls_client_close : M net unit :=
  let! active := gets (λ s, tls_active (vars s)) in
  if negb active then net_tcp_close
  else
    lib mbedtls_ssl_close_notify ;;
    free_all ;;
    net_tcp_close ;;
    set_active false.

(** The result of the handshake. *)
Fixpoint tls_handshake (fuel : nat) : M net Z :=
  match fuel with
  | O => halt
  | S fuel' =>
      let! rc := lib mbedtls_ssl_handshake in
      if rc =? 0 then ret 0
      else if negb (want rc) then ret rc
      else netstack_poll ;; tls_handshake fuel'
  end.

(** The part of the two connect functions after the TCP connection was made. *)
Definition tls_start (sni_host : list Z) : M net Z :=
  let! rc := tls_setup_common sni_host in
  let! rc := (if negb (rc =? 0) then ret rc else tls_handshake patience) in
  if negb (rc =? 0) then tls_cleanup_fail ;; ret EIO
  else set_active true ;; ret 0.

Definition close_if_active : M net unit :=
  let! active := gets (λ s, tls_active (vars s)) in
  if active : bool then tls_client_close else ret tt.

Definition tls_client_connect_ip (sni_host : list Z) (ip port timeout_ms : Z) : M net Z :=
  if port =? 0 then ret EINVAL
  else
    close_if_active ;;
    let! rc := net_tcp_connect_ip ip port timeout_ms in
    if negb (rc =? 0) then ret EIO else tls_start sni_host.

(** What was sent so far is counted by [sent]. *)
Fixpoint tls_write_loop (fuel : nat) (data : list Z) (sent : Z) : M net Z :=
  if negb (sent <? zlen data) then ret sent
  else match fuel with
  | O => halt
  | S fuel' =>
      let! rc := lib (mbedtls_ssl_write (drop (Z.to_nat sent) data)) in
      if want rc then netstack_poll ;; tls_write_loop fuel' data sent
      else if rc <=? 0 then ret EIO
      else tls_write_loop fuel' data (sent + rc)
  end.

Definition tls_client_write (data : list Z) : M net Z :=
  let! active := gets (λ s, tls_active (vars s)) in
  if negb active || (zlen data <=? 0) then ret EINVAL else tls_write_loop patience data 0.

(** The loop of [tls_client_read]: [n] bounds the bytes that may still come, and the inner
    loop counts the attempts in a row without any. *)
Fixpoint tls_read_loop (n : nat) (len : Z) (tries : nat) (got : list Z) : M net (Z * list Z) :=
  (fix attempt (k : nat) : M net (Z * list Z) :=
     match k with
     | O => ret (if 0 <? zlen got then zlen got else ETIMEDOUT, got)
     | S k' =>
         if negb (zlen got <? len) then ret (if 0 <? zlen got then zlen got else ETIMEDOUT, got)
         else
           let! r := lib (mbedtls_ssl_read (len - zlen got)) in
           if want r.1 then netstack_poll ;; attempt k'
           else if r.1 =? 0 then ret (if 0 <? zlen got then zlen got else ETIMEDOUT, got)
           else if r.1 <? 0 then ret (if 0 <? zlen got then zlen got else EIO, got)
           else match n with
                | O => undef
                | S n' => tls_read_loop n' len tries (got ++ r.2)
                end
     end) tries.

(** The result and the bytes read. *)
Definition tls_client_read (len timeout_ms : Z) : M net (Z * list Z) :=
  let! active := gets (λ s, tls_active (vars s)) in
  if negb active || (len <=? 0) then ret (EINVAL, [])
  else tls_read_loop (Z.to_nat len) len (loops timeout_ms 20) [].

(** A request over an open connection, and its answer; the connection is closed. *)
Definition tls_exchange (req : list Z) (size timeout_ms : Z) : M net (Z * list Z) :=
  let! rc := tls_client_write req in
  if rc <? 0 then tls_client_close ;; ret (EIO, [])
  else
    let! r := tls_client_read (size - 1) timeout_ms in
    tls_client_close ;;
    ret (if r.1 <=? 0 then (if r.1 <? 0 then r.1 else EIO, []) else r).

Definition dns_doh_resolve_a (host : list Z) (timeout_ms : Z) : M net (Z * Z) :=
  if zlen host =? 0 then ret (EINVAL, 0)
  else
    let! rc := tls_client_connect_ip DOH_HOST DOH_IP 443 timeout_ms in
    if negb (rc =? 0) then ret (EIO, 0)
    else
      let! r := tls_exchange (doh_request host) 2048 timeout_ms in
      ret (if r.1 <=? 0 then (r.1, 0) else parse_doh_a (doh_body r.2)).

Definition tls_client_connect (host : list Z) (port timeout_ms : Z) : M net Z :=
  if port =? 0 then ret EINVAL
  else
    close_if_active ;;
    let! rc := net_tcp_connect_host (Some dns_doh_resolve_a) host port timeout_ms in
    if negb (rc =? 0) then ret EIO else tls_start host.

Definition https_post_send (host path : list Z) (headers body : option (list Z)) (resp_len timeout_ms : Z) : M net (Z * list Z) :=
  let! req := orundef (https_post_text host path headers body) in
  tls_exchange req resp_len timeout_ms.

Definition net_https_post_ip (host : list Z) (ip port : Z) (path : list Z) (headers body : option (list Z))
    (resp_len timeout_ms : Z) : M net (Z * list Z) :=
  if (resp_len <=? 0) || (ip =? 0) then ret (EINVAL, [])
  else
    let! rc := tls_client_connect_ip host ip port timeout_ms in
    if negb (rc =? 0) then ret (EIO, []) else https_post_send host path headers body resp_len timeout_ms.

Definition net_https_post_port (host : list Z) (port : Z) (path : list Z) (headers body : option (list Z))
    (resp_len timeout_ms : Z) : M net (Z * list Z) :=
  if resp_len <=? 0 then ret (EINVAL, [])
  else
    let! rc := tls_client_connect host port timeout_ms in
    if negb (rc =? 0) then ret (EIO, []) else https_post_send host path headers body resp_len timeout_ms.

Definition net_https_post (host path : list Z) (headers body : option (list Z)) (resp_len timeout_ms : Z) : M net (Z * list Z) :=
  net_https_post_port host 443 path headers body resp_len timeout_ms.

End tls.
