(* ===== verification/TlsProps.v ===== *)
(** * The TLS client: theorems

    The laws say what the documentation of the library promises: which contexts hold
    memory, which bytes of the caller a call has taken over ([written]) or delivered
    ([received]), and that it asks for patience only a bounded number of times in a row
    ([stall]), which is a promise of the server at the other end. *)

From S2P Require Import Prelude Ramfs Persist Paths Vm NetWire Net NetProps NetTcp NetCard TlsClient.

(** ** The library *)

(** Every way a call can end, whatever the network gives it; it asks for no more bytes
    than an [int] can count. *)
Fixpoint ends {A} (Q : A → Prop) (b : bio A) : Prop :=
  match b with
  | Done x => Q x
  | Send d k => ∀ rc, ends Q (k rc)
  | Recv n k => 0 ≤ n < 2147483648 ∧ ∀ r, ends Q (k r)
  end.

Class TlsView (T : Type) := {
  holds : T → context → bool;
  written : T → list Z;
  received : T → list Z;
  stall : T → nat
}.

(** Neither memory nor data. *)
Record quiet {T} `{TlsView T} (t t' : T) : Prop := {
  q_holds : ∀ c, holds t' c = holds t c;
  q_written : written t' = written t;
  q_received : received t' = received t
}.

Class MbedtlsLaws (T : Type) `{Mbedtls T} `{TlsView T} (most : nat) : Prop := {
  stall_most : ∀ t : T, (stall t ≤ most)%nat;
  init_law : ∀ c (t : T), written (mbedtls_init c t) = written t ∧ received (mbedtls_init c t) = received t
    ∧ ∀ d, holds (mbedtls_init c t) d = bool_decide (d = c) || holds t d;
  free_law : ∀ c (t : T), written (mbedtls_free c t) = written t ∧ received (mbedtls_free c t) = received t
    ∧ ∀ d, holds (mbedtls_free c t) d = negb (bool_decide (d = c)) && holds t d;
  set_law : ∀ c (t : T), quiet t (mbedtls_set c t).2;
  handshake_law : ∀ t : T,
    ends (λ r, quiet t r.2 ∧ (want r.1 = true → (stall r.2 < stall t)%nat)) (mbedtls_ssl_handshake t);
  write_law : ∀ d (t : T),
    ends (λ r, (∀ c, holds r.2 c = holds t c) ∧ received r.2 = received t ∧ (want r.1 = true → (stall r.2 < stall t)%nat)
      ∧ (if 0 <? r.1 then r.1 ≤ zlen d ∧ written r.2 = written t ++ take (Z.to_nat r.1) d else written r.2 = written t))
      (mbedtls_ssl_write d t);
  read_law : ∀ n (t : T),
    ends (λ r, (∀ c, holds r.2 c = holds t c) ∧ written r.2 = written t
      ∧ (if 0 <? r.1.1 then zlen r.1.2 = r.1.1 ∧ r.1.1 ≤ n ∧ received r.2 = received t ++ r.1.2 else received r.2 = received t))
      (mbedtls_ssl_read n t);
  close_law : ∀ t : T, ends (λ r, quiet t r.2) (mbedtls_ssl_close_notify t)
}.

(** ** The card with the variables *)

#[export] Instance tls_nic_laws {N T} `{NicLaws N} : NicLaws (N * tls_vars T).
Proof.
  split.
  - intros [n v]. apply (nic_mac n).
  - intros [n v] [n' v'] cap f. simpl. destruct (virtio_net_poll_frame cap n) as [f1 n1] eqn:E. intros [= -> -> _]. by eapply nic_poll.
Qed.

Lemma tls_short {N T} `{Nic N} : short_frames (N:=N) → short_frames (N:=N * tls_vars T).
Proof.
  intros Hs [n v] [n' v'] f. simpl. destruct (virtio_net_poll_frame _ n) as [f1 n1] eqn:E. intros [= -> -> _]. by eapply Hs.
Qed.

Section props.
Context {N T : Type} `{NicLaws N} `{MbedtlsLaws T} (Hshort : short_frames (N:=N)).
Abbreviation net := (net (N * tls_vars T)).
Abbreviation safe m := (triple (net_wf (N:=N * tls_vars T)) m (λ _, net_wf (N:=N * tls_vars T))).

(** What is known of a state: the variables, and whether the connection is closed. *)
Record known := mk_known { k_lib : T; k_active : bool; k_closed : bool }.

Definition state_is (d : known) (s : net) : Prop :=
  net_wf s ∧ vars s = mk_tls (k_lib d) (k_active d) ∧ (k_closed d = true → active (tcp s) = false).

Definition tspec {A} (d : known) (m : M net A) (Q : A → known → Prop) : Prop :=
  triple (state_is d) m (λ x s, ∃ d', Q x d' ∧ state_is d' s).

Lemma tspec_ret {A} d (x : A) (Q : A → known → Prop) : Q x d → tspec d (ret x) Q.
Proof. intros Hq s Hs. exists x, s. eauto. Qed.

Lemma tspec_bind {A B} d (m : M net A) Q (k : A → M net B) R :
  tspec d m Q → (∀ x d', Q x d' → tspec d' (k x) R) → tspec d (bind m k) R.
Proof.
  intros Hm Hk s Hs. destruct (Hm s Hs) as (x & s1 & E & d1 & Hq & Hs1). rewrite (bind_ret _ _ _ _ _ E). by eapply Hk.
Qed.

Lemma tspec_weaken {A} d (m : M net A) (Q R : A → known → Prop) : tspec d m Q → (∀ x d', Q x d' → R x d') → tspec d m R.
Proof. intros Hm Hqr s Hs. destruct (Hm s Hs) as (x & s1 & E & d1 & Hq & Hs1). exists x, s1. eauto. Qed.

Lemma tspec_if {A} d (b : bool) (m1 m2 : M net A) Q : (b = true → tspec d m1 Q) → (b = false → tspec d m2 Q) → tspec d (if b then m1 else m2) Q.
Proof. destruct b; auto. Qed.

Lemma tspec_active {B} d (k : bool → M net B) R : tspec d (k (k_active d)) R → tspec d (bind (gets (λ s, tls_active (vars s))) k) R.
Proof. intros Hk s Hs. rewrite bind_gets. destruct Hs as (Hw & Hv & Hc). rewrite Hv. by apply Hk. Qed.

Lemma vars_wf (s : net) v : net_wf s → net_wf (set_vars v s).
Proof. intros Hs. by apply with_nic_wf. Qed.

Lemma tspec_set_active d b : tspec d (set_active b) (λ _ d', d' = mk_known (k_lib d) b (k_closed d)).
Proof.
  intros s (Hw & Hv & Hc). eexists tt, _. split; [done|]. eexists. split; [done|].
  split; [by apply vars_wf|]. split; [|done]. cbn. by rewrite Hv.
Qed.

(** Calls of the network stack. *)
Definition same_vars (c c' : N * tls_vars T) : Prop := c'.2 = c.2.

#[export] Instance same_vars_preorder : PreOrder same_vars.
Proof. split; [by intros ?|]. intros a b c ? ?. unfold same_vars in *. congruence. Qed.

Lemma tspec_net {A} d (m : M net A) : safe m → via same_vars m → tspec d m (λ _ d', d' = mk_known (k_lib d) (k_active d) false).
Proof.
  intros Hm Hv s (Hw & Hs & _). destruct (Hm s Hw) as (x & s' & E & Hw'). exists x, s'. split; [done|]. eexists. split; [done|].
  split; [done|]. split; [|done]. cbn [k_lib k_active]. rewrite <- Hs. by apply (Hv s x s').
Qed.

Lemma card_steps : (∀ c : N * tls_vars T, same_vars c (virtio_net_init c)) ∧ (∀ f (c : N * tls_vars T), same_vars c (virtio_net_send_frame f c).2)
  ∧ (∀ cap (c : N * tls_vars T), same_vars c (virtio_net_poll_frame cap c).2).
Proof.
  split; [done|]. split; [intros f [n v]|intros cap [n v]]; cbn; [by destruct (virtio_net_send_frame f n)|by destruct (virtio_net_poll_frame cap n)].
Qed.

Lemma poll_known d : tspec d netstack_poll (λ _ d', d' = mk_known (k_lib d) (k_active d) false).
Proof. apply tspec_net; [by apply poll_safe, tls_short|]. apply netstack_poll_via; apply _ || apply card_steps. Qed.

Lemma bio_send_known d data : tspec d (net_bio_send data) (λ _ d', d' = mk_known (k_lib d) (k_active d) false).
Proof.
  apply tspec_net; [|apply net_write_via; apply _ || apply card_steps]. unfold net_bio_send, net_tcp_write.
  apply safe_bind; [apply safe_gets|]. intros t. apply safe_if; [apply safe_ret|apply tcp_send_data_safe].
Qed.

Lemma bio_recv_known d n : 0 ≤ n < 2147483648 → tspec d (net_bio_recv n) (λ _ d', d' = mk_known (k_lib d) (k_active d) false).
Proof.
  intros Hn. apply tspec_net.
  - apply safe_bind; [|intros; apply safe_ret]. unfold net_tcp_read. apply safe_bind; [apply safe_gets|]. intros t.
    apply safe_if; [apply safe_ret|]. apply recv_safe; [by apply tls_short|rewrite i32_small; lia].
  - apply via_bind; [apply _| |intros; apply via_ret, _]. apply net_read_via; apply _ || apply card_steps.
Qed.

Lemma close_known d : tspec d net_tcp_close (λ _ d', d' = mk_known (k_lib d) (k_active d) true).
Proof.
  intros s Hs. assert (tspec d net_tcp_close (λ _ d', d' = mk_known (k_lib d) (k_active d) false)) as Hc.
  { apply tspec_net; [apply tcp_close_safe|]. apply tcp_close_via; apply _ || apply card_steps. }
  destruct (Hc s Hs) as (x & s' & E & d' & -> & Hw & Hv & _). exists x, s'. split; [done|]. eexists. split; [done|].
  split; [done|]. split; [done|]. intros _. unfold net_tcp_close, tcp_close_conn in E. rewrite bind_gets in E.
  unfold bind at 1 in E. case_match; [|done..]. case_match. by injection E as _ <-.
Qed.

Lemma bio_known {A} d (b : bio A) Q : ends Q b → tspec d (run_bio b) (λ x d', Q x ∧ d' = mk_known (k_lib d) (k_active d) false ∨ Q x ∧ d' = d).
Proof.
  revert d; induction b as [x|data k IH|n k IH]; intros d; cbn [ends run_bio].
  - intros Hq. apply tspec_ret. by right.
  - intros Hq. eapply tspec_bind; [apply bio_send_known|]. intros rc d' ->. eapply tspec_weaken; [by apply IH|].
    intros x d' [[? ->]|[? ->]]; by left.
  - intros [Hn Hq]. eapply tspec_bind; [by apply bio_recv_known|]. intros r d' ->. eapply tspec_weaken; [by apply IH|].
    intros x d' [[? ->]|[? ->]]; by left.
Qed.

(** A call of the library changes its own state as its law says. *)
Lemma lib_known {A} d (f : T → bio (A * T)) (Q : A → T → Prop) :
  ends (λ r, Q r.1 r.2) (f (k_lib d)) → tspec d (lib f) (λ x d', Q x (k_lib d') ∧ k_active d' = k_active d).
Proof.
  intros Hq s Hs. unfold lib. rewrite bind_gets. assert (tls_lib (vars s) = k_lib d) as -> by (destruct Hs as (_ & -> & _); done).
  destruct (bio_known d _ _ Hq s Hs) as ([x t'] & s1 & E & d1 & Hd & Hw & Hv & Hc). rewrite (bind_ret _ _ _ _ _ E), bind_modify.
  eexists x, _. split; [done|]. exists (mk_known t' (k_active d1) (k_closed d1)).
  assert (Q x t' ∧ k_active d1 = k_active d) as [Hx Ha] by (by destruct Hd as [[? ->]|[? ->]]).
  split; [by rewrite <- Ha|]. split; [by apply vars_wf|]. split; [|done]. cbn. by rewrite Hv.
Qed.

(** What a call that neither takes memory nor moves data leaves. *)
Definition calm (d d' : known) : Prop := quiet (k_lib d) (k_lib d') ∧ k_active d' = k_active d.

#[export] Instance calm_preorder : PreOrder calm.
Proof.
  split; [done|]. intros a b c [[Ha Hw Hr] Hx] [[Ha' Hw' Hr'] Hx']. split; [|congruence].
  split; [intros k; by rewrite Ha'|congruence|congruence].
Qed.

Lemma configure_known d c : tspec d (configure c) (λ _, calm d).
Proof.
  eapply tspec_weaken; [apply (lib_known d _ (λ _ t', quiet (k_lib d) t'))|done]. cbn [ends].
  pose proof (set_law c (k_lib d)). by destruct (mbedtls_set c (k_lib d)).
Qed.

Lemma configure_all_known d cs : tspec d (configure_all cs) (λ _, calm d).
Proof.
  revert d; induction cs as [|c cs IH]; intros d; cbn [configure_all]; [by apply tspec_ret|].
  eapply tspec_bind; [apply configure_known|]. intros rc d1 K1. apply tspec_if; intros _; [by apply tspec_ret|].
  eapply tspec_weaken; [apply IH|]. intros x d2 K2. cbn beta in *. by etrans.
Qed.

Lemma configure_void_known d cs : tspec d (configure_void cs) (λ _, calm d).
Proof.
  revert d; induction cs as [|c cs IH]; intros d; cbn [configure_void foldr]; [by apply tspec_ret|].
  eapply tspec_bind; [apply configure_known|]. intros rc d1 K1.
  eapply tspec_weaken; [apply IH|]. intros x d2 K2. cbn beta in *. by etrans.
Qed.

(** The data moved and the flag, without the memory. *)
Definition level (d d' : known) : Prop :=
  written (k_lib d') = written (k_lib d) ∧ received (k_lib d') = received (k_lib d) ∧ k_active d' = k_active d.

Lemma calm_level d d1 d2 : calm d1 d2 → level d d1 → level d d2.
Proof. intros [[_ Hw Hr] Ha] (? & ? & ?). unfold level. by rewrite Hw, Hr, Ha. Qed.

Lemma init_known d c : tspec d (on_lib (mbedtls_init c))
  (λ _ d', level d d' ∧ ∀ x, holds (k_lib d') x = bool_decide (x = c) || holds (k_lib d) x).
Proof.
  destruct (init_law c (k_lib d)) as (Hw & Hr & Hh).
  eapply tspec_weaken; [apply (lib_known d _ (λ _ t', t' = mbedtls_init c (k_lib d))); done|].
  intros x d' [Ht Ha]. cbn beta in Ht. unfold level. by rewrite Ht, Hw, Hr.
Qed.

Lemma free_known d c : tspec d (on_lib (mbedtls_free c))
  (λ _ d', level d d' ∧ ∀ x, holds (k_lib d') x = negb (bool_decide (x = c)) && holds (k_lib d) x).
Proof.
  destruct (free_law c (k_lib d)) as (Hw & Hr & Hh).
  eapply tspec_weaken; [apply (lib_known d _ (λ _ t', t' = mbedtls_free c (k_lib d))); done|].
  intros x d' [Ht Ha]. cbn beta in Ht. unfold level. by rewrite Ht, Hw, Hr.
Qed.

Definition holds_all (b : bool) (d : known) : Prop := ∀ c, holds (k_lib d) c = b.

Lemma calm_holds b d d' : calm d d' → holds_all b d → holds_all b d'.
Proof. intros [[Hh _ _] _] Ha c. rewrite Hh. apply Ha. Qed.

Lemma free_all_known d : tspec d free_all (λ _ d', level d d' ∧ holds_all false d').
Proof.
  unfold free_all. eapply tspec_bind; [apply free_known|]. intros _ d1 [(W1 & R1 & A1) K1].
  eapply tspec_bind; [apply free_known|]. intros _ d2 [(W2 & R2 & A2) K2].
  eapply tspec_bind; [apply free_known|]. intros _ d3 [(W3 & R3 & A3) K3].
  eapply tspec_weaken; [apply free_known|]. intros _ d4 [(W4 & R4 & A4) K4]. split; [split; [|split]; congruence|].
  intros c. rewrite K4, K3, K2, K1. by destruct c.
Qed.

Lemma setup_known d h : tspec d (tls_setup_common h) (λ _ d', level d d' ∧ holds_all true d').
Proof.
  unfold tls_setup_common. eapply tspec_bind; [apply init_known|]. intros _ d1 [(W1 & R1 & A1) K1].
  eapply tspec_bind; [apply init_known|]. intros _ d2 [(W2 & R2 & A2) K2].
  eapply tspec_bind; [apply init_known|]. intros _ d3 [(W3 & R3 & A3) K3].
  eapply tspec_bind; [apply init_known|]. intros _ d4 [(W4 & R4 & A4) K4].
  assert (level d d4 ∧ holds_all true d4) as Hd.
  { split; [split; [|split]; congruence|]. intros c. rewrite K4, K3, K2, K1. by destruct c. }
  assert (∀ d', calm d4 d' → level d d' ∧ holds_all true d') as Hk.
  { intros d' Hc. destruct Hd as [Hl Hh]. split; [by eapply calm_level|by eapply calm_holds]. }
  eapply tspec_bind; [apply configure_all_known|]. intros rc d5 C5. apply tspec_if; intros _; [by apply tspec_ret, Hk|].
  eapply tspec_bind; [apply configure_void_known|]. intros ? d6 C6.
  eapply tspec_bind; [apply configure_all_known|]. intros rc2 d7 C7. cbn beta in *.
  assert (calm d4 d7) as C47 by (etrans; [|exact C7]; by etrans). apply tspec_if; intros _; [by apply tspec_ret, Hk|].
  eapply tspec_bind; [apply configure_void_known|]. intros ? d8 C8. apply tspec_ret, Hk. by etrans.
Qed.

(** ** Connecting *)

Lemma handshake_known fuel d : (stall (k_lib d) < fuel)%nat → tspec d (tls_handshake fuel) (λ _, calm d).
Proof.
  revert d; induction fuel as [|fuel IH]; intros d Hf; [lia|]. cbn [tls_handshake].
  eapply tspec_bind; [apply (lib_known d _ (λ rc t', quiet (k_lib d) t' ∧ (want rc = true → (stall t' < stall (k_lib d))%nat))), handshake_law|].
  intros rc d1 [[Hq Hw] Ha]. assert (calm d d1) as C1 by done. apply tspec_if; intros _; [by apply tspec_ret|].
  apply tspec_if; [intros _; by apply tspec_ret|]. rewrite negb_false_iff. intros Hwant. specialize (Hw Hwant).
  eapply tspec_bind; [apply poll_known|]. intros ? d2 ->. eapply tspec_weaken; [apply IH; cbn [k_lib]; lia|].
  intros ? d3 C3. cbn beta in *. by etrans.
Qed.

(** The client at rest. *)
Record rest (d d' : known) : Prop := {
  r_written : written (k_lib d') = written (k_lib d);
  r_received : received (k_lib d') = received (k_lib d);
  r_active : k_active d' = false;
  r_holds : holds_all false d'
}.

Record open (d d' : known) : Prop := {
  o_written : written (k_lib d') = written (k_lib d);
  o_received : received (k_lib d') = received (k_lib d);
  o_active : k_active d' = true;
  o_holds : holds_all true d'
}.

Lemma tls_close_known d : holds_all (k_active d) d → tspec d tls_client_close (λ _ d', rest d d' ∧ k_closed d' = true).
Proof.
  intros Hd. unfold tls_client_close. apply tspec_active. apply tspec_if; intros Ha.
  - eapply tspec_weaken; [apply close_known|]. intros ? d1 ->. rewrite negb_true_iff in Ha. split; [|done]. split; try done.
    by rewrite Ha in Hd.
  - eapply tspec_bind; [apply (lib_known d _ (λ _ t', quiet (k_lib d) t')), close_law|]. intros ? d1 C1. change (calm d d1) in C1.
    eapply tspec_bind; [apply free_all_known|]. intros _ d2 [(W2 & R2 & A2) K2].
    eapply tspec_bind; [apply close_known|]. intros ? d3 ->. eapply tspec_weaken; [apply tspec_set_active|].
    intros ? d4 ->. split; [|done]. destruct C1 as [[_ Hw Hr] _]. split; cbn; congruence || done.
Qed.

Lemma tls_start_known patience d h : (most < patience)%nat → k_active d = false →
  tspec d (tls_start patience h) (λ rc d', rc = 0 ∧ open d d' ∨ rc = EIO ∧ rest d d' ∧ k_closed d' = true).
Proof.
  intros Hp Ha. unfold tls_start. eapply tspec_bind; [apply setup_known|]. intros rc d1 [(W1 & R1 & A1) K1].
  eapply (tspec_bind _ _ (λ _, calm d1)).
  { apply tspec_if; intros _; [by apply tspec_ret|]. apply handshake_known. pose proof (stall_most (k_lib d1)). lia. }
  intros rc2 d2 C2. pose proof (calm_holds _ _ _ C2 K1) as K2. destruct C2 as [[_ W2 R2] A2]. apply tspec_if; intros _.
  - unfold tls_cleanup_fail. eapply tspec_bind; [|intros ? d3 K; by apply tspec_ret, K].
    eapply tspec_bind; [apply free_all_known|]. intros _ d3 [(W3 & R3 & A3) K3].
    eapply tspec_weaken; [apply close_known|]. intros ? d4 ->. right. split; [done|]. split; [|done]. split; cbn; congruence || done.
  - eapply tspec_bind; [apply tspec_set_active|]. intros ? d3 ->. apply tspec_ret. left. split; [done|]. split; cbn; congruence || done.
Qed.

Lemma connect_safe ip port t : safe (net_tcp_connect_ip ip port t).
Proof. unfold net_tcp_connect_ip. apply safe_if; [apply safe_ret|by apply tcp_connect_safe, tls_short]. Qed.

Lemma rest_holds d d' : rest d d' → holds_all (k_active d') d'.
Proof. by intros [_ _ -> ?]. Qed.

Lemma close_if_known d : holds_all (k_active d) d → tspec d close_if_active (λ _, rest d).
Proof.
  intros Hd. unfold close_if_active. apply tspec_active. apply tspec_if; intros Ha.
  - eapply tspec_weaken; [by apply tls_close_known|]. by intros ? d1 [K1 _].
  - apply tspec_ret. split; try done. by rewrite Ha in Hd.
Qed.

(** The end of the two connect functions. *)
Lemma connected_known patience d d0 h rc (Q : Z → known → Prop) : (most < patience)%nat → rest d0 d →
  (∀ rc d', rc = 0 ∧ open d0 d' ∨ rc = EIO ∧ rest d0 d' → Q rc d') →
  tspec d (if negb (rc =? 0) then ret EIO else tls_start patience h) Q.
Proof.
  intros Hp Hr HQ. apply tspec_if; intros _; [apply tspec_ret, HQ; by right|].
  eapply tspec_weaken; [apply tls_start_known; [done|apply Hr]|]. destruct Hr as [W0 R0 _ _].
  intros rc' d' [[-> [W R A K]]|(-> & [W R A K] & _)]; apply HQ; [left|right]; (split; [done|]; split; congruence || done).
Qed.

Lemma connect_ip_known patience d h ip port t : (most < patience)%nat → port ≠ 0 → holds_all (k_active d) d →
  tspec d (tls_client_connect_ip patience h ip port t) (λ rc d', rc = 0 ∧ open d d' ∨ rc = EIO ∧ rest d d').
Proof.
  intros Hp Hport Hd. unfold tls_client_connect_ip. test_false (port =? 0).
  eapply tspec_bind; [by apply close_if_known|]. intros ? d1 R1.
  eapply tspec_bind; [apply tspec_net; [apply connect_safe|apply net_connect_ip_via; apply _ || apply card_steps]|].
  intros rc d2 ->. eapply connected_known; [done| |done]. by destruct R1.
Qed.

(** ** Data *)

(** A call that moves data on an open connection: what it wrote and what it received. *)
Definition moved (d d' : known) (w r : list Z) : Prop :=
  (∀ c, holds (k_lib d') c = holds (k_lib d) c) ∧ k_active d' = k_active d
  ∧ written (k_lib d') = written (k_lib d) ++ w ∧ received (k_lib d') = received (k_lib d) ++ r.

Lemma moved_none d d' : calm d d' → moved d d' [] [].
Proof. intros [[Hh Hw Hr] Ha]. unfold moved. by rewrite Hw, Hr, !app_nil_r. Qed.

Lemma moved_trans d d1 d2 w r w' r' : moved d d1 w r → moved d1 d2 w' r' → moved d d2 (w ++ w') (r ++ r').
Proof.
  intros (K1 & A1 & W1 & R1) (K2 & A2 & W2 & R2). split; [intros c; by rewrite K2|]. split; [congruence|].
  rewrite W2, W1, R2, R1. by rewrite !app_assoc.
Qed.

Lemma take_drop_add {A} (l : list A) n m : take n l ++ take m (drop n l) = take (n + m) l.
Proof. by rewrite <- take_take_drop. Qed.

Lemma write_loop_known fuel d data sent :
  0 ≤ sent → (Z.to_nat (zlen data - sent) * S most ≤ fuel + (most - stall (k_lib d)))%nat →
  tspec d (tls_write_loop fuel data sent) (λ rc d', ∃ k, moved d d' (take k (drop (Z.to_nat sent) data)) []
    ∧ (0 ≤ rc → (length data ≤ k)%nat)).
Proof.
  revert d sent; induction fuel as [|fuel IH]; intros d sent Hs Hf; cbn [tls_write_loop]; apply tspec_if; intros Hlt;
    rewrite ?negb_true_iff, ?negb_false_iff in Hlt; bprop.
  - apply tspec_ret. exists (length data). split; [|done]. rewrite drop_ge, take_nil by klia. by apply moved_none.
  - pose proof (stall_most (k_lib d)). nia.
  - apply tspec_ret. exists (length data). split; [|done]. rewrite drop_ge, take_nil by klia. by apply moved_none.
  - eapply tspec_bind.
    { apply (lib_known d _ (λ rc t', (∀ c, holds t' c = holds (k_lib d) c) ∧ received t' = received (k_lib d)
        ∧ (want rc = true → (stall t' < stall (k_lib d))%nat)
        ∧ (if 0 <? rc then rc ≤ zlen (drop (Z.to_nat sent) data) ∧ written t' = written (k_lib d) ++ take (Z.to_nat rc) (drop (Z.to_nat sent) data)
           else written t' = written (k_lib d)))), write_law. }
    intros rc d1 [(Hh & Hr & Hst & Hw) Ha]. pose proof (stall_most (k_lib d)). pose proof (stall_most (k_lib d1)).
    apply tspec_if; [intros Hwant|intros _; apply tspec_if; intros Hrc; bprop].
    + assert ((0 <? rc) = false) as E0.
      { unfold want, MBEDTLS_ERR_SSL_WANT_READ, MBEDTLS_ERR_SSL_WANT_WRITE in Hwant. apply Z.ltb_ge. bprop. lia. }
      rewrite E0 in Hw. specialize (Hst Hwant). assert (calm d d1) as C1 by (split; [by split|done]).
      eapply tspec_bind; [apply poll_known|]. intros ? d2 ->.
      eapply tspec_weaken; [apply IH; [done|cbn [k_lib]; lia]|]. intros rc' d3 (k & Hm & Hk). exists k. split; [|done].
      apply (moved_trans d d1 d3 [] []); [by apply moved_none|done].
    + apply tspec_ret. exists O. test_false_in (0 <? rc) Hw. split; [|klia]. cbn [take].
      by apply moved_none; split; [split|].
    + test_true_in (0 <? rc) Hw. destruct Hw as [Hle Hw].
      assert (zlen (drop (Z.to_nat sent) data) = zlen data - sent) as Hz by (unfold zlen in *; rewrite length_drop; lia).
      eapply tspec_weaken; [apply IH; [lia|nia]|]. intros rc' d3 (k & Hm & Hk).
      exists (Z.to_nat rc + k)%nat. split.
      * rewrite <- take_drop_add, drop_drop. replace (Z.to_nat sent + Z.to_nat rc)%nat with (Z.to_nat (sent + rc)) by lia.
        apply (moved_trans d d1 d3 _ [] _ []); [|done]. split; [done|]. split; [done|]. split; [done|]. by rewrite app_nil_r.
      * intros H0'. specialize (Hk H0'). lia.
Qed.

Lemma tls_write_known patience d data : (4096 * S most ≤ patience)%nat → 0 < zlen data ≤ 4096 → k_active d = true →
  tspec d (tls_client_write patience data) (λ rc d', ∃ w, moved d d' w [] ∧ w `prefix_of` data ∧ (0 ≤ rc → w = data)).
Proof.
  intros Hp Hz Ha. unfold tls_client_write. apply tspec_active. rewrite Ha. test_false (zlen data <=? 0). cbn [negb orb].
  eapply tspec_weaken; [apply write_loop_known; [done|]|].
  { unfold zlen in *. pose proof (stall_most (k_lib d)). nia. }
  intros rc d' (k & Hm & Hk). rewrite drop_0 in Hm. exists (take k data). split; [done|]. split; [apply prefix_take|].
  intros K. by rewrite take_ge by auto.
Qed.

(** The bytes and the result of a read. *)
Definition read_gives (len : Z) (r : Z * list Z) : Prop :=
  if 0 <? r.1 then r.1 = zlen r.2 ∧ zlen r.2 ≤ len else r.2 = [].

Lemma read_loop_known n len tries d got :
  0 ≤ len - zlen got ≤ Z.of_nat n →
  tspec d (tls_read_loop n len tries got) (λ r d', ∃ more, moved d d' [] more ∧ r.2 = got ++ more ∧ read_gives len r).
Proof.
  assert (∀ d got e, zlen got ≤ len → e ≤ 0 →
    ∃ more, moved d d [] more ∧ ((if 0 <? zlen got then zlen got else e, got) : Z * list Z).2 = got ++ more
      ∧ read_gives len (if 0 <? zlen got then zlen got else e, got)) as Hstop.
  { intros d0 got0 e Hg He. exists []. split; [by apply moved_none|]. split; [by rewrite app_nil_r|]. unfold read_gives. cbn [fst snd].
    destruct (Z.ltb_spec 0 (zlen got0)); [by test_true (0 <? zlen got0)|]. test_false (0 <? e).
    destruct got0 as [|c got0]; [done|]. rewrite zlen_cons in *. pose proof (zlen_nonneg got0). lia. }
  revert d got; induction n as [|n IH]; intros d got Hn; cbn [tls_read_loop].
  - destruct tries as [|k]; [apply tspec_ret, Hstop; klia|]. test_false (zlen got <? len). apply tspec_ret, Hstop; klia.
  - generalize tries at 2. intros k. revert d; induction k as [|k IHk]; intros d; [apply tspec_ret, Hstop; klia|].
    apply tspec_if; intros Hlt; rewrite ?negb_true_iff, ?negb_false_iff in Hlt; bprop; [apply tspec_ret, Hstop; klia|].
    eapply tspec_bind.
    { apply (lib_known d _ (λ r t', (∀ c, holds t' c = holds (k_lib d) c) ∧ written t' = written (k_lib d)
        ∧ (if 0 <? r.1 then zlen r.2 = r.1 ∧ r.1 ≤ len - zlen got ∧ received t' = received (k_lib d) ++ r.2
           else received t' = received (k_lib d)))), read_law. }
    intros [rc b] d1 [(Hh & Hw & Hr) Ha]. cbn [fst snd] in *.
    assert (rc ≤ 0 → moved d d1 [] []) as Hnone.
    { intros Hle. test_false_in (0 <? rc) Hr. by apply moved_none; split; [split|]. }
    apply tspec_if; [intros Hwant|intros _; apply tspec_if; [intros E0|intros E0; apply tspec_if; intros E1]; bprop].
    + assert (rc ≤ 0) as Hle. { unfold want, MBEDTLS_ERR_SSL_WANT_READ, MBEDTLS_ERR_SSL_WANT_WRITE in Hwant. bprop. lia. }
      eapply tspec_bind; [apply poll_known|]. intros ? d2 ->. eapply tspec_weaken; [apply IHk|].
      intros r d3 (more & Hm & K). exists more. split; [|done]. by apply (moved_trans d d1 d3 [] [] [] more); [apply Hnone|].
    + apply tspec_ret. destruct (Hstop d1 got ETIMEDOUT) as (more & Hm & K); [lia|klia|]. exists more. split; [|done].
      apply (moved_trans d d1 d1 [] [] [] more); [apply Hnone; lia|done].
    + apply tspec_ret. destruct (Hstop d1 got EIO) as (more & Hm & K); [lia|klia|]. exists more. split; [|done].
      apply (moved_trans d d1 d1 [] [] [] more); [apply Hnone; lia|done].
    + test_true_in (0 <? rc) Hr. destruct Hr as (Hz & Hle & Hr).
      eapply tspec_weaken; [apply IH; rewrite zlen_app; lia|]. intros r d3 (more & Hm & Er & K). exists (b ++ more).
      split; [|by rewrite app_assoc]. apply (moved_trans d d1 d3 [] b [] more); [|done].
      split; [done|]. split; [done|]. by rewrite app_nil_r.
Qed.

Lemma tls_read_known d len t : k_active d = true → tspec d (tls_client_read len t) (λ r d', moved d d' [] r.2 ∧ read_gives len r).
Proof.
  intros Ha. unfold tls_client_read. apply tspec_active. rewrite Ha. cbn [negb orb]. apply tspec_if; intros Hl; bprop.
  - apply tspec_ret. split; [by apply moved_none|done].
  - eapply tspec_weaken; [apply read_loop_known; unfold zlen; simpl; lia|]. intros r d' (more & Hm & Er & K). simpl in Er. by subst.
Qed.

(** A request over an open connection: what was written is the start of it, all of it when
    there is an answer, and the answer is what was received. *)
Record answered (d d' : known) (req : list Z) (size : Z) (r : Z * list Z) (w : list Z) : Prop := {
  an_written : written (k_lib d') = written (k_lib d) ++ w;
  an_prefix : w `prefix_of` req;
  an_received : received (k_lib d') = received (k_lib d) ++ r.2;
  an_result : if 0 <? r.1 then w = req ∧ r.1 = zlen r.2 ∧ zlen r.2 < size else r.2 = [];
  an_active : k_active d' = false;
  an_holds : holds_all false d'
}.

Lemma exchange_known patience d req size t :
  (4096 * S most ≤ patience)%nat → 0 < zlen req ≤ 4096 → k_active d = true → holds_all true d →
  tspec d (tls_exchange patience req size t) (λ r d', k_closed d' = true ∧ ∃ w, answered d d' req size r w).
Proof.
  intros Hp Hz Ha Hh. unfold tls_exchange. eapply tspec_bind; [by apply tls_write_known|].
  intros rc d1 (w & (K1 & A1 & W1 & R1) & Hpre & Hall). cbn beta in *. rewrite app_nil_r in R1.
  assert (holds_all (k_active d1) d1) as Hd1 by (intros c; by rewrite K1, A1, Ha).
  apply tspec_if; intros Hrc; bprop.
  - eapply tspec_bind; [by apply tls_close_known|]. intros ? d2 [[W2 R2 A2 K2] Hc]. apply tspec_ret. split; [done|].
    exists w. split; try done; cbn [fst snd]; rewrite ?app_nil_r; congruence || done.
  - specialize (Hall Hrc). subst w. eapply tspec_bind; [apply tls_read_known; congruence|].
    intros [n b] d2 [(K2 & A2 & W2 & R2) Hg]. cbn [fst snd] in *. rewrite app_nil_r in W2.
    eapply tspec_bind; [apply tls_close_known; intros c; by rewrite K2, A2|]. intros ? d3 [[W3 R3 A3 K3] Hc].
    apply tspec_ret. split; [done|]. exists req. unfold read_gives in Hg. cbn [fst snd] in Hg.
    destruct (Z.ltb_spec 0 n) as [Hn|Hn].
    + test_false (n <=? 0). destruct Hg as [-> Hlen]. split; try done; cbn [fst snd]; try congruence. test_true (0 <? zlen b). repeat split; lia.
    + test_true (n <=? 0). subst b. split; try done; cbn [fst snd]; try (rewrite ?app_nil_r in *; congruence).
      replace (0 <? (if n <? 0 then n else EIO)) with false; [done|]. symmetry. apply Z.ltb_ge. case_test; klia.
Qed.

(** *** The text of the request *)

Definition post_message (host path headers body : list Z) : list Z :=
  str "POST " ++ path ++ str " HTTP/1.1" ++ CRLF ++ str "Host: " ++ host ++ CRLF ++ headers ++ CRLF
    ++ str "Content-Type: application/json" ++ CRLF ++ str "Content-Length: " ++ dec (zlen body) ++ CRLF ++ CRLF ++ body.

(** Lengths of texts with literal parts. *)
Ltac zlits := repeat match goal with
  | |- context [zlen (str ?s)] => let v := eval vm_compute in (zlen (str s)) in change (zlen (str s)) with v
  | Hz : context [zlen (str ?s)] |- _ => let v := eval vm_compute in (zlen (str s)) in change (zlen (str s)) with v in Hz
  end; change (zlen CRLF) with 2 in *; change (zlen (@nil Z)) with 0 in *.
Ltac room := rewrite ?zlen_app in *; zlits; lia.

Lemma if_room {A} (a : list A) n : n ≤ 4096 → (if n <=? 4096 then Some a else None) = Some a.
Proof. intros Hn. by test_true (n <=? 4096). Qed.

Lemma post_text_exact host path headers body : zlen (post_message host path headers body) ≤ 3840 →
  https_post_text host path (Some headers) (Some body) = Some (post_message host path headers body).
Proof.
  unfold post_message. intros Hz.
  pose proof (zlen_nonneg path). pose proof (zlen_nonneg host). pose proof (zlen_nonneg headers). pose proof (zlen_nonneg body).
  pose proof (zlen_nonneg (dec (zlen body))). unfold https_post_text, post_text. cbv zeta.
  rewrite (fill_fits _ [] (str "POST ")), (fill_fits _ _ path) by room. rewrite (fill_fits _ _ (str " HTTP/1.1" ++ _)), (fill_fits _ _ host) by room.
  rewrite if_room by room. cbn [mbind option_bind]. rewrite (fill_fits _ _ headers), if_room by room. cbn [mbind option_bind].
  rewrite (fill_fits _ _ (str "Content-Type: application/json" ++ _)), (fill_fits _ _ (dec _)) by room.
  rewrite if_room by room. cbn [mbind option_bind]. rewrite (fill_fits _ _ body) by room.
  match goal with |- (if zlen ?r <? _ then _ else _) = _ => replace (zlen r <? 4096) with true end.
  - f_equal. by rewrite <- !app_assoc.
  - symmetry. apply Z.ltb_lt. room.
Qed.

Lemma post_message_len host path headers body : 5 ≤ zlen (post_message host path headers body).
Proof. unfold post_message. rewrite zlen_app. zlits. pose proof (zlen_nonneg (path ++ str " HTTP/1.1" ++ CRLF ++ str "Host: " ++ host ++ CRLF ++ headers ++ CRLF ++ str "Content-Type: application/json" ++ CRLF ++ str "Content-Length: " ++ dec (zlen body) ++ CRLF ++ CRLF ++ body)). lia. Qed.

Lemma post_ip_known patience d host ip port path headers body size t :
  (4096 * S most ≤ patience)%nat → zlen (post_message host path headers body) ≤ 3840 → ip ≠ 0 → port ≠ 0 → 0 < size →
  holds_all (k_active d) d →
  tspec d (net_https_post_ip patience host ip port path (Some headers) (Some body) size t) (λ r d', ∃ w,
    answered d d' (post_message host path headers body) size r w ∧ (k_closed d' = true ∨ w = [] ∧ r = (EIO, []))).
Proof.
  intros Hp Hz Hip Hport Hsize Hd. pose proof (post_message_len host path headers body). unfold net_https_post_ip.
  test_false (size <=? 0). test_false (ip =? 0). cbn [orb].
  eapply tspec_bind; [apply connect_ip_known; [lia|done|done]|]. intros rc d1 [[-> [W R A K]]|[-> [W R A K]]].
  - cbn [Z.eqb negb]. unfold https_post_send. rewrite post_text_exact by done. cbn [orundef].
    eapply tspec_bind; [by apply (tspec_ret _ _ (λ x d', x = post_message host path headers body ∧ d' = d1))|]. intros ? ? [-> ->].
    eapply tspec_weaken; [apply exchange_known; [done|lia|done|done]|]. intros r d2 [Hc (w & [Ww Wp Wr Wx Wa Wh])].
    exists w. split; [|by left]. split; congruence || done.
  - apply tspec_ret. exists []. split; [|by right]. split; rewrite ?app_nil_r; try done. apply prefix_nil.
Qed.

(** ** The resolver *)

Lemma close_if_any d : tspec d close_if_active (λ _ d', k_active d' = false).
Proof.
  unfold close_if_active. apply tspec_active. apply tspec_if; intros Ha; [|by apply tspec_ret].
  unfold tls_client_close. apply tspec_active. rewrite Ha. cbn [negb].
  eapply tspec_bind; [apply (lib_known d _ (λ _ t', quiet (k_lib d) t')), close_law|]. intros ? d1 _.
  eapply tspec_bind; [apply free_all_known|]. intros _ d2 _. eapply tspec_bind; [apply close_known|]. intros ? d3 _.
  eapply tspec_weaken; [apply tspec_set_active|]. by intros ? d4 ->.
Qed.

Lemma doh_request_len host : 0 < zlen (doh_request host) ≤ 4096.
Proof.
  unfold doh_request. rewrite (fill_fits (384 - 96)) by room. set (x := str "&type=A HTTP/1.1" ++ _).
  pose proof (zlen_fill (384 - 64) ([] ++ str "GET /resolve?name=") host). pose proof (zlen_fill (384 - 2) (fill (384 - 64) ([] ++ str "GET /resolve?name=") host) x).
  room.
Qed.

(** The resolver always returns, and in a sound state. *)
Lemma doh_safe patience host t : (4096 * S most ≤ patience)%nat → safe (dns_doh_resolve_a patience host t).
Proof.
  intros Hp s Hs. set (d := mk_known (tls_lib (vars s)) (tls_active (vars s)) false).
  assert (state_is d s) as Hd by (split; [done|]; split; [cbn; by destruct (vars s)|done]).
  assert (tspec d (dns_doh_resolve_a patience host t) (λ _ _, True)) as Hk.
  { unfold dns_doh_resolve_a. apply tspec_if; intros _; [by apply tspec_ret|]. unfold tls_client_connect_ip. cbn [Z.eqb].
    eapply (tspec_bind _ _ (λ rc d', rc = 0 → k_active d' = true ∧ holds_all true d')).
    - eapply tspec_bind; [apply close_if_any|]. intros ? d1 Ha.
      eapply tspec_bind; [apply tspec_net; [apply connect_safe|apply net_connect_ip_via; apply _ || apply card_steps]|].
      intros rc d2 ->. apply tspec_if; intros _; [by apply tspec_ret|].
      eapply tspec_weaken; [apply tls_start_known; [lia|done]|]. by intros rc' d3 [[-> [_ _ ? ?]]|[-> _]].
    - intros rc d1 Ho. apply tspec_if; intros Hrc; [by apply tspec_ret|]. rewrite negb_false_iff in Hrc. bprop. destruct (Ho Hrc) as [Ha Hh].
      eapply tspec_bind; [apply exchange_known; [done|apply doh_request_len|done|done]|]. intros r d2 _. by apply tspec_ret. }
  destruct (Hk s Hd) as (x & s' & E & d' & _ & Hw & _). eauto.
Qed.

End props.

(** [C32] A request over HTTPS as a whole, with headers and a body, of at most 3840 bytes,
    to an address and a port that are not zero, with a card whose frames fit in the
    stack's buffer.  Whatever the network and the server do, as long as the library makes
    progress within the given patience (no more than [most] calls
    that ask for more in a row), the call returns, in a sound state, with the contexts of
    the library freed and the client ready for the next call.  What went into the encrypted
    stream is a prefix of the HTTP request with the given host, path, headers and body and
    the length of the body; when a response is returned, it is the whole request, and the
    response is exactly what came out of the stream.  The connection is closed, or the call
    failed with EIO before anything went into the stream: when the connection could not be
    made because of the address resolution or the first segment, the stack's record of the
    connection stays marked active. *)
Theorem https_exchange {N T : Type} `{NicLaws N} `{MbedtlsLaws T most} patience d s host ip port path headers body size t :
  short_frames (N:=N) → (4096 * S most ≤ patience)%nat →
  zlen (post_message host path headers body) ≤ 3840 → ip ≠ 0 → port ≠ 0 → 0 < size →
  state_is (N:=N) d s → holds_all (k_active d) d →
  ∃ r s' d' w,
    net_https_post_ip patience host ip port path (Some headers) (Some body) size t s = Ret (r, s')
    ∧ state_is d' s' ∧ answered d d' (post_message host path headers body) size r w
    ∧ (active (tcp s') = false ∨ w = [] ∧ r = (EIO, [])).
Proof.
  intros Hs Hp Hz Hip Hport Hsize Hst Hd.
  destruct (post_ip_known Hs patience d host ip port path headers body size t Hp Hz Hip Hport Hsize Hd s Hst) as (r & s' & E & d' & (w & Hw & Hc) & Hst').
  exists r, s', d', w. split; [done|]. split; [done|]. split; [done|]. destruct Hc as [Hc|]; [left|by right]. by apply Hst'.
Qed.

(** The whole stack with the resolver over HTTPS in its place. *)
Theorem net_calls_over_https {N T : Type} `{NicLaws N} `{MbedtlsLaws T most} patience ops (c : N * tls_vars T) :
  short_frames (N:=N) → (4096 * S most ≤ patience)%nat → Forall op_ok ops →
  ∃ s', run_ops (Some (dns_doh_resolve_a patience)) ops (net_start c) = Ret (tt, s') ∧ net_wf s'.
Proof.
  intros Hs Hp Hops. assert (triple (net_wf (N:=N * tls_vars T)) (run_ops (Some (dns_doh_resolve_a patience)) ops) (λ _, net_wf)) as Hk.
  { induction Hops as [|o ops Ho Hops IH]; cbn [run_ops]; [apply safe_ret|]. apply safe_bind; [|done].
    apply run_op_safe; [by apply tls_short| |done]. intros f h t [= <-] _. by apply doh_safe. }
  destruct (Hk (net_start c) (net_start_wf c)) as ([] & s' & E & Hw). eauto.
Qed.

(** ** A library without secrets

    It asks once for patience in a handshake, writes pieces of sixteen bytes and reads
    from a given response. *)

Record clear := mk_clear { cl_held : list context; cl_wait : bool; cl_sent : list Z; cl_got : list Z; cl_input : list Z }.

#[export] Instance clear_tls : Mbedtls clear := {
  mbedtls_init c t := mk_clear (c :: cl_held t) (cl_wait t) (cl_sent t) (cl_got t) (cl_input t);
  mbedtls_free c t := mk_clear (filter (λ x, x ≠ c) (cl_held t)) (cl_wait t) (cl_sent t) (cl_got t) (cl_input t);
  mbedtls_set _ t := (0, t);
  mbedtls_ssl_handshake t :=
    if cl_wait t then Send (str "hello") (λ _, Done (MBEDTLS_ERR_SSL_WANT_READ, mk_clear (cl_held t) false (cl_sent t) (cl_got t) (cl_input t)))
    else Recv 64 (λ _, Done (0, mk_clear (cl_held t) true (cl_sent t) (cl_got t) (cl_input t)));
  mbedtls_ssl_write d t :=
    Send (take 16 d) (λ _, Done (zlen (take 16 d), mk_clear (cl_held t) (cl_wait t) (cl_sent t ++ take 16 d) (cl_got t) (cl_input t)));
  mbedtls_ssl_read n t :=
    let b := take (Z.to_nat n) (cl_input t) in
    Done ((zlen b, b), mk_clear (cl_held t) (cl_wait t) (cl_sent t) (cl_got t ++ b) (drop (length b) (cl_input t)));
  mbedtls_ssl_close_notify t := Send [21] (λ _, Done (0, t))
}.

#[export] Instance clear_view : TlsView clear := {
  holds t c := bool_decide (c ∈ cl_held t);
  written := cl_sent;
  received := cl_got;
  stall t := if cl_wait t then 1%nat else 0%nat
}.

#[export] Instance clear_laws : MbedtlsLaws clear 1.
Proof.
  split.
  - intros t. cbn. destruct (cl_wait t); lia.
  - intros c t. split; [done|]. split; [done|]. intros d. cbn. rewrite <- bool_decide_or. apply bool_decide_ext. set_solver.
  - intros c t. split; [done|]. split; [done|]. intros d. cbn. rewrite <- bool_decide_not, <- bool_decide_and. apply bool_decide_ext.
    rewrite list_elem_of_filter. done.
  - intros c t. by split.
  - intros t. cbn. destruct (cl_wait t) eqn:E; cbn; [intros _|split; [lia|intros _]]; (split; [by split|]); cbn; rewrite ?E; done || lia.
  - intros d t. cbn. intros _. split; [done|]. split; [done|]. split.
    + intros Hw. unfold want, MBEDTLS_ERR_SSL_WANT_READ, MBEDTLS_ERR_SSL_WANT_WRITE in Hw. pose proof (zlen_nonneg (take 16 d)). bprop; lia.
    + case_test; bprop.
      * split; [unfold zlen; rewrite length_take; lia|]. f_equal. unfold zlen. rewrite Nat2Z.id, length_take.
        destruct (decide (16 ≤ length d)%nat); [by rewrite Nat.min_l|]. rewrite Nat.min_r by lia. by rewrite (take_ge d 16), (take_ge d (length d)) by lia.
      * pose proof (zlen_nonneg (take 16 d)). replace (take 16 d) with (@nil Z); [by rewrite app_nil_r|].
        destruct (take 16 d); [done|]. rewrite zlen_cons in *. pose proof (zlen_nonneg l). lia.
  - intros n t. cbn. split; [done|]. split; [done|]. set (b := take (Z.to_nat n) (cl_input t)). case_test; bprop.
    + split; [done|]. split; [|done]. unfold b, zlen in *. rewrite length_take in *. lia.
    + destruct b; [by rewrite app_nil_r|]. rewrite zlen_cons in *. pose proof (zlen_nonneg b). lia.
  - by intros t.
Qed.

Definition server_ip : Z := 0x5db8d822.
Definition reply_text : list Z := str "HTTP/1.1 200 OK" ++ CRLF ++ CRLF ++ str "{}".

(** A stack that knows its gateway, with the answer to its connection on the way. *)
Definition https_start : net (wire * tls_vars clear) :=
  with_ips NET_IP_HOST NET_DNS_HOST
    (with_arp (mk_arp wire_mac true (replicate 6 0) 0 false)
      (net_start (mk_wire [tcp_frame wire_mac wire_mac server_ip NET_IP_HOST 443 49152 7 0x12345001 (Z.lor TCP_SYN TCP_ACK) []] [],
                  mk_tls (mk_clear [] true [] [] reply_text) false))).

Lemma https_start_known : state_is (mk_known (mk_clear [] true [] [] reply_text) false false) https_start.
Proof.
  split; [|done]. pose proof (net_start_wf (nic https_start)) as [? ? ? ? ? ? ? ?]. by split.
Qed.

Lemma https_exchange_witness :
  ∃ r s' d' w,
    net_https_post_ip (Z.to_nat 8192) (str "example.org") server_ip 443 (str "/v1") (Some (str "Accept: */*")) (Some (str "{}")) 64 1 https_start = Ret (r, s')
    ∧ state_is d' s' ∧ answered (mk_known (mk_clear [] true [] [] reply_text) false false) d'
        (post_message (str "example.org") (str "/v1") (str "Accept: */*") (str "{}")) 64 r w
    ∧ (active (tcp s') = false ∨ w = [] ∧ r = (EIO, [])).
Proof.
  apply (https_exchange (N:=wire) (most:=1)); [exact wire_short|lia|by vm_compute|done|done|done|exact https_start_known|].
  intros []; reflexivity.
Defined.

Example https_exchange_ok :
  match net_https_post_ip (Z.to_nat 8192) (str "example.org") server_ip 443 (str "/v1") (Some (str "Accept: */*")) (Some (str "{}")) 64 1 https_start with
  | Ret ((rc, resp), _) => bool_decide (rc = zlen reply_text ∧ resp = reply_text)
  | _ => false
  end = true.
Proof. vm_compute. reflexivity. Qed.
