(* ===== verification/Doh.v ===== *)
(** * Answers of the resolver over HTTPS

    The texts that a server sends ([doh_json], the JSON of RFC 8427 as dns.google writes
    it, without the optional fields at its end) and what [parse_doh_a] of kernel/tls_client.c reads in them. *)

From S2P Require Import Prelude Ramfs Persist Paths Vm NetWire Net NetProps TlsClient.

(** ** The texts *)

Record record := mk_record { r_name : list Z; r_type : Z; r_ttl : Z; r_data : list Z }.

Definition quoted (s : list Z) : list Z := QUOTE :: s ++ [QUOTE].
Definition field (k v : list Z) : list Z := quoted k ++ chr ":" :: v.

Definition record_json (r : record) : list Z :=
  str "{" ++ field (str "name") (quoted (r_name r)) ++ str "," ++ field (str "type") (dec (r_type r)) ++ str ","
    ++ field (str "TTL") (dec (r_ttl r)) ++ str "," ++ field (str "data") (quoted (r_data r)) ++ str "}".

Fixpoint records_json (rs : list record) : list Z :=
  match rs with [] => [] | r :: rs' => record_json r ++ (match rs' with [] => [] | _ => str "," end) ++ records_json rs' end.

(** The flags of the answer: truncated, recursion desired and available, authenticated,
    checking disabled. *)
Record flags := mk_flags { f_tc : bool; f_rd : bool; f_ra : bool; f_ad : bool; f_cd : bool }.

Definition flag (k : string) (b : bool) : list Z := field (str k) (if b then str "true" else str "false") ++ str ",".

Definition doh_json (fl : flags) (q : list Z) (rs : list record) : list Z :=
  str "{" ++ field (str "Status") (str "0") ++ str ","
    ++ flag "TC" (f_tc fl) ++ flag "RD" (f_rd fl) ++ flag "RA" (f_ra fl) ++ flag "AD" (f_ad fl) ++ flag "CD" (f_cd fl)
    ++ field (str "Question")
    (str "[{" ++ field (str "name") (quoted q) ++ str "," ++ field (str "type") (str "1") ++ str "}]") ++ str ","
    ++ field (str "Answer") (str "[" ++ records_json rs ++ str "]") ++ str "}".

(** The address that a record gives to the name: that of a record of type A. *)
Definition address (r : record) : option Z := if r_type r =? 1 then parse_ipv4_str (r_data r) else None.

(** What the scan reads in a record: the data, cut to 15 bytes, of one whose type begins
    with the digit 1. *)
Definition read (r : record) : option Z :=
  if bool_decide (head (dec (r_type r)) = Some 49) then parse_ipv4_str (take 15 (r_data r)) else None.

(** The last address that [f] finds in the records. *)
Fixpoint last_found (f : record → option Z) (rs : list record) (last : option Z) : option Z :=
  match rs with [] => last | r :: rs' => last_found f rs' (match f r with Some ip => Some ip | None => last end) end.

(** Texts without quotes. *)
Definition plain (s : list Z) : Prop := Forall (λ c, c ≠ QUOTE) s.

Record record_plain (r : record) : Prop := {
  ro_name : plain (r_name r);
  ro_data : plain (r_data r);
  ro_ttl : 0 ≤ r_ttl r < 4294967296;
  ro_type : 0 ≤ r_type r < 65536
}.

(** A record of type A holds an address, and one of another type nothing that reads like
    one. *)
Record record_honest (r : record) : Prop := {
  ro_a : r_type r = 1 → ∃ a b c d, r_data r = dotted a b c d ∧ byte_ok a ∧ byte_ok b ∧ byte_ok c ∧ byte_ok d;
  ro_other : r_type r ≠ 1 → parse_ipv4_str (take 15 (r_data r)) = None
}.

(** ** Addresses *)

Lemma ipv4_str_digits_rev f n rest ip oct :
  0 < n < 10 ^ Z.of_nat f → n ≤ 255 → ∃ k, 0 < k ∧ ipv4_str_loop (rev (digits_rev f n) ++ rest) ip oct 0 0 = ipv4_str_loop rest ip oct n k.
Proof.
  revert n rest; induction f as [|f IH]; intros n rest Hn Hb; cbn [digits_rev]; [change (10 ^ Z.of_nat 0) with 1 in Hn; lia|].
  test_false (n <=? 0). cbn [rev]. rewrite <- app_assoc. cbn [app].
  assert (∀ k, 0 ≤ k → ipv4_str_loop (48 + n mod 10 :: rest) ip oct (n / 10) k = ipv4_str_loop rest ip oct n (k + 1)) as Hlast.
  { intros k Hk. cbn [ipv4_str_loop]. pose proof (Z.mod_pos_bound n 10).
    replace (is_digit (48 + n mod 10)) with true by (symmetry; apply andb_true_iff; rewrite !Z.leb_le; lia).
    replace (n / 10 * 10 + (48 + n mod 10 - 48)) with n by (rewrite (Z.div_mod n 10) at 1; lia). by test_false (255 <? n). }
  destruct (Z.eqb_spec (n / 10) 0) as [E|E].
  - exists 1. split; [lia|]. rewrite E. replace (digits_rev f 0) with (@nil Z) by (by destruct f).
    specialize (Hlast 0). rewrite E in Hlast. by apply Hlast.
  - destruct (IH (n / 10) (48 + n mod 10 :: rest)) as (k & Hk & ->).
    + rewrite Nat2Z.inj_succ, Z.pow_succ_r in Hn by lia. Z.to_euclidean_division_equations; lia.
    + Z.to_euclidean_division_equations; lia.
    + exists (k + 1). split; [lia|]. apply Hlast. lia.
Qed.

Lemma ipv4_str_dec n rest ip oct : byte_ok n → ∃ k, 0 < k ∧ ipv4_str_loop (dec n ++ rest) ip oct 0 0 = ipv4_str_loop rest ip oct n k.
Proof.
  unfold byte_ok. intros Hn. unfold dec. case_test; bprop; [subst; by exists 1|]. apply ipv4_str_digits_rev; [|lia].
  unfold dec_fuel. split; [lia|]. eapply Z.lt_trans; [apply Hn|]. done.
Qed.

Lemma ipv4_str_dot rest ip oct val k : 0 < k → oct < 3 → ipv4_str_loop (46 :: rest) ip oct val k = ipv4_str_loop rest (u32 (Z.lor (Z.shiftl ip 8) val)) (oct + 1) 0 0.
Proof.
  intros Hk Ho. cbn [ipv4_str_loop]. change (is_digit 46) with false. change (46 =? chr ".") with true. cbn iota.
  by test_false (k =? 0); test_false (3 <=? oct).
Qed.

Lemma shift_in ip n b : 0 ≤ ip < n → n ≤ 16777216 → byte_ok b → u32 (Z.lor (Z.shiftl ip 8) b) = ip * 256 + b.
Proof. intros Hi Hn Hb. unfold byte_ok in Hb. rewrite lor_shiftl by lia. apply u32_small. lia. Qed.

Lemma parse_ipv4_str_dotted a b c d : byte_ok a → byte_ok b → byte_ok c → byte_ok d →
  parse_ipv4_str (dotted a b c d) = Some (16777216 * a + 65536 * b + 256 * c + d).
Proof.
  intros Ha Hb Hc Hd. unfold parse_ipv4_str, dotted. change (str ".") with [46]. cbn [app].
  destruct (ipv4_str_dec a (46 :: dec b ++ 46 :: dec c ++ 46 :: dec d) 0 0 Ha) as (k1 & K1 & ->). rewrite ipv4_str_dot by done.
  rewrite (shift_in 0 1) by (done || lia).
  destruct (ipv4_str_dec b (46 :: dec c ++ 46 :: dec d) (0 * 256 + a) (0 + 1) Hb) as (k2 & K2 & ->). rewrite ipv4_str_dot by lia.
  unfold byte_ok in *. rewrite (shift_in _ 256) by (unfold byte_ok; lia).
  destruct (ipv4_str_dec c (46 :: dec d) ((0 * 256 + a) * 256 + b) (0 + 1 + 1) Hc) as (k3 & K3 & ->). rewrite ipv4_str_dot by lia.
  rewrite (shift_in _ 65536) by (unfold byte_ok; lia).
  rewrite <- (app_nil_r (dec d)). destruct (ipv4_str_dec d [] (((0 * 256 + a) * 256 + b) * 256 + c) (0 + 1 + 1 + 1) Hd) as (k4 & K4 & ->).
  cbn [ipv4_str_loop]. test_false (k4 =? 0). cbn. rewrite (shift_in _ 16777216) by (unfold byte_ok; lia). f_equal. lia.
Qed.

Lemma dec_byte_len n : byte_ok n → (length (dec n) ≤ 3)%nat.
Proof.
  intros Hn. assert (forallb (λ n, (length (dec n) <=? 3)%nat) (seqZ 0 256) = true) as Hall by (vm_compute; reflexivity).
  rewrite List.forallb_forall in Hall. apply Nat.leb_le, Hall, list_elem_of_In, elem_of_seqZ. unfold byte_ok in Hn. lia.
Qed.

Lemma dotted_len a b c d : byte_ok a → byte_ok b → byte_ok c → byte_ok d → (length (dotted a b c d) ≤ 15)%nat.
Proof.
  intros Ha Hb Hc Hd. unfold dotted. rewrite !length_app. change (length (str ".")) with 1%nat.
  pose proof (dec_byte_len a Ha). pose proof (dec_byte_len b Hb). pose proof (dec_byte_len c Hc). pose proof (dec_byte_len d Hd). lia.
Qed.

Lemma digits_rev_len f n : (length (digits_rev f n) ≤ f)%nat.
Proof. revert n; induction f as [|f IH]; intros n; cbn [digits_rev]; [done|]. case_test; cbn [length]; [lia|]. specialize (IH (n / 10)). lia. Qed.

Lemma dec_len n : (length (dec n) ≤ 20)%nat.
Proof. unfold dec. case_test; [simpl; lia|]. rewrite length_rev. apply digits_rev_len. Qed.

Lemma dec_plain n : plain (dec n).
Proof.
  eapply Forall_impl; [apply dec_digits|]. intros c Hc. unfold is_digit in Hc. unfold QUOTE. bprop. lia.
Qed.

(** ** Skipping text without the keys *)

Lemma match_cons c p k lit : match_at (c :: p) (k :: lit) = (c =? k) && match_at p lit.
Proof.
  unfold match_at. cbn [cmatch]. f_equal. rewrite (cmatch_app [c] p) by done. done.
Qed.

(** No key begins in [x] when [rest] follows. *)
Fixpoint clean (lits : list (list Z)) (x rest : list Z) : Prop :=
  match x with
  | [] => True
  | c :: x' => Forall (λ l, match_at (x ++ rest) l = false) lits ∧ clean lits x' rest
  end.

Lemma clean_app lits x y rest : clean lits x (y ++ rest) → clean lits y rest → clean lits (x ++ y) rest.
Proof.
  intros Hx Hy. induction x as [|c x IH]; [done|]. destruct Hx as [Hc Hx]. split; [|by apply IH].
  by replace ((c :: x ++ y) ++ rest) with ((c :: x) ++ y ++ rest) by (cbn; by rewrite app_assoc).
Qed.

Abbreviation TYPES := [TYPE_A; TYPE_A_BLANK].
Abbreviation DATA := [DATA_KEY].

Lemma scan_clean x rest last : clean TYPES x rest → doh_scan (x ++ rest) last = doh_scan rest last.
Proof.
  induction x as [|c x IH]; intros Hx; [done|]. destruct Hx as [Hc Hx]. cbn [app doh_scan].
  change (c :: x ++ rest) with ((c :: x) ++ rest). rewrite !Forall_cons in Hc. destruct Hc as (-> & -> & _). by apply IH.
Qed.

Lemma data_clean n x rest : clean DATA x rest → doh_data n (x ++ rest) = doh_data (n - length x) rest.
Proof.
  revert n; induction x as [|c x IH]; intros n Hx; cbn [length app]; [by rewrite Nat.sub_0_r|]. destruct Hx as [Hc Hx].
  destruct n as [|n]; [by destruct rest|]. cbn [doh_data Nat.sub]. change (c :: x ++ rest) with ((c :: x) ++ rest).
  rewrite Forall_cons in Hc. destruct Hc as [-> _]. by apply IH.
Qed.

(** Every key begins with a quote. *)
Definition keys (lits : list (list Z)) : Prop := Forall (λ l, ∃ k v, l = QUOTE :: k ++ QUOTE :: 58 :: v ∧ plain k) lits.

Lemma keys_types : keys TYPES.
Proof. repeat constructor; eexists (str "type"), _; (split; [reflexivity|]); repeat constructor; done. Qed.

Lemma keys_data : keys DATA.
Proof. repeat constructor; eexists (str "data"), _; (split; [reflexivity|]); repeat constructor; done. Qed.

Lemma clean_plain lits x rest : keys lits → plain x → clean lits x rest.
Proof.
  intros Hl Hx. induction Hx as [|c x Hc Hx IH]; [done|]. split; [|done]. eapply Forall_impl; [exact Hl|].
  intros l (k & v & -> & _). cbn [app]. rewrite match_cons. by test_false (c =? QUOTE).
Qed.

(** A text in quotes that is no key. *)
Lemma match_quoted k v x c rest : plain k → plain x → c ≠ 58 →
  match_at (x ++ QUOTE :: c :: rest) (k ++ QUOTE :: 58 :: v) = false.
Proof.
  intros Hk Hx Hc. revert k Hk; induction Hx as [|a x Ha Hx IH]; intros k Hk; destruct Hk as [|b k Hb Hk]; cbn [app]; rewrite match_cons.
  - rewrite match_cons. test_false (c =? 58). apply andb_false_r.
  - by test_false (QUOTE =? b).
  - by test_false (a =? QUOTE).
  - rewrite IH by done. apply andb_false_r.
Qed.

Lemma clean_quoted lits x c rest : keys lits → plain x → c ≠ 58 → clean lits (QUOTE :: x) (QUOTE :: c :: rest).
Proof.
  intros Hl Hx Hc. split; [|by apply clean_plain]. eapply Forall_impl; [exact Hl|]. intros l (k & v & -> & Hk).
  cbn [app]. rewrite match_cons, match_quoted by done. apply andb_false_r.
Qed.

(** ** Reading a record *)

Ltac clean_lit := repeat (split; [repeat (constructor; [reflexivity|]); constructor|]); exact I.

Definition front (n : list Z) : list Z := str "{" ++ field (str "name") (quoted n) ++ str ",".
Definition middle (r : record) : list Z := str "," ++ field (str "TTL") (dec (r_ttl r)) ++ str ",".
Definition tail (r : record) : list Z := field (str "data") (quoted (r_data r)) ++ str "}".

Lemma record_split r rest :
  record_json r ++ rest = front (r_name r) ++ QUOTE :: (str "type" ++ [QUOTE; 58]) ++ dec (r_type r) ++ middle r ++ tail r ++ rest.
Proof. unfold record_json, front, middle, tail, field. repeat (progress (cbn [app quoted]; rewrite <- ?app_assoc)); reflexivity. Qed.

Lemma clean_value lits x c rest : lits = TYPES ∨ lits = DATA → plain x → c = 44 ∨ c = 125 → clean lits (quoted x) (c :: rest).
Proof.
  intros Hl Hx Hc. unfold quoted. change (QUOTE :: x ++ [QUOTE]) with ((QUOTE :: x) ++ [QUOTE]). apply clean_app.
  - cbn [app]. apply clean_quoted; [destruct Hl as [-> | ->]; [apply keys_types|apply keys_data]|done|lia].
  - destruct Hl as [-> | ->], Hc as [-> | ->]; clean_lit.
Qed.

Lemma clean_front lits n rest : lits = TYPES ∨ lits = DATA → plain n → clean lits (front n) rest.
Proof.
  intros Hl Hn. change (front n) with ((str "{" ++ quoted (str "name") ++ [58]) ++ (quoted n ++ str ",")).
  apply clean_app; [destruct Hl as [-> | ->]; clean_lit|]. apply clean_app; [by apply clean_value; [..|left]|]. destruct Hl as [-> | ->]; clean_lit.
Qed.

Lemma clean_middle lits r rest : lits = TYPES ∨ lits = DATA → clean lits (middle r) rest.
Proof.
  intros Hl. unfold middle, field. change (str "," ++ (quoted (str "TTL") ++ chr ":" :: dec (r_ttl r)) ++ str ",") with ((str "," ++ quoted (str "TTL") ++ [58]) ++ dec (r_ttl r) ++ str ",").
  apply clean_app; [destruct Hl as [-> | ->]; clean_lit|]. apply clean_app; [|destruct Hl as [-> | ->]; clean_lit].
  apply clean_plain; [destruct Hl as [-> | ->]; [apply keys_types|apply keys_data]|apply dec_plain].
Qed.

Lemma take_while_plain x rest : plain x → (take_while (λ c, negb (c =? QUOTE)) (x ++ QUOTE :: rest)).1 = x.
Proof.
  induction 1 as [|c x Hc Hx IH]; [done|]. cbn [app take_while]. test_false (c =? QUOTE). cbn [negb].
  destruct (take_while _ (x ++ QUOTE :: rest)) as [a b]. cbn [fst] in *. by rewrite IH.
Qed.

(** The data of a record is found from its type. *)
Lemma data_found n r rest : plain (r_data r) → (0 < n)%nat → doh_data n (tail r ++ rest) = Some (take 15 (r_data r)).
Proof.
  intros Hd Hn. destruct n as [|n]; [lia|].
  change (tail r ++ rest) with (DATA_KEY ++ ((r_data r ++ [QUOTE]) ++ str "}") ++ rest). cbn [doh_data DATA_KEY app].
  change (match_at _ DATA_KEY) with true. cbn iota. rewrite <- !app_assoc. cbn [app].
  match goal with |- context [drop 8 _] => change (drop 8 _) with (r_data r ++ QUOTE :: str "}" ++ rest) end. by rewrite take_while_plain.
Qed.

(** The type field, up to the data. *)
Lemma data_from_type r rest : record_plain r →
  doh_data 120 (QUOTE :: (str "type" ++ [QUOTE; 58]) ++ dec (r_type r) ++ middle r ++ tail r ++ rest) = Some (take 15 (r_data r)).
Proof.
  intros Hr. set (x := QUOTE :: str "type" ++ [QUOTE; 58]). pose proof (dec_len (r_type r)). pose proof (dec_len (r_ttl r)).
  change (QUOTE :: (str "type" ++ [QUOTE; 58]) ++ dec (r_type r) ++ middle r ++ tail r ++ rest) with (x ++ dec (r_type r) ++ middle r ++ tail r ++ rest).
  rewrite (data_clean _ x), (data_clean _ (dec _)), (data_clean _ (middle r)).
  - apply data_found; [apply Hr|]. change (length x) with 7%nat. unfold middle, field. rewrite !length_app. cbn [length str app quoted]. lia.
  - apply clean_middle. by right.
  - apply clean_plain; [apply keys_data|apply dec_plain].
  - clean_lit.
Qed.

(** The type field of a record is taken for that of type A when its number begins with
    the digit 1. *)
Lemma type_taken n rest : 0 ≤ n →
  match_at (QUOTE :: (str "type" ++ [QUOTE; 58]) ++ dec n ++ rest) TYPE_A
  || match_at (QUOTE :: (str "type" ++ [QUOTE; 58]) ++ dec n ++ rest) TYPE_A_BLANK
  = bool_decide (head (dec n) = Some 49).
Proof.
  intros Hn. pose proof (dec_digits n) as Hd. pose proof (dec_nonempty n Hn). destruct (dec n) as [|c l]; [done|].
  apply Forall_cons in Hd as [Hc _]. unfold is_digit in Hc. bprop.
  change TYPE_A with [34; 116; 121; 112; 101; 34; 58; 49]. change TYPE_A_BLANK with [34; 116; 121; 112; 101; 34; 58; 32; 49].
  change (QUOTE :: (str "type" ++ [QUOTE; 58]) ++ (c :: l) ++ rest) with (34 :: 116 :: 121 :: 112 :: 101 :: 34 :: 58 :: c :: l ++ rest).
  rewrite !match_cons, !Z.eqb_refl. test_false (c =? 32). cbn [andb orb]. rewrite orb_false_r, andb_true_r. cbn [head].
  symmetry. destruct (Z.eqb_spec c 49); [apply bool_decide_eq_true|apply bool_decide_eq_false]; congruence.
Qed.

Lemma record_scan r rest last : record_plain r →
  doh_scan (record_json r ++ rest) last = doh_scan rest (match read r with Some ip => Some ip | None => last end).
Proof.
  intros Hr. rewrite record_split, scan_clean by (apply clean_front; [by left|apply Hr]). cbn [doh_scan].
  rewrite type_taken by (apply Hr). rewrite data_from_type by done.
  match goal with |- doh_scan _ ?l = _ => replace l with (match read r with Some ip => Some ip | None => last end) end.
  2: { unfold read. by destruct (bool_decide _). }
  rewrite (scan_clean (str "type" ++ [QUOTE; 58])) by clean_lit.
  rewrite (scan_clean (dec _)) by (apply clean_plain; [apply keys_types|apply dec_plain]).
  rewrite (scan_clean (middle r)) by (apply clean_middle; by left).
  change (tail r ++ rest) with ((quoted (str "data") ++ [58]) ++ (quoted (r_data r) ++ str "}") ++ rest).
  rewrite (scan_clean (quoted (str "data") ++ [58])) by clean_lit. rewrite <- app_assoc.
  rewrite (scan_clean (quoted (r_data r))) by (apply clean_value; [by left|apply Hr|by right]).
  by rewrite (scan_clean (str "}")) by clean_lit.
Qed.

Lemma records_scan rs rest last : Forall record_plain rs → doh_scan (records_json rs ++ rest) last = doh_scan rest (last_found read rs last).
Proof.
  intros Hrs. revert last; induction Hrs as [|r rs Hr Hrs IH]; intros last; [done|]. cbn [records_json last_found].
  rewrite <- app_assoc, record_scan, <- app_assoc by done. rewrite scan_clean by (destruct rs; clean_lit). apply IH.
Qed.

(** ** The whole answer *)

(** The bytes from the type field of the question to the data of the first record. *)
Definition question_gap (r : record) : Z :=
  21 + zlen (front (r_name r)) + 7 + zlen (dec (r_type r)) + zlen (middle r).

(** What the type of the question makes the scan take for an answer: the data of the
    first record, whatever its type, when it is near. *)
Definition question_read (rs : list record) : option Z :=
  match rs with
  | [] => None
  | r :: _ => if question_gap r <? 120 then parse_ipv4_str (take 15 (r_data r)) else None
  end.

Lemma data_in_record n r rest : record_plain r →
  doh_data n (record_json r ++ rest)
  = if zlen (front (r_name r)) + 7 + zlen (dec (r_type r)) + zlen (middle r) <? Z.of_nat n then Some (take 15 (r_data r)) else None.
Proof.
  intros Hr. rewrite record_split, (data_clean _ (front _)) by (apply clean_front; [by right|apply Hr]).
  change (QUOTE :: (str "type" ++ [QUOTE; 58]) ++ ?y) with ((QUOTE :: str "type" ++ [QUOTE; 58]) ++ y).
  rewrite (data_clean _ (QUOTE :: _)) by clean_lit. rewrite (data_clean _ (dec _)) by (apply clean_plain; [apply keys_data|apply dec_plain]).
  rewrite (data_clean _ (middle r)) by (apply clean_middle; by right). change (length (QUOTE :: str "type" ++ [QUOTE; 58])) with 7%nat.
  set (k := (_ - length (middle r))%nat). unfold zlen. case_test; bprop.
  - apply data_found; [apply Hr|]. unfold k. lia.
  - by replace k with O by (unfold k; lia).
Qed.

Lemma question_data rs : Forall record_plain rs →
  match doh_data 99 (records_json rs ++ str "]}") with
  | Some s => parse_ipv4_str s
  | None => None
  end = question_read rs.
Proof.
  destruct 1 as [|r rs Hr Hrs]; [done|]. cbn [records_json question_read]. rewrite <- app_assoc, data_in_record by done.
  unfold question_gap. change (Z.of_nat 99) with 99.
  destruct (Z.ltb_spec (zlen (front (r_name r)) + 7 + zlen (dec (r_type r)) + zlen (middle r)) 99);
    destruct (Z.ltb_spec (21 + zlen (front (r_name r)) + 7 + zlen (dec (r_type r)) + zlen (middle r)) 120); (done || lia).
Qed.

(** Among honest records the scan finds the addresses. *)
Lemma honest_data r : record_honest r → parse_ipv4_str (take 15 (r_data r)) = address r.
Proof.
  intros Hr. unfold address. destruct (Z.eqb_spec (r_type r) 1) as [E|E]; [|by apply ro_other].
  destruct (ro_a r Hr E) as (a & b & c & d & -> & Ha & Hb & Hc & Hd). by rewrite take_ge by (by apply dotted_len).
Qed.

Lemma honest_read r : record_honest r → read r = address r.
Proof.
  intros Hr. unfold read. rewrite honest_data by done. unfold address. destruct (Z.eqb_spec (r_type r) 1) as [->|E]; [done|].
  by destruct (bool_decide _).
Qed.

Lemma last_found_honest rs last : Forall record_honest rs → last_found read rs last = last_found address rs last.
Proof. intros Hrs. revert last; induction Hrs as [|r rs Hr _ IH]; intros last; [done|]. cbn [last_found]. by rewrite honest_read, IH. Qed.

Lemma question_honest rs : Forall record_honest rs → last_found address rs (question_read rs) = last_found address rs None.
Proof.
  destruct 1 as [|r rs Hr _]; [done|]. cbn [last_found question_read]. rewrite honest_data by done.
  destruct (question_gap r <? 120); [|done]. by destruct (address r).
Qed.

Definition before_name (fl : flags) : list Z :=
  (str "{" ++ field (str "Status") (str "0") ++ str ",")
  ++ flag "TC" (f_tc fl) ++ flag "RD" (f_rd fl) ++ flag "RA" (f_ra fl) ++ flag "AD" (f_ad fl) ++ flag "CD" (f_cd fl)
  ++ quoted (str "Question") ++ str ":[{" ++ quoted (str "name") ++ str ":".
Definition after_type : list Z := str "}]," ++ quoted (str "Answer") ++ str ":[".

Lemma json_split fl q rs :
  doh_json fl q rs = before_name fl ++ (quoted q ++ str ",") ++ TYPE_A ++ after_type ++ records_json rs ++ str "]}".
Proof.
  unfold doh_json, before_name, after_type. generalize (flag "TC" (f_tc fl)), (flag "RD" (f_rd fl)), (flag "RA" (f_ra fl)), (flag "AD" (f_ad fl)), (flag "CD" (f_cd fl)).
  intros f1 f2 f3 f4 f5. unfold field. repeat (progress (cbn [app quoted str]; rewrite <- ?app_assoc)). reflexivity.
Qed.

Lemma clean_before fl rest : clean TYPES (before_name fl) (QUOTE :: rest).
Proof. destruct fl as [[] [] [] [] []]; clean_lit. Qed.

Lemma clean_after_type lits rest : lits = TYPES ∨ lits = DATA → clean lits after_type rest.
Proof. intros [-> | ->]; clean_lit. Qed.

Lemma scan_end last : doh_scan (str "]}") last = last.
Proof. reflexivity. Qed.

Lemma scan_cons c p last : doh_scan (c :: p) last
  = doh_scan p (if match_at (c :: p) TYPE_A || match_at (c :: p) TYPE_A_BLANK then
                  match doh_data 120 (c :: p) with
                  | Some s => match parse_ipv4_str s with Some ip => Some ip | None => last end
                  | None => last
                  end
                else last).
Proof. reflexivity. Qed.

(** The type of the question. *)
Lemma question_scan rs : Forall record_plain rs →
  doh_scan (TYPE_A ++ after_type ++ records_json rs ++ str "]}") None = doh_scan (records_json rs ++ str "]}") (question_read rs).
Proof.
  intros Hrs. set (rest := records_json rs ++ str "]}"). assert (clean DATA (TYPE_A ++ after_type) rest) as Hd by clean_lit.
  assert (match_at (TYPE_A ++ after_type ++ rest) TYPE_A = true) as Hm by apply cmatch_self.
  pose proof (question_data rs Hrs) as Hq. fold rest in Hq.
  change 99%nat with (120 - length (TYPE_A ++ after_type))%nat in Hq. rewrite <- (data_clean _ _ _ Hd), <- app_assoc in Hq.
  change (TYPE_A ++ after_type ++ rest) with (QUOTE :: (str "type" ++ [QUOTE; 58; 49]) ++ after_type ++ rest) at 1.
  rewrite scan_cons. change (QUOTE :: (str "type" ++ [QUOTE; 58; 49]) ++ after_type ++ rest) with (TYPE_A ++ after_type ++ rest).
  rewrite Hm. cbn [orb]. rewrite (scan_clean (str "type" ++ _)) by clean_lit. rewrite (scan_clean after_type) by (apply clean_after_type; by left).
  f_equal. rewrite <- Hq. destruct (doh_data 120 _) as [x|]; [|done]. by destruct (parse_ipv4_str x).
Qed.

(** [C33] Names over HTTPS.  In the answer of the resolver, for any flags, any question and
    any list of records whose texts have no quotes, the scan reads the last record whose
    type number begins with the digit 1 and whose data begins like an address (its first
    15 bytes are one); when there is none, the first record if its data reads so and is
    near, since the type field of the question is taken for a record; and otherwise fails
    with EIO.  So when only records of type A have data that reads like an address, the
    result is the address of the last record of type A, and EIO when there is none. *)
Theorem doh_answer_read fl q rs : plain q → Forall record_plain rs →
  let result o := match o with Some ip => (0, ip) | None => (EIO, 0) end in
  parse_doh_a (doh_json fl q rs) = result (last_found read rs (question_read rs))
  ∧ (Forall record_honest rs → parse_doh_a (doh_json fl q rs) = result (last_found address rs None)).
Proof.
  intros Hq Hrs. cbv zeta.
  assert (doh_scan (doh_json fl q rs) None = last_found read rs (question_read rs)) as E.
  { rewrite json_split, (scan_clean (before_name fl)) by apply clean_before.
    rewrite (scan_clean (quoted q ++ _)) by (apply clean_app; [by apply clean_value; [left| |left]|clean_lit]).
    by rewrite question_scan, records_scan, scan_end. }
  unfold parse_doh_a. rewrite E. split; [done|]. intros Hh. by rewrite last_found_honest, question_honest.
Qed.

Definition demo_flags : flags := mk_flags false true true false false.
Definition demo_records : list record :=
  [mk_record (str "www.example.org.") 5 300 (str "example.org."); mk_record (str "example.org.") 1 60 (str "93.184.216.34")].

Lemma doh_answer_read_witness : parse_doh_a (doh_json demo_flags (str "www.example.org.") demo_records) = (0, 0x5db8d822).
Proof.
  refine (eq_trans (proj2 (doh_answer_read demo_flags (str "www.example.org.") demo_records _ _) _) _); [repeat constructor; done| | |reflexivity].
  - repeat constructor; cbn; try lia; done.
  - repeat constructor; cbn; try done. intros _. exists 93, 184, 216, 34. repeat split; try done; reflexivity.
Defined.

(** A record of type TXT (16) after the address is taken for one of type A. *)
Theorem doh_txt_misread :
  parse_doh_a (doh_json demo_flags (str "example.org.")
    [mk_record (str "example.org.") 1 60 (str "93.184.216.34"); mk_record (str "example.org.") 16 60 (str "1.2.3.4")])
  = (0, 0x01020304).
Proof. vm_compute. reflexivity. Qed.
