(* ===== verification/Klib.v ===== *)
(** * The C library of the kernel

    kernel/string.c on a memory of bytes ([gmap Z Z], unwritten bytes are 0) and on C
    strings, kernel/printf.c with the number printing of kernel/uart.c (in its RISC-V variant, with 16
    hexadecimal digits), and the formatted
    printing of kernel/mbedtls_port.c.  What a function prints is the list of characters
    that it sends.  The arguments of a variable argument list are values with the type
    they were passed with; [None] is a call that the language leaves undefined. *)

From S2P Require Import Prelude Ramfs Persist Paths Mem NetWire.

(** ** Memory (string.c) *)

Abbreviation memory := (gmap Z Z).

Definition ld (m : memory) (a : Z) : Z := default 0 (m !! a).

(** [for (i = 0; i < n; i++) d[i] = s[i];] and the same from the end. *)
Fixpoint copy_up (n : nat) (dst src : Z) (m : memory) : memory :=
  match n with O => m | S n' => copy_up n' (dst + 1) (src + 1) (<[dst := ld m src]> m) end.

Fixpoint copy_down (n : nat) (dst src : Z) (m : memory) : memory :=
  match n with O => m | S n' => copy_down n' dst src (<[dst + Z.of_nat n' := ld m (src + Z.of_nat n')]> m) end.

Definition memcpy (dst src : Z) (n : nat) (m : memory) : memory := copy_up n dst src m.

Definition memmove (dst src : Z) (n : nat) (m : memory) : memory :=
  if (dst =? src) || (n =? 0)%nat then m
  else if dst <? src then copy_up n dst src m
  else copy_down n dst src m.

Fixpoint set_up (n : nat) (dst v : Z) (m : memory) : memory :=
  match n with O => m | S n' => set_up n' (dst + 1) v (<[dst := v]> m) end.

Definition memset (dst c : Z) (n : nat) (m : memory) : memory := set_up n dst (u8 c) m.

Fixpoint memcmp (a b : Z) (n : nat) (m : memory) : Z :=
  match n with
  | O => 0
  | S n' => if negb (ld m a =? ld m b) then ld m a - ld m b else memcmp (a + 1) (b + 1) n' m
  end.

(** ** Strings *)

Definition strlen (s : list Z) : Z := zlen s.

Fixpoint strcmp (a b : list Z) : Z :=
  match a, b with
  | c :: a', d :: b' => if c =? d then strcmp a' b' else u8 c - u8 d
  | _, _ => u8 (cget a 0) - u8 (cget b 0)
  end.

(** The index of the character that the result points to. *)
Fixpoint strchr (s : list Z) (c : Z) : option Z :=
  match s with
  | [] => if u8 c =? 0 then Some 0 else None
  | d :: s' => if d =? u8 c then Some 0 else Z.succ <$> strchr s' c
  end.

(** ** Bits *)

Definition __bswapsi2 (x : Z) : Z :=
  Z.lor (Z.lor (Z.lor (Z.shiftl (Z.land x 0x000000ff) 24) (Z.shiftl (Z.land x 0x0000ff00) 8))
               (Z.shiftr (Z.land x 0x00ff0000) 8))
        (Z.shiftr (Z.land x 0xff000000) 24).

Fixpoint clz_loop (fuel : nat) (n x : Z) : Z :=
  match fuel with
  | O => n
  | S fuel' => if negb (Z.land x 0x8000000000000000 =? 0) then n else clz_loop fuel' (n + 1) (u64 (Z.shiftl x 1))
  end.

Definition __clzdi2 (x : Z) : Z := if x =? 0 then 64 else clz_loop 64 0 x.

Fixpoint ctz_loop (fuel : nat) (n x : Z) : Z :=
  match fuel with
  | O => n
  | S fuel' => if negb (Z.land x 1 =? 0) then n else ctz_loop fuel' (n + 1) (Z.shiftr x 1)
  end.

Definition __ctzdi2 (x : Z) : Z := if x =? 0 then 64 else ctz_loop 64 0 x.

(** ** Printing (printf.c, uart.c) *)

Inductive varg := VStr (s : list Z) | VInt (n : Z) | VUint (n : Z) | VUlong (n : Z).

Definition print_uint (n : Z) : list Z := dec n.

Definition print_int (n : Z) : list Z := if n <? 0 then 45 :: print_uint (u64 (- n)) else print_uint n.

Definition hex_digits : list Z := str "0123456789abcdef".

Definition hex_digit (val i : Z) : Z := nth (Z.to_nat (Z.land (Z.shiftr val i) 0xf)) hex_digits 0.

(** From the top digit, [4 * (k - 1)], down to 0. *)
Fixpoint hex_loop (k : nat) (val : Z) : list Z :=
  match k with O => [] | S k' => hex_digit val (4 * Z.of_nat k') :: hex_loop k' val end.

Definition uart_puthex (val : Z) : list Z := str "0x" ++ hex_loop 16 val.

(** The loop over the format; [None] also when the format ends with a percent sign, after
    which the loop reads past its end. *)
Fixpoint kprintf (fmt : list Z) (args : list varg) : option (list Z) :=
  match fmt with
  | [] => Some []
  | c :: fmt' =>
      if negb (c =? chr "%") then app [c] <$> kprintf fmt' args
      else match fmt' with
      | [] => None
      | d :: rest =>
          if d =? chr "s" then
            match args with VStr s :: args' => app s <$> kprintf rest args' | _ => None end
          else if d =? chr "d" then
            match args with VInt n :: args' => app (print_int n) <$> kprintf rest args' | _ => None end
          else if d =? chr "u" then
            match args with VUint n :: args' => app (print_uint n) <$> kprintf rest args' | _ => None end
          else if d =? chr "l" then
            match rest with
            | x :: rest' =>
                if x =? chr "x" then
                  match args with VUlong n :: args' => app (uart_puthex n) <$> kprintf rest' args' | _ => None end
                else match args with VUlong n :: args' => app (print_uint n) <$> kprintf rest args' | _ => None end
            | [] => match args with VUlong n :: args' => app (print_uint n) <$> kprintf rest args' | _ => None end
            end
          else if d =? chr "x" then
            match args with VUint n :: args' => app (uart_puthex n) <$> kprintf rest args' | _ => None end
          else if d =? chr "c" then
            match args with VInt n :: args' => app [u8 n] <$> kprintf rest args' | _ => None end
          else if d =? chr "%" then app [chr "%"] <$> kprintf rest args
          else app [chr "?"] <$> kprintf rest args
      end
  end.

(** ** Printing into a buffer (mbedtls_port.c)

    [s] is the text in the buffer of [n] bytes, without its NUL. *)

Definition append_char (n : Z) (s : list Z) (c : Z) : option (list Z) :=
  if n <=? zlen s + 1 then None else Some (s ++ [c]).

(** The text after appending as much as fits, and whether all of it did. *)
Fixpoint append_str (n : Z) (s txt : list Z) : list Z * bool :=
  match txt with
  | [] => (s, true)
  | c :: txt' => match append_char n s c with None => (s, false) | Some s' => append_str n s' txt' end
  end.

Definition upper_digits : list Z := str "0123456789ABCDEF".

Fixpoint base_digits (fuel : nat) (v base : Z) (digits : list Z) : list Z :=
  match fuel with
  | O => []
  | S fuel' => if v <=? 0 then [] else nth (Z.to_nat (v mod base)) digits 0 :: base_digits fuel' (v / base) base digits
  end.

(** The digits of a number; 64 bits have at most 22 digits in a base from 8 on. *)
Definition number_text (v base : Z) (upper : bool) : list Z :=
  if v =? 0 then [48] else rev (base_digits 22 v base (if upper then upper_digits else hex_digits)).

Definition append_uint (n : Z) (s : list Z) (v base : Z) (upper : bool) : list Z := (append_str n s (number_text v base upper)).1.

Fixpoint vsnprintf_loop (n : Z) (fmt : list Z) (args : list varg) (s : list Z) : option (list Z) :=
  match fmt with
  | [] => Some s
  | c :: fmt' =>
      if negb (c =? chr "%") then
        match append_char n s c with None => Some s | Some s' => vsnprintf_loop n fmt' args s' end
      else match fmt' with
      | [] => None
      | d :: rest =>
          if d =? chr "d" then
            match args with
            | VInt v :: args' =>
                let s := if v <? 0 then (append_str n s [45]).1 else s in
                vsnprintf_loop n rest args' (append_uint n s (u64 (Z.abs v)) 10 false)
            | _ => None
            end
          else if d =? chr "u" then
            match args with VUlong v :: args' => vsnprintf_loop n rest args' (append_uint n s v 10 false) | _ => None end
          else if d =? chr "x" then
            match args with VUlong v :: args' => vsnprintf_loop n rest args' (append_uint n s v 16 false) | _ => None end
          else if d =? chr "X" then
            match args with VUlong v :: args' => vsnprintf_loop n rest args' (append_uint n s v 16 true) | _ => None end
          else if d =? chr "s" then
            match args with VStr t :: args' => vsnprintf_loop n rest args' (append_str n s t).1 | _ => None end
          else if d =? chr "p" then
            match args with
            | VUlong v :: args' => vsnprintf_loop n rest args' (append_uint n (append_str n s (str "0x")).1 v 16 false)
            | _ => None
            end
          else if d =? chr "%" then vsnprintf_loop n rest args (append_str n s [chr "%"]).1
          else vsnprintf_loop n rest args s
      end
  end.

(** The result and the text in the buffer. *)
Definition mbedtls_vsnprintf (n : Z) (fmt : list Z) (args : list varg) : option (Z * list Z) :=
  if n =? 0 then Some (-1, []) else (λ s, (i32 (zlen s), s)) <$> vsnprintf_loop n fmt args [].

(** The block is cleared; the product of the sizes wraps at 64 bits. *)
Definition mbedtls_calloc (n size : Z) (s : heap * memory) : Z * (heap * memory) :=
  let total := u64 (n * size) in
  let '(p, h) := kalloc total s.1 in
  if p =? 0 then (0, (h, s.2)) else (p, (h, memset p 0 (Z.to_nat total) s.2)).

Definition mbedtls_free (ptr : Z) (s : heap * memory) : heap * memory := (kfree ptr s.1, s.2).

(** Shifts by the width of the type or more are undefined. *)
Definition poll_byte (t i : Z) : option Z :=
  if (64 <=? i * 5) || (64 <=? i + 3) then None else Some (u8 (Z.lxor (Z.shiftr t (i * 5)) (Z.shiftr t (i + 3)))).

Definition mbedtls_hardware_poll (t : Z) (len : nat) : option (list Z) := mapM (poll_byte t) (seqZ 0 (Z.of_nat len)).

(** ** Moving memory *)

Lemma ld_insert m a b v : ld (<[a := v]> m) b = if a =? b then v else ld m b.
Proof. unfold ld. destruct (Z.eqb_spec a b) as [->|E]; [by rewrite lookup_insert_eq|by rewrite lookup_insert_ne]. Qed.

Ltac split_eqb := repeat match goal with |- context [if ?x =? ?y then _ else _] => destruct (Z.eqb_spec x y) end.

(** Whether an address lies in a region, and what a copy leaves there. *)
Definition within (a dst : Z) (n : nat) : bool := (dst <=? a) && (a <? dst + Z.of_nat n).
Definition copied (dst src : Z) (n : nat) (m m' : memory) : Prop :=
  ∀ a, ld m' a = if within a dst n then ld m (src + (a - dst)) else ld m a.

Lemma within_0 a dst : within a dst 0 = false.
Proof. unfold within. destruct (Z.leb_spec dst a), (Z.ltb_spec a (dst + Z.of_nat 0)); done || lia. Qed.

Lemma copied_0 dst src m : copied dst src 0 m m.
Proof. intros a. by rewrite within_0. Qed.

Lemma copy_up_copied n dst src m : dst ≤ src ∨ src + Z.of_nat n ≤ dst → copied dst src n m (copy_up n dst src m).
Proof.
  revert dst src m; induction n as [|n IH]; intros dst src m Hd a; cbn [copy_up].
  - apply copied_0.
  - rewrite IH, !ld_insert by lia. unfold within.
    destruct (Z.leb_spec (dst + 1) a), (Z.ltb_spec a (dst + 1 + Z.of_nat n)), (Z.leb_spec dst a), (Z.ltb_spec a (dst + Z.of_nat (S n)));
      cbn [andb]; try lia; split_eqb; try lia; f_equal; lia.
Qed.

Lemma copy_down_copied n dst src m : src ≤ dst → copied dst src n m (copy_down n dst src m).
Proof.
  revert m; induction n as [|n IH]; intros m Hd a; cbn [copy_down].
  - apply copied_0.
  - rewrite IH, !ld_insert by lia. unfold within.
    destruct (Z.ltb_spec a (dst + Z.of_nat n)), (Z.leb_spec dst a), (Z.ltb_spec a (dst + Z.of_nat (S n)));
      cbn [andb]; try lia; split_eqb; try lia; f_equal; lia.
Qed.

(** Moving memory: [memmove] copies the source as it was before the call, however the
    two regions overlap, and changes nothing else. *)
Theorem memmove_exact dst src n m : copied dst src n m (memmove dst src n m).
Proof.
  unfold memmove. destruct (Z.eqb_spec dst src) as [->|E]; cbn [orb].
  - intros a. destruct (within a src n); f_equal; lia.
  - destruct n as [|n]; cbn [Nat.eqb].
    + apply copied_0.
    + destruct (Z.ltb_spec dst src); [apply copy_up_copied; lia|apply copy_down_copied; lia].
Qed.

(** [memcpy] does the same for regions that do not overlap. *)
Lemma memcpy_exact dst src n m : dst + Z.of_nat n ≤ src ∨ src + Z.of_nat n ≤ dst → copied dst src n m (memcpy dst src n m).
Proof. intros Hd. apply copy_up_copied. lia. Qed.

Lemma memset_exact dst c n m a : ld (memset dst c n m) a = if within a dst n then u8 c else ld m a.
Proof.
  unfold memset. revert dst m; induction n as [|n IH]; intros dst m; cbn [set_up].
  - by rewrite within_0.
  - rewrite IH, ld_insert. unfold within.
    destruct (Z.leb_spec (dst + 1) a), (Z.ltb_spec a (dst + 1 + Z.of_nat n)), (Z.leb_spec dst a), (Z.ltb_spec a (dst + Z.of_nat (S n)));
      cbn [andb]; try lia; split_eqb; lia || done.
Qed.

(** The sign of the first difference. *)
Lemma memcmp_exact a b n m :
  (memcmp a b n m = 0 ↔ ∀ i, 0 ≤ i < Z.of_nat n → ld m (a + i) = ld m (b + i))
  ∧ (memcmp a b n m ≠ 0 → ∃ i, 0 ≤ i < Z.of_nat n ∧ (∀ j, 0 ≤ j < i → ld m (a + j) = ld m (b + j))
       ∧ memcmp a b n m = ld m (a + i) - ld m (b + i)).
Proof.
  revert a b; induction n as [|n IH]; intros a b; cbn [memcmp]; [split; [split; [lia|done]|done]|].
  destruct (Z.eqb_spec (ld m a) (ld m b)) as [E|E]; cbn [negb].
  - destruct (IH (a + 1) (b + 1)) as [IH1 IH2]. split.
    + rewrite IH1. split; intros Hall i Hi.
      * destruct (Z.eqb_spec i 0) as [->|Hne]; [by rewrite !Z.add_0_r|]. specialize (Hall (i - 1)).
        replace (a + 1 + (i - 1)) with (a + i) in Hall by lia. replace (b + 1 + (i - 1)) with (b + i) in Hall by lia. apply Hall. lia.
      * specialize (Hall (i + 1)). replace (a + (i + 1)) with (a + 1 + i) in Hall by lia. replace (b + (i + 1)) with (b + 1 + i) in Hall by lia. apply Hall. lia.
    + intros Hne. destruct (IH2 Hne) as (i & Hi & Hlt & ->). exists (i + 1). split; [lia|]. split; [|f_equal; f_equal; lia].
      intros j Hj. destruct (Z.eqb_spec j 0) as [->|Hj0]; [by rewrite !Z.add_0_r|]. specialize (Hlt (j - 1)).
      replace (a + 1 + (j - 1)) with (a + j) in Hlt by lia. replace (b + 1 + (j - 1)) with (b + j) in Hlt by lia. apply Hlt. lia.
  - split; [split; [lia|]|].
    + intros Hall. exfalso. apply E. specialize (Hall 0). rewrite !Z.add_0_r in Hall. apply Hall. lia.
    + intros _. exists 0. rewrite !Z.add_0_r. split; [lia|]. split; [lia|done].
Qed.

(** ** Comparing strings *)

(** Lexicographic order of byte strings. *)
Fixpoint lex (a b : list Z) : comparison :=
  match a, b with
  | [], [] => Eq
  | [], _ => Lt
  | _, [] => Gt
  | c :: a', d :: b' => match Z.compare c d with Eq => lex a' b' | o => o end
  end.

Lemma strcmp_lex a b : cstr_ok a → cstr_ok b → Z.compare (strcmp a b) 0 = lex a b.
Proof.
  unfold cstr_ok. intros Ha; revert b; induction Ha as [|c a Hc Ha IH]; intros b Hb; destruct Hb as [|d b Hd Hb]; cbn [strcmp lex]; [done|..].
  - change (cget (d :: b) 0) with d. change (cget [] 0) with 0. unfold u8. rewrite !Z.mod_small by lia. apply Z.compare_lt_iff. lia.
  - change (cget (c :: a) 0) with c. change (cget [] 0) with 0. unfold u8. rewrite !Z.mod_small by lia. apply Z.compare_gt_iff. lia.
  - destruct (Z.eqb_spec c d) as [->|E]; [rewrite Z.compare_refl; by apply IH|]. unfold u8. rewrite !Z.mod_small by lia.
    destruct (Z.compare_spec c d); [done|apply Z.compare_lt_iff; lia|apply Z.compare_gt_iff; lia].
Qed.

Lemma strcmp_eq a b : cstr_ok a → cstr_ok b → strcmp a b = 0 ↔ a = b.
Proof.
  intros Ha Hb. rewrite <- Z.compare_eq_iff, strcmp_lex by done. clear Ha Hb. revert b; induction a as [|c a IH]; intros [|d b]; cbn [lex]; try done.
  destruct (Z.compare_spec c d); subst; [rewrite IH; split; [by intros ->|by intros [= ->]]|split; [done|intros [= -> ->]; lia]..].
Qed.

(** ** Numbers and bits *)

Lemma clz_loop_spec fuel n x : 0 < x < 2 ^ 64 → 63 - Z.log2 x < Z.of_nat fuel → clz_loop fuel n x = n + 63 - Z.log2 x.
Proof.
  revert n x; induction fuel as [|fuel IH]; intros n x Hx Hf; cbn [clz_loop].
  - assert (Z.log2 x < 64) by (apply Z.log2_lt_pow2; lia). lia.
  - assert (Z.log2 x < 64) as Hlog by (apply Z.log2_lt_pow2; lia). pose proof (Z.log2_nonneg x).
    change 0x8000000000000000 with (2 ^ 63).
    replace (Z.land x (2 ^ 63) =? 0) with (negb (Z.testbit x 63)).
    2:{ rewrite Z.land_comm. symmetry. destruct (Z.testbit x 63) eqn:E; cbn [negb].
        - apply Z.eqb_neq. intros E0. apply (f_equal (λ z, Z.testbit z 63)) in E0. by rewrite Z.land_spec, Z.pow2_bits_true, E, Z.bits_0 in E0 by lia.
        - apply Z.eqb_eq, Z.bits_inj'. intros k Hk. rewrite Z.land_spec, Z.bits_0. destruct (Z.eqb_spec k 63) as [->|Hne]; [by rewrite E, andb_false_r|].
          by rewrite Z.pow2_bits_false by lia. }
    destruct (Z.testbit x 63) eqn:E; cbn [negb].
    + assert (63 ≤ Z.log2 x) by (apply Z.log2_le_pow2; [lia|]; destruct (Z.le_gt_cases (2 ^ 63) x); [done|]; rewrite Z.bits_above_log2 in E; [done|lia|apply Z.log2_lt_pow2; lia]). lia.
    + assert (Z.log2 x < 63) as Hl by (destruct (Z.lt_ge_cases (Z.log2 x) 63); [done|]; replace 63 with (Z.log2 x) in E by lia; rewrite Z.bit_log2 in E by lia; done).
      assert (x < 2 ^ 63) by (apply Z.log2_lt_pow2; lia). unfold u64. rewrite Z.shiftl_mul_pow2, Z.mod_small by lia.
      rewrite IH; rewrite ?Z.log2_mul_pow2 by lia; lia.
Qed.

(** The number of leading zeros: the position of the highest set bit, from the top. *)
Lemma clz_exact x : 0 < x < 2 ^ 64 → __clzdi2 x = 63 - Z.log2 x.
Proof.
  intros Hx. unfold __clzdi2. test_false (x =? 0). rewrite clz_loop_spec; [lia|done|]. pose proof (Z.log2_nonneg x). lia.
Qed.

Lemma ctz_loop_spec fuel n x : 0 < x < 2 ^ Z.of_nat fuel → ∃ k, ctz_loop fuel n x = n + k ∧ 0 ≤ k ∧ Z.testbit x k = true ∧ ∀ j, 0 ≤ j < k → Z.testbit x j = false.
Proof.
  revert n x; induction fuel as [|fuel IH]; intros n x Hx; cbn [ctz_loop]; [change (2 ^ Z.of_nat 0) with 1 in Hx; lia|].
  change 1 with (Z.ones 1) at 1. rewrite Z.land_ones by lia. change (2 ^ 1) with 2. rewrite <- Z.bit0_mod.
  destruct (Z.testbit x 0) eqn:E; cbn [Z.b2z Z.eqb negb].
  - exists 0. split; [lia|]. split; [done|]. split; [done|]. lia.
  - rewrite Z.shiftr_div_pow2 by lia. change (2 ^ 1) with 2. pose proof (Z.bit0_mod x) as Hm. rewrite E in Hm. cbn in Hm.
    rewrite Nat2Z.inj_succ, Z.pow_succ_r in Hx by lia.
    destruct (IH (n + 1) (x / 2)) as (k & -> & Hk & Ht & Hl); [Z.to_euclidean_division_equations; lia|].
    exists (k + 1). split; [lia|]. split; [lia|]. change 2 with (2 ^ 1) in Ht. rewrite Z.div_pow2_bits in Ht by lia. split; [done|].
    intros j Hj. destruct (Z.eqb_spec j 0) as [->|Hne]; [done|]. specialize (Hl (j - 1)). change 2 with (2 ^ 1) in Hl.
    rewrite Z.div_pow2_bits in Hl by lia. replace (j - 1 + 1) with j in Hl by lia. apply Hl. lia.
Qed.

Lemma ctz_exact x : 0 < x < 2 ^ 64 → Z.testbit x (__ctzdi2 x) = true ∧ ∀ j, 0 ≤ j < __ctzdi2 x → Z.testbit x j = false.
Proof.
  intros Hx. unfold __ctzdi2. test_false (x =? 0). destruct (ctz_loop_spec 64 0 x) as (k & -> & _ & Ht & Hl); [done|]. done.
Qed.

(** The bytes of a word in the other order. *)
Lemma bswap_exact x : 0 ≤ x < 4294967296 →
  __bswapsi2 x = 16777216 * (x mod 256) + 65536 * (x / 256 mod 256) + 256 * (x / 65536 mod 256) + x / 16777216.
Proof. apply htonl32_spec. Qed.

Lemma bswap_involutive x : 0 ≤ x < 4294967296 → __bswapsi2 (__bswapsi2 x) = x.
Proof.
  intros Hx. rewrite (bswap_exact x) by done. destruct (bytes_of_32 x Hx) as [Hb Hh].
  pose proof (Z.mod_pos_bound x 256 ltac:(lia)). pose proof (Z.mod_pos_bound (x / 256) 256 ltac:(lia)). pose proof (Z.mod_pos_bound (x / 65536) 256 ltac:(lia)).
  rewrite bswap_exact by lia. etransitivity; [|symmetry; exact Hb]. clear Hb.
  set (a := x mod 256) in *. set (b := x / 256 mod 256) in *. set (c := x / 65536 mod 256) in *. set (d := x / 16777216) in *.
  clearbody a b c d. set (y := 16777216 * a + 65536 * b + 256 * c + d).
  assert (y mod 256 = d) as -> by (symmetry; apply (Z.mod_unique_pos _ _ (65536 * a + 256 * b + c)); lia).
  assert (y / 256 = 65536 * a + 256 * b + c) as -> by (symmetry; apply (Z.div_unique_pos _ _ _ d); lia).
  assert (y / 65536 = 256 * a + b) as -> by (symmetry; apply (Z.div_unique_pos _ _ _ (256 * c + d)); lia).
  assert (y / 16777216 = a) as -> by (symmetry; apply (Z.div_unique_pos _ _ _ (65536 * b + 256 * c + d)); lia).
  assert ((65536 * a + 256 * b + c) mod 256 = c) as -> by (symmetry; apply (Z.mod_unique_pos _ _ (256 * a + b)); lia).
  assert ((256 * a + b) mod 256 = b) as -> by (symmetry; apply (Z.mod_unique_pos _ _ a); lia). lia.
Qed.

(** ** Printed numbers *)

(** What a text of digits says in a base. *)
Definition digit_value (c : Z) : Z := if c <=? 57 then c - 48 else c - 87.
Definition text_value (base : Z) (t : list Z) : Z := foldl (λ v c, v * base + digit_value c) 0 t.

Lemma text_value_snoc base t c : text_value base (t ++ [c]) = text_value base t * base + digit_value c.
Proof. unfold text_value. by rewrite foldl_app. Qed.

(** A decimal number as it is written: digits, no leading zero, the right value. *)
Record shows_dec (n : Z) (t : list Z) : Prop := {
  sd_digits : Forall (λ c, is_digit c = true) t;
  sd_value : text_value 10 t = n;
  sd_first : n ≠ 0 → head t ≠ Some 48;
  sd_some : t ≠ []
}.

Lemma digits_rev_value f n : 0 ≤ n < 10 ^ Z.of_nat f → text_value 10 (rev (digits_rev f n)) = n.
Proof.
  revert n; induction f as [|f IH]; intros n Hn; cbn [digits_rev]; [change (10 ^ Z.of_nat 0) with 1 in Hn; cbn; lia|].
  case_test; bprop; [cbn; lia|]. cbn [rev]. rewrite text_value_snoc, IH.
  - unfold digit_value. pose proof (Z.mod_pos_bound n 10). test_true (48 + n mod 10 <=? 57). rewrite (Z.div_mod n 10) at 3 by lia. lia.
  - rewrite Nat2Z.inj_succ, Z.pow_succ_r in Hn by lia. Z.to_euclidean_division_equations; lia.
Qed.

Lemma print_uint_shows n : 0 ≤ n < 2 ^ 64 → shows_dec n (print_uint n).
Proof.
  intros Hn. unfold print_uint. assert (2 ^ 64 < 10 ^ Z.of_nat 20) as H20 by (vm_compute; reflexivity).
  split; [apply dec_digits| | |apply dec_nonempty; lia].
  - unfold dec, dec_fuel. case_test; bprop; [by subst|]. apply digits_rev_value. lia.
  - intros Hne. unfold dec, dec_fuel. test_false (n =? 0). rewrite rev_alt. change (rev_append (digits_rev 20 n) []) with (reverse (digits_rev 20 n)). rewrite head_reverse.
    destruct (digits_rev_last 20 n) as (l & c & -> & Hc); [lia|]. rewrite last_snoc. congruence.
Qed.

(** The hexadecimal form: a prefix and sixteen digits. *)
Record shows_hex (n : Z) (t : list Z) : Prop := {
  sh_text : ∃ d, t = str "0x" ++ d ∧ length d = 16%nat ∧ Forall (λ c, c ∈ hex_digits) d ∧ text_value 16 d = n
}.

Lemma foldl_value base t v : foldl (λ v c, v * base + digit_value c) v t = v * base ^ zlen t + text_value base t.
Proof.
  unfold text_value. revert v; induction t as [|c t IH]; intros v; cbn [foldl]; [change (zlen (@nil Z)) with 0; lia|].
  rewrite IH, (IH (0 * base + _)), zlen_cons. rewrite Z.add_1_l, Z.pow_succ_r by apply zlen_nonneg. lia.
Qed.

Lemma hex_digit_ok v i : 0 ≤ i → hex_digit v i ∈ hex_digits ∧ digit_value (hex_digit v i) = v / 2 ^ i mod 16.
Proof.
  intros Hi. unfold hex_digit. change 0xf with (Z.ones 4). rewrite Z.land_ones, Z.shiftr_div_pow2 by lia. change (2 ^ 4) with 16.
  pose proof (Z.mod_pos_bound (v / 2 ^ i) 16 ltac:(lia)) as Hb. set (d := v / 2 ^ i mod 16) in *. clearbody d.
  assert (d ∈ seqZ 0 16) as Hd by (apply elem_of_seqZ; lia). revert Hd. change (seqZ 0 16) with [0;1;2;3;4;5;6;7;8;9;10;11;12;13;14;15].
  intros Hd. assert (Forall (λ d, nth (Z.to_nat d) hex_digits 0 ∈ hex_digits ∧ digit_value (nth (Z.to_nat d) hex_digits 0) = d)
    [0;1;2;3;4;5;6;7;8;9;10;11;12;13;14;15]) as Hall.
  { repeat constructor; try (apply (bool_decide_unpack _); reflexivity); reflexivity. }
  rewrite Forall_forall in Hall. by apply Hall.
Qed.

Lemma hex_loop_shows k v : 0 ≤ v →
  length (hex_loop k v) = k ∧ Forall (λ c, c ∈ hex_digits) (hex_loop k v) ∧ text_value 16 (hex_loop k v) = v mod 16 ^ Z.of_nat k.
Proof.
  intros Hv. induction k as [|k (Hl & Hd & Ht)]; cbn [hex_loop]; [split; [done|]; split; [done|]; cbn; by rewrite Z.mod_1_r|].
  destruct (hex_digit_ok v (4 * Z.of_nat k)) as [Hm Hval]; [lia|]. split; [cbn; congruence|]. split; [by constructor|].
  unfold text_value. cbn [foldl]. rewrite foldl_value, Ht. unfold zlen. rewrite Hl, Hval.
  rewrite Z.pow_mul_r by lia. change (2 ^ 4) with 16. rewrite Nat2Z.inj_succ, Z.pow_succ_r, (Z.mul_comm 16) by lia.
  rewrite (Z.rem_mul_r v (16 ^ Z.of_nat k) 16) by (try apply Z.pow_nonzero; lia). lia.
Qed.

Lemma puthex_shows n : 0 ≤ n < 2 ^ 64 → shows_hex n (uart_puthex n).
Proof.
  intros Hn. destruct (hex_loop_shows 16 n) as (Hl & Hd & Ht); [lia|]. split. exists (hex_loop 16 n). split; [done|]. split; [done|].
  split; [done|]. rewrite Ht. apply Z.mod_small. change (16 ^ Z.of_nat 16) with (2 ^ 64). lia.
Qed.

(** ** The console *)

(** The parts of a format: a character, a string, a signed and an unsigned number, a word
    and a long word in hexadecimal, a character, a percent sign. *)
Inductive piece := Lit (c : Z) | PStr (s : list Z) | PInt (n : Z) | PUint (n : Z) | PHex (n : Z) | PLhex (n : Z) | PChar (c : Z) | PPercent.

Definition piece_fmt (p : piece) : list Z :=
  match p with
  | Lit c => [c] | PStr _ => str "%s" | PInt _ => str "%d" | PUint _ => str "%u" | PHex _ => str "%x"
  | PLhex _ => str "%lx" | PChar _ => str "%c" | PPercent => str "%%"
  end.

Definition piece_args (p : piece) : list varg :=
  match p with
  | PStr s => [VStr s] | PInt n | PChar n => [VInt n] | PUint n | PHex n => [VUint n] | PLhex n => [VUlong n] | _ => []
  end.

(** The values are those of their C types. *)
Definition piece_ok (p : piece) : Prop :=
  match p with
  | Lit c => c ≠ chr "%"
  | PInt n => - 2 ^ 31 ≤ n < 2 ^ 31
  | PUint n | PHex n => 0 ≤ n < 2 ^ 32
  | PLhex n => 0 ≤ n < 2 ^ 64
  | PChar c => byte_ok c
  | _ => True
  end.

(** What the text of a part must be. *)
Definition shows (p : piece) (t : list Z) : Prop :=
  match p with
  | Lit c | PChar c => t = [c]
  | PStr s => t = s
  | PInt n => if n <? 0 then ∃ u, t = 45 :: u ∧ shows_dec (- n) u else shows_dec n t
  | PUint n => shows_dec n t
  | PHex n | PLhex n => shows_hex n t
  | PPercent => t = str "%"
  end.

(** One part and the rest of the format. *)
Lemma kprintf_piece p fmt args : piece_ok p → ∃ t, shows p t ∧ kprintf (piece_fmt p ++ fmt) (piece_args p ++ args) = app t <$> kprintf fmt args.
Proof.
  assert (2 ^ 32 < 2 ^ 64) as H32 by (vm_compute; reflexivity). intros Hp. destruct p; cbn [piece_ok shows] in *.
  - exists [c]. split; [done|]. cbn [piece_fmt piece_args app kprintf]. by test_false (c =? chr "%").
  - by exists s.
  - exists (print_int n). split; [|done]. unfold print_int. case_test; bprop.
    + eexists. split; [done|]. rewrite u64_small by lia. apply print_uint_shows. lia.
    + apply print_uint_shows. lia.
  - exists (print_uint n). split; [apply print_uint_shows; lia|done].
  - exists (uart_puthex n). split; [apply puthex_shows; lia|done].
  - exists (uart_puthex n). split; [by apply puthex_shows|done].
  - exists [u8 c]. split; [unfold u8; by rewrite Z.mod_small|done].
  - by eexists.
Qed.

(** [C34] Console output.  A format made of characters and of the conversions that
    [kprintf] knows, with arguments of the matching types, prints exactly the texts of
    its parts in order: numbers in decimal without leading zeros, hexadecimal numbers
    as sixteen digits, each with the value of its argument. *)
Theorem kprintf_renders ps : Forall piece_ok ps →
  ∃ ts, Forall2 shows ps ts ∧ kprintf (ps ≫= piece_fmt) (ps ≫= piece_args) = Some (concat ts).
Proof.
  induction 1 as [|p ps Hp Hps (ts & Hts & E)]; [by exists []|].
  destruct (kprintf_piece p (ps ≫= piece_fmt) (ps ≫= piece_args) Hp) as (t & Ht & Ek).
  exists (t :: ts). split; [by constructor|]. rewrite !bind_cons, Ek, E. done.
Qed.

Lemma kprintf_renders_witness :
  ∃ ts, Forall2 shows [Lit 97; PInt (-5); PHex 255; PStr (str "ok")] ts
    ∧ kprintf (str "a%d%x%s") [VInt (-5); VUint 255; VStr (str "ok")] = Some (concat ts).
Proof. apply (kprintf_renders [Lit 97; PInt (-5); PHex 255; PStr (str "ok")]). repeat constructor; cbn; lia || done. Defined.

(** Conversions it does not know print a question mark and leave the rest as text, and a
    long number is followed by the letter of its conversion. *)
Lemma kprintf_unknown n : kprintf (str "%02x") [VUint n] = Some (str "?2x").
Proof. reflexivity. Qed.

Lemma kprintf_long n : kprintf (str "%ld") [VUlong n] = Some (print_uint n ++ str "d").
Proof. reflexivity. Qed.

(** ** Printing into a buffer *)

(** The text without a bound. *)
Fixpoint full_text (fmt : list Z) (args : list varg) : option (list Z) :=
  match fmt with
  | [] => Some []
  | c :: fmt' =>
      if negb (c =? chr "%") then app [c] <$> full_text fmt' args
      else match fmt' with
      | [] => None
      | d :: rest =>
          if d =? chr "d" then
            match args with
            | VInt v :: args' => app ((if v <? 0 then [45] else []) ++ number_text (u64 (Z.abs v)) 10 false) <$> full_text rest args'
            | _ => None
            end
          else if d =? chr "u" then match args with VUlong v :: args' => app (number_text v 10 false) <$> full_text rest args' | _ => None end
          else if d =? chr "x" then match args with VUlong v :: args' => app (number_text v 16 false) <$> full_text rest args' | _ => None end
          else if d =? chr "X" then match args with VUlong v :: args' => app (number_text v 16 true) <$> full_text rest args' | _ => None end
          else if d =? chr "s" then match args with VStr t :: args' => app t <$> full_text rest args' | _ => None end
          else if d =? chr "p" then
            match args with VUlong v :: args' => app (str "0x" ++ number_text v 16 false) <$> full_text rest args' | _ => None end
          else if d =? chr "%" then app [chr "%"] <$> full_text rest args
          else full_text rest args
      end
  end.

(** What fits in a buffer of [n] bytes with its NUL. *)
Definition cut (n : Z) (s : list Z) : list Z := take (Z.to_nat (n - 1)) s.

Lemma append_char_cut n s c : 0 < n →
  append_char n (cut n s) c = if n <=? zlen s + 1 then None else Some (cut n (s ++ [c])).
Proof.
  intros Hn. unfold append_char, cut. unfold zlen. rewrite length_take.
  destruct (Z.leb_spec n (Z.of_nat (length s) + 1)).
  - by test_true (n <=? Z.of_nat (Z.to_nat (n - 1) `min` length s) + 1).
  - test_false (n <=? Z.of_nat (Z.to_nat (n - 1) `min` length s) + 1). rewrite !take_ge; [done|rewrite length_app; simpl; lia|lia].
Qed.

Lemma cut_full n s t : n <= zlen s + 1 → cut n (s ++ t) = cut n s.
Proof. intros Hn. unfold cut, zlen in *. by rewrite take_app_le by lia. Qed.

Lemma append_str_cut n s t : 0 < n → (append_str n (cut n s) t).1 = cut n (s ++ t).
Proof.
  intros Hn. revert s; induction t as [|c t IH]; intros s; cbn [append_str]; [by rewrite app_nil_r|].
  rewrite append_char_cut by done. case_test; bprop; [by rewrite cut_full by done|]. rewrite IH. by rewrite <- app_assoc.
Qed.

Lemma append_uint_cut n s v base u : 0 < n → append_uint n (cut n s) v base u = cut n (s ++ number_text v base u).
Proof. intros Hn. by apply append_str_cut. Qed.

Lemma vsnprintf_cut n fmt args s t : 0 < n → full_text fmt args = Some t →
  vsnprintf_loop n fmt args (cut n s) = Some (cut n (s ++ t)).
Proof.
  intros Hn. remember (length fmt) as k eqn:Hk. revert fmt Hk args s t. induction (lt_wf k) as [k _ IH].
  intros [|c fmt] Hk args s t; cbn [full_text vsnprintf_loop]; [intros [= <-]; by rewrite app_nil_r|]. cbn [length] in Hk.
  destruct (negb (c =? chr "%")) eqn:E.
  - intros (t' & Et & ->)%fmap_Some. rewrite append_char_cut by done. case_test; bprop; [by rewrite cut_full by done|].
    rewrite (IH (length fmt) ltac:(lia) fmt eq_refl args (s ++ [c]) t') by done. by rewrite <- app_assoc.
  - destruct fmt as [|d rest]; [done|]. cbn [length] in Hk.
    assert (∀ args' s' t', full_text rest args' = Some t' → vsnprintf_loop n rest args' (cut n s') = Some (cut n (s' ++ t'))) as Hrest.
    { intros. by apply (IH (length rest) ltac:(lia)). }
    repeat (case_test; [first [intros (t' & Et & ->)%fmap_Some
                              |destruct args as [|[] args']; try done; intros (t' & Et & ->)%fmap_Some; cbv zeta]|]);
      rewrite ?append_str_cut, ?append_uint_cut by done.
    + case_test; cbn [app]; rewrite ?append_str_cut, append_uint_cut, (Hrest _ _ t'), <- ?app_assoc by done; done.
    + by rewrite (Hrest _ _ t'), <- app_assoc by done.
    + by rewrite (Hrest _ _ t'), <- app_assoc by done.
    + by rewrite (Hrest _ _ t'), <- app_assoc by done.
    + by rewrite (Hrest _ _ t'), <- app_assoc by done.
    + by rewrite (Hrest _ _ t'), <- ?app_assoc by done.
    + by rewrite (Hrest _ _ t'), <- app_assoc by done.
    + intros Et. by apply Hrest.
Qed.

(** A text that is too long is cut, never written past the buffer; the result is the length
    of what was stored. *)
Theorem vsnprintf_exact n fmt args t : 0 < n < 2 ^ 31 → full_text fmt args = Some t →
  mbedtls_vsnprintf n fmt args = Some (Z.min (n - 1) (zlen t), take (Z.to_nat (n - 1)) t).
Proof.
  intros Hn Ht. unfold mbedtls_vsnprintf. test_false (n =? 0).
  assert ([] = cut n []) as E by (unfold cut; by rewrite take_nil). rewrite E, (vsnprintf_cut _ _ _ _ t) by (done || lia).
  cbn. f_equal. assert (zlen (cut n t) = Z.min (n - 1) (zlen t)) as Hz by (unfold cut, zlen; rewrite length_take; lia).
  rewrite Hz, i32_small; [done|]. pose proof (zlen_nonneg t). lia.
Qed.

(** The entropy for keys: a request for more than thirteen bytes shifts the time by 64
    bits or more. *)
Lemma hardware_poll_undefined t len : (13 < len)%nat → mbedtls_hardware_poll t len = None.
Proof.
  intros Hl. unfold mbedtls_hardware_poll. apply mapM_None. apply Exists_exists. exists 13. split; [apply elem_of_seqZ; lia|done].
Qed.

(** An allocated block is clear, and nothing else was written. *)
Lemma calloc_clear n size h m p h' m' : mbedtls_calloc n size (h, m) = (p, (h', m')) → p ≠ 0 →
  ∀ a, ld m' a = if within a p (Z.to_nat (u64 (n * size))) then 0 else ld m a.
Proof.
  unfold mbedtls_calloc. cbn [fst snd]. destruct (kalloc _ h) as [q h1]. case_test; bprop; [by intros [= <-]|].
  intros [= <- <- <-] _ a. by rewrite memset_exact.
Qed.

(** A product that wraps to 0 gives a block of no bytes. *)
Lemma calloc_wraps h m : heap_ptr h ≠ 0 → 0 ≤ heap_ptr h ≤ heap_end h → heap_end h < 2 ^ 64 →
  mbedtls_calloc (2 ^ 32) (2 ^ 32) (h, m) = (heap_ptr h, (h, m)).
Proof.
  intros Hp Hr He. unfold mbedtls_calloc. change (u64 (2 ^ 32 * 2 ^ 32)) with 0. unfold kalloc. change (align_down 4 (u64 (0 + 15))) with 0.
  cbn [fst snd]. rewrite Z.add_0_r, u64_small by lia. test_false (heap_end h <? heap_ptr h). test_false (heap_ptr h =? 0). by destruct h.
Qed.
