(* ===== verification/Smp.v ===== *)
(** * Harts: the spin lock and the start of the harts

    kernel/spinlock.c and kernel/smp.c, as transition systems in which the harts take turns
    in any order.  A step is one access to the shared variables.  The firmware that starts
    a hart on request may refuse ([starts]); a hart that waits for an interrupt goes on when
    one is pending. *)

From S2P Require Import Prelude Ramfs Paths Sched.

(** ** The spin lock (spinlock.c) *)

(** Where a hart is: outside, in the loop of [spinlock_acquire], or past it. *)
Inductive place := Outside | Spinning | Holding.

#[export] Instance place_eq_dec : EqDecision place.
Proof. solve_decision. Defined.

Record lock := mk_lock { locked : Z; places : list place }.

Definition goto (h : nat) (p : place) (s : lock) : lock := mk_lock (locked s) (<[h := p]> (places s)).

Definition spinlock_init (n : nat) : lock := mk_lock 0 (replicate n Outside).

(** One round of the loop: the old value of the word, which is 1 afterwards. *)
Definition test_and_set (s : lock) : Z * lock := (locked s, mk_lock 1 (places s)).

Definition spinlock_acquire (h : nat) (s : lock) : lock :=
  let '(old, s') := test_and_set s in if negb (old =? 0) then s' else goto h Holding s'.

Definition spinlock_release (h : nat) (s : lock) : lock := goto h Outside (mk_lock 0 (places s)).

Inductive lock_step : lock → lock → Prop :=
  | step_enter h s : places s !! h = Some Outside → lock_step s (goto h Spinning s)
  | step_acquire h s : places s !! h = Some Spinning → lock_step s (spinlock_acquire h s)
  | step_release h s : places s !! h = Some Holding → lock_step s (spinlock_release h s).

(** The word is set exactly while one hart is past the loop. *)
Definition lock_inv (s : lock) : Prop :=
  (locked s = 0 ∧ ∀ h, places s !! h ≠ Some Holding)
  ∨ (locked s = 1 ∧ ∃ h, ∀ i, places s !! i = Some Holding ↔ i = h).

Lemma lock_inv_init n : lock_inv (spinlock_init n).
Proof. left. split; [done|]. intros h E. by apply lookup_replicate_1 in E as [? _]. Qed.

Lemma places_goto h p s i : is_Some (places s !! h) → places (goto h p s) !! i = if decide (i = h) then Some p else places s !! i.
Proof.
  intros [q Hq]. unfold goto. cbn. case_decide as E; [subst; rewrite list_lookup_insert_eq; [done|by eapply lookup_lt_Some]|by rewrite list_lookup_insert_ne].
Qed.

Lemma lock_inv_step s s' : lock_step s s' → lock_inv s → lock_inv s'.
Proof.
  intros Hstep Hi. destruct Hstep as [h s Hh|h s Hh|h s Hh].
  - destruct Hi as [[Hl Hn]|(Hl & k & Hk)]; [left|right]; (split; [done|]).
    + intros i. rewrite places_goto by done. case_decide; [done|apply Hn].
    + exists k. intros i. rewrite places_goto by done. case_decide as E; [|apply Hk]. subst i. split; [done|].
      intros ->. assert (places s !! k = Some Holding) by (by apply Hk). congruence.
  - unfold spinlock_acquire. cbn. destruct Hi as [[Hl Hn]|(Hl & k & Hk)]; rewrite Hl; cbn.
    + right. split; [done|]. exists h. intros i. rewrite places_goto by done. case_decide; [by split|]. split; [|done]. intros E. by apply Hn in E.
    + right. split; [done|]. by exists k.
  - left. split; [done|]. intros i. unfold spinlock_release. rewrite places_goto by done. case_decide as E; [done|]. cbn.
    destruct Hi as [[_ Hn]|(_ & k & Hk)]; [apply Hn|]. intros Ei. apply Hk in Ei. apply Hk in Hh. congruence.
Qed.

(** [C30] The lock.  However the harts take turns, at most one of them is between
    acquiring and releasing the lock; and when none is, the next hart that tries gets
    it. *)
Theorem spinlock_mutex n s : rtc lock_step (spinlock_init n) s →
  (∀ i j, places s !! i = Some Holding → places s !! j = Some Holding → i = j)
  ∧ (∀ h, (∀ i, places s !! i ≠ Some Holding) → places s !! h = Some Spinning → places (spinlock_acquire h s) !! h = Some Holding).
Proof.
  intros Hr. assert (lock_inv s) as Hi.
  { eapply (rtc_ind_r lock_inv); [apply lock_inv_init| |exact Hr]. intros s1 s2 _ Hstep H1. by eapply lock_inv_step. }
  split.
  - intros i j Ei Ej. destruct Hi as [[_ Hn]|(_ & k & Hk)]; [by apply Hn in Ei|]. apply Hk in Ei, Ej. congruence.
  - intros h Hn Hh. destruct Hi as [[Hl _]|(_ & k & Hk)]; [|by destruct (Hn k); apply Hk].
    unfold spinlock_acquire. cbn. rewrite Hl. cbn. rewrite list_lookup_insert_eq; [done|by eapply lookup_lt_Some].
Qed.

Lemma spinlock_mutex_witness :
  let s := spinlock_acquire 0 (goto 0 Spinning (spinlock_init 2)) in
  (∀ i j, places s !! i = Some Holding → places s !! j = Some Holding → i = j)
  ∧ (∀ h, (∀ i, places s !! i ≠ Some Holding) → places s !! h = Some Spinning → places (spinlock_acquire h s) !! h = Some Holding).
Proof.
  apply (spinlock_mutex 2). eapply rtc_l; [by apply (step_enter 0)|]. eapply rtc_l; [by apply (step_acquire 0)|]. apply rtc_refl.
Defined.

(** A hart that releases the lock a second time, as [schedule_trap] does when the system
    is done, lets two others in. *)
Lemma double_release :
  let s1 := spinlock_release 0 (spinlock_acquire 0 (goto 0 Spinning (spinlock_init 3))) in
  let s2 := spinlock_acquire 1 (goto 1 Spinning s1) in
  let s3 := spinlock_acquire 2 (goto 2 Spinning (spinlock_release 0 s2)) in
  rtc lock_step (spinlock_init 3) s2 ∧ places s3 !! 1%nat = Some Holding ∧ places s3 !! 2%nat = Some Holding.
Proof.
  cbv zeta. split; [|done]. eapply rtc_l; [by apply (step_enter 0)|]. eapply rtc_l; [by apply (step_acquire 0)|].
  eapply rtc_l; [by apply (step_release 0)|]. eapply rtc_l; [by apply (step_enter 1)|]. eapply rtc_l; [by apply (step_acquire 1)|].
  apply rtc_refl.
Qed.

(** ** The start of the harts (smp.c) *)

Definition SMP_HARTS : nat := 4.

(** A hart other than the first: not started, at the test of [bsp_ready] in
    [smp_secondary_entry], in the wait for an interrupt of that loop, after [trap_init],
    counted, with its tick, with its ready flag, in the scheduler. *)
Inductive stage := Off | Waits | Asleep | Ready_traps | Counted | Ticked | Marked | Running.

#[export] Instance stage_eq_dec : EqDecision stage.
Proof. solve_decision. Defined.

(** The boot hart: before [smp_init], waking hart [h], at the start of
    [smp_bsp_release], in its loop at the test or at the interrupt of hart [h], or after
    it. *)
Inductive boot := Boot_init | Boot_wake (h : nat) | Boot_release | Boot_kick (h : nat) | Boot_send (h : nat) | Boot_done.

Record smp := mk_smp {
  online_harts : Z;
  bsp_ready : bool;
  hart_ticks : list Z;
  hart_ready : list bool;
  ipi : list bool;
  stages : list stage;
  booting : boot
}.

Definition with_ipi (l : list bool) (s : smp) : smp :=
  mk_smp (online_harts s) (bsp_ready s) (hart_ticks s) (hart_ready s) l (stages s) (booting s).
Definition with_stage (h : nat) (x : stage) (s : smp) : smp :=
  mk_smp (online_harts s) (bsp_ready s) (hart_ticks s) (hart_ready s) (ipi s) (<[h := x]> (stages s)) (booting s).
Definition with_boot (b : boot) (s : smp) : smp :=
  mk_smp (online_harts s) (bsp_ready s) (hart_ticks s) (hart_ready s) (ipi s) (stages s) b.

(** The memory of the image before the boot hart runs. *)
Definition power_on : smp :=
  mk_smp 0 false (replicate SMP_HARTS 0) (replicate SMP_HARTS false) (replicate SMP_HARTS false) (replicate SMP_HARTS Off) Boot_init.

Definition smp_init (s : smp) : smp :=
  mk_smp 1 false (replicate SMP_HARTS 0) (<[0%nat := true]> (replicate SMP_HARTS false)) (ipi s) (stages s) (booting s).

Definition smp_ipi_clear (self hart : nat) (s : smp) : smp :=
  if negb (hart =? self)%nat then s else with_ipi (<[hart := false]> (ipi s)) s.

Definition smp_kick_cpu (self hart : nat) (s : smp) : smp :=
  if (SMP_HARTS <=? hart)%nat then s
  else if (hart =? self)%nat then s
  else with_ipi (<[hart := true]> (ipi s)) s.

(** [except] is negative when none is left out. *)
Definition smp_kick_others (self : nat) (except : Z) (s : smp) : smp :=
  foldl (λ s h, if Z.of_nat h =? except then s else if Z.of_nat h <? online_harts s then smp_kick_cpu self h s else s)
    s (seq 0 SMP_HARTS).

(** The next access of [smp_bsp_release]: the gate is opened; then, for each hart, the
    online count is read, and the interrupt sent when the hart is counted. *)
Definition smp_bsp_release (s : smp) : option smp :=
  match booting s with
  | Boot_release =>
      Some (with_boot (Boot_kick 0) (mk_smp (online_harts s) true (hart_ticks s) (hart_ready s) (ipi s) (stages s) (booting s)))
  | Boot_kick h =>
      if (h <? SMP_HARTS)%nat then Some (with_boot (if Z.of_nat h <? online_harts s then Boot_send h else Boot_kick (S h)) s)
      else Some (with_boot Boot_done s)
  | Boot_send h => Some (with_boot (Boot_kick (S h)) (smp_kick_cpu 0 h s))
  | _ => None
  end.

Definition smp_online_count (s : smp) : Z := online_harts s.
Definition smp_hart_ready (s : smp) (hartid : Z) : bool :=
  if (hartid <? 0) || (Z.of_nat SMP_HARTS <=? hartid) then false else nth (Z.to_nat hartid) (hart_ready s) false.
Definition smp_hart_ticks (s : smp) (hartid : Z) : Z :=
  if (hartid <? 0) || (Z.of_nat SMP_HARTS <=? hartid) then 0 else nth (Z.to_nat hartid) (hart_ticks s) 0.

Section bringup.
(** Which harts the firmware can start, and the argument of [smp_wake_harts]. *)
Context (starts : nat → bool) (target : nat).

(** The firmware starts a stopped hart, at [_start], from where it calls
    [smp_secondary_entry]. *)
Definition hart_start (h : nat) (s : smp) : smp :=
  if starts h && bool_decide (stages s !! h = Some Off) then with_stage h Waits s else s.

(** The next access of the boot hart: [smp_init], before which no other hart runs, one
    round of [smp_wake_harts], or one access of [smp_bsp_release]. *)
Definition boot_step (s : smp) : option smp :=
  match booting s with
  | Boot_init => Some (with_boot (Boot_wake 1) (smp_init s))
  | Boot_wake h =>
      if (h <? target `min` SMP_HARTS)%nat then Some (with_boot (Boot_wake (S h)) (hart_start h s))
      else Some (with_boot Boot_release s)
  | _ => smp_bsp_release s
  end.

(** The next access of [smp_secondary_entry]. *)
Definition smp_secondary_entry (h : nat) (s : smp) : option smp :=
  match stages s !! h with
  | Some Waits => Some (with_stage h (if bsp_ready s then Ready_traps else Asleep) s)
  | Some Asleep => if nth h (ipi s) false then Some (with_stage h Waits s) else None
  | Some Ready_traps =>
      Some (with_stage h Counted
        (mk_smp (online_harts s + 1) (bsp_ready s) (hart_ticks s) (hart_ready s) (ipi s) (stages s) (booting s)))
  | Some Counted =>
      Some (with_stage h Ticked
        (mk_smp (online_harts s) (bsp_ready s) (<[h := 1]> (hart_ticks s)) (hart_ready s) (ipi s) (stages s) (booting s)))
  | Some Ticked =>
      Some (with_stage h Marked
        (mk_smp (online_harts s) (bsp_ready s) (hart_ticks s) (<[h := true]> (hart_ready s)) (ipi s) (stages s) (booting s)))
  | Some Marked => Some (with_stage h Running s)
  | _ => None
  end.

Inductive smp_step : smp → smp → Prop :=
  | step_boot s s' : boot_step s = Some s' → smp_step s s'
  | step_hart h s s' : smp_secondary_entry h s = Some s' → smp_step s s'.

End bringup.

(** ** The invariant *)

Definition counted (x : stage) : bool := match x with Counted | Ticked | Marked | Running => true | _ => false end.
Definition ticked (x : stage) : bool := match x with Ticked | Marked | Running => true | _ => false end.
Definition marked (x : stage) : bool := match x with Marked | Running => true | _ => false end.
Definition waiting (x : stage) : bool := match x with Off | Waits | Asleep => true | _ => false end.

(** Past [smp_init]. *)
Definition booted (b : boot) : bool := match b with Boot_init => false | _ => true end.

Record smp_inv (target : nat) (s : smp) : Prop := {
  si_len : length (stages s) = SMP_HARTS ∧ length (ipi s) = SMP_HARTS;
  si_wake : ∀ h, booting s = Boot_wake h → (1 ≤ h)%nat;
  si_init : booting s = Boot_init → stages s = replicate SMP_HARTS Off;
  si_online : online_harts s = (if booted (booting s) then 1 else 0) + countb counted (stages s);
  si_gate : bsp_ready s = false → ∀ h x, stages s !! h = Some x → waiting x = true;
  si_ready : ∀ h x, stages s !! h = Some x → hart_ready s !! h = Some (marked x || (h =? 0)%nat && booted (booting s));
  si_ticks : ∀ h x, stages s !! h = Some x → hart_ticks s !! h = Some (if ticked x then 1 else 0);
  si_woken : ∀ h x, stages s !! h = Some x → x ≠ Off → (1 ≤ h < target)%nat
}.

Lemma countb_cons {A} (f : A → bool) x l : countb f (x :: l) = (if f x then 1 else 0) + countb f l.
Proof. unfold countb. rewrite filter_cons. destruct (f x); [rewrite decide_True, zlen_cons by done|rewrite decide_False by done]; lia. Qed.

Lemma countb_insert {A} (f : A → bool) l h x y : l !! h = Some x →
  countb f (<[h := y]> l) = countb f l - (if f x then 1 else 0) + (if f y then 1 else 0).
Proof.
  revert h; induction l as [|z l IH]; intros [|h] E; try done; cbn in E.
  - injection E as ->. change (<[0%nat := y]> (x :: l)) with (y :: l). rewrite !countb_cons. lia.
  - change (<[S h := y]> (z :: l)) with (z :: <[h := y]> l). rewrite !countb_cons, (IH h E). lia.
Qed.

(** Interrupts change nothing else. *)
Lemma kick_cpu_frame self h s : ∃ l, smp_kick_cpu self h s = with_ipi l s ∧ length l = length (ipi s)
  ∧ (∀ i, nth i (ipi s) false = true → nth i l false = true).
Proof.
  unfold smp_kick_cpu. case_match; [exists (ipi s); by destruct s|]. case_match; [exists (ipi s); by destruct s|].
  exists (<[h := true]> (ipi s)). split; [done|]. split; [apply length_insert|]. intros i Hi. rewrite <- Hi. 
  rewrite !nth_lookup. destruct (decide (i = h)) as [->|E]; [|by rewrite list_lookup_insert_ne].
  rewrite nth_lookup in Hi. destruct (ipi s !! h) as [b|] eqn:Eb; [|done]. rewrite list_lookup_insert_eq by (by eapply lookup_lt_Some). by rewrite Hi.
Qed.

Lemma kick_others_frame self except s : ∃ l, smp_kick_others self except s = with_ipi l s ∧ length l = length (ipi s)
  ∧ (∀ i, nth i (ipi s) false = true → nth i l false = true).
Proof.
  unfold smp_kick_others. generalize (seq 0 SMP_HARTS). intros hs. revert s; induction hs as [|h hs IH]; intros s; cbn [foldl].
  - exists (ipi s). by destruct s.
  - case_match; [apply IH|]. case_match; [|apply IH]. destruct (kick_cpu_frame self h s) as (l & -> & Hl & Hm).
    destruct (IH (with_ipi l s)) as (l' & -> & Hl' & Hm'). exists l'. split; [done|]. split; [by rewrite Hl'|]. intros i Hi. by apply Hm', Hm.
Qed.

(** Every counted number other than the caller's own is interrupted. *)
Lemma kick_others_reaches self except s h :
  length (ipi s) = SMP_HARTS → (h < SMP_HARTS)%nat → Z.of_nat h < online_harts s → h ≠ self → Z.of_nat h ≠ except →
  nth h (ipi (smp_kick_others self except s)) false = true.
Proof.
  intros Hl Hh Ho Hs He. unfold smp_kick_others. assert (h ∈ seq 0 SMP_HARTS) as Hin by (apply elem_of_seq; lia). revert Hin Hl Ho.
  generalize (seq 0 SMP_HARTS). intros hs. revert s; induction hs as [|k hs IH]; intros s Hin Hl Ho; [by apply not_elem_of_nil in Hin|].
  cbn [foldl]. set (s1 := if Z.of_nat k =? except then s else _).
  assert (length (ipi s1) = SMP_HARTS ∧ online_harts s1 = online_harts s ∧ (nth h (ipi s) false = true → nth h (ipi s1) false = true)) as (Hl1 & Ho1 & Hm1).
  { unfold s1. case_match; [done|]. case_match; [|done]. destruct (kick_cpu_frame self k s) as (l & -> & Hl' & Hm). cbn. split; [congruence|]. auto. }
  destruct (decide (h = k)) as [->|E].
  - assert (nth k (ipi s1) false = true) as Hk.
    { unfold s1. test_false (Z.of_nat k =? except). test_true (Z.of_nat k <? online_harts s). unfold smp_kick_cpu.
      rewrite (proj2 (Nat.leb_gt _ _)) by done. rewrite (proj2 (Nat.eqb_neq _ _)) by done. cbn [ipi with_ipi].
      rewrite nth_lookup, list_lookup_insert_eq by lia. done. }
    clearbody s1. clear - Hk. revert s1 Hk; induction hs as [|j hs IH]; intros s1 Hk; [done|]. cbn [foldl]. apply IH.
    case_match; [done|]. case_match; [|done]. destruct (kick_cpu_frame self j s1) as (l & -> & _ & Hm). by apply Hm.
  - apply IH; [|done|lia]. apply elem_of_cons in Hin as [|]; done.
Qed.

Section invariant.
Context (starts : nat → bool) (target : nat).

Lemma inv_power_on : smp_inv target power_on.
Proof.
  split; try done.
  - intros _ h x E. by apply lookup_replicate_1 in E as [-> _].
  - intros h x E. apply lookup_replicate_1 in E as [-> Hh]. unfold SMP_HARTS in Hh. by destruct h as [|[|[|[|h]]]]; try lia.
  - intros h x E. apply lookup_replicate_1 in E as [-> Hh]. unfold SMP_HARTS in Hh. by destruct h as [|[|[|[|h]]]]; try lia.
  - intros h x E. by apply lookup_replicate_1 in E as [-> _].
Qed.

Lemma lookup_stage (l : list stage) h x y i z : l !! h = Some x → <[h := y]> l !! i = Some z → i = h ∧ z = y ∨ i ≠ h ∧ l !! i = Some z.
Proof.
  intros Hh. destruct (decide (i = h)) as [->|E].
  - rewrite list_lookup_insert_eq by (by eapply lookup_lt_Some). intros [= ->]. by left.
  - rewrite list_lookup_insert_ne by done. by right.
Qed.

(** A step of the boot hart past [smp_init] that starts no hart. *)
Lemma inv_release s b r l :
  smp_inv target s → booted (booting s) = true → booted b = true → (∀ h, b ≠ Boot_wake h) → length l = length (ipi s) →
  (r = false → bsp_ready s = false) →
  smp_inv target (mk_smp (online_harts s) r (hart_ticks s) (hart_ready s) l (stages s) b).
Proof.
  intros [[L1 L3] Hk Hi Ho Hg Hr Ht Hw] Hb Hb' Hnw Hl Hrf. rewrite Hb in *. split; cbn; rewrite ?Hb', ?Hl; auto.
  - intros h ->. by destruct (Hnw h).
  - by intros ->.
  - intros Er. by apply Hg, Hrf.
Qed.

Lemma inv_boot s s' : boot_step starts target s = Some s' → smp_inv target s → smp_inv target s'.
Proof.
  unfold boot_step. intros Hb Hinv. pose proof Hinv as [[L1 L3] Hk Hi Ho Hg Hr Ht Hw].
  destruct (booting s) as [|h| |h|h|] eqn:Eb; unfold smp_bsp_release in Hb; rewrite ?Eb in Hb; [| | | | |done].
  - injection Hb as <-. specialize (Hi eq_refl). split; cbn; try done.
    + by intros h [= <-].
    + by rewrite Hi.
    + rewrite Hi. intros _ h x E. by apply lookup_replicate_1 in E as [-> _].
    + rewrite Hi. intros h x E. apply lookup_replicate_1 in E as [-> Hh]. unfold SMP_HARTS in Hh. by destruct h as [|[|[|[|h]]]]; try lia.
    + rewrite Hi. intros h x E. apply lookup_replicate_1 in E as [-> Hh]. unfold SMP_HARTS in Hh. by destruct h as [|[|[|[|h]]]]; try lia.
  - specialize (Hk h eq_refl). destruct (h <? target `min` SMP_HARTS)%nat eqn:Et; injection Hb as <-; [|by apply inv_release; rewrite ?Eb].
    apply Nat.ltb_lt in Et. unfold hart_start. destruct (starts h && _) eqn:Es.
    2: { split; cbn; try done; [by intros ? [= <-]; lia]. }
    apply andb_true_iff in Es as [_ Es%bool_decide_eq_true]. split; cbn; try done.
    + by rewrite length_insert.
    + intros ? [= <-]. lia.
    + rewrite (countb_insert _ _ _ Off) by done. cbn in *. lia.
    + intros Hbr i x E. apply (lookup_stage _ _ Off) in E as [[-> ->]|[_ E]]; [done|by eapply Hg|done].
    + intros i x E. apply (lookup_stage _ _ Off) in E as [[-> ->]|[_ E]]; [by rewrite (Hr _ _ Es)|by apply Hr|done].
    + intros i x E. apply (lookup_stage _ _ Off) in E as [[-> ->]|[_ E]]; [by rewrite (Ht _ _ Es)|by apply Ht|done].
    + intros i x E Hx. apply (lookup_stage _ _ Off) in E as [[-> ->]|[_ E]]; [lia|by eapply Hw|done].
  - injection Hb as <-. by apply inv_release; rewrite ?Eb.
  - destruct (h <? SMP_HARTS)%nat; injection Hb as <-; apply inv_release; rewrite ?Eb; try done; by destruct (_ <? _).
  - injection Hb as <-. destruct (kick_cpu_frame 0 h s) as (l & -> & Hl & _). by apply (inv_release s (Boot_kick (S h)) (bsp_ready s) l); rewrite ?Eb.
Qed.

(** A secondary hart moves from stage [x] to stage [y]. *)
Lemma inv_move s s' h x y :
  smp_inv target s → stages s !! h = Some x → x ≠ Off → y ≠ Off → stages s' = <[h := y]> (stages s) → booting s' = booting s → bsp_ready s' = bsp_ready s →
  ipi s' = ipi s → online_harts s' = online_harts s + (if counted y then 1 else 0) - (if counted x then 1 else 0) →
  (bsp_ready s = false → waiting y = true) →
  hart_ready s' = (if marked y then <[h := true]> (hart_ready s) else hart_ready s) → (marked x = true → marked y = true) →
  hart_ticks s' = (if ticked y then <[h := 1]> (hart_ticks s) else hart_ticks s) → (ticked x = true → ticked y = true) → smp_inv target s'.
Proof.
  intros [[L1 L3] Hk Hi Ho Hg Hr Ht Hw] Hh Hx Hy Es Eb Er Ei Eo Hwait Erd Hmm Etk Htt.
  pose proof (Hr _ _ Hh) as Hrh. pose proof (Ht _ _ Hh) as Hth. assert (1 ≤ h)%nat as Hh1 by (by eapply Hw).
  rewrite (proj2 (Nat.eqb_neq h 0)), andb_false_l, orb_false_r in Hrh by lia.
  split; rewrite ?Eb, ?Er, ?Es, ?Ei; try done.
  - by rewrite length_insert.
  - intros E0. rewrite (Hi E0) in Hh. by apply lookup_replicate_1 in Hh as [-> _].
  - rewrite (countb_insert _ _ _ x) by done. lia.
  - intros Hf i z E. apply (lookup_stage _ _ x) in E as [[-> ->]|[_ E]]; [auto|by eapply Hg|done].
  - intros i z E. rewrite Erd. apply (lookup_stage _ _ x) in E as [[-> ->]|[Hne E]]; [| |done].
    + rewrite (proj2 (Nat.eqb_neq h 0)), andb_false_l, orb_false_r by lia. destruct (marked y) eqn:Ey; [by apply list_lookup_insert_eq; eapply lookup_lt_Some|].
      rewrite Hrh. destruct (marked x) eqn:Ex; [by specialize (Hmm eq_refl)|done].
    + rewrite <- (Hr _ _ E). destruct (marked y); [by apply list_lookup_insert_ne|done].
  - intros i z E. rewrite Etk. apply (lookup_stage _ _ x) in E as [[-> ->]|[Hne E]]; [| |done].
    + destruct (ticked y) eqn:Ey; [by apply list_lookup_insert_eq; eapply lookup_lt_Some|]. rewrite Hth. destruct (ticked x) eqn:Ex; [by specialize (Htt eq_refl)|done].
    + rewrite <- (Ht _ _ E). destruct (ticked y); [by apply list_lookup_insert_ne|done].
  - intros i z E Hz. apply (lookup_stage _ _ x) in E as [[-> ->]|[_ E]]; [by eapply Hw|by eapply Hw|done].
Qed.

Lemma inv_hart s s' h : smp_secondary_entry h s = Some s' → smp_inv target s → smp_inv target s'.
Proof.
  unfold smp_secondary_entry. intros E Hi. destruct (stages s !! h) as [x|] eqn:Eh; [|done].
  assert (bsp_ready s = false → waiting x = true) as Hg by (intros Hf; by eapply (si_gate _ _ Hi Hf)).
  pose proof (si_ready _ _ Hi h x Eh) as Hr. pose proof (si_ticks _ _ Hi h x Eh) as Ht.
  destruct x; try done; [| destruct (nth h (ipi s) false); [|done] | | | |]; injection E as <-.
  - eapply inv_move; [done|exact Eh|done| |reflexivity|..]; try done; cbn; destruct (bsp_ready s); cbn; try done; try lia; auto.
  - eapply inv_move; [done|exact Eh|done| |reflexivity|..]; try done; cbn; lia.
  - eapply inv_move; [done|exact Eh|done| |reflexivity|..]; try done; cbn; lia.
  - eapply inv_move; [done|exact Eh|done| |reflexivity|..]; try done; cbn; lia.
  - eapply inv_move; [done|exact Eh|done| |reflexivity|..]; try done; cbn; [lia|by rewrite list_insert_id].
  - eapply inv_move; [done|exact Eh|done| |reflexivity|..]; try done; cbn; [lia|by rewrite list_insert_id|by rewrite list_insert_id].
Qed.

Lemma inv_reachable s : rtc (smp_step starts target) power_on s → smp_inv target s.
Proof.
  intros Hr. eapply (rtc_ind_r (smp_inv target)); [apply inv_power_on| |exact Hr].
  intros s1 s2 _ [? ? E|? ? ? E] H1; [by eapply inv_boot|by eapply inv_hart].
Qed.

End invariant.

Lemma countb_pos {A} (f : A → bool) l h x : l !! h = Some x → f x = true → 1 ≤ countb f l.
Proof.
  revert h; induction l as [|y l IH]; intros [|h] E Hf; try done; cbn in E; rewrite countb_cons.
  - injection E as ->. rewrite Hf. unfold countb. pose proof (zlen_nonneg (filter (λ x, f x = true) l)). lia.
  - specialize (IH h E Hf). destruct (f y); lia.
Qed.

(** [C31] The start of the harts, in every order in which their accesses can be
    interleaved, once the boot hart has initialised the counts: the online count is one
    (the boot hart) and the number of the other harts that have counted themselves; the
    boot hart reports ready, and another hart reports ready exactly from the point where
    it has counted itself and set its tick and is about to enter the scheduler or has
    entered it, so that a ready hart other than the boot hart has its tick; and no other
    hart passes the gate before the boot hart opens it.  When at most one other hart is
    woken, as all the images do, [smp_kick_others] interrupts every hart but the sender
    that is the boot hart or has counted itself, the ones in the scheduler among them. *)
Theorem smp_bringup starts target s : rtc (smp_step starts target) power_on s → booting s ≠ Boot_init →
  smp_online_count s = 1 + countb counted (stages s)
  ∧ smp_hart_ready s 0 = true
  ∧ (∀ h x, stages s !! h = Some x → h ≠ 0%nat →
      smp_hart_ready s (Z.of_nat h) = bool_decide (x = Marked ∨ x = Running)
      ∧ (smp_hart_ready s (Z.of_nat h) = true → counted x = true ∧ smp_hart_ticks s (Z.of_nat h) = 1))
  ∧ (bsp_ready s = false → ∀ h x, stages s !! h = Some x → waiting x = true)
  ∧ ((target ≤ 2)%nat → ∀ self h, h ≠ self → h = 0%nat ∨ (∃ x, stages s !! h = Some x ∧ counted x = true) →
      nth h (ipi (smp_kick_others self (Z.of_nat self) s)) false = true).
Proof.
  intros Hr Hb. destruct (inv_reachable _ _ _ Hr) as [[L1 L3] Hk Hi Ho Hg Hrd Htk Hw].
  assert (booted (booting s) = true) as Eb by (by destruct (booting s)). rewrite Eb in Ho, Hrd.
  assert (0 ≤ countb counted (stages s)) as Hc by apply zlen_nonneg.
  split; [exact Ho|]. split; [|split; [|split; [done|]]].
  - unfold smp_hart_ready. change (_ || _) with false. change (Z.to_nat 0) with 0%nat. cbn iota. destruct (lookup_lt_is_Some_2 (stages s) 0) as [x Ex]; [rewrite L1; unfold SMP_HARTS; lia|].
    rewrite nth_lookup, (Hrd _ _ Ex). cbn. by rewrite orb_true_r.
  - intros h x Ex Hh. assert (h < SMP_HARTS)%nat by (rewrite <- L1; by eapply lookup_lt_Some).
    unfold smp_hart_ready, smp_hart_ticks. test_false (Z.of_nat h <? 0). test_false (Z.of_nat SMP_HARTS <=? Z.of_nat h). cbn [orb].
    rewrite Nat2Z.id, !nth_lookup, (Hrd _ _ Ex), (Htk _ _ Ex), (proj2 (Nat.eqb_neq h 0)) by done.
    destruct x; cbn; (split; [symmetry; first [apply bool_decide_eq_true; by auto | apply bool_decide_eq_false; naive_solver]|done]).
  - intros Ht self h Hs [->|(x & Ex & Hx)]; [apply kick_others_reaches; try done; unfold SMP_HARTS; lia|].
    assert (1 ≤ h < target)%nat by (eapply Hw; [exact Ex|by intros ->]). assert (h = 1)%nat as -> by lia.
    apply kick_others_reaches; [done|unfold SMP_HARTS; lia| |done|lia]. pose proof (countb_pos counted _ _ _ Ex Hx). lia.
Qed.

(** ** Runs *)

(** A schedule names the hart of each step, 0 for the boot hart. *)
Fixpoint run_harts (starts : nat → bool) (target : nat) (sch : list nat) (s : smp) : option smp :=
  match sch with
  | [] => Some s
  | h :: sch' => s' ← (if (h =? 0)%nat then boot_step starts target s else smp_secondary_entry h s); run_harts starts target sch' s'
  end.

Lemma run_harts_reachable starts target sch s s' : run_harts starts target sch s = Some s' → rtc (smp_step starts target) s s'.
Proof.
  revert s; induction sch as [|h sch IH]; intros s; cbn [run_harts]; [by intros [= ->]|].
  intros (s1 & E & Es)%bind_Some. eapply rtc_l; [|by apply IH]. case_match; [by apply step_boot|by eapply step_hart].
Qed.

Definition all_start (h : nat) : bool := true.

Definition after_run (target : nat) (sch : list nat) : smp := default power_on (run_harts all_start target sch power_on).

Lemma after_run_reachable target sch : is_Some (run_harts all_start target sch power_on) → rtc (smp_step all_start target) power_on (after_run target sch).
Proof. intros [s E]. unfold after_run. rewrite E. by eapply run_harts_reachable. Qed.

(** The boot hart starts hart 1, opens the gate and goes through its loop; then hart 1
    comes up. *)
Definition one_up : smp := after_run 2 [0; 0; 0; 0; 0; 0; 0; 0; 0; 0; 1; 1; 1; 1; 1]%nat.

Lemma smp_bringup_witness :
  smp_online_count one_up = 2 ∧ smp_hart_ready one_up 1 = true ∧ nth 1 (ipi (smp_kick_others 0 0 one_up)) false = true.
Proof.
  assert (rtc (smp_step all_start 2) power_on one_up) as Hr by (apply after_run_reachable; eexists; vm_compute; reflexivity).
  destruct (smp_bringup all_start 2 one_up Hr) as (Hc & _ & Hh & _ & Hk); [by vm_compute|].
  split; [rewrite Hc; vm_compute; reflexivity|]. split; [by destruct (Hh 1%nat Running) as [-> _]; [vm_compute; reflexivity|done|]|].
  apply (Hk ltac:(lia) 0%nat 1%nat); [done|]. right. exists Running. vm_compute. done.
Defined.

(** With two harts to wake, the second may come up first: it is running, the online count
    is 2, and an interrupt to all others goes to hart 1, which is not, and not to it. *)
Lemma smp_hole : ∃ s, rtc (smp_step all_start 3) power_on s ∧ stages s !! 2%nat = Some Running ∧ online_harts s = 2
  ∧ stages s !! 1%nat = Some Waits ∧ nth 2 (ipi (smp_kick_others 0 0 s)) false = false.
Proof.
  exists (after_run 3 [0; 0; 0; 0; 0; 2; 2; 2; 2; 2]%nat). split; [apply after_run_reachable; eexists; vm_compute; reflexivity|]. by vm_compute.
Qed.

(** A hart that looks at the gate before the boot hart opens it sleeps for ever: the
    interrupt that should wake it goes to the counted harts only, and it is not yet one
    of them. *)
Theorem smp_lost_wakeup : ∃ s, rtc (smp_step all_start 2) power_on s ∧ booting s = Boot_done ∧ bsp_ready s = true
  ∧ stages s !! 1%nat = Some Asleep ∧ ∀ s', ¬ smp_step all_start 2 s s'.
Proof.
  exists (mk_smp 1 true [0; 0; 0; 0] [true; false; false; false] [false; false; false; false] [Off; Asleep; Off; Off] Boot_done).
  split; [|split; [done|split; [done|split; [done|]]]].
  - replace (mk_smp _ _ _ _ _ _ _) with (after_run 2 [0; 0; 1; 0; 0; 0; 0; 0; 0; 0; 0]%nat) by (vm_compute; reflexivity).
    apply after_run_reachable. eexists. vm_compute. reflexivity.
  - intros s' Hs. inversion_clear Hs as [? ? E|h ? ? E]; [done|]. by destruct h as [|[|[|[|h]]]].
Qed.
