(* ===== verification/Demos.v ===== *)
(** * The demonstration agents (user/demo_*.c)

    The first agent of an image and the agents that it starts, as programs over the
    system calls.  Each is named as in its file, with the name of the file before it where
    several files have the name.  An entry point is a number: the functions of a file that
    are started as agents are counted from 1.

    A local array that a call has filled in part keeps its earlier bytes behind them; they
    are the parameter [junk].  The images of the programs that are loaded
    (user/*.inc, produced by the build) are parameters too.  The demonstration of the memory
    (demo_vm3.c), which is about single loads and stores, is not here. *)

From ITree Require Import Core.ITreeDefinition.
From S2P Require Import Prelude Abi Ipc Kernel ElfLoad Catalog LibAgent AgentSvc ServiceAgents ConsoleSvc Pipelines.

Import orch.

(** ** Shared by the files *)

Definition say (s : string) : prog unit := agent_log_str (str s).
Definition sayln (s : string) : prog unit := agent_log_str (ln s).
Definition say_num (s : string) (n : Z) : prog unit := say s ;* agent_log_int n.
Definition say_var (s : string) (f : user_bss → Z) : prog unit := say s ;* let* n := load f in agent_log_int n.
Definition die {A} (s : string) : prog A := sayln s ;* agent_exit 1.
Definition msg_str (m : agent_msg) : list Z := text_of (payload m).

Definition str_starts_with (s prefix : list Z) : bool := cmatch s 0 prefix.
Definition str_copy (src : list Z) (maxlen : Z) : list Z := take (Z.to_nat (maxlen - 1)) src.

(** The message that ends a service. *)
Fixpoint send_done (targets : list Z) (text : string) : prog unit :=
  match targets with
  | [] => give tt
  | t :: ts => agent_send_msg t MSG_PIPELINE_DONE (str text) ;* send_done ts text
  end.

Definition capset (l : list Z) : Z := foldr Z.lor 0 l.

Definition is_result (m : agent_msg) (text : string) : bool := (mtype m =? MSG_RESULT) && str_eq (msg_str m) (str text).

(** ** Waiting for the console *)

(** Most images: greet, wait for the text that says that the script on the console is
    over, and end the services. *)
Definition wait_console (title waiting done : string) (targets : list Z) : prog Empty_set :=
  sayln title ;*
  sayln waiting ;*
  ITree.iter (λ _ : unit,
    let* r := agent_recv_msg in
    if is_result r.2 done then
      agent_log_str (str "[init] " ++ ln done) ;*
      send_done targets "done" ;*
      agent_exit 0
    else give (inl tt)) tt.

Definition init_console_audit_agent : prog Empty_set :=
  wait_console "[init] v6.1 audit partition demo" "[init] waiting for console audit commands ..." "console demo audit complete" [DISPLAY_AGENT_ID; INPUT_AGENT_ID].

Definition init_console_namespace_agent : prog Empty_set :=
  wait_console "[init] v6.2 namespace mount demo" "[init] waiting for console namespace commands ..." "console demo namespace complete" [DISPLAY_AGENT_ID; INPUT_AGENT_ID].

Definition init_console_quota_agent : prog Empty_set :=
  wait_console "[init] v6.3 resource quota demo" "[init] waiting for console quota commands ..." "console demo quota complete" [DISPLAY_AGENT_ID; INPUT_AGENT_ID].

Definition init_console_tenant_agent : prog Empty_set :=
  wait_console "[init] v6.0 multi-tenant demo" "[init] waiting for console tenant commands ..." "console demo tenant complete" [DISPLAY_AGENT_ID; INPUT_AGENT_ID].

Definition init_console_v7_agent : prog Empty_set :=
  wait_console "[init] OpenAgentOS v7 console demo (RISC-V)" "[init] waiting for /fleet /policy /remote /mesh ..." "console demo v7 complete" [DISPLAY_AGENT_ID; INPUT_AGENT_ID].

Definition init_v01_beta_agent : prog Empty_set :=
  wait_console "[init] OpenAgentOS v0.1-beta GA demo" "[init] waiting for console fleet/policy/remote/mesh ..." "v0.1-beta demo complete" [DISPLAY_AGENT_ID; INPUT_AGENT_ID].

Definition init_v02_rc_agent : prog Empty_set :=
  wait_console "[init] OpenAgentOS v0.2-rc demo" "[init] waiting for policy load + fleet ..." "v0.2-rc demo complete" [DISPLAY_AGENT_ID; INPUT_AGENT_ID].

Definition init_v030_agent : prog Empty_set :=
  wait_console "[init] OpenAgentOS 0.3.0 demo" "[init] waiting for fleet ingest + remote ping ..." "0.3.0 demo complete" [DISPLAY_AGENT_ID; INPUT_AGENT_ID].

Definition init_v040_agent : prog Empty_set :=
  wait_console "[init] OpenAgentOS 0.4.0 demo" "[init] waiting for fleet net ingest + remote tcp ..." "0.4.0 demo complete" [DISPLAY_AGENT_ID; INPUT_AGENT_ID].

Definition init_v050_agent : prog Empty_set :=
  wait_console "[init] OpenAgentOS 0.5.0 demo" "[init] waiting for fleet/remote/llm ..." "0.5.0 demo complete" [DISPLAY_AGENT_ID; INPUT_AGENT_ID; ROUTER_AGENT_ID].

Definition init_v060_agent : prog Empty_set :=
  wait_console "[init] OpenAgentOS 0.6.0 demo" "[init] waiting for sandbox-net fleet ingest + remote tcp ..." "0.6.0 demo complete" [DISPLAY_AGENT_ID; INPUT_AGENT_ID].

Definition init_v061_agent : prog Empty_set :=
  wait_console "[init] OpenAgentOS 0.6.1 demo" "[init] waiting for fleet/remote/llm ..." "0.6.1 demo complete" [DISPLAY_AGENT_ID; INPUT_AGENT_ID; ROUTER_AGENT_ID].

Definition init_v062_agent : prog Empty_set :=
  wait_console "[init] OpenAgentOS 0.6.2 demo" "[init] waiting for fleet/remote/llm ..." "0.6.2 demo complete" [DISPLAY_AGENT_ID; INPUT_AGENT_ID; ROUTER_AGENT_ID].

Definition init_v062_x86_agent : prog Empty_set :=
  wait_console "[init] OpenAgentOS 0.6.2 demo" "[init] waiting for sandbox-net fleet ingest + remote tcp ..." "0.6.2 demo complete" [DISPLAY_AGENT_ID; INPUT_AGENT_ID].

Definition init_v063_agent : prog Empty_set :=
  wait_console "[init] OpenAgentOS 0.6.3 demo" "[init] waiting for fleet/remote/llm ..." "0.6.3 demo complete" [DISPLAY_AGENT_ID; INPUT_AGENT_ID; ROUTER_AGENT_ID].

Definition init_v063_x86_agent : prog Empty_set :=
  wait_console "[init] OpenAgentOS 0.6.3 demo" "[init] waiting for sandbox-net fleet ingest + remote tcp ..." "0.6.3 demo complete" [DISPLAY_AGENT_ID; INPUT_AGENT_ID].

Definition init_v064_agent : prog Empty_set :=
  wait_console "[init] OpenAgentOS 0.6.4 demo" "[init] waiting for fleet/remote/llm ..." "0.6.4 demo complete" [DISPLAY_AGENT_ID; INPUT_AGENT_ID; ROUTER_AGENT_ID].

Definition init_v064_x86_agent : prog Empty_set :=
  wait_console "[init] OpenAgentOS 0.6.4 demo" "[init] waiting for sandbox-net fleet ingest + remote tcp ..." "0.6.4 demo complete" [DISPLAY_AGENT_ID; INPUT_AGENT_ID].

Definition init_v070_agent : prog Empty_set :=
  wait_console "[init] OpenAgentOS 0.7.0 demo" "[init] waiting for fleet/remote/llm ..." "0.7.0 demo complete" [DISPLAY_AGENT_ID; INPUT_AGENT_ID; ROUTER_AGENT_ID].

Definition init_v070_x86_agent : prog Empty_set :=
  wait_console "[init] OpenAgentOS 0.7.0 demo" "[init] waiting for sandbox-net fleet ingest + remote tcp ..." "0.7.0 demo complete" [DISPLAY_AGENT_ID; INPUT_AGENT_ID].

Definition init_v100_agent : prog Empty_set :=
  wait_console "[init] OpenAgentOS 1.0.0 demo" "[init] waiting for fleet/remote/llm ..." "1.0.0 demo complete" [DISPLAY_AGENT_ID; INPUT_AGENT_ID; ROUTER_AGENT_ID].

Definition init_v100_x86_agent : prog Empty_set :=
  wait_console "[init] OpenAgentOS 1.0.0 demo" "[init] waiting for sandbox-net fleet ingest + remote tcp ..." "1.0.0 demo complete" [DISPLAY_AGENT_ID; INPUT_AGENT_ID].

(** The first two wait for one message only. *)
Definition wait_once (title waiting bad done : string) (targets : list Z) : prog Empty_set :=
  sayln title ;*
  sayln waiting ;*
  let* r := agent_recv_msg in
  if negb (is_result r.2 done) then die bad
  else
    agent_log_str (str "[init] " ++ ln done) ;*
    send_done targets "done" ;*
    agent_exit 0.

Definition init_console_agent : prog Empty_set :=
  wait_once "[init] v5.0 console repl demo" "[init] waiting for console /quit ..." "[init] unexpected console result"
    "console demo complete" [ROUTER_AGENT_ID; DISPLAY_AGENT_ID; INPUT_AGENT_ID].

Definition init_console_session_agent : prog Empty_set :=
  wait_once "[init] v5.1 console session demo" "[init] waiting for console session /quit ..."
    "[init] unexpected console session result" "console demo session complete" [ROUTER_AGENT_ID; DISPLAY_AGENT_ID; INPUT_AGENT_ID].

Definition init_console_orch_agent : prog Empty_set :=
  sayln "[init] v5.2 console orch demo" ;*
  sayln "[init] waiting for console /run orch ..." ;*
  ITree.iter (λ _ : unit,
    let* r := agent_recv_msg in
    if (mtype r.2 =? MSG_CONSOLE_REQ) && str_eq (msg_str r.2) (str "run:orch") then
      sayln "[init] orch run requested" ;*
      let* rc := orch_run_pipeline in
      if rc <? 0 then die "[init] orch pipeline failed"
      else sayln "[init] orch pipeline ok" ;* give (inl tt)
    else if is_result r.2 "console demo orch complete" then
      sayln "[init] console demo orch complete" ;*
      send_done [STORAGE_AGENT_ID; DISPLAY_AGENT_ID; INPUT_AGENT_ID] "done" ;*
      agent_exit 0
    else
      say_num "[init] ignored console message type=" (mtype r.2) ;*
      agent_log_str [10] ;*
      give (inl tt)) tt.

(** ** The benchmark of messages (demo_bench_ipc.c) *)

Definition BENCH_ROUNDS : nat := 32.
Definition PING_AGENT_ID : Z := 2.

Fixpoint ping_rounds (n : nat) : prog unit :=
  match n with
  | O => give tt
  | S n' =>
      agent_recv_msg ;*
      let* rc := agent_send_msg 1 MSG_RESULT (str "pong") in
      (if rc <? 0 then agent_exit 1 else ping_rounds n')
  end.

Definition ping_agent_main : prog Empty_set := ping_rounds BENCH_ROUNDS ;* agent_exit 0.

Fixpoint bench_rounds (n : nat) : prog unit :=
  match n with
  | O => give tt
  | S n' =>
      let* rc := agent_send_msg PING_AGENT_ID MSG_TASK (str "ping") in
      if rc <? 0 then die "[bench-ipc] send failed"
      else
        let* r := agent_recv_msg in
        if negb (str_eq (msg_str r.2) (str "pong")) then die "[bench-ipc] bad pong" else bench_rounds n'
  end.

(** The ticks that the call stores, the given number when it fails. *)
Definition bench_time (t : Z) : prog Z :=
  let* r := agent_time in give (if r.1 <? 0 then t else get_le64 r.2 0).

Definition init_bench_ipc_agent : prog Empty_set :=
  sayln "[init] v5.5 ipc bench demo" ;*
  agent_yield ;*
  let* t0 := bench_time 0 in
  bench_rounds BENCH_ROUNDS ;*
  let* t1 := bench_time t0 in
  say_num "[bench-ipc] rounds=" (Z.of_nat BENCH_ROUNDS) ;*
  say_num " ticks=" (i32 (t1 - t0)) ;*
  agent_log_str [10] ;*
  sayln "[bench-ipc] complete" ;*
  agent_exit 0.

(** ** Pipelines (demo_pipeline.c, demo_harness.c, demo_llm.c) *)

Definition log_msg (label : string) (m : agent_msg) : prog unit := log3 (str label) (msg_str m).

Definition pipeline_worker_agent : prog Empty_set :=
  sayln "[worker] started" ;*
  let* r := agent_recv_msg in
  log_msg "[worker] got task: " r.2 ;*
  let* sum := agent_add 17 25 in
  say_num "[worker] sum=" sum ;*
  agent_log_str [10] ;*
  let* planner := load planner_id in
  agent_send_msg planner MSG_RESULT (str "sum=42") ;*
  sayln "[worker] done" ;*
  agent_exit 0.

Definition pipeline_planner_agent : prog Empty_set :=
  sayln "[planner] started" ;*
  let* worker := load worker_id in
  agent_send_msg worker MSG_TASK (str "compute:17+25") ;*
  sayln "[planner] task dispatched" ;*
  let* r := agent_recv_msg in
  log_msg "[planner] result: " r.2 ;*
  sayln "[planner] done" ;*
  agent_send_msg 1 MSG_RESULT (str "pipeline-complete") ;*
  agent_exit 0.

Definition math_caps : Z := capset [CAP_LOG; CAP_MATH; CAP_SEND; CAP_RECV].
Definition talk_caps : Z := capset [CAP_LOG; CAP_SEND; CAP_RECV].
Definition timed_caps : Z := capset [CAP_LOG; CAP_SEND; CAP_RECV; CAP_TIME].

Definition init_agent : prog Empty_set :=
  sayln "[init] AgentOS demo pipeline" ;*
  let* w := agent_spawn 1 (str "worker") math_caps in
  store (set_worker_id w) ;*
  let* p := agent_spawn 2 (str "planner") talk_caps in
  store (set_planner_id p) ;*
  sayln "[init] agents spawned, waiting" ;*
  let* r := agent_recv_msg in
  log_msg "[init] all agents finished: " r.2 ;*
  agent_exit 0.

(** The number after the first "b=". *)
Fixpoint parse_b_from_steering (p : list Z) : Z :=
  match p with
  | [] => 25
  | c :: p' => if (c =? chr "b") && (cget p 1 =? chr "=") then (scan_int 0 (drop 2 p)).1 else parse_b_from_steering p'
  end.

(** At most [n] looks into the mailbox; the second operand. *)
Fixpoint harness_work (n : nat) (b : Z) : prog Z :=
  match n with
  | O => give b
  | S n' =>
      let* '(rc, m) := agent_try_recv in
      if rc =? MSG_STEER then
        say " steered: " ;* agent_log_str (msg_str m) ;* give (parse_b_from_steering (msg_str m))
      else if rc =? MSG_FOLLOWUP then harness_work n' b
      else say "." ;* agent_yield ;* harness_work n' b
  end.

Definition harness_worker_agent : prog Empty_set :=
  sayln "[worker] started" ;*
  let* r := agent_recv_msg in
  log_msg "[worker] got task: " r.2 ;*
  say "[worker] working" ;*
  let* b := harness_work 64 25 in
  agent_log_str [10] ;*
  let* sum := agent_add 17 b in
  say_num "[worker] sum=" sum ;*
  let* phase := agent_phase in
  say_num " phase=" phase ;*
  agent_log_str [10] ;*
  let* planner := load planner_id in
  agent_send_msg planner MSG_RESULT (str "done") ;*
  sayln "[worker] done" ;*
  agent_exit 0.

Fixpoint yields (n : nat) : prog unit := match n with O => give tt | S n' => agent_yield ;* yields n' end.

Definition harness_planner_agent : prog Empty_set :=
  sayln "[planner] started" ;*
  agent_compact_inbox 3 ;*
  sayln "[planner] compacted init followups" ;*
  ITree.iter (λ _ : unit, let* r := agent_try_recv in give (if 0 <=? r.1 then inl tt else inr tt)) tt ;*
  let* worker := load worker_id in
  agent_send_msg worker MSG_TASK (str "compute:17+25") ;*
  sayln "[planner] task dispatched, injecting steer" ;*
  yields 8 ;*
  let* worker := load worker_id in
  agent_send_steering worker (str "b=30") ;*
  let* m := ITree.iter (λ _ : unit,
    let* r := agent_recv_msg in give (if mtype r.2 =? MSG_RESULT then inr r.2 else inl tt)) tt in
  log_msg "[planner] result: " m ;*
  agent_send_msg 1 MSG_PIPELINE_DONE (str "harness-complete") ;*
  sayln "[planner] done" ;*
  agent_exit 0.

Fixpoint warm_up (n : nat) : prog unit :=
  match n with
  | O => give tt
  | S n' => let* p := load planner_id in agent_send_followup p (str "warmup") ;* warm_up n'
  end.

Definition init_harness_agent : prog Empty_set :=
  sayln "[init] AgentOS harness demo (pi-inspired IPC)" ;*
  let* w := agent_spawn 1 (str "worker") math_caps in
  store (set_worker_id w) ;*
  let* p := agent_spawn 2 (str "planner") talk_caps in
  store (set_planner_id p) ;*
  warm_up 10 ;*
  sayln "[init] agents spawned, waiting" ;*
  let* r := agent_recv_msg in
  log_msg "[init] finished: " r.2 ;*
  agent_exit 0.

Definition llm_worker : prog Empty_set :=
  sayln "[llm-worker] querying DeepSeek..." ;*
  let* '(n, response) := agent_llm (str "What is 17+25? Reply with only the number, no explanation.") LLM_MAX_RESPONSE in
  (if n <? 0 then
     say_num "[llm-worker] query failed err=" n ;*
     sayln " (timeout=-8, no-device=-6)" ;*
     agent_send_msg 1 MSG_RESULT (str "error") ;* give tt
   else
     log3 (str "[llm-worker] answer: ") (text_of response) ;*
     agent_send_msg 1 MSG_RESULT (text_of response) ;* give tt) ;*
  agent_exit 0.

Definition llm_caps : Z := capset [CAP_LLM; CAP_LOG; CAP_SEND].

Definition log_id (label : string) (id : Z) : prog unit := say_num label id ;* agent_log_str [10].

Definition init_llm_agent : prog Empty_set :=
  sayln "[init] AgentOS LLM demo (native DeepSeek via VirtIO-net HTTPS)" ;*
  let* wid := agent_spawn 1 (str "llm-worker") llm_caps in
  log_id "[init] spawned llm-worker id=" wid ;*
  let* r := agent_recv_msg in
  log_msg "[init] pipeline complete, llm said: " r.2 ;*
  agent_exit 0.

(** ** The orchestrator with a storage service of its own (demo_orchestrator.c)

    Its worker and its model worker are those of orch_pipeline.c, and so is its storage
    service that of storage_svc.c, word for word. *)

Definition orchestrator_worker_agent : prog Empty_set := worker_agent.
Definition orchestrator_llm_worker_agent : prog Empty_set := llm_worker_agent.

Definition orchestrator_planner_agent : prog Empty_set :=
  let* me := agent_self in
  store (set_planner_id me) ;*
  say_var "[planner] started id=" planner_id ;*
  agent_log_str [10] ;*
  let* w := agent_spawn worker_entry (str "worker") worker_caps in
  store (set_worker_id w) ;*
  let* l := agent_spawn llm_worker_entry (str "llm-worker") llm_worker_caps in
  store (set_llm_worker_id l) ;*
  say_var "[planner] spawned worker=" worker_id ;*
  say_var " llm-worker=" llm_worker_id ;*
  agent_log_str [10] ;*
  let* w := load worker_id in
  agent_send_msg w MSG_TASK (str "compute:17+25") ;*
  sayln "[planner] dispatched worker task" ;*
  let* r := agent_recv_msg in
  log_msg "[planner] worker result: " r.2 ;*
  let* l := load llm_worker_id in
  agent_send_msg l MSG_TASK (msg_str r.2) ;*
  sayln "[planner] dispatched llm task" ;*
  let* r := agent_recv_msg in
  log_msg "[planner] llm summary: " r.2 ;*
  agent_send_msg 1 MSG_PIPELINE_DONE (str "orchestrator-complete") ;*
  agent_send_msg STORAGE_AGENT_ID MSG_PIPELINE_DONE (str "shutdown") ;*
  sayln "[planner] orchestrator complete" ;*
  agent_exit 0.

Definition init_orchestrator_agent : prog Empty_set :=
  sayln "[init] v1.3 orchestrator demo (5 agents)" ;*
  let* pid := agent_spawn planner_entry (str "planner") planner_caps in
  log_id "[init] spawned planner id=" pid ;*
  let* r := agent_recv_msg in
  log_msg "[init] finished: " r.2 ;*
  agent_exit 0.

Definition orchestrator_storage_agent_main : prog Empty_set := storage.storage_agent_main.

(** ** Clients of the model router and of the network (demo_router.c, demo_net.c,
    demo_net_prod.c) *)

Definition router_client_worker : prog Empty_set :=
  sayln "[client] svc_llm faux backend" ;*
  let* '(n, answer) := agent_svc_llm (str "What is 17+25? Reply with only the number.") LLM_MAX_RESPONSE (str "faux") in
  if n <? 0 then die "[client] faux llm failed"
  else
    log3 (str "[client] answer: ") answer ;*
    if negb (str_eq answer (str "42")) then die "[client] unexpected faux answer"
    else agent_send_msg 1 MSG_RESULT answer ;* agent_exit 0.

Definition init_router_agent : prog Empty_set :=
  sayln "[init] v3.2 model router demo" ;*
  let* r := agent_svc_llm (str "ignored") 32 (str "offline") in
  if 0 <=? r.1 then die "[init] offline should have failed"
  else
    sayln "[init] router offline rejected" ;*
    let* client := agent_spawn 1 (str "client") timed_caps in
    log_id "[init] spawned client id=" client ;*
    let* r := agent_recv_msg in
    log_msg "[init] client result: " r.2 ;*
    if negb (str_eq (msg_str r.2) (str "42")) then die "[init] router faux check failed"
    else
      sayln "[init] router faux ok" ;*
      send_done [ROUTER_AGENT_ID] "shutdown" ;*
      sayln "[init] router demo complete" ;*
      agent_exit 0.

Definition net_client_worker : prog Empty_set :=
  sayln "[client] svc_http faux backend" ;*
  let* '(n, body) := agent_svc_http (str "http://stub/agentos") HTTP_MAX_BODY (str "faux") in
  if n <? 0 then die "[client] faux http failed"
  else
    log3 (str "[client] body: ") body ;*
    if negb (str_starts_with body (str "200:agentos-net-stub")) then die "[client] unexpected faux body"
    else agent_send_msg 1 MSG_RESULT body ;* agent_exit 0.

Definition init_net_agent : prog Empty_set :=
  sayln "[init] v3.4 network service demo" ;*
  let* r := agent_svc_http (str "http://stub/reject") 32 (str "offline") in
  if 0 <=? r.1 then die "[init] offline should have failed"
  else
    sayln "[init] network offline rejected" ;*
    let* client := agent_spawn 1 (str "client") timed_caps in
    log_id "[init] spawned client id=" client ;*
    let* r := agent_recv_msg in
    log_msg "[init] client result: " r.2 ;*
    if negb (str_starts_with (msg_str r.2) (str "200:agentos-net-stub")) then die "[init] network faux check failed"
    else
      sayln "[init] network faux ok" ;*
      send_done [NET_AGENT_ID] "shutdown" ;*
      sayln "[init] net demo complete" ;*
      agent_exit 0.

Definition NET_TEST_URL : list Z := str "http://10.0.2.2:8080/agentos".
Definition NET_DEGRADE_URL : list Z := str "http://10.0.2.2:8080/reject-degrade".

Fixpoint fill_quota (n : nat) : prog unit :=
  match n with
  | O => give tt
  | S n' =>
      let* r := agent_svc_http NET_TEST_URL HTTP_MAX_BODY (str "prod") in
      if r.1 <? 0 then die "[init] prod quota fill failed" else fill_quota n'
  end.

Definition init_net_prod_agent : prog Empty_set :=
  sayln "[init] v4.3 production network demo" ;*
  let* r := agent_svc_http (str "http://stub/reject") HTTP_MAX_BODY (str "offline") in
  if 0 <=? r.1 then die "[init] offline should have failed"
  else
    sayln "[init] network offline rejected" ;*
    let* '(n, body) := agent_svc_http NET_TEST_URL HTTP_MAX_BODY (str "native") in
    if n <? 0 then die "[init] native http failed"
    else
      log3 (str "[init] native body: ") body ;*
      if negb (str_starts_with body (str "200:agentos-net-stub")) then die "[init] unexpected native body"
      else
        sayln "[init] network native ok" ;*
        let* '(n, body) := agent_svc_http NET_DEGRADE_URL HTTP_MAX_BODY (str "prod") in
        if n <? 0 then die "[init] prod cache fallback failed"
        else
          log3 (str "[init] degrade body: ") body ;*
          if negb (str_eq body (str "cache:200:offline-ok")) then die "[init] unexpected cache fallback body"
          else
            sayln "[init] network cache fallback ok" ;*
            fill_quota 3 ;*
            let* r := agent_svc_http NET_TEST_URL HTTP_MAX_BODY (str "prod") in
            if 0 <=? r.1 then die "[init] quota should have failed"
            else
              sayln "[init] network quota exceeded" ;*
              send_done [NET_AGENT_ID] "shutdown" ;*
              sayln "[init] net prod demo complete" ;*
              agent_exit 0.

(** ** The screen and the keyboard (demo_ui.c), harts (demo_smp.c) *)

Definition UI_KEY_H : Z := 11.
Definition ui_key_accepted (code : Z) : bool := (code =? UI_KEY_H) || (code =? 35) || (code =? 104).

Fixpoint ui_wait (loops : nat) (key : Z) : prog Z :=
  match loops with
  | O => give key
  | S loops' =>
      if ui_key_accepted key then give key
      else
        let* key := agent_svc_input_poll in
        if ui_key_accepted key then give key else agent_yield ;* ui_wait loops' key
  end.

Definition init_ui_agent : prog Empty_set :=
  sayln "[init] v4.4 human interface demo" ;*
  let* rc := agent_svc_display (str "AgentOS v4.4") 8 8 in
  if rc <? 0 then die "[init] display failed"
  else
    sayln "[init] display draw ok" ;*
    let* key := ui_wait (Z.to_nat 8000) 0 in
    if negb (ui_key_accepted key) then die "[init] input timeout waiting for key H"
    else
      log_id "[init] input key ok code=" key ;*
      let* rc := agent_svc_display (str "Key OK") 8 24 in
      if rc <? 0 then die "[init] display update failed"
      else
        sayln "[init] ui demo complete" ;*
        send_done [DISPLAY_AGENT_ID; INPUT_AGENT_ID] "done" ;*
        agent_exit 0.

Definition SMP_TOOL_ONLINE : Z := 0.
Definition SMP_TOOL_HART : Z := 2.
Definition smp_tool (cmd arg : Z) : prog Z := tool_rc TOOL_SMP [TInt cmd; TInt arg; TInt 0].

(** The two workers differ in their letter; the delay loop between the messages has no
    effect. *)
Definition smp_worker (start fin : string) (letter : string) : prog Empty_set :=
  let* h := smp_tool SMP_TOOL_HART 0 in
  say_num start h ;*
  sayln " start" ;*
  agent_send_msg 1 MSG_RESULT (str letter) ;*
  sayln fin ;*
  agent_exit 0.

Definition worker_a : prog Empty_set := smp_worker "[worker-a] hart=" "[worker-a] done" "a".
Definition worker_b : prog Empty_set := smp_worker "[worker-b] hart=" "[worker-b] done" "b".

(** Which of the two the message is from. *)
Definition smp_note (wa wb : Z) (m : agent_msg) (h : Z * Z) : Z * Z :=
  if cget (payload m) 0 =? chr "a" then (wa, h.2) else if cget (payload m) 0 =? chr "b" then (h.1, wb) else h.

Definition init_smp_agent : prog Empty_set :=
  sayln "[init] smp demo: boot hart ok" ;*
  let* online := smp_tool SMP_TOOL_ONLINE 0 in
  log_id "[init] smp online=" online ;*
  if online <? 2 then die "[init] need 2 harts"
  else
    let* wa := agent_spawn 1 (str "worker-a") (capset [CAP_LOG; CAP_SEND]) in
    let* wb := agent_spawn 2 (str "worker-b") (capset [CAP_LOG; CAP_SEND]) in
    say_num "[init] spawned workers " wa ;*
    log_id " " wb ;*
    let* r := agent_recv_msg in
    let h := smp_note wa wb r.2 (-1, -1) in
    let* r := agent_recv_msg in
    let h := smp_note wa wb r.2 h in
    if (h.1 <? 0) || (h.2 <? 0) then die "[init] worker recv failed"
    else
      sayln "[init] concurrent workers ok" ;*
      sayln "[init] smp demo complete" ;*
      agent_exit 0.
