(* ===== verification/DemoFiles.v ===== *)
(** * The demonstrations with files (user/demo_*.c, user/worker_*.c)

    Those that use the storage service or the file tools, with the copies of the storage
    service that some of them contain, and the programs that are loaded from files.  The
    conventions are those of Demos.v.

    The read tool stores the bytes of the file and no terminator.  Where a demonstration
    then uses its buffer as a string, the string goes on into the bytes that the array had
    before ([junk]), and past the array when there is no NUL among them. *)

From ITree Require Import Core.ITreeDefinition.
From S2P Require Import Prelude Abi Ipc Kernel ElfLoad Catalog LibAgent AgentSvc ServiceAgents ConsoleSvc Pipelines Demos.

Import orch.

(** ** Copies of the storage service

    demo_memory.c and demo_v1.c have the text of storage_svc.c.  The other three copy a
    reply without a number with a loop that is defined, and demo_storage2.c reports its
    requests. *)

Definition memory_storage_agent_main : prog Empty_set := storage.storage_agent_main.
Definition v1_storage_agent_main : prog Empty_set := storage.storage_agent_main.

Definition format_fs_rsp_copy (reqid : Z) (body : list Z) : list Z :=
  if reqid <=? 0 then take (Z.to_nat (MSG_PAYLOAD_SIZE - 1)) body else format_rsp (chr "R") reqid body.

Definition copy_reply (sender reqid : Z) (body : list Z) : prog unit :=
  agent_send_msg sender MSG_FS_RSP (format_fs_rsp_copy reqid body) ;* give tt.

Definition copy_report (verbose : bool) (what : string) (reqid : Z) (path : list Z) : prog unit :=
  if verbose then say_num what reqid ;* log3 (str " path=") path else give tt.

Definition copy_handle_read (verbose : bool) (sender : Z) (req : list Z) : prog unit :=
  let '(reqid, body) := storage.numbered req in
  copy_report verbose "[storage] read req=" reqid (take 63 body) ;*
  let* '(n, buf) := agent_read_file (take 63 body) 199 in
  if n <? 0 then copy_reply sender reqid (str "err:read")
  else if 200 <=? n then undefined
  else copy_reply sender reqid (text_of (take (Z.to_nat n) buf)).

Definition copy_handle_write (verbose : bool) (sender : Z) (req : list Z) : prog unit :=
  let '(reqid, body) := storage.numbered req in
  let path := before (chr "|") body in
  if zlen path =? zlen body then copy_reply sender reqid (str "err:write")
  else
    let data := take 127 (drop (S (length path)) body) in
    copy_report verbose "[storage] write req=" reqid (take 63 path) ;*
    let* rc := agent_write_file (take 63 path) data (zlen data) in
    copy_reply sender reqid (if rc <? 0 then str "err:write" else str "ok").

Definition copy_handle (verbose : bool) (m : agent_msg) (_ : unit) : prog unit :=
  if mtype m =? MSG_FS_READ then copy_handle_read verbose (sender_id m) (request_text m)
  else if mtype m =? MSG_FS_WRITE then copy_handle_write verbose (sender_id m) (request_text m)
  else copy_reply (sender_id m) 0 (str "err:unknown").

Definition edge_storage_agent_main : prog Empty_set :=
  serve (ready (str "storage") STORAGE_AGENT_ID) (str "storage") (copy_handle false) tt.
Definition memory2_storage_agent_main : prog Empty_set :=
  serve (ready (str "storage") STORAGE_AGENT_ID) (str "storage") (copy_handle false) tt.
Definition storage2_storage_agent_main : prog Empty_set :=
  serve (log_id "[storage] v2 FIFO service ready id=" STORAGE_AGENT_ID) (str "storage") (copy_handle true) tt.

(** ** Clients of the storage service *)

(** *** demo_edge.c *)

Definition MSG_ALERT : Z := 10.

(** The largest of the numbers between commas; other characters are passed over. *)
Fixpoint peak_from (csv : list Z) (cur peak : Z) : Z :=
  match csv with
  | [] => if peak <? cur then cur else peak
  | c :: csv' =>
      if is_digit c then peak_from csv' (i32 (cur * 10 + (c - 48))) peak
      else if c =? chr "," then peak_from csv' 0 (if peak <? cur then cur else peak)
      else peak_from csv' cur peak
  end.

Definition parse_peak (csv : list Z) : Z := peak_from csv 0 0.

Definition sensor_worker : prog Empty_set :=
  sayln "[sensor] writing samples 42,55,91" ;*
  let* rc := agent_svc_write (str "/agent/samples") (str "42,55,91") 8 in
  if rc <? 0 then die "[sensor] write samples failed"
  else
    let* rules := load rules_id in
    agent_send_msg rules MSG_TASK (str "samples-ready") ;*
    sayln "[sensor] done" ;*
    agent_exit 0.

Definition rules_worker : prog Empty_set :=
  let* r := agent_recv_msg in
  log_msg "[rules] task: " r.2 ;*
  let* '(n, samples) := agent_svc_read (str "/agent/samples") 64 in
  if n <? 0 then die "[rules] read samples failed"
  else
    log3 (str "[rules] samples: ") samples ;*
    let peak := parse_peak samples in
    log_id "[rules] peak=" peak ;*
    if peak <=? 80 then
      sayln "[rules] within threshold" ;*
      agent_send_msg 1 MSG_RESULT (str "ok") ;*
      agent_exit 0
    else
      let alert := str_cat [] (str "peak=") 32 ++ int_to_str peak in
      log3 (str "[rules] alert: ") alert ;*
      let* llm := load llm_id in
      agent_send_msg llm MSG_ALERT alert ;*
      agent_exit 0.

Definition append_assistant_line (response : list Z) : prog unit :=
  agent_session_append (str "assistant: " ++ take (Z.to_nat (LLM_MAX_RESPONSE + 16 - 1 - 11)) response) ;* give tt.

Definition edge_prompt (alert : list Z) : list Z :=
  str_cat (str_cat (str_cat [] (str "Edge sensor ") LLM_MAX_PROMPT) alert LLM_MAX_PROMPT)
    (str " exceeds threshold 80. Explain briefly.") LLM_MAX_PROMPT.

Definition edge_llm_worker : prog Empty_set :=
  let* r := agent_recv_msg in
  log_msg "[llm] alert: " r.2 ;*
  let* rc := agent_session_append (str "user: edge-alert") in
  if rc <? 0 then die "[llm] session append failed"
  else
    sayln "[llm] querying router (faux)..." ;*
    let* '(n, response) := agent_svc_llm (edge_prompt (msg_str r.2)) LLM_MAX_RESPONSE (str "faux") in
    if n <? 0 then die "[llm] router llm failed"
    else
      append_assistant_line response ;*
      log3 (str "[llm] explanation: ") response ;*
      let* rc := agent_svc_write (str "/agent/llm_last") response n in
      if rc <? 0 then die "[llm] write llm_last failed"
      else
        let* rc := agent_sync in
        if rc <? 0 then die "[llm] sync failed"
        else
          sayln "[llm] persist sync ok" ;*
          agent_send_msg 1 MSG_RESULT response ;*
          agent_exit 0.

Definition try_restore : prog bool :=
  let* '(n, samples) := agent_svc_read (str "/agent/samples") 64 in
  if (n <? 0) || (cget samples 0 =? 0) then give false
  else
    let* '(n, llm_last) := agent_svc_read (str "/agent/llm_last") LLM_MAX_RESPONSE in
    if (n <? 0) || (cget llm_last 0 =? 0) then give false
    else if negb (str_starts_with llm_last (str "High temperature")) then give false
    else
      say "[init] restored samples: " ;*
      agent_log_str samples ;*
      agent_log_str (10 :: str "[init] restored llm_last: ") ;*
      agent_log_str llm_last ;*
      agent_log_str [10] ;*
      sayln "[init] edge restore ok" ;*
      give true.

Definition run_pipeline : prog unit :=
  let* r := agent_spawn 1 (str "rules") timed_caps in
  store (set_rules_id r) ;*
  let* l := agent_spawn 2 (str "llm-worker") timed_caps in
  store (set_llm_id l) ;*
  let* sensor := agent_spawn 3 (str "sensor") timed_caps in
  say_num "[init] spawned sensor=" sensor ;*
  say_var " rules=" rules_id ;*
  say_var " llm=" llm_id ;*
  agent_log_str [10] ;*
  let* r := agent_recv_msg in
  log_msg "[init] pipeline result: " r.2 ;*
  if negb (str_starts_with (msg_str r.2) (str "High temperature")) then die "[init] unexpected llm result" else give tt.

Definition init_edge_agent : prog Empty_set :=
  sayln "[init] v3.2 edge: sensor -> rules -> router -> persist" ;*
  let* restored := try_restore in
  (if restored : bool then give tt else run_pipeline) ;*
  send_done [ROUTER_AGENT_ID; STORAGE_AGENT_ID] "shutdown" ;*
  sayln "[init] edge demo complete" ;*
  agent_exit 0.

(** *** demo_memory.c and demo_memory2.c *)

(** The line, empty when the call fails. *)
Definition prior_session (tag : string) : prog unit :=
  let* '(rc, line) := agent_session_tail 128 in
  if (0 <=? rc) && negb (cget (text_of line) 0 =? 0) then log3 (str tag) (text_of line) else give tt.

Definition memory_prompt (version : list Z) : list Z :=
  str_cat (str_cat (str_cat [] (str "AgentOS version: ") LLM_MAX_PROMPT) version LLM_MAX_PROMPT)
    (str ". What is 17+25? Reply with only the number.") LLM_MAX_PROMPT.

Definition memory_worker : prog Empty_set :=
  sayln "[memory] reading /sys/version via storage" ;*
  let* '(n, version) := agent_svc_read (str "/sys/version") 64 in
  if n <? 0 then die "[memory] read /sys/version failed"
  else
    log3 (str "[memory] version: ") version ;*
    prior_session "[memory] restored prior session tail: " ;*
    let* rc := agent_session_append (str "user: memory-query") in
    if rc <? 0 then die "[memory] session append user failed"
    else
      sayln "[memory] querying LLM..." ;*
      let* '(n, response) := agent_llm (memory_prompt version) LLM_MAX_RESPONSE in
      if n <? 0 then say_num "[memory] llm failed err=" n ;* agent_log_str [10] ;* agent_exit 1
      else
        log3 (str "[memory] llm answer: ") (text_of response) ;*
        let* rc := agent_sync in
        if rc <? 0 then die "[memory] sync failed"
        else
          sayln "[memory] persist sync ok" ;*
          let* '(rc, line) := agent_session_tail 128 in
          if rc <? 0 then die "[memory] session tail failed"
          else
            log3 (str "[memory] session tail: ") (text_of line) ;*
            if negb (str_starts_with (text_of line) (str "assistant:")) then die "[memory] unexpected session tail"
            else agent_send_msg 1 MSG_RESULT (text_of response) ;* agent_exit 0.

Definition memory_caps : Z := capset [CAP_LOG; CAP_SEND; CAP_RECV; CAP_TIME; CAP_LLM].

Definition init_memory_agent : prog Empty_set :=
  sayln "[init] v1.2 memory + LLM + persist demo" ;*
  let* wid := agent_spawn 1 (str "memory-worker") memory_caps in
  log_id "[init] spawned memory-worker id=" wid ;*
  let* r := agent_recv_msg in
  log_msg "[init] memory worker answer: " r.2 ;*
  send_done [STORAGE_AGENT_ID] "shutdown" ;*
  sayln "[init] memory demo complete" ;*
  agent_exit 0.

Definition memory2_prompt (session steer version : list Z) : list Z :=
  foldl (λ p s, str_cat p s LLM_MAX_PROMPT) []
    [str "Context: "; session; str " Steer: "; steer; str " Version: "; version; str ". What is 17+25? Reply with only the number."].

Definition memory2_answer (session steer version : list Z) : prog Empty_set :=
  agent_session_append (str "user: memory2-query") ;*
  sayln "[memory2] querying LLM (streaming)..." ;*
  let* '(n, response) := agent_llm (memory2_prompt session steer version) LLM_MAX_RESPONSE in
  if n <? 0 then die "[memory2] llm failed"
  else
    log3 (str "[memory2] llm answer: ") (text_of response) ;*
    let* rc := agent_sync in
    if rc <? 0 then die "[memory2] sync failed"
    else
      sayln "[memory2] persist sync ok" ;*
      agent_send_msg 1 MSG_RESULT (text_of response) ;*
      agent_exit 0.

Definition memory2_worker : prog Empty_set :=
  let* r := agent_recv_msg in
  if negb (mtype r.2 =? MSG_STEER) then die "[memory2] expected steer first"
  else
    let steer := str_copy (msg_str r.2) 128 in
    log3 (str "[memory2] got steer: ") steer ;*
    sayln "[memory2] reading /sys/version via storage" ;*
    let* '(n, version) := agent_svc_read (str "/sys/version") 64 in
    if n <? 0 then die "[memory2] read /sys/version failed"
    else
      log3 (str "[memory2] version: ") version ;*
      prior_session "[memory2] restored prior session tail: " ;*
      agent_session_append (str "user: turn1") ;*
      agent_session_append (str "assistant: noted") ;*
      agent_session_append (str "user: turn2") ;*
      agent_session_append (str "assistant: ready") ;*
      let* rc := agent_session_compact 2 in
      if rc <? 0 then die "[memory2] session compact failed"
      else
        sayln "[memory2] session compact ok" ;*
        let* r := agent_recv_msg in
        if negb (mtype r.2 =? MSG_SUMMARY) then die "[memory2] expected MSG_SUMMARY"
        else
          log3 (str "[memory2] got MSG_SUMMARY: ") (str_copy (msg_str r.2) 128) ;*
          let* '(rc, session) := agent_session_read 256 3 in
          if rc <? 0 then die "[memory2] session read failed"
          else
            log3 (str "[memory2] session context: ") (text_of session) ;*
            if negb (str_starts_with (text_of session) (str "summary:")) then die "[memory2] missing summary line in session"
            else memory2_answer (text_of session) steer version.

Definition init_memory2_agent : prog Empty_set :=
  sayln "[init] v2.0 memory2 session compact + LLM stream demo" ;*
  let* wid := agent_spawn 1 (str "memory-worker") memory_caps in
  log_id "[init] spawned memory-worker id=" wid ;*
  agent_send_steering wid (str "topic=17+25") ;*
  sayln "[init] sent steer to worker" ;*
  let* r := agent_recv_msg in
  log_msg "[init] memory2 worker answer: " r.2 ;*
  send_done [STORAGE_AGENT_ID] "shutdown" ;*
  sayln "[init] memory2 demo complete" ;*
  agent_exit 0.

(** *** demo_v1.c and demo_storage2.c *)

Definition build_agent_path (id : Z) (name : list Z) : list Z := str "/agent/" ++ int_to_str id ++ str "/" ++ name.

Definition v1_worker_agent : prog Empty_set :=
  let* id := agent_self in
  let note_path := build_agent_path id (str "note.txt") in
  sayln "[worker] reading /sys/version via storage" ;*
  let* '(n, version) := agent_svc_read (str "/sys/version") 64 in
  if n <? 0 then die "[worker] read /sys/version failed"
  else
    log3 (str "[worker] version: ") version ;*
    say "[worker] writing " ;* agent_log_str note_path ;* sayln " via storage" ;*
    let* rc := agent_svc_write note_path (str "hello-v1-persist") 16 in
    if rc <? 0 then die "[worker] write failed"
    else
      let* rc := agent_session_append (str "turn1:hello-v1-persist") in
      if rc <? 0 then die "[worker] session append failed"
      else
        let* rc := agent_sync in
        (if rc <? 0 then sayln "[worker] sync failed (no block device?)" else sayln "[worker] persist sync ok") ;*
        let* '(n, note) := agent_svc_read note_path 64 in
        if n <? 0 then die "[worker] readback failed"
        else
          log3 (str "[worker] readback: ") note ;*
          let* '(rc, line) := agent_session_tail 64 in
          if rc <? 0 then die "[worker] session tail failed"
          else
            log3 (str "[worker] session tail: ") (text_of line) ;*
            agent_send_msg 1 MSG_RESULT note ;*
            agent_exit 0.

Definition init_v1_agent : prog Empty_set :=
  sayln "[init] v1.0 persist + storage IPC demo" ;*
  let* wid := agent_spawn 1 (str "worker") timed_caps in
  log_id "[init] spawned worker id=" wid ;*
  let* r := agent_recv_msg in
  log_msg "[init] worker result: " r.2 ;*
  send_done [STORAGE_AGENT_ID] "shutdown" ;*
  sayln "[init] v1 demo complete" ;*
  agent_exit 0.

(** Its array of eight digits is enough for the number of an agent. *)
Definition storage2_agent_path (id : Z) (name : list Z) : list Z :=
  str "/agent/" ++ (if id =? 0 then str "0" else rev (digits_rev dec_fuel id)) ++ str "/" ++ name.

Definition fs_worker : prog Empty_set :=
  let* id := agent_self in
  let tag := if id =? 4 then str "workerA-data" else str "workerB-data" in
  let note_path := storage2_agent_path id (str "note.txt") in
  say_num "[worker] id=" id ;* sayln " start" ;*
  let* '(n, version) := agent_svc_read (str "/sys/version") 64 in
  if n <? 0 then die "[worker] read /sys/version failed"
  else
    say_num "[worker] id=" id ;* log3 (str " version=") version ;*
    yields 4 ;*
    let* rc := agent_svc_write note_path tag (zlen tag) in
    if rc <? 0 then die "[worker] write failed"
    else
      yields 4 ;*
      let* '(n, readback) := agent_svc_read note_path 64 in
      if n <? 0 then die "[worker] readback failed"
      else
        say_num "[worker] id=" id ;* log3 (str " readback=") readback ;*
        if negb (str_eq readback tag) then die "[worker] readback mismatch"
        else
          say_num "[worker] id=" id ;* sayln " readback ok" ;*
          agent_send_msg 1 MSG_RESULT readback ;*
          agent_exit 0.

Definition log_result : prog unit := let* r := agent_recv_msg in log_msg "[init] result: " r.2.

Definition init_storage2_agent : prog Empty_set :=
  sayln "[init] v2.1 storage v2 concurrent FS demo" ;*
  let* w1 := agent_spawn 1 (str "worker-a") talk_caps in
  let* w2 := agent_spawn 1 (str "worker-b") talk_caps in
  say_num "[init] spawned workers " w1 ;*
  log_id " " w2 ;*
  log_result ;*
  log_result ;*
  send_done [STORAGE_AGENT_ID] "shutdown" ;*
  sayln "[init] storage2 demo complete" ;*
  agent_exit 0.

(** ** Programs that are loaded (worker_load.c, worker_ota_v1.c, worker_ota_v2.c) *)

(** Add two numbers, send the sum as text after a prefix when it is the expected one. *)
Definition loaded_worker (tag prefix : string) (a b expect : Z) : prog Empty_set :=
  let log s := agent_log_str (str "[" ++ str tag ++ str "] " ++ s) in
  log (ln "loaded agent running") ;*
  let* sum := agent_add a b in
  log (str "sum=") ;* agent_log_int sum ;* agent_log_str [10] ;*
  if negb (sum =? expect) then log (ln "bad sum") ;* agent_exit 1
  else
    agent_send_msg 1 MSG_RESULT (str prefix ++ dec (u32 sum)) ;*
    log (ln "done") ;*
    agent_exit 0.

Definition worker_main : prog Empty_set := loaded_worker "worker" "sum=" 17 25 42.
Definition worker_main_v1 : prog Empty_set := loaded_worker "worker-v1" "sum=" 17 25 42.
Definition worker_main_v2 : prog Empty_set := loaded_worker "worker-v2" "ver=2 sum=" 20 64 84.

(** ** Users of the file tools *)

Section local.
(** The bytes in a local array of the given size before anything is stored; the images
    that the build makes of the programs above. *)
Context (junk : Z → list Z) (worker_elf worker_ota_v1_elf worker_ota_v2_pkg : list Z).

(** An array of [size] bytes after a read of [rc] bytes, and the string in it. *)
Definition array (size rc : Z) (buf : list Z) : list Z := take (Z.to_nat rc) buf ++ drop (Z.to_nat rc) (junk size).

Definition as_string (size rc : Z) (buf : list Z) : prog (list Z) :=
  match cstr_of (array size rc buf) with Some s => give s | None => undefined end.

Definition WORKER_ELF_PATH : list Z := str "/agent/1/worker.agent".
Definition loaded_caps : Z := capset [CAP_LOG; CAP_SEND; CAP_MATH].

(** Whether a file has at least eight bytes. *)
Definition probe (path : list Z) : prog bool := let* r := agent_read_file path 8 in give (8 <=? r.1).

(** A file is written from an array of the program. *)
Definition seed (label : string) (path data : list Z) : prog Z :=
  say_num label (zlen data) ;* sayln " bytes)" ;* agent_write_file path data (zlen data).

(** *** demo_load.c *)

Definition init_load_agent : prog Empty_set :=
  sayln "[init] v3.3 agent ELF load demo" ;*
  let* there := probe WORKER_ELF_PATH in
  (if there : bool then sayln "[init] worker.agent restored from ramfs"
   else
     let* rc := seed "[init] writing worker.agent (" WORKER_ELF_PATH worker_elf in
     if rc <? 0 then die "[init] write worker.agent failed"
     else
       let* rc := agent_sync in
       if rc <? 0 then die "[init] sync failed" else sayln "[init] worker.agent persisted") ;*
  let* wid := agent_load WORKER_ELF_PATH (str "worker") loaded_caps in
  if wid <? 0 then log_id "[init] agent_load failed err=" wid ;* agent_exit 1
  else
    log_id "[init] loaded worker id=" wid ;*
    let* r := agent_recv_msg in
    log_msg "[init] worker result: " r.2 ;*
    if negb (str_starts_with (msg_str r.2) (str "sum=42")) then die "[init] bad worker result"
    else sayln "[init] load demo complete" ;* agent_exit 0.

(** *** demo_console_pack.c and demo_catalog.c *)

(** The result of the function that seeds the worker. *)
Definition ensure_worker (ready label bad : string) (data : list Z) : prog Z :=
  let* there := probe WORKER_ELF_PATH in
  if there : bool then sayln ready ;* give 0
  else
    let* rc := seed label WORKER_ELF_PATH data in
    if rc <? 0 then sayln bad ;* give (-1) else give 0.

Definition pack_ensure_worker_agent : prog Z :=
  ensure_worker "[pack] worker.agent ready" "[pack] seeding worker.agent (" "[pack] write worker.agent failed" worker_elf.

Definition handle_list : prog unit :=
  let* there := probe WORKER_ELF_PATH in
  if there : bool then log3 (str "[pack] list: ") WORKER_ELF_PATH else sayln "[pack] list: (no .agent packages found)".

(** The common part of the two functions: the result of the worker, when it was loaded. *)
Definition load_and_wait (path name : list Z) : prog (option agent_msg) :=
  if (cget path 0 =? 0) || (cget name 0 =? 0) then sayln "[pack] load: missing path or name" ;* give None
  else
    let* wid := agent_load path name loaded_caps in
    if wid <? 0 then log_id "[pack] agent_load failed err=" wid ;* give None
    else
      say_num "[pack] loaded id=" wid ;* log3 (str " path=") path ;*
      let* r := agent_recv_msg in
      log_msg "[pack] worker result: " r.2 ;*
      give (Some r.2).

Definition pack_handle_load (path name : list Z) : prog Z :=
  let* m := load_and_wait path name in
  match m with
  | None => give (-1)
  | Some m =>
      if negb (str_starts_with (msg_str m) (str "sum=42")) then sayln "[pack] unexpected worker result" ;* give (-1)
      else sayln "[pack] load ok" ;* give 0
  end.

Definition handle_ota (cmd : Z) (path : list Z) : prog Z :=
  if cget path 0 =? 0 then sayln "[pack] ota: missing package path" ;* give (-1)
  else
    let* rc := tool_rc TOOL_OTA [TInt cmd; TStr path; TInt 0] in
    say_num "[pack] ota rc=" rc ;* log3 (str " path=") path ;*
    give (if rc <? 0 then -1 else 0).

(** The path and the name of a request to load; the bar must come before the 63rd
    character. *)
Definition parse_load (req : list Z) : option (list Z * list Z) :=
  let path := before (chr "|") (drop 5 req) in
  let sp := 5 + zlen path in
  if (63 <=? sp) || negb (cget req sp =? chr "|") then None else Some (path, take 31 (drop (Z.to_nat (sp + 1)) req)).

Definition request_load (load : list Z → list Z → prog Z) (req : list Z) : prog unit :=
  match parse_load req with
  | None => sayln "[pack] load: bad payload"
  | Some (path, name) => load path name ;* give tt
  end.

Definition pack_handle_console_req (req : list Z) : prog unit :=
  if str_eq req (str "list") then handle_list
  else if str_starts_with req (str "load:") then request_load pack_handle_load req
  else if str_starts_with req (str "ota-verify:") then handle_ota OTA_CMD_VERIFY (drop 11 req) ;* give tt
  else if str_starts_with req (str "ota-apply:") then handle_ota OTA_CMD_APPLY (drop 10 req) ;* give tt
  else log3 (str "[pack] unknown console req: ") req.

Definition init_console_pack_agent : prog Empty_set :=
  sayln "[init] v5.3 console pack demo" ;*
  let* rc := pack_ensure_worker_agent in
  (if rc <? 0 then agent_exit 1 else give tt) ;*
  sayln "[init] waiting for console commands ..." ;*
  ITree.iter (λ _ : unit,
    let* r := agent_recv_msg in
    if mtype r.2 =? MSG_CONSOLE_REQ then pack_handle_console_req (msg_str r.2) ;* give (inl tt)
    else if is_result r.2 "console demo pack complete" then
      sayln "[init] console demo pack complete" ;*
      send_done [DISPLAY_AGENT_ID; INPUT_AGENT_ID] "done" ;*
      agent_exit 0
    else if is_result r.2 "box demo complete" then
      sayln "[init] box demo complete" ;*
      send_done [CONSOLE_AGENT_ID] "done" ;*
      agent_exit 0
    else give (inl tt)) tt.

Definition STAGED_PKG : list Z := str "/agent/1/worker-v2.agentpkg".
Definition CATALOG_INDEX : list Z := ln "worker|2.0.0|/agent/1/worker-v2.agentpkg|/agent/1/worker.agent|stable|1.0.0".

Definition ensure_worker_v1 : prog Z :=
  ensure_worker "[catalog] worker v1 ready" "[catalog] seeding worker v1 (" "[catalog] write worker v1 failed" worker_ota_v1_elf.

(** The second file is written with the NUL of its text. *)
Definition ensure_catalog_index : prog Z :=
  let* r := agent_read_file CATALOG_PATH_INDEX 16 in
  if 8 <=? r.1 then give 0
  else
    sayln "[catalog] seeding catalog index" ;*
    let* rc := agent_write_file CATALOG_PATH_INDEX CATALOG_INDEX (zlen CATALOG_INDEX) in
    if rc <? 0 then give (-1)
    else
      let* rc := agent_write_file CATALOG_PATH_ACTIVE (str "worker|1.0.0|/agent/1/worker.agent" ++ [0]) 35 in
      give (if rc <? 0 then -1 else 0).

Definition ensure_staged (label : string) : prog Z :=
  let* there := probe STAGED_PKG in
  if there : bool then give 0
  else let* rc := seed label STAGED_PKG worker_ota_v2_pkg in give (if rc <? 0 then -1 else 0).

Definition ensure_staged_pkg : prog Z := ensure_staged "[catalog] staging worker-v2 pkg (".

Definition catalog_handle_load (path name : list Z) : prog Z :=
  let* m := load_and_wait path name in give (match m with None => -1 | Some _ => 0 end).

Definition handle_catalog (cmd : Z) (arg : list Z) : prog Z :=
  let* rc := tool_rc TOOL_CATALOG [TInt cmd; TStr arg; TInt 0] in
  say_num "[catalog] cmd=" cmd ;*
  say_num " rc=" rc ;*
  (if negb (cget arg 0 =? 0) then say " arg=" ;* agent_log_str arg else give tt) ;*
  agent_log_str [10] ;*
  give (if rc <? 0 then -1 else 0).

Definition catalog_handle_console_req (req : list Z) : prog unit :=
  if str_eq req (str "list") then handle_list
  else if str_starts_with req (str "load:") then request_load catalog_handle_load req
  else if str_eq req (str "catalog-list") then handle_catalog CATALOG_CMD_LIST [] ;* give tt
  else if str_starts_with req (str "catalog-install:") then handle_catalog CATALOG_CMD_INSTALL (drop 16 req) ;* give tt
  else if str_starts_with req (str "catalog-rollback:") then handle_catalog CATALOG_CMD_ROLLBACK (drop 17 req) ;* give tt
  else log3 (str "[catalog] unknown console req: ") req.

(** Exit unless the result is good. *)
Definition or_exit (m : prog Z) : prog unit := let* rc := m in if rc <? 0 then agent_exit 1 else give tt.

Definition init_catalog_agent : prog Empty_set :=
  sayln "[init] v5.6 package catalog demo" ;*
  or_exit ensure_worker_v1 ;*
  or_exit ensure_catalog_index ;*
  or_exit ensure_staged_pkg ;*
  sayln "[init] waiting for console commands ..." ;*
  ITree.iter (λ _ : unit,
    let* r := agent_recv_msg in
    if mtype r.2 =? MSG_CONSOLE_REQ then catalog_handle_console_req (msg_str r.2) ;* give (inl tt)
    else if is_result r.2 "catalog demo complete" then
      sayln "[init] catalog demo complete" ;*
      send_done [DISPLAY_AGENT_ID; INPUT_AGENT_ID] "done" ;*
      agent_exit 0
    else give (inl tt)) tt.

(** *** demo_desktop.c *)

Definition sys_gpu_ready : prog bool :=
  let* '(rc, buf) := agent_read_file (str "/sys/gpu") 4 in
  give (if rc <? 1 then false else cget buf 0 =? chr "1").

Definition desktop_ensure_worker_agent : prog Z :=
  ensure_worker "[desktop] worker.agent ready" "[desktop] seeding worker.agent (" "[desktop] write worker.agent failed" worker_elf.

Definition handle_load_worker : prog Z :=
  let* wid := agent_load WORKER_ELF_PATH (str "worker") loaded_caps in
  if wid <? 0 then sayln "[desktop] agent_load failed" ;* give (-1)
  else
    let* r := agent_recv_msg in
    if negb (str_starts_with (msg_str r.2) (str "sum=42")) then sayln "[desktop] unexpected worker result" ;* give (-1)
    else sayln "[desktop] load ok" ;* give 0.

Definition desktop_services : list Z := [DISPLAY_AGENT_ID; INPUT_AGENT_ID; SHELL_AGENT_ID].

(** The dash in the message is written in UTF-8. *)
Definition no_gpu_text : list Z := str "[init] no GPU " ++ [226; 128; 148] ++ ln " use Console REPL (make run-console)".

Definition init_desktop_agent : prog Empty_set :=
  sayln "[init] v5.4 desktop shell demo" ;*
  or_exit desktop_ensure_worker_agent ;*
  let* gpu := sys_gpu_ready in
  (if gpu : bool then give tt
   else
     agent_log_str no_gpu_text ;*
     sayln "[init] desktop console fallback" ;*
     send_done desktop_services "done" ;*
     agent_exit 0) ;*
  sayln "[init] waiting for shell ..." ;*
  ITree.iter (λ _ : unit,
    let* r := agent_recv_msg in
    if r.1 =? MSG_SHELL_REQ then
      let* rc := handle_load_worker in
      agent_send_msg SHELL_AGENT_ID MSG_SHELL_RSP (if rc <? 0 then str "load failed" else str "load ok") ;*
      give (inl tt)
    else if (r.1 =? MSG_RESULT) && str_eq (msg_str r.2) (str "desktop demo complete") then
      sayln "[init] desktop demo complete" ;*
      send_done desktop_services "done" ;*
      agent_exit 0
    else give (inl tt)) tt.

(** *** demo_ota.c and demo_persist2.c *)

Definition demo_ota_kernel_gen : prog Z := tool_rc TOOL_OTA [TInt OTA_CMD_KERNEL_GEN; TInt 0; TInt 0].
Definition demo_ota_apply (path : list Z) : prog Z := tool_rc TOOL_OTA [TInt OTA_CMD_APPLY; TStr path; TInt 0].
Definition demo_ota_verify (path : list Z) : prog Z := tool_rc TOOL_OTA [TInt OTA_CMD_VERIFY; TStr path; TInt 0].

Definition run_loaded_worker (expect_prefix : list Z) : prog Z :=
  let* wid := agent_load WORKER_ELF_PATH (str "worker") loaded_caps in
  if wid <? 0 then log_id "[init] agent_load failed err=" wid ;* give wid
  else
    log_id "[init] loaded worker id=" wid ;*
    let* r := agent_recv_msg in
    log_msg "[init] worker result: " r.2 ;*
    if negb (str_starts_with (msg_str r.2) expect_prefix) then sayln "[init] bad worker result" ;* give (-1) else give 0.

Definition ensure_v1_worker : prog Z :=
  let* there := probe WORKER_ELF_PATH in
  if there : bool then give 0
  else let* rc := seed "[init] writing worker v1 (" WORKER_ELF_PATH worker_ota_v1_elf in give (if rc <? 0 then -1 else 0).

Definition stage_v2_package : prog Z := ensure_staged "[init] staging worker-v2 pkg (".

(** A step that must succeed, with the message of its failure. *)
Definition must (m : prog Z) (bad : string) : prog unit := let* rc := m in if rc <? 0 then die bad else give tt.

Definition OTA_MARKER_PATH : list Z := str "/agent/1/ota-marker".

Definition ota_boot1 : prog Empty_set :=
  sayln "[init] boot1: seed marker + v1 worker" ;*
  must (agent_write_file OTA_MARKER_PATH (str "ota-seed-v1") 11) "[init] marker write failed" ;*
  must ensure_v1_worker "[init] v1 worker seed failed" ;*
  or_exit (run_loaded_worker (str "sum=42")) ;*
  must stage_v2_package "[init] stage v2 pkg failed" ;*
  must agent_sync "[init] boot1 sync failed" ;*
  sayln "[init] ota boot1 complete" ;*
  agent_exit 0.

Definition ota_boot2 (gen : Z) (marker : list Z) : prog Empty_set :=
  log3 (str "[init] marker restored: ") marker ;*
  if negb (str_starts_with marker (str "ota-seed-v1")) then die "[init] bad ota marker"
  else if gen <? 2 then die "[init] need ota kernel gen>=2 on boot2"
  else
    must (demo_ota_verify STAGED_PKG) "[init] staged pkg verify failed" ;*
    sayln "[init] ota verify ok" ;*
    must (demo_ota_apply STAGED_PKG) "[init] ota apply failed" ;*
    sayln "[init] ota apply ok" ;*
    must agent_sync "[init] post-ota sync failed" ;*
    or_exit (run_loaded_worker (str "ver=2 sum=84")) ;*
    must agent_sync "[init] final sync failed" ;*
    sayln "[init] ramfs marker still ok" ;*
    sayln "[init] ota demo complete" ;*
    agent_exit 0.

Definition init_ota_agent : prog Empty_set :=
  sayln "[init] v4.2 OTA demo" ;*
  let* gen := demo_ota_kernel_gen in
  log_id "[init] ota kernel gen=" gen ;*
  let* '(rc, buf) := agent_read_file OTA_MARKER_PATH 64 in
  if rc <? 0 then ota_boot1
  else let* marker := as_string 64 rc buf in ota_boot2 gen marker.

Definition PERSIST2_MARKER_PATH : list Z := str "/agent/1/persist2-marker".

Definition init_persist2_agent : prog Empty_set :=
  sayln "[init] v3.5 persist AOS2 migration demo" ;*
  let* '(rc, buf) := agent_read_file PERSIST2_MARKER_PATH 64 in
  if rc <? 0 then die "[init] persist2 marker missing"
  else
    let* marker := as_string 64 rc buf in
    log3 (str "[init] marker: ") marker ;*
    if negb (str_starts_with marker (str "aos1-seed")) then die "[init] bad persist2 marker"
    else
      must agent_sync "[init] aos2 sync failed" ;*
      sayln "[init] aos2 sync ok" ;*
      sayln "[init] persist2 demo complete" ;*
      agent_exit 0.

(** *** demo_tools.c *)

Definition agent_time_null : prog Z := tool_rc TOOL_TIME [TInt 0; TInt 0; TInt 0].

Definition tools_worker_agent : prog Empty_set :=
  let* id := agent_self in
  let* t0 := agent_time_null in
  sayln "[worker] reading /sys/version" ;*
  let* '(rc, buf) := agent_read_file (str "/sys/version") 64 in
  if rc <? 0 then die "[worker] read version failed"
  else
    let* version := as_string 64 rc buf in
    log3 (str "[worker] version: ") version ;*
    let note_path := build_agent_path id (str "note.txt") in
    log3 (str "[worker] writing ") note_path ;*
    must (agent_write_file note_path (str "persisted-by-worker") 19) "[worker] write failed" ;*
    let* '(rc, buf) := agent_read_file note_path 64 in
    if rc <? 0 then die "[worker] readback failed"
    else
      let* note := as_string 64 rc buf in
      log3 (str "[worker] readback: ") note ;*
      let* t1 := agent_time_null in
      log_id "[worker] time delta=" (i32 (t1 - t0)) ;*
      agent_send_msg 1 MSG_RESULT note ;*
      agent_exit 0.

Definition init_tools_agent : prog Empty_set :=
  sayln "[init] AgentOS system tools demo (ramfs + policy)" ;*
  let* wid := agent_spawn 1 (str "worker") (capset [CAP_LOG; CAP_FS; CAP_TIME; CAP_SEND]) in
  log_id "[init] spawned worker id=" wid ;*
  let* r := agent_recv_msg in
  log_msg "[init] worker persisted: " r.2 ;*
  agent_exit 0.

(** *** demo_tools2.c and demo_wrap.c *)

Definition build_audit_path (id : Z) : list Z := str "/audit/agent/" ++ int_to_str id ++ str "/tool.log".

Definition audit_has (audit needle : list Z) : bool :=
  negb (zlen needle <=? 0) && negb (zlen audit <? zlen needle)
  && existsb (λ i, cmatch audit i needle) (seqZ 0 (zlen audit - zlen needle + 1)).

(** The agent's own audit log, with the label under which it is printed. *)
Definition read_audit (id : Z) (bad label : string) : prog (list Z) :=
  let* '(rc, buf) := agent_read_file (build_audit_path id) 256 in
  if rc <? 0 then die bad
  else let* audit := as_string 256 rc buf in log3 (str label) audit ;* give audit.

Definition tools2_probe_worker : prog Empty_set :=
  let* id := agent_self in
  say_num "[probe] id=" id ;* sayln " trying gpio/http without caps" ;*
  let* rc := agent_gpio 3 1 in
  if negb (rc =? EPERM) then die "[probe] gpio should EPERM"
  else
    let* r := agent_http (str "http://example.com") 64 in
    if negb (r.1 =? EPERM) then die "[probe] http should EPERM"
    else
      let* audit := read_audit id "[probe] read audit failed" "[probe] audit: " in
      if negb (audit_has audit (str "tool=10 rc=-1")) || negb (audit_has audit (str "tool=11 rc=-1"))
      then die "[probe] audit missing eperm entries"
      else
        sayln "[probe] audit eperm ok" ;*
        agent_send_msg 1 MSG_RESULT (str "probe-ok") ;*
        agent_exit 0.

Definition allowed_worker : prog Empty_set :=
  let* id := agent_self in
  say_num "[allowed] id=" id ;* sayln " gpio/http with caps" ;*
  let* rc := agent_gpio 5 1 in
  if negb (rc =? 1) then die "[allowed] gpio failed"
  else
    let* '(rc, httpbuf) := agent_http (str "http://example.com") 64 in
    if (rc <? 0) || negb (cget httpbuf 0 =? chr "s") then die "[allowed] http failed"
    else
      log3 (str "[allowed] stub=") (text_of httpbuf) ;*
      let* audit := read_audit id "[allowed] read audit failed" "[allowed] audit: " in
      if negb (audit_has audit (str "tool=10 rc=1")) || negb (audit_has audit (str "tool=11 rc="))
      then die "[allowed] audit missing allow entries"
      else
        sayln "[allowed] audit allow ok" ;*
        agent_send_msg 1 MSG_RESULT (str "allow-ok") ;*
        agent_exit 0.

(** A result that begins with a letter. *)
Definition result_with (c : string) (m : agent_msg) : bool := (mtype m =? MSG_RESULT) && (cget (payload m) 0 =? chr c).

Definition init_tools2_agent : prog Empty_set :=
  sayln "[init] v2.2 tool audit + gpio/http demo" ;*
  let* p := agent_spawn 1 (str "probe") (capset [CAP_LOG; CAP_SEND; CAP_FS]) in
  log_id "[init] spawned probe id=" p ;*
  let* r := agent_recv_msg in
  if negb (result_with "p" r.2) then die "[init] probe failed"
  else
    sayln "[init] probe done" ;*
    let* a := agent_spawn 2 (str "allowed") (capset [CAP_LOG; CAP_GPIO; CAP_NET; CAP_SEND; CAP_FS]) in
    log_id "[init] spawned allowed id=" a ;*
    let* r := agent_recv_msg in
    if negb (result_with "a" r.2) then die "[init] allowed worker failed"
    else
      sayln "[init] allowed done" ;*
      sayln "[init] tools2 demo complete" ;*
      agent_exit 0.

Definition STRESS_N : nat := 20.

Definition boot2_worker : prog Empty_set :=
  let* id := agent_self in
  log_id "[wrap] boot2 worker id=" id ;*
  let* '(rc, buf) := agent_read_file (build_agent_path id (str "stress-19")) 64 in
  if rc <? 0 then die "[wrap] stress-19 missing after persist"
  else if negb (cget (array 64 rc buf) 0 =? chr "o") || negb (cget (array 64 rc buf) 1 =? chr "k") then die "[wrap] stress-19 corrupt"
  else
    sayln "[wrap] stress file restored ok" ;*
    let* audit := read_audit id "[wrap] audit missing after persist" "[wrap] restored audit: " in
    if negb (audit_has audit (str "tool=10 rc=-1")) then die "[wrap] restored audit missing EPERM"
    else
      sayln "[wrap] audit persist ok" ;*
      agent_send_msg 1 MSG_RESULT (str "boot2-ok") ;*
      agent_exit 0.

Definition parse_worker_id (meta : list Z) : Z := (scan_int 0 meta).1.

(** Files [i], [i + 1], ..., [n] of them. *)
Fixpoint stress (id : Z) (n : nat) (i : Z) : prog unit :=
  match n with
  | O => give tt
  | S n' =>
      let* rc := agent_write_file (build_agent_path id (str "stress-" ++ int_to_str i)) (str "ok") 2 in
      if rc <? 0 then log_id "[wrap] stress write failed at " i ;* agent_exit 1 else stress id n' (i + 1)
  end.

Definition boot1_worker : prog Empty_set :=
  let* id := agent_self in
  log_id "[wrap] boot1 worker id=" id ;*
  let* rc := agent_gpio 1 1 in
  if negb (rc =? EPERM) then die "[wrap] gpio should EPERM"
  else
    stress id STRESS_N 0 ;*
    say_num "[wrap] ramfs stress " (Z.of_nat STRESS_N) ;* sayln " files ok" ;*
    let* audit := read_audit id "[wrap] read audit failed" "[wrap] audit: " in
    if negb (audit_has audit (str "tool=10 rc=-1")) then die "[wrap] audit missing EPERM gpio"
    else agent_send_msg 1 MSG_RESULT (str "boot1-ok") ;* agent_exit 0.

Definition file_caps : Z := capset [CAP_LOG; CAP_FS; CAP_SEND].

Definition boot2_run (expect_id : Z) : prog unit :=
  let* vid := agent_spawn 2 (str "verify") file_caps in
  say_num "[init] boot2 spawned verify id=" vid ;*
  log_id " expect=" expect_id ;*
  if negb (vid =? expect_id) then die "[init] boot2 worker id mismatch"
  else
    let* r := agent_recv_msg in
    if negb (result_with "b" r.2) then die "[init] boot2 verify failed" else give tt.

Definition WRAP_MARKER_PATH : list Z := str "/agent/1/wrap-marker".
Definition META_PATH : list Z := str "/agent/1/wrap-meta".

Definition wrap_boot1 : prog Empty_set :=
  let* worker_id := agent_spawn 1 (str "stress") file_caps in
  log_id "[init] spawned stress worker id=" worker_id ;*
  let* r := agent_recv_msg in
  if negb (result_with "b" r.2) then die "[init] boot1 worker failed"
  else
    must (agent_write_file WRAP_MARKER_PATH (str "1") 1) "[init] write marker failed" ;*
    must (agent_write_file META_PATH (int_to_str worker_id) (zlen (int_to_str worker_id))) "[init] write meta failed" ;*
    must agent_sync "[init] sync failed" ;*
    sayln "[init] persist sync ok" ;*
    sayln "[init] wrap boot1 complete" ;*
    sayln "[init] wrap demo complete" ;*
    agent_exit 0.

(** The digits are read up to a character that is none, which the array may not have. *)
Definition wrap_boot2 : prog Empty_set :=
  let* '(rc, buf) := agent_read_file META_PATH 16 in
  if rc <? 0 then die "[init] boot2 meta missing"
  else
    let worker_id := parse_worker_id (array 16 rc buf) in
    if forallb is_digit (array 16 rc buf) then undefined
    else if worker_id <=? 0 then die "[init] boot2 bad worker id"
    else
      boot2_run worker_id ;*
      sayln "[init] wrap boot2 complete" ;*
      sayln "[init] wrap demo complete" ;*
      agent_exit 0.

Definition init_wrap_agent : prog Empty_set :=
  sayln "[init] v2.x wrap: ramfs+audit persist + uaccess" ;*
  let* '(rc, buf) := agent_read_file WRAP_MARKER_PATH 16 in
  if (0 <=? rc) && (cget (array 16 rc buf) 0 =? chr "1") then wrap_boot2 else wrap_boot1.

End local.
