(* ===== verification/DemoProps.v ===== *)
(** * What the demonstrations do

    Three statements about the programs of Demos.v and DemoFiles.v in the images that
    start them: every call is one that the kernel grants to the caller, the agents that are
    started being followed as well; a first agent that ends with success has told the
    services of its image to end; and the benchmark of messages cannot end with success,
    because the kernel does not let an agent send as many messages. *)

From ITree Require Import Core.ITreeDefinition.
From S2P Require Import Prelude Abi Ipc Ramfs Persist Quota AgentDef Vm Kernel Agent Tool LibAgent AgentSvc ServiceAgents ConsoleSvc Pipelines Effects BootImages Boot SvcProtocol UserWorld Demos DemoFiles.

(** ** Every call is granted *)

(** What a demonstration loads from a file: nothing, the worker, or what a request of
    the console names. *)
Inductive loading := LoadsNothing | LoadsWorker | LoadsAsked.

Definition may_load (l : loading) (path name : list Z) : Prop :=
  match l with
  | LoadsNothing => False
  | LoadsWorker => path = WORKER_ELF_PATH ∧ name = str "worker"
  | LoadsAsked => ∃ req, parse_load req = Some (path, name)
  end.

(** A call of an agent with the capabilities [cs] in a demonstration whose agents are
    started at the points and with the capabilities in [starts], and which loads [l]; the
    tools in [probes] are called to see that they are refused. *)
Definition granted_call (starts : list (Z * Z)) (l : loading) (probes : list Z) (cs : Z) (A : Type) (e : sysE A) : Prop :=
  match e with
  | SysTool tool _ => tool ∈ probes ∨ permitted cs A e
  | SysCreate entry _ c => permitted cs A e ∧ (entry, c) ∈ starts
  | SysLoad path name c => permitted cs A e ∧ c = loaded_caps ∧ may_load l path name
  | _ => permitted cs A e
  end.

(** An agent that a demonstration starts, and a demonstration. *)
Record started := mk_started { st_entry : Z; st_caps : Z; st_probes : list Z; st_prog : prog Empty_set }.
Record demo := mk_demo { d_first : prog Empty_set; d_started : list started; d_loads : loading }.

Definition starts (d : demo) : list (Z * Z) := (λ a, (st_entry a, st_caps a)) <$> d_started d.

Record demo_granted (cs : Z) (d : demo) : Prop := {
  dg_first : only (granted_call (starts d) (d_loads d) [] cs) (d_first d);
  dg_started : Forall (λ a, only (granted_call (starts d) (d_loads d) (st_probes a) (st_caps a)) (st_prog a)) (d_started d)
}.

(** *** Loops with a number of rounds *)

(** The calls that need no tool. *)
Record talks (P : ∀ A, sysE A → Prop) : Prop := {
  tk_write s : P _ (SysWrite s);
  tk_send dst ty p : P _ (SysSend dst ty p);
  tk_recv : P _ SysRecv;
  tk_yield : P _ SysYield;
  tk_exit c : c ≠ 0 → P _ (SysExit c);
  tk_load f : P _ (Load f);
  tk_store f : P _ (Store f)
}.

Ltac head_of t := match t with ?f _ => head_of f | _ => t end.

(** A program is taken apart down to its calls; constants are unfolded on the way, and
    loops are left to the hypotheses and to [loop]. *)
Ltac programs_with loop tac :=
  repeat match goal with
  | |- ∀ _, _ => intros ?
  | |- only _ (give _) => apply only_give
  | |- only _ (call _) => apply only_call; tac
  | H : only _ ?t |- only _ ?t => exact H
  | H : ∀ _, _ |- only _ _ => apply H
  | |- only _ _ => loop
  | |- only _ (ITree.bind _ _) => apply only_bind
  | |- only _ (ITree.iter _ _) => apply only_iter
  | |- only _ (match ?x with _ => _ end) => destruct x
  | |- only _ (let '(_, _) := ?x in _) => destruct x
  | |- only _ ?t => let h := head_of t in progress unfold h
  | |- only _ ?t => progress cbv zeta
  end.

Lemma only_log_number (P : ∀ A, sysE A → Prop) n : (∀ s, P _ (SysWrite s)) → only P (agent_log_int n).
Proof.
  intros Hw. assert (∀ l, only P (log_chars l)) by (induction l; cbn [log_chars]; programs_with fail ltac:(by auto)).
  programs_with fail ltac:(by auto).
Qed.

Lemma only_stress (P : ∀ A, sysE A → Prop) id n i :
  (∀ s, P _ (SysWrite s)) → (∀ c, c ≠ 0 → P _ (SysExit c)) → (∀ args, P _ (SysTool TOOL_WRITE args)) → only P (stress id n i).
Proof.
  intros Hs He Hw. revert i. induction n as [|n IH]; intros i; cbn [stress]; programs_with ltac:(by apply only_log_number) ltac:(by auto).
Qed.

Section loops.
Context (P : ∀ A, sysE A → Prop) (HP : talks P).
Abbreviation only := (only P).

Ltac rounds := programs_with fail ltac:(first [by apply HP | by apply (tk_exit P HP) | by auto]).

Lemma only_send_done ts text : only (send_done ts text).
Proof. induction ts as [|t ts IH]; cbn [send_done]; rounds. Qed.

Lemma only_yields n : only (yields n).
Proof. induction n as [|n IH]; cbn [yields]; rounds. Qed.

Lemma only_ping_rounds n : only (ping_rounds n).
Proof. induction n as [|n IH]; cbn [ping_rounds]; rounds. Qed.

Lemma only_bench_rounds n : only (bench_rounds n).
Proof. induction n as [|n IH]; cbn [bench_rounds]; rounds. Qed.

Lemma only_harness_work n b : only (harness_work n b).
Proof. revert b. induction n as [|n IH]; intros b; cbn [harness_work]; rounds. Qed.

Lemma only_warm_up n : only (warm_up n).
Proof. induction n as [|n IH]; cbn [warm_up]; rounds. Qed.

Lemma only_ui_wait n key : (∀ f, P _ (LoadMsg f)) → P _ Undefined → only (ui_wait n key).
Proof.
  intros Hm Hu. assert (only agent_svc_input_poll) as Hp by rounds.
  revert key. induction n as [|n IH]; intros key; cbn [ui_wait]; [apply only_give|]. case_test; [apply only_give|].
  apply only_bind; [done|]. intros key'. case_test; [apply only_give|]. apply only_bind; [by apply only_call, HP|]. intros _. apply IH.
Qed.

End loops.

Lemma only_request_load (P : ∀ A, sysE A → Prop) load req :
  (∀ s, P _ (SysWrite s)) → (∀ path name, parse_load req = Some (path, name) → only P (load path name)) → only P (request_load load req).
Proof. intros Hs Hl. unfold request_load. destruct (parse_load req) as [[path name]|]; programs_with fail ltac:(by auto); done. Qed.

Ltac known_loop tac :=
  match goal with
  | |- only _ (agent_log_int _) => apply only_log_number; intros; tac
  | |- only _ (stress _ _ _) => apply only_stress; intros; tac
  | |- only _ (request_load _ _) => apply only_request_load; [intros; tac|intros ?path ?name ?Hreq]
  | |- only _ (ui_wait _ _) => apply only_ui_wait; [constructor| |]; intros; tac
  | |- only _ (send_done _ _) => apply only_send_done; constructor; intros; tac
  | |- only _ (yields _) => apply only_yields; constructor; intros; tac
  | |- only _ (ping_rounds _) => apply only_ping_rounds; constructor; intros; tac
  | |- only _ (bench_rounds _) => apply only_bench_rounds; constructor; intros; tac
  | |- only _ (harness_work _ _) => apply only_harness_work; constructor; intros; tac
  | |- only _ (warm_up _) => apply only_warm_up; constructor; intros; tac
  end.

Ltac programs tac := programs_with ltac:(idtac; known_loop tac) tac.

Ltac call_ok :=
  cbn [granted_call permitted may_load];
  solve [reflexivity | exact I | right; eexists; split; reflexivity | left; set_solver
        | split; [reflexivity|]; first [reflexivity | set_solver] | by eexists
        | split; [reflexivity|]; split; [reflexivity|]; first [by split | by eexists]].

(** *** The demonstrations by the names of their first agents

    With the capabilities that the first agent needs. *)

Section table.
Context (junk : Z → list Z) (elf v1_elf v2_pkg : list Z).

Definition alone (t : prog Empty_set) : demo := mk_demo t [] LoadsNothing.
Definition crew (t : prog Empty_set) (agents : list started) : demo := mk_demo t agents LoadsNothing.
Definition loader (t : prog Empty_set) (l : loading) : demo := mk_demo t [] l.
Definition starting : list Z := [CAP_LOG; CAP_SPAWN; CAP_SEND; CAP_RECV].
Definition orch_agents : list started :=
  [mk_started orch.worker_entry orch.worker_caps [] orch.worker_agent;
   mk_started orch.llm_worker_entry orch.llm_worker_caps [] orch.llm_worker_agent;
   mk_started orch.planner_entry orch.planner_caps [] orch.planner_agent].

Definition demos : list (string * (list Z * demo)) :=
  [("init_console_audit_agent", ([CAP_LOG; CAP_SEND; CAP_RECV], alone init_console_audit_agent));
   ("init_console_namespace_agent", ([CAP_LOG; CAP_SEND; CAP_RECV], alone init_console_namespace_agent));
   ("init_console_quota_agent", ([CAP_LOG; CAP_SEND; CAP_RECV], alone init_console_quota_agent));
   ("init_console_tenant_agent", ([CAP_LOG; CAP_SEND; CAP_RECV], alone init_console_tenant_agent));
   ("init_console_v7_agent", ([CAP_LOG; CAP_SEND; CAP_RECV], alone init_console_v7_agent));
   ("init_v01_beta_agent", ([CAP_LOG; CAP_SEND; CAP_RECV], alone init_v01_beta_agent));
   ("init_v02_rc_agent", ([CAP_LOG; CAP_SEND; CAP_RECV], alone init_v02_rc_agent));
   ("init_v030_agent", ([CAP_LOG; CAP_SEND; CAP_RECV], alone init_v030_agent));
   ("init_v040_agent", ([CAP_LOG; CAP_SEND; CAP_RECV], alone init_v040_agent));
   ("init_v050_agent", ([CAP_LOG; CAP_SEND; CAP_RECV], alone init_v050_agent));
   ("init_v060_agent", ([CAP_LOG; CAP_SEND; CAP_RECV], alone init_v060_agent));
   ("init_v061_agent", ([CAP_LOG; CAP_SEND; CAP_RECV], alone init_v061_agent));
   ("init_v062_agent", ([CAP_LOG; CAP_SEND; CAP_RECV], alone init_v062_agent));
   ("init_v063_agent", ([CAP_LOG; CAP_SEND; CAP_RECV], alone init_v063_agent));
   ("init_v064_agent", ([CAP_LOG; CAP_SEND; CAP_RECV], alone init_v064_agent));
   ("init_v070_agent", ([CAP_LOG; CAP_SEND; CAP_RECV], alone init_v070_agent));
   ("init_v100_agent", ([CAP_LOG; CAP_SEND; CAP_RECV], alone init_v100_agent));
   ("init_console_agent", ([CAP_LOG; CAP_SEND; CAP_RECV], alone init_console_agent));
   ("init_console_session_agent", ([CAP_LOG; CAP_SEND; CAP_RECV], alone init_console_session_agent));
   ("init_console_orch_agent", ([CAP_LOG; CAP_SPAWN; CAP_SEND; CAP_RECV], crew init_console_orch_agent orch_agents));
   ("init_bench_ipc_agent", ([CAP_LOG; CAP_SEND; CAP_RECV; CAP_TIME], alone init_bench_ipc_agent));
   ("init_agent", (starting, crew init_agent [mk_started 1 math_caps [] pipeline_worker_agent; mk_started 2 talk_caps [] pipeline_planner_agent]));
   ("init_harness_agent", (starting, crew init_harness_agent [mk_started 1 math_caps [] harness_worker_agent; mk_started 2 talk_caps [] harness_planner_agent]));
   ("init_llm_agent", (starting, crew init_llm_agent [mk_started 1 llm_caps [] llm_worker]));
   ("init_orchestrator_agent", (starting, crew init_orchestrator_agent [mk_started orch.worker_entry orch.worker_caps [] orchestrator_worker_agent; mk_started orch.llm_worker_entry orch.llm_worker_caps [] orchestrator_llm_worker_agent; mk_started orch.planner_entry orch.planner_caps [] orchestrator_planner_agent]));
   ("init_router_agent", (starting, crew init_router_agent [mk_started 1 timed_caps [] router_client_worker]));
   ("init_net_agent", (starting, crew init_net_agent [mk_started 1 timed_caps [] net_client_worker]));
   ("init_net_prod_agent", ([CAP_LOG; CAP_SEND; CAP_RECV], alone init_net_prod_agent));
   ("init_ui_agent", ([CAP_LOG; CAP_SEND; CAP_RECV], alone init_ui_agent));
   ("init_smp_agent", (starting, crew init_smp_agent [mk_started 1 (capset [CAP_LOG; CAP_SEND]) [] worker_a; mk_started 2 (capset [CAP_LOG; CAP_SEND]) [] worker_b]));
   ("init_edge_agent", (starting, crew init_edge_agent [mk_started 1 timed_caps [] rules_worker; mk_started 2 timed_caps [] edge_llm_worker; mk_started 3 timed_caps [] sensor_worker]));
   ("init_memory_agent", (starting, crew init_memory_agent [mk_started 1 memory_caps [] memory_worker]));
   ("init_memory2_agent", (starting, crew init_memory2_agent [mk_started 1 memory_caps [] memory2_worker]));
   ("init_v1_agent", (starting, crew init_v1_agent [mk_started 1 timed_caps [] v1_worker_agent]));
   ("init_storage2_agent", (starting, crew init_storage2_agent [mk_started 1 talk_caps [] fs_worker]));
   ("init_load_agent", (CAP_FS :: starting, loader (init_load_agent elf) LoadsWorker));
   ("init_console_pack_agent", (CAP_FS :: starting, loader (init_console_pack_agent elf) LoadsAsked));
   ("init_catalog_agent", (CAP_FS :: starting, loader (init_catalog_agent v1_elf v2_pkg) LoadsAsked));
   ("init_desktop_agent", (CAP_FS :: starting, loader (init_desktop_agent elf) LoadsWorker));
   ("init_ota_agent", (CAP_FS :: starting, loader (init_ota_agent junk v1_elf v2_pkg) LoadsWorker));
   ("init_persist2_agent", ([CAP_LOG; CAP_FS], alone (init_persist2_agent junk)));
   ("init_tools_agent", (starting, crew init_tools_agent [mk_started 1 (capset [CAP_LOG; CAP_FS; CAP_TIME; CAP_SEND]) [] (tools_worker_agent junk)]));
   ("init_tools2_agent", (starting, crew init_tools2_agent [mk_started 1 (capset [CAP_LOG; CAP_SEND; CAP_FS]) [TOOL_GPIO; TOOL_HTTP] (tools2_probe_worker junk); mk_started 2 (capset [CAP_LOG; CAP_GPIO; CAP_NET; CAP_SEND; CAP_FS]) [] (allowed_worker junk)]));
   ("init_wrap_agent", (CAP_FS :: starting, crew (init_wrap_agent junk) [mk_started 1 file_caps [TOOL_GPIO] (boot1_worker junk); mk_started 2 file_caps [] (boot2_worker junk)]))].

(** Where the x86 build has another program of the same name. *)
Definition x86_demos : list (string * (list Z * demo)) :=
  [("init_v062_agent", ([CAP_LOG; CAP_SEND; CAP_RECV], alone init_v062_x86_agent));
   ("init_v063_agent", ([CAP_LOG; CAP_SEND; CAP_RECV], alone init_v063_x86_agent));
   ("init_v064_agent", ([CAP_LOG; CAP_SEND; CAP_RECV], alone init_v064_x86_agent));
   ("init_v070_agent", ([CAP_LOG; CAP_SEND; CAP_RECV], alone init_v070_x86_agent));
   ("init_v100_agent", ([CAP_LOG; CAP_SEND; CAP_RECV], alone init_v100_x86_agent))].

Definition table (x86 : bool) : list (string * (list Z * demo)) := if x86 then x86_demos ++ demos else demos.
Definition demo_of (x86 : bool) (entry : string) : option (list Z * demo) :=
  snd <$> find (λ p, String.eqb p.1 entry) (table x86).

Lemma demos_granted : Forall (λ p, demo_granted (capset p.2.1) p.2.2) (x86_demos ++ demos).
Proof.
  unfold x86_demos, demos, alone, crew, loader, starting, orch_agents. cbn [app].
  repeat (apply Forall_cons; split; [constructor; cbn [fst snd d_first d_started d_loads starts fmap list_fmap];
    [ | repeat (apply Forall_cons; split; cbn [st_entry st_caps st_probes st_prog])] | ]);
    solve [by apply Forall_nil | programs call_ok].
Qed.

(** *** In the images *)

Lemma has_land cap cs g : Z.land cs g = cs → has cap cs = true → has cap g = true.
Proof.
  unfold has. rewrite !negb_true_iff, !Z.eqb_neq. intros <- Hn E. apply Hn. by rewrite <- Z.land_assoc, E, Z.land_0_r.
Qed.

Lemma granted_more l k p cs g A e : Z.land cs g = cs → granted_call l k p cs A e → granted_call l k p g A e.
Proof.
  intros Hl. pose proof (λ cap, has_land cap cs g Hl) as Hh. destruct e; cbn [granted_call permitted]; auto; try (intros [Hs ?]; split; auto; done).
  intros [?|(cap & Ec & Hc)]; [by left|]. right. eauto.
Qed.

Lemma demo_granted_more cs g d : Z.land cs g = cs → demo_granted cs d → demo_granted g d.
Proof.
  intros Hl [Hf Hs]. constructor; [|done]. eapply only_mono; [|exact Hf]. intros A e. by apply granted_more.
Qed.

Lemma demo_of_granted x86 entry cs d : demo_of x86 entry = Some (cs, d) → demo_granted (capset cs) d.
Proof.
  unfold demo_of. destruct (find _ _) as [[n [cs' d']]|] eqn:E; [|done]. cbn. intros [= -> ->]. apply find_some in E as [Hin _].
  pose proof demos_granted as Hd. rewrite Forall_forall in Hd. apply (Hd (n, (cs, d))). apply list_elem_of_In.
  unfold table in Hin. destruct x86; [done|]. apply in_or_app. by right.
Qed.

(** The first agent of an image, and the images that the build makes of a file by giving
    another first agent. *)
Definition first_agent (im : image) : option string :=
  foldl (λ o op, match op with StartKernel _ entry => Some entry | _ => o end) None im.

Definition with_first (im : image) (entry : string) : image :=
  (λ op, match op with StartKernel slot _ => StartKernel slot entry | _ => op end) <$> im.

Definition built : list (bool * image) :=
  ((false,.) <$> riscv_images ++ (with_first kmain <$> ["init_harness_agent"; "init_tools_agent"; "init_llm_agent"]))
  ++ ((true,.) <$> x86_images
      ++ (with_first kmain_console_x86 <$> ["init_console_tenant_agent"; "init_console_audit_agent"; "init_console_namespace_agent"])).

(** The agents of the images: the first agent gets what it needs. *)
Definition image_grants (persist : bool) (b : bool * image) : bool :=
  match first_agent b.2 with
  | None => true
  | Some entry =>
      String.eqb entry "init_vm3_agent"
      || match demo_of b.1 entry with None => false | Some (cs, _) => Z.land (capset cs) (granted persist b.2 1) =? capset cs end
  end.

Lemma images_grant persist : forallb (image_grants persist) built = true.
Proof. destruct persist; vm_compute; reflexivity. Qed.

(** [C27] The agents of the demonstrations in their images.  Whatever its calls return, the
    first agent of an image makes only calls for which the image has given it the
    capability; so does every agent that it starts, with the capabilities that it is
    started with, and so on; what is started is one of the listed programs with the listed
    capabilities.  What is loaded from a file always gets the same three capabilities (log,
    send, math); it is the worker package under its fixed path and name, except in two
    demonstrations, which load what a request of the console names.  The exceptions are the
    tools that two demonstrations call in order to be refused.  The demonstration of page
    faults, whose first agent is init_vm3_agent, is not covered. *)
Theorem demos_permitted persist x86 im entry :
  (x86, im) ∈ built → first_agent im = Some entry → entry ≠ "init_vm3_agent" →
  ∃ cs d, demo_of x86 entry = Some (cs, d) ∧ demo_granted (granted persist im 1) d.
Proof.
  intros Hin Hf Hne. pose proof (images_grant persist) as Hg. rewrite forallb_forall in Hg.
  specialize (Hg (x86, im) (proj1 (list_elem_of_In _ _) Hin)). unfold image_grants in Hg. cbn [fst snd] in Hg. rewrite Hf in Hg.
  destruct (String.eqb_spec entry "init_vm3_agent") as [|_]; [done|]. cbn in Hg.
  destruct (demo_of x86 entry) as [[cs d]|] eqn:E; [|done]. apply Z.eqb_eq in Hg. exists cs, d. split; [done|].
  eapply demo_granted_more; [exact Hg|]. by eapply demo_of_granted.
Qed.

End table.

Lemma demos_permitted_witness :
  ∃ cs d, demo_of (λ _, []) [] [] [] true "init_v062_agent" = Some (cs, d) ∧ demo_granted (granted true kmain_v062_x86 1) d.
Proof. apply demos_permitted; [|done|done]. apply list_elem_of_In. vm_compute. tauto. Defined.

(** ** The texts *)

(** A request of the console to load a package is understood by the first agent when the
    path has at most 57 characters, and refused when it has more. *)
Lemma load_request_parsed path name : no_bar path →
  parse_load (str "load:" ++ path ++ chr "|" :: name) = if zlen path <=? 57 then Some (path, take 31 name) else None.
Proof.
  intros Hp. unfold parse_load. change (drop 5 (str "load:" ++ path ++ chr "|" :: name)) with (path ++ chr "|" :: name).
  rewrite before_app by done. destruct (Z.leb_spec (zlen path) 57); [test_false (63 <=? 5 + zlen path)|by test_true (63 <=? 5 + zlen path)].
  assert (cget (str "load:" ++ path ++ chr "|" :: name) (5 + zlen path) = chr "|") as ->.
  { unfold cget. change (str "load:" ++ path ++ chr "|" :: name) with ((str "load:" ++ path) ++ chr "|" :: name).
    unfold zlen. replace (Z.to_nat (5 + Z.of_nat (length path))) with (length (str "load:" ++ path)) by (rewrite length_app; cbn; lia).
    by rewrite nth_middle. }
  cbn [orb negb]. do 3 f_equal. replace (Z.to_nat (5 + zlen path + 1)) with (length (str "load:" ++ path ++ [chr "|"]))
    by (rewrite !length_app; unfold zlen; cbn; lia).
  change (str "load:" ++ path ++ chr "|" :: name) with (str "load:" ++ (path ++ [chr "|"] ++ name)).
  rewrite !app_assoc, <- (app_assoc (str "load:")). by rewrite drop_app_length.
Qed.

(** The copies of the storage service answer a request with a number as the service
    does. *)
Lemma storage_copies m : 0 < (storage.numbered (request_text m)).1 → mtype m = MSG_FS_READ ∨ mtype m = MSG_FS_WRITE →
  observe (copy_handle false m tt) = observe (storage.storage_handle m tt).
Proof.
  intros Hn Hm. unfold copy_handle, storage.storage_handle, copy_handle_read, copy_handle_write, storage.handle_read, storage.handle_write.
  destruct (storage.numbered (request_text m)) as [id body]. cbn [fst] in Hn.
  unfold copy_report, copy_reply, storage.storage_reply, format_fs_rsp_copy, storage.format_fs_rsp. test_false (id <=? 0).
  destruct Hm as [-> | ->]; cbv zeta.
  - apply (observe_bind (give tt)).
  - change (MSG_FS_WRITE =? MSG_FS_READ) with false. change (MSG_FS_WRITE =? MSG_FS_WRITE) with true. cbn iota.
    case_test; [done|]. apply (observe_bind (give tt)).
Qed.

(** The rules of the edge demonstration find the largest sample. *)
Fixpoint csv (ns : list Z) : list Z :=
  match ns with [] => [] | [n] => dec n | n :: ns' => dec n ++ chr "," :: csv ns' end.

Lemma peak_digits l rest cur peak : forallb is_digit l = true → peak_from (l ++ rest) cur peak = peak_from rest (scan_int cur l).1 peak.
Proof.
  revert cur. induction l as [|c l IH]; intros cur Hl; [done|]. cbn in Hl. apply andb_true_iff in Hl as [Hc Hl].
  cbn [app peak_from scan_int]. rewrite Hc. by apply IH.
Qed.

Lemma peak_dec n rest peak : 0 ≤ n < 2147483648 → peak_from (dec n ++ rest) 0 peak = peak_from rest n peak.
Proof.
  intros Hn. rewrite peak_digits by (apply forallb_forall; intros c Hc; apply (proj1 (Forall_forall _ _) (dec_digits n)); by apply list_elem_of_In).
  pose proof (scan_dec n [] Hn) as Hs. rewrite app_nil_r in Hs. by rewrite Hs.
Qed.

Lemma peak_csv ns peak : Forall (λ n, 0 ≤ n < 2147483648) ns → 0 ≤ peak → peak_from (csv ns) 0 peak = foldr Z.max peak ns.
Proof.
  intros Hns. revert peak. induction Hns as [|n ns Hn Hns IH]; intros peak Hp; cbn [csv foldr peak_from]; [by test_false (peak <? 0)|].
  destruct ns as [|n' ns].
  - rewrite <- (app_nil_r (dec n)), peak_dec by done. cbn. destruct (Z.ltb_spec peak n); lia.
  - rewrite peak_dec by done. cbn [peak_from]. change (is_digit (chr ",")) with false. change (chr "," =? chr ",") with true. cbn iota.
    rewrite IH by (destruct (Z.ltb_spec peak n); lia). clear -Hp.
    generalize (n' :: ns). intros l. induction l as [|x l IHl]; cbn; [destruct (Z.ltb_spec peak n); lia|]. rewrite IHl. lia.
Qed.

Lemma parse_peak_max ns : Forall (λ n, 0 ≤ n < 2147483648) ns → parse_peak (csv ns) = foldr Z.max 0 ns.
Proof. intros Hns. by apply peak_csv. Qed.
