(* ===== verification/DemoEnds.v ===== *)
(** * How the demonstrations end

    A first agent that ends with success has told the services of its image to end before
    it does so; and the benchmark of messages does not end with success, because an agent may
    not send as many messages as it does.  Both are stated over all runs of the
    programs with a logic of calls: [gated] for calls that must come before others, [pays] for
    the number of calls that must succeed. *)

From ITree Require Import Core.ITreeDefinition.
From S2P Require Import Prelude Abi Ipc Ramfs Persist Quota AgentDef Vm Kernel Agent Tool LibAgent AgentSvc ServiceAgents ConsoleSvc Pipelines Effects BootImages Boot UserWorld Demos DemoFiles DemoProps.

(** ** Calls before other calls *)

Section gated.
Context (good bad : ∀ A, sysE A → bool).

(** In the first [n] steps there is no bad call before a good one, and a result without a
    good call satisfies [Q]. *)
Fixpoint gatedn {R} (n : nat) (t : prog R) (Q : R → Prop) : Prop :=
  match n with
  | O => True
  | S n' =>
      match observe t with
      | RetF r => Q r
      | TauF t' => gatedn n' t' Q
      | VisF e k => good _ e = true ∨ (bad _ e = false ∧ ∀ x, gatedn n' (k x) Q)
      end
  end.

Definition gated {R} (t : prog R) (Q : R → Prop) : Prop := ∀ n, gatedn n t Q.

Lemma gatedn_bind {R T} n (t : prog R) (h : R → prog T) P Q :
  gatedn n t P → (∀ x, P x → ∀ m, (m ≤ n)%nat → gatedn m (h x) Q) → gatedn n (ITree.bind t h) Q.
Proof.
  revert t. induction n as [|n IH]; intros t Ht Hh; [done|]. cbn [gatedn] in *. rewrite observe_bind.
  assert (∀ x, P x → ∀ m, (m ≤ n)%nat → gatedn m (h x) Q) as Hh' by (intros; apply Hh; [done|lia]).
  destruct (observe t) as [r|t'|X e k]; [by apply (Hh r Ht (S n))|by apply IH|].
  destruct Ht as [Hg|[Hb Hk]]; [by left|]. right. split; [done|]. intros x. by apply IH.
Qed.

Lemma gated_bind {R T} (t : prog R) (h : R → prog T) Q : gated t (λ x, gated (h x) Q) → gated (ITree.bind t h) Q.
Proof. intros Ht n. eapply gatedn_bind; [apply Ht|]. intros x Hx m _. apply Hx. Qed.

Lemma gated_give {R} (r : R) (Q : R → Prop) : Q r → gated (give r) Q.
Proof. by intros Hq [|n]. Qed.

Lemma gated_good {A} (e : sysE A) Q : good _ e = true → gated (call e) Q.
Proof. intros He [|n]; [done|]. by left. Qed.

Lemma gated_only {R} (t : prog R) (Q : R → Prop) : only (λ A e, bad A e = false) t → (∀ r, Q r) → gated t Q.
Proof.
  intros Ht Hq n. specialize (Ht n). revert t Ht. induction n as [|n IH]; intros t Ht; [done|]. cbn [gatedn onlyn] in *.
  destruct (observe t) as [r|t'|X e k]; [done|by apply IH|]. right. destruct Ht as [Hb Hk]. split; [done|]. intros x. by apply IH.
Qed.

Lemma gated_iter {I R} (body : I → prog (I + R)) i Q :
  (∀ i, gated (body i) (λ r, match r with inl _ => True | inr x => Q x end)) → gated (ITree.iter body i) Q.
Proof.
  intros Hb n. enough (∀ m, (m ≤ n)%nat → ∀ i, gatedn m (ITree.iter body i) Q) by (by auto). clear i.
  induction n as [|n IH]; intros [|m] Hm i; try done; [lia|].
  assert (gatedn (S m) (ITree.bind (body i) (λ lr, match lr with inl l => Tau (ITree.iter body l) | inr r => give r end)) Q) as Hn.
  { eapply gatedn_bind; [apply Hb|]. intros [l|r] Hr [|k] Hk; try done. cbn. apply IH. lia. }
  cbn [gatedn] in *. by rewrite observe_iter.
Qed.

(** In every world, a bad call that is reached has a good one before it. *)
Lemma gated_steps {R W} `{World W} self (t : prog R) Q w A (e : sysE A) k w' :
  gated t Q → steps self (observe t, w) (VisF e k, w') → bad _ e = true →
  ∃ B (e' : sysE B) k' w1, steps self (observe t, w) (VisF e' k', w1) ∧ good _ e' = true ∧ steps self (VisF e' k', w1) (VisF e k, w').
Proof.
  intros Ht Hs Hb. assert (∀ n, gatedn n (go (observe t)) Q) as Hg by (intros [|n]; [done|]; apply (Ht (S n))).
  clear Ht. revert Hs Hg. generalize (observe t). intros c Hs Hc. remember (c, w) as x eqn:Ex. remember (VisF e k, w') as y eqn:Ey.
  revert c w Ex Hc. induction Hs as [x|x [c1 w1] y E Hs IH]; intros c w Ex Hc; subst.
  - simplify_eq. destruct (Hc 1%nat) as [Hg|[Hb' _]]; [|congruence]. eexists _, _, _, _. split; [constructor|]. split; [exact Hg|constructor].
  - unfold step in E. cbn [fst snd] in E. destruct c as [r|t'|X e1 k1]; [done| |].
    + injection E as <- <-. destruct (IH eq_refl _ _ eq_refl) as (B & e' & k' & w2 & H1 & H2 & H3).
      { intros n. specialize (Hc (S n)). destruct n; [done|]. exact Hc. }
      exists B, e', k', w2. split; [|done]. by econstructor.
    + destruct (respond self e1 w) as [[x w2]|] eqn:Er; [|done]. injection E as <- <-.
      destruct (good _ e1) eqn:Eg.
      { exists X, e1, k1, w. split; [constructor|]. split; [done|]. econstructor; [|exact Hs]. unfold step. cbn [fst snd]. by rewrite Er. }
      destruct (IH eq_refl _ _ eq_refl) as (B & e' & k' & w3 & H1 & H2 & H3).
      { intros n. specialize (Hc (S n)). cbn in Hc. destruct Hc as [Hg|[_ Hk]]; [congruence|]. specialize (Hk x). by destruct n. }
      exists B, e', k', w3. split; [|done]. econstructor; [|exact H1]. unfold step. cbn [fst snd]. by rewrite Er.
Qed.

End gated.

(** *** The end of a service *)

(** The message that ends service [i]; success. *)
Definition ends_service (i : Z) (A : Type) (e : sysE A) : bool :=
  match e with SysSend dst type _ => (dst =? i) && (type =? MSG_PIPELINE_DONE) | _ => false end.
Definition succeeds (A : Type) (e : sysE A) : bool := match e with SysExit code => code =? 0 | _ => false end.

(** The program does not end with success before it has told service [i] to end. *)
Definition tells (i : Z) (t : prog Empty_set) : Prop := gated (ends_service i) succeeds t (λ _, True).
Definition demo_tells (i : Z) (d : demo) : Prop := tells i (d_first d) ∨ Exists (λ a, tells i (st_prog a)) (d_started d).

Lemma gated_send_done i ts text Q : i ∈ ts → gated (ends_service i) succeeds (send_done ts text) Q.
Proof.
  induction ts as [|t ts IH]; [by intros ?%elem_of_nil|]. intros Hi. cbn [send_done]. apply gated_bind.
  destruct (decide (t = i)) as [->|Hne]; [apply gated_good; cbn; by rewrite Z.eqb_refl|].
  apply gated_only; [by apply only_call|]. intros _. apply IH. apply elem_of_cons in Hi as [->|]; done.
Qed.

Ltac call_quiet := solve [reflexivity | by apply Z.eqb_neq].

Ltac gates :=
  repeat match goal with
  | |- ∀ _, _ => intros ?
  | |- True => exact I
  | |- match ?r with inl _ => _ | inr _ => _ end => exact I || destruct r
  | |- tells _ _ => unfold tells
  | |- gated _ _ (give _) _ => apply gated_give
  | |- gated _ _ (send_done _ _) _ => apply gated_send_done; solve [repeat constructor]
  | |- gated _ _ (agent_send_msg _ _ _) _ => apply gated_good; reflexivity
  | |- gated _ _ _ _ => apply gated_only; [solve [programs call_quiet]|]
  | |- gated _ _ (ITree.bind _ _) _ => apply gated_bind
  | |- gated _ _ (ITree.iter _ _) _ => apply gated_iter
  | |- gated _ _ (match ?x with _ => _ end) _ => destruct x
  | |- gated _ _ (let '(_, _) := ?x in _) _ => destruct x
  | |- gated _ _ ?t _ => let h := head_of t in progress unfold h
  | |- gated _ _ ?t _ => progress cbv zeta
  end.

(** *** In the images *)

(** The services that the first agents tell to end, by the names of the first agents. *)
Definition endings : list (string * list Z) :=
  [("init_console_audit_agent", [DISPLAY_AGENT_ID; INPUT_AGENT_ID]);
   ("init_console_namespace_agent", [DISPLAY_AGENT_ID; INPUT_AGENT_ID]);
   ("init_console_quota_agent", [DISPLAY_AGENT_ID; INPUT_AGENT_ID]);
   ("init_console_tenant_agent", [DISPLAY_AGENT_ID; INPUT_AGENT_ID]);
   ("init_console_v7_agent", [DISPLAY_AGENT_ID; INPUT_AGENT_ID]);
   ("init_v01_beta_agent", [DISPLAY_AGENT_ID; INPUT_AGENT_ID]);
   ("init_v02_rc_agent", [DISPLAY_AGENT_ID; INPUT_AGENT_ID]);
   ("init_v030_agent", [DISPLAY_AGENT_ID; INPUT_AGENT_ID]);
   ("init_v040_agent", [DISPLAY_AGENT_ID; INPUT_AGENT_ID]);
   ("init_v050_agent", [DISPLAY_AGENT_ID; INPUT_AGENT_ID; ROUTER_AGENT_ID]);
   ("init_v060_agent", [DISPLAY_AGENT_ID; INPUT_AGENT_ID]);
   ("init_v061_agent", [DISPLAY_AGENT_ID; INPUT_AGENT_ID; ROUTER_AGENT_ID]);
   ("init_v062_agent", [DISPLAY_AGENT_ID; INPUT_AGENT_ID; ROUTER_AGENT_ID]);
   ("init_v063_agent", [DISPLAY_AGENT_ID; INPUT_AGENT_ID; ROUTER_AGENT_ID]);
   ("init_v064_agent", [DISPLAY_AGENT_ID; INPUT_AGENT_ID; ROUTER_AGENT_ID]);
   ("init_v070_agent", [DISPLAY_AGENT_ID; INPUT_AGENT_ID; ROUTER_AGENT_ID]);
   ("init_v100_agent", [DISPLAY_AGENT_ID; INPUT_AGENT_ID; ROUTER_AGENT_ID]);
   ("init_console_agent", [ROUTER_AGENT_ID; DISPLAY_AGENT_ID; INPUT_AGENT_ID]);
   ("init_console_session_agent", [ROUTER_AGENT_ID; DISPLAY_AGENT_ID; INPUT_AGENT_ID]);
   ("init_console_orch_agent", [STORAGE_AGENT_ID; DISPLAY_AGENT_ID; INPUT_AGENT_ID]);
   ("init_edge_agent", [ROUTER_AGENT_ID; STORAGE_AGENT_ID]);
   ("init_memory_agent", [STORAGE_AGENT_ID]);
   ("init_memory2_agent", [STORAGE_AGENT_ID]);
   ("init_v1_agent", [STORAGE_AGENT_ID]);
   ("init_storage2_agent", [STORAGE_AGENT_ID]);
   ("init_orchestrator_agent", [STORAGE_AGENT_ID]);
   ("init_router_agent", [ROUTER_AGENT_ID]);
   ("init_net_agent", [NET_AGENT_ID]);
   ("init_net_prod_agent", [NET_AGENT_ID]);
   ("init_ui_agent", [DISPLAY_AGENT_ID; INPUT_AGENT_ID]);
   ("init_catalog_agent", [DISPLAY_AGENT_ID; INPUT_AGENT_ID]);
   ("init_desktop_agent", [DISPLAY_AGENT_ID; INPUT_AGENT_ID; SHELL_AGENT_ID])].

Definition x86_endings : list (string * list Z) :=
  [("init_v062_agent", [DISPLAY_AGENT_ID; INPUT_AGENT_ID]);
   ("init_v063_agent", [DISPLAY_AGENT_ID; INPUT_AGENT_ID]);
   ("init_v064_agent", [DISPLAY_AGENT_ID; INPUT_AGENT_ID]);
   ("init_v070_agent", [DISPLAY_AGENT_ID; INPUT_AGENT_ID]);
   ("init_v100_agent", [DISPLAY_AGENT_ID; INPUT_AGENT_ID])].

Section table.
Context (junk : Z → list Z) (elf v1_elf v2_pkg : list Z).
Abbreviation demo_of := (demo_of junk elf v1_elf v2_pkg).

Definition told (x86 : bool) (p : string * list Z) : Prop :=
  ∃ cs d, demo_of x86 p.1 = Some (cs, d) ∧ Forall (λ i, demo_tells i d) p.2.

Ltac telling :=
  eexists _, _; split; [reflexivity|]; cbn [snd]; unfold demo_tells;
  repeat (apply Forall_cons; split; [first [left; solve [cbn [d_first alone crew loader]; gates]
    | right; cbn [d_started alone crew loader]; solve [repeat first [apply Exists_cons; left; solve [cbn [st_prog]; gates] | apply Exists_cons; right]]]|]);
  by apply Forall_nil.

Lemma endings_told : Forall (told false) endings ∧ Forall (told true) x86_endings.
Proof.
  split; unfold endings, x86_endings; repeat (apply Forall_cons; split; [telling|]); by apply Forall_nil.
Qed.

(** Looking up a name in one list after another. *)
Lemma find_app {A} (f : A → bool) l1 l2 : find f (l1 ++ l2) = match find f l1 with Some x => Some x | None => find f l2 end.
Proof. induction l1 as [|x l1 IH]; [done|]. cbn. by destruct (f x). Qed.

Lemma find_key {A B} (l1 : list (string * A)) (l2 : list (string * B)) n :
  l1.*1 = l2.*1 → find (λ p, String.eqb p.1 n) l1 = None → find (λ p, String.eqb p.1 n) l2 = None.
Proof.
  revert l2. induction l1 as [|p l1 IH]; intros [|q l2] E Hf; try done. injection E as Ep El. cbn in Hf |- *. rewrite Ep in Hf.
  destruct (String.eqb q.1 n); [done|]. by apply IH.
Qed.

Definition ending_of (x86 : bool) (entry : string) : list Z :=
  match find (λ p, String.eqb p.1 entry) (if x86 then x86_endings ++ endings else endings) with Some p => p.2 | None => [] end.

Lemma ending_told x86 entry i : i ∈ ending_of x86 entry → ∃ cs d, demo_of x86 entry = Some (cs, d) ∧ demo_tells i d.
Proof.
  destruct endings_told as [He Hx]. rewrite Forall_forall in He, Hx. unfold ending_of.
  assert (∀ l p, find (λ p : string * list Z, String.eqb p.1 entry) l = Some p → p ∈ l ∧ p.1 = entry) as Hfind.
  { intros l p [Hp Ep]%find_some. split; [by apply list_elem_of_In|by apply String.eqb_eq]. }
  destruct x86; rewrite ?find_app.
  - destruct (find _ x86_endings) as [p|] eqn:E1; [|destruct (find _ endings) as [p|] eqn:E2; [|by intros ?%elem_of_nil]].
    + apply Hfind in E1 as [Hp <-]. intros Hi. destruct (Hx p Hp) as (cs & d & Ed & Hd). rewrite Forall_forall in Hd. eauto.
    + apply Hfind in E2 as [Hp Ep]. intros Hi. destruct (He p Hp) as (cs & d & Ed & Hd). rewrite Forall_forall in Hd. exists cs, d.
      split; [|by apply Hd]. rewrite <- Ed, Ep. unfold DemoProps.demo_of, table. rewrite find_app.
      by rewrite (find_key x86_endings x86_demos entry eq_refl E1).
  - destruct (find _ endings) as [p|] eqn:E2; [|by intros ?%elem_of_nil]. apply Hfind in E2 as [Hp <-].
    intros Hi. destruct (He p Hp) as (cs & d & Ed & Hd). rewrite Forall_forall in Hd. eauto.
Qed.

(** The services that run until they are told to end. *)
Definition waiting_services : list string :=
  ["storage_agent_main"; "router_agent_main"; "network_agent_main"; "network_prod_agent_main"; "display_agent_main"; "input_agent_main"].

(** The program of the package demonstration is also that of an image without a screen, whose
    last message ends it at once; and one program of the x86 build does not know of the
    router in its image. *)
Definition left_running : list (bool * string * Z) :=
  [(false, "init_console_pack_agent", DISPLAY_AGENT_ID); (false, "init_console_pack_agent", INPUT_AGENT_ID);
   (true, "init_v062_agent", ROUTER_AGENT_ID)].

Definition image_ends (b : bool * image) : bool :=
  match first_agent b.2 with
  | None => true
  | Some entry =>
      forallb (λ i, match service_at b.2 i with
                    | None => true
                    | Some svc => negb (bool_decide (svc ∈ waiting_services)) || bool_decide ((b.1, entry, i) ∈ left_running)
                                  || bool_decide (i ∈ ending_of b.1 entry)
                    end) slots
  end.

Lemma images_end : forallb image_ends built = true.
Proof. vm_compute. reflexivity. Qed.

(** [C28] The end of the images.  For every service of an image that runs until it is told to
    end, an agent of the image's demonstration tells it so on every way to ending with
    success, whatever its calls return (with the exceptions listed above). *)
Theorem services_told x86 im entry i svc :
  (x86, im) ∈ built → first_agent im = Some entry → 0 ≤ i < MAX_AGENTS → service_at im i = Some svc → svc ∈ waiting_services →
  (x86, entry, i) ∉ left_running → ∃ cs d, demo_of x86 entry = Some (cs, d) ∧ demo_tells i d.
Proof.
  intros Hin Hf Hi Hs Hw Hl. pose proof images_end as He. rewrite forallb_forall in He.
  specialize (He (x86, im) (proj1 (list_elem_of_In _ _) Hin)). unfold image_ends in He. cbn [fst snd] in He.
  rewrite Hf, forallb_forall in He. specialize (He i). rewrite Hs in He.
  assert (In i slots) as Hsl by (apply list_elem_of_In, elem_of_seqZ; lia). apply He in Hsl.
  rewrite (bool_decide_true (svc ∈ _)), (bool_decide_false (_ ∈ left_running)) in Hsl by done. cbn in Hsl.
  apply ending_told. by apply bool_decide_eq_true in Hsl.
Qed.

(** The exception: this program never sends anything to the router, which its image
    starts. *)
Lemma router_left_running : service_at kmain_v062_x86 ROUTER_AGENT_ID = Some "router_agent_main"
  ∧ first_agent kmain_v062_x86 = Some "init_v062_agent" ∧ (∃ cs, demo_of true "init_v062_agent" = Some (cs, alone init_v062_x86_agent))
  ∧ only (λ A e, match e with SysSend dst _ _ => dst ≠ ROUTER_AGENT_ID | _ => True end) init_v062_x86_agent.
Proof.
  split; [done|]. split; [done|]. split; [by eexists|].
  unfold init_v062_x86_agent, wait_console. cbn [send_done].
  programs_with fail ltac:(solve [exact I | discriminate]).
Qed.

End table.

Lemma services_told_witness :
  ∃ cs d, demo_of (λ _, []) [] [] [] false "init_edge_agent" = Some (cs, d) ∧ demo_tells ROUTER_AGENT_ID d.
Proof.
  apply (services_told (λ _, []) [] [] [] false kmain_edge "init_edge_agent" ROUTER_AGENT_ID "router_agent_main"); try done.
  - apply list_elem_of_In. vm_compute. tauto.
  - apply list_elem_of_In. vm_compute. tauto.
  - intros Hn. apply list_elem_of_In in Hn. vm_compute in Hn. intuition discriminate.
Defined.

(** ** Calls that must succeed *)

(** In the first [n] steps the program ends with success only after [m] more sends that
    were accepted; a result comes with the number that is then left. *)
Fixpoint paysn {R} (n m : nat) (t : prog R) (Q : nat → R → Prop) : Prop :=
  match n with
  | O => True
  | S n' =>
      match observe t with
      | RetF r => Q m r
      | TauF t' => paysn n' m t' Q
      | VisF e k =>
          match e in sysE A return (A → prog R) → Prop with
          | SysSend _ _ _ => λ k, ∀ rc, paysn n' (if rc <? 0 then m else pred m) (k rc) Q
          | SysExit code => λ _, code = 0 → m = 0%nat
          | _ => λ k, ∀ x, paysn n' m (k x) Q
          end k
      end
  end.

Definition pays {R} (m : nat) (t : prog R) (Q : nat → R → Prop) : Prop := ∀ n, paysn n m t Q.

(** No send and no end with success. *)
Definition idle_call (A : Type) (e : sysE A) : Prop :=
  match e with SysSend _ _ _ => False | SysExit code => code ≠ 0 | _ => True end.

Lemma pays_bind {R T} m (t : prog R) (h : R → prog T) Q : pays m t (λ m' x, pays m' (h x) Q) → pays m (ITree.bind t h) Q.
Proof.
  intros Ht n. specialize (Ht n). revert m t Ht. induction n as [|n IH]; intros m t Ht; [done|]. cbn [paysn] in *. rewrite observe_bind.
  destruct (observe t) as [r|t'|X e k]; [apply (Ht (S n))|by apply IH|]. destruct e; cbn in *; auto.
Qed.

Lemma pays_weaken {R} m (t : prog R) (P Q : nat → R → Prop) : pays m t P → (∀ m' r, P m' r → Q m' r) → pays m t Q.
Proof.
  intros Ht Hpq n. specialize (Ht n). revert m t Ht. induction n as [|n IH]; intros m t Ht; [done|]. cbn [paysn] in *.
  destruct (observe t) as [r|t'|X e k]; [by apply Hpq|by apply IH|]. destruct e; cbn in *; auto.
Qed.

Lemma pays_give {R} m (r : R) (Q : nat → R → Prop) : Q m r → pays m (give r) Q.
Proof. by intros Hq [|n]. Qed.

Lemma pays_idle {R} m (t : prog R) (Q : nat → R → Prop) : only idle_call t → (∀ r, Q m r) → pays m t Q.
Proof.
  intros Ht Hq n. specialize (Ht n). revert t Ht. induction n as [|n IH]; intros t Ht; [done|]. cbn [paysn onlyn] in *.
  destruct (observe t) as [r|t'|X e k]; [done|by apply IH|]. destruct Ht as [He Hk]. destruct e; cbn in *; auto; done.
Qed.

Lemma pays_send m dst ty text (Q : nat → Z → Prop) :
  (∀ rc, Q (if rc <? 0 then m else pred m) rc) → pays m (agent_send_msg dst ty text) Q.
Proof. intros Hq [|[|n]]; [done|done|]. cbn. intros rc. apply Hq. Qed.

Lemma pays_exit {R} m code Q : (code = 0 → m = 0%nat) → pays m (agent_exit code : prog R) Q.
Proof. by intros Hc [|n]. Qed.

Lemma pays_die {R} m s Q : pays m (die s : prog R) Q.
Proof. apply pays_bind, pays_idle; [by apply only_call|]. intros _. by apply pays_exit. Qed.

(** *** The benchmark *)

Ltac idle := programs ltac:(solve [exact I | done]).

Lemma bench_rounds_pay j m : pays (j + m) (bench_rounds j) (λ m' _, m' = m).
Proof.
  induction j as [|j IH]; cbn [bench_rounds]; [by apply pays_give|]. apply pays_bind, pays_send. intros rc. case_test; [apply pays_die|].
  apply pays_bind, pays_idle; [idle|]. intros r. case_test; [apply pays_die|exact IH].
Qed.

Lemma bench_pays : pays BENCH_ROUNDS init_bench_ipc_agent (λ _ _, True).
Proof.
  unfold init_bench_ipc_agent. do 3 (apply pays_bind, pays_idle; [idle|]; intros ?).
  apply pays_bind. eapply pays_weaken; [apply (bench_rounds_pay BENCH_ROUNDS 0)|]. intros m' _ ->.
  do 5 (apply pays_bind, pays_idle; [idle|]; intros ?). by apply pays_exit.
Qed.

(** *** Against the quota *)

Section quota.
Context {F : Type} `{Tools F} (cl sv : Z).
Hypothesis Hcl : 0 ≤ cl < MAX_AGENTS.
Hypothesis Hsv : 0 ≤ sv < MAX_AGENTS.
Hypothesis Hne : cl ≠ sv.
Implicit Types w : uworld F.
Abbreviation used w := (quota_ipc_used (uw_quota w) (Some cl)).

(** A send: refused, or accepted and counted for its sender. *)
Lemma send_counted self dst ty text w : 0 ≤ self < MAX_AGENTS → quota_wf (uw_quota w) →
  let '(rc, w') := uw_send self dst ty text w in
  quota_wf (uw_quota w') ∧ (rc < 0 ∧ used w' = used w ∨ rc = 0 ∧ used w' = used w + (if decide (self = cl) then 1 else 0)).
Proof.
  intros Hs Hq. unfold uw_send. destruct (negb _); [split; [done|left; done]|]. destruct (negb _); [split; [done|left; done]|].
  case_test; [split; [done|left; done]|]. destruct (take _ text) as [|c text']; [split; [done|left; done]|].
  destruct (mb_push _ _) as [rc box] eqn:E. case_test; bprop.
  - split; [done|]. left. split; [|done]. revert E. unfold mb_push, ENOSPC. repeat case_test; intros [= <- <-]; bprop; lia.
  - cbn. unfold QUOTA_IPC_MAX in *. split; [apply quota_ipc_charge_wf; [done|]|right; split; [done|]].
    + unfold quota_ipc_allow, quota_ipc_max, QUOTA_IPC_MAX. by test_false (16 <=? quota_ipc_used (uw_quota w) (Some self)).
    + rewrite quota_ipc_charge_used by (done || lia). done.
Qed.

(** More sends are needed than the quota leaves. *)
Definition short (c : itree' sysE Empty_set) w : Prop :=
  ∃ m, (∀ n, paysn n m (go c) (λ _ _, True)) ∧ quota_wf (uw_quota w) ∧ QUOTA_IPC_MAX < used w + Z.of_nat m.

Lemma short_step c w c' w' : step cl (c, w) = Some (c', w') → short c w → short c' w'.
Proof.
  intros E (m & Hp & Hq & Hm).
  assert (∀ m' t w', c' = observe t → (∀ n, paysn n m' t (λ _ _, True)) → quota_wf (uw_quota w') →
    QUOTA_IPC_MAX < used w' + Z.of_nat m' → short c' w') as Hk.
  { intros m' t w2 -> Ht Hq2 Hm2. exists m'. split; [|done]. intros n. specialize (Ht n). by destruct n. }
  unfold step in E. cbn [fst snd] in E. destruct c as [r|t|X e k]; [done| |].
  { injection E as <- <-. eapply (Hk m t); [done|intros n; apply (Hp (S n))|done|done]. }
  destruct (respond cl e w) as [[x w1]|] eqn:Er; [|done]. injection E as <- <-.
  assert (∀ n, paysn (S n) m (Vis e k) (λ _ _, True)) as Hv by (intros n; apply (Hp (S n))). cbn [paysn observe _observe] in Hv.
  destruct e; cbn in Er;
    try (eapply (Hk m (k x)); [done|intros n; apply Hv| |];
         repeat match goal with Er : context [let '(_, _) := ?y in _] |- _ => destruct y end; by simplify_eq).
  - pose proof (send_counted cl dst type payload w Hcl Hq) as Hs. simplify_eq. rewrite Er in Hs. destruct Hs as [Hq1 Hs].
    eapply (Hk (if x <? 0 then m else pred m)); [done|intros n; apply Hv|done|]. rewrite decide_True in Hs by done.
    destruct Hs as [[Hx Hu]|[-> Hu]]; [test_true (x <? 0); by rewrite Hu|]. change (0 <? 0) with false. cbn iota. rewrite Hu. lia.
  - eapply (Hk m (k x)); [done|intros n; apply Hv|..]; injection Er as Er; revert Er; unfold uw_recv;
      (case_test; [|destruct (mb_pop _) as [[rc [?|]] box]]); intros Er; by simplify_eq.
  - done.
Qed.

(** The steps of the other agent do not count. *)
Lemma other_step (c c' : itree' sysE Empty_set) w w' :
  step sv (c, w) = Some (c', w') → quota_wf (uw_quota w) → quota_wf (uw_quota w') ∧ used w' = used w.
Proof.
  intros E Hq. unfold step in E. cbn [fst snd] in E. destruct c as [r|t|X e k]; [done|by simplify_eq|].
  destruct (respond sv e w) as [[x w1]|] eqn:Er; [|done]. injection E as _ <-. destruct e; cbn in Er;
    try (repeat match goal with Er : context [let '(_, _) := ?y in _] |- _ => destruct y end; by simplify_eq).
  - pose proof (send_counted sv dst type payload w Hsv Hq) as Hs. simplify_eq. rewrite Er, decide_False in Hs by done.
    destruct Hs as [? [[_ ->]|[_ ->]]]; split; done || lia.
  - injection Er as Er. revert Er. unfold uw_recv. (case_test; [|destruct (mb_pop _) as [[rc [?|]] box]]); intros Er; by simplify_eq.
Qed.

Lemma short_turns (t1 t2 : prog Empty_set) w l :
  short (observe t1) w → let d := run_turns cl sv l (mk_duo (observe t1) (observe t2) w) in short (d_client d) (d_world d).
Proof.
  intros Hs. set (d0 := mk_duo _ _ w). assert (short (d_client d0) (d_world d0)) as H0 by exact Hs. clearbody d0. revert d0 H0.
  induction l as [|who l IH]; intros d0 H0; [done|]. cbn. apply IH. destruct d0 as [c s w0]. cbn in *. destruct who; cbn.
  - destruct (step cl (c, w0)) as [[c' w']|] eqn:E; [|done]. by eapply short_step.
  - destruct (step sv (s, w0)) as [[s' w']|] eqn:E; [|done]. cbn. destruct H0 as (m & Hp & Hq & Hm).
    destruct (other_step _ _ _ _ E Hq) as [Hq' Hu]. exists m. by rewrite Hu.
Qed.

Lemma used_bound w : quota_wf (uw_quota w) → 0 ≤ used w ≤ QUOTA_IPC_MAX.
Proof.
  intros [_ _ Hf _]. unfold quota_ipc_used. destruct (quota_slot _) as [i|]; [|unfold QUOTA_IPC_MAX; lia].
  rewrite nth_lookup. destruct (quota_ipc_count (uw_quota w) !! i) as [n|] eqn:E; cbn; [|unfold QUOTA_IPC_MAX; lia].
  by eapply Forall_lookup in E; [|exact Hf].
Qed.

Lemma short_never c w k : short c w → c ≠ VisF (SysExit 0) k.
Proof.
  intros (m & Hp & Hq & Hm) ->. specialize (Hp 1%nat eq_refl). subst m. pose proof (used_bound w Hq). lia.
Qed.

End quota.

(** [C29] The benchmark of messages cannot complete: however it and its partner (any program) take
    turns, and whatever the tools answer, it does not come to its end with success, because
    it makes 32 sends and the kernel accepts 16 of an agent. *)
Theorem bench_incomplete {F} `{Tools F} (w : uworld F) (partner : prog Empty_set) l k :
  quota_wf (uw_quota w) → d_client (run_turns 1 PING_AGENT_ID l (mk_duo (observe init_bench_ipc_agent) (observe partner) w)) ≠ VisF (SysExit 0) k.
Proof.
  intros Hq. assert (short 1 (observe init_bench_ipc_agent) w) as Hs.
  { exists BENCH_ROUNDS. split; [intros n; pose proof (bench_pays n) as Hb; by destruct n|]. split; [done|].
    pose proof (used_bound 1 w Hq). change (Z.of_nat BENCH_ROUNDS) with 32. unfold QUOTA_IPC_MAX in *. lia. }
  eapply short_never. apply (short_turns 1 PING_AGENT_ID); [by vm_compute|by vm_compute|done|exact Hs].
Qed.

(** With its own partner it ends with the code of failure. *)
#[local] Instance no_tools : Tools unit :=
  {| tool_call _ _ _ f := ((0, replicate 8 0), f); llm_call _ _ _ f := ((0, []), f); misc_call _ _ f := (0, f) |}.

Definition bench_world : uworld unit :=
  mk_uw {[1 := mk_ua talk_caps (mk_mailbox [] []); PING_AGENT_ID := mk_ua talk_caps (mk_mailbox [] [])]} zero_quota zero_bss tt.

Example bench_fails :
  match d_client (run_turns 1 PING_AGENT_ID (mjoin (replicate 400 [true; false]))
    (mk_duo (observe init_bench_ipc_agent) (observe ping_agent_main) bench_world)) with
  | VisF (SysExit code) _ => code = 1
  | _ => False
  end.
Proof. vm_compute. reflexivity. Qed.

Lemma bench_incomplete_witness :
  d_client (run_turns 1 PING_AGENT_ID [true; false] (mk_duo (observe init_bench_ipc_agent) (observe ping_agent_main) bench_world))
    ≠ VisF (SysExit 0) (λ _, ping_agent_main).
Proof. apply bench_incomplete. apply (quota_init_wf zero_quota). Defined.
